(* ===== verification/_CoqProject ===== *)
-Q . S2P
Prelude.v
Types.v
OperatorStore.v
AlertStream.v
AlertPipeline.v
GridLayout.v
Http.v
AuthFetch.v
ApiClient.v
IronsightApi.v
Router.v
MsePlayer.v
FeatureFlags.v
Session.v
Media.v
ZoneEditor.v
CameraRegistry.v
Timeline.v
Hooks.v
Playback.v
EventsPanel.v
Monitor.v
Investigation.v
Console.v
CameraManager.v
AdminConsole.v
Settings.v
Preferences.v
Tiles.v
Ppe.v
Compliance.v
Support.v
Portal.v
History.v
Milesight.v
JsonText.v
SiteServer.v
SitePage.v
SiteConfig.v
SiteAccess.v
SiteProcedures.v
SearchServer.v
SearchPage.v
Labeling.v
EvidenceShares.v
SupportServer.v
SupportDesk.v
Notifications.v
FourEyes.v
Contacts.v
