(* ===== verification/Prelude.v ===== *)
(** * Ironsight frontend: a verification library

    Ironsight is a security and safety platform for construction sites: a Go
    backend records cameras and raises alarms, and a Next.js frontend under
    [src/frontend/src] is the console of the operators, the camera wall, and the
    portal of the customers.  This library models the program logic of that
    frontend: its stores, its connections to the backend, its API clients, its
    player, its editors and its hooks.  Every definition translates the code named
    beside it; where a claim compares the frontend with the backend, the Go
    function is translated as well: the double-submit check and cookies of
    [internal/api/auth_handler.go], the codec patch of [internal/api/live_proxy.go],
    the score of [internal/avs/scoring.go], and those named with their screens below.

    ** How the program works, and where it is modelled

    Alarms arrive over a WebSocket and end in the operator's store:

    - [Types] holds the records of [types/ironsight.ts].
    - [AlertStream] is the class of [lib/ws-alerts.ts].  Each method and browser
      callback is a function from the object's state to its next state and its
      effects; [sys_step] lets the browser complete pending fetches, sockets and
      timers in any order.  [exactly_one_attempt], [destroy_is_final] and
      [exponential_backoff] describe its life cycle.
    - [OperatorStore] is the Zustand store of [stores/operator-store.ts], one
      function per action.  [store_invariant] bounds and orders every reachable
      state; [alarm_lifecycle] follows an alarm from engagement to its disposition;
      [dismissed_never_revived] and [dismissal_forgotten] state what the ring of
      500 dismissals guarantees and exactly where it ends; [escalation_drops_owner] shows a
      defect.
    - [AlertPipeline] is the hook of [hooks/useAlerts.ts] that joins the two.  The
      class [AlertSink] is what the stream needs of a store;
      [hook_refines_store] is the refinement: whatever the network does, the store
      is the one that its own actions produce on the frames received.

    Everything else reaches the backend through the fetch layer:

    - [Http] is the browser's side of it, an effect monad with exceptions over a
      network and a cookie jar that are arbitrary functions of the history, with
      the URL and header operations that the clients use.
    - [AuthFetch] is [authFetch] with its CSRF bootstrap and retry, the wrappers
      [apiFetch] and [fetchJSON], and the check of
      [internal/api/auth_handler.go] as the server.  [request_exactly_once] is the contract of the layer.
    - [ApiClient] ([lib/api.ts]) and [IronsightApi] ([lib/ironsight-api.ts],
      [lib/milesight.ts]) are the two clients, one definition per exported
      function.  [mutations_delivered_once], [events_request_exact],
      [platform_requests_exact] give their requests; [avs_preview_exact] compares
      the score preview with the backend's.
    - [Media] ([lib/media.ts]) signs media URLs and refreshes them;
      [CameraRegistry] is the query and mutation functions of the registry hooks;
      [FeatureFlags] ([lib/feature-flags.ts]) the shared flag map;
      [Session] the authentication context, the route guards and the session
      manager.

    The camera wall and the player:

    - [GridLayout] is [lib/camera-grid-layout.ts] and the layout state of
      [components/CameraGrid.tsx]: two modes, the saved layouts, drag and resize on
      a 32 column canvas.  [grid_invariant] holds after any handlers and camera
      lists; [convert_roundtrip], [layout_switch_restores], [default_layout_tiles]
      and [fit_viewport_bounds] describe the single operations.
    - [MsePlayer] ([lib/mse-player.ts]) is the low-latency player: a byte-level
      codec patch and a state machine over socket and SourceBuffer events
      ([player_in_order], [hvcc_patch_safe]).
    - [Timeline] ([components/Timeline.tsx]) is the ruler, the markers and the ways
      to seek; [ZoneEditor] the detection-zone geometry, canvas and editor;
      [Hooks] the overlay toggles, zoom, keyboard, alert sounds, the small stores
      and the formatters.
    - [Playback] ([components/VideoPlayer.tsx]) is the tile: the loader of recorded
      segments refines a short specification of what plays after a seek
      ([opening_refines]); PTZ motion stops whatever happens ([ptz_stops]).
    - [EventsPanel] ([components/EventListPanel.tsx]) and [Monitor] ([app/page.tsx])
      are the events panel and the page around wall, timeline and panel: the list
      displayed, the scope of the queries, the merge of queried and live events and
      the page's own socket ([displayed_exact], [merge_exact], [page_socket]).
    - [Tiles] is the older layout hook, the clip player over hls.js and the snapshot
      loader of the zone editors.

    The operator's screens, state machines over the store of [OperatorStore]:

    - [Investigation] ([app/operator/alarm/\[id\]/page.tsx],
      [components/operator/ActiveAlarmView.tsx]): [desk_refines_store] is the
      refinement to the store's actions, [submission_exact] what a disposition sends.
    - [Console] ([app/operator/page.tsx] with feed, wrap-up overlay, roster and
      toasts): [console_invariant], [wrapup_countdown], [display_exact].

    Administration:

    - [CameraManager] ([components/CameraManager.tsx]), [AdminConsole]
      ([app/admin/page.tsx]) and [Settings] ([components/SettingsPage.tsx] with its
      tabs): forms, lists and their requests.  A handler runs up to its first
      [await]; what follows is a task that a reply resumes, in any order among the
      tasks.  [busy_flags_exact], [bulk_delete_exact] and [read_only_view] hold over
      all such runs; [failed_autosave_dropped] and [profile_save_wipes_sites] are
      defects that they show.
    - [Ppe] ([components/PPEZoneEditor.tsx]), [Compliance]
      ([components/ComplianceRulesPanel.tsx]) and [Milesight]
      ([components/MilesightAdvanced.tsx]) configure a camera.  A vendor panel is a
      JSON value edited field by field ([saves_only_controls]).
    - [Preferences] is language, theme, toasts, keyboard support and install banner.

    The customers' portal:

    - [Portal] is the review queue and the overview with its CSV exports, [Support]
      the ticket widget, [History] the history page, [SitePage] the page of one site
      ([snooze_never_stored], [site_page_constant]).

    Sites, from the dialogs to the recorder:

    - [SiteServer] is a row of the sites table and the Go functions that read and
      write it ([internal/api/platform.go], [internal/database/platform_db.go]),
      up to the recorder's reading of the recording schedule
      ([internal/recording/engine.go]).
    - [SiteConfig] is the dialogs of [components/admin] for one site: details,
      recording policy, the schedules, archive and deletion.
      [recording_schedule_exact] follows a schedule from the editor through its JSON
      text to the recorder; [archive_reported_never_done],
      [stored_schedule_never_shown] and [failed_load_overwrites] are defects.
    - [JsonText] is the language's JSON serialiser and parser with their round trip
      ([JSON_roundtrip]); [Router] the route table of [internal/api/router.go] and
      the client functions without a route ([unserved_exact]).
    - [SiteAccess] is who and what is at a site: cameras and speakers with their
      assignment history ([moves_compared]), and the accounts of a site
      ([self_assignment_opens_site]).
    - [SiteProcedures] is the procedures of a site, with a refinement of the dialog to
      the server's table over a network that delays, reorders and loses
      ([sops_view_exact], [sops_overtaken]), and the alert rules ([rules_never_stored]).
    - [SearchServer] is the frame search of [internal/api/search_frames.go]
      ([search_answer_exact]) and [SearchPage] the page over it ([dead_checkboxes],
      [saved_search_exact], [search_results_exact]).
    - [Labeling] is the annotation page with its queue on the server
      ([internal/database/vlm_labels.go]): any number of pages whose requests interleave
      ([claims_exclusive], [claimed_job_lost], [picked_job_kept]) and the export of the
      training data ([training_answer_parses]).
    - [EvidenceShares] is the life of a public link to evidence on the server
      ([internal/api/evidence_share.go]; [share_life]), with the card and the export
      button that make them ([choice_exact], [badge_exact], [button_settles]).
    - [SupportServer] is the ticket tables behind [Support], their handlers and the
      retention worker ([internal/api/support.go], [internal/database/support.go]): a
      state machine per ticket with a simulation ([ticket_life]), well-formed tables
      ([tables_stay_wf]) and the isolation of the organizations from each other
      ([tenants_isolated]).  [SupportDesk] is the operations centre's page over it
      ([one_reply_at_a_time], [awaiting_exact]).
    - [Notifications] is who is told of an alarm: the subscriptions, their matching
      ([recipients_exact], [quiet_exact], [alarms_cross_tenants]) and the page of
      preferences ([preference_stored]).
    - [FourEyes] is the recording of a disposition and its signature by a second
      supervisor ([four_eyes_void], [verify_exact], [first_signature_stands]), with the
      queue of events to sign ([pending_exact]).
    - [Contacts] is the page on which a customer keeps the contacts of a site, with its two
      handlers ([contacts_saved], [contacts_guarded], [removed_comes_back]).
    - Where the outcome of a request is the point, the server's function is
      translated too: [HandleReviewPendingEntry], [validateComplianceRuleCreate], the scenes of
      [Milesight], the user profile of [AdminConsole], the handlers of [SiteServer], the
      device assignments and [callerScope] of [SiteAccess], the handlers of
      [SiteProcedures].

    [Prelude] (this file) has the shared notation, JavaScript's truthiness and
    array idioms with their lemmas, the hint databases [js] and [quiet], a stable
    sort, decimal padding and ISO time stamps.

    ** Conventions

    - A handler or action is a function from the state to the next state, with the
      calls or effects it makes.  A clock reading ([Date.now()]) is an argument,
      one per reading; randomness is an argument.
    - Where several parties act (browser, network, React, the user) a run is a list
      or a relation of steps in any order; theorems quantify over all of them.
    - [undefined], [null] and absent properties are [None], told apart where the
      code tells them apart.  Integers below 2^53 are [Z]; fractional numbers are
      exact rationals [Q], so rounding of doubles is not modelled.
    - Strings are byte strings in UTF-8; case conversion is for ASCII.
    - Reply bodies are JSON values ([json]); TypeScript's types are erased.
    - A hypothesis on the world is an argument: [encode] is
      [encodeURIComponent]-like, [handler] what the backend does behind its CSRF
      check, [Browser] the network with the cookie jar, [number_text] and
      [formatTick] the formatting of numbers and times, [date_ms] and [local_ms] the
      reading of a date text, [localeCompare] the browser's collation, [stringify]
      its JSON serialiser, [zone] the offset of local time, [ilike], [fts] and [ts_rank] the
      database's text match and search, [browser_text] a selection offered by the browser.
    - Fuel: the tick loop of the ruler has the 400 steps of the code, and
      [ruler_exact] shows that they suffice; [base36_go] has 64 digits, more than a
      53 bit integer needs; [drop_space] and [trim_with] have the length of their
      input; [JSON_parse] twice the length of the text plus two, enough by [value_fuel].

    ** Properties that show defects

    Some theorems state precisely what the code does where that is not what it
    means to do: [escalation_drops_owner], [hook_load_missed],
    [session_manager_dormant], [registry_mutations_blocked], [zone_drawn_once],
    [scrub_moves], [tones_exact], [search_fallback_gap], [failed_submit_sticks],
    [site_cameras_degraded], [profile_save_wipes_sites], [failed_autosave_dropped],
    [audit_stranded], [toasts_off], [conflicting_verdicts], [comma_adds_column],
    [reply_shows_other_thread], [scenes_exact], [snooze_never_stored],
    [archive_reported_never_done], [failed_load_overwrites], [unserved_exact],
    [self_assignment_opens_site], [moves_compared], [rules_never_stored],
    [dead_checkboxes], [saved_search_exact], [claimed_job_lost], [picked_job_kept],
    [late_skip_drops_label], [training_answer_parses], [card_mixes_incidents],
    [closed_stays_closed], [long_reply_exact], [draft_goes_elsewhere], [late_poll_hides_reply],
    [alarms_cross_tenants], [undo_repeats], [four_eyes_void],
    [removed_comes_back], [sops_overtaken].
    Each gives the
    behaviour in general, not one bad run.

    ** What is not modelled

    JSX rendering and styling, and the components that only render; third-party
    code (React, Zustand's and React Query's internals, hls.js, Leaflet, the Web
    Audio and Media Source implementations), whose documented behaviour appears as
    the order of events; locale formatting; the mock data of the demo mode; the
    end-to-end tests; the Go backend, except for the functions named above.  Not yet
    modelled: the analytics and status pages, the maps, and the reports of the
    portal.  [components/milesight] and [components/settings] hold copies of panels
    that nothing imports. *)

From stdpp Require Export base tactics list strings gmap sorting.
From Stdlib Require Export ZArith Lia.
#[global] Open Scope Z_scope.

(** ** Automation *)

Create HintDb js discriminated.
Create Rewrite HintDb js_len.
Create HintDb quiet discriminated.

(** Split every [if] and [match] whose scrutinee is visible in the goal. *)
Ltac split_match :=
  match goal with
  | |- context [if decide ?P then _ else _] => destruct (decide P)
  | |- context [if ?b then _ else _] => destruct b eqn:?
  | |- context [match ?o with _ => _ end] => destruct o eqn:?
  end.

(** The usual end of a branch: simplify, then arithmetic or congruence. *)
Ltac branch := simplify_eq/=; first [done | lia | congruence | eauto with js].

(** Arithmetic with division and remainder. *)
Ltac zdiv := Z.div_mod_to_equations; nia.

(** ** JavaScript truthiness

    [||] and [?:] test truthiness: [undefined], [0] and the empty string are
    false.  An optional property of type number or string is an [option]. *)

Definition truthy_str (s : string) : bool := negb (String.eqb s EmptyString).

Definition truthy_ostr (o : option string) : bool :=
  match o with Some s => truthy_str s | None => false end.

Definition truthy_oZ (o : option Z) : bool :=
  match o with Some z => negb (z =? 0) | None => false end.

(** [o || d] on an optional number. *)
Definition or_Z (o : option Z) (d : Z) : Z :=
  match o with Some z => if z =? 0 then d else z | None => d end.

(** [o || d] on an optional string. *)
Definition or_str (o : option string) (d : string) : string :=
  match o with Some s => if truthy_str s then s else d | None => d end.

(** ** Arrays *)

(** [xs.slice(-n)] for a positive [n]: the last [n] elements. *)
Definition slice_last {A} (n : nat) (l : list A) : list A := drop (length l - n) l.

(** [xs.includes(x)] *)
Definition includes {A} `{EqDecision A} (x : A) (l : list A) : bool := bool_decide (x ∈ l).

(** [xs.map(x => p(x) ? f(x) : x)], the update-in-place idiom of the stores. *)
Definition map_where {A} (p : A → bool) (f : A → A) (l : list A) : list A :=
  (λ x, if p x then f x else x) <$> l.

(** [xs.findIndex(p)], with [None] for -1. *)
Definition find_index {A} (p : A → bool) (l : list A) : option nat :=
  fst <$> list_find (λ x, Is_true (p x)) l.

(** [xs.find(p)], with [None] for [undefined]. *)
Definition find_where {A} (p : A → bool) (l : list A) : option A :=
  snd <$> list_find (λ x, Is_true (p x)) l.

(** [xs.filter(p)] *)
Definition filter_where {A} (p : A → bool) (l : list A) : list A := filter (λ x, Is_true (p x)) l.

Section arrays.
Context {A : Type}.
Implicit Types (l : list A) (p : A → bool).

Lemma length_slice_last n l : (length (slice_last n l) ≤ n)%nat.
Proof. unfold slice_last. rewrite length_drop. lia. Qed.

Lemma slice_last_all n l : (length l ≤ n)%nat → slice_last n l = l.
Proof. intros. unfold slice_last. by replace (length l - n)%nat with 0%nat by lia. Qed.

Lemma elem_of_slice_last n l x : x ∈ slice_last n l → x ∈ l.
Proof.
  intros H. rewrite <- (take_drop (length l - n) l). apply elem_of_app. by right.
Qed.

Lemma slice_last_app_r n l1 l2 :
  (n ≤ length l2)%nat → slice_last n (l1 ++ l2) = slice_last n l2.
Proof.
  intros. unfold slice_last. rewrite length_app, drop_app_ge by lia. f_equal. lia.
Qed.

Lemma slice_last_app_sub n l1 l2 :
  (length l2 ≤ n)%nat →
  slice_last n (l1 ++ l2) = slice_last (n - length l2) l1 ++ l2.
Proof.
  intros. unfold slice_last. rewrite length_app.
  destruct (decide (length l1 + length l2 - n ≤ length l1)%nat).
  - rewrite drop_app_le by lia. f_equal. f_equal. lia.
  - lia.
Qed.

Lemma slice_last_slice_last n m l :
  (n ≤ m)%nat → slice_last n (slice_last m l) = slice_last n l.
Proof.
  intros. unfold slice_last. rewrite length_drop, drop_drop. f_equal. lia.
Qed.

Lemma NoDup_slice_last n l : NoDup l → NoDup (slice_last n l).
Proof.
  unfold slice_last. intros H. rewrite <- (take_drop (length l - n) l) in H.
  by apply NoDup_app in H as (_ & _ & ?).
Qed.

Lemma length_map_where p f l : length (map_where p f l) = length l.
Proof. apply length_fmap. Qed.

Lemma map_where_lookup p f l i :
  map_where p f l !! i = (λ x, if p x then f x else x) <$> l !! i.
Proof. apply list_lookup_fmap. Qed.

Lemma elem_of_map_where p f l y : y ∈ map_where p f l ↔ ∃ x, x ∈ l ∧ y = if p x then f x else x.
Proof. unfold map_where. rewrite list_elem_of_fmap. naive_solver. Qed.

Lemma elem_of_filter_where p l x : x ∈ filter_where p l ↔ p x = true ∧ x ∈ l.
Proof. unfold filter_where. rewrite list_elem_of_filter, Is_true_true. done. Qed.

Lemma filter_where_id p l : (∀ x, x ∈ l → p x = true) → filter_where p l = l.
Proof.
  unfold filter_where. induction l as [|x l IH]; intros H; [done|].
  rewrite filter_cons, decide_True by (apply Is_true_true, H; by left).
  rewrite IH; [done|]. intros y Hy. apply H. by right.
Qed.

Lemma filter_where_cons p x l : filter_where p (x :: l) = if p x then x :: filter_where p l else filter_where p l.
Proof. unfold filter_where. rewrite filter_cons. by destruct (p x). Qed.

Lemma filter_where_nil p l : (∀ x, x ∈ l → p x = false) → filter_where p l = [].
Proof.
  induction l as [|x l IH]; intros H; [done|]. rewrite filter_where_cons, (H x) by by left. apply IH. intros y Hy. apply H. by right.
Qed.

Lemma filter_where_ext_in p q l : (∀ x, x ∈ l → p x = q x) → filter_where p l = filter_where q l.
Proof.
  induction l as [|x l IH]; intros H; [done|]. rewrite !filter_where_cons, (H x) by by left.
  rewrite IH; [done|]. intros y Hy. apply H. by right.
Qed.

(** Counts of a list that grows at its end and loses elements anywhere. *)
Lemma length_filter_snoc p l x : length (filter_where p (l ++ [x])) = (length (filter_where p l) + if p x then 1 else 0)%nat.
Proof. unfold filter_where. rewrite filter_app, length_app, filter_cons. simpl. by destruct (p x). Qed.

Lemma length_filter_delete p l i x :
  l !! i = Some x → length (filter_where p l) = (length (filter_where p (delete i l)) + if p x then 1 else 0)%nat.
Proof.
  intros H. rewrite <- (take_drop_middle _ _ _ H) at 1. rewrite delete_take_drop. unfold filter_where.
  rewrite !filter_app, !length_app, filter_cons. destruct (p x); simpl; lia.
Qed.

Lemma elem_of_delete_1 l i x : x ∈ delete i l → x ∈ l.
Proof.
  intros H. eapply elem_of_submseteq; [exact H|]. apply sublist_submseteq, sublist_delete.
Qed.

Lemma filter_where_split p l : Permutation (filter_where p l ++ filter_where (λ x, negb (p x)) l) l.
Proof.
  induction l as [|x l IH]; [done|]. rewrite !filter_where_cons. destruct (p x); simpl; [by rewrite IH|].
  rewrite <- Permutation_middle. by rewrite IH.
Qed.

Lemma length_filter_where p l : (length (filter_where p l) ≤ length l)%nat.
Proof. apply length_filter. Qed.

(** A projection the update does not change survives [map_where]. *)
Lemma fmap_map_where {B} (g : A → B) p f l :
  (∀ x, g (f x) = g x) → g <$> map_where p f l = g <$> l.
Proof.
  intros Hg. unfold map_where. rewrite <- list_fmap_compose.
  apply list_fmap_ext. intros i x _. simpl. destruct (p x); auto.
Qed.

Lemma map_where_ext p f g l :
  (∀ x, x ∈ l → p x = true → f x = g x) → map_where p f l = map_where p g l.
Proof.
  intros H. apply list_fmap_ext. intros i x Hx.
  destruct (p x) eqn:E; [|done]. apply H; [|done]. by eapply list_elem_of_lookup_2.
Qed.

Lemma map_where_none p f l :
  (∀ x, x ∈ l → p x = false) → map_where p f l = l.
Proof.
  intros H. rewrite <- (list_fmap_id l) at 2. apply list_fmap_ext.
  intros i x Hx. rewrite H; [done|]. by eapply list_elem_of_lookup_2.
Qed.

(** Two updates under the same test compose when the first keeps the test. *)
Lemma map_where_map_where p f g l :
  (∀ x, p x = true → p (f x) = true) →
  map_where p g (map_where p f l) = map_where p (λ x, g (f x)) l.
Proof.
  intros H. unfold map_where. rewrite <- list_fmap_compose.
  apply list_fmap_ext. intros i x _. simpl. destruct (p x) eqn:E; simpl; [by rewrite H|by rewrite E].
Qed.

Lemma find_where_cons p x l :
  find_where p (x :: l) = if p x then Some x else find_where p l.
Proof.
  unfold find_where. simpl. destruct (decide _) as [H|H]; simpl.
  - apply Is_true_true in H. by rewrite H.
  - apply Is_true_false in H. rewrite H. by destruct (list_find _ l) as [[]|].
Qed.

Lemma find_where_Some p l x : find_where p l = Some x → p x = true ∧ x ∈ l.
Proof.
  unfold find_where. intros H. apply fmap_Some in H as ([i y] & Hf & ->).
  apply list_find_Some in Hf as (Hl & Hp & _). split; [by apply Is_true_true|].
  by eapply list_elem_of_lookup_2.
Qed.

Lemma find_where_None p l : find_where p l = None ↔ ∀ x, x ∈ l → p x = false.
Proof.
  unfold find_where. rewrite fmap_None, list_find_None, Forall_forall.
  by setoid_rewrite Is_true_false.
Qed.

Lemma find_index_Some p l i :
  find_index p l = Some i ↔
  ∃ x, l !! i = Some x ∧ p x = true ∧ ∀ j y, l !! j = Some y → (j < i)%nat → p y = false.
Proof.
  unfold find_index. rewrite fmap_Some. split.
  - intros ([j x] & Hf & ->). apply list_find_Some in Hf as (Hl & Hp & Hn).
    exists x. split_and!; [done|by apply Is_true_true|].
    intros j' y Hy Hlt. by apply Is_true_false, (Hn j' y Hy Hlt).
  - intros (x & Hl & Hp & Hn). exists (i, x). split; [|done]. apply list_find_Some.
    split_and!; [done|by apply Is_true_true|]. intros j y Hy Hlt. apply Is_true_false. eauto.
Qed.

Lemma find_index_None p l : find_index p l = None ↔ ∀ x, x ∈ l → p x = false.
Proof.
  unfold find_index. rewrite fmap_None, list_find_None, Forall_forall.
  by setoid_rewrite Is_true_false.
Qed.

Lemma NoDup_fmap_elem {B} (f : A → B) l x y :
  NoDup (f <$> l) → x ∈ l → y ∈ l → f x = f y → x = y.
Proof.
  intros Hnd (i & Hi)%list_elem_of_lookup (j & Hj)%list_elem_of_lookup Hf.
  assert (i = j) as ->; [|congruence].
  eapply NoDup_lookup; [exact Hnd|by rewrite list_lookup_fmap, Hi|].
  by rewrite list_lookup_fmap, Hj, Hf.
Qed.

Lemma Sorted_take (R : A → A → Prop) n l : Sorted R l → Sorted R (take n l).
Proof.
  intros H. revert n. induction H as [|x l Hl IH Hx]; intros [|n]; simpl; [constructor..|].
  constructor; [apply IH|]. destruct Hx, n; simpl; by constructor.
Qed.

(** Overwriting position [i] only affects the membership of the old and the new
    element. *)
Lemma elem_of_insert_ne l i x y z :
  l !! i = Some x → z ≠ x → z ≠ y → z ∈ <[i := y]> l ↔ z ∈ l.
Proof.
  intros Hi Hx Hy. rewrite !list_elem_of_lookup. split; intros [j Hj]; exists j.
  - apply list_lookup_insert_Some in Hj as [(-> & <- & _)|[_ ?]]; done.
  - rewrite list_lookup_insert_ne; [done|]. intros ->. congruence.
Qed.

End arrays.

(** [new Set(xs)], in insertion order. *)
Definition set_of {A} `{EqDecision A} (l : list A) : list A :=
  foldl (λ acc x, if includes x acc then acc else (acc ++ [x])%list) [] l.

Lemma set_of_spec {A} `{EqDecision A} (l : list A) : NoDup (set_of l) ∧ ∀ x, x ∈ set_of l ↔ x ∈ l.
Proof.
  induction l as [|y l [Hnd Hin]] using rev_ind; [split; [constructor|done]|].
  unfold set_of. rewrite foldl_app. fold (set_of l). simpl. unfold includes. destruct (bool_decide_reflect (y ∈ set_of l)) as [Hy|Hy].
  - split; [done|]. intros x. rewrite Hin, elem_of_app, list_elem_of_singleton. rewrite Hin in Hy. naive_solver.
  - split; [|intros x; by rewrite !elem_of_app, Hin].
    apply NoDup_app. split_and!; [done| |apply NoDup_singleton]. by intros x Hx ->%list_elem_of_singleton.
Qed.

(** ** [Array.prototype.sort]

    The sort of the language is stable; [le a b] is [compare(a, b) <= 0]. *)

Fixpoint insert_by {A} (le : A → A → bool) (x : A) (l : list A) : list A :=
  match l with
  | [] => [x]
  | y :: l' => if le x y then x :: y :: l' else y :: insert_by le x l'
  end.

Definition sort_by {A} (le : A → A → bool) (l : list A) : list A := foldr (insert_by le) [] l.

(** [Math.round(n / d)] for a positive [d]: the nearest integer, halves up. *)
Definition round_div (n d : Z) : Z := (2 * n + d) / (2 * d).

Lemma round_div_1 n : round_div n 1 = n.
Proof. unfold round_div. zdiv. Qed.

Lemma round_div_le a b d : 0 < d → a ≤ b → round_div a d ≤ round_div b d.
Proof. intros. unfold round_div. apply Z.div_le_mono; lia. Qed.

Lemma round_div_mul n d : 0 < d → round_div (n * d) d = n.
Proof. intros. unfold round_div. zdiv. Qed.

Section sorting.
Context {A : Type} (le : A → A → bool).

Lemma insert_by_Permutation x l : insert_by le x l ≡ₚ x :: l.
Proof.
  induction l as [|y l IH]; simpl; [done|].
  destruct (le x y); [done|]. rewrite IH. apply Permutation_swap.
Qed.

Lemma sort_by_Permutation l : sort_by le l ≡ₚ l.
Proof. induction l as [|x l IH]; simpl; [done|]. by rewrite insert_by_Permutation, IH. Qed.

Lemma elem_of_sort_by x l : x ∈ sort_by le l ↔ x ∈ l.
Proof. by rewrite sort_by_Permutation. Qed.

Lemma length_sort_by l : length (sort_by le l) = length l.
Proof. by rewrite sort_by_Permutation. Qed.

(** A list already in order is left as it is. *)
Lemma sort_by_id l : Sorted (λ a b, le a b = true) l → sort_by le l = l.
Proof.
  induction 1 as [|x l Hl IH Hx]; simpl; [done|].
  rewrite IH. destruct Hx as [|y l Hxy]; simpl; [done|]. by rewrite Hxy.
Qed.

Lemma insert_by_Sorted x l :
  (∀ a b, le a b = false → le b a = true) →
  Sorted (λ a b, le a b = true) l → Sorted (λ a b, le a b = true) (insert_by le x l).
Proof.
  intros Htot Hs. induction Hs as [|y l Hl IH Hy]; simpl; [by repeat constructor|].
  destruct (le x y) eqn:E; [by repeat constructor|].
  constructor; [done|]. destruct Hy as [|z l Hyz]; simpl in *; [by constructor; auto|].
  destruct (le x z); constructor; auto.
Qed.

Lemma sort_by_Sorted l :
  (∀ a b, le a b = false → le b a = true) → Sorted (λ a b, le a b = true) (sort_by le l).
Proof.
  intros. induction l; simpl; [constructor|]. by apply insert_by_Sorted.
Qed.
End sorting.

(** ** [Map]

    A [Map] of the language is its entries in insertion order: setting a key that is
    there keeps its place. *)

(** [Map.prototype.set] *)
Fixpoint map_set {K V} `{EqDecision K} (k : K) (v : V) (m : list (K * V)) : list (K * V) :=
  match m with
  | [] => [(k, v)]
  | (k', v') :: r => if decide (k = k') then (k', v) :: r else (k', v') :: map_set k v r
  end.

(** [new Map(entries)] *)
Definition map_of {K V} `{EqDecision K} (l : list (K * V)) : list (K * V) := foldl (λ m e, map_set e.1 e.2 m) [] l.

(** [Map.prototype.get] *)
Definition map_get {K V} `{EqDecision K} (k : K) (m : list (K * V)) : option V :=
  snd <$> find_where (λ e, bool_decide (e.1 = k)) m.

Section maps.
Context {K V : Type} `{EqDecision K}.
Implicit Types (m l : list (K * V)).

(** The last value of a key. *)
Definition last_value (k : K) l : option V := snd <$> last (filter (λ e, e.1 = k) l).

Lemma map_set_keys k v m : (map_set k v m).*1 = if decide (k ∈ m.*1) then m.*1 else (m.*1 ++ [k])%list.
Proof.
  induction m as [|[k' v'] m IH]; [by rewrite decide_False by by intros ?%elem_of_nil|].
  csimpl. destruct (decide (k = k')) as [->|Hne]; csimpl; [by rewrite decide_True by by left|].
  rewrite IH. destruct (decide (k ∈ m.*1)) as [Hin|Hin].
  - by rewrite decide_True by by right.
  - rewrite decide_False; [done|]. intros [?|?]%elem_of_cons; done.
Qed.

Lemma map_set_NoDup k v m : NoDup m.*1 → NoDup (map_set k v m).*1.
Proof.
  intros H. rewrite map_set_keys. destruct (decide _) as [|Hn]; [done|].
  apply NoDup_app. split_and!; [done| |apply NoDup_singleton]. intros x Hx ->%list_elem_of_singleton. done.
Qed.

Lemma map_set_elem k v m k' v' :
  NoDup m.*1 → (k', v') ∈ map_set k v m ↔ (k' = k ∧ v' = v) ∨ (k' ≠ k ∧ (k', v') ∈ m).
Proof.
  induction m as [|[k0 v0] m IH]; simpl; intros Hnd.
  - rewrite list_elem_of_singleton. split; [intros [= -> ->]; by left|]. intros [[-> ->]|[_ ?%elem_of_nil]]; done.
  - inversion Hnd as [|? ? Hk Hnd']; subst. destruct (decide (k = k0)) as [->|Hne].
    + rewrite !elem_of_cons. split.
      * intros [[= -> ->]|Hin]; [by left|]. right. split; [|by right].
        intros ->. apply Hk. apply list_elem_of_fmap. by exists (k0, v').
      * intros [[-> ->]|[Hne [[= -> ->]|Hin]]]; [by left|done|by right].
    + rewrite !elem_of_cons, IH by done. split.
      * intros [[= -> ->]|[?|[? ?]]]; [right; split; [done|by left]|by left|right; split; [done|by right]].
      * intros [?|[? [?|?]]]; [right; by left|by left|right; by right].
Qed.

Lemma map_of_NoDup l : NoDup (map_of l).*1.
Proof.
  induction l as [|e l IH] using rev_ind; [constructor|]. unfold map_of. rewrite foldl_app. simpl.
  by apply map_set_NoDup.
Qed.

(** [new Map(entries)] holds the last value of every key. *)
Lemma map_of_elem l k v : (k, v) ∈ map_of l ↔ last_value k l = Some v.
Proof.
  unfold last_value. induction l as [|[k0 v0] l IH] using rev_ind.
  - simpl. split; [by intros ?%elem_of_nil|done].
  - unfold map_of. rewrite foldl_app. simpl. fold (map_of l). rewrite map_set_elem by apply map_of_NoDup.
    rewrite filter_app, filter_cons, filter_nil. simpl. destruct (decide (k0 = k)) as [->|Hne].
    + rewrite last_snoc. simpl. split; [intros [[_ ->]|[? _]]; done|]. intros [= ->]. by left.
    + rewrite app_nil_r. rewrite IH. split; [intros [[-> _]|[_ ?]]; done|]. intros ?. right. by split.
Qed.

Lemma map_get_elem k v m : NoDup m.*1 → map_get k m = Some v ↔ (k, v) ∈ m.
Proof.
  intros Hnd. unfold map_get. split.
  - intros ([k' v'] & Hf & ->)%fmap_Some. apply find_where_Some in Hf as [Hk Hin].
    by apply bool_decide_eq_true in Hk as <-.
  - intros Hin. destruct (find_where _ m) as [[k' v']|] eqn:Hf; simpl.
    + apply find_where_Some in Hf as [Hk Hin']. apply bool_decide_eq_true in Hk. simpl in Hk. subst k'.
      pose proof (NoDup_fmap_elem fst m (k, v) (k, v') Hnd Hin Hin' eq_refl). by simplify_eq.
    + rewrite find_where_None in Hf. specialize (Hf _ Hin). by rewrite bool_decide_true in Hf.
Qed.

Lemma map_get_map_of k l : map_get k (map_of l) = last_value k l.
Proof.
  apply option_eq. intros v. rewrite map_get_elem by apply map_of_NoDup. apply map_of_elem.
Qed.
End maps.

(** ** Appending strings *)

Lemma sapp_cons c (a b : string) : (String c a +:+ b = String c (a +:+ b))%string.
Proof. done. Qed.

Lemma sapp_assoc (a b c : string) : (a +:+ (b +:+ c) = (a +:+ b) +:+ c)%string.
Proof. induction a as [|x a IH]; [done|]. by rewrite !sapp_cons, IH. Qed.

Lemma sapp_empty (a : string) : (EmptyString +:+ a = a)%string.
Proof. done. Qed.

Lemma sapp_nil (a : string) : (a +:+ EmptyString = a)%string.
Proof. induction a as [|x a IH]; [done|]. by rewrite sapp_cons, IH. Qed.

Lemma slength_app (a b : string) : String.length (a +:+ b)%string = (String.length a + String.length b)%nat.
Proof. induction a as [|x a IH]; [done|]. rewrite sapp_cons. simpl. by rewrite IH. Qed.

(** ** [String.prototype.trim]

    Strings are UTF-8 byte strings; the white space and line terminators of the
    language are these byte sequences. *)

Definition bytes_of (s : string) : list N := (λ c, Ascii.N_of_ascii c) <$> String.list_ascii_of_string s.
Definition of_bytes (l : list N) : string :=
  String.string_of_list_ascii ((λ n, Ascii.ascii_of_N n) <$> l).

Definition white_space : list (list N) :=
  [[9]; [10]; [11]; [12]; [13]; [32]; [194; 160]; [225; 154; 128];
   [226; 128; 128]; [226; 128; 129]; [226; 128; 130]; [226; 128; 131]; [226; 128; 132];
   [226; 128; 133]; [226; 128; 134]; [226; 128; 135]; [226; 128; 136]; [226; 128; 137];
   [226; 128; 138]; [226; 128; 168]; [226; 128; 169]; [226; 128; 175]; [226; 129; 159];
   [227; 128; 128]; [239; 187; 191]]%N.

Fixpoint strip_prefix (p l : list N) : option (list N) :=
  match p, l with
  | [], _ => Some l
  | a :: p', b :: l' => if (a =? b)%N then strip_prefix p' l' else None
  | _ :: _, [] => None
  end.

(** Drop leading occurrences of the given byte sequences; [fuel] bounds their number. *)
Fixpoint drop_space (fuel : nat) (ws : list (list N)) (l : list N) : list N :=
  match fuel with
  | O => l
  | S fuel' =>
      match foldr (λ w acc, match strip_prefix w l with Some r => Some r | None => acc end) None ws with
      | Some r => drop_space fuel' ws r
      | None => l
      end
  end.

Definition trim (s : string) : string :=
  let l := drop_space (String.length s) white_space (bytes_of s) in
  of_bytes (reverse (drop_space (String.length s) (reverse <$> white_space) (reverse l))).

#[export] Hint Resolve length_slice_last NoDup_slice_last length_filter_where : js.
#[export] Hint Rewrite @length_map_where @length_fmap @length_app : js_len.
