(* ===== verification/Types.v ===== *)
(** * Shared data types

    The records and tagged values of [src/frontend/src/types/ironsight.ts] that
    the operator console, the alert stream and the event feed exchange.  An
    optional property is an [option]; a timestamp in milliseconds is a [Z]; a
    fractional number is a [Q] (a finite double is a rational). *)

From S2P Require Import Prelude.
From Stdlib Require Export QArith.
#[global] Open Scope Z_scope.

(** ** Severity and presence *)

Inductive Severity := critical | high | medium | low.

#[export] Instance Severity_eq_dec : EqDecision Severity.
Proof. solve_decision. Defined.

Inductive PresenceStatus := on_shift | off_shift | on_break.

#[export] Instance PresenceStatus_eq_dec : EqDecision PresenceStatus.
Proof. solve_decision. Defined.

Record SOCOperator := mkSOCOperator {
  op_id : string;
  op_name : string;
  op_callsign : string;
  op_avatar_url : option string;
  op_status : PresenceStatus;
  op_shift_start : option string;
}.

Record SiteLock := mkSiteLock {
  sl_site_id : string;
  sl_operator_id : string;
  sl_operator_callsign : string;
  sl_locked_at : string;
}.

(** ** JSON values

    What [JSON.parse] returns; the [unknown] and [any] values of the source. *)

Inductive json :=
| JNull
| JBool (b : bool)
| JNum (q : Q)
| JStr (s : string)
| JArr (l : list json)
| JObj (fs : list (string * json)).

(** ** Alerts and incidents *)

Record NormBBox := mkNormBBox { bb_x1 : Q; bb_y1 : Q; bb_x2 : Q; bb_y2 : Q }.

Record BoundingBox := mkBoundingBox {
  bx_x : Q; bx_y : Q; bx_w : Q; bx_h : Q; bx_label : option string;
}.

Record AIObject := mkAIObject { ao_type : string; ao_attributes : gmap string json }.

Record AIDetection := mkAIDetection {
  ad_class : string;
  ad_confidence : Q;
  ad_missing : option string;
  ad_bbox_normalized : NormBBox;
}.

Record AlertEvent := mkAlertEvent {
  ae_id : string;
  ae_incident_id : option string;
  ae_site_id : string;
  ae_site_name : string;
  ae_camera_id : string;
  ae_camera_name : string;
  ae_severity : Severity;
  ae_type : string;
  ae_description : string;
  ae_snapshot_url : string;
  ae_clip_url : string;
  ae_ts : Z;
  ae_acknowledged : bool;
  ae_assigned_operator_id : option string;
  ae_assigned_operator_callsign : option string;
  ae_escalation_level : Z;
  ae_escalated_at : option Z;
  ae_sla_deadline_ms : option Z;
  ae_ai_score : option Q;
  ae_obj_type : option string;
  ae_rule_name : option string;
  ae_bounding_boxes : option (list BoundingBox);
  ae_ai_description : option string;
  ae_ai_threat_level : option string;
  ae_ai_recommended_action : option string;
  ae_ai_false_positive_pct : option Q;
  ae_ai_objects : option (list AIObject);
  ae_ai_detections : option (list AIDetection);
  ae_ai_ppe_violations : option (list AIDetection);
}.

(** [{ ...a, acknowledged: true }] *)
Definition set_acknowledged (a : AlertEvent) : AlertEvent := {|
  ae_id := ae_id a;
  ae_incident_id := ae_incident_id a;
  ae_site_id := ae_site_id a;
  ae_site_name := ae_site_name a;
  ae_camera_id := ae_camera_id a;
  ae_camera_name := ae_camera_name a;
  ae_severity := ae_severity a;
  ae_type := ae_type a;
  ae_description := ae_description a;
  ae_snapshot_url := ae_snapshot_url a;
  ae_clip_url := ae_clip_url a;
  ae_ts := ae_ts a;
  ae_acknowledged := true;
  ae_assigned_operator_id := ae_assigned_operator_id a;
  ae_assigned_operator_callsign := ae_assigned_operator_callsign a;
  ae_escalation_level := ae_escalation_level a;
  ae_escalated_at := ae_escalated_at a;
  ae_sla_deadline_ms := ae_sla_deadline_ms a;
  ae_ai_score := ae_ai_score a;
  ae_obj_type := ae_obj_type a;
  ae_rule_name := ae_rule_name a;
  ae_bounding_boxes := ae_bounding_boxes a;
  ae_ai_description := ae_ai_description a;
  ae_ai_threat_level := ae_ai_threat_level a;
  ae_ai_recommended_action := ae_ai_recommended_action a;
  ae_ai_false_positive_pct := ae_ai_false_positive_pct a;
  ae_ai_objects := ae_ai_objects a;
  ae_ai_detections := ae_ai_detections a;
  ae_ai_ppe_violations := ae_ai_ppe_violations a
|}.

(** [{ ...a, snapshot_url: url }] *)
Definition set_snapshot_url (url : string) (a : AlertEvent) : AlertEvent := {|
  ae_id := ae_id a;
  ae_incident_id := ae_incident_id a;
  ae_site_id := ae_site_id a;
  ae_site_name := ae_site_name a;
  ae_camera_id := ae_camera_id a;
  ae_camera_name := ae_camera_name a;
  ae_severity := ae_severity a;
  ae_type := ae_type a;
  ae_description := ae_description a;
  ae_snapshot_url := url;
  ae_clip_url := ae_clip_url a;
  ae_ts := ae_ts a;
  ae_acknowledged := ae_acknowledged a;
  ae_assigned_operator_id := ae_assigned_operator_id a;
  ae_assigned_operator_callsign := ae_assigned_operator_callsign a;
  ae_escalation_level := ae_escalation_level a;
  ae_escalated_at := ae_escalated_at a;
  ae_sla_deadline_ms := ae_sla_deadline_ms a;
  ae_ai_score := ae_ai_score a;
  ae_obj_type := ae_obj_type a;
  ae_rule_name := ae_rule_name a;
  ae_bounding_boxes := ae_bounding_boxes a;
  ae_ai_description := ae_ai_description a;
  ae_ai_threat_level := ae_ai_threat_level a;
  ae_ai_recommended_action := ae_ai_recommended_action a;
  ae_ai_false_positive_pct := ae_ai_false_positive_pct a;
  ae_ai_objects := ae_ai_objects a;
  ae_ai_detections := ae_ai_detections a;
  ae_ai_ppe_violations := ae_ai_ppe_violations a
|}.

(** [{ ...a, assigned_operator_id: i, assigned_operator_callsign: c }]; [None] is [undefined]. *)
Definition set_assigned (i c : option string) (a : AlertEvent) : AlertEvent := {|
  ae_id := ae_id a;
  ae_incident_id := ae_incident_id a;
  ae_site_id := ae_site_id a;
  ae_site_name := ae_site_name a;
  ae_camera_id := ae_camera_id a;
  ae_camera_name := ae_camera_name a;
  ae_severity := ae_severity a;
  ae_type := ae_type a;
  ae_description := ae_description a;
  ae_snapshot_url := ae_snapshot_url a;
  ae_clip_url := ae_clip_url a;
  ae_ts := ae_ts a;
  ae_acknowledged := ae_acknowledged a;
  ae_assigned_operator_id := i;
  ae_assigned_operator_callsign := c;
  ae_escalation_level := ae_escalation_level a;
  ae_escalated_at := ae_escalated_at a;
  ae_sla_deadline_ms := ae_sla_deadline_ms a;
  ae_ai_score := ae_ai_score a;
  ae_obj_type := ae_obj_type a;
  ae_rule_name := ae_rule_name a;
  ae_bounding_boxes := ae_bounding_boxes a;
  ae_ai_description := ae_ai_description a;
  ae_ai_threat_level := ae_ai_threat_level a;
  ae_ai_recommended_action := ae_ai_recommended_action a;
  ae_ai_false_positive_pct := ae_ai_false_positive_pct a;
  ae_ai_objects := ae_ai_objects a;
  ae_ai_detections := ae_ai_detections a;
  ae_ai_ppe_violations := ae_ai_ppe_violations a
|}.

(** [{ ...alarm, escalation_level: lvl, escalated_at: now }] *)
Definition set_escalation (lvl now : Z) (a : AlertEvent) : AlertEvent := {|
  ae_id := ae_id a;
  ae_incident_id := ae_incident_id a;
  ae_site_id := ae_site_id a;
  ae_site_name := ae_site_name a;
  ae_camera_id := ae_camera_id a;
  ae_camera_name := ae_camera_name a;
  ae_severity := ae_severity a;
  ae_type := ae_type a;
  ae_description := ae_description a;
  ae_snapshot_url := ae_snapshot_url a;
  ae_clip_url := ae_clip_url a;
  ae_ts := ae_ts a;
  ae_acknowledged := ae_acknowledged a;
  ae_assigned_operator_id := ae_assigned_operator_id a;
  ae_assigned_operator_callsign := ae_assigned_operator_callsign a;
  ae_escalation_level := lvl;
  ae_escalated_at := Some now;
  ae_sla_deadline_ms := ae_sla_deadline_ms a;
  ae_ai_score := ae_ai_score a;
  ae_obj_type := ae_obj_type a;
  ae_rule_name := ae_rule_name a;
  ae_bounding_boxes := ae_bounding_boxes a;
  ae_ai_description := ae_ai_description a;
  ae_ai_threat_level := ae_ai_threat_level a;
  ae_ai_recommended_action := ae_ai_recommended_action a;
  ae_ai_false_positive_pct := ae_ai_false_positive_pct a;
  ae_ai_objects := ae_ai_objects a;
  ae_ai_detections := ae_ai_detections a;
  ae_ai_ppe_violations := ae_ai_ppe_violations a
|}.

(** The argument of [patchAlertAI].  Spreading it copies the properties it
    has, those whose value is [undefined] included, so each of the seven keys
    is absent ([None]) or present with a possibly undefined value. *)
Record AIPatch := mkAIPatch {
  ap_ai_description : option (option string);
  ap_ai_threat_level : option (option string);
  ap_ai_recommended_action : option (option string);
  ap_ai_false_positive_pct : option (option Q);
  ap_ai_objects : option (option (list AIObject));
  ap_ai_detections : option (option (list AIDetection));
  ap_ai_ppe_violations : option (option (list AIDetection));
}.

(** [{ ...a, ...data }] *)
Definition patch_ai (d : AIPatch) (a : AlertEvent) : AlertEvent := {|
  ae_id := ae_id a;
  ae_incident_id := ae_incident_id a;
  ae_site_id := ae_site_id a;
  ae_site_name := ae_site_name a;
  ae_camera_id := ae_camera_id a;
  ae_camera_name := ae_camera_name a;
  ae_severity := ae_severity a;
  ae_type := ae_type a;
  ae_description := ae_description a;
  ae_snapshot_url := ae_snapshot_url a;
  ae_clip_url := ae_clip_url a;
  ae_ts := ae_ts a;
  ae_acknowledged := ae_acknowledged a;
  ae_assigned_operator_id := ae_assigned_operator_id a;
  ae_assigned_operator_callsign := ae_assigned_operator_callsign a;
  ae_escalation_level := ae_escalation_level a;
  ae_escalated_at := ae_escalated_at a;
  ae_sla_deadline_ms := ae_sla_deadline_ms a;
  ae_ai_score := ae_ai_score a;
  ae_obj_type := ae_obj_type a;
  ae_rule_name := ae_rule_name a;
  ae_bounding_boxes := ae_bounding_boxes a;
  ae_ai_description := default (ae_ai_description a) (ap_ai_description d);
  ae_ai_threat_level := default (ae_ai_threat_level a) (ap_ai_threat_level d);
  ae_ai_recommended_action := default (ae_ai_recommended_action a) (ap_ai_recommended_action d);
  ae_ai_false_positive_pct := default (ae_ai_false_positive_pct a) (ap_ai_false_positive_pct d);
  ae_ai_objects := default (ae_ai_objects a) (ap_ai_objects d);
  ae_ai_detections := default (ae_ai_detections a) (ap_ai_detections d);
  ae_ai_ppe_violations := default (ae_ai_ppe_violations a) (ap_ai_ppe_violations d)
|}.

Inductive SOCIncidentStatus := si_active | si_acknowledged.

#[export] Instance SOCIncidentStatus_eq_dec : EqDecision SOCIncidentStatus.
Proof. solve_decision. Defined.

Record SOCIncident := mkSOCIncident {
  si_id : string;
  si_site_id : string;
  si_site_name : string;
  si_severity : Severity;
  si_status : SOCIncidentStatus;
  si_alarm_count : Z;
  si_camera_ids : list string;
  si_camera_names : list string;
  si_types : list string;
  si_latest_type : string;
  si_description : string;
  si_snapshot_url : string;
  si_clip_url : string;
  si_first_alarm_ts : Z;
  si_last_alarm_ts : Z;
  si_sla_deadline_ms : Z;
}.

(** [{ ...i, snapshot_url: url }] *)
Definition set_incident_snapshot_url (url : string) (a : SOCIncident) : SOCIncident := {|
  si_id := si_id a;
  si_site_id := si_site_id a;
  si_site_name := si_site_name a;
  si_severity := si_severity a;
  si_status := si_status a;
  si_alarm_count := si_alarm_count a;
  si_camera_ids := si_camera_ids a;
  si_camera_names := si_camera_names a;
  si_types := si_types a;
  si_latest_type := si_latest_type a;
  si_description := si_description a;
  si_snapshot_url := url;
  si_clip_url := si_clip_url a;
  si_first_alarm_ts := si_first_alarm_ts a;
  si_last_alarm_ts := si_last_alarm_ts a;
  si_sla_deadline_ms := si_sla_deadline_ms a
|}.

(** ** Lemmas on the updates *)

(** A record whose update changes nothing is itself: the setters are
    idempotent and do not touch the identity of an alert. *)

Lemma set_acknowledged_id a : ae_id (set_acknowledged a) = ae_id a.
Proof. done. Qed.

Lemma set_snapshot_url_id u a : ae_id (set_snapshot_url u a) = ae_id a.
Proof. done. Qed.

Lemma set_assigned_id i c a : ae_id (set_assigned i c a) = ae_id a.
Proof. done. Qed.

Lemma patch_ai_id d a : ae_id (patch_ai d a) = ae_id a.
Proof. done. Qed.

Lemma set_assigned_set_assigned i c i' c' a :
  set_assigned i c (set_assigned i' c' a) = set_assigned i c a.
Proof. done. Qed.

#[export] Hint Resolve set_acknowledged_id set_snapshot_url_id set_assigned_id patch_ai_id : js.

(** ** Cameras (lib/api.ts) *)

Inductive DeviceClass := DCContinuous | DCSensePushed.

Record Camera := mkCamera {
  cam_id : string;
  cam_name : string;
  cam_onvif_address : string;
  cam_username : string;
  cam_rtsp_uri : string;
  cam_sub_stream_uri : string;
  cam_retention_days : Z;
  cam_recording : bool;
  cam_recording_mode : string;
  cam_pre_buffer_sec : Z;
  cam_post_buffer_sec : Z;
  cam_recording_triggers : string;
  cam_events_enabled : bool;
  cam_audio_enabled : bool;
  cam_camera_group : string;
  cam_schedule : string;
  cam_privacy_mask : bool;
  cam_status : string;
  cam_profile_token : string;
  cam_has_ptz : bool;
  cam_manufacturer : string;
  cam_model : string;
  cam_firmware : string;
  cam_device_class : option DeviceClass;
  cam_sense_webhook_token : option string;
  cam_created_at : string;
  cam_updated_at : string
}.

(** A camera as the API returns it just after enrolment, for concrete examples. *)
Definition new_camera (id name : string) : Camera :=
  mkCamera id name EmptyString EmptyString EmptyString EmptyString 30 true "continuous" 5 10
    EmptyString true false EmptyString EmptyString false "online" EmptyString false
    EmptyString EmptyString EmptyString None None EmptyString EmptyString.
