(* ===== verification/OperatorStore.v ===== *)
(** * The operator console's store

    [src/frontend/src/stores/operator-store.ts]: the Zustand store behind the
    SOC console.  An action is a function from state to state; an action that
    also fires an API call returns the calls it makes.  Clock readings
    ([Date.now()], [toISOString()]) are arguments, one per reading. *)

From S2P Require Import Prelude Types.
From stdpp Require Import pretty.
#[local] Open Scope Z_scope.

(** ** Data *)

Inductive LayoutMode := grid_2x3 | grid_1x1 | grid_3x3.

Inductive OperatorStatus := available | engaged | wrap_up | away | break_.

#[export] Instance OperatorStatus_eq_dec : EqDecision OperatorStatus.
Proof. solve_decision. Defined.

Record ActionLogEntry := mkActionLogEntry {
  le_ts : Z;
  le_text : string;
  le_auto : bool;
}.

Inductive DispositionCode :=
| false_positive_animal
| false_positive_weather
| false_positive_shadow
| false_positive_equipment
| false_positive_other
| verified_customer_notified
| verified_police_dispatched
| verified_guard_responded
| verified_no_threat
| verified_other.

#[export] Instance DispositionCode_eq_dec : EqDecision DispositionCode.
Proof. solve_decision. Defined.

Inductive DispositionCategory := cat_false | cat_verified.

#[export] Instance DispositionCategory_eq_dec : EqDecision DispositionCategory.
Proof. solve_decision. Defined.

Record DispositionOption := mkDispositionOption {
  do_code : DispositionCode;
  do_label : string;
  do_category : DispositionCategory;
}.

Definition DISPOSITION_OPTIONS : list DispositionOption := [
  mkDispositionOption false_positive_animal "False Positive — Animal" cat_false;
  mkDispositionOption false_positive_weather "False Positive — Weather" cat_false;
  mkDispositionOption false_positive_shadow "False Positive — Shadow/Light" cat_false;
  mkDispositionOption false_positive_equipment "False Positive — Equipment" cat_false;
  mkDispositionOption false_positive_other "False Positive — Other" cat_false;
  mkDispositionOption verified_customer_notified "Verified — Customer Notified" cat_verified;
  mkDispositionOption verified_police_dispatched "Verified — Police Dispatched" cat_verified;
  mkDispositionOption verified_guard_responded "Verified — Guard Responded" cat_verified;
  mkDispositionOption verified_no_threat "Verified — No Active Threat" cat_verified;
  mkDispositionOption verified_other "Verified — Other" cat_verified ].

Record LastDisposition := mkLastDisposition {
  ld_alarm : AlertEvent;
  ld_dispositionCode : DispositionCode;
  ld_actionLog : list ActionLogEntry;
  ld_resolvedAt : Z;
  ld_responseMs : Z;
}.

Record ShiftStats := mkShiftStats {
  alarmsHandled : Z;
  slaMissed : Z;
  shiftStartMs : Z;
}.

Record OperatorState := mkOperatorState {
  currentOperator : option SOCOperator;
  operatorStatus : OperatorStatus;
  selectedSiteId : option string;
  siteLocks : gmap string SiteLock;
  incidents : list SOCIncident;
  alertFeed : list AlertEvent;
  dismissedIds : list string;
  activeAlarm : option AlertEvent;
  actionLog : list ActionLogEntry;
  lastDisposition : option LastDisposition;
  shiftStats : ShiftStats;
  queueDepth : Z;
  siteFilter : option string;
  layoutMode : LayoutMode;
  audioMuted : bool;
}.

(** One [set({ field: v })] per field. *)

Definition upd_currentOperator (v : option SOCOperator) (s : OperatorState) : OperatorState :=
  mkOperatorState
    v (operatorStatus s) (selectedSiteId s) (siteLocks s) (incidents s)
    (alertFeed s) (dismissedIds s) (activeAlarm s) (actionLog s)
    (lastDisposition s) (shiftStats s) (queueDepth s) (siteFilter s)
    (layoutMode s) (audioMuted s).

Definition upd_operatorStatus (v : OperatorStatus) (s : OperatorState) : OperatorState :=
  mkOperatorState
    (currentOperator s) v (selectedSiteId s) (siteLocks s) (incidents s)
    (alertFeed s) (dismissedIds s) (activeAlarm s) (actionLog s)
    (lastDisposition s) (shiftStats s) (queueDepth s) (siteFilter s)
    (layoutMode s) (audioMuted s).

Definition upd_selectedSiteId (v : option string) (s : OperatorState) : OperatorState :=
  mkOperatorState
    (currentOperator s) (operatorStatus s) v (siteLocks s) (incidents s)
    (alertFeed s) (dismissedIds s) (activeAlarm s) (actionLog s)
    (lastDisposition s) (shiftStats s) (queueDepth s) (siteFilter s)
    (layoutMode s) (audioMuted s).

Definition upd_siteLocks (v : gmap string SiteLock) (s : OperatorState) : OperatorState :=
  mkOperatorState
    (currentOperator s) (operatorStatus s) (selectedSiteId s) v
    (incidents s) (alertFeed s) (dismissedIds s) (activeAlarm s)
    (actionLog s) (lastDisposition s) (shiftStats s) (queueDepth s)
    (siteFilter s) (layoutMode s) (audioMuted s).

Definition upd_incidents (v : list SOCIncident) (s : OperatorState) : OperatorState :=
  mkOperatorState
    (currentOperator s) (operatorStatus s) (selectedSiteId s) (siteLocks s)
    v (alertFeed s) (dismissedIds s) (activeAlarm s) (actionLog s)
    (lastDisposition s) (shiftStats s) (queueDepth s) (siteFilter s)
    (layoutMode s) (audioMuted s).

Definition upd_alertFeed (v : list AlertEvent) (s : OperatorState) : OperatorState :=
  mkOperatorState
    (currentOperator s) (operatorStatus s) (selectedSiteId s) (siteLocks s)
    (incidents s) v (dismissedIds s) (activeAlarm s) (actionLog s)
    (lastDisposition s) (shiftStats s) (queueDepth s) (siteFilter s)
    (layoutMode s) (audioMuted s).

Definition upd_dismissedIds (v : list string) (s : OperatorState) : OperatorState :=
  mkOperatorState
    (currentOperator s) (operatorStatus s) (selectedSiteId s) (siteLocks s)
    (incidents s) (alertFeed s) v (activeAlarm s) (actionLog s)
    (lastDisposition s) (shiftStats s) (queueDepth s) (siteFilter s)
    (layoutMode s) (audioMuted s).

Definition upd_activeAlarm (v : option AlertEvent) (s : OperatorState) : OperatorState :=
  mkOperatorState
    (currentOperator s) (operatorStatus s) (selectedSiteId s) (siteLocks s)
    (incidents s) (alertFeed s) (dismissedIds s) v (actionLog s)
    (lastDisposition s) (shiftStats s) (queueDepth s) (siteFilter s)
    (layoutMode s) (audioMuted s).

Definition upd_actionLog (v : list ActionLogEntry) (s : OperatorState) : OperatorState :=
  mkOperatorState
    (currentOperator s) (operatorStatus s) (selectedSiteId s) (siteLocks s)
    (incidents s) (alertFeed s) (dismissedIds s) (activeAlarm s) v
    (lastDisposition s) (shiftStats s) (queueDepth s) (siteFilter s)
    (layoutMode s) (audioMuted s).

Definition upd_lastDisposition (v : option LastDisposition) (s : OperatorState) : OperatorState :=
  mkOperatorState
    (currentOperator s) (operatorStatus s) (selectedSiteId s) (siteLocks s)
    (incidents s) (alertFeed s) (dismissedIds s) (activeAlarm s)
    (actionLog s) v (shiftStats s) (queueDepth s) (siteFilter s)
    (layoutMode s) (audioMuted s).

Definition upd_shiftStats (v : ShiftStats) (s : OperatorState) : OperatorState :=
  mkOperatorState
    (currentOperator s) (operatorStatus s) (selectedSiteId s) (siteLocks s)
    (incidents s) (alertFeed s) (dismissedIds s) (activeAlarm s)
    (actionLog s) (lastDisposition s) v (queueDepth s) (siteFilter s)
    (layoutMode s) (audioMuted s).

Definition upd_queueDepth (v : Z) (s : OperatorState) : OperatorState :=
  mkOperatorState
    (currentOperator s) (operatorStatus s) (selectedSiteId s) (siteLocks s)
    (incidents s) (alertFeed s) (dismissedIds s) (activeAlarm s)
    (actionLog s) (lastDisposition s) (shiftStats s) v (siteFilter s)
    (layoutMode s) (audioMuted s).

Definition upd_siteFilter (v : option string) (s : OperatorState) : OperatorState :=
  mkOperatorState
    (currentOperator s) (operatorStatus s) (selectedSiteId s) (siteLocks s)
    (incidents s) (alertFeed s) (dismissedIds s) (activeAlarm s)
    (actionLog s) (lastDisposition s) (shiftStats s) (queueDepth s) v
    (layoutMode s) (audioMuted s).

Definition upd_layoutMode (v : LayoutMode) (s : OperatorState) : OperatorState :=
  mkOperatorState
    (currentOperator s) (operatorStatus s) (selectedSiteId s) (siteLocks s)
    (incidents s) (alertFeed s) (dismissedIds s) (activeAlarm s)
    (actionLog s) (lastDisposition s) (shiftStats s) (queueDepth s)
    (siteFilter s) v (audioMuted s).

Definition upd_audioMuted (v : bool) (s : OperatorState) : OperatorState :=
  mkOperatorState
    (currentOperator s) (operatorStatus s) (selectedSiteId s) (siteLocks s)
    (incidents s) (alertFeed s) (dismissedIds s) (activeAlarm s)
    (actionLog s) (lastDisposition s) (shiftStats s) (queueDepth s)
    (siteFilter s) (layoutMode s) v.

(** The fire-and-forget calls of the store, made through a dynamic import. *)
Inductive ApiCall :=
| updatePresence (operator_id operator_callsign : string) (status : PresenceStatus)
| escalateAlarm (alarm_id : string) (level : Z).

(** The store as created; [shiftStartMs] reads the clock. *)
Definition initial_state (now : Z) : OperatorState :=
  mkOperatorState None available None ∅ [] [] [] None [] None
    (mkShiftStats 0 0 now) 0 None grid_2x3 false.

(** ** Operator, status and locks *)

Definition setCurrentOperator (op : SOCOperator) (s : OperatorState) : OperatorState :=
  upd_currentOperator (Some op) s.

Definition presence_of (status : OperatorStatus) : PresenceStatus :=
  match status with
  | break_ => on_break
  | away => off_shift
  | _ => on_shift
  end.

Definition setOperatorStatus (status : OperatorStatus) (s : OperatorState)
    : OperatorState * list ApiCall :=
  let s' := upd_operatorStatus status s in
  match currentOperator s' with
  | Some op => (s', [updatePresence (op_id op) (op_callsign op) (presence_of status)])
  | None => (s', [])
  end.

Definition selectSite (id : string) (s : OperatorState) : OperatorState :=
  upd_selectedSiteId (Some id) s.

(** [None] is an argument that is not an array. *)
Definition initLocks (locks : option (list SiteLock)) (s : OperatorState) : OperatorState :=
  match locks with
  | None => s
  | Some ls => upd_siteLocks (foldl (λ m l, <[sl_site_id l := l]> m) ∅ ls) s
  end.

Definition lockSite (now_iso siteId : string) (s : OperatorState) : OperatorState :=
  match currentOperator s with
  | None => s
  | Some op =>
      upd_siteLocks
        (<[siteId := mkSiteLock siteId (op_id op) (op_callsign op) now_iso]> (siteLocks s)) s
  end.

Definition unlockSite (siteId : string) (s : OperatorState) : OperatorState :=
  upd_siteLocks (delete siteId (siteLocks s)) s.

Definition getSiteLock (siteId : string) (s : OperatorState) : option SiteLock :=
  siteLocks s !! siteId.

Definition isMySiteLock (siteId : string) (s : OperatorState) : bool :=
  match siteLocks s !! siteId, currentOperator s with
  | Some lock, Some op => String.eqb (sl_operator_id lock) (op_id op)
  | _, _ => false
  end.

(** ** Incident feed *)

Definition FEED_CAP : nat := 200.
Definition DISMISSED_CAP : nat := 500.

Definition alert_is (id : string) (a : AlertEvent) : bool := String.eqb (ae_id a) id.
Definition incident_is (id : string) (i : SOCIncident) : bool := String.eqb (si_id i) id.

(** [a.incident_id === id] *)
Definition alert_of_incident (id : string) (a : AlertEvent) : bool :=
  match ae_incident_id a with Some i => String.eqb i id | None => false end.

Definition upsertIncident (incident : SOCIncident) (s : OperatorState) : OperatorState :=
  match find_index (incident_is (si_id incident)) (incidents s) with
  | Some idx => upd_incidents (<[idx := incident]> (incidents s)) s
  | None => upd_incidents (take FEED_CAP (incident :: incidents s)) s
  end.

Definition acknowledgeIncident (id : string) (s : OperatorState) : OperatorState :=
  upd_dismissedIds
    (slice_last DISMISSED_CAP
       (dismissedIds s ++ (ae_id <$> filter_where (alert_of_incident id) (alertFeed s))))
    (upd_alertFeed (map_where (alert_of_incident id) set_acknowledged (alertFeed s))
       (upd_incidents (filter_where (λ i, negb (incident_is id i)) (incidents s)) s)).

(** ** Alert feed *)

Definition addAlert (alert : AlertEvent) (s : OperatorState) : OperatorState :=
  if includes (ae_id alert) (dismissedIds s) then s
  else upd_alertFeed (take FEED_CAP (alert :: alertFeed s)) s.

Definition dismiss (id : string) (ids : list string) : list string :=
  if includes id ids then ids else slice_last DISMISSED_CAP (ids ++ [id]).

Definition acknowledgeAlert (id : string) (s : OperatorState) : OperatorState :=
  upd_dismissedIds (dismiss id (dismissedIds s))
    (upd_alertFeed (map_where (alert_is id) set_acknowledged (alertFeed s)) s).

Definition clearAlerts (s : OperatorState) : OperatorState := upd_alertFeed [] s.

Definition dismissAlarm (id : string) (s : OperatorState) : OperatorState :=
  upd_dismissedIds (dismiss id (dismissedIds s)) s.

(** ** Asynchronous patches *)

(** Apply [f] to the active alarm when it is the alarm [id]. *)
Definition patch_active (id : string) (f : AlertEvent → AlertEvent) (o : option AlertEvent)
    : option AlertEvent :=
  match o with
  | Some a => if alert_is id a then Some (f a) else Some a
  | None => None
  end.

Definition patchAlertSnapshot (alarmId snapshotUrl : string) (s : OperatorState) : OperatorState :=
  let alarm := find_where (alert_is alarmId) (alertFeed s) in
  let incidentId := alarm ≫= ae_incident_id in
  upd_activeAlarm (patch_active alarmId (set_snapshot_url snapshotUrl) (activeAlarm s))
    (upd_incidents
       (match incidentId with
        | Some iid =>
            if truthy_str iid
            then map_where (incident_is iid) (set_incident_snapshot_url snapshotUrl) (incidents s)
            else incidents s
        | None => incidents s
        end)
       (upd_alertFeed
          (map_where (alert_is alarmId) (set_snapshot_url snapshotUrl) (alertFeed s)) s)).

Definition patchAlertAI (alarmId : string) (data : AIPatch) (s : OperatorState) : OperatorState :=
  upd_activeAlarm (patch_active alarmId (patch_ai data) (activeAlarm s))
    (upd_alertFeed (map_where (alert_is alarmId) (patch_ai data) (alertFeed s)) s).

(** ** Ownership and escalation *)

Definition claimAlert (alertId : string) (s : OperatorState) : OperatorState :=
  match currentOperator s with
  | None => s
  | Some op =>
      upd_alertFeed
        (map_where (alert_is alertId)
           (set_assigned (Some (op_id op)) (Some (op_callsign op))) (alertFeed s)) s
  end.

Definition releaseAlert (alertId : string) (s : OperatorState) : OperatorState :=
  upd_alertFeed (map_where (alert_is alertId) (set_assigned None None) (alertFeed s)) s.

Definition addActionLogEntry (now : Z) (text : string) (auto : bool) (s : OperatorState)
    : OperatorState :=
  upd_actionLog (actionLog s ++ [mkActionLogEntry now text auto]) s.

Definition escalateActiveAlarm (now now' : Z) (s : OperatorState)
    : OperatorState * list ApiCall :=
  match activeAlarm s with
  | None => (s, [])
  | Some alarm =>
      (* [escalation_level || 0] keeps the level, 0 included *)
      let newLevel := or_Z (Some (ae_escalation_level alarm)) 0 + 1 in
      let updatedAlarm := set_escalation newLevel now alarm in
      let s1 :=
        upd_activeAlarm (Some updatedAlarm)
          (upd_alertFeed
             (map_where (alert_is (ae_id alarm)) (λ _, updatedAlarm) (alertFeed s)) s) in
      (addActionLogEntry now' ("Escalated to Level " +:+ pretty newLevel) false s1,
       [escalateAlarm (ae_id alarm) newLevel])
  end.

(** ** The active alarm *)

Definition engageAlarm (now : Z) (alert : AlertEvent) (s : OperatorState) : OperatorState :=
  let who := or_str (op_callsign <$> currentOperator s) "operator" in
  claimAlert (ae_id alert)
    (upd_actionLog [mkActionLogEntry now ("Alarm claimed by " +:+ who) true]
       (upd_operatorStatus engaged (upd_activeAlarm (Some alert) s))).

(** [alarm.sla_deadline_ms ? resolvedAt > alarm.sla_deadline_ms : false] *)
Definition sla_missed (alarm : AlertEvent) (resolvedAt : Z) : bool :=
  match ae_sla_deadline_ms alarm with
  | Some d => if d =? 0 then false else d <? resolvedAt
  | None => false
  end.

Definition resolveAlarm (now : Z) (code : DispositionCode) (s : OperatorState) : OperatorState :=
  match activeAlarm s with
  | Some alarm =>
      let log := actionLog s in
      let s1 := acknowledgeAlert (ae_id alarm) s in
      let st := shiftStats s1 in
      upd_shiftStats
        (mkShiftStats (alarmsHandled st + 1)
           (slaMissed st + (if sla_missed alarm now then 1 else 0)) (shiftStartMs st))
        (upd_lastDisposition
           (Some (mkLastDisposition alarm code log now (now - ae_ts alarm)))
           (upd_operatorStatus wrap_up (upd_actionLog [] (upd_activeAlarm None s1))))
  | None => upd_operatorStatus wrap_up (upd_actionLog [] (upd_activeAlarm None s))
  end.

Definition abandonAlarm (s : OperatorState) : OperatorState :=
  let s1 := match activeAlarm s with Some a => releaseAlert (ae_id a) s | None => s end in
  upd_operatorStatus available (upd_actionLog [] (upd_activeAlarm None s1)).

Definition exitWrapUp (s : OperatorState) : OperatorState :=
  upd_lastDisposition None (upd_operatorStatus available s).

(** ** The remaining setters *)

Definition setQueueDepth (n : Z) (s : OperatorState) : OperatorState := upd_queueDepth n s.
Definition setSiteFilter (f : option string) (s : OperatorState) : OperatorState :=
  upd_siteFilter f s.
Definition setLayoutMode (m : LayoutMode) (s : OperatorState) : OperatorState :=
  upd_layoutMode m s.
Definition setAudioMuted (v : bool) (s : OperatorState) : OperatorState := upd_audioMuted v s.

(** ** Persistence *)

Record PersistedState := mkPersistedState {
  ps_selectedSiteId : option string;
  ps_siteLocks : gmap string SiteLock;
  ps_layoutMode : LayoutMode;
  ps_siteFilter : option string;
  ps_audioMuted : bool;
  ps_shiftStats : ShiftStats;
  ps_dismissedIds : list string;
}.

Definition partialize (s : OperatorState) : PersistedState :=
  mkPersistedState (selectedSiteId s) (siteLocks s) (layoutMode s) (siteFilter s)
    (audioMuted s) (shiftStats s) (dismissedIds s).

(** ** The store as a transition system *)

Inductive Op :=
| OpSetCurrentOperator (op : SOCOperator)
| OpSetOperatorStatus (status : OperatorStatus)
| OpSelectSite (id : string)
| OpInitLocks (locks : option (list SiteLock))
| OpLockSite (now_iso siteId : string)
| OpUnlockSite (siteId : string)
| OpUpsertIncident (i : SOCIncident)
| OpAcknowledgeIncident (id : string)
| OpAddAlert (a : AlertEvent)
| OpAcknowledgeAlert (id : string)
| OpClearAlerts
| OpDismissAlarm (id : string)
| OpPatchAlertSnapshot (alarmId url : string)
| OpPatchAlertAI (alarmId : string) (d : AIPatch)
| OpClaimAlert (id : string)
| OpReleaseAlert (id : string)
| OpEscalateActiveAlarm (now now' : Z)
| OpEngageAlarm (now : Z) (a : AlertEvent)
| OpAddActionLogEntry (now : Z) (text : string) (auto : bool)
| OpResolveAlarm (now : Z) (code : DispositionCode)
| OpAbandonAlarm
| OpExitWrapUp
| OpSetQueueDepth (n : Z)
| OpSetSiteFilter (f : option string)
| OpSetLayoutMode (m : LayoutMode)
| OpSetAudioMuted (v : bool).

Definition apply_op (op : Op) (s : OperatorState) : OperatorState * list ApiCall :=
  match op with
  | OpSetCurrentOperator o => (setCurrentOperator o s, [])
  | OpSetOperatorStatus st => setOperatorStatus st s
  | OpSelectSite id => (selectSite id s, [])
  | OpInitLocks ls => (initLocks ls s, [])
  | OpLockSite t id => (lockSite t id s, [])
  | OpUnlockSite id => (unlockSite id s, [])
  | OpUpsertIncident i => (upsertIncident i s, [])
  | OpAcknowledgeIncident id => (acknowledgeIncident id s, [])
  | OpAddAlert a => (addAlert a s, [])
  | OpAcknowledgeAlert id => (acknowledgeAlert id s, [])
  | OpClearAlerts => (clearAlerts s, [])
  | OpDismissAlarm id => (dismissAlarm id s, [])
  | OpPatchAlertSnapshot id u => (patchAlertSnapshot id u s, [])
  | OpPatchAlertAI id d => (patchAlertAI id d s, [])
  | OpClaimAlert id => (claimAlert id s, [])
  | OpReleaseAlert id => (releaseAlert id s, [])
  | OpEscalateActiveAlarm t t' => escalateActiveAlarm t t' s
  | OpEngageAlarm t a => (engageAlarm t a s, [])
  | OpAddActionLogEntry t x b => (addActionLogEntry t x b s, [])
  | OpResolveAlarm t c => (resolveAlarm t c s, [])
  | OpAbandonAlarm => (abandonAlarm s, [])
  | OpExitWrapUp => (exitWrapUp s, [])
  | OpSetQueueDepth n => (setQueueDepth n s, [])
  | OpSetSiteFilter f => (setSiteFilter f s, [])
  | OpSetLayoutMode m => (setLayoutMode m s, [])
  | OpSetAudioMuted v => (setAudioMuted v s, [])
  end.

Inductive store_step : OperatorState → OperatorState → Prop :=
| store_step_op op s : store_step s (apply_op op s).1.

(** Run a sequence of actions. *)
Definition run_ops (ops : list Op) (s : OperatorState) : OperatorState :=
  foldl (λ s op, (apply_op op s).1) s ops.

(** ** Invariant *)

(** What every reachable store satisfies: the bounded lists respect their
    bounds, an incident occurs once, a lock is filed under its own site, the
    shift counters are consistent, and the log of an alarm under
    investigation, like the log of a recorded disposition, starts with the
    system's claim entry. *)

Definition log_claimed (l : list ActionLogEntry) : Prop :=
  ∃ e l', l = e :: l' ∧ le_auto e = true.

Record store_inv (s : OperatorState) : Prop := {
  inv_feed : (length (alertFeed s) ≤ FEED_CAP)%nat;
  inv_incidents : (length (incidents s) ≤ FEED_CAP)%nat;
  inv_incident_ids : NoDup (si_id <$> incidents s);
  inv_dismissed : (length (dismissedIds s) ≤ DISMISSED_CAP)%nat;
  inv_locks : ∀ k l, siteLocks s !! k = Some l → sl_site_id l = k;
  inv_stats : 0 ≤ slaMissed (shiftStats s) ≤ alarmsHandled (shiftStats s);
  inv_log : is_Some (activeAlarm s) → log_claimed (actionLog s);
  inv_disposition : ∀ d, lastDisposition s = Some d → log_claimed (ld_actionLog d);
}.

(** ** Helper lemmas *)

Lemma length_take_cap {A} (l : list A) : (length (take FEED_CAP l) ≤ FEED_CAP)%nat.
Proof. rewrite length_take. lia. Qed.

Lemma length_dismiss id ids :
  (length ids ≤ DISMISSED_CAP → length (dismiss id ids) ≤ DISMISSED_CAP)%nat.
Proof. unfold dismiss. destruct (includes _ _); auto using length_slice_last. Qed.

Lemma patch_active_is_Some id f o : is_Some (patch_active id f o) ↔ is_Some o.
Proof. destruct o as [a|]; simpl; [destruct (alert_is id a)|]; split; intros []; eauto; done. Qed.

Lemma NoDup_upsert (incident : SOCIncident) l :
  NoDup (si_id <$> l) →
  NoDup (si_id <$> match find_index (incident_is (si_id incident)) l with
                   | Some idx => <[idx := incident]> l
                   | None => take FEED_CAP (incident :: l)
                   end).
Proof.
  intros Hnd. destruct (find_index _ l) as [idx|] eqn:Hf.
  - apply find_index_Some in Hf as (i & Hl & Hp%String.eqb_eq & _).
    rewrite list_fmap_insert, list_insert_id; [done|].
    rewrite list_lookup_fmap, Hl. simpl. by rewrite Hp.
  - rewrite fmap_take.
    eapply sublist_NoDup; [|apply sublist_take]. simpl. constructor; [|done].
    rewrite find_index_None in Hf. intros (i & Hi & Hin)%list_elem_of_fmap.
    specialize (Hf i Hin). unfold incident_is in Hf. rewrite <- Hi, String.eqb_refl in Hf. done.
Qed.

Lemma length_upsert (incident : SOCIncident) l :
  (length l ≤ FEED_CAP)%nat →
  (length match find_index (incident_is (si_id incident)) l with
          | Some idx => <[idx := incident]> l
          | None => take FEED_CAP (incident :: l)
          end ≤ FEED_CAP)%nat.
Proof.
  intros. destruct (find_index _ l); [by rewrite length_insert|apply length_take_cap].
Qed.

Lemma log_claimed_app l l' : log_claimed l → log_claimed (l ++ l').
Proof. intros (e & r & -> & He). exists e, (r ++ l'). done. Qed.

Lemma foldl_locks ls (m : gmap string SiteLock) :
  (∀ k l, m !! k = Some l → sl_site_id l = k) →
  ∀ k l, foldl (λ m l, <[sl_site_id l := l]> m) m ls !! k = Some l → sl_site_id l = k.
Proof.
  revert m. induction ls as [|x ls IH]; intros m Hm; simpl; [exact Hm|].
  apply IH. intros k l. rewrite lookup_insert. case_decide; [congruence|apply Hm].
Qed.

#[export] Hint Resolve length_take_cap length_dismiss NoDup_upsert length_upsert
  log_claimed_app : js.

(** ** The invariant is preserved *)

Lemma inv_initial now : store_inv (initial_state now).
Proof.
  constructor; simpl; try lia; try (by intros []); try done; try constructor.
Qed.

Lemma inv_upsertIncident i s : store_inv s → store_inv (upsertIncident i s).
Proof.
  intros []. unfold upsertIncident.
  pose proof (NoDup_upsert i (incidents s)). pose proof (length_upsert i (incidents s)).
  destruct (find_index _ _); constructor; simpl; auto.
Qed.

Lemma inv_acknowledgeIncident id s : store_inv s → store_inv (acknowledgeIncident id s).
Proof.
  intros []. constructor; simpl; auto with js; autorewrite with js_len; auto.
  - etrans; [apply length_filter_where|done].
  - eapply sublist_NoDup; [done|]. by apply fmap_sublist, sublist_filter.
Qed.

Lemma inv_acknowledgeAlert id s : store_inv s → store_inv (acknowledgeAlert id s).
Proof. intros []. constructor; simpl; autorewrite with js_len; auto with js. Qed.

Lemma inv_addAlert a s : store_inv s → store_inv (addAlert a s).
Proof.
  intros []. unfold addAlert. destruct (includes _ _); constructor; auto.
  apply length_take_cap.
Qed.

Lemma inv_patchAlertSnapshot id u s : store_inv s → store_inv (patchAlertSnapshot id u s).
Proof.
  intros [? Hi Hnd]. constructor; simpl; autorewrite with js_len; auto.
  - destruct (_ ≫= _) as [iid|]; [destruct (truthy_str iid)|]; autorewrite with js_len; done.
  - destruct (_ ≫= _) as [iid|]; [destruct (truthy_str iid)|]; rewrite ?fmap_map_where; done.
  - by rewrite patch_active_is_Some.
Qed.

Lemma inv_patchAlertAI id d s : store_inv s → store_inv (patchAlertAI id d s).
Proof.
  intros []. constructor; simpl; autorewrite with js_len; auto.
  by rewrite patch_active_is_Some.
Qed.

Lemma inv_claimAlert id s : store_inv s → store_inv (claimAlert id s).
Proof.
  intros Hs. unfold claimAlert. destruct (currentOperator s); [|done].
  destruct Hs. constructor; simpl; autorewrite with js_len; auto.
Qed.

Lemma inv_releaseAlert id s : store_inv s → store_inv (releaseAlert id s).
Proof. intros []. constructor; simpl; autorewrite with js_len; auto. Qed.

Lemma inv_escalate t t' s : store_inv s → store_inv (escalateActiveAlarm t t' s).1.
Proof.
  intros Hs. unfold escalateActiveAlarm.
  destruct (activeAlarm s) eqn:Ha; simpl; [|done].
  destruct Hs as [? ? ? ? ? ? Hlog ?]. rewrite Ha in Hlog. constructor; simpl; autorewrite with js_len; eauto with js.
Qed.

Lemma inv_engageAlarm t a s : store_inv s → store_inv (engageAlarm t a s).
Proof.
  intros []. apply inv_claimAlert. constructor; simpl; auto.
  intros _. unfold log_claimed. eauto.
Qed.

Lemma inv_resolveAlarm t c s : store_inv s → store_inv (resolveAlarm t c s).
Proof.
  intros Hs. unfold resolveAlarm. destruct (activeAlarm s) as [a|] eqn:Ha.
  - destruct (inv_acknowledgeAlert (ae_id a) s Hs). destruct Hs as [? ? ? ? ? ? Hlog ?].
    constructor; simpl in *; auto.
    + destruct (sla_missed a t); lia.
    + intros []; done.
    + intros d [= <-]. apply Hlog. by rewrite Ha.
  - destruct Hs. constructor; simpl; auto. intros []; done.
Qed.

Lemma inv_abandonAlarm s : store_inv s → store_inv (abandonAlarm s).
Proof.
  intros Hs. unfold abandonAlarm.
  assert (store_inv (match activeAlarm s with Some a => releaseAlert (ae_id a) s | None => s end))
    as [] by (destruct (activeAlarm s); auto using inv_releaseAlert).
  constructor; simpl; auto. intros []; done.
Qed.

Lemma inv_locks_op (f : gmap string SiteLock) s :
  (∀ k l, f !! k = Some l → sl_site_id l = k) → store_inv s → store_inv (upd_siteLocks f s).
Proof. intros ? []. by constructor. Qed.

#[export] Hint Resolve inv_upsertIncident inv_acknowledgeIncident inv_acknowledgeAlert
  inv_addAlert inv_patchAlertSnapshot inv_patchAlertAI inv_claimAlert inv_releaseAlert
  inv_escalate inv_engageAlarm inv_resolveAlarm inv_abandonAlarm : js.

Lemma inv_apply_op op s : store_inv s → store_inv (apply_op op s).1.
Proof.
  intros Hs. destruct op; simpl; auto with js;
    try (destruct Hs; constructor; simpl in *; by auto with js).
  - unfold setOperatorStatus. destruct Hs. destruct (currentOperator _); by constructor.
  - destruct locks as [ls|]; [|done]. apply inv_locks_op; [|done]. by apply foldl_locks.
  - unfold lockSite. destruct (currentOperator s); [|done]. apply inv_locks_op; [|done].
    intros k l. rewrite lookup_insert. case_decide; [|by eapply inv_locks].
    by intros [= <-].
  - apply inv_locks_op; [|done]. intros k l [_ ?]%lookup_delete_Some. by eapply inv_locks.
  - destruct Hs. constructor; simpl; auto using log_claimed_app. unfold FEED_CAP; lia.
Qed.

Lemma run_ops_app ops1 ops2 s : run_ops (ops1 ++ ops2) s = run_ops ops2 (run_ops ops1 s).
Proof. apply foldl_app. Qed.

(** ** Dismissals *)

(** How many ids an action appends to [dismissedIds]. *)
Definition appended (op : Op) (s : OperatorState) : nat :=
  match op with
  | OpAcknowledgeIncident id => length (filter_where (alert_of_incident id) (alertFeed s))
  | OpAcknowledgeAlert _ | OpDismissAlarm _ => 1
  | OpResolveAlarm _ _ => match activeAlarm s with Some _ => 1 | None => 0 end
  | _ => 0
  end.

Fixpoint run_appended (ops : list Op) (s : OperatorState) : nat :=
  match ops with
  | [] => 0
  | op :: ops => appended op s + run_appended ops (apply_op op s).1
  end.

(** [id] is recorded with at most [n] ids after it. *)
Definition dismissed_within (id : string) (n : nat) (ids : list string) : Prop :=
  ∃ pre post, ids = pre ++ id :: post ∧ (length post ≤ n)%nat.

Lemma dismissed_within_weaken id n m ids :
  (n ≤ m)%nat → dismissed_within id n ids → dismissed_within id m ids.
Proof. intros ? (pre & post & -> & ?). exists pre, post. split; [done|lia]. Qed.

Lemma dismissed_within_elem id n ids : dismissed_within id n ids → id ∈ ids.
Proof. intros (pre & post & -> & ?). set_solver. Qed.

Lemma dismissed_within_append id n ids l :
  dismissed_within id n ids → (n + length l < DISMISSED_CAP)%nat →
  dismissed_within id (n + length l) (slice_last DISMISSED_CAP (ids ++ l)).
Proof.
  intros (pre & post & -> & Hn) Hlt. exists (slice_last (DISMISSED_CAP - length (id :: post ++ l)) pre), (post ++ l).
  split; [|rewrite length_app; lia].
  rewrite <- app_assoc. simpl. rewrite slice_last_app_sub; [done|].
  simpl. rewrite length_app. lia.
Qed.

Lemma dismissed_within_dismiss id id' n ids :
  dismissed_within id n ids → (n + 1 < DISMISSED_CAP)%nat →
  dismissed_within id (n + 1) (dismiss id' ids).
Proof.
  intros H Hlt. unfold dismiss. destruct (includes id' ids).
  - by eapply dismissed_within_weaken; [|done]; lia.
  - by apply (dismissed_within_append _ _ _ [id']).
Qed.

Lemma dismissed_within_op id n op s :
  dismissed_within id n (dismissedIds s) → (n + appended op s < DISMISSED_CAP)%nat →
  dismissed_within id (n + appended op s) (dismissedIds (apply_op op s).1).
Proof.
  intros H Hlt. destruct op; simpl in *; rewrite ?Nat.add_0_r;
    unfold setOperatorStatus, initLocks, lockSite, upsertIncident, addAlert, claimAlert,
      escalateActiveAlarm, engageAlarm, resolveAlarm, abandonAlarm in *;
    repeat (case_match; simpl in *; rewrite ?Nat.add_0_r);
    try done; try (by apply dismissed_within_dismiss).
  - rewrite <- (length_fmap ae_id) in Hlt |- *. by apply dismissed_within_append.
  - unfold claimAlert. by case_match.
Qed.

Lemma dismissed_within_run id ops n s :
  dismissed_within id n (dismissedIds s) → (n + run_appended ops s < DISMISSED_CAP)%nat →
  dismissed_within id (n + run_appended ops s) (dismissedIds (run_ops ops s)).
Proof.
  revert n s. induction ops as [|op ops IH]; intros n s H Hlt; simpl in *.
  - by rewrite Nat.add_0_r.
  - rewrite Nat.add_assoc. apply IH; [|lia]. apply dismissed_within_op; [done|lia].
Qed.

Lemma dismiss_fresh id ids :
  id ∉ ids → dismissed_within id 0 (dismiss id ids).
Proof.
  intros H. unfold dismiss, includes. rewrite bool_decide_eq_false_2 by done.
  unfold slice_last. rewrite length_app, drop_app_le by (unfold DISMISSED_CAP; simpl; lia).
  eexists _, []. split; [done|simpl; lia].
Qed.

Lemma dismiss_elem id ids : id ∈ dismiss id ids.
Proof.
  destruct (decide (id ∈ ids)) as [Hin|Hin].
  - unfold dismiss, includes. by rewrite bool_decide_eq_true_2.
  - by eapply dismissed_within_elem, dismiss_fresh.
Qed.

Lemma includes_true {A} `{EqDecision A} (x : A) l : x ∈ l → includes x l = true.
Proof. apply bool_decide_eq_true_2. Qed.

(** How many ids were recorded after [id]. *)
Fixpoint younger (id : string) (l : list string) : nat :=
  match l with
  | [] => 0
  | x :: r => if includes id r then younger id r else if String.eqb x id then length r else 0
  end.

Lemma younger_split id l : id ∈ l → ∃ pre post, l = pre ++ (id :: post) ∧ id ∉ post ∧ length post = younger id l.
Proof.
  induction l as [|x l IH]; [by intros H%elem_of_nil|]. intros Hin. cbn [younger]. unfold includes. destruct (bool_decide_reflect (id ∈ l)) as [Hl|Hl].
  - destruct (IH Hl) as (pre & post & -> & Hp & Hk). by exists (x :: pre), post.
  - apply elem_of_cons in Hin as [->|Hin]; [|done]. rewrite String.eqb_refl. by exists [], l.
Qed.

Lemma younger_last id l : younger id (l ++ [id])%list = 0%nat.
Proof.
  induction l as [|x l IH]; simpl; [by rewrite String.eqb_refl|]. rewrite includes_true; [done|set_solver].
Qed.

Lemma younger_fresh id ids : id ∉ ids → younger id (dismiss id ids) = 0%nat.
Proof.
  intros H. unfold dismiss, includes. rewrite bool_decide_eq_false_2 by done. unfold slice_last.
  rewrite length_app, drop_app_le by (unfold DISMISSED_CAP; simpl; lia). apply younger_last.
Qed.

Lemma run_dismissals ids s :
  NoDup ids → (∀ i, i ∈ ids → i ∉ dismissedIds s) → (length ids ≤ DISMISSED_CAP)%nat →
  (length (dismissedIds s) ≤ DISMISSED_CAP)%nat →
  dismissedIds (run_ops (OpDismissAlarm <$> ids) s) = slice_last DISMISSED_CAP (dismissedIds s ++ ids).
Proof.
  revert s. induction ids as [|i ids IH]; intros s Hnd Hf Hlen Hs; simpl in *.
  - rewrite app_nil_r. by rewrite slice_last_all.
  - apply NoDup_cons in Hnd as [Hi Hnd].
    assert (Hdis : dismiss i (dismissedIds s) = slice_last DISMISSED_CAP (dismissedIds s ++ [i])).
    { unfold dismiss, includes. rewrite bool_decide_eq_false_2; [done|]. apply Hf. set_solver. }
    fold (run_ops (OpDismissAlarm <$> ids) (dismissAlarm i s)).
    rewrite IH; simpl; rewrite ?Hdis; [|done| |lia|apply length_slice_last].
    + rewrite (slice_last_app_sub _ _ ids), slice_last_slice_last by lia.
      replace (dismissedIds s ++ i :: ids) with ((dismissedIds s ++ [i]) ++ ids) by (by rewrite <- app_assoc).
      rewrite (slice_last_app_sub _ _ ids) by lia. done.
    + intros j Hj Hin%elem_of_slice_last. specialize (Hf j). set_solver.
Qed.

(** ** Ownership *)

(** The feed entries of an alarm after a sequence of updates of that alarm. *)
Lemma feed_claim id op s :
  currentOperator s = Some op →
  alertFeed (claimAlert id s) =
    map_where (alert_is id) (set_assigned (Some (op_id op)) (Some (op_callsign op))) (alertFeed s).
Proof. intros H. unfold claimAlert. by rewrite H. Qed.

(** An update that keeps ids maps the entries with an id to entries with it. *)
Lemma alert_is_map_where id f l y :
  (∀ x, ae_id (f x) = ae_id x) → y ∈ map_where (alert_is id) f l → ae_id y = id →
  ∃ x, x ∈ l ∧ ae_id x = id ∧ y = f x.
Proof.
  intros Hf (x & Hx & ->)%elem_of_map_where. unfold alert_is.
  destruct (String.eqb_spec (ae_id x) id); [eauto|]. intros; congruence.
Qed.

Lemma alert_is_patch_ai id d a : alert_is id (patch_ai d a) = alert_is id a.
Proof. done. Qed.

Lemma alert_is_set_snapshot_url id u a : alert_is id (set_snapshot_url u a) = alert_is id a.
Proof. done. Qed.

(** ** Sample data for the witnesses *)

Definition sample_operator : SOCOperator := mkSOCOperator "u1" "Ada" "OP-1" None on_shift None.

Definition sample_alert (id : string) : AlertEvent :=
  mkAlertEvent id (Some "inc-1"%string) "TX-203" "Yard" "cam-1" "North" high "intrusion"
    "Person at fence" "/s/0.jpg" "/c/0.mp4" 1000 false None None 0 None (Some 5000)
    None None None None None None None None None None None.

Definition sample_incident (id : string) : SOCIncident :=
  mkSOCIncident id "TX-203" "Yard" high si_active 1 ["cam-1"%string] ["North"%string]
    ["intrusion"%string] "intrusion" "Person at fence" "/s/0.jpg" "/c/0.mp4" 1000 1000 5000.

Definition sample_state : OperatorState :=
  run_ops [OpSetCurrentOperator sample_operator; OpUpsertIncident (sample_incident "inc-1");
           OpAddAlert (sample_alert "a1")] (initial_state 0).

(** ** Properties *)

(** C1. Every state the store can reach from its initial state, by any sequence
    of actions, satisfies the invariant: the feeds hold at most 200 entries and
    [dismissedIds] at most 500, an incident id occurs once, a site lock is filed
    under its own site, missed SLAs never exceed handled alarms, and the log of
    the active alarm and of the last disposition starts with the automatic
    claim entry. *)
Theorem store_invariant now s : rtc store_step (initial_state now) s → store_inv s.
Proof.
  apply (rtc_ind_r (λ s, store_inv s)); [apply inv_initial|].
  intros s1 s2 _ [op s0] IH. by apply inv_apply_op.
Qed.

Lemma store_invariant_witness : store_inv sample_state.
Proof.
  apply (store_invariant 0).
  eapply rtc_l; [apply (store_step_op (OpSetCurrentOperator sample_operator))|].
  eapply rtc_l; [apply (store_step_op (OpUpsertIncident (sample_incident "inc-1")))|].
  eapply rtc_l; [apply (store_step_op (OpAddAlert (sample_alert "a1")))|].
  apply rtc_refl.
Defined.

(** C8. An alarm the operator acknowledged stays out of the feed, for as long as its entry is
    one of the last 500 that were recorded: whatever actions follow, while the entries after its own
    and the dismissals that they record are fewer than 500 together, pushing the alarm
    again ([addAlert], from polling or the stream) changes nothing.  An alarm that was not
    recorded before starts at 0, the newest place; one that was keeps the place that it had.
    The bound is exact: dismissing as many other alarms as are missing to 500 brings
    the alarm back to the head of the feed. *)
Theorem dismissed_never_revived a s ops :
  let id := ae_id a in
  let s1 := acknowledgeAlert id s in
  let k := younger id (dismissedIds s1) in
  (id ∉ dismissedIds s → k = 0%nat) ∧ (id ∈ dismissedIds s → k = younger id (dismissedIds s)) ∧
  ((k + run_appended ops s1 < DISMISSED_CAP)%nat → addAlert a (run_ops ops s1) = run_ops ops s1) ∧
  ((length (dismissedIds s) ≤ DISMISSED_CAP)%nat → ∀ ids, NoDup ids → (∀ i, i ∈ ids → i ∉ dismissedIds s1) → length ids = (DISMISSED_CAP - k)%nat →
     head (alertFeed (addAlert a (run_ops (OpDismissAlarm <$> ids) s1))) = Some a).
Proof.
  intros id s1 k. assert (Hin : id ∈ dismissedIds s1) by apply dismiss_elem. destruct (younger_split _ _ Hin) as (pre & post & E & Hpost & Hk).
  split; [by apply younger_fresh|]. split; [intros H; unfold k, s1; simpl; unfold dismiss; by rewrite includes_true|]. split.
  - intros Hn. unfold addAlert. rewrite includes_true; [done|]. eapply dismissed_within_elem, (dismissed_within_run _ _ k); [|done].
    exists pre, post. split; [done|]. unfold k. lia.
  - intros Hlen ids Hnd Hf Hids. assert (Hlen1 : (length (dismissedIds s1) ≤ DISMISSED_CAP)%nat) by (by apply length_dismiss).
    assert (Hd : dismissedIds (run_ops (OpDismissAlarm <$> ids) s1) = (post ++ ids)%list).
    { rewrite run_dismissals by (done || lia). rewrite E. change (id :: post) with ([id] ++ post)%list. rewrite <- !app_assoc, app_assoc, slice_last_app_r.
      - apply slice_last_all. rewrite length_app. rewrite E, length_app in Hlen1. simpl in Hlen1. unfold k in Hids. lia.
      - rewrite length_app. rewrite E, length_app in Hlen1. simpl in Hlen1. unfold k in Hids. lia. }
    assert (Hnot : id ∉ (post ++ ids)%list) by (intros [H|H]%elem_of_app; [done|by apply (Hf id H)]).
    unfold addAlert, includes. by rewrite Hd, bool_decide_eq_false_2.
Qed.

(** The head of a full list is forgotten with the next dismissal, though it has just been
    acknowledged once more. *)
Lemma dismissed_never_revived_witness :
  (addAlert (sample_alert "a1") (run_ops [OpDismissAlarm "b"; OpClearAlerts] (acknowledgeAlert "a1" sample_state))
   = run_ops [OpDismissAlarm "b"; OpClearAlerts] (acknowledgeAlert "a1" sample_state)) ∧
  (let s := run_ops (OpDismissAlarm <$> ("a1"%string :: ((λ n, "x" +:+ pretty (Z.of_nat n)) <$> seq 0 499))) sample_state in
   head (alertFeed (addAlert (sample_alert "a1") (dismissAlarm "y" (acknowledgeAlert "a1" s)))) = Some (sample_alert "a1")).
Proof.
  split.
  - apply (dismissed_never_revived (sample_alert "a1") sample_state). apply Nat.ltb_lt. vm_compute. reflexivity.
  - intros s. apply (dismissed_never_revived (sample_alert "a1") s []) with (ids := ["y"%string]).
    + apply Nat.leb_le. vm_compute. reflexivity.
    + apply NoDup_singleton.
    + intros i ->%list_elem_of_singleton. apply (bool_decide_unpack _). vm_compute. exact I.
    + vm_compute. reflexivity.
Defined.

(** The protection has a horizon: after 500 further dismissals of other
    alarms the dismissed alarm is forgotten, and pushing it puts it back at the
    head of the feed. *)
Theorem dismissal_forgotten a ids s :
  (length (dismissedIds s) ≤ DISMISSED_CAP)%nat →
  NoDup (ae_id a :: ids) → length ids = DISMISSED_CAP →
  (∀ i, i ∈ ids → i ∉ dismissedIds s) →
  let s' := run_ops (OpDismissAlarm <$> ids) (dismissAlarm (ae_id a) s) in
  head (alertFeed (addAlert a s')) = Some a.
Proof.
  intros Hs [Ha Hnd]%NoDup_cons Hlen Hf s'.
  assert (dismissedIds s' = ids) as Hd.
  { unfold s'. rewrite run_dismissals; [|done| |lia|by apply length_dismiss].
    - rewrite slice_last_app_r by lia. apply slice_last_all. lia.
    - simpl. intros i Hi. unfold dismiss. destruct (includes _ _); [by apply Hf|].
      intros Hin%elem_of_slice_last. specialize (Hf i Hi). set_solver. }
  unfold addAlert, includes. rewrite Hd, bool_decide_eq_false_2 by done. done.
Qed.

Lemma dismissal_forgotten_witness :
  let ids := (λ n, "x" +:+ pretty (Z.of_nat n)) <$> seq 0 500 in
  let s' := run_ops (OpDismissAlarm <$> ids) (dismissAlarm "a1" sample_state) in
  head (alertFeed (addAlert (sample_alert "a1") s')) = Some (sample_alert "a1").
Proof.
  intros ids. apply (dismissal_forgotten (sample_alert "a1") ids).
  - apply Nat.leb_le. vm_compute. reflexivity.
  - apply (bool_decide_unpack _). vm_compute. exact I.
  - vm_compute. reflexivity.
  - intros i _ H. vm_compute in H. inversion H.
Defined.

(** What the log entries of an investigation look like, in order. *)
Definition log_entries (es : list (Z * string * bool)) : list ActionLogEntry :=
  (λ '(t, x, b), mkActionLogEntry t x b) <$> es.

Definition add_entries (es : list (Z * string * bool)) (s : OperatorState) : OperatorState :=
  run_ops ((λ '(t, x, b), OpAddActionLogEntry t x b) <$> es) s.

Lemma add_entries_spec es s :
  add_entries es s = upd_actionLog (actionLog s ++ log_entries es) s.
Proof.
  unfold add_entries, log_entries. revert s.
  induction es as [|[[t x] b] es IH]; intros s; simpl.
  - rewrite app_nil_r. by destruct s.
  - fold (run_ops ((λ '(t, x, b), OpAddActionLogEntry t x b) <$> es) (addActionLogEntry t x b s)).
    rewrite IH. simpl. by rewrite <- app_assoc.
Qed.

(** C11. The life of an alarm: claiming it, logging any entries and resolving it
    records a disposition with that alarm, that code, the claim entry followed
    by exactly those log entries, and the response time; it counts one handled
    alarm, missed exactly when the resolution is past a non-zero deadline; it
    clears the workspace and acknowledges and dismisses the alarm for good, and
    leaving the wrap-up makes the operator available. *)
Theorem alarm_lifecycle s a t0 es t1 code :
  let claim := mkActionLogEntry t0
    ("Alarm claimed by " +:+ or_str (op_callsign <$> currentOperator s) "operator") true in
  let s' := resolveAlarm t1 code (add_entries es (engageAlarm t0 a s)) in
  lastDisposition s' =
    Some (mkLastDisposition a code (claim :: log_entries es) t1 (t1 - ae_ts a)) ∧
  alarmsHandled (shiftStats s') = alarmsHandled (shiftStats s) + 1 ∧
  (slaMissed (shiftStats s') = slaMissed (shiftStats s) + 1 ↔
     ∃ d, ae_sla_deadline_ms a = Some d ∧ d ≠ 0 ∧ d < t1) ∧
  operatorStatus s' = wrap_up ∧ activeAlarm s' = None ∧ actionLog s' = [] ∧
  (∀ x, x ∈ alertFeed s' → ae_id x = ae_id a → ae_acknowledged x = true) ∧
  addAlert a s' = s' ∧
  operatorStatus (exitWrapUp s') = available ∧ lastDisposition (exitWrapUp s') = None.
Proof.
  intros claim s'.
  assert (He : ∃ f, engageAlarm t0 a s =
    upd_alertFeed f (upd_actionLog [claim] (upd_operatorStatus engaged (upd_activeAlarm (Some a) s)))).
  { unfold engageAlarm, claimAlert. simpl. destruct (currentOperator s); eexists; done. }
  destruct He as [f He]. unfold s'. rewrite He, add_entries_spec. clear He s'.
  unfold resolveAlarm. simpl. split_and!; try done.
  - unfold sla_missed. destruct (ae_sla_deadline_ms a) as [d|]; [|split; [lia|naive_solver]].
    destruct (Z.eqb_spec d 0); [split; [lia|naive_solver]|].
    destruct (Z.ltb_spec d t1); split; intros; try lia; [by exists d|naive_solver lia].
  - intros x Hx Hid. by apply alert_is_map_where in Hx as (y & _ & _ & ->).
  - unfold addAlert. simpl. by rewrite includes_true by apply dismiss_elem.
Qed.

(** Escalating an alarm loses its owner in the feed.  Claiming assigns the
    feed entries of the alarm to the operator, but the active alarm stays the
    unassigned object that was clicked; escalation then overwrites the feed
    entries with a copy of it. *)
Theorem escalation_drops_owner s op a t t1 t2 :
  currentOperator s = Some op →
  ae_assigned_operator_id a = None →
  let s1 := engageAlarm t a s in
  let s2 := (escalateActiveAlarm t1 t2 s1).1 in
  (∀ x, x ∈ alertFeed s1 → ae_id x = ae_id a → ae_assigned_operator_id x = Some (op_id op)) ∧
  (∀ x, x ∈ alertFeed s2 → ae_id x = ae_id a → ae_assigned_operator_id x = None).
Proof.
  intros Hop Ha s1 s2. subst s1 s2. unfold engageAlarm.
  split; intros x Hx Hid.
  - erewrite feed_claim in Hx by done.
    by apply alert_is_map_where in Hx as (y & _ & _ & ->).
  - unfold escalateActiveAlarm, claimAlert in Hx. simpl in Hx. rewrite Hop in Hx. simpl in Hx.
    apply elem_of_map_where in Hx as (y & Hy & ->).
    destruct (alert_is (ae_id a) y) eqn:E; simpl; [done|].
    unfold alert_is in E. rewrite Hid, String.eqb_refl in E. done.
Qed.

Lemma escalation_drops_owner_witness :
  let s1 := engageAlarm 10 (sample_alert "a1") sample_state in
  let s2 := (escalateActiveAlarm 20 21 s1).1 in
  (∀ x, x ∈ alertFeed s1 → ae_id x = "a1"%string → ae_assigned_operator_id x = Some "u1"%string) ∧
  (∀ x, x ∈ alertFeed s2 → ae_id x = "a1"%string → ae_assigned_operator_id x = None).
Proof.
  apply (escalation_drops_owner sample_state sample_operator (sample_alert "a1")); reflexivity.
Defined.

(** Abandoning an alarm undoes claiming it: the workspace is empty, the
    operator available, every feed entry of the alarm unassigned and nothing
    else of the feed changed, and nothing was dismissed. *)
Theorem abandon_undoes_engage s a t :
  let s' := abandonAlarm (engageAlarm t a s) in
  alertFeed s' = map_where (alert_is (ae_id a)) (set_assigned None None) (alertFeed s) ∧
  activeAlarm s' = None ∧ actionLog s' = [] ∧ operatorStatus s' = available ∧
  dismissedIds s' = dismissedIds s ∧ incidents s' = incidents s ∧ shiftStats s' = shiftStats s.
Proof.
  unfold abandonAlarm, engageAlarm, claimAlert. simpl.
  destruct (currentOperator s); simpl; split_and!; try done.
  by rewrite map_where_map_where.
Qed.

(** The two asynchronous enrichments of an alarm commute: whichever of a
    snapshot and an AI result arrives first, for the same alarm or for two,
    the store ends in the same state. *)
Theorem enrichments_commute id url id' d s :
  patchAlertSnapshot id url (patchAlertAI id' d s) =
  patchAlertAI id' d (patchAlertSnapshot id url s).
Proof.
  assert (Hfind : (find_where (alert_is id) (alertFeed (patchAlertAI id' d s)) ≫= ae_incident_id)
    = (find_where (alert_is id) (alertFeed s) ≫= ae_incident_id)).
  { simpl. unfold map_where. induction (alertFeed s) as [|x l IH]; [done|]. simpl.
    rewrite !find_where_cons. destruct (alert_is id' x); simpl;
      rewrite ?alert_is_patch_ai; destruct (alert_is id x); auto. }
  unfold patchAlertSnapshot. rewrite Hfind. unfold patchAlertAI, upd_alertFeed, upd_incidents, upd_activeAlarm.
  simpl. f_equal.
  - unfold map_where. rewrite <- !list_fmap_compose. apply list_fmap_ext. intros i x _. simpl.
    destruct (alert_is id' x) eqn:E1, (alert_is id x) eqn:E2;
      by rewrite ?alert_is_patch_ai, ?alert_is_set_snapshot_url, ?E1, ?E2.
  - destruct (activeAlarm s) as [x|]; simpl; [|done].
    destruct (alert_is id' x) eqn:E1, (alert_is id x) eqn:E2; simpl;
      by rewrite ?alert_is_patch_ai, ?alert_is_set_snapshot_url, ?E1, ?E2.
Qed.

(** Acknowledging an incident closes all of it: the incident leaves the
    list, every alarm of it in the feed is acknowledged, and none of them can
    come back through [addAlert]. *)
Theorem acknowledge_incident_closes s id :
  store_inv s →
  let s' := acknowledgeIncident id s in
  (∀ i, i ∈ incidents s' ↔ i ∈ incidents s ∧ si_id i ≠ id) ∧
  (∀ x, x ∈ alertFeed s' → ae_incident_id x = Some id → ae_acknowledged x = true) ∧
  (∀ a, a ∈ alertFeed s → ae_incident_id a = Some id → addAlert a s' = s').
Proof.
  intros Hs s'. split_and!.
  - intros i. simpl. rewrite elem_of_filter_where. unfold incident_is.
    destruct (String.eqb_spec (si_id i) id); naive_solver.
  - intros x (y & Hy & ->)%elem_of_map_where. unfold alert_of_incident.
    destruct (ae_incident_id y) as [j|] eqn:E; [|by rewrite E].
    destruct (String.eqb_spec j id); [done|]. rewrite E. congruence.
  - intros a Ha Hid. unfold addAlert. simpl. rewrite includes_true; [done|].
    set (l := ae_id <$> _). assert (length l ≤ FEED_CAP)%nat as Hl.
    { unfold l. rewrite length_fmap. etrans; [apply length_filter_where|apply Hs]. }
    rewrite slice_last_app_sub by (unfold FEED_CAP, DISMISSED_CAP in *; lia).
    apply elem_of_app. right. apply list_elem_of_fmap_2, elem_of_filter_where.
    split; [|done]. unfold alert_of_incident. by rewrite Hid, String.eqb_refl.
Qed.

Lemma acknowledge_incident_closes_witness :
  let s' := acknowledgeIncident "inc-1" sample_state in
  (∀ i, i ∈ incidents s' ↔ i ∈ incidents sample_state ∧ si_id i ≠ "inc-1"%string) ∧
  (∀ x, x ∈ alertFeed s' → ae_incident_id x = Some "inc-1"%string → ae_acknowledged x = true) ∧
  (∀ a, a ∈ alertFeed sample_state → ae_incident_id a = Some "inc-1"%string → addAlert a s' = s').
Proof.
  apply (acknowledge_incident_closes sample_state "inc-1").
  repeat apply inv_apply_op. apply inv_initial.
Defined.

(** [upsertIncident] is an upsert: the incident given is the one the list
    then holds under its id; an id already present is updated in its place with
    every other incident and the order untouched, a new id goes to the head and
    pushes out the oldest past 200. *)
Theorem upsert_incident_spec s i :
  store_inv s →
  let s' := upsertIncident i s in
  i ∈ incidents s' ∧
  (∀ j, j ∈ incidents s' → si_id j = si_id i → j = i) ∧
  (si_id i ∈ si_id <$> incidents s →
     si_id <$> incidents s' = si_id <$> incidents s ∧
     ∀ j, si_id j ≠ si_id i → j ∈ incidents s' ↔ j ∈ incidents s) ∧
  (si_id i ∉ si_id <$> incidents s → incidents s' = i :: take (FEED_CAP - 1) (incidents s)).
Proof.
  intros Hs s'.
  assert (Hnd : NoDup (si_id <$> incidents s')) by apply inv_upsertIncident, Hs.
  assert (Hin : i ∈ incidents s').
  { unfold s', upsertIncident. destruct (find_index _ _) as [idx|] eqn:Hf; simpl; [|left].
    apply find_index_Some in Hf as (x & Hx & _).
    eapply list_elem_of_lookup_2, list_lookup_insert_eq, lookup_lt_Some, Hx. }
  split_and!; [done| | |].
  - intros j Hj Hid. by eapply NoDup_fmap_elem.
  - intros Hold. unfold s', upsertIncident.
    destruct (find_index _ _) as [idx|] eqn:Hf; simpl.
    + apply find_index_Some in Hf as (x & Hx & Hp%String.eqb_eq & _).
      split; [|intros j Hj; apply (elem_of_insert_ne _ _ x); congruence].
      rewrite list_fmap_insert, list_insert_id; [done|].
      by rewrite list_lookup_fmap, Hx; simpl; rewrite Hp.
    + exfalso. apply list_elem_of_fmap in Hold as (x & Hid & Hx).
      rewrite find_index_None in Hf. specialize (Hf x Hx). unfold incident_is in Hf.
      rewrite Hid, String.eqb_refl in Hf. done.
  - intros Hnew. unfold s', upsertIncident.
    destruct (find_index _ _) as [idx|] eqn:Hf; [|done]. exfalso.
    apply find_index_Some in Hf as (x & Hx & Hp%String.eqb_eq & _). apply Hnew.
    rewrite <- Hp. eapply list_elem_of_fmap_2, list_elem_of_lookup_2, Hx.
Qed.

Lemma upsert_incident_spec_witness :
  let i := sample_incident "inc-2" in
  let s' := upsertIncident i sample_state in
  i ∈ incidents s' ∧
  (∀ j, j ∈ incidents s' → si_id j = si_id i → j = i) ∧
  (si_id i ∈ si_id <$> incidents sample_state →
     si_id <$> incidents s' = si_id <$> incidents sample_state ∧
     ∀ j, si_id j ≠ si_id i → j ∈ incidents s' ↔ j ∈ incidents sample_state) ∧
  (si_id i ∉ si_id <$> incidents sample_state →
     incidents s' = i :: take (FEED_CAP - 1) (incidents sample_state)).
Proof.
  apply (upsert_incident_spec sample_state (sample_incident "inc-2")).
  repeat apply inv_apply_op. apply inv_initial.
Defined.

(** Site locks are per site and per operator: without an operator, locking
    does nothing; with one, the site is held by that operator and recognised as
    theirs, no other operator sees it as their own, unlocking frees it, and the
    locks of every other site are untouched by both. *)
Theorem site_lock_spec s site t op :
  (currentOperator s = None → lockSite t site s = s) ∧
  (currentOperator s = Some op →
     isMySiteLock site (lockSite t site s) = true ∧
     getSiteLock site (lockSite t site s) = Some (mkSiteLock site (op_id op) (op_callsign op) t) ∧
     (∀ op', op_id op' ≠ op_id op →
        isMySiteLock site (setCurrentOperator op' (lockSite t site s)) = false)) ∧
  getSiteLock site (unlockSite site s) = None ∧
  (∀ site', site' ≠ site →
     getSiteLock site' (lockSite t site s) = getSiteLock site' s ∧
     getSiteLock site' (unlockSite site s) = getSiteLock site' s).
Proof.
  unfold lockSite, unlockSite, getSiteLock, isMySiteLock. split_and!.
  - by intros ->.
  - intros Hop. rewrite Hop. simpl. rewrite lookup_insert_eq, Hop. simpl.
    split_and!; [apply String.eqb_refl|done|]. intros op' Hne. by apply String.eqb_neq.
  - simpl. apply lookup_delete_eq.
  - intros site' Hne. split; [destruct (currentOperator s)|]; simpl; by simplify_map_eq.
Qed.

Lemma site_lock_spec_witness :
  isMySiteLock "TX-203" (lockSite "2026-01-01T00:00:00Z" "TX-203" sample_state) = true.
Proof.
  destruct (site_lock_spec sample_state "TX-203" "2026-01-01T00:00:00Z" sample_operator)
    as (_ & H & _).
  apply H. reflexivity.
Defined.

(** Escalate once per pair of clock readings, collecting the API calls. *)
Fixpoint escalate_all (ts : list (Z * Z)) (s : OperatorState) : OperatorState * list ApiCall :=
  match ts with
  | [] => (s, [])
  | (t, t') :: ts =>
      let '(s1, c1) := escalateActiveAlarm t t' s in
      let '(s2, c2) := escalate_all ts s1 in (s2, c1 ++ c2)
  end.

(** Escalations are sequential and reported: escalating an active alarm
    [n] times raises its level by exactly [n], notifies the backend once per
    level in increasing order, and logs one manual entry per escalation. *)
Theorem escalation_sequence ts s a :
  activeAlarm s = Some a → 
  let '(s', calls) := escalate_all ts s in
  (∃ a', activeAlarm s' = Some a' ∧ ae_id a' = ae_id a ∧
     ae_escalation_level a' = ae_escalation_level a + Z.of_nat (length ts)) ∧
  calls = (λ k, escalateAlarm (ae_id a) (ae_escalation_level a + 1 + Z.of_nat k)) <$> seq 0 (length ts) ∧
  ∃ log, actionLog s' = actionLog s ++ log ∧ length log = length ts ∧
    Forall (λ e, le_auto e = false) log.
Proof.
  revert s a. induction ts as [|[t t'] ts IH]; intros s a Ha; simpl.
  - split_and!; [exists a; split_and!; [done..|lia]|done|]. exists []. by rewrite app_nil_r.
  - unfold escalateActiveAlarm. rewrite Ha. simpl.
    assert (Hz : (if ae_escalation_level a =? 0 then 0 else ae_escalation_level a)
      = ae_escalation_level a) by (destruct (Z.eqb_spec (ae_escalation_level a) 0); lia).
    rewrite Hz. set (s1 := addActionLogEntry _ _ _ _).
    specialize (IH s1 (set_escalation (ae_escalation_level a + 1) t a) eq_refl).
    destruct (escalate_all ts s1) as [s2 c2]. simpl in IH.
    destruct IH as ((a' & Ha' & Hid & Hlvl) & -> & log & Hlog & Hlen & Hall).
    split_and!.
    + exists a'. split_and!; [done..|]. lia.
    + f_equal; [f_equal; lia|]. rewrite <- fmap_S_seq, <- list_fmap_compose.
      apply list_fmap_ext. intros i x _. simpl. f_equal. lia.
    + rewrite Hlog. unfold s1. simpl. eexists (_ :: log). rewrite <- app_assoc. simpl.
      split_and!; [done|lia|by constructor].
Qed.

Lemma escalation_sequence_witness :
  let s := engageAlarm 10 (sample_alert "a1") sample_state in
  let '(s', calls) := escalate_all [(20, 21); (30, 31)] s in
  (∃ a', activeAlarm s' = Some a' ∧ ae_id a' = "a1"%string ∧ ae_escalation_level a' = 0 + 2) ∧
  calls = (λ k, escalateAlarm "a1" (0 + 1 + Z.of_nat k)) <$> seq 0 2 ∧
  ∃ log, actionLog s' = actionLog s ++ log ∧ length log = 2%nat ∧
    Forall (λ e, le_auto e = false) log.
Proof.
  exact (escalation_sequence [(20, 21); (30, 31)] (engageAlarm 10 (sample_alert "a1") sample_state)
           (sample_alert "a1") eq_refl).
Defined.
