(* ===== verification/AlertStream.v ===== *)
(** * The alert stream

    [src/frontend/src/lib/ws-alerts.ts]: the class [AlertStream], which keeps
    one WebSocket to [/ws/alerts] alive with exponential back-off.  A method
    or callback is a function from the object's state to its next state and the
    effects it has, in order.  The browser (ticket fetches, sockets, timers) is
    the environment of the step relation [sys_step]: it may complete what the
    object started, in any order, and nothing else.  Handlers are references,
    so a handler is a number and subscribing is by identity. *)

From S2P Require Import Prelude Types.

(** ** Messages *)

Record AIEnrichment := mkAIEnrichment {
  en_alarm_id : string;
  en_incident_id : string;
  en_ai_description : string;
  en_ai_threat_level : string;
  en_ai_recommended_action : string;
  en_ai_false_positive_pct : Q;
  en_ai_objects : list AIObject;
  en_ai_detections : list AIDetection;
  en_ai_ppe_violations : option (list AIDetection);
}.

(** A text frame after [JSON.parse]; [data] is [None] when it is falsy.
    [MInvalid] is a frame that does not parse. *)
Inductive Message :=
| MAlert (data : option AlertEvent)
| MIncidentNew (data : option SOCIncident)
| MIncidentUpdate (data : option SOCIncident)
| MSnapshot (data : option (string * string))
| MAI (data : option AIEnrichment)
| MOther
| MInvalid.

Inductive ConnectionStatus := connecting | connected | disconnected | reconnecting.

#[export] Instance ConnectionStatus_eq_dec : EqDecision ConnectionStatus.
Proof. solve_decision. Defined.

(** ** Effects *)

Inductive Effect :=
| CallAlert (h : nat) (a : AlertEvent)
| CallIncident (h : nat) (i : SOCIncident) (isNew : bool)
| CallSnapshot (h : nat) (alarm_id snapshot_url : string)
| CallAI (h : nat) (d : AIEnrichment)
| CallStatus (h : nat) (st : ConnectionStatus)
| FetchTicket
| OpenSocket (url : string)
| CloseSocket
| SetTimer (id : nat) (delay : Z)
| ClearTimer (id : nat).

(** ** The object *)

Record Stream := mkStream {
  ws : option string;               (** the URL of the socket in [this.ws] *)
  handlers : list nat;
  incidentHandlers : list nat;
  snapshotHandlers : list nat;
  aiHandlers : list nat;
  statusHandlers : list nat;
  reconnectDelay : Z;
  reconnectTimer : option nat;      (** the id in [this.reconnectTimer] *)
  timerCount : nat;                 (** [setTimeout] calls so far: the next timer id *)
  destroyed : bool;
  url : string;
  status_ : ConnectionStatus;
  reconnectAttempts : Z;
  has_window : bool;                (** [typeof window !== 'undefined'] *)
}.

Definition INITIAL_DELAY : Z := 3000.
Definition maxReconnectDelay : Z := 30000.

Definition set_ws (v : option string) (s : Stream) : Stream :=
  mkStream v (handlers s) (incidentHandlers s) (snapshotHandlers s) (aiHandlers s)
    (statusHandlers s) (reconnectDelay s) (reconnectTimer s) (timerCount s) (destroyed s) (url s)
    (status_ s) (reconnectAttempts s) (has_window s).

Definition set_backoff (delay : Z) (attempts : Z) (s : Stream) : Stream :=
  mkStream (ws s) (handlers s) (incidentHandlers s) (snapshotHandlers s) (aiHandlers s)
    (statusHandlers s) delay (reconnectTimer s) (timerCount s) (destroyed s) (url s)
    (status_ s) attempts (has_window s).

(** [this.reconnectTimer = setTimeout(...)] *)
Definition set_timer (s : Stream) : Stream :=
  mkStream (ws s) (handlers s) (incidentHandlers s) (snapshotHandlers s) (aiHandlers s)
    (statusHandlers s) (reconnectDelay s) (Some (timerCount s)) (S (timerCount s))
    (destroyed s) (url s) (status_ s) (reconnectAttempts s) (has_window s).

Definition set_handlers (h i sn ai st : list nat) (s : Stream) : Stream :=
  mkStream (ws s) h i sn ai st (reconnectDelay s) (reconnectTimer s) (timerCount s) (destroyed s) (url s)
    (status_ s) (reconnectAttempts s) (has_window s).

(** [constructor(wsUrl?)]: [window] is the page's protocol and host, if any. *)
Definition constructor (wsUrl : option string) (window : option (string * string)) : Stream :=
  let u :=
    match wsUrl with
    | Some u => if truthy_str u then Some u else None
    | None => None
    end in
  let u :=
    match u, window with
    | Some u, _ => u
    | None, Some (protocol, host) =>
        (if String.eqb protocol "https:" then "wss:" else "ws:") +:+ "//" +:+ host +:+ "/ws/alerts"
    | None, None => "ws://localhost:8080/ws/alerts"
    end%string in
  mkStream None [] [] [] [] [] INITIAL_DELAY None 0 false u disconnected 0
    (match window with Some _ => true | None => false end).

(** ** Subscriptions *)

Definition onAlert (h : nat) (s : Stream) : Stream :=
  set_handlers (handlers s ++ [h]) (incidentHandlers s) (snapshotHandlers s) (aiHandlers s)
    (statusHandlers s) s.

Definition offAlert (h : nat) (s : Stream) : Stream :=
  set_handlers (filter (λ x, x ≠ h) (handlers s)) (incidentHandlers s) (snapshotHandlers s)
    (aiHandlers s) (statusHandlers s) s.

Definition onIncident (h : nat) (s : Stream) : Stream :=
  set_handlers (handlers s) (incidentHandlers s ++ [h]) (snapshotHandlers s) (aiHandlers s)
    (statusHandlers s) s.

Definition offIncident (h : nat) (s : Stream) : Stream :=
  set_handlers (handlers s) (filter (λ x, x ≠ h) (incidentHandlers s)) (snapshotHandlers s)
    (aiHandlers s) (statusHandlers s) s.

Definition onSnapshot (h : nat) (s : Stream) : Stream :=
  set_handlers (handlers s) (incidentHandlers s) (snapshotHandlers s ++ [h]) (aiHandlers s)
    (statusHandlers s) s.

Definition offSnapshot (h : nat) (s : Stream) : Stream :=
  set_handlers (handlers s) (incidentHandlers s) (filter (λ x, x ≠ h) (snapshotHandlers s))
    (aiHandlers s) (statusHandlers s) s.

Definition onAI (h : nat) (s : Stream) : Stream :=
  set_handlers (handlers s) (incidentHandlers s) (snapshotHandlers s) (aiHandlers s ++ [h])
    (statusHandlers s) s.

Definition offAI (h : nat) (s : Stream) : Stream :=
  set_handlers (handlers s) (incidentHandlers s) (snapshotHandlers s)
    (filter (λ x, x ≠ h) (aiHandlers s)) (statusHandlers s) s.

(** Subscribing to the status reports the current one at once. *)
Definition onStatusChange (h : nat) (s : Stream) : Stream * list Effect :=
  (set_handlers (handlers s) (incidentHandlers s) (snapshotHandlers s) (aiHandlers s)
     (statusHandlers s ++ [h]) s,
   [CallStatus h (status_ s)]).

Definition offStatusChange (h : nat) (s : Stream) : Stream :=
  set_handlers (handlers s) (incidentHandlers s) (snapshotHandlers s) (aiHandlers s)
    (filter (λ x, x ≠ h) (statusHandlers s)) s.

(** ** Connection *)

Definition setStatus (st : ConnectionStatus) (s : Stream) : Stream * list Effect :=
  (mkStream (ws s) (handlers s) (incidentHandlers s) (snapshotHandlers s) (aiHandlers s)
     (statusHandlers s) (reconnectDelay s) (reconnectTimer s) (timerCount s) (destroyed s) (url s)
     st (reconnectAttempts s) (has_window s),
   (λ h, CallStatus h st) <$> statusHandlers s).

Definition scheduleReconnect (s : Stream) : Stream * list Effect :=
  if destroyed s then (s, [])
  else (set_timer (set_backoff (reconnectDelay s) (reconnectAttempts s + 1) s),
        [SetTimer (timerCount s) (reconnectDelay s)]).

Definition connect (s : Stream) : Stream * list Effect :=
  if destroyed s then (s, [])
  else
    let '(s1, e1) := setStatus (if 0 <? reconnectAttempts s then reconnecting else connecting) s in
    if negb (has_window s1) then (s1, e1) else (s1, e1 ++ [FetchTicket]).

(** [_openWS(url)]; [constructed] is whether [new WebSocket] succeeds. *)
Definition openWS (constructed : bool) (u : string) (s : Stream) : Stream * list Effect :=
  if constructed then (set_ws (Some u) s, [OpenSocket u])
  else
    let '(s1, e1) := setStatus disconnected s in
    let '(s2, e2) := scheduleReconnect s1 in (s2, e1 ++ e2).

(** The two continuations of the ticket fetch.  [encode] is
    [encodeURIComponent]. *)
Definition on_ticket (encode : string → string) (constructed : bool) (ticket : string)
    (s : Stream) : Stream * list Effect :=
  if destroyed s then (s, [])
  else openWS constructed (url s +:+ "?ticket=" +:+ encode ticket) s.

Definition on_ticket_failed (constructed : bool) (s : Stream) : Stream * list Effect :=
  if destroyed s then (s, []) else openWS constructed (url s) s.

Definition onopen (s : Stream) : Stream * list Effect :=
  setStatus connected (set_backoff INITIAL_DELAY 0 s).

Definition onmessage (m : Message) (s : Stream) : list Effect :=
  match m with
  | MAlert (Some a) => (λ h, CallAlert h a) <$> handlers s
  | MIncidentNew (Some i) => (λ h, CallIncident h i true) <$> incidentHandlers s
  | MIncidentUpdate (Some i) => (λ h, CallIncident h i false) <$> incidentHandlers s
  | MSnapshot (Some (id, u)) => (λ h, CallSnapshot h id u) <$> snapshotHandlers s
  | MAI (Some d) => (λ h, CallAI h d) <$> aiHandlers s
  | _ => []
  end.

Definition onclose (s : Stream) : Stream * list Effect :=
  let '(s1, e1) := setStatus disconnected (set_ws None s) in
  let '(s2, e2) := scheduleReconnect s1 in (s2, e1 ++ e2).

(** The callback of the reconnect timer. *)
Definition on_timer (s : Stream) : Stream * list Effect :=
  connect (set_backoff (Z.min (reconnectDelay s * 2) maxReconnectDelay)
             (reconnectAttempts s) s).

Definition destroy (s : Stream) : Stream * list Effect :=
  (mkStream (ws s) [] [] [] [] [] (reconnectDelay s) (reconnectTimer s) (timerCount s) true (url s)
     (status_ s) (reconnectAttempts s) (has_window s),
   (match reconnectTimer s with Some i => [ClearTimer i] | None => [] end) ++
   (match ws s with Some _ => [CloseSocket] | None => [] end)).

(** ** The stream in its environment *)

(** What the browser still owes the object: ticket fetches that have not
    settled, sockets whose close event has not fired, timers that have not
    fired (with their id and delay). *)
Record Sys := mkSys {
  stream : Stream;
  fetches : nat;
  sockets : nat;
  timers : list (nat * Z);
}.

(** The bookkeeping of one effect. *)
Definition env_effect (e : Effect) (y : Sys) : Sys :=
  match e with
  | FetchTicket => mkSys (stream y) (S (fetches y)) (sockets y) (timers y)
  | OpenSocket _ => mkSys (stream y) (fetches y) (S (sockets y)) (timers y)
  | SetTimer i d => mkSys (stream y) (fetches y) (sockets y) ((i, d) :: timers y)
  | ClearTimer i =>
      mkSys (stream y) (fetches y) (sockets y) (filter (λ p, p.1 ≠ i) (timers y))
  | _ => y
  end.

Definition perform (r : Stream * list Effect) (y : Sys) : Sys :=
  foldl (λ y e, env_effect e y) (mkSys r.1 (fetches y) (sockets y) (timers y)) r.2.

(** Subscriptions may come at any time and return no connection effect. *)
Inductive SubOp :=
| SubAlert (h : nat) | UnsubAlert (h : nat)
| SubIncident (h : nat) | UnsubIncident (h : nat)
| SubSnapshot (h : nat) | UnsubSnapshot (h : nat)
| SubAI (h : nat) | UnsubAI (h : nat)
| SubStatus (h : nat) | UnsubStatus (h : nat).

Definition apply_sub (o : SubOp) (s : Stream) : Stream * list Effect :=
  match o with
  | SubAlert h => (onAlert h s, []) | UnsubAlert h => (offAlert h s, [])
  | SubIncident h => (onIncident h s, []) | UnsubIncident h => (offIncident h s, [])
  | SubSnapshot h => (onSnapshot h s, []) | UnsubSnapshot h => (offSnapshot h s, [])
  | SubAI h => (onAI h s, []) | UnsubAI h => (offAI h s, [])
  | SubStatus h => onStatusChange h s | UnsubStatus h => (offStatusChange h s, [])
  end.

Section system.
Context (encode : string → string).

Inductive Label :=
| LSub (o : SubOp)
| LTicket (constructed : bool) (ticket : string)
| LTicketFailed (constructed : bool)
| LOpen
| LMessage (m : Message)
| LClose
| LTimer (i : nat)
| LDestroy.

(** What the object does on an event. *)
Definition react (l : Label) (s : Stream) : Stream * list Effect :=
  match l with
  | LSub o => apply_sub o s
  | LTicket ok tk => on_ticket encode ok tk s
  | LTicketFailed ok => on_ticket_failed ok s
  | LOpen => onopen s
  | LMessage m => (s, onmessage m s)
  | LClose => onclose s
  | LTimer _ => on_timer s
  | LDestroy => destroy s
  end.

(** Which events the environment may deliver, and what remains owed. *)
Inductive delivers : Label → Sys → Sys → Prop :=
| d_sub o y : delivers (LSub o) y y
| d_ticket ok tk s f k t : delivers (LTicket ok tk) (mkSys s (S f) k t) (mkSys s f k t)
| d_ticket_failed ok s f k t : delivers (LTicketFailed ok) (mkSys s (S f) k t) (mkSys s f k t)
| d_open s f k t : delivers LOpen (mkSys s f (S k) t) (mkSys s f (S k) t)
| d_message m s f k t : delivers (LMessage m) (mkSys s f (S k) t) (mkSys s f (S k) t)
| d_close s f k t : delivers LClose (mkSys s f (S k) t) (mkSys s f k t)
| d_timer i d s f k t1 t2 :
    delivers (LTimer i) (mkSys s f k (t1 ++ (i, d) :: t2)) (mkSys s f k (t1 ++ t2))
| d_destroy y : delivers LDestroy y y.

Inductive sys_step : Sys → Label → list Effect → Sys → Prop :=
| sys_step_intro l y y' :
    delivers l y y' →
    sys_step y l (react l (stream y)).2 (perform (react l (stream y)) y').

(** A run of the system: the events, and everything the object did. *)
Inductive sys_run : Sys → list Label → list Effect → Sys → Prop :=
| run_nil y : sys_run y [] [] y
| run_snoc y ls es y' l e y'' :
    sys_run y ls es y' → sys_step y' l e y'' → sys_run y (ls ++ [l]) (es ++ e) y''.

(** The same, executable: the environment's part of an event, and a run. *)
Definition deliver (l : Label) (y : Sys) : option Sys :=
  match l with
  | LSub _ | LDestroy => Some y
  | LTicket _ _ | LTicketFailed _ =>
      match fetches y with
      | S f => Some (mkSys (stream y) f (sockets y) (timers y))
      | O => None
      end
  | LOpen | LMessage _ => match sockets y with S _ => Some y | O => None end
  | LClose =>
      match sockets y with
      | S k => Some (mkSys (stream y) (fetches y) k (timers y))
      | O => None
      end
  | LTimer i =>
      match list_find (λ p, p.1 = i) (timers y) with
      | Some (n, _) => Some (mkSys (stream y) (fetches y) (sockets y) (delete n (timers y)))
      | None => None
      end
  end.

Fixpoint sys_exec (ls : list Label) (y : Sys) : option (list Effect * Sys) :=
  match ls with
  | [] => Some ([], y)
  | l :: ls =>
      match deliver l y with
      | Some y' =>
          let r := react l (stream y) in
          match sys_exec ls (perform r y') with
          | Some (es, y'') => Some (r.2 ++ es, y'')
          | None => None
          end
      | None => None
      end
  end.

(** The client creates the object and connects it once. *)
Definition sys_init (wsUrl : option string) (window : option (string * string)) : Sys :=
  perform (connect (constructor wsUrl window)) (mkSys (constructor wsUrl window) 0 0 []).

End system.

(** ** Helper lemmas *)

(** Effects that concern the connection rather than a handler. *)
Definition connection_effect (e : Effect) : bool :=
  match e with
  | FetchTicket | OpenSocket _ | CloseSocket | SetTimer _ _ | ClearTimer _ => true
  | _ => false
  end.

(** Handler calls leave the environment alone. *)
Lemma env_effects_handler es y :
  Forall (λ e, connection_effect e = false) es → foldl (λ y e, env_effect e y) y es = y.
Proof.
  intros H. revert y. induction H as [|e es He _ IH]; intros y; [done|].
  simpl. rewrite IH. by destruct e.
Qed.

Lemma perform_handler s es y :
  Forall (λ e, connection_effect e = false) es →
  perform (s, es) y = mkSys s (fetches y) (sockets y) (timers y).
Proof. intros. unfold perform. by rewrite env_effects_handler. Qed.

Lemma perform_app s es1 es2 y :
  Forall (λ e, connection_effect e = false) es1 →
  perform (s, es1 ++ es2) y = perform (s, es2) y.
Proof. intros. unfold perform. simpl. by rewrite foldl_app, (env_effects_handler es1). Qed.

Lemma status_calls_handler (l : list nat) st :
  Forall (λ e, connection_effect e = false) ((λ h, CallStatus h st) <$> l).
Proof. apply Forall_fmap, Forall_true. intros ?. reflexivity. Qed.

Lemma onmessage_handler m s : Forall (λ e, connection_effect e = false) (onmessage m s).
Proof.
  destruct m as [[]|[]|[]|[[]|]|[]| |]; simpl; try by constructor.
  all: apply Forall_fmap, Forall_true; intros ?; reflexivity.
Qed.

#[export] Hint Resolve status_calls_handler onmessage_handler : js.

(** ** The connection invariant *)

(** Exactly one attempt is under way while the object lives (a ticket fetch, a
    socket or a reconnect timer), at most one after; the only timer that can
    be pending is the one [this.reconnectTimer] names; the back-off delay
    stays within its bounds. *)
Record conn_inv (y : Sys) : Prop := {
  ci_window : has_window (stream y) = true;
  ci_one : (fetches y + sockets y + length (timers y) ≤ 1)%nat;
  ci_live : destroyed (stream y) = false → (fetches y + sockets y + length (timers y) = 1)%nat;
  ci_timer : ∀ p, p ∈ timers y → destroyed (stream y) = false ∧ reconnectTimer (stream y) = Some p.1;
  ci_delay : INITIAL_DELAY ≤ reconnectDelay (stream y) ≤ maxReconnectDelay;
}.

Ltac conn_tac :=
  constructor; simpl; try done; try lia; try congruence;
  try (intros ? Hp; by inversion Hp).

Lemma conn_inv_init wsUrl protocol host :
  conn_inv (sys_init wsUrl (Some (protocol, host))).
Proof.
  unfold sys_init, connect. simpl. conn_tac.
Qed.

(** [scheduleReconnect] after a close or a failed construction: the attempt
    that ended is replaced by one timer. *)
Lemma scheduleReconnect_inv s st :
  has_window s = true → INITIAL_DELAY ≤ reconnectDelay s ≤ maxReconnectDelay →
  conn_inv (perform
    (let '(s1, e1) := setStatus st s in
     let '(s2, e2) := scheduleReconnect s1 in (s2, e1 ++ e2)) (mkSys s 0 0 [])).
Proof.
  intros Hw Hd. unfold setStatus, scheduleReconnect. simpl.
  destruct (destroyed s) eqn:Hdes.
  - rewrite app_nil_r, perform_handler by auto with js.
    conn_tac.
  - rewrite perform_app by auto with js. constructor; simpl; try done; try lia.
    intros p ->%list_elem_of_singleton. done.
Qed.

(** An object that starts a connection owes nothing else. *)
Lemma connect_inv s :
  has_window s = true → INITIAL_DELAY ≤ reconnectDelay s ≤ maxReconnectDelay →
  conn_inv (perform (connect s) (mkSys s 0 0 [])).
Proof.
  intros Hw Hd. unfold connect, setStatus. destruct (destroyed s) eqn:Hdes.
  - rewrite perform_handler by constructor.
    conn_tac.
  - simpl. rewrite Hw. simpl. rewrite perform_app by auto with js.
    conn_tac.
Qed.

Lemma openWS_inv ok u s :
  has_window s = true → INITIAL_DELAY ≤ reconnectDelay s ≤ maxReconnectDelay →
  destroyed s = false →
  conn_inv (perform (openWS ok u s) (mkSys s 0 0 [])).
Proof.
  intros Hw Hd Hdes. unfold openWS. destruct ok.
  - conn_tac.
  - by apply (scheduleReconnect_inv s disconnected).
Qed.

(** A change of subscriptions keeps the connection fields. *)
Lemma apply_sub_conn o s :
  let s' := (apply_sub o s).1 in
  has_window s' = has_window s ∧ destroyed s' = destroyed s ∧
  reconnectTimer s' = reconnectTimer s ∧ reconnectDelay s' = reconnectDelay s ∧
  Forall (λ e, connection_effect e = false) (apply_sub o s).2.
Proof. destruct o; simpl; split_and!; try done; repeat constructor. Qed.

(** The environment state of an event matters only through the stream. *)
Lemma perform_stream r s s' f k t : perform r (mkSys s f k t) = perform r (mkSys s' f k t).
Proof. done. Qed.

(** Completing the only thing owed leaves nothing owed. *)
Lemma owed_nothing f k (t : list (nat * Z)) :
  (S (f + k + length t) ≤ 1)%nat → f = 0%nat ∧ k = 0%nat ∧ t = [].
Proof. intros H. destruct t; simpl in H; split_and!; first [done | lia]. Qed.

Lemma conn_inv_step encode y l es y' :
  sys_step encode y l es y' → conn_inv y → conn_inv y'.
Proof.
  intros [l0 y0 y1 Hdel] [Hw Hone Hlive Htimer Hdelay].
  destruct Hdel as [o [s f k t]|ok tk s f k t|ok s f k t|s f k t|m s f k t|s f k t|i d s f k t1 t2|[s f k t]];
    simpl in *.
  - destruct (apply_sub_conn o s) as (H1 & H2 & H3 & H4 & H5).
    destruct (apply_sub o s) as [s' es']. simpl in *. rewrite perform_handler by done.
    constructor; simpl; rewrite ?H1, ?H2, ?H3, ?H4; done.
  - assert (f = 0%nat ∧ k = 0%nat ∧ t = []) as (-> & -> & ->) by (apply owed_nothing; lia).
    unfold on_ticket. destruct (destroyed s) eqn:Hdes; [|by apply openWS_inv].
    conn_tac.
  - assert (f = 0%nat ∧ k = 0%nat ∧ t = []) as (-> & -> & ->) by (apply owed_nothing; lia).
    unfold on_ticket_failed. destruct (destroyed s) eqn:Hdes; [|by apply openWS_inv].
    conn_tac.
  - unfold onopen, setStatus. rewrite perform_handler by auto with js.
    by constructor.
  - rewrite perform_handler by auto with js. by constructor.
  - assert (f = 0%nat ∧ k = 0%nat ∧ t = []) as (-> & -> & ->) by (apply owed_nothing; lia).
    by apply (scheduleReconnect_inv (set_ws None s) disconnected).
  - rewrite length_app in *. simpl in *.
    assert (f = 0%nat ∧ k = 0%nat ∧ t1 ++ t2 = []) as (-> & -> & ->).
    { apply owed_nothing. rewrite length_app. lia. }
    unfold on_timer. set (s1 := set_backoff _ _ s). rewrite (perform_stream _ s s1).
    apply connect_inv; [done|]. simpl. unfold INITIAL_DELAY, maxReconnectDelay in *. lia.
  - unfold destroy, perform. simpl. rewrite foldl_app. simpl.
    assert (filter (λ p, p.1 ≠ default 0%nat (reconnectTimer s)) t = [] ∨ t = []) as Ht.
    { destruct t as [|p t]; [by right|left]. destruct (Htimer p) as [_ Ht]; [left|].
      assert (t = []) as -> by (destruct t; simpl in *; [done|lia]). rewrite Ht. simpl.
      by rewrite filter_cons_False by tauto. }
    destruct (reconnectTimer s) as [i|] eqn:Hi; simpl in *.
    + assert (filter (λ p, p.1 ≠ i) t = []) as ->
        by (destruct Ht as [->| ->]; done).
      destruct (ws s); conn_tac.
    + assert (t = []) as ->.
      { destruct t as [|p t]; [done|]. destruct (Htimer p) as [_ [=]]. left. }
      destruct (ws s); conn_tac.
Qed.

Lemma conn_inv_run encode y ls es y' :
  sys_run encode y ls es y' → conn_inv y → conn_inv y'.
Proof. induction 1; eauto using conn_inv_step. Qed.

(** ** The executable run is a run *)

Lemma deliver_sound l y y' : deliver l y = Some y' → delivers l y y'.
Proof.
  destruct y as [s f k t], l as [o|ok tk|ok| |m| |i|]; simpl; intros H.
  all: try (destruct f as [|f]; [done|]; injection H as <-; constructor).
  all: try (destruct k as [|k]; [done|]; injection H as <-; constructor).
  all: try (injection H as <-; constructor).
  destruct (list_find _ t) as [[n [i' d]]|] eqn:Hf; [|done]. injection H as <-.
  apply list_find_Some in Hf as (Hn & Hi & _). simpl in Hi. subst i'.
  rewrite <- (take_drop_middle t n (i, d) Hn) at 1.
  rewrite delete_take_drop. constructor.
Qed.

Lemma sys_run_cons encode y l e y1 ls es y2 :
  sys_step encode y l e y1 → sys_run encode y1 ls es y2 → sys_run encode y (l :: ls) (e ++ es) y2.
Proof.
  intros Hs Hr. induction Hr as [y1|y1 ls es y' l' e' y'' _ IH Hs'].
  - rewrite app_nil_r. apply (run_snoc _ _ [] [] y l e y1); [constructor|done].
  - rewrite app_comm_cons, app_assoc. eapply run_snoc; eauto.
Qed.

Lemma sys_exec_sound encode ls y es y' :
  sys_exec encode ls y = Some (es, y') → sys_run encode y ls es y'.
Proof.
  revert y es. induction ls as [|l ls IH]; intros y es; simpl.
  - intros [= <- <-]. constructor.
  - destruct (deliver l y) as [y1|] eqn:Hd; [|done].
    destruct (sys_exec _ ls _) as [[es2 y2]|] eqn:Hr; [|done]. intros [= <- <-].
    eapply sys_run_cons; [|by eapply IH]. by apply sys_step_intro, deliver_sound.
Qed.

(** ** After [destroy] *)

(** A destroyed object nobody is subscribed to. *)
Definition quiet (s : Stream) : Prop :=
  destroyed s = true ∧ handlers s = [] ∧ incidentHandlers s = [] ∧ snapshotHandlers s = [] ∧
  aiHandlers s = [] ∧ statusHandlers s = [].

Definition not_sub (l : Label) : Prop := match l with LSub _ => False | _ => True end.

(** Cleaning up again ([destroy] twice) is all a quiet object still does. *)
Definition cleanup (e : Effect) : bool :=
  match e with CloseSocket | ClearTimer _ => true | _ => false end.

Lemma quiet_react encode l s :
  quiet s → not_sub l →
  quiet (react encode l s).1 ∧ Forall (λ e, cleanup e = true) (react encode l s).2.
Proof.
  intros (Hd & H1 & H2 & H3 & H4 & H5) Hl.
  destruct l as [o|ok tk|ok| |m| |i|]; simpl in *; [done| | | | | | |].
  - unfold on_ticket. rewrite Hd. by repeat split.
  - unfold on_ticket_failed. rewrite Hd. by repeat split.
  - rewrite H5. simpl. by repeat split.
  - split; [by repeat split|]. destruct m as [[]|[]|[]|[[]|]|[]| |]; simpl;
      rewrite ?H1, ?H2, ?H3, ?H4; constructor.
  - unfold onclose, setStatus, scheduleReconnect. simpl. rewrite Hd, H5. simpl. by repeat split.
  - unfold on_timer, connect. simpl. rewrite Hd. by repeat split.
  - split; [by repeat split|]. destruct (reconnectTimer s), (ws s); repeat constructor.
Qed.

Lemma perform_cleanup s es y :
  Forall (λ e, cleanup e = true) es →
  stream (perform (s, es) y) = s ∧ fetches (perform (s, es) y) = fetches y ∧
  sockets (perform (s, es) y) = sockets y ∧
  (length (timers (perform (s, es) y)) ≤ length (timers y))%nat.
Proof.
  intros H. unfold perform. simpl.
  assert (∀ y0, stream (foldl (λ y e, env_effect e y) y0 es) = stream y0 ∧
    fetches (foldl (λ y e, env_effect e y) y0 es) = fetches y0 ∧
    sockets (foldl (λ y e, env_effect e y) y0 es) = sockets y0 ∧
    (length (timers (foldl (λ y e, env_effect e y) y0 es)) ≤ length (timers y0))%nat) as Hy.
  { induction H as [|e es He _ IH]; intros y0; simpl; [done|].
    destruct (IH (env_effect e y0)) as (-> & -> & -> & Hl).
    destruct e; simpl in *; try done. split_and!; try done.
    etrans; [exact Hl|]. apply length_filter. }
  destruct (Hy (mkSys s (fetches y) (sockets y) (timers y))) as (H1 & H2 & H3 & H4). done.
Qed.

Lemma quiet_run encode y ls es y' :
  sys_run encode y ls es y' → quiet (stream y) → Forall not_sub ls →
  quiet (stream y') ∧ Forall (λ e, cleanup e = true) es ∧
  (fetches y' ≤ fetches y)%nat ∧ (sockets y' ≤ sockets y)%nat ∧
  (length (timers y') ≤ length (timers y))%nat.
Proof.
  induction 1 as [y|y ls es y1 l e y2 _ IH Hs]; intros Hq Hls; [done|].
  apply Forall_app in Hls as [Hls Hl%List.Forall_inv].
  destruct (IH Hq Hls) as (Hq1 & He1 & Hf1 & Hk1 & Ht1).
  destruct Hs as [l y1 y1' Hdel].
  destruct (quiet_react encode l _ Hq1 Hl) as [Hq2 He2].
  destruct (react encode l (stream y1)) as [s2 e2]. simpl in *.
  destruct (perform_cleanup s2 e2 y1' He2) as (-> & -> & -> & Ht2).
  split_and!; [done|by apply Forall_app| | |]; destruct Hdel; simpl in *;
    rewrite ?length_app in *; simpl in *; lia.
Qed.

(** ** Back-off *)

Definition timer_delays (es : list Effect) : list Z :=
  omap (λ e, match e with SetTimer _ d => Some d | _ => None end) es.

(** The socket closes, and [n] further attempts (timer, failed ticket fetch,
    ticketless socket) close as well. *)
Fixpoint outage (n : nat) (s : Stream) : Stream * list Effect :=
  match n with
  | O => onclose s
  | S n =>
      let '(s1, e1) := outage n s in
      let '(s2, e2) := on_timer s1 in
      let '(s3, e3) := on_ticket_failed true s2 in
      let '(s4, e4) := onclose s3 in (s4, e1 ++ e2 ++ e3 ++ e4)
  end.

Definition backoff (k : nat) : Z := Z.min (INITIAL_DELAY * 2 ^ Z.of_nat k) maxReconnectDelay.

Lemma timer_delays_app es1 es2 : timer_delays (es1 ++ es2) = timer_delays es1 ++ timer_delays es2.
Proof. apply omap_app. Qed.

Lemma timer_delays_status (l : list nat) st : timer_delays ((λ h, CallStatus h st) <$> l) = [].
Proof. by induction l. Qed.

Lemma backoff_S k : Z.min (backoff k * 2) maxReconnectDelay = backoff (S k).
Proof.
  unfold backoff. rewrite Nat2Z.inj_succ, Z.pow_succ_r by lia.
  unfold INITIAL_DELAY, maxReconnectDelay. lia.
Qed.

Lemma onclose_live s :
  destroyed s = false →
  let '(s', es) := onclose s in
  destroyed s' = false ∧ has_window s' = has_window s ∧ reconnectDelay s' = reconnectDelay s ∧
  timer_delays es = [reconnectDelay s].
Proof.
  intros H. unfold onclose, setStatus, scheduleReconnect. simpl. rewrite H. simpl.
  by rewrite timer_delays_app, timer_delays_status.
Qed.

Lemma retry_live s :
  destroyed s = false → has_window s = true →
  let '(s1, e1) := on_timer s in
  let '(s2, e2) := on_ticket_failed true s1 in
  destroyed s2 = false ∧ has_window s2 = true ∧
  reconnectDelay s2 = Z.min (reconnectDelay s * 2) maxReconnectDelay ∧
  timer_delays e1 = [] ∧ timer_delays e2 = [].
Proof.
  intros Hd Hw. unfold on_timer, connect, setStatus, on_ticket_failed. simpl.
  rewrite Hd. simpl. rewrite Hw. simpl.
  by rewrite ?Hd, timer_delays_app, timer_delays_status.
Qed.

Lemma outage_spec n s :
  destroyed s = false → has_window s = true → reconnectDelay s = INITIAL_DELAY →
  let '(s', es) := outage n s in
  destroyed s' = false ∧ has_window s' = true ∧ reconnectDelay s' = backoff n ∧
  timer_delays es = backoff <$> seq 0 (S n).
Proof.
  intros Hd Hw Hr. induction n as [|n IH]; simpl outage.
  - pose proof (onclose_live s Hd) as H. destruct (onclose s) as [s1 e1].
    destruct H as (? & Hw1 & Hr1 & ->). rewrite Hw1, Hr1, Hr. done.
  - destruct (outage n s) as [s1 e1]. destruct IH as (Hd1 & Hw1 & Hr1 & He1).
    pose proof (retry_live s1 Hd1 Hw1) as H. destruct (on_timer s1) as [s2 e2].
    destruct (on_ticket_failed true s2) as [s3 e3]. destruct H as (Hd3 & Hw3 & Hr3 & He2 & He3).
    pose proof (onclose_live s3 Hd3) as H. destruct (onclose s3) as [s4 e4].
    destruct H as (? & Hw4 & Hr4 & He4).
    rewrite Hr1, backoff_S in Hr3. split_and!; [done|congruence..|].
    rewrite !timer_delays_app, He1, He2, He3, He4, Hr3, (seq_S (S n)), fmap_app. done.
Qed.

(** ** Properties *)

(** C4. The stream is never stuck and never doubled: whatever the network, the
    timers and the subscribers do after the client's single [connect()], a
    live object always has exactly one connection attempt under way (a ticket
    fetch, a socket or a reconnect timer), a destroyed one at most one, and
    the back-off delay stays between 3 and 30 seconds. *)
Theorem exactly_one_attempt encode wsUrl protocol host ls es y :
  sys_run encode (sys_init wsUrl (Some (protocol, host))) ls es y →
  (fetches y + sockets y + length (timers y) ≤ 1)%nat ∧
  (destroyed (stream y) = false → (fetches y + sockets y + length (timers y) = 1)%nat) ∧
  3000 ≤ reconnectDelay (stream y) ≤ 30000.
Proof.
  intros Hrun. destruct (conn_inv_run _ _ _ _ _ Hrun (conn_inv_init _ _ _)). done.
Qed.

Definition sample_sys : Sys := sys_init None (Some ("https:", "soc.example")%string).
Definition sample_events : list Label := [LTicketFailed true; LOpen; LClose].

Lemma exactly_one_attempt_witness :
  ∃ y, (fetches y + sockets y + length (timers y) ≤ 1)%nat ∧
  (destroyed (stream y) = false → (fetches y + sockets y + length (timers y) = 1)%nat) ∧
  3000 ≤ reconnectDelay (stream y) ≤ 30000.
Proof.
  destruct (sys_exec (λ s, s) sample_events sample_sys) as [[es y]|] eqn:E;
    [|vm_compute in E; discriminate].
  exists y. eapply exactly_one_attempt, sys_exec_sound, E.
Defined.

(** [destroy] is final: from any state a run can reach, once the object is
    destroyed and as long as nobody subscribes again, no handler is ever
    called, no ticket is fetched, no socket opened and no timer set; nothing is
    pending but what was already in flight, and no timer at all. *)
Theorem destroy_is_final encode wsUrl protocol host ls es y y1 e1 ls' es' y' :
  sys_run encode (sys_init wsUrl (Some (protocol, host))) ls es y →
  sys_step encode y LDestroy e1 y1 →
  sys_run encode y1 ls' es' y' →
  Forall not_sub ls' →
  Forall (λ e, cleanup e = true) (e1 ++ es') ∧
  (fetches y' ≤ fetches y)%nat ∧ (sockets y' ≤ sockets y)%nat ∧ timers y' = [].
Proof.
  intros Hrun Hstep Hrun' Hsub.
  pose proof (conn_inv_run _ _ _ _ _ Hrun (conn_inv_init _ _ _)) as Hinv.
  pose proof (conn_inv_step _ _ _ _ _ Hstep Hinv) as Hinv1.
  inversion Hstep as [l y0 y0' Hdel]; subst. inversion Hdel; subst.
  set (r := react encode LDestroy (stream y0')) in *.
  assert (He : Forall (λ e, cleanup e = true) r.2).
  { unfold r. simpl. destruct (reconnectTimer _), (ws _); repeat constructor. }
  pose proof (perform_cleanup r.1 r.2 y0' He) as (Hs & Hf & Hk & _).
  rewrite <- surjective_pairing in Hs, Hf, Hk.
  assert (Hq : quiet (stream (perform r y0'))) by (by rewrite Hs).
  destruct (quiet_run _ _ _ _ _ Hrun' Hq Hsub) as (_ & He' & Hf' & Hk' & Ht').
  assert (timers (perform r y0') = []) as Ht.
  { destruct (timers (perform r y0')) as [|p t] eqn:E; [done|].
    destruct (ci_timer _ Hinv1 p) as [Hd _]; [rewrite E; left|]. rewrite Hs in Hd. done. }
  rewrite Ht in Ht'. split_and!; [by apply Forall_app|lia|lia|].
  by destruct (timers y'); simpl in *; [|lia].
Qed.

Lemma destroy_is_final_witness :
  ∃ y e1 es' y', Forall (λ e, cleanup e = true) (e1 ++ es') ∧
  (fetches y' ≤ fetches y)%nat ∧ (sockets y' ≤ sockets y)%nat ∧ timers y' = [].
Proof.
  destruct (sys_exec (λ s, s) sample_events sample_sys) as [[es y]|] eqn:E;
    [|vm_compute in E; discriminate].
  exists y. do 3 eexists.
  eapply (destroy_is_final (λ s, s) None "https:" "soc.example" sample_events es y _ _ [LDestroy]).
  - apply sys_exec_sound, E.
  - apply (sys_step_intro (λ s, s) LDestroy y y), d_destroy.
  - apply sys_exec_sound. reflexivity.
  - repeat constructor.
Defined.

(** Exponential back-off: after a successful open, a close followed by any
    number [n] of failing attempts waits 3 s, 6 s, 12 s, 24 s and then 30 s
    before each retry, i.e. [min(3000 * 2^k, 30000)] before the [k]-th, and a
    new successful open starts the sequence again. *)
Theorem exponential_backoff n m s :
  destroyed s = false → has_window s = true →
  let '(s1, e1) := outage n (onopen s).1 in
  timer_delays e1 = (λ k, Z.min (3000 * 2 ^ Z.of_nat k) 30000) <$> seq 0 (S n) ∧
  timer_delays (outage m (onopen s1).1).2 =
    (λ k, Z.min (3000 * 2 ^ Z.of_nat k) 30000) <$> seq 0 (S m).
Proof.
  intros Hd Hw.
  pose proof (outage_spec n (onopen s).1 Hd Hw eq_refl) as H.
  destruct (outage n (onopen s).1) as [s1 e1]. destruct H as (Hd1 & Hw1 & _ & He1).
  pose proof (outage_spec m (onopen s1).1 Hd1 Hw1 eq_refl) as H.
  destruct (outage m (onopen s1).1) as [s2 e2]. by destruct H as (_ & _ & _ & He2).
Qed.

Lemma exponential_backoff_witness :
  let s := constructor None (Some ("https:", "soc.example")%string) in
  let '(s1, e1) := outage 5 (onopen s).1 in
  timer_delays e1 = [3000; 6000; 12000; 24000; 30000; 30000] ∧
  timer_delays (outage 1 (onopen s1).1).2 = [3000; 6000].
Proof.
  exact (exponential_backoff 5 1 (constructor None (Some ("https:", "soc.example")%string)) eq_refl eq_refl).
Defined.
