(* ===== verification/AlertPipeline.v ===== *)
(** * From the stream to the store

    [src/frontend/src/hooks/useAlerts.ts]: the hook [useAlertStream] subscribes
    the operator store to an [AlertStream].  What the stream needs of a store
    is the class [AlertSink]; the operator store is its instance.  The hook is
    a transition system over the stream's, and the theorem at the end says that
    it implements the store: whatever the network does, the store's state is
    the one its own actions produce on the frames received. *)

From S2P Require Import Prelude Types OperatorStore AlertStream.

(** ** The interface *)

Class AlertSink (St : Type) := {
  sink_alert : AlertEvent → St → St;
  sink_incident : SOCIncident → St → St;
  sink_snapshot : string → string → St → St;
  sink_ai : string → AIPatch → St → St;
}.

#[export] Instance store_sink : AlertSink OperatorState := {|
  sink_alert := addAlert;
  sink_incident := upsertIncident;
  sink_snapshot := patchAlertSnapshot;
  sink_ai := patchAlertAI;
|}.

(** The object literal passed to [patchAlertAI]: all seven keys are present,
    [ai_ppe_violations] possibly with the value [undefined]. *)
Definition patch_of_enrichment (d : AIEnrichment) : AIPatch := {|
  ap_ai_description := Some (Some (en_ai_description d));
  ap_ai_threat_level := Some (Some (en_ai_threat_level d));
  ap_ai_recommended_action := Some (Some (en_ai_recommended_action d));
  ap_ai_false_positive_pct := Some (Some (en_ai_false_positive_pct d));
  ap_ai_objects := Some (Some (en_ai_objects d));
  ap_ai_detections := Some (Some (en_ai_detections d));
  ap_ai_ppe_violations := Some (en_ai_ppe_violations d);
|}.

(** ** The hook *)

(** The five callbacks the hook creates, as references. *)
Definition H_ALERT : nat := 0.
Definition H_INCIDENT : nat := 1.
Definition H_SNAPSHOT : nat := 2.
Definition H_AI : nat := 3.
Definition H_STATUS : nat := 4.

Section hook.
Context {St : Type} `{AlertSink St}.

Record Hook := mkHook {
  hk_sys : Sys;
  hk_store : St;
  hk_status : ConnectionStatus;     (** [wsStatus] *)
}.

(** The effect of a callback on the store and on [wsStatus]. *)
Definition interp_effect (p : St * ConnectionStatus) (e : Effect) : St * ConnectionStatus :=
  match e with
  | CallAlert _ a => (sink_alert a p.1, p.2)
  | CallIncident _ i _ => (sink_incident i p.1, p.2)
  | CallSnapshot _ id u => (sink_snapshot id u p.1, p.2)
  | CallAI _ d => (sink_ai (en_alarm_id d) (patch_of_enrichment d) p.1, p.2)
  | CallStatus _ st => (p.1, st)
  | _ => p
  end.

Definition interp (es : list Effect) (p : St * ConnectionStatus) : St * ConnectionStatus :=
  foldl interp_effect p es.

(** The effect body up to [stream.connect()]: five subscriptions, then connect. *)
Definition subscribe_all (s : Stream) : Stream * list Effect :=
  onStatusChange H_STATUS
    (onAI H_AI (onSnapshot H_SNAPSHOT (onIncident H_INCIDENT (onAlert H_ALERT s)))).

Definition mount (window : option (string * string)) (st : St) : Hook :=
  let s0 := constructor None window in
  let '(s1, e1) := subscribe_all s0 in
  let '(s2, e2) := connect s1 in
  let '(st', status) := interp (e1 ++ e2) (st, disconnected) in
  mkHook (perform (s2, e1 ++ e2) (mkSys s0 0 0 [])) st' status.

(** The [then] of [getActiveIncidents()]: seed the store. *)
Definition seed (incs : list SOCIncident) (h : Hook) : Hook :=
  mkHook (hk_sys h) (foldl (λ s i, sink_incident i s) (hk_store h) incs) (hk_status h).

Inductive HookEvent :=
| HSeed (incs : list SOCIncident)
| HStream (l : Label).

Inductive hook_step (encode : string → string) : Hook → HookEvent → Hook → Prop :=
| hook_seed incs h : hook_step encode h (HSeed incs) (seed incs h)
| hook_stream y st status l es y' :
    sys_step encode y l es y' → not_sub l →
    let r := interp es (st, status) in
    hook_step encode (mkHook y st status) (HStream l) (mkHook y' r.1 r.2).

Inductive hook_run (encode : string → string) : Hook → list HookEvent → Hook → Prop :=
| hook_nil h : hook_run encode h [] h
| hook_snoc h evs h' e h'' :
    hook_run encode h evs h' → hook_step encode h' e h'' → hook_run encode h (evs ++ [e]) h''.

(** ** Helper lemmas *)

Lemma interp_app es1 es2 p : interp (es1 ++ es2) p = interp es2 (interp es1 p).
Proof. apply foldl_app. Qed.

Lemma interp_connection es p :
  Forall (λ e, connection_effect e = true) es → interp es p = p.
Proof.
  unfold interp. intros He. revert p. induction He as [|e es He _ IH]; intros p; [done|].
  simpl. rewrite IH. by destruct e.
Qed.

(** The subscriptions of a mounted hook. *)
Definition subscribed (s : Stream) : Prop :=
  handlers s = [H_ALERT] ∧ incidentHandlers s = [H_INCIDENT] ∧
  snapshotHandlers s = [H_SNAPSHOT] ∧ aiHandlers s = [H_AI] ∧ statusHandlers s = [H_STATUS].

Definition hook_inv (h : Hook) : Prop :=
  (destroyed (stream (hk_sys h)) = false ∧ subscribed (stream (hk_sys h)) ∧
   hk_status h = status_ (stream (hk_sys h))) ∨
  quiet (stream (hk_sys h)).

Lemma perform_stream_of r y : stream (perform r y) = r.1.
Proof.
  unfold perform. destruct r as [s es]. simpl.
  assert (∀ y0, stream (foldl (λ y e, env_effect e y) y0 es) = stream y0) as Hy.
  { induction es as [|e es IH]; intros y0; simpl; [done|]. rewrite IH. by destruct e. }
  by rewrite Hy.
Qed.

End hook.

Arguments Hook : clear implicits.
Arguments hook_step {St _}.
Arguments hook_run {St _}.

(** ** The store actions of an event *)

Definition message_ops (m : Message) : list Op :=
  match m with
  | MAlert (Some a) => [OpAddAlert a]
  | MIncidentNew (Some i) | MIncidentUpdate (Some i) => [OpUpsertIncident i]
  | MSnapshot (Some (id, u)) => [OpPatchAlertSnapshot id u]
  | MAI (Some d) => [OpPatchAlertAI (en_alarm_id d) (patch_of_enrichment d)]
  | _ => []
  end.

(** The actions the events stand for; frames count until the hook unmounts. *)
Fixpoint events_ops (unmounted : bool) (evs : list HookEvent) : list Op :=
  match evs with
  | [] => []
  | HSeed incs :: evs => (OpUpsertIncident <$> incs) ++ events_ops unmounted evs
  | HStream LDestroy :: evs => events_ops true evs
  | HStream (LMessage m) :: evs =>
      (if unmounted then [] else message_ops m) ++ events_ops unmounted evs
  | HStream _ :: evs => events_ops unmounted evs
  end.

Definition unmounts (e : HookEvent) : bool :=
  match e with HStream LDestroy => true | _ => false end.

Definition event_ops (unmounted : bool) (e : HookEvent) : list Op := events_ops unmounted [e].

#[local] Arguments event_ops : simpl never.

Lemma events_ops_cons b e evs :
  events_ops b (e :: evs) = event_ops b e ++ events_ops (b || unmounts e) evs.
Proof.
  unfold event_ops. destruct e as [incs|[]], b; simpl; rewrite ?app_nil_r; done.
Qed.

Lemma events_ops_snoc b evs e :
  events_ops b (evs ++ [e]) = events_ops b evs ++ event_ops (b || existsb unmounts evs) e.
Proof.
  revert b. induction evs as [|e' evs IH]; intros b.
  - rewrite app_nil_l, orb_false_r. done.
  - rewrite <- app_comm_cons, !events_ops_cons, IH, <- app_assoc. simpl.
    by rewrite orb_assoc.
Qed.

(** On an operator store, a seed and the calls for one frame are actions. *)
Lemma seed_ops incs (s : OperatorState) :
  foldl (λ s i, sink_incident i s) s incs = run_ops (OpUpsertIncident <$> incs) s.
Proof. unfold run_ops. revert s. induction incs; intros s; simpl; auto. Qed.

Lemma react_live encode l s st status :
  destroyed s = false → subscribed s → status = status_ s → not_sub l →
  let '(s', es) := react encode l s in
  let '(st', status') := interp es (st, status) in
  st' = run_ops (event_ops false (HStream l)) st ∧
  (l = LDestroy ∧ quiet s' ∨ l ≠ LDestroy ∧ destroyed s' = false ∧ subscribed s' ∧ status' = status_ s').
Proof.
  intros Hd (H1 & H2 & H3 & H4 & H5) Hst Hl.
  destruct l as [o|ok tk|ok| |m| |i|]; simpl in *; [done| | | | | | |].
  - unfold on_ticket, openWS. rewrite Hd. destruct ok; simpl.
    + split; [done|right]. done.
    + unfold scheduleReconnect. simpl. rewrite Hd, H5. simpl. split; [done|right]. done.
  - unfold on_ticket_failed, openWS. rewrite Hd. destruct ok; simpl.
    + split; [done|right]. done.
    + unfold scheduleReconnect. simpl. rewrite Hd, H5. simpl. split; [done|right]. done.
  - rewrite H5. simpl. split; [done|right]. done.
  - destruct m as [[]|[]|[]|[[]|]|[]| |]; simpl; rewrite ?H1, ?H2, ?H3, ?H4; simpl;
      (split; [done|right]; done).
  - unfold onclose, setStatus, scheduleReconnect. simpl. rewrite Hd, H5. simpl.
    split; [done|right]. done.
  - unfold on_timer, connect, setStatus. simpl. rewrite Hd, H5. simpl.
    destruct (has_window s); simpl; (split; [done|right]; done).
  - rewrite interp_connection by (destruct (reconnectTimer s), (ws s); repeat constructor).
    split; [done|left]. done.
Qed.

Lemma hook_inv_run encode window st evs h :
  hook_run encode (mount (St := OperatorState) window st) evs h →
  hk_store h = run_ops (events_ops false evs) st ∧
  (existsb unmounts evs = false ∧ destroyed (stream (hk_sys h)) = false ∧
   subscribed (stream (hk_sys h)) ∧ hk_status h = status_ (stream (hk_sys h)) ∨
   existsb unmounts evs = true ∧ quiet (stream (hk_sys h))).
Proof.
  intros Hrun. remember (mount window st) as h0 eqn:Hh0.
  induction Hrun as [h|h evs h1 e h2 _ IH Hstep].
  - subst h. split; [by destruct window as [[]|]|left]. by destruct window as [[]|].
  - destruct (IH Hh0) as [Hst Hcase]. clear IH.
    rewrite events_ops_snoc, run_ops_app, <- Hst, existsb_app. simpl.
    destruct Hstep as [incs h1|y st1 status l es y' Hs Hl r]; [|subst r]; simpl in *.
    + unfold event_ops. simpl. rewrite app_nil_r, !orb_false_r. split; [apply seed_ops|done].
    + destruct Hs as [l y0 y1 Hdel]. rewrite perform_stream_of.
      destruct Hcase as [(-> & Hd & Hsub & Hstat)|[-> Hq]].
      * pose proof (react_live encode l (stream y0) st1 status Hd Hsub Hstat Hl) as Hr.
        destruct (react encode l (stream y0)) as [s' es']. simpl.
        destruct (interp es' (st1, status)) as [st' status']. simpl in *.
        destruct Hr as [-> Hr]. split; [done|]. destruct Hr as [[-> Hq]|(Hne & Hr)].
        -- right. done.
        -- left. split; [|done]. destruct l; first [done | congruence].
      * destruct (quiet_react encode l _ Hq Hl) as [Hq' He'].
        rewrite interp_connection.
        -- simpl. split; [by destruct l|right]. done.
        -- eapply Forall_impl; [exact He'|]. by intros [].
Qed.

(** ** Properties *)

(** C3. The hook implements the store.  After any run of the stream (tickets
    granted or refused, sockets opened, dropped and reopened, frames in any
    order, seeding at any time, unmounting), the store holds exactly the state
    its own actions produce on the seeded incidents and the frames delivered
    before the unmount, in their order, each frame once; and while mounted the
    displayed connection status is the stream's. *)
Theorem hook_refines_store encode window st evs h :
  hook_run encode (mount (St := OperatorState) window st) evs h →
  hk_store h = run_ops (events_ops false evs) st ∧
  (existsb unmounts evs = false → hk_status h = status_ (stream (hk_sys h))).
Proof.
  intros Hrun. destruct (hook_inv_run _ _ _ _ _ Hrun) as [? [(?&?&?&?)|[Hu _]]]; [done|].
  split; [done|]. congruence.
Qed.

(** A run from a mount, event by event, through the executable semantics. *)
Lemma hook_exec_snoc encode h0 evs y st status l y1 :
  hook_run encode h0 evs (mkHook (St := OperatorState) y st status) → not_sub l →
  deliver l y = Some y1 →
  let r := react encode l (stream y) in
  let p := interp r.2 (st, status) in
  hook_run encode h0 (evs ++ [HStream l]) (mkHook (perform r y1) p.1 p.2).
Proof.
  intros Hr Hl Hd r p. eapply hook_snoc; [exact Hr|].
  apply (hook_stream encode y st status l r.2 (perform r y1)); [|done].
  by apply sys_step_intro, deliver_sound.
Qed.

Definition sample_hook_events : list HookEvent :=
  [HStream (LTicketFailed true); HStream (LMessage (MAlert (Some (sample_alert "a2"))))].

Lemma hook_refines_store_witness :
  ∃ h, hk_store h = run_ops (events_ops false sample_hook_events) sample_state ∧
  (existsb unmounts sample_hook_events = false → hk_status h = status_ (stream (hk_sys h))).
Proof.
  set (w := Some ("https:", "soc.example")%string).
  destruct (mount w sample_state) as [y st status] eqn:Hm.
  assert (Hf : fetches y = 1%nat ∧ sockets y = 0%nat) by (inversion Hm; split; reflexivity).
  destruct (deliver (LTicketFailed true) y) as [y1|] eqn:Hd;
    [|simpl in Hd; destruct Hf as [Hf _]; rewrite Hf in Hd; discriminate].
  set (y2 := perform (react (λ s, s) (LTicketFailed true) (stream y)) y1).
  assert (Hk : ∃ y3, deliver (LMessage (MAlert (Some (sample_alert "a2")))) y2 = Some y3).
  { inversion Hm; subst y. injection Hd as <-. eexists. reflexivity. }
  destruct Hk as [y3 Hk]. eexists. apply (hook_refines_store (λ s, s) w).
  rewrite Hm. eapply (hook_exec_snoc _ _ [_] _ _ _ (LMessage _) y3); [|exact I|exact Hk].
  eapply (hook_exec_snoc _ _ [] _ _ _ (LTicketFailed true) y1); [constructor|exact I|exact Hd].
Defined.
