(* ===== verification/GridLayout.v ===== *)
(** * Camera wall layouts

    The layout data of [lib/camera-grid-layout.ts] and the state and handlers of
    [components/CameraGrid.tsx]: the two grid modes, their conversions, the
    layouts saved in localStorage and the freeform drag and resize. *)

From S2P Require Import Prelude Types.
From Stdlib Require Import QArith Qround.
#[local] Open Scope Z_scope.

(** ** Data *)

Record LayoutItem := mkItem {
  li_i : string;
  li_x : Z;
  li_y : Z;
  li_w : Z;
  li_h : Z;
  li_cameraId : option string
}.

Definition set_li_pos (x y : Z) (it : LayoutItem) : LayoutItem :=
  mkItem (li_i it) x y (li_w it) (li_h it) (li_cameraId it).

Definition set_li_size (w h : Z) (it : LayoutItem) : LayoutItem :=
  mkItem (li_i it) (li_x it) (li_y it) w h (li_cameraId it).

Inductive GridMode := Static | Freeform.

#[export] Instance GridMode_eq_dec : EqDecision GridMode.
Proof. solve_decision. Defined.

(** [{ w, h }] *)
Record Preset := mkPreset { pr_w : Z; pr_h : Z }.

#[export] Instance Preset_eq_dec : EqDecision Preset.
Proof. solve_decision. Defined.

(** [Record<number, string>]: slot index to camera id. *)
Abbreviation Assignments := (gmap nat string).

Record SavedLayout := mkLayout {
  sl_name : string;
  sl_items : list LayoutItem;
  sl_cols : Z;
  sl_version : option Z;
  sl_mode : option GridMode;
  sl_staticPreset : option Preset;
  sl_staticAssignments : option Assignments
}.

Definition ROW_HEIGHT_UNIT : Z := 30.
Definition GRID_COLS : Z := 32.

Definition STATIC_PRESETS : list (Preset * string) :=
  [ (mkPreset 1 1, "1×1"); (mkPreset 2 1, "2×1"); (mkPreset 2 2, "2×2");
    (mkPreset 3 2, "3×2"); (mkPreset 3 3, "3×3"); (mkPreset 4 3, "4×3");
    (mkPreset 4 4, "4×4"); (mkPreset 5 3, "5×3"); (mkPreset 6 4, "6×4") ]%string.

Definition slots (p : Preset) : Z := pr_w p * pr_h p.

(** [Object.entries] of an object with integer keys: ascending key order. *)
Definition entries (m : Assignments) : list (nat * string) :=
  sort_by (λ a b, (a.1 <=? b.1)%nat) (map_to_list m).

(** [Object.values] *)
Definition object_values (m : Assignments) : list string := (entries m).*2.

(** ** Layout generation and conversions *)

Definition generateDefaultLayout (cameras : list Camera) (viewCols hUnits : Z) : list LayoutItem :=
  imap (λ i cam,
    mkItem (cam_id cam)
      ((Z.of_nat i mod viewCols) * (GRID_COLS / viewCols))
      ((Z.of_nat i / viewCols) * hUnits)
      (GRID_COLS / viewCols)
      hUnits
      (Some (cam_id cam))) cameras.

(** The item of one slot. *)
Definition slot_item (preset : Preset) (slot : nat) (camId : string) : LayoutItem :=
  let colSpan := GRID_COLS / pr_w preset in
  let rowSpan := Z.max 4 (18 / pr_h preset) in
  let col := Z.of_nat slot mod pr_w preset in
  let row := Z.of_nat slot / pr_w preset in
  mkItem camId (col * colSpan) (row * rowSpan) colSpan rowSpan (Some camId).

Definition staticToFreeform (assignments : Assignments) (preset : Preset) (_cameras : list Camera)
  : list LayoutItem :=
  (λ e, slot_item preset e.1 e.2) <$> entries assignments.

(** [it.cameraId && cameras.some(c => c.id === it.cameraId)] *)
Definition known_item (cameras : list Camera) (it : LayoutItem) : bool :=
  match li_cameraId it with
  | Some id => truthy_str id && existsb (λ c, String.eqb (cam_id c) id) cameras
  | None => false
  end.

(** [STATIC_PRESETS.find(p => p.w * p.h >= count) || last] *)
Definition best_preset (count : Z) : Preset :=
  match find_where (λ p, count <=? slots p.1) STATIC_PRESETS with
  | Some p => p.1
  | None => mkPreset 6 4
  end.

(** [a.y !== b.y ? a.y - b.y : a.x - b.x], at most 0 *)
Definition item_le (a b : LayoutItem) : bool :=
  if negb (li_y a =? li_y b) then li_y a - li_y b <=? 0 else li_x a - li_x b <=? 0.

(** The [forEach] that fills the slots of a preset. *)
Definition fill_slots (n : Z) (sorted : list LayoutItem) : Assignments :=
  foldl (λ acc (e : nat * LayoutItem),
    match li_cameraId e.2 with
    | Some id => if (Z.of_nat e.1 <? n) && truthy_str id then <[e.1 := id]> acc else acc
    | None => acc
    end) ∅ (imap pair sorted).

Definition freeformToStatic (items : list LayoutItem) (cameras : list Camera)
  : Preset * Assignments :=
  let cameraItems := filter_where (known_item cameras) items in
  let preset := best_preset (Z.of_nat (length cameraItems)) in
  (preset, fill_slots (slots preset) (sort_by item_le cameraItems)).

(** Two placed items do not share a cell. *)
Definition disjoint_items (a b : LayoutItem) : Prop :=
  li_x a + li_w a ≤ li_x b ∨ li_x b + li_w b ≤ li_x a ∨
  li_y a + li_h a ≤ li_y b ∨ li_y b + li_h b ≤ li_y a.

(** ** localStorage

    A stored text is one of three things for this component: the JSON text of
    some layouts, a plain name, or a text on which parsing or the migration of
    its entries throws.  [JSON.parse (JSON.stringify ls)] is [ls]. *)

Inductive Stored :=
| SLayouts (ls : list SavedLayout)
| SName (s : string)
| SBroken.

Definition STORAGE_KEY : string := "ironsight-layouts".
Definition ACTIVE_LAYOUT_KEY : string := "ironsight-active-layout".
Definition LEGACY_STORAGE_KEY : string := "onvif-tool-layouts".
Definition LEGACY_ACTIVE_LAYOUT_KEY : string := "onvif-tool-active-layout".

(** One of the two copies of [migrateLegacyLayoutKeys]. *)
Definition migrate_key (old new : string) (ls : gmap string Stored) : gmap string Stored :=
  match ls !! old with
  | Some v => if decide (ls !! new = None) then delete old (<[new := v]> ls) else ls
  | None => ls
  end.

Definition migrateLegacyLayoutKeys (ls : gmap string Stored) : gmap string Stored :=
  migrate_key LEGACY_ACTIVE_LAYOUT_KEY ACTIVE_LAYOUT_KEY
    (migrate_key LEGACY_STORAGE_KEY STORAGE_KEY ls).

(** The version and mode defaults applied to each loaded layout. *)
Definition migrate_layout (l : SavedLayout) : SavedLayout :=
  let version :=
    match sl_version l with
    | Some v => if (v =? 0) || (v <? 3) then Some 3 else Some v
    | None => Some 3
    end in
  let mode := match sl_mode l with Some m => Some m | None => Some Freeform end in
  mkLayout (sl_name l) (sl_items l) (sl_cols l) version mode
    (sl_staticPreset l) (sl_staticAssignments l).

Definition loadSavedLayouts (ls : gmap string Stored) : list SavedLayout :=
  match ls !! STORAGE_KEY with
  | Some (SLayouts layouts) => migrate_layout <$> layouts
  | Some (SName _) | Some SBroken | None => []
  end.

Definition saveSavedLayouts (layouts : list SavedLayout) (ls : gmap string Stored)
  : gmap string Stored := <[STORAGE_KEY := SLayouts layouts]> ls.

(** ** The state of the component *)

(** Pointer positions are exact rationals of CSS pixels. *)
Record DragStart := mkDragStart {
  ds_clientX : Q;
  ds_clientY : Q;
  ds_initialGridX : Z;
  ds_initialGridY : Z
}.

Record ResizeStart := mkResizeStart {
  rs_clientX : Q;
  rs_clientY : Q;
  rs_initialW : Z;
  rs_initialH : Z
}.

Record Grid := mkGrid {
  savedLayouts : list SavedLayout;
  activeLayoutName : string;
  currentLayout : list LayoutItem;
  cols : Z;
  isEditing : bool;
  newLayoutName : string;
  gridMode : GridMode;
  staticPreset : Preset;
  staticAssignments : Assignments;
  pickerOpenSlot : Z;
  createMode : GridMode;
  showFreeformPicker : bool;
  draggingId : option string;
  resizingId : option string;
  ghostItem : option LayoutItem;
  dragStartPos : DragStart;
  resizeStartPos : ResizeStart;
  localStorage : gmap string Stored
}.

Definition set_savedLayouts (v : list SavedLayout) (s : Grid) : Grid :=
  mkGrid
    v (activeLayoutName s) (currentLayout s) (cols s) (isEditing s)
    (newLayoutName s) (gridMode s) (staticPreset s) (staticAssignments s)
    (pickerOpenSlot s) (createMode s) (showFreeformPicker s) (draggingId s)
    (resizingId s) (ghostItem s) (dragStartPos s) (resizeStartPos s)
    (localStorage s).

Definition set_activeLayoutName (v : string) (s : Grid) : Grid :=
  mkGrid
    (savedLayouts s) v (currentLayout s) (cols s) (isEditing s)
    (newLayoutName s) (gridMode s) (staticPreset s) (staticAssignments s)
    (pickerOpenSlot s) (createMode s) (showFreeformPicker s) (draggingId s)
    (resizingId s) (ghostItem s) (dragStartPos s) (resizeStartPos s)
    (localStorage s).

Definition set_currentLayout (v : list LayoutItem) (s : Grid) : Grid :=
  mkGrid
    (savedLayouts s) (activeLayoutName s) v (cols s) (isEditing s)
    (newLayoutName s) (gridMode s) (staticPreset s) (staticAssignments s)
    (pickerOpenSlot s) (createMode s) (showFreeformPicker s) (draggingId s)
    (resizingId s) (ghostItem s) (dragStartPos s) (resizeStartPos s)
    (localStorage s).

Definition set_cols (v : Z) (s : Grid) : Grid :=
  mkGrid
    (savedLayouts s) (activeLayoutName s) (currentLayout s) v (isEditing s)
    (newLayoutName s) (gridMode s) (staticPreset s) (staticAssignments s)
    (pickerOpenSlot s) (createMode s) (showFreeformPicker s) (draggingId s)
    (resizingId s) (ghostItem s) (dragStartPos s) (resizeStartPos s)
    (localStorage s).

Definition set_isEditing (v : bool) (s : Grid) : Grid :=
  mkGrid
    (savedLayouts s) (activeLayoutName s) (currentLayout s) (cols s) v
    (newLayoutName s) (gridMode s) (staticPreset s) (staticAssignments s)
    (pickerOpenSlot s) (createMode s) (showFreeformPicker s) (draggingId s)
    (resizingId s) (ghostItem s) (dragStartPos s) (resizeStartPos s)
    (localStorage s).

Definition set_newLayoutName (v : string) (s : Grid) : Grid :=
  mkGrid
    (savedLayouts s) (activeLayoutName s) (currentLayout s) (cols s)
    (isEditing s) v (gridMode s) (staticPreset s) (staticAssignments s)
    (pickerOpenSlot s) (createMode s) (showFreeformPicker s) (draggingId s)
    (resizingId s) (ghostItem s) (dragStartPos s) (resizeStartPos s)
    (localStorage s).

Definition set_gridMode (v : GridMode) (s : Grid) : Grid :=
  mkGrid
    (savedLayouts s) (activeLayoutName s) (currentLayout s) (cols s)
    (isEditing s) (newLayoutName s) v (staticPreset s) (staticAssignments s)
    (pickerOpenSlot s) (createMode s) (showFreeformPicker s) (draggingId s)
    (resizingId s) (ghostItem s) (dragStartPos s) (resizeStartPos s)
    (localStorage s).

Definition set_staticPreset (v : Preset) (s : Grid) : Grid :=
  mkGrid
    (savedLayouts s) (activeLayoutName s) (currentLayout s) (cols s)
    (isEditing s) (newLayoutName s) (gridMode s) v (staticAssignments s)
    (pickerOpenSlot s) (createMode s) (showFreeformPicker s) (draggingId s)
    (resizingId s) (ghostItem s) (dragStartPos s) (resizeStartPos s)
    (localStorage s).

Definition set_staticAssignments (v : Assignments) (s : Grid) : Grid :=
  mkGrid
    (savedLayouts s) (activeLayoutName s) (currentLayout s) (cols s)
    (isEditing s) (newLayoutName s) (gridMode s) (staticPreset s) v
    (pickerOpenSlot s) (createMode s) (showFreeformPicker s) (draggingId s)
    (resizingId s) (ghostItem s) (dragStartPos s) (resizeStartPos s)
    (localStorage s).

Definition set_pickerOpenSlot (v : Z) (s : Grid) : Grid :=
  mkGrid
    (savedLayouts s) (activeLayoutName s) (currentLayout s) (cols s)
    (isEditing s) (newLayoutName s) (gridMode s) (staticPreset s)
    (staticAssignments s) v (createMode s) (showFreeformPicker s)
    (draggingId s) (resizingId s) (ghostItem s) (dragStartPos s)
    (resizeStartPos s) (localStorage s).

Definition set_createMode (v : GridMode) (s : Grid) : Grid :=
  mkGrid
    (savedLayouts s) (activeLayoutName s) (currentLayout s) (cols s)
    (isEditing s) (newLayoutName s) (gridMode s) (staticPreset s)
    (staticAssignments s) (pickerOpenSlot s) v (showFreeformPicker s)
    (draggingId s) (resizingId s) (ghostItem s) (dragStartPos s)
    (resizeStartPos s) (localStorage s).

Definition set_showFreeformPicker (v : bool) (s : Grid) : Grid :=
  mkGrid
    (savedLayouts s) (activeLayoutName s) (currentLayout s) (cols s)
    (isEditing s) (newLayoutName s) (gridMode s) (staticPreset s)
    (staticAssignments s) (pickerOpenSlot s) (createMode s) v (draggingId s)
    (resizingId s) (ghostItem s) (dragStartPos s) (resizeStartPos s)
    (localStorage s).

Definition set_draggingId (v : option string) (s : Grid) : Grid :=
  mkGrid
    (savedLayouts s) (activeLayoutName s) (currentLayout s) (cols s)
    (isEditing s) (newLayoutName s) (gridMode s) (staticPreset s)
    (staticAssignments s) (pickerOpenSlot s) (createMode s)
    (showFreeformPicker s) v (resizingId s) (ghostItem s) (dragStartPos s)
    (resizeStartPos s) (localStorage s).

Definition set_resizingId (v : option string) (s : Grid) : Grid :=
  mkGrid
    (savedLayouts s) (activeLayoutName s) (currentLayout s) (cols s)
    (isEditing s) (newLayoutName s) (gridMode s) (staticPreset s)
    (staticAssignments s) (pickerOpenSlot s) (createMode s)
    (showFreeformPicker s) (draggingId s) v (ghostItem s) (dragStartPos s)
    (resizeStartPos s) (localStorage s).

Definition set_ghostItem (v : option LayoutItem) (s : Grid) : Grid :=
  mkGrid
    (savedLayouts s) (activeLayoutName s) (currentLayout s) (cols s)
    (isEditing s) (newLayoutName s) (gridMode s) (staticPreset s)
    (staticAssignments s) (pickerOpenSlot s) (createMode s)
    (showFreeformPicker s) (draggingId s) (resizingId s) v (dragStartPos s)
    (resizeStartPos s) (localStorage s).

Definition set_dragStartPos (v : DragStart) (s : Grid) : Grid :=
  mkGrid
    (savedLayouts s) (activeLayoutName s) (currentLayout s) (cols s)
    (isEditing s) (newLayoutName s) (gridMode s) (staticPreset s)
    (staticAssignments s) (pickerOpenSlot s) (createMode s)
    (showFreeformPicker s) (draggingId s) (resizingId s) (ghostItem s) v
    (resizeStartPos s) (localStorage s).

Definition set_resizeStartPos (v : ResizeStart) (s : Grid) : Grid :=
  mkGrid
    (savedLayouts s) (activeLayoutName s) (currentLayout s) (cols s)
    (isEditing s) (newLayoutName s) (gridMode s) (staticPreset s)
    (staticAssignments s) (pickerOpenSlot s) (createMode s)
    (showFreeformPicker s) (draggingId s) (resizingId s) (ghostItem s)
    (dragStartPos s) v (localStorage s).

Definition set_localStorage (v : gmap string Stored) (s : Grid) : Grid :=
  mkGrid
    (savedLayouts s) (activeLayoutName s) (currentLayout s) (cols s)
    (isEditing s) (newLayoutName s) (gridMode s) (staticPreset s)
    (staticAssignments s) (pickerOpenSlot s) (createMode s)
    (showFreeformPicker s) (draggingId s) (resizingId s) (ghostItem s)
    (dragStartPos s) (resizeStartPos s) v.


Definition initial_grid (ls : gmap string Stored) : Grid :=
  mkGrid [] EmptyString [] 2 false EmptyString Static (mkPreset 2 2) ∅ (-1) Static false
    None None None (mkDragStart 0 0 0 0) (mkResizeStart 0 0 0 0) ls.

Definition modify_saved (f : list SavedLayout → list SavedLayout) (s : Grid) : Grid :=
  let updated := f (savedLayouts s) in
  set_savedLayouts updated (set_localStorage (saveSavedLayouts updated (localStorage s)) s).

(** [if (layout.mode === 'static' && layout.staticPreset && layout.staticAssignments)] *)
Definition static_content (l : SavedLayout) : option (Preset * Assignments) :=
  match sl_mode l, sl_staticPreset l, sl_staticAssignments l with
  | Some Static, Some p, Some a => Some (p, a)
  | _, _, _ => None
  end.

(** The effect that loads the saved layouts on mount. *)
Definition mount_grid (s : Grid) : Grid :=
  let layouts := loadSavedLayouts (localStorage s) in
  let s := set_savedLayouts layouts s in
  let activeName :=
    match localStorage s !! ACTIVE_LAYOUT_KEY with Some (SName n) => n | _ => EmptyString end in
  match find_where (λ l, String.eqb (sl_name l) activeName) layouts with
  | Some active =>
      let s := set_activeLayoutName (sl_name active) s in
      match static_content active with
      | Some (p, a) => set_staticAssignments a (set_staticPreset p (set_gridMode Static s))
      | None => set_cols (sl_cols active) (set_currentLayout (sl_items active) (set_gridMode Freeform s))
      end
  | None => s
  end.

(** The effect that drops slots and cameras that no longer exist. *)
Definition validate_assignments (cameras : list Camera) (s : Grid) : Grid :=
  if (length cameras =? 0)%nat then s
  else
    let totalSlots := slots (staticPreset s) in
    set_staticAssignments
      (filter (λ e, Z.of_nat e.1 < totalSlots ∧ e.2 ∈ cam_id <$> cameras) (staticAssignments s)) s.

(** [Math.max(...ys)] of a non-empty list. *)
Definition max_bottom_of (x : LayoutItem) (items : list LayoutItem) : Z :=
  foldl (λ m l, Z.max m (li_y l + li_h l)) (li_y x + li_h x) items.

Definition handleAddFreeformCamera (cameraId : string) (s : Grid) : Grid :=
  let prev := currentLayout s in
  let next :=
    if existsb (λ it, bool_decide (li_cameraId it = Some cameraId)) prev then prev
    else
      let maxY := match prev with x :: rest => max_bottom_of x rest | [] => 0 end in
      let colSpan := GRID_COLS / cols s in
      let hu := 12 in
      let col := Z.of_nat (length prev) mod cols s in
      let y0 := maxY + (if col =? 0 then 0 else - hu) in
      let y :=
        match last prev with
        | Some l => if 0 <? col then li_y l else y0
        | None => y0
        end in
      prev ++ [mkItem cameraId (col * colSpan) y colSpan hu (Some cameraId)] in
  set_showFreeformPicker false (set_currentLayout next s).

Definition handleRemoveFreeformCamera (cameraId : string) (s : Grid) : Grid :=
  set_currentLayout
    (filter_where (λ it, negb (bool_decide (li_cameraId it = Some cameraId))) (currentLayout s)) s.

Definition handleAssignCamera (slotIndex : nat) (cameraId : option string) (s : Grid) : Grid :=
  let prev := staticAssignments s in
  let next :=
    match cameraId with
    | None => delete slotIndex prev
    | Some id => <[slotIndex := id]> (filter (λ e, e.2 ≠ id) prev)
    end in
  set_pickerOpenSlot (-1) (set_staticAssignments next s).

Definition handleStaticPresetChange (p : Preset) (s : Grid) : Grid :=
  set_staticAssignments (filter (λ e, Z.of_nat e.1 < slots p) (staticAssignments s))
    (set_staticPreset p s).

(** The empty layout a creation starts from. *)
Definition new_layout (name : string) (s : Grid) : SavedLayout :=
  match createMode s with
  | Static => mkLayout name [] (pr_w (staticPreset s)) (Some 3) (Some Static)
                (Some (staticPreset s)) (Some ∅)
  | Freeform => mkLayout name [] 2 (Some 3) (Some Freeform) None None
  end.

Definition handleCreateLayout (s : Grid) : Grid :=
  let name := trim (newLayoutName s) in
  if negb (truthy_str name) then s
  else
    let layout := new_layout name s in
    let s1 := modify_saved
      (λ ls, filter_where (λ l, negb (String.eqb (sl_name l) name)) ls ++ [layout]) s in
    let s2 := set_gridMode (createMode s) (set_activeLayoutName name s1) in
    let s3 := set_localStorage (<[ACTIVE_LAYOUT_KEY := SName name]> (localStorage s2)) s2 in
    let s4 :=
      match createMode s with
      | Static => set_staticAssignments ∅ s3
      | Freeform => set_isEditing true (set_cols 2 (set_currentLayout [] s3))
      end in
    set_newLayoutName EmptyString s4.

(** The effect that saves the content of the active layout. *)
Definition autosave (s : Grid) : Grid :=
  if negb (truthy_str (activeLayoutName s)) then s
  else modify_saved (fmap (λ l,
    if negb (String.eqb (sl_name l) (activeLayoutName s)) then l
    else match sl_mode l with
         | Some Static => mkLayout (sl_name l) (sl_items l) (sl_cols l) (sl_version l) (sl_mode l)
                            (Some (staticPreset s)) (Some (staticAssignments s))
         | _ => mkLayout (sl_name l) (currentLayout s) (cols s) (sl_version l) (sl_mode l)
                  (sl_staticPreset l) (sl_staticAssignments l)
         end)) s.

(** [Array.from(new Set(xs))]: first occurrences, in order. *)
Definition dedup (l : list string) : list string :=
  foldl (λ acc x, if decide (x ∈ acc) then acc else acc ++ [x]) [] l.

(** The camera ids reported to the parent. *)
Definition visible_cameras (cameras : list Camera) (s : Grid) : list string :=
  let loaded id := truthy_str id && existsb (λ c, String.eqb (cam_id c) id) cameras in
  if negb (truthy_str (activeLayoutName s)) then []
  else match gridMode s with
       | Static => filter_where loaded (dedup (object_values (staticAssignments s)))
       | Freeform => dedup (filter_where loaded (omap li_cameraId (currentLayout s)))
       end.

Definition handleLoadLayout (layout : SavedLayout) (s : Grid) : Grid :=
  let s1 :=
    match static_content layout with
    | Some (p, a) => set_staticAssignments a (set_staticPreset p (set_gridMode Static s))
    | None =>
        set_isEditing false
          (set_cols (if sl_cols layout =? 0 then 2 else sl_cols layout)
             (set_currentLayout (sl_items layout) (set_gridMode Freeform s)))
    end in
  let s2 := set_activeLayoutName (sl_name layout) s1 in
  set_localStorage (<[ACTIVE_LAYOUT_KEY := SName (sl_name layout)]> (localStorage s2)) s2.

(** The New Layout button. *)
Definition handleNewLayout (s : Grid) : Grid :=
  set_localStorage (delete ACTIVE_LAYOUT_KEY (localStorage s)) (set_activeLayoutName EmptyString s).

Definition handleDeleteLayout (confirmed : bool) (name : string) (s : Grid) : Grid :=
  if negb confirmed then s
  else
    let s1 := modify_saved (filter_where (λ l, negb (String.eqb (sl_name l) name))) s in
    if String.eqb (activeLayoutName s) name then handleNewLayout s1 else s1.

Definition handleConvertLayout (cameras : list Camera) (s : Grid) : Grid :=
  if negb (truthy_str (activeLayoutName s)) then s
  else match gridMode s with
  | Static =>
      let items := staticToFreeform (staticAssignments s) (staticPreset s) cameras in
      let columns := pr_w (staticPreset s) in
      modify_saved (map_where (λ l, String.eqb (sl_name l) (activeLayoutName s))
          (λ l, mkLayout (sl_name l) items columns (sl_version l) (Some Freeform)
                  (sl_staticPreset l) (sl_staticAssignments l)))
        (set_isEditing true (set_cols columns (set_currentLayout items (set_gridMode Freeform s))))
  | Freeform =>
      let '(preset, assignments) := freeformToStatic (currentLayout s) cameras in
      modify_saved (map_where (λ l, String.eqb (sl_name l) (activeLayoutName s))
          (λ l, mkLayout (sl_name l) (sl_items l) (sl_cols l) (sl_version l) (Some Static)
                  (Some preset) (Some assignments)))
        (set_isEditing false
           (set_staticAssignments assignments (set_staticPreset preset (set_gridMode Static s))))
  end.

Definition handleQuickLayout (cameras : list Camera) (columns : Z) (s : Grid) : Grid :=
  let hu := Z.max 4 (18 / columns) in
  set_currentLayout (generateDefaultLayout cameras columns hu) (set_cols columns s).

(** ** Drag and resize

    [scaled] computes [Math.round(v * (GRID_COLS / maxRight))] exactly; the
    rounding of the quotient to a double is not modelled. *)

(** [Math.round] *)
Definition Math_round (q : Q) : Z := Qfloor (q + (1 # 2))%Q.

(** [colWidth] and [rowHeight] for a canvas of the given width, or the fallback
    while the canvas is not mounted. *)
Definition getGridMetrics (gridWidth : option Q) : Q * Q :=
  match gridWidth with
  | None => (1, 1)%Q
  | Some width =>
      let totalGapWidth := inject_Z ((GRID_COLS - 1) * 6) in
      ((width - totalGapWidth) / inject_Z GRID_COLS + 6, inject_Z (ROW_HEIGHT_UNIT + 6))%Q
  end.

Definition max_right (items : list LayoutItem) : Z :=
  foldl (λ m it, Z.max m (li_x it + li_w it)) 0 items.

Definition max_bottom_from0 (items : list LayoutItem) : Z :=
  foldl (λ m it, Z.max m (li_y it + li_h it)) 0 items.

(** [Math.round(v * scaleX)], [scaleX] being [GRID_COLS / maxRight] or 1. *)
Definition scaled (maxRight v : Z) : Z :=
  if GRID_COLS <? maxRight then round_div (v * GRID_COLS) maxRight else v.

Definition fitToViewport (items : list LayoutItem) : list LayoutItem :=
  if (max_right items =? 0) || (max_bottom_from0 items =? 0) then items
  else
    (λ it, mkItem (li_i it) (scaled (max_right items) (li_x it)) (li_y it)
             (Z.max 2 (scaled (max_right items) (li_w it))) (Z.max 2 (li_h it)) (li_cameraId it))
    <$> items.

Definition onDragStart (clientX clientY : Q) (it : LayoutItem) (s : Grid) : Grid :=
  if negb (isEditing s) then s
  else set_ghostItem (Some it)
         (set_dragStartPos (mkDragStart clientX clientY (li_x it) (li_y it))
            (set_draggingId (Some (li_i it)) s)).

Definition onDragMove (gridWidth : option Q) (clientX clientY : Q) (s : Grid) : Grid :=
  match draggingId s, ghostItem s with
  | Some id, Some ghost =>
      if negb (truthy_str id) then s else
      let '(colWidth, rowHeight) := getGridMetrics gridWidth in
      let dx := (clientX - ds_clientX (dragStartPos s))%Q in
      let dy := (clientY - ds_clientY (dragStartPos s))%Q in
      let newX := Math_round (inject_Z (ds_initialGridX (dragStartPos s)) + dx / colWidth) in
      let newY := Math_round (inject_Z (ds_initialGridY (dragStartPos s)) + dy / rowHeight) in
      set_ghostItem (Some (set_li_pos newX (if newY <? 0 then 0 else newY) ghost)) s
  | _, _ => s
  end.

Definition onDragEnd (s : Grid) : Grid :=
  match draggingId s, ghostItem s with
  | Some id, Some ghost =>
      if negb (truthy_str id) then s else
      let updated := map_where (λ it, String.eqb (li_i it) id)
                       (set_li_pos (li_x ghost) (li_y ghost)) (currentLayout s) in
      set_ghostItem None (set_draggingId None (set_currentLayout (fitToViewport updated) s))
  | _, _ => s
  end.

Definition onResizeStart (clientX clientY : Q) (it : LayoutItem) (s : Grid) : Grid :=
  if negb (isEditing s) then s
  else set_ghostItem (Some it)
         (set_resizeStartPos (mkResizeStart clientX clientY (li_w it) (li_h it))
            (set_resizingId (Some (li_i it)) s)).

Definition onResizeMove (gridWidth : option Q) (clientX clientY : Q) (s : Grid) : Grid :=
  match resizingId s, ghostItem s with
  | Some id, Some ghost =>
      if negb (truthy_str id) then s else
      let '(colWidth, rowHeight) := getGridMetrics gridWidth in
      let dx := (clientX - rs_clientX (resizeStartPos s))%Q in
      let dy := (clientY - rs_clientY (resizeStartPos s))%Q in
      let newW := Math_round (inject_Z (rs_initialW (resizeStartPos s)) + dx / colWidth) in
      let newH := Math_round (inject_Z (rs_initialH (resizeStartPos s)) + dy / rowHeight) in
      set_ghostItem
        (Some (set_li_size (if newW <? 2 then 2 else newW) (if newH <? 2 then 2 else newH) ghost)) s
  | _, _ => s
  end.

Definition onResizeEnd (s : Grid) : Grid :=
  match resizingId s, ghostItem s with
  | Some id, Some ghost =>
      if negb (truthy_str id) then s else
      let updated := map_where (λ it, String.eqb (li_i it) id)
                       (set_li_size (li_w ghost) (li_h ghost)) (currentLayout s) in
      set_ghostItem None (set_resizingId None (set_currentLayout (fitToViewport updated) s))
  | _, _ => s
  end.

(** ** Lemmas on entries and slots *)

Lemma elem_of_entries m k v : (k, v) ∈ entries m ↔ m !! k = Some v.
Proof. unfold entries. rewrite elem_of_sort_by. apply elem_of_map_to_list. Qed.

Lemma NoDup_entries m : NoDup (entries m).*1.
Proof. unfold entries. rewrite sort_by_Permutation. apply NoDup_fst_map_to_list. Qed.

Lemma length_entries m : length (entries m) = size m.
Proof. unfold entries. rewrite length_sort_by. apply length_map_to_list. Qed.

(** Keys ascend strictly. *)
Lemma entries_ascending m : Sorted (λ a b : nat * string, (a.1 < b.1)%nat) (entries m).
Proof.
  pose proof (NoDup_entries m) as Hnd. unfold entries in *.
  assert (Hs : Sorted (λ a b : nat * string, ((a.1 <=? b.1)%nat) = true)
                 (sort_by (λ a b, (a.1 <=? b.1)%nat) (map_to_list m))).
  { apply sort_by_Sorted. intros a b H. apply Nat.leb_le. apply Nat.leb_gt in H. lia. }
  induction Hs as [|x l Hl IH Hx]; [constructor|].
  rewrite fmap_cons in Hnd. apply NoDup_cons in Hnd as [Hx1 Hnd]. constructor; [auto|].
  destruct Hx as [|y l Hxy]; constructor. apply Nat.leb_le in Hxy.
  assert (x.1 ≠ y.1); [|lia]. intros E. apply Hx1. rewrite fmap_cons, E. left.
Qed.

Definition one_slot (m : Assignments) : Prop :=
  ∀ i j c, m !! i = Some c → m !! j = Some c → i = j.

Lemma NoDup_object_values m : one_slot m → NoDup (object_values m).
Proof.
  intros H. unfold object_values. apply NoDup_fmap_2_strong.
  - intros [i a] [j b] Hi Hj E. simpl in E. subst.
    apply elem_of_entries in Hi, Hj. by rewrite (H i j b).
  - eapply (NoDup_fmap_1 fst), NoDup_entries.
Qed.

Definition keep_truthy (o : option string) : option string :=
  match o with Some id => if truthy_str id then Some id else None | None => None end.

Lemma fill_slots_lookup n l i :
  fill_slots n l !! i =
  if Z.of_nat i <? n then l !! i ≫= (λ it, keep_truthy (li_cameraId it)) else None.
Proof.
  unfold fill_slots. induction l as [|it l IH] using rev_ind.
  { cbn [imap foldl]. rewrite lookup_nil. simpl (None ≫= _).
    rewrite lookup_empty. by destruct (_ <? _). }
  rewrite imap_app, foldl_app. cbn [imap foldl fst snd].
  replace (length l + 0)%nat with (length l) by lia.
  set (acc := foldl _ _ _) in *.
  destruct (decide (i = length l)) as [->|Hne].
  - rewrite lookup_app_r, Nat.sub_diag by lia. cbn.
    rewrite lookup_ge_None_2 in IH by lia.
    assert (Hacc : acc !! length l = None) by (rewrite IH; by destruct (_ <? _)).
    unfold keep_truthy. destruct (li_cameraId it) as [id|]; [|rewrite Hacc; by destruct (_ <? _)].
    destruct (Z.of_nat (length l) <? n); simpl; [|done].
    destruct (truthy_str id); [by rewrite lookup_insert_eq|done].
  - assert (E : (l ++ [it]) !! i = l !! i).
    { destruct (decide (i < length l)%nat).
      - by rewrite lookup_app_l by lia.
      - rewrite !lookup_ge_None_2; [done|lia|rewrite length_app; simpl; lia]. }
    rewrite E, <- IH. destruct (li_cameraId it) as [id|]; [|done].
    destruct (_ && _); [|done]. by rewrite lookup_insert_ne by done.
Qed.

(** Different items fill different slots, provided they hold different cameras. *)
Lemma fill_slots_one_slot n l : NoDup (li_cameraId <$> l) → one_slot (fill_slots n l).
Proof.
  intros Hnd i j c. rewrite !fill_slots_lookup.
  destruct (_ <? _); [|done]. destruct (Z.of_nat j <? n); [|done].
  assert (Hk : ∀ k, l !! k ≫= (λ it, keep_truthy (li_cameraId it)) = Some c →
                    (li_cameraId <$> l) !! k = Some (Some c)).
  { intros k. rewrite list_lookup_fmap. destruct (l !! k) as [it|]; simpl; [|done].
    unfold keep_truthy. destruct (li_cameraId it) as [id|]; [|done].
    destruct (truthy_str id); naive_solver. }
  intros Hi%Hk Hj%Hk. by eapply NoDup_lookup.
Qed.

(** ** Presets *)

Lemma best_preset_fits n : 0 ≤ n → n ≤ 24 → n ≤ slots (best_preset n).
Proof.
  intros. unfold best_preset.
  destruct (find_where _ _) as [p|] eqn:E.
  - apply find_where_Some in E as [E _]. by apply Z.leb_le.
  - unfold slots; simpl. lia.
Qed.

Lemma best_preset_positive n : 1 ≤ pr_w (best_preset n) ∧ 1 ≤ pr_h (best_preset n).
Proof.
  unfold best_preset.
  assert (Hall : Forall (λ p, 1 ≤ pr_w p.1 ∧ 1 ≤ pr_h p.1) STATIC_PRESETS).
  { unfold STATIC_PRESETS. repeat constructor; simpl; lia. }
  destruct (find_where _ _) as [p|] eqn:E; [|simpl; lia].
  apply find_where_Some in E as [_ E]. rewrite Forall_forall in Hall. by apply Hall.
Qed.

(** ** Conversions between the modes *)

(** Reading order of slots is the position order of their items. *)
Lemma slot_item_le p i j a b :
  1 ≤ pr_w p → pr_w p ≤ GRID_COLS → (i < j)%nat →
  item_le (slot_item p i a) (slot_item p j b) = true.
Proof.
  intros Hw Hcols Hij. unfold item_le, slot_item; cbn [li_x li_y].
  set (r := Z.max 4 (18 / pr_h p)). assert (4 ≤ r) by lia.
  set (cs := GRID_COLS / pr_w p).
  assert (1 ≤ cs) by (unfold cs, GRID_COLS in *; zdiv).
  assert (Hd : Z.of_nat i / pr_w p ≤ Z.of_nat j / pr_w p) by (apply Z.div_le_mono; lia).
  destruct (Z.eqb_spec (Z.of_nat i / pr_w p * r) (Z.of_nat j / pr_w p * r)) as [E|E]; simpl;
    apply Z.leb_le; [|nia].
  assert (Z.of_nat i / pr_w p = Z.of_nat j / pr_w p) by nia.
  assert (Z.of_nat i mod pr_w p ≤ Z.of_nat j mod pr_w p) by zdiv. nia.
Qed.

Lemma staticToFreeform_ids m p cams :
  li_cameraId <$> staticToFreeform m p cams = Some <$> object_values m.
Proof.
  unfold staticToFreeform, object_values. rewrite <- !list_fmap_compose. done.
Qed.

Lemma staticToFreeform_sorted m p cams :
  1 ≤ pr_w p → pr_w p ≤ GRID_COLS →
  Sorted (λ a b, item_le a b = true) (staticToFreeform m p cams).
Proof.
  intros Hw Hc. unfold staticToFreeform.
  induction (entries_ascending m) as [|e l Hl IH He]; [constructor|].
  rewrite fmap_cons. constructor; [done|].
  destruct He as [|e' l Hee]; constructor. by apply slot_item_le.
Qed.

Definition known_camera (cameras : list Camera) (id : string) : bool :=
  truthy_str id && existsb (λ c, String.eqb (cam_id c) id) cameras.

Lemma filter_where_all {A} (p : A → bool) l : (∀ x, x ∈ l → p x = true) → filter_where p l = l.
Proof.
  intros H. unfold filter_where. induction l as [|x l IH]; [done|].
  rewrite filter_cons_True; [|by apply Is_true_true, H; left].
  rewrite IH; [done|]. intros y Hy. apply H. by right.
Qed.

Lemma staticToFreeform_known m p cams :
  (∀ i c, m !! i = Some c → known_camera cams c = true) →
  filter_where (known_item cams) (staticToFreeform m p cams) = staticToFreeform m p cams.
Proof.
  intros Hk. apply filter_where_all. intros it Hit.
  apply list_elem_of_fmap in Hit as ([i c] & -> & He). apply elem_of_entries in He.
  apply (Hk i c He).
Qed.

Lemma object_values_lookup m i c :
  object_values m !! i = Some c → ∃ k, m !! k = Some c.
Proof.
  unfold object_values. rewrite list_lookup_fmap, fmap_Some. intros ([k c'] & He & ->).
  exists k. apply elem_of_entries. by eapply list_elem_of_lookup_2.
Qed.

(** C9. Converting a static layout to freeform and back keeps the cameras in
    reading order: they fill the first slots of the chosen preset, and none is
    dropped as long as there are at most 24, the size of the largest preset. *)
Theorem convert_roundtrip (m : Assignments) (p : Preset) (cams : list Camera)
  (Hw : 1 ≤ pr_w p ∧ pr_w p ≤ GRID_COLS)
  (Hk : ∀ i c, m !! i = Some c → known_camera cams c = true) :
  let '(p', m') := freeformToStatic (staticToFreeform m p cams) cams in
  p' = best_preset (Z.of_nat (size m)) ∧
  (∀ i, m' !! i = if Z.of_nat i <? slots p' then object_values m !! i else None) ∧
  ((size m ≤ 24)%nat → ∀ i, m' !! i = object_values m !! i).
Proof.
  unfold freeformToStatic. rewrite staticToFreeform_known by done.
  rewrite sort_by_id by (apply staticToFreeform_sorted; lia).
  assert (Hlen : length (staticToFreeform m p cams) = size m)
    by (unfold staticToFreeform; rewrite length_fmap; apply length_entries).
  rewrite Hlen.
  assert (Hlook : ∀ i, fill_slots (slots (best_preset (Z.of_nat (size m))))
                    (staticToFreeform m p cams) !! i =
    if Z.of_nat i <? slots (best_preset (Z.of_nat (size m))) then object_values m !! i else None).
  { intros i. rewrite fill_slots_lookup. destruct (_ <? _); [|done].
    pose proof (f_equal (lookup i) (staticToFreeform_ids m p cams)) as Hi.
    rewrite !list_lookup_fmap in Hi.
    destruct (staticToFreeform m p cams !! i) as [it|], (object_values m !! i) as [c|] eqn:Hc;
      simpl in *; try done.
    injection Hi as ->. destruct (object_values_lookup m i c Hc) as [k Hkc].
    specialize (Hk k c Hkc). unfold known_camera in Hk. simpl.
    destruct (truthy_str c); done. }
  split; [done|]. split; [exact Hlook|]. intros Hs i. rewrite Hlook.
  destruct (Z.ltb_spec (Z.of_nat i) (slots (best_preset (Z.of_nat (size m))))); [done|].
  symmetry. apply lookup_ge_None. unfold object_values. rewrite length_fmap, length_entries.
  pose proof (best_preset_fits (Z.of_nat (size m))). lia.
Qed.

Lemma convert_roundtrip_witness :
  let m : Assignments := <[0%nat := "a"%string]> (<[3%nat := "b"%string]> ∅) in
  let cams := [new_camera "b" "Gate"; new_camera "a" "Yard"] in
  let '(p', m') := freeformToStatic (staticToFreeform m (mkPreset 2 2) cams) cams in
  p' = mkPreset 2 1 ∧ m' !! 1%nat = Some "b"%string.
Proof.
  intros m cams.
  assert (Hk : ∀ i c, m !! i = Some c → known_camera cams c = true).
  { intros i c Hm. unfold m in Hm. apply lookup_insert_Some in Hm as [[_ <-]|[_ Hm]]; [done|].
    apply lookup_insert_Some in Hm as [[_ <-]|[_ Hm]]; [done|]. by rewrite lookup_empty in Hm. }
  pose proof (convert_roundtrip m (mkPreset 2 2) cams ltac:(done) Hk) as H.
  destruct (freeformToStatic _ _) as [p' m']. destruct H as (-> & Hm & _).
  split; [reflexivity|]. rewrite Hm. vm_compute. reflexivity.
Defined.

(** The conversion does not pick the smallest preset that fits: between 13
    and 15 cameras it takes 4×4, although 5×3 holds them in 15 slots; at every
    other count up to 24 no preset that fits has fewer slots. *)
Theorem best_preset_not_smallest (n : Z) (H : 0 ≤ n ∧ n ≤ 24) :
  n ≤ slots (best_preset n) ∧
  (if (13 <=? n) && (n <=? 15)
   then best_preset n = mkPreset 4 4 ∧ (mkPreset 5 3, "5×3"%string) ∈ STATIC_PRESETS ∧
        n ≤ slots (mkPreset 5 3) ∧ slots (mkPreset 5 3) < slots (best_preset n)
   else ∀ p, p ∈ STATIC_PRESETS → n ≤ slots p.1 → slots (best_preset n) ≤ slots p.1).
Proof.
  split; [apply best_preset_fits; lia|].
  assert (Hall : forallb (λ n,
    if (13 <=? n) && (n <=? 15) then bool_decide (best_preset n = mkPreset 4 4)
    else forallb (λ p, negb (n <=? slots p.1) || (slots (best_preset n) <=? slots p.1))
           STATIC_PRESETS) (seqZ 0 25) = true) by (vm_compute; reflexivity).
  rewrite forallb_forall in Hall.
  specialize (Hall n ltac:(apply list_elem_of_In, elem_of_seqZ; lia)).
  destruct ((13 <=? n) && (n <=? 15)) eqn:E.
  - apply bool_decide_eq_true in Hall. rewrite Hall. apply andb_prop in E as [_ E].
    apply Z.leb_le in E. split_and!; [done| |done|done].
    unfold STATIC_PRESETS. do 7 apply list_elem_of_further. apply list_elem_of_here.
  - rewrite forallb_forall in Hall. intros p Hp Hfit. apply list_elem_of_In, Hall in Hp.
    apply Z.leb_le in Hfit. rewrite Hfit in Hp. by apply Z.leb_le.
Qed.

Lemma best_preset_not_smallest_witness : best_preset 14 = mkPreset 4 4.
Proof. apply (best_preset_not_smallest 14). lia. Defined.

(** ** Default layout and viewport *)

(** The default layout tiles: for any number of columns from 1 to 32 every
    camera gets one item, the items lie inside the 32 grid columns, and two
    different items never share a cell. *)
Theorem default_layout_tiles (cams : list Camera) (viewCols hUnits : Z)
  (Hc : 1 ≤ viewCols ∧ viewCols ≤ GRID_COLS) (Hh : 1 ≤ hUnits) :
  let items := generateDefaultLayout cams viewCols hUnits in
  li_cameraId <$> items = Some ∘ cam_id <$> cams ∧
  (∀ it, it ∈ items → 0 ≤ li_x it ∧ li_x it + li_w it ≤ GRID_COLS ∧ 1 ≤ li_w it ∧ 0 ≤ li_y it) ∧
  (∀ i j a b, items !! i = Some a → items !! j = Some b → i ≠ j → disjoint_items a b).
Proof.
  intros items.
  assert (Hlook : ∀ i a, items !! i = Some a →
    li_x a = (Z.of_nat i mod viewCols) * (GRID_COLS / viewCols) ∧
    li_y a = (Z.of_nat i / viewCols) * hUnits ∧ li_w a = GRID_COLS / viewCols ∧ li_h a = hUnits).
  { intros i a. unfold items, generateDefaultLayout. rewrite list_lookup_imap, fmap_Some.
    intros (c & _ & ->). done. }
  assert (Hw : 1 ≤ GRID_COLS / viewCols ∧ viewCols * (GRID_COLS / viewCols) ≤ GRID_COLS)
    by (unfold GRID_COLS in *; zdiv).
  split_and!.
  - apply list_eq. intros i. unfold items, generateDefaultLayout.
    rewrite !list_lookup_fmap, list_lookup_imap. by destruct (cams !! i).
  - intros it (i & Hi)%list_elem_of_lookup. destruct (Hlook i it Hi) as (-> & -> & -> & _).
    pose proof (Z.mod_pos_bound (Z.of_nat i) viewCols).
    assert (0 ≤ Z.of_nat i / viewCols) by (apply Z.div_pos; lia). nia.
  - intros i j a b Hi Hj Hij.
    destruct (Hlook i a Hi) as (Ex & Ey & Ew & Eh), (Hlook j b Hj) as (Ex' & Ey' & Ew' & Eh').
    unfold disjoint_items. rewrite Ex, Ey, Ew, Eh, Ex', Ey', Ew', Eh'.
    destruct (Z.lt_trichotomy (Z.of_nat i / viewCols) (Z.of_nat j / viewCols)) as [?|[E|?]].
    + right; right; left. nia.
    + assert (Z.of_nat i mod viewCols ≠ Z.of_nat j mod viewCols).
      { intros Em. apply Hij. apply Nat2Z.inj.
        rewrite (Z.div_mod (Z.of_nat i) viewCols), (Z.div_mod (Z.of_nat j) viewCols) by lia.
        congruence. }
      destruct (Z.lt_ge_cases (Z.of_nat i mod viewCols) (Z.of_nat j mod viewCols)); [left|right; left]; nia.
    + right; right; right. nia.
Qed.

Lemma default_layout_tiles_witness :
  let items := generateDefaultLayout [new_camera "a" "A"; new_camera "b" "B"; new_camera "c" "C"] 2 9 in
  length items = 3%nat ∧ ∀ i j a b, items !! i = Some a → items !! j = Some b → i ≠ j → disjoint_items a b.
Proof.
  intros items. split; [reflexivity|].
  apply (default_layout_tiles [new_camera "a" "A"; new_camera "b" "B"; new_camera "c" "C"] 2 9);
    unfold GRID_COLS; lia.
Defined.

Lemma foldl_max_bound (f : LayoutItem → Z) l m :
  m ≤ foldl (λ m it, Z.max m (f it)) m l ∧ ∀ it, it ∈ l → f it ≤ foldl (λ m it, Z.max m (f it)) m l.
Proof.
  revert m. induction l as [|x l IH]; intros m; simpl.
  - split; [lia|]. intros it H. by apply elem_of_nil in H.
  - destruct (IH (Z.max m (f x))) as [H1 H2]. split; [lia|].
    intros it [->|H]%elem_of_cons; [lia|by apply H2].
Qed.

Lemma max_right_bound items it : it ∈ items → li_x it + li_w it ≤ max_right items.
Proof. intros H. by apply (foldl_max_bound (λ it, li_x it + li_w it) items 0). Qed.

Lemma scaled_sum M a b :
  0 ≤ a → 0 ≤ b → a + b ≤ M → scaled M a + scaled M b ≤ GRID_COLS + 1 ∧
  0 ≤ scaled M a ∧ scaled M a ≤ GRID_COLS ∧ 0 ≤ scaled M b.
Proof.
  intros Ha Hb Hab. unfold scaled. destruct (Z.ltb_spec GRID_COLS M); [|lia].
  unfold GRID_COLS, round_div in *. split_and!; zdiv.
Qed.

(** Fitting to the viewport: a layout inside the 32 columns whose items have
    the minimum size is unchanged; otherwise identities and rows are kept, sizes
    are at least 2, and an item ends within two columns of the edge.  It does not
    always end inside the viewport: the two roundings can add up. *)
Theorem fit_viewport_bounds (items : list LayoutItem)
  (H : ∀ it, it ∈ items → 0 ≤ li_x it ∧ 1 ≤ li_w it ∧ 0 ≤ li_y it ∧ 1 ≤ li_h it) :
  (max_right items ≤ GRID_COLS → (∀ it, it ∈ items → 2 ≤ li_w it ∧ 2 ≤ li_h it) →
   fitToViewport items = items) ∧
  (λ it, (li_i it, li_cameraId it, li_y it)) <$> fitToViewport items =
    (λ it, (li_i it, li_cameraId it, li_y it)) <$> items ∧
  (∀ it, it ∈ fitToViewport items →
     0 ≤ li_x it ∧ li_x it ≤ GRID_COLS ∧ 2 ≤ li_w it ∧ 2 ≤ li_h it ∧
     li_x it + li_w it ≤ GRID_COLS + 2) ∧
  (∃ it, fitToViewport [mkItem "c" 33 0 31 12 (Some "c"%string)] = [it] ∧
         li_x it + li_w it = GRID_COLS + 1).
Proof.
  assert (Hpos : items ≠ [] → (max_right items =? 0) || (max_bottom_from0 items =? 0) = false).
  { destruct items as [|it l]; [done|]. intros _. apply orb_false_intro; apply Z.eqb_neq.
    - pose proof (max_right_bound (it :: l) it (list_elem_of_here _ _)).
      pose proof (H it (list_elem_of_here _ _)). lia.
    - pose proof (proj2 (foldl_max_bound (λ it, li_y it + li_h it) (it :: l) 0) it
        (list_elem_of_here _ _)) as Hb. cbn beta in Hb.
      pose proof (H it (list_elem_of_here _ _)). unfold max_bottom_from0. lia. }
  assert (Hnil : items = [] ∨ items ≠ []) by (destruct items; auto).
  assert (Hfit : fitToViewport items =
    (λ it, mkItem (li_i it) (scaled (max_right items) (li_x it)) (li_y it)
             (Z.max 2 (scaled (max_right items) (li_w it))) (Z.max 2 (li_h it)) (li_cameraId it))
    <$> items).
  { destruct Hnil as [->|Hn]; [done|]. unfold fitToViewport. by rewrite Hpos. }
  rewrite Hfit. split_and!.
  - intros HM Hmin. rewrite <- (list_fmap_id items) at 2. apply list_fmap_ext.
    intros i it Hi. apply list_elem_of_lookup_2 in Hi. destruct (Hmin it Hi).
    unfold scaled. rewrite (proj2 (Z.ltb_ge _ _)) by done.
    destruct it; simpl in *. f_equal; lia.
  - rewrite <- list_fmap_compose. done.
  - intros it (x & -> & Hx)%list_elem_of_fmap. cbn. destruct (H x Hx) as (? & ? & ? & ?).
    pose proof (max_right_bound items x Hx).
    destruct (scaled_sum (max_right items) (li_x x) (li_w x)) as (? & ? & ? & ?); lia.
  - eexists. split; [reflexivity|]. reflexivity.
Qed.

Lemma fit_viewport_bounds_witness :
  fitToViewport [mkItem "c" 4 0 8 12 (Some "c"%string)] = [mkItem "c" 4 0 8 12 (Some "c"%string)].
Proof.
  apply (fit_viewport_bounds [mkItem "c" 4 0 8 12 (Some "c"%string)]).
  - intros it ->%list_elem_of_singleton. simpl. lia.
  - vm_compute. discriminate.
  - intros it ->%list_elem_of_singleton. simpl. lia.
Defined.

(** ** The component as a state machine

    One event per handler, effect and control of the component. *)

Inductive GridEvent :=
| EvValidate (cameras : list Camera)
| EvAutosave
| EvAddFreeform (cameraId : string)
| EvRemoveFreeform (cameraId : string)
| EvAssign (slot : nat) (cameraId : option string)
| EvPreset (p : Preset)
| EvName (name : string)
| EvCreateMode (m : GridMode)
| EvCreatePreset (p : Preset)
| EvCreate
| EvLoad (layout : SavedLayout)
| EvNew
| EvDelete (confirmed : bool) (name : string)
| EvConvert (cameras : list Camera)
| EvQuick (cameras : list Camera) (columns : Z)
| EvToggleEdit
| EvPicker (slot : Z)
| EvFreeformPicker (b : bool)
| EvDragStart (x y : Q) (it : LayoutItem)
| EvDragMove (width : option Q) (x y : Q)
| EvDragEnd
| EvResizeStart (x y : Q) (it : LayoutItem)
| EvResizeMove (width : option Q) (x y : Q)
| EvResizeEnd.

Definition grid_step (s : Grid) (e : GridEvent) : Grid :=
  match e with
  | EvValidate cameras => validate_assignments cameras s
  | EvAutosave => autosave s
  | EvAddFreeform id => handleAddFreeformCamera id s
  | EvRemoveFreeform id => handleRemoveFreeformCamera id s
  | EvAssign slot id => handleAssignCamera slot id s
  | EvPreset p => handleStaticPresetChange p s
  | EvName name => set_newLayoutName name s
  | EvCreateMode m => set_createMode m s
  | EvCreatePreset p => set_staticPreset p s
  | EvCreate => handleCreateLayout s
  | EvLoad layout => handleLoadLayout layout s
  | EvNew => handleNewLayout s
  | EvDelete confirmed name => handleDeleteLayout confirmed name s
  | EvConvert cameras => handleConvertLayout cameras s
  | EvQuick cameras columns => handleQuickLayout cameras columns s
  | EvToggleEdit => set_isEditing (negb (isEditing s)) s
  | EvPicker slot => set_pickerOpenSlot slot s
  | EvFreeformPicker b => set_showFreeformPicker b s
  | EvDragStart x y it => onDragStart x y it s
  | EvDragMove width x y => onDragMove width x y s
  | EvDragEnd => onDragEnd s
  | EvResizeStart x y it => onResizeStart x y it s
  | EvResizeMove width x y => onResizeMove width x y s
  | EvResizeEnd => onResizeEnd s
  end.

(** What the user interface offers in a state: the presets of the menu, the
    layouts of the toolbar; the cameras of the API have distinct ids. *)
Definition offered (s : Grid) (e : GridEvent) : Prop :=
  match e with
  | EvPreset p | EvCreatePreset p => p ∈ STATIC_PRESETS.*1
  | EvLoad layout => layout ∈ savedLayouts s
  | EvQuick cameras columns => NoDup (cam_id <$> cameras) ∧ 1 ≤ columns
  | _ => True
  end.

Inductive grid_run : Grid → Grid → Prop :=
| grid_done s : grid_run s s
| grid_more s e s' : offered s e → grid_run (grid_step s e) s' → grid_run s s'.

Definition preset_ok (p : Preset) : Prop := 1 ≤ pr_w p ∧ 1 ≤ pr_h p.

Definition items_ok (items : list LayoutItem) : Prop := NoDup (li_cameraId <$> items).

Record layout_ok (l : SavedLayout) : Prop := {
  lo_name : truthy_str (sl_name l) = true;
  lo_items : items_ok (sl_items l);
  lo_cols : 1 ≤ sl_cols l;
  lo_mode : is_Some (sl_mode l);
  lo_static : sl_mode l = Some Static → is_Some (static_content l);
  lo_preset : ∀ p, sl_staticPreset l = Some p → preset_ok p;
  lo_slots : ∀ a, sl_staticAssignments l = Some a → one_slot a
}.

Definition layouts_ok (ls : list SavedLayout) : Prop :=
  (∀ l, l ∈ ls → layout_ok l) ∧ NoDup (sl_name <$> ls).

(** The invariant: no camera is shown twice, in the current content or in any
    saved layout, on screen or in localStorage; layout names are unique; and the
    mode on screen is the mode the active layout is saved with. *)
Record grid_ok (s : Grid) : Prop := {
  go_slots : one_slot (staticAssignments s);
  go_items : items_ok (currentLayout s);
  go_cols : 1 ≤ cols s;
  go_preset : preset_ok (staticPreset s);
  go_saved : layouts_ok (savedLayouts s);
  go_disk : ∀ ls, localStorage s !! STORAGE_KEY = Some (SLayouts ls) → layouts_ok (migrate_layout <$> ls);
  go_active : truthy_str (activeLayoutName s) = true →
    ∃ l, l ∈ savedLayouts s ∧ sl_name l = activeLayoutName s ∧ sl_mode l = Some (gridMode s)
}.

Lemma one_slot_empty : one_slot ∅.
Proof. intros i j c H. by rewrite lookup_empty in H. Qed.

Lemma one_slot_filter (P : nat * string → Prop) `{!∀ x, Decision (P x)} m :
  one_slot m → one_slot (filter P m).
Proof. intros Hm i j c Hi Hj. apply map_lookup_filter_Some in Hi as [Hi _], Hj as [Hj _]. eauto. Qed.

Lemma one_slot_assign m slot id :
  one_slot m → one_slot (<[slot := id]> (filter (λ e : nat * string, e.2 ≠ id) m)).
Proof.
  intros H i j c Hi Hj.
  apply lookup_insert_Some in Hi as [[<- <-]|[Hi1 Hi]],
    Hj as [[? ?]|[Hj1 Hj]]; simplify_eq; [done|..].
  - apply map_lookup_filter_Some in Hj as [_ Hne]. by destruct Hne.
  - apply map_lookup_filter_Some in Hi as [_ Hne]. by destruct Hne.
  - apply map_lookup_filter_Some in Hi as [Hi _], Hj as [Hj _]. eauto.
Qed.

Lemma items_ok_fmap f items :
  (∀ it, li_cameraId (f it) = li_cameraId it) → items_ok items → items_ok (f <$> items).
Proof.
  intros Hf. unfold items_ok. rewrite <- list_fmap_compose.
  assert (li_cameraId ∘ f <$> items = li_cameraId <$> items) as ->; [|done].
  apply list_fmap_ext. intros i x _. apply Hf.
Qed.

Lemma items_ok_filter p items : items_ok items → items_ok (filter_where p items).
Proof.
  unfold items_ok, filter_where. induction items as [|it l IH]; [done|].
  rewrite fmap_cons, filter_cons. intros [Hit Hl]%NoDup_cons.
  destruct (decide _); [|auto]. rewrite fmap_cons. apply NoDup_cons; split; [|auto].
  intros Hin. apply Hit. apply list_elem_of_fmap in Hin as (x & E & Hx). rewrite E.
  apply list_elem_of_filter in Hx as [_ Hx]. apply list_elem_of_fmap. eauto.
Qed.

Lemma items_ok_fit items : items_ok items → items_ok (fitToViewport items).
Proof. unfold fitToViewport. destruct (_ || _); [done|]. by apply items_ok_fmap. Qed.

Lemma items_ok_static m p cams : one_slot m → items_ok (staticToFreeform m p cams).
Proof.
  intros H. unfold items_ok. rewrite staticToFreeform_ids.
  apply NoDup_fmap_2; [by intros ?? [= ->]|]. by apply NoDup_object_values.
Qed.

Lemma items_ok_default cams c h : NoDup (cam_id <$> cams) → items_ok (generateDefaultLayout cams c h).
Proof.
  intros H. unfold items_ok.
  assert (E : li_cameraId <$> generateDefaultLayout cams c h = Some <$> (cam_id <$> cams)).
  { apply list_eq. intros i. unfold generateDefaultLayout.
    rewrite !list_lookup_fmap, list_lookup_imap. by destruct (cams !! i). }
  rewrite E. apply NoDup_fmap_2; [by intros ?? [= ->]|done].
Qed.

Lemma one_slot_freeform items cams : items_ok items → one_slot (freeformToStatic items cams).2.
Proof.
  intros H. unfold freeformToStatic; simpl. apply fill_slots_one_slot.
  rewrite sort_by_Permutation. by apply items_ok_filter.
Qed.

Lemma static_preset_ok p : p ∈ STATIC_PRESETS.*1 → preset_ok p.
Proof.
  assert (H : Forall preset_ok STATIC_PRESETS.*1)
    by (unfold STATIC_PRESETS; repeat constructor; simpl; lia).
  rewrite Forall_forall in H. apply H.
Qed.

Lemma layouts_ok_filter p ls : layouts_ok ls → layouts_ok (filter_where p ls).
Proof.
  intros [Hl Hn]. split.
  - intros l [_ H]%elem_of_filter_where. auto.
  - unfold filter_where. clear Hl. induction ls as [|l ls IH]; [done|].
    rewrite filter_cons. rewrite fmap_cons in Hn. apply NoDup_cons in Hn as [Hl Hn].
    destruct (decide _); [|auto]. rewrite fmap_cons. apply NoDup_cons; split; [|auto].
    intros (x & E & Hx)%list_elem_of_fmap. apply Hl. rewrite E.
    apply list_elem_of_filter in Hx as [_ Hx]. apply list_elem_of_fmap. eauto.
Qed.

Lemma layouts_ok_fmap f ls :
  (∀ l, sl_name (f l) = sl_name l) → (∀ l, l ∈ ls → layout_ok l → layout_ok (f l)) →
  layouts_ok ls → layouts_ok (f <$> ls).
Proof.
  intros Hname Hf [Hl Hn]. split.
  - intros l' (l & -> & H)%list_elem_of_fmap. auto.
  - rewrite <- list_fmap_compose.
    assert (sl_name ∘ f <$> ls = sl_name <$> ls) as ->; [|done].
    apply list_fmap_ext. intros i x _. apply Hname.
Qed.

Lemma migrate_layout_ok l : layout_ok l → layout_ok (migrate_layout l).
Proof.
  intros []. destruct l as [name items c v mode pr asg]; simpl in *.
  destruct mode as [mode|]; [|by destruct lo_mode0]. constructor; simpl; eauto.
Qed.

Lemma layouts_ok_migrate ls : layouts_ok ls → layouts_ok (migrate_layout <$> ls).
Proof. apply layouts_ok_fmap; [done|]. intros l _. apply migrate_layout_ok. Qed.

Lemma layout_by_name ls a b :
  layouts_ok ls → a ∈ ls → b ∈ ls → sl_name a = sl_name b → a = b.
Proof. intros [_ H]. by apply NoDup_fmap_elem. Qed.

(** What a handler that rewrites the saved layouts owes to the invariant. *)
Lemma grid_ok_modify f s :
  grid_ok s → layouts_ok (f (savedLayouts s)) →
  (truthy_str (activeLayoutName s) = true →
   ∃ l, l ∈ f (savedLayouts s) ∧ sl_name l = activeLayoutName s ∧ sl_mode l = Some (gridMode s)) →
  grid_ok (modify_saved f s).
Proof.
  intros [] Hls Hact. unfold modify_saved, saveSavedLayouts. constructor; simpl; auto.
  intros ls. rewrite lookup_insert_eq. intros [= <-]. by apply layouts_ok_migrate.
Qed.

Lemma static_content_some l p a :
  static_content l = Some (p, a) →
  sl_mode l = Some Static ∧ sl_staticPreset l = Some p ∧ sl_staticAssignments l = Some a.
Proof.
  unfold static_content. destruct (sl_mode l) as [[]|], (sl_staticPreset l), (sl_staticAssignments l);
    naive_solver.
Qed.

Lemma static_content_none l :
  layout_ok l → static_content l = None → sl_mode l = Some Freeform.
Proof.
  intros [? ? ? [m Hm] Hs ? ?] Hn. rewrite Hm. destruct m; [|done].
  destruct (Hs Hm) as [x Hx]. congruence.
Qed.

Lemma disk_ok_other k v (m : gmap string Stored) :
  k ≠ STORAGE_KEY → (∀ ls, m !! STORAGE_KEY = Some (SLayouts ls) → layouts_ok (migrate_layout <$> ls)) →
  ∀ ls, <[k := v]> m !! STORAGE_KEY = Some (SLayouts ls) → layouts_ok (migrate_layout <$> ls).
Proof. intros Hk H ls. rewrite lookup_insert_ne by done. apply H. Qed.

Lemma handleLoadLayout_ok l s : l ∈ savedLayouts s → grid_ok s → grid_ok (handleLoadLayout l s).
Proof.
  intros Hl [Hslots Hitems Hcols Hp [Hls Hnd] Hdisk Hact]. pose proof (Hls l Hl) as Hlok.
  unfold handleLoadLayout. destruct (static_content l) as [[p a]|] eqn:E.
  - apply static_content_some in E as (Hm & Hpr & Ha). destruct Hlok.
    constructor; simpl; eauto; [done|by apply disk_ok_other].
  - pose proof (static_content_none l Hlok E). destruct Hlok.
    constructor; simpl; eauto; [|done|by apply disk_ok_other].
    destruct (Z.eqb_spec (sl_cols l) 0); lia.
Qed.

Lemma handleNewLayout_ok s : grid_ok s → grid_ok (handleNewLayout s).
Proof.
  intros []. constructor; simpl; auto; [|done].
  intros ls. rewrite lookup_delete_ne by done. auto.
Qed.

Lemma handleDeleteLayout_ok c n s : grid_ok s → grid_ok (handleDeleteLayout c n s).
Proof.
  intros Hok. unfold handleDeleteLayout. destruct c; simpl; [|done].
  destruct (String.eqb_spec (activeLayoutName s) n) as [E|E].
  - apply handleNewLayout_ok with (s := set_activeLayoutName EmptyString
      (modify_saved (filter_where (λ l, negb (String.eqb (sl_name l) n))) s)).
    assert (Hok' : grid_ok (set_activeLayoutName EmptyString s)) by (destruct Hok; by constructor).
    apply (grid_ok_modify (filter_where (λ l, negb (String.eqb (sl_name l) n))) _ Hok'); [|done].
    by apply layouts_ok_filter, Hok.
  - apply grid_ok_modify; [done|by apply layouts_ok_filter, Hok|].
    intros Ht. destruct (go_active s Hok Ht) as (l & Hl & Hn & Hm). exists l. split_and!; auto.
    apply elem_of_filter_where. split; [|done]. apply negb_true_iff, String.eqb_neq. congruence.
Qed.

Lemma new_layout_ok name s : truthy_str name = true → grid_ok s → layout_ok (new_layout name s).
Proof.
  intros Ht Hok. unfold new_layout.
  destruct (createMode s); constructor; simpl; try done; try apply NoDup_nil_2.
  - apply Hok.
  - intros p [= <-]. apply Hok.
  - intros a [= <-]. apply one_slot_empty.
Qed.

Lemma layouts_ok_replace l ls :
  layout_ok l → layouts_ok ls →
  layouts_ok (filter_where (λ x, negb (String.eqb (sl_name x) (sl_name l))) ls ++ [l]).
Proof.
  intros Hl Hls.
  destruct (layouts_ok_filter (λ x, negb (String.eqb (sl_name x) (sl_name l))) _ Hls) as [H1 H2].
  split.
  - intros x [H| ->%list_elem_of_singleton]%elem_of_app; auto.
  - rewrite fmap_app. apply NoDup_app. split_and!; [done| |apply NoDup_singleton].
    intros x (y & -> & [Hp _]%elem_of_filter_where)%list_elem_of_fmap.
    change (sl_name <$> [l]) with [sl_name l].
    rewrite list_elem_of_singleton. by apply negb_true_iff, String.eqb_neq in Hp.
Qed.

Lemma handleCreateLayout_ok s : grid_ok s → grid_ok (handleCreateLayout s).
Proof.
  intros Hok. unfold handleCreateLayout.
  destruct (truthy_str (trim (newLayoutName s))) eqn:Ht; simpl; [|done].
  set (name := trim (newLayoutName s)) in *.
  assert (Hname : sl_name (new_layout name s) = name ∧
                  sl_mode (new_layout name s) = Some (createMode s))
    by (unfold new_layout; by destruct (createMode s)).
  pose proof (layouts_ok_replace _ _ (new_layout_ok name s Ht Hok) (go_saved s Hok)) as Hls.
  rewrite (proj1 Hname) in Hls.
  assert (Hin : ∃ l, l ∈ filter_where (λ l, negb (String.eqb (sl_name l) name)) (savedLayouts s)
                         ++ [new_layout name s]
                 ∧ sl_name l = name ∧ sl_mode l = Some (createMode s)).
  { exists (new_layout name s). split; [|done].
    apply elem_of_app. right. by apply list_elem_of_singleton. }
  assert (Hdisk : ∀ ls, <[ACTIVE_LAYOUT_KEY := SName name]>
      (saveSavedLayouts (filter_where (λ l, negb (String.eqb (sl_name l) name)) (savedLayouts s)
                           ++ [new_layout name s]) (localStorage s)) !! STORAGE_KEY
      = Some (SLayouts ls) → layouts_ok (migrate_layout <$> ls)).
  { apply disk_ok_other; [done|]. intros ls. unfold saveSavedLayouts. rewrite lookup_insert_eq.
    intros [= <-]. by apply layouts_ok_migrate. }
  destruct Hok. destruct (createMode s) eqn:Hcm; constructor; simpl; auto; try done;
    try apply one_slot_empty; try apply NoDup_nil_2; rewrite Hcm; auto.
Qed.

(** The layout [autosave] writes back for the active layout. *)
Definition save_content (s : Grid) (l : SavedLayout) : SavedLayout :=
  match sl_mode l with
  | Some Static => mkLayout (sl_name l) (sl_items l) (sl_cols l) (sl_version l) (sl_mode l)
                     (Some (staticPreset s)) (Some (staticAssignments s))
  | _ => mkLayout (sl_name l) (currentLayout s) (cols s) (sl_version l) (sl_mode l)
           (sl_staticPreset l) (sl_staticAssignments l)
  end.

Lemma save_content_ok s l : grid_ok s → layout_ok l → layout_ok (save_content s l).
Proof.
  intros [] []. unfold save_content. destruct l as [name items c v [[]|] pr asg]; simpl in *;
    constructor; simpl; eauto; by intros ? [= <-].
Qed.

Lemma autosave_spec s :
  autosave s = if truthy_str (activeLayoutName s)
               then modify_saved (map_where (λ l, String.eqb (sl_name l) (activeLayoutName s))
                                    (save_content s)) s
               else s.
Proof.
  unfold autosave. destruct (truthy_str _); simpl; [|done]. unfold modify_saved.
  match goal with |- set_savedLayouts ?x _ = set_savedLayouts ?y _ => assert (x = y) as ->; [|done] end.
  apply list_fmap_ext. intros i l _. unfold save_content. by destruct (String.eqb _ _).
Qed.

Lemma layouts_ok_map_where p f ls :
  (∀ l, sl_name (f l) = sl_name l) → (∀ l, l ∈ ls → layout_ok l → layout_ok (f l)) →
  layouts_ok ls → layouts_ok (map_where p f ls).
Proof. intros Hn Hf. apply layouts_ok_fmap; intros l; destruct (p l); auto. Qed.

(** Rewriting the active layout keeps an active layout of the name. *)
Lemma active_map_where s f m :
  grid_ok s → truthy_str (activeLayoutName s) = true →
  (∀ l, sl_name (f l) = sl_name l) →
  (∀ l, sl_mode l = Some (gridMode s) → sl_mode (f l) = Some m) →
  ∃ l, l ∈ map_where (λ l, String.eqb (sl_name l) (activeLayoutName s)) f (savedLayouts s) ∧
       sl_name l = activeLayoutName s ∧ sl_mode l = Some m.
Proof.
  intros Hok Ht Hn Hm. destruct (go_active s Hok Ht) as (l & Hl & Hnl & Hml).
  exists (f l). rewrite Hn. split_and!; auto.
  unfold map_where. apply list_elem_of_fmap. exists l. by rewrite Hnl, String.eqb_refl.
Qed.

Lemma save_content_name s l : sl_name (save_content s l) = sl_name l.
Proof. unfold save_content. by destruct (sl_mode l) as [[]|]. Qed.

Lemma save_content_mode s l : sl_mode (save_content s l) = sl_mode l.
Proof. unfold save_content. by destruct (sl_mode l) as [[]|] eqn:?. Qed.

Lemma autosave_ok s : grid_ok s → grid_ok (autosave s).
Proof.
  intros Hok. rewrite autosave_spec. destruct (truthy_str _) eqn:Ht; [|done].
  apply grid_ok_modify; [done| |].
  - apply layouts_ok_map_where; [apply save_content_name| |apply Hok].
    intros l _. by apply save_content_ok.
  - intros _. apply active_map_where; [done|done|apply save_content_name|].
    intros l. by rewrite save_content_mode.
Qed.

Lemma handleConvertLayout_ok cams s : grid_ok s → grid_ok (handleConvertLayout cams s).
Proof.
  intros Hok. unfold handleConvertLayout. destruct (truthy_str _) eqn:Ht; simpl; [|done].
  destruct (gridMode s) eqn:Hg.
  - set (items := staticToFreeform _ _ _). set (c := pr_w _).
    set (s' := set_isEditing _ _).
    assert (Hi : items_ok items) by apply items_ok_static, Hok.
    assert (Hc : 1 ≤ c) by apply Hok.
    set (f := λ l, mkLayout (sl_name l) items c _ _ _ _).
    assert (Hf : layouts_ok (map_where (λ l, String.eqb (sl_name l) (activeLayoutName s)) f
                   (savedLayouts s))).
    { apply layouts_ok_map_where; [done| |apply Hok]. intros l _ []. constructor; simpl; eauto. done. }
    destruct (active_map_where s f Freeform Hok Ht) as (l & Hl); [done|done|].
    unfold modify_saved. destruct Hok. constructor; simpl; eauto.
    intros ls. unfold saveSavedLayouts. rewrite lookup_insert_eq. intros [= <-].
    by apply layouts_ok_migrate.
  - pose proof (one_slot_freeform _ cams (go_items s Hok)) as Ha.
    unfold freeformToStatic in *; simpl in *.
    set (p := best_preset _) in *. set (a := fill_slots _ _) in *.
    assert (Hp : preset_ok p) by apply best_preset_positive.
    set (f := λ l, mkLayout (sl_name l) _ _ _ (Some Static) (Some p) (Some a)).
    assert (Hf : layouts_ok (map_where (λ l, String.eqb (sl_name l) (activeLayoutName s)) f
                   (savedLayouts s))).
    { apply layouts_ok_map_where; [done| |apply Hok]. intros l _ [].
      constructor; simpl; eauto; by intros ? [= <-]. }
    destruct (active_map_where s f Static Hok Ht) as (l & Hl); [done|done|].
    unfold modify_saved. destruct Hok. constructor; simpl; eauto.
    intros ls. unfold saveSavedLayouts. rewrite lookup_insert_eq. intros [= <-].
    by apply layouts_ok_migrate.
Qed.

(** Replacing the items or the slots of the screen. *)
Lemma grid_ok_items items s : items_ok items → grid_ok s → grid_ok (set_currentLayout items s).
Proof. intros ? []. by constructor. Qed.

Lemma grid_ok_slots m s : one_slot m → grid_ok s → grid_ok (set_staticAssignments m s).
Proof. intros ? []. by constructor. Qed.

Lemma handleAddFreeformCamera_items id s :
  items_ok (currentLayout s) → items_ok (currentLayout (handleAddFreeformCamera id s)).
Proof.
  intros H. unfold handleAddFreeformCamera; simpl. destruct (existsb _ _) eqn:E; [done|].
  unfold items_ok. rewrite fmap_app. apply NoDup_app. split_and!; [done| |apply NoDup_singleton].
  intros x (it & -> & Hit)%list_elem_of_fmap. cbn. rewrite list_elem_of_singleton. intros Hid.
  enough (existsb (λ it, bool_decide (li_cameraId it = Some id)) (currentLayout s) = true) by congruence.
  apply existsb_exists. exists it. split; [by apply list_elem_of_In|by apply bool_decide_eq_true].
Qed.

Lemma items_ok_moved id f items :
  (∀ it, li_cameraId (f it) = li_cameraId it) → items_ok items →
  items_ok (fitToViewport (map_where (λ it, String.eqb (li_i it) id) f items)).
Proof.
  intros Hf Hi. apply items_ok_fit, items_ok_fmap; [|done]. intros it. by destruct (String.eqb _ _).
Qed.

Lemma grid_step_ok s e : offered s e → grid_ok s → grid_ok (grid_step s e).
Proof.
  intros Ho Hok. destruct e; simpl in *;
    try (destruct Hok; by constructor); auto using autosave_ok, handleLoadLayout_ok,
      handleNewLayout_ok, handleDeleteLayout_ok, handleCreateLayout_ok, handleConvertLayout_ok.
  - unfold validate_assignments. destruct (_ =? _)%nat; [done|].
    apply grid_ok_slots; [|done]. apply one_slot_filter, Hok.
  - pose proof (handleAddFreeformCamera_items cameraId s (go_items s Hok)) as Hi.
    destruct Hok. by constructor.
  - apply grid_ok_items; [|done]. by apply items_ok_filter, Hok.
  - unfold handleAssignCamera. destruct cameraId as [id|].
    + pose proof (one_slot_assign _ slot id (go_slots s Hok)). destruct Hok. by constructor.
    + assert (one_slot (delete slot (staticAssignments s))).
      { intros i j c [_ Hi]%lookup_delete_Some [_ Hj]%lookup_delete_Some. by eapply Hok. }
      destruct Hok. by constructor.
  - pose proof (static_preset_ok p Ho).
    pose proof (one_slot_filter (λ e, Z.of_nat e.1 < slots p) _ (go_slots s Hok)).
    destruct Hok. by constructor.
  - pose proof (static_preset_ok p Ho). destruct Hok. by constructor.
  - destruct Ho as [Hnd Hc]. pose proof (items_ok_default cameras columns (Z.max 4 (18 / columns)) Hnd).
    destruct Hok. by constructor.
  - unfold onDragStart. destruct (negb _); [done|]. destruct Hok. by constructor.
  - unfold onDragMove. destruct (draggingId s), (ghostItem s); try done.
    destruct (negb _); [done|]. destruct (getGridMetrics _). destruct Hok. by constructor.
  - unfold onDragEnd. destruct (draggingId s) as [id|], (ghostItem s) as [g|]; try done.
    destruct (negb _); [done|].
    pose proof (items_ok_moved id (set_li_pos (li_x g) (li_y g)) _ (λ _, eq_refl) (go_items s Hok)).
    destruct Hok. by constructor.
  - unfold onResizeStart. destruct (negb _); [done|]. destruct Hok. by constructor.
  - unfold onResizeMove. destruct (resizingId s), (ghostItem s); try done.
    destruct (negb _); [done|]. destruct (getGridMetrics _). destruct Hok. by constructor.
  - unfold onResizeEnd. destruct (resizingId s) as [id|], (ghostItem s) as [g|]; try done.
    destruct (negb _); [done|].
    pose proof (items_ok_moved id (set_li_size (li_w g) (li_h g)) _ (λ _, eq_refl) (go_items s Hok)).
    destruct Hok. by constructor.
Qed.

Definition disk_ok (ls : gmap string Stored) : Prop :=
  ∀ layouts, ls !! STORAGE_KEY = Some (SLayouts layouts) → layouts_ok (migrate_layout <$> layouts).

Lemma mount_grid_ok ls : disk_ok ls → grid_ok (mount_grid (initial_grid ls)).
Proof.
  intros Hd. unfold mount_grid. simpl.
  assert (Hls : layouts_ok (loadSavedLayouts ls)).
  { unfold loadSavedLayouts. destruct (ls !! STORAGE_KEY) as [[l| |]|] eqn:E; auto;
      split; try apply NoDup_nil_2; intros l Hl; by apply elem_of_nil in Hl. }
  destruct (find_where _ _) as [l|] eqn:E.
  - apply find_where_Some in E as [_ Hl]. pose proof (proj1 Hls l Hl) as Hlok.
    destruct (static_content l) as [[p a]|] eqn:Es.
    + apply static_content_some in Es as (? & ? & ?). destruct Hlok.
      constructor; simpl; eauto; [apply NoDup_nil_2|lia].
    + pose proof (static_content_none l Hlok Es). destruct Hlok.
      constructor; simpl; eauto; [apply one_slot_empty|split; simpl; lia].
  - constructor; simpl; auto; [apply one_slot_empty|apply NoDup_nil_2|lia|split; simpl; lia|done].
Qed.

(** C5. No camera is ever shown twice: starting from well-formed saved layouts,
    whatever the operator, the effects and the camera list do, in any order, each
    camera is in at most one slot and in at most one freeform item, on screen, in
    every saved layout and in localStorage; layout names stay unique; and the
    active layout is saved with the mode shown on screen. *)
Theorem grid_invariant (ls : gmap string Stored) (s : Grid)
  (Hd : disk_ok ls) (Hr : grid_run (mount_grid (initial_grid ls)) s) : grid_ok s.
Proof.
  pose proof (mount_grid_ok ls Hd) as H. induction Hr as [|s e s' Ho _ IH]; [done|].
  apply IH. by apply grid_step_ok.
Qed.

Lemma grid_invariant_witness :
  let s0 := mount_grid (initial_grid ∅) in
  let s1 := grid_step s0 (EvName " North gate ") in
  let s2 := grid_step s1 EvCreate in
  let s3 := grid_step s2 (EvAssign 0 (Some "cam-a"%string)) in
  let s4 := grid_step s3 (EvAssign 3 (Some "cam-a"%string)) in
  entries (staticAssignments s4) = [(3%nat, "cam-a"%string)] ∧ grid_ok s4.
Proof.
  intros s0 s1 s2 s3 s4. split; [vm_compute; reflexivity|].
  apply (grid_invariant ∅).
  - intros layouts H. by rewrite lookup_empty in H.
  - apply (grid_more _ (EvName " North gate ")); [exact I|].
    apply (grid_more _ EvCreate); [exact I|].
    apply (grid_more _ (EvAssign 0 (Some "cam-a"%string))); [exact I|].
    apply (grid_more _ (EvAssign 3 (Some "cam-a"%string))); [exact I|]. apply grid_done.
Defined.

(** What the screen shows of the active layout. *)
Definition same_content (s s' : Grid) : Prop :=
  gridMode s' = gridMode s ∧ activeLayoutName s' = activeLayoutName s ∧
  match gridMode s with
  | Static => staticPreset s' = staticPreset s ∧ staticAssignments s' = staticAssignments s
  | Freeform => currentLayout s' = currentLayout s ∧ cols s' = cols s
  end.

Lemma load_saved_content s l s' :
  grid_ok s → sl_name l = activeLayoutName s → sl_mode l = Some (gridMode s) →
  same_content s (handleLoadLayout (save_content s l) s').
Proof.
  intros Hok Hn Hm. unfold handleLoadLayout, save_content, static_content, same_content. rewrite Hm.
  destruct (gridMode s) eqn:E; simpl; [done|].
  pose proof (go_cols s Hok). destruct (Z.eqb_spec (cols s) 0); [lia|done].
Qed.

(** Switching to another layout and back restores the screen: the effect has
    saved the active layout before the switch, the other layout is not mixed up
    with it, and loading it again shows the same slots or the same items. *)
Theorem layout_switch_restores (s : Grid) (other : SavedLayout) (Hok : grid_ok s)
  (Ha : truthy_str (activeLayoutName s) = true)
  (Ho : other ∈ savedLayouts s) (Hne : sl_name other ≠ activeLayoutName s) :
  let s3 := autosave (handleLoadLayout other (autosave s)) in
  ∃ l, l ∈ savedLayouts s3 ∧ sl_name l = activeLayoutName s ∧
       same_content s (handleLoadLayout l s3).
Proof.
  intros s3. destruct (go_active s Hok Ha) as (l & Hl & Hn & Hm).
  exists (save_content s l). rewrite save_content_name. split_and!; [|done|by apply load_saved_content].
  assert (Hs1 : savedLayouts (autosave s) =
    map_where (λ l, String.eqb (sl_name l) (activeLayoutName s)) (save_content s) (savedLayouts s)).
  { rewrite autosave_spec, Ha. done. }
  assert (Hin : save_content s l ∈ savedLayouts (autosave s)).
  { rewrite Hs1. apply list_elem_of_fmap. exists l. by rewrite Hn, String.eqb_refl. }
  assert (Hs2 : savedLayouts (handleLoadLayout other (autosave s)) = savedLayouts (autosave s)).
  { unfold handleLoadLayout. by destruct (static_content other) as [[]|]. }
  assert (Hact : activeLayoutName (handleLoadLayout other (autosave s)) = sl_name other).
  { unfold handleLoadLayout. by destruct (static_content other) as [[]|]. }
  subst s3. generalize dependent (handleLoadLayout other (autosave s)). intros s2 Hs2 Hact.
  rewrite autosave_spec, Hact. destruct (truthy_str (sl_name other)); [|by rewrite Hs2].
  simpl. rewrite Hs2. apply list_elem_of_fmap. exists (save_content s l).
  rewrite save_content_name, Hn. rewrite (proj2 (String.eqb_neq _ _)) by congruence. done.
Qed.

Lemma elem_of_dedup l x : x ∈ dedup l ↔ x ∈ l.
Proof.
  unfold dedup. revert x. induction l as [|y l IH] using rev_ind; intros x; [done|].
  rewrite foldl_app, elem_of_app, list_elem_of_singleton. simpl.
  destruct (decide (y ∈ _)) as [Hy|Hy].
  - rewrite IH. apply IH in Hy. naive_solver.
  - rewrite elem_of_app, IH, list_elem_of_singleton. done.
Qed.

Lemma NoDup_dedup l : NoDup (dedup l).
Proof.
  unfold dedup. induction l as [|y l IH] using rev_ind; [apply NoDup_nil_2|].
  rewrite foldl_app. simpl. destruct (decide (y ∈ _)) as [Hy|Hy]; [done|].
  apply NoDup_app. split_and!; [done| |apply NoDup_singleton].
  intros z Hz ->%list_elem_of_singleton. done.
Qed.

Lemma NoDup_filter_where {A} (p : A → bool) l : NoDup l → NoDup (filter_where p l).
Proof. apply NoDup_filter. Qed.

(** The camera set reported to the timeline is exactly the set on screen:
    without duplicates, only cameras that are loaded, the ones assigned to a slot
    in static mode, the ones of the items in freeform mode, and none when no
    layout is active. *)
Theorem visible_cameras_exact (cams : list Camera) (s : Grid) :
  NoDup (visible_cameras cams s) ∧
  (∀ id, id ∈ visible_cameras cams s ↔
     truthy_str (activeLayoutName s) = true ∧ known_camera cams id = true ∧
     match gridMode s with
     | Static => ∃ slot, staticAssignments s !! slot = Some id
     | Freeform => ∃ it, it ∈ currentLayout s ∧ li_cameraId it = Some id
     end).
Proof.
  unfold visible_cameras. fold (known_camera cams).
  change (λ id : string, truthy_str id && existsb (λ c, String.eqb (cam_id c) id) cams)
    with (known_camera cams).
  destruct (truthy_str (activeLayoutName s)); simpl.
  2: { split; [apply NoDup_nil_2|]. intros id. split; [by intros ?%elem_of_nil|by intros (? & _)]. }
  destruct (gridMode s); split; intros.
  - apply NoDup_filter_where, NoDup_dedup.
  - rewrite elem_of_filter_where, elem_of_dedup. unfold object_values.
    rewrite list_elem_of_fmap. split.
    + intros (? & [k c] & -> & Hc%elem_of_entries). eauto.
    + intros (_ & ? & k & Hk). split; [done|]. exists (k, id). split; [done|by apply elem_of_entries].
  - apply NoDup_dedup.
  - rewrite elem_of_dedup, elem_of_filter_where, list_elem_of_omap. naive_solver.
Qed.

(** A wall with two layouts, for the concrete examples. *)
Definition demo_grid : Grid :=
  foldl grid_step (mount_grid (initial_grid ∅))
    [EvName "Gate"; EvCreate; EvAssign 1 (Some "cam-a"%string); EvAutosave;
     EvCreateMode Freeform; EvName "Yard"; EvCreate; EvAddFreeform "cam-b"; EvAutosave].

Lemma grid_run_ok s es :
  grid_ok s → (∀ s, Forall (offered s) es) → grid_ok (foldl grid_step s es).
Proof.
  revert s. induction es as [|e es IH]; intros s Hok Ho; simpl; [done|].
  apply IH.
  - apply grid_step_ok; [|done]. specialize (Ho s). by inversion Ho.
  - intros s'. specialize (Ho s'). by inversion Ho.
Qed.

Lemma demo_grid_ok : grid_ok demo_grid.
Proof.
  apply grid_run_ok.
  - apply mount_grid_ok. intros layouts H. by rewrite lookup_empty in H.
  - intros s. repeat constructor.
Qed.

Lemma layout_switch_restores_witness :
  ∃ other l, sl_name other = "Gate"%string ∧
    same_content demo_grid
      (handleLoadLayout l (autosave (handleLoadLayout other (autosave demo_grid)))).
Proof.
  assert (Ho : ∃ o, o ∈ savedLayouts demo_grid ∧ sl_name o = "Gate"%string).
  { eexists. split; [vm_compute; left|reflexivity]. }
  destruct Ho as (o & Ho & Hn).
  destruct (layout_switch_restores demo_grid o demo_grid_ok) as (l & _ & _ & H);
    [vm_compute; reflexivity|done|rewrite Hn; vm_compute; discriminate|].
  exists o, l. done.
Defined.

Lemma migrate_key_lookup old new m k :
  old ≠ new →
  migrate_key old new m !! k =
  match m !! old, m !! new with
  | Some v, None => if decide (k = new) then Some v else if decide (k = old) then None else m !! k
  | _, _ => m !! k
  end.
Proof.
  intros Hne. unfold migrate_key. destruct (m !! old) as [v|] eqn:Eo; [|done].
  destruct (m !! new) as [w|] eqn:En; [by rewrite decide_False by done|].
  rewrite decide_True by done.
  destruct (decide (k = new)) as [->|].
  - by rewrite lookup_delete_ne, lookup_insert_eq by done.
  - destruct (decide (k = old)) as [->|]; [by rewrite lookup_delete_eq|].
    by rewrite lookup_delete_ne, lookup_insert_ne by done.
Qed.

(** The storage migration moves a legacy layout list (or active name) to its
    new key exactly when the new key is free, so it never overwrites what the
    renamed application has saved, never loses a legacy value, touches no other
    key, and does nothing the second time. *)
Theorem migration_safe (m : gmap string Stored) :
  let m' := migrateLegacyLayoutKeys m in
  (∀ old new, (old, new) ∈ [(LEGACY_STORAGE_KEY, STORAGE_KEY);
                            (LEGACY_ACTIVE_LAYOUT_KEY, ACTIVE_LAYOUT_KEY)] →
     (m !! new ≠ None → m' !! new = m !! new ∧ m' !! old = m !! old) ∧
     (m !! new = None → m' !! new = m !! old ∧ m' !! old = None)) ∧
  (∀ k, k ∉ [LEGACY_STORAGE_KEY; STORAGE_KEY; LEGACY_ACTIVE_LAYOUT_KEY; ACTIVE_LAYOUT_KEY] →
     m' !! k = m !! k) ∧
  migrateLegacyLayoutKeys m' = m'.
Proof.
  intros m'. assert (Hm' : ∀ k, m' !! k =
    match m !! LEGACY_ACTIVE_LAYOUT_KEY, m !! ACTIVE_LAYOUT_KEY with
    | Some v, None => if decide (k = ACTIVE_LAYOUT_KEY) then Some v
                      else if decide (k = LEGACY_ACTIVE_LAYOUT_KEY) then None
                      else migrate_key LEGACY_STORAGE_KEY STORAGE_KEY m !! k
    | _, _ => migrate_key LEGACY_STORAGE_KEY STORAGE_KEY m !! k
    end).
  { intros k. unfold m', migrateLegacyLayoutKeys. rewrite migrate_key_lookup by done.
    rewrite !(migrate_key_lookup LEGACY_STORAGE_KEY) by done.
    by destruct (m !! LEGACY_STORAGE_KEY), (m !! STORAGE_KEY). }
  assert (Hfix : ∀ old new k, old ≠ new → (m' !! new = None → m' !! old = None) →
                 migrate_key old new m' !! k = m' !! k).
  { intros old new k Hne H. rewrite migrate_key_lookup by done.
    destruct (m' !! old) eqn:Eo, (m' !! new) eqn:En; try done. by specialize (H eq_refl). }
  assert (Hpair : ∀ old new, (old, new) ∈ [(LEGACY_STORAGE_KEY, STORAGE_KEY);
                            (LEGACY_ACTIVE_LAYOUT_KEY, ACTIVE_LAYOUT_KEY)] →
     (m !! new ≠ None → m' !! new = m !! new ∧ m' !! old = m !! old) ∧
     (m !! new = None → m' !! new = m !! old ∧ m' !! old = None)).
  { intros old new [[= -> ->]|[[= -> ->]|[]%elem_of_nil]%elem_of_cons]%elem_of_cons;
      rewrite !Hm', !migrate_key_lookup by done;
      destruct (m !! LEGACY_STORAGE_KEY) eqn:?, (m !! STORAGE_KEY) eqn:?,
        (m !! LEGACY_ACTIVE_LAYOUT_KEY) eqn:?, (m !! ACTIVE_LAYOUT_KEY) eqn:?;
      simpl; naive_solver. }
  split_and!; [done| |].
  - intros k Hk. rewrite Hm', migrate_key_lookup by done. rewrite !not_elem_of_cons in Hk.
    destruct Hk as (? & ? & ? & ? & _).
    destruct (m !! LEGACY_STORAGE_KEY), (m !! STORAGE_KEY),
        (m !! LEGACY_ACTIVE_LAYOUT_KEY), (m !! ACTIVE_LAYOUT_KEY); by rewrite ?decide_False by done.
  - apply map_eq. intros k. unfold migrateLegacyLayoutKeys at 1.
    assert (E : migrate_key LEGACY_STORAGE_KEY STORAGE_KEY m' = m').
    { apply map_eq. intros k'. apply Hfix; [done|].
      destruct (Hpair LEGACY_STORAGE_KEY STORAGE_KEY) as [H1 H2]; [left|].
      destruct (m !! STORAGE_KEY) eqn:Es; [|intros _; by apply H2].
      destruct H1 as [H1 _]; [done|]. rewrite H1. done. }
    rewrite E. apply Hfix; [done|].
    destruct (Hpair LEGACY_ACTIVE_LAYOUT_KEY ACTIVE_LAYOUT_KEY) as [H1 H2]; [right; left|].
    destruct (m !! ACTIVE_LAYOUT_KEY) eqn:Es; [|intros _; by apply H2].
    destruct H1 as [H1 _]; [done|]. rewrite H1. done.
Qed.
