(* ===== verification/Http.v ===== *)
(** * The browser's network layer

    An effect monad for the API clients: requests, responses, cookies and
    navigation, with the query-string and header operations the clients use.  The
    network and the cookie jar are the environment of the monad: arbitrary
    functions of what has been requested before, so a stateful server, a lost
    connection or a cookie that changes between two requests are all covered. *)

From S2P Require Import Prelude Types.
From stdpp Require Import pretty.
From Stdlib Require Import QArith.
#[local] Open Scope Z_scope.

(** ** Strings *)

(** [s.split(sep)] for a non-empty separator. *)
Fixpoint split_go (sep s : string) (skip : nat) : list string :=
  match s with
  | EmptyString => [EmptyString]
  | String c s' =>
      match skip with
      | S k => split_go sep s' k
      | O =>
          if String.prefix sep s then EmptyString :: split_go sep s' (String.length sep - 1)
          else match split_go sep s' 0 with
               | x :: r => String c x :: r
               | [] => []
               end
      end
  end.

Definition js_split (sep s : string) : list string := split_go sep s 0.

Definition ascii_upper (c : Ascii.ascii) : Ascii.ascii :=
  let n := Ascii.N_of_ascii c in
  if ((97 <=? n) && (n <=? 122))%N then Ascii.ascii_of_N (n - 32) else c.

Definition ascii_lower (c : Ascii.ascii) : Ascii.ascii :=
  let n := Ascii.N_of_ascii c in
  if ((65 <=? n) && (n <=? 90))%N then Ascii.ascii_of_N (n + 32) else c.

Fixpoint map_string (f : Ascii.ascii → Ascii.ascii) (s : string) : string :=
  match s with EmptyString => EmptyString | String c s' => String (f c) (map_string f s') end.

(** Case conversion of ASCII text: methods and header names. *)
Definition toUpperCase : string → string := map_string ascii_upper.
Definition toLowerCase : string → string := map_string ascii_lower.

(** ** Percent encoding (on the UTF-8 bytes) *)

Definition hex_digit (n : N) : N := (if n <? 10 then 48 + n else 55 + n)%N.

Definition percent (n : N) : list N := [37; hex_digit (n / 16); hex_digit (n mod 16)]%N.

Definition is_alnum (n : N) : bool :=
  (((48 <=? n) && (n <=? 57)) || ((65 <=? n) && (n <=? 90)) || ((97 <=? n) && (n <=? 122)))%N.

(** [encodeURIComponent]: all but [A-Z a-z 0-9 - _ . ! ~ * ' ( )]. *)
Definition uri_safe (n : N) : bool :=
  is_alnum n || existsb (N.eqb n) [45; 95; 46; 33; 126; 42; 39; 40; 41]%N.

Definition encodeURIComponent (s : string) : string :=
  of_bytes (mjoin ((λ n, if uri_safe n then [n] else percent n) <$> bytes_of s)).

(** The serialiser of [URLSearchParams]: space becomes [+]. *)
Definition form_safe (n : N) : bool :=
  is_alnum n || existsb (N.eqb n) [42; 45; 46; 95]%N.

Definition form_byte (n : N) : list N :=
  if (n =? 32)%N then [43]%N else if form_safe n then [n] else percent n.

Definition form_encode (s : string) : string := of_bytes (mjoin (form_byte <$> bytes_of s)).

(** ** URLSearchParams *)

Definition QueryParams := list (string * string).

(** [params.set(k, v)] *)
Definition usp_set (k v : string) (p : QueryParams) : QueryParams :=
  match find_index (λ e, String.eqb e.1 k) p with
  | Some i => filter_where (λ e, negb (String.eqb e.1 k)) (take i p) ++ [(k, v)] ++
              filter_where (λ e, negb (String.eqb e.1 k)) (drop (S i) p)
  | None => p ++ [(k, v)]
  end.

Definition usp_toString (p : QueryParams) : string :=
  String.concat "&" ((λ e, form_encode e.1 +:+ "=" +:+ form_encode e.2)%string <$> p).

(** [if (v) params.set(k, v)] for an optional string. *)
Definition set_truthy (k : string) (v : option string) (p : QueryParams) : QueryParams :=
  match v with Some s => if truthy_str s then usp_set k s p else p | None => p end.

(** [if (v) params.set(k, String(v))] for an optional number. *)
Definition set_truthy_num (k : string) (v : option Z) (p : QueryParams) : QueryParams :=
  match v with Some n => if n =? 0 then p else usp_set k (pretty n) p | None => p end.

(** [if (v != null) params.set(k, String(v))] *)
Definition set_defined_num (k : string) (v : option Z) (p : QueryParams) : QueryParams :=
  match v with Some n => usp_set k (pretty n) p | None => p end.

(** ** Requests and responses *)

Inductive FormValue := FText (s : string) | FFile (name : string).

Inductive Body :=
| BJson (j : json)
| BForm (fields : list (string * FormValue)).

(** The [RequestInit] of a call. *)
Record Init := mkInit {
  in_method : option string;
  in_headers : list (string * string);
  in_body : option Body;
  in_keepalive : bool;
  in_signal : option nat
}.

Definition no_init : Init := mkInit None [] None false None.

Definition set_in_headers (h : list (string * string)) (i : Init) : Init :=
  mkInit (in_method i) h (in_body i) (in_keepalive i) (in_signal i).

(** What reaches the network. *)
Record Request := mkRequest {
  rq_url : string;
  rq_init : Init;
  rq_include : bool
}.

(** A response; reading its text or its JSON can reject. *)
Record Response := mkResponse {
  rs_status : Z;
  rs_statusText : string;
  rs_text : option string;
  rs_json : option json;
  rs_blob : option nat
}.

Definition rs_ok (r : Response) : bool := (200 <=? rs_status r) && (rs_status r <=? 299).

(** Header names are case-insensitive; [Headers] keeps them in lower case. *)
Definition Headers := list (string * string).

Definition headers_has (name : string) (h : Headers) : bool :=
  existsb (λ e, String.eqb e.1 (toLowerCase name)) h.

Definition headers_get (name : string) (h : Headers) : option string :=
  snd <$> find_where (λ e, String.eqb e.1 (toLowerCase name)) h.

Definition headers_set (name v : string) (h : Headers) : Headers :=
  filter_where (λ e, negb (String.eqb e.1 (toLowerCase name))) h ++ [(toLowerCase name, v)].

(** [new Headers(init)] *)
Definition new_Headers (l : list (string * string)) : Headers :=
  foldl (λ h e, headers_set e.1 e.2 h) [] l.

(** ** The monad *)

Inductive Effect :=
| EFetch (r : Request)
| ENavigate (url : string)
| EDownload (blob : nat) (filename : string)
| EStore (key : string) (j : json)
| EStoreText (key value : string)
| ERemove (key : string).

(** What an asynchronous call rejects with: an [Error] of the code, a failed
    connection, an unreadable body, or a property access on null. *)
Inductive Exn :=
| XError (msg : string)
| XNetwork
| XBody
| XType.

Inductive Result (A : Type) := Ok (a : A) | Err (e : Exn).
Arguments Ok {_} _.
Arguments Err {_} _.

Record Browser := mkBrowser {
  br_net : list Effect → Request → option Response;
  br_cookie : list Effect → string;
  br_storage : list Effect → string → option json;
  br_window : bool;
  br_document : bool
}.

(** Asynchronous code that reads the browser and appends to the effects. *)
Definition M (A : Type) : Type := Browser → list Effect → list Effect * Result A.

#[export] Instance M_ret : MRet M := λ A a _ l, (l, Ok a).

#[export] Instance M_bind : MBind M := λ A B f m b l,
  match m b l with
  | (l', Ok a) => f a b l'
  | (l', Err e) => (l', Err e)
  end.

Definition throw {A} (e : Exn) : M A := λ _ l, (l, Err e).

(** [try { m } catch (e) { h(e) }], also [m.catch(h)]. *)
Definition try_catch {A} (m : M A) (h : Exn → M A) : M A := λ b l,
  match m b l with
  | (l', Ok a) => (l', Ok a)
  | (l', Err e) => h e b l'
  end.

Lemma bind_ok {A B} (m : M A) (f : A → M B) b l l' a :
  m b l = (l', Ok a) → (m ≫= f) b l = f a b l'.
Proof. unfold mbind, M_bind. by intros ->. Qed.

Lemma bind_err {A B} (m : M A) (f : A → M B) b l l' e :
  m b l = (l', Err e) → (m ≫= f) b l = (l', Err e).
Proof. unfold mbind, M_bind. by intros ->. Qed.

Lemma bind_mret {A B} (a : A) (f : A → M B) : mret a ≫= f = f a.
Proof. done. Qed.

Definition emit (e : Effect) : M unit := λ _ l, (l ++ [e], Ok tt).

(** [fetch(url, init)] *)
Definition fetch (r : Request) : M Response := λ b l,
  match br_net b l r with
  | Some res => (l ++ [EFetch r], Ok res)
  | None => (l ++ [EFetch r], Err XNetwork)
  end.

Definition read_cookie : M string := λ b l, (l, Ok (br_cookie b l)).
Definition has_window : M bool := λ b l, (l, Ok (br_window b)).
Definition has_document : M bool := λ b l, (l, Ok (br_document b)).

Definition lift_body {A} (o : option A) : M A :=
  match o with Some a => mret a | None => throw XBody end.

(** [res.text()], [res.json()], [res.blob()] *)
Definition text (r : Response) : M string := lift_body (rs_text r).
Definition json_of (r : Response) : M json := lift_body (rs_json r).
Definition blob_of (r : Response) : M nat := lift_body (rs_blob r).

(** ** JSON values *)

(** [data.key] on a value that is neither null nor undefined. *)
Definition jget (key : string) (j : json) : option json :=
  match j with
  | JObj fs => snd <$> find_where (λ e, String.eqb e.1 key) fs
  | _ => None
  end.

(** [Array.isArray(data) ? data : []] *)
Definition as_array (j : option json) : json :=
  match j with Some (JArr l) => JArr l | _ => JArr [] end.

(** [data ?? d] *)
Definition nullish (j : option json) (d : json) : json :=
  match j with Some JNull | None => d | Some v => v end.

Definition jnum (z : Z) : json := JNum (inject_Z z).

(** An optional property of an object literal; [JSON.stringify] drops it when undefined. *)
Definition opt_prop (key : string) (o : option json) : list (string * json) :=
  match o with Some v => [(key, v)] | None => [] end.

(** JavaScript truthiness of a JSON value. *)
Definition truthy_json (j : json) : bool :=
  match j with
  | JNull => false
  | JBool b => b
  | JNum q => negb (Qeq_bool q 0)
  | JStr s => truthy_str s
  | JArr _ | JObj _ => true
  end.

(** The property of a value that may be null or undefined, [data?.key]. *)
Definition jget_opt (key : string) (j : option json) : option json := j ≫= jget key.

(** ** Numbers and dates in text *)

(** A number literal with [scale] decimals; [String(n)] drops trailing zeros.
    (Exact for the magnitudes the clients use, 1e-6 to 1e21.) *)
Record Decimal := mkDecimal { dec_num : Z; dec_scale : nat }.

Definition dec_value (d : Decimal) : Q := (dec_num d # Pos.of_nat (10 ^ dec_scale d)).

Fixpoint strip_zeros (l : list N) : list N :=
  match l with
  | (48%N as c) :: l' => match strip_zeros l' with [] => [] | r => c :: r end
  | c :: l' => c :: strip_zeros l'
  | [] => []
  end.

(** [String(n).padStart(width, '0')] *)
Definition pad_start (width : nat) (n : Z) : string :=
  let s := pretty n in of_bytes (replicate (width - String.length s) 48%N ++ bytes_of s).

Definition dec_to_string (d : Decimal) : string :=
  let p := 10 ^ Z.of_nat (dec_scale d) in
  let a := Z.abs (dec_num d) in
  let frac := strip_zeros (bytes_of (pad_start (dec_scale d) (a mod p))) in
  ((if (dec_num d <? 0)%Z then "-" else EmptyString) +:+ pretty (a / p)%Z +:+
   (if (dec_scale d =? 0)%nat || bool_decide (frac = []) then EmptyString
    else "." +:+ of_bytes frac))%string.

(** Days since the epoch to year, month, day. *)
Definition civil (days : Z) : Z * Z * Z :=
  let z := days + 719468 in
  let era := z / 146097 in
  let doe := z mod 146097 in
  let yoe := (doe - doe / 1460 + doe / 36524 - doe / 146096) / 365 in
  let doy := doe - (365 * yoe + yoe / 4 - yoe / 100) in
  let mp := (5 * doy + 2) / 153 in
  let d := doy - (153 * mp + 2) / 5 + 1 in
  let m := if mp <? 10 then mp + 3 else mp - 9 in
  (yoe + era * 400 + (if m <=? 2 then 1 else 0), m, d).

(** [new Date(ms).toISOString()] for the years 0 to 9999. *)
Definition toISOString (ms : Z) : string :=
  let '(y, m, d) := civil (ms / 86400000) in
  let t := ms mod 86400000 in
  (pad_start 4 y +:+ "-" +:+ pad_start 2 m +:+ "-" +:+ pad_start 2 d +:+ "T" +:+
   pad_start 2 (t / 3600000) +:+ ":" +:+ pad_start 2 (t / 60000 mod 60) +:+ ":" +:+
   pad_start 2 (t / 1000 mod 60) +:+ "." +:+ pad_start 3 (t mod 1000) +:+ "Z")%string.

(** ** Reading a query string back

    [parse_query] is the parser of [URLSearchParams]; it inverts [usp_toString],
    so no value can add, remove or change another parameter. *)

Definition unhex (n : N) : N := (if n <=? 57 then n - 48 else n - 55)%N.

Fixpoint form_decode_bytes (l : list N) : list N :=
  match l with
  | [] => []
  | c :: l' =>
      if (c =? 43)%N then 32%N :: form_decode_bytes l'
      else if (c =? 37)%N then
        match l' with
        | a :: b :: l'' => (16 * unhex a + unhex b)%N :: form_decode_bytes l''
        | _ => c :: form_decode_bytes l'
        end
      else c :: form_decode_bytes l'
  end.

Definition form_decode (s : string) : string := of_bytes (form_decode_bytes (bytes_of s)).

Definition parse_query (s : string) : QueryParams :=
  omap (λ piece,
    match js_split "=" piece with
    | k :: v :: _ => Some (form_decode k, form_decode v)
    | [k] => if truthy_str k then Some (form_decode k, EmptyString) else None
    | [] => None
    end) (js_split "&" s).

Definition has_char (c : Ascii.ascii) (s : string) : Prop := c ∈ String.list_ascii_of_string s.

Lemma split_no_sep c s : ¬ has_char c s → js_split (String c EmptyString) s = [s].
Proof.
  unfold js_split, has_char. induction s as [|a s IH]; simpl; [done|]. intros H.
  rewrite not_elem_of_cons in H. destruct H as [Hne H].
  destruct (Ascii.ascii_dec c a); [done|]. by rewrite IH.
Qed.

Lemma split_cons c x s :
  ¬ has_char c x →
  js_split (String c EmptyString) (x +:+ String c s) = x :: js_split (String c EmptyString) s.
Proof.
  unfold js_split, has_char. induction x as [|a x IH]; simpl; intros H.
  - destruct (Ascii.ascii_dec c c); [|done]. destruct s; done.
  - rewrite not_elem_of_cons in H. destruct H as [Hne H].
    destruct (Ascii.ascii_dec c a); [done|]. change (x ++ String c s)%string with (x +:+ String c s).
    by rewrite IH.
Qed.

Lemma split_concat c l :
  l ≠ [] → Forall (λ x, ¬ has_char c x) l →
  js_split (String c EmptyString) (String.concat (String c EmptyString) l) = l.
Proof.
  intros Hn. induction 1 as [|x l Hx Hl IH]; [done|].
  destruct l as [|y l]; [by apply split_no_sep|].
  transitivity (js_split (String c EmptyString)
    (x +:+ String c (String.concat (String c EmptyString) (y :: l)))); [done|].
  rewrite split_cons by done. f_equal. by apply IH.
Qed.

Lemma list_ascii_of_string_app s t :
  String.list_ascii_of_string (s +:+ t) = String.list_ascii_of_string s ++ String.list_ascii_of_string t.
Proof. induction s as [|a s IH]; simpl; [done|]. f_equal. exact IH. Qed.

Lemma bytes_of_bytes l : Forall (λ n, n < 256)%N l → bytes_of (of_bytes l) = l.
Proof.
  intros H. unfold bytes_of, of_bytes. rewrite String.list_ascii_of_string_of_list_ascii.
  induction H as [|n l Hn Hl IH]; simpl; [done|]. f_equal; [|done].
  by apply Ascii.N_ascii_embedding.
Qed.

Lemma of_bytes_of s : of_bytes (bytes_of s) = s.
Proof.
  unfold bytes_of, of_bytes. rewrite <- list_fmap_compose.
  transitivity (String.string_of_list_ascii (String.list_ascii_of_string s));
    [|apply String.string_of_list_ascii_of_string]. f_equal.
  rewrite <- (list_fmap_id (String.list_ascii_of_string s)) at 2.
  apply list_fmap_ext. intros i x _. apply Ascii.ascii_N_embedding.
Qed.

Lemma bytes_of_bound s : Forall (λ n, n < 256)%N (bytes_of s).
Proof.
  unfold bytes_of. apply Forall_fmap, Forall_forall. intros c _. apply Ascii.N_ascii_bounded.
Qed.

(** The finitely many bytes, checked by computation. *)
Definition all_bytes : list N := N.of_nat <$> seq 0 256.

Lemma in_all_bytes n : (n < 256)%N → In n all_bytes.
Proof.
  intros H. apply list_elem_of_In, list_elem_of_fmap. exists (N.to_nat n).
  split; [by rewrite N2Nat.id|]. apply elem_of_seq. lia.
Qed.

Lemma form_byte_checked n : (n < 256)%N →
  forallb (λ c, (c <? 256) && negb (c =? 38) && negb (c =? 61))%N (form_byte n) = true.
Proof.
  intros H. assert (Hall : forallb (λ n, forallb (λ c, (c <? 256) && negb (c =? 38) && negb (c =? 61))%N
                           (form_byte n)) all_bytes = true) by (vm_compute; reflexivity).
  rewrite forallb_forall in Hall. by apply Hall, in_all_bytes.
Qed.

Lemma form_byte_shape n : (n < 256)%N →
  (∃ a b, form_byte n = [37; a; b]%N ∧ (16 * unhex a + unhex b)%N = n) ∨
  (n = 32%N ∧ form_byte n = [43]%N) ∨ (form_byte n = [n] ∧ n ≠ 37%N ∧ n ≠ 43%N).
Proof.
  intros H.
  assert (Hall : forallb (λ n, match form_byte n with
      | [c] => ((c =? n) && negb (c =? 37) && negb (c =? 43)) || ((n =? 32) && (c =? 43))
      | [c; a; b] => (c =? 37) && ((16 * unhex a + unhex b) =? n)
      | _ => false end)%N all_bytes = true) by (vm_compute; reflexivity).
  rewrite forallb_forall in Hall. specialize (Hall n (in_all_bytes n H)).
  destruct (form_byte n) as [|c [|a [|b [|? ?]]]]; try done.
  - apply orb_prop in Hall as [Hall|Hall]; repeat (apply andb_prop in Hall as [Hall ?]);
      rewrite ?negb_true_iff, ?N.eqb_neq, ?N.eqb_eq in *; subst; auto.
  - apply andb_prop in Hall as [H1%N.eqb_eq H2%N.eqb_eq]. subst. eauto.
Qed.

Lemma form_decode_encode_bytes l :
  Forall (λ n, n < 256)%N l → form_decode_bytes (mjoin (form_byte <$> l)) = l.
Proof.
  induction 1 as [|n l Hn Hl IH]; [done|]. rewrite fmap_cons. change (mjoin (?a :: ?b)) with (a ++ mjoin b).
  destruct (form_byte_shape n Hn) as [(a & b & -> & E)|[[-> ->]|(-> & H1 & H2)]]; simpl.
  - by rewrite E, IH.
  - by rewrite IH.
  - apply N.eqb_neq in H1, H2. by rewrite H1, H2, IH.
Qed.

Lemma encoded_bytes l :
  Forall (λ n, n < 256)%N l →
  Forall (λ c, c < 256 ∧ c ≠ 38 ∧ c ≠ 61)%N (mjoin (form_byte <$> l)).
Proof.
  induction 1 as [|n l Hn Hl IH]; [constructor|]. rewrite fmap_cons. change (mjoin (?a :: ?b)) with (a ++ mjoin b).
  apply Forall_app; split; [|done]. apply Forall_forall. intros c Hc.
  pose proof (form_byte_checked n Hn) as H. rewrite forallb_forall in H.
  specialize (H c (proj1 (list_elem_of_In _ _) Hc)).
  apply andb_prop in H as [[H1 H2]%andb_prop H3].
  apply N.ltb_lt in H1. apply negb_true_iff, N.eqb_neq in H2, H3. done.
Qed.

Lemma form_decode_encode s : form_decode (form_encode s) = s.
Proof.
  unfold form_decode, form_encode. pose proof (bytes_of_bound s) as Hs.
  rewrite bytes_of_bytes.
  - by rewrite form_decode_encode_bytes, of_bytes_of.
  - eapply Forall_impl; [by apply encoded_bytes|]. by intros ? [].
Qed.

(** An encoded text holds no separator. *)
Lemma form_encode_no_sep c s :
  c = Ascii.ascii_of_N 38 ∨ c = Ascii.ascii_of_N 61 → ¬ has_char c (form_encode s).
Proof.
  intros Hc Hin. unfold has_char, form_encode, of_bytes in Hin.
  rewrite String.list_ascii_of_string_of_list_ascii in Hin.
  apply list_elem_of_fmap in Hin as (n & E & Hn).
  pose proof (encoded_bytes _ (bytes_of_bound s)) as H. rewrite Forall_forall in H.
  destruct (H n Hn) as (H1 & H2 & H3).
  apply (f_equal Ascii.N_of_ascii) in E. rewrite Ascii.N_ascii_embedding in E by done.
  destruct Hc as [->| ->]; vm_compute (Ascii.N_of_ascii _) in E; congruence.
Qed.

Definition amp : Ascii.ascii := Ascii.ascii_of_N 38.
Definition equals : Ascii.ascii := Ascii.ascii_of_N 61.

Lemma has_char_app c s t : has_char c (s +:+ t) ↔ has_char c s ∨ has_char c t.
Proof. unfold has_char. by rewrite list_ascii_of_string_app, elem_of_app. Qed.

Lemma parse_query_toString (p : QueryParams) : parse_query (usp_toString p) = p.
Proof.
  unfold parse_query, usp_toString. destruct p as [|e p]; [done|].
  change "&"%string with (String amp EmptyString). rewrite split_concat.
  - induction (e :: p) as [|[k v] l IH]; [done|]. rewrite fmap_cons. cbn [omap list_omap].
    change (k, v).1 with k. change (k, v).2 with v.
    change ((form_encode k +:+ "=" +:+ form_encode v)%string)
      with (form_encode k +:+ String equals (form_encode v)).
    change "="%string with (String equals EmptyString).
    rewrite split_cons, split_no_sep by (apply form_encode_no_sep; auto).
    rewrite !form_decode_encode. f_equal. exact IH.
  - done.
  - apply Forall_fmap, Forall_forall. intros [k v] _. simpl.
    change (String equals (form_encode v)) with (String equals EmptyString +:+ form_encode v).
    rewrite !has_char_app. intros [H|[H|H]].
    + eapply form_encode_no_sep; [|exact H]. auto.
    + unfold has_char in H. simpl in H. by apply list_elem_of_singleton in H.
    + eapply form_encode_no_sep; [|exact H]. auto.
Qed.

(** ** Reasoning about outcomes *)

Lemma bind_Ok_inv {A B} (m : M A) (f : A → M B) b l l' x :
  (m ≫= f) b l = (l', Ok x) → ∃ l1 a, m b l = (l1, Ok a) ∧ f a b l1 = (l', Ok x).
Proof. unfold mbind, M_bind. destruct (m b l) as [l1 [a|e]]; [eauto|done]. Qed.

(** Code without effects: reading a body, returning, throwing. *)
Definition Quiet {A} (m : M A) : Prop := ∀ b l, ∃ r, m b l = (l, r).

Lemma quiet_mret {A} (a : A) : Quiet (mret a).
Proof. intros b l. by eexists. Qed.

Lemma quiet_throw {A} e : Quiet (@throw A e).
Proof. intros b l. by eexists. Qed.

Lemma quiet_text r : Quiet (text r).
Proof. unfold text, lift_body. destruct (rs_text r); [apply quiet_mret|apply quiet_throw]. Qed.

Lemma quiet_json r : Quiet (json_of r).
Proof. unfold json_of, lift_body. destruct (rs_json r); [apply quiet_mret|apply quiet_throw]. Qed.

Lemma quiet_blob r : Quiet (blob_of r).
Proof. unfold blob_of, lift_body. destruct (rs_blob r); [apply quiet_mret|apply quiet_throw]. Qed.

Lemma quiet_bind {A B} (m : M A) (f : A → M B) : Quiet m → (∀ a, Quiet (f a)) → Quiet (m ≫= f).
Proof.
  intros Hm Hf b l. destruct (Hm b l) as [[a|e] E].
  - rewrite (bind_ok _ _ _ _ _ _ E). apply Hf.
  - rewrite (bind_err _ _ _ _ _ _ E). by eexists.
Qed.

Lemma quiet_try {A} (m : M A) h : Quiet m → (∀ e, Quiet (h e)) → Quiet (try_catch m h).
Proof.
  intros Hm Hh b l. unfold try_catch. destruct (Hm b l) as [[a|e] E]; rewrite E; [by eexists|apply Hh].
Qed.

Lemma quiet_if {A} (c : bool) (m n : M A) : Quiet m → Quiet n → Quiet (if c then m else n).
Proof. by destruct c. Qed.

#[export] Hint Resolve quiet_mret quiet_throw quiet_text quiet_json quiet_blob quiet_bind quiet_try
  quiet_if : quiet.

(** ** The digits of numbers *)

Definition digit_byte (n : N) : bool := ((48 <=? n) && (n <=? 57))%N.

Lemma pretty_char_byte (x : N) : (x < 10)%N → Ascii.N_of_ascii (pretty_N_char x) = (48 + x)%N.
Proof.
  intros H. assert (Hx : x ∈ [0; 1; 2; 3; 4; 5; 6; 7; 8; 9]%N) by (rewrite !elem_of_cons; lia).
  revert Hx. rewrite !elem_of_cons. intros Hx. repeat destruct Hx as [->|Hx]; try reflexivity. by apply elem_of_nil in Hx.
Qed.

Lemma go_digits (x : N) s : Forall (λ n, digit_byte n = true) (bytes_of s) → Forall (λ n, digit_byte n = true) (bytes_of (pretty_N_go x s)).
Proof.
  revert s. induction (N.lt_wf_0 x) as [x _ IH]; intros s Hs. destruct (decide (x = 0)%N) as [->|Hx]; [by rewrite pretty_N_go_0|].
  rewrite pretty_N_go_step by lia. apply IH; [apply N.div_lt; lia|]. unfold bytes_of. csimpl. constructor; [|done].
  pose proof (N.mod_lt x 10 ltac:(lia)). rewrite pretty_char_byte by done.
  generalize dependent (x mod 10)%N. intros d Hd. unfold digit_byte. apply andb_true_iff. split; apply N.leb_le; lia.
Qed.

Lemma pretty_bytes (z : Z) : Forall (λ n, digit_byte n = true ∨ n = 45%N) (bytes_of (pretty z)).
Proof.
  assert (H : ∀ p, Forall (λ n, digit_byte n = true ∨ n = 45%N) (bytes_of (pretty_N_go (Npos p) EmptyString))).
  { intros p. eapply Forall_impl; [by apply go_digits|]. simpl. auto. }
  destruct z as [|p|p]; [repeat constructor|apply H|]. change (pretty (Zneg p)) with ("-" +:+ pretty (Npos p))%string.
  unfold bytes_of. csimpl. constructor; [by right|apply H].
Qed.

(** A property of a concatenation of property lists. *)
Lemma jget_obj_app k l1 l2 :
  jget k (JObj (l1 ++ l2)%list) = match jget k (JObj l1) with Some v => Some v | None => jget k (JObj l2) end.
Proof.
  simpl. induction l1 as [|[k' v] l1 IH]; [done|]. simpl. rewrite !find_where_cons. simpl. destruct (String.eqb k' k); [done|exact IH].
Qed.
