(* ===== verification/AuthFetch.v ===== *)
(** * The authenticated fetch layer

    [authFetch] of [lib/api.ts] with its CSRF bootstrap, the throwing wrappers
    [apiFetch] ([lib/admin-api-helpers.ts]) and [fetchJSON]
    ([lib/ironsight-api.ts]), and the double-submit check of the backend they have
    to satisfy. *)

From S2P Require Import Prelude Types Http.
From stdpp Require Import pretty.
#[local] Open Scope Z_scope.

Definition API_BASE : string := "/api".

(** ** lib/api.ts *)

Definition CSRF_PREFIX : string := "ironsight_csrf=".

(** The value the [ironsight_csrf] cookie has in a cookie string. *)
Definition csrf_of_cookie (cookie : string) : string :=
  match find_where (String.prefix CSRF_PREFIX) (js_split "; " cookie) with
  | Some kv => default EmptyString (js_split "=" kv !! 1%nat)
  | None => EmptyString
  end.

Definition getCSRFToken : M string :=
  has_document ≫= λ d,
  if negb d then mret EmptyString else read_cookie ≫= λ c, mret (csrf_of_cookie c).

Definition csrf_request : Request := mkRequest (API_BASE +:+ "/auth/csrf") no_init true.

Definition bootstrapCSRFToken : M string :=
  try_catch
    (res ← fetch csrf_request;
     if negb (rs_ok res) then mret EmptyString
     else
       data ← try_catch (json_of res) (λ _, mret JNull);
       match truthy_json data, jget "csrf_token" data with
       | true, Some (JStr t) => mret t
       | _, _ => getCSRFToken
       end)
    (λ _, mret EmptyString).

Definition method_of (init : Init) : string := toUpperCase (default "GET"%string (in_method init)).

Definition is_mutation (init : Init) : bool :=
  negb (String.eqb (method_of init) "GET") && negb (String.eqb (method_of init) "HEAD") &&
  negb (String.eqb (method_of init) "OPTIONS").

Definition buildHeaders (init : Init) (csrf : string) : Headers :=
  let h := new_Headers (in_headers init) in
  if is_mutation init && truthy_str csrf then headers_set "X-CSRF-Token" csrf h else h.

(** The request [authFetch] sends with a given token. *)
Definition auth_request (input : string) (init : Init) (csrf : string) : Request :=
  mkRequest input (set_in_headers (buildHeaders init csrf) init) true.

(** The request, the recovery from a 403 and the redirect of a 401. *)
Definition send_with_recovery (input : string) (init : Init) (csrf : string) : M Response :=
  res0 ← fetch (auth_request input init csrf);
  res ← (if is_mutation init && (rs_status res0 =? 403)
         then fresh ← bootstrapCSRFToken;
              if truthy_str fresh && negb (String.eqb fresh csrf)
              then fetch (auth_request input init fresh)
              else mret res0
         else mret res0);
  window ← has_window;
  _ ← (if (rs_status res =? 401) && window then emit (ENavigate "/login") else mret tt);
  mret res.

Definition authFetch (input : string) (init : Init) : M Response :=
  csrf0 ← getCSRFToken;
  csrf ← (if is_mutation init && negb (truthy_str csrf0) then bootstrapCSRFToken else mret csrf0);
  send_with_recovery input init csrf.

(** ** lib/admin-api-helpers.ts *)

Definition json_content_type (init : Init) : Headers :=
  let headers := new_Headers (in_headers init) in
  if negb (headers_has "Content-Type" headers) && bool_decide (is_Some (in_body init))
  then headers_set "Content-Type" "application/json" headers else headers.

Definition apiFetch (url : string) (init : Init) : M Response :=
  res ← authFetch url (set_in_headers (json_content_type init) init);
  if rs_ok res then mret res
  else
    body ← try_catch (text res) (λ _, mret EmptyString);
    throw (XError (if truthy_str body then body
                   else (or_str (in_method init) "GET" +:+ " " +:+ url +:+ " failed (" +:+
                         pretty (rs_status res) +:+ ")")%string)).

Inductive Toast := mkToast (type title body : string) (duration : Z).

(** [e instanceof Error ? e.message : String(e)]; the texts of a failed
    connection and of an unreadable body are the browser's. *)
Definition error_message (browser_text : Exn → string) (e : Exn) : string :=
  match e with XError m => m | _ => browser_text e end.

Definition useApiAction (browser_text : Exn → string) (label : string) (fn : M unit) : M (bool * Toast) :=
  try_catch (_ ← fn; mret (true, mkToast "success" label EmptyString 2500))
    (λ e, mret (false, mkToast "error" (label +:+ " failed") (error_message browser_text e) 6000)).

(** ** lib/ironsight-api.ts *)

Definition BASE : string := "/api/v1".

(** [None] is the [undefined] of an empty reply. *)
Definition fetchJSON (url : string) (init : Init) : M (option json) :=
  res ← authFetch url (set_in_headers (json_content_type init) init);
  if negb (rs_ok res) then
    body ← try_catch (text res) (λ _, mret EmptyString);
    throw (XError (if truthy_str body then body
                   else ("API " +:+ pretty (rs_status res) +:+ ": " +:+ rs_statusText res)%string))
  else if rs_status res =? 204 then mret None
  else j ← json_of res; mret (Some j).

(** ** The double-submit check of the backend (internal/api/auth_handler.go) *)

(** The method a request is sent with: [fetch] upper-cases the standard names. *)
Definition sent_method (r : Request) : string := method_of (rq_init r).

(** Whether [CSRFMiddleware] lets a request through, given the value of the cookie. *)
Definition csrf_passes (cookie : string) (r : Request) : bool :=
  if negb (is_mutation (rq_init r)) then true
  else if negb (truthy_str cookie) then false
  else match headers_get "X-CSRF-Token" (in_headers (rq_init r)) with
       | Some h => truthy_str h && String.eqb h cookie
       | None => false
       end.

Definition forbidden : Response := mkResponse 403 "Forbidden" (Some "csrf token mismatch") None None.

(** [HandleCSRF]: the reply that carries the token. *)
Definition csrf_reply (token : string) : Response :=
  mkResponse 200 "OK" None (Some (JObj [("csrf_token"%string, JStr token)])) None.

(** The backend of a session whose CSRF token is [token], in front of a handler
    whose replies may depend on what has been requested. *)
Definition backend (token : string) (handler : list Effect → Request → option Response)
  (l : list Effect) (r : Request) : option Response :=
  if String.eqb (rq_url r) (rq_url csrf_request) then Some (csrf_reply token)
  else if csrf_passes token r then handler l r
  else Some forbidden.

(** The requests of a run that reached the handler. *)
Definition handled (token : string) (e : Effect) : bool :=
  match e with
  | EFetch r => negb (String.eqb (rq_url r) (rq_url csrf_request)) && csrf_passes token r
  | _ => false
  end.

(** ** Lemmas *)

Definition reply (o : option Response) : Result Response :=
  match o with Some r => Ok r | None => Err XNetwork end.

Lemma headers_get_set name v h : headers_get name (headers_set name v h) = Some v.
Proof.
  unfold headers_get, headers_set. set (k := toLowerCase name). clearbody k.
  assert (H : find_where (λ e : string * string, String.eqb e.1 k)
                (filter_where (λ e, negb (String.eqb e.1 k)) h ++ [(k, v)]) = Some (k, v)); [|by rewrite H].
  induction h as [|e h IH]; simpl.
  - rewrite find_where_cons. simpl. by rewrite String.eqb_refl.
  - unfold filter_where in *. rewrite filter_cons. destruct (decide _) as [E|E]; [|done].
    apply Is_true_true in E. simpl. rewrite find_where_cons.
    apply negb_true_iff in E. by rewrite E.
Qed.

Lemma is_mutation_headers h init : is_mutation (set_in_headers h init) = is_mutation init.
Proof. done. Qed.

(** Which header a mutation carries decides whether it passes. *)
Lemma csrf_passes_mutation input init token csrf :
  is_mutation init = true → truthy_str csrf = true →
  csrf_passes token (auth_request input init csrf) = String.eqb csrf token.
Proof.
  intros Hm Hc. unfold csrf_passes, auth_request, buildHeaders. cbn [rq_init].
  rewrite is_mutation_headers, Hm, Hc. cbn [in_headers set_in_headers negb andb].
  rewrite headers_get_set, Hc. simpl. destruct (truthy_str token) eqn:Ht; simpl; [done|].
  symmetry. apply String.eqb_neq. congruence.
Qed.

(** ** A session behind the double-submit check *)

Section session.
Context (b : Browser) (token : string) (handler : list Effect → Request → option Response).
Hypothesis Hnet : br_net b = backend token handler.
Hypothesis Htok : truthy_str token = true.

Lemma bootstrap_session l :
  bootstrapCSRFToken b l = (l ++ [EFetch csrf_request], Ok token).
Proof. unfold bootstrapCSRFToken, try_catch, mbind, M_bind, fetch. by rewrite Hnet. Qed.

Lemma fetch_current input init l :
  input ≠ rq_url csrf_request → is_mutation init = true →
  fetch (auth_request input init token) b l =
  (l ++ [EFetch (auth_request input init token)],
   match handler l (auth_request input init token) with Some r => Ok r | None => Err XNetwork end).
Proof.
  intros Hi Hm. unfold fetch. rewrite Hnet. unfold backend.
  rewrite (proj2 (String.eqb_neq _ _)) by done.
  rewrite csrf_passes_mutation, String.eqb_refl by done. by destruct (handler _ _).
Qed.

(** A stale token does not pass: the header does not match the cookie. *)
Lemma fetch_stale input init csrf l :
  input ≠ rq_url csrf_request → is_mutation init = true → truthy_str csrf = true → csrf ≠ token →
  fetch (auth_request input init csrf) b l =
  (l ++ [EFetch (auth_request input init csrf)], Ok forbidden).
Proof.
  intros Hi Hm Hc Hne. unfold fetch. rewrite Hnet. unfold backend.
  rewrite (proj2 (String.eqb_neq _ _)) by done.
  rewrite csrf_passes_mutation by done. by rewrite (proj2 (String.eqb_neq _ _)) by done.
Qed.

Definition not_handled (l : list Effect) : Prop := Forall (λ e, handled token e = false) l.

(** The delivery and what follows it: a 403 of the handler itself is not retried. *)
Lemma send_current input init l :
  input ≠ rq_url csrf_request → is_mutation init = true →
  ∃ post, send_with_recovery input init token b l =
          (l ++ EFetch (auth_request input init token) :: post,
           match handler l (auth_request input init token) with
           | Some r => Ok r | None => Err XNetwork end) ∧ not_handled post.
Proof.
  intros Hi Hm. unfold send_with_recovery, mbind, M_bind. rewrite fetch_current by done.
  destruct (handler _ _) as [res|]; [|by exists []; repeat constructor]. rewrite Hm. cbn [andb].
  destruct (rs_status res =? 403) eqn:E.
  - rewrite bootstrap_session, String.eqb_refl, andb_false_r. cbn.
    apply Z.eqb_eq in E. rewrite E. cbn. rewrite <- app_assoc. eexists.
    split; [done|]. by repeat constructor.
  - cbn. destruct ((rs_status res =? 401) && br_window b); cbn;
      rewrite <- ?app_assoc; eexists; (split; [done|]); by repeat constructor.
Qed.

(** A stale first attempt is followed by a new token and the delivery. *)
Lemma send_stale input init csrf l :
  input ≠ rq_url csrf_request → is_mutation init = true → truthy_str csrf = true → csrf ≠ token →
  let pre := [EFetch (auth_request input init csrf); EFetch csrf_request] in
  ∃ post, send_with_recovery input init csrf b l =
          (l ++ pre ++ EFetch (auth_request input init token) :: post,
           match handler (l ++ pre) (auth_request input init token) with
           | Some r => Ok r | None => Err XNetwork end) ∧ not_handled post.
Proof.
  intros Hi Hm Hc Hne pre. unfold send_with_recovery, mbind, M_bind.
  rewrite fetch_stale by done. rewrite Hm. cbn [andb rs_status forbidden].
  change (403 =? 403) with true. cbn beta iota.
  rewrite bootstrap_session, Htok, (proj2 (String.eqb_neq token csrf)) by congruence.
  cbn [andb negb]. rewrite <- app_assoc. change ([_] ++ [_]) with pre.
  rewrite fetch_current by done.
  destruct (handler _ _) as [res|]; [|exists []; rewrite <- app_assoc; by repeat constructor].
  cbn. destruct ((rs_status res =? 401) && br_window b); cbn;
    rewrite <- ?app_assoc; eexists; (split; [done|]); by repeat constructor.
Qed.
End session.

(** A mutation in a session: it is delivered once. *)
Lemma authFetch_mutation (b : Browser) (token input : string) (init : Init)
  (handler : list Effect → Request → option Response) (l : list Effect)
  (Hnet : br_net b = backend token handler) (Hdoc : br_document b = true)
  (Htok : truthy_str token = true) (Hm : is_mutation init = true)
  (Hi : input ≠ rq_url csrf_request) :
  let q := auth_request input init token in
  ∃ pre post,
    authFetch input init b l = (l ++ pre ++ EFetch q :: post, reply (handler (l ++ pre) q)) ∧
    not_handled token (pre ++ post) ∧ handled token (EFetch q) = true ∧ (length pre ≤ 2)%nat.
Proof.
  intros q.
  assert (Hq : ∀ csrf, truthy_str csrf = true →
    handled token (EFetch (auth_request input init csrf)) = String.eqb csrf token).
  { intros csrf Hc. unfold handled. rewrite (proj2 (String.eqb_neq _ _)) by done.
    by rewrite csrf_passes_mutation. }
  assert (Hq' : handled token (EFetch q) = true) by (unfold q; by rewrite Hq, String.eqb_refl).
  unfold authFetch, getCSRFToken. set (send := send_with_recovery input init).
  unfold mbind, M_bind, has_document, read_cookie. rewrite Hdoc, Hm. cbn.
  set (c0 := csrf_of_cookie (br_cookie b l)).
  destruct (truthy_str c0) eqn:Hc0; cbn; [destruct (decide (c0 = token)) as [E|E]|]; unfold send.
  - rewrite E. destruct (send_current b token handler Hnet Htok input init l Hi Hm) as (post & Hs & Hp).
    exists [], post. rewrite app_nil_r. split_and!; [exact Hs|done|done|simpl; lia].
  - destruct (send_stale b token handler Hnet Htok input init c0 l Hi Hm Hc0 E) as (post & Hs & Hp).
    eexists _, post. split_and!; [exact Hs| |done|simpl; lia].
    apply Forall_app; split; [|done]. repeat constructor.
    rewrite Hq by done. by apply String.eqb_neq.
  - rewrite (bootstrap_session b token handler Hnet l).
    destruct (send_current b token handler Hnet Htok input init (l ++ [EFetch csrf_request]) Hi Hm)
      as (post & Hs & Hp).
    exists [EFetch csrf_request], post. rewrite <- app_assoc in Hs. split_and!;
      [exact Hs| |done|simpl; lia]. apply Forall_app; split; [|done]. by repeat constructor.
Qed.

(** ** Any network *)

Lemma fetch_log q b l : ∃ r, fetch q b l = (l ++ [EFetch q], r).
Proof. unfold fetch. destruct (br_net b l q); eauto. Qed.

Lemma getCSRFToken_total b l : ∃ t, getCSRFToken b l = (l, Ok t).
Proof. unfold getCSRFToken, mbind, M_bind. cbn. destruct (br_document b); cbn; eauto. Qed.

(** The bootstrap makes one request and never fails. *)
Lemma bootstrap_total b l : ∃ t, bootstrapCSRFToken b l = (l ++ [EFetch csrf_request], Ok t).
Proof.
  destruct (getCSRFToken_total b (l ++ [EFetch csrf_request])) as [c Ec].
  unfold bootstrapCSRFToken, try_catch, mbind, M_bind, fetch.
  destruct (br_net b l csrf_request) as [res|]; [|by eexists].
  destruct (rs_ok res); cbn [negb]; [|by eexists].
  unfold json_of, lift_body. destruct (rs_json res) as [j|]; cbn.
  - destruct (truthy_json j), (jget "csrf_token" j) as [[]|]; rewrite ?Ec; by eexists.
  - rewrite Ec. by eexists.
Qed.

(** The effects of [authFetch]. *)
Definition is_send (e : Effect) : bool :=
  match e with EFetch q => negb (String.eqb (rq_url q) (rq_url csrf_request)) | _ => false end.
Definition nav_of (b : Browser) (r : Result Response) : list Effect :=
  match r with
  | Ok res => if (rs_status res =? 401) && br_window b then [ENavigate "/login"] else []
  | Err _ => []
  end.

Lemma send_tail b res l :
  (window ← has_window;
   _ ← (if (rs_status res =? 401) && window then emit (ENavigate "/login") else mret tt);
   mret res) b l = (l ++ nav_of b (Ok res), Ok res).
Proof.
  unfold mbind, M_bind. cbn. destruct ((rs_status res =? 401) && br_window b); cbn; [done|].
  by rewrite app_nil_r.
Qed.

(** One send, or two with a token fetch between them. *)
Lemma send_shape input init csrf b l :
  ∃ sends r, send_with_recovery input init csrf b l = (l ++ sends ++ nav_of b r, r) ∧
    (sends = [EFetch (auth_request input init csrf)] ∨
     is_mutation init = true ∧
     (sends = [EFetch (auth_request input init csrf); EFetch csrf_request] ∨
      ∃ t, sends = [EFetch (auth_request input init csrf); EFetch csrf_request;
                    EFetch (auth_request input init t)])).
Proof.
  unfold send_with_recovery.
  destruct (fetch_log (auth_request input init csrf) b l) as [[res0|e] E].
  2: { rewrite (bind_err _ _ _ _ _ _ E).
       exists [EFetch (auth_request input init csrf)], (Err e). auto. }
  rewrite (bind_ok _ _ _ _ _ _ E).
  destruct (is_mutation init && (rs_status res0 =? 403)) eqn:Hr.
  2: { rewrite bind_mret, send_tail. rewrite <- !app_assoc. do 2 eexists. split; [done|]. auto. }
  apply andb_prop in Hr as [Hm _].
  destruct (bootstrap_total b (l ++ [EFetch (auth_request input init csrf)])) as [t Et].
  set (again := λ fresh, if truthy_str fresh && negb (String.eqb fresh csrf) then _ else _).
  assert (Ha : ∃ more res, (bootstrapCSRFToken ≫= again) b (l ++ [EFetch (auth_request input init csrf)])
      = (l ++ EFetch (auth_request input init csrf) :: EFetch csrf_request :: more, res) ∧
      (more = [] ∨ ∃ t, more = [EFetch (auth_request input init t)])).
  { rewrite (bind_ok _ _ _ _ _ _ Et). unfold again.
    destruct (truthy_str t && negb (String.eqb t csrf)).
    - destruct (fetch_log (auth_request input init t) b
        ((l ++ [EFetch (auth_request input init csrf)]) ++ [EFetch csrf_request])) as [r E2].
      rewrite E2, <- !app_assoc. do 2 eexists. split; [done|]. eauto.
    - rewrite <- app_assoc. do 2 eexists. split; [done|]. auto. }
  destruct Ha as (more & [res|e] & Ha & Hmore).
  - rewrite (bind_ok _ _ _ _ _ _ Ha), send_tail. rewrite <- !app_assoc. do 2 eexists. split; [done|].
    right. split; [done|]. destruct Hmore as [->|[t' ->]]; eauto.
  - rewrite (bind_err _ _ _ _ _ _ Ha).
    exists (EFetch (auth_request input init csrf) :: EFetch csrf_request :: more), (Err e).
    cbn [nav_of]. rewrite app_nil_r. split; [done|].
    right. split; [done|]. destruct Hmore as [->|[t' ->]]; eauto.
Qed.

(** A request that is not a mutation, in full. *)
Definition plain_request (input : string) (init : Init) : Request :=
  mkRequest input (set_in_headers (new_Headers (in_headers init)) init) true.

Lemma authFetch_get input init b l :
  is_mutation init = false →
  let q := plain_request input init in
  let r := reply (br_net b l q) in
  authFetch input init b l = (l ++ EFetch q :: nav_of b r, r).
Proof.
  intros Hm q r. unfold authFetch.
  destruct (getCSRFToken_total b l) as [c0 E0]. rewrite (bind_ok _ _ _ _ _ _ E0).
  rewrite Hm. cbn [andb]. rewrite bind_mret. unfold send_with_recovery.
  assert (Hq : auth_request input init c0 = q) by (unfold auth_request, buildHeaders; by rewrite Hm).
  rewrite Hq. unfold r, reply.
  assert (Hf : fetch q b l = (l ++ [EFetch q], reply (br_net b l q)))
    by (unfold fetch; by destruct (br_net b l q)).
  destruct (br_net b l q) as [res|]; cbn [reply] in Hf.
  - rewrite (bind_ok _ _ _ _ _ _ Hf), Hm. cbn [andb]. rewrite bind_mret, send_tail.
    by rewrite <- app_assoc.
  - by rewrite (bind_err _ _ _ _ _ _ Hf).
Qed.

(** A request of any method in a session. *)
Section delivered.
Context (b : Browser) (token input : string).
Context (handler : list Effect → Request → option Response).
Hypothesis Hnet : br_net b = backend token handler.
Hypothesis Hdoc : br_document b = true.
Hypothesis Htok : truthy_str token = true.
Hypothesis Hi : input ≠ rq_url csrf_request.

Lemma authFetch_delivered init l :
  let q := auth_request input init token in
  ∃ pre post,
    authFetch input init b l = (l ++ pre ++ EFetch q :: post, reply (handler (l ++ pre) q)) ∧
    not_handled token (pre ++ post) ∧ handled token (EFetch q) = true ∧
    (length pre ≤ if is_mutation init then 2 else 0)%nat.
Proof using Hdoc Hi Hnet Htok.
  intros q. destruct (is_mutation init) eqn:Hm; [by apply authFetch_mutation|].
  assert (Hq : q = plain_request input init)
    by (unfold q, auth_request, buildHeaders; by rewrite Hm).
  assert (Hpass : csrf_passes token q = true).
  { rewrite Hq. unfold csrf_passes, plain_request. cbn [rq_init]. by rewrite is_mutation_headers, Hm. }
  assert (Hne : String.eqb input (rq_url csrf_request) = false) by by apply String.eqb_neq.
  rewrite authFetch_get, <- Hq, Hnet by done. unfold backend, handled.
  change (rq_url q) with input. rewrite Hne, Hpass.
  exists [], (nav_of b (reply (handler l q))). rewrite app_nil_r. split_and!; [done| |done|simpl; lia].
  unfold nav_of. destruct (reply _); [destruct (_ && _)|]; by repeat constructor.
Qed.

(** What follows the delivery without effects only changes the result. *)
Lemma delivered_then {A} init l (k : Response → M A) (out : option Response → Result A) :
  (∀ res b l, k res b l = (l, out (Some res))) → out None = Err XNetwork →
  let q := auth_request input init token in
  ∃ pre post,
    (authFetch input init ≫= k) b l = (l ++ pre ++ EFetch q :: post, out (handler (l ++ pre) q)) ∧
    not_handled token (pre ++ post) ∧ handled token (EFetch q) = true ∧
    (length pre ≤ if is_mutation init then 2 else 0)%nat.
Proof using Hdoc Hi Hnet Htok.
  intros Hk Hnone q. destruct (authFetch_delivered init l) as (pre & post & E & H).
  exists pre, post. split; [|exact H]. fold q in E.
  destruct (handler (l ++ pre) q) as [res|]; cbn [reply] in E.
  - rewrite (bind_ok _ _ _ _ _ _ E). apply Hk.
  - by rewrite (bind_err _ _ _ _ _ _ E), Hnone.
Qed.
End delivered.

(** The message of a failed reply: its body, or a text made of the status. *)
Definition failure (res : Response) (msg : string) : Exn :=
  XError (match rs_text res with Some t => if truthy_str t then t else msg | None => msg end).

Definition apiFetch_outcome (url : string) (init : Init) (o : option Response) : Result Response :=
  match o with
  | None => Err XNetwork
  | Some res =>
      if rs_ok res then Ok res
      else Err (failure res (or_str (in_method init) "GET" +:+ " " +:+ url +:+ " failed (" +:+
                             pretty (rs_status res) +:+ ")"))
  end.

Definition fetchJSON_outcome (o : option Response) : Result (option json) :=
  match o with
  | None => Err XNetwork
  | Some res =>
      if negb (rs_ok res)
      then Err (failure res ("API " +:+ pretty (rs_status res) +:+ ": " +:+ rs_statusText res))
      else if rs_status res =? 204 then Ok None
      else match rs_json res with Some j => Ok (Some j) | None => Err XBody end
  end.

Lemma fetchJSON_delivered b token url handler init l :
  br_net b = backend token handler → br_document b = true → truthy_str token = true →
  url ≠ rq_url csrf_request →
  let q := auth_request url (set_in_headers (json_content_type init) init) token in
  ∃ pre post,
    fetchJSON url init b l = (l ++ pre ++ EFetch q :: post, fetchJSON_outcome (handler (l ++ pre) q)) ∧
    not_handled token (pre ++ post) ∧ handled token (EFetch q) = true ∧
    (length pre ≤ if is_mutation init then 2 else 0)%nat.
Proof.
  intros Hnet Hdoc Htok Hi.
  apply (delivered_then b token url handler Hnet Hdoc Htok Hi
           (set_in_headers (json_content_type init) init)); [|done].
  intros res b' l'. unfold fetchJSON_outcome, failure. destruct (rs_ok res); cbn [negb].
  - destruct (rs_status res =? 204); [done|]. unfold json_of, lift_body, mbind, M_bind.
    by destruct (rs_json res).
  - unfold text, lift_body, try_catch, mbind, M_bind. by destruct (rs_text res).
Qed.

Lemma apiFetch_delivered b token url handler init l :
  br_net b = backend token handler → br_document b = true → truthy_str token = true →
  url ≠ rq_url csrf_request →
  let q := auth_request url (set_in_headers (json_content_type init) init) token in
  ∃ pre post,
    apiFetch url init b l =
      (l ++ pre ++ EFetch q :: post, apiFetch_outcome url init (handler (l ++ pre) q)) ∧
    not_handled token (pre ++ post) ∧ handled token (EFetch q) = true ∧
    (length pre ≤ if is_mutation init then 2 else 0)%nat.
Proof.
  intros Hnet Hdoc Htok Hi.
  apply (delivered_then b token url handler Hnet Hdoc Htok Hi
           (set_in_headers (json_content_type init) init)); [|done].
  intros res b' l'. unfold apiFetch_outcome, failure. destruct (rs_ok res); [done|].
  unfold text, lift_body, try_catch, mbind, M_bind. by destruct (rs_text res).
Qed.

(** C2. A request reaches the backend exactly once, whatever the CSRF cookie
    looks like: missing, current, or stale because it was rotated in another tab.
    [authFetch] returns the handler's own reply, [apiFetch] and [fetchJSON] the
    reply or an error with the server's text; a rejected first attempt and the
    token fetches never reach the handler, and only mutations cause them. *)
Theorem request_exactly_once (b : Browser) (token input : string) (init : Init)
  (handler : list Effect → Request → option Response) (l : list Effect)
  (Hnet : br_net b = backend token handler) (Hdoc : br_document b = true)
  (Htok : truthy_str token = true) (Hi : input ≠ rq_url csrf_request) :
  let once (pre post : list Effect) q :=
    not_handled token (pre ++ post) ∧ handled token (EFetch q) = true ∧
    (length pre ≤ if is_mutation init then 2 else 0)%nat in
  let q := auth_request input init token in
  let q' := auth_request input (set_in_headers (json_content_type init) init) token in
  (∃ pre post, once pre post q ∧
     authFetch input init b l = (l ++ pre ++ EFetch q :: post, reply (handler (l ++ pre) q))) ∧
  (∃ pre post, once pre post q' ∧
     apiFetch input init b l =
       (l ++ pre ++ EFetch q' :: post, apiFetch_outcome input init (handler (l ++ pre) q'))) ∧
  (∃ pre post, once pre post q' ∧
     fetchJSON input init b l =
       (l ++ pre ++ EFetch q' :: post, fetchJSON_outcome (handler (l ++ pre) q'))).
Proof.
  intros once q q'.
  destruct (authFetch_delivered b token input handler Hnet Hdoc Htok Hi init l) as (p1 & r1 & ? & ?).
  destruct (apiFetch_delivered b token input handler init l Hnet Hdoc Htok Hi) as (p2 & r2 & ? & ?).
  destruct (fetchJSON_delivered b token input handler init l Hnet Hdoc Htok Hi) as (p3 & r3 & ? & ?).
  split_and!; [exists p1, r1|exists p2, r2|exists p3, r3]; by split.
Qed.

(** A browser in a session: the cookie string shown to scripts is arbitrary. *)
Definition session_browser (token : string) (cookie : list Effect → string)
  (handler : list Effect → Request → option Response) : Browser :=
  mkBrowser (backend token handler) cookie (λ _ _, None) true true.

Definition post_init : Init := mkInit (Some "post"%string) [] None false None.

Lemma request_exactly_once_witness :
  let handler := λ (_ : list Effect) (_ : Request), Some (mkResponse 201 "Created" None None None) in
  let b := session_browser "new" (λ _, "theme=dark; ironsight_csrf=old"%string) handler in
  ∃ pre post,
    authFetch "/api/exports" post_init b [] =
      (pre ++ EFetch (auth_request "/api/exports" post_init "new") :: post,
       Ok (mkResponse 201 "Created" None None None)) ∧ (length pre ≤ 2)%nat.
Proof.
  intros handler b.
  destruct (request_exactly_once b "new" "/api/exports" post_init handler [] eq_refl eq_refl eq_refl
              ltac:(discriminate)) as ((pre & post & (_ & _ & Hl) & H) & _).
  exists pre, post. split; [exact H|exact Hl].
Defined.

(** Whatever the network does, [authFetch] sends the request at most twice
    and fetches at most two tokens; a request that is not a mutation is sent once,
    without a CSRF header and without a token fetch; every request carries the
    session cookie; and it navigates to the login page exactly when the reply it
    returns is a 401 and there is a window. *)
Theorem authFetch_bounded (b : Browser) (input : string) (init : Init) (l : list Effect) :
  ∃ sends r, authFetch input init b l = (l ++ sends ++ nav_of b r, r) ∧
    (∀ e, e ∈ sends → e = EFetch csrf_request ∨ ∃ t, e = EFetch (auth_request input init t)) ∧
    (length (filter_where is_send sends) ≤ 2)%nat ∧ (1 ≤ length sends ≤ 4)%nat ∧
    (∀ q, EFetch q ∈ sends → rq_include q = true) ∧
    (is_mutation init = false →
     sends = [EFetch (mkRequest input (set_in_headers (new_Headers (in_headers init)) init) true)]).
Proof.
  unfold authFetch.
  destruct (getCSRFToken_total b l) as [c0 E0]. rewrite (bind_ok _ _ _ _ _ _ E0).
  assert (Hnm : ∀ c, is_mutation init = false → auth_request input init c =
    mkRequest input (set_in_headers (new_Headers (in_headers init)) init) true).
  { intros c Hm. unfold auth_request, buildHeaders. by rewrite Hm. }
  assert (Hpre : ∃ pre c, (if is_mutation init && negb (truthy_str c0) then bootstrapCSRFToken
                           else mret c0) b l = (l ++ pre, Ok c) ∧
                 (pre = [] ∨ pre = [EFetch csrf_request] ∧ is_mutation init = true)).
  { destruct (is_mutation init && negb (truthy_str c0)) eqn:Hm.
    - apply andb_prop in Hm as [Hm _]. destruct (bootstrap_total b l) as [t Et].
      exists [EFetch csrf_request], t. auto.
    - exists [], c0. rewrite app_nil_r. auto. }
  destruct Hpre as (pre & c & Ep & Hpre). rewrite (bind_ok _ _ _ _ _ _ Ep).
  destruct (send_shape input init c b (l ++ pre)) as (sends & r & Es & Hs).
  exists (pre ++ sends), r. rewrite <- app_assoc in Es.
  split; [by rewrite Es, !app_assoc|].
  assert (Hin : ∀ e, e ∈ pre ++ sends → e = EFetch csrf_request ∨ ∃ t, e = EFetch (auth_request input init t)).
  { intros e. destruct Hpre as [->|[-> _]], Hs as [->|[_ [->|[t ->]]]]; set_solver. }
  split_and!; [done| | | | |].
  - transitivity (length (filter_where is_send sends)).
    + unfold filter_where. rewrite filter_app, length_app.
      by destruct Hpre as [->|[-> _]].
    + destruct Hs as [->|[_ [->|[t ->]]]]; unfold filter_where; rewrite !filter_cons;
        repeat destruct (decide _); simpl; lia || done.
  - rewrite length_app. destruct Hpre as [->|[-> _]], Hs as [->|[_ [->|[t ->]]]]; simpl; lia.
  - destruct Hpre as [->|[-> _]], Hs as [->|[_ [->|[t ->]]]]; simpl; lia.
  - intros q Hq. by destruct (Hin _ Hq) as [[= ->]|[t [= ->]]].
  - intros Hm. destruct Hpre as [->|[_ ?]], Hs as [->|[? _]]; try congruence. by rewrite Hnm.
Qed.
