(* ===== verification/ApiClient.v ===== *)
(** * The NVR API client

    Every exported function of [lib/api.ts]: the request it builds, how it treats
    error replies, and the fallback or exception its caller sees.  Reply payloads
    are JSON values; the TypeScript interfaces of the payloads are erased at run
    time and checked by nobody. *)

From S2P Require Import Prelude Types Http AuthFetch.
From stdpp Require Import pretty.
From Stdlib Require Import QArith.
#[local] Open Scope Z_scope.

(** ** Idioms of the client *)

(** [{ method, headers: { 'Content-Type': 'application/json' }, body: JSON.stringify(data) }] *)
Definition with_json (method : string) (data : json) : Init :=
  mkInit (Some method) [("Content-Type", "application/json")]%string (Some (BJson data)) false None.

(** [{ method }] *)
Definition with_method (method : string) : Init := mkInit (Some method) [] None false None.

(** [{ method, keepalive: true }] *)
Definition set_keepalive (i : Init) : Init :=
  mkInit (in_method i) (in_headers i) (in_body i) true (in_signal i).

(** [if (!res.ok) throw new Error(msg)] *)
Definition or_throw (res : Response) (msg : string) : M unit :=
  if rs_ok res then mret tt else throw (XError msg).

(** [if (!res.ok) throw new Error(await res.text())] *)
Definition or_throw_text (res : Response) : M unit :=
  if rs_ok res then mret tt else t ← text res; throw (XError t).

(** [if (!res.ok) { const text = await res.text(); throw new Error(text || msg) }] *)
Definition or_throw_text_or (res : Response) (msg : string) : M unit :=
  if rs_ok res then mret tt
  else t ← text res; throw (XError (if truthy_str t then t else msg)).

(** [try { ... } catch { return fallback }] *)
Definition or_else {A} (m : M A) (fallback : A) : M A := try_catch m (λ _, mret fallback).

(** [try { ...; return res.json() } catch { return fallback }] without [await]:
    the body is parsed after the [try] block has been left. *)
Definition then_json (m : M (json + Response)) (fallback : json) : M json :=
  r ← or_else m (inl fallback);
  match r with inl j => mret j | inr res => json_of res end.

Definition obj (l : list (string * json)) : json := JObj l.
Definition str (o : option string) : json := JStr (default EmptyString o).

(** ** Cameras *)

Inductive DeterrenceAction := Strobe | Siren | Both | AlarmOut.

Definition action_string (a : DeterrenceAction) : string :=
  match a with Strobe => "strobe" | Siren => "siren" | Both => "both" | AlarmOut => "alarm_out" end.

Definition fireDeterrence (cameraID : string) (action : DeterrenceAction)
  (durationSec : option Z) (reason alarmID : option string) : M json :=
  res ← authFetch (API_BASE +:+ "/cameras/" +:+ cameraID +:+ "/deterrence")
    (with_json "POST" (obj [("action"%string, JStr (action_string action));
                            ("duration_sec"%string, jnum (default 10 durationSec));
                            ("reason"%string, str reason);
                            ("alarm_id"%string, str alarmID)]));
  _ ← or_throw_text_or res
    ("fire " +:+ action_string action +:+ " failed (HTTP " +:+ pretty (rs_status res) +:+ ")");
  json_of res.

Record SearchParams := mkSearchParams {
  sp_start : option string;
  sp_end : option string;
  sp_camera_id : option string;
  sp_types : option (list string);
  sp_search : option string;
  sp_limit : option Z;
  sp_offset : option Z
}.

Definition search_query (p : SearchParams) : QueryParams :=
  set_defined_num "offset" (sp_offset p)
    (set_defined_num "limit" (sp_limit p)
       (set_truthy "search" (sp_search p)
          ((λ qs, match sp_types p with
                  | Some (t :: ts) => usp_set "types" (String.concat "," (t :: ts)) qs
                  | _ => qs
                  end)
             (set_truthy "camera_id" (sp_camera_id p)
                (set_truthy "end" (sp_end p) (set_truthy "start" (sp_start p) [])))))).

Definition no_events : json :=
  obj [("events"%string, JArr []); ("next_offset"%string, jnum 0);
       ("has_more"%string, JBool false); ("restricted"%string, JBool false)].

Definition searchEvents (p : SearchParams) : M json :=
  then_json
    (res ← authFetch (API_BASE +:+ "/search/events?" +:+ usp_toString (search_query p)) no_init;
     mret (if negb (rs_ok res) then inl no_events else inr res)) no_events.

Definition exportEvidenceURL (eventID : Z) (preSec postSec : option Z) : string :=
  let qStr := usp_toString (set_defined_num "post" postSec (set_defined_num "pre" preSec [])) in
  (API_BASE +:+ "/events/" +:+ pretty eventID +:+ "/export" +:+
   (if truthy_str qStr then "?" +:+ qStr else EmptyString))%string.

Inductive Activity := Low | Moderate | High.
Definition activity_string (a : Activity) : string :=
  match a with Low => "low" | Moderate => "moderate" | High => "high" end.

Record SemanticParams := mkSemanticParams {
  sm_q : string;
  sm_start : option string;
  sm_end : option string;
  sm_camera_id : option string;
  sm_activity : option Activity;
  sm_limit : option Z;
  sm_offset : option Z
}.

Definition semantic_query (p : SemanticParams) : QueryParams :=
  set_defined_num "offset" (sm_offset p)
    (set_defined_num "limit" (sm_limit p)
       (set_truthy "activity" (activity_string <$> sm_activity p)
          (set_truthy "camera_id" (sm_camera_id p)
             (set_truthy "end" (sm_end p) (set_truthy "start" (sm_start p)
                (usp_set "q" (sm_q p) [])))))).

Definition no_matches (q : string) : json :=
  obj [("query"%string, JStr q); ("results"%string, JArr []); ("total"%string, jnum 0);
       ("next_offset"%string, jnum 0); ("has_more"%string, JBool false);
       ("restricted"%string, JBool false)].

Definition searchSemantic (p : SemanticParams) : M json :=
  then_json
    (res ← authFetch (API_BASE +:+ "/search/semantic?" +:+ usp_toString (semantic_query p)) no_init;
     mret (if negb (rs_ok res) then inl (no_matches (sm_q p)) else inr res)) (no_matches (sm_q p)).

(** ** Health and usage *)

Definition getRecordingHealth : M json :=
  or_else
    (res ← authFetch (API_BASE +:+ "/recording/health") no_init;
     if negb (rs_ok res) then mret (JArr [])
     else data ← json_of res; mret (as_array (Some data))) (JArr []).

Definition no_services : json := obj [("services"%string, JArr [])].

(** [data?.key] of parsed data. *)
Definition opt_get (key : string) (data : json) : option json := jget key data.

Definition getServicesHealth : M json :=
  or_else
    (res ← authFetch (API_BASE +:+ "/system/services") no_init;
     if negb (rs_ok res) then mret no_services
     else
       data ← json_of res;
       mret (obj (("services"%string, as_array (opt_get "services" data)) ::
                  opt_prop "ai_stats" (opt_get "ai_stats" data)))) no_services.

Definition jdec (d : Decimal) : json := JNum (dec_value d).

Definition no_usage (days : Z) (yolo qwen : Decimal) : json :=
  obj [("window_days"%string, jnum days); ("cost_per_1k_yolo"%string, jdec yolo);
       ("cost_per_1k_qwen"%string, jdec qwen); ("total_cost"%string, jnum 0);
       ("sites"%string, JArr [])].

Definition getAIUsageBySite (days_ : option Z) (yolo_ qwen_ : option Decimal) : M json :=
  let days := default 7 days_ in
  let yolo := default (mkDecimal 5 2) yolo_ in
  let qwen := default (mkDecimal 50 2) qwen_ in
  or_else
    (res ← authFetch (API_BASE +:+ "/system/services/usage?days=" +:+ pretty days +:+
                      "&cost_per_1k_yolo=" +:+ dec_to_string yolo +:+
                      "&cost_per_1k_qwen=" +:+ dec_to_string qwen) no_init;
     if negb (rs_ok res) then mret (no_usage days yolo qwen)
     else
       data ← json_of res;
       mret (obj [("window_days"%string, nullish (opt_get "window_days" data) (jnum days));
                  ("cost_per_1k_yolo"%string, nullish (opt_get "cost_per_1k_yolo" data) (jdec yolo));
                  ("cost_per_1k_qwen"%string, nullish (opt_get "cost_per_1k_qwen" data) (jdec qwen));
                  ("total_cost"%string, nullish (opt_get "total_cost" data) (jnum 0));
                  ("sites"%string, as_array (opt_get "sites" data))]))
    (no_usage days yolo qwen).

Definition no_series (minutes : Z) : json :=
  obj [("window_minutes"%string, jnum minutes);
       ("series"%string, obj [("yolo"%string, JArr []); ("qwen"%string, JArr [])])].

Definition getAIMetricsTimeseries (minutes_ : option Z) : M json :=
  let minutes := default 60 minutes_ in
  or_else
    (res ← authFetch (API_BASE +:+ "/system/services/timeseries?minutes=" +:+ pretty minutes) no_init;
     if negb (rs_ok res) then mret (no_series minutes)
     else
       data ← json_of res;
       mret (obj [("window_minutes"%string, nullish (opt_get "window_minutes" data) (jnum minutes));
                  ("series"%string,
                   obj [("yolo"%string, as_array (jget_opt "yolo" (opt_get "series" data)));
                        ("qwen"%string, as_array (jget_opt "qwen" (opt_get "series" data)))])]))
    (no_series minutes).

Definition getSDStatus (cameraID : string) : M json :=
  or_else
    (res ← authFetch (API_BASE +:+ "/cameras/" +:+ cameraID +:+ "/sd/status") no_init;
     if negb (rs_ok res) then mret JNull else json_of res) JNull.

(** ** Camera management *)

Definition listCameras : M json :=
  or_else (res ← authFetch (API_BASE +:+ "/cameras") no_init;
           data ← json_of res; mret (as_array (Some data))) (JArr []).

Definition createCamera (data : json) : M json :=
  res ← authFetch (API_BASE +:+ "/cameras") (with_json "POST" data);
  _ ← or_throw_text_or res ("Failed to add camera (HTTP " +:+ pretty (rs_status res) +:+ ")");
  json_of res.

Definition updateCamera (id : string) (data : json) : M json :=
  res ← authFetch (API_BASE +:+ "/cameras/" +:+ id) (with_json "PATCH" data);
  json_of res.

Definition deleteCamera (id : string) : M unit :=
  _ ← authFetch (API_BASE +:+ "/cameras/" +:+ id) (with_method "DELETE");
  mret tt.

Definition rebootCamera (id : string) : M json :=
  res ← authFetch (API_BASE +:+ "/cameras/" +:+ id +:+ "/reboot") (with_method "POST");
  _ ← (if rs_ok res then mret tt
       else t ← or_else (text res) (rs_statusText res);
            throw (XError (if truthy_str t then t else "HTTP " +:+ pretty (rs_status res))));
  json_of res.

(** ** VCA rules *)

Definition listVCARules (cameraId : string) : M json :=
  res ← authFetch (API_BASE +:+ "/cameras/" +:+ cameraId +:+ "/vca/rules") no_init;
  if negb (rs_ok res) then mret (JArr []) else json_of res.

Definition createVCARule (cameraId : string) (data : json) : M json :=
  res ← authFetch (API_BASE +:+ "/cameras/" +:+ cameraId +:+ "/vca/rules") (with_json "POST" data);
  _ ← or_throw_text res;
  json_of res.

Definition updateVCARule (cameraId ruleId : string) (data : json) : M unit :=
  res ← authFetch (API_BASE +:+ "/cameras/" +:+ cameraId +:+ "/vca/rules/" +:+ ruleId)
    (with_json "PUT" data);
  or_throw_text res.

Definition deleteVCARule (cameraId ruleId : string) : M unit :=
  _ ← authFetch (API_BASE +:+ "/cameras/" +:+ cameraId +:+ "/vca/rules/" +:+ ruleId)
    (with_method "DELETE");
  mret tt.

Definition getVCASnapshotURL (cameraId : string) : string :=
  (API_BASE +:+ "/cameras/" +:+ cameraId +:+ "/vca/snapshot")%string.

Definition syncCameraVCAZones (cameraId : string) : M json :=
  res ← authFetch (API_BASE +:+ "/cameras/" +:+ cameraId +:+ "/sync-zones") (with_method "POST");
  _ ← or_throw_text res;
  json_of res.

Definition discoverCameras : M json :=
  res ← authFetch (API_BASE +:+ "/discover") (with_method "POST");
  _ ← or_throw res "Failed to discover cameras";
  data ← json_of res;
  mret (if truthy_json data then data else JArr []).

(** The object URL of the fetched blob is named by the blob. *)
Definition getDevicePreview (address username password : string) : M nat :=
  res ← authFetch (API_BASE +:+ "/discover/preview")
    (with_json "POST" (obj [("address"%string, JStr address); ("username"%string, JStr username);
                            ("password"%string, JStr password)]));
  _ ← or_throw res "Failed to fetch preview";
  blob_of res.

(** ** Events, timeline and exports *)

Record EventParams := mkEventParams {
  ep_start : string;
  ep_end : string;
  ep_camera_id : option string;
  ep_camera_ids : option (list string);
  ep_types : option string;
  ep_search : option string;
  ep_limit : option Z
}.

Definition event_query (p : EventParams) : QueryParams :=
  let query := usp_set "end" (ep_end p) (usp_set "start" (ep_start p) []) in
  let query :=
    match ep_camera_ids p with
    | Some (a :: b :: l) => usp_set "camera_ids" (String.concat "," (a :: b :: l)) query
    | Some [a] => usp_set "camera_id" a query
    | _ => set_truthy "camera_id" (ep_camera_id p) query
    end in
  set_truthy_num "limit" (ep_limit p)
    (set_truthy "search" (ep_search p) (set_truthy "types" (ep_types p) query)).

Definition queryEvents (p : EventParams) : M json :=
  or_else
    (res ← authFetch (API_BASE +:+ "/events?" +:+ usp_toString (event_query p)) no_init;
     data ← json_of res; mret (as_array (Some data))) (JArr []).

Definition timeline_query (start end_ : string) (camera_ids : option (list string))
  (interval : option Z) : QueryParams :=
  let query := usp_set "end" end_ (usp_set "start" start []) in
  let query :=
    match camera_ids with
    | Some (a :: l) => usp_set "camera_ids" (String.concat "," (a :: l)) query
    | _ => query
    end in
  set_truthy_num "interval" interval query.

Definition getTimeline (start end_ : string) (camera_ids : option (list string))
  (interval : option Z) : M json :=
  or_else
    (res ← authFetch (API_BASE +:+ "/timeline?" +:+
                      usp_toString (timeline_query start end_ camera_ids interval)) no_init;
     data ← json_of res; mret (as_array (Some data))) (JArr []).

Definition createExport (camera_id start_time end_time : string) : M json :=
  res ← authFetch (API_BASE +:+ "/exports")
    (with_json "POST" (obj [("camera_id"%string, JStr camera_id);
                            ("start_time"%string, JStr start_time);
                            ("end_time"%string, JStr end_time)]));
  json_of res.

Definition listExports : M json :=
  res ← authFetch (API_BASE +:+ "/exports") no_init;
  json_of res.

(** ** PTZ: fire and forget *)

Definition forget {A} (m : M A) : M unit := try_catch (_ ← m; mret tt) (λ _, mret tt).

Definition ptzMove (id : string) (pan tilt zoom : Q) : M unit :=
  forget (authFetch (API_BASE +:+ "/cameras/" +:+ id +:+ "/ptz/move")
    (set_keepalive (with_json "POST" (obj [("pan"%string, JNum pan); ("tilt"%string, JNum tilt);
                                           ("zoom"%string, JNum zoom)])))).

Definition ptzStop (id : string) : M unit :=
  forget (authFetch (API_BASE +:+ "/cameras/" +:+ id +:+ "/ptz/stop")
    (set_keepalive (with_method "POST"))).

Definition ptzPrewarm (id : string) : M unit :=
  forget (authFetch (API_BASE +:+ "/cameras/" +:+ id +:+ "/ptz/prewarm")
    (set_keepalive (with_method "POST"))).

(** ** Coverage, system and settings *)

Definition coverage_query (cameraIds : list string) (start end_ : Z) : QueryParams :=
  [("start"%string, toISOString start); ("end"%string, toISOString end_);
   ("camera_ids"%string, String.concat "," cameraIds)].

Definition fetchCoverage (cameraIds : list string) (start end_ : Z) : M json :=
  if (length cameraIds =? 0)%nat then mret (JArr [])
  else
    res ← authFetch (API_BASE +:+ "/timeline/coverage?" +:+
                     usp_toString (coverage_query cameraIds start end_)) no_init;
    if negb (rs_ok res) then mret (JArr []) else json_of res.

Definition getSystemHealth : M json :=
  res ← authFetch (API_BASE +:+ "/system/health") no_init;
  _ ← or_throw res "Failed to load system health";
  json_of res.

Definition getSettings : M json :=
  res ← authFetch (API_BASE +:+ "/settings") no_init;
  _ ← or_throw res "Failed to load settings";
  json_of res.

Definition updateSettings (data : json) : M json :=
  res ← authFetch (API_BASE +:+ "/settings") (with_json "PUT" data);
  _ ← or_throw_text res;
  json_of res.

(** ** Users *)

Definition listUsers : M json :=
  res ← authFetch (API_BASE +:+ "/users") no_init;
  _ ← or_throw res "Failed to load users";
  json_of res.

Definition createUser (data : json) : M json :=
  res ← authFetch (API_BASE +:+ "/users") (with_json "POST" data);
  _ ← or_throw_text res;
  json_of res.

Definition deleteUser (id : string) : M unit :=
  res ← authFetch (API_BASE +:+ "/users/" +:+ id) (with_method "DELETE");
  or_throw_text res.

Definition updateUserPassword (id password : string) : M unit :=
  res ← authFetch (API_BASE +:+ "/users/" +:+ id +:+ "/password")
    (with_json "PATCH" (obj [("password"%string, JStr password)]));
  or_throw_text res.

Definition updateUserRole (id role : string) : M unit :=
  res ← authFetch (API_BASE +:+ "/users/" +:+ id +:+ "/role")
    (with_json "PATCH" (obj [("role"%string, JStr role)]));
  or_throw_text res.

Definition updateUserProfile (id : string) (data : json) : M json :=
  res ← authFetch (API_BASE +:+ "/users/" +:+ id) (with_json "PATCH" data);
  _ ← or_throw_text res;
  json_of res.

(** ** Storage *)

(** [(await res.json()) ?? []] *)
Definition json_or_empty (res : Response) : M json :=
  data ← json_of res; mret (nullish (Some data) (JArr [])).

Definition listDrives : M json :=
  res ← authFetch (API_BASE +:+ "/storage/drives") no_init;
  if negb (rs_ok res) then mret (JArr []) else json_or_empty res.

Definition browsePath (path : string) : M json :=
  res ← authFetch (API_BASE +:+ "/storage/browse?path=" +:+ encodeURIComponent path) no_init;
  if negb (rs_ok res) then mret (JArr []) else json_or_empty res.

Definition getDiskUsage (path : string) : M json :=
  res ← authFetch (API_BASE +:+ "/storage/disk-usage?path=" +:+ encodeURIComponent path) no_init;
  if negb (rs_ok res) then mret JNull else json_of res.

Definition listStorageLocations : M json :=
  res ← authFetch (API_BASE +:+ "/storage/locations") no_init;
  if negb (rs_ok res) then mret (JArr []) else json_or_empty res.

Definition createStorageLocation (data : json) : M json :=
  res ← authFetch (API_BASE +:+ "/storage/locations") (with_json "POST" data);
  _ ← or_throw_text res;
  json_of res.

Definition updateStorageLocation (id : string) (data : json) : M unit :=
  res ← authFetch (API_BASE +:+ "/storage/locations/" +:+ id) (with_json "PUT" data);
  or_throw_text res.

Definition deleteStorageLocation (id : string) : M unit :=
  res ← authFetch (API_BASE +:+ "/storage/locations/" +:+ id) (with_method "DELETE");
  or_throw_text res.

(** ** Speakers *)

Definition listSpeakers : M json :=
  res ← authFetch (API_BASE +:+ "/speakers") no_init;
  _ ← or_throw res "Failed to list speakers";
  json_of res.

Definition createSpeaker (data : json) : M json :=
  res ← authFetch (API_BASE +:+ "/speakers") (with_json "POST" data);
  _ ← or_throw_text res;
  json_of res.

Definition deleteSpeaker (id : string) : M unit :=
  res ← authFetch (API_BASE +:+ "/speakers/" +:+ id) (with_method "DELETE");
  or_throw_text res.

Definition playSpeakerMessage (speakerId messageId : string) : M json :=
  res ← authFetch (API_BASE +:+ "/speakers/" +:+ speakerId +:+ "/play/" +:+ messageId)
    (with_method "POST");
  _ ← or_throw_text res;
  json_of res.

Definition stopSpeakerPlayback : M unit :=
  _ ← authFetch (API_BASE +:+ "/speakers/stop") (with_method "POST");
  mret tt.

Definition listAudioMessages : M json :=
  res ← authFetch (API_BASE +:+ "/audio-messages") no_init;
  _ ← or_throw res "Failed to list audio messages";
  json_of res.

Definition uploadAudioMessage (name category file : string) : M json :=
  res ← authFetch (API_BASE +:+ "/audio-messages")
    (mkInit (Some "POST"%string) []
       (Some (BForm [("name"%string, FText name); ("category"%string, FText category);
                     ("file"%string, FFile file)])) false None);
  _ ← or_throw_text res;
  json_of res.

Definition deleteAudioMessage (id : string) : M unit :=
  res ← authFetch (API_BASE +:+ "/audio-messages/" +:+ id) (with_method "DELETE");
  or_throw_text res.

Definition getSpeakerInfo : M json :=
  res ← authFetch (API_BASE +:+ "/speaker-info") no_init;
  _ ← or_throw res "Failed to load speaker info";
  json_of res.

(** ** Audit log and playback *)

Definition audit_query (username action target_type : option string) (limit offset : option Z)
  : QueryParams :=
  set_truthy_num "offset" offset
    (set_truthy_num "limit" limit
       (set_truthy "target_type" target_type
          (set_truthy "action" action (set_truthy "username" username [])))).

Definition queryAuditLog (username action target_type : option string) (limit offset : option Z)
  : M json :=
  res ← authFetch (API_BASE +:+ "/audit?" +:+
                   usp_toString (audit_query username action target_type limit offset)) no_init;
  _ ← or_throw res "Failed to query audit log";
  json_of res.

Definition fetchPlaybackSegments (cameraId time : string) (signal : option nat) : M json :=
  res ← authFetch (API_BASE +:+ "/playback/" +:+ cameraId +:+ "?t=" +:+ time)
    (mkInit None [] None false signal);
  if negb (rs_ok res) then mret (JArr []) else json_of res.

(** ** PPE review, zones and compliance *)

(** [if (!res.ok) throw new Error(`what: ${res.status}`)] *)
Definition or_throw_status (res : Response) (what : string) : M unit :=
  or_throw res (what +:+ ": " +:+ pretty (rs_status res)).

Definition review_query (status camera_id : option string) (limit : option Z) (before : option string)
  : QueryParams :=
  set_truthy "before" before
    (set_truthy_num "limit" limit (set_truthy "camera_id" camera_id (set_truthy "status" status []))).

Definition getPendingReview (status camera_id : option string) (limit : option Z)
  (before : option string) : M json :=
  res ← authFetch (API_BASE +:+ "/v1/portal/pending-review?" +:+
                   usp_toString (review_query status camera_id limit before)) no_init;
  _ ← or_throw_status res "pending review";
  json_of res.

Definition submitReview (id status : string) (notes : option string) : M unit :=
  res ← authFetch (API_BASE +:+ "/v1/portal/pending-review/" +:+ id +:+ "/review")
    (with_json "POST" (obj (("status"%string, JStr status) :: opt_prop "notes" (JStr <$> notes))));
  or_throw_status res "submit review".

Definition listPPEZones (cameraId : string) : M json :=
  res ← authFetch (API_BASE +:+ "/cameras/" +:+ cameraId +:+ "/ppe/zones") no_init;
  if negb (rs_ok res) then mret (JArr []) else json_of res.

Definition createPPEZone (cameraId : string) (data : json) : M json :=
  res ← authFetch (API_BASE +:+ "/cameras/" +:+ cameraId +:+ "/ppe/zones") (with_json "POST" data);
  _ ← or_throw_status res "create PPE zone";
  json_of res.

Definition updatePPEZone (cameraId zoneId : string) (data : json) : M unit :=
  res ← authFetch (API_BASE +:+ "/cameras/" +:+ cameraId +:+ "/ppe/zones/" +:+ zoneId)
    (with_json "PUT" data);
  or_throw_status res "update PPE zone".

Definition deletePPEZone (cameraId zoneId : string) : M unit :=
  res ← authFetch (API_BASE +:+ "/cameras/" +:+ cameraId +:+ "/ppe/zones/" +:+ zoneId)
    (with_method "DELETE");
  or_throw_status res "delete PPE zone".

Definition listComplianceRules (cameraId : string) : M json :=
  res ← authFetch (API_BASE +:+ "/cameras/" +:+ cameraId +:+ "/compliance-rules") no_init;
  if negb (rs_ok res) then mret (JArr []) else json_of res.

Definition createComplianceRule (cameraId : string) (data : json) : M json :=
  res ← authFetch (API_BASE +:+ "/cameras/" +:+ cameraId +:+ "/compliance-rules")
    (with_json "POST" data);
  _ ← or_throw_status res "create compliance rule";
  json_of res.

Definition updateComplianceRule (cameraId ruleId : string) (data : json) : M unit :=
  res ← authFetch (API_BASE +:+ "/cameras/" +:+ cameraId +:+ "/compliance-rules/" +:+ ruleId)
    (with_json "PUT" data);
  or_throw_status res "update compliance rule".

Definition deleteComplianceRule (cameraId ruleId : string) : M unit :=
  res ← authFetch (API_BASE +:+ "/cameras/" +:+ cameraId +:+ "/compliance-rules/" +:+ ruleId)
    (with_method "DELETE");
  or_throw_status res "delete compliance rule".

Inductive Period := Today | Week | Month | NinetyDays | Custom.

Definition period_string (p : Period) : string :=
  match p with
  | Today => "today" | Week => "week" | Month => "month" | NinetyDays => "90days" | Custom => "custom"
  end.

Record ComplianceParams := mkComplianceParams {
  cp_site_id : option string;
  cp_period : Period;
  cp_start_date : option string;
  cp_end_date : option string;
  cp_org : option string
}.

Definition compliance_query (p : ComplianceParams) : QueryParams :=
  set_truthy "org" (cp_org p)
    (set_truthy "end_date" (cp_end_date p)
       (set_truthy "start_date" (cp_start_date p)
          (set_truthy "site_id" (cp_site_id p)
             (usp_set "period" (period_string (cp_period p)) [])))).

Definition getComplianceSummary (p : ComplianceParams) : M json :=
  res ← authFetch (API_BASE +:+ "/v1/portal/compliance/summary?" +:+
                   usp_toString (compliance_query p)) no_init;
  _ ← or_throw_status res "compliance summary";
  json_of res.

Definition downloadComplianceReport (p : ComplianceParams) (include_findings : option bool) : M unit :=
  let qs := compliance_query p in
  let qs := match include_findings with
            | Some false => usp_set "include_findings" "false" qs
            | _ => qs
            end in
  res ← authFetch (API_BASE +:+ "/v1/portal/compliance/report.pdf?" +:+ usp_toString qs) no_init;
  _ ← or_throw_status res "compliance PDF";
  blob ← blob_of res;
  emit (EDownload blob ("ironsight-compliance-" +:+ period_string (cp_period p) +:+ ".pdf")).

(** ** Properties *)

(** The value of a parameter. *)
Definition qget (k : string) (q : QueryParams) : option string :=
  snd <$> find_where (λ e, String.eqb e.1 k) q.

(** What the events endpoint is asked for, from the request's own URL. *)
Definition asks_events (url : string) (p : EventParams) : Prop :=
  ∃ s, url = ("/api/events?" +:+ s)%string ∧
    let q := parse_query s in
    qget "start" q = Some (ep_start p) ∧ qget "end" q = Some (ep_end p) ∧
    match ep_camera_ids p with
    | Some (a :: b :: l) => qget "camera_ids" q = Some (String.concat "," (a :: b :: l)) ∧
                            qget "camera_id" q = None
    | Some [a] => qget "camera_id" q = Some a ∧ qget "camera_ids" q = None
    | _ => qget "camera_id" q = (if truthy_ostr (ep_camera_id p) then ep_camera_id p else None) ∧
           qget "camera_ids" q = None
    end ∧
    qget "types" q = (if truthy_ostr (ep_types p) then ep_types p else None) ∧
    qget "search" q = (if truthy_ostr (ep_search p) then ep_search p else None) ∧
    qget "limit" q = (if truthy_oZ (ep_limit p) then pretty <$> ep_limit p else None).

Lemma queryEvents_sends (p : EventParams) (b : Browser) (l : list Effect) :
  ∃ q nav, queryEvents p b l =
    (l ++ EFetch q :: nav,
     Ok (match br_net b l q with
         | Some res => as_array (rs_json res)
         | None => JArr []
         end)) ∧
    asks_events (rq_url q) p ∧ in_method (rq_init q) = None ∧ (∀ q', EFetch q' ∉ nav).
Proof.
  set (url := (API_BASE +:+ "/events?" +:+ usp_toString (event_query p))%string).
  exists (plain_request url no_init), (nav_of b (reply (br_net b l (plain_request url no_init)))).
  split_and!.
  - unfold queryEvents, or_else, try_catch. fold url.
    pose proof (authFetch_get url no_init b l eq_refl) as E. cbn zeta in E.
    destruct (br_net b l (plain_request url no_init)) as [res|]; cbn [reply] in *.
    + rewrite (bind_ok _ _ _ _ _ _ E). unfold json_of, lift_body.
      destruct (rs_json res) as [j|]; reflexivity.
    + by rewrite (bind_err _ _ _ _ _ _ E).
  - exists (usp_toString (event_query p)). split; [done|]. rewrite parse_query_toString.
    unfold event_query, set_truthy, set_truthy_num, truthy_ostr, truthy_oZ.
    destruct p as [st en cid cids ty se li]; cbn [ep_start ep_end ep_camera_id ep_camera_ids ep_types ep_search ep_limit].
    destruct cids as [[|a [|b' r]]|], cid as [cid|], ty as [ty|], se as [se|], li as [li|];
      try destruct (truthy_str cid); try destruct (truthy_str ty); try destruct (truthy_str se);
      try destruct (li =? 0); cbn; done.
  - done.
  - intros q'. unfold nav_of. destruct (reply _) as [res|]; [|by intros ?%elem_of_nil].
    destruct (_ && _); [|by intros ?%elem_of_nil]. by intros ?%list_elem_of_singleton.
Qed.

(** queryEvents asks for exactly what it was called with: one GET whose query
    string, parsed back, has the given bounds and filters, the camera scope as
    [camera_ids] for two cameras or more and as [camera_id] for one, and nothing
    else, whatever characters the values contain; it returns the reply if it is an
    array and the empty list in every other case, and never rejects. *)
Theorem events_request_exact (p : EventParams) (b : Browser) (l : list Effect) :
  ∃ q nav, queryEvents p b l =
    (l ++ EFetch q :: nav,
     Ok (match br_net b l q with
         | Some res => as_array (rs_json res)
         | None => JArr []
         end)) ∧
    asks_events (rq_url q) p ∧ in_method (rq_init q) = None ∧ (∀ q', EFetch q' ∉ nav).
Proof. apply queryEvents_sends. Qed.

(** ** Mutations *)

(** A call of the client with the request it is meant to make. *)
Record Call := mkCall {
  call_run : M unit;
  call_method : string;
  call_url : string;
  call_body : option Body
}.

Definition void {A} (m : M A) : M unit := _ ← m; mret tt.

(** Every state-changing function of the client, at arbitrary arguments. *)
Definition mutation_calls (id id' s s' s'' : string) (data : json) (n : option Z)
  (act : DeterrenceAction) (o o' : option string) (x y z : Q) : list Call :=
  let url path := (API_BASE +:+ path)%string in
  let cam path := (API_BASE +:+ "/cameras/" +:+ id +:+ path)%string in
  [ mkCall (void (fireDeterrence id act n o o')) "POST" (cam "/deterrence"%string)
      (Some (BJson (obj [("action"%string, JStr (action_string act));
                         ("duration_sec"%string, jnum (default 10 n));
                         ("reason"%string, str o); ("alarm_id"%string, str o')])));
    mkCall (void (createCamera data)) "POST" (url "/cameras"%string) (Some (BJson data));
    mkCall (void (updateCamera id data)) "PATCH" (API_BASE +:+ "/cameras/" +:+ id) (Some (BJson data));
    mkCall (deleteCamera id) "DELETE" (API_BASE +:+ "/cameras/" +:+ id) None;
    mkCall (void (rebootCamera id)) "POST" (cam "/reboot"%string) None;
    mkCall (void (createVCARule id data)) "POST" (cam "/vca/rules"%string) (Some (BJson data));
    mkCall (updateVCARule id id' data) "PUT" (cam ("/vca/rules/" +:+ id')%string) (Some (BJson data));
    mkCall (deleteVCARule id id') "DELETE" (cam ("/vca/rules/" +:+ id')%string) None;
    mkCall (void (syncCameraVCAZones id)) "POST" (cam "/sync-zones"%string) None;
    mkCall (void discoverCameras) "POST" (url "/discover"%string) None;
    mkCall (void (getDevicePreview s s' s'')) "POST" (url "/discover/preview"%string)
      (Some (BJson (obj [("address"%string, JStr s); ("username"%string, JStr s');
                         ("password"%string, JStr s'')])));
    mkCall (void (createExport id s s')) "POST" (url "/exports"%string)
      (Some (BJson (obj [("camera_id"%string, JStr id); ("start_time"%string, JStr s);
                         ("end_time"%string, JStr s')])));
    mkCall (ptzMove id x y z) "POST" (cam "/ptz/move"%string)
      (Some (BJson (obj [("pan"%string, JNum x); ("tilt"%string, JNum y); ("zoom"%string, JNum z)])));
    mkCall (ptzStop id) "POST" (cam "/ptz/stop"%string) None;
    mkCall (ptzPrewarm id) "POST" (cam "/ptz/prewarm"%string) None;
    mkCall (void (updateSettings data)) "PUT" (url "/settings"%string) (Some (BJson data));
    mkCall (void (createUser data)) "POST" (url "/users"%string) (Some (BJson data));
    mkCall (deleteUser id) "DELETE" (url ("/users/" +:+ id)%string) None;
    mkCall (updateUserPassword id s) "PATCH" (url ("/users/" +:+ id +:+ "/password")%string)
      (Some (BJson (obj [("password"%string, JStr s)])));
    mkCall (updateUserRole id s) "PATCH" (url ("/users/" +:+ id +:+ "/role")%string)
      (Some (BJson (obj [("role"%string, JStr s)])));
    mkCall (void (updateUserProfile id data)) "PATCH" (url ("/users/" +:+ id)%string) (Some (BJson data));
    mkCall (void (createStorageLocation data)) "POST" (url "/storage/locations"%string)
      (Some (BJson data));
    mkCall (updateStorageLocation id data) "PUT" (url ("/storage/locations/" +:+ id)%string)
      (Some (BJson data));
    mkCall (deleteStorageLocation id) "DELETE" (url ("/storage/locations/" +:+ id)%string) None;
    mkCall (void (createSpeaker data)) "POST" (url "/speakers"%string) (Some (BJson data));
    mkCall (deleteSpeaker id) "DELETE" (url ("/speakers/" +:+ id)%string) None;
    mkCall (void (playSpeakerMessage id id')) "POST"
      (url ("/speakers/" +:+ id +:+ "/play/" +:+ id')%string) None;
    mkCall stopSpeakerPlayback "POST" (url "/speakers/stop"%string) None;
    mkCall (void (uploadAudioMessage s s' s'')) "POST" (url "/audio-messages"%string)
      (Some (BForm [("name"%string, FText s); ("category"%string, FText s');
                    ("file"%string, FFile s'')]));
    mkCall (deleteAudioMessage id) "DELETE" (url ("/audio-messages/" +:+ id)%string) None;
    mkCall (submitReview id s o) "POST" (url ("/v1/portal/pending-review/" +:+ id +:+ "/review")%string)
      (Some (BJson (obj (("status"%string, JStr s) :: opt_prop "notes" (JStr <$> o)))));
    mkCall (void (createPPEZone id data)) "POST" (cam "/ppe/zones"%string) (Some (BJson data));
    mkCall (updatePPEZone id id' data) "PUT" (cam ("/ppe/zones/" +:+ id')%string) (Some (BJson data));
    mkCall (deletePPEZone id id') "DELETE" (cam ("/ppe/zones/" +:+ id')%string) None;
    mkCall (void (createComplianceRule id data)) "POST" (cam "/compliance-rules"%string)
      (Some (BJson data));
    mkCall (updateComplianceRule id id' data) "PUT" (cam ("/compliance-rules/" +:+ id')%string)
      (Some (BJson data));
    mkCall (deleteComplianceRule id id') "DELETE" (cam ("/compliance-rules/" +:+ id')%string) None ].

(** What it means that a call is delivered in a session. *)
Definition delivered (b : Browser) (token : string) (l : list Effect) (c : Call) : Prop :=
  ∃ pre q post r,
    call_run c b l = (l ++ pre ++ EFetch q :: post, r) ∧
    not_handled token (pre ++ post) ∧ handled token (EFetch q) = true ∧
    rq_url q = call_url c ∧ in_method (rq_init q) = Some (call_method c) ∧
    in_body (rq_init q) = call_body c.

Section delivery.
Context (b : Browser) (token : string) (handler : list Effect → Request → option Response).
Hypothesis Hnet : br_net b = backend token handler.
Hypothesis Hdoc : br_document b = true.
Hypothesis Htok : truthy_str token = true.

Lemma delivered_bind l url init (k : Response → M unit) m body :
  is_mutation init = true → url ≠ rq_url csrf_request → (∀ res, Quiet (k res)) →
  in_method init = Some m → in_body init = body →
  delivered b token l (mkCall (authFetch url init ≫= k) m url body).
Proof.
  intros Hm Hu Hk Hmeth Hbody.
  destruct (authFetch_mutation b token url init handler l Hnet Hdoc Htok Hm Hu)
    as (pre & post & E & Hnh & Hh & _).
  assert (Hr : ∃ r, (authFetch url init ≫= k) b l =
                    (l ++ pre ++ EFetch (auth_request url init token) :: post, r)).
  { destruct (reply _) as [res|e] in E.
    - rewrite (bind_ok _ _ _ _ _ _ E). apply Hk.
    - rewrite (bind_err _ _ _ _ _ _ E). by eexists. }
  destruct Hr as [r Hr]. exists pre, (auth_request url init token), post, r. by split_and!.
Qed.

Lemma delivered_ext l m m' me u bo :
  (∀ b l, m b l = m' b l) → delivered b token l (mkCall m me u bo) → delivered b token l (mkCall m' me u bo).
Proof. intros E. unfold delivered. cbn [call_run]. by rewrite E. Qed.

Lemma delivered_try l url init (k : Response → M unit) h m body :
  is_mutation init = true → url ≠ rq_url csrf_request → (∀ res, Quiet (k res)) → (∀ e, Quiet (h e)) →
  in_method init = Some m → in_body init = body →
  delivered b token l (mkCall (try_catch (authFetch url init ≫= k) h) m url body).
Proof.
  intros Hm Hu Hk Hh Hmeth Hbody.
  destruct (delivered_bind l url init k m body Hm Hu Hk Hmeth Hbody)
    as (pre & q & post & r & E & ? & ? & ? & ? & ?). cbn in *.
  assert (Hr : ∃ r', try_catch (authFetch url init ≫= k) h b l = (l ++ pre ++ EFetch q :: post, r')).
  { unfold try_catch. rewrite E. destruct r; [by eexists|apply Hh]. }
  destruct Hr as [r' Hr]. exists pre, q, post, r'. by split_and!.
Qed.
End delivery.

Lemma bind_assoc {A B C} (m : M A) (f : A → M B) (g : B → M C) b l :
  ((m ≫= f) ≫= g) b l = (m ≫= λ x, f x ≫= g) b l.
Proof. unfold mbind, M_bind. by destruct (m b l) as [? [|]]. Qed.

Ltac quiet_step :=
  first [ apply quiet_mret | apply quiet_throw | apply quiet_text | apply quiet_json
        | apply quiet_blob | apply quiet_if | apply quiet_try; [|intros] | apply quiet_bind; [|intros] ].

Ltac quiet :=
  intros; unfold or_throw_status, or_throw, or_throw_text, or_throw_text_or, or_else;
  repeat quiet_step.

(** Deliver one call: expose the [authFetch] it starts with. *)
Ltac deliver_bind :=
  eapply delivered_bind;
    [eassumption|eassumption|eassumption|reflexivity|discriminate|quiet|reflexivity|reflexivity].

Ltac deliver :=
  match goal with
  | |- delivered _ _ _ (mkCall (forget (authFetch _ _)) _ _ _) =>
      unfold forget; eapply delivered_try;
        [eassumption|eassumption|eassumption|reflexivity|discriminate|quiet|quiet|reflexivity|reflexivity]
  | |- delivered _ _ _ (mkCall (authFetch _ _ ≫= _) _ _ _) => deliver_bind
  | |- delivered _ _ _ (mkCall ((authFetch _ _ ≫= _) ≫= _) _ _ _) =>
      eapply delivered_ext; [intros; symmetry; apply bind_assoc|]; deliver_bind
  end.

(** C10. Every state-changing function of the client is delivered exactly once:
    in a session, whatever the state of the CSRF cookie, each of them gets exactly
    one request past the double-submit check, with its own method, URL and body;
    in particular no siren, deletion or password change is repeated or lost. *)
Theorem mutations_delivered_once (b : Browser) (token : string)
  (handler : list Effect → Request → option Response) (l : list Effect)
  (id id' s s' s'' : string) (data : json) (n : option Z) (act : DeterrenceAction)
  (o o' : option string) (x y z : Q)
  (Hnet : br_net b = backend token handler) (Hdoc : br_document b = true)
  (Htok : truthy_str token = true) :
  Forall (delivered b token l) (mutation_calls id id' s s' s'' data n act o o' x y z).
Proof.
  unfold mutation_calls. cbv zeta.
  repeat (apply Forall_cons; split;
    [unfold void, fireDeterrence, createCamera, updateCamera, deleteCamera, rebootCamera,
       createVCARule, updateVCARule, deleteVCARule, syncCameraVCAZones, discoverCameras,
       getDevicePreview, createExport, ptzMove, ptzStop, ptzPrewarm, updateSettings, createUser,
       deleteUser, updateUserPassword, updateUserRole, updateUserProfile, createStorageLocation,
       updateStorageLocation, deleteStorageLocation, createSpeaker, deleteSpeaker,
       playSpeakerMessage, stopSpeakerPlayback, uploadAudioMessage, deleteAudioMessage,
       submitReview, createPPEZone, updatePPEZone, deletePPEZone, createComplianceRule,
       updateComplianceRule, deleteComplianceRule; deliver|]).
  constructor.
Qed.

Lemma mutations_delivered_once_witness :
  let handler := λ (_ : list Effect) (_ : Request), Some (mkResponse 200 "OK" None (Some JNull) None) in
  let b := session_browser "tok" (λ _, EmptyString) handler in
  delivered b "tok" [] (mkCall (deleteCamera "cam-7") "DELETE" "/api/cameras/cam-7" None).
Proof.
  intros handler b.
  pose proof (mutations_delivered_once b "tok" handler [] "cam-7" "r" "s" "t" "u" JNull None Siren
                None None 0 0 0 eq_refl eq_refl eq_refl) as H.
  rewrite Forall_forall in H. apply H. unfold mutation_calls. do 3 apply list_elem_of_further.
  apply list_elem_of_here.
Defined.

(** ** Replies and failures *)

Lemma or_else_inv {A} (P : A → Prop) (m : M A) fb b l :
  (∀ l' a, m b l = (l', Ok a) → P a) → P fb → ∃ l' a, or_else m fb b l = (l', Ok a) ∧ P a.
Proof.
  intros Hm Hfb. unfold or_else, try_catch. destruct (m b l) as [l' [a|e]] eqn:E; [eauto|].
  exists l', fb. done.
Qed.

Definition is_array (j : json) : Prop := ∃ xs, j = JArr xs.

Lemma as_array_is o : is_array (as_array o).
Proof. destruct o as [[]|]; by eexists. Qed.

(** The reads a panel can render without handling a failure. *)
Definition array_reads (p : EventParams) (start end_ : string) (ids : option (list string))
  (interval : option Z) : list (M json) :=
  [listCameras; getRecordingHealth; queryEvents p; getTimeline start end_ ids interval].

(** The fail-soft reads always resolve, on any network: the list reads with an
    array, the service health with an array of services, the usage with an array
    of sites, and the time series with two arrays, whatever the server sends. *)
Theorem fail_soft_reads (b : Browser) (l : list Effect) (p : EventParams) (start end_ : string)
  (ids : option (list string)) (interval days minutes : option Z) (yolo qwen : option Decimal) :
  (∀ m, m ∈ array_reads p start end_ ids interval → ∃ l' j, m b l = (l', Ok j) ∧ is_array j) ∧
  (∃ l' j v, getServicesHealth b l = (l', Ok j) ∧ jget "services" j = Some v ∧ is_array v) ∧
  (∃ l' j v, getAIUsageBySite days yolo qwen b l = (l', Ok j) ∧ jget "sites" j = Some v ∧ is_array v) ∧
  (∃ l' j s v w, getAIMetricsTimeseries minutes b l = (l', Ok j) ∧ jget "series" j = Some s ∧
     jget "yolo" s = Some v ∧ is_array v ∧ jget "qwen" s = Some w ∧ is_array w).
Proof.
  assert (Hnil : is_array (JArr [])) by by eexists.
  split_and!.
  - intros m Hm. unfold array_reads in Hm. rewrite !elem_of_cons, elem_of_nil in Hm.
    destruct Hm as [->|[->|[->|[->|[]]]]]; apply or_else_inv; try done; intros l' a.
    + intros (l1 & res & _ & (l2 & d & _ & E)%bind_Ok_inv)%bind_Ok_inv. injection E as _ <-. apply (as_array_is (Some d)).
    + intros (l1 & res & _ & E)%bind_Ok_inv. destruct (negb (rs_ok res)); [by injection E as _ <-|].
      apply bind_Ok_inv in E as (l2 & d & _ & E). injection E as _ <-. apply (as_array_is (Some d)).
    + intros (l1 & res & _ & (l2 & d & _ & E)%bind_Ok_inv)%bind_Ok_inv. injection E as _ <-. apply (as_array_is (Some d)).
    + intros (l1 & res & _ & (l2 & d & _ & E)%bind_Ok_inv)%bind_Ok_inv. injection E as _ <-. apply (as_array_is (Some d)).
  - edestruct (or_else_inv (λ j, ∃ v, jget "services" j = Some v ∧ is_array v))
      as (l' & j & E & v & Hv); [| |exists l', j, v; split; [exact E|exact Hv]].
    + intros l' a (l1 & res & _ & E)%bind_Ok_inv.
      destruct (negb (rs_ok res)); [injection E as _ <-; by eexists|].
      apply bind_Ok_inv in E as (l2 & d & _ & E). injection E as _ <-.
      eexists. split; [reflexivity|apply as_array_is].
    + by eexists.
  - edestruct (or_else_inv (λ j, ∃ v, jget "sites" j = Some v ∧ is_array v))
      as (l' & j & E & v & Hv); [| |exists l', j, v; split; [exact E|exact Hv]].
    + intros l' a (l1 & res & _ & E)%bind_Ok_inv.
      destruct (negb (rs_ok res)); [injection E as _ <-; by eexists|].
      apply bind_Ok_inv in E as (l2 & d & _ & E). injection E as _ <-.
      eexists. split; [reflexivity|apply as_array_is].
    + by eexists.
  - edestruct (or_else_inv (λ j, ∃ s v w, jget "series" j = Some s ∧ jget "yolo" s = Some v ∧
        is_array v ∧ jget "qwen" s = Some w ∧ is_array w))
      as (l' & j & E & s & v & w & H); [| |exists l', j, s, v, w; split; [exact E|exact H]].
    + intros l' a (l1 & res & _ & E)%bind_Ok_inv.
      destruct (negb (rs_ok res)); [injection E as _ <-; by do 3 eexists|].
      apply bind_Ok_inv in E as (l2 & d & _ & E). injection E as _ <-.
      do 3 eexists. split_and!; try reflexivity; apply as_array_is.
    + by do 3 eexists.
Qed.

(** What the two search functions make of the reply to their request. *)
Definition search_outcome (fallback : json) (reply : option Response) : Result json :=
  match reply with
  | Some res => if rs_ok res then match rs_json res with Some j => Ok j | None => Err XBody end
                else Ok fallback
  | None => Ok fallback
  end.

Lemma then_json_outcome url fb b l :
  let q := plain_request url no_init in
  then_json (res ← authFetch url no_init; mret (if negb (rs_ok res) then inl fb else inr res)) fb b l =
  (l ++ EFetch q :: nav_of b (reply (br_net b l q)), search_outcome fb (br_net b l q)).
Proof.
  intros q. unfold then_json. pose proof (authFetch_get url no_init b l eq_refl) as E. fold q in E. cbn zeta in E.
  destruct (br_net b l q) as [res|]; cbn [reply search_outcome] in *.
  - assert (Eo : or_else (res ← authFetch url no_init; mret (if negb (rs_ok res) then inl fb else inr res))
        (inl fb) b l = (l ++ EFetch q :: nav_of b (Ok res),
                        Ok (if negb (rs_ok res) then inl fb else inr res))).
    { unfold or_else, try_catch. by rewrite (bind_ok _ _ _ _ _ _ E). }
    rewrite (bind_ok _ _ _ _ _ _ Eo). destruct (rs_ok res); cbn [negb]; [|done].
    unfold json_of, lift_body. by destruct (rs_json res).
  - assert (Eo : or_else (res ← authFetch url no_init; mret (if negb (rs_ok res) then inl fb else inr res))
        (inl fb) b l = (l ++ EFetch q :: nav_of b (Err XNetwork), Ok (inl fb))).
    { unfold or_else, try_catch. by rewrite (bind_err _ _ _ _ _ _ E). }
    by rewrite (bind_ok _ _ _ _ _ _ Eo).
Qed.

(** The searches fall back to an empty result on a lost connection and on an
    error status, and return the reply otherwise; but a successful reply whose body
    is not JSON rejects, because the body is returned without [await] and so is
    parsed outside the [try] that is meant to catch it. *)
Theorem search_fallback_gap (b : Browser) (l : list Effect) (p : SearchParams) (s : SemanticParams) :
  (∃ q, parse_query (usp_toString (search_query p)) = search_query p ∧
        rq_url q = (API_BASE +:+ "/search/events?" +:+ usp_toString (search_query p))%string ∧
        (searchEvents p b l).2 = search_outcome no_events (br_net b l q)) ∧
  (∃ q, parse_query (usp_toString (semantic_query s)) = semantic_query s ∧
        rq_url q = (API_BASE +:+ "/search/semantic?" +:+ usp_toString (semantic_query s))%string ∧
        (searchSemantic s b l).2 = search_outcome (no_matches (sm_q s)) (br_net b l q)) ∧
  (∀ res, rs_ok res = true → rs_json res = None →
   search_outcome no_events (Some res) = Err XBody).
Proof.
  split_and!.
  - eexists. split_and!; [apply parse_query_toString| |unfold searchEvents; by rewrite then_json_outcome].
    done.
  - eexists. split_and!; [apply parse_query_toString| |unfold searchSemantic; by rewrite then_json_outcome].
    done.
  - intros res Ho Hj. simpl. by rewrite Ho, Hj.
Qed.
