(* ===== verification/IronsightApi.v ===== *)
(** * The platform API client

    Every exported function of [lib/ironsight-api.ts] on top of [fetchJSON], the
    operator's validation score, the saved searches of the browser, and the camera
    configuration client [lib/milesight.ts]. *)

From S2P Require Import Prelude Types Http AuthFetch ApiClient.
From stdpp Require Import pretty.
#[local] Open Scope Z_scope.

(** [{ method, body: JSON.stringify(data) }]: [fetchJSON] adds the content type. *)
Definition json_init (method : string) (data : json) : Init :=
  mkInit (Some method) [] (Some (BJson data)) false None.

(** ** Sites *)

Definition getSites : M (option json) :=
  fetchJSON (BASE +:+ "/sites") no_init.

Definition getSite (id : string) : M (option json) :=
  fetchJSON (BASE +:+ "/sites/" +:+ id) no_init.

Definition getSiteCameras (id : string) : M (option json) :=
  fetchJSON (BASE +:+ "/sites/" +:+ id +:+ "/cameras") no_init.

Definition getSiteCompliance (id : string) : M (option json) :=
  fetchJSON (BASE +:+ "/sites/" +:+ id +:+ "/compliance") no_init.

(** ** Incidents and alerts *)

Definition incidents_query (site_id status severity : option string) (limit : option Z) : QueryParams :=
  set_truthy_num "limit" limit
    (set_truthy "severity" severity (set_truthy "status" status (set_truthy "site_id" site_id []))).

Definition getIncidents (site_id status severity : option string) (limit : option Z)
  : M (option json) :=
  fetchJSON (BASE +:+ "/incidents?" +:+ usp_toString (incidents_query site_id status severity limit))
    no_init.

Definition getIncident (id : string) : M (option json) :=
  fetchJSON (BASE +:+ "/incidents/" +:+ id) no_init.

Definition getPortalSummary (days : Z) : M (option json) :=
  fetchJSON (BASE +:+ "/portal/summary?days=" +:+ pretty days) no_init.

Definition getAlerts (site_id severity : option string) (limit : option Z) : M (option json) :=
  fetchJSON (BASE +:+ "/alerts?" +:+ usp_toString (incidents_query site_id None severity limit))
    no_init.

Definition getActiveIncidents : M (option json) :=
  fetchJSON (BASE +:+ "/incidents/active") no_init.

Definition getIncidentDetail (incidentId : string) : M (option json) :=
  fetchJSON (BASE +:+ "/incidents/" +:+ incidentId) no_init.

(** ** Search *)

Definition searchFrames (filters : json) : M (option json) :=
  fetchJSON "/api/search/frames" (json_init "POST" filters).

Definition DEFAULT_SEARCH_SUGGESTIONS : list string :=
  ["worker without hard hat near crane"; "person in exclusion zone"; "missing harness at height";
   "vehicle near workers"; "unsecured scaffolding"]%string.

(** [s.includes(t)] on strings. *)
Fixpoint str_includes (t s : string) : bool :=
  String.prefix t s || match s with String _ s' => str_includes t s' | EmptyString => false end.

Definition getSearchSuggestions (q : string) : M (option json) :=
  or_else (fetchJSON (BASE +:+ "/search/suggest?q=" +:+ encodeURIComponent q) no_init)
    (Some (JArr (JStr <$> filter_where (λ s, str_includes (toLowerCase q) (toLowerCase s))
                            DEFAULT_SEARCH_SUGGESTIONS))).

(** ** Companies and sites *)

Definition getCompanies : M (option json) :=
  fetchJSON (BASE +:+ "/companies") no_init.

Definition getCompany (id : string) : M (option json) :=
  fetchJSON (BASE +:+ "/companies/" +:+ id) no_init.

Definition createCompany (data : json) : M (option json) :=
  fetchJSON (BASE +:+ "/companies") (json_init "POST" data).

Definition getCompanyUsers (companyId : string) : M (option json) :=
  fetchJSON (BASE +:+ "/companies/" +:+ companyId +:+ "/users") no_init.

Definition createSite (data : json) : M (option json) :=
  fetchJSON (BASE +:+ "/sites") (json_init "POST" data).

Definition updateSite (id : string) (data : json) : M (option json) :=
  fetchJSON (BASE +:+ "/sites/" +:+ id) (json_init "PUT" data).

Definition deleteSite (id : string) : M unit :=
  _ ← fetchJSON (BASE +:+ "/sites/" +:+ id) (with_method "DELETE"); mret tt.

(** ** Camera and speaker assignments *)

Definition getCameraAssignments (siteId : string) : M (option json) :=
  fetchJSON (BASE +:+ "/sites/" +:+ siteId +:+ "/camera-assignments") no_init.

Definition assignCameraToSite (siteId cameraId locationLabel : string) : M (option json) :=
  fetchJSON (BASE +:+ "/sites/" +:+ siteId +:+ "/camera-assignments") (json_init "POST" (obj [("camera_id"%string, JStr cameraId);
        ("location_label"%string, JStr locationLabel)])).

Definition unassignCamera (siteId cameraId : string) : M unit :=
  _ ← fetchJSON (BASE +:+ "/sites/" +:+ siteId +:+ "/camera-assignments/" +:+ cameraId) (with_method "DELETE"); mret tt.

Definition getAllSpeakers : M (option json) :=
  fetchJSON (BASE +:+ "/speakers") no_init.

Definition assignSpeakerToSite (siteId speakerId locationLabel : string) : M unit :=
  _ ← fetchJSON (BASE +:+ "/sites/" +:+ siteId +:+ "/speaker-assignments") (json_init "POST" (obj [("speaker_id"%string, JStr speakerId);
        ("location_label"%string, JStr locationLabel)])); mret tt.

Definition unassignSpeaker (siteId speakerId : string) : M unit :=
  _ ← fetchJSON (BASE +:+ "/sites/" +:+ siteId +:+ "/speaker-assignments/" +:+ speakerId) (with_method "DELETE"); mret tt.

(** ** The current operator *)

(** [{ ...j, name }] *)
Definition spread_set (key : string) (v : json) (j : json) : json :=
  match j with
  | JObj fs => if existsb (λ e, String.eqb e.1 key) fs
               then JObj (map_where (λ e, String.eqb e.1 key) (λ e, (e.1, v)) fs)
               else JObj (fs ++ [(key, v)])
  | _ => JObj [(key, v)]
  end.

(** [a || b] on values that may be undefined. *)
Definition or_json (a b : option json) : option json :=
  match a with Some v => if truthy_json v then Some v else b | None => b end.

(** [stored] is the parsed [ironsight_user] entry; [None] when there is no window,
    no entry, or a text that is not JSON. *)
Definition getCurrentOperator (stored : option json) : M (option json) :=
  op ← fetchJSON (BASE +:+ "/operators/current") no_init;
  match stored with
  | Some localUser =>
      if truthy_json localUser
      then mret (Some (match or_json (or_json (jget "display_name" localUser) (jget "username" localUser))
                               (jget_opt "name" op) with
                       | Some name => spread_set "name" name (default (JObj []) op)
                       | None => default (JObj []) op
                       end))
      else mret op
  | None => mret op
  end.

(** ** Site locks and alert ownership *)

Definition getSiteLocks : M (option json) :=
  fetchJSON (BASE +:+ "/sites/locks") no_init.

Definition lockSite (siteId _operatorId _callsign : string) : M (option json) :=
  fetchJSON (BASE +:+ "/sites/" +:+ siteId +:+ "/lock") (with_method "POST").

Definition unlockSite (siteId : string) : M unit :=
  _ ← fetchJSON (BASE +:+ "/sites/" +:+ siteId +:+ "/lock") (with_method "DELETE"); mret tt.

Definition claimAlert (alertId operatorId _callsign : string) : M unit :=
  _ ← fetchJSON (BASE +:+ "/alerts/" +:+ alertId +:+ "/claim") (json_init "PUT" (obj [("operator_id"%string, JStr operatorId)])); mret tt.

Definition releaseAlert (alertId : string) : M unit :=
  _ ← fetchJSON (BASE +:+ "/alerts/" +:+ alertId +:+ "/claim") (with_method "DELETE"); mret tt.

(** ** Procedures and maps *)

Definition getSiteSOPs (siteId : string) : M (option json) :=
  fetchJSON (BASE +:+ "/sites/" +:+ siteId +:+ "/sops") no_init.

Definition createSiteSOP (site_id : string) (data : json) : M (option json) :=
  fetchJSON (BASE +:+ "/sites/" +:+ site_id +:+ "/sops") (json_init "POST" data).

Definition updateSiteSOP (sopId : string) (data : json) : M (option json) :=
  fetchJSON (BASE +:+ "/sops/" +:+ sopId) (json_init "PUT" data).

Definition deleteSiteSOP (sopId : string) : M unit :=
  _ ← fetchJSON (BASE +:+ "/sops/" +:+ sopId) (with_method "DELETE"); mret tt.

Definition getSiteMap (siteId : string) : M (option json) :=
  fetchJSON (BASE +:+ "/sites/" +:+ siteId +:+ "/map") no_init.

Definition updateSiteMap (siteId : string) (data : json) : M (option json) :=
  fetchJSON (BASE +:+ "/sites/" +:+ siteId +:+ "/map") (json_init "PUT" data).

(** ** Handoffs, presence and metrics *)

Definition getPendingHandoffs (operatorId : string) : M (option json) :=
  fetchJSON (BASE +:+ "/handoffs?to=" +:+ operatorId +:+ "&status=pending") no_init.

Definition createHandoff (data : json) : M (option json) :=
  fetchJSON (BASE +:+ "/handoffs") (json_init "POST" data).

Definition acceptHandoff (handoffId : string) : M unit :=
  _ ← fetchJSON (BASE +:+ "/handoffs/" +:+ handoffId +:+ "/accept") (with_method "PUT"); mret tt.

Definition getOperatorPresence : M (option json) :=
  fetchJSON (BASE +:+ "/operators/presence") no_init.

Definition updatePresence (data : json) : M unit :=
  _ ← fetchJSON (BASE +:+ "/operators/presence") (json_init "PUT" data); mret tt.

Definition getOperatorMetrics : M (option json) :=
  fetchJSON (BASE +:+ "/operators/metrics") no_init.

Definition getScheduledReports : M (option json) :=
  fetchJSON (BASE +:+ "/reports/scheduled") no_init.

Definition toggleScheduledReport (reportId : string) (enabled : bool) : M unit :=
  _ ← fetchJSON (BASE +:+ "/reports/scheduled/" +:+ reportId) (json_init "PATCH" (obj [("enabled"%string, JBool enabled)])); mret tt.

(** ** Notification rules, zones and integrations *)

Definition getNotificationRules (siteId : string) : M (option json) :=
  fetchJSON (BASE +:+ "/sites/" +:+ siteId +:+ "/notifications") no_init.

Definition createNotificationRule (site_id : string) (data : json) : M (option json) :=
  fetchJSON (BASE +:+ "/sites/" +:+ site_id +:+ "/notifications") (json_init "POST" data).

Definition deleteNotificationRule (ruleId : string) : M unit :=
  _ ← fetchJSON (BASE +:+ "/notifications/" +:+ ruleId) (with_method "DELETE"); mret tt.

Definition getExclusionZones (siteId : string) : M (option json) :=
  fetchJSON (BASE +:+ "/sites/" +:+ siteId +:+ "/zones") no_init.

Definition getIntegrations : M (option json) :=
  fetchJSON (BASE +:+ "/integrations") no_init.

Definition toggleIntegration (integrationId : string) (active : bool) : M unit :=
  _ ← fetchJSON (BASE +:+ "/integrations/" +:+ integrationId) (json_init "PATCH" (obj [("active"%string, JBool active)])); mret tt.

Definition deleteIntegration (integrationId : string) : M unit :=
  _ ← fetchJSON (BASE +:+ "/integrations/" +:+ integrationId) (with_method "DELETE"); mret tt.

(** ** Security events *)

Definition createSecurityEvent (payload : json) : M (option json) :=
  fetchJSON (BASE +:+ "/events") (json_init "POST" payload).

Definition listSecurityEvents (siteId : string) : M (option json) :=
  fetchJSON (BASE +:+ "/events?site_id=" +:+ encodeURIComponent siteId) no_init.

Definition escalateAlarm (alarmId : string) (level : Z) : M unit :=
  _ ← fetchJSON (BASE +:+ "/alarms/" +:+ alarmId +:+ "/escalate") (json_init "POST" (obj [("level"%string, jnum level)])); mret tt.

Definition submitAIFeedback (alarmId : string) (agreed : bool) : M unit :=
  _ ← fetchJSON (BASE +:+ "/alarms/" +:+ alarmId +:+ "/ai-feedback") (json_init "POST" (obj [("agreed"%string, JBool agreed)])); mret tt.

(** ** Reports and supervision *)

Inductive ReportGroup := ByOperator | ByDay.
Definition group_string (g : ReportGroup) : string :=
  match g with ByOperator => "operator" | ByDay => "day" end.

Definition sla_query (from to : option string) (group : option ReportGroup) (qs : QueryParams)
  : QueryParams :=
  set_truthy "group" (group_string <$> group) (set_truthy "to" to (set_truthy "from" from qs)).

Definition getSLAReport (from to : option string) (group : option ReportGroup) : M (option json) :=
  fetchJSON ("/api/reports/sla?" +:+ usp_toString (sla_query from to group [])) no_init.

Definition slaReportCsvUrl (from to : option string) (group : option ReportGroup) : string :=
  ("/api/reports/sla?" +:+ usp_toString (sla_query from to group [("format", "csv")]))%string.

Definition downloadAuthenticated (url filename : string) : M unit :=
  res ← authFetch url no_init;
  _ ← or_throw res ("download failed: " +:+ pretty (rs_status res));
  blob ← blob_of res;
  emit (EDownload blob filename).

(** The test of the verification queue on one event. *)
Definition needs_verification (e : json) : bool :=
  match jget "severity" e with
  | Some (JStr s) => String.eqb s "critical" || String.eqb s "high"
  | _ => false
  end && negb (match jget "verified_at" e with Some v => truthy_json v | None => false end).

(** [all.filter] throws on a reply that is not an array. *)
Definition listUnverifiedSecurityEvents : M json :=
  all ← listSecurityEvents EmptyString;
  match all with
  | Some (JArr es) => mret (JArr (filter_where needs_verification es))
  | _ => throw (XError "filter is not a function")
  end.

Definition verifySecurityEvent (eventId : string) : M unit :=
  _ ← fetchJSON (BASE +:+ "/events/" +:+ encodeURIComponent eventId +:+ "/verify") (with_method "POST"); mret tt.

Definition listIncidentShares (incidentId : string) : M (option json) :=
  fetchJSON (BASE +:+ "/incidents/" +:+ encodeURIComponent incidentId +:+ "/shares") no_init.

(** ** Evidence sharing *)

Inductive ShareTTL := T1h | T1d | T1w | T1m | TNever.

Definition SHARE_TTL_HOURS (t : ShareTTL) : Z :=
  match t with T1h => 1 | T1d => 24 | T1w => 24 * 7 | T1m => 24 * 30 | TNever => 24 * 90 end.

(** [`/share/${created.token}`]: a missing token prints as undefined. *)
Definition createEvidenceShareLink (incident_id : string) (expires_in : ShareTTL) : M json :=
  let hours := SHARE_TTL_HOURS expires_in in
  created ← fetchJSON (BASE +:+ "/incidents/" +:+ encodeURIComponent incident_id +:+ "/share")
    (json_init "POST" (obj [("incident_id"%string, JStr incident_id);
                            ("expires_in_hours"%string, jnum hours)]));
  match created with
  | Some c =>
      let token := match jget "token" c with Some (JStr t) => t | _ => "undefined"%string end in
      mret (obj (opt_prop "token" (jget "token" c) ++
                 [("url"%string, JStr ("/share/" +:+ token)%string)] ++
                 opt_prop "expires_at" (jget "expires_at" c)))
  | None => throw (XError "created is undefined")
  end.

Definition revokeEvidenceShareLink (token : string) : M unit :=
  _ ← fetchJSON (BASE +:+ "/shares/" +:+ encodeURIComponent token) (with_method "DELETE"); mret tt.

(** ** Site feature flags *)

Definition DEFAULT_FEATURE_FLAGS : json :=
  obj [("vlm_safety"%string, JBool true); ("semantic_search"%string, JBool true);
       ("evidence_sharing"%string, JBool true); ("global_ai_training"%string, JBool true)].

Definition getFeatureFlags (siteId : option string) : M (option json) :=
  let params := match siteId with
                | Some s => if truthy_str s then ("?site_id=" +:+ s)%string else EmptyString
                | None => EmptyString
                end in
  or_else (fetchJSON (BASE +:+ "/features" +:+ params) no_init) (Some DEFAULT_FEATURE_FLAGS).


(** ** Validation score (TMA-AVS-01) *)

(** The operator's attestations; an absent one counts as false. *)
Record AVSFactors := mkAVS {
  video_verified : bool;
  person_detected : bool;
  suspicious_behavior : bool;
  weapon_observed : bool;
  active_crime : bool;
  multi_camera_evidence : bool;
  multi_sensor_evidence : bool;
  audio_verified : bool;
  talkdown_ignored : bool;
  auth_failure : bool;
  ai_corroborated : bool
}.

Record AVSPreview := mkPreview { av_score : Z; av_label : string; av_dispatch : bool }.

Definition previewAVSScore (f : AVSFactors) : AVSPreview :=
  if negb (video_verified f) then mkPreview 0 "UNVERIFIED" false
  else if weapon_observed f || active_crime f then mkPreview 4 "CRITICAL" true
  else
    let corroborated := suspicious_behavior f || multi_camera_evidence f ||
      multi_sensor_evidence f || audio_verified f || talkdown_ignored f || auth_failure f in
    if corroborated then mkPreview 3 "ELEVATED" true
    else if person_detected f then mkPreview 2 "VERIFIED" true
    else mkPreview 1 "MINIMAL" false.

(** The backend's scoring (internal/avs/scoring.go), the authority the preview mirrors. *)
Definition ComputeScore (f : AVSFactors) : Z :=
  if negb (video_verified f) then 0
  else if weapon_observed f || active_crime f then 4
  else if suspicious_behavior f || multi_camera_evidence f || multi_sensor_evidence f ||
          audio_verified f || talkdown_ignored f || auth_failure f then 3
  else if person_detected f then 2
  else 1.

Definition ScoreLabel (s : Z) : string :=
  match s with
  | 0 => "UNVERIFIED" | 1 => "MINIMAL" | 2 => "VERIFIED" | 3 => "ELEVATED" | 4 => "CRITICAL"
  | _ => "UNKNOWN"
  end%string.

Definition DispatchEligible (s : Z) : bool := 2 <=? s.

(** ** Saved searches (localStorage) *)

Record SavedSearch := mkSavedSearch {
  ss_id : string;
  ss_data : json;
  ss_created_at : string;
  ss_run_count : Z
}.

(** [n.toString(36)] for a non-negative integer. *)
Fixpoint base36_go (fuel : nat) (n : Z) (acc : list N) : list N :=
  match fuel with
  | O => acc
  | S fuel' =>
      let d := Z.to_N (n mod 36) in
      let c := if (d <? 10)%N then (48 + d)%N else (87 + d)%N in
      if n <? 36 then c :: acc else base36_go fuel' (n / 36) (c :: acc)
  end.

Definition to_base36 (n : Z) : string := of_bytes (base36_go 64 n []).

(** The stored value: [None] when nothing is stored, [Some None] when the text
    does not parse. *)
Definition readSavedSearches (stored : option (option (list SavedSearch))) : list SavedSearch :=
  match stored with Some (Some l) => l | _ => [] end.

(** [random] is the text [Math.random().toString(36).slice(2, 8)]. *)
Definition createSavedSearch (data : json) (now : Z) (random : string)
  (stored : option (option (list SavedSearch))) : SavedSearch * option (option (list SavedSearch)) :=
  let entry := mkSavedSearch ("local-" +:+ to_base36 now +:+ "-" +:+ random) data (toISOString now) 0 in
  (entry, Some (Some (entry :: readSavedSearches stored))).

Definition deleteSavedSearch (searchId : string) (stored : option (option (list SavedSearch)))
  : option (option (list SavedSearch)) :=
  Some (Some (filter_where (λ s, negb (String.eqb (ss_id s) searchId)) (readSavedSearches stored))).

(** ** Camera configuration pass-through (lib/milesight.ts) *)

Definition milesightGet (cameraID panel : string) : M json :=
  res ← authFetch (API_BASE +:+ "/cameras/" +:+ cameraID +:+ "/milesight/config/" +:+ panel) no_init;
  _ ← or_throw res ("milesight " +:+ panel +:+ ": HTTP " +:+ pretty (rs_status res));
  json_of res.

Definition milesightSet (cameraID panel : string) (body : json) : M json :=
  res ← authFetch (API_BASE +:+ "/cameras/" +:+ cameraID +:+ "/milesight/config/" +:+ panel)
    (with_json "PUT" body);
  _ ← (if rs_ok res then mret tt
       else msg ← or_else (text res) (rs_statusText res);
            throw (XError ("milesight " +:+ panel +:+ " PUT failed: " +:+ msg)));
  or_else (json_of res) (JObj []).

Definition milesightReboot (cameraID : string) : M unit :=
  res ← authFetch (API_BASE +:+ "/cameras/" +:+ cameraID +:+ "/milesight/reboot") (with_method "POST");
  or_throw res ("reboot failed: HTTP " +:+ pretty (rs_status res)).

Definition milesightPTZGoto (cameraID : string) (preset : Z) : M unit :=
  res ← authFetch (API_BASE +:+ "/cameras/" +:+ cameraID +:+ "/milesight/ptz/preset/goto")
    (with_json "POST" (obj [("preset"%string, jnum preset)]));
  or_throw res ("preset goto failed: HTTP " +:+ pretty (rs_status res)).

(** ** Properties *)

(** The score as a function of its four levels of evidence. *)
Definition score_of (video critical corroborated person : bool) : Z :=
  if negb video then 0 else if critical then 4 else if corroborated then 3
  else if person then 2 else 1.

Lemma score_of_mono v c r p v' c' r' p' :
  (v = true → v' = true) → (c = true → c' = true) → (r = true → r' = true) →
  (p = true → p' = true) → score_of v c r p ≤ score_of v' c' r' p'.
Proof.
  intros Hv Hc Hr Hp.
  destruct v, v'; try (by specialize (Hv eq_refl)); destruct c, c'; try (by specialize (Hc eq_refl));
    destruct r, r'; try (by specialize (Hr eq_refl)); destruct p, p'; try (by specialize (Hp eq_refl));
    vm_compute; discriminate.
Qed.

Lemma score_of_pos v c r p : 0 < score_of v c r p ↔ v = true.
Proof. by destruct v, c, r, p. Qed.

(** Every attestation of [f] is also one of [g]. *)
Definition attests_at_least (f g : AVSFactors) : Prop :=
  Forall (λ p : AVSFactors → bool, p f = true → p g = true)
    [video_verified; person_detected; suspicious_behavior; weapon_observed; active_crime;
     multi_camera_evidence; multi_sensor_evidence; audio_verified; talkdown_ignored; auth_failure].

(** C13. The score preview shown to the operator is the score the backend will
    record: same score, same label, same dispatch decision, for every combination
    of attestations; and it is monotone: attesting more never lowers the score,
    and video verification is necessary for any score above zero. *)
Theorem avs_preview_exact (f : AVSFactors) :
  av_score (previewAVSScore f) = ComputeScore f ∧
  av_label (previewAVSScore f) = ScoreLabel (ComputeScore f) ∧
  av_dispatch (previewAVSScore f) = DispatchEligible (ComputeScore f) ∧
  (0 < av_score (previewAVSScore f) ↔ video_verified f = true) ∧
  (∀ g, attests_at_least f g → av_score (previewAVSScore f) ≤ av_score (previewAVSScore g)).
Proof.
  assert (Hc : ∀ f, previewAVSScore f = mkPreview (ComputeScore f) (ScoreLabel (ComputeScore f))
                                     (DispatchEligible (ComputeScore f))).
  { intros h. unfold previewAVSScore, ComputeScore. repeat split_match; done. }
  split; [by rewrite Hc|]. split; [by rewrite Hc|]. split; [by rewrite Hc|].
  rewrite Hc; cbn [av_score]. split; [apply score_of_pos|].
  - intros g Hg. rewrite Hc. apply score_of_mono; unfold attests_at_least in Hg;
      repeat (apply Forall_cons in Hg as [? Hg]); rewrite ?orb_true_iff; tauto.
Qed.

(** The functions that return the payload of one request, with the request. *)
Definition platform_calls (s1 s2 s3 : string) (data : json) (n : Z) (bo : bool)
  : list (M (option json) * string * Init) :=
  [ (getSites, (BASE +:+ "/sites")%string, no_init);
    (getSite s1, (BASE +:+ "/sites/" +:+ s1)%string, no_init);
    (getSiteCameras s1, (BASE +:+ "/sites/" +:+ s1 +:+ "/cameras")%string, no_init);
    (getSiteCompliance s1, (BASE +:+ "/sites/" +:+ s1 +:+ "/compliance")%string, no_init);
    (getIncident s1, (BASE +:+ "/incidents/" +:+ s1)%string, no_init);
    (getPortalSummary n, (BASE +:+ "/portal/summary?days=" +:+ pretty n)%string, no_init);
    (getActiveIncidents, (BASE +:+ "/incidents/active")%string, no_init);
    (getIncidentDetail s1, (BASE +:+ "/incidents/" +:+ s1)%string, no_init);
    (searchFrames data, ("/api/search/frames")%string, (json_init "POST" data));
    (getCompanies, (BASE +:+ "/companies")%string, no_init);
    (getCompany s1, (BASE +:+ "/companies/" +:+ s1)%string, no_init);
    (createCompany data, (BASE +:+ "/companies")%string, (json_init "POST" data));
    (getCompanyUsers s1, (BASE +:+ "/companies/" +:+ s1 +:+ "/users")%string, no_init);
    (createSite data, (BASE +:+ "/sites")%string, (json_init "POST" data));
    (updateSite s1 data, (BASE +:+ "/sites/" +:+ s1)%string, (json_init "PUT" data));
    (getCameraAssignments s1, (BASE +:+ "/sites/" +:+ s1 +:+ "/camera-assignments")%string, no_init);
    (assignCameraToSite s1 s2 s3, (BASE +:+ "/sites/" +:+ s1 +:+ "/camera-assignments")%string, (json_init "POST" (obj [("camera_id"%string, JStr s2);
        ("location_label"%string, JStr s3)])));
    (getAllSpeakers, (BASE +:+ "/speakers")%string, no_init);
    (getSiteLocks, (BASE +:+ "/sites/locks")%string, no_init);
    (lockSite s1 s2 s3, (BASE +:+ "/sites/" +:+ s1 +:+ "/lock")%string, (with_method "POST"));
    (getSiteSOPs s1, (BASE +:+ "/sites/" +:+ s1 +:+ "/sops")%string, no_init);
    (createSiteSOP s1 data, (BASE +:+ "/sites/" +:+ s1 +:+ "/sops")%string, (json_init "POST" data));
    (updateSiteSOP s1 data, (BASE +:+ "/sops/" +:+ s1)%string, (json_init "PUT" data));
    (getSiteMap s1, (BASE +:+ "/sites/" +:+ s1 +:+ "/map")%string, no_init);
    (updateSiteMap s1 data, (BASE +:+ "/sites/" +:+ s1 +:+ "/map")%string, (json_init "PUT" data));
    (getPendingHandoffs s1, (BASE +:+ "/handoffs?to=" +:+ s1 +:+ "&status=pending")%string, no_init);
    (createHandoff data, (BASE +:+ "/handoffs")%string, (json_init "POST" data));
    (getOperatorPresence, (BASE +:+ "/operators/presence")%string, no_init);
    (getOperatorMetrics, (BASE +:+ "/operators/metrics")%string, no_init);
    (getScheduledReports, (BASE +:+ "/reports/scheduled")%string, no_init);
    (getNotificationRules s1, (BASE +:+ "/sites/" +:+ s1 +:+ "/notifications")%string, no_init);
    (createNotificationRule s1 data, (BASE +:+ "/sites/" +:+ s1 +:+ "/notifications")%string, (json_init "POST" data));
    (getExclusionZones s1, (BASE +:+ "/sites/" +:+ s1 +:+ "/zones")%string, no_init);
    (getIntegrations, (BASE +:+ "/integrations")%string, no_init);
    (createSecurityEvent data, (BASE +:+ "/events")%string, (json_init "POST" data));
    (listSecurityEvents s1, (BASE +:+ "/events?site_id=" +:+ encodeURIComponent s1)%string, no_init);
    (listIncidentShares s1, (BASE +:+ "/incidents/" +:+ encodeURIComponent s1 +:+ "/shares")%string, no_init) ].

(** The functions that only wait for the request to succeed. *)
Definition platform_commands (s1 s2 s3 : string) (data : json) (n : Z) (bo : bool)
  : list (M unit * string * Init) :=
  [ (deleteSite s1, (BASE +:+ "/sites/" +:+ s1)%string, (with_method "DELETE"));
    (unassignCamera s1 s2, (BASE +:+ "/sites/" +:+ s1 +:+ "/camera-assignments/" +:+ s2)%string, (with_method "DELETE"));
    (assignSpeakerToSite s1 s2 s3, (BASE +:+ "/sites/" +:+ s1 +:+ "/speaker-assignments")%string, (json_init "POST" (obj [("speaker_id"%string, JStr s2);
        ("location_label"%string, JStr s3)])));
    (unassignSpeaker s1 s2, (BASE +:+ "/sites/" +:+ s1 +:+ "/speaker-assignments/" +:+ s2)%string, (with_method "DELETE"));
    (unlockSite s1, (BASE +:+ "/sites/" +:+ s1 +:+ "/lock")%string, (with_method "DELETE"));
    (claimAlert s1 s2 s3, (BASE +:+ "/alerts/" +:+ s1 +:+ "/claim")%string, (json_init "PUT" (obj [("operator_id"%string, JStr s2)])));
    (releaseAlert s1, (BASE +:+ "/alerts/" +:+ s1 +:+ "/claim")%string, (with_method "DELETE"));
    (deleteSiteSOP s1, (BASE +:+ "/sops/" +:+ s1)%string, (with_method "DELETE"));
    (acceptHandoff s1, (BASE +:+ "/handoffs/" +:+ s1 +:+ "/accept")%string, (with_method "PUT"));
    (updatePresence data, (BASE +:+ "/operators/presence")%string, (json_init "PUT" data));
    (toggleScheduledReport s1 bo, (BASE +:+ "/reports/scheduled/" +:+ s1)%string, (json_init "PATCH" (obj [("enabled"%string, JBool bo)])));
    (deleteNotificationRule s1, (BASE +:+ "/notifications/" +:+ s1)%string, (with_method "DELETE"));
    (toggleIntegration s1 bo, (BASE +:+ "/integrations/" +:+ s1)%string, (json_init "PATCH" (obj [("active"%string, JBool bo)])));
    (deleteIntegration s1, (BASE +:+ "/integrations/" +:+ s1)%string, (with_method "DELETE"));
    (escalateAlarm s1 n, (BASE +:+ "/alarms/" +:+ s1 +:+ "/escalate")%string, (json_init "POST" (obj [("level"%string, jnum n)])));
    (submitAIFeedback s1 bo, (BASE +:+ "/alarms/" +:+ s1 +:+ "/ai-feedback")%string, (json_init "POST" (obj [("agreed"%string, JBool bo)])));
    (verifySecurityEvent s1, (BASE +:+ "/events/" +:+ encodeURIComponent s1 +:+ "/verify")%string, (with_method "POST"));
    (revokeEvidenceShareLink s1, (BASE +:+ "/shares/" +:+ encodeURIComponent s1)%string, (with_method "DELETE")) ].

Definition ignore_payload (r : Result (option json)) : Result unit :=
  match r with Ok _ => Ok tt | Err e => Err e end.

(** [run] makes one request to [url], and its result is [out] of the reply. *)
Definition performs {A} (b : Browser) (token : string) (handler : list Effect → Request → option Response)
  (l : list Effect) (out : option Response → Result A) (c : M A * string * Init) : Prop :=
  let q := auth_request c.1.2 (set_in_headers (json_content_type c.2) c.2) token in
  ∃ pre post,
    c.1.1 b l = (l ++ pre ++ EFetch q :: post, out (handler (l ++ pre) q)) ∧
    not_handled token (pre ++ post) ∧ handled token (EFetch q) = true.

Lemma performs_fetchJSON b token handler l url init :
  br_net b = backend token handler → br_document b = true → truthy_str token = true →
  url ≠ rq_url csrf_request →
  performs b token handler l fetchJSON_outcome (fetchJSON url init, url, init).
Proof.
  intros Hn Hd Ht Hu. unfold performs; cbn [fst snd].
  destruct (fetchJSON_delivered b token url handler init l Hn Hd Ht Hu) as (pre & post & E & ? & ? & _).
  exists pre, post. by split_and!.
Qed.

Lemma performs_void b token handler l url init :
  br_net b = backend token handler → br_document b = true → truthy_str token = true →
  url ≠ rq_url csrf_request →
  performs b token handler l (λ o, ignore_payload (fetchJSON_outcome o))
    (_ ← fetchJSON url init; mret tt, url, init).
Proof.
  intros Hn Hd Ht Hu. destruct (performs_fetchJSON b token handler l url init Hn Hd Ht Hu)
    as (pre & post & E & ? & ?). unfold performs; cbn [fst snd] in *.
  exists pre, post. split_and!; [|done|done].
  destruct (fetchJSON_outcome _) as [a|e] eqn:Eo in E.
  - rewrite (bind_ok _ _ _ _ _ _ E), Eo. done.
  - rewrite (bind_err _ _ _ _ _ _ E), Eo. done.
Qed.

(** C12. Every function of the platform client performs one request: in a session,
    whatever the state of the CSRF cookie, the backend receives exactly one request
    with the function's own URL, method and body (typed as JSON when there is one),
    and the caller gets the payload of its reply, [undefined] for an empty reply,
    or an error carrying the server's text; there is no silent fallback. *)
Theorem platform_requests_exact (b : Browser) (token : string)
  (handler : list Effect → Request → option Response) (l : list Effect)
  (s1 s2 s3 : string) (data : json) (n : Z) (bo : bool)
  (Hnet : br_net b = backend token handler) (Hdoc : br_document b = true)
  (Htok : truthy_str token = true) :
  Forall (performs b token handler l fetchJSON_outcome) (platform_calls s1 s2 s3 data n bo) ∧
  Forall (performs b token handler l (λ o, ignore_payload (fetchJSON_outcome o)))
    (platform_commands s1 s2 s3 data n bo).
Proof.
  split.
  - unfold platform_calls. repeat (apply Forall_cons; split;
      [apply performs_fetchJSON; [done|done|done|discriminate]|]). constructor.
  - unfold platform_commands. repeat (apply Forall_cons; split;
      [apply performs_void; [done|done|done|discriminate]|]). constructor.
Qed.

Lemma platform_requests_exact_witness :
  let handler := λ (_ : list Effect) (_ : Request),
    Some (mkResponse 409 "Conflict" (Some "site is locked"%string) None None) in
  let b := session_browser "tok" (λ _, EmptyString) handler in
  ∃ l', lockSite "s-1" "op" "call" b [] = (l', Err (XError "site is locked")).
Proof.
  intros handler b.
  destruct (platform_requests_exact b "tok" handler [] "s-1" "op" "call" JNull 0 true
              eq_refl eq_refl eq_refl) as [H _].
  assert (Hl : performs b "tok" handler [] fetchJSON_outcome
    (lockSite "s-1" "op" "call", (BASE +:+ "/sites/" +:+ "s-1" +:+ "/lock")%string, with_method "POST")).
  { rewrite Forall_forall in H. apply H. unfold platform_calls.
    do 19 apply list_elem_of_further. apply list_elem_of_here. }
  destruct Hl as (pre & post & E & _). eexists. exact E.
Defined.
