(* ===== verification/Router.v ===== *)
(** * Routes

    The routes that [internal/api/router.go] registers, and which requests of the two API
    clients, [lib/api.ts] and [lib/ironsight-api.ts], they serve.  A request without a route is
    answered with 404 whatever it carries.  A placeholder of a pattern stands for one
    segment of the path and a final star for the rest; the root of a group is served with and
    without its slash. *)

From S2P Require Import Prelude Types Http AuthFetch ApiClient IronsightApi.
From stdpp Require Import pretty.
From Stdlib Require Import Ascii QArith.
#[local] Open Scope string_scope.
#[local] Open Scope Z_scope.

Inductive RouteSegment := Lit (s : string) | Placeholder | Rest.

Definition segment_of (s : string) : RouteSegment :=
  if String.prefix "{" s then Placeholder else if String.eqb s "*" then Rest else Lit s.

(** The segments of a path, up to a query or fragment. *)
Fixpoint segments (s : string) : list string :=
  match s with
  | EmptyString => [EmptyString]
  | String c s' =>
      if Ascii.eqb c "/" then EmptyString :: segments s'
      else if Ascii.eqb c "?" || Ascii.eqb c "#" then [EmptyString]
      else match segments s' with x :: l => String c x :: l | [] => [String c EmptyString] end
  end.

Definition pattern (s : string) : list RouteSegment := segment_of <$> segments s.

Fixpoint seg_match (p : list RouteSegment) (l : list string) : bool :=
  match p, l with
  | [], [] => true
  | [Rest], _ :: _ => true
  | Lit a :: p', b :: l' => seg_match p' l' && String.eqb a b
  | Placeholder :: p', b :: l' => seg_match p' l' && truthy_str b
  | _, _ => false
  end.

(** Method and pattern of every route. *)
Definition routes : list (string * string) :=
  [ ("POST", "/auth/login"); ("GET", "/api/health"); ("GET", "/share/{token}"); ("POST", "/api/integrations/milesight/sense/{token}");
    ("GET", "/api/status"); ("GET", "/auth/me"); ("POST", "/auth/logout"); ("POST", "/api/auth/mfa/enroll"); ("POST", "/api/auth/mfa/confirm");
    ("POST", "/api/auth/mfa/disable"); ("GET", "/api/auth/ws-ticket"); ("GET", "/api/auth/csrf"); ("GET", "/api/cameras/"); ("GET", "/api/cameras");
    ("POST", "/api/cameras/"); ("POST", "/api/cameras"); ("GET", "/api/cameras/{id}"); ("PATCH", "/api/cameras/{id}");
    ("DELETE", "/api/cameras/{id}"); ("GET", "/api/cameras/{id}/recordings"); ("POST", "/api/cameras/{id}/ptz/move");
    ("POST", "/api/cameras/{id}/ptz/stop"); ("POST", "/api/cameras/{id}/ptz/prewarm"); ("GET", "/api/cameras/{id}/detect");
    ("GET", "/api/cameras/{id}/detect/stream"); ("GET", "/api/cameras/{id}/vca/rules"); ("POST", "/api/cameras/{id}/vca/rules");
    ("PUT", "/api/cameras/{id}/vca/rules/{ruleId}"); ("DELETE", "/api/cameras/{id}/vca/rules/{ruleId}"); ("POST", "/api/cameras/{id}/vca/sync");
    ("GET", "/api/cameras/{id}/vca/pull"); ("POST", "/api/cameras/{id}/vca/pull"); ("POST", "/api/cameras/{id}/sync-zones");
    ("ANY", "/api/cameras/{id}/web-ui/*"); ("ANY", "/api/cameras/{id}/web-ui"); ("GET", "/api/cameras/{id}/milesight/config/{panel}");
    ("PUT", "/api/cameras/{id}/milesight/config/{panel}"); ("POST", "/api/cameras/{id}/milesight/reboot");
    ("POST", "/api/cameras/{id}/milesight/ptz/preset/goto"); ("POST", "/api/discover"); ("POST", "/api/discover/preview"); ("GET", "/api/events");
    ("GET", "/api/timeline"); ("GET", "/api/timeline/coverage"); ("POST", "/api/cameras/{id}/deterrence"); ("GET", "/api/cameras/{id}/sd/status");
    ("POST", "/api/cameras/{id}/reboot"); ("GET", "/api/search/events"); ("GET", "/api/search/semantic"); ("POST", "/api/search/frames");
    ("GET", "/api/recording/health"); ("GET", "/api/events/{id}/export"); ("POST", "/api/exports"); ("GET", "/api/exports");
    ("GET", "/api/settings"); ("PUT", "/api/settings"); ("GET", "/api/users"); ("POST", "/api/users"); ("DELETE", "/api/users/{id}");
    ("PATCH", "/api/users/{id}"); ("PATCH", "/api/users/{id}/password"); ("PATCH", "/api/users/{id}/role"); ("POST", "/api/users/{id}/mfa/reset");
    ("GET", "/api/storage/status"); ("GET", "/api/storage/drives"); ("GET", "/api/storage/browse"); ("GET", "/api/storage/disk-usage");
    ("GET", "/api/storage/locations"); ("POST", "/api/storage/locations"); ("PUT", "/api/storage/locations/{id}");
    ("DELETE", "/api/storage/locations/{id}"); ("GET", "/api/system/health"); ("GET", "/api/system/services");
    ("GET", "/api/system/services/timeseries"); ("GET", "/api/system/services/usage"); ("GET", "/api/audit"); ("GET", "/api/reports/sla");
    ("GET", "/api/me/notifications"); ("PUT", "/api/me/notifications"); ("POST", "/api/support/tickets"); ("GET", "/api/support/tickets");
    ("GET", "/api/support/tickets/{id}"); ("POST", "/api/support/tickets/{id}/messages"); ("PATCH", "/api/support/tickets/{id}");
    ("GET", "/api/v1/companies"); ("POST", "/api/v1/companies"); ("PUT", "/api/v1/companies/{id}"); ("DELETE", "/api/v1/companies/{id}");
    ("GET", "/api/v1/companies/{companyId}/users"); ("POST", "/api/v1/companies/{companyId}/users");
    ("DELETE", "/api/v1/companies/{companyId}/users/{userId}"); ("GET", "/api/v1/cameras"); ("GET", "/api/v1/sites"); ("GET", "/api/v1/sites/{id}");
    ("POST", "/api/v1/sites"); ("PUT", "/api/v1/sites/{id}"); ("PATCH", "/api/v1/sites/{id}/recording");
    ("PUT", "/api/v1/sites/{id}/monitoring-schedule"); ("DELETE", "/api/v1/sites/{id}"); ("GET", "/api/v1/sites/{id}/contacts");
    ("PUT", "/api/v1/sites/{id}/contacts"); ("GET", "/api/v1/sites/{siteId}/cameras"); ("GET", "/api/v1/sites/{siteId}/sops");
    ("POST", "/api/v1/sites/{siteId}/sops"); ("PUT", "/api/v1/sops/{id}"); ("DELETE", "/api/v1/sops/{id}"); ("GET", "/api/v1/sites/locks");
    ("POST", "/api/v1/sites/{siteId}/camera-assignments"); ("DELETE", "/api/v1/sites/{siteId}/camera-assignments/{cameraId}");
    ("GET", "/api/v1/speakers"); ("POST", "/api/v1/sites/{siteId}/speaker-assignments");
    ("DELETE", "/api/v1/sites/{siteId}/speaker-assignments/{speakerId}"); ("GET", "/api/v1/device-history"); ("GET", "/api/v1/operators");
    ("POST", "/api/v1/operators"); ("GET", "/api/v1/operators/current"); ("GET", "/api/v1/operators/{operatorId}/handoffs");
    ("POST", "/api/v1/events"); ("GET", "/api/v1/events"); ("POST", "/api/v1/events/{id}/verify"); ("POST", "/api/v1/incidents/{id}/share");
    ("GET", "/api/v1/incidents/{id}/shares"); ("DELETE", "/api/v1/shares/{token}"); ("GET", "/api/v1/incidents"); ("GET", "/api/v1/incidents/{id}");
    ("GET", "/api/v1/portal/summary"); ("GET", "/api/v1/portal/pending-review"); ("POST", "/api/v1/portal/pending-review/{id}/review");
    ("GET", "/api/v1/portal/pending-review/{id}/frame"); ("GET", "/api/v1/portal/person-tracks"); ("GET", "/api/v1/portal/compliance/summary");
    ("GET", "/api/v1/portal/compliance/report.pdf"); ("GET", "/api/v1/evidence/manifests"); ("GET", "/api/v1/evidence/manifests/{id}");
    ("GET", "/api/v1/evidence/manifests/{id}/verify"); ("POST", "/api/v1/alarms/{alarmId}/escalate");
    ("POST", "/api/v1/alarms/{alarmId}/ai-feedback"); ("GET", "/api/v1/handoffs"); ("POST", "/api/v1/handoffs"); ("GET", "/api/v1/dispatch/queue");
    ("GET", "/api/v1/features"); ("GET", "/api/v1/alerts"); ("GET", "/api/v1/incidents/active");
    ("POST", "/api/v1/incidents/{incidentId}/acknowledge"); ("GET", "/api/v1/detections"); ("GET", "/api/v1/model-versions");
    ("GET", "/api/admin/labeling/stats"); ("GET", "/api/admin/labeling/jobs"); ("POST", "/api/admin/labeling/jobs/next");
    ("POST", "/api/admin/labeling/jobs/{id}/claim"); ("POST", "/api/admin/labeling/jobs/{id}/label"); ("GET", "/api/admin/labeling/export");
    ("POST", "/api/admin/reanalyze/"); ("POST", "/api/admin/reanalyze"); ("GET", "/api/admin/reanalyze/{run_id}"); ("POST", "/api/bookmarks");
    ("GET", "/api/bookmarks"); ("DELETE", "/api/bookmarks/{id}"); ("GET", "/api/speakers"); ("POST", "/api/speakers");
    ("DELETE", "/api/speakers/{id}"); ("POST", "/api/speakers/{id}/play/{messageId}"); ("POST", "/api/speakers/stop");
    ("GET", "/api/speakers/status"); ("GET", "/api/audio-messages"); ("POST", "/api/audio-messages"); ("GET", "/api/audio-messages/{id}");
    ("DELETE", "/api/audio-messages/{id}"); ("GET", "/api/audio-messages/file/{fileName}"); ("GET", "/api/speaker-info");
    ("GET", "/api/playback/{id}"); ("GET", "/api/playback/{id}/playlist.m3u8"); ("GET", "/api/live/{cameraID}/*");
    ("GET", "/api/live2/{cameraID}/ws"); ("POST", "/api/media/mint"); ("GET", "/api/cameras/{id}/vca/snapshot"); ("GET", "/ws");
    ("GET", "/ws/alerts"); ("GET", "/media/v1/{token}"); ("ANY", "/exports/*"); ("GET", "/metrics") ].

Definition method_ok (route method : string) : bool := String.eqb route "ANY" || String.eqb route method.

Definition served (method url : string) : bool := existsb (λ r, method_ok r.1 method && seg_match (pattern r.2) (segments url)) routes.

(** The requests of the clients, as their theorems describe them. *)
Definition init_method (i : Init) : string := default "GET" (in_method i).
Definition platform_requests (s1 s2 s3 : string) (data : json) (n : Z) (bo : bool) : list (string * string) :=
  ((λ c, (init_method c.2, c.1.2)) <$> platform_calls s1 s2 s3 data n bo) ++ ((λ c, (init_method c.2, c.1.2)) <$> platform_commands s1 s2 s3 data n bo).
Definition mutation_requests (id id' s s' s'' : string) (data : json) (n : option Z) (act : DeterrenceAction) (o o' : option string) (x y z : Q) : list (string * string) :=
  (λ c, (call_method c, call_url c)) <$> mutation_calls id id' s s' s'' data n act o o' x y z.

Definition unserved (l : list (string * string)) : list (string * string) := filter_where (λ r, negb (served r.1 r.2)) l.

(** ** Lemmas *)

(** An identifier that fills exactly one segment. *)
Definition plain_segment (s : string) : Prop :=
  s ≠ EmptyString ∧ ∀ c, c ∈ String.list_ascii_of_string s → c ≠ "/"%char ∧ c ≠ "?"%char ∧ c ≠ "#"%char.

#[local] Arguments String.append !_ _ : simpl nomatch.

(** Where a segment ends. *)
Definition ends (s : string) : bool := match s with String c _ => Ascii.eqb c "/" || Ascii.eqb c "?" || Ascii.eqb c "#" | EmptyString => true end.

Lemma segments_step s r : plain_segment s → ends r = true → segments (s +:+ r) = match segments r with _ :: l => s :: l | [] => [s] end.
Proof.
  intros [_ H] He. induction s as [|c s IH].
  - change (EmptyString +:+ r) with r. destruct r as [|d r]; [done|]. simpl in *. destruct (Ascii.eqb d "/"); [done|]. simpl in He. by rewrite He.
  - rewrite sapp_cons. simpl. destruct (H c) as (H1 & H2 & H3); [left|]. apply Ascii.eqb_neq in H1, H2, H3. rewrite H1, H2, H3. simpl.
    rewrite IH by (intros d Hd; apply H; by right). by destruct (segments r) as [|x l].
Qed.

Lemma segments_last s : plain_segment s → segments s = [s].
Proof.
  intros H. assert (E : s +:+ EmptyString = s). { clear. induction s as [|c s IH]; [done|]. rewrite sapp_cons. by f_equal. }
  rewrite <- E at 1. by rewrite segments_step.
Qed.

(** The bytes that encode one byte, checked for all of them. *)
Definition uri_byte (n : N) : list N := if uri_safe n then [n] else percent n.

Lemma uri_byte_plain n c : (n < 256)%N → c ∈ uri_byte n → (c < 256 ∧ c ≠ 47 ∧ c ≠ 63 ∧ c ≠ 35)%N.
Proof.
  intros Hn Hc. assert (Hall : forallb (λ n, forallb (λ c, (c <? 256) && negb (c =? 47) && negb (c =? 63) && negb (c =? 35))%N (uri_byte n)) all_bytes = true) by (vm_compute; reflexivity).
  rewrite forallb_forall in Hall. specialize (Hall n (in_all_bytes n Hn)). rewrite forallb_forall in Hall. specialize (Hall c (proj1 (list_elem_of_In _ _) Hc)).
  rewrite !andb_true_iff, !negb_true_iff, !N.eqb_neq, N.ltb_lt in Hall. tauto.
Qed.

Lemma encoded_plain l : Forall (λ n, n < 256)%N l → Forall (λ c, c < 256 ∧ c ≠ 47 ∧ c ≠ 63 ∧ c ≠ 35)%N (mjoin (uri_byte <$> l)).
Proof.
  induction 1 as [|n l Hn Hl IH]; [constructor|]. rewrite fmap_cons. change (mjoin (?a :: ?b)) with (a ++ mjoin b)%list.
  apply Forall_app; split; [|done]. apply Forall_forall. intros c. by apply uri_byte_plain.
Qed.

Lemma encode_plain s : plain_segment s → plain_segment (encodeURIComponent s).
Proof.
  intros [Hn _]. change (encodeURIComponent s) with (of_bytes (mjoin (uri_byte <$> bytes_of s))). pose proof (encoded_plain _ (bytes_of_bound s)) as H.
  split.
  - intros E. apply (f_equal bytes_of) in E. rewrite bytes_of_bytes in E by (eapply Forall_impl; [exact H|by intros ? []]).
    destruct s as [|c s]; [done|]. change (bytes_of (String c s)) with (N_of_ascii c :: bytes_of s) in E. rewrite fmap_cons in E. change (mjoin (?a :: ?b)) with (a ++ mjoin b)%list in E.
    apply app_eq_nil in E as [E _]. unfold uri_byte in E. by destruct (uri_safe (N_of_ascii c)).
  - intros c Hc. unfold of_bytes in Hc. rewrite String.list_ascii_of_string_of_list_ascii in Hc. apply list_elem_of_fmap in Hc as (n & -> & Hin).
    rewrite Forall_forall in H. destruct (H n Hin) as (H0 & H1 & H2 & H3).
    repeat split; intros E; apply (f_equal Ascii.N_of_ascii) in E; rewrite Ascii.N_ascii_embedding in E by done; vm_compute (Ascii.N_of_ascii _) in E; congruence.
Qed.

(** The table with its patterns read. *)
Definition route_table : list (string * list RouteSegment) := Eval vm_compute in (λ r, (r.1, pattern r.2)) <$> routes.

Lemma served_table method url : served method url = existsb (λ r, method_ok r.1 method && seg_match r.2 (segments url)) route_table.
Proof.
  unfold served. change route_table with ((λ r, (r.1, pattern r.2)) <$> routes). induction routes as [|r l IH]; [done|]. cbn [existsb]. rewrite IH. reflexivity.
Qed.

Lemma unserved_cons method url l b : served method url = b → unserved ((method, url) :: l) = if b then unserved l else (method, url) :: unserved l.
Proof. intros E. unfold unserved. rewrite filter_where_cons. simpl. rewrite E. by destruct b. Qed.

(** Read the segments of a URL built around plain identifiers, then look it up. *)
Ltac read_segments :=
  repeat first [ progress cbn [String.append segments Ascii.eqb Bool.eqb orb BASE API_BASE]
               | rewrite segments_step by (assumption || reflexivity)
               | rewrite segments_last by assumption ].

(** What a pattern asks of a path whose segments are either known or an identifier: nothing can satisfy
    it, or it leaves comparisons of literals with identifiers. *)
Fixpoint seg_asks (p : list RouteSegment) (l : list (string + string)) : option (list (string * string)) :=
  match p, l with
  | [], [] => Some []
  | [Rest], _ :: _ => Some []
  | Lit a :: p', inl b :: l' => if String.eqb a b then seg_asks p' l' else None
  | Lit a :: p', inr b :: l' => cons (a, b) <$> seg_asks p' l'
  | Placeholder :: p', inl b :: l' => if truthy_str b then seg_asks p' l' else None
  | Placeholder :: p', inr _ :: l' => seg_asks p' l'
  | _, _ => None
  end.

Definition piece (x : string + string) : string := match x with inl s | inr s => s end.

Lemma seg_asks_spec p l : Forall (λ x, match x with inl _ => True | inr s => s ≠ EmptyString end) l →
  seg_match p (piece <$> l) = match seg_asks p l with Some q => forallb (λ x, String.eqb x.1 x.2) q | None => false end.
Proof.
  intros H. revert p. induction H as [|x l Hx _ IH]; intros [|[a| |] p]; try done; try (by destruct p).
  - rewrite fmap_cons. destruct x as [b|b]; cbn [seg_match seg_asks piece]; rewrite IH.
    + destruct (String.eqb a b); [apply andb_true_r|apply andb_false_r].
    + destruct (seg_asks p l); simpl; [apply andb_comm|done].
  - rewrite fmap_cons. destruct x as [b|b]; cbn [seg_match seg_asks piece]; rewrite IH.
    + destruct (truthy_str b); [apply andb_true_r|apply andb_false_r].
    + destruct b; [done|]. apply andb_true_r.
Qed.

(** Decided without looking at the identifiers. *)
Definition asked_verdict (qs : list (list (string * string))) : option bool :=
  if existsb (λ q, match q with [] => true | _ => false end) qs then Some true else match qs with [] => Some false | _ => None end.
Definition asked (t : list (string * list RouteSegment)) (method : string) (l : list (string + string)) : list (list (string * string)) :=
  omap (λ r, if method_ok r.1 method then seg_asks r.2 l else None) t.

Lemma asked_verdict_cons q qs b : asked_verdict (q :: qs) = Some b → q = [] ∧ b = true ∨ asked_verdict qs = Some b ∧ b = true.
Proof.
  unfold asked_verdict. destruct q as [|x q]; simpl; [intros [= <-]; by left|]. destruct (existsb _ qs); [intros [= <-]; by right|discriminate].
Qed.

Lemma asked_spec t method l b : Forall (λ x, match x with inl _ => True | inr s => s ≠ EmptyString end) l →
  asked_verdict (asked t method l) = Some b → existsb (λ r, method_ok r.1 method && seg_match r.2 (piece <$> l)) t = b.
Proof.
  intros Hl. revert b. induction t as [|r t IH]; intros b; [by intros [= <-]|].
  cbn [existsb]. rewrite seg_asks_spec by done.
  change (asked (r :: t) method l) with (match (if method_ok r.1 method then seg_asks r.2 l else None) with Some q => q :: asked t method l | None => asked t method l end).
  destruct (method_ok r.1 method); cbn [andb orb]; [|apply IH]. destruct (seg_asks r.2 l) as [q|]; cbn [orb]; [|apply IH].
  intros [[-> ->]|[H ->]]%asked_verdict_cons; [done|]. rewrite (IH _ H). apply orb_true_r.
Qed.

Lemma served_decided method url l b : Forall (λ x, match x with inl _ => True | inr s => s ≠ EmptyString end) l →
  segments url = piece <$> l → asked_verdict (asked route_table method l) = Some b → served method url = b.
Proof. intros Hl Hs Hd. rewrite served_table, Hs. by apply asked_spec. Qed.

(** The segments as known pieces and identifiers. *)
Ltac pieces l := lazymatch l with
  | nil => constr:(@nil (string + string))
  | cons ?x ?l' => let r := pieces l' in lazymatch x with String _ _ => constr:(inl x :: r) | EmptyString => constr:(inl x :: r) | _ => constr:(inr x :: r) end
  end.
Ltac decide_served :=
  let E := fresh "E" in
  match goal with |- served ?me ?url = _ =>
    let e := open_constr:(_ : list string) in
    assert (E : segments url = e) by (read_segments; reflexivity)
  end;
  match type of E with _ = ?l => let r := pieces l in
    apply (served_decided _ _ r); [repeat (constructor; try done; try (apply encode_plain; done)); try (match goal with H : plain_segment _ |- _ => apply H end)|exact E|vm_compute; reflexivity]
  end.

Lemma rules_unserved site : plain_segment site →
  served "GET" (BASE +:+ "/sites/" +:+ site +:+ "/notifications") = false ∧ served "POST" (BASE +:+ "/sites/" +:+ site +:+ "/notifications") = false.
Proof. intros H. split; decide_served. Qed.

(** Look up the first request of the list. *)
Ltac lookup_route :=
  first [ rewrite (unserved_cons _ _ _ false) by decide_served | rewrite (unserved_cons _ _ _ true) by decide_served ]; cbv iota.

(** Which requests of the two API clients the server has no route for, whatever the identifiers: in
    [lib/ironsight-api.ts] the compliance figures, the company and the assignments of one site, the lock, the map,
    the notification rules and the exclusion zones of a site, presence and metrics, scheduled reports, integrations,
    claiming an alert and accepting a handoff; in [lib/api.ts] every change of a PPE zone or a compliance rule.
    Every other request of the first file and every other change of the second has a route. *)
Theorem unserved_exact (s1 s2 s3 s s' s'' : string) (data : json) (n : Z) (k : option Z) (bo : bool) (act : DeterrenceAction) (o o' : option string) (x y z : Q) :
  plain_segment s1 → plain_segment s2 →
  unserved (platform_requests s1 s2 s3 data n bo) =
    [ ("GET", BASE +:+ "/sites/" +:+ s1 +:+ "/compliance"); ("GET", BASE +:+ "/companies/" +:+ s1);
      ("GET", BASE +:+ "/sites/" +:+ s1 +:+ "/camera-assignments"); ("POST", BASE +:+ "/sites/" +:+ s1 +:+ "/lock");
      ("GET", BASE +:+ "/sites/" +:+ s1 +:+ "/map"); ("PUT", BASE +:+ "/sites/" +:+ s1 +:+ "/map");
      ("GET", BASE +:+ "/operators/presence"); ("GET", BASE +:+ "/operators/metrics"); ("GET", BASE +:+ "/reports/scheduled");
      ("GET", BASE +:+ "/sites/" +:+ s1 +:+ "/notifications"); ("POST", BASE +:+ "/sites/" +:+ s1 +:+ "/notifications");
      ("GET", BASE +:+ "/sites/" +:+ s1 +:+ "/zones"); ("GET", BASE +:+ "/integrations");
      ("DELETE", BASE +:+ "/sites/" +:+ s1 +:+ "/lock"); ("PUT", BASE +:+ "/alerts/" +:+ s1 +:+ "/claim");
      ("DELETE", BASE +:+ "/alerts/" +:+ s1 +:+ "/claim"); ("PUT", BASE +:+ "/handoffs/" +:+ s1 +:+ "/accept");
      ("PUT", BASE +:+ "/operators/presence"); ("PATCH", BASE +:+ "/reports/scheduled/" +:+ s1);
      ("DELETE", BASE +:+ "/notifications/" +:+ s1); ("PATCH", BASE +:+ "/integrations/" +:+ s1); ("DELETE", BASE +:+ "/integrations/" +:+ s1) ] ∧
  unserved (mutation_requests s1 s2 s s' s'' data k act o o' x y z) =
    [ ("POST", API_BASE +:+ "/cameras/" +:+ s1 +:+ "/ppe/zones"); ("PUT", API_BASE +:+ "/cameras/" +:+ s1 +:+ "/ppe/zones/" +:+ s2);
      ("DELETE", API_BASE +:+ "/cameras/" +:+ s1 +:+ "/ppe/zones/" +:+ s2); ("POST", API_BASE +:+ "/cameras/" +:+ s1 +:+ "/compliance-rules");
      ("PUT", API_BASE +:+ "/cameras/" +:+ s1 +:+ "/compliance-rules/" +:+ s2); ("DELETE", API_BASE +:+ "/cameras/" +:+ s1 +:+ "/compliance-rules/" +:+ s2) ].
Proof.
  intros H1 H2. split; [unfold platform_requests, platform_calls, platform_commands|unfold mutation_requests, mutation_calls];
    cbv beta zeta iota delta [fmap list_fmap app fst snd init_method in_method default no_init json_init with_method from_option id call_method call_url];
    pose proof (encode_plain s1 H1) as H1e; revert H1e; generalize (encodeURIComponent s1); intros e1 H1e; repeat lookup_route; done.
Qed.

Lemma unserved_exact_witness : plain_segment "S1" ∧ served "POST" (BASE +:+ "/sites/S1/lock") = false ∧
  List.length (unserved (platform_requests "S1" "C1" "L" JNull 7 true)) = 22%nat.
Proof.
  assert (H : ∀ s, s = "S1" ∨ s = "C1" → plain_segment s).
  { intros s [-> | ->]; (split; [done|]; intros c Hc; vm_compute in Hc; repeat (apply elem_of_cons in Hc as [-> |Hc]; [done|]); by apply not_elem_of_nil in Hc). }
  split; [by apply H; left|]. split; [vm_compute; reflexivity|].
  destruct (unserved_exact "S1" "C1" "L" "" "" "" JNull 7 None true Strobe None None 0%Q 0%Q 0%Q) as [E _]; [by apply H; left|by apply H; right|].
  rewrite E. reflexivity.
Defined.
