(* ===== verification/MsePlayer.v ===== *)
(** * The low-latency player

    [lib/mse-player.ts]: the byte patch of the HEVC init segment, with the Go
    function it mirrors, and the player as a state machine driven by the events of
    the WebSocket, the SourceBuffer and its caller. *)

From S2P Require Import Prelude.
From Stdlib Require Import QArith Qminmax.
#[local] Open Scope Z_scope.

(** ** The hvcC patch

    A segment is the list of its bytes, each from 0 to 255. *)

Abbreviation bytes := (list Z) (only parsing).

Definition len (bs : bytes) : Z := Z.of_nat (length bs).

(** [bytes[i]] at an index in range. *)
Definition at_ (bs : bytes) (i : Z) : Z := default 0 (bs !! Z.to_nat i).

(** [bytes[i] |= 0x80] *)
Definition or80 (i : Z) (bs : bytes) : bytes :=
  alter (λ b, Z.lor b 128) (Z.to_nat i) bs.

(** The 16-bit big-endian number at [i]. *)
Definition word (bs : bytes) (i : Z) : Z := Z.lor (Z.shiftl (at_ bs i) 8) (at_ bs (i + 1)).

(** The loop that looks for the marker [0x68 0x76 0x63 0x43]. *)
Fixpoint find_hvcc (bs : bytes) : option Z :=
  match bs with
  | a :: ((b :: c :: d :: _) as r) =>
      if (a =? 104) && (b =? 118) && (c =? 99) && (d =? 67) then Some 0
      else Z.succ <$> find_hvcc r
  | _ => None
  end.

(** The inner loop; [None] is the early return. *)
Fixpoint skip_nalus (numNalus : nat) (bs : bytes) (off : Z) : option Z :=
  match numNalus with
  | O => Some off
  | S n =>
      if off <? len bs then
        if len bs <? off + 2 then None
        else skip_nalus n bs (off + (2 + word bs off))
      else Some off
  end.

(** The outer loop. *)
Fixpoint patch_arrays (numArrays : nat) (bs : bytes) (off : Z) : bytes :=
  match numArrays with
  | O => bs
  | S n =>
      if off <? len bs then
        let bs := or80 off bs in
        let off := off + 1 in
        if len bs <? off + 2 then bs
        else
          let numNalus := word bs off in
          match skip_nalus (Z.to_nat numNalus) bs (off + 2) with
          | None => bs
          | Some off => patch_arrays n bs off
          end
      else bs
  end.

Definition applyHvccPatch (buf : bytes) : bytes :=
  match find_hvcc buf with
  | None => buf
  | Some start =>
      let off := start + 26 in
      if len buf <=? off then buf
      else patch_arrays (Z.to_nat (at_ buf off)) buf (off + 1)
  end.

Definition PATCH_INIT_HVCC : bool := true.

Definition patchInitSegmentHvcc (buf : bytes) : bytes :=
  if PATCH_INIT_HVCC then applyHvccPatch buf else buf.

(** ** The Go function of the HLS path (internal/api/live_proxy.go) *)

Module Go.

(** [bytes.Index(s, sep)]: the first position at which [sep] occurs. *)
Fixpoint Index (s sep : bytes) : option Z :=
  if decide (take (length sep) s = sep) then Some 0
  else match s with
       | [] => None
       | _ :: s' => Z.succ <$> Index s' sep
       end.

Fixpoint nalu_loop (n : nat) (out : bytes) (off : Z) : option Z :=
  match n with
  | O => Some off
  | S n' =>
      if off <? len out then
        if off + 2 >? len out then None
        else let naluLen := Z.lor (Z.shiftl (at_ out off) 8) (at_ out (off + 1)) in
             nalu_loop n' out (off + 2 + naluLen)
      else Some off
  end.

Fixpoint array_loop (n : nat) (out : bytes) (off : Z) : bytes :=
  match n with
  | O => out
  | S n' =>
      if off <? len out then
        let out := alter (λ b, Z.lor b 128) (Z.to_nat off) out in
        if off + 1 + 2 >? len out then out
        else
          let numNalus := Z.lor (Z.shiftl (at_ out (off + 1)) 8) (at_ out (off + 1 + 1)) in
          match nalu_loop (Z.to_nat numNalus) out (off + 1 + 2) with
          | None => out
          | Some off' => array_loop n' out off'
          end
      else out
  end.

Definition patchHVCCCompleteness (body : bytes) : bytes :=
  match Index body [104; 118; 99; 67] with
  | None => body
  | Some start =>
      let off := start + 26 in
      if off >=? len body then body
      else array_loop (Z.to_nat (at_ body off)) body (off + 1)
  end.

End Go.

(** ** Lemmas on the patch *)

Definition set80 (a b : Z) : Prop := b = a ∨ b = Z.lor a 128.

Lemma length_or80 i bs : length (or80 i bs) = length bs.
Proof. apply length_alter. Qed.

Lemma len_or80 i bs : len (or80 i bs) = len bs.
Proof. unfold len. by rewrite length_or80. Qed.

Lemma or80_lookup i bs k :
  or80 i bs !! k = (if decide (k = Z.to_nat i) then λ b, Z.lor b 128 else id) <$> bs !! k.
Proof.
  unfold or80. destruct (decide (k = Z.to_nat i)) as [->|].
  - by rewrite list_lookup_alter_eq.
  - rewrite list_lookup_alter_ne by done. by rewrite option_fmap_id.
Qed.

Lemma at_or80_ne i j bs : 0 ≤ i → 0 ≤ j → i ≠ j → at_ (or80 i bs) j = at_ bs j.
Proof.
  intros. unfold at_. rewrite or80_lookup. destruct (decide _); [lia|]. by rewrite option_fmap_id.
Qed.

Lemma word_or80 i j bs : 0 ≤ i → i < j → word (or80 i bs) j = word bs j.
Proof. intros. unfold word. by rewrite !at_or80_ne by lia. Qed.

Lemma or80_or80 i bs : or80 i (or80 i bs) = or80 i bs.
Proof.
  apply list_eq. intros k. rewrite !or80_lookup. destruct (decide _), (bs !! k); simpl; try done.
  by rewrite <- Z.lor_assoc, Z.lor_diag.
Qed.

Lemma or80_comm i j bs : or80 i (or80 j bs) = or80 j (or80 i bs).
Proof.
  apply list_eq. intros k. rewrite !or80_lookup. by destruct (decide _), (decide _), (bs !! k).
Qed.

Lemma skip_nalus_or80 n bs i off : 0 ≤ i → i < off → (∀ j, 0 ≤ at_ bs j) →
  skip_nalus n (or80 i bs) off = skip_nalus n bs off.
Proof.
  intros Hi Hoff Hpos. revert off Hoff. induction n as [|n IH]; intros off Hoff; simpl; [done|].
  rewrite len_or80, word_or80 by lia.
  destruct (off <? len bs); [|done]. destruct (_ <? _); [done|]. apply IH.
  assert (0 ≤ word bs off); [|lia]. unfold word. apply Z.lor_nonneg. split; [|apply Hpos].
  apply Z.shiftl_nonneg, Hpos.
Qed.

Lemma skip_nalus_ge n bs off off' : (∀ j, 0 ≤ at_ bs j) → skip_nalus n bs off = Some off' → off ≤ off'.
Proof.
  intros Hpos. revert off. induction n as [|n IH]; intros off; simpl; [intros [= ->]; lia|].
  destruct (off <? len bs); [|intros [= ->]; lia]. destruct (_ <? _); [done|].
  intros H%IH. assert (0 ≤ word bs off); [|lia]. unfold word. apply Z.lor_nonneg.
  split; [apply Z.shiftl_nonneg|]; apply Hpos.
Qed.

Definition is_bytes (bs : bytes) : Prop := Forall (λ b, 0 ≤ b < 256) bs.

Lemma at_nonneg bs i : is_bytes bs → 0 ≤ at_ bs i.
Proof.
  intros H. unfold at_. destruct (bs !! Z.to_nat i) as [b|] eqn:E; simpl; [|lia].
  by apply (Forall_lookup_1 _ _ _ _ H E).
Qed.

Lemma word_nonneg bs i : is_bytes bs → 0 ≤ word bs i.
Proof.
  intros H. unfold word. apply Z.lor_nonneg. split; [apply Z.shiftl_nonneg|]; by apply at_nonneg.
Qed.

Lemma lor128_byte b : 0 ≤ b < 256 → 0 ≤ Z.lor b 128 < 256.
Proof.
  intros Hb. assert (H : forallb (λ b, (0 <=? Z.lor b 128) && (Z.lor b 128 <? 256)) (seqZ 0 256) = true)
    by (vm_compute; reflexivity).
  rewrite forallb_forall in H. specialize (H b ltac:(apply list_elem_of_In, elem_of_seqZ; lia)).
  apply andb_prop in H as [?%Z.leb_le ?%Z.ltb_lt]. done.
Qed.

Lemma is_bytes_or80 i bs : is_bytes bs → is_bytes (or80 i bs).
Proof.
  intros H. apply Forall_lookup. intros k b. rewrite or80_lookup, fmap_Some.
  intros (b' & Hb & ->). pose proof (Forall_lookup_1 _ _ _ _ H Hb) as Hb'. simpl in Hb'.
  destruct (decide _); [by apply lor128_byte|done].
Qed.

(** [bs'] is [bs] with the top bit of some bytes set, none of them before [off]. *)
Definition patched_from (off : Z) (bs bs' : bytes) : Prop :=
  Forall2 set80 bs bs' ∧ ∀ k, 0 ≤ k < off → at_ bs' k = at_ bs k.

Lemma patched_refl off bs : patched_from off bs bs.
Proof. split; [|done]. apply Forall_Forall2_diag, Forall_true. by left. Qed.

Lemma set80_trans a b c : set80 a b → set80 b c → set80 a c.
Proof.
  intros [->| ->] [->| ->]; unfold set80; auto. right. by rewrite <- Z.lor_assoc, Z.lor_diag.
Qed.

Lemma patched_weaken off off' bs bs' : off ≤ off' → patched_from off' bs bs' → patched_from off bs bs'.
Proof. intros H [H1 H2]. split; [done|]. intros k Hk. apply H2. lia. Qed.

Lemma patched_or80 off bs bs' :
  0 ≤ off → patched_from (off + 1) (or80 off bs) bs' → patched_from off bs bs'.
Proof.
  intros H0 [H1 H2]. split.
  - apply Forall2_same_length_lookup_2.
    { rewrite <- (Forall2_length _ _ _ H1). by rewrite length_or80. }
    intros k x y Hx Hy. eapply set80_trans.
    2: { eapply (Forall2_lookup_lr _ _ _ k); [exact H1| |exact Hy]. by rewrite or80_lookup, Hx. }
    destruct (decide _); [by right|by left].
  - intros k Hk. rewrite H2 by lia. apply at_or80_ne; lia.
Qed.

Lemma patched_word off bs bs' j :
  patched_from off bs bs' → 0 ≤ j → j + 1 < off → word bs' j = word bs j.
Proof. intros [_ H] ? ?. unfold word. by rewrite !H by lia. Qed.

Lemma patched_len off bs bs' : patched_from off bs bs' → len bs' = len bs.
Proof. intros [H _]. unfold len. by rewrite (Forall2_length _ _ _ H). Qed.

Lemma skip_nalus_le n bs off off' : is_bytes bs → skip_nalus n bs off = Some off' → off ≤ off'.
Proof. intros H. apply skip_nalus_ge. intros j. by apply at_nonneg. Qed.

(** The patch only sets top bits, from [off] on. *)
Lemma patch_arrays_sets n bs off :
  is_bytes bs → 0 ≤ off → patched_from off bs (patch_arrays n bs off).
Proof.
  revert bs off. induction n as [|n IH]; intros bs off Hb H0; simpl; [apply patched_refl|].
  destruct (off <? len bs); [|apply patched_refl]. apply patched_or80; [done|].
  pose proof (is_bytes_or80 off bs Hb) as Hb'.
  destruct (_ <? _); [apply patched_refl|].
  destruct (skip_nalus _ _ _) as [off'|] eqn:E; [|apply patched_refl].
  apply skip_nalus_le in E; [|done]. eapply patched_weaken; [|apply IH; [done|lia]]. lia.
Qed.

(** Reading the lengths again after the patch gives the same walk. *)
Lemma skip_nalus_patched n bs bs' off off' :
  is_bytes bs → 0 ≤ off → patched_from off' bs bs' →
  skip_nalus n bs off = Some off' → skip_nalus n bs' off = Some off'.
Proof.
  intros Hb H0 Hp. revert off H0. induction n as [|n IH]; intros off H0; simpl; [done|].
  rewrite (patched_len _ _ _ Hp). destruct (off <? len bs); [|done]. destruct (_ <? _); [done|].
  pose proof (word_nonneg bs off Hb). intros E. pose proof (skip_nalus_le _ _ _ _ Hb E).
  rewrite (patched_word _ _ _ _ Hp) by lia. apply IH; [lia|done].
Qed.

Lemma or80_fixed i bs : at_ bs i = Z.lor (at_ bs i) 128 → or80 i bs = bs.
Proof.
  intros H. apply list_eq. intros k. rewrite or80_lookup. destruct (decide _) as [->|]; [|by destruct (_ !! _)].
  unfold at_ in H. destruct (bs !! Z.to_nat i) as [b|]; simpl in *; [by rewrite <- H|done].
Qed.

Lemma patch_arrays_idem n bs off :
  is_bytes bs → 0 ≤ off → patch_arrays n (patch_arrays n bs off) off = patch_arrays n bs off.
Proof.
  revert bs off. induction n as [|n IH]; intros bs off Hb H0; [done|].
  cbn [patch_arrays]. destruct (off <? len bs) eqn:Hl; [|by rewrite Hl].
  pose proof (is_bytes_or80 off bs Hb) as Hb'. rewrite len_or80.
  destruct (len bs <? off + 1 + 2) eqn:Hl2.
  { rewrite len_or80, Hl, or80_or80, len_or80, Hl2. done. }
  set (w := word (or80 off bs) (off + 1)).
  destruct (skip_nalus (Z.to_nat w) (or80 off bs) (off + 1 + 2)) as [off'|] eqn:E.
  2: { rewrite len_or80, Hl, or80_or80, len_or80, Hl2. fold w. by rewrite E. }
  pose proof (skip_nalus_le _ _ _ _ Hb' E).
  pose proof (patch_arrays_sets n (or80 off bs) off' Hb' ltac:(lia)) as Hp.
  set (bs' := patch_arrays n (or80 off bs) off') in *.
  assert (Hfix : or80 off bs' = bs').
  { apply or80_fixed. destruct Hp as [_ Hp]. rewrite Hp by lia. unfold at_. rewrite or80_lookup.
    rewrite decide_True by done.
    assert (is_Some (bs !! Z.to_nat off)) as [x ->] by (apply lookup_lt_is_Some; unfold len in Hl; apply Z.ltb_lt in Hl; lia).
    simpl. by rewrite <- Z.lor_assoc, Z.lor_diag. }
  assert (Hlen : len bs' = len bs) by (by rewrite (patched_len _ _ _ Hp), len_or80).
  rewrite Hlen, Hl, Hfix, Hlen, Hl2, (patched_word _ _ _ _ Hp) by lia. fold w.
  rewrite (skip_nalus_patched (Z.to_nat w) _ _ (off + 1 + 2) off' Hb' ltac:(lia) Hp E). apply IH; [done|lia].
Qed.

(** Both walks of the two languages are the same. *)
Lemma nalu_loop_eq n out off : Go.nalu_loop n out off = skip_nalus n out off.
Proof.
  revert off. induction n as [|n IH]; intros off; simpl; [done|].
  rewrite Z.gtb_ltb. destruct (off <? len out); [|done]. destruct (_ <? _); [done|].
  rewrite IH. f_equal. unfold word. lia.
Qed.

Lemma array_loop_eq n out off : Go.array_loop n out off = patch_arrays n out off.
Proof.
  revert out off. induction n as [|n IH]; intros out off; simpl; [done|].
  destruct (off <? len out); [|done]. fold (or80 off out). rewrite Z.gtb_ltb.
  destruct (_ <? _); [done|]. rewrite nalu_loop_eq. fold (word (or80 off out) (off + 1)).
  destruct (skip_nalus _ _ _); [apply IH|done].
Qed.

Lemma find_hvcc_eq bs : Go.Index bs [104; 118; 99; 67] = find_hvcc bs.
Proof.
  induction bs as [|a r IH]; [done|].
  destruct r as [|b [|c [|d r]]];
    [by cbn [Go.Index length take]; repeat (rewrite decide_False by done)..|].
  change (find_hvcc (a :: b :: c :: d :: r)) with
    (if (a =? 104) && (b =? 118) && (c =? 99) && (d =? 67) then Some 0
     else Z.succ <$> find_hvcc (b :: c :: d :: r)).
  rewrite <- IH. cbn [Go.Index length take]. rewrite take_0.
  destruct (decide ([a; b; c; d] = _)) as [E|E].
  - injection E as -> -> -> ->. done.
  - destruct ((a =? 104) && (b =? 118) && (c =? 99) && (d =? 67)) eqn:Hm; [|done].
    exfalso. apply E. repeat (apply andb_prop in Hm as [Hm ?]). repeat f_equal; lia.
Qed.

Lemma find_hvcc_bound bs start : find_hvcc bs = Some start → 0 ≤ start ∧ start + 4 ≤ len bs.
Proof.
  revert start. induction bs as [|a r IH]; intros start; [done|].
  destruct r as [|b [|c [|d r]]]; [done..|].
  change (find_hvcc (a :: b :: c :: d :: r)) with
    (if (a =? 104) && (b =? 118) && (c =? 99) && (d =? 67) then Some 0
     else Z.succ <$> find_hvcc (b :: c :: d :: r)).
  destruct (_ && _); [intros [= <-]; unfold len; simpl; lia|].
  intros (s & Hs & ->)%fmap_Some. apply IH in Hs. unfold len in *. simpl in *. lia.
Qed.

(** The search only looks at the bytes up to the marker. *)
Lemma find_hvcc_patched bs bs' start :
  find_hvcc bs = Some start → patched_from (start + 4) bs bs' → find_hvcc bs' = Some start.
Proof.
  revert bs' start. induction bs as [|a r IH]; intros bs' start; [done|].
  destruct r as [|b [|c [|d r]]]; [done..|].
  change (find_hvcc (a :: b :: c :: d :: r)) with
    (if (a =? 104) && (b =? 118) && (c =? 99) && (d =? 67) then Some 0
     else Z.succ <$> find_hvcc (b :: c :: d :: r)).
  intros Hf [H2 Hp].
  assert (H0 : 0 ≤ start).
  { destruct (_ && _); [by injection Hf as <-|]. apply fmap_Some in Hf as (s & Hs & ->).
    apply find_hvcc_bound in Hs. lia. }
  inversion H2 as [|? a' ? r' Ha Hr]; subst.
  inversion Hr as [|? b' ? r2 Hb Hr2]; subst. inversion Hr2 as [|? c' ? r3 Hc Hr3]; subst.
  inversion Hr3 as [|? d' ? r4 Hd Hr4]; subst.
  assert (a' = a) as -> by (apply (Hp 0); lia). assert (b' = b) as -> by (apply (Hp 1); lia).
  assert (c' = c) as -> by (apply (Hp 2); lia). assert (d' = d) as -> by (apply (Hp 3); lia).
  change (find_hvcc (a :: b :: c :: d :: r4)) with
    (if (a =? 104) && (b =? 118) && (c =? 99) && (d =? 67) then Some 0
     else Z.succ <$> find_hvcc (b :: c :: d :: r4)).
  destruct (_ && _); [done|]. apply fmap_Some in Hf as (s & Hs & ->).
  rewrite (IH _ _ Hs); [done|]. split; [done|]. intros k Hk.
  specialize (Hp (k + 1) ltac:(lia)). unfold at_ in *.
  replace (Z.to_nat (k + 1)) with (S (Z.to_nat k)) in Hp by lia. exact Hp.
Qed.

Lemma applyHvccPatch_sets buf :
  is_bytes buf → ∃ off, 0 ≤ off ∧ patched_from off buf (applyHvccPatch buf) ∧
    ∀ start, find_hvcc buf = Some start → start + 27 ≤ off.
Proof.
  intros Hb. unfold applyHvccPatch. destruct (find_hvcc buf) as [start|] eqn:E.
  2: { exists 0. split_and!; [done|apply patched_refl|done]. }
  apply find_hvcc_bound in E as [H0 _]. exists (start + 27).
  split_and!; [lia| |intros s [= <-]; lia].
  destruct (_ <=? _); [apply patched_refl|].
  replace (start + 27) with (start + 26 + 1) by lia. apply patch_arrays_sets; [done|lia].
Qed.

(** C7. The init-segment patch is safe: it keeps the length, changes no byte
    except by setting its top bit, never touches the bytes up to the array count,
    is idempotent, and does exactly what the server does for the HLS path. *)
Theorem hvcc_patch_safe (buf : bytes) (Hb : is_bytes buf) :
  let buf' := patchInitSegmentHvcc buf in
  length buf' = length buf ∧
  Forall2 (λ a b, b = a ∨ b = Z.lor a 128) buf buf' ∧
  (∀ start k, find_hvcc buf = Some start → 0 ≤ k ≤ start + 26 → at_ buf' k = at_ buf k) ∧
  patchInitSegmentHvcc buf' = buf' ∧
  buf' = Go.patchHVCCCompleteness buf.
Proof.
  intros buf'. destruct (applyHvccPatch_sets buf Hb) as (off & H0 & Hp & Hoff).
  change (applyHvccPatch buf) with buf' in Hp. split_and!.
  - symmetry. apply (Forall2_length _ _ _ (proj1 Hp)).
  - exact (proj1 Hp).
  - intros start k Hs Hk. apply Hp. specialize (Hoff start Hs). lia.
  - unfold buf', patchInitSegmentHvcc, PATCH_INIT_HVCC. fold (applyHvccPatch buf).
    destruct (find_hvcc buf) as [start|] eqn:E.
    2: { unfold applyHvccPatch at 2 3. rewrite E. unfold applyHvccPatch. by rewrite E. }
    specialize (Hoff start eq_refl). destruct (find_hvcc_bound _ _ E) as [Hs0 _].
    change (applyHvccPatch buf) with buf' in *.
    assert (Ef : find_hvcc buf' = Some start)
      by (eapply find_hvcc_patched; [done|]; eapply patched_weaken; [|exact Hp]; lia).
    assert (Hat : at_ buf' (start + 26) = at_ buf (start + 26)) by (apply Hp; lia).
    unfold applyHvccPatch at 1. rewrite Ef, (patched_len _ _ _ Hp), Hat.
    unfold buf', patchInitSegmentHvcc, PATCH_INIT_HVCC, applyHvccPatch. rewrite E.
    destruct (len buf <=? start + 26); [done|]. apply patch_arrays_idem; [done|lia].
  - unfold buf', patchInitSegmentHvcc, PATCH_INIT_HVCC, applyHvccPatch, Go.patchHVCCCompleteness.
    rewrite find_hvcc_eq. destruct (find_hvcc buf) as [start|]; [|done].
    rewrite Z.geb_leb. destruct (_ <=? _); [done|]. by rewrite array_loop_eq.
Qed.

Definition example_init : bytes :=
  [0; 0; 0; 54] ++ [104; 118; 99; 67] ++ repeat 1 22 ++ [2] ++
  [32; 0; 1; 0; 2; 64; 1] ++ [33; 0; 1; 0; 1; 66] ++ [109; 111; 111; 118].

Lemma hvcc_patch_safe_witness :
  let buf' := patchInitSegmentHvcc example_init in
  buf' = Go.patchHVCCCompleteness example_init ∧ at_ buf' 31 = 160 ∧ at_ buf' 38 = 161.
Proof.
  split; [|vm_compute; done].
  apply (hvcc_patch_safe example_init). apply (bool_decide_unpack _). vm_compute. exact I.
Defined.

(** ** Well-formed init segments *)

(** A 16-bit big-endian number. *)
Definition enc16 (n : Z) : bytes := [Z.shiftr n 8; Z.land n 255].

(** A NAL unit and a NAL array of the hvcC box (ISO/IEC 14496-15). *)
Definition enc_nalu (nalu : bytes) : bytes := enc16 (len nalu) ++ nalu.

Definition enc_array (a : Z * list bytes) : bytes :=
  a.1 :: enc16 (Z.of_nat (length a.2)) ++ mjoin (enc_nalu <$> a.2).

Definition small (n : nat) : Prop := Z.of_nat n < 65536.

Definition array_ok (a : Z * list bytes) : Prop :=
  small (length a.2) ∧ Forall (λ nalu, small (length nalu)) a.2.

Lemma len_app a b : len (a ++ b) = len a + len b.
Proof. unfold len. rewrite length_app. lia. Qed.

Lemma at_app_r a b i : 0 ≤ i → at_ (a ++ b) (len a + i) = at_ b i.
Proof.
  intros. unfold at_, len. rewrite lookup_app_r by lia. do 2 f_equal. lia.
Qed.

Lemma enc16_value n : Z.lor (Z.shiftl (Z.shiftr n 8) 8) (Z.land n 255) = n.
Proof.
  change 255 with (Z.ones 8). rewrite <- Z.ldiff_ones_r by lia. apply Z.bits_inj'. intros k Hk.
  rewrite Z.lor_spec, Z.ldiff_spec, Z.land_spec. by destruct (Z.testbit n k), (Z.testbit (Z.ones 8) k).
Qed.

Lemma word_enc16 pre n post : word (pre ++ enc16 n ++ post) (len pre) = n.
Proof.
  unfold word. rewrite <- (Z.add_0_r (len pre)) at 1. rewrite !at_app_r by lia. apply enc16_value.
Qed.

Lemma len_enc16 n : len (enc16 n) = 2.
Proof. done. Qed.

(** The inner loop steps over encoded NAL units. *)
Lemma skip_nalus_encoded nalus pre post :
  Forall (λ nalu, small (length nalu)) nalus →
  skip_nalus (length nalus) (pre ++ mjoin (enc_nalu <$> nalus) ++ post) (len pre) =
  Some (len (pre ++ mjoin (enc_nalu <$> nalus))).
Proof.
  intros H. revert pre. induction H as [|nalu nalus Hn Hl IH]; intros pre.
  { simpl. by rewrite app_nil_r. }
  rewrite fmap_cons. change (mjoin (?a :: ?b)) with (a ++ mjoin b).
  set (rest := mjoin (enc_nalu <$> nalus)) in *. cbn [skip_nalus length].
  assert (E : pre ++ (enc_nalu nalu ++ rest) ++ post =
              pre ++ enc16 (len nalu) ++ (nalu ++ rest ++ post)) by (by rewrite <- !app_assoc).
  rewrite E. rewrite word_enc16, !len_app, len_enc16.
  assert (0 ≤ len nalu ∧ 0 ≤ len rest ∧ 0 ≤ len post) as (? & ? & ?) by (unfold len; lia).
  rewrite (proj2 (Z.ltb_lt _ _)) by lia. rewrite (proj2 (Z.ltb_ge _ _)) by lia.
  rewrite <- E. specialize (IH (pre ++ enc_nalu nalu)).
  rewrite <- !app_assoc in IH. rewrite <- !app_assoc.
  replace (len pre + (2 + len nalu)) with (len (pre ++ enc_nalu nalu));
    [|unfold enc_nalu; rewrite !len_app, len_enc16; lia].
  rewrite IH. f_equal. unfold enc_nalu. rewrite !len_app, len_enc16. lia.
Qed.

Definition complete (a : Z * list bytes) : Z * list bytes := (Z.lor a.1 128, a.2).

Lemma or80_app pre x post : or80 (len pre) (pre ++ x :: post) = pre ++ Z.lor x 128 :: post.
Proof.
  unfold or80, len. rewrite Nat2Z.id. induction pre as [|y pre IH]; [done|]. simpl. by f_equal.
Qed.

Lemma patch_arrays_flag n pre flag count tail :
  patch_arrays (S n) (pre ++ flag :: enc16 count ++ tail) (len pre) =
  let bs := pre ++ Z.lor flag 128 :: enc16 count ++ tail in
  match skip_nalus (Z.to_nat count) bs (len pre + 3) with
  | None => bs
  | Some off => patch_arrays n bs off
  end.
Proof.
  set (bs := pre ++ Z.lor flag 128 :: enc16 count ++ tail). cbv zeta.
  cbn [patch_arrays]. rewrite or80_app. fold bs.
  assert (Hlen : len (pre ++ flag :: enc16 count ++ tail) = len bs)
    by (unfold bs, len; rewrite !length_app; simpl; lia).
  rewrite Hlen. assert (len pre + 3 ≤ len bs)
    by (unfold bs, len; rewrite !length_app; simpl; rewrite ?length_app; lia).
  rewrite (proj2 (Z.ltb_lt _ _)) by lia. rewrite (proj2 (Z.ltb_ge _ _)) by lia.
  assert (Hw : word bs (len pre + 1) = count).
  { replace (len pre + 1) with (len (pre ++ [Z.lor flag 128])) by (rewrite len_app; done).
    unfold bs. rewrite (cons_middle (Z.lor flag 128) pre). rewrite app_assoc. apply word_enc16. }
  rewrite Hw. by replace (len pre + 1 + 2) with (len pre + 3) by lia.
Qed.

(** The outer loop completes encoded arrays. *)
Lemma patch_arrays_encoded arrays pre post :
  Forall array_ok arrays →
  patch_arrays (length arrays) (pre ++ mjoin (enc_array <$> arrays) ++ post) (len pre) =
  pre ++ mjoin (enc_array ∘ complete <$> arrays) ++ post.
Proof.
  intros H. revert pre. induction H as [|[flag nalus] arrays [Hs Hn] Hl IH]; intros pre; [done|].
  rewrite !fmap_cons. change (mjoin (?a :: ?b)) with (a ++ mjoin b).
  set (rest := mjoin (enc_array <$> arrays)) in *.
  set (rest' := mjoin (enc_array ∘ complete <$> arrays)) in *.
  unfold compose at 1. unfold enc_array at 1 2, complete at 1. cbn [fst snd length].
  set (units := mjoin (enc_nalu <$> nalus)). set (count := Z.of_nat (length nalus)).
  rewrite <- !app_assoc. cbn [app]. rewrite <- !app_assoc. rewrite patch_arrays_flag.
  set (pre2 := pre ++ Z.lor flag 128 :: enc16 count).
  assert (E : ∀ x, pre ++ Z.lor flag 128 :: enc16 count ++ x = pre2 ++ x)
    by (intros x; unfold pre2; by rewrite <- app_assoc).
  rewrite !E. unfold count. rewrite Nat2Z.id.
  replace (len pre + 3) with (len pre2) by (unfold pre2, len; rewrite length_app; simpl; lia).
  rewrite skip_nalus_encoded by done. fold units. rewrite !app_assoc. rewrite <- !(app_assoc (pre2 ++ units)).
  apply IH.
Qed.

(** On a well-formed init segment the patch completes exactly the NAL arrays:
    whatever precedes and follows the box, every array of the hvcC box gets its
    array_completeness bit and no other byte changes, for any number of arrays and
    NAL units of any size. *)
Theorem hvcc_patch_completes (pre fixed post : bytes) (arrays : list (Z * list bytes))
  (Hpre : find_hvcc (pre ++ [104; 118; 99; 67] ++ fixed ++ [Z.of_nat (length arrays)] ++
                     mjoin (enc_array <$> arrays) ++ post) = Some (len pre))
  (Hfixed : length fixed = 22%nat) (Ha : Forall array_ok arrays) :
  patchInitSegmentHvcc (pre ++ [104; 118; 99; 67] ++ fixed ++ [Z.of_nat (length arrays)] ++
                        mjoin (enc_array <$> arrays) ++ post) =
  pre ++ [104; 118; 99; 67] ++ fixed ++ [Z.of_nat (length arrays)] ++
  mjoin (enc_array ∘ complete <$> arrays) ++ post.
Proof.
  set (head := pre ++ [104; 118; 99; 67] ++ fixed).
  assert (E : ∀ x, pre ++ [104; 118; 99; 67] ++ fixed ++ x = head ++ x)
    by (intros x; unfold head; by rewrite <- !app_assoc).
  unfold patchInitSegmentHvcc, PATCH_INIT_HVCC, applyHvccPatch. rewrite Hpre. rewrite !E.
  assert (Hh : len pre + 26 = len head) by (unfold head, len; rewrite !length_app, Hfixed; simpl; lia).
  rewrite Hh. rewrite (proj2 (Z.leb_gt _ _)) by (rewrite !len_app; unfold len; simpl; lia).
  assert (Hat : at_ (head ++ [Z.of_nat (length arrays)] ++ mjoin (enc_array <$> arrays) ++ post) (len head)
                = Z.of_nat (length arrays)).
  { rewrite <- (Z.add_0_r (len head)). by rewrite at_app_r by lia. }
  rewrite Hat, Nat2Z.id.
  replace (len head + 1) with (len (head ++ [Z.of_nat (length arrays)])) by (rewrite len_app; done).
  rewrite !(app_assoc head). by apply patch_arrays_encoded.
Qed.

Lemma hvcc_patch_completes_witness :
  patchInitSegmentHvcc ([1; 2] ++ [104; 118; 99; 67] ++ repeat 0 22 ++ [2] ++
    mjoin (enc_array <$> [(32, [[7; 8]]); (34, [[9]; []])]) ++ [5]) =
  [1; 2] ++ [104; 118; 99; 67] ++ repeat 0 22 ++ [2] ++
    mjoin (enc_array ∘ complete <$> [(32, [[7; 8]]); (34, [[9]; []])]) ++ [5].
Proof.
  apply (hvcc_patch_completes [1; 2] (repeat 0 22) [5] [(32, [[7; 8]]); (34, [[9]; []])]).
  - vm_compute. reflexivity.
  - reflexivity.
  - repeat constructor; unfold small; simpl; lia.
Defined.

(** ** The player as a state machine

    The browser reports what it can decode, whether [addSourceBuffer] and
    [appendBuffer] throw, what is buffered and where the playhead is; an append is
    over when [updateend] fires. *)

Record Support := mkSupport {
  isTypeSupported : string → bool;
  addSourceBuffer_throws : option string
}.

(** What [video.buffered] and [video.currentTime] show, in seconds. *)
Record Video := mkVideo { buffered : list (Q * Q); currentTime : Q }.

Record Player := mkPlayer {
  closed : bool;
  ws : bool;                    (* the socket variable is set *)
  mediaSource : bool;           (* the media source variable is set *)
  sourceBuffer : option bool;   (* set, and whether it is updating *)
  queue : list bytes;
  initAppended : bool;
  seekedToLive : bool;
  (* what the browser and the caller have seen *)
  appended : list bytes;
  sent : list (list string);
  seeks : list Q;
  errors : list (string * string)
}.

Definition initial_player : Player :=
  mkPlayer false false true None [] false false [] [] [] [].

Definition set_queue (q : list bytes) (p : Player) : Player :=
  mkPlayer (closed p) (ws p) (mediaSource p) (sourceBuffer p) q (initAppended p) (seekedToLive p)
    (appended p) (sent p) (seeks p) (errors p).

Definition set_sourceBuffer (sb : option bool) (p : Player) : Player :=
  mkPlayer (closed p) (ws p) (mediaSource p) sb (queue p) (initAppended p) (seekedToLive p)
    (appended p) (sent p) (seeks p) (errors p).

(** [handle.close()] *)
Definition close (p : Player) : Player :=
  if closed p then p
  else mkPlayer true false false None [] (initAppended p) (seekedToLive p)
         (appended p) (sent p) (seeks p) (errors p).

Definition fail (message detail : string) (p : Player) : Player :=
  if closed p then p
  else close (mkPlayer (closed p) (ws p) (mediaSource p) (sourceBuffer p) (queue p)
                (initAppended p) (seekedToLive p) (appended p) (sent p) (seeks p)
                (errors p ++ [(message, detail)])).

(** The start of the first and the end of the last buffered range. *)
Definition buffered_span (v : Video) : option (Q * Q) :=
  match buffered v, last (buffered v) with
  | (s, _) :: _, Some (_, e) => Some (s, e)
  | _, _ => None
  end.

Definition seekToLiveEdge (v : Video) (p : Player) : Player :=
  match seekedToLive p, sourceBuffer p, buffered_span v with
  | false, Some _, Some (start, edge) =>
      if negb (Qle_bool edge 0) &&
         (negb (Qle_bool start (currentTime v)) || Qeq_bool (currentTime v) 0)
      then mkPlayer (closed p) (ws p) (mediaSource p) (sourceBuffer p) (queue p) (initAppended p)
             true (appended p) (sent p) (seeks p ++ [Qmax start (edge - (3 # 10))%Q]) (errors p)
      else p
  | _, _, _ => p
  end.

(** [throws] is the message of an exception of [appendBuffer]. *)
Definition drainQueue (v : Video) (throws : option string) (p : Player) : Player :=
  match sourceBuffer p, queue p with
  | Some false, chunk :: rest =>
      match throws with
      | Some e => fail "Playback error in browser" ("appendBuffer: " +:+ e) (set_queue rest p)
      | None =>
          mkPlayer (closed p) (ws p) (mediaSource p) (Some true) rest (initAppended p)
            (seekedToLive p) (appended p ++ [chunk]) (sent p) (seeks p) (errors p)
      end
  | _, _ => seekToLiveEdge v p
  end.

Definition dquote : string := String (Ascii.ascii_of_N 34) EmptyString.

(** [`video/mp4; codecs="${c}"`] *)
Definition mime_of (c : string) : string :=
  ("video/mp4; codecs=" +:+ dquote +:+ c +:+ dquote)%string.

(** [/codecs\s*=/.test(s)] *)
Fixpoint has_codecs_bytes (l : list N) : bool :=
  match strip_prefix (bytes_of "codecs") l with
  | Some r => match drop_space (length r) white_space r with c :: _ => (c =? 61)%N | [] => false end
  | None => false
  end || match l with [] => false | _ :: l' => has_codecs_bytes l' end.

Definition has_codecs (s : string) : bool := has_codecs_bytes (bytes_of s).

Definition setupSourceBuffer (s : Support) (codecs : string) (p : Player) : Player :=
  if closed p || negb (mediaSource p) then p
  else
    let mime := if has_codecs codecs then codecs else mime_of codecs in
    if negb (isTypeSupported s mime)
    then fail "Browser cannot decode this stream (codec unsupported)" mime p
    else match addSourceBuffer_throws s with
         | Some e => fail "Browser cannot decode this stream" ("addSourceBuffer: " +:+ e) p
         | None => set_sourceBuffer (Some false) p
         end.

Definition onBinary (v : Video) (throws : option string) (buf : bytes) (p : Player) : Player :=
  if closed p then p
  else
    let chunk := if negb (initAppended p) then patchInitSegmentHvcc buf else buf in
    drainQueue v throws
      (mkPlayer (closed p) (ws p) (mediaSource p) (sourceBuffer p) (queue p ++ [chunk]) true
         (seekedToLive p) (appended p) (sent p) (seeks p) (errors p)).

(** A text frame: not JSON, an announcement of the stream's codecs, or any other message. *)
Inductive Control := NotJson | Mse (value : string) | OtherMessage.

Definition onControl (s : Support) (msg : Control) (p : Player) : Player :=
  if closed p then p
  else match msg, sourceBuffer p with
       | Mse value, None => setupSourceBuffer s value p
       | _, _ => p
       end.

Definition candidates : list string :=
  ["hvc1.1.6.L153.B0"; "hvc1.1.6.L120.90"; "avc1.640029"; "avc1.64002A"; "avc1.640033";
   "mp4a.40.2"; "mp4a.40.5"]%string.

(** The listener of [sourceopen]. *)
Definition onSourceOpen (p : Player) : Player :=
  if closed p then p
  else mkPlayer (closed p) true (mediaSource p) (sourceBuffer p) (queue p) (initAppended p)
         (seekedToLive p) (appended p) (sent p) (seeks p) (errors p).

Definition onOpen (s : Support) (p : Player) : Player :=
  let supported := filter_where (λ c, isTypeSupported s (mime_of c)) candidates in
  match supported with
  | [] => fail "Browser cannot decode this stream (HEVC support missing)" "no MSE codecs supported" p
  | _ => mkPlayer (closed p) (ws p) (mediaSource p) (sourceBuffer p) (queue p) (initAppended p)
           (seekedToLive p) (appended p) (sent p ++ [supported]) (seeks p) (errors p)
  end.

Definition onError (p : Player) : Player := fail "Stream unavailable" "websocket error" p.

Definition onClose (code : Z) (code_text : string) (p : Player) : Player :=
  if negb (closed p) && negb (code =? 1000) && negb (code =? 1005)
  then fail "Stream unavailable" ("websocket closed (" +:+ code_text +:+ ")") p
  else p.

(** [updateend]: the append is over; the listener is attached while the buffer is set. *)
Definition onUpdateEnd (v : Video) (throws : option string) (p : Player) : Player :=
  match sourceBuffer p with
  | Some _ => drainQueue v throws (set_sourceBuffer (Some false) p)
  | None => p
  end.

Inductive PlayerEvent :=
| PSourceOpen
| PWsOpen (s : Support)
| PText (s : Support) (msg : Control)
| PBinary (v : Video) (throws : option string) (buf : bytes)
| PWsError
| PWsClose (code : Z) (code_text : string)
| PUpdateEnd (v : Video) (throws : option string)
| PClose.

Definition player_step (p : Player) (e : PlayerEvent) : Player :=
  match e with
  | PSourceOpen => onSourceOpen p
  | PWsOpen s => onOpen s p
  | PText s msg => onControl s msg p
  | PBinary v throws buf => onBinary v throws buf p
  | PWsError => onError p
  | PWsClose code text => onClose code text p
  | PUpdateEnd v throws => onUpdateEnd v throws p
  | PClose => close p
  end.

(** What the browser can deliver.  The handlers of a socket exist once it is
    opened; [close] removes all but [onopen], but a closed socket does not open.
    An [updateend] follows an append. *)
Definition deliverable (p : Player) (e : PlayerEvent) : bool :=
  match e with
  | PSourceOpen => negb (ws p)
  | PWsOpen _ | PText _ _ | PBinary _ _ _ | PWsError | PWsClose _ _ => ws p
  | PUpdateEnd _ _ => bool_decide (sourceBuffer p = Some true)
  | PClose => true
  end.

(** Run a list of events, skipping what cannot be delivered. *)
Fixpoint player_run (p : Player) (es : list PlayerEvent) : Player :=
  match es with
  | [] => p
  | e :: es' => player_run (if deliverable p e then player_step p e else p) es'
  end.

(** The frame an event delivers to an open player. *)
Definition frame_of (p : Player) (e : PlayerEvent) : list bytes :=
  match e with
  | PBinary _ _ buf => if deliverable p e && negb (closed p) then [buf] else []
  | _ => []
  end.

(** The binary frames delivered before the player is closed. *)
Fixpoint received (p : Player) (es : list PlayerEvent) : list bytes :=
  match es with
  | [] => []
  | e :: es' => frame_of p e ++ received (if deliverable p e then player_step p e else p) es'
  end.

(** The chunks these frames become: the first is patched. *)
Definition chunks (frames : list bytes) : list bytes :=
  match frames with
  | [] => []
  | init :: media => patchInitSegmentHvcc init :: media
  end.

(** ** Properties of the player *)

Record player_ok (p : Player) (frames : list bytes) : Prop := {
  po_open : closed p = false →
    appended p ++ queue p = chunks frames ∧ initAppended p = negb (bool_decide (frames = [])) ∧
    errors p = [];
  po_prefix : appended p `prefix_of` chunks frames;
  po_errors : (length (errors p) ≤ 1)%nat;
  po_seeks : (length (seeks p) ≤ if seekedToLive p then 1 else 0)%nat;
  po_closed : closed p = true → ws p = false ∧ sourceBuffer p = None ∧ queue p = []
}.

Lemma chunks_app frames buf :
  chunks (frames ++ [buf]) =
  chunks frames ++ [if bool_decide (frames = []) then patchInitSegmentHvcc buf else buf].
Proof. by destruct frames. Qed.

Lemma close_ok p frames : player_ok p frames → player_ok (close p) frames.
Proof.
  intros H. unfold close. destruct (closed p) eqn:E; [done|]. destruct H. by constructor.
Qed.

Lemma fail_ok m d p frames : player_ok p frames → player_ok (fail m d p) frames.
Proof.
  intros H. unfold fail, close. destruct (closed p) eqn:E; [done|].
  destruct H as [Ho ? ? ? ?]. destruct (Ho E) as (? & ? & He). simpl. rewrite ?E.
  constructor; simpl; try done. by rewrite He.
Qed.

Lemma seek_ok v p frames : player_ok p frames → player_ok (seekToLiveEdge v p) frames.
Proof.
  intros H. unfold seekToLiveEdge. destruct (seekedToLive p) eqn:E; [done|].
  destruct (sourceBuffer p) eqn:Es; [|done]. destruct (buffered_span v) as [[s e]|]; [|done].
  destruct (_ && _); [|done]. destruct H. rewrite E in *. constructor; simpl; auto.
  - rewrite length_app. simpl. lia.
  - intros Hc. destruct (po_closed0 Hc) as (_ & ? & _). congruence.
Qed.

Lemma drain_ok v t p frames : closed p = false → player_ok p frames → player_ok (drainQueue v t p) frames.
Proof.
  intros Hc H. unfold drainQueue. destruct (sourceBuffer p) as [[]|] eqn:Es; try by apply seek_ok.
  destruct (queue p) as [|chunk rest] eqn:Eq; [by apply seek_ok|].
  destruct H as [Ho Hpre He Hs Hcl]. destruct (Ho Hc) as (Hq & Hi & Herr). rewrite Eq in Hq.
  destruct t as [t|].
  - (* the chunk is lost with the player *)
    unfold fail, close, set_queue. simpl. rewrite !Hc. constructor; simpl; try done.
    by rewrite Herr.
  - constructor; simpl; try done.
    + intros _. split_and!; [by rewrite <- app_assoc|done|done].
    + exists rest. by rewrite <- app_assoc.
    + intros. congruence.
Qed.

Lemma player_step_ok p e frames :
  player_ok p frames → deliverable p e = true → player_ok (player_step p e) (frames ++ frame_of p e).
Proof.
  intros H Hd. destruct e as [|s|s msg|v t buf| |code text|v t|]; simpl in *; rewrite ?app_nil_r.
  - unfold onSourceOpen. destruct (closed p) eqn:E; [done|]. destruct H. constructor; simpl; auto.
    intros. congruence.
  - unfold onOpen. destruct (filter_where _ _); [by apply fail_ok|]. destruct H. by constructor.
  - unfold onControl. destruct (closed p) eqn:E; [done|].
    destruct msg as [|value|]; try done. destruct (sourceBuffer p) eqn:Es; [done|].
    unfold setupSourceBuffer. destruct (_ || _); [done|]. destruct (negb _); [by apply fail_ok|].
    destruct (addSourceBuffer_throws s); [by apply fail_ok|].
    destruct H. constructor; simpl; auto. intros. congruence.
  - unfold onBinary. rewrite Hd. destruct (closed p) eqn:E; simpl; [by rewrite app_nil_r|].
    apply drain_ok; [done|]. destruct H as [Ho Hp He Hs Hcl]. destruct (Ho E) as (Hq & Hi & Herr).
    constructor; simpl; auto.
    + intros _. rewrite app_assoc, Hq, chunks_app, Hi, negb_involutive. split_and!; [done| |done].
      by destruct frames.
    + rewrite chunks_app. by apply prefix_app_r.
    + intros. congruence.
  - by apply fail_ok.
  - unfold onClose. destruct (_ && _); [by apply fail_ok|done].
  - unfold onUpdateEnd. apply bool_decide_eq_true in Hd. rewrite Hd.
    assert (Hc : closed p = false).
    { destruct (closed p) eqn:E; [|done]. destruct (po_closed _ _ H E) as (_ & ? & _). congruence. }
    apply drain_ok; [done|]. destruct H. constructor; simpl; auto. intros. congruence.
  - by apply close_ok.
Qed.

Lemma player_run_ok p es frames :
  player_ok p frames → player_ok (player_run p es) (frames ++ received p es).
Proof.
  revert p frames. induction es as [|e es IH]; intros p frames H.
  { simpl. by rewrite app_nil_r. }
  cbn [player_run received]. rewrite app_assoc. apply IH.
  destruct (deliverable p e) eqn:Hd; [by apply player_step_ok|].
  assert (frame_of p e = []) as ->; [|by rewrite app_nil_r].
  unfold frame_of. rewrite Hd. by destruct e.
Qed.

Lemma initial_player_ok : player_ok initial_player [].
Proof. constructor; simpl; try done; lia. Qed.

(** C6. The player feeds the decoder in order: whatever the socket, the buffer and
    the caller do, the chunks appended so far are a prefix of the received frames,
    the first of them patched exactly once; while the player is open nothing is
    lost, everything received is appended or queued, and no error was reported;
    the error callback is called at most once and the playhead moved at most once. *)
Theorem player_in_order (es : list PlayerEvent) :
  let p := player_run initial_player es in
  let frames := received initial_player es in
  appended p `prefix_of` chunks frames ∧
  (closed p = false → appended p ++ queue p = chunks frames ∧ errors p = []) ∧
  (length (errors p) ≤ 1)%nat ∧ (length (seeks p) ≤ 1)%nat.
Proof.
  intros p frames.
  assert (H : player_ok p frames) by apply (player_run_ok initial_player es [] initial_player_ok).
  destruct H as [Ho Hp He Hs Hc]. split_and!; auto.
  - intros E. by destruct (Ho E) as (? & _ & ?).
  - destruct (seekedToLive p); lia.
Qed.

(** Closing is final: after [close], or after the first error, no event changes
    anything: nothing is appended, sent, sought or reported any more. *)
Theorem player_close_final (es es' : list PlayerEvent) :
  let p := player_run initial_player es in
  (closed p = true → player_run p es' = p) ∧ player_run (close p) es' = close p.
Proof.
  intros p.
  assert (Hfin : ∀ q frames, player_ok q frames → closed q = true → player_run q es' = q).
  { intros q frames H Hc. destruct (po_closed _ _ H Hc) as (Hw & Hsb & _).
    induction es' as [|e es'' IH]; [done|]. simpl.
    assert (E : (if deliverable q e then player_step q e else q) = q); [|by rewrite E].
    destruct e; simpl; rewrite ?Hw, ?Hsb; simpl; try done.
    - unfold onSourceOpen. by rewrite Hc.
    - unfold close. by rewrite Hc. }
  pose proof (player_run_ok initial_player es [] initial_player_ok) as Hp. fold p in Hp. split.
  - by apply (Hfin _ _ Hp).
  - apply (Hfin _ _ (close_ok _ _ Hp)). unfold close. by destruct (closed p) eqn:E.
Qed.

Lemma player_close_final_witness :
  let sup := mkSupport (λ _, true) None in
  let p := player_run initial_player
    [PSourceOpen; PWsOpen sup; PText sup (Mse "avc1.640029"); PBinary (mkVideo [] 0) None [1]; PWsError] in
  closed p = true ∧ errors p = [("Stream unavailable", "websocket error")]%string ∧
  player_run p [PSourceOpen; PBinary (mkVideo [] 0) None [2]; PWsClose 1006 "1006"] = p.
Proof.
  intros sup p. split_and!; [reflexivity|reflexivity|].
  apply (proj1 (player_close_final [PSourceOpen; PWsOpen sup; PText sup (Mse "avc1.640029");
    PBinary (mkVideo [] 0) None [1]; PWsError] [PSourceOpen; PBinary (mkVideo [] 0) None [2];
    PWsClose 1006 "1006"])). reflexivity.
Defined.
