(* ===== verification/FeatureFlags.v ===== *)
(** * Feature flags ([lib/feature-flags.ts])

    The flag map, its single fetch per page load, and the hook instances that
    show it.  The module state ([cached], [inflight]) and the state of every hook
    are explicit; a run is a sequence of the events React and the network deliver
    (render, effect, settlement of the fetch, promise reactions, unmount). *)

From S2P Require Import Prelude Types Http.
From stdpp Require Import pretty.
#[local] Open Scope Z_scope.
#[local] Open Scope string_scope.

(** ** The flag map *)

Inductive FeatureFlagName :=
| analytics | operator_console | compliance | person_tracking | speakers
| semantic_search | vlm_safety | evidence_sharing | labeling | support_tickets
| integrations | ai_insights | weekly_digest | global_ai_training | lowlatency_live.

#[export] Instance FeatureFlagName_eq_dec : EqDecision FeatureFlagName.
Proof. solve_decision. Defined.

Definition flag_key (n : FeatureFlagName) : string :=
  match n with
  | analytics => "analytics"
  | operator_console => "operator_console"
  | compliance => "compliance"
  | person_tracking => "person_tracking"
  | speakers => "speakers"
  | semantic_search => "semantic_search"
  | vlm_safety => "vlm_safety"
  | evidence_sharing => "evidence_sharing"
  | labeling => "labeling"
  | support_tickets => "support_tickets"
  | integrations => "integrations"
  | ai_insights => "ai_insights"
  | weekly_digest => "weekly_digest"
  | global_ai_training => "global_ai_training"
  | lowlatency_live => "lowlatency_live"
  end.

Definition all_flags : list FeatureFlagName :=
  [analytics; operator_console; compliance; person_tracking; speakers; semantic_search; vlm_safety;
   evidence_sharing; labeling; support_tickets; integrations; ai_insights; weekly_digest;
   global_ai_training; lowlatency_live].

(** An object: the response is cast, not checked, so its values are any JSON. *)
Abbreviation FeatureFlags := (list (string * json)).

Definition DEFAULT_FLAGS : FeatureFlags := (λ n, (flag_key n, JBool false)) <$> all_flags.

(** [o[k] = v]: an existing key keeps its place. *)
Definition obj_set (k : string) (v : json) (o : FeatureFlags) : FeatureFlags :=
  match find_index (λ e, String.eqb e.1 k) o with
  | Some i => <[i := (k, v)]> o
  | None => (o ++ [(k, v)])%list
  end.

(** The own properties a spread copies; arrays and strings have index keys, which
    are no flag's name. *)
Definition own_props (j : json) : list (string * json) :=
  match j with
  | JObj fs => fs
  | JArr l => imap (λ i v, (pretty (Z.of_nat i), v)) l
  | JStr s => imap (λ i n, (pretty (Z.of_nat i), JStr (of_bytes [n]))) (bytes_of s)
  | _ => []
  end.

(** [{ ...base, ...data }] *)
Definition spread (base : FeatureFlags) (data : json) : FeatureFlags :=
  foldl (λ o e, obj_set e.1 e.2 o) base (own_props data).

(** [flags[name]] *)
Definition flag (n : FeatureFlagName) (f : FeatureFlags) : option json := jget (flag_key n) (JObj f).

(** ** The fetch *)

Definition features_request : Request := mkRequest "/api/v1/features" no_init true.

Definition fetchFlags : M FeatureFlags :=
  try_catch
    (res ← fetch features_request;
     if negb (rs_ok res) then mret DEFAULT_FLAGS
     else data ← json_of res; mret (spread DEFAULT_FLAGS data))
    (λ _, mret DEFAULT_FLAGS).

(** ** The module and its hooks *)

(** The promise [inflight] and its [.then]: pending until the fetch settles. *)
Inductive Promise := Pending | Fulfilled (f : FeatureFlags).

(** An instance of [useFeatureFlags]. [hk_waits] holds when its effect has
    registered a reaction on the promise that has not run. *)
Record FlagHook := mkFlagHook {
  hk_flags : FeatureFlags;
  hk_loaded : bool;
  hk_effect_ran : bool;
  hk_waits : bool;
  hk_alive : bool
}.

Record FlagState := mkFlagState {
  cached : option FeatureFlags;
  inflight : option Promise;
  fetches : nat;
  hooks : list FlagHook
}.

Definition page_load : FlagState := mkFlagState None None 0 [].

(** [getFeatureFlags()]: the promise it returns is already fulfilled with
    [cached], or is [inflight]. *)
Definition getFeatureFlags (s : FlagState) : FlagState * Promise :=
  match cached s with
  | Some f => (s, Fulfilled f)
  | None =>
      match inflight s with
      | Some p => (s, p)
      | None => (mkFlagState (cached s) (Some Pending) (S (fetches s)) (hooks s), Pending)
      end
  end.

(** The state initialiser of the hook. *)
Definition hook_init (s : FlagState) : FlagHook :=
  mkFlagHook (default DEFAULT_FLAGS (cached s)) (bool_decide (is_Some (cached s))) false false true.

Definition set_hook (i : nat) (h : FlagHook) (s : FlagState) : FlagState :=
  mkFlagState (cached s) (inflight s) (fetches s) (<[i := h]> (hooks s)).

(** The effect of hook [i], run once after its first render. *)
Definition hook_effect (i : nat) (s : FlagState) : FlagState :=
  match hooks s !! i with
  | Some h =>
      if hk_effect_ran h || negb (hk_alive h) then s
      else
        match cached s with
        | Some _ => set_hook i (mkFlagHook (hk_flags h) (hk_loaded h) true false (hk_alive h)) s
        | None => set_hook i (mkFlagHook (hk_flags h) (hk_loaded h) true true (hk_alive h))
                    (getFeatureFlags s).1
        end
  | None => s
  end.

(** The cleanup of the effect: [alive = false]. *)
Definition hook_unmount (i : nat) (s : FlagState) : FlagState :=
  match hooks s !! i with
  | Some h => set_hook i (mkFlagHook (hk_flags h) (hk_loaded h) (hk_effect_ran h) (hk_waits h) false) s
  | None => s
  end.

(** The reaction of hook [i] on the fulfilled promise. *)
Definition hook_react (i : nat) (s : FlagState) : FlagState :=
  match hooks s !! i, inflight s with
  | Some h, Some (Fulfilled f) =>
      if hk_waits h then
        set_hook i (if hk_alive h then mkFlagHook f true true false true
                    else mkFlagHook (hk_flags h) (hk_loaded h) true false false) s
      else s
  | _, _ => s
  end.

(** The fetch settles with what the browser's network answers, and the
    [.then] of [getFeatureFlags] stores the result. *)
Definition settle (b : Browser) (l : list Effect) (s : FlagState) : FlagState :=
  match inflight s with
  | Some Pending =>
      match (fetchFlags b l).2 with
      | Ok f => mkFlagState (Some f) (Some (Fulfilled f)) (fetches s) (hooks s)
      | Err _ => s
      end
  | _ => s
  end.

Inductive FlagEvent :=
| Render
| RunEffect (i : nat)
| React (i : nat)
| Unmount (i : nat)
| CallGet
| Settle (b : Browser) (l : list Effect).

Definition flag_step (s : FlagState) (e : FlagEvent) : FlagState :=
  match e with
  | Render => mkFlagState (cached s) (inflight s) (fetches s) (hooks s ++ [hook_init s])%list
  | RunEffect i => hook_effect i s
  | React i => hook_react i s
  | Unmount i => hook_unmount i s
  | CallGet => (getFeatureFlags s).1
  | Settle b l => settle b l s
  end.

Definition flag_run : list FlagEvent → FlagState := foldl flag_step page_load.

(** [useFeatureFlag(name)] *)
Definition useFeatureFlag (n : FeatureFlagName) (h : FlagHook) : option json * bool :=
  (flag n (hk_flags h), hk_loaded h).

(** ** Objects *)

Lemma jget_obj_set_eq k v o : jget k (JObj (obj_set k v o)) = Some v.
Proof.
  unfold obj_set. simpl. destruct (find_index _ o) as [i|] eqn:E.
  - apply find_index_Some in E as (x & Hx & Hp & Hbefore).
    rewrite (insert_take_drop o i (k, v)) by (by eapply lookup_lt_Some).
    assert (Hn : ∀ y, y ∈ take i o → String.eqb y.1 k = false).
    { intros y [j Hj]%list_elem_of_lookup. apply lookup_take_Some in Hj as [? ?]. by eapply Hbefore. }
    clear Hbefore. induction (take i o) as [|y r IH]; simpl; rewrite find_where_cons; simpl.
    + by rewrite String.eqb_refl.
    + rewrite Hn by (by left). apply IH. intros z Hz. apply Hn. by right.
  - rewrite find_index_None in E. induction o as [|y r IH]; simpl; rewrite find_where_cons; simpl.
    + by rewrite String.eqb_refl.
    + rewrite E by (by left). apply IH. intros z Hz. apply E. by right.
Qed.

Lemma jget_app k o o' :
  jget k (JObj (o ++ o')%list) =
  match jget k (JObj o) with Some v => Some v | None => jget k (JObj o') end.
Proof.
  simpl. induction o as [|y r IH]; simpl; [done|]. rewrite !find_where_cons. by destruct (String.eqb _ _).
Qed.

Lemma jget_obj_set_ne k k' v o : k ≠ k' → jget k (JObj (obj_set k' v o)) = jget k (JObj o).
Proof.
  intros Hne. assert (Hs : ∀ a r, a.1 = k' → jget k (JObj (a :: r)) = jget k (JObj r)).
  { intros [a w] r. simpl. intros ->. rewrite find_where_cons. simpl.
    by destruct (String.eqb_spec k' k) as [->|]. }
  unfold obj_set. destruct (find_index _ o) as [i|] eqn:E.
  - apply find_index_Some in E as (x & Hx & Hp & _). apply String.eqb_eq in Hp.
    rewrite (insert_take_drop o i (k', v)) by (by eapply lookup_lt_Some).
    rewrite <- (take_drop_middle o i x Hx) at 3. rewrite !jget_app, !Hs by done. done.
  - rewrite jget_app, Hs by done. by destruct (jget k (JObj o)).
Qed.

Lemma jget_assign k base props :
  NoDup props.*1 →
  jget k (JObj (foldl (λ o e, obj_set e.1 e.2 o) base props)) =
  match jget k (JObj props) with Some v => Some v | None => jget k (JObj base) end.
Proof.
  revert base. induction props as [|[a v] r IH]; intros base; [done|].
  cbn [foldl fst snd fmap list_fmap]. intros [Ha Hr]%NoDup_cons. rewrite IH by done.
  change ((a, v) :: r) with ([(a, v)] ++ r)%list. rewrite jget_app.
  destruct (String.eqb_spec a k) as [->|Hak].
  - replace (jget k (JObj r)) with (@None json).
    + rewrite jget_obj_set_eq. simpl. rewrite find_where_cons. simpl. by rewrite String.eqb_refl.
    + symmetry. simpl. replace (find_where (λ e, String.eqb e.1 k) r) with (@None (string * json)); [done|].
      symmetry. apply find_where_None. intros x Hx. apply String.eqb_neq. intros Heq.
      apply Ha. apply list_elem_of_fmap. by exists x.
  - rewrite jget_obj_set_ne by done.
    replace (jget k (JObj [(a, v)])) with (@None json); [done|].
    symmetry. simpl. rewrite find_where_cons. simpl. by destruct (String.eqb_spec a k).
Qed.

Lemma flag_default n : flag n DEFAULT_FLAGS = Some (JBool false).
Proof. by destruct n. Qed.

(** The fetch never rejects, sends one request, and decides every flag: what the
    server sent for it, or off. *)
Definition flag_answer (res : option Response) (n : FeatureFlagName) : json :=
  match res with
  | Some r =>
      if rs_ok r then
        match rs_json r with
        | Some data => default (JBool false) (jget (flag_key n) (JObj (own_props data)))
        | None => JBool false
        end
      else JBool false
  | None => JBool false
  end.

(** The keys of a parsed JSON object are distinct. *)
Definition keys_ok (res : option Response) : Prop :=
  ∀ r data, res = Some r → rs_json r = Some data → NoDup (own_props data).*1.

Lemma fetchFlags_outcome b l :
  ∃ f, fetchFlags b l = ((l ++ [EFetch features_request])%list, Ok f).
Proof.
  unfold fetchFlags, try_catch, fetch, mbind, M_bind. destruct (br_net b l features_request) as [r|]; simpl.
  - destruct (rs_ok r); simpl; [|by eexists]. unfold json_of, lift_body. destruct (rs_json r); by eexists.
  - by eexists.
Qed.

(** ** Invariant *)

Definition hook_ok (s : FlagState) (h : FlagHook) : Prop :=
  (hk_loaded h = false → hk_flags h = DEFAULT_FLAGS) ∧
  (hk_loaded h = true → cached s = Some (hk_flags h)) ∧
  (hk_waits h = true → hk_effect_ran h = true ∧ hk_loaded h = false ∧ is_Some (inflight s)).

Definition FlagInv (s : FlagState) : Prop :=
  match inflight s with
  | None => cached s = None ∧ fetches s = 0%nat
  | Some Pending => cached s = None ∧ fetches s = 1%nat
  | Some (Fulfilled f) => cached s = Some f ∧ fetches s = 1%nat
  end ∧ Forall (hook_ok s) (hooks s).

Lemma hook_ok_mono s s' h :
  (∀ f, cached s = Some f → cached s' = Some f) → (is_Some (inflight s) → is_Some (inflight s')) →
  hook_ok s h → hook_ok s' h.
Proof. intros Hc Hi (H1 & H2 & H3). split_and!; [done|auto|naive_solver]. Qed.

Lemma FlagInv_get s : FlagInv s → FlagInv (getFeatureFlags s).1.
Proof.
  intros H. unfold getFeatureFlags. destruct (cached s) as [f|] eqn:Ec; [exact H|].
  destruct (inflight s) as [p|] eqn:Ei; [exact H|]. destruct H as [Hp Hh].
  rewrite Ei in Hp. split; simpl; [by destruct Hp as [? ->]|]. eapply Forall_impl; [exact Hh|]. intros h. apply hook_ok_mono; simpl.
  - congruence.
  - by intros _.
Qed.

Lemma FlagInv_set i h s :
  FlagInv s → hook_ok s h → FlagInv (set_hook i h s).
Proof.
  intros [Hp Hh] H. split; [exact Hp|]. simpl. apply Forall_insert; [|by apply (hook_ok_mono s)].
  eapply Forall_impl; [exact Hh|]. intros h'. by apply hook_ok_mono.
Qed.

Lemma hook_ok_lookup s i h : FlagInv s → hooks s !! i = Some h → hook_ok s h.
Proof. intros [_ H] Hi. by apply (Forall_lookup_1 _ _ _ _ H Hi). Qed.

Lemma hooks_get s : hooks (getFeatureFlags s).1 = hooks s.
Proof. unfold getFeatureFlags. destruct (cached s); [done|]. by destruct (inflight s). Qed.

Lemma inflight_get s : FlagInv s → is_Some (inflight (getFeatureFlags s).1).
Proof.
  intros [Hp _]. unfold getFeatureFlags. destruct (cached s) eqn:Ec; simpl.
  - destruct (inflight s); [by eexists|naive_solver].
  - destruct (inflight s) eqn:Ei; simpl; [by rewrite Ei|by eexists].
Qed.

Lemma FlagInv_effect i s : FlagInv s → FlagInv (hook_effect i s).
Proof.
  intros H. unfold hook_effect. destruct (hooks s !! i) as [h|] eqn:Eh; [|done].
  pose proof (hook_ok_lookup _ _ _ H Eh) as (H1 & H2 & H3).
  destruct (hk_effect_ran h || negb (hk_alive h)) eqn:Er; [done|].
  destruct (cached s) as [f|] eqn:Ec.
  - apply FlagInv_set; [done|]. split_and!; simpl; try done. by rewrite Ec.
  - apply FlagInv_set; [by apply FlagInv_get|]. split_and!; simpl; [done| |].
    + intros Hl. specialize (H2 Hl). congruence.
    + intros _. split_and!; [done| |by apply inflight_get].
      destruct (hk_loaded h); [specialize (H2 eq_refl); congruence|done].
Qed.

Lemma FlagInv_react i s : FlagInv s → FlagInv (hook_react i s).
Proof.
  intros H. unfold hook_react. destruct (hooks s !! i) as [h|] eqn:Eh; [|done].
  pose proof (hook_ok_lookup _ _ _ H Eh) as (H1 & H2 & H3).
  destruct (inflight s) as [[|f]|] eqn:Ei; try done. destruct (hk_waits h); [|done].
  apply FlagInv_set; [done|]. destruct H as [Hp _]. rewrite Ei in Hp.
  destruct (hk_alive h); split_and!; simpl; naive_solver.
Qed.

Lemma FlagInv_settle b l s : FlagInv s → FlagInv (settle b l s).
Proof.
  intros H. unfold settle. destruct (inflight s) as [[|f]|] eqn:Ei; try done.
  destruct (fetchFlags_outcome b l) as [f ->]. simpl. destruct H as [Hp Hh]. rewrite Ei in Hp.
  split; simpl; [naive_solver|]. eapply Forall_impl; [exact Hh|]. intros h.
  apply hook_ok_mono; simpl; [naive_solver congruence|by eexists].
Qed.

Lemma FlagInv_step s e : FlagInv s → FlagInv (flag_step s e).
Proof.
  intros H. destruct e; simpl; auto using FlagInv_effect, FlagInv_react, FlagInv_settle, FlagInv_get.
  - destruct H as [Hp Hh]. split; simpl; [exact Hp|]. apply Forall_app. split.
    + eapply Forall_impl; [exact Hh|]. intros h. by apply hook_ok_mono.
    + repeat constructor; simpl; try done; destruct (cached s); simpl; try done.
  - unfold hook_unmount. destruct (hooks s !! i) as [h|] eqn:Eh; [|done].
    apply FlagInv_set; [done|]. exact (hook_ok_lookup _ _ _ H Eh).
Qed.

Lemma FlagInv_run es : FlagInv (flag_run es).
Proof.
  unfold flag_run. assert (H : FlagInv page_load) by (by split; simpl). revert H.
  generalize page_load. induction es as [|e es IH]; intros s H; [done|]. apply IH. by apply FlagInv_step.
Qed.

(** A hook whose effect found the cache filled has no way to load any more. *)
Definition stuck (h : FlagHook) : Prop := hk_effect_ran h = true ∧ hk_waits h = false ∧ hk_loaded h = false.

Lemma lookup_set_hook i j h s :
  hooks (set_hook i h s) !! j = if decide (i = j) then (λ _, h) <$> hooks s !! j else hooks s !! j.
Proof.
  simpl. destruct (decide (i = j)) as [->|]; [|by rewrite list_lookup_insert_ne].
  destruct (hooks s !! j) eqn:E; simpl.
  - apply list_lookup_insert_eq. by eapply lookup_lt_Some.
  - apply lookup_ge_None. rewrite length_insert. by apply lookup_ge_None.
Qed.

Lemma stuck_step s e i h :
  hooks s !! i = Some h → stuck h → ∃ h', hooks (flag_step s e) !! i = Some h' ∧ stuck h'.
Proof.
  intros Hi (Hr & Hw & Hl). assert (Hs : stuck h) by done.
  assert (Hset : ∀ j h' t, hooks t = hooks s → (j = i → stuck h') →
    ∃ h'', hooks (set_hook j h' t) !! i = Some h'' ∧ stuck h'').
  { intros j h' t Ht Hj. rewrite lookup_set_hook, Ht, Hi. destruct (decide (j = i)); simpl; eauto. }
  destruct e as [|j|j|j| |b l]; simpl.
  - exists h. split; [|done]. rewrite lookup_app, Hi. done.
  - unfold hook_effect. destruct (hooks s !! j) as [h'|] eqn:Ej; [|by exists h].
    destruct (hk_effect_ran h' || _) eqn:E; [by exists h|].
    destruct (cached s); apply Hset; rewrite ?hooks_get; try done; intros ->;
      assert (h' = h) as -> by congruence; by rewrite Hr in E.
  - unfold hook_react. destruct (hooks s !! j) as [h'|] eqn:Ej; [|by exists h].
    destruct (inflight s) as [[|f]|]; try by exists h. destruct (hk_waits h') eqn:E; [|by exists h].
    apply Hset; [done|]. intros ->. congruence.
  - unfold hook_unmount. destruct (hooks s !! j) as [h'|] eqn:Ej; [|by exists h].
    apply Hset; [done|]. intros ->. assert (h' = h) as -> by congruence. by split_and!.
  - rewrite hooks_get. by exists h.
  - unfold settle. destruct (inflight s) as [[|f]|]; try by exists h.
    destruct (fetchFlags b l).2; by exists h.
Qed.

Lemma stuck_run es s i h :
  hooks s !! i = Some h → stuck h → ∃ h', hooks (foldl flag_step s es) !! i = Some h' ∧ stuck h'.
Proof.
  revert s h. induction es as [|e es IH]; intros s h Hi Hs; simpl; [eauto|].
  destruct (stuck_step s e i h Hi Hs) as (h' & ? & ?). eauto.
Qed.


Lemma flag_spread n data :
  NoDup (own_props data).*1 →
  flag n (spread DEFAULT_FLAGS data) =
  Some (default (JBool false) (jget (flag_key n) (JObj (own_props data)))).
Proof.
  intros H. unfold flag, spread. rewrite jget_assign by done.
  destruct (jget (flag_key n) (JObj (own_props data))); [done|]. apply flag_default.
Qed.

Lemma fetchFlags_flags b l f :
  keys_ok (br_net b l features_request) → (fetchFlags b l).2 = Ok f →
  ∀ n, flag n f = Some (flag_answer (br_net b l features_request) n).
Proof.
  unfold fetchFlags, try_catch, fetch, mbind, M_bind, keys_ok, flag_answer, json_of, lift_body.
  intros Hk Hf n. destruct (br_net b l features_request) as [r|]; simpl in *;
    [|simplify_eq; apply flag_default].
  destruct (rs_ok r); simpl in *; [|simplify_eq; apply flag_default].
  destruct (rs_json r) as [data|] eqn:Ej; simpl in *; [|simplify_eq; apply flag_default].
  simplify_eq. apply flag_spread. by eapply Hk.
Qed.

(** ** Properties *)

(** In any order of renders, effects, promise reactions, unmounts, direct
    calls and settlements, a page sends at most one flag request; every hook shows
    either the parked-off defaults with [loaded] false, where every flag reads
    false, or exactly the cached map; all loaded hooks agree; and an alive hook
    whose effect is waiting on a settled promise becomes loaded by its reaction. *)
Theorem feature_flags_consistent es :
  let s := flag_run es in
  (fetches s ≤ 1)%nat ∧
  (∀ i h, hooks s !! i = Some h →
     (hk_loaded h = true ∧ cached s = Some (hk_flags h)) ∨
     (hk_loaded h = false ∧ ∀ n, useFeatureFlag n h = (Some (JBool false), false))) ∧
  (∀ i h f, hooks s !! i = Some h → hk_alive h = true → hk_waits h = true →
     inflight s = Some (Fulfilled f) →
     (λ h', (hk_flags h', hk_loaded h')) <$> hooks (flag_step s (React i)) !! i = Some (f, true)) ∧
  (∀ i h, hooks s !! i = Some h → hk_effect_ran h = false → hk_alive h = true → cached s = None →
     hk_waits <$> hooks (flag_step s (RunEffect i)) !! i = Some true).
Proof.
  intros s. pose proof (FlagInv_run es) as H. fold s in H. split_and!.
  - destruct H as [Hp _]. destruct (inflight s) as [[]|]; destruct Hp as [_ ->]; lia.
  - intros i h Hi. destruct (hook_ok_lookup _ _ _ H Hi) as (H1 & H2 & _).
    destruct (hk_loaded h) eqn:E; [by left; auto|right]. split; [done|]. intros n.
    unfold useFeatureFlag. rewrite H1, E by done. by rewrite flag_default.
  - intros i h f Hi Ha Hw Hf. simpl. unfold hook_react. rewrite Hi, Hf, Hw, Ha.
    rewrite lookup_set_hook, decide_True, Hi by done. done.
  - intros i h Hi Hr Ha Hc. simpl. unfold hook_effect. rewrite Hi, Hr, Ha, Hc. cbn [orb negb].
    rewrite lookup_set_hook, decide_True, hooks_get, Hi by done. done.
Qed.

(** When the fetch settles, every flag of the cached map is what the server
    sent for it and off when the key is missing, the answer is an error, has no
    JSON body or never came.  That answer is final: no later event changes the
    cached map or sends another request, even when the request had failed. *)
Theorem feature_flags_settled es b l es' :
  let s := flag_run es in
  inflight s = Some Pending → keys_ok (br_net b l features_request) →
  ∃ f, cached (flag_step s (Settle b l)) = Some f ∧
    (∀ n, flag n f = Some (flag_answer (br_net b l features_request) n)) ∧
    cached (foldl flag_step (flag_step s (Settle b l)) es') = Some f ∧
    fetches (foldl flag_step (flag_step s (Settle b l)) es') = 1%nat.
Proof.
  intros s Hi Hk. pose proof (FlagInv_run es) as H. fold s in H. simpl.
  pose proof (FlagInv_settle b l s H) as Hs. unfold settle in *. rewrite Hi in *.
  destruct (fetchFlags_outcome b l) as [f E]. rewrite E in *. simpl in *. exists f. split; [done|].
  split; [by apply (fetchFlags_flags b l); [|rewrite E]|].
  revert Hs. set (t := mkFlagState _ _ _ _). assert (Ht : cached t = Some f) by done. revert Ht.
  generalize t. clear. induction es' as [|e es' IH]; intros t Ht H; simpl.
  - destruct H as [Hp _]. destruct (inflight t) as [[]|]; naive_solver.
  - apply IH; [|by apply FlagInv_step]. destruct H as [Hp _].
    destruct e; simpl; unfold hook_effect, hook_react, hook_unmount, settle, getFeatureFlags;
      rewrite ?Ht; repeat (case_match; simpl; try done); naive_solver.
Qed.

Definition features_server : Browser :=
  mkBrowser (λ _ _, Some (mkResponse 200 "OK" None
    (Some (JObj [("speakers", JBool true); ("extra", JBool true)])) None))
    (λ _, EmptyString) (λ _ _, None) true true.

Lemma feature_flags_settled_witness :
  ∃ f, cached (flag_run [Render; RunEffect 0; Settle features_server []]) = Some f ∧
       flag speakers f = Some (JBool true) ∧ flag analytics f = Some (JBool false).
Proof.
  destruct (feature_flags_settled [Render; RunEffect 0] features_server []
    [React 0; Render; CallGet]) as (f & H1 & H2 & _).
  - reflexivity.
  - intros r data [= <-] [= <-]. simpl. repeat constructor; set_solver.
  - exists f. split; [exact H1|]. rewrite !H2. split; reflexivity.
Defined.

(** The effect reads the cache, not the state of its own hook: a hook that
    rendered before the fetch settled and whose effect runs after it never loads.
    Its gate stays in the loading state, and its flags off, for the rest of its
    life, whatever happens later. *)
Theorem hook_load_missed es i h :
  let s := flag_run es in
  hooks s !! i = Some h → hk_effect_ran h = false → hk_loaded h = false → hk_alive h = true →
  is_Some (cached s) →
  ∀ es', ∃ h', hooks (foldl flag_step (flag_step s (RunEffect i)) es') !! i = Some h' ∧
    ∀ n, useFeatureFlag n h' = (Some (JBool false), false).
Proof.
  intros s Hi Hr Hl Ha [f Hc] es'. pose proof (FlagInv_run es) as H. fold s in H.
  pose proof (FlagInv_step s (RunEffect i) H) as Hs.
  assert (Hst : stuck (mkFlagHook (hk_flags h) (hk_loaded h) true false (hk_alive h))) by done.
  destruct (stuck_run es' (flag_step s (RunEffect i)) i _ ltac:(
    simpl; unfold hook_effect; rewrite Hi, Hr, Ha, Hc; simpl;
    rewrite list_lookup_insert_eq; [done|by eapply lookup_lt_Some]) Hst) as (h' & Hh' & _ & _ & Hl').
  exists h'. split; [done|]. intros n.
  assert (Hinv : FlagInv (foldl flag_step (flag_step s (RunEffect i)) es')).
  { revert Hs. generalize (flag_step s (RunEffect i)). clear. induction es' as [|e es' IH]; intros t Ht; [done|].
    apply IH. by apply FlagInv_step. }
  destruct (hook_ok_lookup _ _ _ Hinv Hh') as (H1 & _ & _).
  unfold useFeatureFlag. rewrite H1, Hl' by done. by rewrite flag_default.
Qed.

Lemma hook_load_missed_witness :
  ∃ h', hooks (flag_run [Render; RunEffect 0; Render; Settle features_server []; RunEffect 1; React 0; React 1])
          !! 1%nat = Some h' ∧ ∀ n, useFeatureFlag n h' = (Some (JBool false), false).
Proof.
  exact (hook_load_missed [Render; RunEffect 0; Render; Settle features_server []] 1
    (mkFlagHook DEFAULT_FLAGS false false false true) eq_refl eq_refl eq_refl eq_refl
    (ex_intro _ _ eq_refl) [React 0; React 1]).
Defined.
