(* ===== verification/Session.v ===== *)
(** * Sessions, roles and routes

    [contexts/AuthContext.tsx] (rehydration, login, logout, the route matrix),
    the guards of the layouts ([components/shared/RouteGuard.tsx],
    [app/*/layout.tsx]) with the redirects of the root and login pages, and the
    idle/expiry manager of [hooks/useSessionManager.tsx] with its modal. *)

From S2P Require Import Prelude Types Http AuthFetch.
#[local] Open Scope string_scope.
#[local] Open Scope Z_scope.

(** ** Roles *)

Inductive UserRole := admin | soc_operator | soc_supervisor | site_manager | customer | viewer.

#[export] Instance UserRole_eq_dec : EqDecision UserRole.
Proof. solve_decision. Defined.

Definition role_key (r : UserRole) : string :=
  match r with
  | admin => "admin"
  | soc_operator => "soc_operator"
  | soc_supervisor => "soc_supervisor"
  | site_manager => "site_manager"
  | customer => "customer"
  | viewer => "viewer"
  end.

(** The user is the JSON the server sent, cast to [AuthUser]; [None] is null. *)
Abbreviation AuthUser := json.

Definition user_role (u : AuthUser) : option json := jget "role" u.

(** [roles.includes(user.role)] *)
Definition role_in (roles : list UserRole) (u : AuthUser) : bool :=
  match user_role u with
  | Some (JStr s) => existsb (λ r, String.eqb (role_key r) s) roles
  | _ => false
  end.

Definition truthy_user (o : option AuthUser) : bool :=
  match o with Some u => truthy_json u | None => false end.

Definition ROUTE_PERMISSIONS : list (string * list UserRole) :=
  [("/operator", [soc_operator; soc_supervisor; admin]);
   ("/analytics", [soc_supervisor; admin; site_manager]);
   ("/portal", [site_manager; customer; soc_supervisor; admin]);
   ("/admin", [admin]);
   ("/reports", [admin; soc_supervisor]);
   ("/search", [soc_supervisor; admin]);
   ("/", [soc_supervisor; site_manager; customer; admin; viewer]);
   ("/login", [soc_operator; soc_supervisor; site_manager; customer; admin; viewer])].

Definition hasPermission (user : option AuthUser) (route : string) : bool :=
  match user with
  | Some u =>
      if negb (truthy_json u) then false
      else
        let matches := filter_where (λ r, String.prefix r route) ROUTE_PERMISSIONS.*1 in
        match sort_by (λ a b, String.length b <=? String.length a)%nat matches with
        | matched :: _ =>
            match find_where (λ e, String.eqb e.1 matched) ROUTE_PERMISSIONS with
            | Some e => role_in e.2 u
            | None => false
            end
        | [] => true
        end
  | None => false
  end.

Definition canAccess (user : option AuthUser) (roles : list UserRole) : bool :=
  match user with
  | Some u => if negb (truthy_json u) then false else role_in roles u
  | None => false
  end.

(** ** Guards *)

Definition roleHome (role : option json) : string :=
  match role with
  | Some (JStr s) =>
      if String.eqb s "soc_operator" then "/operator"
      else if String.eqb s "soc_supervisor" then "/operator"
      else if String.eqb s "site_manager" || String.eqb s "customer" then "/portal"
      else "/"
  | _ => "/"
  end.

(** The redirect of the login page for a signed-in user. *)
Definition roleDestination (role : option json) : string :=
  match role with
  | Some (JStr s) =>
      if String.eqb s "soc_operator" || String.eqb s "soc_supervisor" then "/operator"
      else if String.eqb s "site_manager" || String.eqb s "customer" then "/portal"
      else "/"
  | _ => "/"
  end.

(** What a guard does: whether it renders its children, and where it redirects. *)
Definition RouteGuard (allowed : list UserRole) (user : option AuthUser) : bool * option string :=
  match user with
  | Some u =>
      if truthy_json u then
        if role_in allowed u then (true, None) else (false, Some (roleHome (user_role u)))
      else (false, Some "/login")
  | None => (false, Some "/login")
  end.

(** The first segment of a path. *)
Definition segment (path : string) : string := default EmptyString (js_split "/" path !! 1%nat).

(** The guards of the layouts. *)
Definition layout_allowed (seg : string) : option (list UserRole) :=
  if String.eqb seg "admin" then Some [admin]
  else if String.eqb seg "analytics" then Some [soc_supervisor; admin; site_manager]
  else if String.eqb seg "operator" then Some [soc_operator; soc_supervisor; admin]
  else if String.eqb seg "portal" then Some [site_manager; customer; soc_supervisor; admin]
  else if String.eqb seg "reports" then Some [admin; soc_supervisor]
  else if String.eqb seg "search" then Some [soc_supervisor; admin]
  else None.

(** The redirect of the root page. *)
Definition root_redirect (user : option AuthUser) : option string :=
  match user ≫= user_role with
  | Some (JStr s) => if String.eqb s "soc_operator" then Some "/operator" else None
  | _ => None
  end.

(** The redirect of the login page. *)
Definition login_redirect (user : option AuthUser) : option string :=
  match user with
  | Some u => if truthy_json u then Some (roleDestination (user_role u)) else None
  | None => None
  end.

(** A visit to a page: shown or not, and the redirect. *)
Definition visit (user : option AuthUser) (path : string) : bool * option string :=
  let seg := segment path in
  match layout_allowed seg with
  | Some allowed => RouteGuard allowed user
  | None =>
      if String.eqb seg EmptyString then (true, root_redirect user)
      else if String.eqb seg "login" then (true, login_redirect user)
      else (true, None)
  end.

(** ** The auth context *)

Record AuthState := mkAuth {
  au_token : option string;
  au_user : option AuthUser;
  au_ready : bool
}.

Definition initial_auth : AuthState := mkAuth None None false.

Definition TOKEN_KEY : string := "ironsight_token".
Definition USER_KEY : string := "ironsight_user".

Definition DEMO_USER : AuthUser :=
  JObj [("id", JStr "demo-user"); ("username", JStr "spierce"); ("role", JStr "customer");
        ("display_name", JStr "Sandra Pierce"); ("email", JStr "spierce@apexcg.com");
        ("phone", JStr "312-555-0198"); ("organization_id", JStr "co-alpha001");
        ("assigned_site_ids", JArr [JStr "ACG-301"; JStr "ACG-302"])].

(** [demoModeActive()]: [storage] is the session's [ironsight_demo] entry, or
    [None] when the storage throws; the result carries the storage after the call. *)
Definition demoModeActive (window env_demo : bool) (search : string)
  (storage : option (option string)) : bool * option (option string) :=
  if negb window then (false, storage)
  else if env_demo then (true, storage)
  else if bool_decide (is_Some (String.index 0 "demo=1" search))
  then (true, (λ _, Some "1") <$> storage)
  else (match storage with Some (Some v) => String.eqb v "1" | _ => false end, storage).

Definition me_request : Request := mkRequest "/auth/me" no_init true.
Definition csrf_bootstrap_request : Request := mkRequest "/api/auth/csrf" no_init true.

Definition hasCSRF (cookie : string) : bool :=
  existsb (String.prefix "ironsight_csrf=") (js_split "; " cookie).

(** The effect of the provider's first mount. *)
Definition rehydrate (demo : bool) (s : AuthState) : M AuthState :=
  if demo then mret (mkAuth None (Some DEMO_USER) true)
  else
    s' ← try_catch
      (res ← fetch me_request;
       if negb (rs_ok res) then throw (XError "not authenticated")
       else
         u ← json_of res;
         _ ← emit (EStore USER_KEY u);
         cookie ← read_cookie;
         _ ← (if negb (hasCSRF cookie)
              then try_catch (_ ← fetch csrf_bootstrap_request; mret tt) (λ _, mret tt)
              else mret tt);
         mret (mkAuth None (Some u) (au_ready s)))
      (λ _, _ ← emit (ERemove TOKEN_KEY); _ ← emit (ERemove USER_KEY); mret s);
    mret (mkAuth (au_token s') (au_user s') true).

Definition login_request (identifier password : string) : Request :=
  mkRequest "/auth/login"
    (mkInit (Some "POST") [("Content-Type", "application/json")]
       (Some (BJson (JObj [("username", JStr identifier); ("password", JStr password)]))) false None) true.

(** [localStorage.setItem(USER_KEY, JSON.stringify(user))] *)
Definition store_user (o : option json) : M unit :=
  match o with
  | Some j => emit (EStore USER_KEY j)
  | None => emit (EStoreText USER_KEY "undefined")
  end.

Definition login (identifier password : string) (s : AuthState) : M AuthState :=
  res ← fetch (login_request identifier password);
  if negb (rs_ok res) then
    t ← text res;
    throw (XError (if truthy_str (trim t) then trim t else "Login failed"))
  else
    data ← json_of res;
    match data with
    | JNull => throw XType
    | _ => _ ← store_user (jget "user" data); mret (mkAuth None (jget "user" data) (au_ready s))
    end.

Definition logout_request (csrf : string) : Request :=
  mkRequest "/auth/logout"
    (mkInit (Some "POST") (if truthy_str csrf then [("X-CSRF-Token", csrf)] else []) None true None) true.

Definition logout (s : AuthState) : M AuthState :=
  window ← has_window;
  csrf ← (if window : bool then c ← read_cookie; mret (csrf_of_cookie c) else mret EmptyString);
  _ ← try_catch (_ ← fetch (logout_request csrf); mret tt) (λ _, mret tt);
  _ ← emit (ERemove TOKEN_KEY);
  _ ← emit (ERemove USER_KEY);
  _ ← emit (ENavigate "/oauth2/sign_out?rd=%2Flogin");
  mret (mkAuth None None (au_ready s)).

Definition isAuthenticated (s : AuthState) : bool := truthy_user (au_user s).

(** ** Cookies

    [document.cookie] shows the cookies that are not HttpOnly. *)

Record Cookie := mkCookie {
  ck_name : string;
  ck_value : string;
  ck_httpOnly : bool
}.

Definition cookie_pair (c : Cookie) : string := ck_name c +:+ "=" +:+ ck_value c.

Definition document_cookie (jar : list Cookie) : string :=
  String.concat "; " (cookie_pair <$> filter_where (λ c, negb (ck_httpOnly c)) jar).

(** [setSessionCookies] of the backend: both cookies replace the older ones. *)
Definition setSessionCookies (token csrf : string) (jar : list Cookie) : list Cookie :=
  (filter_where (λ c, negb (String.eqb (ck_name c) "ironsight_session" ||
                            String.eqb (ck_name c) "ironsight_csrf")) jar ++
   [mkCookie "ironsight_session" token true; mkCookie "ironsight_csrf" csrf false])%list.

(** The grammar of cookies: no [=] in a name, no [;] in either part. *)
Definition semicolon : Ascii.ascii := Ascii.ascii_of_N 59.

Definition cookie_ok (c : Cookie) : Prop :=
  ¬ has_char equals (ck_name c) ∧ ¬ has_char semicolon (ck_name c) ∧
  ¬ has_char semicolon (ck_value c).

Definition isLocalSessionCookie (document : bool) (cookie : string) : bool :=
  if negb document then false else existsb (String.prefix "ironsight_session=") (js_split "; " cookie).

(** ** The session manager *)

Definition SESSION_WARNING_MS : Z := 5 * 60 * 1000.
Definition HEARTBEAT_INTERVAL_MS : Z := 60 * 1000.
Definition IDLE_TIMEOUT_MS : Z := 30 * 60 * 1000.
Definition ACTIVITY_DEBOUNCE_MS : Z := 5000.
Definition SESSION_DURATION_MS : Z := 8 * 3600 * 1000.

(** [sm_running]: the listeners are installed; [sm_heartbeat]: the interval runs;
    [sm_debounce]: the deadline of the debounce timer; [sm_undismiss]: the
    deadlines of the timers that clear [warningDismissed]. *)
Record Manager := mkManager {
  sm_running : bool;
  sm_heartbeat : bool;
  sm_lastActivity : Z;
  sm_sessionStart : Z;
  sm_debounce : option Z;
  sm_warningDismissed : bool;
  sm_undismiss : list Z;
  sm_showWarning : bool;
  sm_timeRemaining : Z;
  sm_logouts : nat
}.

(** The first render, at time [now]. *)
Definition useSessionManager_init (now : Z) : Manager :=
  mkManager false false now now None false [] false 0 0.

(** The effect of [user], [logout] and [recordActivity]. *)
Definition session_effect (user : option AuthUser) (document : bool) (cookie : string) (now : Z)
  (m : Manager) : Manager :=
  if negb (truthy_user user) then m
  else if negb (isLocalSessionCookie document cookie) then m
  else mkManager true true (sm_lastActivity m) now None (sm_warningDismissed m) (sm_undismiss m)
         (sm_showWarning m) (sm_timeRemaining m) (sm_logouts m).

(** Its cleanup. *)
Definition session_cleanup (m : Manager) : Manager :=
  mkManager false false (sm_lastActivity m) (sm_sessionStart m) None (sm_warningDismissed m)
    (sm_undismiss m) (sm_showWarning m) (sm_timeRemaining m) (sm_logouts m).

Definition set_debounce (d : option Z) (m : Manager) : Manager :=
  mkManager (sm_running m) (sm_heartbeat m) (sm_lastActivity m) (sm_sessionStart m) d
    (sm_warningDismissed m) (sm_undismiss m) (sm_showWarning m) (sm_timeRemaining m) (sm_logouts m).

(** [handler]: a mouse, key, scroll or touch event. *)
Definition handler (now : Z) (m : Manager) : Manager :=
  if sm_running m then set_debounce (Some (now + ACTIVITY_DEBOUNCE_MS)) m else m.

Definition recordActivity (now : Z) (m : Manager) : Manager :=
  mkManager (sm_running m) (sm_heartbeat m) now (sm_sessionStart m) (sm_debounce m)
    (sm_warningDismissed m) (sm_undismiss m) (sm_showWarning m) (sm_timeRemaining m) (sm_logouts m).

(** The debounce timer fires once its deadline has passed. *)
Definition debounce_fires (now : Z) (m : Manager) : Manager :=
  match sm_debounce m with
  | Some d => if d <=? now then set_debounce None (recordActivity now m) else m
  | None => m
  end.

Definition warn (remaining : Z) (m : Manager) : Manager :=
  mkManager (sm_running m) (sm_heartbeat m) (sm_lastActivity m) (sm_sessionStart m) (sm_debounce m)
    (sm_warningDismissed m) (sm_undismiss m) true remaining (sm_logouts m).

(** The interval's callback; [logout()] is counted. *)
Definition heartbeat (now : Z) (m : Manager) : Manager :=
  if negb (sm_heartbeat m) then m
  else
    let sessionExpiry := sm_sessionStart m + SESSION_DURATION_MS in
    let remaining := sessionExpiry - now in
    let idleTime := now - sm_lastActivity m in
    if remaining <=? 0 then
      mkManager (sm_running m) false (sm_lastActivity m) (sm_sessionStart m) (sm_debounce m)
        (sm_warningDismissed m) (sm_undismiss m) (sm_showWarning m) (sm_timeRemaining m)
        (S (sm_logouts m))
    else if (IDLE_TIMEOUT_MS <=? idleTime) && negb (sm_warningDismissed m) then warn remaining m
    else if (remaining <=? SESSION_WARNING_MS) && negb (sm_warningDismissed m) then warn remaining m
    else m.

Definition extendSession (now : Z) (m : Manager) : Manager :=
  mkManager (sm_running m) (sm_heartbeat m) now (sm_sessionStart m) (sm_debounce m)
    true (sm_undismiss m ++ [now + SESSION_WARNING_MS])%list false (sm_timeRemaining m) (sm_logouts m).

Definition dismissWarning (now : Z) (m : Manager) : Manager :=
  mkManager (sm_running m) (sm_heartbeat m) (sm_lastActivity m) (sm_sessionStart m) (sm_debounce m)
    true (sm_undismiss m ++ [now + 5 * 60 * 1000])%list false (sm_timeRemaining m) (sm_logouts m).

(** The oldest timer of [extendSession] and [dismissWarning]. *)
Definition undismiss_fires (now : Z) (m : Manager) : Manager :=
  match sm_undismiss m with
  | d :: r =>
      if d <=? now then
        mkManager (sm_running m) (sm_heartbeat m) (sm_lastActivity m) (sm_sessionStart m) (sm_debounce m)
          false r (sm_showWarning m) (sm_timeRemaining m) (sm_logouts m)
      else m
  | [] => m
  end.

Inductive SessionEvent :=
| SEffect (user : option AuthUser) (jar : list Cookie) (now : Z)
| SCleanup
| SInput (now : Z)
| SDebounce (now : Z)
| SHeartbeat (now : Z)
| SExtend (now : Z)
| SDismiss (now : Z)
| SUndismiss (now : Z).

Definition session_step (m : Manager) (e : SessionEvent) : Manager :=
  match e with
  | SEffect user jar now => session_effect user true (document_cookie jar) now m
  | SCleanup => session_cleanup m
  | SInput now => handler now m
  | SDebounce now => debounce_fires now m
  | SHeartbeat now => heartbeat now m
  | SExtend now => extendSession now m
  | SDismiss now => dismissWarning now m
  | SUndismiss now => undismiss_fires now m
  end.

(** ** The modal *)

Record Modal := mkModal {
  md_countdown : Z;
  md_running : bool;
  md_logouts : nat
}.

(** The effect of [show] and [timeRemaining]. *)
Definition modal_effect (show : bool) (timeRemaining : Z) (m : Modal) : Modal :=
  if negb show then m else mkModal timeRemaining true (md_logouts m).

(** The callback of its one-second interval. *)
Definition modal_tick (m : Modal) : Modal :=
  if negb (md_running m) then m
  else if md_countdown m <=? 1000 then mkModal 0 false (S (md_logouts m))
  else mkModal (md_countdown m - 1000) true (md_logouts m).

Definition modal_minutes (m : Modal) : Z := md_countdown m / 60000.
Definition modal_seconds (m : Modal) : Z := (md_countdown m mod 60000) / 1000.

(** ** Lemmas: roles and routes *)

Lemma user_role_falsy u : truthy_json u = false → user_role u = None.
Proof. by destruct u. Qed.

Lemma role_in_iff roles u :
  role_in roles u = true ↔ ∃ r, r ∈ roles ∧ user_role u = Some (JStr (role_key r)).
Proof.
  unfold role_in. split.
  - destruct (user_role u) as [[]|]; try done. rewrite existsb_exists.
    intros (r & Hr & Hs%String.eqb_eq). exists r. split; [by apply list_elem_of_In|congruence].
  - intros (r & Hr & ->). apply existsb_exists. exists r. split; [by apply list_elem_of_In|].
    apply String.eqb_refl.
Qed.

Lemma prefix_empty s : String.prefix EmptyString s = true.
Proof. by destruct s. Qed.

(** A guarded segment is one of six names. *)
Lemma layout_cases (P : string → list UserRole → Prop) :
  P "admin" [admin] → P "analytics" [soc_supervisor; admin; site_manager] →
  P "operator" [soc_operator; soc_supervisor; admin] →
  P "portal" [site_manager; customer; soc_supervisor; admin] →
  P "reports" [admin; soc_supervisor] → P "search" [soc_supervisor; admin] →
  ∀ seg allowed, layout_allowed seg = Some allowed → P seg allowed.
Proof.
  intros H1 H2 H3 H4 H5 H6 seg allowed. unfold layout_allowed.
  repeat match goal with
    |- context [String.eqb seg ?x] => destruct (String.eqb_spec seg x) as [->|_]; [by intros [= <-]|]
  end. done.
Qed.

Lemma segment_sub seg allowed rest :
  layout_allowed seg = Some allowed →
  segment ("/" +:+ seg) = seg ∧ segment ("/" +:+ seg +:+ "/" +:+ rest) = seg.
Proof. revert seg allowed. apply layout_cases; split; by destruct rest. Qed.

Lemma visit_guarded user path allowed :
  layout_allowed (segment path) = Some allowed → visit user path = RouteGuard allowed user.
Proof. unfold visit. by intros ->. Qed.

(** The home of a role is shown to that role. *)
Lemma home_shown u :
  truthy_json u = true → visit (Some u) (roleHome (user_role u)) = (true, None).
Proof.
  intros Hu. destruct (user_role u) as [[| | |s| |]|] eqn:E; simpl;
    try (unfold visit, root_redirect; cbn -[user_role]; by rewrite E).
  repeat match goal with
    |- context [String.eqb s ?x] => destruct (String.eqb_spec s x) as [->|?]; simpl;
      [unfold visit, root_redirect; cbn -[user_role role_in]; rewrite Hu; unfold role_in; by rewrite E|]
  end.
  unfold visit, root_redirect; cbn -[user_role]. rewrite E. by destruct (String.eqb_spec s "soc_operator").
Qed.

Lemma roleDestination_home r : roleDestination r = roleHome r.
Proof.
  destruct r as [[]|]; try done. simpl. by repeat destruct (String.eqb _ _).
Qed.

Lemma guard_matrix user rest seg allowed :
  layout_allowed seg = Some allowed →
  (RouteGuard allowed user).1 = hasPermission user ("/" +:+ seg +:+ "/" +:+ rest).
Proof.
  revert seg allowed. apply (layout_cases (λ seg allowed,
    (RouteGuard allowed user).1 = hasPermission user ("/" +:+ seg +:+ "/" +:+ rest)));
    (destruct user as [u|]; [|done]); simpl; (destruct (truthy_json u); [|done]); cbn;
    by destruct (role_in _ u).
Qed.

(** ** Properties: roles and routes *)

(** The layouts' guards and the route matrix agree on every path below a
    guarded segment: a page is shown exactly when [hasPermission] holds, which is
    when the signed-in user has one of the allowed roles; everyone else sees
    nothing, and is redirected. *)
Theorem guards_match_matrix user seg allowed rest :
  layout_allowed seg = Some allowed →
  let path := "/" +:+ seg +:+ "/" +:+ rest in
  (visit user path).1 = hasPermission user path ∧
  visit user ("/" +:+ seg) = visit user path ∧
  ((visit user path).1 = true ↔
    ∃ u r, user = Some u ∧ r ∈ allowed ∧ user_role u = Some (JStr (role_key r))) ∧
  ((visit user path).1 = false ↔ is_Some (visit user path).2).
Proof.
  intros Hs. destruct (segment_sub _ _ rest Hs) as [H1 H2]. intros path.
  assert (Hv : visit user path = RouteGuard allowed user) by (apply visit_guarded; unfold path; by rewrite H2).
  rewrite Hv, (visit_guarded user ("/" +:+ seg) allowed) by (by rewrite H1). split_and!.
  - by apply guard_matrix.
  - done.
  - unfold RouteGuard. destruct user as [u|]; [|naive_solver].
    destruct (truthy_json u) eqn:Eu; simpl.
    + destruct (role_in allowed u) eqn:Er; simpl.
      * apply role_in_iff in Er as (r & ? & ?). split; [|done]. intros _. by exists u, r.
      * split; [done|]. intros (u' & r & [= <-] & Hr & Hu'). rewrite <- Er. apply role_in_iff. eauto.
    + split; [done|]. intros (u' & r & [= <-] & Hr & Hu'). by rewrite user_role_falsy in Hu'.
  - unfold RouteGuard. destruct user as [u|]; [destruct (truthy_json u); [destruct (role_in allowed u)|]|];
      simpl; split; try done; try (by intros [? ?]); by eexists.
Qed.

Lemma guards_match_matrix_witness :
  (visit (Some DEMO_USER) "/admin/users").1 = false ∧ (visit (Some DEMO_USER) "/portal/sites/7").1 = true.
Proof.
  split.
  - destruct (guards_match_matrix (Some DEMO_USER) "admin" [admin] "users" eq_refl) as (H & _).
    exact H.
  - destruct (guards_match_matrix (Some DEMO_USER) "portal" _ "sites/7" eq_refl) as (_ & _ & [_ H] & _).
    apply H. exists DEMO_USER, customer. split_and!; [reflexivity| |reflexivity].
    apply list_elem_of_In. simpl. auto.
Defined.

(** No redirect loops: whatever page a user or a visitor opens, the page a
    redirect leads to is shown and redirects no further. *)
Theorem redirects_settle user path dest :
  (visit user path).2 = Some dest → visit user dest = (true, None).
Proof.
  assert (Hout : truthy_user user = false → visit user "/login" = (true, None)).
  { unfold visit, truthy_user, login_redirect. cbn. destruct user as [u|]; [by intros ->|done]. }
  unfold visit at 1. destruct (layout_allowed (segment path)) as [allowed|].
  - unfold RouteGuard. destruct user as [u|]; [|intros [= <-]; by apply Hout].
    destruct (truthy_json u) eqn:Eu; [|intros [= <-]; by apply Hout].
    destruct (role_in allowed u); [done|]. intros [= <-]. by apply home_shown.
  - destruct (String.eqb (segment path) EmptyString); [|destruct (String.eqb (segment path) "login"); [|done]]; simpl.
    + unfold root_redirect. destruct user as [u|]; [|done]. simpl.
      destruct (user_role u) as [[| | |s| |]|] eqn:E; try done.
      destruct (String.eqb_spec s "soc_operator") as [->|]; [|done]. intros [= <-].
      destruct (truthy_json u) eqn:Eu; [|by rewrite user_role_falsy in E].
      unfold visit, root_redirect. cbn -[user_role role_in]. rewrite Eu. unfold role_in. by rewrite E.
    + unfold login_redirect. destruct user as [u|]; [|done].
      destruct (truthy_json u) eqn:Eu; [|done]. intros [= <-].
      rewrite roleDestination_home. by apply home_shown.
Qed.

Lemma redirects_settle_witness : visit (Some DEMO_USER) "/portal" = (true, None).
Proof. exact (redirects_settle (Some DEMO_USER) "/admin/users" "/portal" eq_refl). Defined.

(** ** Properties: the auth context *)

(** The outcome of the provider's mount. *)
Definition rehydrated (o : option Response) : option json :=
  match o with Some r => if rs_ok r then rs_json r else None | None => None end.

Lemma best_effort_fetch r b l :
  try_catch (_ ← fetch r; mret tt) (λ _, mret tt) b l = ((l ++ [EFetch r])%list, Ok tt).
Proof. unfold try_catch, fetch, mbind, M_bind. by destruct (br_net b l r). Qed.

(** C14. Rehydration never rejects and always ends ready, with the user the server
    sent (kept in the local storage, the CSRF cookie fetched when it is missing)
    or, after any failure, the previous user and the stored session removed.
    Signing in sets the user only after a successful answer with a body; any other
    outcome rejects and stores nothing.  Signing out sends one [POST] with
    [keepalive] and the CSRF token of the cookie, and whatever happens to it clears
    the user and the stored session before leaving for the SSO sign-out. *)
Theorem auth_lifecycle b l s identifier password :
  (let start := (l ++ [EFetch me_request])%list in
   rehydrate false s b l =
   match rehydrated (br_net b l me_request) with
   | Some u =>
       ((start ++ EStore USER_KEY u ::
         (if hasCSRF (br_cookie b (start ++ [EStore USER_KEY u])%list) then []
          else [EFetch csrf_bootstrap_request]))%list,
        Ok (mkAuth None (Some u) true))
   | None => ((start ++ [ERemove TOKEN_KEY; ERemove USER_KEY])%list,
              Ok (mkAuth (au_token s) (au_user s) true))
   end) ∧
  (let sent := (l ++ [EFetch (login_request identifier password)])%list in
   match rehydrated (br_net b l (login_request identifier password)) with
   | Some (JNull) | None => ∃ e, login identifier password s b l = (sent, Err e)
   | Some data =>
       ∃ stored, login identifier password s b l =
         ((sent ++ [stored])%list, Ok (mkAuth None (jget "user" data) (au_ready s))) ∧
       (∀ u, jget "user" data = Some u → stored = EStore USER_KEY u)
   end) ∧
  logout s b l =
    ((l ++ [EFetch (logout_request (if br_window b then csrf_of_cookie (br_cookie b l) else EmptyString));
            ERemove TOKEN_KEY; ERemove USER_KEY; ENavigate "/oauth2/sign_out?rd=%2Flogin"])%list,
     Ok (mkAuth None None (au_ready s))).
Proof.
  split_and!.
  - unfold rehydrate, rehydrated, try_catch, fetch, mbind, M_bind, emit, read_cookie, json_of, lift_body.
    destruct (br_net b l me_request) as [r|]; simpl; [|by rewrite <- app_assoc].
    destruct (rs_ok r); simpl; [|by rewrite <- app_assoc].
    destruct (rs_json r) as [u|]; simpl; [|by rewrite <- app_assoc].
    destruct (hasCSRF _); simpl; [by rewrite <- app_assoc|].
    by destruct (br_net b _ csrf_bootstrap_request); simpl; rewrite <- !app_assoc.
  - unfold login, rehydrated, fetch, mbind, M_bind, json_of, text, lift_body.
    destruct (br_net b l _) as [r|]; simpl; [|by eexists].
    destruct (rs_ok r); simpl; [|destruct (rs_text r); by eexists].
    destruct (rs_json r) as [data|]; simpl; [|by eexists].
    destruct data; try (by eexists); unfold store_user, emit;
      destruct (jget "user" _); eexists; (split; [reflexivity|naive_solver]).
  - unfold logout, has_window, read_cookie, emit.
    rewrite (bind_ok _ _ b l l (br_window b)) by done.
    rewrite (bind_ok _ _ b l l (if br_window b then csrf_of_cookie (br_cookie b l) else EmptyString))
      by (by destruct (br_window b)).
    rewrite (bind_ok _ _ _ _ _ _ (best_effort_fetch _ b l)).
    unfold mbind, M_bind. by rewrite <- !app_assoc.
Qed.

(** ** Cookies the code can see *)

Lemma split_cons2 c d x s :
  ¬ has_char c x →
  js_split (String c (String d EmptyString)) (x +:+ String c (String d s)) =
  x :: js_split (String c (String d EmptyString)) s.
Proof.
  unfold js_split, has_char. induction x as [|a x IH]; simpl; intros H.
  - destruct (Ascii.ascii_dec c c); [|done]. destruct (Ascii.ascii_dec d d); [|done]. by destruct s.
  - rewrite not_elem_of_cons in H. destruct H as [Hne H].
    destruct (Ascii.ascii_dec c a); [done|].
    change (x ++ String c (String d s))%string with (x +:+ String c (String d s)). by rewrite IH.
Qed.

Lemma split_no_sep2 c d s :
  ¬ has_char c s → js_split (String c (String d EmptyString)) s = [s].
Proof.
  unfold js_split, has_char. induction s as [|a s IH]; simpl; [done|]. intros H.
  rewrite not_elem_of_cons in H. destruct H as [Hne H].
  destruct (Ascii.ascii_dec c a); [done|]. by rewrite IH.
Qed.

Lemma split_concat2 c d l :
  l ≠ [] → Forall (λ x, ¬ has_char c x) l →
  js_split (String c (String d EmptyString)) (String.concat (String c (String d EmptyString)) l) = l.
Proof.
  intros Hn. induction 1 as [|x l Hx Hl IH]; [done|].
  destruct l as [|y l]; [by apply split_no_sep2|].
  transitivity (js_split (String c (String d EmptyString))
    (x +:+ String c (String d (String.concat (String c (String d EmptyString)) (y :: l))))); [done|].
  rewrite split_cons2 by done. f_equal. by apply IH.
Qed.

(** A pair starts with [name=] exactly when that is its name. *)
Lemma prefix_pair c p n v :
  ¬ has_char c p → ¬ has_char c n →
  String.prefix (p +:+ String c EmptyString) (n +:+ String c v) = String.eqb p n.
Proof.
  unfold has_char. revert n. induction p as [|a p IH]; intros [|b n]; simpl;
    rewrite ?not_elem_of_cons; intros Hp Hn.
  - destruct (Ascii.ascii_dec c c); [|done]. by destruct v.
  - destruct (Ascii.ascii_dec c b); [naive_solver|done].
  - destruct (Ascii.ascii_dec a c); [naive_solver|done].
  - destruct (Ascii.ascii_dec a b) as [->|Hab].
    + rewrite Ascii.eqb_refl. apply IH; naive_solver.
    + destruct (Ascii.eqb_spec a b); [done|done].
Qed.

Lemma has_char_app3 c x y z : has_char c (x +:+ y +:+ z) ↔ has_char c x ∨ has_char c y ∨ has_char c z.
Proof. by rewrite !has_char_app. Qed.

(** Which names the cookie string shows. *)
Lemma document_cookie_visible name jar :
  ¬ has_char equals name → Forall cookie_ok jar →
  existsb (String.prefix (name +:+ "=")) (js_split "; " (document_cookie jar)) =
  existsb (λ c, negb (ck_httpOnly c) && String.eqb name (ck_name c)) jar.
Proof.
  intros Hname Hjar. unfold document_cookie.
  set (seen := filter_where (λ c, negb (ck_httpOnly c)) jar).
  assert (Hseen : Forall cookie_ok seen).
  { apply Forall_forall. intros c [_ Hc]%elem_of_filter_where. by eapply Forall_forall in Hc. }
  transitivity (existsb (λ c, String.eqb name (ck_name c)) seen).
  - destruct seen as [|c seen]; [by destruct name|]. change "; "%string with (String semicolon (String (Ascii.ascii_of_N 32) EmptyString)).
    rewrite split_concat2; [|done|].
    + clear Hjar. revert Hseen. generalize (c :: seen). clear c seen. induction 1 as [|c seen Hc _ IH]; [done|].
      cbn [fmap list_fmap existsb]. f_equal; [|exact IH]. apply (prefix_pair equals); [done|]. by destruct Hc.
    + apply Forall_fmap. eapply Forall_impl; [exact Hseen|]. intros x (_ & H1 & H2). simpl.
      unfold cookie_pair. rewrite has_char_app3. intros [?|[H|?]]; try done.
      unfold has_char in H. simpl in H. by apply list_elem_of_singleton in H.
  - subst seen. clear. unfold filter_where. induction jar as [|c jar IH]; [done|].
    rewrite filter_cons. simpl. by destruct (ck_httpOnly c); simpl; rewrite IH.
Qed.

(** ** Lemmas: the session manager *)

(** No listener and no interval has been installed, and nothing has been shown. *)
Definition dormant (m : Manager) : Prop :=
  sm_running m = false ∧ sm_heartbeat m = false ∧ sm_debounce m = None ∧
  sm_showWarning m = false ∧ sm_logouts m = 0%nat.

Definition session_hidden (e : SessionEvent) : Prop :=
  match e with
  | SEffect _ jar _ =>
      Forall cookie_ok jar ∧ ∀ c, c ∈ jar → ck_name c = "ironsight_session" → ck_httpOnly c = true
  | _ => True
  end.

Lemma isLocalSessionCookie_hidden jar :
  Forall cookie_ok jar → (∀ c, c ∈ jar → ck_name c = "ironsight_session" → ck_httpOnly c = true) →
  isLocalSessionCookie true (document_cookie jar) = false.
Proof.
  intros Hok Hs. unfold isLocalSessionCookie. simpl negb. cbv iota.
  change "ironsight_session="%string with ("ironsight_session" +:+ "=").
  rewrite document_cookie_visible; [|unfold has_char; simpl; set_solver|done].
  apply not_true_iff_false. rewrite existsb_exists. intros (c & Hc & Hb).
  apply andb_true_iff in Hb as [Hh Hn]. apply String.eqb_eq in Hn.
  rewrite (Hs c) in Hh; [done|by apply list_elem_of_In|done].
Qed.

Lemma dormant_step m e : session_hidden e → dormant m → dormant (session_step m e).
Proof.
  intros He (H1 & H2 & H3 & H4 & H5). destruct e as [u jar now| |now|now|now|now|now|now]; simpl in *.
  - unfold session_effect. destruct (truthy_user u); simpl; [|by split_and!].
    destruct He as [Hok Hs]. rewrite (isLocalSessionCookie_hidden jar Hok Hs). by split_and!.
  - by split_and!.
  - unfold handler. rewrite H1. by split_and!.
  - unfold debounce_fires. rewrite H3. by split_and!.
  - unfold heartbeat. rewrite H2. by split_and!.
  - by split_and!.
  - by split_and!.
  - unfold undismiss_fires. destruct (sm_undismiss m); [by split_and!|].
    destruct (_ <=? now); by split_and!.
Qed.

Lemma setSessionCookies_hidden token csrf jar :
  cookie_ok (mkCookie "ironsight_session" token true) → cookie_ok (mkCookie "ironsight_csrf" csrf false) →
  Forall cookie_ok jar →
  Forall cookie_ok (setSessionCookies token csrf jar) ∧
  ∀ c, c ∈ setSessionCookies token csrf jar → ck_name c = "ironsight_session" → ck_httpOnly c = true.
Proof.
  intros Ht Hc Hjar. unfold setSessionCookies. split.
  - apply Forall_app. split; [|by apply Forall_cons_2; [|apply Forall_cons_2; [|apply Forall_nil_2]]]. apply Forall_forall.
    intros x [_ Hx]%elem_of_filter_where. by eapply Forall_forall in Hjar.
  - intros c [[Hn _]%elem_of_filter_where|Hin]%elem_of_app Hname.
    + by rewrite Hname in Hn.
    + apply elem_of_cons in Hin as [->|Hin]; [done|]. apply list_elem_of_singleton in Hin as ->. done.
Qed.

(** Input at the given times, the debounce timer firing whenever it is due. *)
Definition inputs (m : Manager) (times : list Z) : Manager :=
  foldl (λ m t, handler t (debounce_fires t m)) m times.

(** Each time follows the previous one by less than the debounce delay. *)
Fixpoint busy (last : Z) (times : list Z) : Prop :=
  match times with
  | [] => True
  | t :: r => last ≤ t < last + ACTIVITY_DEBOUNCE_MS ∧ busy t r
  end.

Lemma inputs_busy m t0 times :
  sm_running m = true → sm_debounce m = Some (t0 + ACTIVITY_DEBOUNCE_MS) → busy t0 times →
  sm_lastActivity (inputs m times) = sm_lastActivity m ∧
  sm_sessionStart (inputs m times) = sm_sessionStart m ∧
  sm_heartbeat (inputs m times) = sm_heartbeat m ∧
  sm_warningDismissed (inputs m times) = sm_warningDismissed m.
Proof.
  revert m t0. induction times as [|t r IH]; intros m t0 Hr Hd Hb; [done|].
  destruct Hb as [[H1 H2] Hb]. simpl.
  assert (E : debounce_fires t m = m).
  { unfold debounce_fires. rewrite Hd. destruct (Z.leb_spec (t0 + ACTIVITY_DEBOUNCE_MS) t); [lia|done]. }
  rewrite E. replace (handler t m) with (set_debounce (Some (t + ACTIVITY_DEBOUNCE_MS)) m)
    by (unfold handler; by rewrite Hr).
  destruct (IH (set_debounce (Some (t + ACTIVITY_DEBOUNCE_MS)) m) t Hr eq_refl Hb) as (-> & -> & -> & ->). done.
Qed.

Lemma modal_ticks T n l :
  0 < T →
  Nat.iter n modal_tick (mkModal T true l) =
  if 1000 * Z.of_nat n <? T then mkModal (T - 1000 * Z.of_nat n) true l else mkModal 0 false (S l).
Proof.
  intros HT. induction n as [|n IH].
  - destruct (Z.ltb_spec (1000 * Z.of_nat 0) T); [|lia]. simpl. f_equal. lia.
  - rewrite Nat.iter_succ, IH. clear IH.
    destruct (Z.ltb_spec (1000 * Z.of_nat n) T); destruct (Z.ltb_spec (1000 * Z.of_nat (S n)) T); try lia;
      unfold modal_tick; simpl.
    + destruct (Z.leb_spec (T - 1000 * Z.of_nat n) 1000); [lia|]. f_equal. lia.
    + destruct (Z.leb_spec (T - 1000 * Z.of_nat n) 1000); [done|lia].
    + done.
Qed.

(** ** Properties: the session manager *)

(** [isLocalSessionCookie] looks for the session cookie in
    [document.cookie], which does not show HttpOnly cookies, and the backend sets
    it HttpOnly.  So the manager never starts: whatever the user does and however
    long the session lasts, it installs no listener, shows no warning and never
    signs the user out, for every jar that [setSessionCookies] leaves behind. *)
Theorem session_manager_dormant now es :
  Forall session_hidden es →
  dormant (foldl session_step (useSessionManager_init now) es) ∧
  ∀ token csrf jar user t,
    Forall cookie_ok (setSessionCookies token csrf []) → Forall cookie_ok jar →
    session_hidden (SEffect user (setSessionCookies token csrf jar) t).
Proof.
  intros Hes. split.
  - assert (Hd : dormant (useSessionManager_init now)) by done. revert Hd.
    generalize (useSessionManager_init now). induction Hes as [|e es He _ IH]; intros m Hm; [done|].
    simpl. apply IH. by apply dormant_step.
  - intros token csrf jar user t Hset Hjar. unfold setSessionCookies in Hset. simpl in Hset.
    apply Forall_cons in Hset as [H1 Hset]. apply Forall_cons in Hset as [H2 _].
    by apply setSessionCookies_hidden.
Qed.

Lemma session_manager_dormant_witness :
  sm_showWarning (foldl session_step (useSessionManager_init 0)
    [SEffect (Some DEMO_USER) (setSessionCookies "jwt" "abc" []) 0; SInput 10;
     SHeartbeat 28740000; SHeartbeat 28860000]) = false.
Proof.
  destruct (session_manager_dormant 0
    [SEffect (Some DEMO_USER) (setSessionCookies "jwt" "abc" []) 0; SInput 10;
     SHeartbeat 28740000; SHeartbeat 28860000]) as [(_ & _ & _ & H & _) _].
  - repeat constructor; unfold has_char; simpl; try set_solver.
  - exact H.
Defined.

(** Where the cookie is visible the manager counts a session of eight hours
    from its effect.  A heartbeat signs out once the eight hours are over, and the
    interval then stops, so later heartbeats never sign out again; before that it
    warns exactly when the user has been idle for thirty minutes or five minutes
    remain, unless the warning was dismissed.  Extending the session hides the
    warning but moves no deadline.  Input that never pauses for five seconds is
    never recorded as activity, so a user who is busy for thirty minutes is warned
    as idle.  The modal's countdown signs out exactly once, at its last second. *)
Theorem session_countdown m now :
  sm_running m = true → sm_heartbeat m = true →
  (let expiry := sm_sessionStart m + SESSION_DURATION_MS in
   sm_logouts (heartbeat now m) = (if expiry <=? now then S (sm_logouts m) else sm_logouts m) ∧
   (expiry ≤ now → ∀ later, heartbeat later (heartbeat now m) = heartbeat now m) ∧
   (now < expiry → sm_warningDismissed m = false →
      IDLE_TIMEOUT_MS ≤ now - sm_lastActivity m ∨ expiry - now ≤ SESSION_WARNING_MS →
      heartbeat now m = warn (expiry - now) m) ∧
   (now < expiry →
      sm_warningDismissed m = true ∨
      (now - sm_lastActivity m < IDLE_TIMEOUT_MS ∧ SESSION_WARNING_MS < expiry - now) →
      heartbeat now m = m) ∧
   (sm_sessionStart (extendSession now m) = sm_sessionStart m ∧
    sm_showWarning (extendSession now m) = false ∧
    (now < expiry → heartbeat now (extendSession now m) = extendSession now m)) ∧
   (∀ t0 times, sm_warningDismissed m = false → busy t0 times → now < expiry →
      sm_lastActivity m + IDLE_TIMEOUT_MS ≤ now → sm_debounce m = Some (t0 + ACTIVITY_DEBOUNCE_MS) →
      sm_showWarning (heartbeat now (inputs m times)) = true)) ∧
  (∀ T n l, 0 < T →
     let m' := Nat.iter n modal_tick (modal_effect true T (mkModal 0 false l)) in
     md_logouts m' = (if 1000 * Z.of_nat n <? T then l else S l) ∧
     md_countdown m' = Z.max 0 (T - 1000 * Z.of_nat n)).
Proof.
  intros Hr Hh. split; [intros expiry; split_and!|].
  - unfold heartbeat. rewrite Hh. fold expiry. simpl.
    destruct (Z.leb_spec (expiry - now) 0), (Z.leb_spec expiry now); try lia; simpl; [done|].
    by repeat case_match.
  - intros He later. unfold heartbeat at 2 3. rewrite Hh. fold expiry. simpl.
    by destruct (Z.leb_spec (expiry - now) 0); [|lia].
  - intros He Hd Hw. unfold heartbeat. rewrite Hh, Hd. fold expiry. simpl.
    destruct (Z.leb_spec (expiry - now) 0); [lia|].
    destruct (Z.leb_spec IDLE_TIMEOUT_MS (now - sm_lastActivity m)); simpl; [done|].
    by destruct (Z.leb_spec (expiry - now) SESSION_WARNING_MS); [|lia].
  - intros He Hd. unfold heartbeat. rewrite Hh. fold expiry. simpl.
    destruct (Z.leb_spec (expiry - now) 0); [lia|]. destruct Hd as [->|[H1 H2]].
    + by rewrite !andb_false_r.
    + destruct (Z.leb_spec IDLE_TIMEOUT_MS (now - sm_lastActivity m)); [lia|].
      by destruct (Z.leb_spec (expiry - now) SESSION_WARNING_MS); [lia|].
  - done.
  - done.
  - intros He. unfold heartbeat. simpl. rewrite Hh. fold expiry. simpl.
    destruct (Z.leb_spec (expiry - now) 0); [lia|]. by rewrite !andb_false_r.
  - intros t0 times Hd Hb He Hi Hdeb. destruct (inputs_busy m t0 times Hr Hdeb Hb) as (H1 & H2 & H3 & H4).
    unfold heartbeat. rewrite H1, H2, H3, H4, Hh, Hd. fold expiry. simpl.
    destruct (Z.leb_spec (expiry - now) 0); [lia|].
    by destruct (Z.leb_spec IDLE_TIMEOUT_MS (now - sm_lastActivity m)); [|lia].
  - intros T n l HT m'.
    replace m' with (Nat.iter n modal_tick (mkModal T true l)) by done. rewrite (modal_ticks T n l HT).
    destruct (Z.ltb_spec (1000 * Z.of_nat n) T); simpl; split; lia.
Qed.

Definition running_manager : Manager := mkManager true true 0 0 (Some 5000) false [] false 0 0.

Lemma session_countdown_witness :
  sm_showWarning (heartbeat 1800000 (inputs running_manager [4000; 8000; 12000])) = true.
Proof.
  destruct (session_countdown running_manager 1800000 eq_refl eq_refl) as [(_ & _ & _ & _ & _ & H) _].
  apply (H 0 [4000; 8000; 12000]); [reflexivity| | reflexivity | | reflexivity].
  - simpl. unfold ACTIVITY_DEBOUNCE_MS. lia.
  - vm_compute. discriminate.
Defined.
