(* ===== verification/Media.v ===== *)
(** * Signed media URLs ([lib/media.ts])

    Minting a media token, rewriting the legacy URL shapes that the database still
    holds, and the refresher that re-mints before a token expires. *)

From S2P Require Import Prelude Types Http AuthFetch.
From stdpp Require Import pretty.
#[local] Open Scope string_scope.
#[local] Open Scope Z_scope.

(** ** Minting *)

Inductive MediaKind := segment | hls | snapshot.

Definition kind_key (k : MediaKind) : string :=
  match k with segment => "segment" | hls => "hls" | snapshot => "snapshot" end.

Record MintRequest := mkMintRequest {
  mr_camera_id : string;
  mr_kind : MediaKind;
  mr_path : string;
  mr_ttl_seconds : option Z
}.

(** [JSON.stringify(req)] *)
Definition mint_json (req : MintRequest) : json :=
  JObj ([("camera_id", JStr (mr_camera_id req)); ("kind", JStr (kind_key (mr_kind req)));
         ("path", JStr (mr_path req))] ++ opt_prop "ttl_seconds" (jnum <$> mr_ttl_seconds req))%list.

Definition mint_init (req : MintRequest) : Init :=
  mkInit (Some "POST") [("Content-Type", "application/json")] (Some (BJson (mint_json req))) false None.

Definition mintMediaToken (req : MintRequest) : M json :=
  res ← authFetch "/api/media/mint" (mint_init req);
  if negb (rs_ok res) then throw (XError ("mint failed: " +:+ pretty (rs_status res)))
  else json_of res.

(** [const { url } = data]: undefined is [None], and null throws. *)
Definition url_of (data : json) : M (option json) :=
  match data with JNull => throw XType | _ => mret (jget "url" data) end.

(** ** The legacy shapes *)

(** The longest prefix whose characters satisfy [p], and the rest. *)
Fixpoint span (p : Ascii.ascii → bool) (s : string) : string * string :=
  match s with
  | EmptyString => (EmptyString, EmptyString)
  | String c s' => if p c then let '(a, r) := span p s' in (String c a, r) else (EmptyString, s)
  end.

Definition slash : Ascii.ascii := Ascii.ascii_of_N 47.
Definition hash : Ascii.ascii := Ascii.ascii_of_N 35.
Definition question : Ascii.ascii := Ascii.ascii_of_N 63.

(** [[^/]] and [[^/?#]] *)
Definition no_slash (c : Ascii.ascii) : bool := negb (Ascii.eqb c slash).
Definition name_char (c : Ascii.ascii) : bool :=
  negb (Ascii.eqb c slash || Ascii.eqb c question || Ascii.eqb c hash).

(** The line terminators, which the dot of the pattern does not match. *)
Fixpoint no_terminator (l : list N) : bool :=
  match l with
  | [] => true
  | c :: l' =>
      negb ((c =? 10)%N || (c =? 13)%N ||
            match l with (226 :: 128 :: 168 :: _)%N | (226 :: 128 :: 169 :: _)%N => true | _ => false end) &&
      no_terminator l'
  end.

Fixpoint strip_str (p s : string) : option string :=
  match p, s with
  | EmptyString, _ => Some s
  | String a p', String b s' => if Ascii.eqb a b then strip_str p' s' else None
  | String _ _, EmptyString => None
  end.

(** The match of [^<dir>([^/]+)\/([^/?#]+)$], with an optional fragment when [frag] holds. *)
Definition match_legacy (dir : string) (frag : bool) (url : string) : option (string * string * string) :=
  match strip_str dir url with
  | Some rest =>
      match span no_slash rest with
      | (EmptyString, _) => None
      | (cam, String _ r) =>
          match span name_char r with
          | (EmptyString, _) => None
          | (file, EmptyString) => Some (cam, file, EmptyString)
          | (file, String c t) =>
              if frag && Ascii.eqb c hash && no_terminator (bytes_of t)
              then Some (cam, file, String c t) else None
          end
      | (_, EmptyString) => None
      end
  | None => None
  end.

Section resolve.
(** How the language writes a number in text. *)
Context (number_text : Q → string).

(** [String(v)], for [url + frag]. *)
Fixpoint js_text (v : json) : string :=
  match v with
  | JNull => "null"
  | JBool c => if c then "true" else "false"
  | JNum q => number_text q
  | JStr s => s
  | JArr l => String.concat "," ((λ x, match x with JNull => EmptyString | _ => js_text x end) <$> l)
  | JObj _ => "[object Object]"
  end.

Definition concat_text (v : option json) (frag : string) : json :=
  JStr ((match v with Some j => js_text j | None => "undefined" end) +:+ frag).

Definition resolve_with (req : MintRequest) (finish : option json → option json) : M (option json) :=
  try_catch (data ← mintMediaToken req; u ← url_of data; mret (finish u)) (λ _, mret (Some (JStr EmptyString))).

Definition resolveMediaURL (rawURL : option string) : M (option json) :=
  match rawURL with
  | None => mret (Some (JStr EmptyString))
  | Some raw =>
      if negb (truthy_str raw) then mret (Some (JStr EmptyString))
      else if String.prefix "/media/v1/" raw then mret (Some (JStr raw))
      else if String.prefix "http://" raw || String.prefix "https://" raw then mret (Some (JStr raw))
      else
        match match_legacy "/snapshots/" false raw with
        | Some (cam, file, _) => resolve_with (mkMintRequest cam snapshot file None) (λ u, u)
        | None =>
            match match_legacy "/recordings/" true raw with
            | Some (cam, file, frag) =>
                resolve_with (mkMintRequest cam segment file None) (λ u, Some (concat_text u frag))
            | None =>
                match match_legacy "/hls/" false raw with
                | Some (cam, file, _) => resolve_with (mkMintRequest cam hls file None) (λ u, u)
                | None => mret (Some (JStr raw))
                end
            end
        end
  end.
End resolve.

(** ** The refresher *)

(** [rf_timer] is the variable of the closure; [rf_pending] are the timers the
    browser holds, with their deadlines; [rf_minting] counts the calls of [tick]
    that wait for their mint. *)
Record Refresher := mkRefresher {
  rf_disposed : bool;
  rf_timer : option nat;
  rf_pending : list (nat * Z);
  rf_next : nat;
  rf_minting : nat;
  rf_mints : nat;
  rf_urls : list (option json)
}.

Definition createMediaRefresher : Refresher := mkRefresher false None [] 1 0 0 [].

(** [tick] up to its first [await]. *)
Definition tick (s : Refresher) : Refresher :=
  if rf_disposed s then s
  else mkRefresher false (rf_timer s) (rf_pending s) (rf_next s) (S (rf_minting s)) (S (rf_mints s)) (rf_urls s).

(** The delay of [setTimeout] is a signed number of 32 bits; a negative one is taken as 0. *)
Definition timer_delay (delay : Z) : Z := Z.max 0 ((delay + 2 ^ 31) mod 2 ^ 32 - 2 ^ 31).

(** [timer = setTimeout(tick, delay)] at time [now]. *)
Definition schedule (now delay : Z) (s : Refresher) : Refresher :=
  mkRefresher (rf_disposed s) (Some (rf_next s)) (rf_pending s ++ [(rf_next s, now + timer_delay delay)])%list
    (S (rf_next s)) (rf_minting s) (rf_mints s) (rf_urls s).

(** The delay after a mint; an unreadable expiry makes it [NaN], which a timer takes as 0. *)
Definition refresh_delay (expires_at : option Z) (now : Z) : Z :=
  match expires_at with Some e => Z.max 30000 (e - now - 60000) | None => 0 end.

(** How a mint ends: a URL with its expiry, where [onRefresh] may throw, or a rejection. *)
Inductive MintOutcome :=
| Minted (url : option json) (expires_at : option Z) (refresh_throws : bool)
| MintFailed.

Definition leave_mint (s : Refresher) : Refresher :=
  mkRefresher (rf_disposed s) (rf_timer s) (rf_pending s) (rf_next s) (pred (rf_minting s))
    (rf_mints s) (rf_urls s).

Definition refreshed (u : option json) (s : Refresher) : Refresher :=
  mkRefresher (rf_disposed s) (rf_timer s) (rf_pending s) (rf_next s) (rf_minting s)
    (rf_mints s) (rf_urls s ++ [u])%list.

(** [tick] after its [await]. *)
Definition tick_resumes (now : Z) (o : MintOutcome) (s : Refresher) : Refresher :=
  if (rf_minting s =? 0)%nat then s
  else
    let s := leave_mint s in
    if rf_disposed s then s
    else
      match o with
      | Minted u e throws =>
          let s := refreshed u s in
          if throws then schedule now 10000 s else schedule now (refresh_delay e now) s
      | MintFailed => schedule now 10000 s
      end.

(** A timer of the browser fires. *)
Definition timer_fires (id : nat) (now : Z) (s : Refresher) : Refresher :=
  match find_where (λ e, (e.1 =? id)%nat && (e.2 <=? now)) (rf_pending s) with
  | Some e =>
      tick (mkRefresher (rf_disposed s) (rf_timer s)
              (filter_where (λ e, negb (e.1 =? id)%nat) (rf_pending s)) (rf_next s) (rf_minting s)
              (rf_mints s) (rf_urls s))
  | None => s
  end.

Definition dispose (s : Refresher) : Refresher :=
  match rf_timer s with
  | Some id => mkRefresher true None (filter_where (λ e, negb (e.1 =? id)%nat) (rf_pending s)) (rf_next s)
                 (rf_minting s) (rf_mints s) (rf_urls s)
  | None => mkRefresher true None (rf_pending s) (rf_next s) (rf_minting s) (rf_mints s) (rf_urls s)
  end.

Inductive RefresherEvent :=
| RStart
| RResume (now : Z) (o : MintOutcome)
| RFire (id : nat) (now : Z)
| RDispose.

Definition refresher_step (s : Refresher) (e : RefresherEvent) : Refresher :=
  match e with
  | RStart => tick s
  | RResume now o => tick_resumes now o s
  | RFire id now => timer_fires id now s
  | RDispose => dispose s
  end.

Definition refresher_run : list RefresherEvent → Refresher := foldl refresher_step createMediaRefresher.

(** ** Lemmas: the shapes *)

Definition all_chars (p : Ascii.ascii → bool) (s : string) : Prop :=
  Forall (λ c, p c = true) (String.list_ascii_of_string s).

Definition stops (p : Ascii.ascii → bool) (s : string) : Prop :=
  match s with String c _ => p c = false | EmptyString => True end.

Lemma span_app p a r : all_chars p a → stops p r → span p (a +:+ r) = (a, r).
Proof.
  unfold all_chars. induction a as [|c a IH]; simpl; intros Ha Hr.
  - destruct r as [|c r]; simpl in *; [done|by rewrite Hr].
  - apply Forall_cons in Ha as [Hc Ha]. change (a ++ r)%string with (a +:+ r).
    by rewrite Hc, IH.
Qed.

Lemma span_inv p s a r : span p s = (a, r) → s = a +:+ r ∧ all_chars p a ∧ stops p r.
Proof.
  unfold all_chars. revert a r. induction s as [|c s IH]; simpl; intros a r.
  - by intros [= <- <-].
  - destruct (p c) eqn:Hc.
    + destruct (span p s) as [a' r'] eqn:E. intros [= <- <-].
      destruct (IH a' r' eq_refl) as (-> & Ha & Hr). simpl. split_and!; [done|by constructor|done].
    + intros [= <- <-]. by split_and!.
Qed.

Lemma strip_str_app p s : strip_str p (p +:+ s) = Some s.
Proof. induction p as [|c p IH]; simpl; [done|]. by rewrite Ascii.eqb_refl. Qed.

Lemma strip_str_inv p s r : strip_str p s = Some r → s = p +:+ r.
Proof.
  revert s. induction p as [|c p IH]; intros [|a s]; simpl; try done; try (by intros [= <-]).
  destruct (Ascii.eqb_spec c a) as [->|]; [|done]. intros ->%IH. done.
Qed.

(** The two components and the fragment of a legacy URL. *)
Definition parts_ok (cam file : string) : Prop :=
  cam ≠ EmptyString ∧ all_chars no_slash cam ∧ file ≠ EmptyString ∧ all_chars name_char file.

Definition frag_ok (fr : string) : Prop :=
  fr = EmptyString ∨ ∃ t, fr = String hash t ∧ no_terminator (bytes_of t) = true.

Lemma match_legacy_complete dir frag cam file fr :
  parts_ok cam file → frag_ok fr → (frag = false → fr = EmptyString) →
  match_legacy dir frag (dir +:+ cam +:+ "/" +:+ file +:+ fr) = Some (cam, file, fr).
Proof.
  intros (Hc & Hcs & Hf & Hfs) Hfr Hfrag. unfold match_legacy. rewrite strip_str_app.
  change (cam +:+ "/" +:+ file +:+ fr) with (cam +:+ String slash (file +:+ fr)).
  rewrite span_app by done. destruct cam as [|c cam]; [done|].
  rewrite span_app; [|done|by destruct Hfr as [->|(t & -> & _)]].
  destruct file as [|d file]; [done|]. destruct Hfr as [->|(t & -> & Ht)]; [done|].
  destruct frag; [|by specialize (Hfrag eq_refl)]. by rewrite Ascii.eqb_refl, Ht.
Qed.

Lemma match_legacy_sound dir frag url cam file fr :
  match_legacy dir frag url = Some (cam, file, fr) →
  url = dir +:+ cam +:+ "/" +:+ file +:+ fr ∧ parts_ok cam file ∧ frag_ok fr ∧
  (frag = false → fr = EmptyString).
Proof.
  unfold match_legacy. destruct (strip_str dir url) as [rest|] eqn:Es; [|done].
  apply strip_str_inv in Es as ->. destruct (span no_slash rest) as [cam' r] eqn:Ec.
  apply span_inv in Ec as (-> & Hc & Hr). destruct cam' as [|c cam']; [done|]. destruct r as [|x r]; [done|].
  destruct (span name_char r) as [file' r'] eqn:Ef. apply span_inv in Ef as (-> & Hf & Hr').
  destruct file' as [|d file']; [done|]. simpl in Hr. unfold no_slash in Hr.
  apply negb_false_iff, Ascii.eqb_eq in Hr as ->.
  destruct r' as [|y t].
  - intros [= <- <- <-]. split_and!; [done| |by left|done]. by split_and!.
  - destruct frag; simpl; [|done]. destruct (Ascii.eqb_spec y hash) as [->|]; [|done].
    destruct (no_terminator _) eqn:Ht; [|done]. intros [= <- <- <-].
    split_and!; [done| |right; eauto|done]. by split_and!.
Qed.

(** The legacy shapes with the token each asks for. *)
Inductive Legacy : string → MintRequest → string → Prop :=
| legacy_snapshot cam file :
    parts_ok cam file →
    Legacy ("/snapshots/" +:+ cam +:+ "/" +:+ file) (mkMintRequest cam snapshot file None) EmptyString
| legacy_recording cam file fr :
    parts_ok cam file → frag_ok fr →
    Legacy ("/recordings/" +:+ cam +:+ "/" +:+ file +:+ fr) (mkMintRequest cam segment file None) fr
| legacy_hls cam file :
    parts_ok cam file →
    Legacy ("/hls/" +:+ cam +:+ "/" +:+ file) (mkMintRequest cam hls file None) EmptyString.

(** What the reply to a mint gives. *)
Definition mint_outcome (o : option Response) : option json :=
  match o with
  | Some res => if rs_ok res then match rs_json res with Some JNull => None | j => j end else None
  | None => None
  end.

Definition finish_url (num : Q → string) (req : MintRequest) (fr : string) (u : option json) : option json :=
  match mr_kind req with segment => Some (concat_text num u fr) | _ => u end.

Lemma app_empty_r s : s +:+ EmptyString = s.
Proof. induction s as [|c s IH]; [done|]. exact (f_equal (String c) IH). Qed.

Lemma resolve_legacy num raw req fr :
  Legacy raw req fr → resolveMediaURL num (Some raw) = resolve_with req (finish_url num req fr).
Proof.
  assert (He : frag_ok EmptyString) by by left.
  intros [cam file H|cam file fr' H Hfr|cam file H]; unfold resolveMediaURL; simpl.
  - pose proof (match_legacy_complete "/snapshots/" false cam file EmptyString H He (λ _, eq_refl)) as E.
    rewrite app_empty_r in E. simpl in E. by rewrite E.
  - pose proof (match_legacy_complete "/recordings/" true cam file fr' H Hfr ltac:(done)) as E.
    simpl in E. rewrite E. done.
  - pose proof (match_legacy_complete "/hls/" false cam file EmptyString H He (λ _, eq_refl)) as E.
    rewrite app_empty_r in E. simpl in E. by rewrite E.
Qed.

Lemma resolve_other num raw :
  (∀ req fr, ¬ Legacy raw req fr) → resolveMediaURL num (Some raw) = mret (Some (JStr raw)).
Proof.
  intros H. unfold resolveMediaURL. destruct raw as [|c raw]; [done|]. cbn [truthy_str String.eqb negb].
  destruct (String.prefix "/media/v1/" _); [done|].
  destruct (String.prefix "http://" _ || String.prefix "https://" _); [done|].
  destruct (match_legacy "/snapshots/" false _) as [[[cam file] fr]|] eqn:E1.
  { apply match_legacy_sound in E1 as (E & Hp & _ & Hfr). rewrite Hfr, app_empty_r in E by done.
    destruct (H (mkMintRequest cam snapshot file None) EmptyString). rewrite E. by constructor. }
  destruct (match_legacy "/recordings/" true _) as [[[cam file] fr]|] eqn:E2.
  { apply match_legacy_sound in E2 as (E & Hp & Hf & _).
    destruct (H (mkMintRequest cam segment file None) fr). rewrite E. by constructor. }
  destruct (match_legacy "/hls/" false _) as [[[cam file] fr]|] eqn:E3; [|done].
  apply match_legacy_sound in E3 as (E & Hp & _ & Hfr). rewrite Hfr, app_empty_r in E by done.
  destruct (H (mkMintRequest cam hls file None) EmptyString). rewrite E. by constructor.
Qed.

Definition mint_result (o : option Response) : Result json :=
  match o with
  | Some res =>
      if negb (rs_ok res) then Err (XError ("mint failed: " +:+ pretty (rs_status res)))
      else match rs_json res with Some j => Ok j | None => Err XBody end
  | None => Err XNetwork
  end.

Definition mint_request (token : string) (req : MintRequest) : Request :=
  auth_request "/api/media/mint" (mint_init req) token.

Section session.
Context (b : Browser) (token : string) (handler : list Effect → Request → option Response).
Hypothesis Hnet : br_net b = backend token handler.
Hypothesis Hdoc : br_document b = true.
Hypothesis Htok : truthy_str token = true.

Lemma mint_delivered req l :
  ∃ pre post,
    mintMediaToken req b l =
      ((l ++ pre ++ EFetch (mint_request token req) :: post)%list,
       mint_result (handler (l ++ pre)%list (mint_request token req))) ∧
    not_handled token (pre ++ post)%list ∧ handled token (EFetch (mint_request token req)) = true.
Proof using Hdoc Hnet Htok.
  destruct (delivered_then b token "/api/media/mint" handler Hnet Hdoc Htok ltac:(done) (mint_init req) l
    (λ res, if negb (rs_ok res) then throw (XError ("mint failed: " +:+ pretty (rs_status res)))
            else json_of res) mint_result) as (pre & post & E & H1 & H2 & _).
  - intros res b' l'. unfold mint_result, json_of, lift_body. destruct (rs_ok res); simpl; [|done].
    by destruct (rs_json res).
  - done.
  - by exists pre, post.
Qed.

Lemma resolve_delivered req finish l :
  ∃ pre post,
    resolve_with req finish b l =
      ((l ++ pre ++ EFetch (mint_request token req) :: post)%list,
       Ok (match mint_outcome (handler (l ++ pre)%list (mint_request token req)) with
           | Some data => finish (jget "url" data)
           | None => Some (JStr EmptyString)
           end)) ∧
    not_handled token (pre ++ post)%list ∧ handled token (EFetch (mint_request token req)) = true.
Proof using Hdoc Hnet Htok.
  destruct (mint_delivered req l) as (pre & post & E & H). exists pre, post. split; [|exact H].
  unfold resolve_with, try_catch, mbind, M_bind. rewrite E.
  unfold mint_result, mint_outcome, url_of. destruct (handler _ _) as [res|]; [|done].
  destruct (rs_ok res); simpl; [|done]. by destruct (rs_json res) as [[]|].
Qed.
End session.

(** ** Lemmas: the refresher *)

Definition is_start (e : RefresherEvent) : bool := match e with RStart => true | _ => false end.

Lemma timer_short d : 0 ≤ d < 2 ^ 31 → timer_delay d = d.
Proof. intros H. unfold timer_delay. rewrite Z.mod_small; lia. Qed.

Lemma timer_overflow d : 2 ^ 31 ≤ d < 2 ^ 32 → timer_delay d = 0.
Proof. intros H. unfold timer_delay. replace (d + 2 ^ 31) with (d - 2 ^ 31 + 1 * 2 ^ 32) by lia. rewrite Z.mod_add, Z.mod_small; lia. Qed.

(** The loops: each started [tick] waits for a mint or for a timer. *)
Definition loops (s : Refresher) : nat := (rf_minting s + length (rf_pending s))%nat.

(** The ids of the pending timers are distinct and old. *)
Definition ids_ok (s : Refresher) : Prop :=
  NoDup (rf_pending s).*1 ∧ Forall (λ i, (i < rf_next s)%nat) (rf_pending s).*1.

Lemma ids_filter p l n :
  NoDup l.*1 → Forall (λ i, (i < n)%nat) l.*1 →
  NoDup (filter_where p l : list (nat * Z)).*1 ∧ Forall (λ i, (i < n)%nat) (filter_where p l).*1.
Proof.
  intros Hn Hf. assert (Hs : (filter_where p l).*1 `sublist_of` l.*1).
  { apply fmap_sublist, sublist_filter. }
  split; [by eapply sublist_NoDup|]. apply Forall_forall. intros x (e & -> & He)%list_elem_of_fmap.
  apply elem_of_filter_where in He as [_ He]. rewrite Forall_forall in Hf. apply Hf, list_elem_of_fmap. eauto.
Qed.

Lemma remove_one (i : nat) (d : Z) l :
  NoDup l.*1 → (i, d) ∈ l →
  (length l = S (length (filter_where (λ e : nat * Z, negb (e.1 =? i)%nat) l)))%nat.
Proof.
  induction l as [|[j e] l IH]; intros Hn Hin; [by apply elem_of_nil in Hin|].
  rewrite fmap_cons in Hn. apply NoDup_cons in Hn as [Hj Hn]. unfold filter_where in *.
  rewrite filter_cons. simpl.
  apply elem_of_cons in Hin as [[= <- <-]|Hin].
  - rewrite Nat.eqb_refl. simpl. do 2 f_equal.
    symmetry. apply (filter_where_id (λ e, negb (e.1 =? i)%nat)). intros [k f] Hk. simpl.
    destruct (Nat.eqb_spec k i) as [->|]; [|done]. destruct Hj. apply list_elem_of_fmap. by exists (i, f).
  - destruct (Nat.eqb_spec j i) as [->|Hne]; simpl.
    + destruct Hj. apply list_elem_of_fmap. by exists (i, d).
    + by rewrite (IH Hn Hin).
Qed.

Lemma tick_alive s : rf_disposed s = false → loops (tick s) = S (loops s).
Proof. unfold tick, loops. intros ->. done. Qed.

Lemma loops_schedule now d s : loops (schedule now d s) = S (loops s).
Proof. unfold loops, schedule. simpl. rewrite length_app. simpl. lia. Qed.

Lemma loops_leave s : rf_minting s ≠ 0%nat → loops s = S (loops (leave_mint s)).
Proof. unfold loops, leave_mint. simpl. lia. Qed.

Lemma ids_schedule now d s : ids_ok s → ids_ok (schedule now d s).
Proof.
  intros [Hn Hf]. unfold ids_ok, schedule. simpl. rewrite fmap_app. simpl. split.
  - apply NoDup_app. split_and!; [done| |by apply NoDup_singleton].
    intros x Hx Hx'. apply list_elem_of_singleton in Hx'. rewrite Forall_forall in Hf.
    apply Hf in Hx. lia.
  - apply Forall_app. split; [|by repeat constructor]. eapply Forall_impl; [exact Hf|]. simpl. lia.
Qed.

Lemma ids_step s e : ids_ok s → ids_ok (refresher_step s e).
Proof.
  intros H. destruct e as [|now o|id now|]; simpl.
  - unfold tick. by destruct (rf_disposed s).
  - unfold tick_resumes. destruct (rf_minting s =? 0)%nat; [done|].
    assert (Hl : ids_ok (leave_mint s)) by done.
    destruct (rf_disposed (leave_mint s)); [done|]. destruct o as [u e throws|]; [|by apply ids_schedule].
    destruct throws; by apply ids_schedule.
  - unfold timer_fires. destruct (find_where _ _); [|done]. destruct H as [Hn Hf].
    pose proof (ids_filter (λ e, negb (e.1 =? id)%nat) (rf_pending s) (rf_next s) Hn Hf).
    unfold tick. by destruct (rf_disposed _).
  - unfold dispose. destruct (rf_timer s); [|done]. destruct H as [Hn Hf]. by apply ids_filter.
Qed.

(** While the refresher lives, every started loop is in exactly one place. *)
Lemma loops_step s e :
  ids_ok s → rf_disposed (refresher_step s e) = false →
  loops (refresher_step s e) = (if is_start e then S (loops s) else loops s)%nat.
Proof.
  intros Hids. destruct e as [|now o|id now|]; simpl.
  - unfold tick. destruct (rf_disposed s) eqn:E; [by rewrite E|]. done.
  - unfold tick_resumes. destruct (Nat.eqb_spec (rf_minting s) 0) as [|Hm]; [done|].
    destruct (rf_disposed (leave_mint s)) eqn:E; [by rewrite E|].
    rewrite (loops_leave s Hm). destruct o as [u e throws|]; [|by rewrite loops_schedule].
    by destruct throws; rewrite loops_schedule.
  - unfold timer_fires. destruct (find_where _ _) as [[i d]|] eqn:E; [|done].
    apply find_where_Some in E as [Hp Hin]. simpl in Hp. apply andb_true_iff in Hp as [Hi _].
    apply Nat.eqb_eq in Hi as ->. intros Hd. unfold tick in *. simpl in *.
    destruct (rf_disposed s); simpl in *; [congruence|]. unfold loops. simpl.
    destruct Hids as [Hn _]. rewrite (remove_one id d (rf_pending s) Hn Hin). lia.
  - unfold dispose. by destruct (rf_timer s).
Qed.

Lemma disposed_step s e :
  rf_disposed s = true →
  rf_disposed (refresher_step s e) = true ∧ rf_mints (refresher_step s e) = rf_mints s ∧
  rf_urls (refresher_step s e) = rf_urls s ∧ (loops (refresher_step s e) ≤ loops s)%nat.
Proof.
  intros H. destruct e as [|now o|id now|]; simpl.
  - unfold tick. rewrite H. split_and!; done || lia.
  - unfold tick_resumes. destruct (Nat.eqb_spec (rf_minting s) 0) as [|Hm]; [split_and!; done || lia|].
    change (rf_disposed (leave_mint s)) with (rf_disposed s). rewrite H.
    rewrite (loops_leave s Hm). split_and!; done || lia.
  - unfold timer_fires. destruct (find_where _ _); [|split_and!; done || lia].
    unfold tick. simpl. rewrite H. split_and!; try done. unfold loops. simpl.
    pose proof (length_filter_where (λ e : nat * Z, negb (e.1 =? id)%nat) (rf_pending s)). lia.
  - unfold dispose. destruct (rf_timer s) as [id|]; split_and!; try done; unfold loops; simpl.
    pose proof (length_filter_where (λ e : nat * Z, negb (e.1 =? id)%nat) (rf_pending s)). lia.
Qed.

(** With at most one loop, the only pending timer is the one the variable holds. *)
Definition timer_held (s : Refresher) : Prop :=
  ∀ e, e ∈ rf_pending s → rf_disposed s = false ∧ rf_timer s = Some e.1.

Lemma timer_held_tick s : timer_held s → timer_held (tick s).
Proof.
  unfold timer_held. intros H x Hx.
  assert (Hp : x ∈ rf_pending s) by (unfold tick in Hx; by destruct (rf_disposed s)).
  destruct (H x Hp) as [H1 H2]. unfold tick. by rewrite H1.
Qed.

Lemma timer_held_schedule now d s :
  rf_pending s = [] → rf_disposed s = false → timer_held (schedule now d s).
Proof.
  unfold timer_held. simpl. intros -> Hd x Hx. by apply list_elem_of_singleton in Hx as ->.
Qed.

Lemma timer_held_step s e : (loops s ≤ 1)%nat → timer_held s → timer_held (refresher_step s e).
Proof.
  intros Hl H. destruct e as [|now o|id now|]; simpl.
  - by apply timer_held_tick.
  - unfold tick_resumes. destruct (Nat.eqb_spec (rf_minting s) 0) as [|Hm]; [done|].
    destruct (rf_disposed (leave_mint s)) eqn:E; [exact H|].
    assert (Hp : rf_pending (leave_mint s) = [])
      by (unfold loops in Hl; simpl; destruct (rf_pending s); simpl in *; [done|lia]).
    destruct o as [u ex throws|]; [destruct throws|]; by apply timer_held_schedule.
  - unfold timer_fires. destruct (find_where _ _); [|done]. apply timer_held_tick.
    intros x [_ Hx]%elem_of_filter_where. by apply H.
  - unfold dispose. destruct (rf_timer s) as [id|] eqn:Et.
    + intros x [Hn Hx]%elem_of_filter_where. destruct (H x Hx) as [_ Hid].
      rewrite Et in Hid. injection Hid as ->. by rewrite Nat.eqb_refl in Hn.
    + intros x Hx. destruct (H x Hx) as [_ Hid]. congruence.
Qed.

(** Disposing of the only loop leaves no timer. *)
Lemma dispose_pending s : (loops s ≤ 1)%nat → timer_held s → rf_pending (dispose s) = [].
Proof.
  intros Hl H. pose proof (timer_held_step s RDispose Hl H) as Hd. simpl in Hd.
  destruct (rf_pending (dispose s)) as [|x r] eqn:E; [done|].
  destruct (Hd x) as [Hf _]; [rewrite E; by left|]. unfold dispose in Hf. by destruct (rf_timer s).
Qed.

Definition starts (es : list RefresherEvent) : nat := length (filter_where is_start es).

Lemma starts_snoc es e : starts (es ++ [e])%list = (if is_start e then S (starts es) else starts es).
Proof.
  unfold starts, filter_where. rewrite filter_app, length_app, filter_cons, filter_nil.
  destruct (decide _) as [H|H]; destruct (is_start e); simpl in *; try done; lia.
Qed.

Lemma refresher_inv es :
  ids_ok (refresher_run es) ∧ (loops (refresher_run es) ≤ starts es)%nat ∧
  (rf_disposed (refresher_run es) = false → loops (refresher_run es) = starts es) ∧
  ((starts es ≤ 1)%nat → timer_held (refresher_run es)).
Proof.
  unfold refresher_run. induction es as [|e es IH] using rev_ind.
  - split_and!; simpl; try lia; try done; [split; constructor|].
    intros _ x Hx. by apply elem_of_nil in Hx.
  - rewrite foldl_app, starts_snoc. simpl. destruct IH as (Hi & Hle & Heq & Ht).
    set (s := foldl _ _ es) in *. split; [by apply ids_step|].
    assert (Hd : rf_disposed (refresher_step s e) = false → rf_disposed s = false).
    { destruct (rf_disposed s) eqn:E; [|done]. by destruct (disposed_step s e E) as [-> _]. }
    assert (Hs : rf_disposed (refresher_step s e) = false →
      loops (refresher_step s e) = (if is_start e then S (starts es) else starts es)).
    { intros Hf. rewrite loops_step by done. by rewrite (Heq (Hd Hf)). }
    split; [|split; [exact Hs|]].
    + destruct (rf_disposed (refresher_step s e)) eqn:E; [|by rewrite Hs].
      destruct (rf_disposed s) eqn:Es.
      * destruct (disposed_step s e Es) as (_ & _ & _ & Hl). destruct (is_start e); lia.
      * destruct e as [|now o|id now|]; simpl in *; [| | |].
        -- unfold tick in E. by rewrite Es in E.
        -- unfold tick_resumes in E. destruct (rf_minting s =? 0)%nat; [congruence|].
           change (rf_disposed (leave_mint s)) with (rf_disposed s) in E. rewrite Es in E.
           destruct o as [u ex []|]; simpl in E; congruence.
        -- unfold timer_fires in E. destruct (find_where _ _); [|congruence].
           unfold tick in E. simpl in E. rewrite Es in E. by simpl in E.
        -- unfold dispose, loops in *. destruct (rf_timer s) as [id|]; simpl; [|lia].
           pose proof (length_filter_where (λ e : nat * Z, negb (e.1 =? id)%nat) (rf_pending s)). lia.
    + intros Hc. apply timer_held_step; [|apply Ht]; destruct (is_start e); lia.
Qed.

Lemma disposed_final es s :
  rf_disposed s = true →
  rf_mints (foldl refresher_step s es) = rf_mints s ∧ rf_urls (foldl refresher_step s es) = rf_urls s.
Proof.
  revert s. induction es as [|e es IH]; intros s H; [done|]. simpl.
  destruct (disposed_step s e H) as (H1 & H2 & H3 & _). destruct (IH _ H1) as [-> ->]. done.
Qed.

(** ** Properties *)

(** In a session, a legacy snapshot, recording or live URL makes exactly one
    delivered mint request, for the camera, kind and file of the path, and
    resolves to the signed URL of the reply, with the fragment of a recording kept;
    if the mint fails in any way it resolves to the empty string.  Every other URL,
    signed or absolute ones included, resolves to itself without any effect. *)
Theorem legacy_media_signed num b token handler l raw :
  br_net b = backend token handler → br_document b = true → truthy_str token = true →
  (∀ req fr, Legacy raw req fr →
     ∃ pre post,
       resolveMediaURL num (Some raw) b l =
         ((l ++ pre ++ EFetch (mint_request token req) :: post)%list,
          Ok (match mint_outcome (handler (l ++ pre)%list (mint_request token req)) with
              | Some data => finish_url num req fr (jget "url" data)
              | None => Some (JStr EmptyString)
              end)) ∧
       not_handled token (pre ++ post)%list ∧ handled token (EFetch (mint_request token req)) = true) ∧
  ((∀ req fr, ¬ Legacy raw req fr) → resolveMediaURL num (Some raw) b l = (l, Ok (Some (JStr raw)))).
Proof.
  intros Hnet Hdoc Htok. split.
  - intros req fr HL. rewrite (resolve_legacy num raw req fr HL). by apply resolve_delivered.
  - intros Hn. by rewrite resolve_other.
Qed.

Lemma legacy_media_signed_witness :
  let handler := λ (_ : list Effect) (_ : Request),
    Some (mkResponse 200 "OK" None (Some (JObj [("url", JStr "/media/v1/abc")])) None) in
  ∃ l, resolveMediaURL (λ _, EmptyString) (Some "/recordings/cam-1/seg.mp4#t=12")
         (session_browser "tok" (λ _, EmptyString) handler) [] = (l, Ok (Some (JStr "/media/v1/abc#t=12"))).
Proof.
  intros handler.
  destruct (legacy_media_signed (λ _, EmptyString) (session_browser "tok" (λ _, EmptyString) handler)
    "tok" handler [] "/recordings/cam-1/seg.mp4#t=12" eq_refl eq_refl eq_refl) as [H _].
  destruct (H (mkMintRequest "cam-1" segment "seg.mp4" None) "#t=12") as (pre & post & E & _).
  - apply (legacy_recording "cam-1" "seg.mp4" "#t=12").
    + split_and!; [discriminate|by repeat constructor|discriminate|by repeat constructor].
    + right. by exists "t=12".
  - eexists. exact E.
Defined.

(** C15. The refresher never dies and never doubles: after one [start()] exactly
    one mint or one timer is pending until it is disposed, through any sequence of
    answers, failures and expired timers.  [dispose()] clears that timer, and from
    then on nothing is minted and no URL is handed out, whatever was in flight.
    After a mint the next one runs a minute before the token expires, and exactly thirty
    seconds later when the token expires within a minute and a half; an expiry more
    than 2^31 ms and a minute ahead overflows the timer, and an unreadable one makes it run
    at once.  After a failure the next mint runs ten seconds later. *)
Theorem refresher_one_loop es :
  let s := refresher_run es in
  (rf_disposed s = false → loops s = starts es) ∧
  ((starts es ≤ 1)%nat → (loops s ≤ 1)%nat ∧ rf_pending (dispose s) = []) ∧
  (∀ es', rf_mints (foldl refresher_step (dispose s) es') = rf_mints s ∧
          rf_urls (foldl refresher_step (dispose s) es') = rf_urls s) ∧
  (∀ now o, rf_disposed s = false → rf_minting s ≠ 0%nat →
     ∃ delay, rf_pending (refresher_step s (RResume now o)) = (rf_pending s ++ [(rf_next s, now + delay)])%list ∧
       match o with
       | Minted u (Some e) false =>
           (e < now + 90000 → delay = 30000) ∧ (now + 90000 ≤ e < now + 60000 + 2 ^ 31 → now + delay = e - 60000) ∧
           (now + 60000 + 2 ^ 31 ≤ e < now + 60000 + 2 ^ 32 → delay = 0)
       | Minted u None false => delay = 0
       | _ => delay = 10000
       end).
Proof.
  intros s. destruct (refresher_inv es) as (Hi & Hle & Heq & Ht). fold s in Hi, Hle, Heq, Ht.
  split; [exact Heq|]. split; [|split].
  - intros H1. split; [lia|]. apply dispose_pending; [lia|by apply Ht].
  - intros es'. assert (Hd : rf_disposed (dispose s) = true) by (unfold dispose; by destruct (rf_timer s)).
    destruct (disposed_final es' (dispose s) Hd) as [-> ->]. unfold dispose. by destruct (rf_timer s).
  - intros now o Hd Hm. simpl. unfold tick_resumes. destruct (Nat.eqb_spec (rf_minting s) 0); [done|].
    change (rf_disposed (leave_mint s)) with (rf_disposed s). rewrite Hd.
    destruct o as [u [e|] []|]; (eexists; split; [reflexivity|]); try done.
    unfold refresh_delay. split_and!; intros He; [rewrite timer_short; lia|rewrite timer_short; lia|].
    rewrite Z.max_r by lia. apply timer_overflow. lia.
Qed.
