(* ===== verification/ZoneEditor.v ===== *)
(** * The detection-zone editor

    The geometry of [lib/vca-zones.ts], the canvas interaction of
    [hooks/useVCACanvas.ts] and the state of [components/VCAZoneEditor.tsx] that
    it drives.  Coordinates are exact rationals where the code has doubles. *)

From S2P Require Import Prelude Types.
From stdpp Require Import pretty.
From Stdlib Require Import QArith Qfield Lqa.
#[local] Open Scope string_scope.
#[local] Open Scope Z_scope.

(** ** Catalogs ([lib/vca-zones.ts]) *)

Record RuleTypeDescriptor := mkRuleType {
  rt_key : string;
  rt_label : string;
  rt_color : string;
  rt_fill : string;
  rt_minPoints : nat;
  rt_icon : option string
}.

Definition PPE_ZONE_TYPES : list RuleTypeDescriptor :=
  [mkRuleType "work_area" "Work Area" "#F59E0B" "rgba(245,158,11,0.15)" 3 None;
   mkRuleType "no_go" "No-Go Area" "#EF4444" "rgba(239,68,68,0.18)" 3 None;
   mkRuleType "ppe_required" "PPE Required" "#22C55E" "rgba(34,197,94,0.15)" 3 None;
   mkRuleType "ppe_optional" "PPE Optional" "#6366F1" "rgba(99,102,241,0.12)" 3 None].

Definition RULE_TYPES : list RuleTypeDescriptor :=
  [mkRuleType "intrusion" "Intrusion Zone" "#EF4444" "rgba(239,68,68,0.18)" 3 (Some "🚧");
   mkRuleType "linecross" "Line Crossing" "#3B82F6" "rgba(59,130,246,0.18)" 2 (Some "➡️");
   mkRuleType "regionentrance" "Region Entrance" "#22C55E" "rgba(34,197,94,0.18)" 3 (Some "🚪");
   mkRuleType "loitering" "Loitering Zone" "#EAB308" "rgba(234,179,8,0.18)" 3 (Some "⏱️")].

(** [types.find(t => t.key === type) || types[0]] *)
Definition config_in (types : list RuleTypeDescriptor) (d : RuleTypeDescriptor) (type : string) :
  RuleTypeDescriptor :=
  default (default d (head types)) (find_where (λ t, String.eqb (rt_key t) type) types).

Definition ruleConfig (type : string) : RuleTypeDescriptor :=
  config_in RULE_TYPES (mkRuleType EmptyString EmptyString EmptyString EmptyString 0 None) type.

Definition ppeZoneConfig (type : string) : RuleTypeDescriptor :=
  config_in PPE_ZONE_TYPES (mkRuleType EmptyString EmptyString EmptyString EmptyString 0 None) type.

(** ** Point in polygon *)

Record CanvasPoint := mkPoint { pt_x : Q; pt_y : Q }.

Definition Qltb (a b : Q) : bool := negb (Qle_bool b a).

(** One edge of the loop: from [pj] to [pi]. *)
Definition intersect (x y : Q) (pi pj : CanvasPoint) : bool :=
  xorb (Qltb y (pt_y pi)) (Qltb y (pt_y pj)) &&
  Qltb x ((pt_x pj - pt_x pi) * (y - pt_y pi) / (pt_y pj - pt_y pi) + pt_x pi)%Q.

(** The loop; [pj] is the vertex of the previous index. *)
Fixpoint pip_loop (x y : Q) (pj : CanvasPoint) (polygon : list CanvasPoint) (inside : bool) : bool :=
  match polygon with
  | [] => inside
  | pi :: r => pip_loop x y pi r (if intersect x y pi pj then negb inside else inside)
  end.

Definition pointInPolygon (x y : Q) (polygon : list CanvasPoint) : bool :=
  match last polygon with
  | Some pj => pip_loop x y pj polygon false
  | None => false
  end.

(** ** Zones and the canvas *)

Record VCARule := mkRule {
  vr_id : string;
  vr_camera_id : string;
  vr_rule_type : string;
  vr_name : string;
  vr_enabled : bool;
  vr_sensitivity : Z;
  vr_region : list CanvasPoint;
  vr_direction : string;
  vr_threshold_sec : Z;
  vr_schedule : string;
  vr_actions : list string;
  vr_synced : bool;
  vr_sync_error : string;
  vr_created_at : string;
  vr_updated_at : string
}.

Record VCARuleCreate := mkCreate {
  vc_rule_type : string;
  vc_name : string;
  vc_enabled : bool;
  vc_sensitivity : Z;
  vc_region : list CanvasPoint;
  vc_direction : string;
  vc_threshold_sec : Z;
  vc_schedule : string;
  vc_actions : list string
}.

Definition set_region (reg : list CanvasPoint) (r : VCARule) : VCARule :=
  mkRule (vr_id r) (vr_camera_id r) (vr_rule_type r) (vr_name r) (vr_enabled r) (vr_sensitivity r) reg
    (vr_direction r) (vr_threshold_sec r) (vr_schedule r) (vr_actions r) (vr_synced r) (vr_sync_error r)
    (vr_created_at r) (vr_updated_at r).

Definition ruleToCreate (r : VCARule) : VCARuleCreate :=
  mkCreate (vr_rule_type r) (vr_name r) (vr_enabled r) (vr_sensitivity r) (vr_region r)
    (vr_direction r) (vr_threshold_sec r) (vr_schedule r) (vr_actions r).

Definition set_enabled (e : bool) (c : VCARuleCreate) : VCARuleCreate :=
  mkCreate (vc_rule_type c) (vc_name c) e (vc_sensitivity c) (vc_region c) (vc_direction c)
    (vc_threshold_sec c) (vc_schedule c) (vc_actions c).

Inductive DrawMode := idle | drawing.

(** The canvas: its box on the page and its size in pixels. *)
Record Canvas := mkCanvas {
  cv_left : Q; cv_top : Q; cv_rect_width : Q; cv_rect_height : Q;
  cv_width : Q; cv_height : Q
}.

(** [Math.min] and [Math.max] as the code composes them. *)
Definition Qmin2 (a b : Q) : Q := if Qle_bool a b then a else b.
Definition Qmax2 (a b : Q) : Q := if Qle_bool a b then b else a.
Definition clamp01 (q : Q) : Q := Qmax2 0 (Qmin2 1 q).

Definition toNormalized (canvas : option Canvas) (clientX clientY : Q) : CanvasPoint :=
  match canvas with
  | None => mkPoint 0 0
  | Some c => mkPoint (clamp01 ((clientX - cv_left c) / cv_rect_width c))
                      (clamp01 ((clientY - cv_top c) / cv_rect_height c))
  end.

(** The square of the distance; [Math.sqrt(d) < r] is [d < r * r]. *)
Definition dist2 (a b : CanvasPoint) : Q :=
  ((pt_x a - pt_x b) * (pt_x a - pt_x b) + (pt_y a - pt_y b) * (pt_y a - pt_y b))%Q.

Definition near (r : Q) (a b : CanvasPoint) : bool := Qltb (dist2 a b) (r * r).

(** ** The editor *)

(** [ed_dragging] is the ref of the hook and [ed_isDragging] its state; the
    creations whose reply has not arrived are counted. *)
Record Editor := mkEditor {
  ed_rules : list VCARule;
  ed_selected : option string;
  ed_mode : DrawMode;
  ed_type : string;
  ed_points : list CanvasPoint;
  ed_name : string;
  ed_syncResult : option string;
  ed_dragging : option (string * nat);
  ed_isDragging : bool;
  ed_creating : nat
}.

Definition initial_editor : Editor := mkEditor [] None idle "intrusion" [] EmptyString None None false 0.

Inductive EditorCall :=
| CreateRule (c : VCARuleCreate)
| UpdateRule (id : string) (c : VCARuleCreate)
| DeleteRule (id : string)
| ListRules.

Definition upd_rules (r : list VCARule) (s : Editor) : Editor :=
  mkEditor r (ed_selected s) (ed_mode s) (ed_type s) (ed_points s) (ed_name s) (ed_syncResult s)
    (ed_dragging s) (ed_isDragging s) (ed_creating s).
Definition upd_selected (v : option string) (s : Editor) : Editor :=
  mkEditor (ed_rules s) v (ed_mode s) (ed_type s) (ed_points s) (ed_name s) (ed_syncResult s)
    (ed_dragging s) (ed_isDragging s) (ed_creating s).
Definition upd_draw (m : DrawMode) (t : string) (p : list CanvasPoint) (n : string) (s : Editor) : Editor :=
  mkEditor (ed_rules s) (ed_selected s) m t p n (ed_syncResult s) (ed_dragging s) (ed_isDragging s)
    (ed_creating s).
Definition upd_points (p : list CanvasPoint) (s : Editor) : Editor :=
  upd_draw (ed_mode s) (ed_type s) p (ed_name s) s.
Definition upd_sync (v : option string) (s : Editor) : Editor :=
  mkEditor (ed_rules s) (ed_selected s) (ed_mode s) (ed_type s) (ed_points s) (ed_name s) v
    (ed_dragging s) (ed_isDragging s) (ed_creating s).
Definition upd_drag (d : option (string * nat)) (s : Editor) : Editor :=
  mkEditor (ed_rules s) (ed_selected s) (ed_mode s) (ed_type s) (ed_points s) (ed_name s) (ed_syncResult s)
    d (bool_decide (is_Some d)) (ed_creating s).
Definition upd_creating (n : nat) (s : Editor) : Editor :=
  mkEditor (ed_rules s) (ed_selected s) (ed_mode s) (ed_type s) (ed_points s) (ed_name s) (ed_syncResult s)
    (ed_dragging s) (ed_isDragging s) n.

Definition SYNC_TEXT : string :=
  "✓ Zone saved. Configure matching zones on the camera via its web UI for on-device detection.".

Definition autoSync (s : Editor) : Editor := upd_sync (Some SYNC_TEXT) s.

(** [setDrawMode('idle'); setDrawPoints([]); setDrawName('')] *)
Definition reset_drawing (s : Editor) : Editor := upd_draw idle (ed_type s) [] EmptyString s.

(** The rule [finishDrawing] asks the API to create. *)
Definition new_rule (pts : list CanvasPoint) (s : Editor) : VCARuleCreate :=
  let cfg := ruleConfig (ed_type s) in
  let n := length (filter_where (λ r, String.eqb (vr_rule_type r) (ed_type s)) (ed_rules s)) in
  mkCreate (ed_type s)
    (if truthy_str (ed_name s) then ed_name s else rt_label cfg +:+ " " +:+ pretty (Z.of_nat (n + 1)))
    true 50 pts "both" (if String.eqb (ed_type s) "loitering" then 10 else 0) "always" ["record"; "notify"].

(** [finishDrawing] up to its first [await]. *)
Definition finishDrawing (pts : list CanvasPoint) (s : Editor) : Editor * list EditorCall :=
  if (length pts <? rt_minPoints (ruleConfig (ed_type s)))%nat then (s, [])
  else (upd_creating (S (ed_creating s)) s, [CreateRule (new_rule pts s)]).

(** The continuation of [finishDrawing]: the creation and the reload succeed with
    the reloaded rules, or one of them rejects with a message. *)
Definition creation_settles (o : string + list VCARule) (s : Editor) : Editor * list EditorCall :=
  if (ed_creating s =? 0)%nat then (s, [])
  else
    let s := upd_creating (pred (ed_creating s)) s in
    match o with
    | inl msg => (reset_drawing (upd_sync (Some ("Failed to save rule: " +:+ msg)) s), [])
    | inr rules => (reset_drawing (autoSync (upd_rules rules s)), [ListRules])
    end.

(** *** The mouse handlers of the hook, with the callbacks of the editor *)

Section canvas.
Context (canvas : option Canvas).

(** The idle click: the zones are tried from the last to the first. *)
Definition hit_test (c : Canvas) (pt : CanvasPoint) (zones : list VCARule) : option VCARule :=
  find_where (λ z, pointInPolygon (pt_x pt * cv_width c) (pt_y pt * cv_height c)
    ((λ p, mkPoint (pt_x p * cv_width c) (pt_y p * cv_height c)) <$> vr_region z)) (reverse zones).

Definition onClick (clientX clientY : Q) (s : Editor) : Editor * list EditorCall :=
  match ed_dragging s with
  | Some _ => (s, [])
  | None =>
      let pt := toNormalized canvas clientX clientY in
      match ed_mode s with
      | drawing =>
          let cfg := ruleConfig (ed_type s) in
          let isLineCross := String.eqb (ed_type s) "linecross" in
          let closes := (3 <=? length (ed_points s))%nat && negb isLineCross &&
            match ed_points s with first :: _ => near (3 # 100) pt first | [] => false end in
          if closes then finishDrawing (ed_points s) s
          else
            let newPoints := (ed_points s ++ [pt])%list in
            if isLineCross && (rt_minPoints cfg <=? length newPoints)%nat then finishDrawing newPoints s
            else (upd_points newPoints s, [])
      | idle =>
          match canvas with
          | None => (s, [])
          | Some c => (upd_selected (vr_id <$> hit_test c pt (ed_rules s)) s, [])
          end
      end
  end.

(** The first vertex of the zone within reach of the pointer. *)
Definition grab (pt : CanvasPoint) (zone : VCARule) : option nat :=
  find_index (λ v, near (25 # 1000) pt v) (vr_region zone).

Definition onMouseDown (clientX clientY : Q) (s : Editor) : Editor :=
  match ed_mode s, ed_selected s with
  | idle, Some sel =>
      if negb (truthy_str sel) then s
      else
        let pt := toNormalized canvas clientX clientY in
        match find_where (λ z, String.eqb (vr_id z) sel) (ed_rules s) with
        | None => s
        | Some zone =>
            match grab pt zone with
            | Some i => upd_drag (Some (vr_id zone, i)) s
            | None => s
            end
        end
  | _, _ => s
  end.

(** [onVertexMove]: an assignment past the end of an array extends it; the grabbed
    index is one of the zone's own. *)
Definition onVertexMove (zoneId : string) (ptIdx : nat) (pt : CanvasPoint) (s : Editor) : Editor :=
  upd_rules (map_where (λ r, String.eqb (vr_id r) zoneId)
    (λ r, set_region (<[ptIdx := pt]> (vr_region r)) r) (ed_rules s)) s.

Definition onMouseMove (clientX clientY : Q) (s : Editor) : Editor :=
  match ed_dragging s with
  | Some (id, i) => onVertexMove id i (toNormalized canvas clientX clientY) s
  | None => s
  end.

Definition onVertexDragEnd (zoneId : string) (s : Editor) : list EditorCall :=
  match find_where (λ r, String.eqb (vr_id r) zoneId) (ed_rules s) with
  | Some rule => [UpdateRule (vr_id rule) (ruleToCreate rule)]
  | None => []
  end.

Definition onMouseUp (s : Editor) : Editor * list EditorCall :=
  match ed_dragging s with
  | Some (id, _) => (upd_drag None s, onVertexDragEnd id s)
  | None => (s, [])
  end.

Definition onDoubleClick (s : Editor) : Editor * list EditorCall :=
  match ed_mode s with
  | drawing =>
      if (3 <=? length (ed_points s))%nat && negb (String.eqb (ed_type s) "linecross")
      then finishDrawing (ed_points s) s else (s, [])
  | idle => (s, [])
  end.

(** *** The buttons *)

Definition pickType (type : string) (s : Editor) : Editor :=
  upd_selected None (upd_draw drawing type [] (ed_name s) s).

Definition canSave (s : Editor) : bool :=
  if String.eqb (ed_type s) "linecross" then (2 <=? length (ed_points s))%nat
  else (3 <=? length (ed_points s))%nat.

Definition saveZone (s : Editor) : Editor * list EditorCall :=
  match ed_mode s with
  | drawing => if canSave s then finishDrawing (ed_points s) s else (s, [])
  | idle => (s, [])
  end.

Definition undoPoint (s : Editor) : Editor := upd_points (take (length (ed_points s) - 1) (ed_points s)) s.

Definition toggleRow (id : string) (s : Editor) : Editor :=
  upd_selected (if bool_decide (ed_selected s = Some id) then None else Some id) s.

Definition handleToggle (rule : VCARule) (s : Editor) : list EditorCall :=
  [UpdateRule (vr_id rule) (set_enabled (negb (vr_enabled rule)) (ruleToCreate rule))].

Definition handleDelete (id : string) (s : Editor) : list EditorCall := [DeleteRule id].

(** The user's events, and the replies of the API: to a creation with its reload,
    to the saves of a drag, of a toggle and of a deletion, to their reload, and to
    the first load. *)
Inductive EditorEvent :=
| MClick (x y : Q)
| MDown (x y : Q)
| MMove (x y : Q)
| MUp
| MDouble
| Pick (i : nat)
| SetName (n : string)
| Save
| Cancel
| Undo
| Row (id : string)
| Toggle (id : string)
| Delete (id : string)
| Created (o : string + list VCARule)
| DragSaved
| Toggled
| Deleted
| Reloaded (rules : list VCARule)
| Loaded (rules : list VCARule).

Definition editor_step (s : Editor) (e : EditorEvent) : Editor * list EditorCall :=
  match e with
  | MClick x y => onClick x y s
  | MDown x y => (onMouseDown x y s, [])
  | MMove x y => (onMouseMove x y s, [])
  | MUp => onMouseUp s
  | MDouble => onDoubleClick s
  | Pick i => match RULE_TYPES !! i with Some t => (pickType (rt_key t) s, []) | None => (s, []) end
  | SetName n => (upd_draw (ed_mode s) (ed_type s) (ed_points s) n s, [])
  | Save => saveZone s
  | Cancel => (reset_drawing s, [])
  | Undo => (undoPoint s, [])
  | Row id => (toggleRow id s, [])
  | Toggle id =>
      match find_where (λ r, String.eqb (vr_id r) id) (ed_rules s) with
      | Some rule => (s, handleToggle rule s) | None => (s, []) end
  | Delete id => (s, handleDelete id s)
  | Created o => creation_settles o s
  | DragSaved => (autoSync s, [])
  | Toggled => (s, [ListRules])
  | Deleted => (upd_selected None s, [ListRules])
  | Reloaded rules => (autoSync (upd_rules rules s), [])
  | Loaded rules => (upd_rules rules s, [])
  end.

(** A run, with the API calls in order. *)
Definition editor_run (s : Editor) (es : list EditorEvent) : Editor * list EditorCall :=
  foldl (λ p e, let '(s', c) := editor_step p.1 e in (s', p.2 ++ c)%list) (s, []) es.
End canvas.

(** Whether the banner is shown as an error. *)
Definition banner_red (s : Editor) : bool :=
  match ed_syncResult s with
  | Some t => bool_decide (is_Some (String.index 0 "failed" t))
  | None => false
  end.

(** ** Lemmas: geometry *)

Lemma Qltb_lt a b : Qltb a b = true ↔ (a < b)%Q.
Proof.
  unfold Qltb. rewrite negb_true_iff. rewrite <- not_true_iff_false, Qle_bool_iff.
  split; [apply Qnot_le_lt|apply Qlt_not_le].
Qed.

Lemma Qltb_ge a b : Qltb a b = false ↔ (b <= a)%Q.
Proof. unfold Qltb. by rewrite negb_false_iff, Qle_bool_iff. Qed.

Lemma Qltb_eq a b b' : (b == b')%Q → Qltb a b = Qltb a b'.
Proof.
  intros H. apply eq_true_iff_eq. rewrite !Qltb_lt. by rewrite H.
Qed.

Lemma straddle y a b : xorb (Qltb y a) (Qltb y b) = true → ¬ (b - a == 0)%Q.
Proof.
  intros H Hab. assert (E : (a == b)%Q) by lra. rewrite (Qltb_eq y a b E) in H.
  by destruct (Qltb y b).
Qed.

(** The direction of an edge does not matter. *)
Lemma intersect_sym x y p q : intersect x y p q = intersect x y q p.
Proof.
  unfold intersect. rewrite (xorb_comm (Qltb y (pt_y q))).
  destruct (xorb (Qltb y (pt_y p)) (Qltb y (pt_y q))) eqn:E; simpl; [|done].
  apply Qltb_eq. pose proof (straddle _ _ _ E). field. split; lra.
Qed.

(** The parity of the crossings along an open path. *)
Fixpoint path_parity (x y : Q) (l : list CanvasPoint) : bool :=
  match l with
  | p :: (q :: _) as r => xorb (intersect x y q p) (path_parity x y r)
  | _ => false
  end.

Lemma path_cons x y p q l :
  path_parity x y (p :: q :: l) = xorb (intersect x y q p) (path_parity x y (q :: l)).
Proof. done. Qed.

Lemma pip_loop_path x y p l b : pip_loop x y p l b = xorb b (path_parity x y (p :: l)).
Proof.
  revert p b. induction l as [|q l IH]; intros p b; [by destruct b|].
  cbn [pip_loop]. rewrite IH, path_cons.
  by destruct (intersect x y q p), b, (path_parity x y (q :: l)).
Qed.

Lemma path_app x y l m r :
  path_parity x y (l ++ m :: r)%list = xorb (path_parity x y (l ++ [m])%list) (path_parity x y (m :: r)).
Proof.
  induction l as [|p l IH]; [by destruct r|].
  destruct l as [|q l]; cbn [app] in *; rewrite !path_cons; [by rewrite xorb_false_r|].
  by rewrite IH, xorb_assoc.
Qed.

Lemma path_pair x y p q : path_parity x y [p; q] = intersect x y p q.
Proof. simpl. by rewrite xorb_false_r, intersect_sym. Qed.

Lemma path_rev x y l : path_parity x y (rev l) = path_parity x y l.
Proof.
  induction l as [|p l IH]; [done|]. destruct l as [|q l]; [done|].
  change (rev (p :: q :: l)) with ((rev l ++ [q]) ++ [p])%list. rewrite <- app_assoc. cbn [app].
  rewrite (path_app x y (rev l) q [p]), path_pair, path_cons.
  change (rev l ++ [q])%list with (rev (q :: l)). by rewrite IH, xorb_comm.
Qed.

(** The test is the parity along the closed path. *)
Lemma pip_path x y p l : pointInPolygon x y (p :: l) = path_parity x y ((p :: l) ++ [p])%list.
Proof.
  unfold pointInPolygon. destruct (last (p :: l)) as [j|] eqn:E; [|by apply last_None in E].
  rewrite pip_loop_path, xorb_false_l. apply last_Some in E as [l' E]. rewrite E.
  rewrite <- app_assoc. cbn [app].
  rewrite (path_app x y l' j [p]), path_pair, <- E, path_cons, (intersect_sym x y j p). apply xorb_comm.
Qed.

Lemma pip_rotate x y a b : pointInPolygon x y (a ++ b)%list = pointInPolygon x y (b ++ a)%list.
Proof.
  destruct a as [|p a]; [by rewrite app_nil_r|]. destruct b as [|q b]; [by rewrite app_nil_r|].
  rewrite <- !app_comm_cons, !pip_path.
  replace ((p :: a ++ q :: b) ++ [p])%list with ((p :: a) ++ q :: b ++ [p])%list
    by (simpl; by rewrite <- app_assoc).
  replace ((q :: b ++ p :: a) ++ [q])%list with ((q :: b) ++ p :: a ++ [q])%list
    by (simpl; by rewrite <- app_assoc).
  rewrite (path_app x y (p :: a) q (b ++ [p])), (path_app x y (q :: b) p (a ++ [q])).
  apply xorb_comm.
Qed.

Lemma pip_rev x y l : pointInPolygon x y (rev l) = pointInPolygon x y l.
Proof.
  destruct l as [|p l]; [done|]. simpl rev. rewrite pip_rotate. simpl. rewrite !pip_path.
  rewrite <- (path_rev x y ((p :: l) ++ [p])%list). rewrite rev_app_distr. simpl. done.
Qed.

Lemma pip_chord x y u a v b :
  pointInPolygon x y (u :: a ++ v :: b)%list =
  xorb (pointInPolygon x y (u :: a ++ [v])%list) (pointInPolygon x y (v :: b ++ [u])%list).
Proof.
  rewrite !pip_path.
  replace ((u :: a ++ v :: b) ++ [u])%list with ((u :: a) ++ v :: b ++ [u])%list
    by (simpl; by rewrite <- app_assoc).
  replace ((u :: a ++ [v]) ++ [u])%list with ((u :: a) ++ v :: [u])%list
    by (simpl; by rewrite <- app_assoc).
  replace ((v :: b ++ [u]) ++ [v])%list with ((v :: b) ++ u :: [v])%list
    by (simpl; by rewrite <- app_assoc).
  rewrite (path_app x y (u :: a) v (b ++ [u])), (path_app x y (u :: a) v [u]).
  rewrite (path_app x y (v :: b) u [v]), !path_pair, (intersect_sym x y v u).
  change (v :: b ++ [u])%list with ((v :: b) ++ [u])%list.
  generalize (path_parity x y ((u :: a) ++ [v])), (path_parity x y ((v :: b) ++ [u])), (intersect x y u v).
  by intros [] [] [].
Qed.

Lemma intersect_vertical x y c a b :
  intersect x y (mkPoint c a) (mkPoint c b) = xorb (Qltb y a) (Qltb y b) && Qltb x c.
Proof.
  unfold intersect. simpl. destruct (xorb (Qltb y a) (Qltb y b)) eqn:E; simpl; [|done].
  apply Qltb_eq. pose proof (straddle _ _ _ E). field. lra.
Qed.

Lemma intersect_horizontal x y c a b : intersect x y (mkPoint a c) (mkPoint b c) = false.
Proof. unfold intersect. simpl. by destruct (Qltb y c). Qed.

(** A box contains its points and its left and top edges. *)
Lemma pip_box x y l t r b :
  (l < r)%Q → (t < b)%Q →
  pointInPolygon x y [mkPoint l t; mkPoint r t; mkPoint r b; mkPoint l b] = true ↔
  (l <= x < r)%Q ∧ (t <= y < b)%Q.
Proof.
  intros Hlr Htb. unfold pointInPolygon. cbn [last pip_loop].
  rewrite !intersect_horizontal, !intersect_vertical, (xorb_comm (Qltb y b)).
  destruct (Qltb y t) eqn:E1, (Qltb y b) eqn:E2, (Qltb x l) eqn:E3, (Qltb x r) eqn:E4; simpl;
    rewrite ?Qltb_lt, ?Qltb_ge in *; (split; intros H; [first [done|repeat split; lra]|]);
    first [done|exfalso; lra].
Qed.

(** ** Lemmas: the editor *)

Definition in_unit (p : CanvasPoint) : Prop := (0 <= pt_x p <= 1)%Q ∧ (0 <= pt_y p <= 1)%Q.

Lemma clamp01_unit q : (0 <= clamp01 q <= 1)%Q.
Proof.
  unfold clamp01, Qmax2, Qmin2. destruct (Qle_bool 1 q) eqn:E1.
  - destruct (Qle_bool 0 1) eqn:E2; split; lra.
  - destruct (Qle_bool 0 q) eqn:E2; rewrite ?Qle_bool_iff in *; [|split; lra].
    assert (¬ (1 <= q)%Q) by (rewrite <- Qle_bool_iff, E1; done). split; lra.
Qed.

Lemma toNormalized_unit canvas x y : in_unit (toNormalized canvas x y).
Proof.
  destruct canvas as [c|]; split; simpl; first [apply clamp01_unit|split; lra].
Qed.

(** Inside the box nothing is clamped. *)
Definition rule_keys : list string := rt_key <$> RULE_TYPES.

(** The points a type can be drawn with. *)
Definition enough_points (type : string) (n : nat) : Prop :=
  if String.eqb type "linecross" then n = 2%nat else (3 <= n)%nat.

Definition create_ok (c : VCARuleCreate) : Prop :=
  vc_rule_type c ∈ rule_keys ∧ Forall in_unit (vc_region c) ∧
  enough_points (vc_rule_type c) (length (vc_region c)) ∧ vc_name c ≠ EmptyString ∧ vc_enabled c = true.

Definition call_ok (c : EditorCall) : Prop := match c with CreateRule r => create_ok r | _ => True end.

Definition EdInv (s : Editor) : Prop :=
  ed_type s ∈ rule_keys ∧ Forall in_unit (ed_points s) ∧
  (ed_type s = "linecross" → (length (ed_points s) <= 1)%nat).

Lemma rule_keys_cases (P : string → Prop) :
  P "intrusion" → P "linecross" → P "regionentrance" → P "loitering" → ∀ t, t ∈ rule_keys → P t.
Proof.
  intros H1 H2 H3 H4 t Ht. unfold rule_keys in Ht. simpl in Ht.
  repeat (apply elem_of_cons in Ht as [->|Ht]; [done|]). by apply elem_of_nil in Ht.
Qed.

Lemma minPoints_of t :
  t ∈ rule_keys → rt_minPoints (ruleConfig t) = (if String.eqb t "linecross" then 2 else 3)%nat.
Proof. revert t. by apply rule_keys_cases. Qed.

Lemma label_nonempty t s : t ∈ rule_keys → (rt_label (ruleConfig t) +:+ s) ≠ EmptyString.
Proof. revert t. by apply (rule_keys_cases (λ t, (rt_label (ruleConfig t) +:+ s) ≠ EmptyString)). Qed.

Lemma finishDrawing_ok pts s :
  EdInv s → Forall in_unit pts → (ed_type s = "linecross" → (length pts <= 2)%nat) →
  EdInv (finishDrawing pts s).1 ∧ Forall call_ok (finishDrawing pts s).2.
Proof.
  intros Hinv Hp Hl. destruct Hinv as (Ht & Hpts & Hlc). unfold finishDrawing.
  rewrite minPoints_of by done.
  destruct (Nat.ltb_spec (length pts) (if String.eqb (ed_type s) "linecross" then 2 else 3)); simpl;
    [split; [by split_and!|constructor]|].
  split; [by split_and!|]. apply Forall_singleton. unfold call_ok, create_ok. simpl. split_and!; try done.
  - revert H. unfold enough_points. destruct (String.eqb_spec (ed_type s) "linecross") as [E|]; [|lia].
    specialize (Hl E). lia.
  - destruct (truthy_str (ed_name s)) eqn:E; [|by apply label_nonempty].
    intros H0. by rewrite H0 in E.
Qed.

Lemma EdInv_same s s' :
  ed_type s' = ed_type s → ed_points s' = ed_points s → EdInv s → EdInv s'.
Proof. unfold EdInv. by intros -> ->. Qed.

Lemma onClick_ok canvas x y s : EdInv s → EdInv (onClick canvas x y s).1 ∧ Forall call_ok (onClick canvas x y s).2.
Proof.
  intros H. unfold onClick. destruct (ed_dragging s); [by split|]. destruct (ed_mode s).
  - destruct canvas; [|by split]. split; [by apply (EdInv_same s)|constructor].
  - destruct H as (Ht & Hp & Hl). assert (H : EdInv s) by by split_and!.
    destruct (_ && _ && _) eqn:Ec.
    + apply finishDrawing_ok; [done|done|]. intros E. specialize (Hl E). lia.
    + assert (Hn : Forall in_unit (ed_points s ++ [toNormalized canvas x y])%list).
      { apply Forall_app. split; [done|]. repeat constructor; apply toNormalized_unit. }
      destruct (String.eqb_spec (ed_type s) "linecross") as [E|E]; cbn [andb].
      * specialize (Hl E). destruct (Nat.leb_spec (rt_minPoints (ruleConfig (ed_type s)))
          (length (ed_points s ++ [toNormalized canvas x y])%list)) as [|Hlt].
        -- apply finishDrawing_ok; [done|done|]. intros _. rewrite length_app. simpl. lia.
        -- split; [|constructor]. split_and!; simpl; [done|done|]. intros _.
           rewrite minPoints_of, E in Hlt by done. simpl in Hlt. lia.
      * split; [|constructor]. by split_and!.
Qed.

Lemma step_ok canvas s e :
  EdInv s → EdInv (editor_step canvas s e).1 ∧ Forall call_ok (editor_step canvas s e).2.
Proof.
  intros H. pose proof H as (Ht & Hp & Hl).
  assert (Hsave : (ed_type s = "linecross" → (length (ed_points s) <= 2)%nat)).
  { intros E. specialize (Hl E). lia. }
  destruct e; simpl; try (split; [by apply (EdInv_same s)|by repeat constructor]).
  - by apply onClick_ok.
  - unfold onMouseDown. destruct (ed_mode s), (ed_selected s); try (by split).
    destruct (negb _); [by split|]. destruct (find_where _ _); [|by split].
    destruct (grab _ _); by split; [apply (EdInv_same s)|].
  - unfold onMouseMove. destruct (ed_dragging s) as [[]|]; by split; [apply (EdInv_same s)|].
  - unfold onMouseUp, onVertexDragEnd. destruct (ed_dragging s) as [[]|]; [|by split].
    split; [by apply (EdInv_same s)|]. destruct (find_where _ _); by repeat constructor.
  - unfold onDoubleClick. destruct (ed_mode s); [by split|]. destruct (_ && _); [|by split].
    by apply finishDrawing_ok.
  - destruct (RULE_TYPES !! i) as [t|] eqn:E; [|by split]. split; [|constructor].
    split_and!; simpl; [|constructor|lia]. apply list_elem_of_fmap. exists t. split; [done|].
    by eapply list_elem_of_lookup_2.
  - unfold saveZone. destruct (ed_mode s); [by split|]. destruct (canSave s); [|by split].
    by apply finishDrawing_ok.
  - split; [|constructor]. split_and!; simpl; [done|constructor|lia].
  - split; [|constructor]. split_and!; simpl; [done|by apply Forall_take|].
    intros E. specialize (Hl E). rewrite length_take. lia.
  - destruct (find_where _ _); by split; [|repeat constructor].
  - unfold creation_settles. destruct (_ =? 0)%nat; [by split|].
    destruct o; (split; [|by repeat constructor]); split_and!; simpl; first [done | lia | constructor].
Qed.

Lemma editor_run_snoc canvas s es e :
  editor_run canvas s (es ++ [e])%list =
  let '(s', c) := editor_step canvas (editor_run canvas s es).1 e in
  (s', ((editor_run canvas s es).2 ++ c)%list).
Proof. unfold editor_run. by rewrite foldl_app. Qed.

Lemma run_ok canvas es :
  EdInv (editor_run canvas initial_editor es).1 ∧ Forall call_ok (editor_run canvas initial_editor es).2.
Proof.
  induction es as [|e es [IH1 IH2]] using rev_ind.
  - split; [|constructor]. split_and!; simpl; [by left|constructor|lia].
  - rewrite editor_run_snoc. destruct (step_ok canvas _ e IH1) as [H1 H2].
    destruct (editor_step _ _ _) as [s' c]. split; [done|]. simpl in *. by apply Forall_app.
Qed.

(** Drawing by clicks that stay away from the first vertex. *)
Definition far_from_first (canvas : option Canvas) (cs : list (Q * Q)) : Prop :=
  match cs with
  | [] => True
  | c0 :: r => Forall (λ c, near (3 # 100) (toNormalized canvas c.1 c.2) (toNormalized canvas c0.1 c0.2) = false) r
  end.

Lemma run_cons canvas s e es :
  editor_run canvas s (e :: es) =
  let '(s1, c1) := editor_step canvas s e in
  let '(s2, c2) := editor_run canvas s1 es in (s2, (c1 ++ c2)%list).
Proof.
  unfold editor_run at 1. simpl. destruct (editor_step canvas s e) as [s1 c1] eqn:E. simpl.
  revert s1 c1 E. induction es as [|e' es IH] using rev_ind; intros s1 c1 E.
  - simpl. by rewrite app_nil_r.
  - rewrite foldl_app, IH with (1 := E), editor_run_snoc. simpl.
    destruct (editor_run canvas s1 es) as [s2 c2]. simpl. destruct (editor_step canvas s2 e') as [s3 c3].
    by rewrite app_assoc.
Qed.

Lemma clicks_draw canvas cs s :
  ed_mode s = drawing → ed_type s ≠ "linecross" → ed_dragging s = None →
  match ed_points s ++ ((λ c, toNormalized canvas c.1 c.2) <$> cs) with
  | [] => True
  | p0 :: r => Forall (λ p, near (3 # 100) p p0 = false) r
  end%list →
  editor_run canvas s ((λ c, MClick c.1 c.2) <$> cs) =
  (upd_points (ed_points s ++ ((λ c, toNormalized canvas c.1 c.2) <$> cs))%list s, []).
Proof.
  revert s. induction cs as [|c cs IH]; intros s Hm Ht Hd Hfar.
  - simpl. rewrite app_nil_r. by destruct s.
  - rewrite fmap_cons, run_cons. cbn [editor_step]. unfold onClick. rewrite Hd, Hm.
    rewrite (proj2 (String.eqb_neq _ _) Ht). cbn [negb andb]. rewrite andb_true_r.
    assert (Hn : match ed_points s with
                 | first :: _ => near (3 # 100) (toNormalized canvas c.1 c.2) first | [] => false end = false).
    { destruct (ed_points s) as [|p0 r]; [done|]. simpl in Hfar. rewrite Forall_forall in Hfar.
      apply Hfar. apply elem_of_app. right. by left. }
    rewrite Hn, andb_false_r. rewrite IH; simpl; try done.
    + by rewrite <- app_assoc.
    + rewrite <- app_assoc. simpl. rewrite fmap_cons in Hfar. exact Hfar.
Qed.

(** Only the vertices of the dragged zone move. *)
Lemma moves_apply canvas id i ms s :
  ed_dragging s = Some (id, i) →
  editor_run canvas s ((λ c, MMove c.1 c.2) <$> ms) =
  (match last ms with
   | Some c => onVertexMove id i (toNormalized canvas c.1 c.2) s
   | None => s
   end, []).
Proof.
  intros Hd. induction ms as [|c ms IH] using rev_ind; [done|].
  rewrite fmap_app, last_snoc. simpl. rewrite editor_run_snoc, IH. cbn [editor_step fst snd app].
  unfold onMouseMove. destruct (last ms) as [c'|]; simpl; rewrite Hd; [|done].
  f_equal. unfold onVertexMove, upd_rules. simpl. f_equal.
  rewrite map_where_map_where by done. unfold map_where. apply list_fmap_ext. intros j r _.
  destruct (String.eqb _ _); [|done]. simpl. unfold set_region. simpl. by rewrite list_insert_insert_eq.
Qed.

Lemma find_where_map_id (rules : list VCARule) id f :
  (∀ r, vr_id (f r) = vr_id r) →
  find_where (λ r, String.eqb (vr_id r) id) (map_where (λ r, String.eqb (vr_id r) id) f rules) =
  f <$> find_where (λ r, String.eqb (vr_id r) id) rules.
Proof.
  intros Hf. induction rules as [|r rules IH]; [done|].
  change (map_where ?p f (r :: rules)) with ((if p r then f r else r) :: map_where p f rules).
  rewrite !find_where_cons. destruct (String.eqb (vr_id r) id) eqn:E; simpl; [by rewrite Hf, E|].
  by rewrite E, IH.
Qed.

Lemma index_skip p c s :
  String.prefix p (String c s) = false →
  is_Some (String.index 0 p (String c s)) ↔ is_Some (String.index 0 p s).
Proof.
  intros H. cbn [String.index]. rewrite H. destruct (String.index 0 p s); split; intros [? ?]; by eexists.
Qed.

Lemma index_failed msg :
  bool_decide (is_Some (String.index 0 "failed" ("Failed to save rule: " +:+ msg))) =
  bool_decide (is_Some (String.index 0 "failed" msg)).
Proof.
  apply bool_decide_ext. cbv beta iota delta [String.append]. repeat (rewrite index_skip; [|reflexivity]). done.
Qed.

(** Saving, double clicking and closing all finish the same drawing. *)
Lemma finishDrawing_polygon pts d n :
  ed_type d ∈ rule_keys → ed_type d ≠ "linecross" → (3 <= length pts)%nat →
  finishDrawing pts (upd_creating n d) = (upd_creating (S n) d, [CreateRule (new_rule pts d)]).
Proof.
  intros Hk Ht Hl. unfold finishDrawing. simpl. rewrite minPoints_of by done.
  rewrite (proj2 (String.eqb_neq _ _) Ht). by destruct (Nat.ltb_spec (length pts) 3); [lia|].
Qed.

Lemma save_steps canvas s e :
  ed_mode s = drawing → ed_type s ≠ "linecross" → (3 <= length (ed_points s))%nat →
  e = Save ∨ e = MDouble → editor_step canvas s e = finishDrawing (ed_points s) s.
Proof.
  intros Hm Ht Hl [->| ->]; simpl.
  - unfold saveZone, canSave. rewrite Hm, (proj2 (String.eqb_neq _ _) Ht).
    by destruct (Nat.leb_spec 3 (length (ed_points s))); [|lia].
  - unfold onDoubleClick. rewrite Hm, (proj2 (String.eqb_neq _ _) Ht).
    by destruct (Nat.leb_spec 3 (length (ed_points s))); [|lia].
Qed.

Lemma closing_click canvas s x y p0 :
  ed_mode s = drawing → ed_type s ≠ "linecross" → ed_dragging s = None →
  (3 <= length (ed_points s))%nat → head (ed_points s) = Some p0 →
  near (3 # 100) (toNormalized canvas x y) p0 = true →
  editor_step canvas s (MClick x y) = finishDrawing (ed_points s) s.
Proof.
  intros Hm Ht Hd Hl Hp Hn. simpl. unfold onClick. rewrite Hd, Hm, (proj2 (String.eqb_neq _ _) Ht).
  destruct (ed_points s) as [|p r] eqn:E; [done|]. injection Hp as ->. rewrite Hn.
  by destruct (Nat.leb_spec 3 (length (p0 :: r))); [|lia].
Qed.

(** ** Properties *)

(** The hit test is well defined on zones: it does not depend on the vertex a
    polygon starts with nor on its winding order; cutting a polygon along a chord
    splits its points between the two parts, so neighbouring zones neither overlap
    nor leave a gap; and a box contains its interior with its left and top edges. *)
Theorem point_in_polygon_sound x y :
  (∀ a b, pointInPolygon x y (a ++ b)%list = pointInPolygon x y (b ++ a)%list) ∧
  (∀ p, pointInPolygon x y (rev p) = pointInPolygon x y p) ∧
  (∀ u a v b, pointInPolygon x y (u :: a ++ v :: b)%list =
     xorb (pointInPolygon x y (u :: a ++ [v])%list) (pointInPolygon x y (v :: b ++ [u])%list)) ∧
  (∀ l t r b, (l < r)%Q → (t < b)%Q →
     (pointInPolygon x y [mkPoint l t; mkPoint r t; mkPoint r b; mkPoint l b] = true ↔
      (l <= x < r)%Q ∧ (t <= y < b)%Q)).
Proof.
  split_and!; [apply pip_rotate|apply pip_rev|apply pip_chord|apply pip_box].
Qed.

(** Whatever the operator does, in any order and whatever the API answers,
    every zone the editor asks to create has a type of the catalog, a name, at
    least the points its type needs (exactly two for a line), and all its points
    inside the image. *)
Theorem created_zones_valid canvas es c :
  CreateRule c ∈ (editor_run canvas initial_editor es).2 →
  vc_rule_type c ∈ rule_keys ∧ Forall in_unit (vc_region c) ∧
  enough_points (vc_rule_type c) (length (vc_region c)) ∧ vc_name c ≠ EmptyString ∧ vc_enabled c = true.
Proof.
  intros H. destruct (run_ok canvas es) as [_ Hc]. rewrite Forall_forall in Hc. exact (Hc _ H).
Qed.

Definition unit_canvas : Canvas := mkCanvas 0 0 640 360 640 360.
Definition triangle_clicks : list (Q * Q) := [(64, 36); (320, 36); (320, 180)]%Q.

Lemma created_zones_valid_witness :
  ∃ c, CreateRule c ∈ (editor_run (Some unit_canvas) initial_editor
         (Pick 0 :: ((λ c, MClick c.1 c.2) <$> triangle_clicks) ++ [MClick 66 36])%list).2 ∧
       Forall in_unit (vc_region c) ∧ enough_points (vc_rule_type c) (length (vc_region c)).
Proof.
  set (r := (editor_run (Some unit_canvas) initial_editor _).2).
  assert (Hr : ∃ c, r = [CreateRule c]) by (eexists; vm_compute; reflexivity).
  destruct Hr as [c Hc]. exists c.
  assert (Hin : CreateRule c ∈ r) by (rewrite Hc; by left).
  destruct (created_zones_valid _ _ _ Hin) as (_ & H1 & H2 & _). exact (conj Hin (conj H1 H2)).
Defined.

(** A zone is drawn as it was clicked: after picking a polygon type, clicks
    away from the first vertex and the save button make exactly one creation, with
    the clicked points in order.  Until the API answers, though, the editor stays
    in drawing mode with the same points, so each further save, double click or
    click on the first vertex creates the same zone again.  A creation that is
    rejected discards the drawing and reports it in a banner that is not red,
    unless the server's message itself contains the word it looks for. *)
Theorem zone_drawn_once canvas s i t cs :
  RULE_TYPES !! i = Some t → rt_key t ≠ "linecross" → ed_dragging s = None →
  (3 <= length cs)%nat → far_from_first canvas cs →
  let pts := (λ c, toNormalized canvas c.1 c.2) <$> cs in
  let drawn := editor_run canvas s (Pick i :: ((λ c, MClick c.1 c.2) <$> cs))%list in
  drawn.2 = [] ∧ ed_points drawn.1 = pts ∧
  ∃ c, vc_region c = pts ∧ vc_rule_type c = rt_key t ∧
    (∀ e, e = Save ∨ e = MDouble ∨
       (∃ x y, e = MClick x y ∧ ∃ p0, head pts = Some p0 ∧ near (3 # 100) (toNormalized canvas x y) p0 = true) →
     (editor_step canvas drawn.1 e).2 = [CreateRule c] ∧
     ∀ e', e' = Save ∨ e' = MDouble →
       (editor_step canvas (editor_step canvas drawn.1 e).1 e').2 = [CreateRule c]) ∧
    (∀ msg, let s' := (creation_settles (inl msg) (editor_step canvas drawn.1 Save).1).1 in
       ed_points s' = [] ∧ ed_mode s' = idle ∧
       banner_red s' = bool_decide (is_Some (String.index 0 "failed" msg))).
Proof.
  intros Hi Ht Hd Hlen Hfar pts drawn.
  assert (Hkey : rt_key t ∈ rule_keys).
  { apply list_elem_of_fmap. exists t. split; [done|]. by eapply list_elem_of_lookup_2. }
  assert (Hdrawn : drawn = (upd_points pts (pickType (rt_key t) s), [])).
  { unfold drawn. rewrite run_cons. cbn [editor_step]. rewrite Hi.
    rewrite (clicks_draw canvas cs (pickType (rt_key t) s)); try done.
    simpl. destruct cs as [|c0 r]; [done|]. simpl. apply Forall_fmap. exact Hfar. }
  rewrite Hdrawn. clear Hdrawn drawn. cbn [fst snd]. split; [done|]. split; [done|].
  set (d := upd_points pts (pickType (rt_key t) s)). exists (new_rule pts d).
  assert (Hfin : ∀ n, finishDrawing pts (upd_creating n d) = (upd_creating (S n) d, [CreateRule (new_rule pts d)])).
  { intros n. apply finishDrawing_polygon; [done|done|]. unfold pts. by rewrite length_fmap. }
  assert (Hstep : ∀ n e, e = Save ∨ e = MDouble →
    editor_step canvas (upd_creating n d) e = (upd_creating (S n) d, [CreateRule (new_rule pts d)])).
  { intros n e He. rewrite <- Hfin. apply save_steps; [done|done| |done].
    simpl. unfold pts. by rewrite length_fmap. }
  split_and!; [done|done| |].
  - intros e He. assert (E : editor_step canvas (upd_creating (ed_creating d) d) e =
      (upd_creating (S (ed_creating d)) d, [CreateRule (new_rule pts d)])).
    { destruct He as [->|[->|(x & y & -> & p0 & Hp0 & Hn)]]; [by apply Hstep; left|by apply Hstep; right|].
      rewrite <- Hfin. apply closing_click with p0; try done. simpl. unfold pts. by rewrite length_fmap. }
    change (upd_creating (ed_creating d) d) with d in E. rewrite E. split; [done|].
    intros e' He'. cbn [fst]. by rewrite Hstep.
  - intros msg. change (editor_step canvas d Save) with (editor_step canvas (upd_creating (ed_creating d) d) Save).
    rewrite Hstep by by left. cbn [fst]. unfold creation_settles. cbn [ed_creating upd_creating Nat.eqb].
    simpl. split_and!; [done|done|]. unfold banner_red. cbn [ed_syncResult reset_drawing upd_draw upd_sync].
    by rewrite index_failed.
Qed.

Lemma zone_drawn_once_witness :
  ed_points (editor_run (Some unit_canvas) initial_editor
    (Pick 0 :: ((λ c, MClick c.1 c.2) <$> triangle_clicks))%list).1 =
  (λ c, toNormalized (Some unit_canvas) c.1 c.2) <$> triangle_clicks.
Proof.
  destruct (zone_drawn_once (Some unit_canvas) initial_editor 0 (mkRuleType "intrusion" "Intrusion Zone"
    "#EF4444" "rgba(239,68,68,0.18)" 3 (Some "🚧")) triangle_clicks eq_refl) as (_ & H & _).
  - discriminate.
  - reflexivity.
  - simpl. lia.
  - unfold far_from_first, triangle_clicks. repeat constructor.
  - exact H.
Defined.

(** Dragging a vertex of the selected zone moves that vertex alone, to the
    last position of the pointer inside the image, and saves exactly that zone
    once on release.  The browser's click that follows the release is handled as a
    click nevertheless, since the release has ended the drag: it selects the top
    zone under the pointer, or deselects the zone that was being edited. *)
Theorem drag_saves_one_vertex c s zone i x y ms mx my :
  let canvas := Some c in
  ed_mode s = idle → ed_dragging s = None → ed_selected s = Some (vr_id zone) →
  truthy_str (vr_id zone) = true →
  find_where (λ z, String.eqb (vr_id z) (vr_id zone)) (ed_rules s) = Some zone →
  grab (toNormalized canvas x y) zone = Some i →
  let p := toNormalized canvas mx my in
  let zone' := set_region (<[i := p]> (vr_region zone)) zone in
  let r := editor_run canvas s (MDown x y :: ((λ m, MMove m.1 m.2) <$> (ms ++ [(mx, my)])) ++ [MUp])%list in
  r.2 = [UpdateRule (vr_id zone) (ruleToCreate zone')] ∧
  ed_rules r.1 = map_where (λ z, String.eqb (vr_id z) (vr_id zone))
    (λ z, set_region (<[i := p]> (vr_region z)) z) (ed_rules s) ∧
  in_unit p ∧ (i < length (vr_region zone))%nat ∧
  editor_step canvas r.1 (MClick mx my) = (upd_selected (vr_id <$> hit_test c p (ed_rules r.1)) r.1, []).
Proof.
  intros canvas Hm Hd Hs Ht Hz Hg p zone' r.
  assert (Hr : r = (upd_drag None (onVertexMove (vr_id zone) i p (upd_drag (Some (vr_id zone, i)) s)),
                    [UpdateRule (vr_id zone) (ruleToCreate zone')])).
  { unfold r. rewrite run_cons. cbn [editor_step]. unfold onMouseDown. rewrite Hm, Hs, Ht. cbn [negb].
    rewrite Hz, Hg.
    rewrite editor_run_snoc, (moves_apply canvas (vr_id zone) i) by done. rewrite last_snoc. simpl.
    unfold onVertexDragEnd. simpl.
    rewrite (find_where_map_id (ed_rules s) (vr_id zone) (λ z, set_region (<[i := p]> (vr_region z)) z)) by done.
    by rewrite Hz. }
  rewrite Hr. cbn [fst snd]. split_and!; [done|done|apply toNormalized_unit| |].
  - unfold grab in Hg. apply find_index_Some in Hg as (v & Hv & _). by eapply lookup_lt_Some.
  - simpl. unfold onClick. simpl. by rewrite Hm.
Qed.

Definition sample_rule : VCARule :=
  mkRule "r1" "cam" "intrusion" "Gate" true 50
    [mkPoint (1 # 10) (1 # 10); mkPoint (5 # 10) (1 # 10); mkPoint (5 # 10) (5 # 10)]
    "both" 0 "always" ["record"] false EmptyString EmptyString EmptyString.

Definition sample_editor : Editor :=
  upd_selected (Some "r1") (upd_rules [sample_rule] initial_editor).

(** Dragging a corner away from its zone leaves nothing selected. *)
Lemma drag_saves_one_vertex_witness :
  ed_selected (editor_run (Some unit_canvas) sample_editor
    [MDown 64 36; MMove 200 100; MMove 10 350; MUp; MClick 10 350]).1 = None.
Proof.
  destruct (drag_saves_one_vertex unit_canvas sample_editor sample_rule 0 64 36 [(200, 100)%Q] 10 350
    eq_refl eq_refl eq_refl eq_refl eq_refl eq_refl) as (_ & _ & _ & _ & H).
  cbn [app fmap list_fmap fst snd] in H.
  change (editor_run (Some unit_canvas) sample_editor
    [MDown 64 36; MMove 200 100; MMove 10 350; MUp; MClick 10 350])
    with (editor_run (Some unit_canvas) sample_editor
    ([MDown 64 36; MMove 200 100; MMove 10 350; MUp] ++ [MClick 10 350])%list).
  rewrite editor_run_snoc, H. reflexivity.
Defined.
