(* ===== verification/CameraRegistry.v ===== *)
(** * Registry hooks

    The queries and mutations of [hooks/useCameraAssignment.ts],
    [hooks/useSites.ts], [hooks/useCustomers.ts] and [hooks/useIncidents.ts]: what
    each asks the network, what it makes of the reply and which cached queries a
    mutation invalidates.  The query cache itself is a library and not modelled. *)

From S2P Require Import Prelude Types Http AuthFetch IronsightApi.
From stdpp Require Import pretty.
From Stdlib Require Import QArith.
#[local] Open Scope string_scope.
#[local] Open Scope Z_scope.

(** A key of the query cache: strings, with null for a missing id. *)
Abbreviation QueryKey := (list (option string)).

(** The options of [useQuery]; the times are in milliseconds. *)
Record Query (A : Type) := mkQuery {
  q_key : QueryKey;
  q_fn : M A;
  q_enabled : bool;
  q_refetchInterval : option Z;
  q_staleTime : Z
}.
Arguments mkQuery {_} _ _ _ _ _.
Arguments q_key {_} _.
Arguments q_fn {_} _.
Arguments q_enabled {_} _.

(** [mutateAsync]: the mutation, and [onSuccess] when it resolves; the result
    carries the keys it invalidates. *)
Definition mutate {A} (mutationFn : M A) (invalidates : list QueryKey) : M (A * list QueryKey) :=
  a ← mutationFn; mret (a, invalidates).

(** ** hooks/useSites.ts *)

Definition key1 (k : string) : QueryKey := [Some k].
Definition key2 (k : string) (id : option string) : QueryKey := [Some k; id].

(** [!!id] *)
Definition enabled_id (id : option string) : bool := truthy_ostr id.

(** [id!]: the query only runs when it is enabled. *)
Definition the (id : option string) : string := default "null" id.

Definition useSites : Query (option json) :=
  mkQuery (key1 "sites") getSites true (Some 30000) 10000.

Definition useSite (id : option string) : Query (option json) :=
  mkQuery (key2 "site" id) (getSite (the id)) (enabled_id id) (Some 10000) 5000.

Definition useSiteCameras (siteId : option string) : Query (option json) :=
  mkQuery (key2 "site-cameras" siteId) (getSiteCameras (the siteId)) (enabled_id siteId) None 0.

Definition useSiteCompliance (siteId : option string) : Query (option json) :=
  mkQuery (key2 "site-compliance" siteId) (getSiteCompliance (the siteId)) (enabled_id siteId) None 0.

Definition useUpdateSite (id : string) (data : json) :=
  mutate (updateSite id data) [key1 "sites"; key2 "site" (Some id)].

Definition schedule_init (monitoring_schedule : list json) : Init :=
  mkInit (Some "PUT") [("Content-Type", "application/json")]
    (Some (BJson (JObj [("monitoring_schedule", JArr monitoring_schedule)]))) false None.

Definition useUpdateSiteMonitoringSchedule (id : string) (monitoring_schedule : list json) :=
  mutate
    (res ← authFetch ("/api/v1/sites/" +:+ id +:+ "/monitoring-schedule") (schedule_init monitoring_schedule);
     if negb (rs_ok res) then t ← text res; throw (XError t) else json_of res)
    [key1 "sites"; key2 "site" (Some id)].

Definition useCreateSite (data : json) := mutate (createSite data) [key1 "sites"].

Definition useDeleteSite (id : string) := mutate (deleteSite id) [key1 "sites"].

(** ** hooks/useCustomers.ts *)

Definition useCompanies : Query (option json) := mkQuery (key1 "companies") getCompanies true None 30000.

Definition useCompany (id : option string) : Query (option json) :=
  mkQuery (key2 "company" id) (getCompany (the id)) (enabled_id id) None 0.

Definition useCompanyUsers (companyId : option string) : Query (option json) :=
  mkQuery (key2 "company-users" companyId) (getCompanyUsers (the companyId)) (enabled_id companyId) None 0.

Definition useCreateCompany (data : json) := mutate (createCompany data) [key1 "companies"].

(** ** hooks/useIncidents.ts *)

(** [(await getIncidents(filters)) ?? []] *)
Definition useIncidents (site_id status severity : option string) (limit : option Z) : Query json :=
  mkQuery (Some "incidents" :: [site_id; status; severity; pretty <$> limit])
    (r ← getIncidents site_id status severity limit; mret (nullish r (JArr []))) true (Some 30000) 10000.

Definition useIncident (id : option string) : Query (option json) :=
  mkQuery (key2 "incident" id) (getIncident (the id)) (enabled_id id) None 5000.

(** ** hooks/useCameraAssignment.ts *)

Definition registry_get (url : string) : Request :=
  mkRequest url (mkInit None [("Content-Type", "application/json")] None false None) true.

(** One of the two camera lists; any failure gives an empty list. *)
Definition camera_list (url : string) : M (list json) :=
  try_catch
    (res ← fetch (registry_get url);
     data ← json_of res;
     mret (match data with JArr l => l | _ => [] end))
    (λ _, mret []).

Definition is_null (j : json) : bool := match j with JNull => true | _ => false end.

(** Equality of map keys ([SameValueZero]); [None] is undefined, and two objects
    of a parsed reply are never the same. *)
Definition same_value (a b : option json) : bool :=
  match a, b with
  | None, None => true
  | Some JNull, Some JNull => true
  | Some (JBool x), Some (JBool y) => Bool.eqb x y
  | Some (JNum x), Some (JNum y) => Qeq_bool x y
  | Some (JStr x), Some (JStr y) => String.eqb x y
  | _, _ => false
  end.

Definition truthy_o (o : option json) : bool := match o with Some j => truthy_json j | None => false end.

(** [v || d] *)
Definition or_default (o : option json) (d : json) : json :=
  match o with Some j => if truthy_json j then j else d | None => d end.

(** [map.get(key)]: the entry set last. *)
Definition last_where {A} (p : A → bool) (l : list A) : option A := find_where p (reverse l).

Definition platformByAddr (platform : list json) (addr : option json) : option json :=
  last_where (λ pc, truthy_o (jget "onvif_address" pc) && same_value (jget "onvif_address" pc) addr) platform.

Definition platformById (platform : list json) (id : option json) : option json :=
  last_where (λ pc, same_value (jget "id" pc) id) platform.

Definition match_of (platform : list json) (nvr : json) : option json :=
  match platformByAddr platform (jget "onvif_address" nvr) with
  | Some pc => if truthy_json pc then Some pc else platformById platform (jget "id" nvr)
  | None => platformById platform (jget "id" nvr)
  end.

Definition merge_one (platform : list json) (nvr : json) : json :=
  let m := match_of platform nvr in
  JObj (opt_prop "id" (jget "id" nvr) ++
    [("name", or_default (jget "name" nvr) (JStr "Camera"));
     ("onvif_address", or_default (jget "onvif_address" nvr) (JStr EmptyString));
     ("manufacturer", or_default (jget "manufacturer" nvr) (JStr EmptyString));
     ("model", or_default (jget "model" nvr) (JStr EmptyString));
     ("status", or_default (jget "status" nvr) (JStr "offline"));
     ("recording", nullish (jget "recording" nvr) (JBool false));
     ("site_id", or_default (jget_opt "site_id" m) JNull);
     ("location", or_default (jget_opt "location" m) (JStr EmptyString))])%list.

(** A platform camera that no NVR camera has the id or the address of. *)
Definition platform_only (nvr : list json) (pc : json) : bool :=
  negb (existsb (λ c, same_value (jget "id" c) (jget "id" pc)) nvr) &&
  negb (truthy_o (jget "onvif_address" pc) &&
        existsb (λ c, truthy_o (jget "onvif_address" c) &&
                      same_value (jget "onvif_address" c) (jget "onvif_address" pc)) nvr).

Definition merge_cameras (nvr platform : list json) : list json :=
  ((merge_one platform <$> nvr) ++ filter_where (platform_only nvr) platform)%list.

(** [useMasterCameras]: a null entry in either list makes the query reject. *)
Definition master_cameras : M (list json) :=
  nvrCameras ← camera_list "/api/cameras";
  platformCameras ← camera_list "/api/v1/cameras";
  if existsb is_null platformCameras || existsb is_null nvrCameras then throw XType
  else mret (merge_cameras nvrCameras platformCameras).

Definition useMasterCameras : Query (list json) :=
  mkQuery (key1 "master-cameras") master_cameras true None 10000.

(** [return getAllSpeakers()] is not awaited, so its rejection is not caught. *)
Definition useMasterSpeakers : Query (option json) :=
  mkQuery (key1 "master-speakers") getAllSpeakers true None 10000.

(** The two mutations that use the bare [fetch]. *)
Definition create_camera_request (data : json) : Request :=
  mkRequest "/api/v1/cameras"
    (mkInit (Some "POST") [("Content-Type", "application/json")] (Some (BJson data)) false None) false.

Definition useCreateCamera (data : json) :=
  mutate (res ← fetch (create_camera_request data); json_of res) [key1 "master-cameras"].

Definition delete_camera_request (cameraId : string) : Request :=
  mkRequest ("/api/v1/cameras/" +:+ cameraId) (mkInit (Some "DELETE") [] None false None) false.

Definition useDeleteCamera (cameraId : string) :=
  mutate (_ ← fetch (delete_camera_request cameraId); mret tt) [key1 "master-cameras"; key1 "sites"].

Definition useCameraAssignments (siteId : option string) : Query (option json) :=
  mkQuery (key2 "camera-assignments" siteId) (getCameraAssignments (the siteId)) (enabled_id siteId) None 0.

Definition assignment_keys (siteId : string) : list QueryKey :=
  [key2 "camera-assignments" (Some siteId); key1 "master-cameras"; key2 "site" (Some siteId); key1 "sites"].

Definition useAssignCamera (siteId cameraId locationLabel : string) :=
  mutate (assignCameraToSite siteId cameraId locationLabel) (assignment_keys siteId).

Definition useUnassignCamera (siteId cameraId : string) :=
  mutate (unassignCamera siteId cameraId) (assignment_keys siteId).

Definition useAssignSpeaker (siteId speakerId locationLabel : string) :=
  mutate (assignSpeakerToSite siteId speakerId locationLabel) [key1 "master-speakers"; key1 "sites"].

Definition useUnassignSpeaker (siteId speakerId : string) :=
  mutate (unassignSpeaker siteId speakerId) [key1 "master-speakers"; key1 "sites"].

(** ** Lemmas *)

(** What a reply contributes to the merge. *)
Definition list_reply (o : option Response) : list json :=
  match o with
  | Some r => match rs_json r with Some (JArr l) => l | _ => [] end
  | None => []
  end.

Lemma camera_list_total url b l :
  camera_list url b l =
  ((l ++ [EFetch (registry_get url)])%list, Ok (list_reply (br_net b l (registry_get url)))).
Proof.
  unfold camera_list, try_catch, fetch, mbind, M_bind, list_reply.
  destruct (br_net b l _) as [r|]; [|done]. unfold json_of, lift_body. by destruct (rs_json r) as [[]|].
Qed.

Lemma same_value_str s o : same_value o (Some (JStr s)) = true ↔ o = Some (JStr s).
Proof.
  destruct o as [[]|]; simpl; try done. rewrite String.eqb_eq. split; [by intros ->|by intros [= ->]].
Qed.

Lemma merge_one_id platform nvr : jget "id" (merge_one platform nvr) = jget "id" nvr.
Proof. unfold merge_one. by destruct (jget "id" nvr). Qed.

Lemma merge_one_prop platform nvr k :
  k ≠ "id" → jget k (merge_one platform nvr) = jget k (JObj
    [("name", or_default (jget "name" nvr) (JStr "Camera"));
     ("onvif_address", or_default (jget "onvif_address" nvr) (JStr EmptyString));
     ("manufacturer", or_default (jget "manufacturer" nvr) (JStr EmptyString));
     ("model", or_default (jget "model" nvr) (JStr EmptyString));
     ("status", or_default (jget "status" nvr) (JStr "offline"));
     ("recording", nullish (jget "recording" nvr) (JBool false));
     ("site_id", or_default (jget_opt "site_id" (match_of platform nvr)) JNull);
     ("location", or_default (jget_opt "location" (match_of platform nvr)) (JStr EmptyString))]).
Proof.
  intros Hk. unfold merge_one. destruct (jget "id" nvr); [|done]. cbn [opt_prop app].
  unfold jget. rewrite find_where_cons. cbn [fst].
  by destruct (String.eqb_spec "id" k) as [<-|].
Qed.

Lemma last_where_Some {A} (p : A → bool) l x : last_where p l = Some x → p x = true ∧ x ∈ l.
Proof. unfold last_where. intros [? H]%find_where_Some. by rewrite elem_of_reverse in H. Qed.

Lemma last_where_None {A} (p : A → bool) l : last_where p l = None ↔ ∀ x, x ∈ l → p x = false.
Proof. unfold last_where. rewrite find_where_None. by setoid_rewrite elem_of_reverse. Qed.

(** The ids of a list, all strings and pairwise distinct. *)
Definition distinct_ids (l : list json) (ids : list string) : Prop :=
  jget "id" <$> l = (λ s, Some (JStr s)) <$> ids ∧ NoDup ids.

Lemma distinct_unique l ids a c :
  distinct_ids l ids → a ∈ l → c ∈ l → jget "id" a = jget "id" c → a = c.
Proof.
  intros [Hids Hnd] Ha Hc Heq. apply (NoDup_fmap_elem (jget "id") l a c); [|done..]. rewrite Hids.
  apply NoDup_fmap_2; [|done]. by intros x y [= ->].
Qed.

(** A platform camera with an NVR camera's id decides its site, unless another
    platform camera has the NVR camera's address. *)
Lemma match_by_id platform ids nvr pc s :
  distinct_ids platform ids → pc ∈ platform → jget "id" pc = Some (JStr s) →
  jget "id" nvr = Some (JStr s) →
  (∀ q, q ∈ platform → truthy_o (jget "onvif_address" q) = true →
     same_value (jget "onvif_address" q) (jget "onvif_address" nvr) = true → q = pc) →
  match_of platform nvr = Some pc.
Proof.
  intros Hd Hpc Hid Hnid Haddr. unfold match_of.
  assert (Hby : platformById platform (jget "id" nvr) = Some pc).
  { unfold platformById. rewrite Hnid. destruct (last_where _ _) as [q|] eqn:E.
    - apply last_where_Some in E as [Hq Hin]. apply same_value_str in Hq.
      f_equal. apply (distinct_unique platform ids); [done..|congruence].
    - rewrite last_where_None in E. specialize (E pc Hpc). rewrite Hid in E.
      simpl in E. by rewrite String.eqb_refl in E. }
  destruct (platformByAddr platform _) as [q|] eqn:E; [|done].
  unfold platformByAddr in E. apply last_where_Some in E as [Hq Hin].
  apply andb_true_iff in Hq as [Hq1 Hq2]. rewrite (Haddr q Hin Hq1 Hq2). by destruct (truthy_json pc).
Qed.

Lemma merge_ids nvr platform nids pids :
  distinct_ids nvr nids → distinct_ids platform pids →
  ∃ ids, distinct_ids (merge_cameras nvr platform) ids ∧ nids `prefix_of` ids ∧
         ∀ s, s ∈ ids ↔ s ∈ nids ∨ ∃ pc, pc ∈ platform ∧ platform_only nvr pc = true ∧ jget "id" pc = Some (JStr s).
Proof.
  intros [Hn Hnn] [Hp Hpn].
  assert (Hk : ∃ kids, jget "id" <$> filter_where (platform_only nvr) platform = (λ s, Some (JStr s)) <$> kids ∧
    NoDup kids ∧ (∀ s, s ∈ kids ↔ ∃ pc, pc ∈ platform ∧ platform_only nvr pc = true ∧ jget "id" pc = Some (JStr s))).
  { clear Hn Hnn. revert pids Hp Hpn. induction platform as [|pc r IH]; intros pids Hp Hpn.
    - exists []. split; [done|]. split; [constructor|]. intros s. split; [intros H; by apply elem_of_nil in H|].
      intros (pc & H & _). by apply elem_of_nil in H.
    - destruct pids as [|s0 pids]; [done|]. injection Hp as Hs Hp.
      change (jget "id" <$> r = (λ s, Some (JStr s)) <$> pids) in Hp. apply NoDup_cons in Hpn as [Hs0 Hpn].
      destruct (IH pids Hp Hpn) as (kids & Hk & Hkn & Hks). unfold filter_where in *. rewrite filter_cons.
      destruct (decide _) as [Hd|Hd]; [apply Is_true_true in Hd|apply Is_true_false in Hd].
      + exists (s0 :: kids). rewrite !fmap_cons, Hk, Hs. split; [done|]. split.
        * constructor; [|done]. intros (pc' & Hin & _ & Hid)%Hks. destruct Hs0.
          assert (Hin' : Some (JStr s0) ∈ (λ s, Some (JStr s)) <$> pids).
          { rewrite <- Hp, <- Hid. apply list_elem_of_fmap. eauto. }
          apply list_elem_of_fmap in Hin' as (y & [= ->] & Hy). done.
        * intros s. rewrite elem_of_cons, Hks. split.
          -- intros [->|(pc' & ? & ?)]; [exists pc; split; [by left|done]|exists pc'; split; [by right|done]].
          -- intros (pc' & [->|Hin]%elem_of_cons & H1 & H2); [left; congruence|right; eauto].
      + exists kids. split; [done|]. split; [done|]. intros s. rewrite Hks. split.
        * intros (pc' & ? & ?). exists pc'. split; [by right|done].
        * intros (pc' & [->|Hin]%elem_of_cons & H1 & H2); [congruence|eauto]. }
  destruct Hk as (kids & Hk & Hkn & Hks). exists (nids ++ kids)%list. split; [split|split].
  - unfold merge_cameras. rewrite !fmap_app, Hk. f_equal. rewrite <- Hn, <- list_fmap_compose.
    apply list_fmap_ext. intros i c _. apply merge_one_id.
  - apply NoDup_app. split; [done|]. split; [|done]. intros s Hs (pc & _ & Ho & Hid)%Hks.
    unfold platform_only in Ho. apply andb_true_iff in Ho as [Ho _]. apply negb_true_iff in Ho.
    rewrite <- not_true_iff_false in Ho. apply Ho, existsb_exists.
    assert (Hin : Some (JStr s) ∈ jget "id" <$> nvr) by (rewrite Hn; apply list_elem_of_fmap; eauto).
    apply list_elem_of_fmap in Hin as (c & Hc & Hin). exists c. split; [by apply list_elem_of_In|].
    rewrite Hid. by apply same_value_str.
  - by eexists.
  - intros s. by rewrite elem_of_app, Hks.
Qed.

(** ** Properties *)

(** The master camera list makes two requests and resolves on any network
    (unless a list has a null entry), a list that cannot be read counting as empty.
    Every NVR camera is listed once, in order, under its own id; every platform
    camera is listed unchanged or belongs, by id or by address, to a listed NVR
    camera.  With distinct ids in each list no id is listed twice, and an NVR camera
    shows the site its own platform record assigns it to, unless another record has
    its address. *)
Theorem master_cameras_exact b l :
  let start1 := (l ++ [EFetch (registry_get "/api/cameras")])%list in
  let nvr := list_reply (br_net b l (registry_get "/api/cameras")) in
  let platform := list_reply (br_net b start1 (registry_get "/api/v1/cameras")) in
  existsb is_null platform = false → existsb is_null nvr = false →
  ∃ merged,
    q_fn useMasterCameras b l = ((start1 ++ [EFetch (registry_get "/api/v1/cameras")])%list, Ok merged) ∧
    jget "id" <$> take (length nvr) merged = jget "id" <$> nvr ∧
    (∀ pc, pc ∈ platform → pc ∈ merged ∨ ∃ c, c ∈ nvr ∧
       (same_value (jget "id" c) (jget "id" pc) = true ∨
        same_value (jget "onvif_address" c) (jget "onvif_address" pc) = true)) ∧
    (∀ nids pids, distinct_ids nvr nids → distinct_ids platform pids →
       ∃ ids, distinct_ids merged ids ∧ nids `prefix_of` ids) ∧
    (∀ i c pc pids s, nvr !! i = Some c → pc ∈ platform → distinct_ids platform pids →
       jget "id" c = Some (JStr s) → jget "id" pc = Some (JStr s) →
       (∀ q, q ∈ platform → truthy_o (jget "onvif_address" q) = true →
          same_value (jget "onvif_address" q) (jget "onvif_address" c) = true → q = pc) →
       jget "site_id" <$> merged !! i = Some (Some (or_default (jget "site_id" pc) JNull))).
Proof.
  intros start1 nvr platform Hp Hn. exists (merge_cameras nvr platform). split_and!.
  - cbn [q_fn useMasterCameras]. unfold master_cameras.
    rewrite (bind_ok _ _ _ _ _ _ (camera_list_total "/api/cameras" b l)).
    fold start1. rewrite (bind_ok _ _ _ _ _ _ (camera_list_total "/api/v1/cameras" b start1)).
    fold nvr platform. by rewrite Hp, Hn.
  - unfold merge_cameras. rewrite take_app_length' by by rewrite length_fmap.
    rewrite <- list_fmap_compose. apply list_fmap_ext. intros i c _. apply merge_one_id.
  - intros pc Hpc. destruct (platform_only nvr pc) eqn:E.
    + left. unfold merge_cameras. apply elem_of_app. right. by apply elem_of_filter_where.
    + right. unfold platform_only in E. apply andb_false_iff in E as [E|E]; apply negb_false_iff in E.
      * apply existsb_exists in E as (c & Hc & Heq). exists c. split; [by apply list_elem_of_In|by left].
      * apply andb_true_iff in E as [_ E]. apply existsb_exists in E as (c & Hc & Heq).
        apply andb_true_iff in Heq as [_ Heq]. exists c. split; [by apply list_elem_of_In|by right].
  - intros nids pids H1 H2. destruct (merge_ids nvr platform nids pids H1 H2) as (ids & ? & ? & _). eauto.
  - intros i c pc pids s Hi Hpc Hd Hid Hpid Haddr. unfold merge_cameras.
    rewrite lookup_app_l by (rewrite length_fmap; by eapply lookup_lt_Some).
    rewrite list_lookup_fmap, Hi. cbn [fmap option_fmap option_map]. f_equal.
    rewrite merge_one_prop by done.
    by rewrite (match_by_id platform pids c pc s) by done.
Qed.

Definition registry_browser : Browser :=
  mkBrowser (λ _ r, Some (mkResponse 200 "OK" None
    (Some (JArr (if String.eqb (rq_url r) "/api/cameras"
                 then [JObj [("id", JStr "a"); ("onvif_address", JStr "10.0.0.1")]]
                 else [JObj [("id", JStr "a"); ("site_id", JStr "site-1")];
                       JObj [("id", JStr "z"); ("site_id", JStr "site-2")]]))) None))
    (λ _, EmptyString) (λ _ _, None) true true.

Lemma master_cameras_exact_witness :
  ∃ merged, (q_fn useMasterCameras registry_browser []).2 = Ok merged ∧
    jget "site_id" <$> merged !! 0%nat = Some (Some (JStr "site-1")).
Proof.
  destruct (master_cameras_exact registry_browser [] eq_refl eq_refl) as (merged & H1 & _ & _ & _ & H5).
  exists merged. split; [by rewrite H1|].
  apply (H5 0%nat (JObj [("id", JStr "a"); ("onvif_address", JStr "10.0.0.1")])
    (JObj [("id", JStr "a"); ("site_id", JStr "site-1")]) ["a"; "z"] "a").
  - reflexivity.
  - by left.
  - split; [reflexivity|]. repeat constructor; set_solver.
  - reflexivity.
  - reflexivity.
  - intros q Hq Ht. apply elem_of_cons in Hq as [->|Hq]; [discriminate|].
    apply elem_of_cons in Hq as [->|Hq]; [discriminate|]. by apply elem_of_nil in Hq.
Defined.

(** Creating and deleting a camera of the registry use a bare [fetch] without
    the CSRF header.  In a session the backend rejects both, whatever the cookie
    holds: no such request ever reaches a handler.  The deletion nevertheless
    resolves, so its success handler runs and refreshes the lists; the creation
    rejects with an unreadable body instead of the server's message. *)
Theorem registry_mutations_blocked b token handler l cameraId data :
  br_net b = backend token handler →
  handled token (EFetch (delete_camera_request cameraId)) = false ∧
  useDeleteCamera cameraId b l =
    ((l ++ [EFetch (delete_camera_request cameraId)])%list,
     Ok (tt, [key1 "master-cameras"; key1 "sites"])) ∧
  handled token (EFetch (create_camera_request data)) = false ∧
  useCreateCamera data b l = ((l ++ [EFetch (create_camera_request data)])%list, Err XBody).
Proof.
  intros Hnet.
  assert (H1 : csrf_passes token (delete_camera_request cameraId) = false)
    by (unfold csrf_passes; simpl; by destruct (truthy_str token)).
  assert (H2 : csrf_passes token (create_camera_request data) = false)
    by (unfold csrf_passes; simpl; by destruct (truthy_str token)).
  assert (N1 : backend token handler l (delete_camera_request cameraId) = Some forbidden).
  { unfold backend. rewrite H1. by destruct (String.eqb_spec (rq_url (delete_camera_request cameraId)) (rq_url csrf_request)). }
  assert (N2 : backend token handler l (create_camera_request data) = Some forbidden)
    by (unfold backend; by rewrite H2).
  split_and!.
  - unfold handled. by rewrite H1, andb_false_r.
  - unfold useDeleteCamera, mutate, fetch, mbind, M_bind. by rewrite Hnet, N1.
  - unfold handled. by rewrite H2, andb_false_r.
  - unfold useCreateCamera, mutate, fetch, mbind, M_bind. by rewrite Hnet, N2.
Qed.

Lemma registry_mutations_blocked_witness :
  handled "tok" (EFetch (delete_camera_request "cam-1")) = false.
Proof.
  destruct (registry_mutations_blocked (session_browser "tok" (λ _, "ironsight_csrf=tok") (λ _ _, None))
    "tok" (λ _ _, None) [] "cam-1" JNull eq_refl) as (H & _).
  exact H.
Defined.
