(* ===== verification/Timeline.v ===== *)
(** * The playback timeline ([components/Timeline.tsx])

    The zoom levels, the tick ruler, the event markers and coverage bars, and the
    ways to seek: clicking the track, scrubbing, jumping, skipping to an event.
    Times are epoch milliseconds; dates of the API are given parsed.  Positions are
    percentages in exact arithmetic, screen coordinates whole pixels. *)

From S2P Require Import Prelude Types.
From Stdlib Require Import QArith Qfield Lqa Qround.
#[local] Open Scope string_scope.
#[local] Open Scope Z_scope.

(** ** Zoom *)

Record ZoomLevel := mkZoom { zl_ms : Z; zl_label : string }.

Definition ZOOM_LEVELS : list ZoomLevel :=
  [mkZoom (15 * 1000) "15s"; mkZoom (30 * 1000) "30s"; mkZoom (60 * 1000) "1m";
   mkZoom (2 * 60 * 1000) "2m"; mkZoom (5 * 60 * 1000) "5m"; mkZoom (15 * 60 * 1000) "15m";
   mkZoom (30 * 60 * 1000) "30m"; mkZoom (60 * 60 * 1000) "1h"; mkZoom (2 * 60 * 60 * 1000) "2h";
   mkZoom (4 * 60 * 60 * 1000) "4h"; mkZoom (8 * 60 * 60 * 1000) "8h";
   mkZoom (24 * 60 * 60 * 1000) "24h"].

Definition DEFAULT_ZOOM_INDEX : Z := 7.

Definition SNAP_MS (windowMs : Z) : Z := if windowMs <=? 2 * 60 * 1000 then 250 else 1000.

Definition zoomIn (prev : Z) : Z := Z.max 0 (prev - 1).
Definition zoomOut (prev : Z) : Z := Z.min (Z.of_nat (length ZOOM_LEVELS) - 1) (prev + 1).
Definition handleWheel (deltaY : Z) (prev : Z) : Z := if deltaY <? 0 then zoomIn prev else zoomOut prev.

(** [ZOOM_LEVELS[zoomIndex].ms] *)
Definition window_of (zoomIndex : Z) : option Z := zl_ms <$> ZOOM_LEVELS !! Z.to_nat zoomIndex.

Definition startTime (currentTime windowMs : Z) : Z := currentTime - windowMs / 2.
Definition endTime (currentTime windowMs : Z) : Z := currentTime + windowMs / 2.

(** [((t - winStart) / windowMs) * 100] *)
Definition pos_of (winStart windowMs t : Z) : Q := (inject_Z (t - winStart) / inject_Z windowMs * 100)%Q.

(** ** The tick ruler *)

Record Step := mkStep { st_major : Z; st_minor : Z }.

Definition STEPS : list Step :=
  [mkStep 5000 1000; mkStep 10000 5000; mkStep 30000 10000; mkStep 60000 15000;
   mkStep (5 * 60000) 60000; mkStep (10 * 60000) (2 * 60000); mkStep (30 * 60000) (5 * 60000);
   mkStep (60 * 60000) (15 * 60000); mkStep (2 * 60 * 60000) (30 * 60000);
   mkStep (6 * 60 * 60000) (60 * 60000)].

Definition targetMajors : Z := 7.

(** The first step with [windowMs / major <= targetMajors], or the last one. *)
Definition chosen (windowMs : Z) : Step :=
  default (mkStep (6 * 60 * 60000) (60 * 60000))
    (find_where (λ s, windowMs <=? targetMajors * st_major s) STEPS).

Record Tick := mkTick { tk_pos : Q; tk_major : bool; tk_label : string }.

Definition maxTicks : nat := 400.

(** [Math.ceil(a / b) * b] *)
Definition ceil_to (a b : Z) : Z := - ((- a) / b) * b.

Section ruler.
(** The locale's label of a time for a major interval. *)
Context (formatTick : Z → Z → string).

(** The loop; [count] goes up to [maxTicks]. *)
Fixpoint ticks_from (fuel : nat) (winStart windowMs : Z) (c : Step) (t : Z) : list Tick :=
  match fuel with
  | O => []
  | S fuel' =>
      if t <=? winStart + windowMs then
        let pos := pos_of winStart windowMs t in
        let rest := ticks_from fuel' winStart windowMs c (t + st_minor c) in
        if negb (Qle_bool 0 pos) || negb (Qle_bool pos 100) then rest
        else
          let isMajor := t mod st_major c =? 0 in
          mkTick pos isMajor (if isMajor then formatTick t (st_major c) else EmptyString) :: rest
      else []
  end.

Definition ticks (currentTime windowMs : Z) : list Tick :=
  let winStart := startTime currentTime windowMs in
  let c := chosen windowMs in
  ticks_from maxTicks winStart windowMs c (ceil_to winStart (st_minor c)).
End ruler.

(** ** Markers and coverage *)

(** A bucket with its time parsed and the entries of its counts. *)
Record TimelineBucket := mkBucket {
  tb_time : Z;
  tb_counts : list (string * Z);
  tb_total : Z
}.

Record Marker := mkMarker {
  mk_pos : Q;
  mk_bucketMs : Z;
  mk_height : Q;
  mk_type : string;
  mk_count : Z;
  mk_counts : list (string * Z)
}.

Definition active_counts (filters : string → bool) (b : TimelineBucket) : list (string * Z) :=
  filter_where (λ e, filters e.1) (tb_counts b).

Definition sum_counts (l : list (string * Z)) : Z := foldr (λ e s, s + e.2) 0 l.

Definition max_total (buckets : list TimelineBucket) : Z := foldr (λ b m, Z.max (tb_total b) m) 1 buckets.

Definition js_max (a b : Q) : Q := if Qle_bool a b then b else a.

(** The sort is in place, so the tooltip lists the counts in descending order. *)
Definition marker_of (filters : string → bool) (winStart windowMs maxTotal : Z) (b : TimelineBucket) : Marker :=
  let active := active_counts filters b in
  let sorted := sort_by (λ a b, b.2 - a.2 <=? 0) active in
  mkMarker (pos_of winStart windowMs (tb_time b)) (tb_time b)
    (js_max 8 (inject_Z (tb_total b) / inject_Z maxTotal * 18)%Q)
    (match sorted with
     | e :: _ => if truthy_str e.1 then e.1 else "other"
     | [] => "other"
     end)
    (sum_counts active) sorted.

Definition markers (filters : string → bool) (currentTime windowMs : Z) (buckets : list TimelineBucket) :
  list Marker :=
  filter_where (λ m, Qle_bool 0 (mk_pos m) && Qle_bool (mk_pos m) 100 && (0 <? mk_count m))
    (marker_of filters (startTime currentTime windowMs) windowMs (max_total buckets) <$>
     filter_where (λ b, existsb (λ e, filters e.1) (tb_counts b)) buckets).

Record SegmentCoverage := mkCoverage { sc_start : Z; sc_end : Z; sc_has_audio : bool }.
Record CoverageBar := mkBar { cb_left : Q; cb_width : Q; cb_hasAudio : bool }.

Definition coverageBars (currentTime windowMs : Z) (spans : list SegmentCoverage) : list CoverageBar :=
  let winStart := startTime currentTime windowMs in
  let winEnd := endTime currentTime windowMs in
  omap (λ span,
    let sMs := Z.max (sc_start span) winStart in
    let eMs := Z.min (sc_end span) winEnd in
    if eMs <=? sMs then None
    else Some (mkBar (pos_of winStart windowMs sMs)
                     (inject_Z (eMs - sMs) / inject_Z windowMs * 100)%Q (sc_has_audio span))) spans.

(** ** Seeking *)

(** What a control asks of the page. *)
Inductive Command := Seek (ms : Z) | GoLive.

(** A click at [x] pixels from the left edge of a track [width] pixels wide;
    [Date] drops the fraction of a millisecond. *)
Definition trunc_div (n d : Z) : Z := Z.quot n d.

Definition track_seek (currentTime windowMs x width : Z) : Z :=
  trunc_div (startTime currentTime windowMs * width + x * windowMs) width.

(** [Math.round(rawMs / snap) * snap] for a drag of [deltaX] pixels. *)
Definition pan_to (currentTime windowMs deltaX width : Z) : Z :=
  let snap := SNAP_MS windowMs in
  round_div (currentTime * width + deltaX * windowMs) (width * snap) * snap.

Definition jumpBack (currentTime minutes : Z) : Command := Seek (currentTime - minutes * 60 * 1000).

Definition jumpForward (currentTime now minutes : Z) : Command :=
  let newTime := currentTime + minutes * 60 * 1000 in
  if now <=? newTime then GoLive else Seek newTime.

Definition skipSeconds (currentTime now seconds : Z) : Command :=
  let newTime := currentTime + seconds * 1000 in
  if (0 <? seconds) && (now <=? newTime) then GoLive else Seek newTime.

Definition seekToMarker (m : Marker) : Command := Seek (mk_bucketMs m).

(** The events by their parsed times, as the panel has them: newest first. *)
Definition skipToPrevEvent (currentTime : Z) (events : list Z) : Command :=
  match find_where (λ t, t <? currentTime - 1000) events with
  | Some t => Seek t
  | None => jumpBack currentTime 60
  end.

(** The loop runs from the end of the array. *)
Definition skipToNextEvent (currentTime now : Z) (events : list Z) : Command :=
  match find_where (λ t, currentTime + 1000 <? t) (reverse events) with
  | Some t => Seek t
  | None => jumpForward currentTime now 60
  end.

(** *** Scrubbing *)

(** The refs and state of a drag: [sc_lastX] is [lastXRef], [sc_acc] and
    [sc_raf] the variables of the mouse-down closure. *)
Record Scrub := mkScrub {
  sb_time : Z;
  sb_dragging : bool;
  sb_scrubbing : bool;
  sb_lastX : Z;
  sb_acc : Z;
  sb_raf : bool
}.

Inductive ScrubEvent :=
| SDown (x : Z)
| SMove (x : Z)
| SFrame
| SUp
| SClick (x : Z).

Section scrub.
Context (windowMs left width : Z).

(** [flushDelta]; the page answers [onSeek] by showing that time. *)
Definition flushDelta (s : Scrub) : Scrub :=
  if sb_acc s =? 0 then s
  else mkScrub (pan_to (sb_time s) windowMs (sb_acc s) width) (sb_dragging s) (sb_scrubbing s)
         (sb_lastX s) 0 (sb_raf s).

Definition scrub_step (s : Scrub) (e : ScrubEvent) : Scrub :=
  match e with
  | SDown x => mkScrub (sb_time s) true true x 0 false
  | SMove x =>
      if negb (sb_dragging s) then s
      else mkScrub (sb_time s) true (sb_scrubbing s) x (sb_acc s + (sb_lastX s - x)) true
  | SFrame =>
      if sb_raf s then
        let s' := flushDelta s in
        mkScrub (sb_time s') (sb_dragging s') (sb_scrubbing s') (sb_lastX s') (sb_acc s') false
      else s
  | SUp =>
      if sb_dragging s then
        flushDelta (mkScrub (sb_time s) false false (sb_lastX s) (sb_acc s) false)
      else s
  | SClick x =>
      if sb_dragging s then s
      else mkScrub (track_seek (sb_time s) windowMs (x - left) width) false (sb_scrubbing s)
             (sb_lastX s) (sb_acc s) (sb_raf s)
  end.

Definition scrub_run : Scrub → list ScrubEvent → Scrub := foldl scrub_step.
End scrub.

Definition at_rest (t : Z) : Scrub := mkScrub t false false 0 0 false.

(** ** Lemmas: the ruler *)

Lemma ceil_to_spec a b : 0 < b → a ≤ ceil_to a b < a + b ∧ (b | ceil_to a b).
Proof. unfold ceil_to. intros Hb. split; [zdiv|]. exists (- (- a / b)). lia. Qed.

Lemma inject_le a b : (inject_Z a <= inject_Z b)%Q ↔ a ≤ b.
Proof. by rewrite <- Zle_Qle. Qed.

Lemma inject_lt a b : (inject_Z a < inject_Z b)%Q ↔ a < b.
Proof. by rewrite <- Zlt_Qlt. Qed.

(** Comparing a quotient of integers with an integer. *)
Lemma quot_le_l n d k : 0 < d → (inject_Z k <= inject_Z n / inject_Z d)%Q ↔ k * d ≤ n.
Proof.
  intros Hd. assert (HdQ : (0 < inject_Z d)%Q) by by apply (inject_lt 0).
  rewrite <- inject_le, inject_Z_mult. split; intros H.
  - assert (E : (inject_Z n == inject_Z n / inject_Z d * inject_Z d)%Q) by (field; lra).
    rewrite E. apply Qmult_le_compat_r; lra.
  - by apply Qle_shift_div_l.
Qed.

Lemma quot_le_r n d k : 0 < d → (inject_Z n / inject_Z d <= inject_Z k)%Q ↔ n ≤ k * d.
Proof.
  intros Hd. assert (HdQ : (0 < inject_Z d)%Q) by by apply (inject_lt 0).
  rewrite <- inject_le, inject_Z_mult. split; intros H.
  - assert (E : (inject_Z n == inject_Z n / inject_Z d * inject_Z d)%Q) by (field; lra).
    rewrite E. apply Qmult_le_compat_r; lra.
  - by apply Qle_shift_div_r.
Qed.

Lemma pos_of_quot winStart w t :
  0 < w → (pos_of winStart w t == inject_Z ((t - winStart) * 100) / inject_Z w)%Q.
Proof.
  intros Hw. assert (0 < inject_Z w)%Q by by apply (inject_lt 0).
  unfold pos_of. rewrite inject_Z_mult. change (inject_Z 100) with 100%Q. field. lra.
Qed.

Lemma pos_of_range winStart w t :
  0 < w → (0 <= pos_of winStart w t)%Q ∧ (pos_of winStart w t <= 100)%Q ↔ winStart ≤ t ≤ winStart + w.
Proof.
  intros Hw. rewrite pos_of_quot by done. rewrite (quot_le_l _ w 0), (quot_le_r _ w 100) by done. lia.
Qed.

(** The times the loop visits. *)
Fixpoint times_from (fuel : nat) (winEnd minor t : Z) : list Z :=
  match fuel with
  | O => []
  | S fuel' => if t <=? winEnd then t :: times_from fuel' winEnd minor (t + minor) else []
  end.

Definition tick_at (formatTick : Z → Z → string) (winStart w : Z) (c : Step) (t : Z) : Tick :=
  mkTick (pos_of winStart w t) (t mod st_major c =? 0)
    (if t mod st_major c =? 0 then formatTick t (st_major c) else EmptyString).

Lemma ticks_from_times fmt fuel winStart w c t :
  0 < w → 0 < st_minor c → winStart ≤ t →
  ticks_from fmt fuel winStart w c t =
  tick_at fmt winStart w c <$> times_from fuel (winStart + w) (st_minor c) t.
Proof.
  intros Hw Hm. revert t. induction fuel as [|fuel IH]; intros t Ht; [done|]. simpl.
  destruct (Z.leb_spec t (winStart + w)) as [Hle|]; [|done].
  destruct (proj2 (pos_of_range winStart w t Hw) ltac:(lia)) as [H1 H2].
  rewrite (proj2 (Qle_bool_iff _ _) H1), (proj2 (Qle_bool_iff _ _) H2). simpl.
  rewrite IH by lia. done.
Qed.

Lemma elem_of_times fuel winEnd minor t x :
  0 < minor → winEnd < t + Z.of_nat fuel * minor →
  x ∈ times_from fuel winEnd minor t ↔ (∃ k, 0 ≤ k ∧ x = t + k * minor) ∧ x ≤ winEnd.
Proof.
  intros Hm. revert t. induction fuel as [|fuel IH]; intros t Hf; simpl.
  - split; [intros H; by apply elem_of_nil in H|]. intros [(k & Hk & ->) Hx]. nia.
  - destruct (Z.leb_spec t winEnd) as [Hle|Hgt].
    + rewrite elem_of_cons, IH by lia. split.
      * intros [->|[(k & Hk & ->) Hx]]; [split; [exists 0; lia|done]|]. split; [exists (k + 1); lia|done].
      * intros [(k & Hk & ->) Hx]. destruct (decide (k = 0)) as [->|]; [left; lia|].
        right. split; [exists (k - 1); lia|done].
    + split; [intros H; by apply elem_of_nil in H|]. intros [(k & Hk & ->) Hx]. nia.
Qed.

Lemma times_sorted fuel winEnd minor t :
  0 < minor → StronglySorted Z.lt (times_from fuel winEnd minor t) ∧
              Forall (λ x, t ≤ x) (times_from fuel winEnd minor t).
Proof.
  intros Hm. revert t. induction fuel as [|fuel IH]; intros t; simpl; [by repeat constructor|].
  destruct (t <=? winEnd); [|by repeat constructor]. destruct (IH (t + minor)) as [H1 H2]. split.
  - constructor; [done|]. eapply Forall_impl; [exact H2|]. simpl. lia.
  - constructor; [lia|]. eapply Forall_impl; [exact H2|]. simpl. lia.
Qed.

Lemma sorted_lt_NoDup (l : list Z) : StronglySorted Z.lt l → NoDup l.
Proof.
  induction 1 as [|x l Hl IH Hx]; constructor; [|done]. intros Hin. rewrite Forall_forall in Hx.
  specialize (Hx x Hin). lia.
Qed.

Lemma filter_where_fmap {A B} (p : B → bool) (f : A → B) l :
  length (filter_where p (f <$> l)) = length (filter_where (λ x, p (f x)) l).
Proof.
  induction l as [|x l IH]; [done|]. rewrite fmap_cons, !filter_where_cons.
  destruct (p (f x)); simpl; by rewrite IH.
Qed.

(** What the table of steps guarantees for every zoom level. *)
Lemma zoom_step i w :
  window_of i = Some w →
  0 < w ∧ w = 2 * (w / 2) ∧ 0 < st_minor (chosen w) ∧ w ≤ 30 * st_minor (chosen w) ∧
  w ≤ 7 * st_major (chosen w) ∧ (st_minor (chosen w) | st_major (chosen w)) ∧ 0 < st_major (chosen w).
Proof.
  unfold window_of. intros H. apply fmap_Some in H as (z & Hz%list_elem_of_lookup_2 & ->).
  assert (Hall : Forall (λ z, bool_decide (0 < zl_ms z ∧ zl_ms z = 2 * (zl_ms z / 2) ∧
    0 < st_minor (chosen (zl_ms z)) ∧ zl_ms z ≤ 30 * st_minor (chosen (zl_ms z)) ∧
    zl_ms z ≤ 7 * st_major (chosen (zl_ms z)) ∧
    st_major (chosen (zl_ms z)) mod st_minor (chosen (zl_ms z)) = 0 ∧
    0 < st_major (chosen (zl_ms z))) = true) ZOOM_LEVELS) by (repeat constructor).
  rewrite Forall_forall in Hall. specialize (Hall z Hz). apply bool_decide_eq_true in Hall.
  destruct Hall as (? & ? & ? & ? & ? & Hmod & ?). split_and!; try done.
  apply Z.mod_divide; [lia|done].
Qed.

(** Multiples of [d] in a window no longer than [n * d]. *)
Lemma multiples_bound (l : list Z) a w d n :
  0 < d → w ≤ Z.of_nat n * d → NoDup l → (∀ x, x ∈ l → (d | x) ∧ a ≤ x ≤ a + w) → (length l ≤ S n)%nat.
Proof.
  intros Hd Hw Hnd Hl. set (f := ceil_to a d). destruct (ceil_to_spec a d Hd) as [Hf [k Hk]]. fold f in Hf, Hk.
  transitivity (length ((λ j, f + Z.of_nat j * d) <$> seq 0 (S n))); [|by rewrite length_fmap, length_seq].
  apply NoDup_incl_length; [by apply NoDup_ListNoDup|]. intros x Hx%list_elem_of_In.
  destruct (Hl x Hx) as [[q ->] Hr]. apply list_elem_of_In, list_elem_of_fmap.
  exists (Z.to_nat (q - k)). split; [rewrite Z2Nat.id; nia|].
  apply elem_of_seq. split; [lia|]. nia.
Qed.

(** ** Lemmas: scrubbing *)

Lemma round_div_error n d : 0 < d → - d ≤ 2 * d * round_div n d - 2 * n ≤ d.
Proof. intros. unfold round_div. zdiv. Qed.

Lemma SNAP_pos w : 0 < SNAP_MS w.
Proof. unfold SNAP_MS. destruct (_ <=? _); lia. Qed.

(** A flush moves the time by the dragged distance up to half a snap step. *)
Lemma pan_error t w dx width :
  0 < width →
  Z.abs (2 * (width * (pan_to t w dx width - t) - dx * w)) ≤ SNAP_MS w * width.
Proof.
  intros Hw. unfold pan_to. pose proof (SNAP_pos w) as Hs.
  pose proof (round_div_error (t * width + dx * w) (width * SNAP_MS w) ltac:(nia)) as H.
  set (r := round_div _ _) in *. set (s := SNAP_MS w) in *. nia.
Qed.

(** A flush of less than half a snap step stays where it is. *)
Lemma pan_stuck k w dx width :
  0 < width → 2 * Z.abs (dx * w) < SNAP_MS w * width →
  pan_to (k * SNAP_MS w) w dx width = k * SNAP_MS w.
Proof.
  intros Hw Hd. unfold pan_to. f_equal. set (s := SNAP_MS w) in *. unfold round_div.
  symmetry. apply (Z.div_unique _ _ _ (2 * (dx * w) + width * s)); nia.
Qed.

(** The invariant of a drag from [x0] at time [t0]: the time accounts for the
    flushed distance up to half a step per flush. *)
Definition tracks (w width t0 x0 : Z) (n : nat) (s : Scrub) : Prop :=
  Z.abs (2 * (width * (sb_time s - t0) - (x0 - sb_lastX s - sb_acc s) * w)) ≤ Z.of_nat n * (SNAP_MS w * width).

Lemma tracks_flush w width t0 x0 n s :
  0 < width → tracks w width t0 x0 n s → tracks w width t0 x0 (S n) (flushDelta w width s).
Proof.
  unfold tracks, flushDelta. intros Hw H. pose proof (SNAP_pos w).
  destruct (Z.eqb_spec (sb_acc s) 0) as [E|E].
  - rewrite E in *. nia.
  - simpl. pose proof (pan_error (sb_time s) w (sb_acc s) width Hw). nia.
Qed.

Definition is_frame (e : ScrubEvent) : bool := match e with SFrame => true | _ => false end.
Definition is_drag (e : ScrubEvent) : bool := match e with SMove _ | SFrame => true | _ => false end.
Definition frames (es : list ScrubEvent) : nat := length (filter_where is_frame es).

Lemma frames_cons e es : frames (e :: es) = (if is_frame e then S (frames es) else frames es).
Proof.
  unfold frames, filter_where. rewrite filter_cons.
  destruct (decide _) as [H|H]; destruct (is_frame e); done.
Qed.

Lemma drag_tracks left w width t0 x0 n s es :
  0 < width → sb_dragging s = true → Forall (λ e, is_drag e = true) es →
  tracks w width t0 x0 n s →
  tracks w width t0 x0 (n + frames es) (scrub_run w left width s es) ∧
  sb_dragging (scrub_run w left width s es) = true.
Proof.
  intros Hw. revert n s. induction es as [|e es IH]; intros n s Hd Hes Ht.
  - unfold frames. simpl. by rewrite Nat.add_0_r.
  - apply Forall_cons in Hes as [He Hes]. rewrite frames_cons. unfold scrub_run in *. cbn [foldl].
    destruct e as [x|x| | |x]; try done; cbn [scrub_step is_frame].
    + rewrite Hd. cbn [negb]. apply IH; [done|done|]. unfold tracks in *. simpl in *. nia.
    + destruct (sb_raf s) eqn:Er.
      * rewrite <- Nat.add_succ_comm. apply IH; [|done|].
        -- unfold flushDelta. by destruct (_ =? 0).
        -- pose proof (tracks_flush w width t0 x0 n s Hw Ht) as H. unfold tracks in *. exact H.
      * rewrite <- Nat.add_succ_comm. apply IH; [done|done|].
        unfold tracks in *. pose proof (SNAP_pos w). nia.
Qed.

(** Every step of the pointer is drawn before the next one. *)
Definition frame_by_frame (xs : list Z) : list ScrubEvent := mjoin ((λ x, [SMove x; SFrame]) <$> xs).

Fixpoint slow (w width last : Z) (xs : list Z) : Prop :=
  match xs with
  | [] => True
  | x :: r => 2 * Z.abs ((last - x) * w) < SNAP_MS w * width ∧ slow w width x r
  end.

Lemma slow_stuck left w width k s xs :
  0 < width → sb_dragging s = true → sb_acc s = 0 → sb_time s = k * SNAP_MS w → slow w width (sb_lastX s) xs →
  let s' := scrub_run w left width s (frame_by_frame xs) in
  sb_time s' = k * SNAP_MS w ∧ sb_acc s' = 0 ∧ sb_dragging s' = true.
Proof.
  intros Hw. revert s. induction xs as [|x xs IH]; intros s Hd Ha Ht Hs; [done|].
  destruct Hs as [H1 H2]. unfold frame_by_frame, scrub_run in *. rewrite fmap_cons. cbn [mjoin list_join app].
  cbn [foldl]. set (s1 := scrub_step _ _ _ (scrub_step _ _ _ s (SMove x)) SFrame).
  assert (Hs1 : sb_dragging s1 = true ∧ sb_acc s1 = 0 ∧ sb_time s1 = k * SNAP_MS w ∧ sb_lastX s1 = x).
  { unfold s1. cbn [scrub_step]. rewrite Hd. cbn [negb sb_raf]. unfold flushDelta. cbn [sb_acc].
    rewrite Ha, Z.add_0_l. destruct (Z.eqb_spec (sb_lastX s - x) 0) as [E|E]; [by split_and!|].
    cbn [sb_time sb_dragging sb_acc sb_lastX]. split_and!; try done. rewrite Ht. by apply pan_stuck. }
  destruct Hs1 as (Hd1 & Ha1 & Ht1 & Hx1). apply IH; [done|done|done|]. by rewrite Hx1.
Qed.

(** A click moves the time by the distance of the pointer from the centre. *)
Lemma track_seek_centre t w x width :
  0 < width → w = 2 * (w / 2) → 0 ≤ (t - w / 2) * width + x * w →
  0 ≤ 2 * t * width + (2 * x - width) * w - 2 * width * track_seek t w x width < 2 * width.
Proof.
  intros Hw He Hp. unfold track_seek, trunc_div, startTime.
  rewrite Z.quot_div_nonneg by lia. set (q := _ / width).
  assert (H : 0 ≤ (t - w / 2) * width + x * w - width * q < width) by (unfold q; zdiv).
  nia.
Qed.

(** ** Lemmas: markers *)

Lemma max_total_ge buckets b : b ∈ buckets → tb_total b ≤ max_total buckets.
Proof.
  unfold max_total. induction buckets as [|c r IH]; intros H; [by apply elem_of_nil in H|].
  simpl. apply elem_of_cons in H as [->|H]; [lia|]. specialize (IH H). lia.
Qed.

Lemma max_total_pos buckets : 1 ≤ max_total buckets.
Proof. unfold max_total. induction buckets; simpl; lia. Qed.

Lemma marker_height b m : 0 ≤ tb_total b ≤ m → 1 ≤ m →
  (8 <= js_max 8 (inject_Z (tb_total b) / inject_Z m * 18) <= 18)%Q.
Proof.
  intros [H0 H1] Hm. assert (HmQ : (0 < inject_Z m)%Q) by (apply (inject_lt 0); lia).
  assert (E : (inject_Z (tb_total b) / inject_Z m <= 1)%Q).
  { apply (quot_le_r _ m 1); lia. }
  unfold js_max. destruct (Qle_bool 8 _) eqn:Eb.
  - apply Qle_bool_iff in Eb. split; [done|]. lra.
  - split; lra.
Qed.

(** A click at the position of an instant seeks to it. *)
Lemma click_at_pos currentTime w t x width :
  0 < w → 0 < width → 0 < startTime currentTime w →
  (pos_of (startTime currentTime w) w t == inject_Z x / inject_Z width * 100)%Q →
  track_seek currentTime w x width = t.
Proof.
  intros Hw Hwd Hpos Hx. unfold track_seek, trunc_div. set (a := startTime currentTime w) in *.
  assert (HwQ : (0 < inject_Z w)%Q) by by apply (inject_lt 0).
  assert (HdQ : (0 < inject_Z width)%Q) by by apply (inject_lt 0).
  assert (EQ : (inject_Z ((t - a) * width) == inject_Z (x * w))%Q).
  { rewrite !inject_Z_mult. unfold pos_of in Hx.
    assert (H1 : (inject_Z (t - a) == inject_Z (t - a) / inject_Z w * 100 * inject_Z w / 100)%Q)
      by (field; lra).
    rewrite H1, Hx. field. lra. }
  unfold Qeq in EQ. simpl in EQ.
  replace (a * width + x * w) with (t * width) by lia. by rewrite Z.quot_mul by lia.
Qed.

(** The sort puts a highest count first. *)
Lemma primary_max (l : list (string * Z)) e r x :
  sort_by (λ a b, b.2 - a.2 <=? 0) l = e :: r → x ∈ l → x.2 ≤ e.2.
Proof.
  intros Hs Hx. pose proof (sort_by_Sorted (λ a b : string * Z, b.2 - a.2 <=? 0) l) as H.
  rewrite Hs in H. specialize (H ltac:(intros; lia)).
  apply Sorted_StronglySorted in H; [|intros a b c; lia].
  assert (Hin : x ∈ e :: r) by (rewrite <- Hs; by apply elem_of_sort_by).
  apply elem_of_cons in Hin as [->|Hin]; [done|]. inversion H as [|? ? _ Hf]; subst.
  rewrite Forall_forall in Hf. specialize (Hf x Hin). simpl in Hf. lia.
Qed.

Lemma sorted_head_mem (l : list (string * Z)) e r :
  sort_by (λ a b, b.2 - a.2 <=? 0) l = e :: r → e ∈ l.
Proof. intros H. apply (elem_of_sort_by (λ a b : string * Z, b.2 - a.2 <=? 0)). rewrite H. by left. Qed.

(** The zoom index stays within the table. *)
Definition zoom_after (wheel : list Z) : Z := foldl (λ z d, handleWheel d z) DEFAULT_ZOOM_INDEX wheel.

Lemma zoom_after_range wheel : 0 ≤ zoom_after wheel < 12.
Proof.
  unfold zoom_after. assert (H : 0 ≤ DEFAULT_ZOOM_INDEX < 12) by (unfold DEFAULT_ZOOM_INDEX; lia).
  revert H. generalize DEFAULT_ZOOM_INDEX. induction wheel as [|d r IH]; intros z Hz; [done|].
  simpl. apply IH. unfold handleWheel, zoomIn, zoomOut. simpl. destruct (d <? 0); lia.
Qed.

Lemma zoom_after_window wheel : is_Some (window_of (zoom_after wheel)).
Proof.
  pose proof (zoom_after_range wheel). unfold window_of. apply fmap_is_Some, lookup_lt_is_Some.
  change (length ZOOM_LEVELS) with 12%nat. lia.
Qed.

(** ** Properties *)

(** At every zoom level the wheel can reach, wherever the window is, the ruler
    has exactly the multiples of its minor step inside the window, each once and
    in order, at its own position, labelled when it is a multiple of the major
    step.  There are at most 31 ticks and 8 labels, so the limit of 400 ticks
    never cuts the ruler off. *)
Theorem ruler_exact formatTick currentTime wheel :
  ∃ w times,
    window_of (zoom_after wheel) = Some w ∧
    ticks formatTick currentTime w =
      tick_at formatTick (startTime currentTime w) w (chosen w) <$> times ∧
    StronglySorted Z.lt times ∧
    (∀ t, t ∈ times ↔
       (st_minor (chosen w) | t) ∧ startTime currentTime w ≤ t ≤ endTime currentTime w) ∧
    (length times ≤ 31)%nat ∧ (length (filter_where tk_major (ticks formatTick currentTime w)) ≤ 8)%nat.
Proof.
  destruct (zoom_after_window wheel) as [w Hw]. exists w.
  destruct (zoom_step _ _ Hw) as (Hw0 & Heven & Hm & Hb & H7 & Hdiv & HM).
  set (a := startTime currentTime w). set (c := chosen w) in *.
  destruct (ceil_to_spec a (st_minor c) Hm) as [Hf [q Hq]].
  set (times := times_from maxTicks (a + w) (st_minor c) (ceil_to a (st_minor c))).
  assert (Hend : endTime currentTime w = a + w) by (unfold a, startTime, endTime; lia).
  assert (Hin : ∀ t, t ∈ times ↔ (st_minor c | t) ∧ a ≤ t ≤ a + w).
  { intros t. unfold times. rewrite elem_of_times by (unfold maxTicks; lia). split.
    - intros [(k & Hk & ->) Hx]. split; [exists (q + k); lia|nia].
    - intros [[k ->] Hx]. split; [|lia]. exists (k - q). nia. }
  destruct (times_sorted maxTicks (a + w) (st_minor c) (ceil_to a (st_minor c)) Hm) as [Hs _].
  fold times in Hs. pose proof (sorted_lt_NoDup times Hs) as Hnd.
  assert (Ht : ticks formatTick currentTime w = tick_at formatTick a w c <$> times)
    by (unfold ticks; fold a c; apply ticks_from_times; lia).
  exists times. split_and!; [done|done|done|by rewrite Hend| |].
  - apply (multiples_bound times a w (st_minor c) 30); [done|lia|done|]. intros x. by rewrite Hin.
  - rewrite Ht. transitivity (length (filter_where (λ t, t mod st_major c =? 0) times)).
    + by rewrite filter_where_fmap.
    + apply (multiples_bound _ a w (st_major c) 7); [done|lia| |].
      * by apply NoDup_filter.
      * intros x [Hx Hin']%elem_of_filter_where. apply Hin in Hin' as [_ Hr]. split; [|done].
        apply Z.eqb_eq in Hx. by apply Z.mod_divide; [lia|].
Qed.

(** Every marker lies on the track, comes from a bucket with events of an
    active type, counts exactly those, is between 8 and 18 pixels tall and has the
    type with the highest count; clicking the track where a marker is drawn seeks
    to the time of its bucket.  Coverage bars lie on the track, have a positive
    width, and show the spans' parts inside the window. *)
Theorem timeline_geometry filters currentTime wheel w buckets :
  window_of (zoom_after wheel) = Some w → (∀ b, b ∈ buckets → 0 ≤ tb_total b) →
  let winStart := startTime currentTime w in
  (∀ m, m ∈ markers filters currentTime w buckets →
     (0 <= mk_pos m <= 100)%Q ∧ (8 <= mk_height m <= 18)%Q ∧
     ∃ b, b ∈ buckets ∧ mk_bucketMs m = tb_time b ∧
       mk_count m = sum_counts (active_counts filters b) ∧ 0 < mk_count m ∧
       (∀ e, e ∈ active_counts filters b → ∃ n, e.2 ≤ n ∧
          (mk_type m = "other" ∨ (mk_type m, n) ∈ active_counts filters b)) ∧
       ∀ x width, 0 < width → 0 < winStart →
         (mk_pos m == inject_Z x / inject_Z width * 100)%Q →
         seekToMarker m = Seek (track_seek currentTime w x width)) ∧
  (∀ spans bar, bar ∈ coverageBars currentTime w spans →
     (0 <= cb_left bar)%Q ∧ (0 < cb_width bar)%Q ∧ (cb_left bar + cb_width bar <= 100)%Q ∧
     ∃ s, s ∈ spans ∧ cb_hasAudio bar = sc_has_audio s ∧
       (cb_left bar == pos_of winStart w (Z.max (sc_start s) winStart))%Q ∧
       (cb_left bar + cb_width bar == pos_of winStart w (Z.min (sc_end s) (endTime currentTime w)))%Q).
Proof.
  intros Hw Htot winStart. destruct (zoom_step _ _ Hw) as (Hw0 & Heven & _). split.
  - intros m. unfold markers. fold winStart. intros [Hp Hm]%elem_of_filter_where.
    apply list_elem_of_fmap in Hm as (b & -> & [Hact Hb]%elem_of_filter_where).
    apply andb_true_iff in Hp as [Hp Hcnt]. apply andb_true_iff in Hp as [Hp1 Hp2].
    apply Qle_bool_iff in Hp1, Hp2. apply Z.ltb_lt in Hcnt. split_and!; [done|done| | |].
    + apply marker_height; [|apply max_total_pos]. split; [by apply Htot|by apply max_total_ge].
    + apply marker_height; [|apply max_total_pos]. split; [by apply Htot|by apply max_total_ge].
    + exists b. split_and!; [done|done|done|done| |].
      * intros e He. unfold marker_of. cbn [mk_type].
        destruct (sort_by _ (active_counts filters b)) as [|p r] eqn:Es.
        { exists e.2. split; [lia|by left]. }
        exists p.2. split; [by eapply primary_max|].
        destruct (truthy_str p.1); [|by left]. right. rewrite <- surjective_pairing.
        by eapply sorted_head_mem.
      * intros x width Hwd Hpos Hx. unfold seekToMarker. f_equal.
        symmetry. by apply (click_at_pos _ _ _ _ _ Hw0 Hwd Hpos).
  - intros spans bar. unfold coverageBars. fold winStart.
    intros (s & Hs & Hbar)%list_elem_of_omap. cbv zeta in Hbar.
    assert (Hend : endTime currentTime w = winStart + w) by (unfold winStart, startTime, endTime; lia).
    destruct (Z.leb_spec (Z.min (sc_end s) (endTime currentTime w)) (Z.max (sc_start s) winStart)); [done|].
    injection Hbar as <-. cbn [cb_left cb_width cb_hasAudio].
    assert (HwQ : (0 < inject_Z w)%Q) by by apply (inject_lt 0).
    set (sMs := Z.max (sc_start s) winStart) in *. set (eMs := Z.min (sc_end s) _) in *.
    assert (Hsum : (pos_of winStart w sMs + inject_Z (eMs - sMs) / inject_Z w * 100 == pos_of winStart w eMs)%Q).
    { unfold pos_of. replace (eMs - winStart) with ((sMs - winStart) + (eMs - sMs)) by lia.
      rewrite inject_Z_plus. field. lra. }
    destruct (proj2 (pos_of_range winStart w sMs Hw0) ltac:(lia)) as [Hl _].
    destruct (proj2 (pos_of_range winStart w eMs Hw0) ltac:(lia)) as [_ Hr].
    split_and!; [done| |by rewrite Hsum|by exists s].
    assert (Hq : (0 < inject_Z (eMs - sMs))%Q) by (apply (inject_lt 0); lia).
    assert (0 < inject_Z (eMs - sMs) / inject_Z w)%Q by (apply Qlt_shift_div_l; lra). lra.
Qed.

Definition sample_buckets : list TimelineBucket := [mkBucket 99000000 [("motion", 2); ("lpr", 5)] 7].

Lemma timeline_geometry_witness :
  ∃ m, m ∈ markers (λ _, true) 100000000 3600000 sample_buckets ∧ (mk_pos m <= 100)%Q.
Proof.
  destruct (timeline_geometry (λ _, true) 100000000 [] 3600000 sample_buckets eq_refl) as [H _].
  - intros b Hb. apply list_elem_of_singleton in Hb as ->. simpl. lia.
  - eexists. split; [vm_compute; apply list_elem_of_In; left; reflexivity|].
    apply H. vm_compute. apply list_elem_of_In. left. reflexivity.
Defined.

(** Scrubbing from [x0], with any pointer moves and frames and the release,
    moves the time against the pointer by the dragged share of the window, up to
    half a snap step for every frame.  These errors are real: when every frame
    moves the pointer by less than half a snap step, the timeline does not move at
    all, however far the pointer has gone.  And the click that the browser sends
    after the release is not skipped, because the release has ended the drag: it
    seeks once more, by the distance of the pointer from the centre of the track. *)
Theorem scrub_moves left wheel w width t0 x0 :
  window_of (zoom_after wheel) = Some w → 0 < width →
  (∀ es, Forall (λ e, is_drag e = true) es →
     let s := scrub_run w left width (at_rest t0) (SDown x0 :: es ++ [SUp])%list in
     sb_dragging s = false ∧
     Z.abs (2 * (width * (sb_time s - t0) - (x0 - sb_lastX s) * w)) ≤
       Z.of_nat (S (frames es)) * (SNAP_MS w * width)) ∧
  (∀ k xs, t0 = k * SNAP_MS w → slow w width x0 xs →
     sb_time (scrub_run w left width (at_rest t0) (SDown x0 :: frame_by_frame xs ++ [SUp])%list) = t0) ∧
  (∀ es x, Forall (λ e, is_drag e = true) es →
     let s := scrub_run w left width (at_rest t0) (SDown x0 :: es ++ [SUp])%list in
     let s' := scrub_step w left width s (SClick x) in
     0 ≤ startTime (sb_time s) w * width + (x - left) * w →
     0 ≤ 2 * sb_time s * width + (2 * (x - left) - width) * w - 2 * width * sb_time s' < 2 * width).
Proof.
  intros Hw Hwd. destruct (zoom_step _ _ Hw) as (Hw0 & Heven & _). pose proof (SNAP_pos w) as Hsnap.
  assert (Hdrag : ∀ es, Forall (λ e, is_drag e = true) es →
    let s := scrub_run w left width (at_rest t0) (SDown x0 :: es ++ [SUp])%list in
    sb_dragging s = false ∧ sb_acc s = 0 ∧ tracks w width t0 x0 (S (frames es)) s).
  { intros es Hes. cbv zeta. unfold scrub_run. cbn [foldl]. rewrite foldl_app. cbn [foldl].
    set (s0 := scrub_step w left width (at_rest t0) (SDown x0)).
    destruct (drag_tracks left w width t0 x0 0 s0 es Hwd eq_refl Hes) as [Ht Hd].
    { unfold tracks. simpl. nia. }
    unfold scrub_run in Ht, Hd. set (s1 := foldl _ s0 es) in *. cbn [scrub_step]. rewrite Hd.
    pose proof (tracks_flush w width t0 x0 _ _ Hwd
      (Ht : tracks w width t0 x0 _ (mkScrub (sb_time s1) false false (sb_lastX s1) (sb_acc s1) false))) as H.
    split_and!; [| |exact H]; unfold flushDelta; simpl;
      by destruct (Z.eqb_spec (sb_acc s1) 0). }
  split_and!.
  - intros es Hes s. destruct (Hdrag es Hes) as (H1 & H2 & H3). fold s in H1, H2, H3. split; [done|].
    unfold tracks in H3. rewrite H2 in H3. by rewrite Z.sub_0_r in H3.
  - intros k xs Hk Hs. unfold scrub_run. cbn [foldl]. rewrite foldl_app. cbn [foldl].
    set (s0 := scrub_step w left width (at_rest t0) (SDown x0)).
    destruct (slow_stuck left w width k s0 xs Hwd eq_refl eq_refl Hk Hs) as (H1 & H2 & H3).
    unfold scrub_run in H1, H2, H3. set (s1 := foldl _ s0 _) in *. cbn [scrub_step]. rewrite H3.
    unfold flushDelta. cbn [sb_acc]. rewrite H2. simpl. by rewrite H1, Hk.
  - intros es x Hes s s' Hp. destruct (Hdrag es Hes) as (H1 & _ & _). fold s in H1.
    unfold s'. cbn [scrub_step]. rewrite H1. cbn [sb_time]. by apply track_seek_centre.
Qed.

(** Sixty frames of one pixel each at the 15 s zoom: the pointer has crossed sixty
    pixels and the time is unchanged. *)
Lemma scrub_moves_witness :
  sb_time (scrub_run 15000 0 1000 (at_rest 5000000)
    (SDown 500 :: frame_by_frame (Z.of_nat <$> reverse (seq 440 60)) ++ [SUp])%list) = 5000000.
Proof.
  destruct (scrub_moves 0 (replicate 7 (-1)) 15000 1000 5000000 500 eq_refl eq_refl) as (_ & H & _).
  apply (H 20000 (Z.of_nat <$> reverse (seq 440 60)) eq_refl).
  vm_compute. repeat split.
Defined.

(** With the events newest first, the next-event button seeks to the nearest
    event more than a second ahead and the previous-event button to the nearest
    one more than a second behind; without such an event they jump an hour.
    Jumping or skipping forward never seeks to a time that has not happened: it
    goes live instead. *)
Theorem skips_to_nearest currentTime now events :
  StronglySorted (λ a b, b ≤ a) events →
  (∀ t, t ∈ events → currentTime + 1000 < t →
     ∃ t', skipToNextEvent currentTime now events = Seek t' ∧ t' ∈ events ∧ currentTime + 1000 < t' ≤ t) ∧
  (∀ t, t ∈ events → t < currentTime - 1000 →
     ∃ t', skipToPrevEvent currentTime events = Seek t' ∧ t' ∈ events ∧ t ≤ t' < currentTime - 1000) ∧
  ((∀ t, t ∈ events → t ≤ currentTime + 1000) →
     skipToNextEvent currentTime now events = jumpForward currentTime now 60) ∧
  ((∀ t, t ∈ events → currentTime - 1000 ≤ t) →
     skipToPrevEvent currentTime events = Seek (currentTime - 3600000)) ∧
  (∀ n t, 0 < n → skipSeconds currentTime now n = Seek t ∨ jumpForward currentTime now n = Seek t → t < now).
Proof.
  intros Hs.
  assert (Hfirst : ∀ (R : Z → Z → Prop) p l t, StronglySorted R l → t ∈ l → p t = true →
    ∃ t', find_where p l = Some t' ∧ t' ∈ l ∧ p t' = true ∧ (t' = t ∨ R t' t)).
  { intros R p l t. induction 1 as [|x l Hl IH Hx]; intros Hin Hp; [by apply elem_of_nil in Hin|].
    rewrite find_where_cons. destruct (p x) eqn:E.
    - exists x. split_and!; [done|by left|done|]. apply elem_of_cons in Hin as [->|Hin]; [by left|].
      right. rewrite Forall_forall in Hx. by apply Hx.
    - apply elem_of_cons in Hin as [->|Hin]; [congruence|]. destruct (IH Hin Hp) as (t' & ? & ? & ? & ?).
      exists t'. split_and!; [done|by right|done|done]. }
  assert (Hrev : StronglySorted (λ a b, a ≤ b) (reverse events)).
  { clear Hfirst. induction Hs as [|x l Hl IH Hx]; [constructor|]. rewrite reverse_cons.
    apply StronglySorted_app_2; [|done|by repeat constructor].
    intros a b Ha Hb. rewrite elem_of_reverse in Ha. apply list_elem_of_singleton in Hb as ->.
    rewrite Forall_forall in Hx. by apply Hx. }
  split_and!.
  - intros t Ht Hlt. unfold skipToNextEvent.
    destruct (Hfirst _ (λ t, currentTime + 1000 <? t) _ t Hrev) as (t' & -> & Hin & Hp & Hle);
      [by apply elem_of_reverse|lia|]. exists t'. rewrite elem_of_reverse in Hin.
    split_and!; [done|done|lia|destruct Hle as [->|]; lia].
  - intros t Ht Hlt. unfold skipToPrevEvent.
    destruct (Hfirst _ (λ t, t <? currentTime - 1000) _ t Hs) as (t' & -> & Hin & Hp & Hle); [done|lia|].
    exists t'. split_and!; [done|done|destruct Hle as [->|]; lia|lia].
  - intros H. unfold skipToNextEvent. destruct (find_where _ _) as [t|] eqn:E; [|done].
    apply find_where_Some in E as [Hp Hin]. rewrite elem_of_reverse in Hin. apply H in Hin. lia.
  - intros H. unfold skipToPrevEvent. destruct (find_where _ _) as [t|] eqn:E; [|done].
    apply find_where_Some in E as [Hp Hin]. apply H in Hin. lia.
  - intros n t Hn [H|H]; unfold skipSeconds, jumpForward in H.
    + destruct (Z.ltb_spec 0 n); [|lia]. simpl in H. destruct (Z.leb_spec now (currentTime + n * 1000)); [done|].
      injection H as <-. lia.
    + destruct (Z.leb_spec now (currentTime + n * 60 * 1000)); [done|]. injection H as <-. lia.
Qed.

Lemma skips_to_nearest_witness :
  skipToNextEvent 50000 900000 [90000; 70000; 50500; 20000] = Seek 70000.
Proof.
  destruct (skips_to_nearest 50000 900000 [90000; 70000; 50500; 20000]) as (H & _).
  - repeat constructor; lia.
  - destruct (H 70000) as (t' & E & Hin & Hr).
    + right. left.
    + lia.
    + rewrite E. f_equal. repeat (apply elem_of_cons in Hin as [->|Hin]; [first [reflexivity|lia]|]).
      by apply elem_of_nil in Hin.
Defined.
