(* ===== verification/Hooks.v ===== *)
(** * Small hooks, stores and formatters

    The overlay toggles shared by all video tiles ([hooks/useVCAZonesToggle.ts],
    [hooks/useTimestampOverlayToggle.ts]), digital zoom, the keyboard handlers, the
    alert sounds, the name editor, the clock, the admin, search and portal stores,
    the formatters of [lib/format.ts] and the constants of [lib/branding.ts]. *)

From S2P Require Import Prelude Types Http OperatorStore.
From stdpp Require Import pretty.
From Stdlib Require Import QArith Qround Lqa.
#[local] Open Scope string_scope.
#[local] Open Scope Z_scope.

(** ** Overlay toggles

    Both hooks are the same program over their own storage key and event name. *)

Module Toggle.

Definition VCA_KEY : string := "ironsight-vca-zones-visible".
Definition VCA_EVENT : string := "ironsight:vca-zones-toggle".
Definition TIMESTAMP_KEY : string := "ironsight-tile-timestamp-overlay".
Definition TIMESTAMP_EVENT : string := "ironsight:timestamp-overlay-toggle".

(** A tile: [tl_listens] holds once its effect has run. *)
Record Tile := mkTile { tl_show : bool; tl_listens : bool; tl_mounted : bool }.

Record TileGrid := mkTileGrid { gr_storage : option string; gr_tiles : list Tile }.

(** [if (saved !== null) setShow(saved === 'on')] *)
Definition read_saved (saved : option string) (show : bool) : bool :=
  match saved with Some v => String.eqb v "on" | None => show end.

Definition tile_effect (saved : option string) (t : Tile) : Tile :=
  if tl_mounted t && negb (tl_listens t) then mkTile (read_saved saved (tl_show t)) true true else t.

Definition onToggle (detail : bool) (t : Tile) : Tile :=
  if tl_listens t then mkTile detail true (tl_mounted t) else t.

Definition toggle (i : nat) (g : TileGrid) : TileGrid :=
  match gr_tiles g !! i with
  | Some t =>
      if tl_mounted t then
        let next := negb (tl_show t) in
        mkTileGrid (Some (if next then "on" else "off"))
          (<[i := mkTile next (tl_listens t) true]> (onToggle next <$> gr_tiles g))
      else g
  | None => g
  end.

Inductive ToggleEvent := Mount | Effect (i : nat) | Toggle (i : nat) | Unmount (i : nat).

Definition toggle_step (g : TileGrid) (e : ToggleEvent) : TileGrid :=
  match e with
  | Mount => mkTileGrid (gr_storage g) (gr_tiles g ++ [mkTile true false true])%list
  | Effect i => mkTileGrid (gr_storage g) (alter (tile_effect (gr_storage g)) i (gr_tiles g))
  | Toggle i => toggle i g
  | Unmount i => mkTileGrid (gr_storage g) (alter (λ t, mkTile (tl_show t) false false) i (gr_tiles g))
  end.

Definition toggle_run (saved : option string) : list ToggleEvent → TileGrid := foldl toggle_step (mkTileGrid saved []).
End Toggle.

(** ** Digital zoom ([hooks/useDigitalZoom.ts]) *)

Module Zoom.

Record Zoom := mkZoomState {
  zm_scale : Q;
  zm_pan : Q * Q;
  zm_isDragging : bool;
  zm_dragStart : Q * Q
}.

Definition initial_zoom : Zoom := mkZoomState 1 (0, 0)%Q false (0, 0)%Q.

(** The effect of [resetKey]. *)
Definition reset_zoom (z : Zoom) : Zoom := mkZoomState 1 (0, 0)%Q (zm_isDragging z) (zm_dragStart z).

Definition q_max (a b : Q) : Q := if Qle_bool a b then b else a.
Definition q_min (a b : Q) : Q := if Qle_bool a b then a else b.

Definition zoom_wheel (allowZoom : bool) (deltaY : Q) (z : Zoom) : Zoom :=
  if negb allowZoom then z
  else
    let newScale := q_min (q_max 1 (zm_scale z + deltaY * (-2 # 1000))) 10 in
    mkZoomState newScale (if Qeq_bool newScale 1 then (0, 0)%Q else zm_pan z) (zm_isDragging z) (zm_dragStart z).

(** [scale > 1] *)
Definition zoomed (z : Zoom) : bool := negb (Qle_bool (zm_scale z) 1).

Definition zoom_down (allowZoom : bool) (x y : Q) (z : Zoom) : Zoom :=
  if negb allowZoom then z
  else if zoomed z then
    mkZoomState (zm_scale z) (zm_pan z) true ((x - (zm_pan z).1)%Q, (y - (zm_pan z).2)%Q)
  else z.

Definition zoom_move (allowZoom : bool) (x y : Q) (z : Zoom) : Zoom :=
  if negb allowZoom || negb (zm_isDragging z) then z
  else if zoomed z then
    mkZoomState (zm_scale z) ((x - (zm_dragStart z).1)%Q, (y - (zm_dragStart z).2)%Q) true (zm_dragStart z)
  else z.

Definition zoom_up (allowZoom : bool) (z : Zoom) : Zoom :=
  if negb allowZoom then z else mkZoomState (zm_scale z) (zm_pan z) false (zm_dragStart z).

Inductive ZoomEvent := Wheel (d : Q) | Down (x y : Q) | Move (x y : Q) | Up | ResetKey.

Definition zoom_step (allowZoom : bool) (z : Zoom) (e : ZoomEvent) : Zoom :=
  match e with
  | Wheel d => zoom_wheel allowZoom d z
  | Down x y => zoom_down allowZoom x y z
  | Move x y => zoom_move allowZoom x y z
  | Up => zoom_up allowZoom z
  | ResetKey => reset_zoom z
  end.
End Zoom.

(** ** Keyboard *)

Module Keyboard.

Definition SEEK_DELTA_MS : Z := 30000.

(** The state a key is handled in. *)
Record Shortcuts := mkShortcuts {
  ks_isLive : bool; ks_currentTime : Z; ks_peekOpen : bool; ks_helpOpen : bool
}.

Inductive KeyAction := KSeek (ms : Z) | KGoLive | KClosePeek | KSetHelp (v : bool).

Definition typing_tag (tag : string) : bool :=
  String.eqb tag "INPUT" || String.eqb tag "TEXTAREA" || String.eqb tag "SELECT".

Definition handleKey (tag key : string) (now : Z) (s : Shortcuts) : list KeyAction :=
  if typing_tag tag then []
  else if String.eqb key "?" then [KSetHelp (negb (ks_helpOpen s))]
  else if String.eqb key "Escape" then
    if ks_helpOpen s then [KSetHelp false] else if ks_peekOpen s then [KClosePeek] else []
  else if String.eqb key "l" || String.eqb key "L" then [KGoLive]
  else if String.eqb key "ArrowLeft" then
    if negb (ks_isLive s) then [KSeek (ks_currentTime s - SEEK_DELTA_MS)] else []
  else if String.eqb key "ArrowRight" then
    if negb (ks_isLive s) then
      let next := ks_currentTime s + SEEK_DELTA_MS in
      if next <=? now then [KSeek next] else [KGoLive]
    else []
  else if String.eqb key " " then if ks_isLive s then [KSeek now] else [KGoLive]
  else [].

(** *** The disposition chord ([hooks/useDispositionKeybinds.ts]) *)

Definition ARM_WINDOW_MS : Z := 1500.

Inductive Prefix := PF | PV.

(** [cd_timer]: the deadline of the timer that disarms. *)
Record Chord := mkChord { cd_prefix : option Prefix; cd_timer : option Z }.

Definition unarmed : Chord := mkChord None None.

Definition falseCodes : list DispositionOption :=
  filter_where (λ d, match do_category d with cat_false => true | _ => false end) DISPOSITION_OPTIONS.
Definition verifiedCodes : list DispositionOption :=
  filter_where (λ d, match do_category d with cat_verified => true | _ => false end) DISPOSITION_OPTIONS.

(** [parseInt(key)]: the leading decimal digits, or NaN. *)
Fixpoint leading_digits (acc : option Z) (l : list N) : option Z :=
  match l with
  | c :: l' => if ((48 <=? c) && (c <=? 57))%N
               then leading_digits (Some (10 * default 0 acc + Z.of_N (c - 48))) l' else acc
  | [] => acc
  end.

Definition parseInt (s : string) : option Z := leading_digits None (bytes_of (trim s)).

(** The key handler at time [now]; the result is the code it selects. *)
Definition chord_key (tag key : string) (now : Z) (c : Chord) : Chord * option DispositionCode :=
  if String.eqb tag "TEXTAREA" || String.eqb tag "INPUT" || String.eqb tag "SELECT" then (c, None)
  else
    let k := toLowerCase key in
    if String.eqb k "f" || String.eqb k "v" then
      (mkChord (Some (if String.eqb k "f" then PF else PV)) (Some (now + ARM_WINDOW_MS)), None)
    else
      match cd_prefix c, parseInt key with
      | Some p, Some digit =>
          if (1 <=? digit) && (digit <=? 5) then
            let opts := match p with PF => falseCodes | PV => verifiedCodes end in
            (mkChord None None, do_code <$> opts !! Z.to_nat (digit - 1))
          else (c, None)
      | _, _ => (c, None)
      end.

(** The disarming timer. *)
Definition chord_timeout (now : Z) (c : Chord) : Chord :=
  match cd_timer c with
  | Some d => if d <=? now then mkChord None None else c
  | None => c
  end.

(** A key press, the timer having fired when it was due. *)
Definition chord_step (c : Chord) (e : string * string * Z) : Chord * option DispositionCode :=
  let '(tag, key, now) := e in chord_key tag key now (chord_timeout now c).
End Keyboard.

(** ** Alert sounds ([hooks/useAlertAudio.ts]) *)

Module Audio.

Inductive ToneType := tone_critical | tone_high | tone_sla_breach.

(** A beep: frequency in Hz, start and duration in milliseconds. *)
Definition sequences (t : ToneType) : list (Z * Z * Z) :=
  match t with
  | tone_critical => [(1047, 0, 120); (1047, 160, 120); (1319, 320, 220)]
  | tone_high => [(880, 0, 150); (880, 220, 150)]
  | tone_sla_breach =>
      [(1174, 0, 100); (988, 120, 100); (784, 240, 100); (1174, 380, 100); (988, 500, 100); (784, 620, 180)]
  end.

Record AudioRefs := mkAudio { au_critical : nat; au_high : nat; au_sla : nat; au_initialized : bool }.

Definition initial_audio : AudioRefs := mkAudio 0 0 0 false.

Definition count_unacked (sev : Severity) (alerts : list AlertEvent) : nat :=
  length (filter_where (λ a, negb (ae_acknowledged a) && bool_decide (ae_severity a = sev)) alerts).

Definition count_breached (now : Z) (alerts : list AlertEvent) : nat :=
  length (filter_where (λ a, negb (ae_acknowledged a) &&
    match ae_sla_deadline_ms a with Some d => negb (d =? 0) && (d <? now) | None => false end) alerts).

(** The effect of [alerts] and [muted]; the result is the tone it plays. *)
Definition audio_effect (alerts : list AlertEvent) (muted : bool) (now : Z) (r : AudioRefs) :
  AudioRefs * option ToneType :=
  let c := count_unacked critical alerts in
  let h := count_unacked high alerts in
  let b := count_breached now alerts in
  let r' := mkAudio c h b true in
  if negb (au_initialized r) then (r', None)
  else if muted then (r, None)
  else (r', if (au_critical r <? c)%nat then Some tone_critical
            else if (au_high r <? h)%nat then Some tone_high
            else if (au_sla r <? b)%nat then Some tone_sla_breach else None).
End Audio.

(** ** Name editor and clock *)

Module NameEdit.
Record NameEdit := mkNameEdit { ne_editing : bool; ne_value : string }.

Definition sync_name (cameraName : string) (s : NameEdit) : NameEdit := mkNameEdit (ne_editing s) cameraName.

Definition startEditing (isAdmin hasRename : bool) (cameraName : string) (s : NameEdit) : NameEdit :=
  if negb isAdmin || negb hasRename then s else mkNameEdit true cameraName.

(** The result carries the name passed to [onRename]. *)
Definition commitRename (hasRename : bool) (cameraName : string) (s : NameEdit) : NameEdit * option string :=
  let trimmed := trim (ne_value s) in
  (mkNameEdit false (ne_value s),
   if truthy_str trimmed && negb (String.eqb trimmed cameraName) && hasRename then Some trimmed else None).

Definition cancelRename (cameraName : string) (s : NameEdit) : NameEdit := mkNameEdit false cameraName.

Definition useElapsedTime (startMs now : Z) : Z := now - startMs.
End NameEdit.

(** ** Stores *)

Module Stores.

(** *** [stores/admin-store.ts] *)

Record AdminState := mkAdmin {
  showCreateSiteModal : bool;
  showAssignCameraModal : bool;
  showCustomerAccessModal : bool;
  showCreateCustomerModal : bool;
  showSOPModal : bool;
  showSiteMapModal : bool;
  showNotificationModal : bool;
  editingSiteId : option string
}.

Definition initial_admin : AdminState := mkAdmin false false false false false false false None.

Definition openCreateSite (s : AdminState) : AdminState :=
  mkAdmin true (showAssignCameraModal s) (showCustomerAccessModal s) (showCreateCustomerModal s)
    (showSOPModal s) (showSiteMapModal s) (showNotificationModal s) None.
Definition openEditSite (siteId : string) (s : AdminState) : AdminState :=
  mkAdmin true (showAssignCameraModal s) (showCustomerAccessModal s) (showCreateCustomerModal s)
    (showSOPModal s) (showSiteMapModal s) (showNotificationModal s) (Some siteId).
Definition openAssignCamera (siteId : string) (s : AdminState) : AdminState :=
  mkAdmin (showCreateSiteModal s) true (showCustomerAccessModal s) (showCreateCustomerModal s)
    (showSOPModal s) (showSiteMapModal s) (showNotificationModal s) (Some siteId).
Definition openCustomerAccess (siteId : string) (s : AdminState) : AdminState :=
  mkAdmin (showCreateSiteModal s) (showAssignCameraModal s) true (showCreateCustomerModal s)
    (showSOPModal s) (showSiteMapModal s) (showNotificationModal s) (Some siteId).
Definition openCreateCustomer (s : AdminState) : AdminState :=
  mkAdmin (showCreateSiteModal s) (showAssignCameraModal s) (showCustomerAccessModal s) true
    (showSOPModal s) (showSiteMapModal s) (showNotificationModal s) (editingSiteId s).
Definition openSOPs (siteId : string) (s : AdminState) : AdminState :=
  mkAdmin (showCreateSiteModal s) (showAssignCameraModal s) (showCustomerAccessModal s)
    (showCreateCustomerModal s) true (showSiteMapModal s) (showNotificationModal s) (Some siteId).
Definition openSiteMap (siteId : string) (s : AdminState) : AdminState :=
  mkAdmin (showCreateSiteModal s) (showAssignCameraModal s) (showCustomerAccessModal s)
    (showCreateCustomerModal s) (showSOPModal s) true (showNotificationModal s) (Some siteId).
Definition openNotifications (siteId : string) (s : AdminState) : AdminState :=
  mkAdmin (showCreateSiteModal s) (showAssignCameraModal s) (showCustomerAccessModal s)
    (showCreateCustomerModal s) (showSOPModal s) (showSiteMapModal s) true (Some siteId).
Definition closeModals (s : AdminState) : AdminState :=
  mkAdmin false false false false false false false None.

(** *** [stores/search-store.ts] *)

Record Range := mkRange { rg_start : string; rg_end : string }.

Record Filters := mkFilters {
  fl_violation_types : list string;
  fl_site_ids : list string;
  fl_date_range : option Range;
  fl_confidence_min : option Q;
  fl_time_of_day : option Range;
  fl_model : string
}.

Definition DEFAULT_FILTERS : Filters := mkFilters [] [] None None None "hybrid".

(** [Partial<Filters>]: [None] for a key that is absent; a key that is present
    overwrites, also with undefined. *)
Record PartialFilters := mkPartial {
  pf_violation_types : option (list string);
  pf_site_ids : option (list string);
  pf_date_range : option (option Range);
  pf_confidence_min : option (option Q);
  pf_time_of_day : option (option Range);
  pf_model : option string
}.

Definition merge_filters (f : Filters) (p : PartialFilters) : Filters :=
  mkFilters (default (fl_violation_types f) (pf_violation_types p))
    (default (fl_site_ids f) (pf_site_ids p)) (default (fl_date_range f) (pf_date_range p))
    (default (fl_confidence_min f) (pf_confidence_min p))
    (default (fl_time_of_day f) (pf_time_of_day p)) (default (fl_model f) (pf_model p)).

Record SearchState := mkSearch {
  se_query : string;
  se_filters : Filters;
  se_results : list json;
  se_selectedResultId : option string;
  se_hasSearched : bool
}.

Definition initial_search : SearchState := mkSearch EmptyString DEFAULT_FILTERS [] None false.

Definition setQuery (q : string) (s : SearchState) : SearchState :=
  mkSearch q (se_filters s) (se_results s) (se_selectedResultId s) (se_hasSearched s).
Definition updateFilters (p : PartialFilters) (s : SearchState) : SearchState :=
  mkSearch (se_query s) (merge_filters (se_filters s) p) (se_results s) (se_selectedResultId s) (se_hasSearched s).
Definition resetFilters (s : SearchState) : SearchState :=
  mkSearch (se_query s) DEFAULT_FILTERS (se_results s) (se_selectedResultId s) (se_hasSearched s).
Definition setResults (r : list json) (s : SearchState) : SearchState :=
  mkSearch (se_query s) (se_filters s) r None (se_hasSearched s).
Definition selectResult (id : option string) (s : SearchState) : SearchState :=
  mkSearch (se_query s) (se_filters s) (se_results s) id (se_hasSearched s).
Definition setHasSearched (v : bool) (s : SearchState) : SearchState :=
  mkSearch (se_query s) (se_filters s) (se_results s) (se_selectedResultId s) v.

(** *** [stores/portal-store.ts] *)

Record PortalState := mkPortal {
  po_selectedCustomerId : option string;
  po_activeSiteId : option string;
  po_dateRange : Range
}.

(** [toISOString().slice(0, 10)] of now and of seven days before. *)
Definition defaultDateRange (now : Z) : Range :=
  mkRange (String.substring 0 10 (toISOString (now - 7 * 86400000)))
          (String.substring 0 10 (toISOString now)).

Definition initial_portal (now : Z) : PortalState := mkPortal None None (defaultDateRange now).
Definition selectCustomer (id : string) (s : PortalState) : PortalState :=
  mkPortal (Some id) (po_activeSiteId s) (po_dateRange s).
Definition portal_selectSite (id : option string) (s : PortalState) : PortalState :=
  mkPortal (po_selectedCustomerId s) id (po_dateRange s).
Definition setDateRange (r : Range) (s : PortalState) : PortalState :=
  mkPortal (po_selectedCustomerId s) (po_activeSiteId s) r.

(** [partialize], and the rehydration that merges it over the initial state. *)
Definition portal_partialize (s : PortalState) : option string * option string * Range :=
  (po_selectedCustomerId s, po_activeSiteId s, po_dateRange s).
Definition portal_rehydrate (p : option string * option string * Range) (s : PortalState) : PortalState :=
  mkPortal p.1.1 p.1.2 p.2.
End Stores.

(** ** Formatters ([lib/format.ts]) *)

Module Format.

Definition formatRelativeTime (now ts : Z) : string :=
  let diff := now - ts in
  if diff <? 60000 then pretty (diff / 1000) +:+ "s ago"
  else if diff <? 3600000 then pretty (diff / 60000) +:+ "m ago"
  else if diff <? 86400000 then pretty (diff / 3600000) +:+ "h ago"
  else pretty (diff / 86400000) +:+ "d ago".

Definition formatDuration (ms : Z) : string :=
  let totalSeconds := ms / 1000 in
  let hours := totalSeconds / 3600 in
  let minutes := Z.rem totalSeconds 3600 / 60 in
  let seconds := Z.rem totalSeconds 60 in
  if 0 <? hours then pretty hours +:+ ":" +:+ pad_start 2 minutes +:+ ":" +:+ pad_start 2 seconds
  else pretty minutes +:+ ":" +:+ pad_start 2 seconds.

(** [Math.round(score * 100)] *)
Definition formatConfidence (score : Q) : string := pretty (Qfloor (score * 100 + (1 # 2))) +:+ "%".

Inductive Level := green | amber | red.

Definition getComplianceLevel (score : Q) : Level :=
  if Qle_bool 90 score then green else if Qle_bool 75 score then amber else red.
End Format.

(** ** Brand ([lib/branding.ts]) *)

Module Brand.
Definition primary : string := "#E8732A".
Definition secondary : string := "#B22234".
Definition tertiary : string := "#E89B2A".

Definition brandCssVars : string :=
  String.concat " " ["--brand-primary: " +:+ primary +:+ ";"; "--brand-secondary: " +:+ secondary +:+ ";";
                     "--brand-tertiary: " +:+ tertiary +:+ ";"].
End Brand.

(** ** Lemmas: toggles *)

Section toggles.
Import Toggle.

(** What a tile shows for a stored value. *)
Definition shown (saved : option string) : bool := read_saved saved true.

Definition synced (g : TileGrid) : Prop := Forall (λ t, tl_listens t = true → tl_show t = shown (gr_storage g)) (gr_tiles g).

(** A tile that has not run its effect shows the default, unless it was clicked. *)
Lemma read_saved_stored saved v show : saved = Some v → read_saved saved show = shown saved.
Proof. by intros ->. Qed.

Definition untouched (g : TileGrid) : Prop :=
  gr_storage g = None → Forall (λ t, tl_mounted t = true → tl_show t = true) (gr_tiles g).

Lemma Forall_alter {A} (P : A → Prop) f i (l : list A) :
  Forall P l → (∀ x, l !! i = Some x → P x → P (f x)) → Forall P (alter f i l).
Proof.
  intros H Hf. apply Forall_forall. intros y [j Hj]%list_elem_of_lookup.
  destruct (decide (i = j)) as [->|Hne].
  - rewrite list_lookup_alter_eq in Hj. apply fmap_Some in Hj as (x & Hx & ->). apply Hf; [done|].
    by eapply Forall_lookup_1.
  - rewrite list_lookup_alter_ne in Hj by done. by eapply Forall_lookup_1.
Qed.

Lemma toggle_synced i g : synced g → untouched g → synced (toggle i g) ∧ untouched (toggle i g).
Proof.
  intros Hs Hu. unfold toggle. destruct (gr_tiles g !! i) as [t|] eqn:Et; [|done].
  destruct (tl_mounted t); [|done]. split; [|done].
  assert (Hn : ∀ b : bool, String.eqb (if b then "on" else "off") "on" = b) by by intros [].
  unfold synced. simpl. apply Forall_insert.
  - apply Forall_fmap, Forall_forall. intros x _. unfold compose, onToggle. simpl.
    destruct (tl_listens x) eqn:E; simpl; [by intros _; rewrite Hn|congruence].
  - intros _. simpl. by rewrite Hn.
Qed.

Lemma step_synced g e : synced g → untouched g → synced (toggle_step g e) ∧ untouched (toggle_step g e).
Proof.
  intros Hs Hu. destruct e as [|i|i|i]; simpl.
  - split.
    + apply Forall_app. split; [done|]. by repeat constructor.
    + intros Hn. apply Forall_app. split; [by apply Hu|]. by repeat constructor.
  - split.
    + apply Forall_alter; [exact Hs|]. intros t Ht Hsh. unfold tile_effect. simpl.
      destruct (tl_mounted t && negb (tl_listens t)) eqn:E; [|done]. simpl. intros _.
      destruct (gr_storage g) as [v|] eqn:Eg; [done|]. simpl. apply andb_true_iff in E as [Em _].
      pose proof (Forall_lookup_1 _ _ _ _ (Hu Eg) Ht) as H. by apply H.
    + intros Hn. apply Forall_alter; [by apply Hu|]. intros t Ht Hsh. unfold tile_effect. simpl in Hn.
      destruct (tl_mounted t && negb (tl_listens t)) eqn:E; [|done]. simpl. rewrite Hn. simpl.
      apply andb_true_iff in E as [Em _]. auto.
  - by apply toggle_synced.
  - split.
    + apply Forall_alter; [exact Hs|]. done.
    + intros Hn. apply Forall_alter; [by apply Hu|]. done.
Qed.

Lemma run_synced saved es : synced (toggle_run saved es) ∧ untouched (toggle_run saved es).
Proof.
  unfold toggle_run. assert (H : synced (mkTileGrid saved []) ∧ untouched (mkTileGrid saved [])) by (split; constructor).
  revert H. generalize (mkTileGrid saved []). induction es as [|e es IH]; intros g H; [done|].
  simpl. destruct H as [H1 H2]. apply IH. by apply step_synced.
Qed.

Definition is_toggle (e : ToggleEvent) : bool := match e with Toggle _ => true | _ => false end.

Lemma storage_only_toggles saved es :
  Forall (λ e, is_toggle e = false) es → gr_storage (toggle_run saved es) = saved.
Proof.
  enough (H : ∀ g, Forall (λ e, is_toggle e = false) es → gr_storage (foldl toggle_step g es) = gr_storage g) by apply (H (mkTileGrid saved [])).
  induction es as [|e es IH]; intros g H; [done|].
  inversion H as [|? ? He Hes]; subst. simpl. rewrite IH by done. by destruct e.
Qed.

Lemma toggle_shows i g t :
  gr_tiles g !! i = Some t → tl_mounted t = true →
  gr_storage (toggle i g) = Some (if negb (tl_show t) then "on" else "off") ∧
  tl_show <$> gr_tiles (toggle i g) !! i = Some (negb (tl_show t)).
Proof.
  intros Et Em. unfold toggle. rewrite Et, Em. split; [done|]. cbn [gr_tiles].
  rewrite list_lookup_insert_eq; [done|]. rewrite length_fmap. by eapply lookup_lt_Some.
Qed.
End toggles.

(** ** Lemmas: zoom, chord and sounds *)

Section zoom.
Import Zoom.

(** The scale stays between 1 and 10, and an unzoomed picture is not panned. *)
Definition zoom_ok (z : Zoom) : Prop :=
  (1 <= zm_scale z)%Q ∧ (zm_scale z <= 10)%Q ∧ ((zm_scale z == 1)%Q → zm_pan z = (0, 0)%Q).

Lemma clamp_bounds x : (1 <= q_min (q_max 1 x) 10)%Q ∧ (q_min (q_max 1 x) 10 <= 10)%Q.
Proof.
  unfold q_min, q_max. destruct (Qle_bool 1 x) eqn:E1;
    (destruct (Qle_bool _ 10) eqn:E2; [apply Qle_bool_iff in E2|]); try (apply Qle_bool_iff in E1); split; lra.
Qed.

Lemma zoomed_true z : zoomed z = true → ~ (zm_scale z == 1)%Q.
Proof.
  unfold zoomed. intros H Heq. apply negb_true_iff in H. apply not_true_iff_false in H. apply H.
  apply Qle_bool_iff. rewrite Heq. lra.
Qed.

Lemma zoom_step_ok allow z e : zoom_ok z → zoom_ok (zoom_step allow z e).
Proof.
  intros (H1 & H10 & Hp). destruct e as [d|x y|x y| |]; simpl.
  - unfold zoom_wheel. destruct allow; [|done]. unfold zoom_ok. simpl.
    destruct (clamp_bounds (zm_scale z + d * (-2 # 1000))) as [Hl Hu]. split_and!; [done..|].
    intros H. apply Qeq_bool_iff in H. by rewrite H.
  - unfold zoom_down. destruct allow; [|done]. simpl. by destruct (zoomed z).
  - unfold zoom_move. destruct (negb allow || _); [done|]. destruct (zoomed z) eqn:E; [|done].
    split_and!; [done..|]. intros H. by apply zoomed_true in E.
  - by destruct allow.
  - split_and!; simpl; [lra|lra|done].
Qed.

Lemma zoom_run_ok es z :
  zoom_ok z → zoom_ok (foldl (λ z '(allow, e), zoom_step allow z e) z es).
Proof.
  revert z. induction es as [|[a e] es IH]; intros z H; [done|]. simpl. apply IH. by apply zoom_step_ok.
Qed.
End zoom.


Section chord.
Import Keyboard.

Definition arms (p : Prefix) (e : string * string * Z) : Prop :=
  typing_tag e.1.1 = false ∧ toLowerCase e.1.2 = match p with PF => "f" | PV => "v" end.

Definition category_of (p : Prefix) : DispositionCategory := match p with PF => cat_false | PV => cat_verified end.

Definition chord_run (es : list (string * string * Z)) : Chord := foldl (λ c e, (chord_step c e).1) unarmed es.

(** An armed chord was armed by a key press of the run, and its timer is set from it. *)
Definition armed_by (es : list (string * string * Z)) (c : Chord) : Prop :=
  ∀ p, cd_prefix c = Some p → ∃ e, e ∈ es ∧ arms p e ∧ cd_timer c = Some (e.2 + ARM_WINDOW_MS).

Lemma timeout_armed now c p :
  cd_prefix (chord_timeout now c) = Some p → chord_timeout now c = c ∧ (∀ d, cd_timer c = Some d → now < d).
Proof.
  unfold chord_timeout. destruct (cd_timer c) as [d|]; [|by intros; split].
  destruct (d <=? now) eqn:E; simpl; [done|]. intros _. split; [done|]. intros ? [= <-]. lia.
Qed.

Lemma typing_tags tag :
  String.eqb tag "TEXTAREA" || String.eqb tag "INPUT" || String.eqb tag "SELECT" = typing_tag tag.
Proof. unfold typing_tag. by rewrite (orb_comm (String.eqb tag "TEXTAREA")). Qed.

Lemma chord_key_arms p tag key now c :
  arms p (tag, key, now) → chord_key tag key now c = (mkChord (Some p) (Some (now + ARM_WINDOW_MS)), None).
Proof. intros [Ht Hk]. simpl in *. unfold chord_key. rewrite typing_tags, Ht, Hk. by destruct p. Qed.

Lemma chord_key_digit p d tag key now c :
  cd_prefix c = Some p → parseInt key = Some d → 1 <= d <= 5 →
  toLowerCase key ≠ "f"%string → toLowerCase key ≠ "v"%string → typing_tag tag = false →
  chord_key tag key now c =
    (unarmed, do_code <$> (match p with PF => falseCodes | PV => verifiedCodes end) !! Z.to_nat (d - 1)).
Proof.
  intros Hp Hk Hd Hf Hv Ht. unfold chord_key. rewrite typing_tags, Ht.
  apply String.eqb_neq in Hf, Hv. rewrite Hf, Hv, Hp, Hk. simpl.
  by replace ((1 <=? d) && (d <=? 5)) with true by lia.
Qed.

(** What a key does to a chord whose timer has been served. *)
Lemma chord_key_cases tag key now c :
  (∃ p, arms p (tag, key, now) ∧
     chord_key tag key now c = (mkChord (Some p) (Some (now + ARM_WINDOW_MS)), None)) ∨
  (∃ p d, cd_prefix c = Some p ∧ parseInt key = Some d ∧ 1 <= d <= 5 ∧ typing_tag tag = false ∧
     chord_key tag key now c =
       (unarmed, do_code <$> (match p with PF => falseCodes | PV => verifiedCodes end) !! Z.to_nat (d - 1))) ∨
  chord_key tag key now c = (c, None).
Proof.
  destruct (typing_tag tag) eqn:Ht; [right; right; unfold chord_key; by rewrite typing_tags, Ht|].
  destruct (decide (toLowerCase key = "f"%string)) as [Ef|Ef].
  { left. exists PF. split; [done|]. by apply chord_key_arms. }
  destruct (decide (toLowerCase key = "v"%string)) as [Ev|Ev].
  { left. exists PV. split; [done|]. by apply chord_key_arms. }
  right. destruct (cd_prefix c) as [p|] eqn:Ep; [destruct (parseInt key) as [d|] eqn:Ed|].
  - destruct (decide (1 <= d <= 5)) as [H|H].
    + left. exists p, d. rewrite (chord_key_digit p d) by done. split_and!; first [done | lia].
    + right. unfold chord_key. rewrite typing_tags, Ht, Ep, Ed. apply String.eqb_neq in Ef, Ev.
      rewrite Ef, Ev. simpl. by replace ((1 <=? d) && (d <=? 5)) with false by lia.
  - right. unfold chord_key. rewrite typing_tags, Ht, Ep, Ed. apply String.eqb_neq in Ef, Ev. by rewrite Ef, Ev.
  - right. unfold chord_key. rewrite typing_tags, Ht, Ep. apply String.eqb_neq in Ef, Ev. by rewrite Ef, Ev.
Qed.

Lemma chord_run_armed es : armed_by es (chord_run es).
Proof.
  induction es as [|[[tag key] now] es IH] using rev_ind; [done|].
  unfold chord_run. rewrite foldl_app. simpl. fold (chord_run es).
  assert (IH' : armed_by (es ++ [(tag, key, now)])%list (chord_timeout now (chord_run es))).
  { intros p Hp. destruct (timeout_armed _ _ _ Hp) as [Heq _]. rewrite Heq in *.
    destruct (IH p Hp) as (e & He & Ha & Hd). exists e. split; [apply elem_of_app; by left|done]. }
  destruct (chord_key_cases tag key now (chord_timeout now (chord_run es)))
    as [(p & Ha & ->)|[(p & d & _ & _ & _ & _ & ->)| ->]]; [|done|done].
  intros q [= <-]. exists (tag, key, now). split; [|done]. apply elem_of_app. right. by apply list_elem_of_singleton.
Qed.

(** The digits select the five codes of a category in their order. *)
Lemma codes_of p n : (n < 5)%nat →
  ∃ o, (match p with PF => falseCodes | PV => verifiedCodes end) !! n = Some o ∧
    o ∈ DISPOSITION_OPTIONS ∧ do_category o = category_of p.
Proof.
  intros H. do 5 (destruct n as [|n]; [destruct p; eexists;
    (split; [reflexivity|]; split; [unfold DISPOSITION_OPTIONS; set_solver|reflexivity])|]). lia.
Qed.
End chord.

Section audio.
Import Audio.

Definition counts (now : Z) (alerts : list AlertEvent) : nat * nat * nat :=
  (count_unacked critical alerts, count_unacked high alerts, count_breached now alerts).

(** The alerts and time an effect run last recorded: the first run's, then those of each
    run that was not muted. *)
Fixpoint baseline (runs : list (list AlertEvent * bool * Z)) (b : option (list AlertEvent * Z)) :
  option (list AlertEvent * Z) :=
  match runs with
  | [] => b
  | (alerts, muted, now) :: runs' =>
      baseline runs' (match b with Some _ => if (muted : bool) then b else Some (alerts, now) | None => Some (alerts, now) end)
  end.

Definition audio_run (runs : list (list AlertEvent * bool * Z)) : AudioRefs :=
  foldl (λ r '(alerts, muted, now), (audio_effect alerts muted now r).1) initial_audio runs.

Definition refs_of (b : option (list AlertEvent * Z)) : AudioRefs :=
  match b with
  | Some (alerts, now) => let '(c, h, s) := counts now alerts in mkAudio c h s true
  | None => initial_audio
  end.

(** Acknowledging one alert while another of its severity arrives keeps the count. *)
Lemma count_swap sev x a rest :
  ae_severity a = ae_severity x → ae_acknowledged a = false → ae_acknowledged x = false →
  count_unacked sev (a :: (rest ++ [set_acknowledged x])%list) = count_unacked sev (rest ++ [x])%list.
Proof.
  intros Hs Ha Hx. unfold count_unacked, filter_where. rewrite filter_cons, !filter_app, !length_app.
  rewrite !filter_cons, !filter_nil, Ha, Hx, Hs. simpl.
  case_bool_decide; simpl; rewrite ?length_app; simpl; lia.
Qed.

Lemma audio_run_baseline runs : audio_run runs = refs_of (baseline runs None).
Proof.
  unfold audio_run. change initial_audio with (refs_of None). generalize (@None (list AlertEvent * Z)).
  induction runs as [|[[alerts muted] now] runs IH]; intros b; [done|]. simpl. rewrite <- IH. f_equal.
  destruct b as [[al t]|]; [|done]. by destruct muted.
Qed.
End audio.

(** ** Properties *)

(** The overlay toggle keeps all tiles in step: after any mounts, effects, clicks and
    unmounts every tile whose effect has run shows what storage says, which is on unless
    a tile was switched off; a click on a mounted tile stores the opposite of what that
    tile showed and shows it on that tile; and a later session that starts from the
    stored value shows it on every tile until someone clicks. *)
Theorem tiles_agree saved es es' i t t' :
  let g := Toggle.toggle_run saved es in
  let later := Toggle.toggle_run (Toggle.gr_storage g) es' in
  t ∈ Toggle.gr_tiles g → Toggle.tl_listens t = true →
  Forall (λ e, is_toggle e = false) es' →
  t' ∈ Toggle.gr_tiles later → Toggle.tl_listens t' = true →
  Toggle.tl_show t = Toggle.read_saved (Toggle.gr_storage g) true ∧
  Toggle.tl_show t' = Toggle.tl_show t ∧
  (∀ x, Toggle.gr_tiles g !! i = Some x → Toggle.tl_mounted x = true →
    let g' := Toggle.toggle_step g (Toggle.Toggle i) in
    Toggle.gr_storage g' = Some (if Toggle.tl_show x then "off" else "on")%string ∧
    Toggle.tl_show <$> Toggle.gr_tiles g' !! i = Some (negb (Toggle.tl_show x)) ∧
    Forall (λ y, Toggle.tl_listens y = true → Toggle.tl_show y = negb (Toggle.tl_show x)) (Toggle.gr_tiles g')).
Proof.
  intros g later Ht Hl Hes Ht' Hl'. destruct (run_synced saved es) as [Hs Hu].
  destruct (run_synced (Toggle.gr_storage g) es') as [Hs' _].
  pose proof (proj1 (Forall_forall _ _) Hs t Ht Hl) as E.
  pose proof (proj1 (Forall_forall _ _) Hs' t' Ht' Hl') as E'.
  rewrite storage_only_toggles in E' by done. split_and!; [done|by rewrite E, E'|].
  intros x Hx Hm. simpl. destruct (toggle_shows i g x Hx Hm) as [H1 H2].
  destruct (toggle_synced i g Hs Hu) as [Hs2 _]. split_and!; [|done|].
  - rewrite H1. by destruct (Toggle.tl_show x).
  - eapply Forall_impl; [exact Hs2|]. intros y Hy Hly. rewrite (Hy Hly), H1.
    by destruct (Toggle.tl_show x).
Qed.

Lemma tiles_agree_witness :
  let g := Toggle.toggle_run None [Toggle.Mount; Toggle.Effect 0; Toggle.Mount; Toggle.Effect 1; Toggle.Toggle 0] in
  Toggle.tl_show <$> Toggle.gr_tiles g !! 1%nat = Some false ∧
  Toggle.read_saved (Toggle.gr_storage g) true = false.
Proof.
  destruct (tiles_agree None
    [Toggle.Mount; Toggle.Effect 0; Toggle.Mount; Toggle.Effect 1; Toggle.Toggle 0]
    [Toggle.Mount; Toggle.Effect 0] 0 (Toggle.mkTile false true true) (Toggle.mkTile false true true))
    as (H1 & _ & _); [by right; left|done|by repeat constructor|by left|done|].
  split; [reflexivity|]. symmetry. exact H1.
Defined.

(** A disposition is chosen from the keyboard only within a second and a half of an F
    or V pressed outside the input fields: whenever a key selects a code, an arming key
    of the same history lies less than 1500 ms back, and the code is the one the digit
    numbers in the category the arming key stands for; the chord is then disarmed.
    Conversely F or V followed by a digit from 1 to 5 within the window selects it. *)
Theorem chord_within_window es tag key now :
  (∀ code, (Keyboard.chord_step (chord_run es) (tag, key, now)).2 = Some code →
    ∃ p e d o, e ∈ es ∧ arms p e ∧ now < e.2 + Keyboard.ARM_WINDOW_MS ∧
      Keyboard.parseInt key = Some d ∧ 1 <= d <= 5 ∧ Keyboard.typing_tag tag = false ∧
      o ∈ DISPOSITION_OPTIONS ∧ do_category o = category_of p ∧ do_code o = code ∧
      (Keyboard.chord_step (chord_run es) (tag, key, now)).1 = Keyboard.unarmed) ∧
  (∀ p e d, arms p e → Keyboard.parseInt key = Some d → 1 <= d <= 5 →
    toLowerCase key ≠ "f"%string → toLowerCase key ≠ "v"%string →
    Keyboard.typing_tag tag = false → now < e.2 + Keyboard.ARM_WINDOW_MS →
    ∃ o, (match p with Keyboard.PF => Keyboard.falseCodes | Keyboard.PV => Keyboard.verifiedCodes end)
           !! Z.to_nat (d - 1) = Some o ∧
      (Keyboard.chord_step (chord_run (es ++ [e])%list) (tag, key, now)).2 = Some (do_code o)).
Proof.
  split.
  - intros code. unfold Keyboard.chord_step. set (c := chord_run es).
    destruct (chord_key_cases tag key now (Keyboard.chord_timeout now c))
      as [(p & _ & ->)|[(p & d & Hp & Hk & Hd & Htag & ->)| ->]]; simpl; [done| |done].
    destruct (codes_of p (Z.to_nat (d - 1))) as (o & Ho & Hin & Hcat); [lia|].
    rewrite Ho. intros [= <-]. destruct (timeout_armed _ _ _ Hp) as [Heq Hlt]. rewrite Heq in Hp.
    destruct (chord_run_armed es p Hp) as (e & He & Ha & Hdl). apply Hlt in Hdl.
    exists p, e, d, o. split_and!; first [done | lia].
  - intros p [[tag0 key0] t0] d Ha Hk Hd Hnf Hnv Htag Hlt. simpl in Hlt.
    destruct (codes_of p (Z.to_nat (d - 1))) as (o & Ho & _); [lia|]. exists o. split; [done|].
    unfold chord_run. rewrite foldl_app. simpl. fold (chord_run es).
    rewrite (chord_key_arms p tag0 key0) by done. unfold Keyboard.chord_step, Keyboard.chord_timeout. simpl.
    destruct (t0 + Keyboard.ARM_WINDOW_MS <=? now) eqn:E; [lia|].
    rewrite (chord_key_digit p d) by done. simpl. by rewrite Ho.
Qed.

Lemma chord_within_window_witness :
  (Keyboard.chord_step (chord_run [("DIV", "V", 1000)]) ("DIV", "2", 2400)).2 =
    Some verified_police_dispatched.
Proof.
  destruct (chord_within_window [] "DIV" "2" 2400) as [_ H].
  destruct (H Keyboard.PV ("DIV", "V", 1000) 2) as (o & Ho & E); [by split|done|lia|done|done|done|done|].
  simpl in E. vm_compute in Ho. injection Ho as <-. exact E.
Defined.

(** A sound tells of more waiting alarms, and only that: the first run of the effect and
    muted runs play nothing; any other run plays the critical tone exactly when more
    critical alerts wait than at the last run that was not muted (the first, to begin
    with), else the high tone when more high ones wait, else the breach tone when more
    waiting alerts are past their deadline. An alarm that arrives in the same update in
    which another of the same severity is acknowledged is not announced. *)
Theorem tones_exact runs alerts muted now al0 t0 :
  baseline runs None = Some (al0, t0) →
  let '(c0, h0, s0) := counts t0 al0 in
  let '(c, h, s) := counts now alerts in
  let played := (Audio.audio_effect alerts muted now (audio_run runs)).2 in
  (Audio.audio_effect alerts muted now (audio_run [])).2 = None ∧
  (muted = true → Audio.audio_effect alerts muted now (audio_run runs) = (audio_run runs, None)) ∧
  (muted = false →
    (played = Some Audio.tone_critical ↔ (c0 < c)%nat) ∧
    (played = Some Audio.tone_high ↔ (c <= c0)%nat ∧ (h0 < h)%nat) ∧
    (played = Some Audio.tone_sla_breach ↔ (c <= c0)%nat ∧ (h <= h0)%nat ∧ (s0 < s)%nat)) ∧
  (∀ x a rest, al0 = (rest ++ [x])%list → alerts = a :: (rest ++ [set_acknowledged x])%list →
    ae_severity a = ae_severity x → ae_acknowledged a = false → ae_acknowledged x = false →
    played = None ∨ played = Some Audio.tone_sla_breach).
Proof.
  intros Hb. pose proof (audio_run_baseline runs) as Hr. rewrite Hb in Hr. simpl in Hr. rewrite Hr.
  unfold counts, Audio.audio_effect. simpl. split_and!; [done|by intros ->| |].
  - intros ->. simpl. repeat case_match; rewrite ?Nat.ltb_lt, ?Nat.ltb_ge in *; split_and!; split; intros;
      destruct_and?; first [done | lia].
  - intros x a rest -> -> Hs Ha Hx. destruct muted; [by left|]. simpl.
    rewrite !(count_swap _ x a rest), !Nat.ltb_irrefl by done. simpl.
    destruct (_ <? _)%nat; auto.
Qed.

Lemma tones_exact_witness :
  (Audio.audio_effect [sample_alert "c"; sample_alert "a"; sample_alert "b"] false 5 (audio_run [([sample_alert "a"; sample_alert "b"], false, 0)])).2 =
    Some Audio.tone_high ∧
  (Audio.audio_effect [sample_alert "c"; sample_alert "a"; set_acknowledged (sample_alert "b")] false 0
     (audio_run [([sample_alert "a"; sample_alert "b"], false, 0)])).2 ≠ Some Audio.tone_critical.
Proof.
  split; [reflexivity|].
  destruct (tones_exact [([sample_alert "a"; sample_alert "b"], false, 0)]
    [sample_alert "c"; sample_alert "a"; set_acknowledged (sample_alert "b")] false 0 [sample_alert "a"; sample_alert "b"] 0 eq_refl)
    as (_ & _ & _ & H).
  destruct (H (sample_alert "b") (sample_alert "c") [sample_alert "a"]) as [E|E]; [done..| |]; rewrite E; done.
Defined.

(** ** Numbers written and read back *)

(** Reading the digits that [pretty] writes. *)
Lemma leading_digits_go (x : N) s :
  (0 < x)%N → Keyboard.leading_digits None (bytes_of (pretty_N_go x s)) = Keyboard.leading_digits (Some (Z.of_N x)) (bytes_of s).
Proof.
  revert s. induction (N.lt_wf_0 x) as [x _ IH]; intros s Hx. rewrite pretty_N_go_step by done.
  pose proof (N.mod_lt x 10 ltac:(lia)) as Hm. pose proof (N.div_mod x 10 ltac:(lia)) as Hdm.
  assert (Hone : ∀ acc, Keyboard.leading_digits acc (bytes_of (String (pretty_N_char (x mod 10)) s)) =
                 Keyboard.leading_digits (Some (10 * default 0 acc + Z.of_N (x mod 10))) (bytes_of s)).
  { intros acc. unfold bytes_of. cbn [String.list_ascii_of_string fmap list_fmap Keyboard.leading_digits]. rewrite pretty_char_byte by done.
    clear -Hm. generalize dependent (x mod 10)%N. intros d Hd.
    replace ((48 <=? 48 + d) && (48 + d <=? 57))%N with true by (symmetry; apply andb_true_iff; split; apply N.leb_le; lia).
    do 3 f_equal. lia. }
  destruct (decide (x / 10 = 0)%N) as [E|E].
  - rewrite E, pretty_N_go_0, Hone. rewrite E in Hdm. clear -Hdm. generalize dependent (x mod 10)%N. intros d Hd. simpl default. do 2 f_equal. lia.
  - assert (Hlt : (x / 10 < x)%N) by (apply N.div_lt; lia).
    rewrite IH; [|done|by apply N.neq_0_lt_0]. rewrite Hone. clear -Hdm. generalize dependent (x mod 10)%N. generalize dependent (x / 10)%N.
    intros q d Hd. simpl default. do 2 f_equal. lia.
Qed.

Lemma drop_space_digits fuel ws (l : list N) :
  Forall (λ w, match w with c :: _ => digit_byte c = false | [] => False end) ws →
  match l with c :: _ => digit_byte c = true | [] => True end → drop_space fuel ws l = l.
Proof.
  intros Hws Hl. destruct fuel as [|fuel]; [done|]. cbn [drop_space].
  replace (foldr _ None ws) with (@None (list N)); [done|]. induction Hws as [|w ws Hw Hws IH]; [done|]. simpl. rewrite <- IH.
  destruct w as [|c w]; [done|]. destruct l as [|d l]; [done|]. simpl. destruct (N.eqb_spec c d) as [->|]; [congruence|done].
Qed.

Lemma trim_digits s : Forall (λ n, digit_byte n = true) (bytes_of s) → trim s = s.
Proof.
  intros H. unfold trim.
  rewrite (drop_space_digits _ white_space (bytes_of s)); [|by repeat constructor|by destruct H].
  rewrite drop_space_digits; [|by repeat constructor|apply Forall_reverse in H; by destruct H].
  rewrite reverse_involutive. apply of_bytes_of.
Qed.

Lemma parse_pretty (z : Z) : 0 ≤ z → Keyboard.parseInt (pretty z) = Some z.
Proof.
  intros Hz. unfold Keyboard.parseInt. destruct z as [|p|p]; [done| |lia].
  change (pretty (Zpos p)) with (pretty_N_go (Npos p) EmptyString). rewrite trim_digits by by apply go_digits.
  by rewrite leading_digits_go.
Qed.
