(* ===== verification/Playback.v ===== *)
(** * The video tile ([components/VideoPlayer.tsx])

    The recorded-video loader with its segment cache, retries and aborts, the effects
    that drive it (entering playback, seeking, leaving for live), the speed, pause and
    frame controls, the PTZ hold buttons, the zone fetch of the live overlay, and the
    error lines of the live stream.

    The state of a tile is the video element, the refs of the loader and the state React
    shows.  Only the newest load can still act: starting a load aborts the one before,
    and an aborted load returns at its next continuation without touching anything, so
    [p_load] holds at most one.  Dates of the API are given parsed, as milliseconds. *)

From S2P Require Import Prelude Types Http.
From stdpp Require Import pretty.
From Stdlib Require Import QArith Qround Lqa.
#[local] Open Scope string_scope.
#[local] Open Scope Z_scope.

(** ** Segments *)

Definition SEGMENT_TOKEN_TTL_MS : Z := 5 * 60000.
Definition SEGMENT_CACHE_MAX_AGE_MS : Z := SEGMENT_TOKEN_TTL_MS - 30000.

Record Segment := mkSegment { sg_url : string; sg_start : Z; sg_end : Z }.

(** [targetMs >= segStart && targetMs <= segEnd] *)
Definition covers (target : Z) (s : Segment) : bool := (sg_start s <=? target) && (target <=? sg_end s).

(** The search loop: stop at the first segment that contains the target, else keep
    the last one that started by then. *)
Fixpoint best_from (i : nat) (segs : list Segment) (target : Z) (best : option nat) : option nat :=
  match segs with
  | [] => best
  | s :: r =>
      if covers target s then Some i
      else best_from (S i) r target (if sg_start s <=? target then Some i else best)
  end.

(** [if (bestIdx < 0) bestIdx = 0] *)
Definition bestIdx (segs : list Segment) (target : Z) : nat := default 0%nat (best_from 0 segs target None).

(** ** The tile *)

Inductive Source := NoSource | SegSource (url : string) | LiveSource.

(** The video element; [vd_duration] is [None] while it is NaN. *)
Record VideoElement := mkVideo {
  vd_src : Source; vd_duration : option Q; vd_time : Q; vd_paused : bool; vd_rate : Q
}.

Record Cache := mkCache {
  ca_segments : list Segment; ca_fetchedAt : Z; ca_winStart : Z; ca_winEnd : Z
}.

(** [currentSegUrlRef], [playlistStartRef], [playlistEndRef], [lastSeekTimeRef] *)
Record Loaded := mkLoaded { lo_url : string; lo_start : Z; lo_end : Z; lo_lastSeek : Z }.

Record Shown := mkShown { sh_loading : bool; sh_error : string; sh_paused : bool }.

(** Where a load waits: for the segment list, or for the metadata of a candidate. *)
Inductive Stage := Fetching | LoadingMeta (segs : list Segment) (best attempt : nat).

Record Load := mkLoad {
  pl_target : Z; pl_autoPlay : bool; pl_suppress : bool; pl_isRetry : bool; pl_stage : Stage
}.

(** [scrubDebounceRef]: when it fires and what it captured. *)
Record Debounce := mkDebounce { db_due : Z; db_target : Z; db_scrubbing : bool }.

Record VideoTile := mkVideoTile {
  p_live : bool;
  p_video : VideoElement;
  p_cache : Cache;
  p_loaded : Loaded;
  p_shown : Shown;
  p_rate : Q;
  p_load : option Load;
  p_timer : option Debounce
}.

Definition set_video (v : VideoElement) (s : VideoTile) : VideoTile :=
  mkVideoTile (p_live s) v (p_cache s) (p_loaded s) (p_shown s) (p_rate s) (p_load s) (p_timer s).
Definition set_cache (c : Cache) (s : VideoTile) : VideoTile :=
  mkVideoTile (p_live s) (p_video s) c (p_loaded s) (p_shown s) (p_rate s) (p_load s) (p_timer s).
Definition set_loaded (l : Loaded) (s : VideoTile) : VideoTile :=
  mkVideoTile (p_live s) (p_video s) (p_cache s) l (p_shown s) (p_rate s) (p_load s) (p_timer s).
Definition set_shown (h : Shown) (s : VideoTile) : VideoTile :=
  mkVideoTile (p_live s) (p_video s) (p_cache s) (p_loaded s) h (p_rate s) (p_load s) (p_timer s).
Definition set_load (l : option Load) (s : VideoTile) : VideoTile :=
  mkVideoTile (p_live s) (p_video s) (p_cache s) (p_loaded s) (p_shown s) (p_rate s) l (p_timer s).
Definition set_jump (t : option Debounce) (s : VideoTile) : VideoTile :=
  mkVideoTile (p_live s) (p_video s) (p_cache s) (p_loaded s) (p_shown s) (p_rate s) (p_load s) t.
Definition set_live (b : bool) (s : VideoTile) : VideoTile :=
  mkVideoTile b (p_video s) (p_cache s) (p_loaded s) (p_shown s) (p_rate s) (p_load s) (p_timer s).
Definition set_rate (r : Q) (s : VideoTile) : VideoTile :=
  mkVideoTile (p_live s) (p_video s) (p_cache s) (p_loaded s) (p_shown s) r (p_load s) (p_timer s).

Definition setLoading (b : bool) (s : VideoTile) : VideoTile :=
  set_shown (mkShown b (sh_error (p_shown s)) (sh_paused (p_shown s))) s.
Definition setError (e : string) (s : VideoTile) : VideoTile :=
  set_shown (mkShown (sh_loading (p_shown s)) e (sh_paused (p_shown s))) s.
Definition setPaused (b : bool) (s : VideoTile) : VideoTile :=
  set_shown (mkShown (sh_loading (p_shown s)) (sh_error (p_shown s)) b) s.

Definition no_cache : Cache := mkCache [] 0 0 0.

(** ** The element's own behaviour

    Assigning [src] and calling [load()] forgets the duration and the position, pauses
    and resets the speed to 1. *)
Definition load_src (src : Source) (v : VideoElement) : VideoElement := mkVideo src None 0 true 1.
Definition set_time (t : Q) (v : VideoElement) : VideoElement :=
  mkVideo (vd_src v) (vd_duration v) t (vd_paused v) (vd_rate v).
Definition set_vpaused (b : bool) (v : VideoElement) : VideoElement :=
  mkVideo (vd_src v) (vd_duration v) (vd_time v) b (vd_rate v).
Definition set_vrate (r : Q) (v : VideoElement) : VideoElement :=
  mkVideo (vd_src v) (vd_duration v) (vd_time v) (vd_paused v) r.
Definition set_duration (d : Q) (v : VideoElement) : VideoElement :=
  mkVideo (vd_src v) (Some d) (vd_time v) (vd_paused v) (vd_rate v).

Definition play (s : VideoTile) : VideoTile := setPaused false (set_video (set_vpaused false (p_video s)) s).
Definition pause (s : VideoTile) : VideoTile := setPaused true (set_video (set_vpaused true (p_video s)) s).

(** ** [loadSegmentForTime] *)

(** [(targetMs - segStartMs) / 1000] *)
Definition offset_sec (target start : Z) : Q := (inject_Z (target - start) / 1000)%Q.

Definition q_ltb (a b : Q) : bool := negb (Qle_bool b a).

(** The tail of [run] once a candidate is chosen. *)
Definition finish_load (seg : Segment) (l : Load) (s : VideoTile) : VideoTile :=
  let target := pl_target l in
  let s1 := set_loaded (mkLoaded (sg_url seg) (sg_start seg) (sg_end seg) target) s in
  let off := offset_sec target (sg_start seg) in
  let s2 :=
    if covers target seg then
      match vd_duration (p_video s1) with
      | Some d => if q_ltb off d then set_video (set_time off (p_video s1)) s1 else s1
      | None => s1
      end
    else s1 in
  let s3 := setLoading false s2 in
  let s4 := set_video (set_vrate (p_rate s3) (p_video s3)) s3 in
  set_load None (if pl_autoPlay l then play s4 else pause s4).

(** Assigning a candidate and waiting for its metadata. *)
Definition start_candidate (cand : Segment) (segs : list Segment) (best attempt : nat) (l : Load) (s : VideoTile) : VideoTile :=
  set_load (Some (mkLoad (pl_target l) (pl_autoPlay l) (pl_suppress l) (pl_isRetry l)
                    (LoadingMeta segs best attempt)))
    (set_video (set_vrate (p_rate s) (load_src (SegSource (sg_url cand)) (p_video s))) s).

(** One turn of the candidate loop: [None] when no candidate is left. *)
Definition try_candidate (segs : list Segment) (best attempt : nat) (l : Load) (s : VideoTile) : option VideoTile :=
  if (attempt <? length segs)%nat && (attempt <? best + 5)%nat then
    match segs !! attempt with
    | Some cand =>
        if String.eqb (sg_url cand) (lo_url (p_loaded s)) then Some (finish_load cand l s)
        else Some (start_candidate cand segs best attempt l s)
    | None => None
    end
  else None.

(** The head of [run]: the load before is aborted, the messages are reset. *)
Definition begin_load (l : Load) (s : VideoTile) : VideoTile :=
  setError EmptyString (set_load None (if pl_suppress l then s else setLoading true s)).

Definition wait_fetch (l : Load) (s : VideoTile) : VideoTile :=
  set_load (Some (mkLoad (pl_target l) (pl_autoPlay l) (pl_suppress l) (pl_isRetry l) Fetching)) s.

Definition in_cache (now target : Z) (c : Cache) : bool :=
  (now - ca_fetchedAt c <? SEGMENT_CACHE_MAX_AGE_MS) && negb (bool_decide (ca_segments c = [])) &&
  (ca_winStart c <=? target) && (target <=? ca_winEnd c).

Definition clear_url (s : VideoTile) : VideoTile :=
  set_loaded (mkLoaded EmptyString (lo_start (p_loaded s)) (lo_end (p_loaded s)) (lo_lastSeek (p_loaded s))) s.

Definition NO_RECORDINGS : string := "No recordings available at this time".
Definition UNPLAYABLE : string := "Could not play recording — file may be corrupt or still being written".

(** The [catch] of [run] for anything but an abort.  A retry finds the cache empty and
    so waits for the network ([run_empty_cache]). *)
Definition load_failed (l : Load) (s : VideoTile) : VideoTile :=
  if pl_isRetry l then
    set_load None (setLoading false
      (setError (if (0 <? length (ca_segments (p_cache s)))%nat then UNPLAYABLE else NO_RECORDINGS) s))
  else
    let l' := mkLoad (pl_target l) (pl_autoPlay l) (pl_suppress l) true Fetching in
    wait_fetch l' (begin_load l' (clear_url (set_cache no_cache s))).

Definition choose (segs : list Segment) (l : Load) (s : VideoTile) : VideoTile :=
  let best := bestIdx segs (pl_target l) in
  match try_candidate segs best best l s with Some s' => s' | None => load_failed l s end.

Definition run (now : Z) (l : Load) (s : VideoTile) : VideoTile :=
  let s1 := begin_load l s in
  if in_cache now (pl_target l) (p_cache s1) then choose (ca_segments (p_cache s1)) l s1
  else wait_fetch l s1.

Definition loadSegmentForTime (now target : Z) (autoPlay suppress : bool) (s : VideoTile) : VideoTile :=
  run now (mkLoad target autoPlay suppress false Fetching) s.

(** [fetchPlaybackSegments] settles: [None] for a rejection, the empty list also for an
    error status. *)
Definition fetch_settles (now : Z) (reply : option (list Segment)) (s : VideoTile) : VideoTile :=
  match p_load s with
  | Some l =>
      match pl_stage l, reply with
      | Fetching, None => load_failed l s
      | Fetching, Some [] => set_load None (setLoading false (setError NO_RECORDINGS s))
      | Fetching, Some (seg :: r) =>
          let segs := seg :: r in
          choose segs l (set_cache (mkCache segs now (sg_start seg) (sg_end (List.last r seg))) s)
      | LoadingMeta _ _ _, _ => s
      end
  | None => s
  end.

(** The element reports the metadata, or an error, of the candidate. *)
Definition meta_loaded (duration : Q) (s : VideoTile) : VideoTile :=
  let s1 := set_video (set_duration duration (p_video s)) s in
  match p_load s1 with
  | Some l =>
      match pl_stage l with
      | LoadingMeta segs best attempt =>
          match segs !! attempt with
          | Some seg => finish_load seg l s1
          | None => s1
          end
      | Fetching => s1
      end
  | None => s1
  end.

Definition meta_error (s : VideoTile) : VideoTile :=
  match p_load s with
  | Some l =>
      match pl_stage l with
      | LoadingMeta segs best attempt =>
          match try_candidate segs best (S attempt) l s with Some s' => s' | None => load_failed l s end
      | Fetching => s
      end
  | None => s
  end.

(** ** The effects *)

(** Entering playback (or another camera while there). *)
Definition enter_playback (now : Z) (playbackTime : option Z) (s : VideoTile) : VideoTile :=
  let s1 := set_live false (set_video (load_src NoSource (p_video s)) s) in
  let s2 := set_loaded (mkLoaded EmptyString 0 0 (lo_lastSeek (p_loaded s1))) (set_cache no_cache s1) in
  loadSegmentForTime now (or_Z playbackTime now) false false s2.

(** Leaving it: the cleanup of the playback effect, then the live effect, whose player
    takes the element. *)
Definition go_live (s : VideoTile) : VideoTile :=
  let s1 := set_live true (set_video (load_src NoSource (p_video s)) s) in
  let s2 := setError EmptyString (setLoading true s1) in
  set_video (load_src LiveSource (p_video s2)) s2.

(** The effect of [playbackTime] and [scrubbing]. *)
Definition seek_effect (now target : Z) (scrubbing globalPaused : bool) (s : VideoTile) : VideoTile :=
  let lo := p_loaded s in
  if p_live s then s
  else if target =? lo_lastSeek lo then s
  else if (0 <? lo_start lo) && (0 <? lo_end lo) && (lo_start lo <=? target) && (target <=? lo_end lo) then
    let off := offset_sec target (lo_start lo) in
    match vd_duration (p_video s) with
    | Some d =>
        if Qle_bool 0 off && Qle_bool off d then
          let s1 := set_loaded (mkLoaded (lo_url lo) (lo_start lo) (lo_end lo) target)
                      (set_video (set_time off (p_video s)) s) in
          if vd_paused (p_video s1) && negb globalPaused then play s1 else s1
        else s
    | None => s
    end
  else
    let inCache := (ca_winStart (p_cache s) <=? target) && (target <=? ca_winEnd (p_cache s)) in
    let delay := if scrubbing then if inCache then 50 else 300 else 0 in
    set_jump (Some (mkDebounce (now + delay) target scrubbing)) s.

Definition jump_fires (now : Z) (s : VideoTile) : VideoTile :=
  match p_timer s with
  | Some d =>
      if db_due d <=? now then loadSegmentForTime now (db_target d) true (db_scrubbing d) (set_jump None s)
      else s
  | None => s
  end.

(** The element pauses at the end of its media; then [onEnded]. *)
Definition video_ends (now : Z) (s : VideoTile) : VideoTile :=
  let s1 := set_video (set_vpaused true (p_video s)) s in
  if p_live s then s1
  else
    let segs := ca_segments (p_cache s) in
    match find_index (λ x, String.eqb (sg_url x) (lo_url (p_loaded s))) segs with
    | Some i =>
        match segs !! S i with
        | Some next => loadSegmentForTime now (sg_start next + 1) true true s1
        | None => s1
        end
    | None => s1
    end.

(** The effect of [globalPaused]. *)
Definition pause_effect (globalPaused : bool) (s : VideoTile) : VideoTile :=
  if p_live s then s
  else if globalPaused && negb (vd_paused (p_video s)) then pause s
  else if negb globalPaused && vd_paused (p_video s) then play s else s.

Definition togglePause (s : VideoTile) : VideoTile := if vd_paused (p_video s) then play s else pause s.

(** The effect of [playbackRate]. *)
Definition rate_effect (r : Q) (s : VideoTile) : VideoTile :=
  let s1 := set_rate r s in
  if p_live s then s1 else set_video (set_vrate r (p_video s1)) s1.

Definition Qmax0 (a : Q) : Q := if Qle_bool 0 a then a else 0.

Definition stepFrame (direction : Z) (s : VideoTile) : VideoTile :=
  let s1 := pause s in
  set_video (set_time (Qmax0 (vd_time (p_video s1) + inject_Z direction * (1 # 30))%Q) (p_video s1)) s1.

(** The frame-step event; the listener exists in playback only. *)
Definition onStep (detail : Z) (s : VideoTile) : VideoTile :=
  if p_live s then s else stepFrame (if detail =? -1 then -1 else 1) s.

(** The live player starts, or gives up with a message. *)
Definition live_playing (s : VideoTile) : VideoTile :=
  if p_live s then setLoading false (set_video (set_vpaused false (p_video s)) s) else s.
Definition live_failed (message : string) (s : VideoTile) : VideoTile :=
  if p_live s then setLoading false (setError message s) else s.

Inductive TileEvent :=
  | EnterPlayback (playbackTime : option Z)
  | GoLive
  | Seek (target : Z) (scrubbing globalPaused : bool)
  | TimerFires
  | FetchSettles (reply : option (list Segment))
  | MetaLoaded (duration : Q)
  | MetaError
  | VideoEnds
  | GlobalPause (b : bool)
  | Rate (r : Q)
  | FrameStep (d : Z)
  | LivePlaying
  | LiveFailed (message : string).

(** An event at its time. *)
Definition tile_step (s : VideoTile) (e : Z * TileEvent) : VideoTile :=
  let '(now, ev) := e in
  match ev with
  | EnterPlayback t => enter_playback now t s
  | GoLive => go_live s
  | Seek t scr gp => seek_effect now t scr gp s
  | TimerFires => jump_fires now s
  | FetchSettles r => fetch_settles now r s
  | MetaLoaded d => meta_loaded d s
  | MetaError => meta_error s
  | VideoEnds => video_ends now s
  | GlobalPause b => pause_effect b s
  | Rate r => rate_effect r s
  | FrameStep d => onStep d s
  | LivePlaying => live_playing s
  | LiveFailed m => live_failed m s
  end.

Definition tile_run (s : VideoTile) : list (Z * TileEvent) → VideoTile := foldl tile_step s.

(** A tile that has just been mounted. *)
Definition initial_tile (live : bool) (rate : Q) : VideoTile :=
  mkVideoTile live (mkVideo NoSource None 0 true 1) no_cache (mkLoaded EmptyString 0 0 0)
    (mkShown true EmptyString false) rate None None.

(** ** Live errors *)

Record HlsError := mkHlsError {
  he_type : string; he_details : string; he_code : option Z; he_message : option string
}.

Definition hls_headline (e : HlsError) : string :=
  if String.eqb (he_type e) "networkError" then
    match he_code e with
    | Some c =>
        if (c =? 500) || (c =? 502) || (c =? 503) || (c =? 504) then "Camera offline"
        else if (c =? 401) || (c =? 403) then "Not authorized to view this camera"
        else if c =? 404 then "Stream not found"
        else "Network error reaching camera"
    | None => "Network error reaching camera"
    end
  else if String.eqb (he_type e) "mediaError" then
    if String.prefix "manifestIncompatibleCodecs" (he_details e) ||
       String.prefix "bufferIncompatibleCodecs" (he_details e)
    then "Browser cannot decode this stream (HEVC support missing)"
    else "Playback error in browser"
  else "Stream unavailable".

Definition hls_detail (e : HlsError) : string :=
  let httpPart := if truthy_oZ (he_code e) then " HTTP " +:+ pretty (default 0 (he_code e)) else EmptyString in
  let errPart :=
    if truthy_ostr (he_message e)
    then " — " +:+ String.substring 0 120 (default EmptyString (he_message e)) else EmptyString in
  he_type e +:+ "/" +:+ he_details e +:+ httpPart +:+ errPart.

(** Headline and detail travel in one string, split at the separator. *)
Definition error_line (e : HlsError) : string := hls_headline e +:+ "␟" +:+ hls_detail e.

(** ** The wall-clock overlay

    [zone] gives the offset of local time at an instant, in milliseconds. *)
Section clock.
Context (zone : Z → Z).

Definition formatWallClock (segStartMs : Z) (offsetSec : Q) : string :=
  let t := Qfloor (inject_Z segStartMs + offsetSec * 1000) in
  let d := t + zone t in
  pad_start 2 (d / 3600000 mod 24) +:+ ":" +:+ pad_start 2 (d / 60000 mod 60) +:+ ":" +:+
  pad_start 2 (d / 1000 mod 60) +:+ "." +:+ pad_start 2 (d mod 1000 / 10).

Definition NO_TIME : string := "--:--:--.--".

(** [onTime]: the overlay time and, when there is one, the file name. *)
Definition onTime (s : VideoTile) : string * option string :=
  let segStartMs := lo_start (p_loaded s) in
  if segStartMs <=? 0 then (NO_TIME, None)
  else
    (formatWallClock segStartMs (vd_time (p_video s)),
     let url := lo_url (p_loaded s) in
     if truthy_str url then
       let name := List.last (js_split "/" (nth 0 (js_split "#" (nth 0 (js_split "?" url) EmptyString)) EmptyString)) EmptyString in
       if truthy_str name then Some name else None
     else None).
End clock.

(** ** Stream quality *)

Inductive Quality := q_auto | q_high | q_low.

#[export] Instance Quality_eq_dec : EqDecision Quality.
Proof. solve_decision. Defined.

Definition effectiveQuality (cell stream : Quality) : Quality :=
  if decide (cell = q_auto) then stream else cell.

Definition useMainStream (cell stream : Quality) : bool := bool_decide (effectiveQuality cell stream = q_high).

Definition toggleCellQuality (stream cell : Quality) : Quality :=
  match cell with
  | q_auto => if useMainStream cell stream then q_low else q_high
  | q_high => q_low
  | q_low => q_high
  end.

(** ** PTZ hold buttons *)

Inductive PtzCall := PtzMove (pan tilt zoom : Q) | PtzStop.

Record Ptz := mkPtz { pz_live : bool; pz_active : bool; pz_timer : option Z }.

Definition handlePTZStart (pan tilt zoom : Q) (p : Ptz) : Ptz * list PtzCall :=
  if negb (pz_live p) then (p, [])
  else (mkPtz (pz_live p) true None, [PtzMove pan tilt zoom]).

Definition handlePTZStop (now : Z) (p : Ptz) : Ptz * list PtzCall :=
  if negb (pz_live p) || negb (pz_active p) then (p, [])
  else (mkPtz (pz_live p) (pz_active p) (Some (now + 50)), []).

Definition ptz_timer (now : Z) (p : Ptz) : Ptz * list PtzCall :=
  match pz_timer p with
  | Some d => if d <=? now then (mkPtz (pz_live p) false None, [PtzStop]) else (p, [])
  | None => (p, [])
  end.

Inductive PtzEvent := Press (pan tilt zoom : Q) | Release | PtzTimer | SetLive (b : bool).

Definition ptz_step (p : Ptz) (e : Z * PtzEvent) : Ptz * list PtzCall :=
  match e.2 with
  | Press a b c => handlePTZStart a b c p
  | Release => handlePTZStop e.1 p
  | PtzTimer => ptz_timer e.1 p
  | SetLive b => (mkPtz b (pz_active p) (pz_timer p), [])
  end.

Fixpoint ptz_run (p : Ptz) (es : list (Z * PtzEvent)) : Ptz * list PtzCall :=
  match es with
  | [] => (p, [])
  | e :: r => let '(p1, c1) := ptz_step p e in let '(p2, c2) := ptz_run p1 r in (p2, (c1 ++ c2)%list)
  end.

(** ** The zones of the live overlay

    Each run of the effect cancels the one before, so only the newest fetch, kept in
    [zn_wait], can still set the zones. *)

Record Zones {R : Type} := mkZones { zn_zones : list R; zn_wait : option nat; zn_next : nat }.
Arguments Zones : clear implicits.
Arguments mkZones {R}.

Definition zones_effect {R} (isLive : bool) (z : Zones R) : Zones R :=
  if negb isLive then mkZones [] None (zn_next z) else mkZones [] (Some (zn_next z)) (S (zn_next z)).

(** The fetch numbered [n] settles: a list, another value, or a rejection. *)
Definition zones_settle {R} (n : nat) (reply : option (list R)) (z : Zones R) : Zones R :=
  if bool_decide (zn_wait z = Some n) then mkZones (default [] reply) None (zn_next z) else z.

(** * Lemmas *)

(** ** The search *)

Lemma best_from_cover segs target i best j s :
  segs !! j = Some s → covers target s = true →
  (∀ k s', (k < j)%nat → segs !! k = Some s' → covers target s' = false) →
  best_from i segs target best = Some (i + j)%nat.
Proof.
  revert i best j. induction segs as [|x segs IH]; intros i best [|j] Hj Hc Hk; simplify_eq/=.
  - rewrite Hc. f_equal. lia.
  - rewrite (Hk 0%nat x) by (done || lia). rewrite (IH (S i) _ j); [f_equal; lia|done|done|].
    intros k s' ? ?. apply (Hk (S k)); [lia|done].
Qed.

Lemma best_from_none segs target i best :
  (∀ s, s ∈ segs → covers target s = false) →
  (∀ s, s ∈ segs → (sg_start s <=? target) = false) → best_from i segs target best = best.
Proof.
  revert i best. induction segs as [|x segs IH]; intros i best Hc Hs; [done|]. simpl.
  rewrite (Hc x), (Hs x) by (by left). apply IH; intros s ?; [apply Hc|apply Hs]; by right.
Qed.

Lemma best_from_started segs target i best j s :
  (∀ s', s' ∈ segs → covers target s' = false) →
  segs !! j = Some s → (sg_start s <=? target) = true →
  (∀ k s', (j < k)%nat → segs !! k = Some s' → (sg_start s' <=? target) = false) →
  best_from i segs target best = Some (i + j)%nat.
Proof.
  revert i best j. induction segs as [|x segs IH]; intros i best [|j] Hc Hj Hs Hk; simplify_eq/=.
  - rewrite (Hc s) by (by left). rewrite Hs. rewrite best_from_none; [f_equal; lia|..].
    + intros s' ?. apply Hc. by right.
    + intros s' [k Hk']%list_elem_of_lookup. apply (Hk (S k)); [lia|done].
  - rewrite (Hc x) by (by left). rewrite (IH (S i) _ j); [f_equal; lia|..]; try done.
    + intros s' ?. apply Hc. by right.
    + intros k s' ? ?. apply (Hk (S k)); [lia|done].
Qed.

Lemma best_from_bound segs target i best k :
  best_from i segs target best = Some k → best = Some k ∨ (i <= k < i + length segs)%nat.
Proof.
  revert i best. induction segs as [|x segs IH]; intros i best H; [by left|]. simpl in *.
  destruct (covers target x); [simplify_eq; right; lia|].
  apply IH in H as [H|H]; [|right; lia]. destruct (sg_start x <=? target); [simplify_eq; right; lia|by left].
Qed.

Lemma bestIdx_bound segs target : segs ≠ [] → (bestIdx segs target < length segs)%nat.
Proof.
  intros Hne. unfold bestIdx. destruct (best_from 0 segs target None) as [k|] eqn:E; simpl.
  - apply best_from_bound in E as [?|?]; [done|lia].
  - destruct segs; [done|]. simpl. lia.
Qed.

(** ** A load with a settled environment *)

Lemma try_first segs best l s :
  (best < length segs)%nat → is_Some (try_candidate segs best best l s).
Proof.
  intros H. unfold try_candidate. destruct (lookup_lt_is_Some_2 segs best H) as [c Hc].
  replace ((best <? length segs)%nat && (best <? best + 5)%nat) with true.
  - rewrite Hc. destruct (String.eqb _ _); eauto.
  - symmetry. apply andb_true_iff. split; apply Nat.ltb_lt; lia.
Qed.

(** A load whose list is known tries the best segment. *)
Lemma choose_at segs i c l s :
  bestIdx segs (pl_target l) = i → segs !! i = Some c →
  choose segs l s =
    if String.eqb (sg_url c) (lo_url (p_loaded s)) then finish_load c l s else start_candidate c segs i i l s.
Proof.
  intros Hb Hc. unfold choose, try_candidate. rewrite Hb, Hc. pose proof (lookup_lt_Some _ _ _ Hc).
  replace ((i <? length segs)%nat && (i <? i + 5)%nat) with true by (symmetry; apply andb_true_iff; split; apply Nat.ltb_lt; lia).
  by destruct (String.eqb _ _).
Qed.

Lemma cache_begin l s : p_cache (begin_load l s) = p_cache s.
Proof. unfold begin_load. by destruct (pl_suppress l). Qed.

(** A retry, or any load on an empty cache, waits for the network. *)
Lemma run_empty_cache now l s :
  ca_segments (p_cache s) = [] → run now l s = wait_fetch l (begin_load l s).
Proof.
  intros H. unfold run, in_cache. rewrite cache_begin, H. by rewrite bool_decide_eq_true_2, andb_false_r.
Qed.

(** ** What opening a recording means

    The environment: how the list is answered, first and on the retry, and which media
    can be played (with their duration). *)
Section opening.
Context (now : Z) (r1 r2 : option (list Segment)) (playable : string → option Q).

Definition answer (s : VideoTile) : VideoTile :=
  match p_load s with
  | Some l =>
      match pl_stage l with
      | Fetching => fetch_settles now (if pl_isRetry l then r2 else r1) s
      | LoadingMeta segs best attempt =>
          match segs !! attempt ≫= λ c, playable (sg_url c) with
          | Some d => meta_loaded d s
          | None => meta_error s
          end
      end
  | None => s
  end.

(** The environment answers [n] times. *)
Definition drive (n : nat) : VideoTile → VideoTile := Nat.iter n answer.

Inductive Outcome := Shows (seg : Segment) (position : Q) | Fails (message : string).

(** The first playable one of the five candidates from the best on. *)
Definition first_playable (segs : list Segment) (target : Z) : option (Segment * Q) :=
  head (omap (λ c, (λ d, (c, d)) <$> playable (sg_url c)) (take 5 (drop (bestIdx segs target) segs))).

Definition position (target : Z) (seg : Segment) (d : Q) : Q :=
  if covers target seg && q_ltb (offset_sec target (sg_start seg)) d then offset_sec target (sg_start seg) else 0.

(** One pass: [None] asks for a retry. *)
Definition pass (target : Z) (r : option (list Segment)) : option Outcome :=
  match r with
  | None => None
  | Some [] => Some (Fails NO_RECORDINGS)
  | Some segs => (λ c, Shows c.1 (position target c.1 c.2)) <$> first_playable segs target
  end.

Definition opening (target : Z) : Outcome :=
  match pass target r1 with
  | Some o => o
  | None =>
      match pass target r2 with
      | Some o => o
      | None => Fails (match r2 with Some _ => UNPLAYABLE | None => NO_RECORDINGS end)
      end
  end.

(** The tile has come to rest with an outcome. *)
Definition rests (target : Z) (autoPlay : bool) (o : Outcome) (s : VideoTile) : Prop :=
  p_load s = None ∧ sh_loading (p_shown s) = false ∧
  match o with
  | Shows seg pos =>
      sh_error (p_shown s) = EmptyString ∧ sh_paused (p_shown s) = negb autoPlay ∧
      p_loaded s = mkLoaded (sg_url seg) (sg_start seg) (sg_end seg) target ∧
      (∃ d, playable (sg_url seg) = Some d ∧
         p_video s = mkVideo (SegSource (sg_url seg)) (Some d) pos (negb autoPlay) (p_rate s))
  | Fails msg => sh_error (p_shown s) = msg
  end.

Definition of_stage (st : Stage) (l : Load) : Load :=
  mkLoad (pl_target l) (pl_autoPlay l) (pl_suppress l) (pl_isRetry l) st.

Lemma drive_add n m s : drive (n + m) s = drive n (drive m s).
Proof. apply Nat.iter_add. Qed.

Lemma drive_rest n s : p_load s = None → drive n s = s.
Proof.
  intros H. induction n as [|n IH]; [done|]. unfold drive in *. simpl. rewrite IH. unfold answer. by rewrite H.
Qed.

Lemma drive_S n s : drive (S n) s = drive n (answer s).
Proof. unfold drive. by rewrite Nat.iter_succ_r. Qed.

(** A candidate that plays is shown. *)
Lemma finish_rests c d l segs best a s st :
  playable (sg_url c) = Some d → sh_error (p_shown s) = EmptyString →
  rests (pl_target l) (pl_autoPlay l) (Shows c (position (pl_target l) c d))
    (finish_load c (of_stage st l)
       (set_video (set_duration d (p_video (start_candidate c segs best a l s))) (start_candidate c segs best a l s))).
Proof.
  intros Hd He. unfold rests, finish_load, position. simpl.
  destruct (covers _ _); simpl; [destruct (q_ltb _ _); simpl|]; destruct (pl_autoPlay l); simpl;
    (split_and!; [done..|]); exists d; done.
Qed.

Lemma take_drop_cons {A} k a (l : list A) c rest :
  take k (drop a l) = c :: rest →
  ∃ k', k = S k' ∧ l !! a = Some c ∧ rest = take k' (drop (S a) l).
Proof.
  intros H. destruct k as [|k]; [done|]. exists k.
  assert (Hl : l !! a = Some c).
  { destruct (drop a l) as [|x r] eqn:E; simplify_eq/=.
    rewrite <- (Nat.add_0_r a), <- lookup_drop, E. done. }
  split_and!; [done..|]. by rewrite (drop_S _ c a Hl) in H; simplify_eq/=.
Qed.

Lemma try_next segs best a l s st :
  lo_url (p_loaded s) = EmptyString → Forall (λ c, sg_url c ≠ EmptyString) segs → (best <= a)%nat →
  try_candidate segs best a (of_stage st l) s =
    (λ c, start_candidate c segs best a l s) <$> head (take (best + 5 - a) (drop a segs)).
Proof.
  intros Hu Hurl Ha. unfold try_candidate.
  destruct (take (best + 5 - a) (drop a segs)) as [|c rest] eqn:E; simpl.
  - assert (Hlen : length (take (best + 5 - a) (drop a segs)) = 0%nat) by by rewrite E.
    rewrite length_take, length_drop in Hlen.
    destruct ((a <? length segs)%nat && (a <? best + 5)%nat) eqn:Eb; [|done].
    apply andb_true_iff in Eb as [?%Nat.ltb_lt ?%Nat.ltb_lt]. lia.
  - destruct (take_drop_cons _ _ _ _ _ E) as (k & Hk & Hc & _).
    pose proof (lookup_lt_Some _ _ _ Hc) as Hlt.
    replace ((a <? length segs)%nat && (a <? best + 5)%nat) with true
      by (symmetry; apply andb_true_iff; split; apply Nat.ltb_lt; lia).
    rewrite Hc, Hu. destruct (String.eqb_spec (sg_url c) EmptyString) as [Hb|_]; [|done].
    by destruct (Forall_lookup_1 _ _ _ _ Hurl Hc).
Qed.

Abbreviation plays := (λ c, (λ d, (c, d)) <$> playable (sg_url c)).

(** The candidate loop shows the first that plays, or fails after the last. *)
Lemma scan segs best l : Forall (λ c, sg_url c ≠ EmptyString) segs →
  ∀ rest a c s, take (best + 5 - a) (drop a segs) = c :: rest → (best <= a)%nat →
  lo_url (p_loaded s) = EmptyString → sh_error (p_shown s) = EmptyString →
  ∃ n, (n <= S (length rest))%nat ∧
    let s' := drive n (start_candidate c segs best a l s) in
    match head (omap plays (c :: rest)) with
    | Some (c', d) => rests (pl_target l) (pl_autoPlay l) (Shows c' (position (pl_target l) c' d)) s'
    | None => ∃ c' a', s' = load_failed (of_stage (LoadingMeta segs best a') l) (start_candidate c' segs best a' l s)
    end.
Proof.
  intros Hurl rest. induction rest as [|c2 rest IH]; intros a c s Hw Ha Hu He;
    destruct (take_drop_cons _ _ _ _ _ Hw) as (k & Hk & Hc & Hrest);
    (destruct (playable (sg_url c)) as [d|] eqn:Hp;
      [exists 1%nat; split; [lia|]; rewrite drive_S; simpl; rewrite Hp; unfold answer; simpl; rewrite Hc; simpl;
       rewrite Hp; unfold meta_loaded; simpl; rewrite Hc; by apply (finish_rests c d l segs best a)|]).
  - exists 1%nat. split; [lia|]. rewrite drive_S. simpl. rewrite Hp. simpl. exists c, a.
    unfold answer. simpl. rewrite Hc. simpl. rewrite Hp. unfold meta_error. simpl.
    fold (of_stage (LoadingMeta segs best a) l). rewrite try_next by (done || lia).
    replace (best + 5 - S a)%nat with k by lia. by rewrite <- Hrest.
  - assert (Hw' : take (best + 5 - S a) (drop (S a) segs) = c2 :: rest) by (rewrite Hrest; f_equal; lia).
    destruct (IH (S a) c2 s Hw') as (n & Hn & H); [lia|done..|].
    exists (S n). split; [simpl; lia|]. rewrite drive_S.
    assert (Hstep : answer (start_candidate c segs best a l s) = start_candidate c2 segs best (S a) l s).
    { unfold answer. simpl. rewrite Hc. simpl. rewrite Hp. unfold meta_error. simpl.
      fold (of_stage (LoadingMeta segs best a) l). rewrite try_next by (done || lia). by rewrite Hw'. }
    rewrite Hstep. cbn [omap list_omap]. rewrite Hp. exact H.
Qed.

(** One pass over a reply: an outcome, or the failure that is retried. *)
Lemma pass_settles l s :
  p_load s = Some (of_stage Fetching l) → lo_url (p_loaded s) = EmptyString →
  sh_error (p_shown s) = EmptyString →
  (∀ segs, (if pl_isRetry l then r2 else r1) = Some segs → Forall (λ c, sg_url c ≠ EmptyString) segs) →
  ∃ n, (n <= 6)%nat ∧
    match pass (pl_target l) (if pl_isRetry l then r2 else r1) with
    | Some o => rests (pl_target l) (pl_autoPlay l) o (drive n s)
    | None => ∃ st s', drive n s = load_failed (of_stage st l) s' ∧
        ca_segments (p_cache s') =
          match (if pl_isRetry l then r2 else r1) with Some segs => segs | None => ca_segments (p_cache s) end ∧
        ((if pl_isRetry l then r2 else r1) = None ∨
         ∃ c r, (if pl_isRetry l then r2 else r1) = Some (c :: r))
    end.
Proof.
  intros Hl Hu He Hurl. set (q := if pl_isRetry l then r2 else r1) in *.
  assert (Ha : answer s = fetch_settles now q s) by (unfold answer; by rewrite Hl).
  destruct q as [[|c0 r]|].
  - exists 1%nat. split; [lia|]. rewrite drive_S. simpl. rewrite Ha. unfold fetch_settles. rewrite Hl. by split_and!.
  - set (segs := c0 :: r). specialize (Hurl segs eq_refl).
    assert (Hb := bestIdx_bound segs (pl_target l) ltac:(done)). set (best := bestIdx segs (pl_target l)) in *.
    set (s1 := set_cache (mkCache segs now (sg_start c0) (sg_end (List.last r c0))) s).
    destruct (take (best + 5 - best) (drop best segs)) as [|c rest] eqn:Ew.
    { assert (Hlen : length (take (best + 5 - best) (drop best segs)) = 0%nat) by by rewrite Ew.
      rewrite length_take, length_drop in Hlen. lia. }
    assert (Hs : answer s = start_candidate c segs best best l s1).
    { rewrite Ha. unfold fetch_settles. rewrite Hl. simpl. fold segs. fold s1. unfold choose. simpl. fold best.
      rewrite (try_next segs best best l s1) by done. by rewrite Ew. }
    destruct (scan segs best l Hurl rest best c s1 Ew ltac:(lia) Hu He) as (n & Hn & H).
    assert (Hlen : (S (length rest) <= 5)%nat).
    { change (S (length rest)) with (length (c :: rest)). rewrite <- Ew, length_take. lia. }
    exists (S n). split; [lia|]. rewrite drive_S, Hs. unfold pass, first_playable. fold segs. fold best.
    replace (take 5 (drop best segs)) with (c :: rest) by (rewrite <- Ew; f_equal; lia).
    destruct (head (omap plays (c :: rest))) as [[c' d]|]; simpl in *; [exact H|].
    destruct H as (c' & a' & ->). do 2 eexists. split; [reflexivity|]. split; [done|]. right. by eexists _, _.
  - exists 1%nat. split; [lia|]. rewrite drive_S. simpl. rewrite Ha. unfold fetch_settles. rewrite Hl. simpl.
    do 2 eexists. split; [reflexivity|]. split; [done|]. by left.
Qed.

(** From a load that waits for its list, at most twelve answers bring the outcome. *)
Lemma opening_settles l s :
  p_load s = Some (of_stage Fetching l) → pl_isRetry l = false → lo_url (p_loaded s) = EmptyString →
  sh_error (p_shown s) = EmptyString →
  (∀ segs, r1 = Some segs ∨ r2 = Some segs → Forall (λ c, sg_url c ≠ EmptyString) segs) →
  rests (pl_target l) (pl_autoPlay l) (opening (pl_target l)) (drive 12 s).
Proof.
  intros Hl Hr Hu He Hurl. unfold opening.
  assert (Hstop : ∀ n m o t, (n <= m)%nat → rests (pl_target l) (pl_autoPlay l) o (drive n t) →
    rests (pl_target l) (pl_autoPlay l) o (drive m t)).
  { intros n m o t Hnm H. replace m with ((m - n) + n)%nat by lia. rewrite drive_add, drive_rest; [done|apply H]. }
  destruct (pass_settles l s Hl Hu He) as (n & Hn & H); [intros segs; rewrite Hr; auto|]. rewrite Hr in H.
  destruct (pass (pl_target l) r1) as [o|]; [apply (Hstop n); [lia|done]|].
  destruct H as (st & s' & Hs' & _). unfold load_failed in Hs'. simpl in Hs'. rewrite Hr in Hs'.
  set (l2 := mkLoad (pl_target l) (pl_autoPlay l) (pl_suppress l) true Fetching) in *.
  set (s2 := wait_fetch l2 _) in Hs'.
  assert (Hb : p_loaded s2 = p_loaded (clear_url (set_cache no_cache s')) ∧ sh_error (p_shown s2) = EmptyString ∧
               p_cache s2 = no_cache).
  { unfold s2, wait_fetch, begin_load. by destruct (pl_suppress l2). }
  destruct Hb as (Hb1 & Hb2 & Hb3).
  destruct (pass_settles l2 s2) as (m & Hm & H2); [done|by rewrite Hb1|done|simpl; auto|].
  replace 12%nat with ((12 - n) + n)%nat by lia. rewrite drive_add, Hs'. simpl in H2.
  destruct (pass (pl_target l) r2) as [o|]; [apply (Hstop m); [lia|done]|].
  destruct H2 as (st2 & s3 & Hs3 & Hc & Hcase). apply (Hstop m); [lia|]. rewrite Hs3.
  unfold load_failed. simpl. unfold rests. simpl. rewrite Hc. split_and!; [done..|].
  destruct Hcase as [Hn2 | (c & r & Hn2)]; rewrite Hn2; [by destruct (pl_suppress l)|done].
Qed.
End opening.

(** ** Properties *)

(** C16. Opening a recording does what it should: entering playback at a time, with any
    answers to the list request and its one retry and any media that load or fail, comes
    to rest after at most twelve answers, and then shows exactly the first playable of
    the five segments from the best one on, positioned at the time if it lies inside, at
    the selected speed and paused; otherwise it shows that there are no recordings (an
    empty list, or no list at all) or that they cannot be played. *)
Theorem opening_refines now r1 r2 playable t s :
  (∀ segs, r1 = Some segs ∨ r2 = Some segs → Forall (λ c, sg_url c ≠ EmptyString) segs) →
  let s0 := enter_playback now t s in
  let target := or_Z t now in
  rests playable target false (opening r1 r2 playable target) (drive now r1 r2 playable 12 s0).
Proof.
  intros Hurl s0 target. set (l := mkLoad target false false false Fetching).
  assert (H : s0 = wait_fetch l (begin_load l (set_loaded (mkLoaded EmptyString 0 0 (lo_lastSeek (p_loaded s)))
                     (set_cache no_cache (set_live false (set_video (load_src NoSource (p_video s)) s)))))).
  { unfold s0, enter_playback, loadSegmentForTime. by apply run_empty_cache. }
  rewrite H. by apply (opening_settles now r1 r2 playable l).
Qed.

Definition two_files : list Segment := [mkSegment "/m/a" 1000000 1060000; mkSegment "/m/b" 1060000 1120000].

Lemma opening_refines_witness :
  let plays (u : string) := if String.eqb u "/m/b" then Some 60%Q else None in
  p_video (drive 5 (Some two_files) None plays 12 (enter_playback 9 (Some 1030000) (initial_tile true 2))) =
    mkVideo (SegSource "/m/b") (Some 60%Q) 0 true 2.
Proof.
  intros plays.
  destruct (opening_refines 5 (Some two_files) None plays (Some 1030000) (initial_tile true 2)) as (_ & _ & H).
  { intros segs [[= <-]|[=]]. by repeat constructor. }
  destruct H as (_ & _ & _ & d & Hd & H). vm_compute in Hd. injection Hd as <-. exact H.
Defined.

(** Continuous playback: when a segment ends, the tile starts exactly the next one of
    its list, provided the ended one does not reach past the start of the next.  When the
    two overlap by a millisecond or more, the loader finds the ended segment again: it
    replays its tail, from the next start on, and so never gets past it. *)
Theorem advance_exact now s i cur next :
  let segs := ca_segments (p_cache s) in
  let target := sg_start next + 1 in
  p_live s = false →
  find_index (λ x, String.eqb (sg_url x) (lo_url (p_loaded s))) segs = Some i →
  segs !! i = Some cur → segs !! S i = Some next → sg_url next ≠ lo_url (p_loaded s) →
  in_cache now target (p_cache s) = true →
  (∀ k x, (k < i)%nat → segs !! k = Some x → sg_end x <= sg_start next) → sg_start next < sg_end next →
  let s' := video_ends now s in
  (sg_end cur <= sg_start next →
     vd_src (p_video s') = SegSource (sg_url next) ∧
     p_load s' = Some (mkLoad target true true false (LoadingMeta segs (S i) (S i)))) ∧
  (sg_start next < sg_end cur → sg_start cur <= sg_start next →
     p_load s' = None ∧ vd_src (p_video s') = vd_src (p_video s) ∧ lo_url (p_loaded s') = lo_url (p_loaded s) ∧
     vd_paused (p_video s') = false ∧
     (∀ d, vd_duration (p_video s) = Some d → q_ltb (offset_sec target (sg_start cur)) d = true →
        vd_time (p_video s') = offset_sec target (sg_start cur))).
Proof.
  intros segs target Hlive Hf Hcur Hnext Hne Hin Hold Hlen s'.
  assert (Hurl : sg_url cur = lo_url (p_loaded s)).
  { apply fmap_Some in Hf as ([j x] & Hx & ->). apply list_find_Some in Hx as (Hx & Hp & _). simpl in *.
    rewrite Hx in Hcur. simplify_eq. by apply Is_true_true, String.eqb_eq in Hp. }
  assert (Hs : s' = choose segs (mkLoad target true true false Fetching)
                      (begin_load (mkLoad target true true false Fetching) (set_video (set_vpaused true (p_video s)) s))).
  { unfold s', video_ends. rewrite Hlive. fold segs. rewrite Hf, Hnext. unfold loadSegmentForTime, run.
    rewrite cache_begin. simpl p_cache. fold target. simpl pl_target. by rewrite Hin. }
  assert (Hearly : ∀ k x, (k < i)%nat → segs !! k = Some x → covers target x = false).
  { intros k x Hk Hx. pose proof (Hold k x Hk Hx). unfold covers, target. apply andb_false_iff. right. lia. }
  split.
  - intros Hend. assert (Hb : bestIdx segs target = S i).
    { unfold bestIdx. rewrite (best_from_cover segs target 0 None (S i) next); [done..| |].
      - unfold covers, target. apply andb_true_iff. lia.
      - intros k x Hk Hx. destruct (decide (k = i)) as [->|]; [|apply (Hearly k); [lia|done]].
        rewrite Hx in Hcur. simplify_eq. unfold covers, target. apply andb_false_iff. right. lia. }
    rewrite Hs, (choose_at segs (S i) next) by done. simpl.
    by rewrite (proj2 (String.eqb_neq _ _)).
  - intros Hover Hst. assert (Hb : bestIdx segs target = i).
    { unfold bestIdx. rewrite (best_from_cover segs target 0 None i cur); [done..| |done].
      unfold covers, target. apply andb_true_iff. lia. }
    rewrite Hs, (choose_at segs i cur) by done. rewrite (proj2 (String.eqb_eq _ _)) by done.
    unfold finish_load. simpl. fold target.
    assert (Hc : covers target cur = true) by (unfold covers, target; apply andb_true_iff; lia).
    rewrite Hc. destruct (vd_duration (p_video s)) as [d|] eqn:Ed; [destruct (q_ltb _ d) eqn:Eq|];
      simpl; rewrite ?Hurl; split_and!; try done; intros d' [= <-]; congruence.
Qed.

(** A tile that plays [/m/a] from a list of two files. *)
Definition playing_a (b_start : Z) : VideoTile :=
  let segs := [mkSegment "/m/a" 1000000 1060000; mkSegment "/m/b" b_start 1120000] in
  mkVideoTile false (mkVideo (SegSource "/m/a") (Some 60%Q) 60 false 1) (mkCache segs 0 1000000 1120000)
    (mkLoaded "/m/a" 1000000 1060000 1000000) (mkShown false EmptyString false) 1 None None.

Lemma advance_exact_witness :
  vd_src (p_video (video_ends 5 (playing_a 1060000))) = SegSource "/m/b" ∧
  vd_time (p_video (video_ends 5 (playing_a 1050000))) = offset_sec 1050001 1000000.
Proof.
  split.
  - apply (advance_exact 5 (playing_a 1060000) 0 (mkSegment "/m/a" 1000000 1060000)
      (mkSegment "/m/b" 1060000 1120000) eq_refl eq_refl eq_refl eq_refl ltac:(done) eq_refl ltac:(intros; lia) eq_refl).
    simpl. lia.
  - destruct (advance_exact 5 (playing_a 1050000) 0 (mkSegment "/m/a" 1000000 1060000)
      (mkSegment "/m/b" 1050000 1120000) eq_refl eq_refl eq_refl eq_refl ltac:(done) eq_refl ltac:(intros; lia) eq_refl)
      as [_ H].
    destruct H as (_ & _ & _ & _ & H); [simpl; lia|simpl; lia|]. exact (H 60%Q eq_refl eq_refl).
Defined.

(** A bad file next to the playing one leaves the tile black: seeking back from a
    segment into a file before it that does not load makes the loader fall through to
    the segment it came from, which it takes for still loaded.  It comes to rest with no
    message while the element holds the bad file, and no seek inside that segment or a
    change of pause brings a picture back. *)
Theorem corrupt_neighbour_black now now' target auto suppress s i bad cur :
  p_live s = false → lo_url (p_loaded s) = sg_url cur → sg_url bad ≠ sg_url cur →
  ca_segments (p_cache s) !! i = Some bad → ca_segments (p_cache s) !! S i = Some cur →
  in_cache now target (p_cache s) = true → bestIdx (ca_segments (p_cache s)) target = i →
  let s1 := loadSegmentForTime now target auto suppress s in
  let s2 := meta_error s1 in
  vd_src (p_video s1) = SegSource (sg_url bad) ∧
  p_load s2 = None ∧ sh_error (p_shown s2) = EmptyString ∧ sh_loading (p_shown s2) = false ∧
  lo_url (p_loaded s2) = sg_url cur ∧
  vd_src (p_video s2) = SegSource (sg_url bad) ∧ vd_duration (p_video s2) = None ∧
  ∀ t scr gp, 0 < sg_start cur → sg_start cur <= t <= sg_end cur → p_video (seek_effect now' t scr gp s2) = p_video s2.
Proof.
  intros Hlive Hu Hne Hbad Hcur Hin Hb s1 s2.
  set (l := mkLoad target auto suppress false Fetching).
  assert (H1 : s1 = start_candidate bad (ca_segments (p_cache s)) i i l (begin_load l s)).
  { unfold s1, loadSegmentForTime, run. fold l. rewrite cache_begin. simpl pl_target. rewrite Hin.
    rewrite (choose_at _ i bad) by done.
    replace (lo_url (p_loaded (begin_load l s))) with (sg_url cur) by (unfold begin_load; by destruct (pl_suppress l)).
    by rewrite (proj2 (String.eqb_neq _ _)). }
  assert (H2 : s2 = finish_load cur (of_stage (LoadingMeta (ca_segments (p_cache s)) i i) l) s1).
  { unfold s2, meta_error. rewrite H1. simpl. unfold try_candidate.
    pose proof (lookup_lt_Some _ _ _ Hcur).
    replace ((S i <? length (ca_segments (p_cache s)))%nat && (S i <? i + 5)%nat) with true
      by (symmetry; apply andb_true_iff; split; apply Nat.ltb_lt; lia).
    rewrite Hcur. simpl.
    replace (lo_url (p_loaded (if suppress then s else setLoading true s))) with (sg_url cur) by by destruct suppress.
    by rewrite String.eqb_refl. }
  assert (Hv : vd_src (p_video s2) = SegSource (sg_url bad) ∧ vd_duration (p_video s2) = None ∧
    p_load s2 = None ∧ sh_error (p_shown s2) = EmptyString ∧ sh_loading (p_shown s2) = false ∧
    p_loaded s2 = mkLoaded (sg_url cur) (sg_start cur) (sg_end cur) target ∧ p_live s2 = false).
  { rewrite H2, H1. unfold finish_load. simpl. destruct (covers target cur), auto, suppress; by split_and!. }
  destruct Hv as (Hv1 & Hv2 & Hv3 & Hv4 & Hv5 & Hv6 & Hv7).
  split_and!; [by rewrite H1|done..|by rewrite Hv6|done|done|].
  intros t scr gp Hpos Ht. unfold seek_effect. rewrite Hv6, Hv7, Hv2. simpl.
  destruct (t =? target); [done|].
  by replace ((0 <? sg_start cur) && (0 <? sg_end cur) && (sg_start cur <=? t) && (t <=? sg_end cur)) with true by lia.
Qed.

(** The tile after it advanced to the second file. *)
Definition playing_b : VideoTile :=
  set_loaded (mkLoaded "/m/b" 1060000 1120000 1060001)
    (set_video (mkVideo (SegSource "/m/b") (Some 60%Q) 0 false 1) (playing_a 1060000)).

Lemma corrupt_neighbour_black_witness :
  vd_src (p_video (meta_error (loadSegmentForTime 5 1030000 true false playing_b))) = SegSource "/m/a" ∧
  lo_url (p_loaded (meta_error (loadSegmentForTime 5 1030000 true false playing_b))) = "/m/b".
Proof.
  destruct (corrupt_neighbour_black 5 6 1030000 true false playing_b 0
    (mkSegment "/m/a" 1000000 1060000) (mkSegment "/m/b" 1060000 1120000))
    as (_ & _ & _ & _ & H1 & H2 & _); try reflexivity; [done|]. exact (conj H2 H1).
Defined.

(** A seek back is lost while another segment loads: with a load waiting for the
    metadata of another file, a seek into the segment that was playing changes nothing,
    and when the metadata comes the tile shows the earlier target.  In the same way a
    seek inside the playing segment leaves a debounced jump pending, and the jump then
    overrides it. *)
Theorem last_seek_lost now now' s l segs best a seg t scr gp d :
  p_live s = false → lo_start (p_loaded s) <= t <= lo_end (p_loaded s) → 0 < lo_start (p_loaded s) →
  (p_load s = Some l → pl_stage l = LoadingMeta segs best a → segs !! a = Some seg →
     vd_duration (p_video s) = None →
     seek_effect now t scr gp s = s ∧
     p_loaded (meta_loaded d (seek_effect now t scr gp s)) =
       mkLoaded (sg_url seg) (sg_start seg) (sg_end seg) (pl_target l)) ∧
  (∀ db, p_timer s = Some db → db_due db <= now' →
     p_timer (seek_effect now t scr gp s) = Some db ∧
     ∃ s0, jump_fires now' (seek_effect now t scr gp s) =
       loadSegmentForTime now' (db_target db) true (db_scrubbing db) s0).
Proof.
  intros Hlive Ht Hpos.
  assert (Hin : (0 <? lo_start (p_loaded s)) && (0 <? lo_end (p_loaded s)) && (lo_start (p_loaded s) <=? t) &&
                (t <=? lo_end (p_loaded s)) = true) by lia.
  split.
  - intros Hl Hst Hseg Hd.
    assert (Hs : seek_effect now t scr gp s = s).
    { unfold seek_effect. rewrite Hlive, Hin, Hd. by destruct (t =? _). }
    split; [done|]. rewrite Hs. unfold meta_loaded. simpl. rewrite Hl, Hst, Hseg. unfold finish_load. simpl.
    destruct (covers _ _); [destruct (q_ltb _ _)|]; by destruct (pl_autoPlay l).
  - intros db Hdb Hdue.
    assert (Hk : p_timer (seek_effect now t scr gp s) = Some db).
    { unfold seek_effect. rewrite Hlive, Hin. destruct (t =? _); [done|].
      destruct (vd_duration _); [|done]. destruct (Qle_bool _ _ && _); [|done]. simpl. by destruct (_ && negb gp). }
    split; [done|]. unfold jump_fires. rewrite Hk. cbn beta iota. replace (db_due db <=? now') with true by lia. by eexists.
Qed.

Lemma last_seek_lost_witness :
  p_loaded (meta_loaded 60 (seek_effect 7 1010000 false false (loadSegmentForTime 5 1090000 true false (playing_a 1060000)))) =
    mkLoaded "/m/b" 1060000 1120000 1090000.
Proof.
  set (s := loadSegmentForTime 5 1090000 true false (playing_a 1060000)).
  destruct (last_seek_lost 7 8 s
    (mkLoad 1090000 true false false (LoadingMeta (ca_segments (p_cache (playing_a 1060000))) 1 1))
    (ca_segments (p_cache (playing_a 1060000))) 1 1 (mkSegment "/m/b" 1060000 1120000) 1010000 false false 60)
    as [H _]; [reflexivity|vm_compute; split; discriminate|reflexivity|].
  destruct H as [_ H]; [reflexivity..|]. exact H.
Defined.

(** Going live does not stop a load: the list request and the debounced jump of
    playback go on, and when they come through the tile, which is live, drops its live
    stream for a recorded file. *)
Theorem live_overwritten now s l seg r i c :
  p_load s = Some l → pl_stage l = Fetching →
  bestIdx (seg :: r) (pl_target l) = i → (seg :: r) !! i = Some c → sg_url c ≠ lo_url (p_loaded s) →
  let live := go_live s in
  let s' := fetch_settles now (Some (seg :: r)) live in
  vd_src (p_video live) = LiveSource ∧ p_live s' = true ∧ vd_src (p_video s') = SegSource (sg_url c) ∧
  (∀ d, vd_src (p_video (meta_loaded d s')) = SegSource (sg_url c) ∧
        vd_paused (p_video (meta_loaded d s')) = negb (pl_autoPlay l)) ∧
  (∀ db, p_timer s = Some db → db_due db <= now →
     ∃ s0, p_live s0 = true ∧ jump_fires now live = loadSegmentForTime now (db_target db) true (db_scrubbing db) s0).
Proof.
  intros Hl Hst Hb Hc Hne live s'.
  assert (Hs : s' = start_candidate c (seg :: r) i i l
                      (set_cache (mkCache (seg :: r) now (sg_start seg) (sg_end (List.last r seg))) live)).
  { unfold s', fetch_settles. simpl. rewrite Hl, Hst. rewrite (choose_at _ i c) by done. simpl.
    by rewrite (proj2 (String.eqb_neq _ _)). }
  split_and!; [done|by rewrite Hs|by rewrite Hs| |].
  - intros d. rewrite Hs. unfold meta_loaded. simpl. rewrite Hc. unfold finish_load. simpl.
    destruct (covers _ _); [destruct (q_ltb _ _)|]; by destruct (pl_autoPlay l).
  - intros db Hdb Hdue. exists (set_jump None live). split; [done|]. unfold jump_fires, live. simpl. rewrite Hdb.
    by replace (db_due db <=? now) with true by lia.
Qed.

Lemma live_overwritten_witness :
  let s := enter_playback 9 (Some 1030000) (initial_tile true 1) in
  vd_src (p_video (fetch_settles 5 (Some two_files) (go_live s))) = SegSource "/m/a".
Proof.
  intros s.
  destruct (live_overwritten 5 s (mkLoad 1030000 false false false Fetching) (mkSegment "/m/a" 1000000 1060000)
    [mkSegment "/m/b" 1060000 1120000] 0 (mkSegment "/m/a" 1000000 1060000) eq_refl eq_refl eq_refl eq_refl ltac:(done))
    as (_ & _ & H & _).
  exact H.
Defined.

(** ** PTZ *)

Lemma ptz_run_app p es es' :
  ptz_run p (es ++ es') =
    let '(p1, c1) := ptz_run p es in let '(p2, c2) := ptz_run p1 es' in (p2, (c1 ++ c2)%list).
Proof.
  revert p. induction es as [|e es IH]; intros p; simpl; [by destruct (ptz_run p es')|].
  destruct (ptz_step p e) as [p1 c1]. rewrite IH. destruct (ptz_run p1 es) as [p2 c2].
  destruct (ptz_run p2 es') as [p3 c3]. by rewrite app_assoc.
Qed.

(** The camera is told to move and not yet to stop. *)
Definition moving (calls : list PtzCall) : bool :=
  match List.last calls PtzStop with PtzMove _ _ _ => true | PtzStop => false end.

Definition ptz_idle (live : bool) : Ptz := mkPtz live false None.

Lemma last_app_ne {A} (l l' : list A) d : l' ≠ [] → List.last (l ++ l')%list d = List.last l' d.
Proof.
  intros H. destruct (exists_last H) as (k & x & ->). by rewrite app_assoc, !List.last_last.
Qed.

Lemma ptz_moving live es :
  let '(p, calls) := ptz_run (ptz_idle live) es in
  pz_active p = moving calls ∧ (pz_active p = false → pz_timer p = None).
Proof.
  induction es as [|[t e] es IH] using rev_ind; [by split|].
  rewrite ptz_run_app. destruct (ptz_run (ptz_idle live) es) as [p calls]. destruct IH as [Ha Ht].
  destruct e as [a b c| | |b]; simpl; unfold ptz_step; simpl.
  - unfold handlePTZStart. destruct (pz_live p); simpl; [|by rewrite app_nil_r].
    unfold moving. by rewrite last_app_ne.
  - unfold handlePTZStop. destruct (negb (pz_live p)); simpl; [by rewrite app_nil_r|].
    destruct (pz_active p) eqn:E; simpl; rewrite app_nil_r; [by rewrite <- Ha|].
    by rewrite E, <- Ha.
  - unfold ptz_timer. destruct (pz_timer p) as [d|] eqn:Ep; [destruct (d <=? t)|]; simpl; rewrite ?app_nil_r, ?Ep; try done.
    unfold moving. by rewrite last_app_ne.
  - by rewrite app_nil_r.
Qed.

Lemma ptz_not_live p es :
  pz_live p = false → pz_timer p = None → Forall (λ e, e.2 ≠ SetLive true) es → (ptz_run p es).2 = [].
Proof.
  revert p. induction es as [|[t e] es IH]; intros p Hl Ht H; [done|]. inversion H as [|? ? He Hes]; subst.
  simpl. assert (Hs : ∃ p', ptz_step p (t, e) = (p', []) ∧ pz_live p' = false ∧ pz_timer p' = None).
  { unfold ptz_step, handlePTZStart, handlePTZStop, ptz_timer. destruct e as [a b c| | |[]]; simpl in *;
      rewrite ?Hl, ?Ht; simpl; [by eexists..|done|by eexists]. }
  destruct Hs as (p' & -> & Hl' & Ht'). specialize (IH p' Hl' Ht' Hes). by destruct (ptz_run p' es).
Qed.

(** A held PTZ button moves the camera until it is let go: in any history the camera
    is moving exactly while the tile is active; letting go sends the stop 50 ms later,
    and pressing again before that cancels it.  But only while the tile stays live: once
    playback is entered with a button held, nothing ever tells the camera to stop as
    long as the tile is not live again. *)
Theorem ptz_stops live es t t' dir :
  let '(p, calls) := ptz_run (ptz_idle live) es in
  pz_active p = moving calls ∧
  (moving calls = true → pz_live p = true → t + 50 <= t' →
     (ptz_run p [(t, Release); (t', PtzTimer)]).2 = [PtzStop] ∧
     (ptz_run p [(t, Release); (t, Press dir 0 0); (t', PtzTimer)]).2 = [PtzMove dir 0 0]) ∧
  (moving calls = true → pz_timer p = None →
     ∀ es', Forall (λ e, e.2 ≠ SetLive true) es' →
       let later := (ptz_run p ((t, SetLive false) :: es')).2 in later = [] ∧ moving (calls ++ later)%list = true).
Proof.
  pose proof (ptz_moving live es) as H. destruct (ptz_run (ptz_idle live) es) as [p calls]. destruct H as [Ha Ht].
  split_and!; [done| |].
  - intros Hm Hl Htt. rewrite Hm in Ha. destruct p as [pl pa pt]; simpl in *; subst.
    split; unfold ptz_step, handlePTZStop, ptz_timer; simpl; [|done].
    by replace (t + 50 <=? t') with true by lia.
  - intros Hm Hn es' Hes later.
    assert (Hl : later = []).
    { unfold later. simpl. pose proof (ptz_not_live (mkPtz false (pz_active p) (pz_timer p)) es' eq_refl Hn Hes) as H.
      unfold ptz_step. simpl. by destruct (ptz_run _ es'). }
    split; [done|]. by rewrite Hl, app_nil_r.
Qed.

Lemma ptz_stops_witness :
  moving ([PtzMove 1 0 0] ++
    (ptz_run (mkPtz true true None) ((10, SetLive false) :: [(20, Release); (90, PtzTimer)])).2)%list = true.
Proof.
  destruct (ptz_stops true [(0, Press 1 0 0)] 10 0 1) as (_ & _ & H).
  refine (proj2 (H eq_refl eq_refl [(20, Release); (90, PtzTimer)] _)). by repeat constructor.
Defined.
