(* ===== verification/EventsPanel.v ===== *)
(** * The events panel ([components/EventListPanel.tsx])

    Reading a detection's details whatever source it comes from, the boxes drawn over
    its snapshot, the panel's filters and camera scope, its queries (one per camera when
    several are in scope), and the list it shows: filtered, without duplicates, sorted,
    cut at 200 rows and grouped by camera.

    [date_ms] reads the time text of an event as milliseconds, [localeCompare] is the
    browser's, [stringify] its JSON serialiser, [zone] the offset of local time. *)

From S2P Require Import Prelude Types Http AuthFetch ApiClient.
From stdpp Require Import pretty.
From Stdlib Require Import QArith Qround Lqa.
#[local] Open Scope string_scope.
#[local] Open Scope Z_scope.

(** ** Events *)

Record Event := mkEvent {
  ev_id : option Z;
  ev_camera_id : string;
  ev_event_time : string;
  ev_event_type : string;
  ev_details : option json;
  ev_thumbnail : string;
  ev_source : option string
}.

Definition json_str (j : option json) : string := match j with Some (JStr s) => s | _ => EmptyString end.

(** The fields the panel reads of a reply's element. *)
Definition event_of (j : json) : Event :=
  mkEvent (match jget "id" j with Some (JNum q) => Some (Qfloor q) | _ => None end)
    (json_str (jget "camera_id" j)) (json_str (jget "event_time" j)) (json_str (jget "event_type" j))
    (jget "details" j) (json_str (jget "thumbnail" j))
    (match jget "source" j with Some (JStr s) => Some s | _ => None end).

Definition events_of (j : json) : list Event := match j with JArr l => event_of <$> l | _ => [] end.

(** [event.details || {}], then a property. *)
Definition detail (key : string) (e : Event) : option json :=
  match ev_details e with Some d => if truthy_json d then jget key d else None | None => None end.

(** [d.a || d.b || ...]: the first truthy one, else the last one looked at. *)
Fixpoint first_truthy (keys : list string) (e : Event) : option json :=
  match keys with
  | [] => None
  | [k] => detail k e
  | k :: r => match detail k e with Some v => if truthy_json v then Some v else first_truthy r e | None => first_truthy r e end
  end.

(** [d.a ?? d.b ?? ...] *)
Fixpoint first_present (keys : list string) (e : Event) : option json :=
  match keys with
  | [] => None
  | [k] => detail k e
  | k :: r => match detail k e with Some JNull | None => first_present r e | Some v => Some v end
  end.

Definition EVENT_TYPES : list string :=
  ["motion"; "human"; "vehicle"; "lpr"; "object"; "face"; "intrusion"; "linecross"; "loitering"; "peoplecount";
   "tamper"; "videoloss"].

Definition EVENT_ICONS : list (string * string) :=
  [("motion", "🏃"); ("lpr", "🚗"); ("object", "📦"); ("face", "👤"); ("intrusion", "🚨"); ("linecross", "⛔");
   ("loitering", "⏱️"); ("human", "🚶"); ("vehicle", "🚗"); ("peoplecount", "👥"); ("tamper", "⚠️");
   ("videoloss", "📵"); ("other", "📋")].

Definition EVENT_COLORS : list (string * string) :=
  [("motion", "#f59e0b"); ("lpr", "#3b82f6"); ("object", "#8b5cf6"); ("face", "#ec4899"); ("intrusion", "#ef4444");
   ("linecross", "#ef4444"); ("loitering", "#eab308"); ("human", "#ef4444"); ("vehicle", "#3b82f6");
   ("peoplecount", "#06b6d4"); ("tamper", "#f97316"); ("videoloss", "#6b7280"); ("other", "#6b7280")].

Definition TYPE_TO_CLASS : list (string * string) :=
  [("human", "Person"); ("face", "Face"); ("vehicle", "Vehicle"); ("lpr", "License Plate"); ("intrusion", "Intrusion");
   ("linecross", "Line Cross"); ("loitering", "Loitering"); ("object", "Object"); ("motion", "Motion");
   ("tamper", "Tamper"); ("peoplecount", "People Count"); ("videoloss", "Video Loss")].

Definition table (key : string) (l : list (string * string)) : option string :=
  snd <$> find_where (λ e, String.eqb e.1 key) l.

Definition color (type : string) : string := default "#6b7280" (table type EVENT_COLORS).
Definition event_icon (type : string) : string := default "📋" (table type EVENT_ICONS).

(** [isoLocal]: the local date and minute. *)
Definition isoLocal (zone : Z → Z) (ms : Z) : string := String.substring 0 16 (toISOString (ms + zone ms)).

(** ** Reading the details *)

Definition is_word (c : Ascii.ascii) : bool :=
  let n := Ascii.N_of_ascii c in is_alnum n || (n =? 95)%N.

(** [s.replace(/\b\w/g, upper)]: the word characters that follow none. *)
Fixpoint upper_words (prev : bool) (s : string) : string :=
  match s with
  | EmptyString => EmptyString
  | String c r => String (if is_word c && negb prev then ascii_upper c else c) (upper_words (is_word c) r)
  end.

Definition dash_to_space (c : Ascii.ascii) : Ascii.ascii :=
  let n := Ascii.N_of_ascii c in if ((n =? 45) || (n =? 95))%N then Ascii.ascii_of_N 32 else c.

Definition titleCase (s : string) : string := trim (upper_words false (map_string dash_to_space s)).

Definition classifyFromTopic (topic : string) : option string :=
  if negb (truthy_str topic) then None
  else
    let tail := List.last (js_split "/" topic) EmptyString in
    if negb (truthy_str tail) || String.eqb (toLowerCase tail) "state" then None else Some (titleCase tail).

Definition getObjectClass (e : Event) : option string :=
  let by_type := table (ev_event_type e) TYPE_TO_CLASS in
  let by_topic :=
    match detail "topic" e with
    | Some (JStr t) => match classifyFromTopic t with Some c => Some c | None => by_type end
    | _ => by_type
    end in
  match first_truthy ["obj_type"; "object"; "objecttype"; "objectType"; "class"; "label"] e with
  | Some (JStr raw) => if truthy_str (trim raw) then Some (titleCase raw) else by_topic
  | _ => by_topic
  end.

(** [s.replace(/^My/, '')] and [s.replace(/Rule$/, '')] *)
Definition strip_my (s : string) : string :=
  if String.prefix "My" s then String.substring 2 (String.length s - 2) s else s.
Definition strip_rule (s : string) : string :=
  let n := String.length s in
  if (4 <=? n)%nat && String.eqb (String.substring (n - 4) 4 s) "Rule" then String.substring 0 (n - 4) s else s.

(** [s.replace(/([a-z])([A-Z])/g, '$1 $2')] *)
Fixpoint spread_words (s : string) : string :=
  match s with
  | String a ((String b _) as r) =>
      let na := Ascii.N_of_ascii a in
      let nb := Ascii.N_of_ascii b in
      if ((97 <=? na) && (na <=? 122) && (65 <=? nb) && (nb <=? 90))%N
      then String a (String (Ascii.ascii_of_N 32) (spread_words r)) else String a (spread_words r)
  | _ => s
  end.

Definition getRuleName (e : Event) : option string :=
  match first_truthy ["rule_name"; "rule"; "ruleName"] e with
  | Some (JStr raw) =>
      if truthy_str (trim raw) then
        let cleaned := trim (spread_words (strip_rule (strip_my raw))) in
        Some (if truthy_str cleaned then cleaned else raw)
      else None
  | _ => None
  end.

Definition getPlateNumber (e : Event) : option string :=
  match first_present ["plate_number"; "plate"; "plateNumber"; "license_plate"; "licensePlate"] e with
  | Some (JStr raw) => if truthy_str (trim raw) then Some (toUpperCase (trim raw)) else None
  | _ => None
  end.

(** The per-type line; [show] prints a JSON value in a template literal. *)
Definition getEventDetail (show : json → string) (e : Event) : option string :=
  let t := ev_event_type e in
  if String.eqb t "lpr" then
    Some (match getPlateNumber e with Some p => "Plate: " +:+ p | None => "License plate detected" end)
  else if String.eqb t "motion" then
    Some (match detail "ismotion" e with
          | Some (JStr s) => if String.eqb s "true" then "Motion started" else "Motion detected"
          | Some (JBool true) => "Motion started"
          | _ => "Motion detected"
          end)
  else if String.eqb t "tamper" then Some "Camera tamper detected"
  else if String.eqb t "videoloss" then Some "Video signal lost"
  else if String.eqb t "peoplecount" then
    Some (match first_present ["count"; "people_count"; "peopleCount"] e with
          | Some JNull | None => "People count update"
          | Some n => "People count: " +:+ show n
          end)
  else None.

(** ** Numbers in text *)

Fixpoint digits (acc : option (Z * nat)) (l : list N) : option (Z * nat) * list N :=
  match l with
  | c :: r =>
      if ((48 <=? c) && (c <=? 57))%N then
        let '(v, k) := default (0, 0%nat) acc in digits (Some (10 * v + Z.of_N (c - 48), S k)) r
      else (acc, l)
  | [] => (acc, [])
  end.

Definition sign (l : list N) : Z * list N :=
  match l with
  | 45%N :: r => (-1, r)
  | 43%N :: r => (1, r)
  | _ => (1, l)
  end.

Definition pow10 (e : Z) : Q := if 0 <=? e then inject_Z (10 ^ e) else (1 / inject_Z (10 ^ (- e)))%Q.

(** The longest decimal literal at the head, with what follows it. *)
Definition decimal_head (l : list N) : option (Q * list N) :=
  let '(sg, l1) := sign l in
  let '(ip, l2) := digits None l1 in
  let '(fp, l3) := match l2 with 46%N :: r => digits None r | _ => (None, l2) end in
  match ip, fp with
  | None, None => None
  | _, _ =>
      let l3 := match ip, fp, l2 with Some _, None, 46%N :: r => r | _, _, _ => l3 end in
      let '(iv, _) := default (0, 0%nat) ip in
      let '(fv, fk) := default (0, 0%nat) fp in
      let m := (inject_Z sg * (inject_Z iv + inject_Z fv * pow10 (- Z.of_nat fk)))%Q in
      match l3 with
      | c :: r =>
          if ((c =? 101) || (c =? 69))%N then
            let '(es, r1) := sign r in
            match digits None r1 with
            | (Some (ev, _), r2) => Some ((m * pow10 (es * ev))%Q, r2)
            | _ => Some (m, l3)
            end
          else Some (m, l3)
      | [] => Some (m, [])
      end
  end.

(** [parseFloat(s)]; [None] for NaN and the infinities. *)
Definition parseFloat (s : string) : option Q := fst <$> decimal_head (bytes_of (trim s)).

(** [Number(v)] of numbers, booleans, null and decimal texts; [None] for NaN. *)
Definition Number (v : option json) : option Q :=
  match v with
  | Some (JNum q) => Some q
  | Some (JBool b) => Some (if b then 1 else 0)%Q
  | Some JNull => Some 0%Q
  | Some (JStr s) =>
      if truthy_str (trim s) then
        match decimal_head (bytes_of (trim s)) with Some (q, []) => Some q | _ => None end
      else Some 0%Q
  | _ => None
  end.

(** [Math.round(n <= 1 ? n * 100 : n)] *)
Definition getConfidencePct (e : Event) : option Z :=
  let n := match first_present ["score"; "confidence"; "ai_score"] e with
           | Some (JNum q) => Some q
           | Some (JStr s) => parseFloat s
           | _ => None
           end in
  (λ n, Qfloor ((if Qle_bool n 1 then n * 100 else n) + (1 # 2))) <$> n.

(** ** Boxes *)

Definition MS_ANALYTICS_W : Q := 320.
Definition MS_ANALYTICS_H : Q := 180.

Record NormBox := mkNormBox { nb_x : Q; nb_y : Q; nb_w : Q; nb_h : Q; nb_label : option string }.

(** [Number(v) || d || 0] *)
Definition number_or (v : option json) (d : Q) : Q :=
  match Number v with Some q => if Qeq_bool q 0 then d else q | None => d end.

(** The rectangle of a box: x, y, w, h, or the corners when x is not a number. *)
Definition box_rect (b : json) : option (Q * Q * Q * Q) :=
  let '(x, y, w, h) :=
    match Number (jget "x" b), Number (jget "x1" b) with
    | None, Some x1 =>
        let sub (p : string) (q : Q) := (λ a, (a - q)%Q) <$> Number (jget p b) in
        (Some x1, Number (jget "y1" b), sub "x2" x1,
         match Number (jget "y1" b) with Some y1 => sub "y2" y1 | None => None end)
    | x, _ => (x, Number (jget "y" b), Number (jget "w" b), Number (jget "h" b))
    end in
  match x, y, w, h with Some x, Some y, Some w, Some h => Some (x, y, w, h) | _, _, _, _ => None end.

Definition gt1 (q : Q) : bool := negb (Qle_bool q 1).

(** One box, in fractions of the frame, or skipped. *)
Definition norm_box (isMilesight : bool) (fw fh : Q) (b : json) : option NormBox :=
  match b with
  | JObj _ | JArr _ =>
      match box_rect b with
      | Some (x, y, w, h) =>
          let label := match jget "label" b with Some (JStr s) => Some s | _ => None end in
          if isMilesight || gt1 x || gt1 y || gt1 w || gt1 h then
            if Qle_bool fw 0 || Qle_bool fh 0 then None
            else Some (mkNormBox (x / fw) (y / fh) (w / fw) (h / fh) label)
          else Some (mkNormBox x y w h label)
      | None => None
      end
  | _ => None
  end.

Definition getNormalizedBoxes (e : Event) (frameW frameH : Q) : list NormBox :=
  match first_present ["bounding_boxes"; "boundingBoxes"; "bbox"; "boxes"] e with
  | Some (JArr boxes) =>
      let rawSource := match detail "source" e with Some (JStr s) => trim (toLowerCase s) | _ => EmptyString end in
      let isMilesight := String.eqb rawSource "milesight_ws" in
      let fw := number_or (first_present ["frame_w"; "frameWidth"; "width"] e) (if isMilesight then MS_ANALYTICS_W else frameW) in
      let fh := number_or (first_present ["frame_h"; "frameHeight"; "height"] e) (if isMilesight then MS_ANALYTICS_H else frameH) in
      omap (norm_box isMilesight fw fh) boxes
  | _ => []
  end.

(** ** The panel *)

Inductive SortMode := newest | oldest | by_type | by_camera | by_confidence.

(** The filters; sets keep the order of insertion. *)
Record PanelFilters := mkPanelFilters {
  pf_activeTypes : list string;
  pf_selectedCameras : list string;
  pf_search : string;
  pf_dateFrom : Z;
  pf_dateTo : Z;
  pf_useCustomRange : bool;
  pf_scopeToLayout : bool;
  pf_sortMode : SortMode;
  pf_groupByCamera : bool
}.

Definition initial_filters (now : Z) : PanelFilters :=
  mkPanelFilters EVENT_TYPES [] EmptyString (now - 24 * 3600 * 1000) now false false newest false.

(** [next.has(x) ? next.delete(x) : next.add(x)] *)
Definition toggle_in (x : string) (l : list string) : list string :=
  if includes x l then filter (λ y, y ≠ x) l else (l ++ [x])%list.

Definition toggleType (t : string) (f : PanelFilters) : PanelFilters :=
  mkPanelFilters (toggle_in t (pf_activeTypes f)) (pf_selectedCameras f) (pf_search f) (pf_dateFrom f) (pf_dateTo f)
    (pf_useCustomRange f) (pf_scopeToLayout f) (pf_sortMode f) (pf_groupByCamera f).
Definition toggleCamera (id : string) (f : PanelFilters) : PanelFilters :=
  mkPanelFilters (pf_activeTypes f) (toggle_in id (pf_selectedCameras f)) (pf_search f) (pf_dateFrom f) (pf_dateTo f)
    (pf_useCustomRange f) (pf_scopeToLayout f) (pf_sortMode f) (pf_groupByCamera f).

(** The effect that clears the layout scope when the layout is empty. *)
Definition scope_effect (layout : list string) (f : PanelFilters) : PanelFilters :=
  if pf_scopeToLayout f && bool_decide (layout = []) then
    mkPanelFilters (pf_activeTypes f) (pf_selectedCameras f) (pf_search f) (pf_dateFrom f) (pf_dateTo f)
      (pf_useCustomRange f) false (pf_sortMode f) (pf_groupByCamera f)
  else f.

Definition effectiveCameraIds (layout : list string) (f : PanelFilters) : list string :=
  if negb (bool_decide (pf_selectedCameras f = [])) then pf_selectedCameras f
  else if pf_scopeToLayout f && negb (bool_decide (layout = [])) then layout
  else [].

(** ** Its queries *)

Definition or_undefined (s : string) : option string := if truthy_str s then Some s else None.

Definition base_params (now : Z) (f : PanelFilters) (camera : option string) (limit : Z) : EventParams :=
  let end_ := if pf_useCustomRange f then pf_dateTo f else now in
  let start := if pf_useCustomRange f then pf_dateFrom f else now - 24 * 3600 * 1000 in
  mkEventParams (toISOString start) (toISOString end_) camera None
    (or_undefined (String.concat "," (pf_activeTypes f))) (or_undefined (pf_search f)) (Some limit).

(** [Math.max(50, Math.ceil(200 / n))] *)
Definition perCam (n : nat) : Z := Z.max 50 ((200 + Z.of_nat n - 1) / Z.of_nat n).

(** [Promise.all] of the per-camera queries, in the order of their requests; a query
    that rejects counts as empty. *)
Fixpoint query_each (p : string → EventParams) (ids : list string) : M (list json) :=
  match ids with
  | [] => mret []
  | id :: r => a ← or_else (queryEvents (p id)) (JArr []); rest ← query_each p r; mret (a :: rest)
  end.

Definition fetchEvents (now : Z) (layout : list string) (f : PanelFilters) : M (list Event) :=
  let ids := effectiveCameraIds layout f in
  or_else
    (match ids with
     | a :: b :: r =>
         results ← query_each (λ id, base_params now f (Some id) (perCam (length ids))) ids;
         mret (mjoin (events_of <$> results))
     | _ => data ← queryEvents (base_params now f (head ids) 200); mret (events_of data)
     end) [].

(** ** Its list *)

Section list.
Context (date_ms : string → Z) (localeCompare : string → string → Z) (stringify : Event → string).

(** [s.includes(t)] *)
Fixpoint contains (s t : string) : bool :=
  String.prefix t s || match s with String _ r => contains r t | EmptyString => false end.

Definition matchesFilters (layout : list string) (f : PanelFilters) (e : Event) : bool :=
  let ids := effectiveCameraIds layout f in
  includes (ev_event_type e) (pf_activeTypes f) &&
  (bool_decide (ids = []) || includes (ev_camera_id e) ids) &&
  (negb (truthy_str (pf_search f)) || contains (toLowerCase (stringify e)) (toLowerCase (pf_search f))).

(** The loop that drops later events with an id seen before. *)
Fixpoint dedup_rows (seen : list Z) (l : list Event) : list Event :=
  match l with
  | [] => []
  | e :: r =>
      if truthy_oZ (ev_id e) then
        let id := default 0 (ev_id e) in
        if includes id seen then dedup_rows seen r else e :: dedup_rows (id :: seen) r
      else e :: dedup_rows seen r
  end.

Definition ts (e : Event) : Z := date_ms (ev_event_time e).

(** [x || ts(b) - ts(a)] *)
Definition or_time (x : Z) (a b : Event) : Z := if x =? 0 then ts b - ts a else x.

Definition getCameraName (cameras : list (string * string)) (id : string) : string :=
  match find_where (λ c, String.eqb c.1 id) cameras with Some c => c.2 | None => String.substring 0 8 id end.

(** The comparison of a sort mode. *)
Definition compare_by (cameras : list (string * string)) (mode : SortMode) (a b : Event) : Z :=
  match mode with
  | newest => ts b - ts a
  | oldest => ts a - ts b
  | by_type => or_time (localeCompare (ev_event_type a) (ev_event_type b)) a b
  | by_camera =>
      or_time (localeCompare (getCameraName cameras (ev_camera_id a)) (getCameraName cameras (ev_camera_id b))) a b
  | by_confidence => or_time (default (-1) (getConfidencePct b) - default (-1) (getConfidencePct a)) a b
  end.

Definition displayedEvents (cameras : list (string * string)) (layout : list string) (f : PanelFilters)
  (live remote : list Event) : list Event :=
  let filtered :=
    if pf_useCustomRange f then filter_where (matchesFilters layout f) remote
    else (filter_where (matchesFilters layout f) live ++ filter_where (matchesFilters layout f) remote)%list in
  take 200 (sort_by (λ a b, compare_by cameras (pf_sortMode f) a b <=? 0) (dedup_rows [] filtered)).

(** [Map] with arrays as values: a new key goes to the end. *)
Fixpoint push_to (k : string) (e : Event) (m : list (string * list Event)) : list (string * list Event) :=
  match m with
  | [] => [(k, [e])]
  | (k', es) :: r => if String.eqb k k' then (k', (es ++ [e])%list) :: r else (k', es) :: push_to k e r
  end.

Definition group (l : list Event) : list (string * list Event) :=
  foldl (λ m e, push_to (ev_camera_id e) e m) [] l.

Definition grouped (layout : list string) (f : PanelFilters) (l : list Event) : option (list (string * list Event)) :=
  if pf_groupByCamera f || (pf_scopeToLayout f && negb (bool_decide (effectiveCameraIds layout f = [])))
  then Some (group l) else None.
End list.

(** [activeDetailEvent]: the clicked event as it is now. *)
Definition activeDetailEvent (detail : option Event) (live remote : list Event) : option Event :=
  match detail with
  | Some d =>
      if truthy_oZ (ev_id d) then
        match find_where (λ e, bool_decide (ev_id e = ev_id d)) (live ++ remote)%list with
        | Some fresh => Some fresh
        | None => Some d
        end
      else Some d
  | None => None
  end.

(** The size of a thumbnail is kept when it first loads. *)
Definition thumb_loaded (e : Event) (w h : Z) (dims : gmap Z (Z * Z)) : gmap Z (Z * Z) :=
  match ev_id e with
  | Some id => if negb (id =? 0) && (0 <? w) then match dims !! id with Some _ => dims | None => <[id := (w, h)]> dims end else dims
  | None => dims
  end.

(** ** Replies

    [pn_debounce] is the pending timer, [pn_flight] the queries under way by number.
    Nothing cancels one. *)
Record Panel := mkPanel {
  pn_remote : list Event;
  pn_loading : bool;
  pn_debounce : bool;
  pn_flight : list nat;
  pn_next : nat
}.

Inductive PanelEvent := FiltersChange | DebounceFires | QuerySettles (n : nat) (data : list Event).

Definition panel_step (p : Panel) (e : PanelEvent) : Panel :=
  match e with
  | FiltersChange => mkPanel (pn_remote p) (pn_loading p) true (pn_flight p) (pn_next p)
  | DebounceFires =>
      if pn_debounce p then mkPanel (pn_remote p) true false (pn_flight p ++ [pn_next p])%list (S (pn_next p)) else p
  | QuerySettles n data =>
      if includes n (pn_flight p) then
        mkPanel data false (pn_debounce p) (filter (λ m, m ≠ n) (pn_flight p)) (pn_next p)
      else p
  end.

Definition panel_run (p : Panel) : list PanelEvent → Panel := foldl panel_step p.

(** * Lemmas *)

Section list_lemmas.
Context (date_ms : string → Z) (localeCompare : string → string → Z) (stringify : Event → string).

Definition has_id (e : Event) : bool := truthy_oZ (ev_id e).

Lemma has_id_Some e : has_id e = true → ev_id e = Some (default 0 (ev_id e)).
Proof. unfold has_id, truthy_oZ. by destruct (ev_id e). Qed.

Lemma dedup_sublist seen l : dedup_rows seen l `sublist_of` l.
Proof.
  revert seen. induction l as [|e l IH]; intros seen; simpl; [done|].
  destruct (truthy_oZ _); [destruct (includes _ _)|]; by constructor.
Qed.

Lemma elem_of_dedup_rows seen l e : e ∈ dedup_rows seen l → e ∈ l.
Proof. intros H. eapply elem_of_sublist; [exact H|apply dedup_sublist]. Qed.

Lemma dedup_unseen seen l e : e ∈ dedup_rows seen l → has_id e = true → default 0 (ev_id e) ∉ seen.
Proof.
  revert seen. induction l as [|x l IH]; intros seen; simpl; [by intros ?%elem_of_nil|].
  destruct (truthy_oZ (ev_id x)) eqn:Ex; [destruct (includes _ seen) eqn:Ei|].
  - apply IH.
  - intros [->|H]%elem_of_cons Hid.
    + intros Hin. unfold includes in Ei. by rewrite bool_decide_eq_true_2 in Ei.
    + intros Hin. by apply (IH _ H Hid), elem_of_cons; right.
  - intros [->|H]%elem_of_cons Hid; [unfold has_id in Hid; congruence|]. by apply IH.
Qed.

Lemma dedup_NoDup seen l : NoDup (ev_id <$> filter_where has_id (dedup_rows seen l)).
Proof.
  revert seen. induction l as [|x l IH]; intros seen; simpl; [constructor|].
  destruct (truthy_oZ (ev_id x)) eqn:Ex; [destruct (includes _ seen) eqn:Ei|].
  - apply IH.
  - unfold filter_where. rewrite filter_cons, decide_True by by apply Is_true_true. simpl. constructor; [|apply IH].
    intros (y & Hy & Hin)%list_elem_of_fmap. fold (filter_where has_id (dedup_rows (default 0 (ev_id x) :: seen) l)) in Hin.
    apply elem_of_filter_where in Hin as [Hid Hin]. apply (dedup_unseen _ _ y Hin Hid). rewrite <- Hy. by left.
  - unfold filter_where. rewrite filter_cons, decide_False by (unfold has_id; rewrite Ex; intros []). apply IH.
Qed.

(** Every event stays, or an earlier one with its id does. *)
Lemma dedup_covers seen l e :
  e ∈ l → e ∈ dedup_rows seen l ∨ (has_id e = true ∧ (default 0 (ev_id e) ∈ seen ∨ ∃ e', e' ∈ dedup_rows seen l ∧ ev_id e' = ev_id e)).
Proof.
  revert seen. induction l as [|x l IH]; intros seen; simpl; [by intros ?%elem_of_nil|].
  intros [->|H]%elem_of_cons.
  - destruct (truthy_oZ (ev_id x)) eqn:Ex; [|left; by left].
    destruct (includes (default 0 (ev_id x)) seen) eqn:Ei; [|left; by left].
    right. split; [done|]. left. by apply bool_decide_eq_true_1 in Ei.
  - destruct (truthy_oZ (ev_id x)) eqn:Ex; [destruct (includes (default 0 (ev_id x)) seen) eqn:Ei|].
    + by apply IH.
    + destruct (IH (default 0 (ev_id x) :: seen) H) as [H1|[Hid [H1|(e' & H1 & H2)]]].
      * left. by right.
      * right. split; [done|]. apply elem_of_cons in H1 as [Heq|H1]; [|by left]. right. exists x. split; [by left|].
        rewrite (has_id_Some x Ex), (has_id_Some e Hid). by f_equal.
      * right. split; [done|]. right. exists e'. split; [by right|done].
    + destruct (IH seen H) as [H1|[Hid [H1|(e' & H1 & H2)]]].
      * left. by right.
      * right. split; [done|by left].
      * right. split; [done|]. right. exists e'. split; [by right|done].
Qed.

(** Earlier events win. *)
Lemma dedup_first seen l1 l2 e e' :
  e ∈ l1 → e' ∈ dedup_rows seen (l1 ++ l2) → has_id e = true → ev_id e' = ev_id e → e' ∈ l1.
Proof.
  revert seen. induction l1 as [|x l1 IH]; intros seen; simpl; [by intros ?%elem_of_nil|].
  intros He He' Hid Heq. destruct (truthy_oZ (ev_id x)) eqn:Ex; [destruct (includes (default 0 (ev_id x)) seen) eqn:Ei|].
  - apply elem_of_cons in He as [->|He]; [|right; by eapply IH].
    exfalso. apply (dedup_unseen _ _ e' He'); [unfold has_id in *; by rewrite Heq|].
    rewrite Heq. by apply bool_decide_eq_true_1 in Ei.
  - apply elem_of_cons in He' as [->|He']; [by left|].
    apply elem_of_cons in He as [->|He]; [|right; by eapply IH].
    exfalso. apply (dedup_unseen _ _ e' He'); [unfold has_id in *; by rewrite Heq|]. rewrite Heq. by left.
  - apply elem_of_cons in He' as [->|He']; [by left|].
    apply elem_of_cons in He as [->|He]; [unfold has_id in Hid; congruence|]. right. by eapply IH.
Qed.

Definition antisymmetric (f : string → string → Z) : Prop := ∀ a b, Z.sgn (f b a) = - Z.sgn (f a b).

Lemma compare_by_total cameras mode a b :
  antisymmetric localeCompare →
  (compare_by date_ms localeCompare cameras mode a b <=? 0) = false →
  (compare_by date_ms localeCompare cameras mode b a <=? 0) = true.
Proof.
  intros Hanti. assert (Hor : ∀ x y, Z.sgn y = - Z.sgn x →
    (or_time date_ms x a b <=? 0) = false → (or_time date_ms y b a <=? 0) = true).
  { intros x y Hs. unfold or_time. destruct (x =? 0) eqn:Ex, (y =? 0) eqn:Ey; lia. }
  destruct mode; simpl; try lia; apply Hor; try apply Hanti. lia.
Qed.
End list_lemmas.

(** ** Lemmas: queries *)

Definition requests (l : list Effect) : list Request :=
  omap (λ e, match e with EFetch q => Some q | _ => None end) l.

Lemma requests_app l l' : requests (l ++ l') = (requests l ++ requests l')%list.
Proof. apply omap_app. Qed.

Lemma requests_none l : (∀ q, EFetch q ∉ l) → requests l = [].
Proof.
  induction l as [|e l IH]; intros H; [done|]. simpl.
  assert (He : match e with EFetch q => Some q | _ => None end = None).
  { destruct e; try done. exfalso. apply (H r). by left. }
  rewrite He. apply IH. intros q Hq. apply (H q). by right.
Qed.

(** What a query of the panel came back with: the reply of some moment, or nothing. *)
Definition answered_by (b : Browser) (q : Request) (d : json) : Prop :=
  ∃ h, d = match br_net b h q with Some res => as_array (rs_json res) | None => JArr [] end.

Lemma queryEvents_one p b l :
  ∃ l' q d, queryEvents p b l = (l', Ok d) ∧ requests l' = (requests l ++ [q])%list ∧
    asks_events (rq_url q) p ∧ in_method (rq_init q) = None ∧ answered_by b q d.
Proof.
  destruct (queryEvents_sends p b l) as (q & nav & E & Hu & Hm & Hn). eexists _, q, _. split_and!; [exact E|..]; try done.
  - rewrite requests_app. simpl. by rewrite (requests_none nav).
  - by exists l.
Qed.

Lemma or_else_ok {A} (m : M A) fb b l l' a : m b l = (l', Ok a) → or_else m fb b l = (l', Ok a).
Proof. intros E. unfold or_else, try_catch. by rewrite E. Qed.

Lemma query_each_sends p ids b l :
  ∃ l' ds qs, query_each p ids b l = (l', Ok ds) ∧ requests l' = (requests l ++ qs)%list ∧
    Forall2 (λ id q, asks_events (rq_url q) (p id) ∧ in_method (rq_init q) = None) ids qs ∧
    Forall2 (answered_by b) qs ds.
Proof.
  revert l. induction ids as [|id ids IH]; intros l; simpl.
  - eexists l, [], []. by rewrite app_nil_r.
  - destruct (queryEvents_one (p id) b l) as (l1 & q & d & E & Hr & Hu & Hm & Ha).
    destruct (IH l1) as (l2 & ds & qs & E2 & Hr2 & H1 & H2). exists l2, (d :: ds), (q :: qs). split_and!.
    + rewrite (bind_ok _ _ _ _ _ _ (or_else_ok _ (JArr []) _ _ _ _ E)). by rewrite (bind_ok _ _ _ _ _ _ E2).
    + by rewrite Hr2, Hr, <- app_assoc.
    + by constructor.
    + by constructor.
Qed.

Lemma perCam_bounds n : (0 < n)%nat → 50 <= perCam n ∧ 200 <= Z.of_nat n * perCam n.
Proof.
  intros H. unfold perCam. assert (Hn : 0 < Z.of_nat n) by lia. revert Hn. generalize (Z.of_nat n). intros z Hz.
  split; [lia|]. assert (200 <= z * ((200 + z - 1) / z)) by zdiv. nia.
Qed.

(** ** Lemmas: groups *)

(** The cameras of a list in order of appearance. *)
Definition first_keys (l : list Event) : list string :=
  foldl (λ ks e, if includes (ev_camera_id e) ks then ks else (ks ++ [ev_camera_id e])%list) [] l.

Definition rows_of (l : list Event) (k : string) : list Event := filter (λ e, ev_camera_id e = k) l.

Lemma elem_of_first_keys l k : k ∈ first_keys l ↔ ∃ e, e ∈ l ∧ ev_camera_id e = k.
Proof.
  induction l as [|e l IH] using rev_ind; [set_solver|].
  unfold first_keys. rewrite foldl_app. simpl. fold (first_keys l).
  unfold includes. case_bool_decide; set_solver.
Qed.

Lemma first_keys_NoDup l : NoDup (first_keys l).
Proof.
  induction l as [|e l IH] using rev_ind; [constructor|].
  unfold first_keys. rewrite foldl_app. simpl. fold (first_keys l).
  unfold includes. case_bool_decide; [done|]. apply NoDup_app. split_and!; [done|set_solver|apply NoDup_singleton].
Qed.

Lemma push_to_map ks (f : string → list Event) e :
  NoDup ks → (ev_camera_id e ∉ ks → f (ev_camera_id e) = []) →
  push_to (ev_camera_id e) e ((λ k, (k, f k)) <$> ks) =
    (λ k, (k, if decide (k = ev_camera_id e) then (f k ++ [e])%list else f k)) <$>
      (if decide (ev_camera_id e ∈ ks) then ks else (ks ++ [ev_camera_id e])%list).
Proof.
  intros Hnd. induction Hnd as [|k ks Hk Hnd IH]; intros Hf.
  - rewrite (decide_False (P := _ ∈ [])) by by intros ?%elem_of_nil. simpl.
    rewrite decide_True by done. by rewrite Hf by by intros ?%elem_of_nil.
  - cbn [fmap list_fmap push_to]. destruct (String.eqb_spec (ev_camera_id e) k) as [<-|Hne].
    + rewrite (decide_True (P := _ ∈ _)) by by left. cbn [fmap list_fmap]. rewrite decide_True by done. f_equal.
      apply list_fmap_ext. intros i k' Hi. rewrite decide_False; [done|].
      intros ->. apply Hk. by eapply list_elem_of_lookup_2.
    + rewrite IH by (intros H; apply Hf; set_solver).
      destruct (decide (ev_camera_id e ∈ ks)) as [Hin|Hin].
      * rewrite decide_True by by right. cbn [fmap list_fmap]. by rewrite (decide_False (P := k = _)) by done.
      * rewrite (decide_False (P := _ ∈ k :: ks)) by set_solver. cbn [app fmap list_fmap].
        by rewrite (decide_False (P := k = _)) by done.
Qed.

(** The groups are the cameras in order of appearance, each with its rows in order. *)
Lemma group_spec l : group l = (λ k, (k, rows_of l k)) <$> first_keys l.
Proof.
  induction l as [|e l IH] using rev_ind; [done|].
  unfold group, first_keys. rewrite !foldl_app. simpl. fold (group l). fold (first_keys l). rewrite IH.
  rewrite push_to_map.
  - unfold includes. rewrite <- (decide_bool_decide (ev_camera_id e ∈ first_keys l)).
    apply list_fmap_ext. intros i k _. f_equal. unfold rows_of. rewrite filter_app, filter_cons, filter_nil.
    destruct (decide (k = ev_camera_id e)) as [->|Hne]; [by rewrite decide_True|].
    rewrite decide_False by congruence. by rewrite app_nil_r.
  - apply first_keys_NoDup.
  - intros Hk. unfold rows_of. destruct (filter _ l) as [|x r] eqn:E; [done|]. exfalso. apply Hk.
    apply elem_of_first_keys. exists x. assert (Hx : x ∈ filter (λ e0, ev_camera_id e0 = ev_camera_id e) l) by (rewrite E; by left).
    apply list_elem_of_filter in Hx as [? ?]. done.
Qed.

(** ** Properties *)

(** C17. The panel shows what its filters ask for: at most 200 rows, every one an event of
    its sources that passes the type, camera and text filters and so lies inside the
    camera scope; no two with the same id, a pushed event before a queried one; sorted
    by the chosen mode; and, when everything fits, every passing event is there itself
    or through a row with its id. *)
Theorem displayed_exact date_ms localeCompare stringify cameras layout f live remote :
  antisymmetric localeCompare →
  let passes := matchesFilters stringify layout f in
  let sources := (if pf_useCustomRange f then remote else live ++ remote)%list in
  let le a b := compare_by date_ms localeCompare cameras (pf_sortMode f) a b <=? 0 in
  let shown := displayedEvents date_ms localeCompare stringify cameras layout f live remote in
  (length shown <= 200)%nat ∧ Sorted (λ a b, le a b = true) shown ∧
  (∀ e, e ∈ shown → passes e = true ∧ e ∈ sources ∧
     (effectiveCameraIds layout f ≠ [] → ev_camera_id e ∈ effectiveCameraIds layout f)) ∧
  NoDup (ev_id <$> filter_where has_id shown) ∧
  (∀ e e', pf_useCustomRange f = false → e ∈ live → passes e = true → has_id e = true →
     e' ∈ shown → ev_id e' = ev_id e → e' ∈ live) ∧
  ((length (filter_where passes sources) <= 200)%nat →
     ∀ e, e ∈ sources → passes e = true → ∃ e', e' ∈ shown ∧ (e' = e ∨ has_id e = true ∧ ev_id e' = ev_id e)).
Proof.
  intros Hanti passes sources le shown.
  set (filtered := filter_where passes sources).
  assert (Hshown : shown = take 200 (sort_by le (dedup_rows [] filtered))).
  { unfold shown, displayedEvents, filtered, sources. destruct (pf_useCustomRange f); [done|].
    unfold filter_where. by rewrite filter_app. }
  assert (Hmem : ∀ e, e ∈ shown → e ∈ dedup_rows [] filtered).
  { intros e He. rewrite Hshown in He. apply (elem_of_sort_by le). eapply elem_of_sublist; [exact He|apply sublist_take]. }
  split_and!.
  - rewrite Hshown, length_take. lia.
  - rewrite Hshown. apply Sorted_take, sort_by_Sorted.
    intros a b. by apply compare_by_total.
  - intros e He. apply Hmem, elem_of_dedup_rows in He. apply elem_of_filter_where in He as [Hp Hin].
    split_and!; [done..|]. intros Hne. unfold passes, matchesFilters in Hp.
    apply andb_true_iff in Hp as [Hp _]. apply andb_true_iff in Hp as [_ Hp].
    rewrite bool_decide_eq_false_2 in Hp by done. simpl in Hp. by apply bool_decide_eq_true_1 in Hp.
  - rewrite Hshown. set (sorted := sort_by le (dedup_rows [] filtered)).
    assert (Hnd : NoDup (ev_id <$> filter_where has_id sorted)).
    { unfold sorted, filter_where. rewrite sort_by_Permutation. apply dedup_NoDup. }
    rewrite <- (take_drop 200 sorted) in Hnd. unfold filter_where in *. rewrite filter_app, fmap_app in Hnd.
    by apply NoDup_app in Hnd as [? _].
  - intros e e' Hcustom He Hp Hid He' Heq. apply Hmem in He'. unfold filtered, sources, filter_where in He'.
    rewrite Hcustom, filter_app in He'.
    assert (Hl : e' ∈ filter (λ x, Is_true (passes x)) live).
    { eapply (dedup_first [] _ _ e); [|exact He'|done|done]. apply list_elem_of_filter. by rewrite Is_true_true. }
    by apply list_elem_of_filter in Hl as [_ ?].
  - intros Hlen e He Hp. assert (Hin : e ∈ filtered) by by apply elem_of_filter_where.
    assert (Hall : ∀ x, x ∈ dedup_rows [] filtered → x ∈ shown).
    { intros x Hx. rewrite Hshown, take_ge; [by apply elem_of_sort_by|]. rewrite length_sort_by.
      pose proof (sublist_length _ _ (dedup_sublist [] filtered)). unfold filtered in *. lia. }
    destruct (dedup_covers [] filtered e Hin) as [H|[Hid [H|(e' & H & Heq)]]].
    + exists e. auto.
    + by apply elem_of_nil in H.
    + exists e'. auto.
Qed.

Definition sample_event (id : Z) (camera : string) (time : string) : Event :=
  mkEvent (Some id) camera time "motion" None EmptyString None.

Definition byte_compare (a b : string) : Z :=
  match String.compare a b with Lt => -1 | Eq => 0 | Gt => 1 end.

Lemma byte_compare_anti : antisymmetric byte_compare.
Proof. intros a b. unfold byte_compare. rewrite String.compare_antisym. by destruct (String.compare a b). Qed.

Definition time_of (s : string) : Z := Z.of_nat (String.length s).

Lemma displayed_exact_witness :
  let live := [sample_event 1 "cam-a" "xx"] in
  let remote := [sample_event 1 "cam-a" "x"; sample_event 2 "cam-b" "xxx"] in
  ∃ e, e ∈ displayedEvents time_of byte_compare ev_event_time [] [] (initial_filters 0) live remote ∧
    ev_id e = Some 2.
Proof.
  intros live remote.
  destruct (displayed_exact time_of byte_compare ev_event_time [] [] (initial_filters 0) live remote byte_compare_anti)
    as (_ & _ & _ & _ & _ & H).
  destruct (H ltac:(vm_compute; lia) (sample_event 2 "cam-b" "xxx")) as (e & He & Hid).
  - right; right; left.
  - reflexivity.
  - exists e. split; [exact He|]. destruct Hid as [->|[_ ->]]; reflexivity.
Defined.

(** Every camera in scope gets its share: with several cameras the panel sends
    exactly one query for each, scoped to it, with a limit between 50 and 200 and
    limits that add up to 200 at least; with none or one it sends a single query for 200.
    All of them carry the panel's window, types and text.  What is shown is every reply
    that arrived, one after the other, whichever of them fail, and the fetch itself never
    fails. *)
Theorem fetch_shares now layout f b l :
  let ids := effectiveCameraIds layout f in
  let n := length ids in
  ∃ l' qs ds, fetchEvents now layout f b l = (l', Ok (mjoin (events_of <$> ds))) ∧
    requests l' = (requests l ++ qs)%list ∧ Forall2 (answered_by b) qs ds ∧
    ((2 <= n)%nat → 50 <= perCam n <= 200 ∧ 200 <= Z.of_nat n * perCam n ∧
       Forall2 (λ id q, asks_events (rq_url q) (base_params now f (Some id) (perCam n)) ∧ in_method (rq_init q) = None) ids qs) ∧
    ((n < 2)%nat → ∃ q, qs = [q] ∧ asks_events (rq_url q) (base_params now f (head ids) 200) ∧
       in_method (rq_init q) = None).
Proof.
  intros ids n. unfold fetchEvents. fold ids. destruct ids as [|a [|a' r]] eqn:Eids.
  - destruct (queryEvents_one (base_params now f None 200) b l) as (l1 & q & d & E & Hr & Hu & Hm & Ha).
    exists l1, [q], [d]. split_and!; [|done|by repeat constructor|unfold n; simpl; lia|by eauto].
    apply or_else_ok. simpl head. rewrite (bind_ok _ _ _ _ _ _ E). simpl. by rewrite app_nil_r.
  - destruct (queryEvents_one (base_params now f (Some a) 200) b l) as (l1 & q & d & E & Hr & Hu & Hm & Ha).
    exists l1, [q], [d]. split_and!; [|done|by repeat constructor|unfold n; simpl; lia|by eauto].
    apply or_else_ok. simpl head. rewrite (bind_ok _ _ _ _ _ _ E). simpl. by rewrite app_nil_r.
  - destruct (query_each_sends (λ id, base_params now f (Some id) (perCam n)) (a :: a' :: r) b l)
      as (l1 & ds & qs & E & Hr & H1 & H2).
    exists l1, qs, ds. split_and!; [|done|done| |unfold n; simpl; lia].
    + apply or_else_ok. fold n. by rewrite (bind_ok _ _ _ _ _ _ E).
    + intros _. destruct (perCam_bounds n) as [Hb1 Hb2]; [unfold n; simpl; lia|]. split_and!; [done| |done|done].
      unfold perCam, n. simpl length. rewrite !Nat2Z.inj_succ. assert (0 <= Z.of_nat (length r)) by lia.
      generalize dependent (Z.of_nat (length r)). intros z Hz. zdiv.
Qed.

(** Grouping loses and mixes nothing: the groups are the cameras of the rows in order
    of appearance, each once, with exactly its rows in their order, and together they
    are the rows again. *)
Theorem groups_partition layout f rows m :
  grouped layout f rows = Some m →
  NoDup m.*1 ∧ (∀ k es, (k, es) ∈ m → es = rows_of rows k ∧ es ≠ []) ∧ m.*1 = first_keys rows ∧
  mjoin m.*2 ≡ₚ rows.
Proof.
  unfold grouped. destruct (_ || _); [|done]. intros [= <-]. rewrite group_spec.
  assert (Hk : ((λ k, (k, rows_of rows k)) <$> first_keys rows).*1 = first_keys rows).
  { rewrite <- list_fmap_compose. by rewrite list_fmap_id. }
  rewrite Hk. split_and!; [apply first_keys_NoDup| |done|].
  - intros k es (k' & Heq & Hin)%list_elem_of_fmap. simplify_eq. split; [done|].
    apply elem_of_first_keys in Hin as (e & He & <-). intros Hnil.
    assert (Hr : e ∈ rows_of rows (ev_camera_id e)) by by apply list_elem_of_filter. rewrite Hnil in Hr. by apply elem_of_nil in Hr.
  - rewrite <- list_fmap_compose. unfold compose. simpl.
    assert (Hgen : ∀ ks, NoDup ks → mjoin (rows_of rows <$> ks) ≡ₚ filter (λ e, ev_camera_id e ∈ ks) rows).
    { intros ks Hnd. induction Hnd as [|k ks Hk' Hnd IH]; simpl.
      - clear Hk. induction rows as [|e rows IH]; [done|]. rewrite filter_cons, decide_False; [done|by intros ?%elem_of_nil].
      - rewrite IH. clear IH Hk. unfold rows_of. induction rows as [|e rows IHr]; [done|].
        rewrite !filter_cons. destruct (decide (ev_camera_id e = k)) as [->|Hne].
        + rewrite (decide_False (P := k ∈ ks)) by done. rewrite decide_True by by left. simpl. by rewrite IHr.
        + destruct (decide (ev_camera_id e ∈ ks)) as [Hin|Hin].
          * rewrite decide_True by by right. rewrite <- IHr. by rewrite Permutation_middle.
          * rewrite decide_False by set_solver. exact IHr. }
    etrans; [apply (Hgen _ (first_keys_NoDup rows))|].
    assert (Hall : ∀ e, e ∈ rows → ev_camera_id e ∈ first_keys rows) by (intros e He; apply elem_of_first_keys; eauto).
    clear Hgen Hk. revert Hall. generalize (first_keys rows). intros ks Hall.
    induction rows as [|e rows IH]; [done|]. rewrite filter_cons, decide_True by (apply Hall; by left).
    rewrite IH; [done|]. intros x Hx. apply Hall. by right.
Qed.

Lemma groups_partition_witness :
  let rows := [sample_event 1 "a" "x"; sample_event 2 "b" "x"; sample_event 3 "a" "x"] in
  let f := mkPanelFilters EVENT_TYPES [] EmptyString 0 0 false false newest true in
  mjoin (group rows).*2 ≡ₚ rows ∧ NoDup (group rows).*1.
Proof.
  intros rows f. destruct (groups_partition [] f rows (group rows) eq_refl) as (H1 & _ & _ & H2). exact (conj H2 H1).
Defined.

(** C18. Boxes are drawn where they were detected: a box given in pixels of a frame (any
    box of the camera's own tracker, and any with a coordinate above 1) that lies inside
    the frame becomes one inside the unit square, in proportion; a box already in
    fractions is kept as it is; a box is skipped only when it is no object, lacks a
    coordinate, or is in pixels of a frame of unknown size. *)
Theorem boxes_normalized ms fw fh b :
  let pixels x y w h := ms || gt1 x || gt1 y || gt1 w || gt1 h in
  (∀ nb x y w h, norm_box ms fw fh b = Some nb → box_rect b = Some (x, y, w, h) → pixels x y w h = true →
     (nb_x nb * fw == x)%Q ∧ (nb_y nb * fh == y)%Q ∧ (nb_w nb * fw == w)%Q ∧ (nb_h nb * fh == h)%Q ∧
     ((0 <= x)%Q → (0 <= y)%Q → (0 <= w)%Q → (0 <= h)%Q → (x + w <= fw)%Q → (y + h <= fh)%Q →
        (0 <= nb_x nb)%Q ∧ (0 <= nb_y nb)%Q ∧ (nb_x nb + nb_w nb <= 1)%Q ∧ (nb_y nb + nb_h nb <= 1)%Q)) ∧
  (∀ nb x y w h, norm_box ms fw fh b = Some nb → box_rect b = Some (x, y, w, h) → pixels x y w h = false →
     nb_x nb = x ∧ nb_y nb = y ∧ nb_w nb = w ∧ nb_h nb = h) ∧
  (norm_box ms fw fh b = None →
     match b with JObj _ | JArr _ => False | _ => True end ∨ box_rect b = None ∨
     ∃ x y w h, box_rect b = Some (x, y, w, h) ∧ pixels x y w h = true ∧ (fw <= 0 \/ fh <= 0)%Q).
Proof.
  intros pixels.
  assert (Hobj : ∀ nb, norm_box ms fw fh b = Some nb → match b with JObj _ | JArr _ => True | _ => False end)
    by (intros nb; by destruct b).
  split_and!.
  - intros nb x y w h Hn Hr Hp. specialize (Hobj nb Hn).
    assert (Hb : nb_x nb = (x / fw)%Q ∧ nb_y nb = (y / fh)%Q ∧ nb_w nb = (w / fw)%Q ∧ nb_h nb = (h / fh)%Q ∧
                 (0 < fw)%Q ∧ (0 < fh)%Q).
    { destruct b; try done; unfold norm_box in Hn; rewrite Hr in Hn; fold (pixels x y w h) in Hn; rewrite Hp in Hn;
        (destruct (Qle_bool fw 0) eqn:E1; [done|]); (destruct (Qle_bool fh 0) eqn:E2; [done|]);
        simplify_eq/=; (split_and!; try done); apply Qnot_le_lt; intros H%Qle_bool_iff; congruence. }
    destruct Hb as (-> & -> & -> & -> & Hw & Hh).
    assert (~ fw == 0)%Q by lra. assert (~ fh == 0)%Q by lra.
    split_and!; [by field..|]. intros Hx Hy Hw0 Hh0 Hxw Hyh. split_and!.
    + apply Qle_shift_div_l; lra.
    + apply Qle_shift_div_l; lra.
    + assert (E : (x / fw + w / fw == (x + w) / fw)%Q) by by field. rewrite E. apply Qle_shift_div_r; lra.
    + assert (E : (y / fh + h / fh == (y + h) / fh)%Q) by by field. rewrite E. apply Qle_shift_div_r; lra.
  - intros nb x y w h Hn Hr Hp. specialize (Hobj nb Hn).
    destruct b; try done; unfold norm_box in Hn; rewrite Hr in Hn; fold (pixels x y w h) in Hn; rewrite Hp in Hn; by simplify_eq/=.
  - intros Hn. destruct b as [| | | |l|fs]; try (by left); right; unfold norm_box in Hn;
      (destruct (box_rect _) as [[[[x y] w] h]|]; [right|by left]); exists x, y, w, h; (split; [done|]);
      fold (pixels x y w h) in Hn; (destruct (pixels x y w h); [|done]); (split; [done|]);
      (destruct (Qle_bool fw 0) eqn:E1; [left; by apply Qle_bool_iff|]);
      (destruct (Qle_bool fh 0) eqn:E2; [right; by apply Qle_bool_iff|done]).
Qed.

Lemma boxes_normalized_witness :
  let b := JObj [("x", JNum 80); ("y", JNum 45); ("w", JNum 160); ("h", JNum 90)] in
  ∃ nb, norm_box true 320 180 b = Some nb ∧ (nb_x nb + nb_w nb <= 1)%Q.
Proof.
  intros b. eexists. split; [reflexivity|].
  destruct (boxes_normalized true 320 180 b) as (H & _).
  destruct (H _ 80%Q 45%Q 160%Q 90%Q eq_refl eq_refl eq_refl) as (_ & _ & _ & _ & Hin).
  destruct Hin as (_ & _ & Hw & _); [lra..|]. exact Hw.
Defined.

Lemma settle_in p n data :
  n ∈ pn_flight p →
  panel_step p (QuerySettles n data) =
    mkPanel data false (pn_debounce p) (filter (λ m, m ≠ n) (pn_flight p)) (pn_next p).
Proof. intros H. simpl. unfold includes. by rewrite bool_decide_eq_true_2. Qed.

(** The panel shows the reply that came last, not the one asked for last: with two
    queries under way nothing cancels the older one, so when it is slower it replaces
    the rows of the newer filters; and the loading mark is gone after the first reply
    although the other query still runs. *)
Theorem last_reply_wins p a b old new :
  pn_flight p = [] → pn_debounce p = true →
  let q := panel_run p [DebounceFires; FiltersChange; DebounceFires] in
  a = pn_next p → b = S (pn_next p) →
  pn_flight q = [a; b] ∧
  let q1 := panel_step q (QuerySettles b new) in
  pn_remote q1 = new ∧ pn_loading q1 = false ∧ pn_flight q1 = [a] ∧
  pn_remote (panel_step q1 (QuerySettles a old)) = old ∧
  pn_remote (panel_run q [QuerySettles a old; QuerySettles b new]) = new.
Proof.
  intros Hf Hd q -> ->.
  assert (Hq : q = mkPanel (pn_remote p) true false [pn_next p; S (pn_next p)] (S (S (pn_next p)))).
  { unfold q. simpl. rewrite Hd. simpl. by rewrite Hf. }
  assert (H1 : panel_step q (QuerySettles (S (pn_next p)) new) = mkPanel new false false [pn_next p] (S (S (pn_next p)))).
  { rewrite settle_in, Hq; [|rewrite Hq; right; left]. simpl. f_equal.
    rewrite !filter_cons, filter_nil, decide_True by lia. by rewrite decide_False by (intros H; by apply H). }
  split; [by rewrite Hq|]. cbn zeta. rewrite H1. split_and!; try done.
  - rewrite settle_in; [done|by left].
  - change (panel_run q _) with
      (panel_step (panel_step q (QuerySettles (pn_next p) old)) (QuerySettles (S (pn_next p)) new)).
    rewrite settle_in; [done|]. rewrite settle_in, Hq; [|rewrite Hq; left].
    apply list_elem_of_filter. split; [simpl; lia|right; left].
Qed.

Lemma last_reply_wins_witness :
  let q := panel_run (mkPanel [] false true [] 0) [DebounceFires; FiltersChange; DebounceFires] in
  pn_remote (panel_step (panel_step q (QuerySettles 1 [])) (QuerySettles 0 [sample_event 1 "a" "x"])) =
    [sample_event 1 "a" "x"].
Proof.
  destruct (last_reply_wins (mkPanel [] false true [] 0) 0 1 [sample_event 1 "a" "x"] [] eq_refl eq_refl eq_refl eq_refl)
    as (_ & _ & _ & _ & H & _).
  exact H.
Defined.
