(* ===== verification/Monitor.v ===== *)
(** * The monitoring page ([app/page.tsx])

    The state that the camera wall, the timeline and the events panel of the root page
    share: cameras, playback position, the event list that live messages and queries
    feed, the scope of the queries, the peeked camera, and the page's own WebSocket with
    its reconnects. *)

From S2P Require Import Prelude Types Http AuthFetch ApiClient EventsPanel.
From stdpp Require Import pretty.
From Stdlib Require Import QArith Qround Lqa.
#[local] Open Scope string_scope.
#[local] Open Scope Z_scope.

(** ** Camera ids *)

Definition is_hex (n : N) : bool :=
  (((48 <=? n) && (n <=? 57)) || ((97 <=? n) && (n <=? 102)) || ((65 <=? n) && (n <=? 70)))%N.

(** [UUID_RE]: hexadecimal groups of 8, 4, 4, 4 and 12. *)
Definition uuid_byte (i : nat) (n : N) : bool :=
  if bool_decide (i ∈ [8; 13; 18; 23]%nat) then (n =? 45)%N else is_hex n.

Definition isCameraUUID (id : string) : bool :=
  let l := bytes_of id in
  (length l =? 36)%nat && forallb (λ p, uuid_byte p.1 p.2) (zip (seq 0 36) l).

Definition isCameraUUID_opt (id : option string) : bool :=
  match id with Some s => isCameraUUID s | None => false end.

(** ** State *)

Inductive Page := page_live | page_export | page_analytics | page_map.

Record Home := mkHome {
  hm_page : Page;
  hm_pageKey : nat;
  hm_cameras : list Camera;
  hm_selectedCamera : option string;
  hm_isLive : bool;
  hm_playbackTime : Z;
  hm_events : list Event;
  hm_filters : list (string * bool);
  hm_isolatedCamera : option string;
  hm_peekCameraId : option string;
  hm_previewIsolated : option string;
  hm_layoutIds : list string;
  hm_globalPaused : bool;
  hm_playbackRate : Q
}.

Definition initial_home (now : Z) : Home :=
  mkHome page_live 0 [] None true now []
    [("motion", true); ("lpr", true); ("object", true); ("face", true)] None None None [] false 1.

Definition set_events (ev : list Event) (h : Home) : Home :=
  mkHome (hm_page h) (hm_pageKey h) (hm_cameras h) (hm_selectedCamera h) (hm_isLive h) (hm_playbackTime h) ev
    (hm_filters h) (hm_isolatedCamera h) (hm_peekCameraId h) (hm_previewIsolated h) (hm_layoutIds h)
    (hm_globalPaused h) (hm_playbackRate h).
Definition set_cameras (c : list Camera) (sel : option string) (h : Home) : Home :=
  mkHome (hm_page h) (hm_pageKey h) c sel (hm_isLive h) (hm_playbackTime h) (hm_events h)
    (hm_filters h) (hm_isolatedCamera h) (hm_peekCameraId h) (hm_previewIsolated h) (hm_layoutIds h)
    (hm_globalPaused h) (hm_playbackRate h).
Definition set_position (live : bool) (t : Z) (h : Home) : Home :=
  mkHome (hm_page h) (hm_pageKey h) (hm_cameras h) (hm_selectedCamera h) live t (hm_events h)
    (hm_filters h) (hm_isolatedCamera h) (hm_peekCameraId h) (hm_previewIsolated h) (hm_layoutIds h)
    (hm_globalPaused h) (hm_playbackRate h).
Definition set_peek (peek isolated prev : option string) (h : Home) : Home :=
  mkHome (hm_page h) (hm_pageKey h) (hm_cameras h) (hm_selectedCamera h) (hm_isLive h) (hm_playbackTime h)
    (hm_events h) (hm_filters h) isolated peek prev (hm_layoutIds h) (hm_globalPaused h) (hm_playbackRate h).
Definition set_layoutIds (ids : list string) (h : Home) : Home :=
  mkHome (hm_page h) (hm_pageKey h) (hm_cameras h) (hm_selectedCamera h) (hm_isLive h) (hm_playbackTime h)
    (hm_events h) (hm_filters h) (hm_isolatedCamera h) (hm_peekCameraId h) (hm_previewIsolated h) ids
    (hm_globalPaused h) (hm_playbackRate h).
Definition set_transport (paused : bool) (rate : Q) (h : Home) : Home :=
  mkHome (hm_page h) (hm_pageKey h) (hm_cameras h) (hm_selectedCamera h) (hm_isLive h) (hm_playbackTime h)
    (hm_events h) (hm_filters h) (hm_isolatedCamera h) (hm_peekCameraId h) (hm_previewIsolated h) (hm_layoutIds h)
    paused rate.
Definition set_filters (f : list (string * bool)) (h : Home) : Home :=
  mkHome (hm_page h) (hm_pageKey h) (hm_cameras h) (hm_selectedCamera h) (hm_isLive h) (hm_playbackTime h)
    (hm_events h) f (hm_isolatedCamera h) (hm_peekCameraId h) (hm_previewIsolated h) (hm_layoutIds h)
    (hm_globalPaused h) (hm_playbackRate h).

Definition switchPage (p : Page) (h : Home) : Home :=
  mkHome p (S (hm_pageKey h)) (hm_cameras h) (hm_selectedCamera h) (hm_isLive h) (hm_playbackTime h)
    (hm_events h) (hm_filters h) (hm_isolatedCamera h) (hm_peekCameraId h) (hm_previewIsolated h) (hm_layoutIds h)
    (hm_globalPaused h) (hm_playbackRate h).

(** ** Cameras *)

Definition jstr_or (d : string) (j : option json) : string :=
  match j with Some (JStr s) => s | _ => d end.

(** A camera of a site in the shape of the NVR's. *)
Definition map_site_camera (site nowISO : string) (show : json → string) (idx : nat) (c : json) : Camera :=
  mkCamera (show (default JNull (jget "id" c)))
    (jstr_or ("Camera " +:+ pretty (Z.of_nat idx + 1)) (jget "name" c))
    EmptyString EmptyString EmptyString EmptyString 30 true "continuous" 5 10 "motion" true false site "24/7" false
    (match jget "status" c with
     | Some (JStr s) => if String.eqb s "online" then "connected" else "disconnected"
     | _ => "disconnected"
     end)
    EmptyString false "IRONSight" "Virtual" "1.0" None None nowISO nowISO.

Definition map_site_cameras (site nowISO : string) (show : json → string) (l : list json) : list Camera :=
  imap (map_site_camera site nowISO show) l.

(** The cameras arrive: [prev || first.id] is selected. *)
Definition cameras_loaded (l : list Camera) (h : Home) : Home :=
  set_cameras l
    (match l with
     | c :: _ => if truthy_ostr (hm_selectedCamera h) then hm_selectedCamera h else Some (cam_id c)
     | [] => hm_selectedCamera h
     end) h.

Definition set_cam_name (n : string) (c : Camera) : Camera :=
  mkCamera (cam_id c) n (cam_onvif_address c) (cam_username c) (cam_rtsp_uri c) (cam_sub_stream_uri c)
    (cam_retention_days c) (cam_recording c) (cam_recording_mode c) (cam_pre_buffer_sec c) (cam_post_buffer_sec c)
    (cam_recording_triggers c) (cam_events_enabled c) (cam_audio_enabled c) (cam_camera_group c) (cam_schedule c)
    (cam_privacy_mask c) (cam_status c) (cam_profile_token c) (cam_has_ptz c) (cam_manufacturer c) (cam_model c)
    (cam_firmware c) (cam_device_class c) (cam_sense_webhook_token c) (cam_created_at c) (cam_updated_at c).

(** [handleRenameCamera], once the API has accepted the name. *)
Definition camera_renamed (id name : string) (h : Home) : Home :=
  set_cameras (map_where (λ c, String.eqb (cam_id c) id) (set_cam_name name) (hm_cameras h)) (hm_selectedCamera h) h.

Definition onlineCameras (h : Home) : nat := length (filter_where (λ c, String.eqb (cam_status c) "online") (hm_cameras h)).

(** What the two pills of the status bar say. *)
Definition status_pills (h : Home) : nat * nat := (onlineCameras h, (length (hm_cameras h) - onlineCameras h)%nat).

(** ** Events *)

Definition EVENT_LIMIT : nat := 200.

(** [data.event_type ?? data.event] and [data.event_time ?? data.time] *)
Definition normalize_live (data : json) : Event :=
  let e := event_of data in
  let pick (k k' : string) := match jget k data with Some JNull | None => jget k' data | v => v end in
  mkEvent (ev_id e) (ev_camera_id e) (json_str (pick "event_time" "time")) (json_str (pick "event_type" "event"))
    (ev_details e) (ev_thumbnail e) (ev_source e).

Definition set_thumbnail (t : string) (e : Event) : Event :=
  mkEvent (ev_id e) (ev_camera_id e) (ev_event_time e) (ev_event_type e) (ev_details e) t (ev_source e).

(** [onmessage] on a text that parses. *)
Definition handle_message (data : json) (events : list Event) : list Event :=
  match jget "type" data with
  | Some (JStr "event") => take EVENT_LIMIT (normalize_live data :: events)
  | Some (JStr "event_thumbnail") =>
      let id := match jget "event_id" data with Some (JNum q) => Some (Qfloor q) | _ => None end in
      map_where (λ e, bool_decide (ev_id e = id)) (set_thumbnail (json_str (jget "thumbnail" data))) events
  | _ => events
  end.

(** [e.id || e.event_time] *)
Definition event_key (e : Event) : Z + string :=
  if truthy_oZ (ev_id e) then inl (default 0 (ev_id e)) else inr (ev_event_time e).

Section merge.
Context (date_ms : string → Z).

Definition newer (a b : Event) : bool := date_ms (ev_event_time b) - date_ms (ev_event_time a) <=? 0.

(** The merge of a reply into the list. *)
Definition merge_events (prev queried : list Event) : list Event :=
  take EVENT_LIMIT (sort_by newer (map_of ((λ e, (event_key e, e)) <$> (prev ++ queried)%list)).*2).
End merge.

(** ** The timeline's queries *)

Definition HOUR : Z := 60 * 60 * 1000.

Definition activeFilters (h : Home) : list string := (filter_where (λ f, f.2) (hm_filters h)).*1.

Definition timelineCameraIds (h : Home) : list string :=
  filter_where isCameraUUID
    (match hm_isolatedCamera h with
     | Some c => if truthy_str c then [c] else hm_layoutIds h
     | None => hm_layoutIds h
     end).

(** The arguments of [getTimeline]: the hour before the position. *)
Definition timeline_params (now : Z) (h : Home) : string * string * option (list string) * option Z :=
  let end_ := if hm_isLive h then now else hm_playbackTime h in
  (toISOString (end_ - HOUR), toISOString end_,
   match timelineCameraIds h with [] => None | ids => Some ids end, Some 1).

(** The arguments of [queryEvents]: in playback the hour after it as well. *)
Definition events_params (now : Z) (h : Home) : EventParams :=
  let end_ := if hm_isLive h then now else hm_playbackTime h in
  mkEventParams (toISOString (end_ - HOUR)) (toISOString (if hm_isLive h then end_ else end_ + HOUR))
    (match find_where isCameraUUID_opt [hm_isolatedCamera h; hm_selectedCamera h] with Some id => id | None => None end)
    None (Some (String.concat "," (activeFilters h))) None (Some 200).

(** [loadTimeline]: both queries go out, for the scope of that moment. *)
Definition loadTimeline (now : Z) (h : Home) : M (json * list Event) :=
  let '(start, end_, ids, interval) := timeline_params now h in
  buckets ← getTimeline start end_ ids interval;
  data ← queryEvents (events_params now h);
  mret (buckets, events_of data).

(** Its reply is merged into the list of the moment it arrives. *)
Definition timeline_loaded (date_ms : string → Z) (data : list Event) (h : Home) : Home :=
  set_events (merge_events date_ms (hm_events h) data) h.

(** ** Position and scope *)

Definition handleTimelineSeek (t : Z) (h : Home) : Home := set_position false t h.
Definition handleGoLive (now : Z) (h : Home) : Home := set_position true now h.

(** The effect of [isLive] on the speed. *)
Definition live_rate_effect (h : Home) : Home :=
  if hm_isLive h then set_transport (hm_globalPaused h) 1 h else h.

Definition handleTogglePause (h : Home) : Home := set_transport (negb (hm_globalPaused h)) (hm_playbackRate h) h.
Definition handleSetPlaybackRate (r : Q) (h : Home) : Home := set_transport (hm_globalPaused h) r h.

Definition toggleFilter (type : string) (h : Home) : Home :=
  set_filters
    (match find_where (λ f, String.eqb f.1 type) (hm_filters h) with
     | Some _ => map_where (λ f, String.eqb f.1 type) (λ f, (f.1, negb f.2)) (hm_filters h)
     | None => (hm_filters h ++ [(type, true)])%list
     end) h.

(** The layout reports its cameras; the same list again is no update. *)
Definition handleVisibleCamerasChange (ids : list string) (h : Home) : Home :=
  if bool_decide (hm_layoutIds h = ids) then h else set_layoutIds ids h.

(** Setting the peeked camera and the effect that isolates the timeline to it. *)
Definition peek_effect (h : Home) : Home :=
  match hm_peekCameraId h with
  | Some c =>
      if truthy_str c then set_peek (hm_peekCameraId h) (Some c) (hm_isolatedCamera h) h
      else set_peek (hm_peekCameraId h) (hm_previewIsolated h) None h
  | None => set_peek (hm_peekCameraId h) (hm_previewIsolated h) None h
  end.

Definition setPeekCameraId (c : option string) (h : Home) : Home :=
  if decide (hm_peekCameraId h = c) then h
  else peek_effect (set_peek c (hm_isolatedCamera h) (hm_previewIsolated h) h).

(** A click on the map peeks and shows the live page; a click on a row of the panel
    seeks and selects the event's camera. *)
Definition onCameraClick (id : string) (h : Home) : Home := switchPage page_live (setPeekCameraId (Some id) h).
Definition onEventClick (date_ms : string → Z) (e : Event) (h : Home) : Home :=
  let h1 := handleTimelineSeek (date_ms (ev_event_time e)) h in
  if truthy_str (ev_camera_id e) then set_cameras (hm_cameras h1) (Some (ev_camera_id e)) h1 else h1.

(** [currentTime] of the keyboard handler and the timeline. *)
Definition currentTime (now : Z) (h : Home) : Z := if hm_isLive h then now else hm_playbackTime h.

(** ** The page's WebSocket *)

Module Socket.

Record Sock := mkSock {
  unmounted : bool;
  reconnectDelay : Z;
  reconnectTimer : option Z;
  ticket_pending : bool;
  socket : option string;
  connected : bool
}.

Inductive SockEffect := FetchTicket | OpenSocket (url : string) | SetTimer (delay : Z) | ClearTimer | CloseSocket.

Definition sock_connect (s : Sock) : Sock * list SockEffect :=
  if unmounted s then (s, [])
  else (mkSock (unmounted s) (reconnectDelay s) (reconnectTimer s) true (socket s) (connected s), [FetchTicket]).

Definition sock_open (url : string) (s : Sock) : Sock * list SockEffect :=
  (mkSock (unmounted s) (reconnectDelay s) (reconnectTimer s) false (Some url) (connected s), [OpenSocket url]).

(** The ticket request settles, with a ticket or not. *)
Definition ticket_settles (baseUrl : string) (ticket : option string) (s : Sock) : Sock * list SockEffect :=
  if negb (ticket_pending s) then (s, [])
  else if unmounted s then (mkSock (unmounted s) (reconnectDelay s) (reconnectTimer s) false (socket s) (connected s), [])
  else
    match ticket with
    | Some t => sock_open (baseUrl +:+ "?ticket=" +:+ encodeURIComponent t) s
    | None => sock_open baseUrl s
    end.

Definition ws_open (s : Sock) : Sock * list SockEffect :=
  match socket s with
  | Some _ => (mkSock (unmounted s) 3000 (reconnectTimer s) (ticket_pending s) (socket s) true, [])
  | None => (s, [])
  end.

Definition ws_close (s : Sock) : Sock * list SockEffect :=
  match socket s with
  | Some _ =>
      if unmounted s then (mkSock (unmounted s) (reconnectDelay s) (reconnectTimer s) (ticket_pending s) None false, [])
      else (mkSock (unmounted s) (reconnectDelay s) (Some (reconnectDelay s)) (ticket_pending s) None false,
            [SetTimer (reconnectDelay s)])
  | None => (s, [])
  end.

Definition reconnect_fires (s : Sock) : Sock * list SockEffect :=
  match reconnectTimer s with
  | Some _ =>
      sock_connect (mkSock (unmounted s) (Z.min (reconnectDelay s * 2) 30000) None (ticket_pending s) (socket s) (connected s))
  | None => (s, [])
  end.

Definition unmount (s : Sock) : Sock * list SockEffect :=
  (mkSock true (reconnectDelay s) None (ticket_pending s) (socket s) (connected s),
   ((match reconnectTimer s with Some _ => [ClearTimer] | None => [] end) ++
    (match socket s with Some _ => [CloseSocket] | None => [] end))%list).

Inductive SockEvent := TicketSettles (ticket : option string) | WsOpen | WsClose | TimerFires | Unmount.

Definition sock_step (baseUrl : string) (s : Sock) (e : SockEvent) : Sock * list SockEffect :=
  match e with
  | TicketSettles t => ticket_settles baseUrl t s
  | WsOpen => ws_open s
  | WsClose => ws_close s
  | TimerFires => reconnect_fires s
  | Unmount => unmount s
  end.

Fixpoint sock_run (baseUrl : string) (s : Sock) (es : list SockEvent) : Sock * list SockEffect :=
  match es with
  | [] => (s, [])
  | e :: r => let '(s1, f1) := sock_step baseUrl s e in let '(s2, f2) := sock_run baseUrl s1 r in (s2, (f1 ++ f2)%list)
  end.

(** The effect that mounts it. *)
Definition sock_mount : Sock * list SockEffect := sock_connect (mkSock false 3000 None false None false).
End Socket.

(** * Lemmas *)

Definition keyed (l : list Event) : list ((Z + string) * Event) := (λ e, (event_key e, e)) <$> l.

Lemma last_value_keyed l k e : last_value k (keyed l) = Some e → event_key e = k ∧ e ∈ l.
Proof.
  unfold last_value. intros ([k' e'] & Hl & ->)%fmap_Some. apply last_Some_elem_of in Hl.
  apply list_elem_of_filter in Hl as [Hk Hin]. unfold keyed in Hin. apply list_elem_of_fmap in Hin as (x & [= -> ->] & Hx).
  by simpl in *.
Qed.

Lemma last_value_app {K V} `{EqDecision K} (l l' : list (K * V)) k :
  last_value k (l ++ l') = match last_value k l' with Some v => Some v | None => last_value k l end.
Proof.
  unfold last_value. rewrite filter_app, last_app. by destruct (last (filter _ l')).
Qed.

Lemma last_value_None {K V} `{EqDecision K} (l : list (K * V)) k : k ∉ l.*1 → last_value k l = None.
Proof.
  intros H. unfold last_value. destruct (last _) as [[k' v]|] eqn:E; [|done]. exfalso. apply H.
  apply last_Some_elem_of, list_elem_of_filter in E as [Hk Hin]. simpl in Hk. subst.
  apply list_elem_of_fmap. by exists (k, v).
Qed.

Section merge_lemmas.
Context (date_ms : string → Z).

Lemma elem_of_merged prev queried e :
  e ∈ (map_of (keyed (prev ++ queried)%list)).*2 ↔ last_value (event_key e) (keyed (prev ++ queried)%list) = Some e.
Proof.
  rewrite list_elem_of_fmap. split.
  - intros ([k v] & -> & H). apply map_of_elem in H. simpl. destruct (last_value_keyed _ _ _ H) as [<- _]. done.
  - intros H. exists (event_key e, e). split; [done|]. by apply map_of_elem.
Qed.

Lemma merged_keys prev queried :
  event_key <$> (map_of (keyed (prev ++ queried)%list)).*2 = (map_of (keyed (prev ++ queried)%list)).*1.
Proof.
  rewrite <- list_fmap_compose. apply list_fmap_ext. intros i [k v] Hi%list_elem_of_lookup_2. simpl.
  apply map_of_elem in Hi. by destruct (last_value_keyed _ _ _ Hi).
Qed.

Lemma newer_total a b : newer date_ms a b = false → newer date_ms b a = true.
Proof. unfold newer. lia. Qed.
End merge_lemmas.

Lemma or_else_total {A} (m : M A) fb b l : ∃ l' a, or_else m fb b l = (l', Ok a).
Proof. unfold or_else, try_catch. destruct (m b l) as [l1 [a|e]]; by eexists _, _. Qed.

Lemma isCameraUUID_truthy id : isCameraUUID id = true → truthy_str id = true.
Proof. by destruct id. Qed.

(** ** Properties *)

(** C19. The event list stays exact as live messages and replies come in: after a reply it
    has at most 200 rows, no two with the same key, newest first, every one the latest
    version of its key (a queried one before a pushed one); and when everything fits it
    has the latest version of every key of the list and the reply.  So an event that was
    in the list stays, whichever cameras the query was for, until newer ones push it
    out; and of two events without an id at the same time only the later is kept,
    whichever cameras they are from. *)
Theorem merge_exact date_ms h data :
  let rows := hm_events (timeline_loaded date_ms data h) in
  let all := (hm_events h ++ data)%list in
  (length rows <= EVENT_LIMIT)%nat ∧ NoDup (event_key <$> rows) ∧
  Sorted (λ a b, newer date_ms a b = true) rows ∧
  (∀ e, e ∈ rows → last_value (event_key e) (keyed all) = Some e) ∧
  ((length all <= EVENT_LIMIT)%nat →
     (∀ k e, last_value k (keyed all) = Some e → e ∈ rows) ∧
     (∀ e, last_value (event_key e) (keyed (hm_events h)) = Some e → event_key e ∉ event_key <$> data → e ∈ rows)) ∧
  (∀ a b l l', all = (l ++ a :: b :: l')%list → truthy_oZ (ev_id a) = false → truthy_oZ (ev_id b) = false →
     ev_event_time a = ev_event_time b → a ≠ b → a ∉ l' → a ∉ rows).
Proof.
  intros rows all. set (sorted := sort_by (newer date_ms) (map_of (keyed all)).*2).
  assert (Hrows : rows = take EVENT_LIMIT sorted) by done.
  assert (Hin : ∀ e, e ∈ rows → last_value (event_key e) (keyed all) = Some e).
  { intros e He. apply elem_of_merged. apply (elem_of_sort_by (newer date_ms)). fold all. fold sorted.
    eapply elem_of_sublist; [exact He|rewrite Hrows; apply sublist_take]. }
  assert (Hfits : (length all <= EVENT_LIMIT)%nat → ∀ k e, last_value k (keyed all) = Some e → e ∈ rows).
  { intros Hlen k e He. rewrite Hrows, take_ge.
    - unfold sorted. apply elem_of_sort_by. unfold all in *. apply elem_of_merged.
      by destruct (last_value_keyed _ _ _ He) as [-> _].
    - unfold sorted. rewrite length_sort_by, length_fmap, <- (length_fmap fst).
      assert (Hsub : (map_of (keyed all)).*1 ⊆+ event_key <$> all).
      { apply NoDup_submseteq; [apply map_of_NoDup|]. intros k' ([k2 v] & -> & Hv)%list_elem_of_fmap.
        apply map_of_elem in Hv. destruct (last_value_keyed _ _ _ Hv) as [<- Hv']. simpl. by apply list_elem_of_fmap_2. }
      apply submseteq_length in Hsub. rewrite (length_fmap event_key all) in Hsub. lia. }
  split_and!; [| | |exact Hin| |].
  - rewrite Hrows, length_take. lia.
  - assert (Hnd : NoDup (event_key <$> sorted)).
    { unfold sorted. rewrite sort_by_Permutation. unfold all. rewrite merged_keys. apply map_of_NoDup. }
    rewrite <- (take_drop EVENT_LIMIT sorted) in Hnd. rewrite fmap_app in Hnd. rewrite Hrows.
    by apply NoDup_app in Hnd as [? _].
  - rewrite Hrows. apply Sorted_take, sort_by_Sorted. apply newer_total.
  - intros Hlen. split; [by apply Hfits|]. intros e He Hnot. apply (Hfits Hlen (event_key e)).
    unfold all, keyed. rewrite fmap_app, last_value_app, last_value_None; [exact He|].
    intros Hk. apply Hnot. by rewrite <- list_fmap_compose in Hk.
  - intros a b l l' Hall Ha Hb Ht Hne Hl' Hina. apply Hin in Hina. rewrite Hall in Hina.
    assert (Hkey : event_key a = event_key b) by (unfold event_key; rewrite Ha, Hb; by f_equal).
    unfold keyed in Hina. rewrite fmap_app, last_value_app in Hina. rewrite !fmap_cons in Hina.
    change ((event_key a, a) :: (event_key b, b) :: ((λ e, (event_key e, e)) <$> l'))%list
      with ([(event_key a, a)] ++ [(event_key b, b)] ++ keyed l')%list in Hina.
    rewrite !last_value_app in Hina. destruct (last_value (event_key a) (keyed l')) as [x|] eqn:Ex.
    + simplify_eq. by destruct (last_value_keyed _ _ _ Ex).
    + unfold last_value in Hina. rewrite !filter_cons, filter_nil in Hina. simpl in Hina.
      rewrite (decide_True (P := event_key b = event_key a)) in Hina by done. simpl in Hina. by simplify_eq.
Qed.

Definition page_event (id : option Z) (camera time : string) : Event :=
  mkEvent id camera time "motion" None EmptyString None.

(** The event of a camera that is no longer in scope stays in the list. *)
Lemma merge_exact_witness :
  page_event (Some 1) "cam-504" "x" ∈
    hm_events (timeline_loaded time_of [page_event (Some 2) "cam-5001" "xx"]
      (set_events [page_event (Some 1) "cam-504" "x"] (initial_home 0))).
Proof.
  destruct (merge_exact time_of (set_events [page_event (Some 1) "cam-504" "x"] (initial_home 0))
    [page_event (Some 2) "cam-5001" "xx"]) as (_ & _ & _ & _ & H & _).
  destruct (H ltac:(vm_compute; lia)) as [_ H2]. apply H2; [reflexivity|].
  intros Hin%list_elem_of_singleton. discriminate Hin.
Defined.

(** The page asks only for cameras it knows: every camera id in the timeline query is
    a UUID of the isolated camera or, when none is isolated, of the active layout, and
    without one the query has no camera filter; the events query is scoped to the
    isolated or else the selected camera, if that is a UUID; peeking at a camera narrows
    both to it and closing the peek restores the isolation.  The events query carries
    the active types, or no type filter at all when every filter is off. *)
Theorem queries_scoped now h b l c :
  let ids := timelineCameraIds h in
  (timeline_params now h).1.2 = (match ids with [] => None | _ => Some ids end) ∧
  (∀ id, id ∈ ids → isCameraUUID id = true ∧ (hm_isolatedCamera h = Some id ∨ id ∈ hm_layoutIds h)) ∧
  (∀ id, ep_camera_id (events_params now h) = Some id →
     isCameraUUID id = true ∧ (hm_isolatedCamera h = Some id ∨ hm_selectedCamera h = Some id)) ∧
  (∃ l' buckets data q, loadTimeline now h b l = (l', Ok (buckets, data)) ∧ q ∈ requests l' ∧
     asks_events (rq_url q) (events_params now h)) ∧
  (isCameraUUID c = true → hm_peekCameraId h = None →
     let p := setPeekCameraId (Some c) h in
     timelineCameraIds p = [c] ∧ ep_camera_id (events_params now p) = Some c ∧
     hm_isolatedCamera (setPeekCameraId None p) = hm_isolatedCamera h ∧
     timelineCameraIds (setPeekCameraId None p) = timelineCameraIds h) ∧
  (activeFilters h = [] → truthy_ostr (ep_types (events_params now h)) = false).
Proof.
  intros ids.
  assert (Hids : ∀ id, id ∈ ids → isCameraUUID id = true ∧ (hm_isolatedCamera h = Some id ∨ id ∈ hm_layoutIds h)).
  { intros id [Hu Hin]%elem_of_filter_where. split; [done|]. destruct (hm_isolatedCamera h) as [i|]; [|by right].
    destruct (truthy_str i); [|by right]. apply list_elem_of_singleton in Hin as ->. by left. }
  split_and!; [by unfold timeline_params; simpl; fold ids; destruct ids|exact Hids| | | |].
  - intros id Hid. simpl in Hid. unfold find_where in Hid. simpl in Hid.
    destruct (decide (Is_true (isCameraUUID_opt (hm_isolatedCamera h)))) as [H1|H1]; simpl in Hid.
    + rewrite Hid in *. apply Is_true_true in H1. by auto.
    + destruct (decide (Is_true (isCameraUUID_opt (hm_selectedCamera h)))) as [H2|H2]; simpl in Hid; [|done].
      rewrite Hid in *. apply Is_true_true in H2. by auto.
  - unfold loadTimeline. destruct (timeline_params now h) as [[[start end_] cs] iv].
    destruct (or_else_total (res ← authFetch (API_BASE +:+ "/timeline?" +:+ usp_toString (timeline_query start end_ cs iv)) no_init;
      data ← json_of res; mret (as_array (Some data))) (JArr []) b l) as (l1 & bk & E1). fold (getTimeline start end_ cs iv) in E1.
    destruct (queryEvents_one (events_params now h) b l1) as (l2 & q & d & E2 & Hr & Hu & _ & _).
    exists l2, bk, (events_of d), q. split_and!; [|rewrite Hr; apply elem_of_app; right; by left|done].
    rewrite (bind_ok _ _ _ _ _ _ E1). by rewrite (bind_ok _ _ _ _ _ _ E2).
  - intros Hc Hp p. pose proof (isCameraUUID_truthy c Hc) as Ht.
    assert (Hpe : p = set_peek (Some c) (Some c) (hm_isolatedCamera h) (set_peek (Some c) (hm_isolatedCamera h) (hm_previewIsolated h) h)).
    { unfold p, setPeekCameraId. rewrite Hp. rewrite decide_False by done. unfold peek_effect. simpl. by rewrite Ht. }
    assert (Hcl : setPeekCameraId None p = set_peek None (hm_isolatedCamera h) None (set_peek None (Some c) (hm_isolatedCamera h) p)).
    { rewrite Hpe. done. }
    split_and!.
    + rewrite Hpe. unfold timelineCameraIds. simpl. rewrite Ht. unfold filter_where. rewrite filter_cons, filter_nil.
      by rewrite decide_True by by apply Is_true_true.
    + rewrite Hpe. simpl. unfold find_where. simpl. by rewrite decide_True by by apply Is_true_true.
    + by rewrite Hcl.
    + rewrite Hcl, Hpe. done.
  - intros Hf. simpl. by rewrite Hf.
Qed.

Definition sample_uuid : string := "d99d8b06-4902-410e-bbde-ecee80c971bb".

Lemma queries_scoped_witness :
  let p := setPeekCameraId (Some sample_uuid) (initial_home 0) in
  timelineCameraIds p = [sample_uuid] ∧ hm_isolatedCamera (setPeekCameraId None p) = None.
Proof.
  set (b := mkBrowser (λ _ _, None) (λ _, EmptyString) (λ _ _, None) true true).
  destruct (queries_scoped 0 (initial_home 0) b [] sample_uuid) as (_ & _ & _ & _ & H & _).
  destruct (H ltac:(vm_compute; reflexivity) eq_refl) as (H1 & _ & H2 & _). exact (conj H1 H2).
Defined.

(** On a site's page no camera ever counts as online: the mapping of the site's
    cameras writes connected or disconnected where the status bar counts online, so it
    says zero online and calls every camera degraded, whatever their state. *)
Theorem site_cameras_degraded site nowISO show l h :
  status_pills (cameras_loaded (map_site_cameras site nowISO show l) h) = (0%nat, length l).
Proof.
  assert (H : filter_where (λ c, String.eqb (cam_status c) "online") (map_site_cameras site nowISO show l) = []).
  { unfold filter_where. destruct (filter _ _) as [|c r] eqn:E; [done|]. exfalso.
    assert (Hc : c ∈ filter (λ x, Is_true (String.eqb (cam_status x) "online")) (map_site_cameras site nowISO show l))
      by (rewrite E; by left).
    apply list_elem_of_filter in Hc as [Hs Hin]. unfold map_site_cameras in Hin.
    apply elem_of_lookup_imap in Hin as (i & j & -> & _). unfold map_site_camera in Hs. simpl in Hs.
    destruct (jget "status" j) as [[]|]; simpl in Hs; try done. by destruct (String.eqb s "online"). }
  unfold status_pills, onlineCameras. simpl. rewrite H. simpl. unfold map_site_cameras. rewrite length_imap.
  by rewrite Nat.sub_0_r.
Qed.

Section socket_lemmas.
Import Socket.

Definition pending (s : Sock) : nat :=
  ((if ticket_pending s then 1 else 0) + (if socket s is Some _ then 1 else 0) + (if reconnectTimer s is Some _ then 1 else 0))%nat.

(** One attempt at a time while mounted; no timer once unmounted. *)
Definition sock_ok (s : Sock) : Prop :=
  3000 <= reconnectDelay s <= 30000 ∧ (if unmounted s then reconnectTimer s = None else pending s = 1%nat).

Lemma sock_step_ok base s e : sock_ok s → sock_ok (sock_step base s e).1.
Proof.
  destruct s as [u d t k w c]. unfold sock_ok, pending. simpl. intros [Hd Hp].
  destruct e as [tk| | | |]; simpl.
  - unfold ticket_settles. simpl. destruct k; [|done]. simpl. destruct u; simpl; [done|].
    destruct tk, w, t; simpl in *; (split; [done|]); lia.
  - unfold ws_open. simpl. destruct w; [|done]. simpl. split; [lia|]. by destruct u.
  - unfold ws_close. simpl. destruct w; [|done]. destruct u; simpl; [done|]. split; [done|].
    destruct k, t; simpl in *; lia.
  - unfold reconnect_fires. simpl. destruct t; [|done]. unfold sock_connect. destruct u; simpl; [done|]. split; [lia|].
    destruct k, w; simpl in *; lia.
  - done.
Qed.

Lemma sock_run_ok base es s : sock_ok s → sock_ok (sock_run base s es).1.
Proof.
  revert s. induction es as [|e es IH]; intros s H; [done|]. simpl.
  pose proof (sock_step_ok base s e H) as H1. destruct (sock_step base s e) as [s1 f1]. simpl in H1.
  specialize (IH s1 H1). by destruct (sock_run base s1 es).
Qed.

Lemma unmounted_quiet base es s : sock_ok s → unmounted s = true →
  Forall (λ f, match f with CloseSocket => True | _ => False end) (sock_run base s es).2.
Proof.
  revert s. induction es as [|e es IH]; intros s Hok Hu; [constructor|]. simpl.
  assert (H1 : unmounted (sock_step base s e).1 = true ∧
    Forall (λ f, match f with CloseSocket => True | _ => False end) (sock_step base s e).2).
  { destruct s as [u d t k w c]. destruct Hok as [_ Ht]. simpl in *. subst u. simpl in Ht. subst t.
    destruct e; simpl; unfold ticket_settles, ws_open, ws_close, reconnect_fires, unmount; simpl.
    - by destruct k.
    - by destruct w.
    - by destruct w.
    - done.
    - split; [done|]. destruct w; repeat constructor. }
  pose proof (sock_step_ok base s e Hok) as Hok1. destruct (sock_step base s e) as [s1 f1]. destruct H1 as [Hu1 Hf]. simpl in *.
  specialize (IH s1 Hok1 Hu1). destruct (sock_run base s1 es). simpl in *. by apply Forall_app.
Qed.

(** A failed attempt: a ticket or not, a socket that closes, and the timer. *)
Definition sock_outage (tickets : list (option string)) : list SockEvent :=
  mjoin ((λ t, [TicketSettles t; WsClose; TimerFires]) <$> tickets).

Definition delays (fs : list SockEffect) : list Z := omap (λ f, match f with SetTimer d => Some d | _ => None end) fs.

Fixpoint sock_backoff (d : Z) (n : nat) : list Z :=
  match n with O => [] | S n => d :: sock_backoff (Z.min (d * 2) 30000) n end.

Lemma outage_delays base tickets s :
  unmounted s = false → ticket_pending s = true → socket s = None → reconnectTimer s = None →
  delays (sock_run base s (sock_outage tickets)).2 = sock_backoff (reconnectDelay s) (length tickets).
Proof.
  revert s. induction tickets as [|t ts IH]; intros [u d tm k w c] Hu Hk Hw Ht; [done|]; simpl in Hu, Hk, Hw, Ht; subst.
  change (sock_outage (t :: ts)) with (TicketSettles t :: WsClose :: TimerFires :: sock_outage ts).
  pose proof (IH (mkSock false (Z.min (d * 2) 30000) None true None false) eq_refl eq_refl eq_refl eq_refl) as H.
  revert H. generalize (sock_outage ts). intros o H.
  destruct t; simpl; unfold sock_connect; simpl; simpl in H; destruct (sock_run base _ o) as [s2 f2];
    unfold delays in *; csimpl; f_equal; exact H.
Qed.
End socket_lemmas.

(** The page's own connection: in any history it has exactly one of a ticket request, a
    socket or a reconnect timer under way while the page is mounted, and after unmounting
    no timer and no further effect than closing; in an outage of any length, with or
    without tickets, the waits are 3, 6, 12, 24 seconds and then 30, and an opened socket
    starts the sequence again. *)
Theorem page_socket base es es' tickets :
  let s := (Socket.sock_run base Socket.sock_mount.1 es).1 in
  3000 <= Socket.reconnectDelay s <= 30000 ∧
  (Socket.unmounted s = false → pending s = 1%nat) ∧
  (Socket.unmounted s = true → Socket.reconnectTimer s = None ∧
     Forall (λ f, match f with Socket.CloseSocket => True | _ => False end) (Socket.sock_run base s es').2) ∧
  delays (Socket.sock_run base Socket.sock_mount.1 (sock_outage tickets)).2 = sock_backoff 3000 (length tickets) ∧
  sock_backoff 3000 7 = [3000; 6000; 12000; 24000; 30000; 30000; 30000] ∧
  (is_Some (Socket.socket s) → Socket.reconnectDelay (Socket.ws_open s).1 = 3000).
Proof.
  intros s. assert (Hok : sock_ok s) by (apply sock_run_ok; by split).
  pose proof Hok as [Hd Hp]. split_and!; [lia|lia| | | | |].
  - intros Hu. by rewrite Hu in Hp.
  - intros Hu. split; [by rewrite Hu in Hp|by apply unmounted_quiet].
  - by rewrite outage_delays.
  - done.
  - intros [u Hu]. unfold Socket.ws_open. by rewrite Hu.
Qed.

Lemma page_socket_witness :
  pending (Socket.sock_run "ws" Socket.sock_mount.1 [Socket.TicketSettles None; Socket.WsClose]).1 = 1%nat.
Proof.
  destruct (page_socket "ws" [Socket.TicketSettles None; Socket.WsClose] [] []) as (_ & H & _). exact (H eq_refl).
Defined.
