(* ===== verification/Investigation.v ===== *)
(** * The alarm investigation screen

    [app/operator/alarm/[id]/page.tsx] and [components/operator/ActiveAlarmView.tsx]:
    finding and engaging the alarm of the route, and the operator's work on it (viewer,
    checklists, log, keyboard, deterrence, escalation, disposition), as a state machine
    over the store of the console.  A step is a handler or the settling of a request,
    followed by what React does before the next event: render, run the page's effect,
    render again.  [t n] is the n-th reading of the clock during the step. *)

From S2P Require Import Prelude Types Http AuthFetch ApiClient IronsightApi Media OperatorStore.
From stdpp Require Import pretty gmap.
From Stdlib Require Import QArith Qround.
#[local] Open Scope string_scope.
#[local] Open Scope Z_scope.

(** ** Data *)

Inductive ViewMode := vm_snapshot | vm_clip | vm_live.
Inductive WorkflowTab := tab_assess | tab_respond | tab_resolve.
Inductive KeyPrefix := prefix_f | prefix_v.

#[export] Instance WorkflowTab_eq_dec : EqDecision WorkflowTab.
Proof. solve_decision. Defined.

Record SOPContact := mkSOPContact {
  sc_name : string;
  sc_role : string;
  sc_phone : option string;
  sc_email : option string
}.

Record SiteSOP := mkSiteSOP {
  sop_id : string;
  sop_title : string;
  sop_category : string;
  sop_priority : string;
  sop_steps : list string;
  sop_contacts : list SOPContact
}.

(** The fields of a [SecurityEventRecord] that the screen reads. *)
Record SecurityEventRecord := mkSecurityEventRecord {
  ser_id : string;
  ser_alarm_id : string;
  ser_disposition_code : string
}.

(** ** State of the view *)

Record Viewer := mkViewer {
  vr_child : option AlertEvent;      (* selectedChildAlarm *)
  vr_mode : ViewMode;
  vr_boxes : bool;
  vr_adjacent : option string;
  vr_map : bool;
  vr_feedback : option bool          (* state of AIFeedbackButtons *)
}.

Record Workflow := mkWorkflow {
  wf_tab : WorkflowTab;
  wf_sops : list SiteSOP;
  wf_checked : gmap string (list bool);
  wf_recent : list SecurityEventRecord;
  wf_disposition : option DispositionCode;
  wf_notes : string;
  wf_avs : AVSFactors;
  wf_submitting : bool
}.

Record Keys := mkKeys { ky_prefix : option KeyPrefix; ky_timer : bool }.

Record Deterrence := mkDeterrence {
  dt_open : bool;
  dt_busy : bool;
  dt_status : option (bool * string);
  dt_closers : nat                   (* pending timers that close the menu *)
}.

Record View := mkView {
  vw_viewer : Viewer;
  vw_work : Workflow;
  vw_keys : Keys;
  vw_deter : Deterrence;
  vw_confirm : bool                  (* showEscalateConfirm *)
}.

Definition initial_avs : AVSFactors :=
  mkAVS true false false false false false false false false false false.

Definition initial_view : View :=
  mkView (mkViewer None vm_snapshot true None false None)
    (mkWorkflow tab_assess [] ∅ [] None EmptyString initial_avs false)
    (mkKeys None false) (mkDeterrence false false None 0) false.

Definition with_viewer (f : Viewer → Viewer) (v : View) : View :=
  mkView (f (vw_viewer v)) (vw_work v) (vw_keys v) (vw_deter v) (vw_confirm v).
Definition with_work (f : Workflow → Workflow) (v : View) : View :=
  mkView (vw_viewer v) (f (vw_work v)) (vw_keys v) (vw_deter v) (vw_confirm v).
Definition with_keys (k : Keys) (v : View) : View :=
  mkView (vw_viewer v) (vw_work v) k (vw_deter v) (vw_confirm v).
Definition with_deter (f : Deterrence → Deterrence) (v : View) : View :=
  mkView (vw_viewer v) (vw_work v) (vw_keys v) (f (vw_deter v)) (vw_confirm v).
Definition with_confirm (b : bool) (v : View) : View :=
  mkView (vw_viewer v) (vw_work v) (vw_keys v) (vw_deter v) b.

Definition set_child (c : option AlertEvent) (r : Viewer) : Viewer :=
  mkViewer c vm_snapshot (vr_boxes r) (vr_adjacent r) (vr_map r) (vr_feedback r).
Definition set_mode (m : ViewMode) (r : Viewer) : Viewer :=
  mkViewer (vr_child r) m (vr_boxes r) (vr_adjacent r) (vr_map r) (vr_feedback r).
Definition toggle_boxes (r : Viewer) : Viewer :=
  mkViewer (vr_child r) (vr_mode r) (negb (vr_boxes r)) (vr_adjacent r) (vr_map r) (vr_feedback r).
Definition set_adjacent (c : option string) (r : Viewer) : Viewer :=
  mkViewer (vr_child r) (vr_mode r) (vr_boxes r) c (vr_map r) (vr_feedback r).
Definition set_map (b : bool) (r : Viewer) : Viewer :=
  mkViewer (vr_child r) (vr_mode r) (vr_boxes r) (vr_adjacent r) b (vr_feedback r).
Definition set_feedback (b : option bool) (r : Viewer) : Viewer :=
  mkViewer (vr_child r) (vr_mode r) (vr_boxes r) (vr_adjacent r) (vr_map r) b.

Definition set_tab (t : WorkflowTab) (w : Workflow) : Workflow :=
  mkWorkflow t (wf_sops w) (wf_checked w) (wf_recent w) (wf_disposition w) (wf_notes w) (wf_avs w) (wf_submitting w).
Definition set_sops (l : list SiteSOP) (c : gmap string (list bool)) (w : Workflow) : Workflow :=
  mkWorkflow (wf_tab w) l c (wf_recent w) (wf_disposition w) (wf_notes w) (wf_avs w) (wf_submitting w).
Definition set_recent (l : list SecurityEventRecord) (w : Workflow) : Workflow :=
  mkWorkflow (wf_tab w) (wf_sops w) (wf_checked w) l (wf_disposition w) (wf_notes w) (wf_avs w) (wf_submitting w).
Definition set_disposition (d : option DispositionCode) (w : Workflow) : Workflow :=
  mkWorkflow (wf_tab w) (wf_sops w) (wf_checked w) (wf_recent w) d (wf_notes w) (wf_avs w) (wf_submitting w).
Definition set_notes (s : string) (w : Workflow) : Workflow :=
  mkWorkflow (wf_tab w) (wf_sops w) (wf_checked w) (wf_recent w) (wf_disposition w) s (wf_avs w) (wf_submitting w).
Definition set_avs (f : AVSFactors) (w : Workflow) : Workflow :=
  mkWorkflow (wf_tab w) (wf_sops w) (wf_checked w) (wf_recent w) (wf_disposition w) (wf_notes w) f (wf_submitting w).
Definition set_submitting (b : bool) (w : Workflow) : Workflow :=
  mkWorkflow (wf_tab w) (wf_sops w) (wf_checked w) (wf_recent w) (wf_disposition w) (wf_notes w) (wf_avs w) b.

(** ** Effects *)

Inductive DeskEffect :=
| PostEvent (payload : json)               (* createSecurityEvent *)
| PostAck (incident : string)              (* POST /incidents/:id/acknowledge *)
| StoreCall (c : ApiCall)
| FireRelay (camera : string) (act : DeterrenceAction) (alarm : string)
| SendFeedback (alarm : string) (agreed : bool)
| LoadSite (site alarm : string)           (* getSiteSOPs, listSecurityEvents *)
| CopyText (s : string)
| OpenTab (url : string)
| PushRoute (path : string)
| PreventDefault.

(** ** Display values *)

(** The camera rows of the site. *)
Record SiteCameraRow := mkSiteCameraRow {
  scr_id : string;
  scr_name : option json;
  scr_location : json;
  scr_status : json;
  scr_has_alert : bool;
  scr_stream_url : string
}.

(** [a || b || ''] on JSON values. *)
Definition or_location (a b : option json) : json :=
  match a with
  | Some j => if truthy_json j then j else match b with Some k => if truthy_json k then k else JStr EmptyString | None => JStr EmptyString end
  | None => match b with Some k => if truthy_json k then k else JStr EmptyString | None => JStr EmptyString end
  end.

(** [show] is [String(id)]. *)
Definition site_camera_row (show : json → string) (alarm : AlertEvent) (c : json) : SiteCameraRow :=
  let id := show (default JNull (jget "id" c)) in
  mkSiteCameraRow id (jget "name" c) (or_location (jget "camera_group" c) (jget "location" c))
    (nullish (jget "status" c) (JStr "offline")) (String.eqb id (ae_camera_id alarm))
    ("/hls/" +:+ id +:+ "/main_live.m3u8").

Definition siteCameras (show : json → string) (alarm : AlertEvent) (l : list json) : list SiteCameraRow :=
  site_camera_row show alarm <$> l.

Definition triggeredCamera (alarm : AlertEvent) (l : list SiteCameraRow) : option SiteCameraRow :=
  find_where (λ c, String.eqb (scr_id c) (ae_camera_id alarm)) l.

Definition adjacentCameras (alarm : AlertEvent) (l : list SiteCameraRow) : list SiteCameraRow :=
  take 4 (filter_where (λ c, negb (String.eqb (scr_id c) (ae_camera_id alarm))) l).

(** One tab per camera of an incident, for its latest alarm. *)
Definition tab_insert (m : list (string * AlertEvent)) (a : AlertEvent) : list (string * AlertEvent) :=
  match map_get (ae_camera_id a) m with
  | Some e => if ae_ts e <? ae_ts a then map_set (ae_camera_id a) a m else m
  | None => map_set (ae_camera_id a) a m
  end.

Definition uniqueCamAlarms (children : list AlertEvent) : list AlertEvent := (foldl tab_insert [] children).*2.

(** The first contact of every name, over all procedures. *)
Fixpoint first_by_name (seen : list string) (l : list SOPContact) : list SOPContact :=
  match l with
  | [] => []
  | c :: r => if includes (sc_name c) seen then first_by_name seen r else c :: first_by_name (sc_name c :: seen) r
  end.

Definition call_tree (sops : list SiteSOP) : list SOPContact := first_by_name [] (mjoin (sop_contacts <$> sops)).

(** What the progress of a checklist shows: done, total, all done. *)
Definition sop_progress (checked : gmap string (list bool)) (s : SiteSOP) : nat * nat * bool :=
  let n := length (filter_where id (default [] (checked !! sop_id s))) in
  (n, length (sop_steps s), (n =? length (sop_steps s))%nat && (0 <? length (sop_steps s))%nat).

(** The elapsed time of the header, in ms, and its colour. *)
Definition elapsed (now : Z) (alarm : AlertEvent) : Z := now - ae_ts alarm.
Definition elapsed_clock (ms : Z) : string := pretty (ms / 60000) +:+ ":" +:+ pad_start 2 (Z.rem ms 60000 / 1000).
Definition slaColor (ms : Z) : string :=
  if ms <? 30000 then "#22C55E" else if ms <? 90000 then "#E89B2A" else "#EF4444".

Definition displayAlarm (alarm : AlertEvent) (v : View) : AlertEvent := default alarm (vr_child (vw_viewer v)).

(** The block that holds the feedback buttons is rendered. *)
Definition ai_block (a : AlertEvent) : bool :=
  truthy_ostr (ae_ai_description a) ||
  (match ae_ai_score a with Some q => negb (Qeq_bool q 0) | None => false end) ||
  truthy_ostr (ae_rule_name a).

(** ** Text of the log and of the record *)

Definition QUOTE : string := String (Ascii.ascii_of_N 34) EmptyString.

Definition code_string (c : DispositionCode) : string :=
  match c with
  | false_positive_animal => "false_positive_animal"
  | false_positive_weather => "false_positive_weather"
  | false_positive_shadow => "false_positive_shadow"
  | false_positive_equipment => "false_positive_equipment"
  | false_positive_other => "false_positive_other"
  | verified_customer_notified => "verified_customer_notified"
  | verified_police_dispatched => "verified_police_dispatched"
  | verified_guard_responded => "verified_guard_responded"
  | verified_no_threat => "verified_no_threat"
  | verified_other => "verified_other"
  end.

Definition severity_string (s : Severity) : string :=
  match s with critical => "critical" | high => "high" | medium => "medium" | low => "low" end.

(** [DISPOSITION_OPTIONS.find(d => d.code === disposition)?.label || disposition] *)
Definition dispLabel (c : DispositionCode) : string :=
  or_str (do_label <$> find_where (λ o, bool_decide (do_code o = c)) DISPOSITION_OPTIONS) (code_string c).

Definition options_of (cat : DispositionCategory) : list DispositionOption :=
  filter_where (λ o, bool_decide (do_category o = cat)) DISPOSITION_OPTIONS.

(** [s.slice(0, n)]: [n] UTF-16 units of a UTF-8 string (a surrogate pair cut in half is dropped). *)
Fixpoint unit_prefix (n : nat) (l : list N) : list N :=
  match l with
  | [] => []
  | c :: r =>
      if ((128 <=? c) && (c <? 192))%N then c :: unit_prefix n r
      else let u := if (240 <=? c)%N then 2%nat else 1%nat in
           if (u <=? n)%nat then c :: unit_prefix (n - u) r else []
  end.

Definition slice60 (s : string) : string := of_bytes (unit_prefix 60 (bytes_of s)).

(** [parseInt] on the name of a key: its leading digits. *)
Fixpoint digits_of (acc : option Z) (l : list N) : option Z :=
  match l with
  | c :: r => if ((48 <=? c) && (c <=? 57))%N then digits_of (Some (10 * default 0 acc + (Z.of_N c - 48))) r else acc
  | [] => acc
  end.

Definition key_digit (key : string) : option Z := digits_of None (bytes_of key).

Definition avs_json (f : AVSFactors) : json :=
  obj [("video_verified", JBool (video_verified f)); ("person_detected", JBool (person_detected f));
       ("suspicious_behavior", JBool (suspicious_behavior f)); ("weapon_observed", JBool (weapon_observed f));
       ("active_crime", JBool (active_crime f)); ("multi_camera_evidence", JBool (multi_camera_evidence f));
       ("multi_sensor_evidence", JBool (multi_sensor_evidence f)); ("audio_verified", JBool (audio_verified f));
       ("talkdown_ignored", JBool (talkdown_ignored f)); ("auth_failure", JBool (auth_failure f));
       ("ai_corroborated", JBool (ai_corroborated f))].

Definition log_json (l : list ActionLogEntry) : json :=
  JArr ((λ e, obj [("ts", jnum (le_ts e)); ("text", JStr (le_text e)); ("auto", JBool (le_auto e))]) <$> l).

(** The argument of [createSecurityEvent]. *)
Definition event_payload (alarm : AlertEvent) (code : DispositionCode) (notes : string)
    (log : list ActionLogEntry) (avs : AVSFactors) : json :=
  obj [("alarm_id", JStr (ae_id alarm)); ("site_id", JStr (ae_site_id alarm)); ("camera_id", JStr (ae_camera_id alarm));
       ("disposition_code", JStr (code_string code)); ("disposition_label", JStr (dispLabel code));
       ("operator_notes", JStr notes); ("action_log", log_json log);
       ("escalation_depth", jnum (ae_escalation_level alarm)); ("severity", JStr (severity_string (ae_severity alarm)));
       ("type", JStr (ae_type alarm)); ("description", JStr (ae_description alarm)); ("avs_factors", avs_json avs)].

(** ** Handlers of the view *)

(** [keydown]: F or V, then a digit. *)
Definition handle_key (editable : bool) (key : string) (v : View) : View * list DeskEffect :=
  if editable then (v, [])
  else
    let k := toLowerCase key in
    if String.eqb k "f" then (with_keys (mkKeys (Some prefix_f) true) v, [])
    else if String.eqb k "v" then (with_keys (mkKeys (Some prefix_v) true) v, [])
    else
      match ky_prefix (vw_keys v), key_digit key with
      | Some p, Some d =>
          if (1 <=? d) && (d <=? 5) then
            let opts := options_of (match p with prefix_f => cat_false | prefix_v => cat_verified end) in
            (with_keys (mkKeys None false)
               (match opts !! Z.to_nat (d - 1) with
                | Some o => with_work (set_disposition (Some (do_code o))) v
                | None => v
                end), [PreventDefault])
          else (v, [])
      | _, _ => (v, [])
      end.

(** The prefix expires after 1.5 seconds. *)
Definition key_timer (v : View) : View :=
  if ky_timer (vw_keys v) then with_keys (mkKeys None false) v else v.

(** A click on a card selects it or, when selected, clears the selection. *)
Definition click_card (c : DispositionCode) (v : View) : View :=
  with_work (set_disposition (if bool_decide (wf_disposition (vw_work v) = Some c) then None else Some c)) v.

Inductive AVSKey :=
| k_video_verified | k_person_detected | k_suspicious_behavior | k_weapon_observed | k_active_crime
| k_multi_camera_evidence | k_multi_sensor_evidence | k_audio_verified | k_talkdown_ignored | k_auth_failure
| k_ai_corroborated.

#[export] Instance AVSKey_eq_dec : EqDecision AVSKey.
Proof. solve_decision. Defined.

Definition avs_get (k : AVSKey) (f : AVSFactors) : bool :=
  match k with
  | k_video_verified => video_verified f
  | k_person_detected => person_detected f
  | k_suspicious_behavior => suspicious_behavior f
  | k_weapon_observed => weapon_observed f
  | k_active_crime => active_crime f
  | k_multi_camera_evidence => multi_camera_evidence f
  | k_multi_sensor_evidence => multi_sensor_evidence f
  | k_audio_verified => audio_verified f
  | k_talkdown_ignored => talkdown_ignored f
  | k_auth_failure => auth_failure f
  | k_ai_corroborated => ai_corroborated f
  end.

(** [{ ...prev, [k]: !prev[k] }] *)
Definition toggle_avs (k : AVSKey) (f : AVSFactors) : AVSFactors :=
  let g j := if bool_decide (j = k) then negb (avs_get j f) else avs_get j f in
  mkAVS (g k_video_verified) (g k_person_detected) (g k_suspicious_behavior) (g k_weapon_observed) (g k_active_crime)
    (g k_multi_camera_evidence) (g k_multi_sensor_evidence) (g k_audio_verified) (g k_talkdown_ignored)
    (g k_auth_failure) (g k_ai_corroborated).

(** [l[i] = b] on an array of booleans; a hole reads as false. *)
Definition js_set (i : nat) (b : bool) (l : list bool) : list bool :=
  if (i <? length l)%nat then <[i := b]> l else (l ++ replicate (i - length l) false ++ [b])%list.

Definition step_checked (sop : string) (i : nat) (c : gmap string (list bool)) : bool :=
  default false (default [] (c !! sop) !! i).

Definition toggleSopStep (sop : string) (i : nat) (c : gmap string (list bool)) : gmap string (list bool) :=
  let l := default [] (c !! sop) in <[sop := js_set i (negb (default false (l !! i))) l]> c.

(** [onChange] of a step's checkbox. *)
Definition sop_change (now : Z) (sop : string) (i : nat) (step : string) (s : OperatorState) (v : View)
    : OperatorState * View :=
  let c := wf_checked (vw_work v) in
  (if step_checked sop i c then s
   else addActionLogEntry now ("SOP step completed: " +:+ QUOTE +:+ slice60 step +:+ QUOTE) true s,
   with_work (set_sops (wf_sops (vw_work v)) (toggleSopStep sop i c)) v).

Definition initial_checks (sops : list SiteSOP) : gmap string (list bool) :=
  foldl (λ m s, <[sop_id s := (λ _, false) <$> sop_steps s]> m) ∅ sops.

(** The replies of the load effect. *)
Definition sops_loaded (sops : list SiteSOP) (v : View) : View := with_work (set_sops sops (initial_checks sops)) v.
Definition events_loaded (alarm : string) (l : list SecurityEventRecord) (v : View) : View :=
  with_work (set_recent (take 5 (filter_where (λ e, negb (String.eqb (ser_alarm_id e) alarm)) l))) v.

(** The deterrence menu. *)
Definition click_deterrence (v : View) : View :=
  if dt_busy (vw_deter v) then v
  else with_deter (λ d, mkDeterrence (negb (dt_open d)) (dt_busy d) None (dt_closers d)) v.

Definition fire (act : DeterrenceAction) (alarm : AlertEvent) (v : View) : View * list DeskEffect :=
  let d := vw_deter v in
  if dt_open d && negb (dt_busy d) then
    (with_deter (λ d, mkDeterrence (dt_open d) true None (dt_closers d)) v, [FireRelay (ae_camera_id alarm) act (ae_id alarm)])
  else (v, []).

(** The call settles with the text to show; the menu closes 1.6 seconds later. *)
Definition deter_settles (ok : bool) (msg : string) (v : View) : View :=
  with_deter (λ d, mkDeterrence (dt_open d) false (Some (ok, msg)) (S (dt_closers d))) v.
Definition deter_timer (v : View) : View :=
  match dt_closers (vw_deter v) with
  | S n => with_deter (λ d, mkDeterrence false (dt_busy d) (dt_status d) n) v
  | O => v
  end.

Inductive Act :=
| PressKey (editable : bool) (key : string)
| KeyTimer
| ClickTab (tab : WorkflowTab)
| ClickSnapshot
| ClickClip
| ClickLive
| ClickBoxes
| ClickTabOf (a : AlertEvent)
| ClickTimeline (a : AlertEvent)
| ClickAdjacent (id name : string)
| ClickMap
| ClickFeedback (agreed : bool)
| ChangeStep (sop : string) (i : nat) (step : string)
| QuickLog (text : string)
| CopyPhone (phone name : string)
| TypeNotes (notes : string)
| ClickCard (c : DispositionCode)
| ToggleAVS (k : AVSKey)
| ClickEscalate
| ConfirmEscalate
| CancelEscalate
| ClickDeterrence
| FireAct (act : DeterrenceAction)
| DeterTimer
| ClickRelease.

(** [cam.id === selected?.id ? null : cam] *)
Definition toggle_child (a : AlertEvent) (v : View) : View :=
  with_viewer (λ r, set_child (match vr_child r with
                               | Some c => if String.eqb (ae_id a) (ae_id c) then None else Some a
                               | None => Some a
                               end) r) v.

Definition toggle_adjacent (id : string) (v : View) : View :=
  with_viewer (λ r, set_adjacent (if bool_decide (vr_adjacent r = Some id) then None else Some id) r) v.

(** What a handler returns: the store, the view and the calls. *)
Definition Handled : Type := OperatorState * View * list DeskEffect.

Definition logged (now : Z) (text : string) (s : OperatorState) (v : View) : Handled :=
  (addActionLogEntry now text true s, v, []).

Definition viewSnapshot (now : Z) (s : OperatorState) (v : View) : Handled :=
  logged now "Viewed event snapshot" s (with_viewer (set_mode vm_snapshot) v).
Definition viewClip (now : Z) (s : OperatorState) (v : View) : Handled :=
  logged now "Reviewing event clip" s (with_viewer (set_mode vm_clip) v).
Definition openLive (now : Z) (alarm : AlertEvent) (s : OperatorState) (v : View) : Handled :=
  (addActionLogEntry now "Opened NVR for situational awareness" true s, v, [OpenTab ("/?site_id=" +:+ ae_site_id alarm)]).
Definition switchCamera (now : Z) (c : AlertEvent) (s : OperatorState) (v : View) : Handled :=
  logged now ("Switched to incident camera: " +:+ ae_camera_name c) s (toggle_child c v).
Definition switchTimeline (now : Z) (c : AlertEvent) (s : OperatorState) (v : View) : Handled :=
  logged now ("Timeline: switched to " +:+ ae_camera_name c +:+ " (" +:+ ae_type c +:+ ")") s (toggle_child c v).
Definition viewAdjacent (now : Z) (id name : string) (s : OperatorState) (v : View) : Handled :=
  logged now ("Viewed adjacent camera: " +:+ name) s (toggle_adjacent id v).
Definition quickLog (now : Z) (text : string) (s : OperatorState) (v : View) : Handled := logged now text s v.
Definition copyPhone (now : Z) (phone name : string) (s : OperatorState) (v : View) : Handled :=
  (addActionLogEntry now ("Copied phone: " +:+ name +:+ " (" +:+ phone +:+ ")") true s, v, [CopyText phone]).

(** A disabled or hidden button does nothing. *)
Definition handleFeedback (now : Z) (alarm : AlertEvent) (agreed : bool) (s : OperatorState) (v : View) : Handled :=
  if bool_decide (wf_tab (vw_work v) = tab_assess) && ai_block (displayAlarm alarm v) &&
     bool_decide (vr_feedback (vw_viewer v) = None) then
    (addActionLogEntry now ("AI assessment: " +:+ (if agreed then "agreed" else "disagreed")) true s,
     with_viewer (set_feedback (Some agreed)) v, [SendFeedback (ae_id (displayAlarm alarm v)) agreed])
  else (s, v, []).

Definition confirmEscalate (now now' : Z) (s : OperatorState) (v : View) : Handled :=
  if vw_confirm v then
    let '(s', calls) := escalateActiveAlarm now now' s in (s', with_confirm false v, StoreCall <$> calls)
  else (s, v, []).

Definition handleAbandon (s : OperatorState) (v : View) : Handled := (abandonAlarm s, v, [PushRoute "/operator"]).

(** One handler of the mounted view that shows [alarm]. *)
Definition act_step (t : nat → Z) (alarm : AlertEvent) (a : Act) (s : OperatorState) (v : View) : Handled :=
  let now := t 0%nat in
  match a with
  | PressKey ed k => (s, (handle_key ed k v).1, (handle_key ed k v).2)
  | KeyTimer => (s, key_timer v, [])
  | ClickTab tab => (s, with_work (set_tab tab) v, [])
  | ClickSnapshot => viewSnapshot now s v
  | ClickClip => viewClip now s v
  | ClickLive => openLive now alarm s v
  | ClickBoxes => (s, with_viewer toggle_boxes v, [])
  | ClickTabOf c => switchCamera now c s v
  | ClickTimeline c => switchTimeline now c s v
  | ClickAdjacent id name => viewAdjacent now id name s v
  | ClickMap => (s, with_viewer (λ r, set_map (negb (vr_map r)) r) v, [])
  | ClickFeedback agreed => handleFeedback now alarm agreed s v
  | ChangeStep sop i step => (sop_change now sop i step s v, [])
  | QuickLog text => quickLog now text s v
  | CopyPhone phone name => copyPhone now phone name s v
  | TypeNotes n => (s, with_work (set_notes n) v, [])
  | ClickCard c => (s, click_card c v, [])
  | ToggleAVS k => (s, with_work (λ w, set_avs (toggle_avs k (wf_avs w)) w) v, [])
  | ClickEscalate => (s, with_confirm (negb (vw_confirm v)) v, [])
  | ConfirmEscalate => confirmEscalate now (t 1%nat) s v
  | CancelEscalate => (s, with_confirm false v, [])
  | ClickDeterrence => (s, click_deterrence v, [])
  | FireAct act => (s, (fire act alarm v).1, (fire act alarm v).2)
  | DeterTimer => (s, deter_timer v, [])
  | ClickRelease => handleAbandon s v
  end.

(** Buttons that are not rendered lose their state. *)
Definition hide_feedback (alarm : AlertEvent) (v : View) : View :=
  if bool_decide (wf_tab (vw_work v) = tab_assess) && ai_block (displayAlarm alarm v) then v
  else with_viewer (set_feedback None) v.

(** ** The desk: store, page and view *)

(** What [handleSubmit] closed over when it was called. *)
Record Submission := mkSubmission {
  sub_incident : option string;
  sub_code : DispositionCode
}.

Inductive Phase := AwaitEvent | AwaitAck (incident : string).

Record Desk := mkDesk {
  dk_store : OperatorState;
  dk_rest : list AlertEvent;
  dk_route : option string;                       (* params.id; [None] on the console *)
  dk_incident : option SOCIncident;
  dk_children : option (list AlertEvent);
  dk_loading : bool;
  dk_view : option (nat * View);                  (* the mounted view, numbered *)
  dk_next : nat;
  dk_inflight : list (nat * Submission * Phase)   (* suspended calls of handleSubmit *)
}.

Definition with_store (s : OperatorState) (d : Desk) : Desk :=
  mkDesk s (dk_rest d) (dk_route d) (dk_incident d) (dk_children d) (dk_loading d) (dk_view d) (dk_next d) (dk_inflight d).
Definition with_rest (l : list AlertEvent) (d : Desk) : Desk :=
  mkDesk (dk_store d) l (dk_route d) (dk_incident d) (dk_children d) (dk_loading d) (dk_view d) (dk_next d) (dk_inflight d).
Definition with_page (r : option string) (i : option SOCIncident) (c : option (list AlertEvent)) (l : bool) (d : Desk) : Desk :=
  mkDesk (dk_store d) (dk_rest d) r i c l (dk_view d) (dk_next d) (dk_inflight d).
Definition with_view (v : option (nat * View)) (n : nat) (d : Desk) : Desk :=
  mkDesk (dk_store d) (dk_rest d) (dk_route d) (dk_incident d) (dk_children d) (dk_loading d) v n (dk_inflight d).
Definition with_inflight (l : list (nat * Submission * Phase)) (d : Desk) : Desk :=
  mkDesk (dk_store d) (dk_rest d) (dk_route d) (dk_incident d) (dk_children d) (dk_loading d) (dk_view d) (dk_next d) l.

Definition initial_desk (s : OperatorState) : Desk := mkDesk s [] None None None false None 0 [].

Definition isIncidentId (id : string) : bool := String.prefix "INC-" id.

(** The alarm that the page passes to the view. *)
Definition shown_alarm (d : Desk) : option AlertEvent :=
  match dk_route d with
  | None => None
  | Some id =>
      if isIncidentId id then if dk_loading d then None else activeAlarm (dk_store d)
      else match activeAlarm (dk_store d) with
           | Some a => if alert_is id a then Some a else None
           | None => None
           end
  end.

(** The alarm of the route in the feed and the poll, the poll's version first. *)
Definition byId (feed rest : list AlertEvent) : list (string * AlertEvent) :=
  foldl (λ m a, map_set (ae_id a) a m) (map_of ((λ a, (ae_id a, a)) <$> (feed ++ rest)%list)) rest.

Definition find_alarm (id : string) (feed rest : list AlertEvent) : option AlertEvent := map_get id (byId feed rest).

(** The effect of the page for an alarm id. *)
Definition find_effect (now : Z) (d : Desk) : Desk :=
  match dk_route d with
  | None => d
  | Some id =>
      if isIncidentId id then d
      else if (match activeAlarm (dk_store d) with Some a => alert_is id a | None => false end) then d
      else match find_alarm id (alertFeed (dk_store d)) (dk_rest d) with
           | Some a => with_store (engageAlarm now a (dk_store d)) d
           | None => d
           end
  end.

(** Mounting and unmounting of the view. *)
Definition remount (d : Desk) : Desk * list DeskEffect :=
  match shown_alarm d, dk_view d with
  | Some a, None => (with_view (Some (dk_next d, initial_view)) (S (dk_next d)) d, [LoadSite (ae_site_id a) (ae_id a)])
  | None, Some _ => (with_view None (dk_next d) d, [])
  | Some a, Some (n, v) => (with_view (Some (n, hide_feedback a v)) (dk_next d) d, [])
  | None, None => (d, [])
  end.

Definition commit (now : Z) (d : Desk) : Desk * list DeskEffect :=
  let '(d1, f1) := remount d in
  let '(d2, f2) := remount (find_effect now d1) in
  (d2, (f1 ++ f2)%list).

(** ** Submitting a disposition *)

(** [handleSubmit] up to its first [await]: two log entries at most, and the record
    built from the values of the last render. *)
Definition submit (t : nat → Z) (n : nat) (v : View) (alarm : AlertEvent) (d : Desk) : Desk * list DeskEffect :=
  let w := vw_work v in
  match wf_disposition w with
  | Some c =>
      if wf_submitting w then (d, [])
      else
        let s1 := addActionLogEntry (t 0%nat) ("Disposition: " +:+ dispLabel c) false (dk_store d) in
        let s2 := if truthy_str (trim (wf_notes w))
                  then addActionLogEntry (t 1%nat) ("Notes: " +:+ trim (wf_notes w)) false s1 else s1 in
        (with_inflight (dk_inflight d ++ [(n, mkSubmission (si_id <$> dk_incident d) c, AwaitEvent)])
           (with_view (Some (n, with_work (set_submitting true) v)) (dk_next d) (with_store s2 d)),
         [PostEvent (event_payload alarm c (wf_notes w) (actionLog (dk_store d)) (wf_avs w))])
  | None => (d, [])
  end.

Definition inflight_of (n : nat) (d : Desk) : option (nat * Submission * Phase) :=
  find_where (λ e, (e.1.1 =? n)%nat) (dk_inflight d).
Definition drop_inflight (n : nat) (d : Desk) : Desk :=
  with_inflight (filter_where (λ e, negb (e.1.1 =? n)%nat) (dk_inflight d)) d.

(** Its end: the active alarm of that moment is resolved; a view that is gone is left alone. *)
Definition finish_submit (t : nat → Z) (n : nat) (c : DispositionCode) (d : Desk) : Desk * list DeskEffect :=
  let d1 := with_store (resolveAlarm (t 0%nat) c (dk_store d)) (drop_inflight n d) in
  match dk_view d with
  | Some (m, v) =>
      if (m =? n)%nat then (with_view (Some (m, with_work (set_submitting false) v)) (dk_next d) d1, [PushRoute "/operator"])
      else (d1, [])
  | None => (d1, [])
  end.

(** [createSecurityEvent] settles; a rejection ends the call. *)
Definition event_settles (t : nat → Z) (n : nat) (ok : bool) (d : Desk) : Desk * list DeskEffect :=
  match inflight_of n d with
  | Some (_, sub, AwaitEvent) =>
      if ok then
        match sub_incident sub with
        | Some i => (with_inflight (dk_inflight (drop_inflight n d) ++ [(n, sub, AwaitAck i)]) d, [PostAck i])
        | None => finish_submit t n (sub_code sub) d
        end
      else (drop_inflight n d, [])
  | _ => (d, [])
  end.

(** The acknowledgement settles, either way. *)
Definition ack_settles (t : nat → Z) (n : nat) (d : Desk) : Desk * list DeskEffect :=
  match inflight_of n d with
  | Some (_, sub, AwaitAck i) => finish_submit t n (sub_code sub) (with_store (acknowledgeIncident i (dk_store d)) d)
  | _ => (d, [])
  end.

(** ** The incident of the route *)

(** An alarm of [getIncidentDetail]: the typed fields, and those that may be missing. *)
Record IncidentAlarm := mkIncidentAlarm {
  ia_alarm : AlertEvent;
  ia_site_name : option string;
  ia_acknowledged : option bool;
  ia_escalation_level : option Z
}.

Definition map_alarm (inc : SOCIncident) (i : IncidentAlarm) : AlertEvent :=
  let a := ia_alarm i in {|
  ae_id := ae_id a;
  ae_incident_id := ae_incident_id a;
  ae_site_id := ae_site_id a;
  ae_site_name := default (si_site_name inc) (ia_site_name i);
  ae_camera_id := ae_camera_id a;
  ae_camera_name := ae_camera_name a;
  ae_severity := ae_severity a;
  ae_type := ae_type a;
  ae_description := ae_description a;
  ae_snapshot_url := ae_snapshot_url a;
  ae_clip_url := ae_clip_url a;
  ae_ts := ae_ts a;
  ae_acknowledged := default false (ia_acknowledged i);
  ae_assigned_operator_id := None;
  ae_assigned_operator_callsign := None;
  ae_escalation_level := default 0 (ia_escalation_level i);
  ae_escalated_at := None;
  ae_sla_deadline_ms := ae_sla_deadline_ms a;
  ae_ai_score := ae_ai_score a;
  ae_obj_type := ae_obj_type a;
  ae_rule_name := ae_rule_name a;
  ae_bounding_boxes := None;
  ae_ai_description := ae_ai_description a;
  ae_ai_threat_level := ae_ai_threat_level a;
  ae_ai_recommended_action := ae_ai_recommended_action a;
  ae_ai_false_positive_pct := ae_ai_false_positive_pct a;
  ae_ai_objects := None;
  ae_ai_detections := ae_ai_detections a;
  ae_ai_ppe_violations := ae_ai_ppe_violations a
|}.

Definition latest_alarm (l : list AlertEvent) : option AlertEvent :=
  match l with
  | [] => None
  | a :: _ => Some (foldl (λ a b, if ae_ts a <? ae_ts b then b else a) a l)
  end.

(** The reply for incident [id]; [seen] is the alarm that was active when it was asked for. *)
Definition incident_arrives (t : nat → Z) (id : string) (seen : option string) (inc : SOCIncident)
    (alarms : list IncidentAlarm) (d : Desk) : Desk :=
  let mapped := map_alarm inc <$> alarms in
  let d1 := if bool_decide (dk_route d = Some id)
            then with_page (dk_route d) (Some inc) (Some mapped) false d else d in
  match latest_alarm mapped with
  | Some a => if bool_decide (seen = Some (ae_id a)) then d1 else with_store (engageAlarm (t 0%nat) a (dk_store d1)) d1
  | None => d1
  end.

Definition incident_fails (id : string) (d : Desk) : Desk :=
  if bool_decide (dk_route d = Some id) then with_page (dk_route d) None None false d else d.

(** Arriving at a route: the first render, then the effect that starts loading. *)
Definition open_route (r : option string) (d : Desk) : Desk * list DeskEffect :=
  let '(d1, f1) := remount (with_page r None None false d) in
  let d2 := with_page r None None (match r with Some id => isIncidentId id | None => false end) d1 in
  let '(d3, f3) := remount d2 in (d3, (f1 ++ f3)%list).

(** ** Steps *)

(** What the alert stream does to the store meanwhile. *)
Definition stream_op (op : Op) : bool :=
  match op with
  | OpUpsertIncident _ | OpAddAlert _ | OpAcknowledgeAlert _ | OpPatchAlertSnapshot _ _ | OpPatchAlertAI _ _ => true
  | _ => false
  end.

Inductive DeskEvent :=
| DoAct (a : Act)
| DoSubmit
| EventSettles (n : nat) (ok : bool)
| AckSettles (n : nat)
| DeterSettles (n : nat) (ok : bool) (msg : string)
| SopsArrive (n : nat) (sops : list SiteSOP)
| EventsArrive (n : nat) (alarm : string) (l : list SecurityEventRecord)
| IncidentArrives (id : string) (seen : option string) (inc : SOCIncident) (alarms : list IncidentAlarm)
| IncidentFails (id : string)
| StreamOp (op : Op)
| PollArrives (l : list AlertEvent)
| OpenAlarm (a : AlertEvent)
| Navigate (r : option string).

(** A state update of view [n], if it is still mounted. *)
Definition on_view (n : nat) (f : View → View) (d : Desk) : Desk :=
  match dk_view d with
  | Some (m, v) => if (m =? n)%nat then with_view (Some (m, f v)) (dk_next d) d else d
  | None => d
  end.

Definition handle (t : nat → Z) (e : DeskEvent) (d : Desk) : Desk * list DeskEffect :=
  match e with
  | DoAct a =>
      match dk_view d, shown_alarm d with
      | Some (n, v), Some alarm =>
          let '(s', v', f) := act_step t alarm a (dk_store d) v in
          (with_view (Some (n, v')) (dk_next d) (with_store s' d), f)
      | _, _ => (d, [])
      end
  | DoSubmit =>
      match dk_view d, shown_alarm d with
      | Some (n, v), Some alarm => submit t n v alarm d
      | _, _ => (d, [])
      end
  | EventSettles n ok => event_settles t n ok d
  | AckSettles n => ack_settles t n d
  | DeterSettles n ok msg => (on_view n (deter_settles ok msg) d, [])
  | SopsArrive n sops => (on_view n (sops_loaded sops) d, [])
  | EventsArrive n alarm l => (on_view n (events_loaded alarm l) d, [])
  | IncidentArrives id seen inc alarms => (incident_arrives t id seen inc alarms d, [])
  | IncidentFails id => (incident_fails id d, [])
  | StreamOp op => (if stream_op op then with_store (apply_op op (dk_store d)).1 d else d, [])
  | PollArrives l => (with_rest l d, [])
  | OpenAlarm a =>
      match dk_route d with
      | None => (with_store (engageAlarm (t 0%nat) a (dk_store d)) d, [PushRoute ("/operator/alarm/" +:+ ae_id a)])
      | Some _ => (d, [])
      end
  | Navigate r => open_route r d
  end.

Definition desk_step (t : nat → Z) (e : DeskEvent) (d : Desk) : Desk * list DeskEffect :=
  let '(d1, f1) := handle t e d in
  let '(d2, f2) := commit (t 2%nat) d1 in (d2, (f1 ++ f2)%list).

(** A history: events with the clock readings of their steps. *)
Fixpoint desk_run (es : list ((nat → Z) * DeskEvent)) (d : Desk) : Desk * list DeskEffect :=
  match es with
  | [] => (d, [])
  | (t, e) :: r => let '(d1, f1) := desk_step t e d in let '(d2, f2) := desk_run r d1 in (d2, (f1 ++ f2)%list)
  end.

(** * Lemmas *)

(** ** Every step is a sequence of store actions *)

Definition reaches (s s' : OperatorState) : Prop := ∃ ops, s' = run_ops ops s.

#[export] Instance reaches_preorder : PreOrder reaches.
Proof.
  split; [by exists []|]. intros s1 s2 s3 [o1 ->] [o2 ->]. exists (o1 ++ o2)%list. unfold run_ops. by rewrite foldl_app.
Qed.

Lemma reaches_op op s : reaches s (apply_op op s).1.
Proof. by exists [op]. Qed.

Lemma reaches_log t x b s : reaches s (addActionLogEntry t x b s).
Proof. apply (reaches_op (OpAddActionLogEntry t x b)). Qed.
Lemma reaches_engage t a s : reaches s (engageAlarm t a s).
Proof. apply (reaches_op (OpEngageAlarm t a)). Qed.
Lemma reaches_resolve t c s : reaches s (resolveAlarm t c s).
Proof. apply (reaches_op (OpResolveAlarm t c)). Qed.
Lemma reaches_abandon s : reaches s (abandonAlarm s).
Proof. apply (reaches_op OpAbandonAlarm). Qed.
Lemma reaches_ack i s : reaches s (acknowledgeIncident i s).
Proof. apply (reaches_op (OpAcknowledgeIncident i)). Qed.
Lemma reaches_escalate t t' s : reaches s (escalateActiveAlarm t t' s).1.
Proof. apply (reaches_op (OpEscalateActiveAlarm t t')). Qed.
Lemma reaches_refl s : reaches s s.
Proof. done. Qed.

Create HintDb desk.
#[export] Hint Resolve reaches_refl reaches_log reaches_engage reaches_resolve reaches_abandon reaches_ack reaches_escalate
  reaches_op : desk.

Lemma act_step_reaches t alarm a s v : reaches s (act_step t alarm a s v).1.1.
Proof.
  destruct a; simpl; auto with desk.
  - unfold handleFeedback. destruct (_ && _); simpl; auto with desk.
  - unfold sop_change. destruct (step_checked _ _ _); simpl; auto with desk.
  - unfold confirmEscalate. destruct (vw_confirm v); [|done]. pose proof (reaches_escalate (t 0%nat) (t 1%nat) s) as H.
    by destruct (escalateActiveAlarm _ _ s).
Qed.

(** ** Rendering leaves the store and the calls alone *)

Definition same_page (d d' : Desk) : Prop :=
  dk_store d' = dk_store d ∧ dk_rest d' = dk_rest d ∧ dk_route d' = dk_route d ∧ dk_incident d' = dk_incident d ∧
  dk_children d' = dk_children d ∧ dk_loading d' = dk_loading d ∧ dk_inflight d' = dk_inflight d.

Lemma remount_same d : same_page d (remount d).1.
Proof. unfold remount. destruct (shown_alarm d), (dk_view d) as [[]|]; repeat split. Qed.

Lemma remount_shown d : shown_alarm (remount d).1 = shown_alarm d.
Proof.
  destruct (remount_same d) as (Hs & _ & Hr & _ & _ & Hl & _). unfold shown_alarm. by rewrite Hs, Hr, Hl.
Qed.

Lemma find_effect_reaches t d : reaches (dk_store d) (dk_store (find_effect t d)).
Proof. unfold find_effect. repeat case_match; simpl; auto with desk. Qed.

Lemma find_effect_keeps t d :
  dk_rest (find_effect t d) = dk_rest d ∧ dk_route (find_effect t d) = dk_route d ∧
  dk_incident (find_effect t d) = dk_incident d ∧ dk_loading (find_effect t d) = dk_loading d ∧
  dk_inflight (find_effect t d) = dk_inflight d ∧ dk_view (find_effect t d) = dk_view d ∧
  dk_next (find_effect t d) = dk_next d.
Proof. unfold find_effect. repeat case_match; done. Qed.

Lemma commit_eq t d :
  commit t d = ((remount (find_effect t (remount d).1)).1, ((remount d).2 ++ (remount (find_effect t (remount d).1)).2)%list).
Proof. unfold commit. by destruct (remount d) as [d1 f1], (remount (find_effect t d1)) as [d2 f2] eqn:E; simpl; rewrite E. Qed.

Lemma commit_store t d : dk_store (commit t d).1 = dk_store (find_effect t d).
Proof.
  rewrite commit_eq. simpl. rewrite (proj1 (remount_same _)).
  destruct (remount_same d) as (Hs & Hre & Hr & _). unfold find_effect. rewrite Hs, Hre, Hr. repeat case_match; done.
Qed.

Lemma commit_inflight t d : dk_inflight (commit t d).1 = dk_inflight d ∧ dk_route (commit t d).1 = dk_route d ∧
  dk_incident (commit t d).1 = dk_incident d ∧ dk_rest (commit t d).1 = dk_rest d.
Proof.
  rewrite commit_eq. simpl. destruct (remount_same (find_effect t (remount d).1)) as (_ & H1 & H2 & H3 & _ & _ & H4).
  destruct (find_effect_keeps t (remount d).1) as (F1 & F2 & F3 & _ & F4 & _).
  destruct (remount_same d) as (_ & G1 & G2 & G3 & _ & _ & G4). split_and!; congruence.
Qed.

Lemma submit_reaches t n v a d : reaches (dk_store d) (dk_store (submit t n v a d).1).
Proof.
  unfold submit. repeat case_match; simpl; auto with desk. etrans; apply reaches_log.
Qed.

Lemma finish_reaches t n c d : reaches (dk_store d) (dk_store (finish_submit t n c d).1).
Proof. unfold finish_submit. repeat case_match; simpl; auto with desk. Qed.

Lemma handle_reaches t e d : reaches (dk_store d) (dk_store (handle t e d).1).
Proof.
  destruct e as [a| |n ok|n|n ok msg|n sops|n al l|id seen inc al|id|op|l|a|r]; simpl.
  - destruct (dk_view d) as [[n v]|], (shown_alarm d) as [al|]; try done.
    pose proof (act_step_reaches t al a (dk_store d) v) as H. by destruct (act_step _ _ _ _ _) as [[s' v'] f].
  - destruct (dk_view d) as [[n v]|], (shown_alarm d) as [al|]; try done. apply submit_reaches.
  - unfold event_settles. repeat case_match; simpl; auto with desk. apply finish_reaches.
  - unfold ack_settles. repeat case_match; simpl; auto with desk.
    etrans; [apply reaches_ack|]. apply (finish_reaches t n _ (with_store _ d)).
  - unfold on_view. repeat case_match; simpl; auto with desk.
  - unfold on_view. repeat case_match; simpl; auto with desk.
  - unfold on_view. repeat case_match; simpl; auto with desk.
  - unfold incident_arrives. destruct (bool_decide _), (latest_alarm _); simpl; repeat case_match; simpl; auto with desk.
  - unfold incident_fails. repeat case_match; simpl; auto with desk.
  - destruct (stream_op op); simpl; auto with desk.
  - done.
  - destruct (dk_route d); simpl; auto with desk.
  - unfold open_route. set (d0 := with_page r None None false d). pose proof (remount_same d0) as (H1 & _).
    destruct (remount d0) as [d1 f1]. simpl in H1. set (d2 := with_page _ _ _ _ d1).
    pose proof (remount_same d2) as (H2 & _). destruct (remount d2) as [d3 f3]. simpl in H2 |- *.
    rewrite H2. unfold d2. simpl. by rewrite H1.
Qed.

Lemma desk_step_eq t e d :
  desk_step t e d = ((commit (t 2%nat) (handle t e d).1).1, ((handle t e d).2 ++ (commit (t 2%nat) (handle t e d).1).2)%list).
Proof. unfold desk_step. destruct (handle t e d) as [d1 f1]. simpl. by destruct (commit _ d1). Qed.

Lemma desk_step_reaches t e d : reaches (dk_store d) (dk_store (desk_step t e d).1).
Proof.
  rewrite desk_step_eq. simpl. rewrite commit_store. etrans; [apply handle_reaches|apply find_effect_reaches].
Qed.

Lemma desk_run_reaches es d : reaches (dk_store d) (dk_store (desk_run es d).1).
Proof.
  revert d. induction es as [|[t e] es IH]; intros d; [done|]. simpl.
  pose proof (desk_step_reaches t e d) as H. destruct (desk_step t e d) as [d1 f1]. simpl in H.
  specialize (IH d1). destruct (desk_run es d1) as [d2 f2]. simpl in *. by etrans.
Qed.

(** ** Shape of the reachable desks *)

Definition calls (d : Desk) : list nat := (λ e, e.1.1) <$> dk_inflight d.

(** Views and calls are numbered below [dk_next], a view has at most one suspended
    call, and while it has one its Close button is disabled. *)
Record calls_inv (d : Desk) : Prop := {
  ci_view : ∀ n v, dk_view d = Some (n, v) → (n < dk_next d)%nat;
  ci_calls : ∀ n, n ∈ calls d → (n < dk_next d)%nat;
  ci_once : NoDup (calls d);
  ci_busy : ∀ n v, dk_view d = Some (n, v) → n ∈ calls d → wf_submitting (vw_work v) = true;
}.

Lemma inflight_of_calls n d : is_Some (inflight_of n d) ↔ n ∈ calls d.
Proof.
  unfold inflight_of, calls. split.
  - intros [e [He%Nat.eqb_eq Hin]%find_where_Some]. subst n. by apply (list_elem_of_fmap_2 (λ e, e.1.1)).
  - intros ([[m s] p] & -> & Hin)%list_elem_of_fmap. destruct (find_where _ _) eqn:E; [done|].
    rewrite find_where_None in E. specialize (E _ Hin). simpl in E. by rewrite Nat.eqb_refl in E.
Qed.

Lemma calls_drop n d m : m ∈ calls (drop_inflight n d) ↔ m ≠ n ∧ m ∈ calls d.
Proof.
  unfold calls, drop_inflight. simpl. rewrite !list_elem_of_fmap. split.
  - intros ([[k s] p] & -> & [Hk Hin]%elem_of_filter_where). simpl in *. apply negb_true_iff, Nat.eqb_neq in Hk.
    split; [done|]. by exists (k, s, p).
  - intros [Hne ([[k s] p] & -> & Hin)]. exists (k, s, p). split; [done|]. apply elem_of_filter_where.
    split; [|done]. by apply negb_true_iff, Nat.eqb_neq.
Qed.

Lemma calls_drop_NoDup n d : NoDup (calls d) → NoDup (calls (drop_inflight n d)).
Proof. intros H. eapply sublist_NoDup; [exact H|]. apply fmap_sublist, sublist_filter. Qed.

Lemma act_step_submitting t alarm a s v :
  wf_submitting (vw_work (act_step t alarm a s v).1.2) = wf_submitting (vw_work v).
Proof.
  destruct a; simpl; try done.
  - unfold handle_key. repeat case_match; done.
  - unfold key_timer. repeat case_match; done.
  - unfold handleFeedback. repeat case_match; done.
  - unfold confirmEscalate. destruct (vw_confirm v); [|done]. by destruct (escalateActiveAlarm _ _ s).
  - unfold click_deterrence. repeat case_match; done.
  - unfold fire. repeat case_match; done.
  - unfold deter_timer. repeat case_match; done.
Qed.

Lemma hide_feedback_work a v : vw_work (hide_feedback a v) = vw_work v.
Proof. unfold hide_feedback. by destruct (_ && _). Qed.

Lemma remount_calls d : calls_inv d → calls_inv (remount d).1.
Proof.
  intros [Hv Hc Ho Hb]. unfold remount. destruct (shown_alarm d) as [a|], (dk_view d) as [[n v]|] eqn:E; simpl;
    split; simpl; try done; unfold calls in *; simpl.
  - intros ? ? [= <- <-]. eapply Hv. done.
  - intros ? ? [= <- <-]. rewrite hide_feedback_work. by apply Hb.
  - intros ? ? [= <- <-]. lia.
  - intros m Hm. specialize (Hc m Hm). lia.
  - intros ? ? [= <- <-] Hn. specialize (Hc _ Hn). lia.
  - by rewrite E.
  - by rewrite E.
Qed.

Lemma same_calls d d' :
  dk_view d' = dk_view d → dk_next d' = dk_next d → dk_inflight d' = dk_inflight d → calls_inv d → calls_inv d'.
Proof. intros Hv Hn Hi []. split; unfold calls in *; rewrite ?Hv, ?Hn, ?Hi; auto. Qed.

Lemma find_effect_calls t d : calls_inv d → calls_inv (find_effect t d).
Proof.
  destruct (find_effect_keeps t d) as (_ & _ & _ & _ & Hi & Hv & Hn). by apply same_calls.
Qed.

Lemma commit_calls t d : calls_inv d → calls_inv (commit t d).1.
Proof. rewrite commit_eq. intros H. by apply remount_calls, find_effect_calls, remount_calls. Qed.

Lemma on_view_calls n f d :
  (∀ v, wf_submitting (vw_work (f v)) = wf_submitting (vw_work v)) → calls_inv d → calls_inv (on_view n f d).
Proof.
  intros Hf [Hv Hc Ho Hb]. unfold on_view. destruct (dk_view d) as [[m v]|] eqn:E; [|by split; rewrite ?E].
  destruct (m =? n)%nat; [|by split; rewrite ?E]. split; simpl; try done.
  - intros ? ? [= <- <-]. by eapply Hv.
  - intros ? ? [= <- <-]. rewrite Hf. by apply Hb.
Qed.

Lemma view_calls d s n v v' :
  dk_view d = Some (n, v) → wf_submitting (vw_work v') = wf_submitting (vw_work v) →
  calls_inv d → calls_inv (with_view (Some (n, v')) (dk_next d) (with_store s d)).
Proof.
  intros E Hw [Hv Hc Ho Hb]. split; simpl; try done.
  - intros ? ? [= <- <-]. by eapply Hv.
  - intros ? ? [= <- <-]. rewrite Hw. by apply Hb.
Qed.

Lemma submit_calls t n v a d :
  dk_view d = Some (n, v) → calls_inv d → calls_inv (submit t n v a d).1.
Proof.
  intros E [Hv Hc Ho Hb]. unfold submit. destruct (wf_disposition _) as [c|]; [|done].
  destruct (wf_submitting (vw_work v)) eqn:Hs; [done|]. simpl.
  assert (Hn : n ∉ calls d) by (intros Hin; specialize (Hb n v E Hin); congruence).
  split; unfold calls in *; simpl; rewrite ?fmap_app; simpl.
  - intros ? ? [= <- <-]. by eapply Hv.
  - intros m [Hm|Hm%list_elem_of_singleton]%elem_of_app; [by apply Hc|]. subst m. by eapply Hv.
  - apply NoDup_app. split_and!; [done| |apply NoDup_singleton]. by intros m Hm ->%list_elem_of_singleton.
  - by intros ? ? [= <- <-].
Qed.

Lemma drop_calls n d : calls_inv d → calls_inv (drop_inflight n d).
Proof.
  intros [Hv Hc Ho Hb]. split; simpl; try done.
  - intros m [_ Hm]%calls_drop. by apply Hc.
  - by apply calls_drop_NoDup.
  - intros m v E [_ Hm]%calls_drop. by eapply Hb.
Qed.

Lemma finish_calls t n c d : calls_inv d → calls_inv (finish_submit t n c d).1.
Proof.
  intros H. pose proof (drop_calls n d H) as Hd. unfold finish_submit.
  destruct (dk_view d) as [[m v]|] eqn:E; [|by apply (same_calls (drop_inflight n d))].
  destruct (m =? n)%nat eqn:Hm; [|by apply (same_calls (drop_inflight n d))]. apply Nat.eqb_eq in Hm as ->. simpl.
  destruct Hd as [Hv Hc Ho Hb]. split; simpl in *; try done.
  - intros ? ? [= <- <-]. by eapply Hv.
  - intros ? ? [= <- <-] [? _]%calls_drop. done.
Qed.

Lemma advance_calls n e e' d :
  inflight_of n d = Some e → e'.1.1 = n → calls_inv d →
  calls_inv (with_inflight (dk_inflight (drop_inflight n d) ++ [e'])%list d).
Proof.
  intros Hin He' [Hv Hc Ho Hb].
  assert (Hn : n ∈ calls d) by (apply inflight_of_calls; eauto).
  assert (Hsub : ∀ m, m ∈ calls (with_inflight (dk_inflight (drop_inflight n d) ++ [e'])%list d) → m ∈ calls d).
  { intros m. unfold calls. simpl. rewrite fmap_app. intros [Hm|Hm%list_elem_of_singleton]%elem_of_app.
    - by apply (calls_drop n d m).
    - by subst. }
  split; simpl; try done.
  - intros m Hm. by apply Hc, Hsub.
  - unfold calls. simpl. rewrite fmap_app. apply NoDup_app.
    split_and!; [by apply (calls_drop_NoDup n d)| |apply NoDup_singleton].
    intros m [Hne _]%(calls_drop n d) Hm%list_elem_of_singleton. simpl in Hm. subst. done.
  - intros m v E Hm. eapply Hb; [done|by apply Hsub].
Qed.

Lemma settles_calls t n ok d : calls_inv d → calls_inv (event_settles t n ok d).1.
Proof.
  intros H. unfold event_settles. destruct (inflight_of n d) as [[[m sub] []]|] eqn:E; try done.
  destruct ok; [|by apply drop_calls]. destruct (sub_incident sub); [|by apply finish_calls].
  simpl. by eapply advance_calls.
Qed.

Lemma open_calls r d : calls_inv d → calls_inv (open_route r d).1.
Proof.
  intros H. unfold open_route. pose proof (remount_calls (with_page r None None false d)) as H1.
  destruct (remount (with_page r None None false d)) as [d1 f1]. simpl in H1.
  set (d2 := with_page _ _ _ _ d1). pose proof (remount_calls d2) as H2. destruct (remount d2) as [d3 f3]. simpl in *.
  apply H2. apply (same_calls d1); [done..|]. apply H1. by apply (same_calls d).
Qed.

Lemma handle_calls t e d : calls_inv d → calls_inv (handle t e d).1.
Proof.
  intros H. destruct e as [a| |n ok|n|n ok msg|n sops|n al l|id seen inc al|id|op|l|a|r]; simpl.
  - destruct (dk_view d) as [[n v]|] eqn:E, (shown_alarm d) as [al|]; try done.
    pose proof (act_step_submitting t al a (dk_store d) v) as Hs. destruct (act_step _ _ _ _ _) as [[s' v'] f].
    by apply (view_calls d s' n v).
  - destruct (dk_view d) as [[n v]|] eqn:E, (shown_alarm d) as [al|]; try done. by apply submit_calls.
  - by apply settles_calls.
  - unfold ack_settles. destruct (inflight_of n d) as [[[m sub] []]|]; try done.
    apply finish_calls. by apply (same_calls d).
  - by apply on_view_calls.
  - by apply on_view_calls.
  - by apply on_view_calls.
  - unfold incident_arrives. destruct (bool_decide _), (latest_alarm _); simpl; repeat case_match; simpl; by apply (same_calls d).
  - unfold incident_fails. case_match; by apply (same_calls d).
  - case_match; by apply (same_calls d).
  - by apply (same_calls d).
  - case_match; by apply (same_calls d).
  - by apply open_calls.
Qed.

Lemma desk_step_calls t e d : calls_inv d → calls_inv (desk_step t e d).1.
Proof. intros H. rewrite desk_step_eq. by apply commit_calls, handle_calls. Qed.

Lemma desk_run_calls es d : calls_inv d → calls_inv (desk_run es d).1.
Proof.
  revert d. induction es as [|[t e] es IH]; intros d H; [done|]. simpl.
  pose proof (desk_step_calls t e d H) as H1. destruct (desk_step t e d) as [d1 f1]. simpl in H1.
  specialize (IH d1 H1). by destruct (desk_run es d1).
Qed.

Lemma remount_visible d n v : dk_view (remount d).1 = Some (n, v) → is_Some (shown_alarm (remount d).1).
Proof.
  rewrite remount_shown. unfold remount. destruct (shown_alarm d), (dk_view d) as [[]|] eqn:E; simpl; eauto; congruence.
Qed.

Lemma desk_step_shown t e d n v :
  dk_view (desk_step t e d).1 = Some (n, v) → is_Some (shown_alarm (desk_step t e d).1).
Proof. rewrite desk_step_eq, commit_eq. simpl. apply remount_visible. Qed.

Lemma initial_calls s : calls_inv (initial_desk s).
Proof. split; simpl; try done; [by intros ? ?%elem_of_nil|constructor]. Qed.

(** ** A view whose submission has failed *)

Definition view_stuck (n : nat) (d : Desk) : Prop :=
  ∃ v, dk_view d = Some (n, v) ∧ wf_submitting (vw_work v) = true ∧ n ∉ calls d.
Definition gone (n : nat) (d : Desk) : Prop := (∀ v, dk_view d ≠ Some (n, v)) ∧ (n < dk_next d)%nat ∧ n ∉ calls d.

Definition is_post (f : DeskEffect) : bool := match f with PostEvent _ => true | _ => false end.
Definition posts (fs : list DeskEffect) : list DeskEffect := filter_where is_post fs.

Lemma posts_app f g : posts (f ++ g) = (posts f ++ posts g)%list.
Proof. apply filter_app. Qed.

Lemma remount_posts d : posts (remount d).2 = [].
Proof. unfold remount. destruct (shown_alarm d), (dk_view d) as [[]|]; done. Qed.

Lemma commit_posts t d : posts (commit t d).2 = [].
Proof. rewrite commit_eq. simpl. by rewrite posts_app, !remount_posts. Qed.

Lemma act_step_posts t alarm a s v : posts (act_step t alarm a s v).2 = [].
Proof.
  destruct a; simpl; try done.
  - unfold handle_key. repeat case_match; done.
  - unfold handleFeedback. repeat case_match; done.
  - unfold confirmEscalate. destruct (vw_confirm v); [|done]. unfold escalateActiveAlarm. by destruct (activeAlarm s).
  - unfold fire. repeat case_match; done.
Qed.

Lemma gone_same n d d' :
  dk_view d' = dk_view d → dk_next d' = dk_next d → (∀ m, m ∈ calls d' → m ∈ calls d) → gone n d → gone n d'.
Proof. intros Hv Hn Hc (H1 & H2 & H3). split_and!; [by rewrite Hv|by rewrite Hn|by intros ?%Hc]. Qed.

Lemma stuck_same n d d' :
  dk_view d' = dk_view d → (∀ m, m ∈ calls d' → m ∈ calls d) → view_stuck n d → view_stuck n d'.
Proof. intros Hv Hc (v & H1 & H2 & H3). exists v. split_and!; [by rewrite Hv|done|by intros ?%Hc]. Qed.

Lemma remount_gone n d : gone n d → gone n (remount d).1.
Proof.
  intros (H1 & H2 & H3). unfold remount. destruct (shown_alarm d), (dk_view d) as [[m v]|] eqn:E; simpl.
  - split_and!; [|done|done]. simpl. intros v' [= -> _]. by eapply H1.
  - split_and!; [|simpl; lia|done]. simpl. intros v' [= ? _]. lia.
  - by split_and!.
  - split_and!; [by rewrite E|done|done].
Qed.

Lemma remount_stuck n d : calls_inv d → view_stuck n d → view_stuck n (remount d).1 ∨ gone n (remount d).1.
Proof.
  intros Hi (v & Hv & Hs & Hc). unfold remount. rewrite Hv. destruct (shown_alarm d); simpl.
  - left. exists (hide_feedback a v). split_and!; [done|by rewrite hide_feedback_work|done].
  - right. split_and!; [done|by eapply (ci_view d)|done].
Qed.

Lemma commit_held n t d :
  calls_inv d → (view_stuck n d → view_stuck n (commit t d).1 ∨ gone n (commit t d).1) ∧ (gone n d → gone n (commit t d).1).
Proof.
  intros Hi. rewrite commit_eq. simpl.
  destruct (find_effect_keeps t (remount d).1) as (_ & _ & _ & _ & Hf & Hv & Hn).
  assert (Hg : gone n (remount d).1 → gone n (remount (find_effect t (remount d).1)).1).
  { intros H. apply remount_gone. apply (gone_same n (remount d).1); [done|done| |done].
    intros m. unfold calls. by rewrite Hf. }
  split; [|by intros H; apply Hg, remount_gone].
  intros [H|H]%remount_stuck; [|by right; apply Hg|done].
  apply remount_stuck; [by apply find_effect_calls, remount_calls|].
  apply (stuck_same n (remount d).1); [done| |done]. intros m. unfold calls. by rewrite Hf.
Qed.

Lemma finish_calls_sub t m c d k : k ∈ calls (finish_submit t m c d).1 → k ∈ calls d.
Proof.
  assert (H : k ∈ calls (drop_inflight m d) → k ∈ calls d) by by intros [_ ?]%calls_drop.
  unfold finish_submit. destruct (dk_view d) as [[j v]|]; [destruct (j =? m)%nat|]; done.
Qed.

Lemma settles_calls_sub t m ok d k : k ∈ calls (event_settles t m ok d).1 → k ∈ calls d.
Proof.
  unfold event_settles. destruct (inflight_of m d) as [[[j sub] []]|] eqn:E; try done.
  destruct ok; [|by intros [_ ?]%calls_drop]. destruct (sub_incident sub); [|by apply finish_calls_sub].
  unfold calls at 1. simpl. rewrite fmap_app. intros [[_ ?]%(calls_drop m d)|Hk%list_elem_of_singleton]%elem_of_app; [done|].
  simpl in Hk. subst. apply inflight_of_calls. eauto.
Qed.

Lemma ack_calls_sub t m d k : k ∈ calls (ack_settles t m d).1 → k ∈ calls d.
Proof.
  unfold ack_settles. destruct (inflight_of m d) as [[[j sub] []]|]; try done.
  intros H. by apply finish_calls_sub in H.
Qed.

(** What a finished call of view [m] does to the mounted view. *)
Lemma finish_view t m c d :
  dk_next (finish_submit t m c d).1 = dk_next d ∧ posts (finish_submit t m c d).2 = [] ∧
  (dk_view (finish_submit t m c d).1 = dk_view d ∨
   ∃ v, dk_view d = Some (m, v) ∧
        dk_view (finish_submit t m c d).1 = Some (m, with_work (set_submitting false) v)).
Proof.
  unfold finish_submit. destruct (dk_view d) as [[j v]|] eqn:E; [|by rewrite <- E; split_and!; auto].
  destruct (j =? m)%nat eqn:Hj; simpl; [|by rewrite <- E; split_and!; auto].
  apply Nat.eqb_eq in Hj as ->. split_and!; [done|done|]. right. eauto.
Qed.

Lemma settle_view t e d m :
  (∃ ok, e = EventSettles m ok) ∨ e = AckSettles m →
  dk_next (handle t e d).1 = dk_next d ∧ posts (handle t e d).2 = [] ∧
  (dk_view (handle t e d).1 = dk_view d ∨
   m ∈ calls d ∧ ∃ v, dk_view d = Some (m, v) ∧
        dk_view (handle t e d).1 = Some (m, with_work (set_submitting false) v)).
Proof.
  intros [[ok ->]| ->]; simpl.
  - unfold event_settles. destruct (inflight_of m d) as [[[j sub] []]|] eqn:E; try by split_and!; auto.
    assert (Hm : m ∈ calls d) by (apply inflight_of_calls; eauto).
    destruct ok; [|by split_and!; auto]. destruct (sub_incident sub); [by split_and!; auto|].
    destruct (finish_view t m (sub_code sub) d) as (H1 & H2 & [H3|H3]); split_and!; auto.
  - unfold ack_settles. destruct (inflight_of m d) as [[[j sub] []]|] eqn:E; try by split_and!; auto.
    assert (Hm : m ∈ calls d) by (apply inflight_of_calls; eauto).
    destruct (finish_view t m (sub_code sub) (with_store (acknowledgeIncident incident (dk_store d)) d)) as (H1 & H2 & [H3|H3]);
      split_and!; auto.
Qed.

Lemma settle_calls_sub t e d m k :
  (∃ ok, e = EventSettles m ok) ∨ e = AckSettles m → k ∈ calls (handle t e d).1 → k ∈ calls d.
Proof. intros [[ok ->]| ->]; [apply settles_calls_sub|apply ack_calls_sub]. Qed.

Lemma settle_gone t e d m n : (∃ ok, e = EventSettles m ok) ∨ e = AckSettles m → gone n d → gone n (handle t e d).1.
Proof.
  intros He (H1 & H2 & H3). destruct (settle_view t e d m He) as (Hn & _ & Hv).
  split_and!; [|by rewrite Hn|by intros ?%(settle_calls_sub t e d m n He)].
  destruct Hv as [->|(_ & v & Hv & ->)]; [done|]. intros v' [= -> _]. by eapply H1.
Qed.

Lemma settle_stuck t e d m n : (∃ ok, e = EventSettles m ok) ∨ e = AckSettles m → view_stuck n d → view_stuck n (handle t e d).1.
Proof.
  intros He (v & Hv & Hs & Hc). destruct (settle_view t e d m He) as (_ & _ & [Hv'|(Hm & v' & Hv' & _)]).
  - exists v. split_and!; [by rewrite Hv'|done|by intros ?%(settle_calls_sub t e d m n He)].
  - rewrite Hv in Hv'. by simplify_eq.
Qed.

Lemma on_view_next n f d : dk_next (on_view n f d) = dk_next d ∧ calls (on_view n f d) = calls d.
Proof. unfold on_view. destruct (dk_view d) as [[m v]|]; [destruct (m =? n)%nat|]; done. Qed.

Lemma on_view_gone m f n d : gone n d → gone n (on_view m f d).
Proof.
  intros (H1 & H2 & H3). destruct (on_view_next m f d) as [Hn Hc]. split_and!; [|by rewrite Hn|by rewrite Hc].
  unfold on_view. destruct (dk_view d) as [[j v]|] eqn:E; [|by rewrite E].
  destruct (j =? m)%nat; simpl; [|by rewrite E]. intros v' [= -> _]. by eapply H1.
Qed.

Lemma on_view_stuck m f n d :
  (∀ v, wf_submitting (vw_work (f v)) = wf_submitting (vw_work v)) → view_stuck n d → view_stuck n (on_view m f d).
Proof.
  intros Hf (v & Hv & Hs & Hc). destruct (on_view_next m f d) as [_ Hk]. unfold view_stuck. rewrite Hk.
  unfold on_view. rewrite Hv. destruct (n =? m)%nat; simpl; [|by exists v]. exists (f v). by rewrite Hf.
Qed.

Lemma open_held n r d :
  calls_inv d → (view_stuck n d → view_stuck n (open_route r d).1 ∨ gone n (open_route r d).1) ∧
  (gone n d → gone n (open_route r d).1) ∧ posts (open_route r d).2 = [].
Proof.
  intros Hi. unfold open_route. set (d0 := with_page r None None false d).
  assert (Hi0 : calls_inv d0) by by apply (same_calls d).
  pose proof (remount_posts d0) as P0. pose proof (remount_calls d0 Hi0) as Hi1.
  pose proof (remount_gone n d0) as G0. pose proof (remount_stuck n d0 Hi0) as S0.
  destruct (remount d0) as [d1 f1]. simpl in *. set (d2 := with_page _ _ _ _ d1).
  assert (Hi2 : calls_inv d2) by by apply (same_calls d1).
  pose proof (remount_posts d2) as P2. pose proof (remount_gone n d2) as G2. pose proof (remount_stuck n d2 Hi2) as S2.
  destruct (remount d2) as [d3 f3]. simpl in *.
  assert (Hg : gone n d1 → gone n d3) by (intros H; apply G2; by apply (gone_same n d1)).
  split_and!.
  - intros H. destruct (S0 (stuck_same n d d0 eq_refl (λ _, id) H)) as [H1|H1]; [|by right; apply Hg].
    apply S2. by apply (stuck_same n d1).
  - intros H. apply Hg, G0. by apply (gone_same n d).
  - by rewrite posts_app, P0, P2.
Qed.

Lemma handle_gone n t e d : calls_inv d → gone n d → gone n (handle t e d).1.
Proof.
  intros Hi Hg. destruct e as [a| |m ok|m|m ok msg|m sops|m al l|id seen inc al|id|op|l|a|r]; simpl;
    try (apply on_view_gone; done).
  - destruct (dk_view d) as [[m v]|] eqn:E, (shown_alarm d) as [al|]; try done.
    destruct (act_step _ _ _ _ _) as [[s' v'] f]. destruct Hg as (H1 & H2 & H3).
    split_and!; [|done|done]. simpl. intros v0 [= -> _]. by eapply H1.
  - destruct (dk_view d) as [[m v]|] eqn:E, (shown_alarm d) as [al|]; try done.
    destruct Hg as (H1 & H2 & H3). assert (Hne : m ≠ n) by (intros ->; by eapply H1).
    unfold submit. destruct (wf_disposition _); [|done]. destruct (wf_submitting _); [done|]. simpl.
    split_and!; [by intros ? [= ? _]|done|]. unfold calls. simpl. rewrite fmap_app.
    intros [?| ->%list_elem_of_singleton]%elem_of_app; done.
  - apply (settle_gone t (EventSettles m ok) d m n); eauto.
  - apply (settle_gone t (AckSettles m) d m n); eauto.
  - unfold incident_arrives. destruct (bool_decide _), (latest_alarm _); simpl; repeat case_match; by apply (gone_same n d).
  - unfold incident_fails. case_match; by apply (gone_same n d).
  - case_match; by apply (gone_same n d).
  - by apply (gone_same n d).
  - case_match; by apply (gone_same n d).
  - by apply open_held.
Qed.

Lemma handle_stuck n t e d :
  calls_inv d → view_stuck n d → (view_stuck n (handle t e d).1 ∨ gone n (handle t e d).1) ∧ posts (handle t e d).2 = [].
Proof.
  intros Hi Hst. assert (Hk : ∀ d' : Desk, dk_view d' = dk_view d → dk_inflight d' = dk_inflight d → view_stuck n d' ∨ gone n d').
  { intros d' Hv Hc. left. apply (stuck_same n d); [done| |done]. intros k. unfold calls. by rewrite Hc. }
  pose proof Hst as (v & Hv & Hs & Hc).
  destruct e as [a| |m ok|m|m ok msg|m sops|m al l|id seen inc al|id|op|l|a|r]; simpl;
    try (split; [left; apply on_view_stuck; done|done]).
  - rewrite Hv. destruct (shown_alarm d) as [al|]; [|by split; [by left|]].
    pose proof (act_step_submitting t al a (dk_store d) v) as Hs'. pose proof (act_step_posts t al a (dk_store d) v) as Hp.
    destruct (act_step _ _ _ _ _) as [[s' v'] f]. simpl in *. split; [|done]. left. exists v'. split_and!; [done| |done].
    by rewrite Hs', Hs.
  - rewrite Hv. destruct (shown_alarm d) as [al|]; [|by split; [by left|]].
    unfold submit. rewrite Hs. destruct (wf_disposition _); split; try done; by left.
  - split; [left; apply (settle_stuck t (EventSettles m ok) d m n); eauto|].
    by apply (settle_view t (EventSettles m ok) d m); eauto.
  - split; [left; apply (settle_stuck t (AckSettles m) d m n); eauto|].
    by apply (settle_view t (AckSettles m) d m); eauto.
  - split; [|done]. unfold incident_arrives. destruct (bool_decide _), (latest_alarm _); simpl; repeat case_match; by apply Hk.
  - split; [|done]. unfold incident_fails. case_match; by apply Hk.
  - split; [|done]. case_match; by apply Hk.
  - split; [|done]. by apply Hk.
  - case_match; (split; [by apply Hk|done]).
  - destruct (open_held n r d Hi) as (H1 & _ & H3). auto.
Qed.

Lemma run_gone n es d : calls_inv d → gone n d → gone n (desk_run es d).1.
Proof.
  revert d. induction es as [|[t e] es IH]; intros d Hi Hg; [done|]. simpl.
  pose proof (desk_step_calls t e d Hi) as Hi1. assert (Hg1 : gone n (desk_step t e d).1).
  { rewrite desk_step_eq. simpl. apply commit_held; [by apply handle_calls|by apply handle_gone]. }
  destruct (desk_step t e d) as [d1 f1]. simpl in *. specialize (IH d1 Hi1 Hg1). by destruct (desk_run es d1).
Qed.

Lemma run_stuck n es d :
  calls_inv d → view_stuck n d →
  gone n (desk_run es d).1 ∨ view_stuck n (desk_run es d).1 ∧ posts (desk_run es d).2 = [].
Proof.
  revert d. induction es as [|[t e] es IH]; intros d Hi Hst; [by right|]. simpl.
  pose proof (desk_step_calls t e d Hi) as Hi1. destruct (handle_stuck n t e d Hi Hst) as [Hh Hp].
  assert (H1 : view_stuck n (desk_step t e d).1 ∨ gone n (desk_step t e d).1).
  { rewrite desk_step_eq. simpl. pose proof (commit_held n (t 2%nat) (handle t e d).1 (handle_calls t e d Hi)) as [Hc Hc'].
    destruct Hh as [Hh|Hh]; [by apply Hc|]. right. by apply Hc'. }
  assert (Hp1 : posts (desk_step t e d).2 = []) by by rewrite desk_step_eq; simpl; rewrite posts_app, Hp, commit_posts.
  destruct (desk_step t e d) as [d1 f1]. simpl in *. destruct H1 as [H1|H1].
  - specialize (IH d1 Hi1 H1). destruct (desk_run es d1) as [d2 f2]. simpl in *.
    destruct IH as [?|[? Hf]]; [by left|]. right. split; [done|]. by rewrite posts_app, Hp1, Hf.
  - left. pose proof (run_gone n es d1 Hi1 H1) as H. by destruct (desk_run es d1).
Qed.

(** ** A submission *)

Lemma inflight_last n s p pre d :
  dk_inflight d = (pre ++ [(n, s, p)])%list → n ∉ ((λ e : nat * Submission * Phase, e.1.1) <$> pre) →
  inflight_of n d = Some (n, s, p) ∧ dk_inflight (drop_inflight n d) = pre.
Proof.
  intros E Hn. assert (Hne : ∀ e, e ∈ pre → (e.1.1 =? n)%nat = false).
  { intros e He. apply Nat.eqb_neq. intros <-. apply Hn. by apply (list_elem_of_fmap_2 (λ e, e.1.1)). }
  split.
  - unfold inflight_of, find_where. rewrite E, list_find_app_r; [simpl; by rewrite Nat.eqb_refl|].
    apply list_find_None, Forall_forall. intros e He. apply Is_true_false. by apply Hne.
  - simpl. rewrite E. unfold filter_where. rewrite filter_app, filter_cons, filter_nil. simpl. rewrite Nat.eqb_refl.
    simpl. rewrite app_nil_r. apply filter_where_id. intros e He. by rewrite Hne.
Qed.

(** The entries that closing adds to the log. *)
Definition closing_entries (t : nat → Z) (c : DispositionCode) (notes : string) : list ActionLogEntry :=
  mkActionLogEntry (t 0%nat) ("Disposition: " +:+ dispLabel c) false ::
  (if truthy_str (trim notes) then [mkActionLogEntry (t 1%nat) ("Notes: " +:+ trim notes) false] else []).

Definition append_log (l : list ActionLogEntry) (s : OperatorState) : OperatorState := upd_actionLog (actionLog s ++ l) s.

Lemma submit_eq t n v alarm d c :
  wf_disposition (vw_work v) = Some c → wf_submitting (vw_work v) = false →
  submit t n v alarm d =
  (with_inflight (dk_inflight d ++ [(n, mkSubmission (si_id <$> dk_incident d) c, AwaitEvent)])%list
     (with_view (Some (n, with_work (set_submitting true) v)) (dk_next d)
        (with_store (append_log (closing_entries t c (wf_notes (vw_work v))) (dk_store d)) d)),
   [PostEvent (event_payload alarm c (wf_notes (vw_work v)) (actionLog (dk_store d)) (wf_avs (vw_work v)))]).
Proof.
  intros Hc Hs. unfold submit. rewrite Hc, Hs. unfold append_log, closing_entries, addActionLogEntry.
  destruct (truthy_str _); [|done]. simpl. by rewrite <- app_assoc.
Qed.

Lemma shown_active d a : shown_alarm d = Some a → activeAlarm (dk_store d) = Some a.
Proof. unfold shown_alarm. repeat case_match; congruence. Qed.

Lemma resolve_active t c a s : activeAlarm s = Some a →
  let s' := resolveAlarm t c s in
  activeAlarm s' = None ∧ operatorStatus s' = wrap_up ∧ actionLog s' = [] ∧
  lastDisposition s' = Some (mkLastDisposition a c (actionLog s) t (t - ae_ts a)) ∧
  alarmsHandled (shiftStats s') = alarmsHandled (shiftStats s) + 1 ∧
  dismissedIds s' = dismiss (ae_id a) (dismissedIds s) ∧
  alertFeed s' = map_where (alert_is (ae_id a)) set_acknowledged (alertFeed s).
Proof. intros Ha. unfold resolveAlarm. rewrite Ha. done. Qed.

(** The alarm is closed with code [c] and log [log], and view [n] is usable again. *)
Record alarm_closed (n : nat) (alarm : AlertEvent) (c : DispositionCode) (log : list ActionLogEntry) (handled : Z)
    (d : Desk) : Prop := {
  ac_idle : activeAlarm (dk_store d) = None;
  ac_status : operatorStatus (dk_store d) = wrap_up;
  ac_kept : ∃ at_, lastDisposition (dk_store d) = Some (mkLastDisposition alarm c log at_ (at_ - ae_ts alarm));
  ac_count : alarmsHandled (shiftStats (dk_store d)) = handled + 1;
  ac_dismissed : ae_id alarm ∈ dismissedIds (dk_store d);
  ac_settled : n ∉ calls d;
  ac_usable : ∃ v, dk_view d = Some (n, v) ∧ wf_submitting (vw_work v) = false
}.

Lemma elem_of_dismiss id l : id ∈ dismiss id l.
Proof.
  unfold dismiss. destruct (includes _ l) eqn:E; [by apply bool_decide_eq_true in E|].
  rewrite slice_last_app_sub by (simpl; unfold DISMISSED_CAP; lia). apply elem_of_app. right. by left.
Qed.

Lemma finish_closes t n c d v alarm :
  dk_view d = Some (n, v) → activeAlarm (dk_store d) = Some alarm →
  (finish_submit t n c d).2 = [PushRoute "/operator"] ∧
  incidents (dk_store (finish_submit t n c d).1) = incidents (dk_store d) ∧
  alarm_closed n alarm c (actionLog (dk_store d)) (alarmsHandled (shiftStats (dk_store d))) (finish_submit t n c d).1.
Proof.
  intros Hv Ha. pose proof (resolve_active (t 0%nat) c alarm (dk_store d) Ha) as (H1 & H2 & H3 & H4 & H5 & H6 & H7).
  unfold finish_submit. rewrite Hv, Nat.eqb_refl. simpl. split; [done|]. split.
  - unfold resolveAlarm. by rewrite Ha.
  - split; simpl; eauto; [by rewrite H6; apply elem_of_dismiss|]. by intros [? _]%calls_drop.
Qed.

(** ** Steps that leave the suspended calls alone *)

Definition leaves_calls (e : DeskEvent) : bool :=
  match e with DoSubmit | EventSettles _ _ | AckSettles _ => false | _ => true end.

Lemma remount_inflight d : dk_inflight (remount d).1 = dk_inflight d.
Proof. apply remount_same. Qed.

Lemma open_inflight r d : dk_inflight (open_route r d).1 = dk_inflight d ∧ posts (open_route r d).2 = [] ∧
  dk_store (open_route r d).1 = dk_store d ∧ dk_route (open_route r d).1 = r ∧ dk_rest (open_route r d).1 = dk_rest d.
Proof.
  unfold open_route. set (d0 := with_page r None None false d). pose proof (remount_same d0) as (A1 & A2 & A3 & _ & _ & _ & A4).
  pose proof (remount_posts d0) as P0. destruct (remount d0) as [d1 f1]. simpl in *. set (d2 := with_page _ _ _ _ d1).
  pose proof (remount_same d2) as (B1 & B2 & B3 & _ & _ & _ & B4). pose proof (remount_posts d2) as P2.
  destruct (remount d2) as [d3 f3]. simpl in *. rewrite posts_app, P0, P2.
  unfold d2, d0 in *. simpl in *. split_and!; congruence.
Qed.

Lemma quiet_step t e d :
  leaves_calls e = true → dk_inflight (desk_step t e d).1 = dk_inflight d ∧ posts (desk_step t e d).2 = [].
Proof.
  intros He. rewrite desk_step_eq. simpl. destruct (commit_inflight (t 2%nat) (handle t e d).1) as [-> _].
  rewrite posts_app, commit_posts, app_nil_r.
  destruct e as [a| |n ok|n|n ok msg|n sops|n al l|id seen inc al|id|op|l|a|r]; simpl in *; try done.
  - destruct (dk_view d) as [[n v]|], (shown_alarm d) as [al|]; try done.
    pose proof (act_step_posts t al a (dk_store d) v) as H. by destruct (act_step _ _ _ _ _) as [[s' v'] f].
  - split; [|done]. unfold on_view. repeat case_match; done.
  - split; [|done]. unfold on_view. repeat case_match; done.
  - split; [|done]. unfold on_view. repeat case_match; done.
  - split; [|done]. unfold incident_arrives. destruct (bool_decide _), (latest_alarm _); simpl; repeat case_match; done.
  - split; [|done]. unfold incident_fails. repeat case_match; done.
  - by destruct (stream_op op).
  - by destruct (dk_route d).
  - by destruct (open_inflight r d) as (? & ? & _).
Qed.

Lemma find_effect_kept t d :
  lastDisposition (dk_store (find_effect t d)) = lastDisposition (dk_store d) ∧
  dismissedIds (dk_store (find_effect t d)) = dismissedIds (dk_store d).
Proof.
  unfold find_effect. repeat case_match; try done.
  all: unfold engageAlarm, claimAlert; simpl; by case_match.
Qed.

Lemma engage_active t a s : activeAlarm (engageAlarm t a s) = Some a ∧ operatorStatus (engageAlarm t a s) = engaged.
Proof. unfold engageAlarm, claimAlert. simpl. by case_match. Qed.

(** ** The alarm of the route *)

Definition by_id (l : list AlertEvent) : list (string * AlertEvent) := (λ a, (ae_id a, a)) <$> l.

Lemma find_alarm_last id feed rest : find_alarm id feed rest = last_value id (by_id (feed ++ rest ++ rest)%list).
Proof.
  unfold find_alarm. rewrite <- map_get_map_of. f_equal. unfold byId, map_of, by_id.
  rewrite (app_assoc feed rest rest), (fmap_app _ (feed ++ rest)%list rest), foldl_app. generalize (foldl (λ m e, map_set e.1 e.2 m) [] ((λ a, (ae_id a, a)) <$> (feed ++ rest)%list)).
  induction rest as [|a rest IH]; intros m; [done|]. simpl. apply IH.
Qed.

Lemma last_value_by_id id l a : last_value id (by_id l) = Some a → ae_id a = id ∧ a ∈ l.
Proof.
  unfold last_value. intros ([k b] & Hl & ->)%fmap_Some. apply last_Some_elem_of, list_elem_of_filter in Hl as [Hk Hin].
  apply list_elem_of_fmap in Hin as (x & [= -> ->] & Hx). done.
Qed.

Lemma last_value_by_id_is_Some id l : is_Some (last_value id (by_id l)) ↔ id ∈ ae_id <$> l.
Proof.
  split.
  - intros [a [<- Ha]%last_value_by_id]. by apply list_elem_of_fmap_2.
  - intros (a & -> & Ha)%list_elem_of_fmap. unfold last_value.
    assert (Hin : (ae_id a, a) ∈ filter (λ e : string * AlertEvent, e.1 = ae_id a) (by_id l)).
    { apply list_elem_of_filter. split; [done|]. by apply (list_elem_of_fmap_2 (λ a, (ae_id a, a))). }
    destruct (last _) eqn:E; [by eexists|]. apply last_None in E. rewrite E in Hin. by apply elem_of_nil in Hin.
Qed.

Lemma find_alarm_is_Some id feed rest :
  is_Some (find_alarm id feed rest) ↔ id ∈ ae_id <$> (feed ++ rest)%list.
Proof.
  rewrite find_alarm_last, last_value_by_id_is_Some, !fmap_app, !elem_of_app. tauto.
Qed.

(** The effect of the page claims the alarm of the route whenever none is active. *)
Lemma find_effect_engages t d id :
  dk_route d = Some id → isIncidentId id = false → activeAlarm (dk_store d) = None →
  id ∈ ae_id <$> (alertFeed (dk_store d) ++ dk_rest d)%list →
  ∃ a, ae_id a = id ∧ activeAlarm (dk_store (find_effect t d)) = Some a ∧ operatorStatus (dk_store (find_effect t d)) = engaged.
Proof.
  intros Hr Hi Ha Hin. unfold find_effect. rewrite Hr, Hi, Ha.
  apply find_alarm_is_Some in Hin as [a Hf]. rewrite Hf. exists a. rewrite find_alarm_last in Hf.
  apply last_value_by_id in Hf as [? _]. destruct (engage_active t a (dk_store d)) as [? ?]. done.
Qed.

(** ** Shortcuts *)

Definition prefix_category (p : KeyPrefix) : DispositionCategory :=
  match p with prefix_f => cat_false | prefix_v => cat_verified end.
Definition prefix_keys (p : KeyPrefix) : list string := match p with prefix_f => ["f"; "F"] | prefix_v => ["v"; "V"] end.
Definition shortcut (p : KeyPrefix) (i : nat) : option DispositionCode := do_code <$> options_of (prefix_category p) !! i.
Definition digit_keys : list string := ["1"; "2"; "3"; "4"; "5"].

Lemma handle_key_prefix p k v : k ∈ prefix_keys p → handle_key false k v = (with_keys (mkKeys (Some p) true) v, []).
Proof.
  destruct p; intros Hk; repeat (apply elem_of_cons in Hk as [->|Hk]; [reflexivity|]); by apply elem_of_nil in Hk.
Qed.

Lemma handle_key_digit p i k v c :
  ky_prefix (vw_keys v) = Some p → digit_keys !! i = Some k → shortcut p i = Some c →
  handle_key false k v = (with_keys (mkKeys None false) (with_work (set_disposition (Some c)) v), [PreventDefault]).
Proof.
  intros Hp Hk Hc. destruct v as [vr wk [kp kt] dt cf]. simpl in Hp. subst kp.
  do 5 (destruct i as [|i]; [simpl in Hk; injection Hk as <-; destruct p; vm_compute in Hc; injection Hc as <-; reflexivity|]).
  done.
Qed.

(** ** Checklists *)

Definition clicks_on (sop : string) (i : nat) (clicks : list (string * nat)) : nat :=
  length (filter (λ k, k = (sop, i)) clicks).

Lemma js_set_odd n i f :
  (i < n)%nat → js_set i (negb (default false ((f <$> seq 0 n) !! i))) (f <$> seq 0 n) =
    (λ j, if decide (j = i) then negb (f j) else f j) <$> seq 0 n.
Proof.
  intros Hi. assert (E : (f <$> seq 0 n) !! i = Some (f i)) by by rewrite list_lookup_fmap, lookup_seq_lt.
  unfold js_set. rewrite E, length_fmap, length_seq, (proj2 (Nat.ltb_lt i n) Hi).
  apply list_eq. intros j. rewrite list_lookup_fmap. destruct (decide (j = i)) as [->|Hne].
  - rewrite list_lookup_insert_eq by (by rewrite length_fmap, length_seq).
    rewrite lookup_seq_lt by done. simpl. by rewrite decide_True.
  - rewrite list_lookup_insert_ne by done. rewrite list_lookup_fmap. destruct (seq 0 n !! j) as [k|] eqn:Ej; [|done].
    apply lookup_seq in Ej as [-> Hj]. simpl. by rewrite decide_False.
Qed.

Lemma initial_checks_lookup sops s :
  NoDup (sop_id <$> sops) → s ∈ sops → initial_checks sops !! sop_id s = Some ((λ _, false) <$> seq 0 (length (sop_steps s))).
Proof.
  unfold initial_checks. intros Hnd Hin. generalize (∅ : gmap string (list bool)).
  induction sops as [|x sops IH]; intros m; [by apply elem_of_nil in Hin|].
  rewrite fmap_cons in Hnd. apply NoDup_cons in Hnd as [Hx Hnd]. apply elem_of_cons in Hin as [->|Hin]; [|by apply IH].
  clear IH. cbn [foldl]. set (m1 := <[_ := _]> m).
  assert (Hm1 : m1 !! sop_id x = Some ((λ _, false) <$> seq 0 (length (sop_steps x)))).
  { unfold m1. rewrite lookup_insert_eq. f_equal. apply list_eq. intros i. rewrite !list_lookup_fmap.
    destruct (decide (i < length (sop_steps x))%nat) as [Hi|Hi].
    - rewrite lookup_seq_lt by done. by destruct (lookup_lt_is_Some_2 (sop_steps x) i Hi) as [y ->].
    - rewrite lookup_seq_ge by lia. by rewrite lookup_ge_None_2 by lia. }
  revert Hm1. generalize m1. clear m1. induction sops as [|y sops IH]; intros m1 Hm1; [done|].
  rewrite fmap_cons in Hx, Hnd. apply not_elem_of_cons in Hx as [Hxy Hx]. apply NoDup_cons in Hnd as [_ Hnd].
  apply IH; [done|done|]. by rewrite lookup_insert_ne.
Qed.

Definition checks_after (sops : list SiteSOP) (clicks : list (string * nat)) : gmap string (list bool) :=
  foldl (λ c k, toggleSopStep k.1 k.2 c) (initial_checks sops) clicks.

Definition rendered (sops : list SiteSOP) (k : string * nat) : Prop :=
  ∃ s, s ∈ sops ∧ sop_id s = k.1 ∧ (k.2 < length (sop_steps s))%nat.

Lemma checks_after_lookup sops clicks s :
  NoDup (sop_id <$> sops) → Forall (rendered sops) clicks → s ∈ sops →
  checks_after sops clicks !! sop_id s = Some ((λ i, Nat.odd (clicks_on (sop_id s) i clicks)) <$> seq 0 (length (sop_steps s))).
Proof.
  intros Hnd Hc Hs. unfold checks_after. induction clicks as [|[k i] clicks IH] using rev_ind.
  - by apply initial_checks_lookup.
  - apply Forall_app in Hc as [Hc Hk]. specialize (IH Hc). rewrite foldl_app. cbn [foldl fst snd]. revert IH.
    generalize (foldl (λ c k, toggleSopStep k.1 k.2 c) (initial_checks sops) clicks). intros m IH. unfold toggleSopStep.
    assert (Hcnt : ∀ j, clicks_on (sop_id s) j (clicks ++ [(k, i)])%list =
      (clicks_on (sop_id s) j clicks + (if decide ((k, i) = (sop_id s, j)) then 1 else 0))%nat).
    { intros j. unfold clicks_on. rewrite filter_app, length_app, filter_cons, filter_nil. by case_decide. }
    destruct (decide (k = sop_id s)) as [->|Hne].
    + rewrite lookup_insert_eq. f_equal. rewrite IH. cbn [default from_option].
      assert (Hi : (i < length (sop_steps s))%nat).
      { apply Forall_cons in Hk as [(s' & Hs' & He & Hi) _]. simpl in *.
        by rewrite (NoDup_fmap_elem sop_id sops s s') by congruence. }
      etrans; [apply (js_set_odd (length (sop_steps s)) i (λ i, Nat.odd (clicks_on (sop_id s) i clicks)) Hi)|].
      apply list_fmap_ext. intros _ j _. rewrite Hcnt. case_decide as E.
      * subst j. rewrite decide_True by done. by rewrite Nat.add_1_r, Nat.odd_succ, <- Nat.negb_odd.
      * rewrite decide_False by congruence. by rewrite Nat.add_0_r.
    + rewrite lookup_insert_ne by done. rewrite IH. f_equal. apply list_fmap_ext. intros _ j _. rewrite Hcnt.
      rewrite decide_False by congruence. by rewrite Nat.add_0_r.
Qed.

Lemma filter_where_ext {A} (f g : A → bool) l : (∀ x, x ∈ l → f x = g x) → filter_where f l = filter_where g l.
Proof.
  induction l as [|x l IH]; intros H; [done|]. unfold filter_where in *. rewrite !filter_cons.
  rewrite (H x) by by left. rewrite IH by (intros; apply H; by right). done.
Qed.

Lemma filter_id_full l : length (filter_where id l) = length l ↔ Forall (λ b, b = true) l.
Proof.
  induction l as [|b l IH]; [done|].
  assert (E : filter_where id (b :: l) = if b then b :: filter_where id l else filter_where id l).
  { unfold filter_where. rewrite filter_cons. by destruct b. }
  pose proof (length_filter_where id l) as Hl. rewrite E, Forall_cons, <- IH.
  destruct b; cbn [length]; split; intros H; try lia; by destruct H.
Qed.

(** ** Camera tabs *)

(** The distinct values of a list in order of first appearance. *)
Definition first_seen (l : list string) : list string :=
  foldl (λ acc x, if includes x acc then acc else (acc ++ [x])%list) [] l.

Record tabs_inv (l : list AlertEvent) (m : list (string * AlertEvent)) : Prop := {
  tb_once : NoDup m.*1;
  tb_order : m.*1 = first_seen (ae_camera_id <$> l);
  tb_latest : ∀ k a, (k, a) ∈ m →
    ae_camera_id a = k ∧ a ∈ l ∧ ∀ b, b ∈ l → ae_camera_id b = k → ae_ts b <= ae_ts a;
  tb_all : ∀ b, b ∈ l → ae_camera_id b ∈ m.*1
}.

Lemma tabs_foldl l : tabs_inv l (foldl tab_insert [] l).
Proof.
  induction l as [|a l [H1 H2 H3 H4]] using rev_ind; [split; [constructor|done|by intros ? ? ?%elem_of_nil|by intros ? ?%elem_of_nil]|].
  rewrite foldl_app. simpl. set (m := foldl tab_insert [] l) in *.
  assert (Hset : ∀ e, map_get (ae_camera_id a) m = e → (∀ x, e = Some x → ae_ts x < ae_ts a) →
    tabs_inv (l ++ [a])%list (map_set (ae_camera_id a) a m)).
  { intros e He Hts. split.
    - by apply map_set_NoDup.
    - rewrite map_set_keys, H2, fmap_app. unfold first_seen. rewrite foldl_app. simpl. unfold includes.
      by repeat case_decide || case_bool_decide.
    - intros k b. rewrite map_set_elem by done. intros [[-> ->]|[Hne Hb]].
      + split_and!; [done|apply elem_of_app; right; by left|]. intros b [Hb|Hb%list_elem_of_singleton]%elem_of_app Hk; [|by subst].
        pose proof (H4 b Hb) as Hin. rewrite Hk in Hin. apply list_elem_of_fmap in Hin as ([k x] & Hkx & Hx). simpl in Hkx. subst k.
        destruct (H3 _ _ Hx) as (_ & _ & Hmax). specialize (Hmax b Hb Hk).
        apply map_get_elem in Hx; [|done]. rewrite He in Hx. specialize (Hts x Hx). lia.
      + destruct (H3 k b Hb) as (Hc & Hin & Hmax). split_and!; [done|apply elem_of_app; by left|].
        intros x [Hx|Hx%list_elem_of_singleton]%elem_of_app Hk; [by apply Hmax|]. subst x. done.
    - intros b Hb. rewrite map_set_keys. apply elem_of_app in Hb as [Hb|Hb%list_elem_of_singleton].
      + case_decide; [by apply H4|]. apply elem_of_app. left. by apply H4.
      + subst b. case_decide; [done|]. apply elem_of_app. right. by left. }
  unfold tab_insert. destruct (map_get (ae_camera_id a) m) as [e|] eqn:Ee; [|by apply (Hset None)].
  destruct (ae_ts e <? ae_ts a) eqn:Et; [apply (Hset (Some e)); [done|]; intros x [= ->]; lia|].
  pose proof (proj1 (map_get_elem _ _ _ H1) Ee) as Hin.
  assert (Hk : ae_camera_id a ∈ m.*1) by by apply (list_elem_of_fmap_2 fst _ (ae_camera_id a, e)).
  split; [done| | |].
  - rewrite fmap_app. unfold first_seen. rewrite foldl_app. simpl. fold (first_seen (ae_camera_id <$> l)). rewrite <- H2.
    unfold includes. by rewrite bool_decide_true.
  - intros k b Hb. destruct (H3 k b Hb) as (Hc & Hbl & Hmax). split_and!; [done|apply elem_of_app; by left|].
    intros x [Hx|Hx%list_elem_of_singleton]%elem_of_app Hxk; [by apply Hmax|]. subst x k.
    pose proof (NoDup_fmap_elem fst m _ _ H1 Hin Hb Hxk) as E. injection E as _ ->. lia.
  - intros b [Hb|Hb%list_elem_of_singleton]%elem_of_app; [by apply H4|]. by subst b.
Qed.

Lemma latest_alarm_max l a : latest_alarm l = Some a → a ∈ l ∧ ∀ b, b ∈ l → ae_ts b <= ae_ts a.
Proof.
  destruct l as [|x l]; [done|]. simpl. rewrite (proj2 (Z.ltb_ge (ae_ts x) (ae_ts x)) (Z.le_refl _)). intros [= <-].
  assert (H : ∀ r y, let z := foldl (λ a b, if ae_ts a <? ae_ts b then b else a) y r in
    z ∈ y :: r ∧ ae_ts y <= ae_ts z ∧ ∀ b, b ∈ r → ae_ts b <= ae_ts z).
  { induction r as [|c r IH]; intros y; simpl; [split_and!; [by left|lia|by intros ? ?%elem_of_nil]|].
    destruct (ae_ts y <? ae_ts c) eqn:E.
    - destruct (IH c) as (I1 & I2 & I3). split_and!; [by right|lia|]. intros b [->|Hb]%elem_of_cons; [done|by apply I3].
    - destruct (IH y) as (I1 & I2 & I3). split_and!; [|done|].
      + apply elem_of_cons in I1 as [I1|I1]; [rewrite I1; by left|]. right. by right.
      + intros b [->|Hb]%elem_of_cons; [lia|by apply I3]. }
  destruct (H l x) as (I1 & I2 & I3). split; [done|]. intros b [->|Hb]%elem_of_cons; [done|by apply I3].
Qed.

(** * Properties *)

(** The default attestations score MINIMAL. *)
Lemma initial_avs_minimal : previewAVSScore initial_avs = mkPreview 1 "MINIMAL" false.
Proof. reflexivity. Qed.

(** C21. Whatever the operator, the stream, the poll and the replies do, the investigation
    screen changes the store only through its actions, so that every invariant of the
    store holds during an investigation; each mounted view shows an alarm, has at most
    one suspended submission, and its Close button is disabled while it has one. *)
Theorem desk_refines_store now pre es :
  let s0 := run_ops pre (initial_state now) in
  let d := (desk_run es (initial_desk s0)).1 in
  (∃ ops, dk_store d = run_ops ops s0) ∧ store_inv (dk_store d) ∧ NoDup (calls d) ∧
  (∀ n v, dk_view d = Some (n, v) →
     is_Some (shown_alarm d) ∧ (n ∈ calls d → wf_submitting (vw_work v) = true)).
Proof.
  intros s0 d. destruct (desk_run_reaches es (initial_desk s0)) as [ops Hops]. fold d in Hops. simpl in Hops.
  destruct (desk_run_calls es (initial_desk s0) (initial_calls s0)) as [_ _ Ho Hb]. fold d in Ho, Hb.
  assert (Hinv : ∀ l s, store_inv s → store_inv (run_ops l s)).
  { intros l. induction l as [|op l IH]; intros s Hs; [done|]. by apply IH, inv_apply_op. }
  assert (Hsh : ∀ l d0, (∀ n v, dk_view d0 = Some (n, v) → is_Some (shown_alarm d0)) →
    ∀ n v, dk_view (desk_run l d0).1 = Some (n, v) → is_Some (shown_alarm (desk_run l d0).1)).
  { intros l. induction l as [|[t e] l IH]; intros d0 H0; [done|]. simpl.
    pose proof (desk_step_shown t e d0) as H1. destruct (desk_step t e d0) as [d1 f1]. simpl in H1.
    specialize (IH d1 H1). by destruct (desk_run l d1). }
  split_and!; [eauto|rewrite Hops; apply Hinv, Hinv, inv_initial|done|].
  intros n v Hv. split; [|by apply Hb]. by apply (Hsh es (initial_desk s0)) in Hv.
Qed.

(** A rejected record locks the screen: after the POST of a disposition fails, its view
    keeps saying that it is closing, and however often Close is pressed and whatever
    else happens no further record is posted until the view is left (released or
    navigated away from); the alarm stays active. *)
Theorem failed_submit_sticks t1 t2 d n v alarm c es :
  calls_inv d → n ∉ calls d → dk_view d = Some (n, v) → shown_alarm d = Some alarm →
  wf_disposition (vw_work v) = Some c → wf_submitting (vw_work v) = false →
  let d2 := (handle t2 (EventSettles n false) (handle t1 DoSubmit d).1).1 in
  let '(d3, f3) := desk_run es d2 in
  activeAlarm (dk_store d2) = activeAlarm (dk_store d) ∧
  (∀ v3, dk_view d3 = Some (n, v3) → wf_submitting (vw_work v3) = true ∧ posts f3 = []).
Proof.
  intros Hi Hn Hv Ha Hc Hs d2.
  assert (H1 : (handle t1 DoSubmit d).1 = (submit t1 n v alarm d).1) by (simpl; by rewrite Hv, Ha).
  pose proof (handle_calls t1 DoSubmit d Hi) as Hi1.
  assert (Hi2 : calls_inv d2) by by apply handle_calls.
  assert (Hact : activeAlarm (dk_store d2) = activeAlarm (dk_store d) ∧ view_stuck n d2).
  { unfold d2. rewrite H1 in *. unfold submit. rewrite Hc, Hs. simpl. unfold event_settles.
    edestruct (inflight_last n) as [-> _]; [simpl; reflexivity|exact Hn|]. simpl. split; [by case_match|]. eexists. split_and!; [done|done|]. by intros [? _]%calls_drop. }
  destruct Hact as [Hact Hst]. pose proof (run_stuck n es d2 Hi2 Hst) as H. destruct (desk_run es d2) as [d3 f3]. simpl in H.
  split; [done|]. intros v3 Hv3. destruct H as [[Hg _]|[(v' & Hv' & Hs' & _) Hp]]; [by apply Hg in Hv3|].
  rewrite Hv' in Hv3. by simplify_eq.
Qed.

(** An operator who has opened alarm a1 of the feed and chosen a disposition. *)
Definition clk : nat → Z := λ n, 1000 + Z.of_nat n.
Definition sample_desk : Desk :=
  (desk_run [(clk, StreamOp (OpAddAlert (sample_alert "a1"))); (clk, OpenAlarm (sample_alert "a1"));
             (clk, Navigate (Some "a1")); (clk, DoAct (ClickCard verified_other))] (initial_desk (initial_state 0))).1.
Definition sample_view : View := default initial_view (snd <$> dk_view sample_desk).
Definition sample_shown : AlertEvent := default (sample_alert "a1") (shown_alarm sample_desk).

Lemma sample_desk_calls : calls_inv sample_desk.
Proof. apply desk_run_calls, initial_calls. Qed.

Lemma failed_submit_sticks_witness :
  let d2 := (handle clk (EventSettles 0 false) (handle clk DoSubmit sample_desk).1).1 in
  activeAlarm (dk_store d2) = Some sample_shown ∧
  posts (desk_run [(clk, DoSubmit); (clk, DoSubmit)] d2).2 = [].
Proof.
  pose proof (failed_submit_sticks clk clk sample_desk 0 sample_view sample_shown verified_other
    [(clk, DoSubmit); (clk, DoSubmit)] sample_desk_calls ltac:(vm_compute; apply not_elem_of_nil)
    ltac:(vm_compute; reflexivity) ltac:(vm_compute; reflexivity) ltac:(vm_compute; reflexivity)
    ltac:(vm_compute; reflexivity)) as H. cbv zeta in H |- *.
  set (d2 := (handle clk (EventSettles 0 false) (handle clk DoSubmit sample_desk).1).1) in *.
  destruct (desk_run [(clk, DoSubmit); (clk, DoSubmit)] d2) as [d3 f3] eqn:E. destruct H as [H1 H2].
  split; [rewrite H1; vm_compute; reflexivity|].
  destruct (dk_view d3) as [[m v3]|] eqn:Ev.
  - assert (Hm : m = 0%nat).
    { assert (Hd : dk_view (desk_run [(clk, DoSubmit); (clk, DoSubmit)] d2).1 = Some (m, v3)) by (rewrite E; exact Ev).
      vm_compute in Hd. congruence. }
    subst m. apply (H2 v3 eq_refl).
  - exfalso. assert (Hd : dk_view (desk_run [(clk, DoSubmit); (clk, DoSubmit)] d2).1 = None) by (rewrite E; exact Ev).
    vm_compute in Hd. discriminate Hd.
Defined.

(** C20. A disposition is recorded once and then closes the alarm.  Close posts one record
    with the alarm's data, the code and its label, the notes and the attestations, and
    adds a log entry for the disposition and one for notes that are not blank; when the
    record is stored, and for an incident when its acknowledgement has settled either
    way, the alarm is resolved with that code and the log of its investigation, the
    operator is in wrap-up, the view is usable again and the console is opened.  The
    record is built before the closing entries exist: its log lacks the entries that the
    store keeps. *)
Theorem submission_exact t1 t2 t3 d n v alarm c :
  n ∉ calls d → dk_view d = Some (n, v) → shown_alarm d = Some alarm →
  wf_disposition (vw_work v) = Some c → wf_submitting (vw_work v) = false →
  let '(d1, f1) := handle t1 DoSubmit d in
  let '(d2, f2) := handle t2 (EventSettles n true) d1 in
  let '(d3, f3) := handle t3 (AckSettles n) d2 in
  let log := actionLog (dk_store d) in
  f1 = [PostEvent (event_payload alarm c (wf_notes (vw_work v)) log (wf_avs (vw_work v)))] ∧
  match dk_incident d with
  | None => f2 = [PushRoute "/operator"] ∧ f3 = [] ∧ incidents (dk_store d3) = incidents (dk_store d)
  | Some i =>
      f2 = [PostAck (si_id i)] ∧ f3 = [PushRoute "/operator"] ∧
      incidents (dk_store d3) = filter_where (λ x, negb (incident_is (si_id i) x)) (incidents (dk_store d))
  end ∧
  alarm_closed n alarm c (log ++ closing_entries t1 c (wf_notes (vw_work v)))%list
    (alarmsHandled (shiftStats (dk_store d))) d3.
Proof.
  intros Hn Hv Ha Hc Hs. pose proof (shown_active d alarm Ha) as Hact. simpl. rewrite Hv, Ha, (submit_eq t1 n v alarm d c Hc Hs).
  set (sub := mkSubmission _ c). unfold event_settles. set (d1 := with_inflight _ _).
  destruct (inflight_last n sub AwaitEvent (dk_inflight d) d1 eq_refl Hn) as [-> Hd]. cbn iota.
  destruct (dk_incident d) as [i|] eqn:Ei; cbn [sub_incident sub fmap option_fmap option_map].
  - unfold ack_settles. set (d2 := with_inflight _ d1).
    destruct (inflight_last n sub (AwaitAck (si_id i)) (dk_inflight d) d2) as [-> _]; [by unfold d2; rewrite Hd|done|].
    cbn iota. set (d3 := with_store _ d2).
    destruct (finish_closes t3 n c d3 (with_work (set_submitting true) v) alarm eq_refl Hact) as (H1 & H2 & H3).
    destruct (finish_submit t3 n (sub_code sub) d3) as [d4 f4] eqn:E4. change (sub_code sub) with c in E4. rewrite E4 in *. done.
  - destruct (finish_closes t2 n c d1 (with_work (set_submitting true) v) alarm eq_refl Hact) as (H1 & H2 & H3).
    change (sub_code sub) with c. destruct (finish_submit t2 n c d1) as [d4 f4] eqn:E4. simpl in *.
    unfold ack_settles. destruct (inflight_of n d4) as [e|] eqn:E5.
    + destruct (ac_settled _ _ _ _ _ _ H3). apply inflight_of_calls. eauto.
    + done.
Qed.

Lemma submission_exact_witness :
  ∃ payload d1, handle clk DoSubmit sample_desk = (d1, [PostEvent payload]) ∧
    (handle clk (EventSettles 0 true) d1).2 = [PushRoute "/operator"].
Proof.
  pose proof (submission_exact clk clk clk sample_desk 0 sample_view sample_shown verified_other
    ltac:(vm_compute; apply not_elem_of_nil) ltac:(vm_compute; reflexivity) ltac:(vm_compute; reflexivity)
    ltac:(vm_compute; reflexivity) ltac:(vm_compute; reflexivity)) as H.
  assert (Hi : dk_incident sample_desk = None) by (vm_compute; reflexivity). rewrite Hi in H.
  destruct (handle clk DoSubmit sample_desk) as [d1 f1]. destruct (handle clk (EventSettles 0 true) d1) as [d2 f2] eqn:E2.
  destruct (handle clk (AckSettles 0) d2) as [d3 f3]. destruct H as (H1 & (H2 & _) & _).
  eexists _, d1. split; [f_equal; exact H1|]. rewrite E2. exact H2.
Defined.

(** A submission closes whatever alarm is active when it settles.  If the operator
    releases the alarm while its record is being stored and engages another, the reply
    resolves the other alarm: it gets the first one's disposition, is dismissed from
    every feed, and no record of it was ever posted. *)
Theorem late_reply_closes_other t1 t2 t3 t4 t5 t6 d n v alarm c b :
  calls_inv d → n ∉ calls d → dk_view d = Some (n, v) → shown_alarm d = Some alarm →
  wf_disposition (vw_work v) = Some c → wf_submitting (vw_work v) = false → dk_incident d = None →
  isIncidentId (ae_id b) = false →
  let '(d', f) := desk_run [(t1, DoSubmit); (t2, DoAct ClickRelease); (t3, Navigate None); (t4, OpenAlarm b);
                            (t5, Navigate (Some (ae_id b))); (t6, EventSettles n true)] d in
  posts f = [PostEvent (event_payload alarm c (wf_notes (vw_work v)) (actionLog (dk_store d)) (wf_avs (vw_work v)))] ∧
  (∃ log at_, lastDisposition (dk_store d') = Some (mkLastDisposition b c log at_ (at_ - ae_ts b))) ∧
  ae_id b ∈ dismissedIds (dk_store d').
Proof.
  intros Hi Hn Hv Ha Hc Hs Hinc Hb. cbn [desk_run].
  set (sub := mkSubmission None c).
  assert (H1 : dk_inflight (desk_step t1 DoSubmit d).1 = (dk_inflight d ++ [(n, sub, AwaitEvent)])%list ∧
    posts (desk_step t1 DoSubmit d).2 = [PostEvent (event_payload alarm c (wf_notes (vw_work v)) (actionLog (dk_store d)) (wf_avs (vw_work v)))]).
  { rewrite desk_step_eq. cbn [fst snd]. destruct (commit_inflight (t1 2%nat) (handle t1 DoSubmit d).1) as [-> _].
    rewrite posts_app, commit_posts. simpl. rewrite Hv, Ha, (submit_eq t1 n v alarm d c Hc Hs), Hinc. done. }
  destruct H1 as [I1 P1]. destruct (desk_step t1 DoSubmit d) as [d1 f1]. simpl in I1, P1.
  destruct (quiet_step t2 (DoAct ClickRelease) d1 eq_refl) as [I2 P2].
  destruct (desk_step t2 (DoAct ClickRelease) d1) as [d2 f2]. simpl in I2, P2.
  destruct (quiet_step t3 (Navigate None) d2 eq_refl) as [I3 P3].
  assert (R3 : dk_route (desk_step t3 (Navigate None) d2).1 = None).
  { rewrite desk_step_eq. cbn [fst]. destruct (commit_inflight (t3 2%nat) (handle t3 (Navigate None) d2).1) as (_ & -> & _).
    simpl. by destruct (open_inflight None d2) as (_ & _ & _ & ? & _). }
  destruct (desk_step t3 (Navigate None) d2) as [d3 f3]. simpl in I3, P3, R3.
  destruct (quiet_step t4 (OpenAlarm b) d3 eq_refl) as [I4 P4].
  assert (A4 : activeAlarm (dk_store (desk_step t4 (OpenAlarm b) d3).1) = Some b).
  { rewrite desk_step_eq. cbn [fst]. rewrite commit_store. simpl. rewrite R3. simpl. unfold find_effect. simpl. rewrite R3. simpl.
    apply engage_active. }
  destruct (desk_step t4 (OpenAlarm b) d3) as [d4 f4]. simpl in I4, P4, A4.
  destruct (quiet_step t5 (Navigate (Some (ae_id b))) d4 eq_refl) as [I5 P5].
  assert (A5 : activeAlarm (dk_store (desk_step t5 (Navigate (Some (ae_id b))) d4).1) = Some b).
  { rewrite desk_step_eq. cbn [fst]. rewrite commit_store. simpl. destruct (open_inflight (Some (ae_id b)) d4) as (_ & _ & Hst & Hr & _).
    unfold find_effect. rewrite Hr, Hb, Hst, A4. unfold alert_is. rewrite String.eqb_refl. by rewrite Hst. }
  destruct (desk_step t5 (Navigate (Some (ae_id b))) d4) as [d5 f5]. simpl in I5, P5, A5.
  destruct (inflight_last n sub AwaitEvent (dk_inflight d) d5) as [Hf _]; [congruence|done|].
  pose proof (settle_view t6 (EventSettles n true) d5 n ltac:(eauto)) as (_ & P6 & _).
  rewrite desk_step_eq. rewrite !posts_app, P1, P2, P3, P4, P5, P6, commit_posts. split; [done|].
  cbn [fst]. rewrite commit_store. set (d6 := (handle t6 (EventSettles n true) d5).1).
  destruct (find_effect_kept (t6 2%nat) d6) as [-> ->].
  assert (E6 : dk_store d6 = resolveAlarm (t6 0%nat) c (dk_store d5)).
  { unfold d6. simpl. unfold event_settles. rewrite Hf. simpl. unfold finish_submit. by repeat case_match. }
  rewrite E6. destruct (resolve_active (t6 0%nat) c b (dk_store d5) A5) as (_ & _ & _ & -> & _ & -> & _).
  split; [eauto|apply elem_of_dismiss].
Qed.

Lemma late_reply_closes_other_witness :
  "b1" ∈ dismissedIds (dk_store (desk_run [(clk, DoSubmit); (clk, DoAct ClickRelease); (clk, Navigate None);
    (clk, OpenAlarm (sample_alert "b1")); (clk, Navigate (Some "b1")); (clk, EventSettles 0 true)] sample_desk).1).
Proof.
  pose proof (late_reply_closes_other clk clk clk clk clk clk sample_desk 0 sample_view sample_shown verified_other
    (sample_alert "b1") sample_desk_calls
    ltac:(vm_compute; apply not_elem_of_nil) ltac:(vm_compute; reflexivity) ltac:(vm_compute; reflexivity)
    ltac:(vm_compute; reflexivity) ltac:(vm_compute; reflexivity) ltac:(vm_compute; reflexivity)
    ltac:(vm_compute; reflexivity)) as H. change (ae_id (sample_alert "b1")) with "b1" in H.
  destruct (desk_run _ sample_desk) as [d' f]. apply H.
Defined.

(** The store after a submission without incident settled. *)
Lemma settled_store t n d sub a :
  inflight_of n d = Some (n, sub, AwaitEvent) → sub_incident sub = None → activeAlarm (dk_store d) = Some a →
  let h := (handle t (EventSettles n true) d).1 in
  dk_store h = resolveAlarm (t 0%nat) (sub_code sub) (dk_store d) ∧ dk_route h = dk_route d ∧ dk_rest h = dk_rest d ∧
  dk_loading h = dk_loading d.
Proof.
  intros Hf Hs Ha. simpl. unfold event_settles. rewrite Hf, Hs. unfold finish_submit. by repeat case_match.
Qed.

Lemma fmap_id_ack id l : ae_id <$> map_where (alert_is id) set_acknowledged l = ae_id <$> l.
Proof. by apply fmap_map_where. Qed.

Lemma incident_route_quiet t d id : dk_route d = Some id → isIncidentId id = true → find_effect t d = d.
Proof. intros Hr Hi. unfold find_effect. by rewrite Hr, Hi. Qed.

(** On the page of an alarm, closing and releasing do not last.  As soon as the store
    has no active alarm, the page's effect finds the alarm of the route again, which is
    still in the feed or in the poll, and engages it: after a stored disposition the
    operator is engaged instead of in wrap-up, and after a release the alarm is claimed
    again; leaving the page keeps it so.  On the page of an incident the operator ends
    in wrap-up, or available, with no active alarm. *)
Theorem closed_alarm_reengaged t t' d n v sub id a :
  dk_route d = Some id → dk_view d = Some (n, v) → shown_alarm d = Some a →
  inflight_of n d = Some (n, sub, AwaitEvent) → sub_incident sub = None →
  id ∈ ae_id <$> (alertFeed (dk_store d) ++ dk_rest d)%list →
  let closed := (desk_step t (EventSettles n true) d).1 in
  let released := (desk_step t (DoAct ClickRelease) d).1 in
  if isIncidentId id then
    activeAlarm (dk_store closed) = None ∧ operatorStatus (dk_store closed) = wrap_up ∧
    activeAlarm (dk_store released) = None ∧ operatorStatus (dk_store released) = available
  else
    ∀ d', d' = closed ∨ d' = released →
      ∃ b, ae_id b = id ∧
        activeAlarm (dk_store d') = Some b ∧ operatorStatus (dk_store d') = engaged ∧
        dk_store (desk_step t' (Navigate None) d').1 = dk_store d'.
Proof.
  intros Hr Hv Ha Hf Hs Hin. pose proof (shown_active d a Ha) as Hact.
  destruct (settled_store t n d sub a Hf Hs Hact) as (E1 & E2 & E3 & _).
  set (hc := (handle t (EventSettles n true) d).1) in *.
  pose proof (resolve_active (t 0%nat) (sub_code sub) a (dk_store d) Hact) as (C1 & C2 & _ & _ & _ & _ & C3).
  assert (Hrel : ∃ hr, (handle t (DoAct ClickRelease) d).1 = hr ∧ dk_store hr = abandonAlarm (dk_store d) ∧
    dk_route hr = Some id ∧ dk_rest hr = dk_rest d) by (simpl; rewrite Hv, Ha; eauto).
  destruct Hrel as (hr & Er & R1 & R2 & R3).
  assert (Hab : activeAlarm (abandonAlarm (dk_store d)) = None ∧ operatorStatus (abandonAlarm (dk_store d)) = available ∧
    ae_id <$> alertFeed (abandonAlarm (dk_store d)) = ae_id <$> alertFeed (dk_store d)).
  { unfold abandonAlarm. rewrite Hact. simpl. split_and!; [done|done|]. unfold releaseAlert. simpl. by apply fmap_map_where. }
  destruct Hab as (B1 & B2 & B3). rewrite !desk_step_eq. cbn [fst]. rewrite Er. fold hc.
  destruct (isIncidentId id) eqn:Hinc.
  - rewrite !commit_store, (incident_route_quiet _ hc id), (incident_route_quiet _ hr id) by congruence.
    rewrite E1, R1. done.
  - assert (Hgo : ∀ h, dk_route h = Some id → activeAlarm (dk_store h) = None →
      ae_id <$> alertFeed (dk_store h) = ae_id <$> alertFeed (dk_store d) → dk_rest h = dk_rest d →
      ∃ b, ae_id b = id ∧ activeAlarm (dk_store (commit (t 2%nat) h).1) = Some b ∧
        operatorStatus (dk_store (commit (t 2%nat) h).1) = engaged ∧
        dk_store (desk_step t' (Navigate None) (commit (t 2%nat) h).1).1 = dk_store (commit (t 2%nat) h).1).
    { intros h H1 H2 H3 H4. destruct (find_effect_engages (t 2%nat) h id H1 Hinc H2) as (b & Hb & Hb1 & Hb2).
      { rewrite fmap_app, H3, H4, <- fmap_app. exact Hin. }
      exists b. rewrite !commit_store. split_and!; [done..|]. rewrite desk_step_eq. cbn [fst]. rewrite commit_store. simpl.
      destruct (open_inflight None (commit (t 2%nat) h).1) as (_ & _ & Hst & Hrt & _).
      unfold find_effect at 1. rewrite Hrt, Hst. apply commit_store. }
    intros d' [->| ->]; apply Hgo; try congruence.
    + rewrite E1, C3. apply fmap_id_ack.
Qed.

Definition submitted_desk : Desk := (desk_step clk DoSubmit sample_desk).1.

Lemma closed_alarm_reengaged_witness :
  let d' := (desk_step clk (EventSettles 0 true) submitted_desk).1 in
  is_Some (lastDisposition (dk_store d')) ∧ ∃ b, ae_id b = "a1" ∧ activeAlarm (dk_store d') = Some b.
Proof.
  pose proof (closed_alarm_reengaged clk clk submitted_desk 0 (with_work (set_submitting true) sample_view)
    (mkSubmission None verified_other) "a1" sample_shown
    ltac:(vm_compute; reflexivity) ltac:(vm_compute; reflexivity) ltac:(vm_compute; reflexivity)
    ltac:(vm_compute; reflexivity) ltac:(reflexivity) ltac:(vm_compute; by left)) as H.
  change (isIncidentId "a1") with false in H. cbv zeta iota in H |- *.
  destruct (H _ (or_introl eq_refl)) as (b & Hb & Ha & _). split; [|exists b; split; [exact Hb|exact Ha]].
  vm_compute. eexists. reflexivity.
Defined.

(** Every disposition has exactly one shortcut: F or V and then a digit from 1 to 5,
    upper or lower case, selects the option of that number in its column, as a click on
    its unselected card does, and ends the prefix; a digit without prefix, any other key,
    and any key typed into a field selects nothing. *)
Theorem shortcuts_exact :
  (∀ p i pk dk v, pk ∈ prefix_keys p → digit_keys !! i = Some dk →
     ∃ c, shortcut p i = Some c ∧
       let v1 := (handle_key false pk v).1 in
       let '(v2, f) := handle_key false dk v1 in
       wf_disposition (vw_work v2) = Some c ∧ vw_keys v2 = mkKeys None false ∧ f = [PreventDefault] ∧
       (wf_disposition (vw_work v) ≠ Some c → vw_work v2 = vw_work (click_card c v))) ∧
  (∀ c, ∃ p i, shortcut p i = Some c ∧ (i < 5)%nat ∧ ∀ p' i', shortcut p' i' = Some c → p' = p ∧ i' = i) ∧
  (∀ k v, handle_key true k v = (v, [])) ∧
  (∀ k v, ky_prefix (vw_keys v) = None ∨ (∀ d, key_digit k = Some d → d < 1 ∨ 5 < d) →
     vw_work (handle_key false k v).1 = vw_work v) ∧
  (∀ v, ky_timer (vw_keys v) = true → ky_prefix (vw_keys (key_timer v)) = None).
Proof.
  split_and!.
  - intros p i pk dk v Hp Hd. assert (Hi : (i < 5)%nat) by (apply lookup_lt_Some in Hd; exact Hd).
    assert (Hc : is_Some (shortcut p i)) by (do 5 (destruct i as [|i]; [by destruct p; eexists|]); lia).
    destruct Hc as [c Hc]. exists c. split; [done|]. rewrite (handle_key_prefix p pk v Hp). cbn [fst].
    rewrite (handle_key_digit p i dk (with_keys (mkKeys (Some p) true) v) c eq_refl Hd Hc). split_and!; [done..|]. intros Hne. unfold click_card. simpl.
    by rewrite bool_decide_false.
  - intros c. assert (Hex : ∃ p i, shortcut p i = Some c ∧ (i < 5)%nat).
    { destruct c; [exists prefix_f, 0%nat|exists prefix_f, 1%nat|exists prefix_f, 2%nat|exists prefix_f, 3%nat|exists prefix_f, 4%nat
        |exists prefix_v, 0%nat|exists prefix_v, 1%nat|exists prefix_v, 2%nat|exists prefix_v, 3%nat|exists prefix_v, 4%nat];
        (split; [reflexivity|lia]). }
    destruct Hex as (p & i & Hc & Hi). exists p, i. split_and!; [done|done|]. intros p' i' Hc'.
    assert (Hi' : (i' < 5)%nat).
    { unfold shortcut in Hc'. destruct (options_of (prefix_category p') !! i') eqn:E; [|done].
      apply lookup_lt_Some in E. by destruct p'. }
    destruct p, p';
      do 5 (destruct i as [|i]; [do 5 (destruct i' as [|i']; [vm_compute in Hc, Hc'; try (by split); congruence|]); lia|]); lia.
  - done.
  - intros k v Hor. unfold handle_key. cbn [fst snd]. repeat case_match; try done; simpl in *.
    all: destruct Hor as [?|Hd]; [congruence|]; exfalso.
    all: match goal with H : (1 <=? ?z) && (?z <=? 5) = true |- _ => apply andb_true_iff in H as [?%Z.leb_le ?%Z.leb_le]; destruct (Hd z); [done|lia|lia] end.
  - intros v Ht. unfold key_timer. by rewrite Ht.
Qed.

(** A checklist remembers what was clicked: from the loaded procedures on, and after any
    clicks on the rendered boxes, a step is checked exactly when its box was clicked an
    odd number of times; the progress counts the checked steps, never exceeds the number
    of steps, and says done exactly when the procedure has steps and all are checked. *)
Theorem checklist_exact sops clicks s :
  NoDup (sop_id <$> sops) → Forall (rendered sops) clicks → s ∈ sops →
  let c := checks_after sops clicks in
  let n := length (sop_steps s) in
  (∀ i, (i < n)%nat → step_checked (sop_id s) i c = Nat.odd (clicks_on (sop_id s) i clicks)) ∧
  (sop_progress c s).1.1 = length (filter_where (λ i, step_checked (sop_id s) i c) (seq 0 n)) ∧
  ((sop_progress c s).1.1 <= (sop_progress c s).1.2)%nat ∧ (sop_progress c s).1.2 = n ∧
  ((sop_progress c s).2 = true ↔ (0 < n)%nat ∧ ∀ i, (i < n)%nat → step_checked (sop_id s) i c = true).
Proof.
  intros Hnd Hc Hs c n. pose proof (checks_after_lookup sops clicks s Hnd Hc Hs) as Hl. fold c n in Hl.
  set (f := λ i, Nat.odd (clicks_on (sop_id s) i clicks)) in *.
  assert (Hf : ∀ i, (i < n)%nat → step_checked (sop_id s) i c = f i).
  { intros i Hi. assert (E : (f <$> seq 0 n) !! i = Some (f i)) by by rewrite list_lookup_fmap, lookup_seq_lt.
    unfold step_checked. rewrite Hl. transitivity (default false ((f <$> seq 0 n) !! i)); [done|by rewrite E]. }
  assert (Hlen : ∀ (g : nat → bool) l, length (filter_where id (g <$> l)) = length (filter_where g l)).
  { intros g l. induction l as [|x l IH]; [done|]. rewrite fmap_cons.
    assert (E : ∀ {A} (h : A → bool) y k, length (filter_where h (y :: k)) = ((if h y then 1 else 0) + length (filter_where h k))%nat).
    { intros A h y k. unfold filter_where. rewrite filter_cons. by destruct (h y). }
    by rewrite !E, IH. }
  assert (Hle : (length (filter_where id (f <$> seq 0 n)) <= n)%nat).
  { etrans; [apply length_filter_where|]. by rewrite length_fmap, length_seq. }
  set (k := length (filter_where id (f <$> seq 0 n))) in *.
  assert (Hp : sop_progress c s = (k, n, (k =? n)%nat && (0 <? n)%nat)) by by unfold sop_progress; rewrite Hl.
  rewrite Hp. cbn [fst snd].
  split_and!; [exact Hf| |done|done|].
  - unfold k. rewrite Hlen. f_equal. apply filter_where_ext. intros i Hi%elem_of_seq.
    by rewrite Hf by lia.
  - rewrite andb_true_iff, Nat.eqb_eq, Nat.ltb_lt. fold n.
    pose proof (filter_id_full (f <$> seq 0 n)) as Hfull. rewrite length_fmap, length_seq in Hfull. fold k in Hfull. rewrite Hfull.
    rewrite Forall_fmap, Forall_seq. split.
    + intros [Hall Hn]. split; [done|]. intros i Hi. rewrite Hf by done. apply Hall. lia.
    + intros [Hn Hall]. split; [|done]. intros i Hi. simpl. rewrite <- Hf by lia. apply Hall. lia.
Qed.

Definition sample_sop : SiteSOP := mkSiteSOP "sop-1" "Intrusion" "emergency" "high" ["Call"; "Log"] [].

Lemma checklist_exact_witness :
  (sop_progress (checks_after [sample_sop] [("sop-1", 0%nat); ("sop-1", 1%nat)]) sample_sop).2 = true.
Proof.
  destruct (checklist_exact [sample_sop] [("sop-1", 0%nat); ("sop-1", 1%nat)] sample_sop) as (H1 & _ & _ & _ & H5).
  - apply NoDup_singleton.
  - repeat constructor; exists sample_sop; (split; [by left|split; [reflexivity|simpl; lia]]).
  - by left.
  - apply H5. split; [simpl; lia|]. intros i Hi. rewrite H1 by exact Hi. simpl in Hi.
    destruct i as [|[|i]]; [reflexivity|reflexivity|lia].
Defined.

(** The camera strip of an incident has one tab per camera that raised an alarm, in
    order of first appearance, and the tab opens the latest alarm of its camera. *)
Theorem camera_tabs_exact l :
  let tabs := uniqueCamAlarms l in
  ae_camera_id <$> tabs = first_seen (ae_camera_id <$> l) ∧ NoDup (ae_camera_id <$> tabs) ∧
  (∀ a, a ∈ tabs → a ∈ l ∧ ∀ b, b ∈ l → ae_camera_id b = ae_camera_id a → ae_ts b <= ae_ts a) ∧
  (∀ b, b ∈ l → ∃ a, a ∈ tabs ∧ ae_camera_id a = ae_camera_id b).
Proof.
  intros tabs. destruct (tabs_foldl l) as [H1 H2 H3 H4]. unfold tabs, uniqueCamAlarms. set (m := foldl tab_insert [] l) in *.
  assert (Hk : ae_camera_id <$> m.*2 = m.*1).
  { rewrite <- list_fmap_compose. apply list_fmap_ext. intros i [k a] Hi. simpl.
    apply list_elem_of_lookup_2, H3 in Hi. by destruct Hi. }
  rewrite Hk. split_and!; [done|done| |].
  - intros a ([k b] & -> & Ha)%list_elem_of_fmap. destruct (H3 _ _ Ha) as (Hc & Hin & Hmax). simpl. by rewrite Hc.
  - intros b Hb. pose proof (H4 b Hb) as Hin. rewrite <- Hk in Hin. apply list_elem_of_fmap in Hin as (a & Ha & Hina). eauto.
Qed.

(** The reply for an incident engages its latest alarm, unless that alarm was already
    active when the incident was asked for; it does so even when the operator has left
    the page before it arrives, and then nothing of the page changes but the operator is
    engaged with an alarm that no screen shows.  A reply without alarms, like a failed
    one, leaves the store alone. *)
Theorem incident_engages_latest t id seen inc alarms d :
  let d' := (handle t (IncidentArrives id seen inc alarms) d).1 in
  let mapped := map_alarm inc <$> alarms in
  match latest_alarm mapped with
  | None => alarms = [] ∧ dk_store d' = dk_store d
  | Some a =>
      a ∈ mapped ∧ (∀ b, b ∈ mapped → ae_ts b <= ae_ts a) ∧
      (seen = Some (ae_id a) → dk_store d' = dk_store d) ∧
      (seen ≠ Some (ae_id a) →
         activeAlarm (dk_store d') = Some a ∧ operatorStatus (dk_store d') = engaged ∧
         (dk_route d = None → dk_children d' = dk_children d ∧ shown_alarm d' = None))
  end ∧
  dk_store (handle t (IncidentFails id) d).1 = dk_store d.
Proof.
  intros d' mapped. split; [|simpl; unfold incident_fails; by case_match].
  unfold d'. simpl. unfold incident_arrives. fold mapped. destruct (latest_alarm mapped) as [a|] eqn:El.
  - destruct (latest_alarm_max mapped a El) as [Hin Hmax]. split_and!; [done|done| |].
    + intros ->. rewrite (bool_decide_true (Some (ae_id a) = Some (ae_id a))) by done. by case_match.
    + intros Hne. rewrite (bool_decide_false (seen = _)) by done. simpl.
      split_and!; [apply engage_active|apply engage_active|]. intros Hr. rewrite Hr, bool_decide_false by done.
      split; [done|]. unfold shown_alarm. simpl. by rewrite Hr.
  - split; [|by case_match]. destruct alarms as [|x r]; [done|]. simpl in El. by rewrite Z.ltb_irrefl in El.
Qed.
