(* ===== verification/Console.v ===== *)
(** * The dispatch console

    [app/operator/page.tsx] and the panels it shows: the alert feed, the wrap-up overlay
    with its countdown, the evidence report, shift handoff, the operator roster, SLA
    timers and alert toasts.  The console is a state machine over the store; after every
    handler React runs the status guard and mounts or unmounts the overlay. *)

From S2P Require Import Prelude Types Http IronsightApi OperatorStore.
From stdpp Require Import pretty gmap.
#[local] Open Scope string_scope.
#[local] Open Scope Z_scope.

(** ** The alerts on display *)

(** The poll first, then what the stream pushed and the poll does not have. *)
Definition merge_alerts (rest feed : list AlertEvent) : list (string * AlertEvent) :=
  foldl (λ m a, match map_get (ae_id a) m with Some _ => m | None => map_set (ae_id a) a m end)
    (foldl (λ m a, map_set (ae_id a) a m) [] rest) feed.

Definition ts_le (a b : AlertEvent) : bool := ae_ts b - ae_ts a <=? 0.

Definition displayAlerts (rest feed : list AlertEvent) (dismissed : list string) : list AlertEvent :=
  sort_by ts_le
    (filter_where (λ a, negb (ae_acknowledged a) && negb (includes (ae_id a) dismissed)) (merge_alerts rest feed).*2).

Definition unackedAlarms (l : list AlertEvent) : nat := length (filter_where (λ a, negb (ae_acknowledged a)) l).

(** Fleet totals over the sites; missing counts read as 0. *)
Record SiteCounts := mkSiteCounts { sc_cameras_online : option Z; sc_cameras_total : option Z }.

Definition totalOnline (sites : list SiteCounts) : Z := foldl (λ n s, n + default 0 (sc_cameras_online s)) 0 sites.
Definition totalDegraded (sites : list SiteCounts) : Z :=
  foldl (λ n s, n + (default 0 (sc_cameras_total s) - default 0 (sc_cameras_online s))) 0 sites.

Definition statusLabel (s : OperatorStatus) : string :=
  match s with
  | available => "AVAILABLE"
  | engaged => "ENGAGED"
  | wrap_up => "WRAP-UP"
  | break_ => "ON BREAK"
  | away => "AWAY"
  end.

(** [queueDepth >= 3], and the locks of the operator, on the status bar. *)
Definition queue_urgent (n : Z) : bool := 3 <=? n.
Definition my_locks (s : OperatorState) : list SiteLock :=
  filter_where (λ l, bool_decide (Some (sl_operator_id l) = op_id <$> currentOperator s)) (map_to_list (siteLocks s)).*2.

(** ** The feed *)

Inductive FeedFilter := ff_all | ff_severity (s : Severity).

Definition passes (f : FeedFilter) (s : Severity) : bool :=
  match f with ff_all => true | ff_severity x => bool_decide (s = x) end.

Definition filteredIncidents (f : FeedFilter) (l : list SOCIncident) : list SOCIncident :=
  match f with ff_all => l | ff_severity _ => filter_where (λ i, passes f (si_severity i)) l end.

Definition in_incident (a : AlertEvent) : bool := truthy_ostr (ae_incident_id a).

Definition orphanAlerts (f : FeedFilter) (l : list AlertEvent) : list AlertEvent :=
  filter_where (λ a, negb (in_incident a) && negb (ae_acknowledged a) && passes f (ae_severity a)) l.

Definition unackCount (incidents : list SOCIncident) (l : list AlertEvent) : nat :=
  (length (filter_where (λ i, bool_decide (si_status i = si_active)) incidents) +
   length (filter_where (λ a, negb (ae_acknowledged a) && negb (in_incident a)) l))%nat.

(** The alarm that a click on an incident opens without a handler for incidents. *)
Definition incident_alarm (id : string) (l : list AlertEvent) : option AlertEvent :=
  head (sort_by ts_le (filter_where (alert_of_incident id) l)).

Inductive Ownership := unowned | owned_mine | owned_other.

Definition getOwnershipClass (op : option SOCOperator) (a : AlertEvent) : Ownership :=
  if negb (truthy_ostr (ae_assigned_operator_id a)) then unowned
  else if bool_decide (ae_assigned_operator_id a = op_id <$> op) then owned_mine else owned_other.

Definition getEscalationLabel (level : Z) : string := if level <=? 0 then "ESC 0" else "ESC " +:+ pretty level.
Definition ESCALATION_COLORS : list string := ["#4A5268"; "#E89B2A"; "#EF4444"; "#FF0055"].
(** [ESCALATION_COLORS[Math.min(level, length - 1)]] *)
Definition escalationColor (level : Z) : option string :=
  if level <? 0 then None
  else ESCALATION_COLORS !! Z.to_nat (Z.min level (Z.of_nat (length ESCALATION_COLORS) - 1)).

Inductive ConsoleEffect :=
| ApiClaim (alert operator callsign : string)
| ApiRelease (alert : string)
| Call (c : ApiCall)
| Push (path : string).

Definition handleClaim (id : string) (s : OperatorState) : OperatorState * list ConsoleEffect :=
  match currentOperator s with
  | None => (s, [])
  | Some op => (OperatorStore.claimAlert id s, [ApiClaim id (op_id op) (op_callsign op)])
  end.

Definition handleRelease (id : string) (s : OperatorState) : OperatorState * list ConsoleEffect :=
  (OperatorStore.releaseAlert id s, [ApiRelease id]).

(** ** SLA and durations *)

(** The countdown of [SLATimer]. *)
Definition sla_text (remaining : Z) : string :=
  let a := Z.abs remaining in
  (if remaining <=? 0 then "-" else EmptyString) +:+ pretty (a / 60000) +:+ ":" +:+ pad_start 2 (a mod 60000 / 1000).
Definition sla_color (remaining : Z) : string :=
  if remaining <=? 0 then "#EF4444"
  else if remaining <? 15000 then "#EF4444"
  else if remaining <? 60000 then "#E89B2A" else "#22C55E".

(** The wrap-up overlay's verdict: [slaMs ? resolvedAt <= slaMs ? 'met' : 'missed' : 'n/a']. *)
Definition slaStatus (d : LastDisposition) : string :=
  match ae_sla_deadline_ms (ld_alarm d) with
  | Some ms => if ms =? 0 then "n/a" else if ld_resolvedAt d <=? ms then "met" else "missed"
  | None => "n/a"
  end.

Definition slaCompliance (st : ShiftStats) : Z :=
  if 0 <? alarmsHandled st then round_div ((alarmsHandled st - slaMissed st) * 100) (alarmsHandled st) else 100.

Definition format_wrapup (ms : Z) : string :=
  let s := ms / 1000 in
  if s <? 60 then pretty s +:+ "s"
  else let m := s / 60 in
  if m <? 60 then pretty m +:+ "m " +:+ pretty (s mod 60) +:+ "s"
  else pretty (m / 60) +:+ "h " +:+ pretty (m mod 60) +:+ "m".

Definition format_report (ms : Z) : string :=
  let s := ms / 1000 in
  if s <? 60 then pretty s +:+ "s" else pretty (s / 60) +:+ "m " +:+ pretty (s mod 60) +:+ "s".

Definition formatShiftDuration (now start : Z) : string :=
  let ms := now - start in
  let h := ms / 3600000 in
  let m := Z.rem ms 3600000 / 60000 in
  if h =? 0 then pretty m +:+ "m" else pretty h +:+ "h " +:+ pretty m +:+ "m".

Definition manual_actions (d : LastDisposition) : nat := length (filter_where (λ e, negb (le_auto e)) (ld_actionLog d)).

(** ** The console *)

Definition WRAPUP_SECONDS : Z := 60.

Record Console := mkConsole {
  cs_store : OperatorState;
  cs_handoff : bool;
  cs_shortcuts : bool;
  cs_evidence : bool;
  cs_picker : bool;
  cs_countdown : option Z     (* the countdown of the mounted overlay *)
}.

Definition initial_console (s : OperatorState) : Console := mkConsole s false false false false None.

Definition upd_store (s : OperatorState) (c : Console) : Console :=
  mkConsole s (cs_handoff c) (cs_shortcuts c) (cs_evidence c) (cs_picker c) (cs_countdown c).
Definition upd_countdown (n : option Z) (c : Console) : Console :=
  mkConsole (cs_store c) (cs_handoff c) (cs_shortcuts c) (cs_evidence c) (cs_picker c) n.

(** [operatorStatus === 'wrap_up' && lastDisposition] *)
Definition overlay_shown (s : OperatorState) : bool :=
  match operatorStatus s, lastDisposition s with wrap_up, Some _ => true | _, _ => false end.

(** [showEvidence && lastDisposition] *)
Definition evidence_shown (c : Console) : bool :=
  cs_evidence c && (match lastDisposition (cs_store c) with Some _ => true | None => false end).

(** The status guard. *)
Definition status_guard (s : OperatorState) : OperatorState * list ApiCall :=
  let '(s1, f1) := match operatorStatus s, activeAlarm s with
                   | engaged, None => setOperatorStatus available s
                   | _, _ => (s, [])
                   end in
  let '(s2, f2) := match operatorStatus s, lastDisposition s with
                   | wrap_up, None => setOperatorStatus available s1
                   | _, _ => (s1, [])
                   end in
  (s2, (f1 ++ f2)%list).

(** Mounting of the overlay, and its effect when the countdown has run out. *)
Definition overlay_effect (c : Console) : Console :=
  if overlay_shown (cs_store c) then
    match cs_countdown c with
    | None => upd_countdown (Some WRAPUP_SECONDS) c
    | Some n => if n <=? 0 then upd_countdown None (upd_store (exitWrapUp (cs_store c)) c) else c
    end
  else upd_countdown None c.

Definition console_commit (c : Console) : Console * list ConsoleEffect :=
  let '(s, f) := status_guard (cs_store c) in (overlay_effect (upd_store s c), Call <$> f).

(** The keys of the console. *)
Definition console_key (editable : bool) (key : string) (shift : bool) (c : Console) : Console :=
  if editable then c
  else
    let c1 := if String.eqb key "?" || (String.eqb key "/" && shift)
              then mkConsole (cs_store c) (cs_handoff c) (negb (cs_shortcuts c)) (cs_evidence c) (cs_picker c) (cs_countdown c) else c in
    let c2 := if String.eqb key "h" || String.eqb key "H"
              then mkConsole (cs_store c1) (negb (cs_handoff c1)) (cs_shortcuts c1) (cs_evidence c1) (cs_picker c1) (cs_countdown c1) else c1 in
    let c3 := if String.eqb key "m" || String.eqb key "M"
              then upd_store (setAudioMuted (negb (audioMuted (cs_store c2))) (cs_store c2)) c2 else c2 in
    if String.eqb key "Escape" then mkConsole (cs_store c3) false false false false (cs_countdown c3) else c3.

Definition click_status (c : Console) : Console :=
  match operatorStatus (cs_store c) with
  | engaged | wrap_up => c
  | _ => mkConsole (cs_store c) (cs_handoff c) (cs_shortcuts c) (cs_evidence c) (negb (cs_picker c)) (cs_countdown c)
  end.

(** The three entries of the picker. *)
Inductive Picked := pick_available | pick_break | pick_away.
Definition picked_status (p : Picked) : OperatorStatus :=
  match p with pick_available => available | pick_break => break_ | pick_away => away end.

Definition pick_status (p : Picked) (c : Console) : Console * list ConsoleEffect :=
  if cs_picker c then
    let '(s, f) := setOperatorStatus (picked_status p) (cs_store c) in
    (mkConsole s (cs_handoff c) (cs_shortcuts c) (cs_evidence c) false (cs_countdown c), Call <$> f)
  else (c, []).

Definition set_evidence (b : bool) (c : Console) : Console :=
  mkConsole (cs_store c) (cs_handoff c) (cs_shortcuts c) b (cs_picker c) (cs_countdown c).

Inductive ConsoleEvent :=
| ConsoleKey (editable : bool) (key : string) (shift : bool)
| ClickStatus
| PickStatus (p : Picked)
| ClickAlert (now : Z) (a : AlertEvent)
| ClickIncident (id : string)
| ClaimClick (id : string)
| ReleaseClick (id : string)
| OverlayTick
| ReadyClick
| EvidenceClick
| EvidenceClose
| StoreAction (op : Op).

Definition console_handle (e : ConsoleEvent) (c : Console) : Console * list ConsoleEffect :=
  match e with
  | ConsoleKey ed k sh => (console_key ed k sh c, [])
  | ClickStatus => (click_status c, [])
  | PickStatus p => pick_status p c
  | ClickAlert now a => (upd_store (engageAlarm now a (cs_store c)) c, [Push ("/operator/alarm/" +:+ ae_id a)])
  | ClickIncident id => (c, [Push ("/operator/alarm/" +:+ id)])
  | ClaimClick id => let '(s, f) := handleClaim id (cs_store c) in (upd_store s c, f)
  | ReleaseClick id => let '(s, f) := handleRelease id (cs_store c) in (upd_store s c, f)
  | OverlayTick => (match cs_countdown c with Some n => upd_countdown (Some (n - 1)) c | None => c end, [])
  | ReadyClick => (if overlay_shown (cs_store c) then upd_store (exitWrapUp (cs_store c)) c else c, [])
  | EvidenceClick => (if overlay_shown (cs_store c) then set_evidence true c else c, [])
  | EvidenceClose => (if evidence_shown c then set_evidence false c else c, [])
  | StoreAction op => let '(s, f) := apply_op op (cs_store c) in (upd_store s c, Call <$> f)
  end.

Definition console_step (e : ConsoleEvent) (c : Console) : Console * list ConsoleEffect :=
  let '(c1, f1) := console_handle e c in
  let '(c2, f2) := console_commit c1 in (c2, (f1 ++ f2)%list).

Definition console_run (es : list ConsoleEvent) (c : Console) : Console := foldl (λ c e, (console_step e c).1) c es.

(** Arriving on the console: the first commit. *)
Definition open_console (s : OperatorState) : Console := (console_commit (initial_console s)).1.

(** ** The evidence report *)

Definition report_notes (d : LastDisposition) : option string :=
  le_text <$> find_where (λ e, String.prefix "Notes:" (le_text e)) (ld_actionLog d).

(** [s.replace('Notes: ', '')] on a text that starts with it. *)
Definition strip_notes (s : string) : string :=
  if String.prefix "Notes: " s then String.substring 7 (String.length s - 7) s else s.

(** ** Handoff, roster and procedures *)

Record OperatorPresence := mkOperatorPresence {
  pr_operator_id : string;
  pr_operator_callsign : string;
  pr_status : PresenceStatus
}.

Definition set_presence (st : PresenceStatus) (p : OperatorPresence) : OperatorPresence :=
  mkOperatorPresence (pr_operator_id p) (pr_operator_callsign p) st.

Definition is_me (op : option SOCOperator) (id : string) : bool := bool_decide (Some id = op_id <$> op).

Definition mergedPresence (op : option SOCOperator) (st : OperatorStatus) (l : list OperatorPresence) : list OperatorPresence :=
  map_where (λ p, is_me op (pr_operator_id p)) (set_presence (presence_of st)) l.

Definition availableOperators (op : option SOCOperator) (l : list OperatorPresence) : list OperatorPresence :=
  filter_where (λ p, negb (is_me op (pr_operator_id p)) && bool_decide (pr_status p = on_shift)) l.

Definition myLockedSites (s : OperatorState) : list string := sl_site_id <$> my_locks s.

Definition myActiveAlerts (s : OperatorState) : list string :=
  ae_id <$> filter_where (λ a, bool_decide (ae_assigned_operator_id a = op_id <$> currentOperator s) && negb (ae_acknowledged a))
              (alertFeed s).

Record Handoff := mkHandoff {
  ho_presence : list OperatorPresence;
  ho_to : string;
  ho_notes : string;
  ho_creating : bool
}.

(** [handleCreate] up to its [await]: the argument of [createHandoff]. *)
Definition handleCreate (s : OperatorState) (h : Handoff) : Handoff * option json :=
  match currentOperator s with
  | None => (h, None)
  | Some op =>
      if negb (truthy_str (ho_to h)) then (h, None)
      else
        match find_where (λ p, String.eqb (pr_operator_id p) (ho_to h)) (availableOperators (Some op) (ho_presence h)) with
        | None => (h, None)
        | Some target =>
            (mkHandoff (ho_presence h) (ho_to h) (ho_notes h) true,
             Some (JObj [("from_operator_id", JStr (op_id op)); ("from_operator_callsign", JStr (op_callsign op));
                         ("to_operator_id", JStr (pr_operator_id target)); ("to_operator_callsign", JStr (pr_operator_callsign target));
                         ("locked_site_ids", JArr (JStr <$> myLockedSites s)); ("active_alert_ids", JArr (JStr <$> myActiveAlerts s));
                         ("notes", JStr (ho_notes h))]))
        end
  end.

(** Its reply: [true] when the modal closes. *)
Definition create_settles (ok : bool) (h : Handoff) : Handoff * bool :=
  if ok then (mkHandoff (ho_presence h) (ho_to h) (ho_notes h) false, true) else (h, false).

(** The procedures that the alert panel shows for an alert type. *)
Definition TYPE_TO_CATEGORY : list (string * string) :=
  [("no_harness", "safety"); ("no_hard_hat", "safety"); ("no_hi_vis", "safety"); ("zone_breach", "access");
   ("vehicle_hazard", "equipment"); ("info", "general")].

Record SOPRow := mkSOPRow { sr_id : string; sr_category : string; sr_priority : string }.

Definition relevant_sops (type : string) (l : list SOPRow) : list SOPRow :=
  match snd <$> find_where (λ e, String.eqb e.1 type) TYPE_TO_CATEGORY with
  | Some cat => filter_where (λ s, String.eqb (sr_category s) cat || String.eqb (sr_priority s) "critical") l
  | None => l
  end.

(** ** Alert toasts *)

Definition TOAST_DURATION : Z := 6000.
Definition MAX_TOASTS : nat := 4.

Record AlertToast := mkAlertToast { at_id : string; at_alert : AlertEvent; at_created : Z; at_exiting : bool }.

Inductive ToastTimer := ExitTimer (id : string) | RemoveTimer (id : string).

#[export] Instance ToastTimer_eq_dec : EqDecision ToastTimer.
Proof. solve_decision. Defined.

Record Toasts := mkToasts { tt_toasts : list AlertToast; tt_timers : list (ToastTimer * Z) }.

Inductive ToastEffect := Chime (s : Severity) | Notify (tag : string) (sticky : bool) | AskPermission.

Inductive Permission := granted | denied | default_permission.

Definition loud (s : Severity) : bool := match s with critical | high => true | _ => false end.

(** [sendBrowserNotification], in a window with the Notification API. *)
Definition notify (focused : bool) (p : Permission) (a : AlertEvent) : list ToastEffect :=
  if focused then []
  else match p with
       | granted => [Notify (ae_id a) (bool_decide (ae_severity a = critical))]
       | denied => []
       | default_permission => [AskPermission]
       end.

Definition toast_id (now : Z) (a : AlertEvent) : string := "toast-" +:+ ae_id a +:+ "-" +:+ pretty now.

Definition pushToast (focused : bool) (p : Permission) (now : Z) (a : AlertEvent) (t : Toasts) : Toasts * list ToastEffect :=
  let id := toast_id now a in
  (mkToasts (take MAX_TOASTS (mkAlertToast id a now false :: tt_toasts t)) ((ExitTimer id, now + TOAST_DURATION) :: tt_timers t),
   if loud (ae_severity a) then Chime (ae_severity a) :: notify focused p a else []).

Definition set_exiting (x : AlertToast) : AlertToast := mkAlertToast (at_id x) (at_alert x) (at_created x) true.

(** Marking a toast as leaving starts the timer that removes it. *)
Definition start_exit (id : string) (now : Z) (t : Toasts) : Toasts :=
  mkToasts (map_where (λ x, String.eqb (at_id x) id) set_exiting (tt_toasts t)) ((RemoveTimer id, now + 300) :: tt_timers t).

Definition dismissToast (now : Z) (id : string) (t : Toasts) : Toasts := start_exit id now t.

(** The [i]-th pending timer fires, at its time. *)
Definition toast_fires (i : nat) (t : Toasts) : Toasts :=
  match tt_timers t !! i with
  | Some (k, due) =>
      let t' := mkToasts (tt_toasts t) (delete i (tt_timers t)) in
      match k with
      | ExitTimer id => start_exit id due t'
      | RemoveTimer id => mkToasts (filter_where (λ x, negb (String.eqb (at_id x) id)) (tt_toasts t')) (tt_timers t')
      end
  | None => t
  end.

Inductive ToastEvent := PushToast (focused : bool) (p : Permission) (now : Z) (a : AlertEvent) | DismissToast (now : Z) (id : string)
| ToastFires (i : nat).

Definition toast_step (t : Toasts) (e : ToastEvent) : Toasts :=
  match e with
  | PushToast fo p now a => (pushToast fo p now a t).1
  | DismissToast now id => dismissToast now id t
  | ToastFires i => toast_fires i t
  end.

Definition toast_run (es : list ToastEvent) : Toasts := foldl toast_step (mkToasts [] []) es.

(** ** Lemmas *)

Lemma map_get_keys {K V} `{EqDecision K} (k : K) (m : list (K * V)) : is_Some (map_get k m) ↔ k ∈ m.*1.
Proof.
  unfold map_get. rewrite fmap_is_Some, list_elem_of_fmap. split.
  - intros [[k' v] Hf]. apply find_where_Some in Hf as [Hk Hin]. apply bool_decide_eq_true in Hk. simpl in Hk. subst. by exists (k, v).
  - intros ([k' v] & -> & Hin). destruct (find_where _ m) eqn:Hf; [by eexists|].
    rewrite find_where_None in Hf. specialize (Hf _ Hin). by rewrite bool_decide_true in Hf.
Qed.

(** The merge: a map from ids whose values carry their key; the poll's last value, else
    the feed's first. *)
Definition fill (m : list (string * AlertEvent)) (a : AlertEvent) : list (string * AlertEvent) :=
  match map_get (ae_id a) m with Some _ => m | None => map_set (ae_id a) a m end.

Definition id_entry (a : AlertEvent) : string * AlertEvent := (ae_id a, a).

Lemma merge_poll rest : foldl (λ m a, map_set (ae_id a) a m) [] rest = map_of (id_entry <$> rest).
Proof.
  unfold map_of. generalize (@nil (string * AlertEvent)) as m. induction rest as [|a rest IH]; intros m; [done|].
  simpl. apply IH.
Qed.

Lemma fill_NoDup m a : NoDup m.*1 → NoDup (fill m a).*1.
Proof. intros H. unfold fill. destruct (map_get _ m); [done|]. by apply map_set_NoDup. Qed.

Lemma fills_NoDup feed m : NoDup m.*1 → NoDup (foldl fill m feed).*1.
Proof. revert m. induction feed as [|a feed IH]; intros m H; [done|]. apply IH. by apply fill_NoDup. Qed.

Lemma fill_get m a id :
  NoDup m.*1 →
  map_get id (fill m a) = match map_get id m with Some x => Some x | None => if alert_is id a then Some a else None end.
Proof.
  intros Hnd. unfold fill, alert_is. destruct (map_get (ae_id a) m) eqn:Hg.
  - destruct (map_get id m) eqn:Hi; [done|]. destruct (String.eqb_spec (ae_id a) id); [congruence|done].
  - apply option_eq. intros x. rewrite map_get_elem by by apply map_set_NoDup. rewrite map_set_elem by done.
    rewrite <- map_get_elem by done. destruct (String.eqb_spec (ae_id a) id) as [<-|Hne].
    + rewrite Hg. split; [intros [[_ ->]|[? _]]; done|]. intros [= <-]. by left.
    + destruct (map_get id m) as [y|]; split; [by intros [[? _]|[_ ?]]|by right|by intros [[? _]|[_ ?]]|done].
Qed.

Lemma fills_get feed m id :
  NoDup m.*1 →
  map_get id (foldl fill m feed) = match map_get id m with Some x => Some x | None => find_where (alert_is id) feed end.
Proof.
  revert m. induction feed as [|a feed IH]; intros m Hnd; simpl; [by destruct (map_get id m)|].
  rewrite IH by by apply fill_NoDup. rewrite fill_get by done. rewrite find_where_cons.
  destruct (map_get id m); [done|]. by destruct (alert_is id a).
Qed.

Lemma merge_get rest feed id :
  map_get id (merge_alerts rest feed) =
  match last_value id (id_entry <$> rest) with Some x => Some x | None => find_where (alert_is id) feed end.
Proof.
  unfold merge_alerts. rewrite merge_poll. transitivity (map_get id (foldl fill (map_of (id_entry <$> rest)) feed)); [done|].
  rewrite fills_get by apply map_of_NoDup. by rewrite map_get_map_of.
Qed.

Lemma merge_NoDup rest feed : NoDup (merge_alerts rest feed).*1.
Proof. unfold merge_alerts. rewrite merge_poll. apply (fills_NoDup feed), map_of_NoDup. Qed.

Lemma last_value_elem {K V} `{EqDecision K} (k : K) (v : V) l : last_value k l = Some v → (k, v) ∈ l.
Proof.
  unfold last_value. intros ([k' v'] & Hl & ->)%fmap_Some. apply last_Some_elem_of in Hl.
  apply list_elem_of_filter in Hl as [Hk Hl]. simpl in Hk. by subst.
Qed.

Lemma merge_keyed rest feed k a : (k, a) ∈ merge_alerts rest feed → k = ae_id a.
Proof.
  rewrite <- map_get_elem by apply merge_NoDup. rewrite merge_get.
  destruct (last_value k (id_entry <$> rest)) as [x|] eqn:Hl.
  - intros [= <-]. apply last_value_elem, list_elem_of_fmap in Hl as (y & [= -> ->] & _). done.
  - intros Hf. apply find_where_Some in Hf as [Hf _]. by apply String.eqb_eq in Hf.
Qed.

Lemma merge_values rest feed : (merge_alerts rest feed).*1 = ae_id <$> (merge_alerts rest feed).*2.
Proof.
  rewrite <- list_fmap_compose. apply list_fmap_ext. intros i [k a] Hi. simpl.
  eapply merge_keyed, list_elem_of_lookup_2, Hi.
Qed.

(** The version of an alert the console shows. *)
Definition current_version (rest feed : list AlertEvent) (id : string) : option AlertEvent :=
  match last_value id (id_entry <$> rest) with Some x => Some x | None => find_where (alert_is id) feed end.

Lemma elem_of_merge_alerts rest feed a : a ∈ (merge_alerts rest feed).*2 ↔ current_version rest feed (ae_id a) = Some a.
Proof.
  unfold current_version. rewrite <- merge_get, map_get_elem by apply merge_NoDup. rewrite list_elem_of_fmap. split.
  - intros ([k b] & -> & Hin). simpl. by rewrite <- (merge_keyed _ _ _ _ Hin).
  - intros Hin. by exists (ae_id a, a).
Qed.

Lemma NoDup_filter_fmap {A B} (f : A → B) (p : A → bool) (l : list A) : NoDup (f <$> l) → NoDup (f <$> filter_where p l).
Proof.
  unfold filter_where. induction l as [|x l IH]; [done|]. csimpl. intros [Hx Hl]%NoDup_cons. rewrite filter_cons.
  destruct (decide _); [|by apply IH]. csimpl. constructor; [|by apply IH].
  intros (y & Hy & Hin)%list_elem_of_fmap. apply list_elem_of_filter in Hin as [_ Hin].
  apply Hx. rewrite Hy. by apply list_elem_of_fmap_2.
Qed.

Lemma Sorted_mono {A} (R1 R2 : A → A → Prop) l : (∀ x y, R1 x y → R2 x y) → Sorted R1 l → Sorted R2 l.
Proof. intros H. induction 1 as [|x l Hl IH Hx]; constructor; [done|]. destruct Hx; constructor; auto. Qed.

(** The status guard leaves the store alone but for the status. *)
Definition settled (s : OperatorState) : Prop :=
  (operatorStatus s = engaged → is_Some (activeAlarm s)) ∧ (operatorStatus s = wrap_up → is_Some (lastDisposition s)).

Lemma setOperatorStatus_store st s : (setOperatorStatus st s).1 = upd_operatorStatus st s.
Proof. unfold setOperatorStatus. simpl. by destruct (currentOperator s). Qed.

Lemma guard_status s :
  (status_guard s).1 =
  if match operatorStatus s with
     | engaged => match activeAlarm s with None => true | Some _ => false end
     | wrap_up => match lastDisposition s with None => true | Some _ => false end
     | _ => false
     end then upd_operatorStatus available s else s.
Proof.
  unfold status_guard, setOperatorStatus. destruct s as [[]  [] ????? [] ? [] ?????]; reflexivity.
Qed.

Lemma guard_settles s : settled (status_guard s).1.
Proof.
  rewrite guard_status. unfold settled. destruct (operatorStatus s) eqn:Hs; simpl; rewrite ?Hs; try done.
  - destruct (activeAlarm s) eqn:Ha; simpl; rewrite ?Hs, ?Ha; by eauto.
  - destruct (lastDisposition s) eqn:Hd; simpl; rewrite ?Hs, ?Hd; by eauto.
Qed.

Lemma guard_idle s : settled s → status_guard s = (s, []).
Proof.
  intros [He Hw]. unfold status_guard. destruct (operatorStatus s) eqn:Hs; try done.
  - destruct (He eq_refl) as [? ->]. done.
  - destruct (Hw eq_refl) as [? ->]. done.
Qed.

Lemma guard_inv s : store_inv s → store_inv (status_guard s).1.
Proof. intros Hs. rewrite guard_status. match goal with |- context [if ?b then _ else _] => destruct b end; [|done]. destruct Hs. by constructor. Qed.

Lemma overlay_shown_alt s : overlay_shown s = true ↔ operatorStatus s = wrap_up ∧ is_Some (lastDisposition s).
Proof.
  unfold overlay_shown. destruct (operatorStatus s); destruct (lastDisposition s); split; try done; try (by intros [? ?]); try (by intros [_ [? ?]]); by eauto.
Qed.

(** What holds between any two events on the console. *)
Record console_inv (c : Console) : Prop := {
  ci_settled : settled (cs_store c);
  ci_overlay : is_Some (cs_countdown c) ↔ overlay_shown (cs_store c) = true;
  ci_countdown : ∀ n, cs_countdown c = Some n → 1 ≤ n ≤ WRAPUP_SECONDS
}.

(** The countdown may have dropped to 0 just before a commit. *)
Definition counting (c : Console) : Prop := ∀ n, cs_countdown c = Some n → n ≤ WRAPUP_SECONDS.

Lemma commit_inv c : counting c → console_inv (console_commit c).1.
Proof.
  intros Hc. unfold console_commit. pose proof (guard_settles (cs_store c)) as Hg.
  destruct (status_guard (cs_store c)) as [s f]. simpl in *. unfold overlay_effect. simpl.
  destruct (overlay_shown s) eqn:Ho.
  - destruct (cs_countdown c) as [n|] eqn:Hn.
    + destruct (n <=? 0) eqn:H0.
      * constructor; simpl; [by split|split; [by intros [? ?]|done]|done].
      * constructor; simpl; rewrite ?Hn; [done|split; eauto|]. intros ? [= <-]. apply Z.leb_gt in H0. specialize (Hc n Hn). lia.
    + constructor; simpl; [done|split; eauto|]. intros n [= <-]. unfold WRAPUP_SECONDS. lia.
  - constructor; simpl; [done|split; [by intros [? ?]|by rewrite Ho]|done].
Qed.

Definition tick_count (e : ConsoleEvent) : Z := match e with OverlayTick => 1 | _ => 0 end.

Lemma handle_countdown e c : cs_countdown (console_handle e c).1 = (λ n, n - tick_count e) <$> cs_countdown c.
Proof.
  assert (H0 : (λ n, n - 0) <$> cs_countdown c = cs_countdown c).
  { destruct (cs_countdown c); simpl; [|done]. f_equal. lia. }
  destruct e; cbn [tick_count]; rewrite ?H0; simpl; try done.
  - unfold console_key. destruct editable; [done|].
    destruct (_ || _), (_ || _), (_ || _), (String.eqb _ _); done.
  - unfold click_status. by destruct (operatorStatus _).
  - unfold pick_status. destruct (cs_picker c); [|done]. by destruct (setOperatorStatus _ _).
  - unfold handleClaim. by destruct (currentOperator _).
  - by destruct (cs_countdown c) eqn:Hn.
  - by destruct (overlay_shown _).
  - by destruct (overlay_shown _).
  - by destruct (evidence_shown _).
  - by destruct (apply_op op (cs_store c)).
Qed.

Lemma handle_counting e c : counting c → counting (console_handle e c).1.
Proof.
  intros Hc n. rewrite handle_countdown. intros (m & Hm & ->)%fmap_Some. specialize (Hc m Hm). destruct e; simpl; lia.
Qed.

Lemma step_inv e c : console_inv c → console_inv (console_step e c).1.
Proof.
  intros [_ _ Hc]. unfold console_step. pose proof (handle_counting e c) as Hh. destruct (console_handle e c) as [c1 f1]. simpl in Hh.
  pose proof (commit_inv c1) as Hi. destruct (console_commit c1) as [c2 f2]. simpl in *. apply Hi, Hh. intros n Hn. by apply Hc in Hn as [_ ?].
Qed.

Lemma run_inv es c : console_inv c → console_inv (console_run es c).
Proof. revert c. induction es as [|e es IH]; intros c Hc; [done|]. apply IH. by apply step_inv. Qed.

Lemma open_inv s : console_inv (open_console s).
Proof. apply commit_inv. by intros n [=]. Qed.

(** Events that leave status and disposition alone: keys, the status button, claims,
    releases, evidence, tick_count, and every store action but those that set them. *)
Definition store_bystander (op : Op) : bool :=
  match op with
  | OpSetOperatorStatus _ | OpEngageAlarm _ _ | OpResolveAlarm _ _ | OpAbandonAlarm | OpExitWrapUp => false
  | _ => true
  end.
Definition bystander (e : ConsoleEvent) : bool :=
  match e with
  | PickStatus _ | ClickAlert _ _ | ReadyClick => false
  | StoreAction op => store_bystander op
  | _ => true
  end.

Definition duty (s : OperatorState) := (operatorStatus s, lastDisposition s).

Lemma bystander_op op s : store_bystander op = true → duty (apply_op op s).1 = duty s.
Proof.
  destruct op; intros Hb; try discriminate Hb; try reflexivity; simpl.
  - unfold initLocks. by destruct locks.
  - unfold lockSite. by destruct (currentOperator s).
  - unfold upsertIncident. by destruct (find_index _ _).
  - unfold addAlert. by destruct (includes _ _).
  - unfold claimAlert. by destruct (currentOperator s).
  - unfold escalateActiveAlarm. by destruct (activeAlarm s).
Qed.

Lemma bystander_handle e c : bystander e = true → duty (cs_store (console_handle e c).1) = duty (cs_store c).
Proof.
  destruct e; intros Hb; try discriminate Hb; simpl; try done.
  - unfold console_key. destruct editable; [done|]. by destruct (_ || _), (_ || _), (_ || _), (String.eqb _ _).
  - unfold click_status. by destruct (operatorStatus _).
  - unfold handleClaim. destruct (currentOperator (cs_store c)) eqn:Ho; [|done]. by apply (bystander_op (OpClaimAlert id)).
  - by destruct (cs_countdown c).
  - by destruct (overlay_shown _).
  - by destruct (evidence_shown _).
  - pose proof (bystander_op op (cs_store c) Hb) as Hd. by destruct (apply_op op (cs_store c)).
Qed.

(** A commit with the overlay shown and its countdown at [n]. *)
Lemma commit_counting c d n :
  duty (cs_store c) = (wrap_up, Some d) → cs_countdown c = Some n →
  let c' := (console_commit c).1 in
  (0 < n → c' = c) ∧ (n ≤ 0 → duty (cs_store c') = (available, None) ∧ cs_countdown c' = None).
Proof.
  intros [= Hs Hd] Hn. unfold console_commit. rewrite guard_idle by (split; [by rewrite Hs|by eauto]). simpl.
  unfold overlay_effect. assert (overlay_shown (cs_store c) = true) as Ho by (apply overlay_shown_alt; eauto).
  replace (upd_store (cs_store c) c) with c by by destruct c. rewrite Ho, Hn. split; intros H.
  - by rewrite (proj2 (Z.leb_gt n 0)) by lia.
  - by rewrite (proj2 (Z.leb_le n 0)) by lia.
Qed.

Lemma bystander_step e c d n :
  duty (cs_store c) = (wrap_up, Some d) → cs_countdown c = Some n → bystander e = true →
  let c' := (console_step e c).1 in
  (tick_count e < n → duty (cs_store c') = (wrap_up, Some d) ∧ cs_countdown c' = Some (n - tick_count e)) ∧
  (n ≤ tick_count e → duty (cs_store c') = (available, None) ∧ cs_countdown c' = None).
Proof.
  intros Hd Hn Hb. unfold console_step. pose proof (bystander_handle e c Hb) as Hh. pose proof (handle_countdown e c) as Hc.
  destruct (console_handle e c) as [c1 f1]. simpl in Hh, Hc. rewrite Hn in Hc. rewrite Hd in Hh.
  pose proof (commit_counting c1 d _ Hh Hc) as [H1 H2]. destruct (console_commit c1) as [c2 f2]. simpl in *.
  split; intros H; [|apply H2; lia]. rewrite H1 by lia. done.
Qed.

Definition total_ticks (es : list ConsoleEvent) : Z := foldr (λ e n, tick_count e + n) 0 es.

Lemma ticks_nonneg e : 0 ≤ tick_count e.
Proof. destruct e; simpl; lia. Qed.

Lemma total_ticks_nonneg es : 0 ≤ total_ticks es.
Proof. induction es as [|e es IH]; simpl; [lia|]. pose proof (ticks_nonneg e). lia. Qed.

Lemma bystanders_run es c d n :
  duty (cs_store c) = (wrap_up, Some d) → cs_countdown c = Some n → Forall (λ e, bystander e = true) es → total_ticks es < n →
  duty (cs_store (console_run es c)) = (wrap_up, Some d) ∧ cs_countdown (console_run es c) = Some (n - total_ticks es).
Proof.
  intros Hd Hn Hb. revert c n Hd Hn. induction Hb as [|e es He Hes IH]; intros c n Hd Hn Ht; simpl in *.
  - split; [done|]. rewrite Hn. f_equal. lia.
  - pose proof (total_ticks_nonneg es). pose proof (ticks_nonneg e). pose proof (bystander_step e c d n Hd Hn He) as [H1 _].
    destruct H1 as [Hd' Hn']; [lia|]. specialize (IH _ _ Hd' Hn' ltac:(lia)) as [IH1 IH2]. split; [done|].
    change (cs_countdown (console_run es (console_step e c).1) = Some (n - (tick_count e + total_ticks es))).
    rewrite IH2. f_equal. lia.
Qed.

Lemma open_wrapup s d : duty s = (wrap_up, Some d) → duty (cs_store (open_console s)) = (wrap_up, Some d) ∧ cs_countdown (open_console s) = Some 60.
Proof.
  intros [= Hs Hd]. unfold open_console, console_commit. simpl. rewrite guard_idle by (split; [by rewrite Hs|by eauto]).
  assert (overlay_shown s = true) as Ho by (apply overlay_shown_alt; eauto).
  unfold overlay_effect. simpl. rewrite Ho. simpl. unfold duty. by rewrite Hs, Hd.
Qed.

(** Every alert has one of the four severities of the filter. *)
Lemma orphans_partition l :
  length (orphanAlerts ff_all l) =
  (length (orphanAlerts (ff_severity critical) l) + length (orphanAlerts (ff_severity high) l) +
   length (orphanAlerts (ff_severity medium) l) + length (orphanAlerts (ff_severity low) l))%nat.
Proof.
  unfold orphanAlerts. induction l as [|a l IH]; [done|]. rewrite !filter_where_cons.
  destruct (in_incident a), (ae_acknowledged a); simpl in IH |- *; try exact IH. destruct (ae_severity a); simpl; lia.
Qed.

Lemma elem_of_display rest feed dismissed a :
  a ∈ displayAlerts rest feed dismissed ↔
  current_version rest feed (ae_id a) = Some a ∧ ae_acknowledged a = false ∧ ae_id a ∉ dismissed.
Proof.
  unfold displayAlerts. rewrite elem_of_sort_by, elem_of_filter_where, elem_of_merge_alerts, andb_true_iff, !negb_true_iff.
  unfold includes. rewrite bool_decide_eq_false. tauto.
Qed.

Lemma display_unacked rest feed dismissed :
  unackedAlarms (displayAlerts rest feed dismissed) = length (displayAlerts rest feed dismissed).
Proof.
  unfold unackedAlarms. rewrite filter_where_id; [done|]. intros a (_ & -> & _)%elem_of_display. done.
Qed.

(** *** Toasts *)

(** The timer that will take a toast off the screen, with its time. *)
Definition guarded (t : Toasts) (x : AlertToast) : Prop :=
  (ExitTimer (at_id x), at_created x + 6000) ∈ tt_timers t ∨ (RemoveTimer (at_id x), at_created x + 6300) ∈ tt_timers t.

Record toasts_inv (t : Toasts) : Prop := {
  ti_len : (length (tt_toasts t) ≤ MAX_TOASTS)%nat;
  ti_guarded : ∀ x, x ∈ tt_toasts t → guarded t x
}.

Lemma elem_of_delete_ne {A} (l : list A) i x y : l !! i = Some x → y ∈ l → y ≠ x → y ∈ delete i l.
Proof.
  intros Hi Hy Hne. rewrite delete_take_drop, elem_of_app. rewrite <- (take_drop_middle l i x Hi) in Hy.
  apply elem_of_app in Hy as [?|[?|?]%elem_of_cons]; [by left|done|by right].
Qed.

Lemma exit_inv id now t :
  (length (tt_toasts t) ≤ MAX_TOASTS)%nat →
  (∀ x, x ∈ tt_toasts t → guarded t x ∨ (at_id x = id ∧ at_created x + 6300 = now + 300)) →
  toasts_inv (start_exit id now t).
Proof.
  intros Hlen Hg. constructor; simpl; [by rewrite length_map_where|].
  intros x Hx. apply elem_of_map_where in Hx as (y & Hy & ->).
  assert (at_id (if String.eqb (at_id y) id then set_exiting y else y) = at_id y ∧
          at_created (if String.eqb (at_id y) id then set_exiting y else y) = at_created y) as [Hid Hcr] by by destruct (String.eqb _ _).
  unfold guarded. rewrite Hid, Hcr. simpl. destruct (Hg y Hy) as [[H|H]|[H1 H2]].
  - left. by right.
  - right. by right.
  - right. rewrite H1, H2. by left.
Qed.

Lemma toast_step_inv t e : toasts_inv t → toasts_inv (toast_step t e).
Proof.
  intros [Hlen Hg]. destruct e as [fo p now a|now id|i]; simpl.
  - constructor; [apply (firstn_le_length MAX_TOASTS (mkAlertToast (toast_id now a) a now false :: tt_toasts t))|]. simpl.
    intros x Hx. change (x ∈ take MAX_TOASTS (mkAlertToast (toast_id now a) a now false :: tt_toasts t)) in Hx.
    eapply elem_of_sublist in Hx; [|apply sublist_take].
    apply elem_of_cons in Hx as [->|Hx].
    + left. simpl. by left.
    + destruct (Hg x Hx); [left|right]; simpl; by right.
  - apply (exit_inv id now t); [done|]. intros x Hx. left. by apply Hg.
  - unfold toast_fires. destruct (tt_timers t !! i) as [[[id|id] due]|] eqn:Hi; [| |by constructor].
    + apply (exit_inv id due); simpl; [done|]. intros x Hx. destruct (Hg x Hx) as [H|H].
      * destruct (decide ((ExitTimer (at_id x), at_created x + 6000) = (ExitTimer id, due))) as [[= H1 H2]|Hne]; [right; split; [done|lia]|].
        left. left. by eapply elem_of_delete_ne.
      * left. right. by eapply elem_of_delete_ne.
    + constructor; simpl.
      * etransitivity; [apply length_filter_where|done].
      * intros x [Hid Hx]%elem_of_filter_where. apply negb_true_iff, String.eqb_neq in Hid.
        destruct (Hg x Hx) as [H|H]; [left|right]; simpl; (eapply elem_of_delete_ne; [done|done|congruence]).
Qed.

Lemma toast_run_inv es : toasts_inv (toast_run es).
Proof.
  unfold toast_run. assert (toasts_inv (mkToasts [] [])) as H.
  { constructor; [simpl; lia|]. by intros x ?%elem_of_nil. }
  revert H. generalize (mkToasts [] []). induction es as [|e es IH]; intros t H; [done|]. apply IH. by apply toast_step_inv.
Qed.

(** ** Properties *)

Definition alert1 : AlertEvent := sample_alert "a1".

(** C22. The console displays exactly the current version of every alert that is neither
    acknowledged nor dismissed - the poll's last version, or the feed's first if the poll
    has none - each id once, newest first; so the status bar's CRITICAL number counts all
    displayed alerts, of any severity. *)
Theorem display_exact rest feed dismissed :
  let l := displayAlerts rest feed dismissed in
  NoDup (ae_id <$> l) ∧
  Sorted (λ a b, ae_ts b ≤ ae_ts a) l ∧
  (∀ a, a ∈ l ↔ current_version rest feed (ae_id a) = Some a ∧ ae_acknowledged a = false ∧ ae_id a ∉ dismissed) ∧
  unackedAlarms l = length l.
Proof.
  intros l. split_and!; [| |apply elem_of_display|apply display_unacked].
  - subst l. unfold displayAlerts. rewrite sort_by_Permutation. apply NoDup_filter_fmap. rewrite <- merge_values. apply merge_NoDup.
  - apply (Sorted_mono (λ a b, ts_le a b = true)); [|apply sort_by_Sorted]; unfold ts_le; intros a b; lia.
Qed.

(** An alert gets a row of its own in the feed exactly when it is displayed, passes the
    severity filter and belongs to no incident; so one that names an incident has no row
    even if the feed holds no such incident.  The badge counts active incidents and rows of
    the unfiltered feed, which the four severities partition. *)
Theorem feed_rows_exact rest feed dismissed f incidents :
  let l := displayAlerts rest feed dismissed in
  (∀ a, a ∈ orphanAlerts f l ↔ a ∈ l ∧ in_incident a = false ∧ passes f (ae_severity a) = true) ∧
  (∀ i, i ∈ filteredIncidents f incidents ↔ i ∈ incidents ∧ passes f (si_severity i) = true) ∧
  unackCount incidents l =
    (length (filter_where (λ i, bool_decide (si_status i = si_active)) incidents) + length (orphanAlerts ff_all l))%nat ∧
  length (orphanAlerts ff_all l) =
    (length (orphanAlerts (ff_severity critical) l) + length (orphanAlerts (ff_severity high) l) +
     length (orphanAlerts (ff_severity medium) l) + length (orphanAlerts (ff_severity low) l))%nat.
Proof.
  intros l. split_and!; [| | |apply orphans_partition].
  - intros a. unfold orphanAlerts. rewrite elem_of_filter_where, !andb_true_iff, !negb_true_iff.
    split; [tauto|]. intros (Hin & ? & ?). pose proof (proj1 (elem_of_display _ _ _ _) Hin) as (_ & ? & _). tauto.
  - intros i. unfold filteredIncidents. destruct f as [|s]; simpl; [tauto|]. rewrite elem_of_filter_where. simpl. tauto.
  - unfold unackCount, orphanAlerts. do 2 f_equal. unfold filter_where. apply list_filter_iff. intros a. simpl.
    destruct (in_incident a), (ae_acknowledged a); simpl; tauto.
Qed.

(** C23. On the console, after every event: an engaged operator has an active alarm, one in
    wrap-up has a disposition, the overlay is mounted exactly while both hold, with 1 to 60
    seconds left. *)
Theorem console_invariant es s :
  let c := console_run es (open_console s) in
  (operatorStatus (cs_store c) = engaged → is_Some (activeAlarm (cs_store c))) ∧
  (operatorStatus (cs_store c) = wrap_up → is_Some (lastDisposition (cs_store c))) ∧
  (is_Some (cs_countdown c) ↔ operatorStatus (cs_store c) = wrap_up) ∧
  (∀ n, cs_countdown c = Some n → 1 ≤ n ≤ 60).
Proof.
  intros c. destruct (run_inv es _ (open_inv s)) as [[He Hw] Ho Hn]. split_and!; [done|done| |done].
  subst c. rewrite Ho, overlay_shown_alt. split; [by intros [? _]|]. intros H. split; [done|by apply Hw].
Qed.

(** C24. Wrap-up lasts sixty tick_count: whatever the operator types or clicks and whatever
    arrives meanwhile, short of setting the status, the disposition is kept until the 60th
    tick, which makes the operator available. *)
Theorem wrapup_countdown es s d :
  operatorStatus s = wrap_up → lastDisposition s = Some d → Forall (λ e, bystander e = true) es → total_ticks es ≤ 59 →
  let c := console_run es (open_console s) in
  operatorStatus (cs_store c) = wrap_up ∧ lastDisposition (cs_store c) = Some d ∧ cs_countdown c = Some (60 - total_ticks es) ∧
  (total_ticks es = 59 →
   let c' := (console_step OverlayTick c).1 in
   operatorStatus (cs_store c') = available ∧ lastDisposition (cs_store c') = None ∧ cs_countdown c' = None).
Proof.
  intros Hs Hd Hb Ht c. destruct (open_wrapup s d) as [Ho Hc]; [by unfold duty; rewrite Hs, Hd|].
  destruct (bystanders_run es _ d 60 Ho Hc Hb ltac:(lia)) as [Hr Hn]. fold c in Hr, Hn.
  pose proof Hr as [= Hr1 Hr2]. split_and!; try done. intros H59 c'.
  destruct (bystander_step OverlayTick c d _ Hr Hn eq_refl) as [_ H]. destruct H as [[= ? ?] ?]; [cbn [tick_count]; lia|done].
Qed.

Lemma wrapup_countdown_witness :
  let s := resolveAlarm 2000 verified_other (engageAlarm 1500 alert1 sample_state) in
  let d := mkLastDisposition alert1 verified_other (actionLog (engageAlarm 1500 alert1 sample_state)) 2000 1000 in
  let c := console_run (ConsoleKey false "m" false :: repeat OverlayTick 59) (open_console s) in
  operatorStatus (cs_store c) = wrap_up ∧ lastDisposition (cs_store c) = Some d ∧ cs_countdown c = Some 1 ∧
  (operatorStatus (cs_store (console_step OverlayTick c).1) = available).
Proof.
  intros s d c.
  destruct (wrapup_countdown (ConsoleKey false "m" false :: repeat OverlayTick 59) s d) as (H1 & H2 & H3 & H4).
  - reflexivity.
  - reflexivity.
  - repeat (constructor; [reflexivity|]). constructor.
  - vm_compute. discriminate.
  - split_and!; [exact H1|exact H2|exact H3|]. apply H4. reflexivity.
Defined.

(** Closing an alarm scores it the same way everywhere: the overlay says MISSED exactly
    when the shift's count of missed deadlines goes up, N/A exactly without a deadline, and
    the compliance it shows is a percentage, 100 when nothing was missed. *)
Theorem wrapup_scores s a now code :
  store_inv s → activeAlarm s = Some a →
  let s' := resolveAlarm now code s in
  ∃ d, lastDisposition s' = Some d ∧
    (slaStatus d = "missed" ↔ slaMissed (shiftStats s') = slaMissed (shiftStats s) + 1) ∧
    (slaStatus d = "met" → now ≤ default 0 (ae_sla_deadline_ms a)) ∧
    (slaStatus d = "n/a" ↔ truthy_oZ (ae_sla_deadline_ms a) = false) ∧
    0 ≤ slaCompliance (shiftStats s') ≤ 100 ∧
    (slaMissed (shiftStats s') = 0 → slaCompliance (shiftStats s') = 100).
Proof.
  intros Hs Ha s'. pose proof (inv_resolveAlarm now code s Hs) as Hs'. pose proof (inv_stats _ Hs') as Hst. fold s' in Hst.
  exists (mkLastDisposition a code (actionLog s) now (now - ae_ts a)).
  assert (shiftStats s' = mkShiftStats (alarmsHandled (shiftStats s) + 1)
            (slaMissed (shiftStats s) + (if sla_missed a now then 1 else 0)) (shiftStartMs (shiftStats s))) as Est.
  { unfold s', resolveAlarm. by rewrite Ha. }
  split_and!.
  - unfold s', resolveAlarm. by rewrite Ha.
  - rewrite Est. simpl. unfold slaStatus, sla_missed. simpl. destruct (ae_sla_deadline_ms a) as [ms|]; [|split; [done|lia]].
    destruct (ms =? 0); [split; [done|lia]|].
    destruct (Z.leb_spec now ms), (Z.ltb_spec ms now); split; try done; lia.
  - unfold slaStatus. simpl. destruct (ae_sla_deadline_ms a) as [ms|]; simpl; [|done].
    destruct (ms =? 0); [done|]. destruct (Z.leb_spec now ms); [done|done].
  - unfold slaStatus. simpl. destruct (ae_sla_deadline_ms a) as [ms|]; simpl; [|done].
    destruct (ms =? 0); [done|]. by destruct (now <=? ms).
  - unfold slaCompliance. destruct (Z.ltb_spec 0 (alarmsHandled (shiftStats s'))); [|lia].
    unfold round_div. zdiv.
  - unfold slaCompliance. destruct (Z.ltb_spec 0 (alarmsHandled (shiftStats s'))); [|lia].
    unfold round_div. zdiv.
  - intros H0. unfold slaCompliance. rewrite H0. destruct (Z.ltb_spec 0 (alarmsHandled (shiftStats s'))); [|done].
    rewrite Z.sub_0_r, Z.mul_comm. apply round_div_mul. lia.
Qed.

Lemma sample_inv : store_inv (engageAlarm 1500 alert1 sample_state).
Proof. apply inv_engageAlarm. unfold sample_state. do 3 (apply inv_apply_op). apply inv_initial. Qed.

Lemma wrapup_scores_witness :
  ∃ d, lastDisposition (resolveAlarm 6000 verified_other (engageAlarm 1500 alert1 sample_state)) = Some d ∧
    slaStatus d = "missed".
Proof.
  destruct (wrapup_scores (engageAlarm 1500 alert1 sample_state) alert1 6000 verified_other sample_inv eq_refl) as (d & Hd & Hm & _).
  exists d. split; [exact Hd|]. apply Hm. vm_compute. reflexivity.
Defined.

(** Whatever is pushed, dismissed and fires, at most four toasts are on screen, and each
    has a pending timer that ends it no later than 6.3 seconds after it was created: once
    every timer due by [now] has fired, no toast is older than that, and with no timer
    pending there is none. *)
Theorem toasts_leave es now :
  let t := toast_run es in
  (length (tt_toasts t) ≤ 4)%nat ∧
  (tt_timers t = [] → tt_toasts t = []) ∧
  ((∀ k due, (k, due) ∈ tt_timers t → now < due) → ∀ x, x ∈ tt_toasts t → now < at_created x + 6300).
Proof.
  intros t. destruct (toast_run_inv es) as [Hlen Hg]. fold t in Hlen, Hg. split_and!; [done| |].
  - intros Ht. destruct (tt_toasts t) as [|x l] eqn:Hl; [done|].
    destruct (Hg x (list_elem_of_here _ _)) as [H|H]; rewrite Ht in H; by apply elem_of_nil in H.
  - intros Hp x Hx. destruct (Hg x Hx) as [H|H]; apply Hp in H; lia.
Qed.

Lemma toasts_leave_witness :
  let es := [PushToast true granted 0 alert1; DismissToast 1000 "toast-a1-0"; ToastFires 0] in
  tt_toasts (toast_run es) = [] ∧ (∀ x, x ∈ tt_toasts (toast_run es) → 1300 < at_created x + 6300).
Proof.
  intros es. split; [vm_compute; reflexivity|].
  destruct (toasts_leave es 1300) as (_ & _ & H). apply H. clear H.
  assert (tt_timers (toast_run es) = [(ExitTimer "toast-a1-0", 6000)]) as -> by (vm_compute; reflexivity).
  intros k due [= -> ->]%list_elem_of_singleton. reflexivity.
Defined.

(** A handoff is sent only by a known operator to another who is on shift, and carries
    exactly the sites that operator has locked and the unacknowledged alerts of the live
    feed that are assigned to them - alerts only the poll has are left out, and claiming
    one of those changes nothing.  When the request fails the form stays disabled. *)
Theorem handoff_exact s h op :
  store_inv s → currentOperator s = Some op →
  let me := Some (op_id op) in
  (∀ id, id ∈ myLockedSites s ↔ isMySiteLock id s = true) ∧
  (∀ id, id ∈ myActiveAlerts s ↔ ∃ a, a ∈ alertFeed s ∧ ae_id a = id ∧ ae_assigned_operator_id a = me ∧ ae_acknowledged a = false) ∧
  (∀ id, id ∉ (ae_id <$> alertFeed s) → alertFeed (handleClaim id s).1 = alertFeed s) ∧
  (∀ h' body, handleCreate s h = (h', Some body) →
     ho_creating h' = true ∧
     (∃ p, p ∈ ho_presence h ∧ pr_operator_id p = ho_to h ∧ pr_status p = on_shift ∧ pr_operator_id p ≠ op_id op) ∧
     jget "to_operator_id" body = Some (JStr (ho_to h)) ∧
     jget "locked_site_ids" body = Some (JArr (JStr <$> myLockedSites s)) ∧
     jget "active_alert_ids" body = Some (JArr (JStr <$> myActiveAlerts s)) ∧
     (create_settles false h').2 = false ∧ ho_creating (create_settles false h').1 = true).
Proof.
  intros Hs Hop me. split_and!.
  - intros id. unfold myLockedSites, my_locks, isMySiteLock. rewrite Hop. simpl. split.
    + intros (l & -> & [Hl Hin]%elem_of_filter_where)%list_elem_of_fmap.
      apply bool_decide_eq_true in Hl. apply list_elem_of_fmap in Hin as ([k l'] & -> & Hin). simpl in *.
      apply elem_of_map_to_list in Hin. rewrite (inv_locks _ Hs _ _ Hin), Hin. injection Hl as ->. apply String.eqb_refl.
    + destruct (siteLocks s !! id) as [l|] eqn:Hl; [|done]. intros Hid%String.eqb_eq. apply list_elem_of_fmap. exists l.
      split; [symmetry; by eapply inv_locks|]. apply elem_of_filter_where. split; [apply bool_decide_eq_true; by rewrite Hid|].
      apply list_elem_of_fmap. exists (id, l). split; [done|]. by apply elem_of_map_to_list.
  - intros id. unfold myActiveAlerts. rewrite Hop. simpl. rewrite list_elem_of_fmap.
    setoid_rewrite elem_of_filter_where. setoid_rewrite andb_true_iff. setoid_rewrite bool_decide_eq_true. setoid_rewrite negb_true_iff.
    split; [intros (a & -> & [? ?] & ?); by exists a|]. intros (a & ? & <- & ? & ?). by exists a.
  - intros id Hid. unfold handleClaim, claimAlert. rewrite Hop. simpl. apply map_where_none.
    intros a Ha. apply String.eqb_neq. intros <-. apply Hid. by apply list_elem_of_fmap_2.
  - intros h' body. unfold handleCreate. rewrite Hop. destruct (negb (truthy_str (ho_to h))); [done|].
    destruct (find_where _ _) as [p|] eqn:Hp; [|done]. intros [= <- <-].
    apply find_where_Some in Hp as [Hto%String.eqb_eq [Hp Hin]%elem_of_filter_where].
    apply andb_true_iff in Hp as [Hme Hst]. apply negb_true_iff in Hme. unfold is_me in Hme.
    apply bool_decide_eq_false in Hme. apply bool_decide_eq_true in Hst. split_and!; try done; [|cbn; by rewrite Hto].
    exists p. split_and!; try done. intros He. apply Hme. simpl. by rewrite He.
Qed.

Definition presence2 : list OperatorPresence :=
  [mkOperatorPresence "u1" "OP-1" on_shift; mkOperatorPresence "u2" "OP-2" on_shift; mkOperatorPresence "u3" "OP-3" on_break].

Lemma handoff_exact_witness :
  let s := run_ops [OpLockSite "2026-01-01" "TX-203"; OpClaimAlert "a1"] sample_state in
  let h := mkHandoff presence2 "u2" "quiet night" false in
  "TX-203" ∈ myLockedSites s ∧ "a1" ∈ myActiveAlerts s ∧ ¬ ("a9" ∈ ae_id <$> alertFeed s) ∧
  alertFeed (handleClaim "a9" s).1 = alertFeed s ∧
  is_Some (jget "to_operator_id" (default JNull (handleCreate s h).2)).
Proof.
  intros s h. assert (store_inv s) as Hs.
  { unfold s, run_ops, sample_state. do 5 (apply inv_apply_op). apply inv_initial. }
  destruct (handoff_exact s h sample_operator Hs eq_refl) as (H1 & H2 & H3 & H4).
  assert ("a9" ∉ (ae_id <$> alertFeed s)) as H9.
  { change (ae_id <$> alertFeed s) with ["a1"]. intros [=]%list_elem_of_singleton. }
  split_and!.
  - apply H1. reflexivity.
  - apply H2. exists (set_assigned (Some "u1") (Some "OP-1") alert1). split_and!; try reflexivity. vm_compute. apply list_elem_of_here.
  - exact H9.
  - apply H3, H9.
  - destruct (H4 (handleCreate s h).1 (default JNull (handleCreate s h).2)) as (_ & _ & -> & _); [reflexivity|by eexists].
Defined.
