(* ===== verification/CameraManager.v ===== *)
(** * Camera management

    [components/CameraManager.tsx]: the table of cameras with selection and deletion, the
    form that adds a camera, network discovery with bulk adding, and the settings dialog
    with its autosave on blur and its "Save & Close".

    Every handler runs up to its first [await]; what follows is a task, which a reply
    resumes, in any order among the tasks.  [onRefresh] is [refreshCameras] of the admin
    page, which never rejects: its reply replaces the list or, on failure, keeps it. *)

From S2P Require Import Prelude Types Http IronsightApi.
From stdpp Require Import pretty.
#[local] Open Scope string_scope.
#[local] Open Scope Z_scope.

(** ** Data *)

Record AddForm := mkAddForm {
  af_name : string;
  af_onvif_address : string;
  af_username : string;
  af_password : string;
  af_device_class : DeviceClass
}.

Definition empty_form : AddForm := mkAddForm EmptyString EmptyString "admin" EmptyString DCContinuous.

Record SenseSetup := mkSenseSetup { ss_url : string; ss_cameraName : string }.

Record DiscoveredDevice := mkDiscoveredDevice {
  dd_address : string;
  dd_name : string;
  dd_manufacturer : string;
  dd_model : string;
  dd_xaddr : string
}.

Inductive SettingsTab := tab_general | tab_recording | tab_vca | tab_milesight.

#[export] Instance SettingsTab_eq_dec : EqDecision SettingsTab.
Proof. solve_decision. Defined.

(** The inputs of the General tab, in the order they are compared. *)
Inductive Field := f_name | f_group | f_onvif | f_rtsp | f_sub | f_user.

#[export] Instance Field_eq_dec : EqDecision Field.
Proof. solve_decision. Defined.

Definition all_fields : list Field := [f_name; f_group; f_onvif; f_rtsp; f_sub; f_user].

Definition field_key (f : Field) : string :=
  match f with
  | f_name => "name"
  | f_group => "camera_group"
  | f_onvif => "onvif_address"
  | f_rtsp => "rtsp_uri"
  | f_sub => "sub_stream_uri"
  | f_user => "username"
  end.

Definition cam_field (f : Field) (c : Camera) : string :=
  match f with
  | f_name => cam_name c
  | f_group => cam_camera_group c
  | f_onvif => cam_onvif_address c
  | f_rtsp => cam_rtsp_uri c
  | f_sub => cam_sub_stream_uri c
  | f_user => cam_username c
  end.

(** The fields and flags that the dialog overwrites in its copy of the camera. *)
Definition patch_cam (onvif rtsp sub user : string) (events audio privacy : bool) (c : Camera) : Camera :=
  mkCamera (cam_id c) (cam_name c) onvif user rtsp sub (cam_retention_days c)
    (cam_recording c) (cam_recording_mode c) (cam_pre_buffer_sec c) (cam_post_buffer_sec c) (cam_recording_triggers c)
    events audio (cam_camera_group c) (cam_schedule c) privacy (cam_status c)
    (cam_profile_token c) (cam_has_ptz c) (cam_manufacturer c) (cam_model c) (cam_firmware c) (cam_device_class c)
    (cam_sense_webhook_token c) (cam_created_at c) (cam_updated_at c).

Definition set_text (f : Field) (v : string) (c : Camera) : Camera :=
  let keep g := if decide (g = f) then v else cam_field g c in
  patch_cam (keep f_onvif) (keep f_rtsp) (keep f_sub) (keep f_user) (cam_events_enabled c) (cam_audio_enabled c) (cam_privacy_mask c) c.
Definition set_flags (events audio privacy : bool) (c : Camera) : Camera :=
  patch_cam (cam_onvif_address c) (cam_rtsp_uri c) (cam_sub_stream_uri c) (cam_username c) events audio privacy c.

(** ** State *)

Record AddPart := mkAddPart {
  ad_show : bool;
  ad_form : AddForm;
  ad_error : option string;
  ad_adding : bool;
  ad_sense : option SenseSetup
}.

Record TablePart := mkTablePart {
  tp_confirmDeleteId : option string;
  tp_selected : list string;          (* a Set, in insertion order *)
  tp_confirmBulkDelete : bool;
  tp_bulkDeleting : bool
}.

Record DiscoveryPart := mkDiscoveryPart {
  dp_show : bool;
  dp_discovering : bool;
  dp_devices : list DiscoveredDevice;
  dp_selected : list string;
  dp_username : string;
  dp_password : string;
  dp_adding : bool;
  dp_previews : list (string * string);
  dp_loading : list string
}.

Record EditPart := mkEditPart {
  ed_camera : option Camera;
  ed_tab : SettingsTab;
  ed_rebooting : bool;
  ed_saving : bool;
  ed_inputs : option (Field → string)   (* the values of the inputs that are mounted *)
}.

(** The rest of a handler after an [await]. *)
Inductive Task :=
| TAdd (f : AddForm)
| TAddRefresh (created : option Camera) (f : AddForm)
| TBulkDelete (total : nat) (rest : list string) (failed : Z)
| TBulkRefresh (total : nat) (failed : Z)
| TDelete (id name : string)
| TDeleteRefresh (name : string)
| TUpdate
| TSave
| TSaveRefresh
| TDiscover
| TPreview (address : string)
| TBulkAdd (waiting : nat)
| TBulkAddRefresh
| TReboot
| TRefresh.

Record CamManager := mkManager {
  cm_cameras : list Camera;
  cm_add : AddPart;
  cm_table : TablePart;
  cm_disc : DiscoveryPart;
  cm_edit : EditPart;
  cm_tasks : list Task
}.

Definition initial_manager (cameras : list Camera) : CamManager :=
  mkManager cameras (mkAddPart false empty_form None false None) (mkTablePart None [] false false)
    (mkDiscoveryPart false false [] [] "admin" EmptyString false [] []) (mkEditPart None tab_general false false None) [].

Inductive Effect :=
| CreateCamera (name onvif_address username password : string) (device_class : option DeviceClass)
| DeleteCamera (id : string)
| UpdateCamera (id : string) (data : list (string * json))
| ListCameras
| DiscoverCameras
| GetDevicePreview (address username password : string)
| RebootCamera (id : string)
| PushToast (success : bool) (title body : string)
| Alert (text : string).

Inductive Reply :=
| RCamera (c : option Camera)
| ROk
| RCameras (l : option (list Camera))
| RDevices (l : list DiscoveredDevice)
| RText (s : string)
| RFail (message : option string).

Definition upd_add (a : AddPart) (m : CamManager) : CamManager := mkManager (cm_cameras m) a (cm_table m) (cm_disc m) (cm_edit m) (cm_tasks m).
Definition upd_table (t : TablePart) (m : CamManager) : CamManager := mkManager (cm_cameras m) (cm_add m) t (cm_disc m) (cm_edit m) (cm_tasks m).
Definition upd_disc (d : DiscoveryPart) (m : CamManager) : CamManager := mkManager (cm_cameras m) (cm_add m) (cm_table m) d (cm_edit m) (cm_tasks m).
Definition upd_edit (e : EditPart) (m : CamManager) : CamManager := mkManager (cm_cameras m) (cm_add m) (cm_table m) (cm_disc m) e (cm_tasks m).
Definition upd_tasks (l : list Task) (m : CamManager) : CamManager := mkManager (cm_cameras m) (cm_add m) (cm_table m) (cm_disc m) (cm_edit m) l.
Definition set_list (l : option (list Camera)) (m : CamManager) : CamManager :=
  match l with
  | Some cs => mkManager cs (cm_add m) (cm_table m) (cm_disc m) (cm_edit m) (cm_tasks m)
  | None => m
  end.

(** Suspend a handler. *)
Definition await (t : Task) (m : CamManager) : CamManager := upd_tasks (cm_tasks m ++ [t])%list m.

(** ** Adding a camera *)

Definition set_ad_show (b : bool) (a : AddPart) := mkAddPart b (ad_form a) (ad_error a) (ad_adding a) (ad_sense a).
Definition set_ad_form (f : AddForm) (a : AddPart) := mkAddPart (ad_show a) f (ad_error a) (ad_adding a) (ad_sense a).
Definition set_ad_error (e : option string) (a : AddPart) := mkAddPart (ad_show a) (ad_form a) e (ad_adding a) (ad_sense a).
Definition set_ad_adding (b : bool) (a : AddPart) := mkAddPart (ad_show a) (ad_form a) (ad_error a) b (ad_sense a).
Definition set_ad_sense (s : option SenseSetup) (a : AddPart) := mkAddPart (ad_show a) (ad_form a) (ad_error a) (ad_adding a) s.

Definition can_add (m : CamManager) : bool :=
  ad_show (cm_add m) && negb (ad_adding (cm_add m)) && truthy_str (trim (af_onvif_address (ad_form (cm_add m)))).

Definition create_of_form (f : AddForm) : Effect :=
  CreateCamera (af_name f) (af_onvif_address f) (af_username f) (af_password f) (Some (af_device_class f)).

Definition handleAdd (m : CamManager) : CamManager * list Effect :=
  let f := ad_form (cm_add m) in
  (await (TAdd f) (upd_add (set_ad_adding true (set_ad_error None (cm_add m))) m), [create_of_form f]).

Definition ADD_FAILED : string := "Failed to add camera — check the address, credentials, and that ONVIF is enabled.".

Definition add_failed (msg : option string) (m : CamManager) : CamManager :=
  upd_add (set_ad_adding false (set_ad_error (Some (or_str msg ADD_FAILED)) (cm_add m))) m.

(** The webhook of a push-only camera just created; [origin] is the page's. *)
Definition sense_setup (origin : string) (created : option Camera) : option SenseSetup :=
  match created with
  | Some c =>
      match cam_device_class c, cam_sense_webhook_token c with
      | Some DCSensePushed, Some t =>
          if truthy_str t then Some (mkSenseSetup (origin +:+ "/api/integrations/milesight/sense/" +:+ t) (cam_name c)) else None
      | _, _ => None
      end
  | None => None
  end.

Definition add_done (origin : string) (created : option Camera) (f : AddForm) (m : CamManager) : CamManager * list Effect :=
  let a := set_ad_form empty_form (set_ad_show false (cm_add m)) in
  let a' := match sense_setup origin created with Some s => set_ad_sense (Some s) a | None => a end in
  (upd_add (set_ad_adding false a') m,
   [PushToast true "Camera added" (match created with Some c => cam_name c | None => af_name f end)]).

(** ** The table *)

Definition set_confirmDelete (o : option string) (t : TablePart) := mkTablePart o (tp_selected t) (tp_confirmBulkDelete t) (tp_bulkDeleting t).
Definition set_selected (l : list string) (t : TablePart) := mkTablePart (tp_confirmDeleteId t) l (tp_confirmBulkDelete t) (tp_bulkDeleting t).
Definition set_confirmBulk (b : bool) (t : TablePart) := mkTablePart (tp_confirmDeleteId t) (tp_selected t) b (tp_bulkDeleting t).
Definition set_bulkDeleting (b : bool) (t : TablePart) := mkTablePart (tp_confirmDeleteId t) (tp_selected t) (tp_confirmBulkDelete t) b.

(** [Set.prototype.delete] or [add] *)
Definition toggle_member (x : string) (l : list string) : list string :=
  if includes x l then filter_where (λ y, negb (String.eqb y x)) l else (l ++ [x])%list.

Definition toggleSelect (id : string) (m : CamManager) : CamManager := upd_table (set_selected (toggle_member id (tp_selected (cm_table m))) (cm_table m)) m.

Definition toggleSelectAll (m : CamManager) : CamManager :=
  let all := if Nat.eqb (length (tp_selected (cm_table m))) (length (cm_cameras m)) then [] else set_of (cam_id <$> cm_cameras m) in
  upd_table (set_selected all (cm_table m)) m.

Definition plural (n : Z) : string := pretty n +:+ " camera" +:+ (if negb (n =? 1) then "s" else EmptyString).

(** After the loop. *)
Definition bulk_over (total : nat) (failed : Z) (m : CamManager) : CamManager * list Effect :=
  (await (TBulkRefresh total failed)
     (upd_table (mkTablePart (tp_confirmDeleteId (cm_table m)) [] false false) m), [ListCameras]).

(** The loop, up to its next [await]. *)
Definition bulk_next (total : nat) (rest : list string) (failed : Z) (m : CamManager) : CamManager * list Effect :=
  match rest with
  | [] => bulk_over total failed m
  | id :: _ => (await (TBulkDelete total rest failed) m, [DeleteCamera id])
  end.

Definition handleBulkDelete (m : CamManager) : CamManager * list Effect :=
  let ids := tp_selected (cm_table m) in
  bulk_next (length ids) ids 0 (upd_table (set_bulkDeleting true (cm_table m)) m).

Definition bulk_toast (total : nat) (failed : Z) : Effect :=
  if 0 <? failed then PushToast false "Bulk delete partial" (plural failed +:+ " could not be removed")
  else PushToast true "Cameras removed" (plural (Z.of_nat total) +:+ " deleted").

Definition can_bulk_delete (m : CamManager) : bool :=
  let t := cm_table m in
  negb (Nat.eqb (length (cm_cameras m)) 0) && negb (Nat.eqb (length (tp_selected t)) 0) && tp_confirmBulkDelete t && negb (tp_bulkDeleting t).

Definition handleDelete (id : string) (m : CamManager) : CamManager * list Effect :=
  let name := default id (cam_name <$> find_where (λ c, String.eqb (cam_id c) id) (cm_cameras m)) in
  (await (TDelete id name) m, [DeleteCamera id]).

(** ** Discovery *)

Definition mk_discovery (show discovering : bool) (devices : list DiscoveredDevice) (selected : list string) (d : DiscoveryPart) : DiscoveryPart :=
  mkDiscoveryPart show discovering devices selected (dp_username d) (dp_password d) (dp_adding d) (dp_previews d) (dp_loading d).
Definition set_auth (u p : string) (d : DiscoveryPart) : DiscoveryPart :=
  mkDiscoveryPart (dp_show d) (dp_discovering d) (dp_devices d) (dp_selected d) u p (dp_adding d) (dp_previews d) (dp_loading d).
Definition set_dp_adding (b : bool) (d : DiscoveryPart) : DiscoveryPart :=
  mkDiscoveryPart (dp_show d) (dp_discovering d) (dp_devices d) (dp_selected d) (dp_username d) (dp_password d) b (dp_previews d) (dp_loading d).
Definition set_previews (p : list (string * string)) (l : list string) (d : DiscoveryPart) : DiscoveryPart :=
  mkDiscoveryPart (dp_show d) (dp_discovering d) (dp_devices d) (dp_selected d) (dp_username d) (dp_password d) (dp_adding d) p l.

Definition handleDiscover (m : CamManager) : CamManager * list Effect :=
  let d := cm_disc m in
  (await TDiscover (upd_disc (mk_discovery true true (dp_devices d) [] d) m), [DiscoverCameras]).

Definition discover_settles (l : option (list DiscoveredDevice)) (m : CamManager) : CamManager :=
  let d := cm_disc m in
  upd_disc (mk_discovery (dp_show d) false (default (dp_devices d) l) (dp_selected d) d) m.

Definition select_devices (l : list string) (m : CamManager) : CamManager :=
  let d := cm_disc m in upd_disc (mk_discovery (dp_show d) (dp_discovering d) (dp_devices d) l d) m.

Definition toggleDeviceSelection (address : string) (m : CamManager) : CamManager := select_devices (toggle_member address (dp_selected (cm_disc m))) m.

Definition toggleAllDevices (m : CamManager) : CamManager :=
  let d := cm_disc m in
  select_devices (if Nat.eqb (length (dp_selected d)) (length (dp_devices d)) then [] else set_of (dd_address <$> dp_devices d)) m.

Definition close_discovery (m : CamManager) : CamManager :=
  let d := cm_disc m in upd_disc (mk_discovery false (dp_discovering d) (dp_devices d) (dp_selected d) d) m.

Definition handleLoadPreview (address : string) (m : CamManager) : CamManager * list Effect :=
  let d := cm_disc m in
  let loading := if includes address (dp_loading d) then dp_loading d else (dp_loading d ++ [address])%list in
  (await (TPreview address) (upd_disc (set_previews (dp_previews d) loading d) m),
   [GetDevicePreview address (dp_username d) (dp_password d)]).

Definition preview_settles (address : string) (url : option string) (m : CamManager) : CamManager :=
  let d := cm_disc m in
  let previews := match url with Some u => map_set address u (dp_previews d) | None => dp_previews d end in
  upd_disc (set_previews previews (filter_where (λ a, negb (String.eqb a address)) (dp_loading d)) d) m.

(** The device of an address, and its [createCamera]. *)
Definition create_of_device (d : DiscoveryPart) (address : string) : option Effect :=
  (λ v, CreateCamera (if truthy_str (dd_name v) then dd_name v else dd_address v) (dd_address v) (dp_username d) (dp_password d) None)
  <$> find_where (λ v, String.eqb (dd_address v) address) (dp_devices d).

Definition bulk_added (m : CamManager) : CamManager * list Effect := (await TBulkAddRefresh m, [ListCameras]).

Definition handleBulkAdd (m : CamManager) : CamManager * list Effect :=
  let d := cm_disc m in
  if Nat.eqb (length (dp_selected d)) 0 then (m, [])
  else
    let creates := omap (create_of_device d) (dp_selected d) in
    let m1 := upd_disc (set_dp_adding true d) m in
    match creates with
    | [] => bulk_added m1
    | _ => (await (TBulkAdd (length creates)) m1, creates)
    end.

(** Fill the form from a discovered device. *)
Definition addDiscoveredDevice (v : DiscoveredDevice) (m : CamManager) : CamManager :=
  let name := if truthy_str (dd_name v) then dd_name v else dd_address v in
  upd_add (set_ad_show true (set_ad_form (mkAddForm name (dd_address v) "admin" EmptyString DCContinuous) (cm_add m))) (close_discovery m).

(** ** The settings dialog *)

Definition isMilesight (c : Camera) : bool :=
  let mfg := toLowerCase (cam_manufacturer c) in
  let mdl := toLowerCase (cam_model c) in
  str_includes "milesight" mfg || String.prefix "ms-c" mdl || String.prefix "ms-n" mdl.

(** The tab whose content the dialog renders. *)
Definition shown_tab (c : Camera) (t : SettingsTab) : option SettingsTab :=
  match t with
  | tab_vca | tab_milesight => if isMilesight c then Some t else None
  | _ => Some t
  end.

(** Its buttons. *)
Definition tab_buttons (c : Camera) : list SettingsTab :=
  [tab_general; tab_recording] ++ (if isMilesight c then [tab_vca; tab_milesight] else []).

Definition inputs_of (c : Camera) : Field → string := λ f, cam_field f c.

Definition openSettings (c : Camera) (e : EditPart) : EditPart :=
  mkEditPart (Some c) (ed_tab e) (ed_rebooting e) (ed_saving e) (if decide (ed_tab e = tab_general) then Some (inputs_of c) else None).
Definition closeSettings (e : EditPart) : EditPart := mkEditPart None (ed_tab e) (ed_rebooting e) (ed_saving e) None.
Definition choose_tab (t : SettingsTab) (e : EditPart) : EditPart :=
  mkEditPart (ed_camera e) t (ed_rebooting e) (ed_saving e)
    (if decide (t = tab_general) then match ed_inputs e with Some i => Some i | None => inputs_of <$> ed_camera e end else None).
Definition set_ed_camera (c : Camera) (e : EditPart) : EditPart := mkEditPart (Some c) (ed_tab e) (ed_rebooting e) (ed_saving e) (ed_inputs e).
Definition set_ed_saving (b : bool) (e : EditPart) : EditPart := mkEditPart (ed_camera e) (ed_tab e) (ed_rebooting e) b (ed_inputs e).
Definition set_ed_rebooting (b : bool) (e : EditPart) : EditPart := mkEditPart (ed_camera e) (ed_tab e) b (ed_saving e) (ed_inputs e).
Definition type_field (f : Field) (v : string) (e : EditPart) : EditPart :=
  mkEditPart (ed_camera e) (ed_tab e) (ed_rebooting e) (ed_saving e)
    ((λ i, λ g, if decide (g = f) then v else i g) <$> ed_inputs e).

Definition handleUpdate (id : string) (data : list (string * json)) (m : CamManager) : CamManager * list Effect :=
  (await TUpdate m, [UpdateCamera id data]).

(** Name and group only send; the others also overwrite the dialog's camera. *)
Definition remembers (f : Field) : bool := match f with f_name | f_group => false | _ => true end.

Definition blur_field (f : Field) (m : CamManager) : CamManager * list Effect :=
  match ed_camera (cm_edit m), ed_inputs (cm_edit m) with
  | Some c, Some i =>
      if String.eqb (i f) (cam_field f c) then (m, [])
      else
        let '(m1, es) := handleUpdate (cam_id c) [(field_key f, JStr (i f))] m in
        (if remembers f then upd_edit (set_ed_camera (set_text f (i f) c) (cm_edit m1)) m1 else m1, es)
  | _, _ => (m, [])
  end.

(** The three switches of the Recording tab. *)
Inductive Flag := flag_audio | flag_events | flag_privacy.

Definition toggle_flag (k : Flag) (m : CamManager) : CamManager * list Effect :=
  match ed_camera (cm_edit m) with
  | Some c =>
      let '(key, val, c') :=
        match k with
        | flag_audio => let v := negb (cam_audio_enabled c) in ("audio_enabled", v, set_flags (cam_events_enabled c) v (cam_privacy_mask c) c)
        | flag_events => let v := negb (cam_events_enabled c) in ("events_enabled", v, set_flags v (cam_audio_enabled c) (cam_privacy_mask c) c)
        | flag_privacy => let v := negb (cam_privacy_mask c) in ("privacy_mask", v, set_flags (cam_events_enabled c) (cam_audio_enabled c) v c)
        end in
      let '(m1, es) := handleUpdate (cam_id c) [(key, JBool val)] m in
      (upd_edit (set_ed_camera c' (cm_edit m1)) m1, es)
  | None => (m, [])
  end.

(** The fields whose input differs from the dialog's camera; none without inputs. *)
Definition save_data (c : Camera) (i : option (Field → string)) : list (string * json) :=
  match i with
  | Some i => (λ f, (field_key f, JStr (i f))) <$> filter_where (λ f, negb (String.eqb (i f) (cam_field f c))) all_fields
  | None => []
  end.

Definition handleSaveAndClose (m : CamManager) : CamManager * list Effect :=
  match ed_camera (cm_edit m) with
  | None => (m, [])
  | Some c =>
      match save_data c (ed_inputs (cm_edit m)) with
      | [] => (upd_edit (closeSettings (cm_edit m)) m, [])
      | data => (await TSave (upd_edit (set_ed_saving true (cm_edit m)) m), [UpdateCamera (cam_id c) data])
      end
  end.

Definition click_reboot (confirmed : bool) (m : CamManager) : CamManager * list Effect :=
  match ed_camera (cm_edit m) with
  | Some c => if confirmed then (await TReboot (upd_edit (set_ed_rebooting true (cm_edit m)) m), [RebootCamera (cam_id c)]) else (m, [])
  | None => (m, [])
  end.

(** ** Replies *)

(** Resume a task; [None] when the reply is not one that its promise can have.  What the
    API functions reject with is an [Error], so the message of a failure is there. *)
Definition resume (origin : string) (t : Task) (r : Reply) (m : CamManager) : option (CamManager * list Effect) :=
  match t, r with
  | TAdd f, RCamera c => Some (await (TAddRefresh c f) m, [ListCameras])
  | TAdd _, RFail msg => Some (add_failed msg m, [])
  | TAddRefresh c f, RCameras l => Some (add_done origin c f (set_list l m))
  | TBulkDelete total rest failed, ROk => Some (bulk_next total (tail rest) failed m)
  | TBulkDelete total rest failed, RFail _ => Some (bulk_next total (tail rest) (failed + 1) m)
  | TBulkRefresh total failed, RCameras l => Some (set_list l m, [bulk_toast total failed])
  | TDelete id name, ROk => Some (await (TDeleteRefresh name) (upd_table (set_confirmDelete None (cm_table m)) m), [ListCameras])
  | TDelete id name, RFail msg =>
      Some (upd_table (set_confirmDelete None (cm_table m)) m, [PushToast false "Delete failed" (default "Could not remove camera" msg)])
  | TDeleteRefresh name, RCameras l => Some (set_list l m, [PushToast true "Camera removed" name])
  | TUpdate, ROk => Some (await TRefresh m, [ListCameras])
  | TUpdate, RFail msg => Some (m, [PushToast false "Update failed" (default "Could not save camera changes" msg)])
  | TSave, ROk => Some (await TSaveRefresh m, [ListCameras])
  | TSave, RFail msg =>
      Some (upd_edit (set_ed_saving false (cm_edit m)) m, [PushToast false "Save failed" (default "Could not save camera changes" msg)])
  | TSaveRefresh, RCameras l => let m' := set_list l m in Some (upd_edit (set_ed_saving false (closeSettings (cm_edit m'))) m', [])
  | TDiscover, RDevices l => Some (discover_settles (Some l) m, [])
  | TDiscover, RFail _ => Some (discover_settles None m, [])
  | TPreview a, RText u => Some (preview_settles a (Some u) m, [])
  | TPreview a, RFail _ => Some (preview_settles a None m, [])
  | TBulkAdd n, (RCamera _ | RFail _) => Some (match n with S (S n') => (await (TBulkAdd (S n')) m, []) | _ => bulk_added m end)
  | TBulkAddRefresh, RCameras l =>
      let m' := set_list l m in
      Some (upd_disc (set_dp_adding false (set_auth "admin" EmptyString (mk_discovery false (dp_discovering (cm_disc m')) (dp_devices (cm_disc m')) (dp_selected (cm_disc m')) (cm_disc m')))) m', [])
  | TReboot, RText msg =>
      Some (await TRefresh (upd_edit (set_ed_rebooting false (cm_edit m)) m), [Alert ("Reboot requested: " +:+ msg); ListCameras])
  | TReboot, RFail msg => Some (upd_edit (set_ed_rebooting false (cm_edit m)) m, [Alert ("Reboot failed: " +:+ default EmptyString msg)])
  | TRefresh, RCameras l => Some (set_list l m, [])
  | _, _ => None
  end.

(** ** Events *)

Inductive ManagerEvent :=
| OpenAdd | BackdropAdd | CancelAdd | EditForm (f : AddForm) | ClickAdd | CloseSense
| ToggleSelect (id : string) | ToggleSelectAll | AskBulkDelete | CancelBulkDelete | ClearSelection | ClickBulkDelete
| AskDelete (id : string) | CancelDelete | ClickDelete (id : string) | ToggleRecording (c : Camera)
| ClickDiscover (again : bool) | CloseDiscovery (backdrop : bool) | ClickDevice (address : string) | ClickAllDevices
| EditAuth (username password : string) | ClickPreview (address : string) | ClickBulkAdd
| OpenSettings (c : Camera) | CloseSettings | ChooseTab (t : SettingsTab) | TypeField (f : Field) (v : string) | BlurField (f : Field)
| ToggleFlag (k : Flag) | SaveAndClose | ClickReboot (confirmed : bool)
| Settles (i : nat) (r : Reply).

Definition devices_listed (d : DiscoveryPart) : bool := dp_show d && negb (dp_discovering d) && negb (Nat.eqb (length (dp_devices d)) 0).

(** One event; a control that is absent or disabled does nothing. *)
Definition manager_step (origin : string) (e : ManagerEvent) (m : CamManager) : CamManager * list Effect :=
  let a := cm_add m in let t := cm_table m in let d := cm_disc m in let ed := cm_edit m in
  match e with
  | OpenAdd => (upd_add (set_ad_show true a) m, [])
  | BackdropAdd => (upd_add (set_ad_show false a) m, [])
  | CancelAdd => (if ad_adding a then m else upd_add (set_ad_error None (set_ad_show false a)) m, [])
  | EditForm f => (if ad_show a then upd_add (set_ad_form f a) m else m, [])
  | ClickAdd => if can_add m then handleAdd m else (m, [])
  | CloseSense => (upd_add (set_ad_sense None a) m, [])
  | ToggleSelect id => (if includes id (cam_id <$> cm_cameras m) then toggleSelect id m else m, [])
  | ToggleSelectAll => (if Nat.eqb (length (cm_cameras m)) 0 then m else toggleSelectAll m, [])
  | AskBulkDelete => (upd_table (set_confirmBulk true t) m, [])
  | CancelBulkDelete => (upd_table (set_confirmBulk false t) m, [])
  | ClearSelection => (if tp_confirmBulkDelete t then m else upd_table (set_selected [] t) m, [])
  | ClickBulkDelete => if can_bulk_delete m then handleBulkDelete m else (m, [])
  | AskDelete id => (upd_table (set_confirmDelete (Some id) t) m, [])
  | CancelDelete => (upd_table (set_confirmDelete None t) m, [])
  | ClickDelete id => if bool_decide (tp_confirmDeleteId t = Some id) then handleDelete id m else (m, [])
  | ToggleRecording c => handleUpdate (cam_id c) [("recording", JBool (negb (cam_recording c)))] m
  | ClickDiscover again => if again && (dp_discovering d || dp_adding d) then (m, []) else handleDiscover m
  | CloseDiscovery backdrop => (if negb backdrop && dp_adding d then m else close_discovery m, [])
  | ClickDevice x => (if devices_listed d && includes x (dd_address <$> dp_devices d) then toggleDeviceSelection x m else m, [])
  | ClickAllDevices => (if devices_listed d then toggleAllDevices m else m, [])
  | EditAuth u p => (if devices_listed d && negb (Nat.eqb (length (dp_selected d)) 0) then upd_disc (set_auth u p d) m else m, [])
  | ClickPreview x =>
      if devices_listed d && includes x (dd_address <$> dp_devices d) && negb (truthy_ostr (map_get x (dp_previews d))) && negb (includes x (dp_loading d))
      then handleLoadPreview x m else (m, [])
  | ClickBulkAdd => if dp_show d && negb (dp_adding d) then handleBulkAdd m else (m, [])
  | OpenSettings c => (match ed_camera ed with None => upd_edit (openSettings c ed) m | Some _ => m end, [])
  | CloseSettings => (if ed_saving ed then m else upd_edit (closeSettings ed) m, [])
  | ChooseTab x => (match ed_camera ed with Some c => if bool_decide (x ∈ tab_buttons c) then upd_edit (choose_tab x ed) m else m | None => m end, [])
  | TypeField f v => (upd_edit (type_field f v ed) m, [])
  | BlurField f => blur_field f m
  | ToggleFlag k => if bool_decide (ed_tab ed = tab_recording) then toggle_flag k m else (m, [])
  | SaveAndClose => if ed_saving ed then (m, []) else handleSaveAndClose m
  | ClickReboot ok => if ed_rebooting ed then (m, []) else click_reboot ok m
  | Settles i r =>
      match cm_tasks m !! i with
      | Some tk => default (m, []) (resume origin tk r (upd_tasks (delete i (cm_tasks m)) m))
      | None => (m, [])
      end
  end.

Fixpoint manager_run (origin : string) (es : list ManagerEvent) (m : CamManager) : CamManager * list Effect :=
  match es with
  | [] => (m, [])
  | e :: r =>
      let '(m1, f1) := manager_step origin e m in
      let '(m2, f2) := manager_run origin r m1 in (m2, (f1 ++ f2)%list)
  end.

(** ** Lemmas *)

(** The operations that run one at a time, the flag of each, and their tasks. *)
Inductive Kind := k_add | k_bulk_delete | k_save | k_reboot | k_bulk_add.

#[export] Instance Kind_eq_dec : EqDecision Kind.
Proof. solve_decision. Defined.

Definition busy (k : Kind) (m : CamManager) : bool :=
  match k with
  | k_add => ad_adding (cm_add m)
  | k_bulk_delete => tp_bulkDeleting (cm_table m)
  | k_save => ed_saving (cm_edit m)
  | k_reboot => ed_rebooting (cm_edit m)
  | k_bulk_add => dp_adding (cm_disc m)
  end.

Definition kind_of (t : Task) : option Kind :=
  match t with
  | TAdd _ | TAddRefresh _ _ => Some k_add
  | TBulkDelete _ _ _ => Some k_bulk_delete
  | TSave | TSaveRefresh => Some k_save
  | TReboot => Some k_reboot
  | TBulkAdd _ | TBulkAddRefresh => Some k_bulk_add
  | _ => None
  end.

Definition count_kind (k : Kind) (l : list Task) : nat := length (filter_where (λ t, bool_decide (kind_of t = Some k)) l).

Definition busy_inv (m : CamManager) : Prop := ∀ k, count_kind k (cm_tasks m) = Nat.b2n (busy k m).

Lemma filter_where_app {A} (p : A → bool) l1 l2 : filter_where p (l1 ++ l2) = (filter_where p l1 ++ filter_where p l2)%list.
Proof. apply filter_app. Qed.

Definition is_kind (k : Kind) (t : Task) : nat := Nat.b2n (bool_decide (kind_of t = Some k)).

Lemma count_await k t m : count_kind k (cm_tasks (await t m)) = (count_kind k (cm_tasks m) + is_kind k t)%nat.
Proof.
  unfold count_kind, await, is_kind. simpl. rewrite filter_where_app, length_app, filter_where_cons.
  by destruct (bool_decide _).
Qed.

Lemma count_delete k l i t : l !! i = Some t → count_kind k l = (count_kind k (delete i l) + is_kind k t)%nat.
Proof.
  intros Hi. unfold count_kind, is_kind. rewrite <- (take_drop_middle l i t Hi) at 1. rewrite delete_take_drop.
  rewrite !filter_where_app, !length_app, filter_where_cons. destruct (bool_decide _); simpl; lia.
Qed.

(** A suspended handler adds its task; everything else about [await] is visible. *)
Lemma busy_await k t m : busy k (await t m) = busy k m.
Proof. by destruct k. Qed.

Ltac by_kind := let k := fresh "k" in intros k; rewrite ?count_await, ?busy_await; simpl; destruct k; simpl in *; try done; try lia.

(** Handlers that neither start nor end one of these operations. *)
Lemma busy_inv_same m m' : cm_tasks m' = cm_tasks m → (∀ k, busy k m' = busy k m) → busy_inv m → busy_inv m'.
Proof. intros Ht Hb H k. by rewrite Ht, Hb. Qed.

Lemma busy_inv_await t m : kind_of t = None → busy_inv m → busy_inv (await t m).
Proof. intros Ht H k. rewrite count_await, busy_await, H. unfold is_kind. rewrite Ht, bool_decide_false by done. simpl. lia. Qed.

(** Starting an operation: its flag was down and goes up. *)
Lemma busy_inv_start k t m m' :
  kind_of t = Some k → busy k m = false → busy k m' = true → (∀ k', k' ≠ k → busy k' m' = busy k' m) → cm_tasks m' = cm_tasks m →
  busy_inv m → busy_inv (await t m').
Proof.
  intros Ht H0 H1 Hk Hm H k'. rewrite count_await, busy_await, Hm, H. unfold is_kind. rewrite Ht.
  destruct (decide (k' = k)) as [->|Hne].
  - rewrite H0, H1, bool_decide_true by done. done.
  - rewrite Hk, bool_decide_false by congruence. simpl; lia.
Qed.

(** The state in which a task [t] resumes. *)
Definition resuming (t : Task) (m : CamManager) : Prop :=
  ∀ k, (count_kind k (cm_tasks m) + is_kind k t)%nat = Nat.b2n (busy k m).

Lemma resuming_pop m i t : busy_inv m → cm_tasks m !! i = Some t → resuming t (upd_tasks (delete i (cm_tasks m)) m).
Proof. intros H Hi k. simpl. rewrite <- (count_delete k _ _ _ Hi), H. by destruct k. Qed.

(** The next step of the same operation. *)
Lemma resuming_next t t' m m' :
  resuming t m → kind_of t' = kind_of t → cm_tasks m' = cm_tasks m → (∀ k, busy k m' = busy k m) → busy_inv (await t' m').
Proof. intros H Ht Hm Hb k. rewrite count_await, busy_await, Hm, Hb, <- H. unfold is_kind. by rewrite Ht. Qed.

(** The end of an operation. *)
Lemma resuming_end t k m m' :
  resuming t m → kind_of t = Some k → cm_tasks m' = cm_tasks m → busy k m' = false → (∀ k', k' ≠ k → busy k' m' = busy k' m) → busy_inv m'.
Proof.
  intros H Ht Hm H0 Hb k'. specialize (H k'). unfold is_kind in H. rewrite Ht in H. rewrite Hm. destruct (decide (k' = k)) as [->|Hne].
  - rewrite bool_decide_true in H by done. rewrite H0. simpl in *. destruct (busy k m); simpl in H; lia.
  - rewrite bool_decide_false in H by congruence. rewrite Hb by done. simpl in H. lia.
Qed.

(** A task that belongs to none of them. *)
Lemma resuming_plain t m m' :
  resuming t m → kind_of t = None → cm_tasks m' = cm_tasks m → (∀ k, busy k m' = busy k m) → busy_inv m'.
Proof.
  intros H Ht Hm Hb k. specialize (H k). unfold is_kind in H. rewrite Ht, bool_decide_false in H by done.
  rewrite Hm, Hb. simpl in H. lia.
Qed.

Lemma set_list_tasks l m : cm_tasks (set_list l m) = cm_tasks m.
Proof. by destruct l. Qed.
Lemma set_list_busy l m k : busy k (set_list l m) = busy k m.
Proof. by destruct l. Qed.
Lemma set_list_edit l m : cm_edit (set_list l m) = cm_edit m.
Proof. by destruct l. Qed.
Lemma set_list_table l m : cm_table (set_list l m) = cm_table m.
Proof. by destruct l. Qed.

Lemma set_list_add l m : cm_add (set_list l m) = cm_add m.
Proof. by destruct l. Qed.
Lemma set_list_disc l m : cm_disc (set_list l m) = cm_disc m.
Proof. by destruct l. Qed.

#[local] Hint Resolve set_list_tasks set_list_busy : js.

Ltac flags := let k := fresh "k" in intros k; intros; try apply set_list_busy; destruct k; simpl;
  rewrite ?set_list_add, ?set_list_table, ?set_list_disc, ?set_list_edit; first [done|congruence|idtac].

Lemma bulk_next_inv total rest failed m t :
  resuming t m → kind_of t = Some k_bulk_delete → busy_inv (bulk_next total rest failed m).1.
Proof.
  intros H Ht. destruct rest as [|id rest]; simpl.
  - apply busy_inv_await; [done|]. eapply (resuming_end t k_bulk_delete m); [exact H|exact Ht|done|done|flags].
  - eapply (resuming_next t); [exact H|by rewrite Ht|done|done].
Qed.

Lemma resume_inv origin t r m m' es : resuming t m → resume origin t r m = Some (m', es) → busy_inv m'.
Proof.
  intros H Hr. destruct t, r; simpl in Hr; try discriminate Hr; injection Hr as Hr; subst;
    try (apply (f_equal fst) in Hr; simpl fst in Hr; subst m').
  - eapply resuming_next; [exact H|done..].
  - eapply (resuming_end _ k_add); [exact H|done|done|done|flags].
  - eapply (resuming_end _ k_add); [exact H|done|simpl; apply set_list_tasks| |flags]; by destruct (sense_setup origin created).
  - by eapply bulk_next_inv.
  - by eapply bulk_next_inv.
  - eapply resuming_plain; [exact H|done|simpl; apply set_list_tasks|flags].
  - apply busy_inv_await; [done|]. eapply resuming_plain; [exact H|done|done|flags].
  - eapply resuming_plain; [exact H|done|done|flags].
  - eapply resuming_plain; [exact H|done|simpl; apply set_list_tasks|flags].
  - apply busy_inv_await; [done|]. eapply resuming_plain; [exact H|done|done|flags].
  - eapply resuming_plain; [exact H|done|done|flags].
  - eapply resuming_next; [exact H|done..].
  - eapply (resuming_end _ k_save); [exact H|done|done|done|flags].
  - eapply (resuming_end _ k_save); [exact H|done|simpl; apply set_list_tasks|done|flags].
  - eapply resuming_plain; [exact H|done|done|flags].
  - eapply resuming_plain; [exact H|done|done|flags].
  - eapply resuming_plain; [exact H|done|done|flags].
  - eapply resuming_plain; [exact H|done|done|flags].
  - destruct waiting as [|[|n]]; simpl; by eapply resuming_next; [exact H|..].
  - destruct waiting as [|[|n]]; simpl; by eapply resuming_next; [exact H|..].
  - eapply (resuming_end _ k_bulk_add); [exact H|done|simpl; apply set_list_tasks|done|flags].
  - apply busy_inv_await; [done|]. eapply (resuming_end _ k_reboot); [exact H|done|done|done|flags].
  - eapply (resuming_end _ k_reboot); [exact H|done|done|done|flags].
  - eapply resuming_plain; [exact H|done|simpl; apply set_list_tasks|flags].
Qed.

Ltac same := apply (busy_inv_same _ _ eq_refl); [let k := fresh "k" in intros k; by destruct k|assumption].

Lemma update_inv id data m : busy_inv m → busy_inv (handleUpdate id data m).1.
Proof. intros H. by apply busy_inv_await. Qed.

Lemma blur_inv f m : busy_inv m → busy_inv (blur_field f m).1.
Proof.
  intros H. unfold blur_field. destruct (ed_camera (cm_edit m)) as [c|]; [|done]. destruct (ed_inputs (cm_edit m)) as [i|]; [|done].
  destruct (String.eqb _ _); [done|]. cbn [fst handleUpdate]. destruct (remembers f); [|by apply busy_inv_await].
  apply (busy_inv_same (await TUpdate m)); [done|flags|by apply busy_inv_await].
Qed.

Lemma flag_inv k m : busy_inv m → busy_inv (toggle_flag k m).1.
Proof.
  intros H. unfold toggle_flag. destruct (ed_camera (cm_edit m)) as [c|]; [|done].
  destruct k; cbn [fst handleUpdate]; (apply (busy_inv_same (await TUpdate m)); [done|flags|by apply busy_inv_await]).
Qed.

Ltac start k m := eapply (busy_inv_start k _ m); [reflexivity|assumption|reflexivity|flags|reflexivity|assumption].

Lemma manager_step_inv origin e m : busy_inv m → busy_inv (manager_step origin e m).1.
Proof.
  intros H. destruct e; simpl; try done; try same;
    try (repeat match goal with |- context [if ?b then _ else _] => destruct b eqn:? end; first [done|same|by apply busy_inv_await|idtac]).
  - apply andb_true_iff in Heqb as [[_ Hb%negb_true_iff]%andb_true_iff _]. start k_add m.
  - apply andb_true_iff in Heqb as [[[_ Hn]%andb_true_iff _]%andb_true_iff Hb%negb_true_iff]. unfold handleBulkDelete.
    destruct (tp_selected (cm_table m)) as [|id ids]; [done|]. start k_bulk_delete m.
  - apply andb_true_iff in Heqb as [_ Hb%negb_true_iff]. unfold handleBulkAdd. destruct (Nat.eqb _ _); [done|].
    destruct (omap _ _); simpl; start k_bulk_add m.
  - destruct (ed_camera (cm_edit m)); [|done]. destruct (bool_decide _); [same|done].
  - by apply blur_inv.
  - by apply flag_inv.
  - unfold handleSaveAndClose. destruct (ed_camera (cm_edit m)) as [c|]; [|done].
    destruct (save_data _ _); [same|]. start k_save m.
  - unfold click_reboot. destruct (ed_camera (cm_edit m)) as [c|]; [|done]. destruct confirmed; [|done]. start k_reboot m.
  - destruct (cm_tasks m !! i) as [t|] eqn:Hi; [|done].
    destruct (resume _ _ _ _) as [[m' es]|] eqn:Hr; [|done]. eapply resume_inv; [|exact Hr]. by apply resuming_pop.
Qed.

Lemma manager_run_cons origin e es m :
  manager_run origin (e :: es) m =
  ((manager_run origin es (manager_step origin e m).1).1,
   ((manager_step origin e m).2 ++ (manager_run origin es (manager_step origin e m).1).2)%list).
Proof. simpl. destruct (manager_step origin e m) as [m1 f1]. simpl. by destruct (manager_run origin es m1). Qed.

Lemma manager_run_inv origin es m : busy_inv m → busy_inv (manager_run origin es m).1.
Proof.
  revert m. induction es as [|e es IH]; intros m H; [done|]. rewrite manager_run_cons. apply IH. by apply manager_step_inv.
Qed.

Lemma initial_busy cameras : busy_inv (initial_manager cameras).
Proof. intros k. by destruct k. Qed.

(** The dialog: its camera, tab and inputs, and whether it is saving. *)
Definition dialog (m : CamManager) := (ed_camera (cm_edit m), ed_tab (cm_edit m), ed_inputs (cm_edit m), ed_saving (cm_edit m)).

Lemma count_elem k t i l : l !! i = Some t → kind_of t = Some k → (0 < count_kind k l)%nat.
Proof. intros Hi Ht. rewrite (count_delete k l i t Hi). unfold is_kind. rewrite bool_decide_true by done. simpl. lia. Qed.

Lemma bulk_next_edit total rest failed m : cm_edit (bulk_next total rest failed m).1 = cm_edit m.
Proof. by destruct rest. Qed.

Lemma resume_dialog origin t r m m' es : kind_of t ≠ Some k_save → resume origin t r m = Some (m', es) → dialog m' = dialog m.
Proof.
  intros Hk Hr. destruct t, r; simpl in Hr; try discriminate Hr; try (by destruct Hk); apply Some_inj, (f_equal fst) in Hr; simpl fst in Hr; subst m';
    unfold dialog; simpl; rewrite ?bulk_next_edit, ?set_list_edit; try done; by destruct waiting as [|[|?]].
Qed.

(** Replies leave the dialog alone unless it is saving. *)
Lemma settle_dialog origin i r m :
  busy_inv m → ed_saving (cm_edit m) = false → dialog (manager_step origin (Settles i r) m).1 = dialog m.
Proof.
  intros H Hs. simpl. destruct (cm_tasks m !! i) as [t|] eqn:Hi; [|done].
  assert (kind_of t ≠ Some k_save) as Hk.
  { intros Ht. pose proof (count_elem _ _ _ _ Hi Ht) as Hc. rewrite (H k_save) in Hc. simpl in Hc. rewrite Hs in Hc. simpl in Hc. lia. }
  destruct (resume _ _ _ _) as [[m' es]|] eqn:Hr; [|done]. exact (resume_dialog _ _ _ _ _ _ Hk Hr).
Qed.

Definition replies (rs : list (nat * Reply)) : list ManagerEvent := (λ p, Settles p.1 p.2) <$> rs.

Lemma replies_dialog origin rs m :
  busy_inv m → ed_saving (cm_edit m) = false → dialog (manager_run origin (replies rs) m).1 = dialog m.
Proof.
  revert m. induction rs as [|[i r] rs IH]; intros m H Hs; [done|].
  change (replies ((i, r) :: rs)) with (Settles i r :: replies rs). rewrite manager_run_cons.
  pose proof (settle_dialog origin i r m H Hs) as Hd. cbn [fst]. rewrite IH; [done|by apply manager_step_inv|].
  unfold dialog in Hd. congruence.
Qed.

Lemma manager_run_app origin es1 es2 m :
  manager_run origin (es1 ++ es2) m =
  ((manager_run origin es2 (manager_run origin es1 m).1).1,
   ((manager_run origin es1 m).2 ++ (manager_run origin es2 (manager_run origin es1 m).1).2)%list).
Proof.
  revert m. induction es1 as [|e es1 IH]; intros m; [simpl; by destruct (manager_run origin es2 m)|].
  change ((e :: es1) ++ es2)%list with (e :: (es1 ++ es2))%list. rewrite !manager_run_cons. cbn [fst snd]. rewrite IH. cbn [fst snd]. by rewrite app_assoc.
Qed.

(** The reply to the handler suspended last. *)
Lemma settle_awaited origin n t r m :
  n = length (cm_tasks m) → manager_step origin (Settles n r) (await t m) = default (await t m, []) (resume origin t r m).
Proof.
  intros ->. simpl. rewrite list_lookup_middle by done.
  rewrite (delete_middle (cm_tasks m) [] t), app_nil_r. by destruct m.
Qed.

Lemma save_data_elem c i f v : (field_key f, v) ∈ save_data c (Some i) ↔ v = JStr (i f) ∧ i f ≠ cam_field f c.
Proof.
  unfold save_data. rewrite list_elem_of_fmap. setoid_rewrite elem_of_filter_where. setoid_rewrite negb_true_iff.
  setoid_rewrite String.eqb_neq. split.
  - intros (g & [= Hk ->] & Hne & _). assert (g = f) as -> by (by destruct f, g). done.
  - intros [-> Hne]. exists f. split_and!; [done..|]. destruct f; unfold all_fields; set_solver.
Qed.

Lemma save_data_nil c i : save_data c (Some i) = [] ↔ ∀ f, i f = cam_field f c.
Proof.
  split.
  - intros H f. destruct (decide (i f = cam_field f c)) as [|Hne]; [done|].
    assert ((field_key f, JStr (i f)) ∈ save_data c (Some i)) as Hin by by apply save_data_elem.
    rewrite H in Hin. by apply elem_of_nil in Hin.
  - intros H. unfold save_data, all_fields. rewrite !filter_where_cons. by rewrite !H, !String.eqb_refl.
Qed.

Definition typed (f : Field) (v : string) (i : Field → string) : Field → string := λ g, if decide (g = f) then v else i g.

(** Typing into a mounted input and leaving it. *)
Lemma type_and_blur origin f v m c i :
  ed_camera (cm_edit m) = Some c → ed_inputs (cm_edit m) = Some i →
  manager_run origin [TypeField f v; BlurField f] m =
  (let m' := upd_edit (type_field f v (cm_edit m)) m in
   if String.eqb v (cam_field f c) then (m', [])
   else (if remembers f then upd_edit (set_ed_camera (set_text f v c) (type_field f v (cm_edit m))) (await TUpdate m') else await TUpdate m',
         [UpdateCamera (cam_id c) [(field_key f, JStr v)]])).
Proof.
  intros Hc Hi. rewrite !manager_run_cons. cbn [manager_step fst snd]. unfold blur_field. simpl. rewrite Hc, Hi. simpl.
  rewrite decide_True by done. destruct (String.eqb v _); [done|]. by destruct (remembers f).
Qed.

Lemma save_unchanged origin m c i :
  ed_camera (cm_edit m) = Some c → ed_inputs (cm_edit m) = Some i → ed_saving (cm_edit m) = false → (∀ g, i g = cam_field g c) →
  manager_step origin SaveAndClose m = (upd_edit (closeSettings (cm_edit m)) m, []).
Proof.
  intros Hc Hi Hs Hf. cbn [manager_step]. rewrite Hs. unfold handleSaveAndClose. rewrite Hc, Hi. by rewrite (proj2 (save_data_nil c i) Hf).
Qed.

Lemma set_text_field f v g c : remembers f = true → cam_field g (set_text f v c) = if decide (g = f) then v else cam_field g c.
Proof. by destruct f, g. Qed.

(** The answers to the operation that waits in place [n], in order. *)
Definition answers (n : nat) (good : Reply) (oks : list bool) : list ManagerEvent :=
  (λ ok : bool, Settles n (if ok then good else RFail None)) <$> oks.

Definition failures (oks : list bool) : Z := Z.of_nat (length (filter_where negb oks)).

Lemma failures_cons ok oks : failures (ok :: oks) = (if ok then 0 else 1) + failures oks.
Proof. unfold failures. rewrite filter_where_cons. destruct ok; simpl negb; cbn iota; simpl length; lia. Qed.

Definition cleared (t : TablePart) : TablePart := mkTablePart (tp_confirmDeleteId t) [] false false.

Lemma bulk_loop origin total n l oks rest failed m :
  length oks = length rest → n = length (cm_tasks m) →
  let start := bulk_next total rest failed m in
  let '(m1, fx) := manager_run origin (answers n ROk oks ++ [Settles n (RCameras (Some l))]) start.1 in
  (start.2 ++ fx)%list = ((DeleteCamera <$> rest) ++ [ListCameras; bulk_toast total (failed + failures oks)])%list ∧
  m1 = set_list (Some l) (upd_table (cleared (cm_table m)) m).
Proof.
  intros Hlen Hn. revert rest failed Hlen. induction oks as [|ok oks IH]; intros [|id rest] failed [=].
  - cbn [answers fmap list_fmap app bulk_next bulk_over fst snd]. rewrite manager_run_cons, settle_awaited by done.
    split; [simpl; by rewrite Z.add_0_r|done].
  - change (answers n ROk (ok :: oks) ++ ?r)%list with (Settles n (if ok then ROk else RFail None) :: (answers n ROk oks ++ r))%list.
    cbn [bulk_next fst snd]. rewrite manager_run_cons, settle_awaited by done.
    replace (resume origin (TBulkDelete total (id :: rest) failed) (if ok then ROk else RFail None) m)
      with (Some (bulk_next total rest (failed + (if ok then 0 else 1)) m)) by (destruct ok; simpl; [by rewrite Z.add_0_r|done]).
    cbn [default from_option Datatypes.id]. specialize (IH rest (failed + (if ok then 0 else 1)) ltac:(done)). cbn zeta in IH.
    destruct (manager_run origin (answers n ROk oks ++ _)%list _) as [m1 fx]. destruct IH as [Hfx ->]. cbn [fst snd]. split; [|done].
    rewrite failures_cons, Z.add_assoc. csimpl. by rewrite Hfx.
Qed.

Lemma bulk_add_loop origin n l oks k m :
  length oks = S k → n = length (cm_tasks m) →
  manager_run origin (answers n (RCamera None) oks ++ [Settles n (RCameras (Some l))]) (await (TBulkAdd (S k)) m) =
  ((manager_run origin [Settles n (RCameras (Some l))] (await TBulkAddRefresh m)).1, [ListCameras]).
Proof.
  intros Hlen Hn. revert k Hlen. induction oks as [|ok oks IH]; intros k [=].
  change (answers n (RCamera None) (ok :: oks) ++ ?r)%list
    with (Settles n (if ok then RCamera None else RFail None) :: (answers n (RCamera None) oks ++ r))%list.
  rewrite manager_run_cons, settle_awaited by done.
  replace (resume origin (TBulkAdd (S k)) (if ok then RCamera None else RFail None) m)
    with (Some (match k with S n' => (await (TBulkAdd (S n')) m, []) | O => bulk_added m end)) by by destruct ok.
  destruct k as [|k]; cbn [default from_option Datatypes.id fst snd].
  - destruct oks; [|done]. cbn [answers fmap list_fmap app bulk_added fst snd].
    rewrite manager_run_cons, settle_awaited by done. done.
  - rewrite IH by done. done.
Qed.

(** ** Properties *)

(** Whatever is clicked, typed and answered in whatever order, adding, deleting the
    selection, saving, rebooting and bulk adding each run at most once at a time, and the
    flag that disables the button of each is up exactly while one runs. *)
Theorem busy_flags_exact origin es cameras k :
  let m := (manager_run origin es (initial_manager cameras)).1 in
  count_kind k (cm_tasks m) = if busy k m then 1%nat else 0%nat.
Proof. intros m. subst m. rewrite (manager_run_inv origin es _ (initial_busy cameras) k). by destruct (busy k _). Qed.

(** Save & Close sends one update with exactly the inputs that differ from the
    dialog's camera, under their keys, or nothing and closes if none does.  When the
    update is stored the list is loaded again and the dialog closes; when it fails the
    dialog stays open with what was typed. *)
Theorem save_close_exact origin m c i l msg :
  ed_camera (cm_edit m) = Some c → ed_inputs (cm_edit m) = Some i → ed_saving (cm_edit m) = false →
  let n := length (cm_tasks m) in
  let data := save_data c (Some i) in
  (∀ f v, (field_key f, v) ∈ data ↔ v = JStr (i f) ∧ i f ≠ cam_field f c) ∧
  ((∀ f, i f = cam_field f c) → manager_run origin [SaveAndClose] m = (upd_edit (closeSettings (cm_edit m)) m, [])) ∧
  ((∃ f, i f ≠ cam_field f c) →
   let '(m1, fx) := manager_run origin [SaveAndClose; Settles n ROk; Settles n (RCameras (Some l))] m in
   fx = [UpdateCamera (cam_id c) data; ListCameras] ∧ ed_camera (cm_edit m1) = None ∧ ed_saving (cm_edit m1) = false ∧
   cm_cameras m1 = l ∧ cm_tasks m1 = cm_tasks m) ∧
  ((∃ f, i f ≠ cam_field f c) →
   let '(m1, fx) := manager_run origin [SaveAndClose; Settles n (RFail (Some msg))] m in
   fx = [UpdateCamera (cam_id c) data; PushToast false "Save failed" msg] ∧ dialog m1 = dialog m).
Proof.
  intros Hc Hi Hs n data.
  assert (Hstep : manager_step origin SaveAndClose m = handleSaveAndClose m) by (simpl; by rewrite Hs).
  assert (Hgo : (∃ f, i f ≠ cam_field f c) → manager_step origin SaveAndClose m =
    (await TSave (upd_edit (set_ed_saving true (cm_edit m)) m), [UpdateCamera (cam_id c) data])).
  { intros [f Hf]. rewrite Hstep. unfold handleSaveAndClose. rewrite Hc, Hi. destruct (save_data c (Some i)) eqn:Hd; [|done].
    by apply save_data_nil with (f := f) in Hd. }
  split_and!; [intros f v; apply save_data_elem| | |].
  - intros Hf. rewrite manager_run_cons, Hstep. unfold handleSaveAndClose. rewrite Hc, Hi. by rewrite (proj2 (save_data_nil c i) Hf).
  - intros Hf. rewrite manager_run_cons, Hgo by done. cbn [fst snd]. rewrite manager_run_cons.
    rewrite settle_awaited by done. cbn [resume default from_option Datatypes.id fst snd].
    rewrite manager_run_cons, settle_awaited by done. done.
  - intros Hf. rewrite manager_run_cons, Hgo by done. cbn [fst snd]. rewrite manager_run_cons.
    rewrite settle_awaited by done. cbn [resume default from_option Datatypes.id fst snd].
    split; [done|]. unfold dialog. simpl. by rewrite Hs.
Qed.

Definition cam1 : Camera := new_camera "c1" "Gate".
Definition cam2 : Camera := new_camera "c2" "Yard".
Definition milesight_cam : Camera :=
  mkCamera "c3" "Dock" "10.0.0.3" "admin" EmptyString EmptyString 30 true "continuous" 5 10 EmptyString true false EmptyString EmptyString
    false "online" EmptyString false "Milesight" "MS-C5361" EmptyString None None EmptyString EmptyString.
Definition two_cameras : CamManager := initial_manager [cam1; cam2].
Definition editing_cam1 : CamManager := (manager_run "https://nvr" [OpenSettings cam1] two_cameras).1.

Lemma save_close_exact_witness :
  let m := upd_edit (type_field f_name "North gate" (cm_edit editing_cam1)) editing_cam1 in
  let '(m1, fx) := manager_run "https://nvr" [SaveAndClose; Settles 0 ROk; Settles 0 (RCameras (Some [cam2]))] m in
  fx = [UpdateCamera "c1" [("name", JStr "North gate")]; ListCameras] ∧ ed_camera (cm_edit m1) = None ∧ ed_saving (cm_edit m1) = false ∧
  cm_cameras m1 = [cam2] ∧ cm_tasks m1 = [].
Proof.
  intros m.
  destruct (save_close_exact "https://nvr" m cam1 (typed f_name "North gate" (inputs_of cam1)) [cam2] EmptyString) as (_ & _ & H & _);
    [reflexivity..|].
  apply H. exists f_name. vm_compute. discriminate.
Defined.

(** A name or group that was changed and then put back is lost: leaving the input
    sends the new value, but the dialog's camera keeps the old one, so when the old value
    is typed again nothing is sent, and Save & Close closes: the last update carries the
    value that the operator had undone. *)
Theorem reverted_name_not_sent origin m c i f v rs :
  busy_inv m → ed_camera (cm_edit m) = Some c → ed_inputs (cm_edit m) = Some i → ed_saving (cm_edit m) = false →
  (∀ g, i g = cam_field g c) → remembers f = false → v ≠ cam_field f c →
  let '(m1, fx1) := manager_run origin [TypeField f v; BlurField f] m in
  let m2 := (manager_run origin (replies rs) m1).1 in
  let '(m3, fx3) := manager_run origin [TypeField f (cam_field f c); BlurField f; SaveAndClose] m2 in
  fx1 = [UpdateCamera (cam_id c) [(field_key f, JStr v)]] ∧ fx3 = [] ∧ ed_camera (cm_edit m3) = None.
Proof.
  intros H Hc Hi Hs Hf Hr Hv. rewrite (type_and_blur origin f v m c i Hc Hi). cbn zeta.
  rewrite (proj2 (String.eqb_neq _ _) Hv), Hr.
  set (m1 := await TUpdate _). set (m2 := (manager_run origin (replies rs) m1).1).
  assert (dialog m2 = dialog m1) as Hd by (apply replies_dialog; [by apply busy_inv_await|done]).
  assert (ed_camera (cm_edit m2) = Some c ∧ ed_inputs (cm_edit m2) = Some (typed f v i) ∧ ed_saving (cm_edit m2) = false) as (Hc2 & Hi2 & Hs2).
  { unfold dialog in Hd. subst m1. simpl in Hd. rewrite Hc, Hi, Hs in Hd. by simplify_eq/=. }
  change [TypeField f (cam_field f c); BlurField f; SaveAndClose] with ([TypeField f (cam_field f c); BlurField f] ++ [SaveAndClose])%list.
  rewrite (manager_run_app origin), (type_and_blur origin f (cam_field f c) m2 c _ Hc2 Hi2). cbn zeta.
  rewrite String.eqb_refl, manager_run_cons. cbn [fst snd].
  rewrite (save_unchanged _ _ c (typed f (cam_field f c) (typed f v i))); [done|done|simpl; by rewrite Hi2|done|].
  intros g. unfold typed. destruct (decide (g = f)) as [->|]; [done|apply Hf].
Qed.

Lemma reverted_name_not_sent_witness :
  let '(m1, fx1) := manager_run "https://nvr" [TypeField f_name "Dock"; BlurField f_name] editing_cam1 in
  let m2 := (manager_run "https://nvr" (replies [(0%nat, ROk); (0%nat, RCameras (Some [cam1]))]) m1).1 in
  let '(m3, fx3) := manager_run "https://nvr" [TypeField f_name "Gate"; BlurField f_name; SaveAndClose] m2 in
  fx1 = [UpdateCamera "c1" [("name", JStr "Dock")]] ∧ fx3 = [] ∧ ed_camera (cm_edit m3) = None.
Proof.
  refine (reverted_name_not_sent "https://nvr" editing_cam1 cam1 (inputs_of cam1) f_name "Dock"
            [(0%nat, ROk); (0%nat, RCameras (Some [cam1]))] _ eq_refl eq_refl eq_refl _ eq_refl _).
  - apply manager_run_inv, initial_busy.
  - reflexivity.
  - vm_compute. discriminate.
Defined.

(** A failed autosave of an address, stream or user name is dropped: the dialog's
    camera already has the new value, so Save & Close finds no difference, sends nothing
    and closes, although the input shows a value that was never stored. *)
Theorem failed_autosave_dropped origin m c i f v msg :
  ed_camera (cm_edit m) = Some c → ed_inputs (cm_edit m) = Some i → ed_saving (cm_edit m) = false →
  (∀ g, i g = cam_field g c) → remembers f = true → v ≠ cam_field f c →
  let '(m1, fx) := manager_run origin [TypeField f v; BlurField f; Settles (length (cm_tasks m)) (RFail (Some msg)); SaveAndClose] m in
  fx = [UpdateCamera (cam_id c) [(field_key f, JStr v)]; PushToast false "Update failed" msg] ∧
  ed_camera (cm_edit m1) = None ∧ cm_tasks m1 = cm_tasks m ∧ cm_cameras m1 = cm_cameras m.
Proof.
  intros Hc Hi Hs Hf Hr Hv.
  change [TypeField f v; BlurField f; ?a; ?b] with ([TypeField f v; BlurField f] ++ [a; b])%list.
  rewrite (manager_run_app origin), (type_and_blur origin f v m c i Hc Hi). cbn zeta.
  rewrite (proj2 (String.eqb_neq _ _) Hv), Hr. cbn [fst snd].
  set (m1 := upd_edit (set_ed_camera (set_text f v c) (type_field f v (cm_edit m))) m).
  change (upd_edit (set_ed_camera (set_text f v c) (type_field f v (cm_edit m))) (await TUpdate _)) with (await TUpdate m1).
  rewrite manager_run_cons, settle_awaited by done. cbn [resume default from_option Datatypes.id fst snd]. rewrite manager_run_cons.
  rewrite (save_unchanged _ m1 (set_text f v c) (typed f v i)); [done|done|simpl; by rewrite Hi|done|].
  intros g. rewrite set_text_field by done. unfold typed. destruct (decide (g = f)); [done|apply Hf].
Qed.

Lemma failed_autosave_dropped_witness :
  let '(m1, fx) := manager_run "https://nvr"
    [TypeField f_onvif "10.0.0.9"; BlurField f_onvif; Settles 0 (RFail (Some "HTTP 500")); SaveAndClose] editing_cam1 in
  fx = [UpdateCamera "c1" [("onvif_address", JStr "10.0.0.9")]; PushToast false "Update failed" "HTTP 500"] ∧
  ed_camera (cm_edit m1) = None ∧ cm_tasks m1 = [] ∧ cm_cameras m1 = [cam1; cam2].
Proof.
  refine (failed_autosave_dropped "https://nvr" editing_cam1 cam1 (inputs_of cam1) f_onvif "10.0.0.9" "HTTP 500" eq_refl eq_refl eq_refl _ eq_refl _).
  - reflexivity.
  - vm_compute. discriminate.
Defined.

(** Deleting the selection sends one deletion per selected camera, in the order of
    selection and each after the answer to the one before, whatever fails; then the list
    is loaded again, the selection is empty, and one message says how many failed. *)
Theorem bulk_delete_exact origin m oks l :
  can_bulk_delete m = true → length oks = length (tp_selected (cm_table m)) →
  let n := length (cm_tasks m) in
  let '(m1, fx) := manager_run origin (ClickBulkDelete :: answers n ROk oks ++ [Settles n (RCameras (Some l))]) m in
  fx = ((DeleteCamera <$> tp_selected (cm_table m)) ++
        [ListCameras; bulk_toast (length oks) (failures oks)])%list ∧
  tp_selected (cm_table m1) = [] ∧ tp_bulkDeleting (cm_table m1) = false ∧ cm_cameras m1 = l ∧ cm_tasks m1 = cm_tasks m.
Proof.
  intros Hcan Hlen n. rewrite manager_run_cons. cbn [manager_step]. rewrite Hcan. unfold handleBulkDelete.
  pose proof (bulk_loop origin (length (tp_selected (cm_table m))) n l oks (tp_selected (cm_table m)) 0
                (upd_table (set_bulkDeleting true (cm_table m)) m) Hlen eq_refl) as H. cbn zeta in H.
  destruct (manager_run origin _ _) as [m1 fx]. destruct H as [Hfx ->]. cbn [fst snd]. rewrite Hfx, Hlen. done.
Qed.

Lemma bulk_delete_exact_witness :
  let m := (manager_run "https://nvr" [ToggleSelect "c2"; ToggleSelect "c1"; AskBulkDelete] two_cameras).1 in
  let '(m1, fx) := manager_run "https://nvr" (ClickBulkDelete :: answers 0 ROk [true; false] ++ [Settles 0 (RCameras (Some [cam1]))]) m in
  fx = [DeleteCamera "c2"; DeleteCamera "c1"; ListCameras; PushToast false "Bulk delete partial" "1 camera could not be removed"] ∧
  tp_selected (cm_table m1) = [] ∧ tp_bulkDeleting (cm_table m1) = false ∧ cm_cameras m1 = [cam1] ∧ cm_tasks m1 = [].
Proof.
  exact (bulk_delete_exact "https://nvr" (manager_run "https://nvr" [ToggleSelect "c2"; ToggleSelect "c1"; AskBulkDelete] two_cameras).1
           [true; false] [cam1] eq_refl eq_refl).
Defined.

(** Deleting one camera with its own button does not take it out of the selection, so
    a later deletion of the selection asks for it again. *)
Theorem deleted_stays_selected origin m id name l :
  tp_confirmDeleteId (cm_table m) = Some id → cam_name <$> find_where (λ c, String.eqb (cam_id c) id) (cm_cameras m) = Some name →
  let n := length (cm_tasks m) in
  let '(m1, fx) := manager_run origin [ClickDelete id; Settles n ROk; Settles n (RCameras (Some l))] m in
  fx = [DeleteCamera id; ListCameras; PushToast true "Camera removed" name] ∧
  cm_cameras m1 = l ∧ tp_selected (cm_table m1) = tp_selected (cm_table m).
Proof.
  intros Hid Hname n. rewrite manager_run_cons. cbn [manager_step]. rewrite bool_decide_true by done. unfold handleDelete. rewrite Hname.
  cbn [default from_option Datatypes.id fst snd]. rewrite manager_run_cons, settle_awaited by done. cbn [resume default from_option Datatypes.id fst snd].
  rewrite manager_run_cons, settle_awaited by done. done.
Qed.

Lemma deleted_stays_selected_witness :
  let m := (manager_run "https://nvr" [ToggleSelect "c1"; AskDelete "c1"] two_cameras).1 in
  let '(m1, fx) := manager_run "https://nvr" [ClickDelete "c1"; Settles 0 ROk; Settles 0 (RCameras (Some [cam2]))] m in
  fx = [DeleteCamera "c1"; ListCameras; PushToast true "Camera removed" "Gate"] ∧
  cm_cameras m1 = [cam2] ∧ tp_selected (cm_table m1) = ["c1"].
Proof.
  exact (deleted_stays_selected "https://nvr" (manager_run "https://nvr" [ToggleSelect "c1"; AskDelete "c1"] two_cameras).1
           "c1" "Gate" [cam2] eq_refl eq_refl).
Defined.

(** Adding the selected devices posts one camera per selected address that was
    discovered, with the credentials typed once, and whatever fails ends with the list
    loaded again and the dialog closed, without a message. *)
Theorem bulk_add_silent origin m oks l :
  let d := cm_disc m in
  let creates := omap (create_of_device d) (dp_selected d) in
  dp_show d = true → dp_adding d = false → dp_selected d ≠ [] → length oks = length creates →
  let n := length (cm_tasks m) in
  let '(m1, fx) := manager_run origin (ClickBulkAdd :: answers n (RCamera None) oks ++ [Settles n (RCameras (Some l))]) m in
  fx = (creates ++ [ListCameras])%list ∧ dp_show (cm_disc m1) = false ∧ dp_adding (cm_disc m1) = false ∧
  cm_cameras m1 = l ∧ cm_tasks m1 = cm_tasks m.
Proof.
  intros d creates Hs Ha Hsel Hlen n. rewrite manager_run_cons. cbn [manager_step]. fold d. rewrite Hs, Ha. cbn [andb negb].
  unfold handleBulkAdd. fold d. fold creates. destruct (dp_selected d) as [|x sel] eqn:Hd; [done|]. cbn [length Nat.eqb].
  destruct creates as [|fx fxs] eqn:Hc; cbn [fst snd].
  - destruct oks; [|done]. cbn [answers fmap list_fmap app bulk_added fst snd]. rewrite manager_run_cons, settle_awaited by done. done.
  - rewrite (bulk_add_loop origin n l oks (length fxs)) by done. cbn [fst snd]. rewrite manager_run_cons, settle_awaited by done. done.
Qed.

Definition device1 : DiscoveredDevice := mkDiscoveredDevice "10.0.0.7" "Lobby" "Acme" "A1" EmptyString.

Lemma bulk_add_silent_witness :
  let m := (manager_run "https://nvr" [ClickDiscover false; Settles 0 (RDevices [device1]); ClickDevice "10.0.0.7"; EditAuth "root" "pw"]
              two_cameras).1 in
  let '(m1, fx) := manager_run "https://nvr" (ClickBulkAdd :: answers 0 (RCamera None) [false] ++ [Settles 0 (RCameras (Some [cam1; cam2]))]) m in
  fx = [CreateCamera "Lobby" "10.0.0.7" "root" "pw" None; ListCameras] ∧ dp_show (cm_disc m1) = false ∧ dp_adding (cm_disc m1) = false ∧
  cm_cameras m1 = [cam1; cam2] ∧ cm_tasks m1 = [].
Proof.
  refine (bulk_add_silent "https://nvr" (manager_run "https://nvr" [ClickDiscover false; Settles 0 (RDevices [device1]);
            ClickDevice "10.0.0.7"; EditAuth "root" "pw"] two_cameras).1 [false] [cam1; cam2] eq_refl eq_refl _ eq_refl).
  vm_compute. discriminate.
Defined.

(** The tab of the settings dialog outlives the camera: after a Milesight camera was
    closed on a Milesight tab, the dialog of a camera of another make opens with no tab
    marked and no content. *)
Theorem settings_open_blank origin m c1 c2 t :
  ed_camera (cm_edit m) = None → ed_saving (cm_edit m) = false →
  isMilesight c1 = true → isMilesight c2 = false → t = tab_vca ∨ t = tab_milesight →
  let m1 := (manager_run origin [OpenSettings c1; ChooseTab t; CloseSettings; OpenSettings c2] m).1 in
  ed_camera (cm_edit m1) = Some c2 ∧ shown_tab c2 (ed_tab (cm_edit m1)) = None ∧ (ed_tab (cm_edit m1) ∉ tab_buttons c2) ∧
  ed_inputs (cm_edit m1) = None.
Proof.
  intros Hc Hs H1 H2 Ht m1.
  assert (t ≠ tab_general ∧ bool_decide (t ∈ tab_buttons c1) = true ∧ shown_tab c2 t = None ∧ t ∉ tab_buttons c2) as (Hg & Hb & Hsh & Hn).
  { unfold tab_buttons, shown_tab. rewrite H1, H2. destruct Ht as [-> | ->]; split_and!; try done; try (apply bool_decide_eq_true); set_solver. }
  assert (cm_edit m1 = mkEditPart (Some c2) t (ed_rebooting (cm_edit m)) false None) as ->; [|done].
  unfold m1. rewrite !manager_run_cons. cbn [manager_step fst snd]. rewrite Hc. simpl. rewrite Hb. simpl. rewrite Hs. simpl.
  unfold openSettings. simpl. by rewrite Hs, decide_False.
Qed.

Lemma settings_open_blank_witness :
  isMilesight milesight_cam = true ∧ isMilesight cam1 = false ∧
  shown_tab cam1 (ed_tab (cm_edit (manager_run "https://nvr"
    [OpenSettings milesight_cam; ChooseTab tab_vca; CloseSettings; OpenSettings cam1] two_cameras).1)) = None.
Proof.
  split_and!; [reflexivity..|].
  destruct (settings_open_blank "https://nvr" two_cameras milesight_cam cam1 tab_vca eq_refl eq_refl eq_refl eq_refl (or_introl eq_refl))
    as (_ & H & _).
  exact H.
Defined.
