(* ===== verification/AdminConsole.v ===== *)
(** * The administration page

    [app/admin/page.tsx]: user accounts (creation, roles, passwords, profiles), the lists
    derived from them, and the tab of sites and customers with its search, filters and
    pages; with the server's profile update ([internal/api/users.go],
    [internal/database/db.go]), which the page relies on.

    [handleCreateUser] is a [useCallback] whose dependencies are some of the fields it
    reads: the others it reads as they were when a dependency last changed.  The model
    keeps those captured values apart from the form. *)

From S2P Require Import Prelude Types Http IronsightApi.
From stdpp Require Import pretty gmap.
#[local] Open Scope string_scope.
#[local] Open Scope Z_scope.

(** ** Accounts *)

(** A row of the users table; [NULL] is [None]. *)
Record Account := mkAccount {
  ac_id : string;
  ac_username : string;
  ac_role : string;
  ac_display_name : string;
  ac_email : string;
  ac_phone : string;
  ac_organization_id : option string;
  ac_assigned_site_ids : list string
}.

(** [UserPublic] as the page uses it. *)
Record UserPublic := mkUserPublic {
  up_id : string;
  up_username : string;
  up_role : string;
  up_display_name : string;
  up_email : string;
  up_phone : string;
  up_organization_id : option string;
  up_assigned_site_ids : list string
}.

Definition public_of (a : Account) : UserPublic :=
  mkUserPublic (ac_id a) (ac_username a) (ac_role a) (ac_display_name a) (ac_email a) (ac_phone a) (ac_organization_id a)
    (ac_assigned_site_ids a).

(** ** The server's profile update *)

Record UserProfileUpdate := mkUserProfileUpdate {
  pu_display_name : option string;
  pu_email : option string;
  pu_phone : option string;
  pu_organization_id : option string;
  pu_assigned_site_ids : option (list string)   (* a nil slice is [None] *)
}.

(** A [*string] of the request body. *)
Definition decode_str (j : option json) : option (option string) :=
  match j with
  | None | Some JNull => Some None
  | Some (JStr s) => Some (Some s)
  | Some _ => None
  end.

Definition str_of (j : json) : option string := match j with JStr s => Some s | _ => None end.

(** A [[]string] of the request body. *)
Definition decode_strs (j : option json) : option (option (list string)) :=
  match j with
  | None | Some JNull => Some None
  | Some (JArr l) => Some <$> mapM str_of l
  | Some _ => None
  end.

(** [json.NewDecoder(r.Body).Decode(&update)], for keys spelt as in the tags. *)
Definition decode_update (body : json) : option UserProfileUpdate :=
  match body with
  | JObj _ =>
      d ← decode_str (jget "display_name" body);
      e ← decode_str (jget "email" body);
      p ← decode_str (jget "phone" body);
      o ← decode_str (jget "organization_id" body);
      s ← decode_strs (jget "assigned_site_ids" body);
      Some (mkUserProfileUpdate d e p o s)
  | _ => None
  end.

Definition nullableStr (s : string) : option string := if truthy_str s then Some s else None.
Definition derefStr (o : option string) : string := default EmptyString o.

(** The [UPDATE]: text columns coalesce, organisation and sites are overwritten. *)
Definition updated (u : UserProfileUpdate) (a : Account) : Account :=
  mkAccount (ac_id a) (ac_username a) (ac_role a)
    (default (ac_display_name a) (pu_display_name u)) (default (ac_email a) (pu_email u)) (default (ac_phone a) (pu_phone u))
    (nullableStr (derefStr (pu_organization_id u))) (default [] (pu_assigned_site_ids u)).

Definition UpdateUserProfile (id : string) (u : UserProfileUpdate) (db : gmap string Account) : gmap string Account := alter (updated u) id db.

Record Claims := mkClaims { cl_role : string; cl_UserID : string }.

(** [valid] is [uuid.Parse]'s verdict on the path parameter. *)
Definition HandleUpdateUserProfile (valid : string → bool) (claims : option Claims) (id : string) (body : json) (db : gmap string Account)
    : Z * option UserPublic * gmap string Account :=
  match claims with
  | None => (401, None, db)
  | Some c =>
      if negb (valid id) then (400, None, db)
      else if negb (String.eqb (cl_role c) "admin") && negb (String.eqb id (cl_UserID c)) then (403, None, db)
      else
        match decode_update body with
        | None => (400, None, db)
        | Some u =>
            let u' := mkUserProfileUpdate (pu_display_name u) (pu_email u) (pu_phone u) (pu_organization_id u)
                        (Some (default [] (pu_assigned_site_ids u))) in
            let db' := UpdateUserProfile id u' db in
            match db' !! id with
            | None => (404, None, db')
            | Some a => (200, Some (public_of a), db')
            end
        end
  end.

(** ** The user form *)

Inductive UserType := ut_internal | ut_customer.

#[export] Instance UserType_eq_dec : EqDecision UserType.
Proof. solve_decision. Defined.

Record UserForm := mkUserForm {
  uf_username : string;
  uf_password : string;
  uf_display_name : string;
  uf_email : string;
  uf_phone : string;
  uf_type : UserType;
  uf_role : string;
  uf_is_admin : bool;
  uf_org : string
}.

Definition empty_user_form : UserForm :=
  mkUserForm EmptyString EmptyString EmptyString EmptyString EmptyString ut_internal "soc_operator" false EmptyString.

(** The text fields. *)
Inductive UserField := u_username | u_password | u_display_name | u_email | u_phone.

Definition set_user_text (x : UserField) (v : string) (f : UserForm) : UserForm :=
  match x with
  | u_username => mkUserForm v (uf_password f) (uf_display_name f) (uf_email f) (uf_phone f) (uf_type f) (uf_role f) (uf_is_admin f) (uf_org f)
  | u_password => mkUserForm (uf_username f) v (uf_display_name f) (uf_email f) (uf_phone f) (uf_type f) (uf_role f) (uf_is_admin f) (uf_org f)
  | u_display_name => mkUserForm (uf_username f) (uf_password f) v (uf_email f) (uf_phone f) (uf_type f) (uf_role f) (uf_is_admin f) (uf_org f)
  | u_email => mkUserForm (uf_username f) (uf_password f) (uf_display_name f) v (uf_phone f) (uf_type f) (uf_role f) (uf_is_admin f) (uf_org f)
  | u_phone => mkUserForm (uf_username f) (uf_password f) (uf_display_name f) (uf_email f) v (uf_type f) (uf_role f) (uf_is_admin f) (uf_org f)
  end.

Definition set_user_kind (t : UserType) (role : string) (adm : bool) (org : string) (f : UserForm) : UserForm :=
  mkUserForm (uf_username f) (uf_password f) (uf_display_name f) (uf_email f) (uf_phone f) t role adm org.

(** What the callback reads but does not depend on, as it last captured it. *)
Record Captured := mkCaptured { cp_type : UserType; cp_is_admin : bool; cp_org : string }.

Definition capture (f : UserForm) : Captured := mkCaptured (uf_type f) (uf_is_admin f) (uf_org f).

(** [[newUsername, newPassword, newDisplayName, newEmail, newPhone, newUserRole, loadPlatformUsers]] *)
Definition create_deps (f : UserForm) := (uf_username f, uf_password f, uf_display_name f, uf_email f, uf_phone f, uf_role f).

(** The callback after a render that changed the form from [f0] to [f]. *)
Definition memoize (f0 f : UserForm) (c : Captured) : Captured := if decide (create_deps f0 = create_deps f) then c else capture f.

Definition effectiveRole (f : UserForm) (c : Captured) : string :=
  match cp_type c with ut_internal => if cp_is_admin c then "admin" else "soc_operator" | ut_customer => uf_role f end.

(** [x.trim() || undefined], as a property. *)
Definition opt_text (key v : string) : list (string * json) := if truthy_str (trim v) then [(key, JStr (trim v))] else [].

Definition create_body (f : UserForm) (c : Captured) : json :=
  JObj ([("username", JStr (trim (uf_username f))); ("password", JStr (trim (uf_password f))); ("role", JStr (effectiveRole f c))] ++
        opt_text "display_name" (uf_display_name f) ++ opt_text "email" (uf_email f) ++ opt_text "phone" (uf_phone f) ++
        (if bool_decide (cp_type c = ut_customer) && truthy_str (cp_org c) then [("organization_id", JStr (cp_org c))] else [])).

(** ** Users *)

Record EditForm := mkEditForm { ef_display_name : string; ef_email : string; ef_phone : string; ef_org : string }.

Definition edit_of (u : UserPublic) : EditForm :=
  mkEditForm (up_display_name u) (up_email u) (up_phone u) (default EmptyString (up_organization_id u)).

Definition profile_body (e : EditForm) : json :=
  JObj (opt_text "display_name" (ef_display_name e) ++ opt_text "email" (ef_email e) ++ opt_text "phone" (ef_phone e) ++
        (if truthy_str (ef_org e) then [("organization_id", JStr (ef_org e))] else [])).

Record Msg := mkMsg { mg_ok : bool; mg_text : string }.

Inductive UserTask :=
| UT_Create | UT_CreateList | UT_List | UT_Delete (id : string) | UT_Role (id role : string) | UT_Password | UT_Profile (id : string)
| UT_Mfa (username : string).

Inductive UserCall :=
| CreateUser (body : json) | ListUsers | DeleteUser (id : string) | UpdateUserRole (id role : string) | UpdateUserPassword (id password : string)
| PatchUser (id : string) (body : json) | ResetMfa (id : string) | AlertText (text : string).

Inductive UserReply := UR_ok | UR_users (l : option (list UserPublic)) | UR_user (u : UserPublic) | UR_fail (message : string).

Record Users := mkUsers {
  us_list : list UserPublic;
  us_loading : bool;
  us_loaded : bool;
  us_show : bool;
  us_form : UserForm;
  us_captured : Captured;
  us_creating : bool;
  us_msg : option Msg;
  us_editing : option string;
  us_edit : EditForm;
  us_saving : bool;
  us_edit_msg : option Msg;
  us_pwd_target : option string;
  us_pwd_value : string;
  us_pwd_msg : option Msg;
  us_tasks : list UserTask
}.

Definition initial_users : Users :=
  mkUsers [] false false false empty_user_form (capture empty_user_form) false None None
    (mkEditForm EmptyString EmptyString EmptyString EmptyString) false None None EmptyString None [].

Definition us_upd_list (l : list UserPublic) (loading loaded : bool) (s : Users) : Users :=
  mkUsers l loading loaded (us_show s) (us_form s) (us_captured s) (us_creating s) (us_msg s) (us_editing s) (us_edit s) (us_saving s)
    (us_edit_msg s) (us_pwd_target s) (us_pwd_value s) (us_pwd_msg s) (us_tasks s).
Definition us_upd_create (show : bool) (f : UserForm) (creating : bool) (msg : option Msg) (s : Users) : Users :=
  mkUsers (us_list s) (us_loading s) (us_loaded s) show f (memoize (us_form s) f (us_captured s)) creating msg (us_editing s) (us_edit s)
    (us_saving s) (us_edit_msg s) (us_pwd_target s) (us_pwd_value s) (us_pwd_msg s) (us_tasks s).
Definition us_upd_edit (editing : option string) (e : EditForm) (saving : bool) (msg : option Msg) (s : Users) : Users :=
  mkUsers (us_list s) (us_loading s) (us_loaded s) (us_show s) (us_form s) (us_captured s) (us_creating s) (us_msg s) editing e saving msg
    (us_pwd_target s) (us_pwd_value s) (us_pwd_msg s) (us_tasks s).
Definition us_upd_pwd (target : option string) (v : string) (msg : option Msg) (s : Users) : Users :=
  mkUsers (us_list s) (us_loading s) (us_loaded s) (us_show s) (us_form s) (us_captured s) (us_creating s) (us_msg s) (us_editing s)
    (us_edit s) (us_saving s) (us_edit_msg s) target v msg (us_tasks s).
Definition us_upd_tasks (l : list UserTask) (s : Users) : Users :=
  mkUsers (us_list s) (us_loading s) (us_loaded s) (us_show s) (us_form s) (us_captured s) (us_creating s) (us_msg s) (us_editing s)
    (us_edit s) (us_saving s) (us_edit_msg s) (us_pwd_target s) (us_pwd_value s) (us_pwd_msg s) l.
Definition us_await (t : UserTask) (s : Users) : Users := us_upd_tasks (us_tasks s ++ [t])%list s.

(** Every change of the form renders, and refreshes the callback if a dependency changed. *)
Definition set_form (f : UserForm) (s : Users) : Users := us_upd_create (us_show s) f (us_creating s) (us_msg s) s.
Definition set_msg (m : option Msg) (s : Users) : Users := us_upd_create (us_show s) (us_form s) (us_creating s) m s.

Definition loadPlatformUsers (t : UserTask) (s : Users) : Users * list UserCall :=
  (us_await t (us_upd_list (us_list s) true (us_loaded s) s), [ListUsers]).

Definition users_arrive (l : option (list UserPublic)) (s : Users) : Users := us_upd_list (default (us_list s) l) false true s.

(** The Create button. *)
Definition can_create (s : Users) : bool :=
  let f := us_form s in
  us_show s && truthy_str (trim (uf_username f)) && truthy_str (trim (uf_password f)) &&
  negb (bool_decide (uf_type f = ut_customer) && negb (truthy_str (uf_org f))) && negb (us_creating s).

Definition handleCreateUser (s : Users) : Users * list UserCall :=
  let f := us_form s in
  if negb (truthy_str (trim (uf_username f))) || negb (truthy_str (trim (uf_password f)))
  then (set_msg (Some (mkMsg false "Username and password are required.")) s, [])
  else (us_await UT_Create (us_upd_create (us_show s) f true None s), [CreateUser (create_body f (us_captured s))]).

Definition openEditProfile (u : UserPublic) (s : Users) : Users := us_upd_edit (Some (up_id u)) (edit_of u) (us_saving s) None s.

Definition handleSaveProfile (s : Users) : Users * list UserCall :=
  match us_editing s with
  | None => (s, [])
  | Some id => (us_await (UT_Profile id) (us_upd_edit (us_editing s) (us_edit s) true None s), [PatchUser id (profile_body (us_edit s))])
  end.

Definition handleChangePassword (s : Users) : Users * list UserCall :=
  match us_pwd_target s with
  | Some id =>
      if truthy_str id && truthy_str (trim (us_pwd_value s))
      then (us_await UT_Password (us_upd_pwd (Some id) (us_pwd_value s) None s), [UpdateUserPassword id (trim (us_pwd_value s))])
      else (s, [])
  | None => (s, [])
  end.

Definition user_is (id : string) (u : UserPublic) : bool := String.eqb (up_id u) id.
Definition set_role (role : string) (u : UserPublic) : UserPublic :=
  mkUserPublic (up_id u) (up_username u) role (up_display_name u) (up_email u) (up_phone u) (up_organization_id u) (up_assigned_site_ids u).

(** A reply resumes its handler; [None] when the promise cannot have it. *)
Definition user_resume (t : UserTask) (r : UserReply) (s : Users) : option (Users * list UserCall) :=
  let keep l := us_upd_list l (us_loading s) (us_loaded s) s in
  match t, r with
  | UT_Create, UR_user _ =>
      Some (loadPlatformUsers UT_CreateList (us_upd_create false empty_user_form (us_creating s) (Some (mkMsg true "User created.")) s))
  | UT_Create, UR_fail m => Some (us_upd_create (us_show s) (us_form s) false (Some (mkMsg false m)) s, [])
  | UT_CreateList, UR_users l => let s' := users_arrive l s in Some (us_upd_create (us_show s') (us_form s') false (us_msg s') s', [])
  | UT_List, UR_users l => Some (users_arrive l s, [])
  | UT_Delete id, UR_ok => Some (keep (filter_where (λ u, negb (user_is id u)) (us_list s)), [])
  | UT_Delete id, UR_fail m => Some (s, [AlertText ("Delete failed: " +:+ m)])
  | UT_Role id role, UR_ok => Some (keep (map_where (user_is id) (set_role role) (us_list s)), [])
  | UT_Role id role, UR_fail m => Some (s, [AlertText ("Role change failed: " +:+ m)])
  | UT_Password, UR_ok => Some (us_upd_pwd None EmptyString (Some (mkMsg true "Password updated.")) s, [])
  | UT_Password, UR_fail m => Some (us_upd_pwd (us_pwd_target s) (us_pwd_value s) (Some (mkMsg false m)) s, [])
  | UT_Profile id, UR_user u =>
      let s' := keep (map_where (user_is id) (λ _, u) (us_list s)) in
      Some (us_upd_edit None (us_edit s') false (Some (mkMsg true "Profile updated.")) s', [])
  | UT_Profile id, UR_fail m => Some (us_upd_edit (us_editing s) (us_edit s) false (Some (mkMsg false m)) s, [])
  | UT_Mfa name, UR_ok => Some (set_msg (Some (mkMsg true ("MFA reset for " +:+ name +:+ "."))) s, [])
  | UT_Mfa _, UR_fail m => Some (set_msg (Some (mkMsg false m)) s, [])
  | _, _ => None
  end.

Inductive UserEvent :=
| OpenUsers | AddUser | CancelUser
| TypeUser (x : UserField) (v : string) | ChooseType (t : UserType) | TickAdmin (b : bool) | ChooseRole (r : string) | ChooseCompany (id : string)
| ClickCreate
| DeleteClick (confirmed : bool) (u : UserPublic) | RoleSelect (id role : string) | MfaClick (confirmed : bool) (u : UserPublic)
| EditClick (u : UserPublic) | TypeEdit (e : EditForm) | CancelEdit | SaveClick
| PasswordClick (id : string) | TypePassword (v : string) | SubmitPassword | ClosePassword
| UserSettles (i : nat) (r : UserReply).

Definition user_step (e : UserEvent) (s : Users) : Users * list UserCall :=
  let f := us_form s in
  match e with
  | OpenUsers => if us_loaded s then (s, []) else loadPlatformUsers UT_List s
  | AddUser => (us_upd_create true f (us_creating s) None s, [])
  | CancelUser => (us_upd_create false f (us_creating s) (us_msg s) s, [])
  | TypeUser x v => (set_form (set_user_text x v f) s, [])
  | ChooseType t =>
      (set_form (set_user_kind t (match t with ut_internal => "admin" | ut_customer => "viewer" end) (uf_is_admin f) EmptyString f) s, [])
  | TickAdmin b => (set_form (set_user_kind (uf_type f) (uf_role f) b (uf_org f) f) s, [])
  | ChooseRole r => (set_form (set_user_kind (uf_type f) r (uf_is_admin f) (uf_org f) f) s, [])
  | ChooseCompany id => (set_form (set_user_kind (uf_type f) (uf_role f) (uf_is_admin f) id f) s, [])
  | ClickCreate => if can_create s then handleCreateUser s else (s, [])
  | DeleteClick ok u => if ok then (us_await (UT_Delete (up_id u)) s, [DeleteUser (up_id u)]) else (s, [])
  | RoleSelect id role => (us_await (UT_Role id role) s, [UpdateUserRole id role])
  | MfaClick ok u => if ok then (us_await (UT_Mfa (up_username u)) s, [ResetMfa (up_id u)]) else (s, [])
  | EditClick u => (if bool_decide (us_editing s = Some (up_id u)) then us_upd_edit None (us_edit s) (us_saving s) (us_edit_msg s) s
                    else openEditProfile u s, [])
  | TypeEdit e => (us_upd_edit (us_editing s) e (us_saving s) (us_edit_msg s) s, [])
  | CancelEdit => (us_upd_edit None (us_edit s) (us_saving s) (us_edit_msg s) s, [])
  | SaveClick => if us_saving s then (s, []) else handleSaveProfile s
  | PasswordClick id => (us_upd_pwd (Some id) EmptyString None s, [])
  | TypePassword v => (us_upd_pwd (us_pwd_target s) v (us_pwd_msg s) s, [])
  | SubmitPassword => handleChangePassword s
  | ClosePassword => (us_upd_pwd None (us_pwd_value s) None s, [])
  | UserSettles i r =>
      match us_tasks s !! i with
      | Some t => default (s, []) (user_resume t r (us_upd_tasks (delete i (us_tasks s)) s))
      | None => (s, [])
      end
  end.

Definition user_run (es : list UserEvent) (s : Users) : Users := foldl (λ s e, (user_step e s).1) s es.

(** ** Lists derived from the users *)

Definition isInternal (u : UserPublic) : bool := negb (truthy_ostr (up_organization_id u)).
Definition internalUsers (l : list UserPublic) : list UserPublic := filter_where isInternal l.
Definition customerUsers (l : list UserPublic) : list UserPublic := filter_where (λ u, negb (isInternal u)) l.
Definition company_users (filt : string) (l : list UserPublic) : list UserPublic :=
  filter_where (λ u, negb (truthy_str filt) || bool_decide (up_organization_id u = Some filt)) (customerUsers l).

Definition SOC_ROLES : list string := ["soc_operator"; "soc_supervisor"; "admin"].
Definition userOperators (l : list UserPublic) : list UserPublic :=
  filter_where (λ u, negb (truthy_ostr (up_organization_id u)) && includes (up_role u) SOC_ROLES) l.

Record OperatorRow := mkOperatorRow { or_id : string; or_callsign : string; or_email : option string }.

Definition linkedEmails (l : list UserPublic) : list string := filter_where truthy_str (up_email <$> userOperators l).
Definition standaloneOps (l : list UserPublic) (ops : list OperatorRow) : list OperatorRow :=
  filter_where (λ o, negb (truthy_ostr (or_email o)) || negb (includes (default EmptyString (or_email o)) (linkedEmails l))) ops.

(** [username.toUpperCase().slice(0, 8)] *)
Definition callsignFor (u : UserPublic) : string := String.substring 0 8 (toUpperCase (up_username u)).

(** ** Sites and customers *)

Record SiteRow := mkSiteRow { st_id : string; st_name : string; st_status : string; st_company_id : option string }.
Record CompanyRow := mkCompanyRow { co_id : string; co_name : string; co_contact_email : option string }.

(** One [push]; ids are taken not to be names of [Object.prototype]. *)
Definition group_site (g : gmap string (list SiteRow)) (s : SiteRow) : gmap string (list SiteRow) :=
  let cid := or_str (st_company_id s) "unassigned" in
  match g !! cid with
  | Some l => <[cid := (l ++ [s])%list]> g
  | None => <["unassigned" := (default [] (g !! "unassigned") ++ [s])%list]> g
  end.

Definition sitesByCompany (companies : list CompanyRow) (sites : list SiteRow) : gmap string (list SiteRow) :=
  foldl group_site (<["unassigned" := []]> (foldl (λ g c, <[co_id c := []]> g) ∅ companies)) sites.

(** [companyMap[id]]: the last company of an id. *)
Definition companyMap (companies : list CompanyRow) (id : string) : option CompanyRow :=
  last_value id ((λ c, (co_id c, c)) <$> companies).

Record SiteFilter := mkSiteFilter { sf_search : string; sf_company : string; sf_status : string }.

Definition search_hits (companies : list CompanyRow) (q : string) (s : SiteRow) : bool :=
  str_includes q (toLowerCase (st_name s)) || str_includes q (toLowerCase (st_id s)) ||
  str_includes q (toLowerCase (default EmptyString (co_name <$> companyMap companies (default EmptyString (st_company_id s))))).

Definition filteredSites (companies : list CompanyRow) (sites : list SiteRow) (f : SiteFilter) : list SiteRow :=
  let r1 := if truthy_str (trim (sf_search f)) then filter_where (search_hits companies (toLowerCase (sf_search f))) sites else sites in
  let r2 := if String.eqb (sf_company f) "all" then r1 else filter_where (λ s, bool_decide (st_company_id s = Some (sf_company f))) r1 in
  if String.eqb (sf_status f) "all" then r2 else filter_where (λ s, String.eqb (st_status s) (sf_status f)) r2.

Definition SITES_PAGE_SIZE : nat := 25.

(** [Math.ceil(n / 25)] *)
Definition totalPages (n : nat) : nat := Z.to_nat ((Z.of_nat n + 24) / 25).

(** [xs.slice(page * 25, (page + 1) * 25)] *)
Definition pagedSites {A} (page : nat) (l : list A) : list A := take SITES_PAGE_SIZE (drop (page * SITES_PAGE_SIZE) l).

Record SitesTab := mkSitesTab { sb_filter : SiteFilter; sb_page : nat; sb_sites : list SiteRow; sb_companies : list CompanyRow }.

Definition tab_filtered (t : SitesTab) : list SiteRow := filteredSites (sb_companies t) (sb_sites t) (sb_filter t).
Definition tab_rows (t : SitesTab) : list SiteRow := pagedSites (sb_page t) (tab_filtered t).
(** [totalPages > 1] *)
Definition pager_shown (t : SitesTab) : bool := Nat.ltb 1 (totalPages (length (tab_filtered t))).

Inductive SitesEvent :=
| SetFilter (f : SiteFilter)
| PrevPage | NextPage
| Refetched (sites : list SiteRow) (companies : list CompanyRow).

(** A change of search, company or status resets the page; new data does not. *)
Definition sites_step (t : SitesTab) (e : SitesEvent) : SitesTab :=
  match e with
  | SetFilter f =>
      mkSitesTab f (if decide ((sf_search f, sf_company f, sf_status f) =
                               (sf_search (sb_filter t), sf_company (sb_filter t), sf_status (sb_filter t))) then sb_page t else 0%nat)
        (sb_sites t) (sb_companies t)
  | PrevPage => if pager_shown t && negb (Nat.eqb (sb_page t) 0) then mkSitesTab (sb_filter t) (sb_page t - 1) (sb_sites t) (sb_companies t) else t
  | NextPage =>
      if pager_shown t && Nat.ltb (sb_page t) (totalPages (length (tab_filtered t)) - 1)
      then mkSitesTab (sb_filter t) (S (sb_page t)) (sb_sites t) (sb_companies t) else t
  | Refetched s c => mkSitesTab (sb_filter t) (sb_page t) s c
  end.

Definition no_filter : SiteFilter := mkSiteFilter EmptyString "all" "all".
Definition initial_sites (sites : list SiteRow) (companies : list CompanyRow) : SitesTab := mkSitesTab no_filter 0 sites companies.

(** ** New companies *)

Record NewCompany := mkNewCompany { nc_show : bool; nc_name : string; nc_contact : string; nc_email : string; nc_plan : string; nc_creating : bool }.

Definition handleCreateCompany (c : NewCompany) : NewCompany * option json :=
  if negb (truthy_str (trim (nc_name c))) then (c, None)
  else (mkNewCompany (nc_show c) (nc_name c) (nc_contact c) (nc_email c) (nc_plan c) true,
        Some (JObj [("name", JStr (trim (nc_name c))); ("contact_name", JStr (trim (nc_contact c)));
                    ("contact_email", JStr (trim (nc_email c))); ("plan", JStr (nc_plan c))])).

(** After the [await]; a rejection skips the rest. *)
Definition company_settles (ok : bool) (c : NewCompany) : NewCompany :=
  if ok then mkNewCompany false EmptyString EmptyString EmptyString (nc_plan c) false else c.

Definition can_create_company (c : NewCompany) : bool := nc_show c && truthy_str (trim (nc_name c)) && negb (nc_creating c).

(** ** Lemmas *)

(** Fields the callback reads without depending on them. *)
Definition captured_event (e : UserEvent) : bool := match e with TickAdmin _ | ChooseCompany _ => true | _ => false end.

Lemma captured_run es s :
  Forall (λ e, captured_event e = true) es →
  us_captured (user_run es s) = us_captured s ∧ create_deps (us_form (user_run es s)) = create_deps (us_form s) ∧
  us_show (user_run es s) = us_show s ∧ us_creating (user_run es s) = us_creating s.
Proof.
  intros H. revert s. induction H as [|e es He Hes IH]; intros s; [done|]. simpl.
  destruct (IH (user_step e s).1) as (-> & -> & -> & ->).
  destruct e; try discriminate He; simpl; unfold memoize; by rewrite decide_True.
Qed.

(** The callback is up to date right after a dependency changed. *)
Lemma memoize_fresh f0 f c : create_deps f0 ≠ create_deps f → memoize f0 f c = capture f.
Proof. intros H. unfold memoize. by rewrite decide_False. Qed.

Definition user_text (x : UserField) (f : UserForm) : string :=
  match x with
  | u_username => uf_username f
  | u_password => uf_password f
  | u_display_name => uf_display_name f
  | u_email => uf_email f
  | u_phone => uf_phone f
  end.

Lemma typing_changes x v f : v ≠ user_text x f → create_deps f ≠ create_deps (set_user_text x v f).
Proof. intros Hv He. unfold create_deps in He. destruct x; simpl in *; congruence. Qed.

Lemma create_click s : can_create s = true → (user_step ClickCreate s).2 = [CreateUser (create_body (us_form s) (us_captured s))].
Proof.
  intros Hc. simpl. rewrite Hc. unfold can_create in Hc. unfold handleCreateUser.
  rewrite !andb_true_iff in Hc. destruct Hc as [[[[_ ->] ->] _] _]. done.
Qed.

(** Optional text properties in the body of a request. *)
Lemma jget_opt_text k key v : jget k (JObj (opt_text key v)) = if String.eqb key k then (if truthy_str (trim v) then Some (JStr (trim v)) else None) else None.
Proof. unfold opt_text. destruct (truthy_str (trim v)); simpl; [|by destruct (String.eqb key k)]. rewrite find_where_cons. simpl. by destruct (String.eqb key k). Qed.

Lemma jget_opt_prop k key (b : bool) (v : json) : jget k (JObj (if b then [(key, v)] else [])) = if b && String.eqb key k then Some v else None.
Proof. destruct b; [|done]. simpl. rewrite find_where_cons. simpl. by destruct (String.eqb key k). Qed.

Lemma create_body_role f c : jget "role" (create_body f c) = Some (JStr (effectiveRole f c)).
Proof. done. Qed.

Lemma create_body_org f c :
  jget "organization_id" (create_body f c) =
  if bool_decide (cp_type c = ut_customer) && truthy_str (cp_org c) then Some (JStr (cp_org c)) else None.
Proof.
  unfold create_body. rewrite !jget_obj_app, !jget_opt_text, jget_opt_prop, andb_true_r. done.
Qed.

Lemma mapM_str l : mapM str_of (JStr <$> l) = Some l.
Proof. induction l as [|x l IH]; [done|]. rewrite fmap_cons. change (mapM ?f (?a :: ?b)) with ((y ← f a; ys ← mapM f b; Some (y :: ys))). by rewrite IH. Qed.

(** An emptied field leaves the stored text. *)
Definition kept (v old : string) : string := if truthy_str (trim v) then trim v else old.

Lemma decode_profile e :
  decode_update (profile_body e) =
  Some (mkUserProfileUpdate (if truthy_str (trim (ef_display_name e)) then Some (trim (ef_display_name e)) else None)
          (if truthy_str (trim (ef_email e)) then Some (trim (ef_email e)) else None)
          (if truthy_str (trim (ef_phone e)) then Some (trim (ef_phone e)) else None)
          (if truthy_str (ef_org e) then Some (ef_org e) else None) None).
Proof.
  unfold decode_update, profile_body. rewrite !jget_obj_app, !jget_opt_text, !jget_opt_prop. simpl String.eqb. cbn iota.
  rewrite ?andb_false_r, ?andb_true_r.
  by destruct (truthy_str (trim (ef_display_name e))), (truthy_str (trim (ef_email e))), (truthy_str (trim (ef_phone e))), (truthy_str (ef_org e)).
Qed.

Lemma updated_profile a e :
  updated (mkUserProfileUpdate (if truthy_str (trim (ef_display_name e)) then Some (trim (ef_display_name e)) else None)
             (if truthy_str (trim (ef_email e)) then Some (trim (ef_email e)) else None)
             (if truthy_str (trim (ef_phone e)) then Some (trim (ef_phone e)) else None)
             (if truthy_str (ef_org e) then Some (ef_org e) else None) (Some (default [] None))) a =
  mkAccount (ac_id a) (ac_username a) (ac_role a) (kept (ef_display_name e) (ac_display_name a)) (kept (ef_email e) (ac_email a))
    (kept (ef_phone e) (ac_phone a)) (nullableStr (ef_org e)) [].
Proof.
  unfold updated, kept, nullableStr. simpl.
  destruct (truthy_str (trim (ef_display_name e))), (truthy_str (trim (ef_email e))), (truthy_str (trim (ef_phone e)));
    destruct (truthy_str (ef_org e)) eqn:Ho; simpl; by rewrite ?Ho.
Qed.

(** The group a site falls in. *)
Definition group_key (companies : list CompanyRow) (s : SiteRow) : string :=
  let cid := or_str (st_company_id s) "unassigned" in if includes cid (co_id <$> companies) then cid else "unassigned".

Definition empty_groups (companies : list CompanyRow) : gmap string (list SiteRow) :=
  <["unassigned" := []]> (foldl (λ g c, <[co_id c := []]> g) ∅ companies).

Lemma foldl_groups companies (g : gmap string (list SiteRow)) k :
  foldl (λ g c, <[co_id c := []]> g) g companies !! k = if includes k (co_id <$> companies) then Some [] else g !! k.
Proof.
  revert g. induction companies as [|c cs IH]; intros g; [done|]. simpl. rewrite IH. unfold includes. csimpl.
  destruct (decide (k ∈ co_id <$> cs)) as [Hin|Hin].
  - rewrite !bool_decide_true; [done|by right|done].
  - rewrite (bool_decide_false (k ∈ co_id <$> cs)) by done. destruct (decide (k = co_id c)) as [->|Hne].
    + rewrite lookup_insert_eq, bool_decide_true; [done|by left].
    + rewrite lookup_insert_ne by done. rewrite bool_decide_false; [done|]. intros [?|?]%elem_of_cons; done.
Qed.

Definition is_group (companies : list CompanyRow) (k : string) : bool := includes k (co_id <$> companies) || String.eqb k "unassigned".

Lemma empty_groups_lookup companies k : empty_groups companies !! k = if is_group companies k then Some [] else None.
Proof.
  unfold empty_groups, is_group. destruct (String.eqb_spec k "unassigned") as [->|Hne].
  - by rewrite lookup_insert_eq, orb_true_r.
  - rewrite lookup_insert_ne by done. rewrite foldl_groups, orb_false_r. done.
Qed.

Lemma group_key_is_group companies s : is_group companies (group_key companies s) = true.
Proof.
  unfold group_key, is_group. destruct (includes (or_str (st_company_id s) "unassigned") (co_id <$> companies)) eqn:H.
  - by rewrite H.
  - by rewrite orb_true_r.
Qed.

Lemma group_push companies g s k :
  (∀ k, is_Some (g !! k) ↔ is_group companies k = true) →
  group_site g s !! k = (if String.eqb (group_key companies s) k then (λ l, l ++ [s])%list <$> g !! k else g !! k).
Proof.
  intros Hg. unfold group_site, group_key. set (cid := or_str (st_company_id s) "unassigned").
  destruct (g !! cid) as [l|] eqn:Hl.
  - assert ((if includes cid (co_id <$> companies) then cid else "unassigned") = cid) as ->.
    { destruct (includes _ _) eqn:Hi; [done|]. assert (is_group companies cid = true) as H by (apply Hg; eauto).
      unfold is_group in H. rewrite Hi in H. simpl in H. by apply String.eqb_eq in H. }
    destruct (String.eqb_spec cid k) as [<-|Hne]; [by rewrite lookup_insert_eq, Hl|by rewrite lookup_insert_ne].
  - assert (includes cid (co_id <$> companies) = false) as Hi.
    { destruct (includes _ _) eqn:Hi; [|done]. assert (is_Some (g !! cid)) as [? ?]; [|congruence]. apply Hg. unfold is_group. by rewrite Hi. }
    rewrite Hi. destruct (proj2 (Hg "unassigned") ltac:(unfold is_group; by rewrite orb_true_r)) as [u Hu].
    destruct (String.eqb_spec "unassigned" k) as [<-|Hne]; [by rewrite lookup_insert_eq, Hu|by rewrite lookup_insert_ne].
Qed.

Lemma grouped_lookup companies sites k :
  sitesByCompany companies sites !! k =
  if is_group companies k then Some (filter_where (λ s, String.eqb (group_key companies s) k) sites) else None.
Proof.
  change (sitesByCompany companies sites) with (foldl group_site (empty_groups companies) sites).
  induction sites as [|s sites IH] using rev_ind; [simpl; by rewrite empty_groups_lookup|].
  rewrite foldl_app. simpl. assert (∀ k', is_Some (foldl group_site (empty_groups companies) sites !! k') ↔ is_group companies k' = true) as Hg.
  { clear IH k. induction sites as [|x sites IH] using rev_ind; intros k'.
    - simpl. rewrite empty_groups_lookup. destruct (is_group _ _); split; try done; by intros [? ?].
    - rewrite foldl_app. simpl. rewrite (group_push companies) by exact IH. destruct (String.eqb _ _); [|apply IH]. rewrite fmap_is_Some. apply IH. }
  rewrite (group_push companies) by exact Hg. rewrite IH. unfold filter_where. rewrite filter_app, filter_cons, filter_nil.
  destruct (is_group companies k) eqn:Hk; simpl; [|by destruct (String.eqb _ _)].
  destruct (String.eqb (group_key companies s) k) eqn:He; simpl; [done|by rewrite app_nil_r].
Qed.

(** The pages up to [n] hold the first [25 n] elements. *)
Lemma pages_take {A} (l : list A) n : mjoin ((λ p, pagedSites p l) <$> seq 0 n) = take (n * SITES_PAGE_SIZE) l.
Proof.
  induction n as [|n IH]; [done|]. rewrite seq_S, fmap_app, join_app, IH. simpl. rewrite app_nil_r.
  unfold pagedSites. rewrite take_take_drop. f_equal. apply Nat.add_comm.
Qed.

Lemma totalPages_spec n p : (p < totalPages n ↔ p * SITES_PAGE_SIZE < n)%nat.
Proof. unfold totalPages, SITES_PAGE_SIZE. zdiv. Qed.

Lemma length_page {A} (l : list A) p : length (pagedSites p l) = Nat.min SITES_PAGE_SIZE (length l - p * SITES_PAGE_SIZE).
Proof. unfold pagedSites. by rewrite length_take, length_drop. Qed.

Lemma page_empty {A} (l : list A) p : pagedSites p l = [] ↔ (totalPages (length l) ≤ p)%nat.
Proof.
  rewrite <- length_zero_iff_nil, length_page. pose proof (totalPages_spec (length l) p). unfold SITES_PAGE_SIZE in *. lia.
Qed.

Lemma filter_where_negb_Permutation {A} (p : A → bool) l : filter_where p l ++ filter_where (λ x, negb (p x)) l ≡ₚ l.
Proof.
  induction l as [|x l IH]; [done|]. rewrite !filter_where_cons. destruct (p x); simpl; [by rewrite IH|].
  by rewrite <- Permutation_middle, IH.
Qed.

(** ** Properties *)

(** The account that Create User asks for has the role and the company of the form as
    they were when a text field or the role last changed: ticking or unticking Admin
    Access, or choosing the company, after the last typing has no effect on the request.
    So a customer whose company is chosen last is created without one, as staff, and
    unticking Admin last still creates an admin. *)
Theorem created_user_lags s x v es :
  v ≠ user_text x (us_form s) → Forall (λ e, captured_event e = true) es →
  let f := us_form s in
  let s' := user_run (TypeUser x v :: es) s in
  can_create s' = true →
  ∃ body, (user_step ClickCreate s').2 = [CreateUser body] ∧
    jget "role" body = Some (JStr (match uf_type f with ut_internal => if uf_is_admin f then "admin" else "soc_operator" | ut_customer => uf_role f end)) ∧
    jget "organization_id" body = (if bool_decide (uf_type f = ut_customer) && truthy_str (uf_org f) then Some (JStr (uf_org f)) else None).
Proof.
  intros Hv Hes f s' Hc. exists (create_body (us_form s') (us_captured s')). split; [by apply create_click|].
  rewrite create_body_role, create_body_org. subst s'.
  change (user_run (TypeUser x v :: es) s) with (user_run es (set_form (set_user_text x v f) s)) in *.
  destruct (captured_run es (set_form (set_user_text x v f) s) Hes) as (-> & Hd & _). simpl in Hd.
  cbn [us_captured set_form us_upd_create]. rewrite memoize_fresh by by apply typing_changes. unfold capture, effectiveRole. cbn [cp_type cp_is_admin cp_org].
  assert (uf_type (set_user_text x v f) = uf_type f) as -> by by destruct x.
  assert (uf_is_admin (set_user_text x v f) = uf_is_admin f) as -> by by destruct x.
  assert (uf_org (set_user_text x v f) = uf_org f) as -> by by destruct x.
  split; [|done]. unfold create_deps in Hd. injection Hd as _ _ _ _ _ ->. by destruct x.
Qed.

(** An admin ticked, then unticked after typing; a company chosen last. *)
Definition untick_last : list UserEvent :=
  [AddUser; TypeUser u_password "correct horse battery"; TickAdmin true].
Definition company_last : list UserEvent :=
  [AddUser; ChooseType ut_customer; TypeUser u_username "pat"].

Lemma created_user_lags_witness :
  let s1 := user_run untick_last initial_users in
  let s2 := user_run company_last initial_users in
  (∃ body, (user_step ClickCreate (user_run [TypeUser u_username "sam"; TickAdmin false] s1)).2 = [CreateUser body] ∧
     jget "role" body = Some (JStr "admin")) ∧
  (∃ body, (user_step ClickCreate (user_run [TypeUser u_password "correct horse battery"; ChooseCompany "acme"] s2)).2 = [CreateUser body] ∧
     jget "organization_id" body = None).
Proof.
  intros s1 s2. split.
  - destruct (created_user_lags s1 u_username "sam" [TickAdmin false]) as (body & H1 & H2 & _).
    + vm_compute. discriminate.
    + by repeat constructor.
    + vm_compute. reflexivity.
    + exists body. split; [exact H1|exact H2].
  - destruct (created_user_lags s2 u_password "correct horse battery" [ChooseCompany "acme"]) as (body & H1 & _ & H2).
    + vm_compute. discriminate.
    + by repeat constructor.
    + vm_compute. reflexivity.
    + exists body. split; [exact H1|exact H2].
Defined.

(** C25. Saving a profile on the page takes every assigned site from the account, since the
    request never names them and the server stores what it does not find as the empty
    list; and a field that was emptied keeps its stored text, since it is not sent. *)
Theorem profile_save_wipes_sites valid db id a c e :
  db !! id = Some a → valid id = true → cl_role c = "admin" →
  HandleUpdateUserProfile valid (Some c) id (profile_body e) db =
  (let a' := mkAccount (ac_id a) (ac_username a) (ac_role a) (kept (ef_display_name e) (ac_display_name a)) (kept (ef_email e) (ac_email a))
               (kept (ef_phone e) (ac_phone a)) (nullableStr (ef_org e)) [] in
   (200, Some (public_of a'), <[id := a']> db)).
Proof.
  intros Ha Hv Hr. unfold HandleUpdateUserProfile. rewrite Hv, Hr. simpl negb. cbn iota. rewrite decode_profile.
  unfold UpdateUserProfile. cbn [andb pu_display_name pu_email pu_phone pu_organization_id pu_assigned_site_ids]. rewrite lookup_alter_eq, Ha. cbn [fmap option_fmap option_map].
  rewrite updated_profile. cbn zeta. f_equal. apply map_eq. intros k. destruct (decide (k = id)) as [->|Hne].
  - rewrite lookup_alter_eq, lookup_insert_eq, Ha. cbn [fmap option_fmap option_map]. by rewrite updated_profile.
  - by rewrite lookup_alter_ne, lookup_insert_ne.
Qed.

Lemma profile_save_wipes_sites_witness :
  let a := mkAccount "u7" "pat" "site_manager" "Pat" "pat@acme.test" "555" (Some "acme") ["TX-203"; "TX-204"] in
  let e := edit_of (public_of a) in
  ∃ a', HandleUpdateUserProfile (λ _, true) (Some (mkClaims "admin" "u1")) "u7" (profile_body e) {["u7" := a]} =
        (200, Some (public_of a'), <["u7" := a']> {["u7" := a]}) ∧ ac_assigned_site_ids a' = [] ∧ ac_email a' = "pat@acme.test".
Proof.
  intros a e. eexists. split; [apply (profile_save_wipes_sites (λ _, true) {["u7" := a]} "u7" a (mkClaims "admin" "u1") e); reflexivity|].
  split; vm_compute; reflexivity.
Defined.

(** When the save of one profile is answered after another was opened for editing, the
    other's editor closes and what was typed there is lost. *)
Theorem late_profile_closes_other s u1 u2 e u :
  us_editing s = Some (up_id u1) → us_saving s = false → up_id u2 ≠ up_id u1 →
  let n := length (us_tasks s) in
  let s1 := user_run [SaveClick; EditClick u2; TypeEdit e] s in
  us_editing s1 = Some (up_id u2) ∧ us_edit s1 = e ∧
  let s2 := user_run [UserSettles n (UR_user u)] s1 in
  us_editing s2 = None ∧ us_tasks s2 = us_tasks s ∧ us_list s2 = map_where (user_is (up_id u1)) (λ _, u) (us_list s).
Proof.
  intros He Hs Hne n s1. assert (Hb : bool_decide (us_editing s = Some (up_id u2)) = false).
  { apply bool_decide_eq_false. rewrite He. congruence. }
  subst s1. unfold user_run. simpl. rewrite Hs. unfold handleSaveProfile. rewrite He. simpl. rewrite bool_decide_false by congruence.
  split; [done|]. split; [done|]. subst n. simpl. rewrite list_lookup_middle by done. simpl.
  rewrite (delete_middle (us_tasks s) [] (UT_Profile (up_id u1))), app_nil_r. done.
Qed.

Definition pat : UserPublic := mkUserPublic "u7" "pat" "viewer" "Pat" EmptyString EmptyString (Some "acme") [].
Definition sam : UserPublic := mkUserPublic "u8" "sam" "admin" "Sam" EmptyString EmptyString None [].

Lemma late_profile_closes_other_witness :
  let s := user_run [EditClick pat] (us_upd_list [pat; sam] false true initial_users) in
  let s1 := user_run [SaveClick; EditClick sam; TypeEdit (mkEditForm "Samuel" EmptyString EmptyString EmptyString)] s in
  us_editing s1 = Some "u8" ∧ us_editing (user_run [UserSettles 0 (UR_user pat)] s1) = None.
Proof.
  intros s s1.
  destruct (late_profile_closes_other s pat sam (mkEditForm "Samuel" EmptyString EmptyString EmptyString) pat eq_refl eq_refl) as (H1 & _ & H2 & _).
  - vm_compute. discriminate.
  - split; [exact H1|exact H2].
Defined.

(** The groups of the sites tab partition the sites: there is one per company and one
    for the unassigned, each site is in exactly the group of its company, or among the
    unassigned if it names none or an unknown one, and groups keep the order. *)
Theorem sites_grouped companies sites :
  (∀ k, sitesByCompany companies sites !! k =
        if is_group companies k then Some (filter_where (λ s, String.eqb (group_key companies s) k) sites) else None) ∧
  (∀ s, s ∈ sites → ∀ k, (∃ l, sitesByCompany companies sites !! k = Some l ∧ s ∈ l) ↔ k = group_key companies s).
Proof.
  split; [apply grouped_lookup|]. intros s Hs k. rewrite grouped_lookup. split.
  - intros (l & Hl & Hin). destruct (is_group companies k); [|done]. injection Hl as <-.
    apply elem_of_filter_where in Hin as [Hk _]. by apply String.eqb_eq in Hk.
  - intros ->. rewrite group_key_is_group. eexists. split; [done|]. apply elem_of_filter_where. by rewrite String.eqb_refl.
Qed.

(** The pages of the sites table cut the filtered sites into consecutive pieces of 25,
    the last one shorter, none empty, and beyond the last page there is nothing. *)
Theorem pages_partition t :
  let l := tab_filtered t in
  let n := totalPages (length l) in
  mjoin ((λ p, pagedSites p l) <$> seq 0 n) = l ∧
  (∀ p, length (pagedSites p l) = Nat.min 25 (length l - p * 25)) ∧
  (∀ p, pagedSites p l = [] ↔ (n ≤ p)%nat) ∧
  (pager_shown t = true ↔ (25 < length l)%nat).
Proof.
  intros l n. split_and!; [|intros p; apply length_page|intros p; apply page_empty|].
  - rewrite pages_take. apply take_ge. pose proof (totalPages_spec (length l) n). fold n in H. unfold SITES_PAGE_SIZE in *. lia.
  - unfold pager_shown. fold l. rewrite Nat.ltb_lt, totalPages_spec. unfold SITES_PAGE_SIZE. lia.
Qed.

(** When new data shrinks the list to one page while another is shown, the table is
    empty and the pager gone, and stays so until a filter is changed: no click on it
    brings the sites back. *)
Theorem shrunk_list_blank t sites companies es :
  (1 ≤ sb_page t)%nat → (0 < length (filteredSites companies sites (sb_filter t)) ≤ 25)%nat → Forall (λ e, e = PrevPage ∨ e = NextPage) es →
  let t' := foldl sites_step t (Refetched sites companies :: es) in
  tab_filtered t' ≠ [] ∧ tab_rows t' = [] ∧ pager_shown t' = false ∧
  (∀ f, sf_search f ≠ sf_search (sb_filter t) → sb_page (sites_step t' (SetFilter f)) = 0%nat).
Proof.
  intros Hp Hl Hes t'. set (t1 := mkSitesTab (sb_filter t) (sb_page t) sites companies).
  assert (pager_shown t1 = false) as Hpager.
  { destruct (pager_shown t1) eqn:H; [|done]. unfold pager_shown in H. apply Nat.ltb_lt, totalPages_spec in H.
    unfold SITES_PAGE_SIZE, tab_filtered in H. simpl in H. lia. }
  assert (t' = t1) as ->.
  { subst t'. simpl. change (mkSitesTab _ _ _ _) with t1. induction Hes as [|e es He Hes IH]; [done|]. simpl.
    destruct He as [-> | ->]; simpl; by rewrite Hpager. }
  split_and!.
  - intros Hn. unfold tab_filtered in Hn. simpl in Hn. rewrite Hn in Hl. simpl in Hl. lia.
  - apply page_empty. apply Nat.le_ngt. intros H%totalPages_spec. unfold SITES_PAGE_SIZE, tab_filtered in H. simpl in H. lia.
  - done.
  - intros f Hf. simpl. rewrite decide_False; [done|]. congruence.
Qed.

Definition site_no (n : nat) : SiteRow := mkSiteRow ("S" +:+ pretty n) ("Site " +:+ pretty n) "active" None.

Lemma shrunk_list_blank_witness :
  let t := foldl sites_step (initial_sites (site_no <$> seq 0 26) []) [NextPage] in
  let t' := foldl sites_step t [Refetched (site_no <$> seq 0 25) []; PrevPage; NextPage] in
  tab_filtered t' ≠ [] ∧ tab_rows t' = [] ∧ pager_shown t' = false.
Proof.
  intros t t'. destruct (shrunk_list_blank t (site_no <$> seq 0 25) [] [PrevPage; NextPage]) as (H1 & H2 & H3 & _).
  - vm_compute. repeat constructor.
  - vm_compute. split; repeat constructor.
  - constructor; [by left|]. constructor; [by right|constructor].
  - split; [exact H1|]. split; [exact H2|exact H3].
Defined.

(** The user lists partition the accounts: every account is shown exactly once, as
    staff without a company and as a customer with one; a company's list is its customers;
    and an operator record is listed as standalone exactly when no staff account with an
    operator role has its e-mail. *)
Theorem user_lists_exact l ops filt :
  internalUsers l ++ customerUsers l ≡ₚ l ∧
  (∀ u, u ∈ company_users filt l ↔ u ∈ l ∧ truthy_ostr (up_organization_id u) = true ∧ (filt = EmptyString ∨ up_organization_id u = Some filt)) ∧
  (∀ u, u ∈ userOperators l → u ∈ internalUsers l) ∧
  (∀ o, o ∈ standaloneOps l ops ↔ o ∈ ops ∧ (truthy_ostr (or_email o) = true → ∀ u, u ∈ userOperators l → or_email o ≠ Some (up_email u))).
Proof.
  split_and!.
  - apply filter_where_negb_Permutation.
  - intros u. unfold company_users, customerUsers, isInternal. rewrite !elem_of_filter_where, negb_involutive, orb_true_iff, bool_decide_eq_true.
    rewrite negb_true_iff. unfold truthy_str. rewrite negb_false_iff, String.eqb_eq. tauto.
  - intros u. unfold userOperators, internalUsers, isInternal. rewrite !elem_of_filter_where, andb_true_iff. tauto.
  - intros o. unfold standaloneOps. rewrite elem_of_filter_where, orb_true_iff, !negb_true_iff. unfold includes. rewrite bool_decide_eq_false.
    assert (∀ x, x ∈ linkedEmails l ↔ truthy_str x = true ∧ ∃ u, u ∈ userOperators l ∧ up_email u = x) as Hl.
    { intros x. unfold linkedEmails. rewrite elem_of_filter_where, list_elem_of_fmap. naive_solver. }
    rewrite Hl. destruct (or_email o) as [x|]; simpl; [|naive_solver]. destruct (truthy_str x); naive_solver.
Qed.

(** When creating a company fails the form keeps what was typed and its button stays
    disabled: nothing more can be created until the page is left. *)
Theorem failed_company_sticks c :
  can_create_company c = true →
  let '(c1, call) := handleCreateCompany c in
  (∃ body, call = Some body ∧ jget "name" body = Some (JStr (trim (nc_name c)))) ∧
  company_settles false c1 = c1 ∧ can_create_company (company_settles false c1) = false ∧ nc_name (company_settles false c1) = nc_name c ∧
  nc_show (company_settles true c1) = false ∧ nc_creating (company_settles true c1) = false.
Proof.
  unfold can_create_company, handleCreateCompany. intros [[Hs Hn]%andb_true_iff Hc]%andb_true_iff. rewrite Hn. cbn [negb].
  split; [by eexists|]. split_and!; try done. simpl. by rewrite andb_false_r.
Qed.

Lemma failed_company_sticks_witness :
  let c := mkNewCompany true "Acme" EmptyString EmptyString "professional" false in
  can_create_company (company_settles false (handleCreateCompany c).1) = false.
Proof.
  intros c. destruct (failed_company_sticks c eq_refl) as (_ & _ & H & _). exact H.
Defined.
