(* ===== verification/Settings.v ===== *)
(** * The settings page

    [components/SettingsPage.tsx], the tabs of the administration page for storage
    locations with their folder picker, camera defaults, speakers, system health, the event
    log and the audit log; with the audit query of the server ([internal/database/db.go]).

    Every part is a state machine of its own: a handler runs up to its first [await], and
    what follows is a task that a reply resumes, in any order.  The page puts them together
    and guards the controls by tab and by role.  Number inputs give decimal text or nothing. *)

From S2P Require Import Prelude Types Http ApiClient IronsightApi Hooks EventsPanel.
From stdpp Require Import pretty.
#[local] Open Scope string_scope.
#[local] Open Scope Z_scope.

(** ** The audit log *)

Record AuditEntry := mkAuditEntry {
  ae_id : Z;
  ae_user_id : string;
  ae_username : string;
  ae_action : string;
  ae_target_type : string;
  ae_target_id : string;
  ae_details : string;
  ae_ip_address : string;
  ae_created_at : string
}.

Record AuditQuery := mkAuditQuery { aq_username : option string; aq_limit : Z; aq_offset : Z }.

Definition AUDIT_PAGE_SIZE : Z := 25.

Record AuditTab := mkAuditTab {
  au_entries : list AuditEntry;
  au_total : Z;
  au_page : Z;
  au_filter : string;
  au_pending : list AuditQuery
}.

Definition initial_audit : AuditTab := mkAuditTab [] 0 0 EmptyString [].

Definition audit_search (s : AuditTab) : AuditQuery :=
  mkAuditQuery (if truthy_str (au_filter s) then Some (au_filter s) else None) AUDIT_PAGE_SIZE (au_page s * AUDIT_PAGE_SIZE).

Definition audit_pager (s : AuditTab) : bool := AUDIT_PAGE_SIZE <? au_total s.

(** [None]: the request failed. *)
Inductive AuditEvent :=
| TypeAudit (v : string) | SearchAudit | PrevAudit | NextAudit
| AuditSettles (i : nat) (r : option (list AuditEntry * Z)).

Definition set_audit_page (p : Z) (s : AuditTab) : AuditTab := mkAuditTab (au_entries s) (au_total s) p (au_filter s) (au_pending s).
Definition set_audit_pending (l : list AuditQuery) (s : AuditTab) : AuditTab := mkAuditTab (au_entries s) (au_total s) (au_page s) (au_filter s) l.

Definition audit_step (e : AuditEvent) (s : AuditTab) : AuditTab * list AuditQuery :=
  match e with
  | TypeAudit v => (mkAuditTab (au_entries s) (au_total s) (au_page s) v (au_pending s), [])
  | SearchAudit => (set_audit_pending (au_pending s ++ [audit_search s])%list s, [audit_search s])
  | PrevAudit => (if audit_pager s && negb (au_page s =? 0) then set_audit_page (au_page s - 1) s else s, [])
  | NextAudit => (if audit_pager s && negb (au_total s <=? (au_page s + 1) * AUDIT_PAGE_SIZE) then set_audit_page (au_page s + 1) s else s, [])
  | AuditSettles i r =>
      match au_pending s !! i with
      | Some _ =>
          let s' := set_audit_pending (delete i (au_pending s)) s in
          (match r with Some (l, n) => mkAuditTab l n (au_page s') (au_filter s') (au_pending s') | None => s' end, [])
      | None => (s, [])
      end
  end.

Definition audit_run (es : list AuditEvent) (s : AuditTab) : AuditTab := foldl (λ s e, (audit_step e s).1) s es.

(** The colour of an action's badge. *)
Definition action_color (action : string) : string :=
  if str_includes "delete" action then "#ef4444" else if str_includes "create" action then "#22c55e" else "inherit".

Section server.
Context (ilike : string → string → bool).   (* PostgreSQL's ILIKE *)

(** [log] is the table, newest first. *)
Definition QueryAuditLog (log : list AuditEntry) (username action targetType : string) (limit offset : Z) : list AuditEntry * Z :=
  let limit := if limit <=? 0 then 50 else limit in
  let limit := if 10000 <? limit then 10000 else limit in
  let hits := filter_where (λ e,
    (negb (truthy_str username) || ilike (ae_username e) ("%" +:+ username +:+ "%")) &&
    (negb (truthy_str action) || String.eqb (ae_action e) action) &&
    (negb (truthy_str targetType) || String.eqb (ae_target_type e) targetType)) log in
  (take (Z.to_nat limit) (drop (Z.to_nat offset) hits), Z.of_nat (length hits)).

(** The reply to a search: absent parameters are read as empty and as 0. *)
Definition audit_answer (log : list AuditEntry) (q : AuditQuery) : list AuditEntry * Z :=
  QueryAuditLog log (default EmptyString (aq_username q)) EmptyString EmptyString
    (if aq_limit q =? 0 then 50 else aq_limit q) (aq_offset q).
End server.

(** ** The event log *)

Record EventLog := mkEventLog {
  el_events : list Event;
  el_loading : bool;
  el_camera : string;
  el_type : string;
  el_hours : Z;
  el_auto : bool;
  el_pending : list EventParams
}.

Definition log_params (now : Z) (s : EventLog) : EventParams :=
  mkEventParams (toISOString (now - el_hours s * 3600000)) (toISOString now)
    (if String.eqb (el_camera s) "all" then None else Some (el_camera s)) None
    (if String.eqb (el_type s) "all" then None else Some (el_type s)) None (Some 200).

Definition loadEvents (now : Z) (s : EventLog) : EventLog * list EventParams :=
  let p := log_params now s in
  (mkEventLog (el_events s) true (el_camera s) (el_type s) (el_hours s) (el_auto s) (el_pending s ++ [p])%list, [p]).

Definition open_log (now : Z) : EventLog * list EventParams :=
  loadEvents now (mkEventLog [] false "all" "all" 1 true []).

Inductive LogEvent :=
| LogCamera (v : string) | LogType (v : string) | LogHours (h : Z) | LogAuto | LogRefresh | LogTick
| LogReply (i : nat) (rows : list Event).

Definition set_log_filters (camera type : string) (hours : Z) (auto : bool) (s : EventLog) : EventLog :=
  mkEventLog (el_events s) (el_loading s) camera type hours auto (el_pending s).

(** Changing a filter makes a new [loadEvents], which the effect runs at once; the timer
    ticks while auto-refresh is on; [queryEvents] never rejects. *)
Definition log_step (now : Z) (e : LogEvent) (s : EventLog) : EventLog * list EventParams :=
  match e with
  | LogCamera v => if String.eqb v (el_camera s) then (s, []) else loadEvents now (set_log_filters v (el_type s) (el_hours s) (el_auto s) s)
  | LogType v => if String.eqb v (el_type s) then (s, []) else loadEvents now (set_log_filters (el_camera s) v (el_hours s) (el_auto s) s)
  | LogHours h => if h =? el_hours s then (s, []) else loadEvents now (set_log_filters (el_camera s) (el_type s) h (el_auto s) s)
  | LogAuto => (set_log_filters (el_camera s) (el_type s) (el_hours s) (negb (el_auto s)) s, [])
  | LogRefresh => if el_loading s then (s, []) else loadEvents now s
  | LogTick => if el_auto s then loadEvents now s else (s, [])
  | LogReply i rows =>
      match el_pending s !! i with
      | Some _ => (mkEventLog rows false (el_camera s) (el_type s) (el_hours s) (el_auto s) (delete i (el_pending s)), [])
      | None => (s, [])
      end
  end.

Definition log_run (es : list (Z * LogEvent)) (s : EventLog) : EventLog := foldl (λ s e, (log_step e.1 e.2 s).1) s es.

(** [Array.from(new Set(types)).sort()] *)
Definition eventTypes (rows : list Event) : list string := sort_by String.leb (set_of (ev_event_type <$> rows)).

(** The types offered by the select. *)
Definition type_options (s : EventLog) : list string := "all" :: eventTypes (el_events s).

(** [camNames[id] || id.slice(0, 8)]: the last camera of an id. *)
Definition camera_label (cameras : list Camera) (id : string) : string :=
  or_str (last_value id ((λ c, (cam_id c, cam_name c)) <$> cameras)) (String.substring 0 8 id).

(** A long topic keeps its last 60 characters. *)
Definition topic_text (topic : string) : string :=
  if (60 <? String.length topic)%nat then "..." +:+ String.substring (String.length topic - 60) 60 topic else topic.

(** ** The settings draft *)

Record SystemSettings := mkSystemSettings {
  sy_recordings_path : string;
  sy_snapshots_path : string;
  sy_exports_path : string;
  sy_hls_path : string;
  sy_default_retention_days : Z;
  sy_default_recording_mode : string;
  sy_default_segment_duration : Z;
  sy_ffmpeg_path : string;
  sy_discovery_subnet : string;
  sy_discovery_ports : string;
  sy_notification_webhook_url : string;
  sy_notification_email : string;
  sy_notification_triggers : string;
  sy_updated_at : string
}.

(** [parseInt] with a sign. *)
Definition parseIntSigned (s : string) : option Z :=
  match trim s with
  | String c r =>
      if Ascii.eqb c (Ascii.ascii_of_N 45) then Z.opp <$> Keyboard.leading_digits None (bytes_of r)
      else if Ascii.eqb c (Ascii.ascii_of_N 43) then Keyboard.leading_digits None (bytes_of r) else Keyboard.leading_digits None (bytes_of (String c r))
  | EmptyString => None
  end.

(** [parseInt(v) || d] *)
Definition int_or (v : string) (d : Z) : Z := or_Z (parseIntSigned v) d.

(** The keys that the page's inputs patch. *)
Inductive DraftKey :=
| dk_recordings_path | dk_snapshots_path | dk_exports_path | dk_hls_path
| dk_retention | dk_mode | dk_segment | dk_ffmpeg.

Definition patch_settings (k : DraftKey) (v : string) (d : SystemSettings) : SystemSettings :=
  let keep := mkSystemSettings in
  match k, d with
  | dk_recordings_path, mkSystemSettings _ b c e f g h i j l m n o p => keep v b c e f g h i j l m n o p
  | dk_snapshots_path, mkSystemSettings a _ c e f g h i j l m n o p => keep a v c e f g h i j l m n o p
  | dk_exports_path, mkSystemSettings a b _ e f g h i j l m n o p => keep a b v e f g h i j l m n o p
  | dk_hls_path, mkSystemSettings a b c _ f g h i j l m n o p => keep a b c v f g h i j l m n o p
  | dk_retention, mkSystemSettings a b c e _ g h i j l m n o p => keep a b c e (int_or v 30) g h i j l m n o p
  | dk_mode, mkSystemSettings a b c e f _ h i j l m n o p => keep a b c e f v h i j l m n o p
  | dk_segment, mkSystemSettings a b c e f g _ i j l m n o p => keep a b c e f g (int_or v 60) i j l m n o p
  | dk_ffmpeg, mkSystemSettings a b c e f g h _ j l m n o p => keep a b c e f g h v j l m n o p
  end.

Inductive DraftTask := DT_Load | DT_Save.

Record SettingsMsg := mkSettingsMsg { sm_ok : bool; sm_text : string }.

Record DraftPart := mkDraftPart {
  dr_settings : option SystemSettings;
  dr_draft : option SystemSettings;
  dr_saving : bool;
  dr_msg : option SettingsMsg;
  dr_tasks : list DraftTask
}.

(** After the effect of mounting, which loads the settings. *)
Definition initial_draft : DraftPart := mkDraftPart None None false None [DT_Load].

Inductive DraftEvent :=
| PatchDraft (k : DraftKey) (v : string) | ClickSave
| DraftSettles (i : nat) (r : option string + SystemSettings).   (* [inl]: rejected, with the message if it has one *)

Definition SAVED : SettingsMsg := mkSettingsMsg true "✓ Settings saved. Some changes require a server restart to take effect.".

Definition handleSaveSettings (s : DraftPart) : DraftPart * option SystemSettings :=
  match dr_draft s with
  | None => (s, None)
  | Some d => (mkDraftPart (dr_settings s) (dr_draft s) true None (dr_tasks s ++ [DT_Save])%list, Some d)
  end.

Definition draft_settles (t : DraftTask) (r : option string + SystemSettings) (s : DraftPart) : DraftPart :=
  match t, r with
  | DT_Load, inr v => mkDraftPart (Some v) (Some v) (dr_saving s) (dr_msg s) (dr_tasks s)
  | DT_Load, inl _ => s
  | DT_Save, inr v => mkDraftPart (Some v) (Some v) false (Some SAVED) (dr_tasks s)
  | DT_Save, inl m => mkDraftPart (dr_settings s) (dr_draft s) false (Some (mkSettingsMsg false ("✗ " +:+ default "Save failed" m))) (dr_tasks s)
  end.

(** The result carries the body of [updateSettings], when it is called. *)
Definition draft_step (e : DraftEvent) (s : DraftPart) : DraftPart * option SystemSettings :=
  match e with
  | PatchDraft k v => (mkDraftPart (dr_settings s) (patch_settings k v <$> dr_draft s) (dr_saving s) (dr_msg s) (dr_tasks s), None)
  | ClickSave => if dr_saving s then (s, None) else handleSaveSettings s
  | DraftSettles i r =>
      match dr_tasks s !! i with
      | Some t => (draft_settles t r (mkDraftPart (dr_settings s) (dr_draft s) (dr_saving s) (dr_msg s) (delete i (dr_tasks s))), None)
      | None => (s, None)
      end
  end.

Definition draft_run (es : list DraftEvent) (s : DraftPart) : DraftPart := foldl (λ s e, (draft_step e s).1) s es.

(** ** Storage locations and the folder picker *)

Record StorageLocationCreate := mkLocationCreate {
  lc_label : string;
  lc_path : string;
  lc_purpose : string;
  lc_retention_days : Z;
  lc_max_gb : Z;
  lc_priority : Z
}.

(** A location has the fields of its creation and those of the server. *)
Record StorageLocation := mkLocation {
  sl_id : string;
  sl_data : StorageLocationCreate;
  sl_enabled : bool;
  sl_created_at : string;
  sl_updated_at : string
}.

Record DiskUsage := mkDiskUsage { du_total_bytes : Z; du_free_bytes : Z; du_used_bytes : Z }.
Record FolderEntry := mkFolderEntry { fe_name : string; fe_path : string; fe_is_dir : bool }.
Record DriveInfo := mkDriveInfo {
  di_letter : string;
  di_label : string;
  di_file_system : string;
  di_drive_type : string;
  di_usage : DiskUsage
}.

Definition empty_location : StorageLocationCreate := mkLocationCreate EmptyString EmptyString "recordings" 30 0 0.

Inductive LocField := lf_label | lf_path | lf_purpose | lf_retention | lf_max.

Definition set_loc_field (f : LocField) (v : string) (l : StorageLocationCreate) : StorageLocationCreate :=
  match f, l with
  | lf_label, mkLocationCreate _ b c d e p => mkLocationCreate v b c d e p
  | lf_path, mkLocationCreate a _ c d e p => mkLocationCreate a v c d e p
  | lf_purpose, mkLocationCreate a b _ d e p => mkLocationCreate a b v d e p
  | lf_retention, mkLocationCreate a b c _ e p => mkLocationCreate a b c (int_or v 30) e p
  | lf_max, mkLocationCreate a b c d _ p => mkLocationCreate a b c d (int_or v 0) p
  end.

Definition edit_location (f : LocField) (v : string) (l : StorageLocation) : StorageLocation :=
  mkLocation (sl_id l) (set_loc_field f v (sl_data l)) (sl_enabled l) (sl_created_at l) (sl_updated_at l).

Definition backslash : Ascii.ascii := Ascii.ascii_of_N 92.
Definition to_slash (c : Ascii.ascii) : Ascii.ascii := if Ascii.eqb c backslash then Ascii.ascii_of_N 47 else c.

(** [path.replace(/\\/g, '/').split('/').filter(Boolean)] *)
Definition path_parts (path : string) : list string := filter_where truthy_str (js_split "/" (map_string to_slash path)).

(** The path behind the [i]-th part of the breadcrumb. *)
Definition crumb_path (parts : list string) (i : nat) : string :=
  String.concat (String backslash EmptyString) (take (S i) parts) +:+ String backslash EmptyString.

(** After a backslash: [[^\\]+\\?$], given whether a character has been read. *)
Fixpoint tail_segment (some : bool) (s : string) : bool :=
  match s with
  | EmptyString => some
  | String c r => if Ascii.eqb c backslash then some && String.eqb r EmptyString else tail_segment true r
  end.

(** [path.replace(/\\[^\\]+\\?$/, '')] *)
Fixpoint cut_segment (s : string) : string :=
  match s with
  | EmptyString => EmptyString
  | String c r => if Ascii.eqb c backslash && tail_segment false r then EmptyString else String c (cut_segment r)
  end.

Inductive StoreTask :=
| ST_Locations | ST_Usages (locs : list StorageLocation) | ST_Post | ST_Put | ST_Delete | ST_Drives | ST_Browse (path : string).

Inductive StoreReply :=
| SR_Locations (l : list StorageLocation) | SR_Usages (l : list (option DiskUsage)) | SR_Ok
| SR_Drives (l : list DriveInfo) | SR_Folders (l : list FolderEntry) | SR_Fail.

Inductive StoreCall :=
| ListLocations | GetDiskUsage (path : string) | PostLocation (l : StorageLocationCreate)
| PutLocation (id : string) (l : StorageLocationCreate) | DeleteLocation (id : string) | ListDrives | BrowsePath (path : string).

Record Picker := mkPicker {
  pk_show : bool;
  pk_drives : list DriveInfo;
  pk_folders : list FolderEntry;
  pk_path : string;
  pk_breadcrumb : list string
}.

Record StorageTab := mkStorageTab {
  so_locations : list StorageLocation;
  so_loading : bool;
  so_usages : list (string * DiskUsage);
  so_editing : option StorageLocation;
  so_new : StorageLocationCreate;
  so_addingNew : bool;
  so_picker : Picker;
  so_tasks : list StoreTask
}.

Definition initial_storage : StorageTab :=
  mkStorageTab [] false [] None empty_location false (mkPicker false [] [] EmptyString []) [].

Definition upd_so_list (l : list StorageLocation) (b : bool) (u : list (string * DiskUsage)) (s : StorageTab) : StorageTab :=
  mkStorageTab l b u (so_editing s) (so_new s) (so_addingNew s) (so_picker s) (so_tasks s).
Definition upd_so_forms (e : option StorageLocation) (n : StorageLocationCreate) (a : bool) (s : StorageTab) : StorageTab :=
  mkStorageTab (so_locations s) (so_loading s) (so_usages s) e n a (so_picker s) (so_tasks s).
Definition upd_so_picker (p : Picker) (s : StorageTab) : StorageTab :=
  mkStorageTab (so_locations s) (so_loading s) (so_usages s) (so_editing s) (so_new s) (so_addingNew s) p (so_tasks s).
Definition upd_so_tasks (l : list StoreTask) (s : StorageTab) : StorageTab :=
  mkStorageTab (so_locations s) (so_loading s) (so_usages s) (so_editing s) (so_new s) (so_addingNew s) (so_picker s) l.
Definition so_await (t : StoreTask) (s : StorageTab) : StorageTab := upd_so_tasks (so_tasks s ++ [t])%list s.
Definition set_pk_show (b : bool) (p : Picker) : Picker := mkPicker b (pk_drives p) (pk_folders p) (pk_path p) (pk_breadcrumb p).
Definition set_pk_path (v : string) (p : Picker) : Picker := mkPicker (pk_show p) (pk_drives p) (pk_folders p) v (pk_breadcrumb p).

Definition loadStorageLocations (s : StorageTab) : StorageTab * list StoreCall :=
  (so_await ST_Locations (upd_so_list (so_locations s) true (so_usages s) s), [ListLocations]).

(** [usages[loc.id] = usage] for the replies that are not null. *)
Definition usages_of (locs : list StorageLocation) (us : list (option DiskUsage)) : list (string * DiskUsage) :=
  map_of (omap (λ p, pair (sl_id p.1) <$> p.2) (zip locs us)).

(** The list has arrived: ask for the usage of every path, all at once. *)
Definition locations_arrive (l : list StorageLocation) (s : StorageTab) : StorageTab * list StoreCall :=
  match l with
  | [] => (upd_so_list [] false [] s, [])
  | _ => (so_await (ST_Usages l) (upd_so_list l (so_loading s) (so_usages s) s), (λ x, GetDiskUsage (lc_path (sl_data x))) <$> l)
  end.

Definition openFolderPicker (s : StorageTab) : StorageTab * list StoreCall :=
  (so_await ST_Drives (upd_so_picker (set_pk_show true (so_picker s)) s), [ListDrives]).

Definition navigatePicker (path : string) (s : StorageTab) : StorageTab * list StoreCall :=
  (so_await (ST_Browse path) (upd_so_picker (set_pk_path path (so_picker s)) s), [BrowsePath path]).

(** The [..] entry. *)
Definition goParent (s : StorageTab) : StorageTab * list StoreCall :=
  let path := pk_path (so_picker s) in
  let parent := cut_segment path in
  if truthy_str parent && negb (String.eqb parent path) then navigatePicker (parent +:+ String backslash EmptyString) s else (s, []).

Definition selectPickerPath (s : StorageTab) : StorageTab :=
  let path := pk_path (so_picker s) in
  let s' :=
    match so_editing s with
    | Some e => upd_so_forms (Some (edit_location lf_path path e)) (so_new s) (so_addingNew s) s
    | None => upd_so_forms None (set_loc_field lf_path path (so_new s)) (so_addingNew s) s
    end in
  upd_so_picker (set_pk_show false (so_picker s)) s'.

Definition handleAddLocation (s : StorageTab) : StorageTab * list StoreCall :=
  if negb (truthy_str (lc_label (so_new s))) || negb (truthy_str (lc_path (so_new s))) then (s, [])
  else (so_await ST_Post s, [PostLocation (so_new s)]).

Definition handleUpdateLocation (s : StorageTab) : StorageTab * list StoreCall :=
  match so_editing s with
  | None => (s, [])
  | Some e => (so_await ST_Put s, [PutLocation (sl_id e) (sl_data e)])
  end.

Definition handleDeleteLocation (confirmed : bool) (id : string) (s : StorageTab) : StorageTab * list StoreCall :=
  if confirmed then (so_await ST_Delete s, [DeleteLocation id]) else (s, []).

(** The rest of a handler after its [await]; a rejected drive or folder list is unhandled
    and changes nothing. *)
Definition store_resume (t : StoreTask) (r : StoreReply) (s : StorageTab) : option (StorageTab * list StoreCall) :=
  match t, r with
  | ST_Locations, SR_Locations l => Some (locations_arrive l s)
  | ST_Locations, SR_Fail => Some (upd_so_list (so_locations s) false (so_usages s) s, [])
  | ST_Usages locs, SR_Usages us => Some (upd_so_list (so_locations s) false (usages_of locs us) s, [])
  | ST_Usages _, SR_Fail => Some (upd_so_list (so_locations s) false (so_usages s) s, [])
  | ST_Post, SR_Ok => Some (loadStorageLocations (upd_so_forms (so_editing s) empty_location false s))
  | ST_Put, SR_Ok => Some (loadStorageLocations (upd_so_forms None (so_new s) (so_addingNew s) s))
  | ST_Delete, SR_Ok => Some (loadStorageLocations s)
  | ST_Drives, SR_Drives l => Some (upd_so_picker (mkPicker (pk_show (so_picker s)) l [] EmptyString []) s, [])
  | ST_Browse path, SR_Folders l =>
      let p := so_picker s in Some (upd_so_picker (mkPicker (pk_show p) (pk_drives p) l (pk_path p) (path_parts path)) s, [])
  | (ST_Post | ST_Put | ST_Delete | ST_Drives | ST_Browse _), SR_Fail => Some (s, [])
  | _, _ => None
  end.

Inductive StoreEvent :=
| ClickAddLocation | TypeNew (f : LocField) (v : string) | SubmitNew | CancelNew
| ClickEdit (l : StorageLocation) | TypeEditing (f : LocField) (v : string) | SubmitEditing | CancelEditing
| ClickDelete (confirmed : bool) (id : string)
| ClickBrowse
| PickPath (path : string)          (* a drive or a folder of the list *)
| PickCrumb (i : nat) | PickParent | TypePath (v : string) | GoPath | PickSelect | PickClose
| StoreSettles (i : nat) (r : StoreReply).

Definition storage_step (isAdmin : bool) (e : StoreEvent) (s : StorageTab) : StorageTab * list StoreCall :=
  let editing := bool_decide (is_Some (so_editing s)) in
  let picking := pk_show (so_picker s) in
  match e with
  | ClickAddLocation => (if isAdmin && negb (so_addingNew s) then upd_so_forms (so_editing s) (so_new s) true s else s, [])
  | TypeNew f v => (if so_addingNew s then upd_so_forms (so_editing s) (set_loc_field f v (so_new s)) true s else s, [])
  | SubmitNew => if so_addingNew s then handleAddLocation s else (s, [])
  | CancelNew => (if so_addingNew s then upd_so_forms (so_editing s) (so_new s) false s else s, [])
  | ClickEdit l => (if isAdmin && negb editing then upd_so_forms (Some l) (so_new s) (so_addingNew s) s else s, [])
  | TypeEditing f v => (upd_so_forms (edit_location f v <$> so_editing s) (so_new s) (so_addingNew s) s, [])
  | SubmitEditing => handleUpdateLocation s
  | CancelEditing => (upd_so_forms None (so_new s) (so_addingNew s) s, [])
  | ClickDelete ok id => if isAdmin && negb editing then handleDeleteLocation ok id s else (s, [])
  | ClickBrowse => if so_addingNew s || editing then openFolderPicker s else (s, [])
  | PickPath p => if picking then navigatePicker p s else (s, [])
  | PickCrumb i =>
      if picking && truthy_str (pk_path (so_picker s)) && Nat.ltb i (length (pk_breadcrumb (so_picker s)))
      then navigatePicker (crumb_path (pk_breadcrumb (so_picker s)) i) s else (s, [])
  | PickParent => if picking && truthy_str (pk_path (so_picker s)) then goParent s else (s, [])
  | TypePath v => (if picking then upd_so_picker (set_pk_path v (so_picker s)) s else s, [])
  | GoPath => if picking then navigatePicker (pk_path (so_picker s)) s else (s, [])
  | PickSelect => (if picking && truthy_str (pk_path (so_picker s)) then selectPickerPath s else s, [])
  | PickClose => (upd_so_picker (set_pk_show false (so_picker s)) s, [])
  | StoreSettles i r =>
      match so_tasks s !! i with
      | Some t => default (s, []) (store_resume t r (upd_so_tasks (delete i (so_tasks s)) s))
      | None => (s, [])
      end
  end.

Definition storage_run (isAdmin : bool) (es : list StoreEvent) (s : StorageTab) : StorageTab :=
  foldl (λ s e, (storage_step isAdmin e s).1) s es.

(** ** Speakers and audio messages *)

Record Speaker := mkSpeaker {
  sp_id : string; sp_name : string; sp_onvif_address : string; sp_username : string; sp_rtsp_uri : string;
  sp_zone : string; sp_status : string; sp_manufacturer : string; sp_model : string;
  sp_created_at : string; sp_updated_at : string
}.

Record AudioMessage := mkAudioMessage {
  am_id : string; am_name : string; am_category : string; am_file_name : string;
  am_duration : Q; am_file_size : Z; am_created_at : string
}.

Record NewSpeaker := mkNewSpeaker { ns_name : string; ns_onvif_address : string; ns_username : string; ns_password : string; ns_zone : string }.
Definition empty_speaker : NewSpeaker := mkNewSpeaker EmptyString EmptyString EmptyString EmptyString EmptyString.

Inductive SpeakerTask := PT_Speakers | PT_Messages | PT_AddSpeaker | PT_DeleteSpeaker | PT_Upload | PT_DeleteMessage.
Inductive SpeakerReply := PR_Speakers (l : list Speaker) | PR_Messages (l : list AudioMessage) | PR_Ok | PR_Fail.
Inductive SpeakerCall :=
| ListSpeakers | ListAudioMessages | PostSpeaker (n : NewSpeaker) | DeleteSpeaker (id : string)
| PostAudioMessage (name category file : string) | DeleteAudioMessage (id : string).

(** [sk_open]: the tab is shown; [sk_dirty]: a state update waits for React to render. *)
Record SpeakersTab := mkSpeakersTab {
  sk_speakers : list Speaker;
  sk_messages : list AudioMessage;
  sk_new : NewSpeaker;
  sk_adding : bool;
  sk_msg_name : string;
  sk_msg_category : string;
  sk_msg_file : option string;
  sk_uploading : bool;
  sk_open : bool;
  sk_dirty : bool;
  sk_tasks : list SpeakerTask
}.

Definition initial_speakers : SpeakersTab :=
  mkSpeakersTab [] [] empty_speaker false EmptyString "warning" None false false false [].

Definition upd_sk_lists (l : list Speaker) (m : list AudioMessage) (s : SpeakersTab) : SpeakersTab :=
  mkSpeakersTab l m (sk_new s) (sk_adding s) (sk_msg_name s) (sk_msg_category s) (sk_msg_file s) (sk_uploading s) (sk_open s) true (sk_tasks s).
Definition upd_sk_new (n : NewSpeaker) (b : bool) (s : SpeakersTab) : SpeakersTab :=
  mkSpeakersTab (sk_speakers s) (sk_messages s) n b (sk_msg_name s) (sk_msg_category s) (sk_msg_file s) (sk_uploading s) (sk_open s) true (sk_tasks s).
Definition upd_sk_msg (name category : string) (file : option string) (b : bool) (s : SpeakersTab) : SpeakersTab :=
  mkSpeakersTab (sk_speakers s) (sk_messages s) (sk_new s) (sk_adding s) name category file b (sk_open s) true (sk_tasks s).
Definition upd_sk_render (o d : bool) (l : list SpeakerTask) (s : SpeakersTab) : SpeakersTab :=
  mkSpeakersTab (sk_speakers s) (sk_messages s) (sk_new s) (sk_adding s) (sk_msg_name s) (sk_msg_category s) (sk_msg_file s) (sk_uploading s) o d l.
Definition sk_await (t : list SpeakerTask) (s : SpeakersTab) : SpeakersTab := upd_sk_render (sk_open s) (sk_dirty s) (sk_tasks s ++ t)%list s.

(** The tab's function body, which runs in every render of the tab. *)
Definition render_speakers (s : SpeakersTab) : SpeakersTab * list SpeakerCall :=
  let s' := upd_sk_render (sk_open s) false (sk_tasks s) s in
  if sk_open s && Nat.eqb (length (sk_speakers s)) 0 && Nat.eqb (length (sk_messages s)) 0 && negb (sk_adding s)
  then (sk_await [PT_Speakers; PT_Messages] s', [ListSpeakers; ListAudioMessages]) else (s', []).

Definition handleAddSpeaker (s : SpeakersTab) : SpeakersTab * list SpeakerCall :=
  if negb (truthy_str (ns_name (sk_new s))) || negb (truthy_str (ns_onvif_address (sk_new s))) then (s, [])
  else (sk_await [PT_AddSpeaker] (upd_sk_new (sk_new s) true s), [PostSpeaker (sk_new s)]).

Definition handleUploadMsg (s : SpeakersTab) : SpeakersTab * list SpeakerCall :=
  match truthy_str (sk_msg_name s), sk_msg_file s with
  | true, Some f => (sk_await [PT_Upload] (upd_sk_msg (sk_msg_name s) (sk_msg_category s) (Some f) true s),
                     [PostAudioMessage (sk_msg_name s) (sk_msg_category s) f])
  | _, _ => (s, [])
  end.

Definition can_add_speaker (s : SpeakersTab) : bool :=
  negb (sk_adding s) && truthy_str (ns_name (sk_new s)) && truthy_str (ns_onvif_address (sk_new s)).
Definition can_upload (s : SpeakersTab) : bool :=
  negb (sk_uploading s) && truthy_str (sk_msg_name s) && bool_decide (is_Some (sk_msg_file s)).

(** Setting an array re-renders even when both are empty, since the arrays differ. *)
Definition speaker_resume (t : SpeakerTask) (r : SpeakerReply) (s : SpeakersTab) : option (SpeakersTab * list SpeakerCall) :=
  match t, r with
  | PT_Speakers, PR_Speakers l => Some (upd_sk_lists l (sk_messages s) s, [])
  | PT_Messages, PR_Messages l => Some (upd_sk_lists (sk_speakers s) l s, [])
  | (PT_Speakers | PT_Messages | PT_DeleteSpeaker | PT_DeleteMessage), PR_Fail => Some (s, [])
  | PT_AddSpeaker, PR_Ok => Some (sk_await [PT_Speakers] (upd_sk_new empty_speaker false s), [ListSpeakers])
  | PT_AddSpeaker, PR_Fail => Some (upd_sk_new (sk_new s) false s, [])
  | PT_Upload, PR_Ok => Some (sk_await [PT_Messages] (upd_sk_msg EmptyString (sk_msg_category s) None false s), [ListAudioMessages])
  | PT_Upload, PR_Fail => Some (upd_sk_msg (sk_msg_name s) (sk_msg_category s) (sk_msg_file s) false s, [])
  | PT_DeleteSpeaker, PR_Ok => Some (sk_await [PT_Speakers] s, [ListSpeakers])
  | PT_DeleteMessage, PR_Ok => Some (sk_await [PT_Messages] s, [ListAudioMessages])
  | _, _ => None
  end.

Inductive SpeakerEvent :=
| OpenSpeakers | CloseSpeakers | RenderSpeakers
| TypeSpeaker (n : NewSpeaker) | ClickAddSpeaker | RemoveSpeaker (id : string)
| TypeMessage (name category : string) (file : option string) | ClickUpload | RemoveMessage (id : string)
| SpeakerSettles (i : nat) (r : SpeakerReply).

Definition speaker_step (isAdmin : bool) (e : SpeakerEvent) (s : SpeakersTab) : SpeakersTab * list SpeakerCall :=
  let admin := isAdmin && sk_open s in
  match e with
  | OpenSpeakers => (upd_sk_render true true (sk_tasks s) s, [])
  | CloseSpeakers => (upd_sk_render false true (sk_tasks s) s, [])
  | RenderSpeakers => if sk_dirty s then render_speakers s else (s, [])
  | TypeSpeaker n => (if admin then upd_sk_new n (sk_adding s) s else s, [])
  | ClickAddSpeaker => if admin && can_add_speaker s then handleAddSpeaker s else (s, [])
  | RemoveSpeaker id => if admin then (sk_await [PT_DeleteSpeaker] s, [DeleteSpeaker id]) else (s, [])
  | TypeMessage n c f => (if admin then upd_sk_msg n c f (sk_uploading s) s else s, [])
  | ClickUpload => if admin && can_upload s then handleUploadMsg s else (s, [])
  | RemoveMessage id => if admin then (sk_await [PT_DeleteMessage] s, [DeleteAudioMessage id]) else (s, [])
  | SpeakerSettles i r =>
      match sk_tasks s !! i with
      | Some t => default (s, []) (speaker_resume t r (upd_sk_render (sk_open s) (sk_dirty s) (delete i (sk_tasks s)) s))
      | None => (s, [])
      end
  end.

Definition speaker_run (isAdmin : bool) (es : list SpeakerEvent) (s : SpeakersTab) : SpeakersTab :=
  foldl (λ s e, (speaker_step isAdmin e s).1) s es.

(** The calls of a run, oldest first. *)
Fixpoint speaker_calls (isAdmin : bool) (es : list SpeakerEvent) (s : SpeakersTab) : list SpeakerCall :=
  match es with
  | [] => []
  | e :: r => ((speaker_step isAdmin e s).2 ++ speaker_calls isAdmin r (speaker_step isAdmin e s).1)%list
  end.

(** The messages listed under a category. *)
Definition categories : list string := ["warning"; "info"; "emergency"; "custom"].
Definition messages_shown (l : list AudioMessage) : list AudioMessage :=
  mjoin ((λ c, filter_where (λ m, String.eqb (am_category m) c) l) <$> categories).

(** ** The system tab *)

Record MasterRow := mkMasterRow { mr_id : string; mr_name : string; mr_status : string; mr_recording : bool; mr_site_id : option string }.

(** [camerasBySite] and [unassignedCameras] *)
Definition camerasBySite (cams : list MasterRow) (sid : string) : list MasterRow :=
  filter_where (λ c, bool_decide (mr_site_id c = Some sid)) (filter_where (λ c, truthy_ostr (mr_site_id c)) cams).
Definition unassignedCameras (cams : list MasterRow) : list MasterRow := filter_where (λ c, negb (truthy_ostr (mr_site_id c))) cams.

Record SiteHealth := mkSiteHealth { sh_cameras : nat; sh_online : nat; sh_offline : nat; sh_recording : nat }.

Definition site_health (cams : list MasterRow) (sid : string) : SiteHealth :=
  let l := camerasBySite cams sid in
  let online := length (filter_where (λ c, String.eqb (mr_status c) "connected" || String.eqb (mr_status c) "online") l) in
  mkSiteHealth (length l) online (length l - online) (length (filter_where mr_recording l)).

Definition driver_of (manufacturer model : string) : string :=
  let mfg := toLowerCase manufacturer in let mdl := toLowerCase model in
  if str_includes "milesight" mfg || String.prefix "ms-c" mdl || String.prefix "ms-n" mdl then "Milesight" else "ONVIF (Generic)".

Definition driverCounts (cams : list Camera) : list (string * Z) :=
  foldl (λ m c, let d := driver_of (cam_manufacturer c) (cam_model c) in map_set d (default 0 (map_get d m) + 1) m) [] cams.

(** [Math.round(used / total * 100)]; [None] is NaN or Infinity. *)
Definition usage_pct (used total : Z) : option Z := if total =? 0 then None else Some (round_div (used * 100) total).

Definition usage_color (pct : option Z) : string :=
  match pct with Some p => if 95 <? p then "critical" else if 80 <? p then "warn" else "ok" | None => "ok" end.

(** [(b / unit).toFixed(1)] and [(b / unit).toFixed(0)] *)
Definition fixed1 (b unit : Z) : string := let n := round_div (b * 10) unit in pretty (n / 10) +:+ "." +:+ pretty (n mod 10).
Definition fixed0 (b unit : Z) : string := pretty (round_div b unit).

Definition formatBytes (b : Z) : string :=
  if 10 ^ 12 <=? b then fixed1 b (10 ^ 12) +:+ " TB"
  else if 10 ^ 9 <=? b then fixed1 b (10 ^ 9) +:+ " GB"
  else if 10 ^ 6 <=? b then fixed0 b (10 ^ 6) +:+ " MB" else pretty b +:+ " B".

Definition uptime_text (s : Z) : string := pretty (s / 3600) +:+ "h " +:+ pretty (s mod 3600 / 60) +:+ "m".

(** ** The page *)

Inductive PageTab := pt_cameras | pt_storage | pt_defaults | pt_speakers | pt_system | pt_events | pt_audit.

#[export] Instance PageTab_eq_dec : EqDecision PageTab.
Proof. solve_decision. Defined.

Record SettingsPage := mkSettingsPage {
  pg_tab : PageTab;
  pg_audit : AuditTab;
  pg_draft : DraftPart;
  pg_storage : StorageTab;
  pg_speakers : SpeakersTab;
  pg_log : option EventLog;     (* while the tab is shown *)
  pg_health : option json;
  pg_asking : nat               (* health requests in flight *)
}.

Inductive PageCall :=
| CallSettings | CallSaveSettings (d : SystemSettings) | CallHealth | CallAudit (q : AuditQuery)
| CallStore (c : StoreCall) | CallSpeaker (c : SpeakerCall) | CallEvents (p : EventParams).

(** The page is mounted. *)
Definition initial_page : SettingsPage := mkSettingsPage pt_cameras initial_audit initial_draft initial_storage initial_speakers None None 0.
Definition mount_calls : list PageCall := [CallSettings].

Inductive PageEvent :=
| SelectTab (t : PageTab) | RefreshHealth | HealthSettles (r : option json)
| OnAudit (e : AuditEvent) | OnDraft (e : DraftEvent) | OnStore (e : StoreEvent) | OnSpeaker (e : SpeakerEvent) | OnLog (e : LogEvent).

(** Every other state of the page re-renders the speakers tab as well. *)
Definition touch (s : SpeakersTab) : SpeakersTab := upd_sk_render (sk_open s) true (sk_tasks s) s.

(** Opening a tab runs its effects; what is in flight for the event log is dropped with it. *)
Definition select_tab (now : Z) (t : PageTab) (p : SettingsPage) : SettingsPage * list PageCall :=
  if decide (t = pg_tab p) then (p, [])
  else
    let st := if decide (t = pt_storage) then loadStorageLocations (pg_storage p) else (pg_storage p, []) in
    let sp := (speaker_step true (if decide (t = pt_speakers) then OpenSpeakers else CloseSpeakers) (pg_speakers p)).1 in
    let log := if decide (t = pt_events) then (λ r, (Some r.1, r.2)) (open_log now) else (None, []) in
    (mkSettingsPage t (pg_audit p) (pg_draft p) st.1 sp log.1 (pg_health p) (pg_asking p), ((CallStore <$> st.2) ++ (CallEvents <$> log.2))%list).

Definition on_audit (e : AuditEvent) (p : SettingsPage) : SettingsPage * list PageCall :=
  let r := audit_step e (pg_audit p) in
  (mkSettingsPage (pg_tab p) r.1 (pg_draft p) (pg_storage p) (touch (pg_speakers p)) (pg_log p) (pg_health p) (pg_asking p), CallAudit <$> r.2).
Definition on_draft (e : DraftEvent) (p : SettingsPage) : SettingsPage * list PageCall :=
  let r := draft_step e (pg_draft p) in
  (mkSettingsPage (pg_tab p) (pg_audit p) r.1 (pg_storage p) (touch (pg_speakers p)) (pg_log p) (pg_health p) (pg_asking p),
   CallSaveSettings <$> option_list r.2).
Definition on_store (isAdmin : bool) (e : StoreEvent) (p : SettingsPage) : SettingsPage * list PageCall :=
  let r := storage_step isAdmin e (pg_storage p) in
  (mkSettingsPage (pg_tab p) (pg_audit p) (pg_draft p) r.1 (touch (pg_speakers p)) (pg_log p) (pg_health p) (pg_asking p), CallStore <$> r.2).
Definition on_speaker (isAdmin : bool) (e : SpeakerEvent) (p : SettingsPage) : SettingsPage * list PageCall :=
  let r := speaker_step isAdmin e (pg_speakers p) in
  (mkSettingsPage (pg_tab p) (pg_audit p) (pg_draft p) (pg_storage p) r.1 (pg_log p) (pg_health p) (pg_asking p), CallSpeaker <$> r.2).

(** Where the input of a key is. *)
Definition key_tab (k : DraftKey) : PageTab :=
  match k with
  | dk_recordings_path | dk_snapshots_path | dk_exports_path | dk_hls_path => pt_storage
  | dk_retention | dk_mode | dk_segment => pt_defaults
  | dk_ffmpeg => pt_system
  end.

Definition set_health (h : option json) (n : nat) (p : SettingsPage) : SettingsPage :=
  mkSettingsPage (pg_tab p) (pg_audit p) (pg_draft p) (pg_storage p) (touch (pg_speakers p)) (pg_log p) h n.

(** Replies are handled whatever tab is shown; the folder picker lies over all of them. *)
Definition page_step (isAdmin : bool) (now : Z) (e : PageEvent) (p : SettingsPage) : SettingsPage * list PageCall :=
  let on t := bool_decide (pg_tab p = t) in
  match e with
  | SelectTab t => select_tab now t p
  | RefreshHealth => if on pt_system then (set_health (pg_health p) (S (pg_asking p)) p, [CallHealth]) else (p, [])
  | HealthSettles r =>
      match pg_asking p with
      | S n => (set_health (match r with Some _ => r | None => pg_health p end) n p, [])
      | O => (p, [])
      end
  | OnAudit (AuditSettles _ _ as e') => on_audit e' p
  | OnAudit e' => if on pt_audit then on_audit e' p else (p, [])
  | OnDraft (DraftSettles _ _ as e') => on_draft e' p
  | OnDraft (PatchDraft k _ as e') => if isAdmin && on (key_tab k) then on_draft e' p else (p, [])
  | OnDraft ClickSave =>
      if isAdmin && (on pt_storage && bool_decide (is_Some (dr_draft (pg_draft p))) || on pt_defaults || on pt_system)
      then on_draft ClickSave p else (p, [])
  | OnStore ((StoreSettles _ _ | PickPath _ | PickCrumb _ | PickParent | TypePath _ | GoPath | PickSelect | PickClose) as e') => on_store isAdmin e' p
  | OnStore e' => if on pt_storage then on_store isAdmin e' p else (p, [])
  | OnSpeaker (OpenSpeakers | CloseSpeakers) => (p, [])     (* steps of [SelectTab] *)
  | OnSpeaker e' => on_speaker isAdmin e' p
  | OnLog e' =>
      match pg_log p with
      | Some l =>
          let r := log_step now e' l in
          (mkSettingsPage (pg_tab p) (pg_audit p) (pg_draft p) (pg_storage p) (pg_speakers p) (Some r.1) (pg_health p) (pg_asking p), CallEvents <$> r.2)
      | None => (p, [])
      end
  end.

Definition page_run (isAdmin : bool) (es : list (Z * PageEvent)) (p : SettingsPage) : SettingsPage :=
  foldl (λ p e, (page_step isAdmin e.1 e.2 p).1) p es.

(** ** Theorems: who may change what *)

(** A call that changes nothing on the server. *)
Definition reads (c : PageCall) : bool :=
  match c with
  | CallSaveSettings _ => false
  | CallStore c => match c with PostLocation _ | PutLocation _ _ | DeleteLocation _ => false | _ => true end
  | CallSpeaker c => match c with ListSpeakers | ListAudioMessages => true | _ => false end
  | _ => true
  end.

Definition only_reads (l : list PageCall) : Prop := Forall (λ c, reads c = true) l.

(** The forms of the storage tab are closed. *)
Definition forms_closed (s : StorageTab) : Prop := so_addingNew s = false ∧ so_editing s = None.

Lemma storage_read_only e s :
  forms_closed s → forms_closed (storage_step false e s).1 ∧ only_reads (CallStore <$> (storage_step false e s).2).
Proof.
  unfold only_reads, forms_closed. intros [Ha He]. destruct s as [l ld u ed nw ad pk ts]. simpl in Ha, He. subst ad ed.
  destruct e as [| | | | | | | | | | | | | | | | |i r]; unfold storage_step, goParent, navigatePicker; simpl.
  18: destruct (ts !! i) as [[]|]; destruct r as [[]| | | | |]; simpl.
  all: try solve [repeat case_match; simpl; split_and!; try done; by repeat constructor].
  split; [done|]. repeat constructor. apply Forall_fmap, Forall_fmap, Forall_true. done.
Qed.

Lemma speaker_read_only e s : only_reads (CallSpeaker <$> (speaker_step false e s).2).
Proof.
  unfold only_reads, speaker_step, render_speakers. simpl.
  destruct e as [| | | | | | | | |i r]; try (by constructor).
  - repeat case_match; by repeat constructor.
  - destruct (sk_tasks s !! i) as [[]|]; destruct r; by repeat constructor.
Qed.

Lemma page_read_only now e p :
  forms_closed (pg_storage p) →
  forms_closed (pg_storage (page_step false now e p).1) ∧ only_reads (page_step false now e p).2.
Proof.
  intros Hc. assert (Hd : forms_closed (pg_storage p) ∧ only_reads [] ) by (split; [done|constructor]).
  destruct e as [t| |r|e|e|e|e|e]; simpl.
  - unfold select_tab. destruct (decide (t = pg_tab p)); [exact Hd|]. simpl.
    destruct (decide (t = pt_storage)), (decide (t = pt_events)); simpl; split; try done; by repeat constructor.
  - case_match; simpl; split; try done; by repeat constructor.
  - case_match; [exact Hd|]. simpl. split; [done|constructor].
  - assert (Ha : forms_closed (pg_storage (on_audit e p).1) ∧ only_reads (on_audit e p).2).
    { split; [done|]. simpl. unfold only_reads. by apply Forall_fmap, Forall_true. }
    destruct e; try done; case_match; done.
  - destruct e as [k v| |i r]; [exact Hd| exact Hd|]. split; [done|]. simpl.
    destruct (dr_tasks (pg_draft p) !! i); by constructor.
  - assert (Ha : forms_closed (pg_storage (on_store false e p).1) ∧ only_reads (on_store false e p).2) by by apply storage_read_only.
    destruct e; try done; case_match; done.
  - assert (Ha : forms_closed (pg_storage (on_speaker false e p).1) ∧ only_reads (on_speaker false e p).2)
      by (split; [done|apply speaker_read_only]).
    destruct e; done.
  - case_match; [|exact Hd]. simpl. split; [done|]. unfold only_reads. by apply Forall_fmap, Forall_true.
Qed.

(** Without the admin role nothing on the settings tabs but the cameras tab changes
    anything on the server: whatever is clicked, typed and answered, in whatever order, every
    call is a read.  (The cameras tab is the camera manager, which does not look at roles.) *)
Theorem read_only_view es now e :
  only_reads (page_step false now e (page_run false es initial_page)).2.
Proof.
  apply page_read_only. unfold page_run. induction es as [|[t x] es IH] using rev_ind; [done|].
  rewrite foldl_app. simpl. by apply page_read_only.
Qed.

(** ** Theorems: flags *)

Definition count_task {A} (p : A → bool) (l : list A) : nat := length (filter_where p l).

Lemma count_task_app {A} (p : A → bool) l1 l2 : count_task p (l1 ++ l2)%list = (count_task p l1 + count_task p l2)%nat.
Proof. unfold count_task, filter_where. by rewrite filter_app, length_app. Qed.

Lemma count_task_delete {A} (p : A → bool) l i x :
  l !! i = Some x → count_task p l = (count_task p (delete i l) + (if p x then 1 else 0))%nat.
Proof.
  intros Hx. rewrite <- (take_drop_middle l i x Hx) at 1. rewrite delete_take_drop, !count_task_app.
  unfold count_task. rewrite (filter_where_cons p x). destruct (p x); simpl; lia.
Qed.

Definition is_save (t : DraftTask) : bool := match t with DT_Save => true | _ => false end.
Definition is_add (t : SpeakerTask) : bool := match t with PT_AddSpeaker => true | _ => false end.
Definition is_upload (t : SpeakerTask) : bool := match t with PT_Upload => true | _ => false end.

Definition flag_count (b : bool) : nat := if b then 1%nat else 0%nat.

Definition draft_busy (s : DraftPart) : Prop := count_task is_save (dr_tasks s) = flag_count (dr_saving s).
Definition speakers_busy (s : SpeakersTab) : Prop :=
  count_task is_add (sk_tasks s) = flag_count (sk_adding s) ∧ count_task is_upload (sk_tasks s) = flag_count (sk_uploading s).

Lemma draft_busy_step e s : draft_busy s → draft_busy (draft_step e s).1.
Proof.
  unfold draft_busy. intros H. destruct s as [a b sv m ts]. simpl in *.
  destruct e as [k v| |i r]; simpl.
  - done.
  - destruct sv; [done|]. unfold handleSaveSettings. simpl. destruct b; [|done]. simpl. rewrite count_task_app, H. done.
  - destruct (ts !! i) as [t|] eqn:Hi; [|done]. rewrite (count_task_delete _ _ _ _ Hi) in H.
    destruct t, r, sv; simpl in *; lia.
Qed.

Lemma speakers_busy_step isAdmin e s : speakers_busy s → speakers_busy (speaker_step isAdmin e s).1.
Proof.
  unfold speakers_busy. intros [Ha Hu]. destruct s as [l m n ad nm ct fl up op di ts]. simpl in *.
  destruct e as [| | | | | | | | |i r]; simpl; try done.
  - destruct di; [|done]. unfold render_speakers. simpl. case_match; [|done]. simpl. rewrite !count_task_app. simpl. unfold count_task at 2 4. simpl. lia.
  - case_match; done.
  - unfold can_add_speaker. simpl. case_match eqn:E; [|done]. rewrite !andb_true_iff in E. destruct E as [_ [[E1 E2] E3]].
    unfold handleAddSpeaker. simpl. rewrite E2, E3. simpl. rewrite !count_task_app, Ha, Hu. destruct ad; [done|]. unfold count_task. simpl. lia.
  - case_match; [|done]. simpl. rewrite !count_task_app. unfold count_task at 2 4. simpl. lia.
  - case_match; done.
  - unfold can_upload. simpl. case_match eqn:E; [|done]. rewrite !andb_true_iff in E. destruct E as [_ [[E1 E2] _]].
    unfold handleUploadMsg. simpl. rewrite E2. destruct fl; [|done]. simpl. rewrite !count_task_app, Ha, Hu. destruct up; [done|]. unfold count_task. simpl. lia.
  - case_match; [|done]. simpl. rewrite !count_task_app. unfold count_task at 2 4. simpl. lia.
  - destruct (ts !! i) as [t|] eqn:Hi; [|done].
    pose proof (count_task_delete is_add _ _ _ Hi). pose proof (count_task_delete is_upload _ _ _ Hi).
    destruct t, r, ad, up; simpl in *; rewrite ?count_task_app; unfold count_task in *; simpl; lia.
Qed.

Definition is_listing (t : StoreTask) : bool := match t with ST_Locations | ST_Usages _ => true | _ => false end.

Definition loading_pending (s : StorageTab) : Prop := so_loading s = true → (0 < count_task is_listing (so_tasks s))%nat.
Definition log_pending (s : EventLog) : Prop := el_loading s = true → el_pending s ≠ [].

Lemma loading_pending_step isAdmin e s : loading_pending s → loading_pending (storage_step isAdmin e s).1.
Proof.
  unfold loading_pending. destruct s as [l ld u ed nw ad pk ts]. simpl. intros H.
  assert (Happ : ∀ t, ld = true → (0 < count_task is_listing (ts ++ [t]))%nat) by (intros; rewrite count_task_app; specialize (H ltac:(done)); lia).
  destruct e as [| | | | | | | | | | | | | | | | |i r]; unfold storage_step, goParent, navigatePicker, openFolderPicker, handleAddLocation,
    handleUpdateLocation, handleDeleteLocation, selectPickerPath; simpl.
  18: destruct (ts !! i) as [t|] eqn:Hi; [pose proof (count_task_delete is_listing _ _ _ Hi) as Hd; destruct t, r as [[]| | | | |]|]; simpl.
  all: try solve [repeat case_match; simpl; auto].
  all: try solve [intros _; rewrite count_task_app; unfold count_task; simpl; lia].
  all: intros E; first [done | specialize (H E); simpl in Hd; lia].
Qed.

Lemma log_pending_step now e s : log_pending s → log_pending (log_step now e s).1.
Proof.
  unfold log_pending. destruct s as [ev ld c t h au pn]. simpl. intros H.
  assert (Happ : ∀ p : EventParams, (pn ++ [p])%list ≠ []) by (by destruct pn).
  destruct e; simpl; try (case_match; simpl; auto; done). done.
Qed.

Record page_flags (p : SettingsPage) : Prop := {
  pf_draft : draft_busy (pg_draft p);
  pf_speakers : speakers_busy (pg_speakers p);
  pf_storage : loading_pending (pg_storage p);
  pf_log : ∀ l, pg_log p = Some l → log_pending l
}.

Lemma page_flags_step isAdmin now e p : page_flags p → page_flags (page_step isAdmin now e p).1.
Proof.
  intros H. pose proof H as [Hd Hs Ht Hl]. destruct e as [t| |r|e|e|e|e|e]; simpl.
  - unfold select_tab. destruct (decide (t = pg_tab p)); [done|]. split; simpl; [done|apply speakers_busy_step, Hs| |].
    + destruct (decide _); [|done]. intros _. simpl. rewrite count_task_app. unfold count_task at 2. simpl. lia.
    + intros l. destruct (decide _); [|done]. by intros [= <-] _.
  - case_match; [|done]. by split.
  - case_match; [done|]. by split.
  - assert (Ha : page_flags (on_audit e p).1) by by split.
    destruct e; try done; case_match; done.
  - assert (Ha : page_flags (on_draft e p).1) by (split; simpl; [by apply draft_busy_step|done..]).
    destruct e; try done; case_match; done.
  - assert (Ha : page_flags (on_store isAdmin e p).1) by (split; simpl; [done..|by apply loading_pending_step|done]).
    destruct e; try done; case_match; done.
  - assert (Ha : page_flags (on_speaker isAdmin e p).1) by (split; simpl; [done|by apply speakers_busy_step|done..]).
    destruct e; done.
  - case_match; [|done]. split; simpl; [done..|]. intros l [= <-]. apply log_pending_step. by apply Hl.
Qed.

(** Whatever happens on the page, in whatever order: a save, an added speaker and an
    upload each have their flag exactly while one of them is in flight, so none of them runs
    twice at once, and "Loading" of the storage tab and of the event log is shown only while
    a request that will end it is in flight. *)
Theorem settings_flags_exact isAdmin es :
  let p := page_run isAdmin es initial_page in
  count_task is_save (dr_tasks (pg_draft p)) = flag_count (dr_saving (pg_draft p)) ∧
  count_task is_add (sk_tasks (pg_speakers p)) = flag_count (sk_adding (pg_speakers p)) ∧
  count_task is_upload (sk_tasks (pg_speakers p)) = flag_count (sk_uploading (pg_speakers p)) ∧
  (so_loading (pg_storage p) = true → (0 < count_task is_listing (so_tasks (pg_storage p)))%nat) ∧
  (∀ l, pg_log p = Some l → el_loading l = true → el_pending l ≠ []).
Proof.
  intros p. enough (page_flags p) as [Hd [Ha Hu] Ht Hl] by done. subst p. unfold page_run.
  induction es as [|e es IH] using rev_ind; [by split|]. rewrite foldl_app. by apply page_flags_step.
Qed.

(** ** Theorems: speakers *)

Definition empty_reply (t : SpeakerTask) : SpeakerReply := match t with PT_Speakers => PR_Speakers [] | _ => PR_Messages [] end.

(** The tab shown while there is neither a speaker nor a message. *)
Definition speakers_idle (s : SpeakersTab) : Prop :=
  sk_speakers s = [] ∧ sk_messages s = [] ∧ sk_adding s = false ∧ sk_open s = true ∧
  Forall (λ t, t = PT_Speakers ∨ t = PT_Messages) (sk_tasks s).

(** One reply to the oldest request, and the render it causes. *)
Definition speaker_round (s : SpeakersTab) : list SpeakerEvent :=
  match sk_tasks s with t :: _ => [SpeakerSettles 0 (empty_reply t); RenderSpeakers] | [] => [] end.

Fixpoint speaker_rounds (n : nat) (s : SpeakersTab) : list SpeakerEvent :=
  match n with
  | O => []
  | S n' => (speaker_round s ++ speaker_rounds n' (speaker_run false (speaker_round s) s))%list
  end.

Lemma speaker_calls_app isAdmin l1 l2 s :
  speaker_calls isAdmin (l1 ++ l2) s = (speaker_calls isAdmin l1 s ++ speaker_calls isAdmin l2 (speaker_run isAdmin l1 s))%list.
Proof.
  revert s. induction l1 as [|e l1 IH]; intros s; [done|]. simpl. rewrite IH. by rewrite app_assoc.
Qed.

Lemma idle_round s :
  speakers_idle s → sk_tasks s ≠ [] →
  let s' := speaker_run false (speaker_round s) s in
  speakers_idle s' ∧ length (sk_tasks s') = S (length (sk_tasks s)) ∧
  speaker_calls false (speaker_round s) s = [ListSpeakers; ListAudioMessages].
Proof.
  destruct s as [l m n ad nm ct fl up op di ts]. intros (Hl & Hm & Ha & Ho & Ht) Hne. simpl in *. subst.
  destruct ts as [|t ts]; [done|]. inversion Ht as [|? ? Hh Hr]; subst.
  destruct Hh as [-> | ->]; simpl; (split_and!; [split_and!; simpl; try done|simpl; rewrite length_app; simpl; lia|done]);
    apply Forall_app; (split; [done|]); rewrite !Forall_cons, Forall_nil; auto.
Qed.

(** While the server has neither speakers nor messages, the speakers tab never comes to
    rest: each reply re-renders the tab, and each render asks for both lists again.  After
    [n] replies [2 n] more requests have been made and [n] more than at first are in flight. *)
Theorem speakers_poll_forever n s :
  speakers_idle s → sk_tasks s ≠ [] →
  let s' := speaker_run false (speaker_rounds n s) s in
  length (speaker_calls false (speaker_rounds n s) s) = (2 * n)%nat ∧
  length (sk_tasks s') = (length (sk_tasks s) + n)%nat.
Proof.
  revert s. induction n as [|n IH]; intros s Hi Hne; [simpl; lia|].
  pose proof (idle_round s Hi Hne) as (Hi' & Hlen & Hc). cbn zeta. simpl speaker_rounds.
  rewrite speaker_calls_app, length_app, Hc. unfold speaker_run at 3. rewrite foldl_app.
  fold (speaker_run false (speaker_round s) s). fold (speaker_run false (speaker_rounds n (speaker_run false (speaker_round s) s))
    (speaker_run false (speaker_round s) s)).
  destruct (IH (speaker_run false (speaker_round s) s) Hi') as [H1 H2].
  - intros E. rewrite E in Hlen. done.
  - rewrite H1, H2, Hlen. simpl. lia.
Qed.

Definition opened_speakers : SpeakersTab := speaker_run false [OpenSpeakers; RenderSpeakers] initial_speakers.

Lemma speakers_poll_forever_witness :
  length (speaker_calls false (speaker_rounds 3 opened_speakers) opened_speakers) = 6%nat ∧
  length (sk_tasks (speaker_run false (speaker_rounds 3 opened_speakers) opened_speakers)) = 5%nat.
Proof.
  apply (speakers_poll_forever 3 opened_speakers); [|done].
  split_and!; try done. change (sk_tasks opened_speakers) with [PT_Speakers; PT_Messages].
  rewrite !Forall_cons, Forall_nil. auto.
Defined.

(** ** Theorems: the folder picker *)

Definition sep : string := String backslash EmptyString.

Definition plain (c : Ascii.ascii) : bool := negb (Ascii.eqb c backslash) && negb (Ascii.eqb c (Ascii.ascii_of_N 47)).

(** A name of a folder: not empty and without separators. *)
Definition folder_name (s : string) : Prop := s ≠ EmptyString ∧ Forall (λ c, plain c = true) (String.list_ascii_of_string s).

Lemma map_string_app f a b : map_string f (a +:+ b) = map_string f a +:+ map_string f b.
Proof. induction a as [|c a IH]; [done|]. rewrite sapp_cons. cbn [map_string]. by rewrite sapp_cons, IH. Qed.

Lemma folder_name_id s : folder_name s → map_string to_slash s = s.
Proof.
  intros [_ H]. induction s as [|c s IH]; [done|]. inversion H as [|? ? Hc Hs]; subst. cbn [map_string]. rewrite IH by done.
  unfold plain in Hc. unfold to_slash. by destruct (Ascii.eqb c backslash).
Qed.

(** Splitting after a name that holds no slash. *)
Lemma split_name s r : folder_name s → js_split "/" (s +:+ String (Ascii.ascii_of_N 47) r) = s :: js_split "/" r.
Proof.
  intros [_ H]. unfold js_split. induction s as [|c s IH]; [by destruct r|]. inversion H as [|? ? Hc Hs]; subst.
  rewrite sapp_cons. cbn [split_go String.prefix]. destruct (Ascii.ascii_dec _ c) as [<-|]; [done|]. by rewrite IH.
Qed.

Lemma concat_snoc_sep (l : list string) : l ≠ [] →
  String.concat sep l +:+ sep = foldr (λ a r, a +:+ String backslash r) EmptyString l.
Proof.
  induction l as [|a [|b l] IH]; [done|by intros _|]. intros _.
  change (String.concat sep (a :: b :: l)) with (a +:+ (sep +:+ String.concat sep (b :: l))).
  rewrite <- !sapp_assoc, IH by done. done.
Qed.

Lemma parts_of_names (l : list string) : Forall folder_name l →
  path_parts (foldr (λ a r, a +:+ String backslash r) EmptyString l) = l.
Proof.
  unfold path_parts. induction 1 as [|a l Ha Hl IH]; [done|]. simpl foldr. rewrite map_string_app, folder_name_id by done.
  change (map_string to_slash (String backslash ?r)) with (String (Ascii.ascii_of_N 47) (map_string to_slash r)).
  rewrite split_name by done. rewrite filter_where_cons. destruct a as [|c a]; [by destruct Ha|]. simpl truthy_str. by rewrite IH.
Qed.

Lemma take_names (l : list string) n : Forall folder_name l → Forall folder_name (take n l).
Proof. apply Forall_take. Qed.

Lemma crumb_parts (l : list string) i : Forall folder_name l → (i < length l)%nat → path_parts (crumb_path l i) = take (S i) l.
Proof.
  intros Hl Hi. unfold crumb_path. fold sep. rewrite concat_snoc_sep, parts_of_names; [done|by apply take_names|].
  destruct l; [simpl in Hi; lia|done].
Qed.

Lemma tail_segment_long b a t : t ≠ EmptyString → tail_segment b (a +:+ String backslash t) = false.
Proof.
  intros Ht. revert b. induction a as [|c a IH]; intros b.
  - change (EmptyString +:+ String backslash t) with (String backslash t). cbn [tail_segment]. rewrite Ascii.eqb_refl.
    destruct t; [done|]. by rewrite andb_false_r.
  - rewrite sapp_cons. cbn [tail_segment]. rewrite IH. destruct (Ascii.eqb c backslash); [|done].
    destruct (a +:+ String backslash t) eqn:E; [by destruct a|]. by rewrite andb_false_r.
Qed.

Lemma tail_segment_name b s : Forall (λ c, plain c = true) (String.list_ascii_of_string s) →
  (b = true ∨ s ≠ EmptyString) → tail_segment b (s +:+ sep) = true.
Proof.
  revert b. induction s as [|c s IH]; intros b H Hb.
  - destruct Hb as [->|]; done.
  - inversion H as [|? ? Hc Hs]; subst. rewrite sapp_cons. cbn [tail_segment]. unfold plain in Hc.
    destruct (Ascii.eqb c backslash); [done|]. apply IH; [done|by left].
Qed.

(** Cutting the last folder of a path that ends with a separator. *)
Lemma cut_last a name : folder_name name → cut_segment (a +:+ String backslash (name +:+ sep)) = a.
Proof.
  intros [Hn Hp]. induction a as [|c a IH].
  - change (EmptyString +:+ ?x) with x. cbn [cut_segment]. rewrite Ascii.eqb_refl, tail_segment_name; [done|done|by right].
  - rewrite sapp_cons. cbn [cut_segment]. rewrite IH, tail_segment_long, andb_false_r; [done|]. by destruct name.
Qed.

Lemma cut_single name : folder_name name → cut_segment (name +:+ sep) = name +:+ sep.
Proof.
  intros [Hn Hp]. clear Hn. induction name as [|c a IH]; [done|]. inversion Hp as [|? ? Hc Hs]; subst.
  rewrite sapp_cons. cbn [cut_segment]. unfold plain in Hc. destruct (Ascii.eqb c backslash); [done|]. simpl andb. cbn iota. by rewrite IH.
Qed.

Lemma crumb_path_S (l : list string) i x : l !! S i = Some x →
  crumb_path l (S i) = String.concat sep (take (S i) l) +:+ String backslash (x +:+ sep).
Proof.
  intros Hx. unfold crumb_path. fold sep. rewrite (take_S_r _ _ _ Hx).
  assert (Hne : take (S i) l ≠ []).
  { by destruct l. }
  change (String backslash (x +:+ sep)) with (sep +:+ (x +:+ sep)). rewrite sapp_assoc, (concat_snoc_sep (take (S i) l)) by done.
  rewrite concat_snoc_sep by by destruct (take (S i) l). rewrite foldr_app. simpl. change (x +:+ String backslash EmptyString) with (x +:+ sep).
  generalize (take (S i) l). intros k. induction k as [|a k IH]; [done|]. simpl. by rewrite IH, <- sapp_assoc.
Qed.

(** In the folder picker a click on the [i]-th part of a Windows path browses the path
    whose parts are the first [i + 1], and from there [..] browses the path of the part
    before, or nothing at the drive. *)
Theorem crumbs_roundtrip l i :
  Forall folder_name l → (i < length l)%nat →
  path_parts (crumb_path l i) = take (S i) l ∧
  ∀ s, pk_path (so_picker s) = crumb_path l i →
    (goParent s).2 = match i with O => [] | S j => [BrowsePath (crumb_path l j)] end.
Proof.
  intros Hl Hi. split; [by apply crumb_parts|]. intros s Hs. unfold goParent. rewrite Hs.
  destruct (lookup_lt_is_Some_2 l i Hi) as [x Hx]. pose proof (proj1 (Forall_lookup _ _) Hl _ _ Hx) as Hname.
  destruct i as [|j].
  - replace (crumb_path l 0) with (x +:+ sep); [|unfold crumb_path; by rewrite (take_S_r _ _ _ Hx)].
    rewrite cut_single by done. by rewrite String.eqb_refl, andb_false_r.
  - rewrite (crumb_path_S _ _ _ Hx), cut_last by done.
    assert (Hd : String.concat sep (take (S j) l) ≠ EmptyString).
    { destruct l as [|y l]; [done|]. apply Forall_cons in Hl as [[Hy _] _]. simpl. destruct y; [done|]. by destruct (take j l). }
    set (a := String.concat sep (take (S j) l)) in *. replace (String.eqb a _) with false.
    + unfold truthy_str. destruct (String.eqb_spec a EmptyString); [done|]. done.
    + symmetry. apply String.eqb_neq. intros E. apply (f_equal String.length) in E.
      rewrite slength_app in E. simpl in E. lia.
Qed.

Lemma crumbs_roundtrip_witness :
  path_parts (crumb_path ["D:"; "NVR"; "clips"] 1) = ["D:"; "NVR"] ∧
  ∀ s, pk_path (so_picker s) = crumb_path ["D:"; "NVR"; "clips"] 1 → (goParent s).2 = [BrowsePath (crumb_path ["D:"; "NVR"; "clips"] 0)].
Proof.
  apply (crumbs_roundtrip ["D:"; "NVR"; "clips"] 1); [|simpl; lia].
  repeat constructor; done.
Defined.

Definition rootless (s : string) : Prop := match s with String c _ => plain c = true | EmptyString => False end.

Lemma split_pieces s x : x ∈ js_split "/" s → Forall (λ c, Ascii.eqb c (Ascii.ascii_of_N 47) = false) (String.list_ascii_of_string x).
Proof.
  unfold js_split. revert x. induction s as [|c s IH]; intros x.
  - intros ->%list_elem_of_singleton. constructor.
  - cbn [split_go String.prefix]. destruct (Ascii.ascii_dec _ c) as [Hc|Hc].
    + replace (String.prefix EmptyString s) with true by by destruct s.
      intros [->|Hx]%elem_of_cons; [constructor|]. by apply IH.
    + destruct (split_go "/" s 0) as [|y r] eqn:E; [by intros ?%elem_of_nil|].
      intros [->|Hx]%elem_of_cons; [|apply IH; by right]. simpl. constructor; [|apply IH; by left].
      apply Ascii.eqb_neq. by intros ->.
Qed.

Lemma to_slash_parts s x : x ∈ path_parts s → folder_name x.
Proof.
  unfold path_parts. rewrite elem_of_filter_where. intros [Hne Hx]. split; [by intros ->|].
  pose proof (split_pieces _ _ Hx) as Hs. 
  assert (Hb : ∀ t, Forall (λ c, Ascii.eqb c backslash = false) (String.list_ascii_of_string (map_string to_slash t))).
  { induction t as [|c t IH]; [constructor|]. simpl. constructor; [|done]. unfold to_slash. by destruct (Ascii.eqb c backslash) eqn:E. }
  assert (Hp : ∀ t skip y, Forall (λ c, Ascii.eqb c backslash = false) (String.list_ascii_of_string t) → y ∈ split_go "/" t skip →
    Forall (λ c, Ascii.eqb c backslash = false) (String.list_ascii_of_string y)).
  { clear. induction t as [|c t IH]; intros skip y Ht.
    - intros ->%list_elem_of_singleton. constructor.
    - simpl in Ht. inversion Ht as [|? ? Hc Ht']; subst. cbn [split_go]. destruct skip as [|k]; [|by apply IH].
      case_match; [intros [->|Hy]%elem_of_cons; [constructor|by eapply IH]|].
      destruct (split_go "/" t 0) as [|z r] eqn:E; [by intros ?%elem_of_nil|].
      intros [->|Hy]%elem_of_cons; [|eapply IH; [done|rewrite E; by right]]. simpl. constructor; [done|].
      eapply IH; [done|rewrite E; by left]. }
  specialize (Hp _ _ _ (Hb s) Hx). unfold plain. rewrite Forall_forall in Hs, Hp |- *. intros c Hc. by rewrite Hs, Hp.
Qed.

(** A path of the breadcrumb never begins with a separator: clicking any part of a Unix
    path or of a network share asks for a relative path, which the server refuses. *)
Theorem crumbs_rootless path i : (i < length (path_parts path))%nat → rootless (crumb_path (path_parts path) i).
Proof.
  intros Hi. unfold crumb_path. assert (Hf : Forall folder_name (path_parts path)) by (apply Forall_forall; intros x; apply to_slash_parts).
  destruct (path_parts path) as [|x l]; [simpl in Hi; lia|]. apply Forall_cons in Hf as [[Hx Hp] _].
  destruct x as [|c x]; [done|]. simpl in Hp. apply Forall_cons in Hp as [Hc _]. cbn [take].
  by destruct (take i l).
Qed.

Lemma crumbs_rootless_witness :
  (1 < length (path_parts "/mnt/nvr"))%nat ∧ rootless (crumb_path (path_parts "/mnt/nvr") 1) ∧
  crumb_path (path_parts "/mnt/nvr") 1 = "mnt" +:+ sep +:+ "nvr" +:+ sep.
Proof.
  split; [vm_compute; lia|]. split; [|reflexivity]. apply (crumbs_rootless "/mnt/nvr" 1). vm_compute. lia.
Defined.

(** A folder picked with the Browse button of the form for a new location goes to the
    location being edited when there is one, and the new location keeps its path. *)
Theorem picked_path_misdirected s e v :
  so_addingNew s = true → so_editing s = Some e → truthy_str v = true →
  let s' := storage_run true [ClickBrowse; TypePath v; PickSelect] s in
  so_new s' = so_new s ∧ lc_path ∘ sl_data <$> so_editing s' = Some v.
Proof.
  intros Ha He Hv. destruct s as [l ld u ed nw ad pk ts]. simpl in Ha, He. subst ad ed. cbn. rewrite Hv.
  unfold selectPickerPath, edit_location. simpl. by destruct (sl_data e).
Qed.

Definition spare : StorageLocation := mkLocation "s1" (mkLocationCreate "NAS" "D:" "all" 30 0 0) true "2024" "2024".
Definition two_forms : StorageTab := storage_run true [ClickEdit spare; ClickAddLocation; TypeNew lf_label "Disk"] initial_storage.

Lemma picked_path_misdirected_witness :
  so_new (storage_run true [ClickBrowse; TypePath "E:"; PickSelect] two_forms) = mkLocationCreate "Disk" EmptyString "recordings" 30 0 0 ∧
  lc_path ∘ sl_data <$> so_editing (storage_run true [ClickBrowse; TypePath "E:"; PickSelect] two_forms) = Some "E:".
Proof. apply (picked_path_misdirected two_forms spare "E:"); reflexivity. Defined.

(** The reply to the list of drives empties the path typed or browsed meanwhile, and the
    reply to a folder list replaces folders and breadcrumb whatever path is in the field. *)
Theorem picker_late_replies isAdmin s i path drives folders :
  (so_tasks s !! i = Some ST_Drives →
   let p := so_picker (storage_step isAdmin (StoreSettles i (SR_Drives drives)) s).1 in
   pk_path p = EmptyString ∧ pk_folders p = [] ∧ pk_breadcrumb p = []) ∧
  (so_tasks s !! i = Some (ST_Browse path) →
   let p := so_picker (storage_step isAdmin (StoreSettles i (SR_Folders folders)) s).1 in
   pk_path p = pk_path (so_picker s) ∧ pk_folders p = folders ∧ pk_breadcrumb p = path_parts path).
Proof. split; intros Hi; simpl; by rewrite Hi. Qed.

Definition browsing : StorageTab := storage_run true [ClickAddLocation; ClickBrowse; PickPath "C:"; PickPath "D:"] initial_storage.

Lemma picker_late_replies_witness :
  let p := so_picker (storage_step true (StoreSettles 0 (SR_Drives [])) browsing).1 in
  let q := so_picker (storage_step true (StoreSettles 1 (SR_Folders [])) browsing).1 in
  (pk_path p = EmptyString ∧ pk_folders p = [] ∧ pk_breadcrumb p = []) ∧
  (pk_path q = "D:" ∧ pk_folders q = [] ∧ pk_breadcrumb q = ["C:"]).
Proof.
  split.
  - apply (picker_late_replies true browsing 0 EmptyString [] []). reflexivity.
  - apply (picker_late_replies true browsing 1 "C:" [] []). reflexivity.
Defined.

(** ** Theorems: settings *)

Lemma draft_typed l s :
  let s' := draft_run ((λ x, PatchDraft x.1 x.2) <$> l) s in
  dr_tasks s' = dr_tasks s ∧ dr_settings s' = dr_settings s ∧
  dr_draft s' = (λ d, foldl (λ d x, patch_settings x.1 x.2 d) d l) <$> dr_draft s.
Proof.
  revert s. induction l as [|[k v] l IH]; intros s; [by destruct s as [? []]|]. simpl.
  destruct (IH (mkDraftPart (dr_settings s) (patch_settings k v <$> dr_draft s) (dr_saving s) (dr_msg s) (dr_tasks s))) as (H1 & H2 & H3).
  split_and!; [exact H1|exact H2|]. etransitivity; [exact H3|]. simpl. by destruct (dr_draft s).
Qed.

(** A save sends the draft as it is when the button is pressed; what is typed while it is
    in flight is replaced by the reply, under the message that the settings were saved.  When
    it fails, everything typed stays. *)
Theorem save_discards_typing s d (typed : list (DraftKey * string)) r :
  dr_draft s = Some d → dr_saving s = false →
  let s1 := draft_run ((λ x, PatchDraft x.1 x.2) <$> typed) (draft_step ClickSave s).1 in
  let s' := (draft_step (DraftSettles (length (dr_tasks s)) r) s1).1 in
  (draft_step ClickSave s).2 = Some d ∧
  match r with
  | inr u => dr_draft s' = Some u ∧ dr_msg s' = Some SAVED
  | inl m => dr_draft s' = Some (foldl (λ d x, patch_settings x.1 x.2 d) d typed) ∧ dr_settings s' = dr_settings s
  end ∧ dr_saving s' = false.
Proof.
  intros Hd Hs s1 s'.
  assert (E : draft_step ClickSave s = (mkDraftPart (dr_settings s) (Some d) true None (dr_tasks s ++ [DT_Save])%list, Some d))
    by (simpl; unfold handleSaveSettings; by rewrite Hs, Hd).
  pose proof (draft_typed typed (draft_step ClickSave s).1) as H1. fold s1 in H1. cbn zeta in H1. rewrite E in H1. simpl in H1.
  destruct H1 as (Ht & Hse & Hdr). split; [by rewrite E|]. subst s'. cbn [draft_step]. rewrite Ht, list_lookup_middle by done.
  destruct r; simpl; by rewrite ?Hdr, ?Hse.
Qed.

Definition sample_settings (path : string) : SystemSettings :=
  mkSystemSettings path "s" "e" "h" 30 "continuous" 60 "ffmpeg" EmptyString EmptyString EmptyString EmptyString EmptyString "2024".
Definition loaded_draft : DraftPart := draft_run [DraftSettles 0 (inr (sample_settings "a"))] initial_draft.

Lemma save_discards_typing_witness :
  let s1 := draft_run [PatchDraft dk_recordings_path "b"] (draft_step ClickSave loaded_draft).1 in
  let s' := (draft_step (DraftSettles 0 (inr (sample_settings "a"))) s1).1 in
  (draft_step ClickSave loaded_draft).2 = Some (sample_settings "a") ∧
  (dr_draft s' = Some (sample_settings "a") ∧ dr_msg s' = Some SAVED) ∧ dr_saving s' = false.
Proof.
  apply (save_discards_typing loaded_draft (sample_settings "a") [(dk_recordings_path, "b")] (inr (sample_settings "a"))); reflexivity.
Defined.

(** ** Theorems: the audit log *)

Section audit.
Context (ilike : string → string → bool).

(** The entries that match a filter. *)
Definition hits (log : list AuditEntry) (u : string) : list AuditEntry :=
  filter_where (λ e, negb (truthy_str u) || ilike (ae_username e) ("%" +:+ u +:+ "%")) log.

Lemma audit_answer_spec log s :
  audit_answer ilike log (audit_search s) =
  (take 25 (drop (Z.to_nat (au_page s * 25)) (hits log (au_filter s))), Z.of_nat (length (hits log (au_filter s)))).
Proof.
  unfold audit_answer, QueryAuditLog, audit_search, hits. simpl.
  replace (default EmptyString (if truthy_str (au_filter s) then Some (au_filter s) else None)) with (au_filter s).
  - assert (E : ∀ l, filter_where (λ e, (negb (truthy_str (au_filter s)) || ilike (ae_username e) ("%" +:+ au_filter s +:+ "%")) && true && true) l =
                filter_where (λ e, negb (truthy_str (au_filter s)) || ilike (ae_username e) ("%" +:+ au_filter s +:+ "%")) l).
    { induction l as [|x l IH]; [done|]. rewrite !filter_where_cons, IH. by rewrite !andb_true_r. }
    by rewrite E.
  - unfold truthy_str. by destruct (String.eqb_spec (au_filter s) EmptyString).
Qed.

(** One search with its reply. *)
Definition search_now (log : list AuditEntry) (s : AuditTab) : AuditTab :=
  audit_run [SearchAudit; AuditSettles (length (au_pending s)) (Some (audit_answer ilike log (audit_search s)))] s.

Lemma search_now_spec log s :
  search_now log s = mkAuditTab (take 25 (drop (Z.to_nat (au_page s * 25)) (hits log (au_filter s))))
    (Z.of_nat (length (hits log (au_filter s)))) (au_page s) (au_filter s) (au_pending s).
Proof.
  unfold search_now. rewrite audit_answer_spec. cbn [audit_run foldl audit_step fst]. cbn [au_pending set_audit_pending].
  rewrite list_lookup_middle by done. simpl. f_equal. rewrite delete_middle. apply app_nil_r.
Qed.

Definition no_search (e : AuditEvent) : Prop := match e with TypeAudit _ | PrevAudit | NextAudit => True | _ => False end.

(** Searches, each with what is typed and clicked before it and the log at its time, that
    match one page at most. *)
Fixpoint narrow (steps : list (list AuditEvent * list AuditEntry)) (s : AuditTab) : Prop :=
  match steps with
  | [] => True
  | (es, log) :: r =>
      let t := audit_run es s in
      Forall no_search es ∧ (length (hits log (au_filter t)) ≤ 25)%nat ∧ narrow r (search_now log t)
  end.

Lemma no_search_run es s :
  Forall no_search es → au_total s ≤ 25 → au_page (audit_run es s) = au_page s ∧ au_total (audit_run es s) = au_total s.
Proof.
  intros H Ht. unfold audit_run. revert s Ht. induction H as [|e es He Hes IH]; intros s Ht; [done|]. simpl.
  assert (Hn : audit_pager s = false) by (unfold audit_pager, AUDIT_PAGE_SIZE; lia).
  destruct e as [v| | | |]; try done; simpl; rewrite ?Hn; [|by apply IH..].
  exact (IH (mkAuditTab (au_entries s) (au_total s) (au_page s) v (au_pending s)) Ht).
Qed.

(** The audit log cannot leave a page that its filter does not have: from page two or
    later with the pager hidden, as long as every search matches one page at most, each shows
    no rows and the pager stays hidden, whatever is typed and clicked in between. *)
Theorem audit_stranded (steps : list (list AuditEvent * list AuditEntry)) s :
  1 ≤ au_page s → au_total s ≤ 25 → narrow steps s →
  let s' := foldl (λ s p, search_now p.2 (audit_run p.1 s)) s steps in
  au_page s' = au_page s ∧ audit_pager s' = false ∧ (steps ≠ [] → au_entries s' = []).
Proof.
  revert s. induction steps as [|[es log] steps IH]; intros s Hp Ht Hs.
  - simpl. split_and!; [done|unfold audit_pager, AUDIT_PAGE_SIZE; lia|done].
  - destruct Hs as (Hes & Hlog & Hr). destruct (no_search_run es s Hes Ht) as [E1 E2]. simpl. set (t := audit_run es s) in *.
    rewrite search_now_spec in Hr |- *. rewrite drop_ge, take_nil in Hr |- * by lia.
    match goal with |- context [foldl _ ?x steps] => destruct (IH x) as (I1 & I2 & I3); simpl; [lia|lia|done|] end.
    simpl in I1. split_and!; [congruence|done|]. intros _. destruct steps as [|q steps]; [done|]. by apply I3.
Qed.

(** Searching from page to page shows the matching entries once each and in order. *)
Theorem audit_pages log s n :
  (Z.of_nat (length (hits log (au_filter s))) ≤ 25 * Z.of_nat n) → 
  mjoin ((λ k, au_entries (search_now log (set_audit_page (Z.of_nat k) s))) <$> seq 0 n) = hits log (au_filter s).
Proof.
  intros Hn. assert (H : ∀ m, mjoin ((λ k, au_entries (search_now log (set_audit_page (Z.of_nat k) s))) <$> seq 0 m) = take (25 * m) (hits log (au_filter s))).
  { induction m as [|m IH]; [done|]. rewrite seq_S, fmap_app, join_app, IH. simpl. rewrite search_now_spec. simpl. rewrite app_nil_r.
    replace (Z.to_nat (Z.of_nat m * 25)) with (25 * m)%nat by lia.
    rewrite take_take_drop. f_equal. lia. }
  rewrite H. apply take_ge. lia.
Qed.
End audit.

Definition sample_entry (u : string) : AuditEntry := mkAuditEntry 1 "u" u "login" "user" "u" EmptyString EmptyString "2024".
Definition sample_log : list AuditEntry := (replicate 30 (sample_entry "alice") ++ [sample_entry "bob"])%list.
Definition sample_like (a p : string) : bool := String.eqb ("%" +:+ a +:+ "%") p.
Definition second_page : AuditTab :=
  search_now sample_like sample_log (audit_run [NextAudit; TypeAudit "bob"] (search_now sample_like sample_log initial_audit)).

Lemma audit_stranded_witness :
  let s' := foldl (λ s p, search_now sample_like p.2 (audit_run p.1 s)) second_page [([PrevAudit], sample_log)] in
  au_page s' = 1 ∧ audit_pager s' = false ∧ ([([PrevAudit], sample_log)] ≠ [] → au_entries s' = []).
Proof.
  apply (audit_stranded sample_like [([PrevAudit], sample_log)] second_page).
  - vm_compute. discriminate.
  - vm_compute. discriminate.
  - split; [by repeat constructor|]. split; [|exact I]. vm_compute. lia.
Defined.

Lemma audit_pages_witness :
  mjoin ((λ k, au_entries (search_now sample_like sample_log (set_audit_page (Z.of_nat k) initial_audit))) <$> seq 0 2) = hits sample_like sample_log EmptyString.
Proof. apply (audit_pages sample_like sample_log initial_audit 2). vm_compute. discriminate. Defined.

(** ** Theorems: the event log *)

Lemma leb_total a b : String.leb a b = false → String.leb b a = true.
Proof.
  unfold String.leb. rewrite (String.compare_antisym b a). by destruct (String.compare a b).
Qed.

(** The types offered are [all] and the types of the rows shown, each once and sorted; so
    when the rows are of one type, the select offers no other. *)
Theorem type_options_exact s :
  Sorted (λ a b, String.leb a b = true) (eventTypes (el_events s)) ∧ NoDup (eventTypes (el_events s)) ∧
  (∀ t, t ∈ type_options s ↔ t = "all" ∨ t ∈ ev_event_type <$> el_events s) ∧
  (∀ t, (∀ e, e ∈ el_events s → ev_event_type e = t) → ∀ x, x ∈ type_options s → x = "all" ∨ x = t).
Proof.
  destruct (set_of_spec (ev_event_type <$> el_events s)) as [Hnd Hin].
  assert (Ho : ∀ t, t ∈ type_options s ↔ t = "all" ∨ t ∈ ev_event_type <$> el_events s).
  { intros t. unfold type_options, eventTypes. by rewrite elem_of_cons, elem_of_sort_by, Hin. }
  split_and!; [apply sort_by_Sorted, leb_total|unfold eventTypes; by rewrite sort_by_Permutation|exact Ho|].
  intros t Ht x [->|Hx]%Ho; [by left|]. right. apply list_elem_of_fmap in Hx as (e & -> & He). by apply Ht.
Qed.

(** Each load asks for the window and the filters of its moment; the rows and the end of
    "Loading" are those of the reply that comes last, so a reply to the filters before leaves
    the table with rows that the filters exclude, and with nothing in flight to replace them. *)
Theorem log_last_reply_wins now s v rows1 rows2 :
  el_pending s = [] → v ≠ el_camera s → v ≠ "all" →
  let s1 := (loadEvents now s).1 in
  let '(s2, calls) := log_step now (LogCamera v) s1 in
  let s' := log_run [(now, LogReply 1 rows2); (now, LogReply 0 rows1)] s2 in
  calls = [mkEventParams (toISOString (now - el_hours s * 3600000)) (toISOString now) (Some v) None
             (if String.eqb (el_type s) "all" then None else Some (el_type s)) None (Some 200)] ∧
  el_camera s' = v ∧ el_events s' = rows1 ∧ el_loading s' = false ∧ el_pending s' = [].
Proof.
  intros Hp Hv Ha. destruct s as [ev ld c t h au pn]. simpl in Hp, Hv. subst pn. unfold loadEvents. cbn [fst log_step el_camera].
  rewrite (proj2 (String.eqb_neq v c) Hv). unfold loadEvents, log_params. simpl. by rewrite (proj2 (String.eqb_neq v "all") Ha).
Qed.

Definition idle_log : EventLog := mkEventLog [] false "all" "all" 1 true [].

Lemma log_last_reply_wins_witness :
  let s1 := (loadEvents 0 idle_log).1 in
  let '(s2, calls) := log_step 0 (LogCamera "c1") s1 in
  let s' := log_run [(0, LogReply 1 []); (0, LogReply 0 [mkEvent None "c2" "t" "motion" None "" None])] s2 in
  calls = [mkEventParams (toISOString (0 - 1 * 3600000)) (toISOString 0) (Some "c1") None None None (Some 200)] ∧
  el_camera s' = "c1" ∧ el_events s' = [mkEvent None "c2" "t" "motion" None "" None] ∧ el_loading s' = false ∧ el_pending s' = [].
Proof. apply (log_last_reply_wins 0 idle_log "c1" [mkEvent None "c2" "t" "motion" None "" None] []); done. Defined.

(** ** Theorems: the system tab *)

Lemma length_filter_or {A} (p q : A → bool) l :
  (∀ x, x ∈ l → p x = true → q x = true → False) →
  (length (filter_where p l) + length (filter_where q l) = length (filter_where (λ x, p x || q x) l))%nat.
Proof.
  intros H. induction l as [|x l IH]; [done|]. rewrite !filter_where_cons. specialize (IH ltac:(intros y Hy; apply H; by right)).
  pose proof (H x ltac:(by left)) as Hx. destruct (p x), (q x); simpl; lia.
Qed.

(** On the system tab online and offline add up to the cameras of a site; the cards of
    distinct sites and the unassigned box together count each camera at most once, and leave
    out exactly the cameras of sites that are not listed. *)
Theorem site_health_exact cams sites :
  NoDup sites → Forall (λ s, truthy_str s = true) sites →
  Forall (λ sid, (sh_online (site_health cams sid) + sh_offline (site_health cams sid) = sh_cameras (site_health cams sid))%nat) sites ∧
  (sum_list ((λ sid, sh_cameras (site_health cams sid)) <$> sites) + length (unassignedCameras cams) +
   length (filter_where (λ c, truthy_ostr (mr_site_id c) && negb (includes (default EmptyString (mr_site_id c)) sites)) cams) = length cams)%nat.
Proof.
  intros Hnd Ht. split.
  { apply Forall_forall. intros sid _. simpl.
    pose proof (length_filter_where (λ c, String.eqb (mr_status c) "connected" || String.eqb (mr_status c) "online") (camerasBySite cams sid)). lia. }
  assert (Hb : ∀ sid, truthy_str sid = true → camerasBySite cams sid = filter_where (λ c, bool_decide (mr_site_id c = Some sid)) cams).
  { intros sid Hs. unfold camerasBySite. induction cams as [|c l IH]; [done|]. rewrite !filter_where_cons.
    destruct (truthy_ostr (mr_site_id c)) eqn:E; [rewrite filter_where_cons; by rewrite IH|]. rewrite IH.
    rewrite bool_decide_false; [done|]. intros E'. rewrite E' in E. simpl in E. congruence. }
  change (λ sid, sh_cameras (site_health cams sid)) with (λ sid, length (camerasBySite cams sid)).
  assert (Hsum : sum_list ((λ sid, length (camerasBySite cams sid)) <$> sites) =
    length (filter_where (λ c, truthy_ostr (mr_site_id c) && includes (default EmptyString (mr_site_id c)) sites) cams)).
  { induction Hnd as [|sid sites Hni Hnd IH]; csimpl.
    - clear. induction cams as [|c l IH]; [done|]. rewrite filter_where_cons. by destruct (truthy_ostr _).
    - inversion Ht as [|? ? Hs Ht']; subst. rewrite IH, (Hb sid Hs) by done. rewrite length_filter_or.
      + f_equal. clear -Hs. induction cams as [|c l IHc]; [done|]. rewrite !filter_where_cons, IHc.
        replace (bool_decide (mr_site_id c = Some sid) || truthy_ostr (mr_site_id c) && includes (default EmptyString (mr_site_id c)) sites)
          with (truthy_ostr (mr_site_id c) && includes (default EmptyString (mr_site_id c)) (sid :: sites)); [done|].
        unfold includes. destruct (mr_site_id c) as [x|]; [|done]. simpl.
        destruct (decide (x = sid)) as [->|Hne].
        * rewrite (bool_decide_true (Some sid = Some sid)), Hs by done. simpl. apply bool_decide_true. by left.
        * rewrite (bool_decide_false (Some x = Some sid)) by congruence. simpl. f_equal. apply bool_decide_ext. rewrite elem_of_cons. naive_solver.
      + intros c _ Hc Hi. apply bool_decide_eq_true in Hc. rewrite Hc in Hi. simpl in Hi. apply andb_true_iff in Hi as [_ Hi].
        unfold includes in Hi. by apply bool_decide_eq_true in Hi. }
  rewrite Hsum. clear. unfold unassignedCameras. induction cams as [|c l IH]; [done|]. rewrite !filter_where_cons.
  destruct (truthy_ostr (mr_site_id c)), (includes (default EmptyString (mr_site_id c)) sites); simpl; lia.
Qed.

Definition sample_rows : list MasterRow := [mkMasterRow "c1" "Gate" "online" true (Some "s1"); mkMasterRow "c2" "Yard" "offline" false None; mkMasterRow "c3" "Lost" "online" true (Some "s9")].

Lemma site_health_exact_witness :
  Forall (λ sid, (sh_online (site_health sample_rows sid) + sh_offline (site_health sample_rows sid) = sh_cameras (site_health sample_rows sid))%nat) ["s1"] ∧
  (sum_list ((λ sid, sh_cameras (site_health sample_rows sid)) <$> ["s1"]) + length (unassignedCameras sample_rows) +
   length (filter_where (λ c, truthy_ostr (mr_site_id c) && negb (includes (default EmptyString (mr_site_id c)) ["s1"])) sample_rows) = length sample_rows)%nat.
Proof. apply (site_health_exact sample_rows ["s1"]); [apply NoDup_singleton|by repeat constructor]. Defined.
