(* ===== verification/Preferences.v ===== *)
(** * Preferences and the shell

    The providers and helpers around the pages: the language ([hooks/useI18n.tsx]), the theme
    ([hooks/useTheme.tsx]), toasts ([components/ToastProvider.tsx]), keyboard and screen
    reader support ([hooks/useAccessibility.tsx]) and the install banner
    ([components/shared/PWAManager.tsx]).

    [localStorage] is the text stored under the component's key; a value that a user puts
    there by hand is any text, but not a name of [Object.prototype]. *)

From S2P Require Import Prelude Types Http IronsightApi Hooks.
From stdpp Require Import pretty.
#[local] Open Scope string_scope.
#[local] Open Scope Z_scope.

(** ** Language *)

Inductive Locale := loc_en | loc_es | loc_fr.

#[export] Instance Locale_eq_dec : EqDecision Locale.
Proof. solve_decision. Defined.

Record LocaleInfo := mkLocaleInfo { li_label : string; li_flag : string; li_dir : string }.

Definition LOCALE_INFO (l : Locale) : LocaleInfo :=
  match l with
  | loc_en => mkLocaleInfo "English" "🇺🇸" "ltr"
  | loc_es => mkLocaleInfo "Español" "🇪🇸" "ltr"
  | loc_fr => mkLocaleInfo "Français" "🇫🇷" "ltr"
  end.

Definition locale_code (l : Locale) : string := match l with loc_en => "en" | loc_es => "es" | loc_fr => "fr" end.

Definition translations_en : list (string * string) :=
  [("nav.monitor", "Monitor"); ("nav.portal", "Portal"); ("nav.search", "Search");
   ("nav.analytics", "Analytics"); ("nav.admin", "Admin"); ("op.fleet_overview", "Fleet Overview");
   ("op.sites", "Sites"); ("op.cameras", "Cameras"); ("op.workers", "Workers");
   ("op.incidents", "Open Incidents"); ("op.active", "Active"); ("op.online", "Online");
   ("op.on_site", "On Site"); ("op.lock_site", "Lock Site"); ("op.unlock_site", "Release Lock");
   ("op.alerts", "Alerts"); ("op.all", "All"); ("op.critical", "Critical"); ("op.high", "High");
   ("op.medium", "Medium"); ("op.low", "Low"); ("op.claim", "Claim"); ("op.handoff", "Handoff");
   ("op.multi_site", "Multi-Site"); ("op.layout", "Layout"); ("portal.dashboard", "Safety Dashboard");
   ("portal.compliance", "Compliance Score"); ("portal.incidents", "Active Incidents");
   ("portal.workers", "Workers on Site"); ("portal.cameras", "Camera Health"); ("portal.export", "Export");
   ("portal.generate_report", "Generate Report"); ("admin.title", "Admin"); ("admin.companies", "Companies");
   ("admin.create_site", "Create Site"); ("admin.audit_trail", "Audit Trail");
   ("admin.export_csv", "Export CSV"); ("admin.export_json", "Export JSON"); ("common.close", "Close");
   ("common.save", "Save"); ("common.cancel", "Cancel"); ("common.loading", "Loading...");
   ("common.error", "Error"); ("common.retry", "Retry"); ("common.search", "Search");
   ("common.filter", "Filter"); ("common.reset", "Reset"); ("common.today", "Today");
   ("common.last_7d", "Last 7 days"); ("common.last_30d", "Last 30 days");
   ("session.expiring", "Session Expiring Soon"); ("session.extend", "Extend Session");
   ("session.logout", "Log Out"); ("a11y.skip_to_content", "Skip to main content");
   ("a11y.menu_open", "Open navigation menu"); ("a11y.menu_close", "Close navigation menu")].

Definition translations_es : list (string * string) :=
  [("nav.monitor", "Monitoreo"); ("nav.portal", "Portal"); ("nav.search", "Buscar");
   ("nav.analytics", "Analítica"); ("nav.admin", "Admin"); ("op.fleet_overview", "Vista General");
   ("op.sites", "Sitios"); ("op.cameras", "Cámaras"); ("op.workers", "Trabajadores");
   ("op.incidents", "Incidentes Abiertos"); ("op.active", "Activos"); ("op.online", "En Línea");
   ("op.on_site", "En Sitio"); ("op.lock_site", "Bloquear Sitio"); ("op.unlock_site", "Liberar Bloqueo");
   ("op.alerts", "Alertas"); ("op.all", "Todos"); ("op.critical", "Crítico"); ("op.high", "Alto");
   ("op.medium", "Medio"); ("op.low", "Bajo"); ("op.claim", "Reclamar"); ("op.handoff", "Traspaso");
   ("op.multi_site", "Multi-Sitio"); ("op.layout", "Diseño"); ("portal.dashboard", "Panel de Seguridad");
   ("portal.compliance", "Cumplimiento"); ("portal.incidents", "Incidentes Activos");
   ("portal.workers", "Trabajadores en Sitio"); ("portal.cameras", "Estado de Cámaras");
   ("portal.export", "Exportar"); ("portal.generate_report", "Generar Informe");
   ("admin.title", "Administración"); ("admin.companies", "Empresas"); ("admin.create_site", "Crear Sitio");
   ("admin.audit_trail", "Registro de Auditoría"); ("admin.export_csv", "Exportar CSV");
   ("admin.export_json", "Exportar JSON"); ("common.close", "Cerrar"); ("common.save", "Guardar");
   ("common.cancel", "Cancelar"); ("common.loading", "Cargando..."); ("common.error", "Error");
   ("common.retry", "Reintentar"); ("common.search", "Buscar"); ("common.filter", "Filtrar");
   ("common.reset", "Restablecer"); ("common.today", "Hoy"); ("common.last_7d", "Últimos 7 días");
   ("common.last_30d", "Últimos 30 días"); ("session.expiring", "Sesión Expirando");
   ("session.extend", "Extender Sesión"); ("session.logout", "Cerrar Sesión");
   ("a11y.skip_to_content", "Ir al contenido principal"); ("a11y.menu_open", "Abrir menú");
   ("a11y.menu_close", "Cerrar menú")].

Definition translations_fr : list (string * string) :=
  [("nav.monitor", "Surveillance"); ("nav.portal", "Portail"); ("nav.search", "Recherche");
   ("nav.analytics", "Analytique"); ("nav.admin", "Admin"); ("op.fleet_overview", "Vue d'ensemble");
   ("op.sites", "Sites"); ("op.cameras", "Caméras"); ("op.workers", "Travailleurs");
   ("op.incidents", "Incidents Ouverts"); ("op.active", "Actifs"); ("op.online", "En Ligne");
   ("op.on_site", "Sur Site"); ("op.lock_site", "Verrouiller le Site"); ("op.unlock_site", "Déverrouiller");
   ("op.alerts", "Alertes"); ("op.all", "Tous"); ("op.critical", "Critique"); ("op.high", "Haut");
   ("op.medium", "Moyen"); ("op.low", "Bas"); ("op.claim", "Réclamer"); ("op.handoff", "Transfert");
   ("op.multi_site", "Multi-Site"); ("op.layout", "Disposition");
   ("portal.dashboard", "Tableau de Sécurité"); ("portal.compliance", "Conformité");
   ("portal.incidents", "Incidents Actifs"); ("portal.workers", "Travailleurs sur Site");
   ("portal.cameras", "État des Caméras"); ("portal.export", "Exporter");
   ("portal.generate_report", "Générer un Rapport"); ("admin.title", "Administration");
   ("admin.companies", "Entreprises"); ("admin.create_site", "Créer un Site");
   ("admin.audit_trail", "Journal d'Audit"); ("admin.export_csv", "Exporter CSV");
   ("admin.export_json", "Exporter JSON"); ("common.close", "Fermer"); ("common.save", "Sauver");
   ("common.cancel", "Annuler"); ("common.loading", "Chargement..."); ("common.error", "Erreur");
   ("common.retry", "Réessayer"); ("common.search", "Rechercher"); ("common.filter", "Filtrer");
   ("common.reset", "Réinitialiser"); ("common.today", "Aujourd'hui");
   ("common.last_7d", "7 derniers jours"); ("common.last_30d", "30 derniers jours");
   ("session.expiring", "Session Expirante"); ("session.extend", "Prolonger la Session");
   ("session.logout", "Déconnexion"); ("a11y.skip_to_content", "Aller au contenu principal");
   ("a11y.menu_open", "Ouvrir le menu"); ("a11y.menu_close", "Fermer le menu")].

Definition translations (l : Locale) : list (string * string) :=
  match l with loc_en => translations_en | loc_es => translations_es | loc_fr => translations_fr end.

(** A saved text that is a key of [translations]. *)
Definition locale_of (s : string) : option Locale :=
  if String.eqb s "en" then Some loc_en else if String.eqb s "es" then Some loc_es else if String.eqb s "fr" then Some loc_fr else None.

(** The replacement patterns of [String.prototype.replace]; [before] and [after] surround
    the match. *)
Fixpoint expand (found before after s : string) : string :=
  match s with
  | EmptyString => EmptyString
  | String c r =>
      if Ascii.eqb c (Ascii.ascii_of_N 36) then
        match r with
        | String d r' =>
            if Ascii.eqb d (Ascii.ascii_of_N 36) then String c (expand found before after r')
            else if Ascii.eqb d (Ascii.ascii_of_N 38) then found +:+ expand found before after r'
            else if Ascii.eqb d (Ascii.ascii_of_N 96) then before +:+ expand found before after r'
            else if Ascii.eqb d (Ascii.ascii_of_N 39) then after +:+ expand found before after r'
            else String c (expand found before after r)
        | EmptyString => String c EmptyString
        end
      else String c (expand found before after r)
  end.

(** [before.concat(s).replace(pat, repl)], looking for [pat] in [s] only. *)
Fixpoint replace_go (pat repl before s : string) : string :=
  if String.prefix pat s then
    let after := String.substring (String.length pat) (String.length s - String.length pat) s in
    before +:+ expand pat before after repl +:+ after
  else match s with
       | EmptyString => before
       | String c r => replace_go pat repl (before +:+ String c EmptyString) r
       end.

Definition js_replace (pat repl s : string) : string := replace_go pat repl EmptyString s.

(** [t(key, params)]; the parameters are the entries of an object, as texts. *)
Definition translate (l : Locale) (key : string) (params : list (string * string)) : string :=
  let str := or_str (map_get key (translations l)) (or_str (map_get key (translations loc_en)) key) in
  foldl (λ str p, js_replace ("{" +:+ p.1 +:+ "}") p.2 str) str params.

(** The document's attributes are [None] while no code has set them. *)
Record I18n := mkI18n { i8_locale : Locale; i8_lang : option string; i8_dir : option string; i8_saved : option string }.

Definition apply_locale (l : Locale) (saved : option string) : I18n :=
  mkI18n l (Some (locale_code l)) (Some (li_dir (LOCALE_INFO l))) saved.

(** The page is loaded with what is stored; the effect of the provider has run. *)
Definition mount_i18n (saved : option string) : I18n :=
  match saved ≫= locale_of with
  | Some l => apply_locale l saved
  | None => mkI18n loc_en None None saved
  end.

Definition setLocale (l : Locale) (s : I18n) : I18n := apply_locale l (Some (locale_code l)).

(** ** Theme *)

Inductive Theme := light | dark.

#[export] Instance Theme_eq_dec : EqDecision Theme.
Proof. solve_decision. Defined.

Definition DARK_OVERRIDES : list (string * string) :=
  [("--bg-base", "#080c10"); ("--bg-warm", "#0E1117"); ("--bg-card", "#0f1520");
   ("--bg-card-hover", "#141c28"); ("--text-primary", "#E4E8F0"); ("--text-secondary", "#8891A5");
   ("--text-dim", "#4A5268"); ("--border", "rgba(255,255,255,0.06)");
   ("--border-subtle", "rgba(255,255,255,0.03)"); ("--accent", "#EF4444"); ("--green", "#22C55E");
   ("--yellow", "#E89B2A"); ("--blue", "#E8732A"); ("--shadow-card", "0 2px 12px rgba(0,0,0,0.3)");
   ("--shadow-hover", "0 6px 24px rgba(0,0,0,0.4)")].

Definition LIGHT_DEFAULTS : list (string * string) :=
  [("--bg-base", "#f5f0e8"); ("--bg-warm", "#ede8dd"); ("--bg-card", "#ffffff");
   ("--bg-card-hover", "#fafaf5"); ("--text-primary", "#2a2520"); ("--text-secondary", "#6b6560");
   ("--text-dim", "#a09990"); ("--border", "#e0dbd0"); ("--border-subtle", "#f0ece4");
   ("--accent", "#c84b2f"); ("--green", "#1a7a4a"); ("--yellow", "#d4a000"); ("--blue", "#2d7dd2");
   ("--shadow-card", "0 1px 3px rgba(0,0,0,0.04)"); ("--shadow-hover", "0 4px 16px rgba(0,0,0,0.06)")].

Definition theme_vars (t : Theme) : list (string * string) := match t with dark => DARK_OVERRIDES | light => LIGHT_DEFAULTS end.
Definition theme_code (t : Theme) : string := match t with dark => "dark" | light => "light" end.

(** [th_style]: the properties set on the root element. *)
Record ThemeState := mkThemeState {
  th_theme : Theme;
  th_style : list (string * string);
  th_attr : option string;
  th_saved : option string
}.

Definition applyTheme (t : Theme) (s : ThemeState) : ThemeState :=
  mkThemeState (th_theme s) (foldl (λ m p, map_set p.1 p.2 m) (th_style s) (theme_vars t)) (Some (theme_code t)) (th_saved s).

Definition setThemeState (t : Theme) (s : ThemeState) : ThemeState := mkThemeState t (th_style s) (th_attr s) (th_saved s).

(** Mounting the provider on a document, and its effect. *)
Definition mount_theme (style : list (string * string)) (attr saved : option string) : ThemeState :=
  let s := mkThemeState light style attr saved in
  match saved with
  | Some v => if String.eqb v "dark" then applyTheme dark (setThemeState dark s)
              else if String.eqb v "light" then applyTheme light (setThemeState light s) else s
  | None => s
  end.

Definition setTheme (t : Theme) (s : ThemeState) : ThemeState :=
  applyTheme t (mkThemeState t (th_style s) (th_attr s) (Some (theme_code t))).

Definition toggleTheme (s : ThemeState) : ThemeState :=
  setTheme (match th_theme s with light => dark | dark => light end) s.

Inductive ThemeEvent := ThemeToggleClick | ThemeSet (t : Theme).

Definition theme_step (e : ThemeEvent) (s : ThemeState) : ThemeState :=
  match e with ThemeToggleClick => toggleTheme s | ThemeSet t => setTheme t s end.

Definition theme_run (es : list ThemeEvent) (s : ThemeState) : ThemeState := foldl (λ s e, theme_step e s) s es.

(** ** Toasts *)

Record ToastSpec := mkToastSpec {
  ts_type : string;
  ts_eventType : option string;
  ts_cameraName : option string;
  ts_title : string;
  ts_body : option string;
  ts_onGo : bool;               (* has a Go button *)
  ts_duration : option Z
}.

(** A toast on display; [to_bar]: its progress bar still asks for frames. *)
Record ToastItem := mkToastItem {
  to_id : string;
  to_spec : ToastSpec;
  to_visible : bool;
  to_start : Z;
  to_bar : bool
}.

(** [tq_shows]: animation frames that will make a toast visible; [tq_leaving]: timers that
    will remove one. *)
Record Toaster := mkToaster {
  tq_toasts : list ToastItem;
  tq_enabled : bool;
  tq_enabledRef : bool;
  tq_saved : option string;
  tq_shows : list string;
  tq_leaving : list string
}.

Definition initial_toaster (saved : option string) : Toaster := mkToaster [] true true saved [] [].

Definition is_toast (id : string) (t : ToastItem) : bool := String.eqb (to_id t) id.
Definition set_visible (b : bool) (t : ToastItem) : ToastItem := mkToastItem (to_id t) (to_spec t) b (to_start t) (to_bar t).
Definition stop_bar (t : ToastItem) : ToastItem := mkToastItem (to_id t) (to_spec t) (to_visible t) (to_start t) false.
Definition set_toasts (l : list ToastItem) (s : Toaster) : Toaster :=
  mkToaster l (tq_enabled s) (tq_enabledRef s) (tq_saved s) (tq_shows s) (tq_leaving s).

Definition dismiss_toast (id : string) (s : Toaster) : Toaster :=
  mkToaster (map_where (is_toast id) (set_visible false) (tq_toasts s)) (tq_enabled s) (tq_enabledRef s) (tq_saved s) (tq_shows s)
    (tq_leaving s ++ [id])%list.

(** [id] is the random identifier, [now] the clock when the toast's bar is mounted. *)
Definition push_toast (id : string) (now : Z) (spec : ToastSpec) (s : Toaster) : Toaster :=
  if negb (tq_enabledRef s) then s
  else mkToaster (tq_toasts s ++ [mkToastItem id spec false now true])%list (tq_enabled s) (tq_enabledRef s) (tq_saved s)
         (tq_shows s ++ [id])%list (tq_leaving s).

(** Whether the bar has run out: [100 - elapsed / duration * 100 <= 0], or not a number. *)
Definition bar_done (duration elapsed : Z) : bool :=
  if duration =? 0 then true else if 0 <? duration then duration <=? elapsed else elapsed <=? duration.

Definition toast_duration (t : ToastItem) : Z := default 4000 (ts_duration (to_spec t)).

Inductive ToasterEvent :=
| MountToaster                                   (* the effect that reads the preference *)
| FlushEnabled                                   (* the effect that copies it to the ref *)
| SetEnabled (b : bool)
| PushToast (id : string) (now : Z) (spec : ToastSpec)
| ShowFrame (i : nat)
| BarFrame (id : string) (now : Z)
| DismissClick (id : string)
| LeaveTimer (i : nat).

Definition toaster_step (e : ToasterEvent) (s : Toaster) : Toaster :=
  match e with
  | MountToaster =>
      match tq_saved s with
      | Some v => mkToaster (tq_toasts s) (negb (String.eqb v "false")) (tq_enabledRef s) (tq_saved s) (tq_shows s) (tq_leaving s)
      | None => s
      end
  | FlushEnabled => mkToaster (tq_toasts s) (tq_enabled s) (tq_enabled s) (tq_saved s) (tq_shows s) (tq_leaving s)
  | SetEnabled b => mkToaster (tq_toasts s) b (tq_enabledRef s) (Some (if b then "true" else "false")) (tq_shows s) (tq_leaving s)
  | PushToast id now spec => push_toast id now spec s
  | ShowFrame i =>
      match tq_shows s !! i with
      | Some id => mkToaster (map_where (is_toast id) (set_visible true) (tq_toasts s)) (tq_enabled s) (tq_enabledRef s) (tq_saved s)
                     (delete i (tq_shows s)) (tq_leaving s)
      | None => s
      end
  | BarFrame id now =>
      match find_where (is_toast id) (tq_toasts s) with
      | Some t =>
          if to_bar t && bar_done (toast_duration t) (now - to_start t)
          then dismiss_toast id (set_toasts (map_where (is_toast id) stop_bar (tq_toasts s)) s) else s
      | None => s
      end
  | DismissClick id => if bool_decide (is_Some (find_where (is_toast id) (tq_toasts s))) then dismiss_toast id s else s
  | LeaveTimer i =>
      match tq_leaving s !! i with
      | Some id => mkToaster (filter_where (λ t, negb (is_toast id t)) (tq_toasts s)) (tq_enabled s) (tq_enabledRef s) (tq_saved s)
                     (tq_shows s) (delete i (tq_leaving s))
      | None => s
      end
  end.

Definition toaster_run (es : list ToasterEvent) (s : Toaster) : Toaster := foldl (λ s e, toaster_step e s) s es.

(** ** Keyboard and screen reader *)

(** [useArrowKeyNavigation]: the next index for a key. *)
Definition arrow_key (itemCount : Z) (key : string) (i : Z) : Z :=
  if String.eqb key "ArrowDown" || String.eqb key "ArrowRight" then Z.min (i + 1) (itemCount - 1)
  else if String.eqb key "ArrowUp" || String.eqb key "ArrowLeft" then Z.max (i - 1) 0
  else if String.eqb key "Home" then 0
  else if String.eqb key "End" then itemCount - 1
  else i.

(** The focus trap: [ft_items] are the focusable elements found when it opened, [ft_back]
    the element that had the focus. *)
Record FocusTrap := mkFocusTrap { ft_items : list string; ft_back : option string; ft_active : option string }.

Definition open_trap (items : list string) (active : option string) : FocusTrap :=
  mkFocusTrap items active (match items with x :: _ => Some x | [] => active end).

(** What the handler makes of Tab: [Some x] focuses [x] instead of the browser's choice. *)
Definition trap_tab (shift : bool) (t : FocusTrap) : option string :=
  match head (ft_items t), last (ft_items t) with
  | Some a, Some z =>
      if shift then if decide (ft_active t = Some a) then Some z else None
      else if decide (ft_active t = Some z) then Some a else None
  | _, _ => None
  end.

(** A Tab key: the trap's choice, else the browser's [next]. *)
Definition press_tab (next : bool → option string → option string) (shift : bool) (t : FocusTrap) : FocusTrap :=
  mkFocusTrap (ft_items t) (ft_back t) (match trap_tab shift t with Some x => Some x | None => next shift (ft_active t) end).

Definition close_trap (t : FocusTrap) : option string := match ft_back t with Some x => Some x | None => ft_active t end.

(** [announceToScreenReader]: one region per priority, one timer for all. *)
Inductive Priority := polite | assertive.

#[export] Instance Priority_eq_dec : EqDecision Priority.
Proof. solve_decision. Defined.

Record Announcer := mkAnnouncer {
  an_region : Priority → option string;         (* its text, once it exists *)
  an_timer : option (Z * Priority * string)     (* when it fires, and what it writes *)
}.

Definition silent : Announcer := mkAnnouncer (λ _, None) None.

Definition an_set (p : Priority) (s : string) (f : Priority → option string) : Priority → option string :=
  λ q, if decide (q = p) then Some s else f q.

(** Timers due at [now] have fired. *)
Definition announcer_at (now : Z) (a : Announcer) : Announcer :=
  match an_timer a with
  | Some (at_, p, m) => if at_ <=? now then mkAnnouncer (an_set p m (an_region a)) None else a
  | None => a
  end.

Definition announceToScreenReader (now : Z) (m : string) (p : Priority) (a : Announcer) : Announcer :=
  mkAnnouncer (an_set p EmptyString (an_region a)) (Some (now + 100, p, m)).

(** ** The install banner *)

Definition DISMISS_MS : Z := 30 * 24 * 60 * 60 * 1000.

(** [pw_event]: an install event is held; the two texts are those of [DISMISS_KEY] and
    [IOS_DISMISS_KEY]; [pw_prompts]: install prompts waiting for the user. *)
Record Pwa := mkPwa {
  pw_event : bool;
  pw_visible : bool;
  pw_iosVisible : bool;
  pw_until : option string;
  pw_iosUntil : option string;
  pw_prompts : nat
}.

(** [Date.now() < parseInt(stored ?? '0', 10)] *)
Definition dismissed_at (stored : option string) (now : Z) : bool :=
  match Keyboard.parseInt (default "0" stored) with Some u => now <? u | None => false end.

Definition ios_shows (stored : option string) (now : Z) : bool :=
  match Keyboard.parseInt (default "0" stored) with Some u => u <=? now | None => false end.

Definition detectIosSafari (userAgent : string) (standalone displayStandalone : bool) : bool :=
  let ua := toLowerCase userAgent in
  let some l := existsb (λ x, str_includes x ua) l in
  some ["iphone"; "ipad"; "ipod"] && (str_includes "safari" ua && negb (some ["crios"; "fxios"; "opios"; "edgios"])) &&
  negb (standalone || displayStandalone).

(** Mounting; [isIosSafari] is what [detectIosSafari] finds. *)
Definition mount_pwa (isIosSafari : bool) (now : Z) (stored iosStored : option string) : Pwa :=
  mkPwa false false (isIosSafari && ios_shows iosStored now) stored iosStored 0.

Inductive PwaEvent :=
| BeforeInstallPrompt (innerWidth : Z) | InstallClick | PromptSettles (outcome : option bool)   (* [Some true]: accepted *)
| NotNowClick | IosNotNowClick.

Definition banner_shown (s : Pwa) : bool := pw_iosVisible s || pw_visible s && pw_event s.

Definition pwa_step (now : Z) (e : PwaEvent) (s : Pwa) : Pwa :=
  match e with
  | BeforeInstallPrompt w =>
      mkPwa true (if dismissed_at (pw_until s) now then pw_visible s else if w <=? 900 then true else pw_visible s)
        (pw_iosVisible s) (pw_until s) (pw_iosUntil s) (pw_prompts s)
  | InstallClick =>
      if negb (pw_iosVisible s) && pw_visible s && pw_event s
      then mkPwa (pw_event s) false (pw_iosVisible s) (pw_until s) (pw_iosUntil s) (S (pw_prompts s)) else s
  | PromptSettles r =>
      match pw_prompts s with
      | S n => mkPwa false (pw_visible s) (pw_iosVisible s)
                 (match r with Some false => Some (pretty (now + DISMISS_MS)) | _ => pw_until s end) (pw_iosUntil s) n
      | O => s
      end
  | NotNowClick =>
      if negb (pw_iosVisible s) && pw_visible s && pw_event s
      then mkPwa (pw_event s) false (pw_iosVisible s) (Some (pretty (now + DISMISS_MS))) (pw_iosUntil s) (pw_prompts s) else s
  | IosNotNowClick =>
      if pw_iosVisible s
      then mkPwa (pw_event s) (pw_visible s) false (pw_until s) (Some (pretty (now + DISMISS_MS))) (pw_prompts s) else s
  end.

Definition pwa_run (es : list (Z * PwaEvent)) (s : Pwa) : Pwa := foldl (λ s e, pwa_step e.1 e.2 s) s es.

(** ** Theorems: language *)

(** The three dictionaries have the same keys, each once and with a text, so every key of
    one language has a text of its own in the others, which [t] gives. *)
Theorem translations_complete l key :
  NoDup (translations l).*1 ∧ (translations l).*1 = translations_en.*1 ∧
  (key ∈ translations_en.*1 →
   ∃ v, map_get key (translations l) = Some v ∧ truthy_str v = true ∧ translate l key [] = v).
Proof.
  assert (Hnd : NoDup translations_en.*1) by (apply (bool_decide_unpack _); vm_compute; exact I).
  assert (Hk : (translations l).*1 = translations_en.*1) by (destruct l; reflexivity).
  assert (Hv : forallb (λ p, truthy_str p.2) (translations l) = true) by (destruct l; reflexivity).
  split_and!; [by rewrite Hk|done|]. intros Hin. rewrite <- Hk in Hin. apply list_elem_of_fmap in Hin as ([k v] & -> & Hin). simpl.
  assert (Hg : map_get k (translations l) = Some v) by (apply map_get_elem; [by rewrite Hk|done]).
  assert (Ht : truthy_str v = true).
  { rewrite forallb_forall in Hv. apply (Hv (k, v)). by apply list_elem_of_In. }
  exists v. split_and!; [done|done|]. unfold translate. by rewrite Hg; simpl; rewrite Ht.
Qed.

Lemma translations_complete_witness :
  "common.save" ∈ translations_en.*1 ∧
  NoDup (translations loc_fr).*1 ∧ (translations loc_fr).*1 = translations_en.*1 ∧
  ∃ v, map_get "common.save" (translations loc_fr) = Some v ∧ truthy_str v = true ∧ translate loc_fr "common.save" [] = v.
Proof.
  assert (H : "common.save" ∈ translations_en.*1) by (apply (bool_decide_unpack _); vm_compute; exact I).
  destruct (translations_complete loc_fr "common.save") as (H1 & H2 & H3). auto.
Defined.

(** The language chosen last is the one shown, stored and put on the document, and the one
    that a reload starts with. *)
Theorem locale_restored saved ls l :
  let s := foldl (λ s l, setLocale l s) (mount_i18n saved) (ls ++ [l])%list in
  i8_locale s = l ∧ i8_lang s = Some (locale_code l) ∧ i8_saved s = Some (locale_code l) ∧ mount_i18n (i8_saved s) = s.
Proof. rewrite foldl_app. simpl. split_and!; try done. by destruct l. Qed.

(** [s.slice(n)] *)
Fixpoint str_drop (n : nat) (s : string) : string :=
  match n, s with S n', String _ r => str_drop n' r | _, _ => s end.

Lemma substring_all (s : string) : String.substring 0 (String.length s) s = s.
Proof. induction s as [|c s IH]; [done|]. simpl. by rewrite IH. Qed.

Lemma substring_after a b : String.substring (String.length a) (String.length b) (a +:+ b) = b.
Proof.
  induction a as [|c a IH]; [apply substring_all|]. change (String c a +:+ b) with (String c (a +:+ b)). exact IH.
Qed.

Lemma prefix_app a b : String.prefix a (a +:+ b) = true.
Proof.
  induction a as [|c a IH]; [by destruct b|]. change (String c a +:+ b) with (String c (a +:+ b)). simpl.
  destruct (Ascii.ascii_dec c c); [done|done].
Qed.

Definition no_dollar (s : string) : Prop := Forall (λ c, Ascii.eqb c (Ascii.ascii_of_N 36) = false) (String.list_ascii_of_string s).

Lemma expand_plain found before after s : no_dollar s → expand found before after s = s.
Proof.
  unfold no_dollar. induction s as [|c s IH]; [done|]. intros H. inversion H as [|? ? Hc Hs]; subst. cbn [expand]. rewrite Hc. by rewrite IH.
Qed.

Lemma replace_found pat repl before a b :
  no_dollar repl → (∀ i, (i < String.length a)%nat → String.prefix pat (str_drop i (a +:+ pat +:+ b)) = false) →
  replace_go pat repl before (a +:+ pat +:+ b) = before +:+ a +:+ repl +:+ b.
Proof.
  intros Hr. revert before. induction a as [|c a IH]; intros before Ha.
  - change (EmptyString +:+ ?x) with x. 
    assert (Hp : String.prefix pat (pat +:+ b) = true) by apply prefix_app.
    assert (Hs : String.substring (String.length pat) (String.length (pat +:+ b) - String.length pat) (pat +:+ b) = b).
    { rewrite slength_app. replace (String.length pat + String.length b - String.length pat)%nat with (String.length b) by lia. apply substring_after. }
    unfold replace_go. destruct (pat +:+ b) as [|d r] eqn:E; rewrite Hp, Hs; by rewrite expand_plain.
  - change (String c a +:+ ?x) with (String c (a +:+ x)) in *. pose proof (Ha 0%nat ltac:(simpl; lia)) as H0. simpl str_drop in H0.
    cbn [replace_go]. rewrite H0. rewrite IH.
    + rewrite <- sapp_assoc. done.
    + intros i Hi. apply (Ha (S i)). simpl. lia.
Qed.

(** A parameter replaces the first occurrence of its placeholder and no other, when its
    value holds no dollar sign; a text without the placeholder is left as it is. *)
Theorem param_replaces_first a b name v :
  no_dollar v →
  let pat := "{" +:+ name +:+ "}" in
  (∀ i, (i < String.length a)%nat → String.prefix pat (str_drop i (a +:+ pat +:+ b)) = false) →
  js_replace pat v (a +:+ pat +:+ b) = a +:+ v +:+ b.
Proof. intros Hv pat Ha. unfold js_replace. by rewrite replace_found. Qed.

Lemma param_replaces_first_witness : js_replace ("{" +:+ "n" +:+ "}") "3" ("" +:+ ("{" +:+ "n" +:+ "}") +:+ " of {n}") = "" +:+ "3" +:+ " of {n}".
Proof. apply (param_replaces_first "" " of {n}" "n" "3"); [repeat constructor|simpl; lia]. Defined.

(** ** Theorems: theme *)

(** The properties set are none, or all of one theme. *)
Definition themed (s : ThemeState) : Prop := th_style s = [] ∨ ∃ t, th_style s = theme_vars t.

Lemma applyTheme_style t s : themed s → th_style (applyTheme t s) = theme_vars t.
Proof. intros [E|[u E]]; unfold applyTheme; cbn [th_style]; rewrite E; [|destruct u]; destruct t; vm_compute; reflexivity. Qed.

(** Every switch of the theme sets every property that the other theme sets, so after any
    choices the document shows exactly the theme chosen last, the same theme is stored, and a
    reload in a fresh document shows it again. *)
Theorem theme_agrees saved es e :
  let s := theme_run (es ++ [e])%list (mount_theme [] None saved) in
  let t := th_theme s in
  th_style s = theme_vars t ∧ th_attr s = Some (theme_code t) ∧ th_saved s = Some (theme_code t) ∧
  mount_theme [] None (th_saved s) = s.
Proof.
  assert (Hm : themed (mount_theme [] None saved)).
  { unfold mount_theme. destruct saved as [v|]; [|by left]. repeat case_match; [right; exists dark|right; exists light|by left]; reflexivity. }
  assert (Hstep : ∀ e s, themed s → let t := th_theme (theme_step e s) in
    th_style (theme_step e s) = theme_vars t ∧ th_attr (theme_step e s) = Some (theme_code t) ∧ th_saved (theme_step e s) = Some (theme_code t)).
  { intros e' s Hs. assert (Hset : ∀ t, themed (mkThemeState t (th_style s) (th_attr s) (Some (theme_code t)))) by done.
    destruct e' as [|t]; cbn [theme_step]; unfold toggleTheme, setTheme; (split; [|done]); apply applyTheme_style, Hset. }
  assert (Hrun : ∀ es s, themed s → themed (theme_run es s)).
  { intros es'. induction es' as [|e' es' IH] using rev_ind; intros s Hs; [done|]. unfold theme_run. rewrite foldl_app. simpl.
    right. eexists. by apply Hstep, IH. }
  intros s t. subst t s. unfold theme_run. rewrite foldl_app. simpl. fold (theme_run es (mount_theme [] None saved)).
  destruct (Hstep e _ (Hrun es _ Hm)) as (H1 & H2 & H3). split_and!; [done|done|done|]. rewrite H3.
  set (s := theme_step e _) in *. destruct s as [t st at' sv]. simpl in *. subst. destruct t; vm_compute; reflexivity.
Qed.

(** ** Theorems: toasts *)

(** A toast with a used-up bar is on its way out; pushes use fresh identifiers. *)
Definition toaster_ok (s : Toaster) : Prop :=
  ∀ t, t ∈ tq_toasts s → to_bar t = true ∨ to_id t ∈ tq_leaving s.

Lemma toaster_ok_dismiss id s : toaster_ok s → toaster_ok (dismiss_toast id s).
Proof.
  intros H t Ht. simpl in *. unfold map_where in Ht. apply list_elem_of_fmap in Ht as (u & -> & Hu).
  destruct (H u Hu) as [Hb|Hl]; [left; by destruct (is_toast id u)|].
  right. apply elem_of_app. left. by destruct (is_toast id u).
Qed.

Lemma toaster_ok_step e s : toaster_ok s → toaster_ok (toaster_step e s).
Proof.
  intros H. destruct e as [| |b|id now spec|i|id now|id|i]; simpl.
  - destruct (tq_saved s); done.
  - done.
  - done.
  - unfold push_toast. destruct (tq_enabledRef s); [|done]. intros t Ht. simpl in *.
    apply elem_of_app in Ht as [Ht| ->%list_elem_of_singleton]; [|by left]. by apply H.
  - destruct (tq_shows s !! i) as [id|]; [|done]. intros t Ht. simpl in *. apply list_elem_of_fmap in Ht as (u & -> & Hu).
    destruct (H u Hu); destruct (is_toast id u); auto.
  - destruct (find_where (is_toast id) (tq_toasts s)) as [t|]; [|done]. destruct (to_bar t && _); [|done].
    intros u Hu. simpl in *. unfold map_where in Hu. apply list_elem_of_fmap in Hu as (v & -> & Hv). apply list_elem_of_fmap in Hv as (w & -> & Hw).
    destruct (is_toast id w) eqn:E.
    + right. apply elem_of_app. right. apply list_elem_of_singleton. unfold is_toast in *.
      apply String.eqb_eq in E. destruct (String.eqb (to_id (stop_bar w)) id); done.
    + rewrite E. destruct (H w Hw); [by left|]. right. apply elem_of_app. by left.
  - destruct (bool_decide _); [|done]. by apply toaster_ok_dismiss.
  - destruct (tq_leaving s !! i) as [id|] eqn:Hi; [|done]. intros t Ht. simpl in *. apply elem_of_filter_where in Ht as [Hne Ht].
    destruct (H t Ht) as [|Hl]; [by left|]. right. apply list_elem_of_lookup in Hl as [j Hj].
    assert (i ≠ j) by (intros ->; rewrite Hi in Hj; injection Hj as ->; unfold is_toast in Hne; by rewrite String.eqb_refl in Hne).
    apply list_elem_of_lookup. destruct (decide (j < i)%nat).
    + exists j. by rewrite list_lookup_delete_lt.
    + exists (j - 1)%nat. rewrite list_lookup_delete_ge by lia. by replace (S (j - 1)) with j by lia.
Qed.

Lemma toaster_ok_run es saved : toaster_ok (toaster_run es (initial_toaster saved)).
Proof.
  unfold toaster_run. induction es as [|e es IH] using rev_ind; [by intros t ?%elem_of_nil|]. rewrite foldl_app. by apply toaster_ok_step.
Qed.

(** Every bar gets a frame at its end. *)
Definition bars_end (s : Toaster) : list ToasterEvent := (λ t, BarFrame (to_id t) (to_start t + toast_duration t)) <$> tq_toasts s.

Definition leave_all (s : Toaster) : list ToasterEvent := replicate (length (tq_leaving s)) (LeaveTimer 0).

(** A frame of a bar changes neither identity nor deadline of a toast and starts no bar. *)
Definition same_toast (u v : ToastItem) : Prop := to_id u = to_id v ∧ to_spec u = to_spec v ∧ to_start u = to_start v.

Lemma bar_frame_spec id now s u :
  NoDup (to_id <$> tq_toasts s) → u ∈ tq_toasts (toaster_step (BarFrame id now) s) →
  ∃ v, v ∈ tq_toasts s ∧ same_toast u v ∧
    (to_bar u = true → to_bar v = true ∧ (to_id v = id → bar_done (toast_duration v) (now - to_start v) = false)).
Proof.
  intros Hnd. simpl. destruct (find_where (is_toast id) (tq_toasts s)) as [t|] eqn:Hf.
  - apply find_where_Some in Hf as [Hid Ht]. unfold is_toast in Hid. apply String.eqb_eq in Hid.
    destruct (to_bar t && bar_done (toast_duration t) (now - to_start t)) eqn:E.
    + simpl. unfold map_where. intros Hu. apply list_elem_of_fmap in Hu as (w & -> & Hw). apply list_elem_of_fmap in Hw as (v & -> & Hv).
      exists v. split; [done|]. destruct (is_toast id v) eqn:Ev.
      * replace (is_toast id (stop_bar v)) with true by (unfold is_toast in *; done). by split_and!.
      * rewrite Ev. split; [by split_and!|]. intros Hb. split; [done|]. intros Ei. unfold is_toast in Ev. by rewrite Ei, String.eqb_refl in Ev.
    + intros Hu. exists u. split_and!; try done. intros Hb. split; [done|]. intros Ei.
      assert (u = t) as -> by (eapply (NoDup_fmap_elem to_id); eauto; congruence). by rewrite Hb in E.
  - rewrite find_where_None in Hf. intros Hu. exists u. split_and!; try done. intros Hb. split; [done|]. intros Ei.
    specialize (Hf u Hu). unfold is_toast in Hf. by rewrite Ei, String.eqb_refl in Hf.
Qed.

Lemma bar_frame_ids id now s : to_id <$> tq_toasts (toaster_step (BarFrame id now) s) = to_id <$> tq_toasts s.
Proof.
  simpl. destruct (find_where _ _); [|done]. destruct (to_bar t && _); [|done]. simpl. rewrite !fmap_map_where; done.
Qed.

Lemma bars_run (l : list ToastItem) s u :
  NoDup (to_id <$> tq_toasts s) → Forall (λ t, 0 ≤ toast_duration t) (tq_toasts s) → 
  (∀ v t, v ∈ tq_toasts s → t ∈ l → to_id v = to_id t → same_toast v t) →
  u ∈ tq_toasts (toaster_run ((λ t, BarFrame (to_id t) (to_start t + toast_duration t)) <$> l) s) →
  to_bar u = true → ∀ t, t ∈ l → to_id u ≠ to_id t.
Proof.
  revert s. induction l as [|x l IH]; intros s Hnd Hd Hs Hu Hb t; [by intros ?%elem_of_nil|].
  simpl in Hu. set (s1 := toaster_step (BarFrame (to_id x) (to_start x + toast_duration x)) s) in *.
  assert (Hpres : ∀ w, w ∈ tq_toasts s1 → ∃ v, v ∈ tq_toasts s ∧ same_toast w v ∧
     (to_bar w = true → to_bar v = true ∧ (to_id v = to_id x → bar_done (toast_duration v) (to_start x + toast_duration x - to_start v) = false)))
    by (intros w Hw; by apply bar_frame_spec).
  assert (Hnd1 : NoDup (to_id <$> tq_toasts s1)) by (subst s1; by rewrite bar_frame_ids).
  assert (Hd1 : Forall (λ t, 0 ≤ toast_duration t) (tq_toasts s1)).
  { apply Forall_forall. intros w Hw. destruct (Hpres w Hw) as (v & Hv & (_ & E & _) & _). unfold toast_duration. rewrite E.
    by apply (proj1 (Forall_forall _ _) Hd v Hv). }
  assert (Hs1 : ∀ v t, v ∈ tq_toasts s1 → t ∈ l → to_id v = to_id t → same_toast v t).
  { intros v t' Hv Ht' E. destruct (Hpres v Hv) as (w & Hw & (E1 & E2 & E3) & _).
    destruct (Hs w t' Hw ltac:(by right) ltac:(congruence)) as (F1 & F2 & F3). split_and!; congruence. }
  intros [->|Ht]%elem_of_cons; [|by eapply (IH s1)].
  intros Ei. (* the bar of this toast ended in the first frame, and stays ended *)
  assert (Hstop : ∀ l' s', (∀ w, w ∈ tq_toasts s' → to_id w = to_id x → to_bar w = false) → NoDup (to_id <$> tq_toasts s') →
     ∀ w, w ∈ tq_toasts (toaster_run ((λ t, BarFrame (to_id t) (to_start t + toast_duration t)) <$> l') s') → to_id w = to_id x → to_bar w = false).
  { clear. induction l' as [|y l' IH]; intros s' H Hnd w Hw; [by apply H|]. simpl in Hw. eapply IH; [|by rewrite bar_frame_ids|exact Hw].
    intros v Hv Ei. destruct (bar_frame_spec _ _ _ _ Hnd Hv) as (z & Hz & (E & _) & Hb). destruct (to_bar v); [|done].
    destruct (Hb eq_refl) as [Hbz _]. rewrite (H z Hz) in Hbz; [done|congruence]. }
  enough (to_bar u = false) by congruence. eapply (Hstop l s1); [|done|exact Hu|done].
  intros w Hw Ew. destruct (Hpres w Hw) as (v & Hv & (E1 & E2 & E3) & Hbar). destruct (to_bar w) eqn:Hbw; [|done].
  destruct (Hbar eq_refl) as [_ Hnot]. specialize (Hnot ltac:(congruence)).
  destruct (Hs v x Hv ltac:(by left) ltac:(congruence)) as (_ & F2 & F3).
  assert (Hdv : toast_duration v = toast_duration x) by (unfold toast_duration; by rewrite F2).
  pose proof (proj1 (Forall_forall _ _) Hd v Hv) as Hpos. simpl in Hpos. rewrite F3, Hdv in *.
  unfold bar_done in Hnot. repeat case_match; lia.
Qed.

Lemma leave_run n s : length (tq_leaving s) = n →
  tq_toasts (toaster_run (replicate n (LeaveTimer 0)) s) = filter_where (λ t, negb (includes (to_id t) (tq_leaving s))) (tq_toasts s).
Proof.
  revert s. induction n as [|n IH]; intros s Hn.
  - destruct (tq_leaving s); [|done]. simpl. symmetry. apply filter_where_id. by intros.
  - destruct (tq_leaving s) as [|id r] eqn:El; [done|]. simpl. rewrite El. simpl. rewrite IH by (simpl in *; lia). simpl.
    clear. induction (tq_toasts s) as [|t l IHl]; [done|]. rewrite !filter_where_cons. unfold includes, is_toast in *. simpl.
    destruct (String.eqb_spec (to_id t) id) as [->|Hne]; simpl.
    + rewrite bool_decide_true by by left. simpl. exact IHl.
    + rewrite filter_where_cons, IHl. replace (bool_decide (to_id t ∈ id :: r)) with (bool_decide (to_id t ∈ r)); [done|].
      apply bool_decide_ext. rewrite elem_of_cons. naive_solver.
Qed.

(** No toast stays: from any state of the provider, once every progress bar has had the
    frame at its end and the timers have fired, none is left (identifiers being distinct and
    durations not negative). *)
Theorem toasts_drain es saved :
  let s := toaster_run es (initial_toaster saved) in
  NoDup (to_id <$> tq_toasts s) → Forall (λ t, 0 ≤ toast_duration t) (tq_toasts s) →
  let s1 := toaster_run (bars_end s) s in
  tq_toasts (toaster_run (leave_all s1) s1) = [].
Proof.
  intros s Hnd Hd s1. unfold leave_all. rewrite leave_run by done.
  assert (Hok : toaster_ok s1).
  { subst s1 s. unfold toaster_run. rewrite <- foldl_app. apply (toaster_ok_run (es ++ _)%list). }
  apply filter_where_nil. intros t Ht. destruct (Hok t Ht) as [Hb|Hl].
  - exfalso. assert (Hids : to_id <$> tq_toasts s1 = to_id <$> tq_toasts s).
    { subst s1. unfold bars_end. generalize (tq_toasts s) at 1. intros l. generalize s. clear. induction l as [|x l IH]; intros s; [done|].
      simpl. etransitivity; [apply IH|apply bar_frame_ids]. }
    assert (Hi : to_id t ∈ to_id <$> tq_toasts s) by (rewrite <- Hids; apply list_elem_of_fmap; by exists t).
    apply list_elem_of_fmap in Hi as (x & Ex & Hx).
    eapply (bars_run (tq_toasts s) s t); eauto. intros v w Hv Hw E.
    assert (v = w) as -> by (by eapply (NoDup_fmap_elem to_id)). by split_and!.
  - unfold includes. by rewrite bool_decide_true.
Qed.

Definition sample_toast : ToastSpec := mkToastSpec "success" None None "Saved" None false None.
Definition two_toasts : list ToasterEvent := [PushToast "a" 0 sample_toast; PushToast "b" 100 sample_toast; ShowFrame 0; DismissClick "b"].

Lemma toasts_drain_witness :
  let s := toaster_run two_toasts (initial_toaster None) in
  let s1 := toaster_run (bars_end s) s in
  tq_toasts s ≠ [] ∧ tq_toasts (toaster_run (leave_all s1) s1) = [].
Proof.
  split; [done|]. apply (toasts_drain two_toasts None).
  - apply (bool_decide_unpack _). vm_compute. exact I.
  - repeat constructor; vm_compute; discriminate.
Defined.

(** Once toasts are switched off and the page has rendered, no toast is added until they
    are switched on again, and the choice is stored; while the stored choice has been read
    but not yet rendered, toasts still come. *)
Theorem toasts_off s es t :
  let off := toaster_run [SetEnabled false; FlushEnabled] s in
  Forall (λ e, match e with SetEnabled _ | MountToaster => False | _ => True end) es →
  t ∈ to_id <$> tq_toasts (toaster_run es off) → t ∈ to_id <$> tq_toasts s.
Proof.
  intros off Hes. enough (H : tq_enabledRef (toaster_run es off) = false ∧ tq_enabled (toaster_run es off) = false ∧
    (∀ t, t ∈ to_id <$> tq_toasts (toaster_run es off) → t ∈ to_id <$> tq_toasts s)) by apply H.
  unfold toaster_run. induction es as [|e es IH] using rev_ind; [done|].
  apply Forall_app in Hes as [Hes He]. apply Forall_cons in He as [He _]. destruct (IH Hes) as (H1 & H2 & H3). clear IH.
  rewrite foldl_app. cbn [foldl]. set (u := foldl _ off es) in *.
  destruct e as [| |b|id now spec|i|id now|id|i]; try done; simpl.
  - unfold push_toast. by rewrite H1.
  - destruct (tq_shows u !! i); [|done]. simpl. split_and!; [done|done|]. by rewrite fmap_map_where.
  - pose proof (bar_frame_ids id now u) as Hb. simpl in Hb. destruct (find_where _ _); [|done]. destruct (to_bar _ && _); [|done].
    simpl in *. split_and!; [done|done|]. by rewrite Hb.
  - destruct (bool_decide _); [|done]. simpl. split_and!; [done|done|]. by rewrite fmap_map_where.
  - destruct (tq_leaving u !! i); [|done]. simpl. split_and!; [done|done|]. intros x Hx. apply H3.
    apply list_elem_of_fmap in Hx as (y & -> & Hy). apply elem_of_filter_where in Hy as [_ Hy]. apply list_elem_of_fmap. by exists y.
Qed.

Lemma toasts_off_witness :
  "a" ∈ to_id <$> tq_toasts (toaster_run [PushToast "b" 0 sample_toast] (toaster_run [SetEnabled false; FlushEnabled] (toaster_run two_toasts (initial_toaster None)))) ∧
  "a" ∈ to_id <$> tq_toasts (toaster_run two_toasts (initial_toaster None)).
Proof.
  assert (H : "a" ∈ to_id <$> tq_toasts (toaster_run [PushToast "b" 0 sample_toast] (toaster_run [SetEnabled false; FlushEnabled] (toaster_run two_toasts (initial_toaster None)))))
    by (apply (bool_decide_unpack _); vm_compute; exact I).
  split; [exact H|]. apply (toasts_off (toaster_run two_toasts (initial_toaster None)) [PushToast "b" 0 sample_toast] "a"); [by repeat constructor|exact H].
Defined.

(** ** Theorems: keyboard and screen reader *)

(** For a list with items any keys keep the index in the list; for an empty one the first
    arrow down or End leaves the index at -1. *)
Theorem arrow_bounds n keys i :
  (0 < n → 0 ≤ i < n → 0 ≤ foldl (λ i k, arrow_key n k i) i keys < n) ∧
  (∀ k, k = "ArrowDown" ∨ k = "ArrowRight" ∨ k = "End" → 0 ≤ i → arrow_key 0 k i = -1).
Proof.
  split.
  - intros Hn. revert i. induction keys as [|k keys IH]; intros i Hi; [done|]. simpl. apply IH. unfold arrow_key. repeat case_match; lia.
  - intros k [-> |[-> | ->]] Hi; unfold arrow_key; simpl; lia.
Qed.

Lemma arrow_bounds_witness :
  0 ≤ foldl (λ i k, arrow_key 3 k i) 0 ["ArrowUp"; "End"; "ArrowDown"] < 3 ∧ arrow_key 0 "End" 0 = -1.
Proof.
  split.
  - apply (arrow_bounds 3 ["ArrowUp"; "End"; "ArrowDown"] 0); lia.
  - apply (arrow_bounds 0 [] 0 ); [by right; right|lia].
Defined.

Section trap.
Context (next : bool → option string → option string).   (* where the browser moves the focus *)

(** While the dialog is open Tab goes through its elements in order and round: after [k]
    presses from the first it is on number [k] modulo their count, and closing gives the
    focus back. *)
Theorem focus_cycles items active k :
  NoDup items → items ≠ [] →
  (∀ i x y, items !! i = Some x → items !! S i = Some y → next false (Some x) = Some y) →
  let t := Nat.iter k (press_tab next false) (open_trap items active) in
  ft_active t = items !! (k mod length items)%nat ∧ close_trap t = match active with Some x => Some x | None => ft_active t end.
Proof.
  intros Hnd Hne Hnext t.
  assert (Hlen : length items ≠ 0%nat) by by destruct items.
  assert (H : ft_items t = items ∧ ft_back t = active ∧ ft_active t = items !! (k mod length items)%nat).
  { subst t. induction k as [|k (H1 & H2 & H3)].
    - simpl. rewrite Nat.Div0.mod_0_l. destruct items; [done|]. by split_and!.
    - simpl Nat.iter. set (u := Nat.iter k _ _) in *. unfold press_tab. cbn [ft_items ft_back ft_active]. split_and!; [done|done|].
      pose proof (Nat.mod_upper_bound k (length items) Hlen) as Hm.
      destruct (lookup_lt_is_Some_2 items (k mod length items)%nat Hm) as [x Hx].
      assert (Hlast : last items = items !! (length items - 1)%nat) by (rewrite last_lookup; f_equal; lia).
      destruct (lookup_lt_is_Some_2 items (length items - 1)%nat ltac:(lia)) as [z Hz].
      destruct items as [|a l] eqn:Ei; [done|]. rewrite <- Ei in *. assert (Ha : items !! 0%nat = Some a) by by rewrite Ei.
      assert (Hhead : head items = Some a) by by rewrite Ei.
      unfold trap_tab. rewrite H1, Hhead, Hlast, Hz, H3, Hx.
      destruct (decide (S (k mod length items) = length items)) as [El|Hl].
      + rewrite decide_True; [|f_equal; assert ((length items - 1)%nat = (k mod length items)%nat) as E' by lia; rewrite E' in Hz; congruence].
        replace (S k mod length items)%nat with 0%nat; [done|].
        rewrite <- Nat.add_1_r, <- Nat.Div0.add_mod_idemp_l, Nat.add_1_r, El. by rewrite Nat.Div0.mod_same.
      + rewrite decide_False.
        * assert (Es : (S k mod length items = S (k mod length items))%nat).
          { rewrite <- Nat.add_1_r, <- Nat.Div0.add_mod_idemp_l, Nat.add_1_r. apply Nat.mod_small. lia. }
          rewrite Es. destruct (lookup_lt_is_Some_2 items (S (k mod length items))%nat ltac:(lia)) as [y Hy]. rewrite Hy. by eapply Hnext.
        * intros [= ->]. pose proof (NoDup_lookup items _ _ _ Hnd Hx Hz). lia. }
  destruct H as (H1 & H2 & H3). split; [done|]. unfold close_trap. by rewrite H2.
Qed.
End trap.

Definition sample_next (shift : bool) (o : option string) : option string := match o with Some x => if String.eqb x "a" then Some "b" else None | None => None end.

Lemma focus_cycles_witness :
  let t := Nat.iter 3 (press_tab sample_next false) (open_trap ["a"; "b"] (Some "menu")) in
  ft_active t = Some "b" ∧ close_trap t = Some "menu".
Proof.
  apply (focus_cycles sample_next ["a"; "b"] (Some "menu") 3).
  - apply (bool_decide_unpack _). vm_compute. exact I.
  - discriminate.
  - intros [|[|i]] x y; simpl; try done. by intros [= <-] [= <-].
Defined.

(** An announcement is read 100 ms later, unless another comes first: then it is lost,
    even when the two are for different regions. *)
Theorem announcement_lost now dt m1 m2 p1 p2 a :
  let first := announceToScreenReader now m1 p1 a in
  let both := announceToScreenReader (now + dt) m2 p2 (announcer_at (now + dt) first) in
  an_region (announcer_at (now + 100) first) p1 = Some m1 ∧
  (0 ≤ dt < 100 → p1 ≠ p2 → ∀ later, now + dt ≤ later → an_region (announcer_at later both) p1 = Some EmptyString).
Proof.
  cbn zeta. split.
  - unfold announcer_at, announceToScreenReader. cbn [an_timer]. rewrite Z.leb_refl. simpl. unfold an_set. by rewrite decide_True.
  - intros Hdt Hp later Hl. unfold announcer_at at 2. unfold announceToScreenReader at 2. cbn [an_timer].
    replace (now + 100 <=? now + dt) with false by lia. unfold announcer_at, announceToScreenReader. cbn [an_timer an_region].
    unfold an_set. destruct (now + dt + 100 <=? later); cbn [an_region]; repeat (case_decide; try done; try congruence).
Qed.

Lemma announcement_lost_witness :
  let first := announceToScreenReader 0 "Saved" polite silent in
  let both := announceToScreenReader (0 + 50) "Alarm" assertive (announcer_at (0 + 50) first) in
  an_region (announcer_at (0 + 100) first) polite = Some "Saved" ∧ an_region (announcer_at 1000 both) polite = Some EmptyString.
Proof.
  destruct (announcement_lost 0 50 "Saved" "Alarm" polite assertive silent) as [H1 H2]. split; [exact H1|].
  apply H2; [lia|discriminate|lia].
Defined.

(** ** Theorems: the install banner *)

(** After "Not now" no install banner is shown for 30 days, whatever the browser offers
    and the user does on the page, and none after a reload in that time. *)
Theorem install_quiet s t es now w :
  0 ≤ t → pw_iosVisible s = false → pw_visible s = true → pw_event s = true →
  Forall (λ e, t ≤ e.1 < t + DISMISS_MS) es → t ≤ now < t + DISMISS_MS →
  let s' := pwa_run es (pwa_step t NotNowClick s) in
  banner_shown s' = false ∧
  banner_shown (pwa_step now (BeforeInstallPrompt w) (mount_pwa false now (pw_until s') (pw_iosUntil s'))) = false.
Proof.
  intros Ht Hi Hv He Hes Hnow s'.
  assert (Hdis : ∀ u n, t + DISMISS_MS ≤ u → n < t + DISMISS_MS → dismissed_at (Some (pretty u)) n = true).
  { intros u n Hu Hn. unfold dismissed_at. simpl. rewrite parse_pretty by (unfold DISMISS_MS in *; lia). lia. }
  assert (H : pw_visible s' = false ∧ pw_iosVisible s' = false ∧ ∃ u, pw_until s' = Some (pretty u) ∧ t + DISMISS_MS ≤ u).
  { subst s'. unfold pwa_run. induction es as [|[n e] es IH] using rev_ind.
    - simpl. rewrite Hi, Hv, He. simpl. split_and!; [done|done|]. by exists (t + DISMISS_MS).
    - apply Forall_app in Hes as [Hes Hn]. apply Forall_cons in Hn as [Hn _]. simpl in Hn. destruct (IH Hes) as (H1 & H2 & u & H3 & H4). clear IH.
      rewrite foldl_app. cbn [foldl fst snd]. set (v := foldl _ _ es) in *. destruct e as [w'| |r| |]; simpl.
      + rewrite H3, Hdis by lia. split_and!; [done|done|by exists u].
      + rewrite H1, andb_false_r. simpl. split_and!; [done|done|by exists u].
      + destruct (pw_prompts v); [split_and!; [done|done|by exists u]|]. simpl. split_and!; [done|done|].
        destruct r as [[]|]; [by exists u| |by exists u]. exists (n + DISMISS_MS). split; [done|lia].
      + rewrite H1, andb_false_r. simpl. split_and!; [done|done|by exists u].
      + rewrite H2. split_and!; [done|done|by exists u]. }
  destruct H as (H1 & H2 & u & H3 & H4). split.
  - unfold banner_shown. by rewrite H1, H2.
  - unfold mount_pwa, banner_shown. simpl. rewrite H3, Hdis by lia. done.
Qed.

Definition offered_pwa : Pwa := pwa_step 0 (BeforeInstallPrompt 400) (mount_pwa false 0 None None).

Lemma install_quiet_witness :
  let s' := pwa_run [(5, BeforeInstallPrompt 400); (9, InstallClick)] (pwa_step 0 NotNowClick offered_pwa) in
  banner_shown offered_pwa = true ∧ banner_shown s' = false ∧
  banner_shown (pwa_step 10 (BeforeInstallPrompt 400) (mount_pwa false 10 (pw_until s') (pw_iosUntil s'))) = false.
Proof.
  split; [reflexivity|]. apply (install_quiet offered_pwa 0 [(5, BeforeInstallPrompt 400); (9, InstallClick)] 10 400); try reflexivity; unfold DISMISS_MS; try lia.
  repeat constructor; simpl; lia.
Defined.
