(* ===== verification/Tiles.v ===== *)
(** * Small players and layouts

    The older tile layout ([hooks/useCameraLayout.tsx]), the clip player over hls.js
    ([components/shared/HLSVideoPlayer.tsx]) and the snapshot loader of the zone editor
    ([hooks/useVCASnapshot.ts]). *)

From S2P Require Import Prelude Types Http.
#[local] Open Scope string_scope.
#[local] Open Scope Z_scope.

(** ** The older tile layout

    [localStorage] holds the layouts as a value; [cameras] are the ids of the site's cameras. *)

Record CameraLayoutItem := mkLayoutItem { cl_cameraId : string; cl_order : Z; cl_pinned : bool }.
Record LayoutConfig := mkLayoutConfig { lg_siteId : string; lg_cameras : list CameraLayoutItem; lg_columns : Z }.

Record LayoutHook := mkLayoutHook {
  lh_layouts : list (string * LayoutConfig);
  lh_dragItem : option nat;
  lh_dragOverItem : option nat;
  lh_stored : option (list (string * LayoutConfig))
}.

Definition loadLayouts (stored : option (list (string * LayoutConfig))) : list (string * LayoutConfig) := default [] stored.
Definition mount_layout (stored : option (list (string * LayoutConfig))) : LayoutHook := mkLayoutHook (loadLayouts stored) None None stored.

Definition default_items (cameras : list string) : list CameraLayoutItem := imap (λ i c, mkLayoutItem c (Z.of_nat i) false) cameras.

Definition layout_of (siteId : string) (cameras : list string) (h : LayoutHook) : LayoutConfig :=
  default (mkLayoutConfig siteId (default_items cameras) 3) (map_get siteId (lh_layouts h)).

(** The comparator of the display, [<= 0], and that of a drag. *)
Definition shown_le (a b : CameraLayoutItem) : bool :=
  if cl_pinned a && negb (cl_pinned b) then true
  else if negb (cl_pinned a) && cl_pinned b then false else cl_order a <=? cl_order b.
Definition order_le (a b : CameraLayoutItem) : bool := cl_order a <=? cl_order b.

(** The tiles on display: camera and pin. *)
Definition orderedCameras (siteId : string) (cameras : list string) (h : LayoutHook) : list (string * bool) :=
  (λ x, (cl_cameraId x, cl_pinned x)) <$>
  filter_where (λ x, includes (cl_cameraId x) cameras) (sort_by shown_le (lg_cameras (layout_of siteId cameras h))).

Definition updateLayout (siteId : string) (l : LayoutConfig) (h : LayoutHook) : LayoutHook :=
  let updated := map_set siteId l (lh_layouts h) in mkLayoutHook updated (lh_dragItem h) (lh_dragOverItem h) (Some updated).

Definition set_drag (i j : option nat) (h : LayoutHook) : LayoutHook := mkLayoutHook (lh_layouts h) i j (lh_stored h).

Definition reindex (l : list CameraLayoutItem) : list CameraLayoutItem :=
  imap (λ i x, mkLayoutItem (cl_cameraId x) (Z.of_nat i) (cl_pinned x)) l.

(** [splice(i, 1)], then [splice(j, 0, dragged)]. *)
Definition moved {A} (i j : nat) (l : list A) : list A :=
  match l !! i with Some x => (take j (delete i l) ++ x :: drop j (delete i l))%list | None => l end.

(** [None]: an index beyond the list makes the handler throw. *)
Definition onDragEnd (siteId : string) (cameras : list string) (h : LayoutHook) : option LayoutHook :=
  match lh_dragItem h, lh_dragOverItem h with
  | Some i, Some j =>
      if Nat.eqb i j then Some (set_drag None None h)
      else
        let layout := layout_of siteId cameras h in
        let l := sort_by order_le (lg_cameras layout) in
        if (i <? length l)%nat
        then Some (set_drag None None (updateLayout siteId (mkLayoutConfig (lg_siteId layout) (reindex (moved i j l)) (lg_columns layout)) h))
        else None
  | _, _ => Some (set_drag None None h)
  end.

Definition togglePin (siteId : string) (cameras : list string) (id : string) (h : LayoutHook) : LayoutHook :=
  let layout := layout_of siteId cameras h in
  updateLayout siteId (mkLayoutConfig (lg_siteId layout)
    (map_where (λ c, String.eqb (cl_cameraId c) id) (λ c, mkLayoutItem (cl_cameraId c) (cl_order c) (negb (cl_pinned c))) (lg_cameras layout))
    (lg_columns layout)) h.

Definition resetLayout (siteId : string) (cameras : list string) (h : LayoutHook) : LayoutHook :=
  updateLayout siteId (mkLayoutConfig siteId (default_items cameras) (lg_columns (layout_of siteId cameras h))) h.

Definition setColumns (siteId : string) (cameras : list string) (n : Z) (h : LayoutHook) : LayoutHook :=
  let layout := layout_of siteId cameras h in updateLayout siteId (mkLayoutConfig (lg_siteId layout) (lg_cameras layout) n) h.

Inductive LayoutEvent :=
| DragStart (i : nat) | DragOver (i : nat) | DragEnd | TogglePin (id : string) | ResetLayout | SetColumns (n : Z).

Definition layout_step (siteId : string) (cameras : list string) (e : LayoutEvent) (h : LayoutHook) : LayoutHook :=
  match e with
  | DragStart i => set_drag (Some i) (lh_dragOverItem h) h
  | DragOver i => set_drag (lh_dragItem h) (Some i) h
  | DragEnd => default h (onDragEnd siteId cameras h)
  | TogglePin id => togglePin siteId cameras id h
  | ResetLayout => resetLayout siteId cameras h
  | SetColumns n => setColumns siteId cameras n h
  end.

Definition layout_run (siteId : string) (cameras : list string) (es : list LayoutEvent) (h : LayoutHook) : LayoutHook :=
  foldl (λ h e, layout_step siteId cameras e h) h es.

(** ** The clip player *)

Definition has_byte (n : N) (s : string) : bool := existsb (N.eqb n) (bytes_of s).

(** [/^\/hls\/([^/]+)\/([^/?#]+)$/] *)
Definition matchLegacyHLS (src : string) : option (string * string) :=
  match js_split "/" src with
  | [a; b; cam; file] =>
      if String.eqb a EmptyString && String.eqb b "hls" && truthy_str cam && truthy_str file && negb (has_byte 63 file) && negb (has_byte 35 file)
      then Some (cam, file) else None
  | _ => None
  end.

Inductive PlayStatus := hs_loading | hs_playing | hs_error | hs_no_src.

#[export] Instance PlayStatus_eq_dec : EqDecision PlayStatus.
Proof. solve_decision. Defined.

Inductive HlsCall :=
| StartRefresher (cam file : string) | DisposeRefresher | ResolveMediaURL (src : string)
| LoadSource (url : string)          (* into the video element or a new hls.js *)
| DestroyHls | StartLoad | OnError.

(** How the browser plays HLS. *)
Inductive HlsSupport := native | hlsjs | unsupported.

(** [hp_gen] counts the runs of the first effect: only the last one's callbacks act.
    [hp_listeners]: listener pairs on the video element, which nothing removes. *)
Record HlsPlayer := mkHlsPlayer {
  hp_src : option string;
  hp_status : PlayStatus;
  hp_resolved : string;
  hp_gen : nat;
  hp_refreshing : bool;
  hp_listeners : nat;
  hp_hls : bool
}.

Definition has_src (src : option string) : bool := truthy_ostr src.

(** The first effect: resolve the source; an empty one clears the URL. *)
Definition resolve_effect (s : HlsPlayer) : HlsPlayer * list HlsCall :=
  let s' r b := mkHlsPlayer (hp_src s) (hp_status s) r (S (hp_gen s)) b (hp_listeners s) (hp_hls s) in
  match hp_src s with
  | Some src =>
      if truthy_str src then
        match matchLegacyHLS src with
        | Some (cam, file) => (s' (hp_resolved s) true, [StartRefresher cam file])
        | None => (s' (hp_resolved s) false, [ResolveMediaURL src])
        end
      else (s' EmptyString false, [])
  | None => (s' EmptyString false, [])
  end.

(** The second effect, for the URL of its render: its cleanup, then its body. *)
Definition play_effect (sup : HlsSupport) (url : string) (s : HlsPlayer) : HlsPlayer * list HlsCall :=
  let clean := if hp_hls s then [DestroyHls] else [] in
  let s' st n b := mkHlsPlayer (hp_src s) st (hp_resolved s) (hp_gen s) (hp_refreshing s) n b in
  if negb (truthy_str url) then (s' (if has_src (hp_src s) then hs_loading else hs_no_src) (hp_listeners s) false, clean)
  else match sup with
       | native => (s' hs_loading (S (hp_listeners s)) false, (clean ++ [LoadSource url])%list)
       | hlsjs => (s' hs_loading (hp_listeners s) true, (clean ++ [LoadSource url])%list)
       | unsupported => (s' hs_error (hp_listeners s) false, clean)
       end.

(** A render with a new source: both effects for the old URL, then, when the first cleared
    it, the second once more. *)
Definition change_src (sup : HlsSupport) (src : option string) (s : HlsPlayer) : HlsPlayer * list HlsCall :=
  let url := hp_resolved s in
  let clean := ((if hp_refreshing s then [DisposeRefresher] else []) ++ (if hp_hls s then [DestroyHls] else []))%list in
  let r1 := resolve_effect (mkHlsPlayer src (hp_status s) url (hp_gen s) (hp_refreshing s) (hp_listeners s) false) in
  let r2 := play_effect sup url r1.1 in
  let r3 := if String.eqb (hp_resolved r2.1) url then (r2.1, []) else play_effect sup (hp_resolved r2.1) r2.1 in
  (r3.1, (clean ++ r1.2 ++ r2.2 ++ r3.2)%list).

Definition mount_hls (sup : HlsSupport) (src : option string) : HlsPlayer * list HlsCall :=
  let r1 := resolve_effect (mkHlsPlayer src (if has_src src then hs_loading else hs_no_src) EmptyString 0 false 0 false) in
  let r2 := play_effect sup EmptyString r1.1 in (r2.1, (r1.2 ++ r2.2)%list).

Inductive HlsEvent :=
| ChangeSrc (src : option string)
| NewOnError                             (* the parent passes another callback *)
| Resolved (gen : nat) (url : string)    (* of the run [gen] of the first effect *)
| VideoMetadata | VideoError             (* of the video element *)
| ManifestParsed | FatalError (network : bool)   (* of hls.js *)
| RetryClick.

Definition set_status (st : PlayStatus) (s : HlsPlayer) : HlsPlayer :=
  mkHlsPlayer (hp_src s) st (hp_resolved s) (hp_gen s) (hp_refreshing s) (hp_listeners s) (hp_hls s).

Definition hls_step (sup : HlsSupport) (e : HlsEvent) (s : HlsPlayer) : HlsPlayer * list HlsCall :=
  match e with
  | ChangeSrc src => if decide (src = hp_src s) then (s, []) else change_src sup src s
  | NewOnError => play_effect sup (hp_resolved s) s
  | Resolved gen url =>
      if Nat.eqb gen (hp_gen s) && negb (String.eqb url (hp_resolved s))
      then play_effect sup url (mkHlsPlayer (hp_src s) (hp_status s) url (hp_gen s) (hp_refreshing s) (hp_listeners s) (hp_hls s))
      else (s, [])
  | VideoMetadata => (if (0 <? hp_listeners s)%nat then set_status hs_playing s else s, [])
  | VideoError => if (0 <? hp_listeners s)%nat then (set_status hs_error s, replicate (hp_listeners s) OnError) else (s, [])
  | ManifestParsed => (if hp_hls s then set_status hs_playing s else s, [])
  | FatalError network =>
      if hp_hls s then
        if network then (set_status hs_error s, [OnError; StartLoad])
        else (mkHlsPlayer (hp_src s) hs_error (hp_resolved s) (hp_gen s) (hp_refreshing s) (hp_listeners s) false, [OnError; DestroyHls])
      else (s, [])
  | RetryClick => (if bool_decide (hp_status s = hs_error) && has_src (hp_src s) then set_status hs_loading s else s, [])
  end.

Definition hls_run (sup : HlsSupport) (es : list HlsEvent) (s : HlsPlayer) : HlsPlayer := foldl (λ s e, (hls_step sup e s).1) s es.

(** ** The snapshot of the zone editor *)

(** Where a load is waiting. *)
Inductive SnapStage := ss_fetch | ss_decode | ss_mint | ss_playlist | ss_video | ss_frame.

Record SnapLoad := mkSnapLoad { sn_camera : string; sn_stage : SnapStage }.

(** [sp_img]: the camera whose picture [imgRef] holds. *)
Record Snapshot := mkSnapshot {
  sp_camera : string;
  sp_img : option string;
  sp_loaded : bool;
  sp_error : option string;
  sp_loads : list SnapLoad
}.

Inductive SnapCall := FetchSnapshot (camera : string) | MintPlaylist (camera : string) | FetchPlaylist | LoadVideo.

Definition DECODE_FAILED : string := "Snapshot image failed to decode".
Definition NO_SNAPSHOT : string := "Could not load camera snapshot. Zones can still be drawn on the grid.".

Definition loadSnapshot (s : Snapshot) : Snapshot * list SnapCall :=
  (mkSnapshot (sp_camera s) (sp_img s) false None (sp_loads s ++ [mkSnapLoad (sp_camera s) ss_fetch])%list, [FetchSnapshot (sp_camera s)]).

Definition mount_snapshot (camera : string) : Snapshot * list SnapCall := loadSnapshot (mkSnapshot camera None false None []).

(** The next stage of a load ([ok]: the stage succeeded), or its end: the picture and the
    error it sets, where it sets [snapshotLoaded] at all. *)
Definition snap_next (ok : bool) (l : SnapLoad) : SnapLoad * list SnapCall + option (option string * option string) :=
  match sn_stage l, ok with
  | ss_fetch, true => inl (mkSnapLoad (sn_camera l) ss_decode, [])
  | ss_fetch, false => inl (mkSnapLoad (sn_camera l) ss_mint, [MintPlaylist (sn_camera l)])
  | ss_decode, true => inr (Some (Some (sn_camera l), None))
  | ss_decode, false => inr (Some (None, Some DECODE_FAILED))
  | ss_mint, true => inl (mkSnapLoad (sn_camera l) ss_playlist, [FetchPlaylist])
  | ss_playlist, true => inl (mkSnapLoad (sn_camera l) ss_video, [LoadVideo])
  | ss_video, true => inl (mkSnapLoad (sn_camera l) ss_frame, [])
  | (ss_mint | ss_playlist | ss_video), false => inr (Some (None, Some NO_SNAPSHOT))
  | ss_frame, true => inr (Some (Some (sn_camera l), None))
  | ss_frame, false => inr None                    (* this image has no error handler *)
  end.

Inductive SnapEvent := SelectCamera (camera : string) | ReloadSnapshot | SnapSettles (i : nat) (ok : bool).

Definition snap_step (e : SnapEvent) (s : Snapshot) : Snapshot * list SnapCall :=
  match e with
  | SelectCamera c => if String.eqb c (sp_camera s) then (s, []) else loadSnapshot (mkSnapshot c (sp_img s) (sp_loaded s) (sp_error s) (sp_loads s))
  | ReloadSnapshot => loadSnapshot s
  | SnapSettles i ok =>
      match sp_loads s !! i with
      | Some l =>
          match snap_next ok l with
          | inl (l', c) => (mkSnapshot (sp_camera s) (sp_img s) (sp_loaded s) (sp_error s) (<[i := l']> (sp_loads s)), c)
          | inr (Some (img, err)) =>
              (mkSnapshot (sp_camera s) (match img with Some c => Some c | None => sp_img s end) true
                 (match err with Some m => Some m | None => sp_error s end) (delete i (sp_loads s)), [])
          | inr None => (mkSnapshot (sp_camera s) (sp_img s) (sp_loaded s) (sp_error s) (delete i (sp_loads s)), [])
          end
      | None => (s, [])
      end
  end.

Definition snap_run (es : list SnapEvent) (s : Snapshot) : Snapshot := foldl (λ s e, (snap_step e s).1) s es.

(** ** Theorems: the older tile layout *)

Lemma insert_by_ext {A} (le1 le2 : A → A → bool) x l : (∀ y, y ∈ l → le1 x y = le2 x y) → insert_by le1 x l = insert_by le2 x l.
Proof.
  induction l as [|y l IH]; intros H; [done|]. simpl. rewrite (H y) by by left. rewrite IH; [done|]. intros z Hz. apply H. by right.
Qed.

Lemma sort_by_ext {A} (le1 le2 : A → A → bool) l : (∀ x y, x ∈ l → y ∈ l → le1 x y = le2 x y) → sort_by le1 l = sort_by le2 l.
Proof.
  induction l as [|x l IH]; intros H; [done|]. simpl. rewrite IH by (intros; apply H; by right).
  apply insert_by_ext. intros y Hy%elem_of_sort_by. apply H; [by left|by right].
Qed.

Lemma moved_Permutation {A} i j (l : list A) : moved i j l ≡ₚ l.
Proof.
  unfold moved. destruct (l !! i) as [x|] eqn:Hx; [|done]. rewrite <- Permutation_middle, take_drop. symmetry. by apply delete_Permutation.
Qed.

Lemma moved_fmap {A B} (f : A → B) i j l : f <$> moved i j l = moved i j (f <$> l).
Proof.
  unfold moved. rewrite list_lookup_fmap. destruct (l !! i) as [x|]; [|done]. simpl.
  rewrite fmap_app, fmap_cons, fmap_take, fmap_drop. do 2 f_equal; [|f_equal]; rewrite !delete_take_drop, fmap_app, fmap_take, fmap_drop; done.
Qed.

Lemma reindex_spec l : cl_cameraId <$> reindex l = cl_cameraId <$> l ∧ cl_pinned <$> reindex l = cl_pinned <$> l ∧
  cl_order <$> reindex l = Z.of_nat <$> seq 0 (length l).
Proof.
  unfold reindex. rewrite !fmap_imap. split_and!.
  - apply list_eq. intros k. rewrite list_lookup_imap, list_lookup_fmap. by destruct (l !! k).
  - apply list_eq. intros k. rewrite list_lookup_imap, list_lookup_fmap. by destruct (l !! k).
  - apply list_eq. intros k. rewrite list_lookup_imap, list_lookup_fmap. destruct (decide (k < length l)%nat) as [Hk|Hk].
    + destruct (lookup_lt_is_Some_2 l k Hk) as [x ->]. by rewrite lookup_seq_lt.
    + rewrite lookup_ge_None_2 by lia. by rewrite lookup_seq_ge by lia.
Qed.

Lemma imap_sorted (f : nat → CameraLayoutItem → CameraLayoutItem) l k :
  (∀ i x, cl_order (f i x) = Z.of_nat (k + i)) → Sorted (λ a b, order_le a b = true) (imap f l).
Proof.
  revert f k. induction l as [|x l IH]; intros f k Hf; [constructor|]. rewrite imap_cons. constructor.
  - apply (IH _ (S k)). intros i y. simpl. rewrite Hf. f_equal. lia.
  - destruct l as [|y l]; [constructor|]. rewrite imap_cons. constructor. unfold order_le, compose. rewrite !Hf. apply Z.leb_le. lia.
Qed.

Lemma layout_of_update siteId cameras l h : layout_of siteId cameras (updateLayout siteId l h) = l.
Proof.
  unfold layout_of, updateLayout. simpl. replace (map_get siteId (map_set siteId l (lh_layouts h))) with (Some l); [done|].
  generalize (lh_layouts h). intros m. unfold map_get. induction m as [|[k v] m IH]; simpl.
  - by rewrite find_where_cons, bool_decide_true.
  - destruct (decide (siteId = k)) as [->|Hne]; rewrite find_where_cons; simpl; [by rewrite bool_decide_true|].
    rewrite bool_decide_false by congruence. exact IH.
Qed.

(** A drag from [i] to [j] moves the camera that is number [i] by [order] to place [j]
    among them, keeps every camera and pin, numbers the places from 0 and is stored; without
    pins and hidden cameras that is the tile dragged, and the tiles on display move so. *)
Theorem drag_exact siteId cameras h i j :
  lh_dragItem h = Some i → lh_dragOverItem h = Some j → i ≠ j →
  let old := lg_cameras (layout_of siteId cameras h) in
  (i < length old)%nat →
  ∃ h', onDragEnd siteId cameras h = Some h' ∧
    let new := lg_cameras (layout_of siteId cameras h') in
    cl_cameraId <$> new = moved i j (cl_cameraId <$> sort_by order_le old) ∧
    cl_pinned <$> new = moved i j (cl_pinned <$> sort_by order_le old) ∧
    cl_order <$> new = Z.of_nat <$> seq 0 (length old) ∧
    lh_stored h' = Some (lh_layouts h') ∧
    ((∀ x, x ∈ old → cl_pinned x = false ∧ cl_cameraId x ∈ cameras) →
     orderedCameras siteId cameras h' = moved i j (orderedCameras siteId cameras h)).
Proof.
  intros Hi Hj Hne old Hlt. unfold onDragEnd. rewrite Hi, Hj, (proj2 (Nat.eqb_neq i j) Hne). fold old.
  rewrite (proj2 (Nat.ltb_lt _ _)) by by rewrite length_sort_by. eexists. split; [done|]. cbn zeta.
  set (l := sort_by order_le old). set (cfg := mkLayoutConfig _ (reindex (moved i j l)) _).
  assert (Hlay : layout_of siteId cameras (set_drag None None (updateLayout siteId cfg h)) = cfg) by apply layout_of_update.
  rewrite Hlay. subst cfg. cbn [lg_cameras]. destruct (reindex_spec (moved i j l)) as (R1 & R2 & R3).
  split_and!.
  - by rewrite R1, moved_fmap.
  - by rewrite R2, moved_fmap.
  - rewrite R3, (Permutation_length (moved_Permutation i j l)). subst l. by rewrite length_sort_by.
  - done.
  - intros Hall. assert (Hin : ∀ x, x ∈ moved i j l → cl_pinned x = false ∧ cl_cameraId x ∈ cameras).
    { intros x Hx. apply Hall. rewrite moved_Permutation in Hx. by apply elem_of_sort_by in Hx. }
    unfold orderedCameras. rewrite Hlay. cbn [lg_cameras]. fold old.
    assert (Hsame : ∀ k, (∀ x, x ∈ k → cl_pinned x = false) → sort_by shown_le k = sort_by order_le k).
    { intros k Hk. apply sort_by_ext. intros x y Hx Hy. unfold shown_le, order_le. by rewrite (Hk x Hx), (Hk y Hy). }
    rewrite (Hsame old) by (intros x Hx; by apply Hall). fold l.
    assert (Hre : ∀ x, x ∈ reindex (moved i j l) → cl_pinned x = false ∧ cl_cameraId x ∈ cameras).
    { intros x Hx. unfold reindex in Hx. apply elem_of_lookup_imap in Hx as (n & y & -> & Hy). simpl. apply Hin. by eapply list_elem_of_lookup_2. }
    rewrite Hsame by (intros x Hx; by apply Hre).
    rewrite (sort_by_id order_le) by (apply (imap_sorted _ _ 0); done).
    rewrite !filter_where_id.
    + rewrite <- moved_fmap. apply list_eq. intros n. unfold reindex. rewrite !list_lookup_fmap, list_lookup_imap. by destruct (moved i j l !! n).
    + intros x Hx. unfold includes. apply bool_decide_true, Hall. by apply elem_of_sort_by in Hx.
    + intros x Hx. unfold includes. apply bool_decide_true, Hre, Hx.
Qed.

Definition three_tiles : LayoutHook := layout_run "s" ["a"; "b"; "c"] [DragStart 0; DragOver 2] (mount_layout None).

Lemma drag_exact_witness :
  ∃ h', onDragEnd "s" ["a"; "b"; "c"] three_tiles = Some h' ∧
    let new := lg_cameras (layout_of "s" ["a"; "b"; "c"] h') in
    cl_cameraId <$> new = ["b"; "c"; "a"] ∧ cl_pinned <$> new = [false; false; false] ∧
    cl_order <$> new = Z.of_nat <$> seq 0 3 ∧ lh_stored h' = Some (lh_layouts h') ∧
    ((∀ x, x ∈ lg_cameras (layout_of "s" ["a"; "b"; "c"] three_tiles) → cl_pinned x = false ∧ cl_cameraId x ∈ ["a"; "b"; "c"]) →
     orderedCameras "s" ["a"; "b"; "c"] h' = [("b", false); ("c", false); ("a", false)]).
Proof. apply (drag_exact "s" ["a"; "b"; "c"] three_tiles 0 2); try reflexivity; [discriminate|simpl; lia]. Defined.

(** The cameras that have a tile. *)
Definition shown_ids (siteId : string) (cameras : list string) (h : LayoutHook) : list string := fst <$> orderedCameras siteId cameras h.

Definition no_reset (e : LayoutEvent) : Prop := match e with ResetLayout => False | _ => True end.

Lemma layout_ids siteId cameras e h c :
  no_reset e →
  (c ∈ (cl_cameraId <$> lg_cameras (layout_of siteId cameras (layout_step siteId cameras e h)))) ↔
  (c ∈ (cl_cameraId <$> lg_cameras (layout_of siteId cameras h))).
Proof.
  intros He. destruct e as [i|i| |id| |n]; try done; simpl.
  - unfold onDragEnd. destruct (lh_dragItem h) as [i|]; [|done]. destruct (lh_dragOverItem h) as [j|]; [|done].
    destruct (Nat.eqb i j); [done|]. cbn zeta. destruct (i <? _)%nat; [|done]. simpl.
    change (layout_of siteId cameras (set_drag ?a ?b ?x)) with (layout_of siteId cameras x). rewrite layout_of_update. cbn [lg_cameras].
    destruct (reindex_spec (moved i j (sort_by order_le (lg_cameras (layout_of siteId cameras h))))) as (-> & _ & _).
    by rewrite moved_Permutation, sort_by_Permutation.
  - unfold togglePin. rewrite layout_of_update. cbn [lg_cameras]. by rewrite fmap_map_where.
  - unfold setColumns. by rewrite layout_of_update.
Qed.

(** A camera added to the site after its layout was stored is on no tile, whatever is
    dragged, pinned or resized, until the layout is reset. *)
Theorem new_camera_hidden siteId cameras es h l c :
  map_get siteId (lh_layouts h) = Some l → c ∉ cl_cameraId <$> lg_cameras l → c ∈ cameras →
  Forall no_reset es →
  let h' := layout_run siteId cameras es h in
  ¬ (c ∈ shown_ids siteId cameras h') ∧
  c ∈ (shown_ids siteId cameras (layout_step siteId cameras ResetLayout h')).
Proof.
  intros Hl Hc Hin Hes h'. split.
  - assert (H : c ∉ cl_cameraId <$> lg_cameras (layout_of siteId cameras h')).
    { subst h'. unfold layout_run. induction es as [|e es IH] using rev_ind.
      - simpl. unfold layout_of. by rewrite Hl.
      - apply Forall_app in Hes as [Hes He]. apply Forall_cons in He as [He _]. rewrite foldl_app. simpl. rewrite layout_ids by done. by apply IH. }
    intros Hd. apply H. unfold shown_ids, orderedCameras in Hd. rewrite <- list_fmap_compose in Hd. apply list_elem_of_fmap in Hd as (x & -> & Hx).
    apply elem_of_filter_where in Hx as [_ Hx]. apply elem_of_sort_by in Hx. apply list_elem_of_fmap. by exists x.
  - simpl. unfold resetLayout, shown_ids, orderedCameras. rewrite layout_of_update. cbn [lg_cameras]. rewrite <- list_fmap_compose.
    apply list_elem_of_lookup in Hin as [i Hi]. apply list_elem_of_fmap. exists (mkLayoutItem c (Z.of_nat i) false). split; [done|].
    apply elem_of_filter_where. split; [unfold includes; apply bool_decide_true; by eapply list_elem_of_lookup_2|].
    apply elem_of_sort_by. unfold default_items. apply elem_of_lookup_imap. by exists i, c.
Qed.

Definition saved_tiles : LayoutHook := layout_run "s" ["a"; "b"] [TogglePin "b"] (mount_layout None).

Lemma new_camera_hidden_witness :
  let h' := layout_run "s" ["a"; "b"; "c"] [DragStart 0; DragOver 1; DragEnd] saved_tiles in
  ¬ ("c" ∈ shown_ids "s" ["a"; "b"; "c"] h') ∧
  "c" ∈ (shown_ids "s" ["a"; "b"; "c"] (layout_step "s" ["a"; "b"; "c"] ResetLayout h')).
Proof.
  apply (new_camera_hidden "s" ["a"; "b"; "c"] [DragStart 0; DragOver 1; DragEnd] saved_tiles
    (mkLayoutConfig "s" [mkLayoutItem "a" 0 false; mkLayoutItem "b" 1 true] 3) "c"); [reflexivity| | |by repeat constructor];
    apply (bool_decide_unpack _); vm_compute; exact I.
Defined.

(** ** Theorems: the clip player *)

(** On a browser with HLS of its own every load of a URL adds an error listener and none
    is removed: an error after [n] loads calls the parent's handler [n] times. *)
Theorem listeners_pile_up es src :
  let s := hls_run native es (mount_hls native src).1 in
  let loads := hp_listeners s in
  (hls_step native VideoError s).2 = replicate loads OnError ∧
  (∀ url, url ≠ hp_resolved s → truthy_str url = true →
    hp_listeners (hls_step native (Resolved (hp_gen s) url) s).1 = S loads) ∧
  (∀ e, (loads ≤ hp_listeners (hls_step native e s).1)%nat).
Proof.
  intros s loads. split_and!.
  - simpl. subst loads. by destruct (hp_listeners s).
  - intros url Hu Ht. simpl. rewrite Nat.eqb_refl, (proj2 (String.eqb_neq _ _) Hu). simpl. unfold play_effect. by rewrite Ht.
  - assert (Hp : ∀ url t, (hp_listeners t ≤ hp_listeners (play_effect native url t).1)%nat).
    { intros url t. unfold play_effect. destruct (truthy_str url); simpl; lia. }
    assert (Hr : ∀ t, hp_listeners (resolve_effect t).1 = hp_listeners t).
    { intros t. unfold resolve_effect. repeat case_match; done. }
    subst loads. generalize s. clear -Hp Hr. intros s e. destruct e; simpl.
    + destruct (decide _); [done|]. unfold change_src. cbn zeta.
      match goal with |- context [resolve_effect ?x] => pose proof (Hr x) as Hx; set (r := (resolve_effect x).1) in * end. simpl in Hx.
      pose proof (Hp (hp_resolved s) r) as H2. set (r2 := (play_effect native (hp_resolved s) r).1) in *.
      destruct (String.eqb _ _); simpl; [lia|]. pose proof (Hp (hp_resolved r2) r2). lia.
    + apply Hp.
    + destruct (_ && _); [|done]. match goal with |- context [play_effect native url ?x] => pose proof (Hp url x) as H end. exact H.
    + destruct (0 <? _)%nat; done.
    + destruct (0 <? _)%nat; done.
    + destruct (hp_hls s); done.
    + destruct (hp_hls s); [|done]. by destruct network.
    + destruct (_ && _); done.
Qed.

(** After a fatal media error the Retry button only shows the spinner: no call is made,
    and whatever hls.js, the video element and further clicks bring, the clip never plays
    until the source, its URL or the parent's callback changes. *)
Theorem retry_stuck s es e :
  hp_hls s = true → hp_listeners s = 0%nat →
  let dead := (hls_step hlsjs (FatalError false) s).1 in
  let player_event e := match e with VideoMetadata | VideoError | ManifestParsed | FatalError _ | RetryClick => True | _ => False end in
  Forall player_event es → player_event e →
  hp_status (hls_run hlsjs (es ++ [e]) dead) ≠ hs_playing ∧ (hls_step hlsjs e (hls_run hlsjs es dead)).2 = [] ∧
  (has_src (hp_src s) = true → hp_status (hls_run hlsjs (es ++ [RetryClick]) dead) = hs_loading).
Proof.
  intros Hh Hl dead player_event Hes He.
  assert (Hinv : ∀ t, hp_hls t = false ∧ hp_listeners t = 0%nat ∧ (hp_status t = hs_error ∨ hp_status t = hs_loading) ∧ hp_src t = hp_src s →
    ∀ x, player_event x → let t' := hls_step hlsjs x t in
    t'.2 = [] ∧ hp_hls t'.1 = false ∧ hp_listeners t'.1 = 0%nat ∧ (hp_status t'.1 = hs_error ∨ hp_status t'.1 = hs_loading) ∧ hp_src t'.1 = hp_src s).
  { intros t (H1 & H2 & H3 & H4) x Hx. destruct x; try done; simpl; rewrite ?H1, ?H2; simpl; try done. destruct (_ && _); simpl; auto 10. }
  assert (Hrun : let t := hls_run hlsjs es dead in
    hp_hls t = false ∧ hp_listeners t = 0%nat ∧ (hp_status t = hs_error ∨ hp_status t = hs_loading) ∧ hp_src t = hp_src s).
  { cbn zeta. unfold hls_run. induction es as [|x es IH] using rev_ind; [simpl; subst dead; simpl; rewrite Hh; simpl; auto|].
    apply Forall_app in Hes as [Hes Hx]. apply Forall_cons in Hx as [Hx _]. rewrite foldl_app. simpl. apply Hinv; auto. }
  unfold hls_run at 1 3. rewrite !foldl_app. cbn [foldl]. fold (hls_run hlsjs es dead).
  destruct (Hinv _ Hrun e He) as (E1 & _ & _ & E4 & _). split_and!; [by destruct E4 as [-> | ->]|done|].
  intros Hs. destruct Hrun as (_ & _ & H3 & H4). simpl. rewrite H4, Hs. destruct H3 as [-> | H3]; [by rewrite bool_decide_true|].
  rewrite H3. by rewrite bool_decide_false.
Qed.

Definition clip_playing : HlsPlayer := hls_run hlsjs [Resolved 1 "/media/v1/t"; ManifestParsed] (mount_hls hlsjs (Some "/recordings/a.mp4")).1.

Lemma retry_stuck_witness :
  let dead := (hls_step hlsjs (FatalError false) clip_playing).1 in
  hp_status clip_playing = hs_playing ∧
  hp_status (hls_run hlsjs ([RetryClick] ++ [ManifestParsed]) dead) ≠ hs_playing ∧
  (hls_step hlsjs ManifestParsed (hls_run hlsjs [RetryClick] dead)).2 = [] ∧
  hp_status (hls_run hlsjs ([RetryClick] ++ [RetryClick]) dead) = hs_loading.
Proof.
  split; [reflexivity|]. destruct (retry_stuck clip_playing [RetryClick] ManifestParsed) as (H1 & H2 & H3); [reflexivity|reflexivity|by apply Forall_singleton|exact I|].
  split_and!; [exact H1|exact H2|by apply H3].
Defined.

(** A new source first loads the URL of the one before once more; the URL of an earlier
    source that is resolved late is ignored. *)
Theorem old_source_again sup src s :
  src ≠ hp_src s → has_src src = true → truthy_str (hp_resolved s) = true → sup ≠ unsupported →
  let r := hls_step sup (ChangeSrc src) s in
  LoadSource (hp_resolved s) ∈ r.2 ∧ hp_status r.1 = hs_loading ∧ hp_resolved r.1 = hp_resolved s ∧
  (∀ gen url, (gen ≤ hp_gen s)%nat → hls_step sup (Resolved gen url) r.1 = (r.1, [])).
Proof.
  intros Hne Hs Hu Hsup r. subst r. simpl. rewrite decide_False by done. destruct src as [src|]; [|done]. simpl in Hs.
  unfold change_src, resolve_effect. cbn [hp_src]. rewrite Hs.
  assert (Hpick : ∀ s1 : HlsPlayer, hp_hls s1 = false → (play_effect sup (hp_resolved s) s1).2 = [LoadSource (hp_resolved s)] ∧
    hp_status (play_effect sup (hp_resolved s) s1).1 = hs_loading ∧ hp_resolved (play_effect sup (hp_resolved s) s1).1 = hp_resolved s1 ∧
    hp_gen (play_effect sup (hp_resolved s) s1).1 = hp_gen s1).
  { intros s1 H1. unfold play_effect. rewrite Hu, H1. simpl. destruct sup; done. }
  assert (Hlate : ∀ r1 : HlsPlayer, hp_gen r1 = S (hp_gen s) → ∀ gen url, (gen ≤ hp_gen s)%nat → hls_step sup (Resolved gen url) r1 = (r1, [])).
  { intros r1 Hg gen url Hle. simpl. replace (Nat.eqb gen (hp_gen r1)) with false by (symmetry; apply Nat.eqb_neq; lia). done. }
  destruct (matchLegacyHLS src) as [[cam file]|]; cbn [fst snd];
    match goal with |- context [play_effect sup (hp_resolved s) ?x] => set (r1 := x) end;
    destruct (Hpick r1 eq_refl) as (P1 & P2 & P3 & P4); change (hp_resolved r1) with (hp_resolved s) in P3;
    change (hp_gen r1) with (S (hp_gen s)) in P4; rewrite P3, String.eqb_refl; cbn [fst snd]; rewrite P1;
    (split_and!; [rewrite !elem_of_app; right; right; left; by left|done|done|by apply Hlate]).
Qed.

Lemma old_source_again_witness :
  let r := hls_step hlsjs (ChangeSrc (Some "/recordings/b.mp4")) clip_playing in
  LoadSource "/media/v1/t" ∈ r.2 ∧ hp_status r.1 = hs_loading ∧ hp_resolved r.1 = "/media/v1/t" ∧
  (∀ gen url, (gen ≤ 1)%nat → hls_step hlsjs (Resolved gen url) r.1 = (r.1, [])).
Proof. apply (old_source_again hlsjs (Some "/recordings/b.mp4") clip_playing); try reflexivity; discriminate. Defined.

(** ** Theorems: the snapshot *)

Lemma sum_list_cat (l1 l2 : list nat) : sum_list (l1 ++ l2) = (sum_list l1 + sum_list l2)%nat.
Proof. induction l1 as [|x l1 IH]; simpl; [done|]. rewrite IH. lia. Qed.

(** How many stages a load has left. *)
Definition stages_left (l : SnapLoad) : nat :=
  match sn_stage l with ss_fetch => 5 | ss_mint => 4 | ss_playlist => 3 | ss_video => 2 | ss_decode | ss_frame => 1 end.

Definition work_left (s : Snapshot) : nat := sum_list (stages_left <$> sp_loads s).

(** Every answer brings a load nearer to its end, so after finitely many none is left;
    then the snapshot counts as loaded, with a picture or an error, unless the last answer
    is that the frame taken from the video cannot be decoded, when the editor waits on. *)
Theorem snapshot_settles s i ok :
  (i < length (sp_loads s))%nat → (∀ l, l ∈ sp_loads s → (0 < stages_left l)%nat) →
  let s' := (snap_step (SnapSettles i ok) s).1 in
  (work_left s' < work_left s)%nat ∧
  (sp_loads s' = [] → 
     if sp_loaded s' then sp_loaded s = true ∨ is_Some (sp_img s') ∨ is_Some (sp_error s')
     else sp_loaded s = false ∧ ok = false ∧ sp_loads s = [mkSnapLoad (default EmptyString (sn_camera <$> head (sp_loads s))) ss_frame]).
Proof.
  intros Hi Hpos s'. destruct (lookup_lt_is_Some_2 _ _ Hi) as [l Hl]. subst s'. simpl. rewrite Hl.
  assert (Hsum : work_left s = (stages_left l + sum_list (stages_left <$> delete i (sp_loads s)))%nat).
  { unfold work_left. rewrite <- (take_drop_middle _ _ _ Hl) at 1. rewrite delete_take_drop, !fmap_app, fmap_cons, !sum_list_cat. simpl. lia. }
  assert (Hins : ∀ l', sum_list (stages_left <$> <[i := l']> (sp_loads s)) = (stages_left l' + sum_list (stages_left <$> delete i (sp_loads s)))%nat).
  { intros l'. rewrite insert_take_drop by done. rewrite delete_take_drop, !fmap_app, fmap_cons, !sum_list_cat. simpl. lia. }
  assert (Hd : delete i (sp_loads s) = [] → sp_loads s = [l]).
  { intros E. rewrite <- (take_drop_middle _ _ _ Hl). rewrite delete_take_drop in E. apply app_eq_nil in E as [-> ->]. done. }
  destruct l as [c st]. unfold work_left at 1. destruct st, ok; simpl; rewrite ?Hins; simpl in *; (split; [lia|]);
    try (intros E; exfalso; apply (f_equal length) in E; rewrite length_insert in E; simpl in E; lia); intros E; eauto.
  destruct (sp_loaded s); [by left|]. by rewrite (Hd E).
Qed.

Lemma snapshot_settles_witness :
  let s := snap_run [SnapSettles 0 false; SnapSettles 0 true; SnapSettles 0 true; SnapSettles 0 true] (mount_snapshot "c1").1 in
  let s' := (snap_step (SnapSettles 0 false) s).1 in
  (work_left s' < work_left s)%nat ∧ sp_loads s' = [] ∧ sp_loaded s' = false.
Proof.
  cbn zeta. split; [|split; reflexivity].
  apply (snapshot_settles (snap_run [SnapSettles 0 false; SnapSettles 0 true; SnapSettles 0 true; SnapSettles 0 true] (mount_snapshot "c1").1) 0 false).
  - vm_compute. lia.
  - intros l Hl. apply list_elem_of_singleton in Hl as ->. vm_compute. lia.
Defined.

(** The picture is that of the load which ends last: an answer to the camera before puts
    that camera's picture under the zones of the one selected, and nothing replaces it. *)
Theorem late_snapshot_wins s c :
  sp_loads s = [] → c ≠ sp_camera s →
  let s' := snap_run [ReloadSnapshot; SelectCamera c; SnapSettles 1 true; SnapSettles 1 true; SnapSettles 0 true; SnapSettles 0 true] s in
  sp_camera s' = c ∧ sp_img s' = Some (sp_camera s) ∧ sp_loaded s' = true ∧ sp_error s' = None ∧ sp_loads s' = [].
Proof.
  intros Hl Hc. destruct s as [cam img ld er ls]. simpl in Hl, Hc. subst ls. unfold snap_run. cbn [foldl].
  change (snap_step ReloadSnapshot _).1 with (mkSnapshot cam img false None [mkSnapLoad cam ss_fetch]).
  assert (E : (snap_step (SelectCamera c) (mkSnapshot cam img false None [mkSnapLoad cam ss_fetch])).1 =
              mkSnapshot c img false None [mkSnapLoad cam ss_fetch; mkSnapLoad c ss_fetch]).
  { cbn [snap_step sp_camera]. by rewrite (proj2 (String.eqb_neq _ _) Hc). }
  rewrite E. by split_and!.
Qed.

Lemma late_snapshot_wins_witness :
  let s := mkSnapshot "c1" None true None [] in
  let s' := snap_run [ReloadSnapshot; SelectCamera "c2"; SnapSettles 1 true; SnapSettles 1 true; SnapSettles 0 true; SnapSettles 0 true] s in
  sp_camera s' = "c2" ∧ sp_img s' = Some "c1" ∧ sp_loaded s' = true ∧ sp_error s' = None ∧ sp_loads s' = [].
Proof. apply (late_snapshot_wins (mkSnapshot "c1" None true None []) "c2"); [reflexivity|discriminate]. Defined.
