(* ===== verification/Ppe.v ===== *)
(** * The PPE zone editor and the compliance rules

    [components/PPEZoneEditor.tsx] draws the safety zones of a camera that only the server
    uses, on the snapshot of [Tiles] and with the geometry of [ZoneEditor];
    [components/ComplianceRulesPanel.tsx] binds a zone to what must be worn in it.  A request
    is a task until its reply; the replies come in any order. *)

From S2P Require Import Prelude Types Http AuthFetch ApiClient IronsightApi ZoneEditor Tiles.
From stdpp Require Import pretty.
From Stdlib Require Import QArith.
#[local] Open Scope string_scope.
#[local] Open Scope Z_scope.

(** ** The zone editor *)

Record PPEZone := mkPPEZone {
  pz_id : string;
  pz_camera_id : string;
  pz_name : string;
  pz_zone_type : string;
  pz_region : list CanvasPoint;
  pz_enabled : bool;
  pz_notes : option string;
  pz_created_at : string
}.

Record PPEZoneCreate := mkPPECreate {
  pc_zone_type : string;
  pc_name : string;
  pc_region : list CanvasPoint;
  pc_enabled : bool;
  pc_notes : option string
}.

Inductive PpeCall :=
| CallListZones (camera : string)
| CallCreateZone (camera : string) (c : PPEZoneCreate)
| CallUpdateZone (camera id : string) (c : PPEZoneCreate)
| CallDeleteZone (camera id : string)
| CallSnap (c : SnapCall).

(** Where a handler waits, with the camera of the render it comes from: the first load;
    a creation and its reload; the save of a drag; a toggle and its reload; a deletion and
    its reload. *)
Inductive PpeTask :=
| WaitLoad
| WaitCreate (camera : string) | WaitCreateList
| WaitMove
| WaitToggle (camera : string) | WaitToggleList
| WaitDelete (camera : string) | WaitDeleteList.

Record PpeEditor := mkPpe {
  pe_camera : string;
  pe_zones : list PPEZone;
  pe_selected : option string;
  pe_mode : DrawMode;
  pe_type : string;
  pe_points : list CanvasPoint;
  pe_name : string;
  pe_result : option string;
  pe_dragging : option (string * nat);
  pe_deleting : option string;
  pe_snap : Snapshot;
  pe_tasks : list PpeTask
}.

Definition upd_pe_zones (z : list PPEZone) (s : PpeEditor) : PpeEditor :=
  mkPpe (pe_camera s) z (pe_selected s) (pe_mode s) (pe_type s) (pe_points s) (pe_name s) (pe_result s) (pe_dragging s) (pe_deleting s) (pe_snap s) (pe_tasks s).
Definition upd_pe_selected (v : option string) (s : PpeEditor) : PpeEditor :=
  mkPpe (pe_camera s) (pe_zones s) v (pe_mode s) (pe_type s) (pe_points s) (pe_name s) (pe_result s) (pe_dragging s) (pe_deleting s) (pe_snap s) (pe_tasks s).
Definition upd_pe_draw (m : DrawMode) (t : string) (p : list CanvasPoint) (n : string) (s : PpeEditor) : PpeEditor :=
  mkPpe (pe_camera s) (pe_zones s) (pe_selected s) m t p n (pe_result s) (pe_dragging s) (pe_deleting s) (pe_snap s) (pe_tasks s).
Definition upd_pe_result (v : option string) (s : PpeEditor) : PpeEditor :=
  mkPpe (pe_camera s) (pe_zones s) (pe_selected s) (pe_mode s) (pe_type s) (pe_points s) (pe_name s) v (pe_dragging s) (pe_deleting s) (pe_snap s) (pe_tasks s).
Definition upd_pe_drag (v : option (string * nat)) (s : PpeEditor) : PpeEditor :=
  mkPpe (pe_camera s) (pe_zones s) (pe_selected s) (pe_mode s) (pe_type s) (pe_points s) (pe_name s) (pe_result s) v (pe_deleting s) (pe_snap s) (pe_tasks s).
Definition upd_pe_deleting (v : option string) (s : PpeEditor) : PpeEditor :=
  mkPpe (pe_camera s) (pe_zones s) (pe_selected s) (pe_mode s) (pe_type s) (pe_points s) (pe_name s) (pe_result s) (pe_dragging s) v (pe_snap s) (pe_tasks s).
Definition upd_pe_snap (v : Snapshot) (s : PpeEditor) : PpeEditor :=
  mkPpe (pe_camera s) (pe_zones s) (pe_selected s) (pe_mode s) (pe_type s) (pe_points s) (pe_name s) (pe_result s) (pe_dragging s) (pe_deleting s) v (pe_tasks s).
Definition upd_pe_tasks (v : list PpeTask) (s : PpeEditor) : PpeEditor :=
  mkPpe (pe_camera s) (pe_zones s) (pe_selected s) (pe_mode s) (pe_type s) (pe_points s) (pe_name s) (pe_result s) (pe_dragging s) (pe_deleting s) (pe_snap s) v.
Definition pe_await (t : PpeTask) (s : PpeEditor) : PpeEditor := upd_pe_tasks (pe_tasks s ++ [t])%list s.

(** Mounting loads the zones and the snapshot. *)
Definition mount_ppe (camera : string) : PpeEditor * list PpeCall :=
  let snap := mount_snapshot camera in
  (mkPpe camera [] None idle "ppe_required" [] EmptyString None None None snap.1 [WaitLoad],
   CallListZones camera :: (CallSnap <$> snap.2)).

Definition zoneToCreate (z : PPEZone) : PPEZoneCreate :=
  mkPPECreate (pz_zone_type z) (pz_name z) (pz_region z) (pz_enabled z) (pz_notes z).

(** The zone [finishDrawing] asks for. *)
Definition new_zone (s : PpeEditor) : PPEZoneCreate :=
  let n := length (filter_where (λ z, String.eqb (pz_zone_type z) (pe_type s)) (pe_zones s)) in
  mkPPECreate (pe_type s)
    (if truthy_str (pe_name s) then pe_name s else rt_label (ppeZoneConfig (pe_type s)) +:+ " " +:+ pretty (Z.of_nat (n + 1)))
    (pe_points s) true None.

(** [finishDrawing] up to its first [await]. *)
Definition ppe_finish (s : PpeEditor) : PpeEditor * list PpeCall :=
  if (length (pe_points s) <? rt_minPoints (ppeZoneConfig (pe_type s)))%nat then (s, [])
  else (pe_await (WaitCreate (pe_camera s)) s, [CallCreateZone (pe_camera s) (new_zone s)]).

Definition ppe_reset (s : PpeEditor) : PpeEditor := upd_pe_draw idle (pe_type s) [] EmptyString s.

Definition move_zone (i : nat) (p : CanvasPoint) (z : PPEZone) : PPEZone :=
  mkPPEZone (pz_id z) (pz_camera_id z) (pz_name z) (pz_zone_type z) (<[i := p]> (pz_region z)) (pz_enabled z) (pz_notes z) (pz_created_at z).

Definition is_zone (id : string) (z : PPEZone) : bool := String.eqb (pz_id z) id.

Section mouse.
Context (canvas : Canvas).

Definition zone_under (pt : CanvasPoint) (zones : list PPEZone) : option PPEZone :=
  find_where (λ z, pointInPolygon (pt_x pt * cv_width canvas) (pt_y pt * cv_height canvas)
    ((λ p, mkPoint (pt_x p * cv_width canvas) (pt_y p * cv_height canvas)) <$> pz_region z)) (reverse zones).

Definition handleCanvasClick (x y : Q) (s : PpeEditor) : PpeEditor * list PpeCall :=
  match pe_dragging s with
  | Some _ => (s, [])
  | None =>
      let pt := toNormalized (Some canvas) x y in
      match pe_mode s with
      | drawing =>
          if (3 <=? length (pe_points s))%nat && match pe_points s with first :: _ => near (3 # 100) pt first | [] => false end
          then ppe_finish s
          else (upd_pe_draw drawing (pe_type s) (pe_points s ++ [pt])%list (pe_name s) s, [])
      | idle => (upd_pe_selected (pz_id <$> zone_under pt (pe_zones s)) s, [])
      end
  end.

Definition handleCanvasMouseDown (x y : Q) (s : PpeEditor) : PpeEditor :=
  match pe_mode s with
  | drawing => s
  | idle =>
      if negb (truthy_ostr (pe_selected s)) then s
      else match find_where (is_zone (default EmptyString (pe_selected s))) (pe_zones s) with
           | Some zone =>
               match find_index (λ v, near (25 # 1000) (toNormalized (Some canvas) x y) v) (pz_region zone) with
               | Some i => upd_pe_drag (Some (pz_id zone, i)) s
               | None => s
               end
           | None => s
           end
  end.

(** A vertex of the zone as loaded; beyond its end, which only a reload with fewer points
    under the pointer can bring, the code would leave holes. *)
Definition handleCanvasMouseMove (x y : Q) (s : PpeEditor) : PpeEditor :=
  match pe_dragging s with
  | Some (id, i) => upd_pe_zones (map_where (is_zone id) (move_zone i (toNormalized (Some canvas) x y)) (pe_zones s)) s
  | None => s
  end.

(** [handleCanvasMouseUp] up to its [await]. *)
Definition handleCanvasMouseUp (s : PpeEditor) : PpeEditor * list PpeCall :=
  match pe_dragging s with
  | Some (id, _) =>
      match find_where (is_zone id) (pe_zones s) with
      | Some zone => (pe_await WaitMove s, [CallUpdateZone (pe_camera s) (pz_id zone) (zoneToCreate zone)])
      | None => (upd_pe_drag None s, [])
      end
  | None => (s, [])
  end.

Definition handleDoubleClick (s : PpeEditor) : PpeEditor * list PpeCall :=
  match pe_mode s with
  | drawing => if (3 <=? length (pe_points s))%nat then ppe_finish s else (s, [])
  | idle => (s, [])
  end.

Definition ppe_toggle (zone : PPEZone) (s : PpeEditor) : PpeEditor * list PpeCall :=
  let c := zoneToCreate zone in
  (pe_await (WaitToggle (pe_camera s)) s,
   [CallUpdateZone (pe_camera s) (pz_id zone) (mkPPECreate (pc_zone_type c) (pc_name c) (pc_region c) (negb (pz_enabled zone)) (pc_notes c))]).

Definition ppe_delete (zone : PPEZone) (s : PpeEditor) : PpeEditor * list PpeCall :=
  (pe_await (WaitDelete (pe_camera s)) (upd_pe_deleting (Some (pz_id zone)) s), [CallDeleteZone (pe_camera s) (pz_id zone)]).

Definition delete_message (msg : string) : string := if str_includes "compliance rule" msg then msg else "Delete failed: " +:+ msg.

(** A reply: the message of the error, or the zones (of a list request). *)
Definition PpeReply : Type := string + list PPEZone.

(** A handler goes on after its [await]. *)
Definition ppe_resume (t : PpeTask) (r : PpeReply) (s : PpeEditor) : PpeEditor * list PpeCall :=
  match t, r with
  | WaitLoad, inr zones => (upd_pe_zones zones s, [])
  | WaitLoad, inl _ => (s, [])
  | WaitCreate c, inr _ => (pe_await WaitCreateList s, [CallListZones c])
  | WaitCreateList, inr zones => (ppe_reset (upd_pe_result (Some "Zone saved.") (upd_pe_zones zones s)), [])
  | (WaitCreate _ | WaitCreateList), inl msg => (ppe_reset (upd_pe_result (Some ("Failed to save zone: " +:+ msg)) s), [])
  | WaitMove, inr _ => (upd_pe_drag None (upd_pe_result (Some "Zone vertex updated.") s), [])
  | WaitMove, inl _ => (upd_pe_drag None s, [])
  | WaitToggle c, inr _ => (pe_await WaitToggleList s, [CallListZones c])
  | WaitToggleList, inr zones => (upd_pe_zones zones s, [])
  | (WaitToggle _ | WaitToggleList), inl _ => (s, [])
  | WaitDelete c, inr _ => (pe_await WaitDeleteList (upd_pe_selected None s), [CallListZones c])
  | WaitDeleteList, inr zones => (upd_pe_deleting None (upd_pe_result (Some "Zone deleted.") (upd_pe_zones zones s)), [])
  | (WaitDelete _ | WaitDeleteList), inl msg => (upd_pe_deleting None (upd_pe_result (Some (delete_message msg)) s), [])
  end.

Inductive PpeEvent :=
| PClick (x y : Q) | PDown (x y : Q) | PMove (x y : Q) | PUp | PDouble
| PPick (i : nat) | PName (n : string) | PSave | PCancel | PUndo
| PRow (id : string) | PToggle (id : string) | PDelete (id : string)
| PSettles (i : nat) (r : PpeReply)
| PSnapEvent (e : SnapEvent)          (* the replies of the snapshot, and its retry button *)
| PCamera (camera : string).

(** The prop changes: the effects load the zones and the snapshot anew. *)
Definition ppe_camera (camera : string) (s : PpeEditor) : PpeEditor * list PpeCall :=
  if String.eqb camera (pe_camera s) then (s, [])
  else
    let snap := snap_step (SelectCamera camera) (pe_snap s) in
    (pe_await WaitLoad (upd_pe_snap snap.1
       (mkPpe camera (pe_zones s) (pe_selected s) (pe_mode s) (pe_type s) (pe_points s) (pe_name s) (pe_result s) (pe_dragging s) (pe_deleting s) (pe_snap s) (pe_tasks s))),
     CallListZones camera :: (CallSnap <$> snap.2)).

(** [PRow], [PToggle] and [PDelete] are for zones of the list; a button of the drawing
    controls is there while drawing. *)
Definition ppe_step (e : PpeEvent) (s : PpeEditor) : PpeEditor * list PpeCall :=
  match e with
  | PClick x y => handleCanvasClick x y s
  | PDown x y => (handleCanvasMouseDown x y s, [])
  | PMove x y => (handleCanvasMouseMove x y s, [])
  | PUp => handleCanvasMouseUp s
  | PDouble => handleDoubleClick s
  | PPick i =>
      match pe_mode s, PPE_ZONE_TYPES !! i with
      | idle, Some t => (upd_pe_selected None (upd_pe_draw drawing (rt_key t) [] (pe_name s) s), [])
      | _, _ => (s, [])
      end
  | PName n => (match pe_mode s with drawing => upd_pe_draw drawing (pe_type s) (pe_points s) n s | idle => s end, [])
  | PSave =>
      match pe_mode s with
      | drawing => if (rt_minPoints (ppeZoneConfig (pe_type s)) <=? length (pe_points s))%nat then ppe_finish s else (s, [])
      | idle => (s, [])
      end
  | PCancel => (match pe_mode s with drawing => ppe_reset s | idle => s end, [])
  | PUndo => (match pe_mode s with drawing => upd_pe_draw drawing (pe_type s) (take (length (pe_points s) - 1) (pe_points s)) (pe_name s) s | idle => s end, [])
  | PRow id =>
      (if existsb (is_zone id) (pe_zones s) then upd_pe_selected (if decide (pe_selected s = Some id) then None else Some id) s else s, [])
  | PToggle id => match find_where (is_zone id) (pe_zones s) with Some z => ppe_toggle z s | None => (s, []) end
  | PDelete id =>
      match find_where (is_zone id) (pe_zones s) with
      | Some z => if decide (pe_deleting s = Some id) then (s, []) else ppe_delete z s
      | None => (s, [])
      end
  | PSettles i r =>
      match pe_tasks s !! i with
      | Some t => ppe_resume t r (upd_pe_tasks (delete i (pe_tasks s)) s)
      | None => (s, [])
      end
  | PSnapEvent e =>
      match e with
      | SelectCamera _ => (s, [])
      | _ => let r := snap_step e (pe_snap s) in (upd_pe_snap r.1 s, CallSnap <$> r.2)
      end
  | PCamera c => ppe_camera c s
  end.

Definition ppe_run (es : list PpeEvent) (s : PpeEditor) : PpeEditor * list PpeCall :=
  foldl (λ p e, let r := ppe_step e p.1 in (r.1, p.2 ++ r.2)%list) (s, []) es.
End mouse.

(** Whether the banner is shown as an error. *)
Definition ppe_banner_red (s : PpeEditor) : bool :=
  match pe_result s with Some t => str_includes "failed" t || str_includes "Failed" t | None => false end.

(** The server's check of a new zone ([internal/api/ppe_zones_handler.go]); lengths are bytes. *)
Definition validZoneTypes : list string := ["work_area"; "no_go"; "ppe_required"; "ppe_optional"].

Definition validatePPEZoneCreate (c : PPEZoneCreate) : bool :=
  includes (pc_zone_type c) validZoneTypes && negb (length (pc_region c) <? 3)%nat && negb (120 <? String.length (pc_name c))%nat.

(** ** Theorems: the zone editor *)

Definition ppe_keys : list string := rt_key <$> PPE_ZONE_TYPES.

Lemma ppe_keys_cases (P : string → Prop) :
  P "work_area" → P "no_go" → P "ppe_required" → P "ppe_optional" → ∀ t, t ∈ ppe_keys → P t.
Proof.
  intros H1 H2 H3 H4 t Ht. unfold ppe_keys in Ht. simpl in Ht.
  repeat (apply elem_of_cons in Ht as [->|Ht]; [done|]). by apply elem_of_nil in Ht.
Qed.

Lemma ppe_minPoints t : t ∈ ppe_keys → rt_minPoints (ppeZoneConfig t) = 3%nat.
Proof. revert t. by apply ppe_keys_cases. Qed.

Lemma ppe_label_nonempty t s : t ∈ ppe_keys → (rt_label (ppeZoneConfig t) +:+ s) ≠ EmptyString.
Proof. revert t. by apply (ppe_keys_cases (λ t, (rt_label (ppeZoneConfig t) +:+ s) ≠ EmptyString)). Qed.

Lemma ppe_run_snoc canvas es e s :
  ppe_run canvas (es ++ [e])%list s =
  ((ppe_step canvas e (ppe_run canvas es s).1).1, ((ppe_run canvas es s).2 ++ (ppe_step canvas e (ppe_run canvas es s).1).2)%list).
Proof. unfold ppe_run. by rewrite foldl_app. Qed.

(** *** The two editors *)

(** An event of drawing, as the other editor has it. *)
Definition to_vca (e : PpeEvent) : EditorEvent :=
  match e with
  | PClick x y => MClick x y
  | PName n => SetName n
  | PSave => Save
  | PUndo => Undo
  | _ => MDouble
  end.

Definition drawing_event (e : PpeEvent) : Prop :=
  match e with PClick _ _ | PName _ | PSave | PUndo | PDouble => True | _ => False end.

(** The two editors in the middle of the same polygon. *)
Record same_drawing (p : PpeEditor) (v : Editor) : Prop := mkSame {
  sd_ptype : pe_type p ∈ ppe_keys;
  sd_vtype : ed_type v ∈ rule_keys;
  sd_polygon : ed_type v ≠ "linecross";
  sd_mode : pe_mode p = drawing ∧ ed_mode v = drawing;
  sd_points : pe_points p = ed_points v;
  sd_name : pe_name p = ed_name v;
  sd_drag : pe_dragging p = None ∧ ed_dragging v = None
}.

(** The same zone asked for by both: its points, and its name unless both make one up. *)
Definition same_create (c : PpeCall) (d : EditorCall) : Prop :=
  match c, d with
  | CallCreateZone _ pc, CreateRule vc =>
      pc_region pc = vc_region vc ∧ pc_enabled pc = vc_enabled vc ∧
      (pc_name pc = vc_name vc ∨
       ∃ n m : Z, pc_name pc = rt_label (ppeZoneConfig (pc_zone_type pc)) +:+ " " +:+ pretty n ∧
              vc_name vc = rt_label (ruleConfig (vc_rule_type vc)) +:+ " " +:+ pretty m)
  | _, _ => False
  end.

Definition same_step (r : PpeEditor * list PpeCall) (q : Editor * list EditorCall) : Prop :=
  same_drawing r.1 q.1 ∧ Forall2 same_create r.2 q.2.

Lemma vca_minPoints v : ed_type v ∈ rule_keys → ed_type v ≠ "linecross" → rt_minPoints (ruleConfig (ed_type v)) = 3%nat.
Proof. intros H1 H2. rewrite minPoints_of by done. by rewrite (proj2 (String.eqb_neq _ _) H2). Qed.

Lemma same_finish p v : same_drawing p v → same_step (ppe_finish p) (finishDrawing (ed_points v) v).
Proof.
  intros H. pose proof H as [Hp Hv Hl [Hm1 Hm2] Hpts Hn [Hd1 Hd2]]. unfold ppe_finish, finishDrawing.
  rewrite ppe_minPoints, vca_minPoints, Hpts by done. destruct (_ <? _)%nat; [by split|]. split; [by constructor|].
  simpl. constructor; [|constructor]. simpl. rewrite Hpts, Hn. split_and!; [done|done|].
  destruct (truthy_str (ed_name v)); [by left|]. right. by eexists _, _.
Qed.

Lemma same_points p v pts n : same_drawing p v →
  same_drawing (upd_pe_draw drawing (pe_type p) pts n p) (upd_draw drawing (ed_type v) pts n v).
Proof. intros [Hp Hv Hl [Hm1 Hm2] Hpts Hn [Hd1 Hd2]]. by constructor. Qed.

Lemma same_event canvas e p v :
  drawing_event e → same_drawing p v → same_step (ppe_step canvas e p) (editor_step (Some canvas) v (to_vca e)).
Proof.
  intros He H. pose proof H as [Hp Hv Hl [Hm1 Hm2] Hpts Hn [Hd1 Hd2]].
  assert (Hlc : String.eqb (ed_type v) "linecross" = false) by by apply String.eqb_neq.
  destruct e; try done; cbn [to_vca ppe_step editor_step].
  - unfold handleCanvasClick, onClick. rewrite Hd1, Hd2, Hm1, Hm2, Hpts, Hlc. cbn [negb andb]. rewrite andb_true_r.
    destruct (_ && _); [by apply same_finish|]. split; [|constructor]. simpl. rewrite Hn. unfold upd_points. rewrite Hm2. by apply same_points.
  - unfold handleDoubleClick, onDoubleClick. rewrite Hm1, Hm2, Hpts, Hlc. cbn [negb]. rewrite andb_true_r.
    destruct (_ <=? _)%nat; [by apply same_finish|by split].
  - rewrite Hm1, Hm2, Hpts. split; [|constructor]. by apply same_points.
  - unfold saveZone, canSave. rewrite Hm1, Hm2, Hlc, ppe_minPoints, Hpts by done. destruct (_ <=? _)%nat; [by apply same_finish|by split].
  - rewrite Hm1. split; [|constructor]. unfold undoPoint, upd_points. simpl. rewrite Hm2, Hpts, Hn. by apply same_points.
Qed.

(** C26. Drawing mirrors the other editor: after picking a polygon type in each, the same
    clicks, double clicks, undos, saves and names place the same points and ask for the same
    zones, also while an earlier request is under way; and a request that fails leaves both
    without the drawing. *)
Theorem drawing_mirrors_vca canvas p v es :
  same_drawing p v → Forall drawing_event es →
  let rp := ppe_run canvas es p in
  let rv := editor_run (Some canvas) v (to_vca <$> es) in
  pe_points rp.1 = ed_points rv.1 ∧ pe_name rp.1 = ed_name rv.1 ∧ Forall2 same_create rp.2 rv.2 ∧
  ∀ msg c, (0 < ed_creating rv.1)%nat →
    pe_points (ppe_resume (WaitCreate c) (inl msg) rp.1).1 = [] ∧ ed_points (creation_settles (inl msg) rv.1).1 = [] ∧
    pe_mode (ppe_resume (WaitCreate c) (inl msg) rp.1).1 = idle ∧ ed_mode (creation_settles (inl msg) rv.1).1 = idle.
Proof.
  intros H Hes rp rv.
  assert (Hrun : same_step rp rv).
  { subst rp rv. induction es as [|e es IH] using rev_ind; [by split|].
    apply Forall_app in Hes as [Hes He]. apply Forall_cons in He as [He _]. destruct (IH Hes) as [H1 H2].
    rewrite fmap_app. simpl. rewrite ppe_run_snoc, editor_run_snoc.
    pose proof (same_event canvas e _ _ He H1) as [H3 H4]. destruct (editor_step _ _ _) as [v' c']. split; [done|]. by apply Forall2_app. }
  destruct Hrun as [[Hp Hv Hl Hm Hpts Hn Hd] Hc]. split_and!; [done|done|done|]. intros msg c Hcr.
  unfold creation_settles. destruct (Nat.eqb_spec (ed_creating rv.1) 0); [lia|]. by split_and!.
Qed.

Definition ppe_canvas : Canvas := mkCanvas 0 0 640 360 640 360.
Definition ppe_drawing : PpeEditor := (ppe_run ppe_canvas [PPick 2] (mount_ppe "c1").1).1.
Definition vca_drawing : Editor := (editor_run (Some ppe_canvas) initial_editor [Pick 0]).1.
Definition triangle : list PpeEvent := [PClick 64 36; PClick 320 36; PUndo; PClick 320 36; PClick 320 180; PName "Gate"; PSave; PClick 66 36].

Lemma same_drawing_start : same_drawing ppe_drawing vca_drawing.
Proof. constructor; try done; first [apply (bool_decide_unpack _); vm_compute; exact I|by split]. Qed.

Lemma drawing_mirrors_vca_witness :
  let rp := ppe_run ppe_canvas triangle ppe_drawing in
  let rv := editor_run (Some ppe_canvas) vca_drawing (to_vca <$> triangle) in
  length rp.2 = 2%nat ∧ pe_points rp.1 = ed_points rv.1 ∧ Forall2 same_create rp.2 rv.2.
Proof.
  destruct (drawing_mirrors_vca ppe_canvas ppe_drawing vca_drawing triangle same_drawing_start ltac:(by repeat constructor)) as (H1 & _ & H3 & _).
  split_and!; [vm_compute; reflexivity|exact H1|exact H3].
Defined.

(** *** Drags *)

Lemma move_zone_last i p q z : move_zone i p (move_zone i q z) = move_zone i p z.
Proof. unfold move_zone. simpl. by rewrite list_insert_insert_eq. Qed.

Lemma find_map_zone id (f : PPEZone → PPEZone) zones :
  (∀ z, pz_id (f z) = pz_id z) →
  find_where (is_zone id) (map_where (is_zone id) f zones) = f <$> find_where (is_zone id) zones.
Proof.
  intros Hf. induction zones as [|z zones IH]; [done|].
  change (map_where ?p f (z :: zones)) with ((if p z then f z else z) :: map_where p f zones).
  rewrite !find_where_cons. destruct (is_zone id z) eqn:E; unfold is_zone in *; simpl; [by rewrite Hf, E|]. by rewrite E, IH.
Qed.

Lemma ppe_moves canvas id i z ms s :
  pe_dragging s = Some (id, i) → find_where (is_zone id) (pe_zones s) = Some z →
  let r := ppe_run canvas ((λ c, PMove c.1 c.2) <$> ms) s in
  r.2 = [] ∧ pe_dragging r.1 = Some (id, i) ∧ pe_tasks r.1 = pe_tasks s ∧ pe_camera r.1 = pe_camera s ∧
  find_where (is_zone id) (pe_zones r.1) =
    Some (match last ms with Some c => move_zone i (toNormalized (Some canvas) c.1 c.2) z | None => z end).
Proof.
  intros Hd Hz. induction ms as [|c ms IH] using rev_ind; [by split_and!|]. destruct IH as (H1 & H2 & H3 & H4 & H5).
  rewrite fmap_app, last_snoc. cbn [fmap list_fmap]. cbn zeta. rewrite ppe_run_snoc. set (r := ppe_run canvas _ s) in *.
  cbn [ppe_step fst snd]. unfold handleCanvasMouseMove. rewrite H2. cbn [upd_pe_zones pe_dragging pe_tasks pe_camera pe_zones].
  rewrite H1. split_and!; [done|done|done|done|]. rewrite find_map_zone by done. rewrite H5. simpl. f_equal.
  destruct (last ms); [by rewrite move_zone_last|done].
Qed.

(** Releasing a vertex saves the zone as it is then, but the editor lets go only when
    the reply comes: until then the vertex still follows the pointer, clicks are ignored and
    what it moves to is never sent, and the reply also ends a drag begun in the meantime.
    The other editor lets go at once. *)
Theorem release_still_drags canvas s id i z ms r :
  pe_dragging s = Some (id, i) → find_where (is_zone id) (pe_zones s) = Some z →
  let up := ppe_step canvas PUp s in
  let moved := ppe_run canvas ((λ c, PMove c.1 c.2) <$> ms) up.1 in
  let done_ := ppe_step canvas (PSettles (length (pe_tasks s)) r) moved.1 in
  up.2 = [CallUpdateZone (pe_camera s) id (zoneToCreate z)] ∧ moved.2 = [] ∧ done_.2 = [] ∧
  pe_dragging done_.1 = None ∧
  find_where (is_zone id) (pe_zones done_.1) =
    Some (match last ms with Some c => move_zone i (toNormalized (Some canvas) c.1 c.2) z | None => z end) ∧
  (∀ x y, ppe_step canvas (PClick x y) up.1 = (up.1, [])) ∧
  (∀ x y, pe_dragging (ppe_step canvas (PSettles (length (pe_tasks s)) r) (ppe_step canvas (PDown x y) up.1).1).1 = None) ∧
  (∀ v x y, (editor_step (Some canvas) (onMouseUp v).1 (MMove x y)).1 = (onMouseUp v).1).
Proof.
  intros Hd Hz up moved done_. assert (Hid : pz_id z = id) by (apply find_where_Some in Hz as [Hz _]; by apply String.eqb_eq in Hz).
  assert (Eup : up = (pe_await WaitMove s, [CallUpdateZone (pe_camera s) id (zoneToCreate z)])).
  { subst up. cbn [ppe_step]. unfold handleCanvasMouseUp. by rewrite Hd, Hz, Hid. }
  destruct (ppe_moves canvas id i z ms up.1) as (H1 & H2 & H3 & H4 & H5); [by rewrite Eup|by rewrite Eup|].
  fold moved in H1, H2, H3, H4, H5.
  assert (Ht : pe_tasks moved.1 !! length (pe_tasks s) = Some WaitMove).
  { rewrite H3, Eup. simpl. by rewrite list_lookup_middle. }
  assert (Edone : ∀ t, pe_tasks t !! length (pe_tasks s) = Some WaitMove →
    let d := ppe_step canvas (PSettles (length (pe_tasks s)) r) t in pe_dragging d.1 = None ∧ d.2 = [] ∧ pe_zones d.1 = pe_zones t).
  { intros t Et. simpl. rewrite Et. by destruct r. }
  destruct (Edone _ Ht) as (D1 & D2 & D3). split_and!; [by rewrite Eup|done|done|done|by unfold done_; rewrite D3| | |].
  - intros x y. rewrite Eup. simpl. unfold handleCanvasClick. simpl. by rewrite Hd.
  - intros x y. apply Edone. rewrite Eup. simpl. unfold handleCanvasMouseDown.
    repeat (case_match; simpl; try by rewrite list_lookup_middle).
  - intros v x y. simpl. unfold onMouseMove, onMouseUp. destruct (ed_dragging v) as [[]|] eqn:E; simpl; [done|by rewrite E].
Qed.

Definition gate_zone : PPEZone :=
  mkPPEZone "z1" "c1" "Gate" "no_go" [mkPoint (1#10) (1#10); mkPoint (1#2) (1#10); mkPoint (1#2) (1#2)] true None "t".
Definition ppe_loaded : PpeEditor := (ppe_run ppe_canvas [PSettles 0 (inr [gate_zone]); PRow "z1"; PDown 64 36] (mount_ppe "c1").1).1.

Lemma release_still_drags_witness :
  let up := ppe_step ppe_canvas PUp ppe_loaded in
  let moved := ppe_run ppe_canvas [PMove 128 72] up.1 in
  let done_ := ppe_step ppe_canvas (PSettles 0 (inr [])) moved.1 in
  up.2 = [CallUpdateZone "c1" "z1" (zoneToCreate gate_zone)] ∧ moved.2 = [] ∧
  find_where (is_zone "z1") (pe_zones done_.1) = Some (move_zone 0 (toNormalized (Some ppe_canvas) 128 72) gate_zone) ∧
  pz_region (move_zone 0 (toNormalized (Some ppe_canvas) 128 72) gate_zone) ≠ pz_region gate_zone.
Proof.
  destruct (release_still_drags ppe_canvas ppe_loaded "z1" 0 gate_zone [(128, 72)%Q] (inr [])) as (H1 & H2 & _ & _ & H5 & _);
    [reflexivity|reflexivity|].
  split_and!; [exact H1|exact H2|exact H5|]. vm_compute. discriminate.
Defined.

(** *** Requests and replies *)

Definition zone_in_unit (z : PPEZone) : Prop := Forall in_unit (pz_region z).

Definition ppe_create_ok (c : PPEZoneCreate) : Prop :=
  pc_zone_type c ∈ ppe_keys ∧ Forall in_unit (pc_region c) ∧ pc_name c ≠ EmptyString ∧ pc_enabled c = true ∧
  validatePPEZoneCreate c = (String.length (pc_name c) <=? 120)%nat.

Definition ppe_call_ok (c : PpeCall) : Prop :=
  match c with
  | CallCreateZone _ pc => ppe_create_ok pc
  | CallUpdateZone _ _ pc => Forall in_unit (pc_region pc)
  | _ => True
  end.

Definition is_delete (t : PpeTask) : Prop := match t with WaitDelete _ | WaitDeleteList => True | _ => False end.

(** The lists the server sends hold zones of the image. *)
Definition ppe_reply_ok (e : PpeEvent) : Prop :=
  match e with PSettles _ (inr zones) => Forall zone_in_unit zones | _ => True end.

Record PpeInv (s : PpeEditor) : Prop := mkPpeInv {
  pi_type : pe_type s ∈ ppe_keys;
  pi_points : Forall in_unit (pe_points s);
  pi_zones : Forall zone_in_unit (pe_zones s);
  pi_deleting : pe_deleting s ≠ None → Exists is_delete (pe_tasks s)
}.

Lemma ppe_finish_ok s : PpeInv s → PpeInv (ppe_finish s).1 ∧ Forall ppe_call_ok (ppe_finish s).2.
Proof.
  intros [Ht Hp Hz Hd]. unfold ppe_finish. rewrite ppe_minPoints by done. destruct (Nat.ltb_spec (length (pe_points s)) 3); [by split|].
  split; [constructor; try done; intros H1; apply Exists_app; left; by apply Hd|]. apply Forall_singleton. split_and!; simpl; try done.
  - destruct (truthy_str (pe_name s)) eqn:E; [intros E'; by rewrite E' in E|by apply ppe_label_nonempty].
  - assert (Hin : includes (pe_type s) validZoneTypes = true).
    { revert Ht. generalize (pe_type s). apply (ppe_keys_cases (λ t, includes t validZoneTypes = true)); vm_compute; reflexivity. }
    unfold validatePPEZoneCreate. unfold new_zone at 1 2. cbn [pc_zone_type pc_region]. rewrite Hin.
    destruct (Nat.ltb_spec (length (pe_points s)) 3); [lia|]. cbn [negb andb]. by rewrite Nat.leb_antisym.
Qed.

Lemma zone_of_list id zones z : Forall zone_in_unit zones → find_where (is_zone id) zones = Some z → zone_in_unit z.
Proof. intros H Hf. apply find_where_Some in Hf as [_ Hf]. rewrite Forall_forall in H. by apply H. Qed.

Lemma ppe_await_inv t s : PpeInv s → PpeInv (pe_await t s).
Proof. intros [Ht Hp Hz Hd]. constructor; try done. intros H. apply Exists_app. left. by apply Hd. Qed.

(** Removing a task that is not a deletion, or ending one. *)
Lemma ppe_resume_ok t r s i :
  pe_tasks s !! i = Some t → PpeInv s → ppe_reply_ok (PSettles i r) →
  PpeInv (ppe_resume t r (upd_pe_tasks (delete i (pe_tasks s)) s)).1.
Proof.
  intros Hi [Ht Hp Hz Hd] Hr.
  assert (Hrest : ¬ is_delete t → pe_deleting s ≠ None → Exists is_delete (delete i (pe_tasks s))).
  { intros Hn H. apply Hd in H. rewrite <- (take_drop_middle _ _ _ Hi) in H. rewrite delete_take_drop, Exists_app.
    apply Exists_app in H as [H|H]; [by left|]. apply Exists_cons in H as [H|H]; [done|by right]. }
  destruct t, r; simpl in *; constructor; simpl; try done; try (by apply Hrest; auto);
    try (intros H; apply Exists_app; left; apply Hrest; by auto); try (by intros []);
    intros _; apply Exists_app; right; by constructor.
Qed.

Lemma ppe_step_ok canvas e s :
  PpeInv s → ppe_reply_ok e → PpeInv (ppe_step canvas e s).1 ∧ Forall ppe_call_ok (ppe_step canvas e s).2.
Proof.
  intros H Hr. pose proof H as [Ht Hp Hz Hd]. destruct e; cbn [ppe_step].
  - unfold handleCanvasClick. destruct (pe_dragging s); [by split|]. destruct (pe_mode s); [by split|].
    destruct (_ && _); [by apply ppe_finish_ok|]. split; [|constructor]. constructor; try done. simpl. apply Forall_app. split; [done|].
    apply Forall_singleton. apply (toNormalized_unit (Some canvas)).
  - split; [|constructor]. unfold handleCanvasMouseDown. repeat (case_match; try done).
  - split; [|constructor]. unfold handleCanvasMouseMove. destruct (pe_dragging s) as [[id i]|]; [|done]. constructor; try done. simpl.
    unfold map_where. apply Forall_fmap, (Forall_impl _ _ _ Hz). intros z Hzz. simpl. destruct (is_zone id z); [|done].
    apply Forall_insert; [done|apply (toNormalized_unit (Some canvas))].
  - unfold handleCanvasMouseUp. destruct (pe_dragging s) as [[id i]|]; [|by split]. destruct (find_where _ _) as [z|] eqn:Ez; [|by split].
    split; [by apply ppe_await_inv|]. apply Forall_singleton. simpl. by eapply zone_of_list.
  - unfold handleDoubleClick. destruct (pe_mode s); [by split|]. destruct (_ <=? _)%nat; [by apply ppe_finish_ok|by split].
  - destruct (pe_mode s), (PPE_ZONE_TYPES !! i) as [t|] eqn:E; try (by split). split; [|constructor]. constructor; simpl; try done.
    apply list_elem_of_fmap. exists t. split; [done|]. by eapply list_elem_of_lookup_2.
  - split; [|constructor]. by destruct (pe_mode s).
  - destruct (pe_mode s); [by split|]. destruct (_ <=? _)%nat; [by apply ppe_finish_ok|by split].
  - split; [|constructor]. by destruct (pe_mode s).
  - split; [|constructor]. destruct (pe_mode s); [done|]. constructor; try done. simpl. by apply Forall_take.
  - split; [|constructor]. by destruct (existsb _ _).
  - destruct (find_where _ _) as [z|] eqn:Ez; [|by split]. split; [by apply ppe_await_inv|]. apply Forall_singleton. simpl. by eapply zone_of_list.
  - destruct (find_where _ _) as [z|]; [|by split]. destruct (decide _); [by split|]. split; [|by repeat constructor].
    constructor; try done. intros _. apply Exists_app. right. by apply Exists_cons; left.
  - destruct (pe_tasks s !! i) as [t|] eqn:Et; [|by split]. split; [by apply ppe_resume_ok|]. by destruct t, r; repeat constructor.
  - destruct e; [by split| |]; (split; [done|]); apply Forall_fmap, Forall_true; done.
  - unfold ppe_camera. destruct (String.eqb _ _); [by split|]. split.
    + constructor; try done. intros H1. apply Exists_app. left. by apply Hd.
    + constructor; [done|]. apply Forall_fmap, Forall_true. done.
Qed.

(** Whatever is clicked and answered, and on whatever camera: every zone created has a
    type of the catalog, a name and all its points in the image, and passes the server's
    check unless its name is longer than 120 bytes, which nothing in the editor prevents;
    every zone saved or switched has its points in the image, if the server's zones have; and
    a zone whose button says it is being deleted has a deletion under way. *)
Theorem ppe_requests_valid canvas es camera :
  Forall ppe_reply_ok es →
  let r := ppe_run canvas es (mount_ppe camera).1 in
  Forall ppe_call_ok r.2 ∧ (pe_deleting r.1 ≠ None → Exists is_delete (pe_tasks r.1)).
Proof.
  intros Hes r. enough (H : PpeInv r.1 ∧ Forall ppe_call_ok r.2) by (destruct H as [[_ _ _ Hd] Hc]; by split).
  subst r. induction es as [|e es IH] using rev_ind.
  - split; [|constructor]. constructor; simpl; [apply (bool_decide_unpack _); vm_compute; exact I|done|done|by intros []].
  - apply Forall_app in Hes as [Hes He]. apply Forall_cons in He as [He _]. destruct (IH Hes) as [H1 H2]. rewrite ppe_run_snoc.
    pose proof (ppe_step_ok canvas e _ H1 He) as [H3 H4]. split; [done|]. by apply Forall_app.
Qed.

Definition delete_two : list PpeEvent := [PSettles 0 (inr [gate_zone]); PDelete "z1"].

Lemma ppe_requests_valid_witness :
  let r := ppe_run ppe_canvas (PPick 2 :: triangle ++ delete_two)%list (mount_ppe "c1").1 in
  length r.2 = 3%nat ∧ Forall ppe_call_ok r.2 ∧ pe_deleting r.1 = Some "z1" ∧ Exists is_delete (pe_tasks r.1).
Proof.
  assert (H : Forall ppe_reply_ok (PPick 2 :: triangle ++ delete_two)%list).
  { repeat constructor; simpl; discriminate. }
  destruct (ppe_requests_valid ppe_canvas _ "c1" H) as [H1 H2].
  split_and!; [vm_compute; reflexivity|exact H1|vm_compute; reflexivity|]. apply H2. vm_compute. discriminate.
Defined.

(** Two deletions share one flag: the reply to the first takes the mark of the second
    away, whose button can then be pressed again. *)
Theorem deletion_unmarked canvas s a b z :
  a ≠ b → pe_deleting s = None → find_where (is_zone a) (pe_zones s) = Some z → is_Some (find_where (is_zone b) (pe_zones s)) →
  let n := length (pe_tasks s) in
  let s' := (ppe_run canvas [PDelete a; PDelete b; PSettles n (inl "x")] s).1 in
  pe_deleting s' = None ∧ last (pe_tasks s') = Some (WaitDelete (pe_camera s)) ∧
  (ppe_step canvas (PDelete b) s').2 = [CallDeleteZone (pe_camera s) b].
Proof.
  intros Hab Hd Ha [zb Hb] n s'.
  assert (Hia : pz_id z = a) by (apply find_where_Some in Ha as [Ha _]; by apply String.eqb_eq in Ha).
  assert (Hib : pz_id zb = b) by (apply find_where_Some in Hb as [Hb _]; by apply String.eqb_eq in Hb).
  assert (E : s' = upd_pe_deleting None (upd_pe_result (Some (delete_message "x"))
     (upd_pe_tasks (pe_tasks s ++ [WaitDelete (pe_camera s)])%list s))).
  { subst s'. unfold ppe_run. cbn [foldl ppe_step fst]. rewrite Ha, decide_False by by rewrite Hd. simpl. rewrite Hb, decide_False by congruence.
    simpl. rewrite <- app_assoc. cbn [app]. subst n. rewrite list_lookup_middle by done. unfold ppe_resume, upd_pe_deleting, upd_pe_result, upd_pe_tasks. simpl.
    f_equal. rewrite delete_take_drop, take_app_length, drop_app_ge by lia. by replace (S (length (pe_tasks s)) - length (pe_tasks s))%nat with 1%nat by lia. }
  rewrite E. split_and!; [done|simpl; by rewrite last_snoc|]. cbn [ppe_step]. simpl. rewrite Hb. simpl. by rewrite Hib.
Qed.

Definition fence_zone : PPEZone :=
  mkPPEZone "z2" "c1" "Fence" "work_area" [mkPoint 0 0; mkPoint (1#2) 0; mkPoint (1#2) (1#2)] true None "t".
Definition ppe_two : PpeEditor := (ppe_run ppe_canvas [PSettles 0 (inr [gate_zone; fence_zone])] (mount_ppe "c1").1).1.

Lemma deletion_unmarked_witness :
  let s' := (ppe_run ppe_canvas [PDelete "z1"; PDelete "z2"; PSettles 0 (inl "x")] ppe_two).1 in
  pe_deleting s' = None ∧ last (pe_tasks s') = Some (WaitDelete "c1") ∧ (ppe_step ppe_canvas (PDelete "z2") s').2 = [CallDeleteZone "c1" "z2"].
Proof. apply (deletion_unmarked ppe_canvas ppe_two "z1" "z2" gate_zone); [discriminate|reflexivity|reflexivity|by eexists]. Defined.

(** The list of the camera before, arriving late, is shown for the camera selected now,
    and switching one of its zones sends the zone of the one camera to the address of the
    other. *)
Theorem zones_of_other_camera canvas camera other z zs zs' :
  other ≠ camera →
  let s := (ppe_run canvas [PCamera other; PSettles 1 (inr zs'); PSettles 0 (inr (z :: zs))] (mount_ppe camera).1).1 in
  pe_camera s = other ∧ pe_zones s = z :: zs ∧ pe_tasks s = [] ∧
  (ppe_step canvas (PToggle (pz_id z)) s).2 =
    [CallUpdateZone other (pz_id z) (mkPPECreate (pz_zone_type z) (pz_name z) (pz_region z) (negb (pz_enabled z)) (pz_notes z))].
Proof.
  intros Hne s.
  assert (E : s = upd_pe_zones (z :: zs) (upd_pe_zones zs' (upd_pe_tasks [] (ppe_camera other (mount_ppe camera).1).1))).
  { subst s. unfold ppe_run. cbn [foldl ppe_step fst]. unfold ppe_camera. cbn [pe_camera mount_ppe fst].
    by rewrite (proj2 (String.eqb_neq _ _) Hne). }
  rewrite E. unfold ppe_camera. cbn [pe_camera mount_ppe fst]. rewrite (proj2 (String.eqb_neq _ _) Hne). split_and!; [done|done|done|].
  cbn [ppe_step fst pe_zones upd_pe_zones]. rewrite find_where_cons. unfold is_zone. by rewrite String.eqb_refl.
Qed.

Lemma zones_of_other_camera_witness :
  let s := (ppe_run ppe_canvas [PCamera "c2"; PSettles 1 (inr []); PSettles 0 (inr [gate_zone])] (mount_ppe "c1").1).1 in
  pe_camera s = "c2" ∧ pe_zones s = [gate_zone] ∧ pe_tasks s = [] ∧
  (ppe_step ppe_canvas (PToggle "z1") s).2 = [CallUpdateZone "c2" "z1" (mkPPECreate "no_go" "Gate" (pz_region gate_zone) false None)].
Proof. apply (zones_of_other_camera ppe_canvas "c1" "c2" gate_zone [] []). discriminate. Defined.

(** *** The message of a failed deletion *)

(** [m] rejects only with what [P] allows. *)
Definition rejects {A} (P : Exn → Prop) (m : M A) : Prop := ∀ b l l' e, m b l = (l', Err e) → P e.

Lemma rejects_bind {A B} P (m : M A) (f : A → M B) : rejects P m → (∀ a, rejects P (f a)) → rejects P (m ≫= f).
Proof.
  intros Hm Hf b l l' e H. destruct (m b l) as [l1 [a|e1]] eqn:E.
  - rewrite (bind_ok _ _ _ _ _ _ E) in H. by eapply Hf.
  - rewrite (bind_err _ _ _ _ _ _ E) in H. injection H as <- <-. by eapply Hm.
Qed.

Lemma rejects_if {A} P (c : bool) (m n : M A) : rejects P m → rejects P n → rejects P (if c then m else n).
Proof. by destruct c. Qed.

Lemma rejects_mret {A} P (a : A) : rejects P (mret a).
Proof. by intros b l l' e [=]. Qed.

Lemma rejects_authFetch input init : rejects (λ e, e = XNetwork) (authFetch input init).
Proof.
  assert (Hf : ∀ r, rejects (λ e, e = XNetwork) (fetch r)).
  { intros r b l l' e. unfold fetch. destruct (br_net b l r); by intros [= <- <-]. }
  assert (Hb : rejects (λ e, e = XNetwork) bootstrapCSRFToken).
  { intros b l l' e H. destruct (bootstrap_total b l) as [t E]. by rewrite E in H. }
  assert (Hg : rejects (λ e, e = XNetwork) getCSRFToken).
  { intros b l l' e H. destruct (getCSRFToken_total b l) as [t E]. by rewrite E in H. }
  unfold authFetch, send_with_recovery.
  repeat first [ assumption | apply Hf | apply rejects_if | apply rejects_mret | apply rejects_bind | intros ? ].
  all: by match goal with H : _ = (_, Err _) |- _ => inversion H end.
Qed.

(** A text that begins with a character [s] does not have is not in [s]. *)
Lemma str_includes_absent c p s : Forall (λ n, n ≠ Ascii.N_of_ascii c) (bytes_of s) → str_includes (String c p) s = false.
Proof.
  induction s as [|d s IH]; intros H; [done|]. unfold bytes_of in H. csimpl in H. apply Forall_cons in H as [Hd H].
  cbn [str_includes String.prefix]. destruct (Ascii.ascii_dec c d) as [->|]; [done|]. by rewrite IH.
Qed.

Lemma no_c_in_delete (n : Z) : str_includes "compliance rule" ("delete PPE zone: " +:+ pretty n) = false.
Proof.
  apply str_includes_absent. unfold bytes_of. rewrite list_ascii_of_string_app, fmap_app. apply Forall_app. split.
  - apply (bool_decide_unpack _). vm_compute. exact I.
  - eapply Forall_impl; [apply pretty_bytes|]. simpl. intros x [Hx| ->]; [|done]. unfold digit_byte in Hx.
    apply andb_true_iff in Hx as [_ Hx]. apply N.leb_le in Hx. intros ->. revert Hx. by vm_compute.
Qed.

(** No answer of the server reaches the message for a zone that rules still refer to:
    the client drops the body of the answer, so a refusal always reads "Delete failed:
    delete PPE zone" and the status. *)
Theorem refusal_loses_reason (browser_text : Exn → string) camera id b l l' e :
  deletePPEZone camera id b l = (l', Err e) →
  e = XNetwork ∨
  ∃ status : Z, delete_message (error_message browser_text e) = "Delete failed: delete PPE zone: " +:+ pretty status.
Proof.
  intros H.
  assert (Hr : rejects (λ e, e = XNetwork ∨ ∃ n : Z, e = XError ("delete PPE zone: " +:+ pretty n)) (deletePPEZone camera id)).
  { unfold deletePPEZone. apply rejects_bind; [intros ? ? ? ? Hf; left; by eapply rejects_authFetch|].
    intros res b0 l0 l1 e0. unfold or_throw_status, or_throw. destruct (rs_ok res); [done|]. intros [= <- <-]. right. by eexists. }
  destruct (Hr _ _ _ _ H) as [->|[n ->]]; [by left|]. right. exists n. simpl. unfold delete_message. by rewrite no_c_in_delete.
Qed.

(** A server that refuses with the reason in the body. *)
Definition refusing : Browser :=
  mkBrowser (λ _ _, Some (mkResponse 409 "Conflict" (Some "zone has compliance rules") None None)) (λ _, "ironsight_csrf=t") (λ _ _, None) true true.

Lemma refusal_loses_reason_witness :
  ∃ l' e, deletePPEZone "c1" "z1" refusing [] = (l', Err e) ∧ e ≠ XNetwork ∧
  ∃ status : Z, delete_message (error_message (λ _, EmptyString) e) = "Delete failed: delete PPE zone: " +:+ pretty status.
Proof.
  destruct (deletePPEZone "c1" "z1" refusing []) as [l' [[]|e]] eqn:E; [vm_compute in E; discriminate|].
  assert (Hn : e ≠ XNetwork) by (intros ->; vm_compute in E; discriminate).
  exists l', e. split; [done|]. split; [exact Hn|].
  destruct (refusal_loses_reason (λ _, EmptyString) "c1" "z1" refusing [] l' e E) as [H|H]; [by destruct (Hn H)|exact H].
Defined.
