(* ===== verification/Compliance.v ===== *)
(** * Compliance rules of a camera

    [components/ComplianceRulesPanel.tsx]: the list of rules, the form that creates or edits
    one, and the messages with their timers; and the check of
    [internal/api/ppe_zones_handler.go] that its requests have to pass. *)

From S2P Require Import Prelude Types Ppe.
#[local] Open Scope string_scope.
#[local] Open Scope Z_scope.

Record ComplianceRule := mkCRule {
  cr_id : string;
  cr_camera_id : string;
  cr_zone_id : option string;
  cr_zone_name : option string;
  cr_rule_type : string;
  cr_ppe_classes : list string;
  cr_enabled : bool;
  cr_site_wide : bool;
  cr_notes : option string;
  cr_schedule : option json;
  cr_created_at : string
}.

Record ComplianceRuleCreate := mkCCreate {
  cc_zone_id : option string;
  cc_rule_type : string;
  cc_ppe_classes : list string;
  cc_enabled : bool;
  cc_site_wide : bool;
  cc_notes : option string;
  cc_schedule : option json
}.

Definition PPE_CLASS_OPTIONS : list (string * string) :=
  [("no-hat", "Hard Hat"); ("no-vest", "Hi-Vis Vest"); ("no-mask", "Face Mask"); ("no-glove", "Gloves")].

Definition emptyCreate : ComplianceRuleCreate := mkCCreate (Some EmptyString) "ppe_required" [] true false None None.

Inductive RulesCall :=
| CallLoadRules (camera : string)          (* rules and zones, both awaited *)
| CallCreateRule (camera : string) (c : ComplianceRuleCreate)
| CallUpdateRule (camera id : string) (c : ComplianceRuleCreate)
| CallDeleteRule (camera id : string).

(** Where a handler waits: the first load; a save and its reload; a deletion and its reload. *)
Inductive RulesTask :=
| RtLoad | RtSave (camera : string) (editing : bool) | RtSaveLoad | RtDelete (camera : string) | RtDeleteLoad.

(** [cp_timers]: timers of messages, each of which clears whatever is shown. *)
Record RulesPanel := mkRules {
  cp_camera : string;
  cp_rules : list ComplianceRule;
  cp_zones : list PPEZone;
  cp_form : ComplianceRuleCreate;
  cp_editingId : option string;
  cp_saving : bool;
  cp_deleting : option string;
  cp_error : option string;
  cp_success : option string;
  cp_showForm : bool;
  cp_timers : nat;
  cp_tasks : list RulesTask
}.

Definition upd_cp_lists (r : list ComplianceRule) (z : list PPEZone) (s : RulesPanel) : RulesPanel :=
  mkRules (cp_camera s) r z (cp_form s) (cp_editingId s) (cp_saving s) (cp_deleting s) (cp_error s) (cp_success s) (cp_showForm s) (cp_timers s) (cp_tasks s).
Definition upd_cp_form (f : ComplianceRuleCreate) (e : option string) (show : bool) (s : RulesPanel) : RulesPanel :=
  mkRules (cp_camera s) (cp_rules s) (cp_zones s) f e (cp_saving s) (cp_deleting s) (cp_error s) (cp_success s) show (cp_timers s) (cp_tasks s).
Definition upd_cp_saving (b : bool) (s : RulesPanel) : RulesPanel :=
  mkRules (cp_camera s) (cp_rules s) (cp_zones s) (cp_form s) (cp_editingId s) b (cp_deleting s) (cp_error s) (cp_success s) (cp_showForm s) (cp_timers s) (cp_tasks s).
Definition upd_cp_deleting (d : option string) (s : RulesPanel) : RulesPanel :=
  mkRules (cp_camera s) (cp_rules s) (cp_zones s) (cp_form s) (cp_editingId s) (cp_saving s) d (cp_error s) (cp_success s) (cp_showForm s) (cp_timers s) (cp_tasks s).
Definition upd_cp_messages (e m : option string) (n : nat) (s : RulesPanel) : RulesPanel :=
  mkRules (cp_camera s) (cp_rules s) (cp_zones s) (cp_form s) (cp_editingId s) (cp_saving s) (cp_deleting s) e m (cp_showForm s) n (cp_tasks s).
Definition upd_cp_tasks (t : list RulesTask) (s : RulesPanel) : RulesPanel :=
  mkRules (cp_camera s) (cp_rules s) (cp_zones s) (cp_form s) (cp_editingId s) (cp_saving s) (cp_deleting s) (cp_error s) (cp_success s) (cp_showForm s) (cp_timers s) t.
Definition cp_await (t : RulesTask) (s : RulesPanel) : RulesPanel := upd_cp_tasks (cp_tasks s ++ [t])%list s.

Definition mount_rules (camera : string) : RulesPanel * list RulesCall :=
  (mkRules camera [] [] emptyCreate None false None None None false 0 [RtLoad], [CallLoadRules camera]).

Definition flash (msg : string) (isError : bool) (s : RulesPanel) : RulesPanel :=
  upd_cp_messages (if isError then Some msg else None) (if isError then None else Some msg) (S (cp_timers s)) s.

Definition toggleClass (cls : string) (f : ComplianceRuleCreate) : ComplianceRuleCreate :=
  mkCCreate (cc_zone_id f) (cc_rule_type f)
    (if includes cls (cc_ppe_classes f) then filter_where (λ c, negb (String.eqb c cls)) (cc_ppe_classes f) else (cc_ppe_classes f ++ [cls])%list)
    (cc_enabled f) (cc_site_wide f) (cc_notes f) (cc_schedule f).

Definition handleSubmit (s : RulesPanel) : RulesPanel * list RulesCall :=
  let f := cp_form s in
  if negb (truthy_ostr (cc_zone_id f)) then (flash "Please select a zone." true s, [])
  else if String.eqb (cc_rule_type f) "ppe_required" && (length (cc_ppe_classes f) =? 0)%nat
  then (flash "Please select at least one PPE class for a ppe_required rule." true s, [])
  else
    match cp_editingId s with
    | Some id =>
        if truthy_str id
        then (cp_await (RtSave (cp_camera s) true) (upd_cp_saving true s), [CallUpdateRule (cp_camera s) id f])
        else (cp_await (RtSave (cp_camera s) false) (upd_cp_saving true s), [CallCreateRule (cp_camera s) f])
    | None => (cp_await (RtSave (cp_camera s) false) (upd_cp_saving true s), [CallCreateRule (cp_camera s) f])
    end.

(** The schedule of a rule is not taken over. *)
Definition handleEdit (r : ComplianceRule) (s : RulesPanel) : RulesPanel :=
  upd_cp_form (mkCCreate (cr_zone_id r) (cr_rule_type r) (cr_ppe_classes r) (cr_enabled r) (cr_site_wide r) (cr_notes r) None) (Some (cr_id r)) true s.

Definition close_form (s : RulesPanel) : RulesPanel := upd_cp_form emptyCreate None false s.

(** A reply: the message of the error, or rules and zones (of a load). *)
Definition RulesReply : Type := string + (list ComplianceRule * list PPEZone).

Definition rules_resume (t : RulesTask) (r : RulesReply) (s : RulesPanel) : RulesPanel * list RulesCall :=
  match t, r with
  | RtLoad, inr l => (upd_cp_lists l.1 l.2 s, [])
  | RtLoad, inl _ => (s, [])
  | RtSave c editing, inr _ =>
      (cp_await RtSaveLoad (close_form (flash (if editing then "Rule updated." else "Rule created.") false s)), [CallLoadRules c])
  | RtSaveLoad, inr l => (upd_cp_saving false (upd_cp_lists l.1 l.2 s), [])
  | (RtSave _ _ | RtSaveLoad), inl m => (upd_cp_saving false (flash (if truthy_str m then m else "Save failed") true s), [])
  | RtDelete c, inr _ => (cp_await RtDeleteLoad (flash "Rule deleted." false s), [CallLoadRules c])
  | RtDeleteLoad, inr l => (upd_cp_deleting None (upd_cp_lists l.1 l.2 s), [])
  | (RtDelete _ | RtDeleteLoad), inl m => (upd_cp_deleting None (flash (if truthy_str m then m else "Delete failed") true s), [])
  end.

Inductive RulesEvent :=
| RNew | RCancel | REdit (id : string) | RDelete (id : string) | RSubmit
| RZone (id : string) | RType (no_go : bool) | RClass (cls : string) | RSiteWide (b : bool) | REnabled (b : bool) | RNotes (text : string)
| RSettles (i : nat) (r : RulesReply)
| RTimer
| RCamera (camera : string).

Definition is_rule (id : string) (r : ComplianceRule) : bool := String.eqb (cr_id r) id.

Definition edit_form (f : ComplianceRuleCreate → ComplianceRuleCreate) (s : RulesPanel) : RulesPanel :=
  if cp_showForm s then upd_cp_form (f (cp_form s)) (cp_editingId s) true s else s.

(** The controls of the form are there while it is shown; [RZone] while there are zones,
    [RClass] for a rule of type [ppe_required]. *)
Definition rules_step (e : RulesEvent) (s : RulesPanel) : RulesPanel * list RulesCall :=
  match e with
  | RNew => (if cp_showForm s then s else upd_cp_form emptyCreate None true s, [])
  | RCancel => (if cp_showForm s then close_form s else s, [])
  | REdit id => (match find_where (is_rule id) (cp_rules s) with Some r => handleEdit r s | None => s end, [])
  | RDelete id =>
      if existsb (is_rule id) (cp_rules s) && negb (bool_decide (cp_deleting s = Some id))
      then (cp_await (RtDelete (cp_camera s)) (upd_cp_deleting (Some id) s), [CallDeleteRule (cp_camera s) id]) else (s, [])
  | RSubmit => if cp_showForm s && negb (cp_saving s) then handleSubmit s else (s, [])
  | RZone id =>
      (if String.eqb id EmptyString || existsb (is_zone id) (cp_zones s)
       then edit_form (λ f, mkCCreate (Some id) (cc_rule_type f) (cc_ppe_classes f) (cc_enabled f) (cc_site_wide f) (cc_notes f) (cc_schedule f)) s else s, [])
  | RType no_go =>
      (edit_form (λ f, mkCCreate (cc_zone_id f) (if no_go then "no_go" else "ppe_required") (cc_ppe_classes f) (cc_enabled f) (cc_site_wide f) (cc_notes f) (cc_schedule f)) s, [])
  | RClass cls =>
      (if includes cls (fst <$> PPE_CLASS_OPTIONS) && String.eqb (cc_rule_type (cp_form s)) "ppe_required" then edit_form (toggleClass cls) s else s, [])
  | RSiteWide b => (edit_form (λ f, mkCCreate (cc_zone_id f) (cc_rule_type f) (cc_ppe_classes f) (cc_enabled f) b (cc_notes f) (cc_schedule f)) s, [])
  | REnabled b => (edit_form (λ f, mkCCreate (cc_zone_id f) (cc_rule_type f) (cc_ppe_classes f) b (cc_site_wide f) (cc_notes f) (cc_schedule f)) s, [])
  | RNotes t => (edit_form (λ f, mkCCreate (cc_zone_id f) (cc_rule_type f) (cc_ppe_classes f) (cc_enabled f) (cc_site_wide f) (if truthy_str t then Some t else None) (cc_schedule f)) s, [])
  | RSettles i r =>
      match cp_tasks s !! i with
      | Some t => rules_resume t r (upd_cp_tasks (delete i (cp_tasks s)) s)
      | None => (s, [])
      end
  | RTimer => match cp_timers s with S n => (upd_cp_messages None None n s, []) | O => (s, []) end
  | RCamera c =>
      if String.eqb c (cp_camera s) then (s, [])
      else (cp_await RtLoad (mkRules c (cp_rules s) (cp_zones s) (cp_form s) (cp_editingId s) (cp_saving s) (cp_deleting s) (cp_error s)
              (cp_success s) (cp_showForm s) (cp_timers s) (cp_tasks s)), [CallLoadRules c])
  end.

Definition rules_run (es : list RulesEvent) (s : RulesPanel) : RulesPanel * list RulesCall :=
  foldl (λ p e, let r := rules_step e p.1 in (r.1, p.2 ++ r.2)%list) (s, []) es.

(** The server's check ([validateComplianceRuleCreate]), for an id it can parse. *)
Definition NIL_UUID : string := "00000000-0000-0000-0000-000000000000".

Definition validateComplianceRuleCreate (c : ComplianceRuleCreate) : bool :=
  includes (cc_rule_type c) ["ppe_required"; "no_go"] &&
  negb (String.eqb (cc_rule_type c) "ppe_required" && (length (cc_ppe_classes c) =? 0)%nat) &&
  negb (bool_decide (cc_zone_id c = Some NIL_UUID)).

(** ** Theorems *)

Lemma rules_run_snoc es e s :
  rules_run (es ++ [e])%list s =
  ((rules_step e (rules_run es s).1).1, ((rules_run es s).2 ++ (rules_step e (rules_run es s).1).2)%list).
Proof. unfold rules_run. by rewrite foldl_app. Qed.

(** *** The form *)

Lemma toggle_other cls c f : c ≠ cls → c ∈ cc_ppe_classes (toggleClass cls f) ↔ c ∈ cc_ppe_classes f.
Proof.
  intros Hc. unfold toggleClass. simpl. unfold includes. case_bool_decide.
  - rewrite elem_of_filter_where. rewrite (proj2 (String.eqb_neq _ _) Hc). naive_solver.
  - rewrite elem_of_app, list_elem_of_singleton. naive_solver.
Qed.

Lemma toggle_self cls f : NoDup (cc_ppe_classes f) →
  (cls ∈ cc_ppe_classes (toggleClass cls f) ↔ cls ∉ cc_ppe_classes f) ∧ NoDup (cc_ppe_classes (toggleClass cls f)).
Proof.
  intros Hnd. unfold toggleClass. simpl. unfold includes. case_bool_decide as H.
  - split; [|by apply NoDup_filter]. rewrite elem_of_filter_where, String.eqb_refl. naive_solver.
  - split; [rewrite elem_of_app, list_elem_of_singleton; naive_solver|].
    apply NoDup_app. split_and!; [done| |by apply NoDup_singleton]. intros x Hx ->%list_elem_of_singleton. done.
Qed.

(** The class buttons are switches: any sequence of clicks leaves exactly the classes
    that were selected and clicked an even number of times, or not selected and clicked an
    odd number of times, each once. *)
Theorem classes_toggle f clicks cls :
  NoDup (cc_ppe_classes f) →
  let g := foldl (λ f c, toggleClass c f) f clicks in
  NoDup (cc_ppe_classes g) ∧
  (cls ∈ cc_ppe_classes g ↔ xorb (includes cls (cc_ppe_classes f)) (Nat.odd (length (filter_where (String.eqb cls) clicks))) = true) ∧
  cc_rule_type g = cc_rule_type f ∧ cc_zone_id g = cc_zone_id f.
Proof.
  intros Hnd. cbn zeta. induction clicks as [|c clicks (H1 & H2 & H3 & H4)] using rev_ind.
  - simpl. unfold includes. rewrite xorb_false_r. split_and!; [done|by rewrite bool_decide_eq_true|done|done].
  - rewrite foldl_app. cbn [foldl]. set (g := foldl _ f clicks) in *. destruct (toggle_self c g H1) as [T1 T2]. split_and!; [done| |done|done].
    unfold filter_where. rewrite filter_app, length_app. fold (filter_where (String.eqb cls) clicks). fold (filter_where (String.eqb cls) [c]).
    rewrite Nat.odd_add, <- xorb_assoc. set (b := xorb (includes cls _) (Nat.odd _)) in *. rewrite filter_where_cons. change (filter_where (String.eqb cls) []) with (@nil string).
    destruct (String.eqb_spec cls c) as [->|Hc]; simpl.
    + change (Nat.odd 1) with true. rewrite T1, H2. destruct b; simpl; split; intros; congruence.
    + rewrite xorb_false_r. rewrite <- H2. by apply toggle_other.
Qed.

Lemma classes_toggle_witness :
  let g := foldl (λ f c, toggleClass c f) emptyCreate ["no-hat"; "no-vest"; "no-hat"] in
  NoDup (cc_ppe_classes g) ∧ cc_ppe_classes g = ["no-vest"].
Proof. split; [|reflexivity]. apply (classes_toggle emptyCreate ["no-hat"; "no-vest"; "no-hat"] "no-vest"). constructor. Defined.

(** *** Requests *)

Definition form_ok (f : ComplianceRuleCreate) : Prop := cc_rule_type f ∈ ["ppe_required"; "no_go"] ∧ cc_zone_id f ≠ Some NIL_UUID.
Definition rule_ok (r : ComplianceRule) : Prop := cr_rule_type r ∈ ["ppe_required"; "no_go"] ∧ cr_zone_id r ≠ Some NIL_UUID.

Definition rules_call_ok (c : RulesCall) : Prop :=
  match c with CallCreateRule _ f | CallUpdateRule _ _ f => validateComplianceRuleCreate f = true | _ => True end.

(** What the server sends: rules of the two types, and zones with an id. *)
Definition rules_reply_ok (e : RulesEvent) : Prop :=
  match e with RSettles _ (inr l) => Forall rule_ok l.1 ∧ Forall (λ z, pz_id z ≠ NIL_UUID) l.2 | _ => True end.

Definition is_saving_task (t : RulesTask) : bool := match t with RtSave _ _ | RtSaveLoad => true | _ => false end.

Record RulesInv (s : RulesPanel) : Prop := mkRulesInv {
  ri_form : form_ok (cp_form s);
  ri_rules : Forall rule_ok (cp_rules s);
  ri_zones : Forall (λ z, pz_id z ≠ NIL_UUID) (cp_zones s);
  ri_saving : length (filter_where is_saving_task (cp_tasks s)) = if cp_saving s then 1%nat else 0%nat
}.

Lemma empty_form_ok : form_ok emptyCreate.
Proof. split; [by left|discriminate]. Qed.

Lemma edit_form_inv f s : RulesInv s → form_ok (f (cp_form s)) → RulesInv (edit_form f s).
Proof. intros [H1 H2 H3 H4] Hf. unfold edit_form. by destruct (cp_showForm s). Qed.

Lemma saves_app l t : length (filter_where is_saving_task (l ++ [t])%list) = (length (filter_where is_saving_task l) + if is_saving_task t then 1 else 0)%nat.
Proof. unfold filter_where. rewrite filter_app, length_app. destruct t; reflexivity. Qed.

Lemma saves_delete l i t : l !! i = Some t →
  length (filter_where is_saving_task l) = (length (filter_where is_saving_task (delete i l)) + if is_saving_task t then 1 else 0)%nat.
Proof.
  intros H. rewrite <- (take_drop_middle _ _ _ H) at 1. rewrite delete_take_drop. unfold filter_where.
  rewrite !filter_app, !length_app, filter_cons. destruct t; simpl; lia.
Qed.

Lemma submit_ok s : RulesInv s → cp_saving s = false → RulesInv (handleSubmit s).1 ∧ Forall rules_call_ok (handleSubmit s).2.
Proof.
  intros [[F1 F2] H2 H3 H4] Hs. unfold handleSubmit. rewrite Hs in H4. destruct (negb (truthy_ostr _)); [split; [constructor; simpl; rewrite ?Hs; done|constructor]|].
  destruct (String.eqb (cc_rule_type (cp_form s)) "ppe_required" && _) eqn:Ec; [split; [constructor; simpl; rewrite ?Hs; done|constructor]|].
  assert (Hv : validateComplianceRuleCreate (cp_form s) = true).
  { unfold validateComplianceRuleCreate, includes. rewrite (bool_decide_true _ F1), Ec, bool_decide_false by done. done. }
  assert (Hinv : ∀ b, RulesInv (cp_await (RtSave (cp_camera s) b) (upd_cp_saving true s))).
  { intros b. constructor; simpl; [done|done|done|]. by rewrite saves_app, H4. }
  destruct (cp_editingId s) as [id|]; [destruct (truthy_str id)|]; (split; [apply Hinv|by apply Forall_singleton]).
Qed.

Lemma rules_resume_ok t r s i :
  cp_tasks s !! i = Some t → RulesInv s → rules_reply_ok (RSettles i r) →
  RulesInv (rules_resume t r (upd_cp_tasks (delete i (cp_tasks s)) s)).1.
Proof.
  intros Hi [H1 H2 H3 H4] Hr. pose proof (saves_delete _ _ _ Hi) as Hd. rewrite H4 in Hd.
  pose proof empty_form_ok. destruct t, r; simpl in Hr, Hd |- *; try match type of Hr with _ ∧ _ => destruct Hr as [Hr1 Hr2] end;
    constructor; simpl; try done; rewrite ?saves_app; simpl; destruct (cp_saving s); lia.
Qed.

Lemma rules_step_ok e s :
  RulesInv s → rules_reply_ok e → RulesInv (rules_step e s).1 ∧ Forall rules_call_ok (rules_step e s).2.
Proof.
  intros H Hr. pose proof H as [[F1 F2] H2 H3 H4]. pose proof empty_form_ok as E.
  destruct e; cbn [rules_step].
  - split; [|constructor]. by destruct (cp_showForm s).
  - split; [|constructor]. by destruct (cp_showForm s).
  - split; [|constructor]. destruct (find_where _ _) as [r|] eqn:Er; [|done]. apply find_where_Some in Er as [_ Er].
    rewrite Forall_forall in H2. specialize (H2 _ Er). constructor; simpl; [done| |done|done]. by destruct H as [_ ? _ _].
  - destruct (_ && _); [|by split]. split; [|by repeat constructor]. constructor; simpl; [done|done|done|]. rewrite saves_app, H4. simpl. lia.
  - destruct (cp_showForm s && negb (cp_saving s)) eqn:Eg; [|by split]. apply andb_true_iff in Eg as [_ Eg]. apply negb_true_iff in Eg. by apply submit_ok.
  - split; [|constructor]. destruct (_ || _) eqn:Ez; [|done]. apply edit_form_inv; [done|]. split; [done|]. simpl. intros [= ->].
    apply orb_true_iff in Ez as [Ez|Ez]; [done|]. apply existsb_exists in Ez as (z & Hz & Ez). apply String.eqb_eq in Ez.
    rewrite Forall_forall in H3. by apply (H3 z); [apply list_elem_of_In|].
  - split; [|constructor]. apply edit_form_inv; [done|]. split; [|done]. destruct no_go; simpl; [by right; left|by left].
  - split; [|constructor]. destruct (_ && _); [|done]. by apply edit_form_inv.
  - split; [|constructor]. by apply edit_form_inv.
  - split; [|constructor]. by apply edit_form_inv.
  - split; [|constructor]. by apply edit_form_inv.
  - destruct (cp_tasks s !! i) as [t|] eqn:Et; [|by split]. split; [by apply rules_resume_ok|]. destruct t, r; by repeat constructor.
  - destruct (cp_timers s); by split.
  - destruct (String.eqb _ _); [by split|]. split; [|by repeat constructor]. constructor; simpl; [done|done|done|]. rewrite saves_app, H4. simpl. lia.
Qed.

(** Whatever is clicked, typed and answered: every rule the panel creates or updates
    passes the server's check, and the save button is disabled exactly while a save or its
    reload is under way, never two of them. *)
Theorem rules_accepted es camera :
  Forall rules_reply_ok es →
  let r := rules_run es (mount_rules camera).1 in
  Forall rules_call_ok r.2 ∧
  length (filter_where is_saving_task (cp_tasks r.1)) = if cp_saving r.1 then 1%nat else 0%nat.
Proof.
  intros Hes r. enough (H : RulesInv r.1 ∧ Forall rules_call_ok r.2) by (destruct H as [[_ _ _ Hd] Hc]; by split).
  subst r. induction es as [|e es IH] using rev_ind.
  - split; [|constructor]. constructor; simpl; [apply empty_form_ok|done|done|done].
  - apply Forall_app in Hes as [Hes He]. apply Forall_cons in He as [He _]. destruct (IH Hes) as [H1 H2]. rewrite rules_run_snoc.
    pose proof (rules_step_ok e _ H1 He) as [H3 H4]. split; [done|]. by apply Forall_app.
Qed.

Definition hat_rule : ComplianceRule := mkCRule "r1" "c1" (Some "z1") (Some "Gate") "ppe_required" ["no-hat"] true false None None "t".
Definition vest_rule : ComplianceRule := mkCRule "r2" "c1" (Some "z1") (Some "Gate") "ppe_required" ["no-vest"] true false None None "t".
Definition rules_loaded : RulesPanel := (rules_run [RSettles 0 (inr ([hat_rule; vest_rule], [gate_zone]))] (mount_rules "c1").1).1.
Definition create_events : list RulesEvent :=
  [RSettles 0 (inr ([hat_rule; vest_rule], [gate_zone])); RNew; RSubmit; RZone "z1"; RSubmit; RClass "no-hat"; RSubmit; RSubmit].

Lemma rules_accepted_witness :
  let r := rules_run create_events (mount_rules "c1").1 in
  r.2 = [CallCreateRule "c1" (mkCCreate (Some "z1") "ppe_required" ["no-hat"] true false None None)] ∧
  Forall rules_call_ok r.2 ∧ length (filter_where is_saving_task (cp_tasks r.1)) = 1%nat.
Proof.
  assert (H : Forall rules_reply_ok create_events).
  { apply Forall_cons. split; [|by repeat constructor]. split; [|by apply Forall_singleton].
    repeat (apply Forall_cons; split); try (by constructor); (split; [by left|discriminate]). }
  destruct (rules_accepted create_events "c1" H) as [H1 H2]. split_and!; [vm_compute; reflexivity|exact H1|exact H2].
Defined.

(** *** Replies and timers *)

(** While a save is under way the form can be cancelled and another rule opened; the
    reply to the save then empties and closes that form. *)
Theorem save_closes_other_edit s r edits :
  find_where (is_rule (cr_id r)) (cp_rules s) = Some r → cp_showForm s = true → cp_saving s = false →
  (handleSubmit s).2 ≠ [] →
  Forall (λ e, match e with RNotes _ | RSiteWide _ | REnabled _ | RType _ => True | _ => False end) edits →
  let s1 := (rules_run ([RSubmit; RCancel; REdit (cr_id r)] ++ edits)%list s).1 in
  let s2 := (rules_step (RSettles (length (cp_tasks s)) (inr ([], []))) s1).1 in
  cp_editingId s1 = Some (cr_id r) ∧ cp_showForm s1 = true ∧
  cp_editingId s2 = None ∧ cp_showForm s2 = false ∧ cp_form s2 = emptyCreate ∧
  (rules_step (RSettles (length (cp_tasks s)) (inr ([], []))) s1).2 = [CallLoadRules (cp_camera s)].
Proof.
  intros Hr Hsh Hsv Hcall Hed s1 s2.
  assert (Hsub : ∃ b, (handleSubmit s).1 = cp_await (RtSave (cp_camera s) b) (upd_cp_saving true s)).
  { unfold handleSubmit in *. destruct (negb _); [done|]. destruct (_ && _); [done|]. destruct (cp_editingId s) as [id|]; [destruct (truthy_str id)|]; by eexists. }
  destruct Hsub as [b Hsub].
  assert (H : cp_editingId s1 = Some (cr_id r) ∧ cp_showForm s1 = true ∧ cp_camera s1 = cp_camera s ∧
    cp_tasks s1 = (cp_tasks s ++ [RtSave (cp_camera s) b])%list).
  { subst s1. induction edits as [|e edits IH] using rev_ind.
    - rewrite app_nil_r. unfold rules_run. cbn [foldl fst]. cbn [rules_step]. rewrite Hsh, Hsv. cbn [andb negb fst]. rewrite Hsub. simpl. rewrite Hsh. simpl. by rewrite Hr.
    - apply Forall_app in Hed as [Hed He]. apply Forall_cons in He as [He _]. rewrite app_assoc, rules_run_snoc. cbn [fst].
      destruct (IH Hed) as (I1 & I2 & I3 & I4). set (u := (rules_run _ s).1) in *. destruct e; try done; cbn [rules_step fst]; unfold edit_form; rewrite I2; by split_and!. }
  destruct H as (H1 & H2 & H3 & H4). subst s2. cbn [rules_step]. rewrite H4, list_lookup_middle by done. by split_and!.
Qed.

Lemma save_closes_other_edit_witness :
  let s := (rules_run [REdit "r1"] rules_loaded).1 in
  let s1 := (rules_run [RSubmit; RCancel; REdit "r2"; RNotes "night shift"] s).1 in
  let s2 := (rules_step (RSettles 0 (inr ([], []))) s1).1 in
  cp_editingId s1 = Some "r2" ∧ cc_notes (cp_form s1) = Some "night shift" ∧ cp_showForm s2 = false ∧ cp_form s2 = emptyCreate.
Proof.
  destruct (save_closes_other_edit (rules_run [REdit "r1"] rules_loaded).1 vest_rule [RNotes "night shift"]) as (H1 & _ & _ & H4 & H5 & _);
    [reflexivity|reflexivity|reflexivity|vm_compute; discriminate|by repeat constructor|].
  split_and!; [exact H1|reflexivity|exact H4|exact H5].
Defined.

(** A message starts a timer without stopping the one before: of two messages the first
    timer clears the second, and a rule that was saved reports failure when only its reload
    fails. *)
Theorem messages_cut_short s m1 m2 e1 e2 c editing m :
  let two := flash m2 e2 (flash m1 e1 s) in
  let s' := (rules_step RTimer two).1 in
  cp_error s' = None ∧ cp_success s' = None ∧ cp_timers s' = S (cp_timers s) ∧
  (m ≠ EmptyString →
   let saved := (rules_resume (RtSave c editing) (inr ([], [])) s).1 in
   cp_success saved = Some (if editing then "Rule updated." else "Rule created.") ∧
   cp_error (rules_resume RtSaveLoad (inl m) saved).1 = Some m).
Proof.
  cbn zeta. split_and!; [done|done|done|]. intros Hm. split; [done|]. simpl.
  replace (truthy_str m) with true; [done|]. unfold truthy_str. by rewrite (proj2 (String.eqb_neq _ _) Hm).
Qed.

Lemma messages_cut_short_witness :
  let saved := (rules_resume (RtSave "c1" true) (inr ([], [])) rules_loaded).1 in
  cp_success saved = Some "Rule updated." ∧ cp_error (rules_resume RtSaveLoad (inl "Failed to fetch") saved).1 = Some "Failed to fetch".
Proof. apply (messages_cut_short rules_loaded "a" "b" true true "c1" true "Failed to fetch"). discriminate. Defined.
