(* ===== verification/Support.v ===== *)
(** * The support widget

    [components/portal/SupportWidget.tsx]: the customer's tickets with the security
    operations centre, the badge of unread replies, a new message, and the open thread with
    its replies.  A request is a task until its reply, in any order; a timer tick is an
    event. *)

From S2P Require Import Prelude Types Http Hooks.
From stdpp Require Import pretty.
#[local] Open Scope string_scope.
#[local] Open Scope Z_scope.

Record Ticket := mkTicket {
  tk_id : Z;
  tk_organization_id : string;
  tk_site_id : string;
  tk_created_by_name : string;
  tk_subject : string;
  tk_status : string;
  tk_created_at : string;
  tk_last_message_at : string;
  tk_last_message_by : string;
  tk_message_count : Z
}.

Record TicketMessage := mkTicketMessage {
  tm_id : Z;
  tm_ticket_id : Z;
  tm_author_id : string;
  tm_author_name : string;
  tm_author_role : string;
  tm_body : string;
  tm_created_at : string
}.

Record ThreadResponse := mkThread { tr_ticket : Ticket; tr_messages : list TicketMessage }.

Inductive SupportView := sv_list | sv_compose | sv_thread (id : Z).

Inductive SupportCall :=
| GetTickets
| PostTicket (subject body : string)
| GetThread (id : Z)
| PostMessage (id : Z) (body : string)
| PatchTicket (id : Z) (status : string).

(** Where a request's continuation waits.  [StLoad gen id]: a load of the thread effect's
    run [gen]; the others are the steps of sending a ticket, a reply and a status. *)
Inductive SupportTask :=
| StReload
| StLoad (gen : nat) (id : Z)
| StNew | StNewReload (id : Z)
| StReply (id : Z) | StReplyLoad (id : Z)
| StPatch (id : Z) | StPatchLoad (id : Z) | StPatchReload.

Inductive SupportReply :=
| RpError (msg : string)
| RpTickets (l : option (list Ticket))
| RpThread (d : ThreadResponse)
| RpTicket (t : Ticket)
| RpDone.

(** [sw_gen] counts the runs of the thread effect; [sw_seen] is the text under [READ_KEY]. *)
Record SupportState := mkSupport {
  sw_open : bool;
  sw_view : SupportView;
  sw_tickets : list Ticket;
  sw_thread : option ThreadResponse;
  sw_draft : string;
  sw_subject : string;
  sw_busy : bool;
  sw_err : string;
  sw_seen : option string;
  sw_gen : nat;
  sw_tasks : list SupportTask
}.

Definition upd_sw_view (o : bool) (v : SupportView) (g : nat) (s : SupportState) : SupportState :=
  mkSupport o v (sw_tickets s) (sw_thread s) (sw_draft s) (sw_subject s) (sw_busy s) (sw_err s) (sw_seen s) g (sw_tasks s).
Definition upd_sw_tickets (l : list Ticket) (s : SupportState) : SupportState :=
  mkSupport (sw_open s) (sw_view s) l (sw_thread s) (sw_draft s) (sw_subject s) (sw_busy s) (sw_err s) (sw_seen s) (sw_gen s) (sw_tasks s).
Definition upd_sw_thread (d : option ThreadResponse) (s : SupportState) : SupportState :=
  mkSupport (sw_open s) (sw_view s) (sw_tickets s) d (sw_draft s) (sw_subject s) (sw_busy s) (sw_err s) (sw_seen s) (sw_gen s) (sw_tasks s).
Definition upd_sw_text (draft subject : string) (s : SupportState) : SupportState :=
  mkSupport (sw_open s) (sw_view s) (sw_tickets s) (sw_thread s) draft subject (sw_busy s) (sw_err s) (sw_seen s) (sw_gen s) (sw_tasks s).
Definition upd_sw_busy (b : bool) (e : string) (s : SupportState) : SupportState :=
  mkSupport (sw_open s) (sw_view s) (sw_tickets s) (sw_thread s) (sw_draft s) (sw_subject s) b e (sw_seen s) (sw_gen s) (sw_tasks s).
Definition upd_sw_seen (v : option string) (s : SupportState) : SupportState :=
  mkSupport (sw_open s) (sw_view s) (sw_tickets s) (sw_thread s) (sw_draft s) (sw_subject s) (sw_busy s) (sw_err s) v (sw_gen s) (sw_tasks s).
Definition upd_sw_tasks (t : list SupportTask) (s : SupportState) : SupportState :=
  mkSupport (sw_open s) (sw_view s) (sw_tickets s) (sw_thread s) (sw_draft s) (sw_subject s) (sw_busy s) (sw_err s) (sw_seen s) (sw_gen s) t.
Definition sw_await (t : SupportTask) (s : SupportState) : SupportState := upd_sw_tasks (sw_tasks s ++ [t])%list s.

(** Whether the widget is there at all ([hideForRole]). *)
Definition widget_shown (isAuthenticated : bool) (role : option string) : bool :=
  isAuthenticated && negb (bool_decide (role = Some "soc_operator")).

(** Mounting starts the first [reload]. *)
Definition mount_support (seen : option string) : SupportState * list SupportCall :=
  (mkSupport false sv_list [] None EmptyString EmptyString false EmptyString seen 0 [StReload], [GetTickets]).

(** [setView]: a thread is a new object each time, so its effect runs anew and loads. *)
Definition setView (v : SupportView) (s : SupportState) : SupportState * list SupportCall :=
  match v, sw_view s with
  | sv_thread id, _ => (sw_await (StLoad (S (sw_gen s)) id) (upd_sw_view (sw_open s) v (S (sw_gen s)) s), [GetThread id])
  | sv_list, sv_list | sv_compose, sv_compose => (s, [])
  | _, _ => (upd_sw_view (sw_open s) v (S (sw_gen s)) s, [])
  end.

Section clock.
Context (date_ms : string → option Z).     (* [new Date(iso).getTime()], [None] for NaN *)

Definition seenAt (s : SupportState) : option Z := Keyboard.parseInt (default "0" (sw_seen s)).

Definition is_unread (s : SupportState) (t : Ticket) : bool :=
  String.eqb (tk_last_message_by t) "soc" &&
  match date_ms (tk_last_message_at t), seenAt s with Some a, Some b => b <? a | _, _ => false end.

Definition unread (s : SupportState) : nat := length (filter_where (is_unread s) (sw_tickets s)).

Definition fmtRelative (now : Z) (iso : string) : string :=
  match date_ms iso with
  | None => EmptyString
  | Some d =>
      let diff := now - d in
      if diff <? 60000 then "just now"
      else
        let min := diff / 60000 in
        if min <? 60 then pretty min +:+ "m ago"
        else let hr := min / 60 in
             if hr <? 24 then pretty hr +:+ "h ago" else pretty (hr / 24) +:+ "d ago"
  end.
End clock.

Definition handleOpen (now : Z) (s : SupportState) : SupportState := upd_sw_seen (Some (pretty now)) (upd_sw_view true (sw_view s) (sw_gen s) s).

Definition handleSendNew (s : SupportState) : SupportState * list SupportCall :=
  if negb (truthy_str (trim (sw_subject s))) || negb (truthy_str (trim (sw_draft s))) then (s, [])
  else (sw_await StNew (upd_sw_busy true EmptyString s), [PostTicket (trim (sw_subject s)) (trim (sw_draft s))]).

Definition handleReply (s : SupportState) : SupportState * list SupportCall :=
  match sw_view s with
  | sv_thread id =>
      if negb (truthy_str (trim (sw_draft s))) then (s, [])
      else (sw_await (StReply id) (upd_sw_busy true EmptyString s), [PostMessage id (trim (sw_draft s))])
  | _ => (s, [])
  end.

Definition handleUpdateStatus (id : Z) (status : string) (s : SupportState) : SupportState * list SupportCall :=
  (sw_await (StPatch id) (upd_sw_busy true EmptyString s), [PatchTicket id status]).

Definition sup_failed (msg : string) (s : SupportState) : SupportState := upd_sw_busy false msg s.

(** What [reload] makes of its reply; it never rejects. *)
Definition reloaded (r : SupportReply) (s : SupportState) : SupportState :=
  match r with
  | RpTickets l => upd_sw_tickets (default [] l) s
  | RpError m => upd_sw_busy (sw_busy s) m s
  | _ => s
  end.

(** A continuation with its reply; replies of another request do not occur. *)
Definition support_resume (t : SupportTask) (r : SupportReply) (s : SupportState) : SupportState * list SupportCall :=
  match t, r with
  | StReload, _ => (reloaded r s, [])
  | StLoad g _, RpThread d => (if Nat.eqb g (sw_gen s) then upd_sw_thread (Some d) s else s, [])
  | StLoad g _, RpError m => (if Nat.eqb g (sw_gen s) then upd_sw_busy (sw_busy s) m s else s, [])
  | StNew, RpTicket t => (sw_await (StNewReload (tk_id t)) (upd_sw_text EmptyString EmptyString s), [GetTickets])
  | StNewReload id, _ => let q := setView (sv_thread id) (reloaded r s) in (upd_sw_busy false (sw_err q.1) q.1, q.2)
  | StReply id, RpDone => (sw_await (StReplyLoad id) (upd_sw_text EmptyString (sw_subject s) s), [GetThread id])
  | StReplyLoad _, RpThread d => (upd_sw_busy false (sw_err s) (upd_sw_thread (Some d) s), [])
  | StPatch id, RpDone => (sw_await (StPatchLoad id) s, [GetThread id])
  | StPatchLoad _, RpThread d => (sw_await StPatchReload (upd_sw_thread (Some d) s), [GetTickets])
  | StPatchReload, _ => let q := reloaded r s in (upd_sw_busy false (sw_err q) q, [])
  | (StNew | StReply _ | StReplyLoad _ | StPatch _ | StPatchLoad _), RpError m => (sup_failed m s, [])
  | _, _ => (s, [])
  end.

Inductive SupportEvent :=
| SupOpen (now : Z) | SupClose | SupBack | SupNew | SupPick (id : Z)
| SupSubject (v : string) | SupDraft (v : string)
| SupSendNew | SupSendReply | SupStatus
| SupTick | ThreadTick
| SupSettles (i : nat) (r : SupportReply).

(** Whether a reply answers the request of its task. *)
Definition fits (t : SupportTask) (r : SupportReply) : bool :=
  match t, r with
  | _, RpError _ => true
  | (StReload | StNewReload _ | StPatchReload), RpTickets _ => true
  | (StLoad _ _ | StReplyLoad _ | StPatchLoad _), RpThread _ => true
  | StNew, RpTicket _ => true
  | (StReply _ | StPatch _), RpDone => true
  | _, _ => false
  end.

(** The controls of each view; a thread's are there once it is loaded. *)
Definition support_step (e : SupportEvent) (s : SupportState) : SupportState * list SupportCall :=
  match e with
  | SupOpen now => (if sw_open s then s else handleOpen now s, [])
  | SupClose => (if sw_open s then upd_sw_view false (sw_view s) (sw_gen s) s else s, [])
  | SupBack =>
      match sw_view s with
      | sv_list => (s, [])
      | _ => if sw_open s then let q := setView sv_list s in (upd_sw_text EmptyString (sw_subject s) (upd_sw_thread None q.1), q.2) else (s, [])
      end
  | SupNew => match sw_view s with sv_list => if sw_open s then setView sv_compose s else (s, []) | _ => (s, []) end
  | SupPick id =>
      match sw_view s with
      | sv_list => if sw_open s && existsb (λ t, tk_id t =? id) (sw_tickets s) then setView (sv_thread id) s else (s, [])
      | _ => (s, [])
      end
  | SupSubject v => (match sw_view s with sv_compose => if sw_open s then upd_sw_text (sw_draft s) v s else s | _ => s end, [])
  | SupDraft v =>
      match sw_view s, sw_thread s with
      | sv_compose, _ | sv_thread _, Some _ => (if sw_open s then upd_sw_text v (sw_subject s) s else s, [])
      | _, _ => (s, [])
      end
  | SupSendNew => match sw_view s with sv_compose => if sw_open s && negb (sw_busy s) then handleSendNew s else (s, []) | _ => (s, []) end
  | SupSendReply =>
      match sw_view s, sw_thread s with
      | sv_thread _, Some _ => if sw_open s && negb (sw_busy s) then handleReply s else (s, [])
      | _, _ => (s, [])
      end
  | SupStatus =>
      match sw_view s, sw_thread s with
      | sv_thread _, Some d =>
          if sw_open s && negb (sw_busy s)
          then handleUpdateStatus (tk_id (tr_ticket d)) (if String.eqb (tk_status (tr_ticket d)) "closed" then "open" else "closed") s else (s, [])
      | _, _ => (s, [])
      end
  | SupTick => (sw_await StReload s, [GetTickets])
  | ThreadTick => match sw_view s with sv_thread id => (sw_await (StLoad (sw_gen s) id) s, [GetThread id]) | _ => (s, []) end
  | SupSettles i r =>
      match sw_tasks s !! i with
      | Some t => if fits t r then support_resume t r (upd_sw_tasks (delete i (sw_tasks s)) s) else (s, [])
      | None => (s, [])
      end
  end.

Definition support_run (es : list SupportEvent) (s : SupportState) : SupportState * list SupportCall :=
  foldl (λ p e, let r := support_step e p.1 in (r.1, p.2 ++ r.2)%list) (s, []) es.

(** ** Theorems *)

Lemma support_run_snoc es e s :
  support_run (es ++ [e])%list s =
  ((support_step e (support_run es s).1).1, ((support_run es s).2 ++ (support_step e (support_run es s).1).2)%list).
Proof. unfold support_run. by rewrite foldl_app. Qed.

(** *** One request at a time *)

Definition is_chain (t : SupportTask) : bool := match t with StReload | StLoad _ _ => false | _ => true end.
Definition chains (l : list SupportTask) : nat := length (filter_where is_chain l).

Lemma chains_app l t : chains (l ++ [t])%list = (chains l + if is_chain t then 1 else 0)%nat.
Proof. apply length_filter_snoc. Qed.

Lemma chains_delete l i t : l !! i = Some t → chains l = (chains (delete i l) + if is_chain t then 1 else 0)%nat.
Proof. apply length_filter_delete. Qed.

Definition busy_ok (s : SupportState) : Prop := chains (sw_tasks s) = if sw_busy s then 1%nat else 0%nat.

Definition post_ok (c : SupportCall) : Prop :=
  match c with
  | PostTicket subject body => truthy_str subject = true ∧ truthy_str body = true
  | PostMessage _ body => truthy_str body = true
  | _ => True
  end.

Lemma setView_ok v s : chains (sw_tasks (setView v s).1) = chains (sw_tasks s) ∧ sw_busy (setView v s).1 = sw_busy s ∧ Forall post_ok (setView v s).2.
Proof.
  unfold setView. destruct v; simpl; [by destruct (sw_view s)|by destruct (sw_view s)|].
  rewrite chains_app. simpl. split_and!; [lia|done|by repeat constructor].
Qed.

Lemma reloaded_ok r s : sw_tasks (reloaded r s) = sw_tasks s ∧ sw_busy (reloaded r s) = sw_busy s.
Proof. by destruct r. Qed.

(** Starting a chain, with the buttons enabled. *)
Lemma start_ok t s : is_chain t = true → busy_ok s → sw_busy s = false → busy_ok (sw_await t (upd_sw_busy true EmptyString s)).
Proof. unfold busy_ok. intros Ht H Hb. simpl. rewrite chains_app, H, Hb, Ht. done. Qed.

Lemma support_resume_ok t r s i :
  sw_tasks s !! i = Some t → fits t r = true → busy_ok s →
  let q := support_resume t r (upd_sw_tasks (delete i (sw_tasks s)) s) in busy_ok q.1 ∧ Forall post_ok q.2.
Proof.
  intros Hi Hf H q. pose proof (chains_delete _ _ _ Hi) as Hd. unfold busy_ok in *. rewrite H in Hd. clear H.
  subst q. set (u := upd_sw_tasks (delete i (sw_tasks s)) s).
  assert (Hu : chains (sw_tasks u) = chains (delete i (sw_tasks s)) ∧ sw_busy u = sw_busy s) by done. destruct Hu as [Hu1 Hu2].
  revert Hu1 Hu2. generalize u. clear u. intros u Hu1 Hu2. rewrite <- Hu1, <- Hu2 in Hd.
  destruct t; simpl in Hd |- *.
  - destruct (reloaded_ok r u) as [-> ->]. split; [lia|constructor].
  - destruct r; try done; (destruct (Nat.eqb _ _)); (split; [simpl; lia|constructor]).
  - destruct r; try done; (split; [simpl; rewrite ?chains_app; simpl; destruct (sw_busy u); lia|by repeat constructor]).
  - destruct (reloaded_ok r u) as [R1 R2]. split; [|by repeat constructor].
    rewrite R1, chains_app. simpl. destruct (sw_busy u); lia.
  - destruct r; try done; (split; [simpl; rewrite ?chains_app; simpl; destruct (sw_busy u); lia|by repeat constructor]).
  - destruct r; try done; (split; [simpl; rewrite ?chains_app; simpl; destruct (sw_busy u); lia|by repeat constructor]).
  - destruct r; try done; (split; [simpl; rewrite ?chains_app; simpl; destruct (sw_busy u); lia|by repeat constructor]).
  - destruct r; try done; (split; [simpl; rewrite ?chains_app; simpl; destruct (sw_busy u); lia|by repeat constructor]).
  - destruct (reloaded_ok r u) as [R1 R2]. split; [|constructor]. simpl. rewrite R1. destruct (sw_busy u); lia.
Qed.

Lemma support_step_ok e s : busy_ok s → busy_ok (support_step e s).1 ∧ Forall post_ok (support_step e s).2.
Proof.
  intros H. assert (Hkeep : ∀ q, chains (sw_tasks q) = chains (sw_tasks s) → sw_busy q = sw_busy s → busy_ok q).
  { intros q H1 H2. unfold busy_ok. by rewrite H1, H2. }
  destruct e; cbn [support_step].
  - split; [|constructor]. by destruct (sw_open s).
  - split; [|constructor]. by destruct (sw_open s).
  - destruct (setView_ok sv_list s) as (V1 & V2 & V3).
    destruct (sw_view s); [by split| |]; (destruct (sw_open s); [|by split]); (split; [by apply Hkeep|exact V3]).
  - destruct (setView_ok sv_compose s) as (V1 & V2 & V3). destruct (sw_view s); [|by split|by split]. destruct (sw_open s); [|by split]. split; [by apply Hkeep|exact V3].
  - destruct (setView_ok (sv_thread id) s) as (V1 & V2 & V3). destruct (sw_view s); [|by split|by split]. destruct (_ && _); [|by split]. split; [by apply Hkeep|exact V3].
  - split; [|constructor]. destruct (sw_view s); try done. by destruct (sw_open s).
  - split; [|by destruct (sw_view s), (sw_thread s)]. destruct (sw_view s), (sw_thread s); try done; by destruct (sw_open s).
  - destruct (sw_view s); [by split| |by split]. destruct (sw_open s && negb (sw_busy s)) eqn:Eb; [|by split]. apply andb_true_iff in Eb as [_ Eb]. apply negb_true_iff in Eb.
    unfold handleSendNew. destruct (truthy_str (trim (sw_subject s))) eqn:E1; simpl; [|by split]. destruct (truthy_str (trim (sw_draft s))) eqn:E2; simpl; [|by split].
    split; [by apply start_ok|by repeat constructor].
  - destruct (sw_view s) eqn:Ev; [by split|by split|]. destruct (sw_thread s); [|by split]. destruct (sw_open s && negb (sw_busy s)) eqn:Eb; [|by split]. apply andb_true_iff in Eb as [_ Eb]. apply negb_true_iff in Eb.
    unfold handleReply. rewrite Ev. destruct (truthy_str (trim (sw_draft s))) eqn:E2; simpl; [|by split]. split; [by apply start_ok|by repeat constructor].
  - destruct (sw_view s); [by split|by split|]. destruct (sw_thread s); [|by split]. destruct (sw_open s && negb (sw_busy s)) eqn:Eb; [|by split]. apply andb_true_iff in Eb as [_ Eb]. apply negb_true_iff in Eb.
    split; [by apply start_ok|by repeat constructor].
  - split; [|by repeat constructor]. apply Hkeep; [simpl; rewrite chains_app; simpl; lia|done].
  - destruct (sw_view s); [by split|by split|]. split; [|by repeat constructor]. apply Hkeep; [simpl; rewrite chains_app; simpl; lia|done].
  - destruct (sw_tasks s !! i) as [t|] eqn:Et; [|by split]. destruct (fits t r) eqn:Ef; [|by split]. by apply support_resume_ok.
Qed.

(** The send and status buttons are disabled exactly while one ticket, reply or status
    change is on its way, never two; and nothing blank is sent. *)
Theorem one_send_at_a_time es seen :
  let r := support_run es (mount_support seen).1 in
  chains (sw_tasks r.1) = (if sw_busy r.1 then 1%nat else 0%nat) ∧ Forall post_ok r.2.
Proof.
  intros r. enough (H : busy_ok r.1 ∧ Forall post_ok r.2) by exact H. subst r. induction es as [|e es [H1 H2]] using rev_ind.
  - split; [done|constructor].
  - rewrite support_run_snoc. destruct (support_step_ok e _ H1) as [H3 H4]. split; [done|]. by apply Forall_app.
Qed.

(** *** Threads and their replies *)

(** Reading: no ticket, reply or status is sent. *)
Definition reading (e : SupportEvent) : Prop := match e with SupSendNew | SupSendReply | SupStatus => False | _ => True end.

(** The server answers a thread request with that thread. *)
Definition honest (s : SupportState) (e : SupportEvent) : Prop :=
  match e with
  | SupSettles i (RpThread d) =>
      match sw_tasks s !! i with Some (StLoad _ id) => tk_id (tr_ticket d) = id | _ => True end
  | _ => True
  end.

Fixpoint honest_run (es : list SupportEvent) (s : SupportState) : Prop :=
  match es with [] => True | e :: r => honest s e ∧ honest_run r (support_step e s).1 end.

Record reading_inv (s : SupportState) : Prop := mkReading {
  rd_thread : ∀ d, sw_thread s = Some d → sw_view s = sv_thread (tk_id (tr_ticket d));
  rd_loads : ∀ g id, StLoad g id ∈ sw_tasks s → (g ≤ sw_gen s)%nat ∧ (g = sw_gen s → sw_view s = sv_thread id);
  rd_quiet : ∀ t, t ∈ sw_tasks s → is_chain t = false
}.

Lemma reading_await s t : is_chain t = false → (∀ g id, t = StLoad g id → g = sw_gen s ∧ sw_view s = sv_thread id) → reading_inv s → reading_inv (sw_await t s).
Proof.
  intros Hc Ht [H1 H2 H3]. constructor; simpl; [done| |].
  - intros g id [Hin|Hin%list_elem_of_singleton]%elem_of_app; [by apply H2|]. destruct (Ht g id (eq_sym Hin)) as [-> ->]. by split.
  - intros t' [Hin|Hin%list_elem_of_singleton]%elem_of_app; [by apply H3|]. by subst.
Qed.

(** Another view: earlier loads belong to earlier runs. *)
Lemma reading_view s o v : reading_inv s → sw_thread s = None → reading_inv (upd_sw_view o v (S (sw_gen s)) s).
Proof.
  intros [H1 H2 H3] Hn. constructor; simpl; [by rewrite Hn| |done]. intros g id Hin. destruct (H2 g id Hin). split; [lia|intros; lia].
Qed.

Lemma reading_step e s : reading e → honest s e → reading_inv s → reading_inv (support_step e s).1.
Proof.
  intros He Hh H. pose proof H as [H1 H2 H3].
  assert (Hnone : ∀ v, sw_view s = v → (∀ id, v ≠ sv_thread id) → sw_thread s = None).
  { intros v Hv Hne. destruct (sw_thread s) as [d|] eqn:Ed; [|done]. specialize (H1 d eq_refl). rewrite Hv in H1. by destruct (Hne (tk_id (tr_ticket d))). }
  destruct e; try done; cbn [support_step].
  - by destruct (sw_open s).
  - by destruct (sw_open s).
  - destruct (sw_view s) eqn:Ev; [done| |]; (destruct (sw_open s); [|done]); unfold setView; rewrite Ev;
      (constructor; simpl; [done| |done]); intros g id' Hin; destruct (H2 g id' Hin); (split; [lia|intros; lia]).
  - destruct (sw_view s) eqn:Ev; [|done|done]. destruct (sw_open s); [|done]. unfold setView. rewrite Ev. apply reading_view; [done|]. by apply (Hnone sv_list).
  - destruct (sw_view s) eqn:Ev; [|done|done]. destruct (_ && _); [|done]. apply reading_await; [done|by intros g id' [= <- <-]|]. apply reading_view; [done|]. by apply (Hnone sv_list).
  - destruct (sw_view s); try done. destruct (sw_open s); by destruct H.
  - destruct (sw_view s), (sw_thread s); try done; destruct (sw_open s); by destruct H.
  - by apply reading_await.
  - destruct (sw_view s) eqn:Ev; [done|done|]. apply reading_await; [done|by intros g id' [= <- <-]|done].
  - destruct (sw_tasks s !! i) as [t|] eqn:Et; [|done]. destruct (fits t r) eqn:Ef; [|done].
    assert (Hin : ∀ x, x ∈ delete i (sw_tasks s) → x ∈ sw_tasks s).
    { intros x. apply elem_of_delete_1. }
    pose proof (H3 t (list_elem_of_lookup_2 _ _ _ Et)) as Hq.
    assert (Hd : reading_inv (upd_sw_tasks (delete i (sw_tasks s)) s)).
    { constructor; simpl; [done| |]; intros; [apply H2|apply H3]; by apply Hin. }
    set (u := upd_sw_tasks (delete i (sw_tasks s)) s) in *. destruct t as [|g id| | | | | | |]; try done.
    + simpl. destruct r; by destruct Hd.
    + simpl. destruct r as [m|l|d|tk|]; try done; (destruct (Nat.eqb_spec g (sw_gen s)) as [->|]; [|done]).
      * by destruct Hd.
      * simpl in Hh. rewrite Et in Hh. constructor; simpl; [|by destruct Hd|by destruct Hd]. intros d' [= <-]. rewrite Hh.
        by apply (H2 (sw_gen s) id (list_elem_of_lookup_2 _ _ _ Et)).
Qed.

(** While the customer only reads, the conversation shown is the one opened, whatever
    replies are late: the loads of a view that was left are ignored. *)
Theorem thread_matches_view es seen d :
  Forall reading es → honest_run es (mount_support seen).1 →
  let s := (support_run es (mount_support seen).1).1 in
  sw_thread s = Some d → sw_view s = sv_thread (tk_id (tr_ticket d)).
Proof.
  intros Hes Hh s. enough (H : reading_inv s) by apply H. subst s.
  assert (H0 : reading_inv (mount_support seen).1).
  { constructor; simpl; [done| |]; [intros g id Hin%list_elem_of_singleton; done|by intros t ->%list_elem_of_singleton]. }
  unfold support_run. revert H0 Hh. generalize (mount_support seen).1 as s. generalize (@nil SupportCall) as cs.
  induction Hes as [|e es He Hes IH]; intros cs s H0 Hh; [done|]. destruct Hh as [Hh1 Hh2]. simpl. apply IH; [|done]. by apply reading_step.
Qed.

Definition ticket (id : Z) (by_ at_ : string) : Ticket := mkTicket id "o1" "s1" "Ann" "Gate" "open" "t0" at_ by_ 1.
Definition thread_of (id : Z) : ThreadResponse := mkThread (ticket id "customer" "t0") [].
Definition late_load : list SupportEvent :=
  [SupSettles 0 (RpTickets (Some [ticket 1 "soc" "t1"; ticket 2 "soc" "t2"])); SupOpen 5; SupPick 1; SupBack; SupPick 2; SupSettles 1 (RpThread (thread_of 2));
   SupSettles 0 (RpThread (thread_of 1))].

Lemma thread_matches_view_witness :
  let s := (support_run late_load (mount_support None).1).1 in
  sw_thread s = Some (thread_of 2) ∧ sw_view s = sv_thread 2.
Proof.
  assert (E : sw_thread (support_run late_load (mount_support None).1).1 = Some (thread_of 2)) by (vm_compute; reflexivity).
  split; [exact E|]. apply (thread_matches_view late_load None (thread_of 2)); [by repeat constructor|by vm_compute|exact E].
Defined.

Lemma handleReply_sends q id : sw_view q = sv_thread id → truthy_str (trim (sw_draft q)) = true →
  handleReply q = (sw_await (StReply id) (upd_sw_busy true EmptyString q), [PostMessage id (trim (sw_draft q))]).
Proof. intros Hv Hd. unfold handleReply. by rewrite Hv, Hd. Qed.

Section other.
Context (s : SupportState) (a b : Z) (da db : ThreadResponse).
Hypothesis Hview : sw_view s = sv_thread a.
Hypothesis Hthread : sw_thread s = Some da.
Hypothesis Hopen : sw_open s = true.
Hypothesis Hbusy : sw_busy s = false.
Hypothesis Htasks : sw_tasks s = [].
Hypothesis Hb : existsb (λ t, tk_id t =? b) (sw_tickets s) = true.
Hypothesis Hdraft : truthy_str (trim (sw_draft s)) = true.

(** A reply is sent in one conversation, and another is opened and written in before the
    answers come. *)
Definition answer_elsewhere (text : string) : list SupportEvent :=
  [SupSendReply; SupBack; SupPick b; SupSettles 1 (RpThread db); SupDraft text; SupSettles 0 RpDone; SupSettles 0 (RpThread da)].

(** The reply's answers erase what is being written in the other conversation and put
    the first one on display under the other's view; the next reply then goes to the other
    conversation than the one shown. *)
Theorem reply_shows_other_thread text text2 :
  truthy_str (trim text2) = true →
  let r := support_run (answer_elsewhere text) s in
  sw_view r.1 = sv_thread b ∧ sw_thread r.1 = Some da ∧ sw_draft r.1 = EmptyString ∧
  r.2 = [PostMessage a (trim (sw_draft s)); GetThread b; GetThread a] ∧
  (support_run [SupDraft text2; SupSendReply] r.1).2 = [PostMessage b (trim text2)].
Proof.
  intros Ht2 r.
  set (st v th dr bu g ta := mkSupport true v (sw_tickets s) th dr (sw_subject s) bu EmptyString (sw_seen s) g ta).
  set (g1 := S (sw_gen s)). set (dr := trim (sw_draft s)).
  assert (E1 : support_step SupSendReply s = (st (sv_thread a) (Some da) (sw_draft s) true (sw_gen s) [StReply a], [PostMessage a dr])).
  { unfold support_step. rewrite Hview, Hthread, Hopen, Hbusy. cbn [andb negb]. rewrite (handleReply_sends s a Hview Hdraft). unfold sw_await, upd_sw_busy, upd_sw_tasks, st. cbn. by rewrite Hview, Hthread, Hopen, Htasks. }
  assert (E3 : support_step (SupPick b) (st sv_list None EmptyString true g1 [StReply a]) =
    (st (sv_thread b) None EmptyString true (S g1) [StReply a; StLoad (S g1) b], [GetThread b])).
  { unfold support_step, st. cbn [sw_view sw_open sw_tickets]. rewrite Hb. reflexivity. }
  assert (E4 : support_step (SupSettles 1 (RpThread db)) (st (sv_thread b) None EmptyString true (S g1) [StReply a; StLoad (S g1) b]) =
    (st (sv_thread b) (Some db) EmptyString true (S g1) [StReply a], [])).
  { unfold st. cbn -[Nat.eqb g1]. by rewrite Nat.eqb_refl. }
  assert (E : r = (st (sv_thread b) (Some da) EmptyString false (S g1) [], [PostMessage a dr; GetThread b; GetThread a])).
  { subst r. unfold support_run, answer_elsewhere. cbn [foldl fst snd]. rewrite E1. cbn [fst snd].
    change (support_step SupBack (st (sv_thread a) (Some da) (sw_draft s) true (sw_gen s) [StReply a])) with (st sv_list None EmptyString true g1 [StReply a], @nil SupportCall).
    cbn [fst snd]. rewrite E3. cbn [fst snd]. rewrite E4. reflexivity. }
  rewrite E. split_and!; try done. unfold support_run. cbn [foldl fst snd].
  change (support_step (SupDraft text2) (st (sv_thread b) (Some da) EmptyString false (S g1) [])) with (st (sv_thread b) (Some da) text2 false (S g1) [], @nil SupportCall).
  cbn [fst snd support_step st sw_view sw_thread sw_open sw_busy andb negb]. by rewrite (handleReply_sends _ b).
Qed.
End other.

Definition in_thread (id : Z) (draft : string) : SupportState :=
  mkSupport true (sv_thread id) [ticket 1 "soc" "t1"; ticket 2 "soc" "t2"] (Some (thread_of id)) draft EmptyString false EmptyString None 1 [].

Lemma reply_shows_other_thread_witness :
  let r := support_run (answer_elsewhere 2 (thread_of 1) (thread_of 2) "wait") (in_thread 1 "hello") in
  sw_view r.1 = sv_thread 2 ∧ sw_thread r.1 = Some (thread_of 1) ∧ sw_draft r.1 = EmptyString ∧
  (support_run [SupDraft "thanks"; SupSendReply] r.1).2 = [PostMessage 2 "thanks"].
Proof.
  destruct (reply_shows_other_thread (in_thread 1 "hello") 1 2 (thread_of 1) (thread_of 2) eq_refl eq_refl eq_refl eq_refl eq_refl eq_refl eq_refl "wait" "thanks" eq_refl)
    as (H1 & H2 & H3 & _ & H5).
  split_and!; [exact H1|exact H2|exact H3|exact H5].
Defined.

(** *** The badge and errors *)

Section badge.
Context (date_ms : string → option Z).

(** Opening the panel makes every message of the past read; a reply that arrives while
    the panel is open and its conversation on display counts as unread once it is closed. *)
Theorem badge_after_reading s now l :
  0 ≤ now → sw_open s = false →
  let opened := (support_step (SupOpen now) s).1 in
  let later := (support_run [SupTick; SupSettles (length (sw_tasks s)) (RpTickets (Some l)); SupClose] opened).1 in
  (Forall (λ t, match date_ms (tk_last_message_at t) with Some m => m ≤ now | None => True end) (sw_tickets s) → unread date_ms opened = 0%nat) ∧
  unread date_ms later = length (filter_where (λ t, String.eqb (tk_last_message_by t) "soc" &&
    match date_ms (tk_last_message_at t) with Some m => now <? m | None => false end) l) ∧ sw_open later = false.
Proof.
  intros Hnow Hop opened later.
  assert (Hseen : seenAt opened = Some now).
  { subst opened. simpl. rewrite Hop. unfold seenAt, handleOpen. simpl. by apply parse_pretty. }
  assert (Etick : (support_step SupTick opened).1 = sw_await StReload opened) by done.
  assert (Hlater : sw_tickets later = l ∧ sw_seen later = sw_seen opened ∧ sw_open later = false).
  { subst later. unfold support_run. cbn [foldl fst snd]. rewrite Etick.
    assert (Ht : sw_tasks opened = sw_tasks s) by (subst opened; simpl; by rewrite Hop).
    assert (Eset : (support_step (SupSettles (length (sw_tasks s)) (RpTickets (Some l))) (sw_await StReload opened)).1 =
      upd_sw_tickets l (upd_sw_tasks (delete (length (sw_tasks s)) (sw_tasks s ++ [StReload])%list) (sw_await StReload opened))).
    { cbn [support_step]. simpl. rewrite Ht, list_lookup_middle by done. done. }
    rewrite Eset. simpl. by destruct (sw_open opened) eqn:Eo; simpl; rewrite ?Eo. }
  destruct Hlater as (L1 & L2 & L3). split_and!; [| |done].
  - intros Hall. unfold unread. rewrite filter_where_nil; [done|]. intros t Ht. unfold is_unread. rewrite Hseen.
    assert (Hts : sw_tickets opened = sw_tickets s) by (subst opened; simpl; by rewrite Hop). rewrite Hts in Ht.
    rewrite Forall_forall in Hall. specialize (Hall t Ht). simpl in Hall. destruct (date_ms _) as [m|]; [|by rewrite andb_false_r].
    replace (now <? m) with false by lia. by rewrite andb_false_r.
  - unfold unread. rewrite L1. f_equal. apply list_filter_iff. intros t. unfold is_unread, seenAt. rewrite L2. fold (seenAt opened). rewrite Hseen. done.
Qed.
End badge.

Lemma badge_after_reading_witness :
  let date_ms t := if String.eqb t "t1" then Some 10 else if String.eqb t "t2" then Some 200 else None in
  let closed := upd_sw_view false sv_list 0 (in_thread 1 EmptyString) in
  let opened := (support_step (SupOpen 100) closed).1 in
  unread date_ms (support_run [SupTick; SupSettles 0 (RpTickets (Some [ticket 1 "soc" "t1"; ticket 2 "soc" "t2"])); SupClose] opened).1 = 1%nat.
Proof.
  cbv zeta. destruct (badge_after_reading (λ t, if String.eqb t "t1" then Some 10 else if String.eqb t "t2" then Some 200 else None)
    (upd_sw_view false sv_list 0 (in_thread 1 EmptyString)) 100 [ticket 1 "soc" "t1"; ticket 2 "soc" "t2"]) as (_ & H & _); [lia|reflexivity|].
  refine (eq_trans H _). vm_compute. reflexivity.
Defined.

(** An error stays on display until something is sent: no reading, and no later poll that
    succeeds, takes it away. *)
Theorem error_sticks es s :
  Forall (λ e, reading e ∧ match e with SupSettles _ (RpError _) => False | _ => True end) es →
  Forall (λ t, is_chain t = false) (sw_tasks s) →
  sw_err (support_run es s).1 = sw_err s.
Proof.
  intros Hes Hq. enough (H : sw_err (support_run es s).1 = sw_err s ∧ Forall (λ t, is_chain t = false) (sw_tasks (support_run es s).1)) by apply H.
  induction es as [|e es IH] using rev_ind; [done|]. apply Forall_app in Hes as [Hes He]. apply Forall_cons in He as [[He1 He2] _].
  destruct (IH Hes) as [I1 I2]. rewrite support_run_snoc. cbn [fst]. set (u := (support_run es s).1) in *. rewrite <- I1. clear IH I1.
  assert (Happ : ∀ t, is_chain t = false → Forall (λ t, is_chain t = false) (sw_tasks u ++ [t])%list) by (intros; apply Forall_app; split; [done|by apply Forall_singleton]).
  destruct e; try done; cbn [support_step].
  - by destruct (sw_open u).
  - by destruct (sw_open u).
  - destruct (sw_view u) eqn:Ev; [done| |]; (destruct (sw_open u); [|done]); unfold setView; by rewrite Ev.
  - destruct (sw_view u) eqn:Ev; [|done|done]. destruct (sw_open u); [|done]. unfold setView. by rewrite Ev.
  - destruct (sw_view u); [|done|done]. destruct (_ && _); [|done]. split; [done|by apply Happ].
  - destruct (sw_view u); try done. by destruct (sw_open u).
  - destruct (sw_view u), (sw_thread u); try done; by destruct (sw_open u).
  - split; [done|by apply Happ].
  - destruct (sw_view u); [done|done|]. split; [done|by apply Happ].
  - destruct (sw_tasks u !! i) as [t|] eqn:Et; [|done]. destruct (fits t r) eqn:Ef; [|done].
    pose proof (Forall_lookup_1 _ _ _ _ I2 Et) as Hc. simpl in Hc.
    assert (Hd : Forall (λ t, is_chain t = false) (delete i (sw_tasks u))) by by apply Forall_delete.
    destruct t; try done; destruct r; try done; simpl; by destruct (Nat.eqb _ _).
Qed.

Lemma error_sticks_witness :
  let s := (support_run [SupSettles 0 (RpError "Failed to fetch")] (mount_support None).1).1 in
  sw_err (support_run [SupTick; SupSettles 0 (RpTickets (Some [])); SupOpen 9; SupTick] s).1 = "Failed to fetch".
Proof.
  cbv zeta. refine (eq_trans (error_sticks [SupTick; SupSettles 0 (RpTickets (Some [])); SupOpen 9; SupTick] _ _ _) _).
  - by repeat constructor.
  - constructor.
  - vm_compute. reflexivity.
Defined.
