(* ===== verification/Portal.v ===== *)
(** * The customer portal

    - the review queue, [components/portal/PendingReviewQueue.tsx]: the safety findings
      waiting for a verdict, with the server's side of a verdict
      ([internal/api/ppe_queue_handler.go], [internal/database/ppe_queue.go]);
    - the overview, [app/portal/page.tsx]: the split of the portfolio, the summary figures
      and the CSV exports.

    A request is a task until its reply, in any order; a timer that fires is an event. *)

From S2P Require Import Prelude Types Http Hooks.
From stdpp Require Import pretty.
From Stdlib Require Import QArith Qround Lqa.
#[local] Open Scope string_scope.
#[local] Open Scope Z_scope.

(** ** The review queue *)

Record ReviewBox := mkReviewBox { rb_x1 : Q; rb_y1 : Q; rb_x2 : Q; rb_y2 : Q; rb_label : option string }.

Record PendingReviewEntry := mkReviewEntry {
  pr_id : string;
  pr_camera_id : string;
  pr_camera_name : string;
  pr_site_id : option string;
  pr_site_name : option string;
  pr_detection_class : string;
  pr_missing_label : string;
  pr_confidence : Q;
  pr_bounding_boxes : list ReviewBox;
  pr_frame_url : string;
  pr_status : string;
  pr_created_at : string;
  pr_reviewed_by : option string;
  pr_reviewed_at : option string;
  pr_notes : option string
}.

Definition CORRECTION_OPTIONS : list (string * string) :=
  [("animal", "Animal"); ("equipment", "Equipment / Machinery"); ("shadow", "Shadow / Lighting");
   ("already_resolved", "Already Resolved"); ("wrong_classification", "Wrong Classification"); ("other", "Other")].

Definition confidenceToSeverity (c : Q) : string :=
  if Qle_bool (85 # 100) c then "critical" else if Qle_bool (70 # 100) c then "high"
  else if Qle_bool (55 # 100) c then "medium" else "low".

(** [formatRelative], of a time [d] ms ago. *)
Definition review_age (d : Z) : string :=
  if d <? 3600000 then pretty (d / 60000) +:+ "m ago"
  else if d <? 86400000 then pretty (d / 3600000) +:+ "h ago" else pretty (d / 86400000) +:+ "d ago".

Inductive QueueCall := GetQueue | PostReview (id status : string) (notes : option string).
Inductive QueueTask := QtLoad | QtValidate (id : string) | QtCorrect (id : string).
Inductive QueueReply := QrEntries (l : option (list PendingReviewEntry)) | QrDone | QrFail.

(** [pq_timers]: the running [setTimeout(() => setToast(null))]. *)
Record ReviewQueue := mkQueue {
  pq_entries : list PendingReviewEntry;
  pq_loading : bool;
  pq_error : option string;
  pq_target : option string;
  pq_value : string;
  pq_toast : option string;
  pq_expanded : bool;
  pq_timers : nat;
  pq_tasks : list QueueTask
}.

Definition upd_pq_entries (l : list PendingReviewEntry) (s : ReviewQueue) : ReviewQueue :=
  mkQueue l (pq_loading s) (pq_error s) (pq_target s) (pq_value s) (pq_toast s) (pq_expanded s) (pq_timers s) (pq_tasks s).
Definition upd_pq_loading (b : bool) (e : option string) (s : ReviewQueue) : ReviewQueue :=
  mkQueue (pq_entries s) b e (pq_target s) (pq_value s) (pq_toast s) (pq_expanded s) (pq_timers s) (pq_tasks s).
Definition upd_pq_target (t : option string) (v : string) (s : ReviewQueue) : ReviewQueue :=
  mkQueue (pq_entries s) (pq_loading s) (pq_error s) t v (pq_toast s) (pq_expanded s) (pq_timers s) (pq_tasks s).
Definition upd_pq_toast (t : option string) (n : nat) (s : ReviewQueue) : ReviewQueue :=
  mkQueue (pq_entries s) (pq_loading s) (pq_error s) (pq_target s) (pq_value s) t (pq_expanded s) n (pq_tasks s).
Definition upd_pq_expanded (b : bool) (s : ReviewQueue) : ReviewQueue :=
  mkQueue (pq_entries s) (pq_loading s) (pq_error s) (pq_target s) (pq_value s) (pq_toast s) b (pq_timers s) (pq_tasks s).
Definition upd_pq_tasks (t : list QueueTask) (s : ReviewQueue) : ReviewQueue :=
  mkQueue (pq_entries s) (pq_loading s) (pq_error s) (pq_target s) (pq_value s) (pq_toast s) (pq_expanded s) (pq_timers s) t.
Definition pq_await (t : QueueTask) (s : ReviewQueue) : ReviewQueue := upd_pq_tasks (pq_tasks s ++ [t])%list s.

Definition loadQueue (s : ReviewQueue) : ReviewQueue * list QueueCall := (pq_await QtLoad (upd_pq_loading true None s), [GetQueue]).

Definition mount_queue : ReviewQueue * list QueueCall :=
  loadQueue (mkQueue [] true None None EmptyString None true 0 []).

(** The text fields of a [ppe_detected] message; an absent one is [None]. *)
Record PpeMessage := mkPpeMessage {
  pm_type : string;
  pm_camera_id : option string;
  pm_data : option (option string * option string * option string * option Q * option string)
}.

(** The window listener; [now] is the clock as ISO text. *)
Definition placeholder (now : string) (camera id cls label : option string) (conf : option Q) (at_ : option string) : PendingReviewEntry :=
  mkReviewEntry (default EmptyString id) (default EmptyString camera) EmptyString None None (default EmptyString cls) (default EmptyString label)
    (default 0%Q conf) []
    (match id with Some i => if truthy_str i then "/api/v1/portal/pending-review/" +:+ i +:+ "/frame" else EmptyString | None => EmptyString end)
    "pending" (default now at_) None None None.

Definition has_entry (id : string) (l : list PendingReviewEntry) : bool := existsb (λ e, String.eqb (pr_id e) id) l.

Definition queue_message (now : string) (msg : PpeMessage) (s : ReviewQueue) : ReviewQueue :=
  if negb (String.eqb (pm_type msg) "ppe_detected") then s else
  match pm_data msg with
  | None => s
  | Some (id, cls, label, conf, at_) =>
      let partial := placeholder now (pm_camera_id msg) id cls label conf at_ in
      if negb (truthy_str (pr_id partial)) then s
      else if has_entry (pr_id partial) (pq_entries s) then s
      else upd_pq_entries (partial :: pq_entries s) s
  end.

Definition is_pending (e : PendingReviewEntry) : bool := String.eqb (pr_status e) "pending".
Definition pending_entries (s : ReviewQueue) : list PendingReviewEntry := filter_where is_pending (pq_entries s).

Definition queue_toast (m : string) (s : ReviewQueue) : ReviewQueue := upd_pq_toast (Some m) (S (pq_timers s)) s.
Definition without_entry (id : string) (s : ReviewQueue) : ReviewQueue :=
  upd_pq_entries (filter_where (λ e, negb (String.eqb (pr_id e) id)) (pq_entries s)) s.

Definition handleValidate (id : string) (s : ReviewQueue) : ReviewQueue * list QueueCall :=
  (pq_await (QtValidate id) s, [PostReview id "reviewed_violation" None]).
Definition handleFalsePositive (id : string) (s : ReviewQueue) : ReviewQueue := upd_pq_target (Some id) (pq_value s) s.
Definition handleSubmitCorrection (id : string) (s : ReviewQueue) : ReviewQueue * list QueueCall :=
  (pq_await (QtCorrect id) s, [PostReview id "dismissed" (Some (pq_value s))]).

Definition queue_resume (t : QueueTask) (r : QueueReply) (s : ReviewQueue) : ReviewQueue :=
  match t, r with
  | QtLoad, QrEntries l => upd_pq_loading false (pq_error s) (upd_pq_entries (default [] l) s)
  | QtLoad, _ => upd_pq_loading false (Some "Could not load safety findings") s
  | QtValidate id, QrDone => queue_toast "Validated — added to compliance metrics" (without_entry id s)
  | QtValidate _, _ => queue_toast "Failed to submit review — please try again" s
  | QtCorrect id, QrDone => queue_toast "False positive recorded — training data captured" (upd_pq_target None EmptyString (without_entry id s))
  | QtCorrect _, _ => queue_toast "Failed to submit correction — please try again" s
  end.

Inductive QueueEvent :=
| QToggle | QReviewNow | QRetry
| QMessage (now : string) (m : PpeMessage)
| QValidate (id : string) | QFalse (id : string) | QPick (v : string) | QCancel | QCorrect (id : string)
| QTimer
| QSettles (i : nat) (r : QueueReply).

(** The rows are there while the queue is open, not loading and without an error. *)
Definition row_shown (id : string) (s : ReviewQueue) : bool :=
  pq_expanded s && negb (pq_loading s) && negb (bool_decide (is_Some (pq_error s))) && has_entry id (pending_entries s).

Definition targeted (id : string) (s : ReviewQueue) : bool := bool_decide (pq_target s = Some id).

Definition queue_step (e : QueueEvent) (s : ReviewQueue) : ReviewQueue * list QueueCall :=
  match e with
  | QToggle => (upd_pq_expanded (negb (pq_expanded s)) s, [])
  | QReviewNow => (if negb (pq_expanded s) && (0 <? length (pending_entries s))%nat then upd_pq_expanded true s else s, [])
  | QRetry => if pq_expanded s && negb (pq_loading s) && bool_decide (is_Some (pq_error s)) then loadQueue s else (s, [])
  | QMessage now m => (queue_message now m s, [])
  | QValidate id => if row_shown id s && negb (targeted id s) then handleValidate id s else (s, [])
  | QFalse id => (if row_shown id s && negb (targeted id s) then handleFalsePositive id s else s, [])
  | QPick v =>
      (match pq_target s with
       | Some id => if row_shown id s && existsb (λ o, String.eqb o.1 v) CORRECTION_OPTIONS then upd_pq_target (Some id) v s else s
       | None => s
       end, [])
  | QCancel => (match pq_target s with Some id => if row_shown id s then upd_pq_target None EmptyString s else s | None => s end, [])
  | QCorrect id => if row_shown id s && targeted id s && truthy_str (pq_value s) then handleSubmitCorrection id s else (s, [])
  | QTimer => (match pq_timers s with S n => upd_pq_toast None n s | O => s end, [])
  | QSettles i r =>
      match pq_tasks s !! i with
      | Some t => (queue_resume t r (upd_pq_tasks (delete i (pq_tasks s)) s), [])
      | None => (s, [])
      end
  end.

Definition queue_run (es : list QueueEvent) (s : ReviewQueue) : ReviewQueue * list QueueCall :=
  foldl (λ p e, let r := queue_step e p.1 in (r.1, p.2 ++ r.2)%list) (s, []) es.

(** *** The server: [HandleReviewPendingEntry] and [UpdatePPEQueueStatus], on the rows of one
    organization, and the default list without findings the second model dismissed *)

Definition reviewRoles : list string := ["admin"; "soc_supervisor"; "soc_operator"; "site_manager"].
Definition validReviewStatuses : list string := ["reviewed_compliant"; "reviewed_violation"; "dismissed"].

Record QueueRow := mkQueueRow { qr_status : string; qr_reviewed_by : option string; qr_notes : option string }.

(** The status of the response and the rows after it; [parse] reads a UUID. *)
Definition HandleReviewPendingEntry (uuid_ok : string → bool) (role org user : string) (id status : string) (notes : option string)
    (rows : list (string * QueueRow)) : Z * list (string * QueueRow) :=
  if negb (bool_decide (role ∈ reviewRoles)) then (403, rows)
  else if negb (truthy_str org) then (400, rows)
  else if negb (uuid_ok id) then (400, rows)
  else if negb (uuid_ok user) then (400, rows)
  else if negb (bool_decide (status ∈ validReviewStatuses)) then (422, rows)
  else if (match notes with Some n => 2000 <? Z.of_nat (String.length n) | None => false end) then (400, rows)
  else if negb (existsb (λ r, String.eqb r.1 id) rows) then (404, rows)
  else (200, (λ r, if String.eqb r.1 id then (r.1, mkQueueRow status (Some user) notes) else r) <$> rows).

(** *** Theorems *)

Lemma queue_run_app es es' s :
  queue_run (es ++ es')%list s = ((queue_run es' (queue_run es s).1).1, ((queue_run es s).2 ++ (queue_run es' (queue_run es s).1).2)%list).
Proof.
  revert es'. induction es' as [|e es' IH] using rev_ind; [by rewrite app_nil_r; simpl; rewrite app_nil_r; destruct (queue_run es s)|].
  rewrite app_assoc. unfold queue_run in *. rewrite !(foldl_app _ _ [e]). cbn [foldl]. rewrite IH. cbn [fst snd]. by rewrite app_assoc.
Qed.

Lemma queue_run_snoc es e s :
  queue_run (es ++ [e])%list s = ((queue_step e (queue_run es s).1).1, ((queue_run es s).2 ++ (queue_step e (queue_run es s).1).2)%list).
Proof. by rewrite queue_run_app. Qed.

Lemma queue_run_cons e es s :
  queue_run (e :: es) s = ((queue_run es (queue_step e s).1).1, ((queue_step e s).2 ++ (queue_run es (queue_step e s).1).2)%list).
Proof. exact (queue_run_app [e] es s). Qed.

(** The lists the server sends name each finding once. *)
Definition distinct_reply (e : QueueEvent) : Prop :=
  match e with QSettles _ (QrEntries (Some l)) => NoDup (pr_id <$> l) | _ => True end.

Definition correction (v : string) : Prop := existsb (λ o, String.eqb o.1 v) CORRECTION_OPTIONS = true.

Lemma correction_short v : correction v → (2000 <? Z.of_nat (String.length v)) = false.
Proof.
  intros H. apply existsb_exists in H as (o & Hin & E%String.eqb_eq). rewrite <- E.
  cbn in Hin. repeat (destruct Hin as [<-|Hin]; [reflexivity|]). done.
Qed.

Record queue_ok (s : ReviewQueue) : Prop := mkQueueOk {
  qo_distinct : NoDup (pr_id <$> pq_entries s);
  qo_value : pq_value s = EmptyString ∨ correction (pq_value s)
}.

Definition review_ok (c : QueueCall) : Prop :=
  match c with
  | GetQueue => True
  | PostReview _ status notes => status ∈ validReviewStatuses ∧ match notes with Some v => correction v | None => True end
  end.

Lemma review_ids_filter (p : PendingReviewEntry → bool) l : NoDup (pr_id <$> l) → NoDup (pr_id <$> filter_where p l).
Proof. intros H. eapply sublist_NoDup; [apply H|]. apply fmap_sublist, sublist_filter. Qed.

Lemma has_entry_spec id l : has_entry id l = true ↔ id ∈ pr_id <$> l.
Proof.
  unfold has_entry. rewrite existsb_exists. split.
  - intros (e & Hin & E%String.eqb_eq). apply list_elem_of_fmap. exists e. by rewrite list_elem_of_In.
  - intros (e & -> & Hin)%list_elem_of_fmap. exists e. rewrite <- list_elem_of_In. by rewrite String.eqb_refl.
Qed.

Lemma queue_step_ok e s : distinct_reply e → queue_ok s → queue_ok (queue_step e s).1 ∧ Forall review_ok (queue_step e s).2.
Proof.
  intros He [H1 H2]. assert (H : queue_ok s) by done. destruct e; cbn [queue_step].
  - done.
  - split; [by destruct (_ && _)|constructor].
  - destruct (_ && _); [split; [done|by repeat constructor]|done].
  - split; [|constructor]. unfold queue_message. destruct (negb _); [done|]. destruct (pm_data m) as [[[[[id cls] label] conf] at_]|]; [|done].
    cbv zeta. destruct (negb _); [done|]. destruct (has_entry _ _) eqn:Eh; [done|]. constructor; simpl; [|done].
    apply NoDup_cons. split; [|done]. rewrite <- has_entry_spec. unfold placeholder in Eh. simpl in Eh. by rewrite Eh.
  - destruct (_ && _); [split; [done|]|done]. apply Forall_singleton. by vm_compute; split; [right; left|].
  - split; [by destruct (_ && _)|constructor].
  - split; [|constructor]. destruct (pq_target s) as [id|]; [|done]. destruct (_ && _) eqn:E; [|done].
    apply andb_true_iff in E as [_ E]. constructor; simpl; [done|by right].
  - split; [|constructor]. destruct (pq_target s) as [id|]; [|done]. destruct (row_shown _ _); [|done]. constructor; simpl; [done|by left].
  - destruct (_ && truthy_str _) eqn:E; [split; [done|]|done]. apply andb_true_iff in E as [_ E]. apply Forall_singleton. split; [vm_compute; by right; right; left|].
    destruct H2 as [H2|H2]; [|done]. by rewrite H2 in E.
  - split; [by destruct (pq_timers s)|constructor].
  - destruct (pq_tasks s !! i) as [t|]; [|done]. split; [|constructor].
    destruct t, r; try done; constructor; simpl; try done; try (by apply review_ids_filter); try (by left).
    destruct l; [exact He|constructor].
Qed.

Lemma queue_run_ok es : Forall distinct_reply es → queue_ok (queue_run es mount_queue.1).1 ∧ Forall review_ok (queue_run es mount_queue.1).2.
Proof.
  intros H. induction es as [|e es IH] using rev_ind; [split; [split; [constructor|by left]|constructor]|].
  apply Forall_app in H as [H He]. apply Forall_cons in He as [He _]. destruct (IH H) as [I1 I2]. rewrite queue_run_snoc.
  destruct (queue_step_ok e _ He I1). split; [done|]. by apply Forall_app.
Qed.

(** Whatever arrives and is clicked, no finding is listed twice and every verdict sent is
    one the server takes from a reviewer: a valid status, with no note or one of the six
    corrections. *)
Theorem reviews_accepted es :
  Forall distinct_reply es →
  let r := queue_run es mount_queue.1 in
  NoDup (pr_id <$> pq_entries r.1) ∧
  ∀ id status notes, PostReview id status notes ∈ r.2 →
    ∀ uuid_ok role org user rows,
      role ∈ reviewRoles → truthy_str org = true → uuid_ok id = true → uuid_ok user = true → id ∈ rows.*1 →
      (HandleReviewPendingEntry uuid_ok role org user id status notes rows).1 = 200.
Proof.
  intros Hes r. destruct (queue_run_ok es Hes) as [[H1 _] H2]. split; [exact H1|].
  intros id status notes Hin uuid_ok role org user rows Hr Ho Hi Hu Hid.
  rewrite Forall_forall in H2. destruct (H2 _ Hin) as [Hs Hn]. unfold HandleReviewPendingEntry.
  rewrite (bool_decide_true _ Hr), Ho, Hi, Hu, (bool_decide_true _ Hs). cbn [negb].
  replace (match notes with Some n => 2000 <? Z.of_nat (String.length n) | None => false end) with false
    by (destruct notes; [by rewrite correction_short|done]).
  replace (existsb (λ r0, String.eqb r0.1 id) rows) with true; [done|]. symmetry. apply existsb_exists.
  apply list_elem_of_fmap in Hid as (q & -> & Hq). exists q. by rewrite <- list_elem_of_In, String.eqb_refl.
Qed.

Definition finding_of (id : string) : PendingReviewEntry :=
  mkReviewEntry id "c1" "Gate" None None "no_helmet" "Hard hat" (9 # 10) [] EmptyString "pending" "t0" None None None.

Lemma reviews_accepted_witness :
  let es := [QSettles 0 (QrEntries (Some [finding_of "a"; finding_of "b"])); QFalse "a"; QPick "shadow"; QCorrect "a"; QValidate "b"] in
  (queue_run es mount_queue.1).2 = [PostReview "a" "dismissed" (Some "shadow"); PostReview "b" "reviewed_violation" None] ∧
  (HandleReviewPendingEntry (λ _, true) "site_manager" "o1" "u1" "a" "dismissed" (Some "shadow") [("a", mkQueueRow "pending" None None)]).1 = 200.
Proof.
  cbv zeta. split; [vm_compute; reflexivity|].
  destruct (reviews_accepted [QSettles 0 (QrEntries (Some [finding_of "a"; finding_of "b"])); QFalse "a"; QPick "shadow"; QCorrect "a"; QValidate "b"]) as [_ H].
  { repeat apply Forall_cons_2; try exact I; [|constructor]. simpl. apply NoDup_cons. split; [|apply NoDup_singleton]. by intros Hin%list_elem_of_singleton. }
  apply (H "a" "dismissed" (Some "shadow")); [vm_compute; left|by right; right; right; left|reflexivity|reflexivity|reflexivity|left].
Defined.

Lemma correction_truthy x : correction x → truthy_str x = true.
Proof. by destruct x. Qed.

Lemma step_validate id q : row_shown id q = true → targeted id q = false → queue_step (QValidate id) q = handleValidate id q.
Proof. intros H1 H2. unfold queue_step. by rewrite H1, H2. Qed.
Lemma step_false id q : row_shown id q = true → targeted id q = false → queue_step (QFalse id) q = (handleFalsePositive id q, []).
Proof. intros H1 H2. unfold queue_step. by rewrite H1, H2. Qed.
Lemma step_pick id x q : row_shown id q = true → pq_target q = Some id → correction x → queue_step (QPick x) q = (upd_pq_target (Some id) x q, []).
Proof. intros H1 H2 H3. unfold queue_step. rewrite H2, H1. unfold correction in H3. by rewrite H3. Qed.
Lemma step_correct id q : row_shown id q = true → pq_target q = Some id → correction (pq_value q) → queue_step (QCorrect id) q = handleSubmitCorrection id q.
Proof. intros H1 H2 H3%correction_truthy. unfold queue_step, targeted. by rewrite H1, H3, bool_decide_true. Qed.

Lemma without_entry_gone id q : has_entry id (pq_entries (without_entry id q)) = false.
Proof.
  apply not_true_iff_false. rewrite has_entry_spec. intros (e & E & Hin)%list_elem_of_fmap.
  apply list_elem_of_filter in Hin as [Hp _]. by rewrite E, String.eqb_refl in Hp.
Qed.

Section verdicts.
Context (s : ReviewQueue) (a b v w : string).
Hypothesis Ha : row_shown a s = true.
Hypothesis Hb : row_shown b s = true.
Hypothesis Hab : a ≠ b.
Hypothesis Hnone : pq_target s = None.
Hypothesis Hidle : pq_tasks s = [].
Hypothesis Hv : correction v.
Hypothesis Hw : correction w.

(** The rows of the server after one verdict on [a], by a reviewer. *)
Definition verdict (uuid_ok : string → bool) (user status : string) (notes : option string) (rows : list (string * QueueRow)) : list (string * QueueRow) :=
  (HandleReviewPendingEntry uuid_ok "site_manager" "org" user a status notes rows).2.

Lemma verdict_row uuid_ok user status notes row :
  uuid_ok a = true → uuid_ok user = true → status ∈ validReviewStatuses →
  match notes with Some n => 2000 <? Z.of_nat (String.length n) | None => false end = false →
  verdict uuid_ok user status notes [(a, row)] = [(a, mkQueueRow status (Some user) notes)].
Proof.
  intros H1 H2 H3 H4. unfold verdict, HandleReviewPendingEntry. rewrite H1, H2, H4, (bool_decide_true _ H3).
  rewrite bool_decide_true by (by right; right; right; left). cbn. by rewrite String.eqb_refl.
Qed.

(** A verdict under way does not disable the buttons, so one finding can be both
    validated and corrected; both are sent, the server takes both and keeps the one that
    reaches it last, and the page shows the message of the answer that comes last, whichever
    that is. *)
Theorem conflicting_verdicts :
  let r := queue_run [QValidate a; QFalse a; QPick v; QCorrect a] s in
  r.2 = [PostReview a "reviewed_violation" None; PostReview a "dismissed" (Some v)] ∧
  (∀ first second, (first = 0%nat ∧ second = 0%nat ∨ first = 1%nat ∧ second = 0%nat) →
     let q := (queue_run [QSettles first QrDone; QSettles second QrDone] r.1).1 in
     has_entry a (pq_entries q) = false ∧
     pq_toast q = Some (if (first =? 1)%nat then "Validated — added to compliance metrics" else "False positive recorded — training data captured")) ∧
  (∀ uuid_ok user rows row, uuid_ok a = true → uuid_ok user = true → rows = [(a, row)] →
     verdict uuid_ok user "dismissed" (Some v) (verdict uuid_ok user "reviewed_violation" None rows) = [(a, mkQueueRow "dismissed" (Some user) (Some v))] ∧
     verdict uuid_ok user "reviewed_violation" None (verdict uuid_ok user "dismissed" (Some v) rows) = [(a, mkQueueRow "reviewed_violation" (Some user) None)]).
Proof.
  intros r.
  set (u1 := pq_await (QtValidate a) s). set (u2 := upd_pq_target (Some a) (pq_value s) u1). set (u3 := upd_pq_target (Some a) v u2).
  assert (Hu : targeted a s = false) by (unfold targeted; by rewrite Hnone).
  assert (E : r = (pq_await (QtCorrect a) u3, [PostReview a "reviewed_violation" None; PostReview a "dismissed" (Some v)])).
  { subst r. rewrite 4!queue_run_cons. rewrite (step_validate a s Ha Hu). change (handleValidate a s).1 with u1. rewrite (step_false a u1 Ha Hu).
    change (handleFalsePositive a u1, @nil QueueCall).1 with u2. rewrite (step_pick a v u2 Ha eq_refl Hv). cbn [fst snd]. fold u3. by rewrite (step_correct a u3 Ha eq_refl Hv). }
  rewrite E. split_and!; [done| |].
  - assert (Ht : pq_tasks (pq_await (QtCorrect a) u3) = [QtValidate a; QtCorrect a]) by (simpl; by rewrite Hidle).
    intros f g [[-> ->]|[-> ->]]; cbn [fst]; rewrite 2!queue_run_cons; cbn [queue_step fst snd]; rewrite Ht; cbn [lookup list_lookup delete list_delete queue_resume fst snd];
      (split; [apply without_entry_gone|done]).
  - intros uuid_ok user rows row H1 H2 ->.
    assert (Hd : "dismissed" ∈ validReviewStatuses) by by right; right; left. assert (Hr : "reviewed_violation" ∈ validReviewStatuses) by by right; left.
    pose proof (correction_short v Hv) as Hs. by rewrite !verdict_row.
Qed.

(** The chosen correction belongs to the queue, not to a finding: one picked for [a] is
    preselected for [b] and sent with one click, and the answer to [a]'s correction closes
    the panel opened for [b] and drops what was chosen there. *)
Theorem correction_carried :
  let picked := [QFalse a; QPick v] in
  (queue_run (picked ++ [QFalse b; QCorrect b])%list s).2 = [PostReview b "dismissed" (Some v)] ∧
  let opened := (queue_run (picked ++ [QCorrect a; QFalse b; QPick w])%list s).1 in
  pq_target opened = Some b ∧ pq_value opened = w ∧
  let answered := (queue_step (QSettles 0 QrDone) opened).1 in
  pq_target answered = None ∧ pq_value answered = EmptyString ∧ has_entry b (pq_entries answered) = true.
Proof.
  set (u1 := upd_pq_target (Some a) (pq_value s) s). set (u2 := upd_pq_target (Some a) v s).
  assert (Hu : targeted a s = false) by (unfold targeted; by rewrite Hnone).
  assert (Hne : ∀ q, pq_target q = Some a → targeted b q = false).
  { intros q Hq. unfold targeted. rewrite Hq. apply bool_decide_false. congruence. }
  assert (Ep : queue_run [QFalse a; QPick v] s = (u2, [])).
  { rewrite 2!queue_run_cons, (step_false a s Ha Hu). cbn [fst snd]. change (handleFalsePositive a s) with u1. by rewrite (step_pick a v u1 Ha eq_refl Hv). }
  cbv zeta. rewrite !queue_run_app, Ep. cbn [fst snd]. split.
  - rewrite 2!queue_run_cons, (step_false b u2 Hb (Hne u2 eq_refl)). cbn [fst snd]. change (handleFalsePositive b u2) with (upd_pq_target (Some b) v s).
    by rewrite (step_correct b (upd_pq_target (Some b) v s) Hb eq_refl Hv).
  - set (u3 := pq_await (QtCorrect a) u2). set (u4 := upd_pq_target (Some b) w u3).
    assert (Eo : (queue_run [QCorrect a; QFalse b; QPick w] u2).1 = u4).
    { rewrite 3!queue_run_cons, (step_correct a u2 Ha eq_refl Hv). change (handleSubmitCorrection a u2).1 with u3. rewrite (step_false b u3 Hb (Hne u3 eq_refl)).
      cbn [fst snd]. by rewrite (step_pick b w (handleFalsePositive b u3) Hb eq_refl Hw). }
    rewrite Eo. split_and!; [done|done| | |]; cbn [queue_step fst]; replace (pq_tasks u4) with [QtCorrect a] by (simpl; by rewrite Hidle); try done.
    simpl. apply has_entry_spec. apply andb_true_iff in Hb as [_ H%has_entry_spec]. apply list_elem_of_fmap in H as (e & -> & He).
    apply list_elem_of_filter in He as [_ He]. apply list_elem_of_fmap. exists e. split; [done|]. apply list_elem_of_filter. split; [|done].
    destruct (String.eqb_spec (pr_id e) a); [congruence|done].
Qed.
End verdicts.

Definition two_findings : ReviewQueue := mkQueue [finding_of "a"; finding_of "b"] false None None EmptyString None true 0 [].

Lemma conflicting_verdicts_witness :
  let r := queue_run [QValidate "a"; QFalse "a"; QPick "animal"; QCorrect "a"] two_findings in
  r.2 = [PostReview "a" "reviewed_violation" None; PostReview "a" "dismissed" (Some "animal")] ∧
  pq_toast (queue_run [QSettles 1 QrDone; QSettles 0 QrDone] r.1).1 = Some "Validated — added to compliance metrics".
Proof.
  destruct (conflicting_verdicts two_findings "a" "animal" eq_refl eq_refl eq_refl eq_refl) as (H1 & H2 & _).
  split; [exact H1|]. apply (H2 1%nat 0%nat). right. split; reflexivity.
Defined.

Lemma correction_carried_witness :
  (queue_run [QFalse "a"; QPick "shadow"; QFalse "b"; QCorrect "b"] two_findings).2 = [PostReview "b" "dismissed" (Some "shadow")].
Proof.
  destruct (correction_carried two_findings "a" "b" "shadow" "other" eq_refl eq_refl ltac:(discriminate) eq_refl eq_refl eq_refl eq_refl) as [H _]. exact H.
Defined.

(** A finding announced while the queue is idle is shown first, once however often it is
    announced; announced while the list is loading it is gone with the reply unless the
    server had it already. *)
Theorem placeholder_fate now cam id cls label conf at_ s l :
  truthy_str id = true → has_entry id (pq_entries s) = false → pq_tasks s = [QtLoad] →
  let m := QMessage now (mkPpeMessage "ppe_detected" cam (Some (Some id, cls, label, conf, at_))) in
  let q := (queue_run [m; m] s).1 in
  pending_entries q = placeholder now cam (Some id) cls label conf at_ :: pending_entries s ∧
  has_entry id (pq_entries (queue_step (QSettles 0 (QrEntries (Some l))) q).1) = has_entry id l.
Proof.
  intros Ht Hn Hl m q. set (p := placeholder now cam (Some id) cls label conf at_).
  assert (E : q = upd_pq_entries (p :: pq_entries s) s).
  { subst q. rewrite 2!queue_run_cons. cbn [queue_step m fst]. unfold queue_message. cbn [pm_type pm_data].
    cbn -[truthy_str has_entry]. rewrite Ht. cbn -[truthy_str has_entry]. rewrite Hn. cbn -[truthy_str]. unfold has_entry. cbn [existsb placeholder pr_id default]. by rewrite String.eqb_refl. }
  rewrite E. split; [done|]. cbn [queue_step upd_pq_entries pq_tasks]. by rewrite Hl.
Qed.

Lemma placeholder_fate_witness :
  let s := mkQueue [finding_of "a"] true None None EmptyString None true 0 [QtLoad] in
  let m := QMessage "now" (mkPpeMessage "ppe_detected" (Some "c1") (Some (Some "n1", None, None, None, None))) in
  has_entry "n1" (pq_entries (queue_run [m; m; QSettles 0 (QrEntries (Some [finding_of "a"]))] s).1) = false.
Proof.
  exact (proj2 (placeholder_fate "now" (Some "c1") "n1" None None None None
    (mkQueue [finding_of "a"] true None None EmptyString None true 0 [QtLoad]) [finding_of "a"] eq_refl eq_refl eq_refl)).
Defined.

(** ** The overview *)

Record MonitoringWindow := mkWindow { mw_id : string; mw_label : string; mw_days : list Z; mw_start_time : string; mw_end_time : string; mw_enabled : bool }.

Record SiteSnooze := mkSnooze { sn_active : bool; sn_reason : string; sn_snoozed_by : string; sn_snoozed_at : string; sn_expires_at : string }.

Record SiteSummary := mkSiteSummary {
  ss_id : string;
  ss_name : string;
  ss_status : string;
  ss_compliance_score : Q;
  ss_cameras_online : Z;
  ss_cameras_total : Z;
  ss_open_incidents : Z;
  ss_workers_on_site : Z;
  ss_last_activity : string;
  ss_trend : string;
  ss_company_id : option string;
  ss_feature_mode : option string;
  ss_monitoring_schedule : option (list MonitoringWindow);
  ss_snooze : option SiteSnooze
}.

Record IncidentSummary := mkIncidentSummary {
  ns_id : string;
  ns_severity : string;
  ns_status : string;
  ns_title : string;
  ns_site_id : string;
  ns_site_name : string;
  ns_camera_id : string;
  ns_camera_name : option string;
  ns_ts : Z;
  ns_resolved_at : option Z;
  ns_workers_identified : Z;
  ns_type : string;
  ns_disposition_code : option string;
  ns_disposition_label : option string;
  ns_operator_callsign : option string;
  ns_assigned_operator_id : option string;
  ns_escalation_level : option Z
}.

(** [site.feature_mode ?? 'security_and_safety'] *)
Definition feature_mode (s : SiteSummary) : string := default "security_and_safety" (ss_feature_mode s).

Definition safetySites (sites : list SiteSummary) : list SiteSummary := filter_where (λ s, negb (String.eqb (feature_mode s) "security_only")) sites.
Definition securityOnlySites (sites : list SiteSummary) : list SiteSummary :=
  filter_where (λ s, bool_decide (ss_feature_mode s = Some "security_only")) sites.
Definition hasSafety (sites : list SiteSummary) : bool := (0 <? length (safetySites sites))%nat.
Definition hasSecurityOnly (sites : list SiteSummary) : bool := (0 <? length (securityOnlySites sites))%nat.

Definition dashboardTitle (sites : list SiteSummary) : string :=
  if negb (hasSafety sites) then "Security Dashboard"
  else if negb (hasSecurityOnly sites) then "Safety & Security Dashboard" else "Security & Safety Dashboard".

Definition shownSites (siteFilter : string) (sites : list SiteSummary) : list SiteSummary :=
  if String.eqb siteFilter "all" then sites else filter_where (λ s, String.eqb (feature_mode s) siteFilter) sites.

(** Whether the buttons of the tier filter are there. *)
Definition tier_filter_shown (sites : list SiteSummary) : bool := hasSecurityOnly sites && hasSafety sites.

Definition avgPPECompliance (sites : list SiteSummary) : Z :=
  let l := safetySites sites in
  if (length l =? 0)%nat then 0 else Qfloor (foldl (λ a s, a + ss_compliance_score s) 0 l / inject_Z (Z.of_nat (length l)) + (1 # 2))%Q.

Definition totalCamerasOnline (sites : list SiteSummary) : Z := foldl (λ a s, a + ss_cameras_online s) 0 sites.
Definition totalCamerasTotal (sites : list SiteSummary) : Z := foldl (λ a s, a + ss_cameras_total s) 0 sites.
Definition totalWorkers (sites : list SiteSummary) : Z := foldl (λ a s, a + ss_workers_on_site s) 0 sites.
Definition open_incidents (l : list IncidentSummary) : nat := length (filter_where (λ i, negb (String.eqb (ns_status i) "resolved")) l).
Definition criticalUnread (l : list IncidentSummary) : list IncidentSummary :=
  filter_where (λ i, String.eqb (ns_severity i) "critical" && String.eqb (ns_status i) "open") l.

Definition camPct (s : SiteSummary) : Q :=
  if 0 <? ss_cameras_total s then (inject_Z (ss_cameras_online s) / inject_Z (ss_cameras_total s) * 100)%Q else 100.
Definition camColor (s : SiteSummary) : string :=
  if Qeq_bool (camPct s) 100 then "var(--green)" else if Qle_bool 80 (camPct s) then "var(--yellow)" else "var(--accent)".

(** [snoozed] of a card; [date_ms] reads an ISO text, [None] is NaN. *)
Definition site_snoozed (date_ms : string → option Z) (now : Z) (s : SiteSummary) : bool :=
  match ss_snooze s with
  | Some z => sn_active z && match date_ms (sn_expires_at z) with Some e => now <? e | None => false end
  | None => false
  end.

Definition newline : Ascii.ascii := Ascii.ascii_of_N 10.
Definition quote : Ascii.ascii := Ascii.ascii_of_N 34.
Definition comma : Ascii.ascii := Ascii.ascii_of_N 44.
Definition csv_join (rows : list (list string)) : string :=
  String.concat (String newline EmptyString) (String.concat "," <$> rows).

Definition site_headers : list string := ["Site"; "ID"; "Tier"; "Status"; "Cameras Online"; "Open Incidents"; "Workers"; "Last Activity"].
Definition site_cells (s : SiteSummary) : list string :=
  [ss_name s; ss_id s; feature_mode s; ss_status s; pretty (ss_cameras_online s); pretty (ss_open_incidents s); pretty (ss_workers_on_site s); ss_last_activity s].
(** The text of the file. *)
Definition exportSitesCSV (sites : list SiteSummary) : string := csv_join (site_headers :: (site_cells <$> sites)).

Definition quoted (t : string) : string := String quote (t +:+ String quote EmptyString).
Definition incident_headers : list string := ["ID"; "Severity"; "Status"; "Title"; "Site"; "Type"; "Timestamp"].
Definition incident_cells (title : string) (i : IncidentSummary) : list string :=
  [ns_id i; ns_severity i; ns_status i; title; ns_site_name i; ns_type i; toISOString (ns_ts i)].
Definition exportIncidentsCSV (l : list IncidentSummary) : string :=
  csv_join (incident_headers :: ((λ i, incident_cells (quoted (ns_title i)) i) <$> l)).

(** A reader of one CSV line: a comma ends a cell outside quotes, quotes are dropped, a doubled
    one inside quotes stands for itself. *)
Definition to_head (c : Ascii.ascii) (l : list string) : list string :=
  match l with x :: r => String c x :: r | [] => [] end.

Fixpoint csv_cells (inq : bool) (s : string) : list string :=
  match s with
  | EmptyString => [EmptyString]
  | String c r =>
      if Ascii.eqb c quote then
        match inq, r with
        | true, String c' r' => if Ascii.eqb c' quote then to_head quote (csv_cells true r') else csv_cells false r
        | _, _ => csv_cells (negb inq) r
        end
      else if negb inq && Ascii.eqb c comma then EmptyString :: csv_cells false r
      else to_head c (csv_cells inq r)
  end.

Definition csv_read (s : string) : list (list string) := csv_cells false <$> js_split (String newline EmptyString) s.

(** *** Theorems *)

(** The safety sites and the security-only sites are the portfolio, in its order, and are
    what the two tier buttons show; the title names what there is.  The buttons are there
    only while both tiers are: when the last security-only site leaves while its tier is
    selected, no site is shown and no button brings the others back. *)
Theorem portfolio_split sites :
  Forall (λ s, ss_feature_mode s ∈ [None; Some "security_only"; Some "security_and_safety"]) sites →
  Permutation (safetySites sites ++ securityOnlySites sites) sites ∧
  shownSites "all" sites = sites ∧
  shownSites "security_and_safety" sites = safetySites sites ∧ shownSites "security_only" sites = securityOnlySites sites ∧
  (dashboardTitle sites = "Security Dashboard" ↔ safetySites sites = []) ∧
  (securityOnlySites sites = [] → shownSites "security_only" sites = [] ∧ tier_filter_shown sites = false).
Proof.
  intros H.
  assert (E : ∀ s, s ∈ sites → (String.eqb (feature_mode s) "security_and_safety" = negb (String.eqb (feature_mode s) "security_only")) ∧
    String.eqb (feature_mode s) "security_only" = bool_decide (ss_feature_mode s = Some "security_only")).
  { intros s Hin. rewrite Forall_forall in H. specialize (H s Hin). rewrite !elem_of_cons in H. unfold feature_mode.
    destruct H as [->|[->|[->|H]]]; [by vm_compute..|]. by apply elem_of_nil in H. }
  assert (E1 : shownSites "security_and_safety" sites = safetySites sites).
  { apply filter_where_ext_in. intros s Hin. by rewrite (proj1 (E s Hin)). }
  assert (E2 : shownSites "security_only" sites = securityOnlySites sites).
  { apply filter_where_ext_in. intros s Hin. by rewrite (proj2 (E s Hin)). }
  split_and!; [|done|done|done| |].
  - etrans; [apply Permutation_app_comm|]. etrans; [|apply (filter_where_split (λ s, String.eqb (feature_mode s) "security_only"))].
    unfold securityOnlySites. rewrite (filter_where_ext_in _ (λ s, String.eqb (feature_mode s) "security_only")); [done|].
    intros s Hin. by rewrite (proj2 (E s Hin)).
  - unfold dashboardTitle, hasSafety. destruct (safetySites sites); simpl; [done|]. by destruct (hasSecurityOnly sites).
  - intros Hn. rewrite E2, Hn. split; [done|]. unfold tier_filter_shown, hasSecurityOnly. by rewrite Hn.
Qed.

Definition summary (name mode : string) (score : Q) : SiteSummary :=
  mkSiteSummary "S1" name "active" score 3 4 1 12 "2026-04-22T10:00:00Z" "flat" None (Some mode) None None.

Lemma portfolio_split_witness :
  let sites := [summary "Yard" "security_and_safety" 80] in
  shownSites "security_only" sites = [] ∧ tier_filter_shown sites = false.
Proof.
  cbv zeta. apply (portfolio_split [summary "Yard" "security_and_safety" 80]); [|vm_compute; reflexivity].
  apply Forall_cons_2; [by right; right; left|constructor].
Defined.

(** *** The figures *)

Lemma sum_scores_from l a : (foldl (λ a s, a + ss_compliance_score s) a l == a + foldl (λ a s, a + ss_compliance_score s) 0 l)%Q.
Proof.
  revert a. induction l as [|x l IH]; intros a; simpl; [ring|]. rewrite IH, (IH (0 + ss_compliance_score x)%Q). ring.
Qed.

Lemma sum_scores_bounds l :
  Forall (λ s, 0 <= ss_compliance_score s <= 100)%Q l →
  (0 <= foldl (λ a s, a + ss_compliance_score s) 0 l <= 100 * inject_Z (Z.of_nat (length l)))%Q.
Proof.
  induction 1 as [|x l [Hx1 Hx2] Hl [IH1 IH2]]; simpl; [by split|]. rewrite sum_scores_from.
  rewrite Nat2Z.inj_succ, <- Z.add_1_r, inject_Z_plus. change (inject_Z 1) with 1%Q. split; lra.
Qed.

Lemma ratio_bounds (a n : Q) : (0 < n)%Q → (0 <= a <= n)%Q → (0 <= a / n <= 1)%Q.
Proof. intros Hn [H1 H2]. split; [by apply Qle_shift_div_l; [|rewrite Qmult_0_l]|apply Qle_shift_div_r; [done|lra]]. Qed.

Lemma round_pct a n : (0 < n)%nat → (0 <= a <= 100 * inject_Z (Z.of_nat n))%Q → 0 ≤ Qfloor (a / inject_Z (Z.of_nat n) + (1 # 2)) ≤ 100.
Proof.
  intros Hn [H1 H2]. assert (Hp : (0 < inject_Z (Z.of_nat n))%Q) by (rewrite <- (Zlt_Qlt 0); lia).
  assert (L : (0 <= a / inject_Z (Z.of_nat n))%Q) by (apply Qle_shift_div_l; [done|by rewrite Qmult_0_l]).
  assert (U : (a / inject_Z (Z.of_nat n) <= 100)%Q) by by apply Qle_shift_div_r.
  split; [apply (Qfloor_resp_le (1 # 2))|apply (Qfloor_resp_le _ (100 + (1 # 2)))]; lra.
Qed.

(** With scores between 0 and 100 the average shown lies there too, and is 0 without
    safety sites; the bar of a site with no more cameras online than it has is between 0 and
    100 percent, and green exactly when every camera is online. *)
Theorem portal_figures sites s :
  Forall (λ s, 0 <= ss_compliance_score s <= 100)%Q sites →
  0 ≤ ss_cameras_online s ≤ ss_cameras_total s →
  0 ≤ avgPPECompliance sites ≤ 100 ∧
  (safetySites sites = [] → avgPPECompliance sites = 0) ∧
  (0 <= camPct s <= 100)%Q ∧ (camColor s = "var(--green)" ↔ ss_cameras_online s = ss_cameras_total s).
Proof.
  intros Hs Hc. refine (conj _ (conj _ (conj _ _))).
  - unfold avgPPECompliance. cbv zeta. destruct (Nat.eqb_spec (length (safetySites sites)) 0); [lia|].
    assert (Hf : Forall (λ s, 0 <= ss_compliance_score s <= 100)%Q (safetySites sites)).
    { rewrite Forall_forall in Hs |- *. intros x [_ Hx]%elem_of_filter_where. by apply Hs. }
    apply round_pct; [lia|]. by apply sum_scores_bounds.
  - unfold avgPPECompliance. by intros ->.
  - unfold camPct. destruct (Z.ltb_spec 0 (ss_cameras_total s)) as [Ht|Ht]; [|split; lra].
    destruct (ratio_bounds (inject_Z (ss_cameras_online s)) (inject_Z (ss_cameras_total s))) as [R1 R2];
      [by rewrite <- (Zlt_Qlt 0)|split; [rewrite <- (Zle_Qle 0)|rewrite <- Zle_Qle]; lia|]. split; lra.
  - unfold camColor. transitivity (Qeq_bool (camPct s) 100 = true); [destruct (Qeq_bool (camPct s) 100), (Qle_bool 80 (camPct s)); by split|].
    rewrite Qeq_bool_iff. unfold camPct. destruct (Z.ltb_spec 0 (ss_cameras_total s)) as [Ht|Ht]; [|split; [intros _; lia|done]].
    assert (Hn : ~ (inject_Z (ss_cameras_total s) == 0)%Q) by (intros E; pose proof (proj1 (inject_Z_injective (ss_cameras_total s) 0) E); lia).
    split; intros E.
    + pose proof (Qmult_div_r (inject_Z (ss_cameras_online s)) _ Hn) as Hm. apply inject_Z_injective. rewrite <- Hm.
      assert (E1 : (inject_Z (ss_cameras_online s) / inject_Z (ss_cameras_total s) == 1)%Q) by lra. rewrite E1. ring.
    + rewrite E. rewrite <- (Qmult_1_l 100) at 2. apply Qmult_comp; [|done]. by apply Qmult_inv_r.
Qed.

Lemma portal_figures_witness :
  0 ≤ avgPPECompliance [summary "Yard" "security_and_safety" 80; summary "Dock" "security_and_safety" (171 # 2)] ≤ 100.
Proof.
  apply (portal_figures [summary "Yard" "security_and_safety" 80; summary "Dock" "security_and_safety" (171 # 2)] (summary "Yard" "security_and_safety" 80)).
  - apply Forall_cons_2; [split; discriminate|]. apply Forall_singleton. split; discriminate.
  - vm_compute. split; discriminate.
Defined.

(** *** The exported files *)

(** Text without quotes, commas and line breaks. *)
Definition plain_char (c : Ascii.ascii) : Prop := c ≠ quote ∧ c ≠ comma ∧ c ≠ newline.
Definition plain_text (s : string) : Prop := Forall plain_char (String.list_ascii_of_string s).

Lemma plain_app a b : plain_text a → plain_text b → plain_text (a +:+ b).
Proof. unfold plain_text. rewrite list_ascii_of_string_app. intros H1 H2. by apply Forall_app. Qed.

Lemma plain_bytes s : Forall (λ n, n ≠ 34 ∧ n ≠ 44 ∧ n ≠ 10)%N (bytes_of s) → plain_text s.
Proof.
  unfold plain_text, bytes_of. rewrite Forall_fmap. intros H. eapply Forall_impl; [exact H|]. intros c (H1 & H2 & H3). simpl in *.
  split_and!; intros ->; [by apply H1|by apply H2|by apply H3].
Qed.

Lemma plain_pretty (z : Z) : plain_text (pretty z).
Proof.
  apply plain_bytes. eapply Forall_impl; [apply pretty_bytes|]. unfold digit_byte. intros n [H| ->]; [|by vm_compute].
  rewrite andb_true_iff, !N.leb_le in H. lia.
Qed.

Lemma plain_pad w z : plain_text (pad_start w z).
Proof.
  apply plain_bytes. unfold pad_start. rewrite bytes_of_bytes.
  - apply Forall_app. split; [by apply Forall_replicate|]. eapply Forall_impl; [apply pretty_bytes|]. unfold digit_byte. intros n [H| ->]; [|by vm_compute].
    rewrite andb_true_iff, !N.leb_le in H. lia.
  - apply Forall_app. split; [by apply Forall_replicate|]. eapply Forall_impl; [apply pretty_bytes|]. unfold digit_byte. intros n [H| ->]; [|done].
    rewrite andb_true_iff, !N.leb_le in H. lia.
Qed.

Lemma plain_lit s : forallb (λ c, negb (Ascii.eqb c quote) && negb (Ascii.eqb c comma) && negb (Ascii.eqb c newline)) (String.list_ascii_of_string s) = true → plain_text s.
Proof.
  intros H. apply Forall_forall. intros c Hin%list_elem_of_In. rewrite forallb_forall in H. specialize (H c Hin).
  rewrite !andb_true_iff, !negb_true_iff, !Ascii.eqb_neq in H. destruct H as [[H1 H2] H3]. done.
Qed.

Lemma plain_iso ms : plain_text (toISOString ms).
Proof.
  unfold toISOString. destruct (civil _) as [[y m] d].
  repeat (apply plain_app; [first [apply plain_pad|by apply plain_lit]|]). by apply plain_lit.
Qed.

(** A cell's text [x], read as [y], at the end of a line and before another cell. *)
Definition cell_reads (x y : string) : Prop :=
  csv_cells false x = [y] ∧ ∀ s, csv_cells false (x +:+ String comma s) = y :: csv_cells false s.

Lemma csv_cells_plain inq c r : c ≠ quote → c ≠ comma → csv_cells inq (String c r) = to_head c (csv_cells inq r).
Proof. intros H1 H2. simpl. rewrite (proj2 (Ascii.eqb_neq _ _) H1), (proj2 (Ascii.eqb_neq _ _) H2). by destruct inq. Qed.

Lemma reads_plain x : plain_text x → cell_reads x x.
Proof.
  unfold plain_text. induction x as [|c x IH]; simpl; intros H; [done|]. apply Forall_cons in H as [(H1 & H2 & _) H].
  destruct (IH H) as [I1 I2]. split; [by rewrite csv_cells_plain, I1|]. intros s.
  change (String c x +:+ String comma s) with (String c (x +:+ String comma s)). by rewrite csv_cells_plain, I2.
Qed.

Lemma csv_inside t s : Forall (λ c, c ≠ quote) (String.list_ascii_of_string t) →
  match s with String c _ => c ≠ quote | EmptyString => True end →
  csv_cells true (t +:+ String quote s) = match csv_cells false s with y :: r => (t +:+ y) :: r | [] => [] end.
Proof.
  intros H Hs. induction t as [|c t IH].
  - change (EmptyString +:+ String quote s) with (String quote s). destruct s as [|c s]; [done|].
    change (csv_cells true (String quote (String c s))) with (if Ascii.eqb c quote then to_head quote (csv_cells true s) else csv_cells false (String c s)).
    rewrite (proj2 (Ascii.eqb_neq _ _) Hs). by destruct (csv_cells false (String c s)).
  - simpl in H. apply Forall_cons in H as [Hc H]. change (String c t +:+ String quote s) with (String c (t +:+ String quote s)).
    simpl csv_cells at 1. rewrite (proj2 (Ascii.eqb_neq _ _) Hc). simpl. rewrite IH by done. by destruct (csv_cells false s).
Qed.

Lemma string_app_nil t : t +:+ EmptyString = t.
Proof. induction t as [|c t IH]; [done|]. change (String c t +:+ EmptyString) with (String c (t +:+ EmptyString)). by rewrite IH. Qed.

Lemma reads_quoted t : Forall (λ c, c ≠ quote) (String.list_ascii_of_string t) → cell_reads (quoted t) t.
Proof.
  intros H. split.
  - change (csv_cells false (quoted t)) with (csv_cells true (t +:+ String quote EmptyString)). rewrite csv_inside by done. simpl. by rewrite string_app_nil.
  - intros s. change (csv_cells false (quoted t +:+ String comma s)) with (csv_cells true ((t +:+ String quote EmptyString) +:+ String comma s)).
    replace ((t +:+ String quote EmptyString) +:+ String comma s) with (t +:+ String quote (String comma s)).
    2: { clear H. induction t as [|c t IH]; [done|]. change (String c t +:+ ?x) with (String c (t +:+ x)). by rewrite IH. }
    rewrite csv_inside; [|done|done]. change (csv_cells false (String comma s)) with (EmptyString :: csv_cells false s). simpl. by rewrite string_app_nil.
Qed.

Lemma csv_concat xs ys : xs ≠ [] → Forall2 cell_reads xs ys → csv_cells false (String.concat "," xs) = ys.
Proof.
  intros Hn H. induction H as [|x y xs ys [H1 H2] Hr IH]; [done|]. destruct Hr as [|x' y' xs ys Hx Hr]; [exact H1|].
  transitivity (csv_cells false (x +:+ String comma (String.concat "," (x' :: xs)))); [done|]. rewrite H2. f_equal. by apply IH.
Qed.

Lemma no_newline_concat l : Forall (λ x, ¬ has_char newline x) l → ¬ has_char newline (String.concat "," l).
Proof.
  induction 1 as [|x l Hx Hl IH]; [by intros Hin%elem_of_nil|]. destruct l as [|x' l]; [done|].
  change (String.concat "," (x :: x' :: l)) with (x +:+ String comma (String.concat "," (x' :: l))). rewrite has_char_app. intros [Hin|Hin]; [done|].
  unfold has_char in Hin. simpl in Hin. apply elem_of_cons in Hin as [Hin|Hin]; [discriminate Hin|]. by apply IH.
Qed.

Lemma csv_read_join rows cells :
  rows ≠ [] → Forall2 (λ r c, r ≠ [] ∧ Forall2 cell_reads r c ∧ Forall (λ x, ¬ has_char newline x) r) rows cells → csv_read (csv_join rows) = cells.
Proof.
  intros Hn H. unfold csv_read, csv_join. rewrite split_concat.
  - clear Hn. induction H as [|r c rows cells (H1 & H2 & _) Hr IH]; [done|]. cbn [fmap list_fmap]. by rewrite (csv_concat r c), <- IH.
  - by destruct rows.
  - clear Hn. induction H as [|r c rows cells (_ & _ & H3) Hr IH]; [constructor|]. constructor; [by apply no_newline_concat|done].
Qed.

Lemma plain_no_newline x : plain_text x → ¬ has_char newline x.
Proof. intros H Hin. unfold plain_text in H. rewrite Forall_forall in H. by destruct (H _ Hin) as (_ & _ & E). Qed.

Lemma plain_row r : r ≠ [] → Forall plain_text r → r ≠ [] ∧ Forall2 cell_reads r r ∧ Forall (λ x, ¬ has_char newline x) r.
Proof.
  intros Hn H. split_and!; [done| |eapply Forall_impl; [exact H|apply plain_no_newline]].
  clear Hn. induction H; constructor; [by apply reads_plain|done].
Qed.

Definition site_plain (s : SiteSummary) : Prop := Forall plain_text [ss_name s; ss_id s; feature_mode s; ss_status s; ss_last_activity s].
Definition incident_plain (i : IncidentSummary) : Prop := Forall plain_text [ns_id i; ns_severity i; ns_status i; ns_site_name i; ns_type i].

(** A spreadsheet reads back from the exported files the headers and one row of the right
    cells per site and per incident, as long as no text holds a comma, a quote or a line
    break; a title may hold commas. *)
Theorem exports_read_back sites incidents :
  Forall site_plain sites →
  Forall (λ i, incident_plain i ∧ Forall (λ c, c ≠ quote ∧ c ≠ newline) (String.list_ascii_of_string (ns_title i))) incidents →
  csv_read (exportSitesCSV sites) = site_headers :: (site_cells <$> sites) ∧
  csv_read (exportIncidentsCSV incidents) = incident_headers :: ((λ i, incident_cells (ns_title i) i) <$> incidents).
Proof.
  intros Hs Hi. split; apply csv_read_join; try done; constructor; try (apply plain_row; [done|by repeat (constructor; [by apply plain_lit|])]).
  - induction Hs as [|s sites H Hs IH]; constructor; [|done]. apply plain_row; [done|]. unfold site_plain in H. rewrite !Forall_cons in H. destruct H as (? & ? & ? & ? & ? & _).
    unfold site_cells. repeat first [apply Forall_nil_2|apply Forall_cons_2]; try done; apply plain_pretty.
  - induction Hi as [|i l [H Ht] Hi IH]; constructor; [|done]. unfold incident_plain in H. rewrite !Forall_cons in H. destruct H as (? & ? & ? & ? & ? & _).
    assert (Hq : Forall (λ c, c ≠ quote) (String.list_ascii_of_string (ns_title i))) by (eapply Forall_impl; [exact Ht|]; by intros c []).
    split_and!; [done| |].
    + unfold incident_cells. repeat first [apply List.Forall2_nil|apply List.Forall2_cons]; try (by apply reads_plain); [by apply reads_quoted|apply reads_plain, plain_iso].
    + unfold incident_cells. repeat first [apply Forall_nil_2|apply Forall_cons_2]; try (by apply plain_no_newline); [|apply plain_no_newline, plain_iso].
      unfold quoted. intros Hin. unfold has_char in Hin. cbn [String.list_ascii_of_string] in Hin. apply elem_of_cons in Hin as [E|Hin]; [discriminate E|].
      rewrite list_ascii_of_string_app in Hin. apply elem_of_app in Hin as [Hin|Hin].
      * rewrite Forall_forall in Ht. by destruct (Ht _ Hin).
      * apply list_elem_of_singleton in Hin. discriminate Hin.
Qed.

Definition incident (title site : string) : IncidentSummary :=
  mkIncidentSummary "E1" "high" "open" title "S1" site "c1" None 0 None 0 "intrusion" None None None None None.

Lemma exports_read_back_witness :
  csv_read (exportSitesCSV [summary "Yard" "security_only" 80]) = [site_headers; ["Yard"; "S1"; "security_only"; "active"; "3"; "1"; "12"; "2026-04-22T10:00:00Z"]] ∧
  csv_read (exportIncidentsCSV [incident "Fence, north" "Yard"]) =
    [incident_headers; ["E1"; "high"; "open"; "Fence, north"; "Yard"; "intrusion"; "1970-01-01T00:00:00.000Z"]].
Proof.
  apply (exports_read_back [summary "Yard" "security_only" 80] [incident "Fence, north" "Yard"]).
  - apply Forall_singleton. repeat (apply Forall_cons_2; [apply plain_lit; vm_compute; reflexivity|]). constructor.
  - apply Forall_singleton. split; [repeat (apply Forall_cons_2; [apply plain_lit; vm_compute; reflexivity|]); constructor|].
    repeat (apply Forall_cons_2; [split; discriminate|]). constructor.
Defined.

Definition commas (s : string) : nat := length (filter_where (λ c, Ascii.eqb c comma) (String.list_ascii_of_string s)).

Lemma commas_app a b : commas (a +:+ b) = (commas a + commas b)%nat.
Proof. unfold commas, filter_where. by rewrite list_ascii_of_string_app, filter_app, length_app. Qed.

Lemma commas_cons c s : commas (String c s) = if Ascii.eqb c comma then S (commas s) else commas s.
Proof. unfold commas. cbn [String.list_ascii_of_string]. rewrite filter_where_cons. by destruct (Ascii.eqb c comma). Qed.

Lemma csv_count s : Forall (λ c, c ≠ quote) (String.list_ascii_of_string s) → length (csv_cells false s) = S (commas s).
Proof.
  induction s as [|c s IH]; simpl; intros H; [done|]. apply Forall_cons in H as [Hc H]. rewrite (proj2 (Ascii.eqb_neq _ _) Hc).
  rewrite commas_cons. destruct (Ascii.eqb c comma); simpl; [by rewrite IH|]. rewrite <- (IH H). by destruct (csv_cells false s).
Qed.

Lemma concat_commas l : l ≠ [] → commas (String.concat "," l) = (length l - 1 + list_sum (commas <$> l))%nat.
Proof.
  induction l as [|x l IH]; [done|]. intros _. destruct l as [|y l]; [simpl; lia|].
  change (String.concat "," (x :: y :: l)) with (x +:+ String comma (String.concat "," (y :: l))). rewrite commas_app.
  change (commas (String comma (String.concat "," (y :: l)))) with (S (commas (String.concat "," (y :: l)))). rewrite IH by done. simpl. lia.
Qed.

Lemma concat_chars (P : Ascii.ascii → Prop) l : P comma → Forall (λ x, Forall P (String.list_ascii_of_string x)) l → Forall P (String.list_ascii_of_string (String.concat "," l)).
Proof.
  intros Hc. induction 1 as [|x l Hx Hl IH]; [constructor|]. destruct l as [|y l]; [done|].
  change (String.concat "," (x :: y :: l)) with (x +:+ String comma (String.concat "," (y :: l))). rewrite list_ascii_of_string_app.
  apply Forall_app. split; [done|]. by constructor.
Qed.

(** Texts are written as they are: each comma in a name, an id or another text of a site
    adds a column to its row, and what follows stands under the wrong heading. *)
Theorem comma_adds_column s :
  Forall (λ x, Forall (λ c, c ≠ quote) (String.list_ascii_of_string x)) [ss_name s; ss_id s; feature_mode s; ss_status s; ss_last_activity s] →
  length (csv_cells false (String.concat "," (site_cells s))) =
    (length site_headers + (commas (ss_name s) + commas (ss_id s) + commas (feature_mode s) + commas (ss_status s) + commas (ss_last_activity s)))%nat.
Proof.
  intros H. rewrite !Forall_cons in H. destruct H as (H1 & H2 & H3 & H4 & H5 & _).
  assert (Hp : ∀ z : Z, Forall (λ c, c ≠ quote) (String.list_ascii_of_string (pretty z)) ∧ commas (pretty z) = 0%nat).
  { intros z. pose proof (plain_pretty z) as Hz. unfold plain_text in Hz. split; [eapply Forall_impl; [exact Hz|]; by intros c []|].
    unfold commas. rewrite filter_where_nil; [done|]. intros c Hc. rewrite Forall_forall in Hz. apply Ascii.eqb_neq. by destruct (Hz c Hc) as (_ & ? & _). }
  rewrite csv_count.
  - rewrite concat_commas by done. unfold site_cells. cbn [fmap list_fmap list_sum length]. rewrite !(proj2 (Hp _)). unfold site_headers. simpl. lia.
  - apply concat_chars; [discriminate|]. unfold site_cells. repeat first [apply Forall_nil_2|apply Forall_cons_2]; try done; apply Hp.
Qed.

Lemma comma_adds_column_witness :
  length (csv_cells false (String.concat "," (site_cells (summary "Acme, Ltd" "security_only" 80)))) = S (length site_headers).
Proof.
  refine (eq_trans (comma_adds_column (summary "Acme, Ltd" "security_only" 80) _) _); [|reflexivity].
  repeat first [apply Forall_nil_2|apply Forall_cons_2|discriminate].
Defined.
