(* ===== verification/History.v ===== *)
(** * The portal's history page

    [app/portal/history/page.tsx]: the event list with its filters, the semantic search whose
    results stand in for it, and the two players.  A request is a task until its reply, in any
    order; a task carries the parameters it was sent with. *)

From S2P Require Import Prelude Types Http ApiClient.
From Stdlib Require Import QArith.
#[local] Open Scope string_scope.
#[local] Open Scope Z_scope.

Definition HISTORY_TYPES : list string :=
  ["intrusion"; "linecross"; "human"; "vehicle"; "face"; "loitering"; "lpr"; "object"; "motion"].

Definition eventSeverity (type : string) : string * string :=
  if existsb (String.eqb type) ["intrusion"; "human"; "face"] then ("#ef4444", "HIGH")
  else if existsb (String.eqb type) ["vehicle"; "linecross"; "loitering"; "lpr"] then ("#f59e0b", "MED") else ("#6b7280", "INFO").

Record HistoricalEvent := mkHistorical {
  hv_id : Z;
  hv_camera_id : string;
  hv_event_time : string;
  hv_event_type : string;
  hv_details : json;
  hv_thumbnail : option string;
  hv_segment_id : option Z;
  hv_playback_url : option string
}.

Record SearchEventsResponse := mkSearchResponse {
  sr_events : list HistoricalEvent;
  sr_next_offset : Z;
  sr_has_more : bool;
  sr_authorized_cameras : option (list string);
  sr_restricted : bool
}.

Record SemanticMatch := mkMatch {
  sx_segment_id : Z;
  sx_camera_id : string;
  sx_camera_name : string;
  sx_start_time : string;
  sx_end_time : string;
  sx_description : string;
  sx_tags : list string;
  sx_activity_level : string;
  sx_playback_url : string;
  sx_rank : Q
}.

Inductive HistoryCall := ListCameras | SearchCall (p : SearchParams) | SemanticCall (p : SemanticParams).
Inductive HistoryTask := HtCameras | HtSearch (p : SearchParams) | HtSemantic (p : SemanticParams).
Inductive HistoryReply :=
| HrCameras (l : list Camera) | HrEvents (r : SearchEventsResponse) | HrMatches (l : list SemanticMatch) | HrReject.

(** The filters: the dropdown, the types, the text and the range. *)
Record HistoryFilter := mkHistoryFilter { hf_camera : string; hf_types : list string; hf_search : string; hf_start : string; hf_end : string }.

Record HistoryPage := mkHistory {
  hi_filter : HistoryFilter;
  hi_events : list HistoricalEvent;
  hi_cameras : list Camera;
  hi_authorized : option (list string);
  hi_loading : bool;
  hi_hasMore : bool;
  hi_activeEvent : option HistoricalEvent;
  hi_query : string;
  hi_results : option (list SemanticMatch);
  hi_semLoading : bool;
  hi_activeSegment : option SemanticMatch;
  hi_tasks : list HistoryTask
}.

Definition upd_hi_filter (f : HistoryFilter) (s : HistoryPage) : HistoryPage :=
  mkHistory f (hi_events s) (hi_cameras s) (hi_authorized s) (hi_loading s) (hi_hasMore s) (hi_activeEvent s) (hi_query s) (hi_results s) (hi_semLoading s) (hi_activeSegment s) (hi_tasks s).
Definition upd_hi_list (l : list HistoricalEvent) (a : option (list string)) (more : bool) (s : HistoryPage) : HistoryPage :=
  mkHistory (hi_filter s) l (hi_cameras s) a (hi_loading s) more (hi_activeEvent s) (hi_query s) (hi_results s) (hi_semLoading s) (hi_activeSegment s) (hi_tasks s).
Definition upd_hi_cameras (l : list Camera) (s : HistoryPage) : HistoryPage :=
  mkHistory (hi_filter s) (hi_events s) l (hi_authorized s) (hi_loading s) (hi_hasMore s) (hi_activeEvent s) (hi_query s) (hi_results s) (hi_semLoading s) (hi_activeSegment s) (hi_tasks s).
Definition upd_hi_loading (b : bool) (s : HistoryPage) : HistoryPage :=
  mkHistory (hi_filter s) (hi_events s) (hi_cameras s) (hi_authorized s) b (hi_hasMore s) (hi_activeEvent s) (hi_query s) (hi_results s) (hi_semLoading s) (hi_activeSegment s) (hi_tasks s).
Definition upd_hi_players (e : option HistoricalEvent) (m : option SemanticMatch) (s : HistoryPage) : HistoryPage :=
  mkHistory (hi_filter s) (hi_events s) (hi_cameras s) (hi_authorized s) (hi_loading s) (hi_hasMore s) e (hi_query s) (hi_results s) (hi_semLoading s) m (hi_tasks s).
Definition upd_hi_semantic (q : string) (r : option (list SemanticMatch)) (b : bool) (s : HistoryPage) : HistoryPage :=
  mkHistory (hi_filter s) (hi_events s) (hi_cameras s) (hi_authorized s) (hi_loading s) (hi_hasMore s) (hi_activeEvent s) q r b (hi_activeSegment s) (hi_tasks s).
Definition upd_hi_tasks (t : list HistoryTask) (s : HistoryPage) : HistoryPage :=
  mkHistory (hi_filter s) (hi_events s) (hi_cameras s) (hi_authorized s) (hi_loading s) (hi_hasMore s) (hi_activeEvent s) (hi_query s) (hi_results s) (hi_semLoading s) (hi_activeSegment s) t.
Definition hi_await (t : HistoryTask) (s : HistoryPage) : HistoryPage := upd_hi_tasks (hi_tasks s ++ [t])%list s.

(** [defaultRange()], [now] in ms. *)
Definition defaultRange (now : Z) : string * string := (toISOString (now - 24 * 60 * 60 * 1000), toISOString now).

Definition or_undefined_list (l : list string) : option (list string) := match l with [] => None | _ => Some l end.
Definition non_empty (s : string) : option string := if truthy_str s then Some s else None.

Definition search_params (f : HistoryFilter) : SearchParams :=
  mkSearchParams (Some (hf_start f)) (Some (hf_end f)) (non_empty (hf_camera f)) (or_undefined_list (hf_types f)) (non_empty (hf_search f)) (Some 100) None.

Definition loadHistory (s : HistoryPage) : HistoryPage * list HistoryCall :=
  let p := search_params (hi_filter s) in (hi_await (HtSearch p) (upd_hi_loading true s), [SearchCall p]).

Definition mount_history (now : Z) : HistoryPage * list HistoryCall :=
  let r := defaultRange now in
  let s := mkHistory (mkHistoryFilter EmptyString [] EmptyString r.1 r.2) [] [] None false false None EmptyString None false None [HtCameras] in
  ((loadHistory s).1, ListCameras :: (loadHistory s).2).

Definition cameraOptions (s : HistoryPage) : list Camera :=
  match hi_authorized s with
  | None => hi_cameras s
  | Some ids => filter_where (λ c, existsb (String.eqb (cam_id c)) ids) (hi_cameras s)
  end.

Definition history_cameraName (s : HistoryPage) (id : string) : string :=
  match List.find (λ c, String.eqb (cam_id c) id) (hi_cameras s) with Some c => cam_name c | None => String.substring 0 8 id end.

(** The form's handler; [searchSemantic] of the box, the range and the camera. *)
Definition semantic_params (q : string) (f : HistoryFilter) : SemanticParams :=
  mkSemanticParams q (Some (hf_start f)) (Some (hf_end f)) (non_empty (hf_camera f)) None (Some 50) None.

Definition submit_semantic (s : HistoryPage) : HistoryPage * list HistoryCall :=
  let q := trim (hi_query s) in
  if negb (truthy_str q) then (upd_hi_semantic (hi_query s) None (hi_semLoading s) s, [])
  else let p := semantic_params q (hi_filter s) in
       (hi_await (HtSemantic p) (upd_hi_semantic (hi_query s) (hi_results s) true s), [SemanticCall p]).

(** Whether a reply answers the request of its task. *)
Definition history_answers (t : HistoryTask) (r : HistoryReply) : bool :=
  match t, r with
  | _, HrReject => true
  | HtCameras, HrCameras _ | HtSearch _, HrEvents _ | HtSemantic _, HrMatches _ => true
  | _, _ => false
  end.

Definition history_resume (t : HistoryTask) (r : HistoryReply) (s : HistoryPage) : HistoryPage :=
  match t, r with
  | HtCameras, HrCameras l => upd_hi_cameras l s
  | HtSearch _, HrEvents e => upd_hi_loading false (upd_hi_list (sr_events e) (sr_authorized_cameras e) (sr_has_more e) s)
  | HtSearch _, _ => upd_hi_loading false s
  | HtSemantic _, HrMatches l => upd_hi_semantic (hi_query s) (Some l) false (upd_hi_players None (hi_activeSegment s) s)
  | HtSemantic _, _ => upd_hi_semantic (hi_query s) (hi_results s) false s
  | _, _ => s
  end.

(** The server's answer about cameras ([internal/api/events.go]): an empty slice is left out. *)
Definition authorized_json (restricted : bool) (allowed : list string) : option (list string) :=
  if restricted then or_undefined_list allowed else None.

Section page.
Context (local_ms : string → option Z).   (* [new Date(local).getTime()], [None] for NaN *)
Context (date_ms : string → option Z).    (* the same of an ISO text *)
Context (zone : Z → Z).                   (* the offset of the local time at a time *)

(** [toISOString] of an invalid date throws, which the helper catches. *)
Definition fromLocalInput (local : string) : string :=
  match local_ms local with Some ms => toISOString ms | None => local end.

(** For the years 1000 to 9999; an invalid date prints its fields as NaN. *)
Definition toLocalInput (iso : string) : string :=
  match date_ms iso with
  | Some ms => String.substring 0 16 (toISOString (ms + zone ms))
  | None => "NaN-NaN-NaNTNaN:NaN"
  end.

Inductive HistoryEvent :=
| HFrom (local : string) | HTo (local : string) | HCamera (id : string) | HTypes (l : list string) | HText (v : string)
| HQuery (v : string) | HSubmit | HClear
| HPickEvent (i : nat) | HPickMatch (i : nat) | HCloseEvent | HCloseSegment
| HSettles (i : nat) (r : HistoryReply).

(** A changed filter runs the load effect: a range and a list of types are new objects each
    time, a camera and a text run it when they differ. *)
Definition refilter (f : HistoryFilter) (s : HistoryPage) : HistoryPage * list HistoryCall := loadHistory (upd_hi_filter f s).

Definition history_step (e : HistoryEvent) (s : HistoryPage) : HistoryPage * list HistoryCall :=
  let f := hi_filter s in
  match e with
  | HFrom v => refilter (mkHistoryFilter (hf_camera f) (hf_types f) (hf_search f) (fromLocalInput v) (hf_end f)) s
  | HTo v => refilter (mkHistoryFilter (hf_camera f) (hf_types f) (hf_search f) (hf_start f) (fromLocalInput v)) s
  | HCamera id =>
      if negb (String.eqb id (hf_camera f)) && (String.eqb id EmptyString || existsb (λ c, String.eqb (cam_id c) id) (cameraOptions s))
      then refilter (mkHistoryFilter id (hf_types f) (hf_search f) (hf_start f) (hf_end f)) s else (s, [])
  | HTypes l =>
      if bool_decide (l = filter_where (λ t, existsb (String.eqb t) l) HISTORY_TYPES)
      then refilter (mkHistoryFilter (hf_camera f) l (hf_search f) (hf_start f) (hf_end f)) s else (s, [])
  | HText v =>
      if negb (String.eqb v (hf_search f)) then refilter (mkHistoryFilter (hf_camera f) (hf_types f) v (hf_start f) (hf_end f)) s else (s, [])
  | HQuery v => (upd_hi_semantic v (hi_results s) (hi_semLoading s) s, [])
  | HSubmit => if hi_semLoading s || negb (truthy_str (trim (hi_query s))) then (s, []) else submit_semantic s
  | HClear =>
      (match hi_results s with
       | Some _ => upd_hi_players (hi_activeEvent s) None (upd_hi_semantic EmptyString None (hi_semLoading s) s)
       | None => s
       end, [])
  | HPickEvent i =>
      (match hi_results s, hi_events s !! i with None, Some ev => upd_hi_players (Some ev) (hi_activeSegment s) s | _, _ => s end, [])
  | HPickMatch i =>
      (match hi_results s with
       | Some l => match l !! i with Some m => upd_hi_players None (Some m) s | None => s end
       | None => s
       end, [])
  | HCloseEvent => (match hi_activeEvent s with Some _ => upd_hi_players None (hi_activeSegment s) s | None => s end, [])
  | HCloseSegment => (match hi_activeEvent s, hi_activeSegment s with None, Some _ => upd_hi_players None None s | _, _ => s end, [])
  | HSettles i r =>
      match hi_tasks s !! i with
      | Some t => if history_answers t r then (history_resume t r (upd_hi_tasks (delete i (hi_tasks s)) s), []) else (s, [])
      | None => (s, [])
      end
  end.

Definition history_run (es : list HistoryEvent) (s : HistoryPage) : HistoryPage * list HistoryCall :=
  foldl (λ p e, let r := history_step e p.1 in (r.1, p.2 ++ r.2)%list) (s, []) es.


(** ** Theorems *)

Lemma history_run_snoc es e s :
  history_run (es ++ [e])%list s = ((history_step e (history_run es s).1).1, ((history_run es s).2 ++ (history_step e (history_run es s).1).2)%list).
Proof. unfold history_run. by rewrite foldl_app. Qed.

(** What [refilter] leaves alone. *)
Lemma history_refilter f s :
  let q := (refilter f s).1 in
  hi_activeEvent q = hi_activeEvent s ∧ hi_activeSegment q = hi_activeSegment s ∧ hi_results q = hi_results s ∧ hi_filter q = f ∧
  hi_events q = hi_events s ∧ hi_tasks q = (hi_tasks s ++ [HtSearch (search_params f)])%list.
Proof. done. Qed.

(** *** The players *)

Definition players_ok (s : HistoryPage) : Prop :=
  match hi_activeSegment s with Some _ => hi_activeEvent s = None ∧ is_Some (hi_results s) | None => True end.

Lemma players_step e s : players_ok s → players_ok (history_step e s).1.
Proof.
  intros H. destruct e; cbn [history_step]; try (exact H).
  - by destruct (_ && _).
  - by destruct (bool_decide _).
  - by destruct (negb _).
  - unfold players_ok in *. destruct (_ || _) eqn:E; [done|]. apply orb_false_iff in E as [_ E]. unfold submit_semantic. by rewrite E.
  - unfold players_ok in *. destruct (hi_results s) eqn:Er; simpl; [done|by rewrite Er].
  - unfold players_ok in *. destruct (hi_results s) eqn:Er; [simpl; by rewrite Er|]. destruct (hi_events s !! i); [|simpl; by rewrite Er]. simpl. destruct (hi_activeSegment s); [|done].
    by destruct H as [_ [? ?]].
  - unfold players_ok in *. destruct (hi_results s) eqn:Er; [|simpl; by rewrite Er]. destruct (l !! i); simpl; rewrite Er; [by split; [|eexists]|done].
  - unfold players_ok in *. destruct (hi_activeEvent s) eqn:Ea; simpl; rewrite ?Ea; [|done]. destruct (hi_activeSegment s); [by destruct H|done].
  - unfold players_ok in *. destruct (hi_activeEvent s) eqn:Ea, (hi_activeSegment s) eqn:Em; simpl; rewrite ?Em; first [done|by destruct H].
  - destruct (hi_tasks s !! i) as [t|]; [|done]. destruct (history_answers t r); [|done]. unfold players_ok in *. destruct t, r; try done; simpl; try (by destruct (hi_activeSegment s)).
Qed.

(** At most one player is open: a segment plays only over the results of a search and
    never together with an event, so closing one never reveals another. *)
Theorem one_player es now :
  let s := (history_run es (mount_history now).1).1 in
  hi_activeSegment s ≠ None → hi_activeEvent s = None ∧ is_Some (hi_results s).
Proof.
  intros s Hs. assert (H : players_ok s).
  { subst s. clear Hs. induction es as [|e es IH] using rev_ind; [done|]. rewrite history_run_snoc. by apply players_step. }
  unfold players_ok in H. by destruct (hi_activeSegment s).
Qed.

(** *** Results of the semantic search *)

Definition no_clear (e : HistoryEvent) : Prop := match e with HClear => False | _ => True end.
Definition no_submit (e : HistoryEvent) : Prop := match e with HSubmit => False | _ => True end.
Definition semantic_task (t : HistoryTask) : bool := match t with HtSemantic _ => true | _ => false end.
Definition semantic_call (c : HistoryCall) : bool := match c with SemanticCall _ => true | _ => false end.
Definition no_semantic (s : HistoryPage) : Prop := Forall (λ t, semantic_task t = false) (hi_tasks s).

Lemma quiet_app s t : no_semantic s → semantic_task t = false → Forall (λ t, semantic_task t = false) (hi_tasks s ++ [t])%list.
Proof. intros H Ht. apply Forall_app. split; [done|by apply Forall_singleton]. Qed.

Lemma results_step e s l :
  hi_results s = Some l → no_clear e → ∃ l', hi_results (history_step e s).1 = Some l'.
Proof.
  intros H He. destruct e; try done; cbn [history_step]; try (by exists l).
  - destruct (_ && _); by exists l.
  - destruct (bool_decide _); by exists l.
  - destruct (negb _); by exists l.
  - destruct (_ || _) eqn:E; [by exists l|]. apply orb_false_iff in E as [_ E]. unfold submit_semantic. rewrite E. by exists l.
  - rewrite H. by exists l.
  - rewrite H. destruct (l !! i); by exists l.
  - destruct (hi_activeEvent s); by exists l.
  - destruct (hi_activeEvent s), (hi_activeSegment s); by exists l.
  - destruct (hi_tasks s !! i) as [t|]; [|by exists l]. destruct (history_answers t r); [|by exists l]. destruct t, r; by eexists.
Qed.

Lemma results_kept e s l :
  hi_results s = Some l → no_clear e → no_submit e → no_semantic s →
  hi_results (history_step e s).1 = Some l ∧ no_semantic (history_step e s).1 ∧ Forall (λ c, semantic_call c = false) (history_step e s).2.
Proof.
  intros H He Hn Hq.
  assert (Hr : ∀ f, hi_results (refilter f s).1 = Some l ∧ no_semantic (refilter f s).1 ∧ Forall (λ c, semantic_call c = false) (refilter f s).2).
  { intros f. split; [done|]. split; [by apply (quiet_app (upd_hi_loading true (upd_hi_filter f s)))|by apply Forall_singleton]. }
  assert (Hs : hi_results s = Some l ∧ no_semantic s ∧ Forall (λ c, semantic_call c = false) []) by (split_and!; [done|done|constructor]).
  destruct e; try done; cbn [history_step]; try apply Hr.
  - destruct (_ && _); [apply Hr|exact Hs].
  - destruct (bool_decide _); [apply Hr|exact Hs].
  - destruct (negb _); [apply Hr|exact Hs].
  - rewrite H. exact Hs.
  - rewrite H. destruct (l !! i); exact Hs.
  - destruct (hi_activeEvent s); exact Hs.
  - destruct (hi_activeEvent s), (hi_activeSegment s); exact Hs.
  - destruct (hi_tasks s !! i) as [t|] eqn:Et; [|exact Hs]. destruct (history_answers t r); [|exact Hs].
    pose proof (Forall_lookup_1 _ _ _ _ Hq Et) as Ht. assert (Hd : Forall (λ t, semantic_task t = false) (delete i (hi_tasks s))) by by apply Forall_delete.
    split_and!; [|by destruct t, r|constructor]. by destruct t, r.
Qed.

(** The results of a semantic search stand in for the events until they are cleared with
    the button: emptying the box does not bring the events back.  A change of range or camera
    does not search again, so the results stay those of the range and camera at the time of
    the search. *)
Theorem results_until_clear es s l :
  hi_results s = Some l → Forall no_clear es →
  is_Some (hi_results (history_run es s).1) ∧
  (Forall no_submit es → no_semantic s →
   hi_results (history_run es s).1 = Some l ∧ Forall (λ c, semantic_call c = false) (history_run es s).2).
Proof.
  intros H Hes. split.
  - induction es as [|e es IH] using rev_ind; [by exists l|]. apply Forall_app in Hes as [Hes He]. apply Forall_cons in He as [He _].
    rewrite history_run_snoc. destruct (IH Hes) as [l' E]. by destruct (results_step e _ l' E He) as [l'' ?]; exists l''.
  - intros Hn Hq. enough (G : hi_results (history_run es s).1 = Some l ∧ no_semantic (history_run es s).1 ∧ Forall (λ c, semantic_call c = false) (history_run es s).2) by by destruct G as (? & ? & ?).
    induction es as [|e es IH] using rev_ind; [split_and!; [done|done|constructor]|]. apply Forall_app in Hes as [Hes He]. apply Forall_cons in He as [He _].
    apply Forall_app in Hn as [Hn Hne]. apply Forall_cons in Hne as [Hne _]. rewrite history_run_snoc. destruct (IH Hes Hn) as (I1 & I2 & I3).
    destruct (results_kept e _ l I1 He Hne I2) as (J1 & J2 & J3). split_and!; [done|done|]. by apply Forall_app.
Qed.

(** *** The event list *)

Section answered.
Context (answer : SearchParams → SearchEventsResponse).

Definition search_of (t : HistoryTask) : option SearchParams := match t with HtSearch p => Some p | _ => None end.
Definition searches (s : HistoryPage) : list SearchParams := omap search_of (hi_tasks s).

(** Searches are answered in the order they were sent. *)
Definition in_order (s : HistoryPage) (e : HistoryEvent) : Prop :=
  match e with
  | HSettles i r =>
      match hi_tasks s !! i with
      | Some (HtSearch p) => r = HrEvents (answer p) ∧ omap search_of (take i (hi_tasks s)) = []
      | _ => True
      end
  | _ => True
  end.

Fixpoint in_order_run (es : list HistoryEvent) (s : HistoryPage) : Prop :=
  match es with [] => True | e :: r => in_order s e ∧ in_order_run r (history_step e s).1 end.

Definition list_current (s : HistoryPage) : Prop :=
  match last (searches s) with
  | Some p => p = search_params (hi_filter s)
  | None => hi_events s = sr_events (answer (search_params (hi_filter s)))
  end.

Lemma current_refilter f s : list_current (refilter f s).1.
Proof. unfold list_current, searches. simpl. rewrite omap_app. simpl. by rewrite last_snoc. Qed.

Lemma current_step e s : in_order s e → list_current s → list_current (history_step e s).1.
Proof.
  intros Ho H. destruct e; cbn [history_step]; try apply current_refilter; try (exact H).
  - destruct (_ && _); [apply current_refilter|exact H].
  - destruct (bool_decide _); [apply current_refilter|exact H].
  - destruct (negb _); [apply current_refilter|exact H].
  - destruct (_ || _) eqn:E; [exact H|]. apply orb_false_iff in E as [_ E]. unfold submit_semantic. rewrite E.
    unfold list_current, searches in *. simpl. rewrite omap_app. simpl. by rewrite app_nil_r.
  - by destruct (hi_results s).
  - by destruct (hi_results s), (hi_events s !! i).
  - destruct (hi_results s) as [l|]; [|exact H]. by destruct (l !! i).
  - by destruct (hi_activeEvent s).
  - by destruct (hi_activeEvent s), (hi_activeSegment s).
  - destruct (hi_tasks s !! i) as [t|] eqn:Et; [|exact H]. destruct (history_answers t r) eqn:Ea; [|exact H]. simpl in Ho. rewrite Et in Ho.
    assert (Hsplit : searches s = (omap search_of (take i (hi_tasks s)) ++ omap search_of (t :: drop (S i) (hi_tasks s)))%list).
    { unfold searches. rewrite <- (take_drop_middle _ _ _ Et) at 1. by rewrite omap_app. }
    assert (Hdel : omap search_of (delete i (hi_tasks s)) = (omap search_of (take i (hi_tasks s)) ++ omap search_of (drop (S i) (hi_tasks s)))%list).
    { by rewrite delete_take_drop, omap_app. }
    unfold list_current in *. unfold searches at 1. destruct t as [|p|p].
    + assert (E : omap search_of (delete i (hi_tasks s)) = searches s) by (by rewrite Hdel, Hsplit).
      destruct r; try done; simpl; by rewrite E.
    + destruct Ho as [-> Hnone]. cbn [fst history_resume hi_tasks hi_filter hi_events upd_hi_loading upd_hi_list upd_hi_tasks]. rewrite Hdel, Hnone. rewrite Hsplit, Hnone in H.
      change (omap search_of (HtSearch p :: drop (S i) (hi_tasks s))) with (p :: omap search_of (drop (S i) (hi_tasks s))) in H.
      destruct (omap search_of (drop (S i) (hi_tasks s))) as [|q l]; cbn [app last] in *; [by subst p|].
      by destruct (last_is_Some (q :: l)) as [_ [x Hx]]; [done|cbn [last] in Hx; rewrite Hx in *].
    + assert (E : omap search_of (delete i (hi_tasks s)) = searches s) by (by rewrite Hdel, Hsplit).
      destruct r; try done; simpl; by rewrite E.
Qed.

(** When the server's answers come in the order of the searches, the list shows the
    answer to the filters on display whenever no search is under way. *)
Theorem in_order_current es now :
  in_order_run es (mount_history now).1 →
  let s := (history_run es (mount_history now).1).1 in
  searches s = [] → hi_events s = sr_events (answer (search_params (hi_filter s))).
Proof.
  intros Ho s Hs. assert (H : list_current s).
  { subst s. clear Hs. unfold history_run. assert (H : list_current (mount_history now).1) by done. revert H Ho.
    generalize (mount_history now).1 as s. generalize (@nil HistoryCall) as cs. induction es as [|e es IH]; intros cs s H Ho; [done|].
    destruct Ho as [Ho1 Ho2]. simpl. apply IH; [|done]. by apply current_step. }
  unfold list_current in H. by rewrite Hs in H.
Qed.
End answered.

(** Answers out of order: the list shows the first search's answer under the filters of
    the second, for good, and the list does not say it is loading while a search still is. *)
Theorem late_search_shown s v1 v2 r1 r2 :
  hi_tasks s = [] → v1 ≠ hf_search (hi_filter s) → v2 ≠ v1 →
  let f2 := mkHistoryFilter (hf_camera (hi_filter s)) (hf_types (hi_filter s)) v2 (hf_start (hi_filter s)) (hf_end (hi_filter s)) in
  let half := (history_run [HText v1; HText v2; HSettles 1 (HrEvents r2)] s).1 in
  let q := (history_step (HSettles 0 (HrEvents r1)) half).1 in
  hi_loading half = false ∧ length (hi_tasks half) = 1%nat ∧
  hi_filter q = f2 ∧ hi_events q = sr_events r1 ∧ hi_loading q = false ∧ hi_tasks q = [].
Proof.
  intros Ht H1 H2. cbv zeta.
  set (f v := mkHistoryFilter (hf_camera (hi_filter s)) (hf_types (hi_filter s)) v (hf_start (hi_filter s)) (hf_end (hi_filter s))).
  assert (E1 : history_step (HText v1) s = refilter (f v1) s) by (unfold history_step; by rewrite (proj2 (String.eqb_neq _ _) H1)).
  assert (E2 : history_step (HText v2) (refilter (f v1) s).1 = refilter (f v2) (refilter (f v1) s).1).
  { unfold history_step. change (hf_search (hi_filter (refilter (f v1) s).1)) with v1. by rewrite (proj2 (String.eqb_neq _ _) H2). }
  unfold history_run. cbn [foldl fst snd]. rewrite E1, E2. set (u := (refilter (f v2) (refilter (f v1) s).1).1).
  assert (Hu : hi_tasks u = [HtSearch (search_params (f v1)); HtSearch (search_params (f v2))]) by (subst u; simpl; by rewrite Ht).
  assert (Eh : history_step (HSettles 1 (HrEvents r2)) u =
    (upd_hi_loading false (upd_hi_list (sr_events r2) (sr_authorized_cameras r2) (sr_has_more r2) (upd_hi_tasks [HtSearch (search_params (f v1))] u)), []))
    by (unfold history_step; by rewrite Hu).
  rewrite Eh. cbn. done.
Qed.
End page.

Definition an_event (id : Z) : HistoricalEvent := mkHistorical id "c1" "t" "human" JNull None None None.
Definition events_reply (ids : list Z) (allowed : option (list string)) : SearchEventsResponse := mkSearchResponse (an_event <$> ids) 0 false allowed false.
Definition a_match : SemanticMatch := mkMatch 1 "c1" "Gate" "t" "t" "A person" [] "low" "u" (1 # 2).

Lemma one_player_witness :
  let es := [HQuery "ladder"; HSubmit; HSettles 1 (HrEvents (events_reply [7] None)); HPickEvent 0; HSettles 1 (HrMatches [a_match]); HPickMatch 0] in
  let s := (history_run (λ _, None) es (mount_history 0).1).1 in
  hi_activeSegment s = Some a_match ∧ hi_activeEvent s = None.
Proof.
  cbv zeta. split; [vm_compute; reflexivity|].
  apply (one_player (λ _, None) [HQuery "ladder"; HSubmit; HSettles 1 (HrEvents (events_reply [7] None)); HPickEvent 0; HSettles 1 (HrMatches [a_match]); HPickMatch 0] 0).
  vm_compute. discriminate.
Defined.

(** The page with the results of a search. *)
Definition with_results : HistoryPage :=
  mkHistory (mkHistoryFilter EmptyString [] EmptyString "a" "b") [an_event 7] [] None false false None "ladder" (Some [a_match]) false None [].

Lemma results_until_clear_witness :
  let es := [HQuery EmptyString; HSubmit; HFrom "x"; HText "plate"] in
  is_Some (hi_results (history_run (λ _, None) es with_results).1) ∧
  hi_results (history_run (λ _, None) [HFrom "x"; HText "plate"] with_results).1 = Some [a_match].
Proof.
  cbv zeta. split.
  - refine (proj1 (results_until_clear (λ _, None) [HQuery EmptyString; HSubmit; HFrom "x"; HText "plate"] with_results [a_match] eq_refl _)).
    repeat (apply Forall_cons_2; [exact I|]). constructor.
  - refine (proj1 (proj2 (results_until_clear (λ _, None) [HFrom "x"; HText "plate"] with_results [a_match] eq_refl _) _ _));
      [repeat (apply Forall_cons_2; [exact I|]); constructor..|constructor].
Defined.

(** An answer of the server that depends on the text searched for. *)
Definition by_text (p : SearchParams) : SearchEventsResponse := events_reply (match sp_search p with Some _ => [1; 2] | None => [7] end) None.

Lemma in_order_current_witness :
  let es := [HText "AB"; HSettles 1 (HrEvents (events_reply [7] None)); HSettles 1 (HrEvents (events_reply [1; 2] None))] in
  hi_events (history_run (λ _, None) es (mount_history 0).1).1 = [an_event 1; an_event 2].
Proof.
  cbv zeta. refine (eq_trans (in_order_current (λ _, None) by_text
    [HText "AB"; HSettles 1 (HrEvents (events_reply [7] None)); HSettles 1 (HrEvents (events_reply [1; 2] None))] 0 _ _) _).
  - vm_compute. repeat split.
  - vm_compute. reflexivity.
  - vm_compute. reflexivity.
Defined.

Lemma late_search_shown_witness :
  let half := (history_run (λ _, None) [HText "A"; HText "AB"; HSettles 1 (HrEvents (events_reply [1] None))] (upd_hi_tasks [] (mount_history 0).1)).1 in
  hi_events (history_step (λ _, None) (HSettles 0 (HrEvents (events_reply [7] None))) half).1 = [an_event 7].
Proof.
  destruct (late_search_shown (λ _, None) (upd_hi_tasks [] (mount_history 0).1) "A" "AB" (events_reply [7] None) (events_reply [1] None)) as (_ & _ & _ & H & _);
    [reflexivity|discriminate|discriminate|exact H].
Defined.

(** For a restricted caller the dropdown lists exactly the listed cameras that the server
    allows; a caller allowed none is offered every camera instead, since the server leaves an
    empty list out and the page takes that for no restriction. *)
Theorem dropdown_whitelist restricted allowed evs n more p s :
  let q := history_resume (HtSearch p) (HrEvents (mkSearchResponse evs n more (authorized_json restricted allowed) restricted)) s in
  (restricted = true → allowed ≠ [] → ∀ c, c ∈ cameraOptions q ↔ c ∈ hi_cameras s ∧ cam_id c ∈ allowed) ∧
  (restricted = false ∨ allowed = [] → cameraOptions q = hi_cameras s).
Proof.
  cbv zeta. split.
  - intros -> Hn c. destruct allowed as [|a allowed]; [done|]. unfold cameraOptions. cbn [history_resume authorized_json or_undefined_list hi_authorized upd_hi_loading upd_hi_list sr_authorized_cameras hi_cameras].
    rewrite elem_of_filter_where, existsb_exists. split.
    + intros [(x & Hx & E%String.eqb_eq) Hc]. split; [done|]. rewrite E. by apply list_elem_of_In.
    + intros [Hc Ha]. split; [|done]. exists (cam_id c). rewrite String.eqb_refl. split; [by apply list_elem_of_In|done].
  - intros [->| ->]; [done|by destruct restricted].
Qed.

Lemma dropdown_whitelist_witness :
  cameraOptions (history_resume (HtSearch (search_params (hi_filter with_results))) (HrEvents (mkSearchResponse [] 0 false (authorized_json true []) true)) with_results) =
  hi_cameras with_results.
Proof. apply (dropdown_whitelist true [] [] 0 false (search_params (hi_filter with_results)) with_results). right. reflexivity. Defined.
