(* ===== verification/Milesight.v ===== *)
(** * Camera configuration panels

    [components/MilesightAdvanced.tsx]: the panels of the vendor's options, each a JSON value
    that is loaded from the camera, edited field by field and saved as a whole; and the
    scenes of [internal/api/milesight_config.go], which the server unwraps and wraps.

    A panel is a JSON value: an edit [{ ...data, [key]: v }] replaces one field and keeps the
    rest, whatever else the camera sent.  [control] gives the fields that have a control. *)

From S2P Require Import Prelude Types Http.
From stdpp Require Import pretty.
From Stdlib Require Import QArith.
#[local] Open Scope string_scope.
#[local] Open Scope Z_scope.

(** ** Fields of a JSON value *)

Inductive FieldStep := SKey (k : string) | SIdx (i : nat).

#[export] Instance step_eq_dec : EqDecision FieldStep.
Proof. solve_decision. Defined.

Fixpoint jset_list (k : string) (v : json) (fs : list (string * json)) : list (string * json) :=
  match fs with
  | [] => [(k, v)]
  | e :: r => if String.eqb e.1 k then (k, v) :: r else e :: jset_list k v r
  end.

Fixpoint jpath_get (p : list FieldStep) (j : json) : option json :=
  match p with
  | [] => Some j
  | SKey k :: r => match jget k j with Some x => jpath_get r x | None => None end
  | SIdx i :: r => match j with JArr l => match l !! i with Some x => jpath_get r x | None => None end | _ => None end
  end.

(** [{ ...j, k: v }] and [l.map((x, n) => n === i ? ... : x)], nested. *)
Fixpoint jpath_set (p : list FieldStep) (v : json) (j : json) : json :=
  match p with
  | [] => v
  | SKey k :: r =>
      match j with
      | JObj fs =>
          match jget k (JObj fs) with
          | Some x => JObj (jset_list k (jpath_set r v x) fs)
          | None => match r with [] => JObj (jset_list k v fs) | _ => j end
          end
      | _ => j
      end
  | SIdx i :: r => match j with JArr l => JArr (alter (jpath_set r v) i l) | _ => j end
  end.

(** The paths part at some step. *)
Fixpoint diverge (p q : list FieldStep) : bool :=
  match p, q with
  | SKey a :: p', SKey b :: q' => if String.eqb a b then diverge p' q' else true
  | SIdx a :: p', SIdx b :: q' => if Nat.eqb a b then diverge p' q' else true
  | SKey _ :: _, SIdx _ :: _ | SIdx _ :: _, SKey _ :: _ => true
  | _, _ => false
  end.

(** ** The controls of the panels *)

(** A check box stores 0 or 1, a slider an integer of its range, a list one of its values; a
    number field any number, 0 when it is emptied. *)
Inductive FieldKind := KCheck | KText | KNumber | KRange (lo hi : Z) | KSelect (l : list Z).

Definition kind_ok (k : FieldKind) (v : json) : Prop :=
  match k with
  | KCheck => v = jnum 0 ∨ v = jnum 1
  | KText => ∃ s, v = JStr s
  | KNumber => ∃ q, v = JNum q
  | KRange lo hi => ∃ z, v = jnum z ∧ lo ≤ z ≤ hi
  | KSelect l => ∃ z, v = jnum z ∧ z ∈ l
  end.

Inductive VendorPanel := PStreams | POsd | PImage | PAudio | PNetwork | PPrivacy | PDateTime | PAutoReboot | PAlarmIn | PAlarmOut.

(** The panel's name in the address. *)
Definition panel_slug (p : VendorPanel) : string :=
  match p with
  | PStreams => "streams" | POsd => "osd" | PImage => "image" | PAudio => "audio" | PNetwork => "network" | PPrivacy => "privacyMask"
  | PDateTime => "datetime" | PAutoReboot => "autoReboot" | PAlarmIn => "alarmInput" | PAlarmOut => "alarmOutput"
  end.

Definition RESOLUTION_PRESETS : list (Z * Z) :=
  [(3840, 2160); (2592, 1944); (2560, 1440); (1920, 1080); (1280, 960); (1280, 720); (704, 576); (640, 480); (352, 288)].

Definition assoc {A} (k : string) (l : list (string * A)) : option A := snd <$> find_where (λ e, String.eqb e.1 k) l.

(** [StreamEditor]; a width and a height are set together, see [pick_resolution]. *)
Definition stream_control (canDisable : bool) (f : string) : option FieldKind :=
  if canDisable && String.eqb f "enable" then Some KCheck
  else assoc f [("framerate", KRange 1 30); ("bitrate", KNumber); ("rateMode", KSelect [0; 1]); ("profileCodec", KSelect [0; 1; 2]); ("profileGop", KNumber);
                ("smartStreamEnable", KCheck); ("width", KSelect RESOLUTION_PRESETS.*1); ("height", KSelect RESOLUTION_PRESETS.*2)].

Definition osd_controls : list (string * FieldKind) :=
  [("osdEnable", KCheck); ("osdString", KText); ("osdDateTimeEnable", KCheck); ("osdFontSize", KSelect [0; 1; 2; 3]); ("osdFontColor", KText);
   ("osdBackgroundEnable", KCheck); ("osdDateTimeFormat", KSelect [0; 1; 2])].
Definition image_controls : list (string * FieldKind) :=
  [("brightness", KRange 0 100); ("contrast", KRange 0 100); ("colorSaturation", KRange 0 100); ("sharpness", KRange 0 100); ("exposureGain", KRange 0 100);
   ("dnr2Level", KRange 0 100); ("powerlineFreq", KSelect [0; 1]); ("imageRotation", KSelect [0; 1; 2; 3]); ("defogMode", KSelect [0; 1; 2]); ("mirrorCorridor", KCheck)].
Definition audio_controls : list (string * FieldKind) :=
  [("enable", KCheck); ("codec", KSelect [0; 1; 2; 3]); ("inputGain", KRange 0 100); ("outputVolume", KRange 0 100); ("alarmLevel", KRange 0 100); ("denoise", KCheck)].
Definition network_controls : list (string * FieldKind) :=
  [("dhcpEnable", KCheck); ("ipaddress", KText); ("netmask", KText); ("gateway", KText); ("dns0", KText); ("dns1", KText); ("deviceName", KText); ("deviceLocation", KText)].
Definition mask_controls : list (string * FieldKind) :=
  [("isexist", KCheck); ("maskShow", KCheck); ("maskX", KNumber); ("maskY", KNumber); ("maskWidth", KNumber); ("maskHeight", KNumber);
   ("maskType", KSelect [0; 1; 2; 3; 4; 5; 6; 7]); ("maskName", KText)].
Definition datetime_controls : list (string * FieldKind) :=
  [("ntpSyncEnable", KCheck); ("ntpServer", KText); ("ntpInterval", KNumber); ("timeZoneTz", KText)].
Definition reboot_controls : list (string * FieldKind) :=
  [("rebootEnable", KCheck); ("rebootWeekday", KSelect [0; 1; 2; 3; 4; 5; 6; 7]); ("rebootHour", KNumber); ("rebootMin", KNumber)].
Definition input_controls : list (string * FieldKind) := [("enable", KCheck); ("normal", KSelect [0; 1])].
Definition output_controls : list (string * FieldKind) := [("enable", KCheck); ("delayTime", KNumber)].

(** The control of a field, if it has one. *)
Definition control (pl : VendorPanel) (p : list FieldStep) : option FieldKind :=
  match pl, p with
  | PStreams, [SKey a; SKey s; SKey f] =>
      if negb (String.eqb a "streamList") then None
      else if String.eqb s "mainStream" then stream_control false f
      else if String.eqb s "subStream" || String.eqb s "thirdStream" then stream_control true f else None
  | POsd, [SKey a; SIdx 0; SKey f] => if String.eqb a "osdInfoList" then assoc f osd_controls else None
  | PImage, [SKey f] => assoc f image_controls
  | PAudio, [SKey f] => assoc f audio_controls
  | PNetwork, [SKey f] => assoc f network_controls
  | PPrivacy, [SKey f] => assoc f [("maskEnable", KCheck)]
  | PPrivacy, [SKey a; SIdx _; SKey f] => if String.eqb a "maskList" then assoc f mask_controls else None
  | PDateTime, [SKey f] => assoc f datetime_controls
  | PAutoReboot, [SKey f] => assoc f reboot_controls
  | PAlarmIn, [SKey a; SIdx _; SKey f] => if String.eqb a "inputList" then assoc f input_controls else None
  | PAlarmOut, [SKey a; SIdx _; SKey f] => if String.eqb a "outputList" then assoc f output_controls else None
  | _, _ => None
  end.

(** The list of resolutions: [resolutionKey] and its [onChange]. *)
Definition dims (w h : Z) : string := pretty w +:+ "×" +:+ pretty h.
Definition is_preset (w h : Z) : bool := existsb (λ p, (p.1 =? w) && (p.2 =? h)) RESOLUTION_PRESETS.
Definition resolutionKey (w h : Z) : string := if is_preset w h then dims w h else "custom:" +:+ dims w h.
Definition resolution_options (w h : Z) : list string :=
  ((λ p, dims p.1 p.2) <$> RESOLUTION_PRESETS) ++ (if is_preset w h then [] else ["custom:" +:+ dims w h]).
Definition pick_resolution (v : string) : option (Z * Z) :=
  if String.prefix "custom:" v then None else find_where (λ p, String.eqb (dims p.1 p.2) v) RESOLUTION_PRESETS.

(** ** A panel with its load and its save ([usePanel], [useSaver], [SaveBar]) *)

Inductive PanelCall := PGet | PPut (body : json).
Inductive PanelTask := PtGet | PtPut.
Inductive PanelReply := PrData (j : json) | PrError (msg : string).

Record PanelState := mkPanel {
  ms_data : option json;
  ms_error : option string;
  ms_loading : bool;
  ms_saving : bool;
  ms_msg : option string;
  ms_timers : nat;
  ms_tasks : list PanelTask
}.

Definition upd_ms_data (d : option json) (s : PanelState) : PanelState :=
  mkPanel d (ms_error s) (ms_loading s) (ms_saving s) (ms_msg s) (ms_timers s) (ms_tasks s).
Definition upd_ms_load (e : option string) (b : bool) (s : PanelState) : PanelState :=
  mkPanel (ms_data s) e b (ms_saving s) (ms_msg s) (ms_timers s) (ms_tasks s).
Definition upd_ms_save (b : bool) (m : option string) (n : nat) (s : PanelState) : PanelState :=
  mkPanel (ms_data s) (ms_error s) (ms_loading s) b m n (ms_tasks s).
Definition upd_ms_tasks (t : list PanelTask) (s : PanelState) : PanelState :=
  mkPanel (ms_data s) (ms_error s) (ms_loading s) (ms_saving s) (ms_msg s) (ms_timers s) t.
Definition ms_await (t : PanelTask) (s : PanelState) : PanelState := upd_ms_tasks (ms_tasks s ++ [t]) s.

Definition panel_reload (s : PanelState) : PanelState * list PanelCall := (ms_await PtGet (upd_ms_load None true s), [PGet]).
Definition mount_panel : PanelState * list PanelCall := panel_reload (mkPanel None None true false None 0 []).

Definition panel_save (body : json) (s : PanelState) : PanelState * list PanelCall :=
  (ms_await PtPut (upd_ms_save true None (ms_timers s) s), [PPut body]).

Definition panel_resume (t : PanelTask) (r : PanelReply) (s : PanelState) : PanelState :=
  match t, r with
  | PtGet, PrData j => upd_ms_load (ms_error s) false (upd_ms_data (Some j) s)
  | PtGet, PrError m => upd_ms_load (Some m) false s
  | PtPut, PrData _ => upd_ms_save false (Some "Saved") (S (ms_timers s)) s
  | PtPut, PrError m => upd_ms_save false (Some ("Error: " +:+ m)) (ms_timers s) s
  end.

(** Whether the form is there: the date, reboot and alarm forms only need data, the others
    also that nothing is loading and no load failed. *)
Definition form_guarded (pl : VendorPanel) : bool :=
  match pl with PDateTime | PAutoReboot | PAlarmIn | PAlarmOut => false | _ => true end.

(** Data without the part a form shows has no form: an overlay, a list of outputs. *)
Definition has_form (pl : VendorPanel) (j : json) : bool :=
  let truthy p := match jpath_get p j with Some x => truthy_json x | None => false end in
  truthy_json j && match pl with POsd => truthy [SKey "osdInfoList"; SIdx 0] | PAlarmOut => truthy [SKey "outputList"] | _ => true end.

Definition form_shown (pl : VendorPanel) (s : PanelState) : option json :=
  if form_guarded pl && (ms_loading s || bool_decide (is_Some (ms_error s))) then None
  else match ms_data s with Some j => if has_form pl j then Some j else None | None => None end.

(** What the user enters: a number field that is emptied or holds no number gives [None]. *)
Inductive Entry := EnCheck (b : bool) | EnText (t : string) | EnNumber (q : option Q) | EnPick (z : Z).

(** What a control makes of an entry ([e.target.checked ? 1 : 0], [Number(e.target.value)]). *)
Definition control_value (k : FieldKind) (e : Entry) : option json :=
  match k, e with
  | KCheck, EnCheck b => Some (jnum (if b then 1 else 0))
  | KText, EnText t => Some (JStr t)
  | KNumber, EnNumber q => Some (JNum (default 0%Q q))
  | KRange lo hi, EnPick z => if (lo <=? z) && (z <=? hi) then Some (jnum z) else None
  | KSelect l, EnPick z => if bool_decide (z ∈ l) then Some (jnum z) else None
  | _, _ => None
  end.

(** An entry in the control of a field, or a pick in a stream's list of resolutions. *)
Inductive VendorEvent :=
| PEdit (p : list FieldStep) (e : Entry)
| PResolution (stream : string) (v : string)
| PSave | PReload | PTimer
| PSettles (i : nat) (r : PanelReply).

Definition stream_path (stream f : string) : list FieldStep := [SKey "streamList"; SKey stream; SKey f].
Definition is_stream (s : string) : bool := existsb (String.eqb s) ["mainStream"; "subStream"; "thirdStream"].

(** A stream's width and height have one control for both. *)
Definition is_resolution (p : list FieldStep) : bool :=
  match p with [_; _; SKey f] => String.eqb f "width" || String.eqb f "height" | _ => false end.

Definition vendor_step (pl : VendorPanel) (e : VendorEvent) (s : PanelState) : PanelState * list PanelCall :=
  match e with
  | PEdit p en =>
      (match form_shown pl s, control pl p with
       | Some j, Some k =>
           if is_resolution p then s
           else match control_value k en with Some v => upd_ms_data (Some (jpath_set p v j)) s | None => s end
       | _, _ => s
       end, [])
  | PResolution stream v =>
      (match form_shown pl s, pl with
       | Some j, PStreams =>
           match pick_resolution v with
           | Some (w, h) =>
               if is_stream stream then upd_ms_data (Some (jpath_set (stream_path stream "height") (jnum h) (jpath_set (stream_path stream "width") (jnum w) j))) s else s
           | None => s
           end
       | _, _ => s
       end, [])
  | PSave => match form_shown pl s with Some j => if ms_saving s then (s, []) else panel_save j s | None => (s, []) end
  | PReload => match form_shown pl s with Some _ => if ms_saving s then (s, []) else panel_reload s | None => (s, []) end
  | PTimer => (match ms_timers s with S n => upd_ms_save (ms_saving s) None n s | O => s end, [])
  | PSettles i r =>
      match ms_tasks s !! i with
      | Some t => (panel_resume t r (upd_ms_tasks (delete i (ms_tasks s)) s), [])
      | None => (s, [])
      end
  end.

Definition vendor_run (pl : VendorPanel) (es : list VendorEvent) (s : PanelState) : PanelState * list PanelCall :=
  foldl (λ p e, let r := vendor_step pl e p.1 in (r.1, (p.2 ++ r.2)%list)) (s, []) es.

(** ** The scenes ([unwrapSceneList] and the wrapping of [HandleMilesightSet]) *)

Definition scene_of (j : json) : option Q := match jget "scene" j with Some (JNum q) => Some q | _ => None end.
Definition is_scene0 (j : json) : bool :=
  match j with JObj _ => match scene_of j with Some q => Qeq_bool q 0 | None => false end | _ => false end.
Definition as_object (j : json) : option json := match j with JObj _ => Some j | _ => None end.

Definition unwrapSceneList (wrapKey : string) (raw : json) : json :=
  match raw with
  | JObj _ =>
      match jget wrapKey raw with
      | Some (JArr (x :: l)) =>
          match find_where is_scene0 (x :: l) with
          | Some m => m
          | None => match as_object x with Some m => m | None => raw end
          end
      | _ => raw
      end
  | _ => raw
  end.

(** The body the camera gets; [None] is the refusal of a body that is no object. *)
Definition wrap_scene (wrapKey : string) (body : json) : option json :=
  match body with JObj fs => Some (JObj [(wrapKey, JArr [JObj (jset_list "scene" (jnum 0) fs)])]) | _ => None end.

(** ** Theorems *)

(** *** Fields *)

Lemma jget_set_same k v fs : jget k (JObj (jset_list k v fs)) = Some v.
Proof.
  unfold jget. induction fs as [|e fs IH]; simpl; [by rewrite find_where_cons, String.eqb_refl|].
  destruct (String.eqb e.1 k) eqn:E; rewrite find_where_cons; simpl; [by rewrite String.eqb_refl|by rewrite E].
Qed.

Lemma jget_set_other k k' v fs : k ≠ k' → jget k' (JObj (jset_list k v fs)) = jget k' (JObj fs).
Proof.
  intros H. unfold jget. induction fs as [|e fs IH]; simpl.
  - rewrite find_where_cons. simpl. by rewrite (proj2 (String.eqb_neq _ _) H).
  - destruct (String.eqb_spec e.1 k) as [E|E]; rewrite !find_where_cons; simpl; rewrite ?E.
    + by rewrite (proj2 (String.eqb_neq _ _) H).
    + destruct (String.eqb e.1 k'); [done|exact IH].
Qed.

Lemma jset_same k x fs : jget k (JObj fs) = Some x → jset_list k x fs = fs.
Proof.
  unfold jget. induction fs as [|[k' y] fs IH]; [done|]. rewrite find_where_cons. simpl. destruct (String.eqb_spec k' k) as [->|]; simpl.
  - by intros [= <-].
  - intros E. f_equal. by apply IH.
Qed.

Lemma alter_same {A} (f : A → A) (i : nat) (l : list A) : (∀ x, l !! i = Some x → f x = x) → alter f i l = l.
Proof.
  revert i. induction l as [|y l IH]; intros i H; [done|]. destruct i as [|i]; cbn; f_equal; [by apply H|]. apply IH. intros x Hx. by apply H.
Qed.

(** A set field reads as set, unless the value has no place for it. *)
Lemma jpath_get_set p v j : jpath_get p (jpath_set p v j) = Some v ∨ jpath_set p v j = j.
Proof.
  revert j. induction p as [|st p IH]; intros j; [by left|]. destruct st as [k|i]; destruct j as [|b|q|t|l|fs]; try (by right); cbn [jpath_set].
  - destruct (jget k (JObj fs)) as [x|] eqn:E.
    + destruct (IH x) as [I|I]; [left; cbn [jpath_get]; by rewrite jget_set_same|]. right. by rewrite I, jset_same.
    + destruct p; [left; cbn [jpath_get]; by rewrite jget_set_same|by right].
  - destruct (l !! i) as [x|] eqn:E; [destruct (IH x) as [I|I]|].
    + left. cbn [jpath_get]. by rewrite list_lookup_alter_eq, E.
    + right. f_equal. apply alter_same. intros y. rewrite E. by intros [= <-].
    + right. f_equal. apply alter_same. intros y. by rewrite E.
Qed.

Lemma jpath_get_diverge p q v j : diverge p q = true → jpath_get q (jpath_set p v j) = jpath_get q j.
Proof.
  revert q j. induction p as [|st p IH]; intros q j H; [done|]. destruct q as [|st' q]; [by destruct st|].
  destruct st as [k|i], st' as [k'|i']; cbn [diverge] in H.
  - destruct j as [| | | | |fs]; try done. cbn [jpath_set]. destruct (String.eqb_spec k k') as [<-|Hk].
    + destruct (jget k (JObj fs)) as [x|] eqn:E; [cbn [jpath_get]; rewrite jget_set_same, E; by apply IH|]. destruct p; [done|]. cbn [jpath_get]. by rewrite E.
    + destruct (jget k (JObj fs)) as [x|]; [cbn [jpath_get]; by rewrite jget_set_other|]. destruct p; [cbn [jpath_get]; by rewrite jget_set_other|done].
  - destruct j as [| | | | |fs]; try done. cbn [jpath_set]. destruct (jget k (JObj fs)); [done|]. by destruct p.
  - by destruct j.
  - destruct j as [| | | |l|]; try done. cbn [jpath_set jpath_get]. destruct (Nat.eqb_spec i i') as [<-|Hi].
    + rewrite list_lookup_alter_eq. destruct (l !! i) as [x|]; simpl; [by apply IH|done].
    + by rewrite list_lookup_alter_ne.
Qed.

(** *** The controls *)

Lemma control_value_ok k e v : control_value k e = Some v → kind_ok k v.
Proof.
  destruct k, e; try done; simpl.
  - intros [= <-]. destruct b; [by right|by left].
  - intros [= <-]. by eexists.
  - intros [= <-]. by eexists.
  - destruct (_ && _) eqn:E; [|done]. intros [= <-]. apply andb_true_iff in E. exists z. split; [done|lia].
  - destruct (bool_decide _) eqn:E; [|done]. intros [= <-]. apply bool_decide_eq_true in E. by exists z.
Qed.

Definition list_key (pl : VendorPanel) : string :=
  match pl with PStreams => "streamList" | POsd => "osdInfoList" | PPrivacy => "maskList" | PAlarmIn => "inputList" | PAlarmOut => "outputList" | _ => EmptyString end.

Inductive shape (pl : VendorPanel) : list FieldStep → Prop :=
| sh_flat f : f ≠ list_key pl → shape pl [SKey f]
| sh_stream s f : pl = PStreams → shape pl [SKey (list_key pl); SKey s; SKey f]
| sh_row i f : pl ≠ PStreams → shape pl [SKey (list_key pl); SIdx i; SKey f].

Lemma control_shape pl p k : control pl p = Some k → shape pl p.
Proof.
  intros H.
  assert (Hflat : ∀ f l, assoc f l = Some k → assoc (list_key pl) l = None → shape pl [SKey f]).
  { intros f l H1 H2. constructor. intros ->. congruence. }
  destruct pl; destruct p as [|[a|i] [|[b|j] [|[c|m] [|? ?]]]]; try done; cbn [control] in H; try (by eapply Hflat; [exact H|]); try (by destruct j).
  - destruct (String.eqb_spec a "streamList") as [->|]; [by apply (sh_stream PStreams)|done].
  - destruct j; [|done]. destruct (String.eqb_spec a "osdInfoList") as [->|]; [by apply (sh_row POsd)|done].
  - destruct (String.eqb_spec a "maskList") as [->|]; [by apply (sh_row PPrivacy)|done].
  - destruct (String.eqb_spec a "inputList") as [->|]; [by apply (sh_row PAlarmIn)|done].
  - destruct (String.eqb_spec a "outputList") as [->|]; [by apply (sh_row PAlarmOut)|done].
Qed.

(** Two fields with controls are the same or part. *)
Lemma shape_diverge pl p q : shape pl p → shape pl q → p ≠ q → diverge p q = true.
Proof.
  intros [f Hf|s f ->|i f Hp] [f' Hf'|s' f' Hp'|i' f' Hp'] Hne; try done; cbn [diverge list_key]; rewrite ?String.eqb_refl.
  - destruct (String.eqb_spec f f'); congruence.
  - by rewrite (proj2 (String.eqb_neq _ _) Hf).
  - by rewrite (proj2 (String.eqb_neq _ _) Hf).
  - cbn [list_key] in Hf'. destruct (String.eqb_spec "streamList" f'); congruence.
  - destruct (String.eqb_spec s s'); [|done]. destruct (String.eqb_spec f f'); congruence.
  - destruct (String.eqb_spec (list_key pl) f'); congruence.
  - destruct (Nat.eqb_spec i i'); [|done]. destruct (String.eqb_spec f f'); congruence.
Qed.

(** *** What a save sends *)

Definition loaded (es : list VendorEvent) (j : json) : Prop := ∃ i, PSettles i (PrData j) ∈ es.

(** [j] is [j0] but for fields with controls, which hold what their controls offer. *)
Record edited (pl : VendorPanel) (j0 j : json) : Prop := mkEdited {
  ed_frame : ∀ q, (∀ p k, control pl p = Some k → diverge p q = true) → jpath_get q j = jpath_get q j0;
  ed_fields : ∀ p k, control pl p = Some k → jpath_get p j = jpath_get p j0 ∨ ∃ v, jpath_get p j = Some v ∧ kind_ok k v
}.

Lemma edited_refl pl j : edited pl j j.
Proof. constructor; [done|by left]. Qed.

Lemma edited_set pl j0 j p k v : edited pl j0 j → control pl p = Some k → kind_ok k v → edited pl j0 (jpath_set p v j).
Proof.
  intros [H1 H2] Hp Hv. constructor.
  - intros q Hq. rewrite jpath_get_diverge by (by eapply Hq). by apply H1.
  - intros q k' Hq. destruct (decide (p = q)) as [<-|Hne].
    + rewrite Hp in Hq. injection Hq as <-. destruct (jpath_get_set p v j) as [E|E]; [right; by exists v|rewrite E; by apply H2].
    + rewrite jpath_get_diverge by (eapply shape_diverge; [by eapply control_shape|by eapply control_shape|done]). by apply H2.
Qed.

Lemma resolution_controls stream v w h :
  pick_resolution v = Some (w, h) → is_stream stream = true →
  control PStreams (stream_path stream "width") = Some (KSelect RESOLUTION_PRESETS.*1) ∧ w ∈ RESOLUTION_PRESETS.*1 ∧
  control PStreams (stream_path stream "height") = Some (KSelect RESOLUTION_PRESETS.*2) ∧ h ∈ RESOLUTION_PRESETS.*2.
Proof.
  unfold pick_resolution. destruct (String.prefix "custom:" v); [done|]. intros [_ Hin]%find_where_Some Hs.
  assert (Hc : ∀ f k, stream_control true f = Some k → stream_control false f = Some k → control PStreams (stream_path stream f) = Some k).
  { intros f k H1 H2. unfold is_stream in Hs. cbn [existsb] in Hs. rewrite orb_false_r, !orb_true_iff, !String.eqb_eq in Hs. by destruct Hs as [->|[->| ->]]. }
  split_and!; try (by apply Hc); [exact (list_elem_of_fmap_2 fst _ _ Hin)|exact (list_elem_of_fmap_2 snd _ _ Hin)].
Qed.

Definition data_ok (pl : VendorPanel) (es : list VendorEvent) (s : PanelState) : Prop :=
  ∀ j, ms_data s = Some j → ∃ j0, loaded es j0 ∧ edited pl j0 j.

Lemma form_data pl s j : form_shown pl s = Some j → ms_data s = Some j.
Proof. unfold form_shown. destruct (_ && _); [done|]. destruct (ms_data s) as [x|]; [|done]. destruct (has_form pl x); [by intros [= ->]|done]. Qed.

Lemma panel_step_ok pl es e s : data_ok pl es s →
  data_ok pl (es ++ [e])%list (vendor_step pl e s).1 ∧
  (∀ b, PPut b ∈ (vendor_step pl e s).2 → ms_data s = Some b).
Proof.
  intros H.
  assert (Hk : ∀ s', ms_data s' = ms_data s → data_ok pl (es ++ [e])%list s').
  { intros s' E j Hj. rewrite E in Hj. destruct (H j Hj) as (j0 & [i Hi] & He). exists j0. split; [|done]. exists i. apply elem_of_app. by left. }
  assert (Hset : ∀ s' j p k v, form_shown pl s = Some j → control pl p = Some k → kind_ok k v → ms_data s' = Some (jpath_set p v j) → data_ok pl (es ++ [e])%list s').
  { intros s' j p k v Hj Hp Hv E x Hx. rewrite E in Hx. injection Hx as <-. destruct (H j (form_data _ _ _ Hj)) as (j0 & [i Hi] & He).
    exists j0. split; [exists i; apply elem_of_app; by left|by eapply edited_set]. }
  assert (Hnil : ∀ b, PPut b ∈ [] → ms_data s = Some b) by (by intros b ?%elem_of_nil).
  destruct e as [p en|stream v| | | |i r]; cbn [vendor_step].
  - split; [|done]. destruct (form_shown pl s) as [j|] eqn:Ej; [|by apply Hk]. destruct (control pl p) as [k|] eqn:Ep; [|by apply Hk].
    destruct (is_resolution p); [by apply Hk|]. destruct (control_value k en) as [v|] eqn:Ev; [|by apply Hk].
    eapply Hset; [done|done|by eapply control_value_ok|done].
  - split; [|done]. destruct (form_shown pl s) as [j|] eqn:Ej; [|by apply Hk]. destruct pl; try (by apply Hk).
    destruct (pick_resolution v) as [[w h]|] eqn:Er; [|by apply Hk]. destruct (is_stream stream) eqn:Es; [|by apply Hk].
    destruct (resolution_controls _ _ _ _ Er Es) as (C1 & M1 & C2 & M2). intros x Hx. cbn [fst ms_data upd_ms_data] in Hx. apply (inj Some) in Hx. subst x.
    destruct (H j (form_data _ _ _ Ej)) as (j0 & [i Hi] & He). exists j0. split; [exists i; apply elem_of_app; by left|].
    eapply edited_set; [|exact C2|by eexists]. eapply edited_set; [done|exact C1|by eexists].
  - destruct (form_shown pl s) as [j|] eqn:Ej; [|split; [by apply Hk|done]]. destruct (ms_saving s); [split; [by apply Hk|done]|].
    split; [by apply Hk|]. intros b [= ->]%list_elem_of_singleton. by apply form_data in Ej.
  - destruct (form_shown pl s); [|split; [by apply Hk|done]]. destruct (ms_saving s); [split; [by apply Hk|done]|].
    split; [by apply Hk|]. by intros b ?%list_elem_of_singleton.
  - split; [|done]. destruct (ms_timers s); by apply Hk.
  - split; [|by destruct (ms_tasks s !! i)]. destruct (ms_tasks s !! i) as [t|]; [|by apply Hk]. destruct t, r as [d|m]; try (by apply Hk).
    intros x Hx. injection Hx as <-. exists d. split; [|apply edited_refl]. exists i. apply elem_of_app. right. by left.
Qed.

Lemma panel_run_snoc pl es e s :
  vendor_run pl (es ++ [e])%list s = ((vendor_step pl e (vendor_run pl es s).1).1, ((vendor_run pl es s).2 ++ (vendor_step pl e (vendor_run pl es s).1).2)%list).
Proof. unfold vendor_run. by rewrite foldl_app. Qed.

(** Whatever is loaded, entered and answered in whatever order, what a panel writes to
    the camera is one of the states the camera reported in which only fields with a control
    differ, each holding a value its control offers; every other field, known to the page or
    not, is as reported. *)
Theorem saves_only_controls pl es body :
  PPut body ∈ (vendor_run pl es mount_panel.1).2 →
  ∃ j0, loaded es j0 ∧
    (∀ q, (∀ p k, control pl p = Some k → diverge p q = true) → jpath_get q body = jpath_get q j0) ∧
    (∀ p k, control pl p = Some k → jpath_get p body = jpath_get p j0 ∨ ∃ v, jpath_get p body = Some v ∧ kind_ok k v).
Proof.
  intros H. enough (G : data_ok pl es (vendor_run pl es mount_panel.1).1 ∧ ∀ b, PPut b ∈ (vendor_run pl es mount_panel.1).2 → ∃ j0, loaded es j0 ∧ edited pl j0 b).
  { destruct G as [_ G]. destruct (G body H) as (j0 & H1 & [H2 H3]). by exists j0. }
  clear H body. induction es as [|e es [I1 I2]] using rev_ind; [split; [done|by intros b ?%elem_of_nil]|].
  rewrite panel_run_snoc. destruct (panel_step_ok pl es e _ I1) as [J1 J2]. split; [done|]. intros b [Hb|Hb]%elem_of_app.
  - destruct (I2 b Hb) as (j0 & [i Hi] & He). exists j0. split; [|done]. exists i. apply elem_of_app. by left.
  - destruct (I1 b (J2 b Hb)) as (j0 & [i Hi] & He). exists j0. split; [|done]. exists i. apply elem_of_app. by left.
Qed.

Definition audio_report : json := JObj [("enable", jnum 1); ("codec", jnum 2); ("inputGain", jnum 50); ("vendorField", JStr "x")].

Lemma saves_only_controls_witness :
  let es := [PSettles 0 (PrData audio_report); PEdit [SKey "codec"] (EnPick 0); PEdit [SKey "enable"] (EnCheck false); PSave] in
  let body := JObj [("enable", jnum 0); ("codec", jnum 0); ("inputGain", jnum 50); ("vendorField", JStr "x")] in
  PPut body ∈ (vendor_run PAudio es mount_panel.1).2 ∧ jpath_get [SKey "vendorField"] body = Some (JStr "x").
Proof.
  cbv zeta. assert (H : PPut (JObj [("enable", jnum 0); ("codec", jnum 0); ("inputGain", jnum 50); ("vendorField", JStr "x")]) ∈
    (vendor_run PAudio [PSettles 0 (PrData audio_report); PEdit [SKey "codec"] (EnPick 0); PEdit [SKey "enable"] (EnCheck false); PSave] mount_panel.1).2).
  { vm_compute. left. }
  split; [exact H|]. destruct (saves_only_controls _ _ _ H) as (j0 & [i Hi] & Hf & _). rewrite (Hf [SKey "vendorField"]).
  - repeat (apply elem_of_cons in Hi as [Hi|Hi]; [first [discriminate Hi|injection Hi as _ ->; reflexivity]|]). by apply elem_of_nil in Hi.
  - intros p k Hp. apply control_shape in Hp as Hs. destruct Hs as [f Hf'|s f Hpl|i' f Hp']; [|discriminate Hpl|reflexivity].
    cbn [diverge]. destruct (String.eqb_spec f "vendorField") as [->|]; [discriminate Hp|reflexivity].
Defined.

(** *** Saving and loading *)

Definition puts (s : PanelState) : nat := length (filter_where (λ t, match t with PtPut => true | PtGet => false end) (ms_tasks s)).
Definition gets (s : PanelState) : nat := length (filter_where (λ t, match t with PtGet => true | PtPut => false end) (ms_tasks s)).

Definition panel_counts (pl : VendorPanel) (s : PanelState) : Prop :=
  puts s = (if ms_saving s then 1 else 0)%nat ∧ (form_guarded pl = true → gets s = (if ms_loading s then 1 else 0)%nat).

Lemma form_idle pl s j : form_shown pl s = Some j → form_guarded pl = true → ms_loading s = false.
Proof. unfold form_shown. intros H Hg. rewrite Hg in H. by destruct (ms_loading s). Qed.

Lemma panel_counts_step pl e s : panel_counts pl s → panel_counts pl (vendor_step pl e s).1.
Proof.
  intros [H1 H2]. assert (Hk : ∀ s', ms_tasks s' = ms_tasks s → ms_saving s' = ms_saving s → ms_loading s' = ms_loading s → panel_counts pl s').
  { intros s' E1 E2 E3. unfold panel_counts, puts, gets. by rewrite E1, E2, E3. }
  destruct e as [p en|stream v| | | |i r]; cbn [vendor_step].
  - destruct (form_shown pl s), (control pl p); try (by apply Hk). destruct (is_resolution p); [by apply Hk|]. destruct (control_value _ en); by apply Hk.
  - destruct (form_shown pl s); [|by apply Hk]. destruct pl; try (by apply Hk). destruct (pick_resolution v) as [[w h]|]; [|by apply Hk]. destruct (is_stream stream); by apply Hk.
  - destruct (form_shown pl s) as [j|]; [|by apply Hk]. destruct (ms_saving s) eqn:Es; [by apply Hk|].
    unfold panel_counts, puts, gets in *. cbn [fst panel_save panel_reload ms_await upd_ms_tasks upd_ms_save upd_ms_load ms_tasks ms_saving ms_loading]. rewrite !length_filter_snoc, H1. split; [done|]. intros Hg. rewrite (H2 Hg). lia.
  - destruct (form_shown pl s) as [j|] eqn:Ef; [|by apply Hk]. destruct (ms_saving s) eqn:Es; [by apply Hk|].
    unfold panel_counts, puts, gets in *. cbn [fst panel_save panel_reload ms_await upd_ms_tasks upd_ms_save upd_ms_load ms_tasks ms_saving ms_loading]. rewrite !length_filter_snoc, H1, Es. split; [done|]. intros Hg. by rewrite (H2 Hg), (form_idle _ _ _ Ef Hg).
  - destruct (ms_timers s); by apply Hk.
  - destruct (ms_tasks s !! i) as [t|] eqn:Et; [|by apply Hk].
    pose proof (length_filter_delete (λ t, match t with PtPut => true | PtGet => false end) _ _ _ Et) as D1. pose proof (length_filter_delete (λ t, match t with PtGet => true | PtPut => false end) _ _ _ Et) as D2.
    unfold panel_counts, puts, gets in *. destruct t, r; cbn -[filter_where delete] in *; (split; [destruct (ms_saving s); lia|intros Hg; specialize (H2 Hg); destruct (ms_loading s); lia]).
Qed.

(** The save button is disabled exactly while one write is on its way, never two; and in
    the panels that hide their form while loading, the form is hidden exactly while one load
    is, so no entry is lost to a load. *)
Theorem panel_one_write pl es :
  let s := (vendor_run pl es mount_panel.1).1 in
  puts s = (if ms_saving s then 1 else 0)%nat ∧ (form_guarded pl = true → gets s = (if ms_loading s then 1 else 0)%nat).
Proof.
  intros s. enough (H : panel_counts pl s) by exact H. subst s. induction es as [|e es IH] using rev_ind; [by split|].
  rewrite panel_run_snoc. by apply panel_counts_step.
Qed.

Lemma panel_one_write_witness : gets (vendor_run POsd [] mount_panel.1).1 = 1%nat.
Proof. exact (proj2 (panel_one_write POsd []) eq_refl). Defined.

(** A load that fails, the first or a later one, takes the form away with its reload
    button: nothing on the panel loads again, whatever is clicked. *)
Theorem failed_load_stuck pl es s m :
  form_guarded pl = true → ms_error s = Some m → ms_tasks s = [] →
  form_shown pl (vendor_run pl es s).1 = None ∧ (vendor_run pl es s).2 = [].
Proof.
  intros Hg Hm Ht. enough (G : (ms_error (vendor_run pl es s).1 = Some m ∧ ms_tasks (vendor_run pl es s).1 = []) ∧ (vendor_run pl es s).2 = []).
  { destruct G as [[G _] ?]. split; [|done]. unfold form_shown. by rewrite Hg, G, orb_true_r. }
  induction es as [|e es [[I1 I2] I3]] using rev_ind; [done|]. rewrite panel_run_snoc. cbn [fst snd]. rewrite I3. set (u := (vendor_run pl es s).1) in *.
  assert (Hf : form_shown pl u = None) by (unfold form_shown; by rewrite Hg, I1, orb_true_r).
  destruct e as [p en|stream v| | | |i r]; cbn [vendor_step]; rewrite ?Hf; try (by split).
  - by destruct (ms_timers u).
  - by rewrite I2.
Qed.

Lemma failed_load_stuck_witness :
  let s := (vendor_run POsd [PSettles 0 (PrError "HTTP 502")] mount_panel.1).1 in
  (vendor_run POsd [PReload; PSave; PEdit [SKey "osdInfoList"; SIdx 0; SKey "osdEnable"] (EnCheck true)] s).2 = [].
Proof.
  exact (proj2 (failed_load_stuck POsd [PReload; PSave; PEdit [SKey "osdInfoList"; SIdx 0; SKey "osdEnable"] (EnCheck true)]
    (vendor_run POsd [PSettles 0 (PrError "HTTP 502")] mount_panel.1).1 "HTTP 502" eq_refl eq_refl eq_refl)).
Defined.

(** *** Resolutions *)

Lemma prefix_append a b : String.prefix a (a +:+ b) = true.
Proof.
  induction a as [|c a IH]; [by destruct b|]. change (String c a +:+ b) with (String c (a +:+ b)). simpl. rewrite IH. by destruct (Ascii.ascii_dec c c).
Qed.

(** The list of a stream always offers its resolution, and picking an entry gives the
    resolution it names: a preset's, or for the entry of the current odd one nothing. *)
Theorem resolutions_exact w h :
  resolutionKey w h ∈ resolution_options w h ∧
  pick_resolution (resolutionKey w h) = (if is_preset w h then Some (w, h) else None) ∧
  (∀ o, o ∈ resolution_options w h → o = resolutionKey w h ∨ ∃ w' h', pick_resolution o = Some (w', h') ∧ resolutionKey w' h' = o).
Proof.
  assert (Hp : ∀ w h, is_preset w h = true → (w, h) ∈ RESOLUTION_PRESETS).
  { intros w' h'. unfold is_preset. rewrite existsb_exists. intros ([a b] & Hin & E). apply list_elem_of_In in Hin. apply andb_true_iff in E as [E1 E2]. simpl in *.
    apply Z.eqb_eq in E1, E2. by subst. }
  assert (Hq : Forall (λ p, pick_resolution (dims p.1 p.2) = Some p ∧ is_preset p.1 p.2 = true) RESOLUTION_PRESETS).
  { unfold RESOLUTION_PRESETS. repeat (apply Forall_cons_2; [split; vm_compute; reflexivity|]). constructor. }
  rewrite Forall_forall in Hq. unfold resolutionKey, resolution_options. destruct (is_preset w h) eqn:E.
  - pose proof (Hp _ _ E) as Hin. split_and!.
    + rewrite app_nil_r. exact (list_elem_of_fmap_2 (λ p, dims p.1 p.2) _ _ Hin).
    + exact (proj1 (Hq _ Hin)).
    + intros o Ho. rewrite app_nil_r in Ho. apply list_elem_of_fmap in Ho as ([a b] & -> & Hab). right. exists a, b. destruct (Hq _ Hab) as [Q1 Q2]. simpl in *. by rewrite Q2.
  - split_and!.
    + apply elem_of_app. right. by left.
    + unfold pick_resolution. by rewrite prefix_append.
    + intros o [Ho|Ho]%elem_of_app; [|left; by apply list_elem_of_singleton in Ho]. apply list_elem_of_fmap in Ho as ([a b] & -> & Hab). right. exists a, b. destruct (Hq _ Hab) as [Q1 Q2]. simpl in *. by rewrite Q2.
Qed.

(** *** Scenes *)

(** A panel of scenes that has a scene 0 is read and written back as that scene: the body
    the camera gets reads as the body saved, as scene 0.  When no scene has the number 0 the
    first one is shown, and saving it overwrites the settings of scene 0 with those of that
    scene. *)
Theorem scenes_exact wrapKey top x l bs :
  jget wrapKey (JObj top) = Some (JArr (x :: l)) →
  (∀ m, find_where is_scene0 (x :: l) = Some m → unwrapSceneList wrapKey (JObj top) = m ∧ is_scene0 m = true) ∧
  (∀ xs, find_where is_scene0 (x :: l) = None → x = JObj xs → unwrapSceneList wrapKey (JObj top) = x) ∧
  (∃ w, wrap_scene wrapKey (JObj bs) = Some w ∧ is_scene0 (unwrapSceneList wrapKey w) = true ∧
        ∀ f, f ≠ "scene" → jget f (unwrapSceneList wrapKey w) = jget f (JObj bs)) ∧
  (∀ b, (∀ fs, b ≠ JObj fs) → wrap_scene wrapKey b = None).
Proof.
  intros H. split_and!.
  - intros m Hm. unfold unwrapSceneList. rewrite H, Hm. split; [done|]. by apply find_where_Some in Hm as [? _].
  - intros xs Hn ->. unfold unwrapSceneList. by rewrite H, Hn.
  - eexists. split; [reflexivity|].
    assert (E : unwrapSceneList wrapKey (JObj [(wrapKey, JArr [JObj (jset_list "scene" (jnum 0) bs)])]) = JObj (jset_list "scene" (jnum 0) bs)).
    { unfold unwrapSceneList. replace (jget wrapKey _) with (Some (JArr [JObj (jset_list "scene" (jnum 0) bs)])) by (unfold jget; rewrite find_where_cons; simpl; by rewrite String.eqb_refl).
      rewrite find_where_cons. unfold is_scene0 at 1, scene_of. by rewrite jget_set_same. }
    rewrite E. split; [unfold is_scene0, scene_of; by rewrite jget_set_same|]. intros f Hf. by apply jget_set_other.
  - intros b Hb. destruct b; try done. by destruct (Hb fs).
Qed.

Lemma scenes_exact_witness :
  let night := JObj [("scene", jnum 1); ("brightness", jnum 30)] in
  let top := JObj [("sceneList", JArr [night]); ("irisType", jnum 0)] in
  unwrapSceneList "sceneList" top = night ∧
  wrap_scene "sceneList" night = Some (JObj [("sceneList", JArr [JObj [("scene", jnum 0); ("brightness", jnum 30)]])]).
Proof.
  cbv zeta. split; [|reflexivity].
  apply (scenes_exact "sceneList" [("sceneList", JArr [JObj [("scene", jnum 1); ("brightness", jnum 30)]]); ("irisType", jnum 0)]
    (JObj [("scene", jnum 1); ("brightness", jnum 30)]) [] [] eq_refl) with (xs := [("scene", jnum 1); ("brightness", jnum 30)]); reflexivity.
Defined.
