(* ===== verification/JsonText.v ===== *)
(** * JSON texts

    [JSON.stringify] and [JSON.parse] on the [json] values of [Types], for the texts that the
    application stores and text_ok back.  Strings are UTF-8; a lone surrogate of an escape is
    kept in the three-byte form of UTF-8.  [fraction_text] gives the text of a number that is
    not an integer, which none of the stored texts has. *)

From S2P Require Import Prelude Types Http.
From stdpp Require Import pretty.
From Stdlib Require Import Ascii QArith.
#[local] Open Scope string_scope.
#[local] Open Scope Z_scope.

Definition DQUOTE : ascii := "034"%char.
Definition BACKSLASH : ascii := "\"%char.
Definition code (c : ascii) : N := N_of_ascii c.

(** [xs.join_with(sep)] *)
Fixpoint join_with (sep : string) (l : list string) : string :=
  match l with
  | [] => EmptyString
  | x :: l' => match l' with [] => x | _ :: _ => x +:+ sep +:+ join_with sep l' end
  end.

(** ** Printing *)

Definition hex_char (n : N) : ascii := ascii_of_N (if (n <? 10)%N then 48 + n else 87 + n).

(** The two-character escapes. *)
Definition short_escape (c : ascii) : option ascii :=
  match code c with
  | 8 => Some "b" | 9 => Some "t" | 10 => Some "n" | 12 => Some "f" | 13 => Some "r" | 34 => Some DQUOTE | 92 => Some BACKSLASH
  | _ => None
  end%N%char.

Definition escape_char (c : ascii) : string :=
  match short_escape c with
  | Some e => String BACKSLASH (String e EmptyString)
  | None =>
      if (code c <? 32)%N
      then String BACKSLASH (String "u" (String "0" (String "0" (String (hex_char (code c / 16)) (String (hex_char (code c mod 16)) EmptyString)))))
      else String c EmptyString
  end.

Fixpoint escape (s : string) : string :=
  match s with EmptyString => EmptyString | String c s' => escape_char c +:+ escape s' end.

Definition quoted_text (s : string) : string := String DQUOTE (escape s +:+ String DQUOTE EmptyString).

Section printer.
Context (fraction_text : Q → string).

Definition number_json (q : Q) : string := if (Qden q =? 1)%positive then pretty (Qnum q) else fraction_text q.

Fixpoint stringify (j : json) : string :=
  match j with
  | JNull => "null"
  | JBool b => if b then "true" else "false"
  | JNum q => number_json q
  | JStr s => quoted_text s
  | JArr l => String "[" (join_with "," (map stringify l) +:+ "]")
  | JObj fs => String "{" (join_with "," (map (λ e, quoted_text e.1 +:+ ":" +:+ stringify e.2) fs) +:+ "}")
  end.
End printer.

(** ** Parsing *)

Definition is_blank (c : ascii) : bool := match code c with 32 | 9 | 10 | 13 => true | _ => false end%N.

Fixpoint skip_blank (s : string) : string :=
  match s with String c s' => if is_blank c then skip_blank s' else s | EmptyString => EmptyString end.

Definition digit_of (c : ascii) : option Z := if ((48 <=? code c) && (code c <=? 57))%N then Some (Z.of_N (code c) - 48) else None.

(** Leading digits after the value [a] of [k] digits: value, number of digits, rest. *)
Fixpoint read_digits (a : Z) (k : nat) (s : string) : Z * nat * string :=
  match s with
  | String c s' => match digit_of c with Some d => read_digits (a * 10 + d) (S k) s' | None => (a, k, s) end
  | EmptyString => (a, k, s)
  end.

(** Digits, at least one. *)
Definition digits1 (s : string) : option (Z * nat * string) :=
  match read_digits 0 0 s with (_, O, _) => None | r => Some r end.

Definition pow_of_ten (e : Z) : Q := if 0 <=? e then inject_Z (10 ^ e) else 1 # Z.to_pos (10 ^ (- e)).

Definition read_integer (s : string) : option (Z * string) :=
  match s with
  | String c s' =>
      match digit_of c with
      | Some 0 => Some (0, s')
      | Some d => Some (let '(a, _, r) := read_digits d 1 s' in (a, r))
      | None => None
      end
  | EmptyString => None
  end.

(** The part after the integer digits: digits of the fraction and their number. *)
Definition read_fraction (s : string) : option (option (Z * nat) * string) :=
  match s with
  | String c s' => if Ascii.eqb c "." then (λ x, (Some x.1, x.2)) <$> digits1 s' else Some (None, s)
  | EmptyString => Some (None, s)
  end.

Definition read_exponent (s : string) : option (option Z * string) :=
  match s with
  | String c s' =>
      if Ascii.eqb c "e" || Ascii.eqb c "E"
      then match s' with
           | String d s'' =>
               if Ascii.eqb d "-" then (λ x, (Some (- x.1.1), x.2)) <$> digits1 s''
               else if Ascii.eqb d "+" then (λ x, (Some x.1.1, x.2)) <$> digits1 s''
               else (λ x, (Some x.1.1, x.2)) <$> digits1 s'
           | EmptyString => None
           end
      else Some (None, s)
  | EmptyString => Some (None, s)
  end.

Definition number_value (neg : bool) (i : Z) (f : option (Z * nat)) (e : option Z) : Q :=
  let sign (q : Q) := if neg then Qopp q else q in
  match f, e with
  | None, None => inject_Z (if neg then - i else i)
  | _, _ =>
      let m := match f with Some (v, k) => (inject_Z i + (v # Pos.of_nat (10 ^ k)))%Q | None => inject_Z i end in
      Qred (sign (Qmult m (pow_of_ten (default 0 e))))
  end.

Definition read_number (s : string) : option (json * string) :=
  let '(neg, s0) := match s with String c s' => if Ascii.eqb c "-" then (true, s') else (false, s) | EmptyString => (false, s) end in
  '(i, s1) ← read_integer s0; '(f, s2) ← read_fraction s1; '(e, s3) ← read_exponent s2;
  Some (JNum (number_value neg i f e), s3).

(** A byte of a string, or the code unit of a [\u] escape. *)
Inductive CodeUnit := UByte (c : ascii) | UCode (n : N).

Definition hex_of (c : ascii) : option N :=
  let n := code c in
  if ((48 <=? n) && (n <=? 57))%N then Some (n - 48)%N
  else if ((97 <=? n) && (n <=? 102))%N then Some (n - 87)%N
  else if ((65 <=? n) && (n <=? 70))%N then Some (n - 55)%N else None.

Definition hex4 (a b c d : ascii) : option N :=
  match hex_of a, hex_of b, hex_of c, hex_of d with
  | Some w, Some x, Some y, Some z => Some (((w * 16 + x) * 16 + y) * 16 + z)%N
  | _, _, _, _ => None
  end.

Definition long_escape (e : ascii) : option ascii :=
  match code e with
  | 34 => Some DQUOTE | 92 => Some BACKSLASH | 47 => Some "/"
  | 98 => Some "008" | 102 => Some "012" | 110 => Some "010" | 114 => Some "013" | 116 => Some "009"
  | _ => None
  end%N%char.

Definition push_unit (u : CodeUnit) (o : option (list CodeUnit * string)) : option (list CodeUnit * string) :=
  match o with Some (l, r) => Some (u :: l, r) | None => None end.

(** The characters up to the closing quote. *)
Fixpoint read_chars (s : string) : option (list CodeUnit * string) :=
  match s with
  | EmptyString => None
  | String c r =>
      if Ascii.eqb c DQUOTE then Some ([], r)
      else if Ascii.eqb c BACKSLASH
      then match r with
           | String e r' =>
               if Ascii.eqb e "u"
               then match r' with
                    | String x1 (String x2 (String x3 (String x4 r''))) =>
                        match hex4 x1 x2 x3 x4 with Some n => push_unit (UCode n) (read_chars r'') | None => None end
                    | _ => None
                    end
               else match long_escape e with Some x => push_unit (UByte x) (read_chars r') | None => None end
           | EmptyString => None
           end
      else if (code c <? 32)%N then None
      else push_unit (UByte c) (read_chars r)
  end.

Definition utf8 (n : N) : string :=
  let b (k : N) := ascii_of_N k in
  if (n <? 128)%N then String (b n) EmptyString
  else if (n <? 2048)%N then String (b (192 + n / 64)%N) (String (b (128 + n mod 64)%N) EmptyString)
  else if (n <? 65536)%N
  then String (b (224 + n / 4096)%N) (String (b (128 + n / 64 mod 64)%N) (String (b (128 + n mod 64)%N) EmptyString))
  else String (b (240 + n / 262144)%N) (String (b (128 + n / 4096 mod 64)%N) (String (b (128 + n / 64 mod 64)%N) (String (b (128 + n mod 64)%N) EmptyString))).

Definition surrogates (h l : N) : bool := ((55296 <=? h) && (h <? 56320) && (56320 <=? l) && (l <? 57344))%N.

Fixpoint text_of_units (l : list CodeUnit) : string :=
  match l with
  | [] => EmptyString
  | UByte c :: r => String c (text_of_units r)
  | UCode h :: r =>
      match r with
      | UCode k :: r' =>
          if surrogates h k then utf8 (65536 + (h - 55296) * 1024 + (k - 56320))%N +:+ text_of_units r'
          else utf8 h +:+ text_of_units r
      | _ => utf8 h +:+ text_of_units r
      end
  end.

(** [s] after the text [p]. *)
Fixpoint after (p s : string) : option string :=
  match p, s with
  | EmptyString, _ => Some s
  | String a p', String b s' => if Ascii.eqb a b then after p' s' else None
  | String _ _, EmptyString => None
  end.

(** A property of a parsed object: a later value replaces an earlier one. *)
Fixpoint set_field (k : string) (v : json) (fs : list (string * json)) : list (string * json) :=
  match fs with
  | [] => [(k, v)]
  | (k', v') :: fs' => if String.eqb k' k then (k, v) :: fs' else (k', v') :: set_field k v fs'
  end.

Definition read_string (s : string) : option (string * string) :=
  match read_chars s with Some (l, r) => Some (text_of_units l, r) | None => None end.

Fixpoint value (n : nat) (s : string) : option (json * string) :=
  match n with
  | O => None
  | S n =>
      match skip_blank s with
      | EmptyString => None
      | String c r =>
          if Ascii.eqb c "[" then
            match skip_blank r with
            | String d r' => if Ascii.eqb d "]" then Some (JArr [], r') else elements n [] r
            | EmptyString => None
            end
          else if Ascii.eqb c "{" then
            match skip_blank r with
            | String d r' => if Ascii.eqb d "}" then Some (JObj [], r') else members n [] r
            | EmptyString => None
            end
          else if Ascii.eqb c DQUOTE then (λ x, (JStr x.1, x.2)) <$> read_string r
          else if Ascii.eqb c "t" then (λ r', (JBool true, r')) <$> after "rue" r
          else if Ascii.eqb c "f" then (λ r', (JBool false, r')) <$> after "alse" r
          else if Ascii.eqb c "n" then (λ r', (JNull, r')) <$> after "ull" r
          else read_number (String c r)
      end
  end
with elements (n : nat) (acc : list json) (s : string) : option (json * string) :=
  match n with
  | O => None
  | S n =>
      match value n s with
      | Some (v, r) =>
          match skip_blank r with
          | String c r' => if Ascii.eqb c "," then elements n (acc ++ [v]) r' else if Ascii.eqb c "]" then Some (JArr (acc ++ [v]), r') else None
          | EmptyString => None
          end
      | None => None
      end
  end
with members (n : nat) (acc : list (string * json)) (s : string) : option (json * string) :=
  match n with
  | O => None
  | S n =>
      match after (String DQUOTE EmptyString) (skip_blank s) with
      | Some s1 =>
          match read_string s1 with
          | Some (k, s2) =>
              match after ":" (skip_blank s2) with
              | Some s3 =>
                  match value n s3 with
                  | Some (v, r) =>
                      match skip_blank r with
                      | String c r' => if Ascii.eqb c "," then members n (set_field k v acc) r' else if Ascii.eqb c "}" then Some (JObj (set_field k v acc), r') else None
                      | EmptyString => None
                      end
                  | None => None
                  end
              | None => None
              end
          | None => None
          end
      | None => None
      end
  end.

(** [JSON.parse(s)]; [None] is a [SyntaxError]. *)
Definition JSON_parse (s : string) : option json :=
  match value (2 * String.length s + 2) s with
  | Some (v, r) => match skip_blank r with EmptyString => Some v | String _ _ => None end
  | None => None
  end.

(** ** Lemmas *)

(** *** Strings *)

Definition unit_of (c : ascii) : CodeUnit :=
  match short_escape c with Some _ => UByte c | None => if (code c <? 32)%N then UCode (code c) else UByte c end.

Lemma read_escape_char c s : read_chars (escape_char c +:+ s) = push_unit (unit_of c) (read_chars s).
Proof. by destruct c as [[] [] [] [] [] [] [] []]. Qed.

Fixpoint units (s : string) : list CodeUnit := match s with EmptyString => [] | String c s' => unit_of c :: units s' end.

Lemma read_escape s r : read_chars (escape s +:+ String DQUOTE r) = Some (units s, r).
Proof. induction s as [|c s IH]; [done|]. simpl escape. by rewrite <- sapp_assoc, read_escape_char, IH. Qed.

Lemma text_unit c l : text_of_units (unit_of c :: l) = String c (text_of_units l).
Proof. destruct c as [[] [] [] [] [] [] [] []]; try reflexivity; by destruct l as [|[|]]. Qed.

Lemma read_quoted s r : read_string (escape s +:+ String DQUOTE r) = Some (s, r).
Proof. unfold read_string. rewrite read_escape. f_equal. f_equal. induction s as [|c s IH]; [done|]. simpl units. by rewrite text_unit, IH. Qed.

(** *** Integers *)

Lemma digit_of_pretty (x : N) : (x < 10)%N → digit_of (pretty_N_char x) = Some (Z.of_N x).
Proof.
  intros. assert (x = 0 ∨ x = 1 ∨ x = 2 ∨ x = 3 ∨ x = 4 ∨ x = 5 ∨ x = 6 ∨ x = 7 ∨ x = 8 ∨ x = 9)%N as Hx by lia.
  destruct Hx as [->|[->|[->|[->|[->|[->|[->|[->|[->| ->]]]]]]]]]; reflexivity.
Qed.

Definition no_digit (s : string) : Prop := match s with String c _ => digit_of c = None | EmptyString => True end.

Lemma read_digits_stop a k s : no_digit s → read_digits a k s = (a, k, s).
Proof. destruct s as [|c s]; simpl; [done|]. by intros ->. Qed.

(** The digits of [x > 0] in front of [s]: the first one is not zero. *)
Lemma pretty_digits (x : N) s : (0 < x)%N →
  ∃ d k t, pretty_N_go x s = String d t ∧ (∃ v, digit_of d = Some v ∧ v ≠ 0 ∧ ∀ u, read_digits v u t = read_digits (Z.of_N x) (k + u) s).
Proof.
  revert s. induction x as [x IH] using (well_founded_induction N.lt_wf_0). intros s Hx. rewrite pretty_N_go_step by done.
  pose proof (N.mod_lt x 10 ltac:(done)) as Hm. pose proof (N.div_mod' x 10) as Hdm.
  destruct (decide (x / 10 = 0)%N) as [E|E].
  - rewrite E, pretty_N_go_0. eexists _, 0%nat, s. split; [done|]. eexists. split; [by apply digit_of_pretty|]. split; [lia|]. intros u. f_equal. lia.
  - destruct (IH (x / 10)%N ltac:(apply N.div_lt; lia) (String (pretty_N_char (x mod 10)) s) ltac:(lia)) as (d & k & t & E1 & v & E2 & E3 & E4).
    exists d, (S k), t. split; [done|]. exists v. split; [done|]. split; [done|]. intros u. rewrite E4. simpl. rewrite digit_of_pretty by done. f_equal. lia.
Qed.

Lemma read_integer_pretty (x : N) s : no_digit s → read_integer (pretty x +:+ s) = Some (Z.of_N x, s).
Proof.
  intros Hs. unfold pretty, pretty_N. destruct (decide (x = 0)%N) as [->|Hx]; [reflexivity|].
  destruct (pretty_digits x EmptyString ltac:(lia)) as (d & k & t & E & v & E1 & E2 & E3). rewrite E, sapp_cons. simpl. rewrite E1.
  assert (Hr : ∀ a u q, read_digits a u (q +:+ s) = let '(b, w, r) := read_digits a u q in match r with EmptyString => (b, w, s) | _ => (b, w, r +:+ s) end).
  { intros a u q. revert a u. induction q as [|c q IHq]; intros a u; simpl; [by rewrite read_digits_stop|]. destruct (digit_of c); [apply IHq|done]. }
  rewrite Hr, E3. simpl. by destruct v.
Qed.

(** What may follow a number. *)
Definition number_ends (s : string) : Prop :=
  match s with String c _ => digit_of c = None ∧ c ≠ "."%char ∧ c ≠ "e"%char ∧ c ≠ "E"%char | EmptyString => True end.

Lemma stops_fraction s : number_ends s → read_fraction s = Some (None, s) ∧ read_exponent s = Some (None, s).
Proof.
  destruct s as [|c s]; simpl; [done|]. intros (_ & H1 & H2 & H3).
  apply Ascii.eqb_neq in H1, H2, H3. by rewrite H1, H2, H3.
Qed.

Lemma read_number_pretty (z : Z) s : number_ends s → read_number (pretty z +:+ s) = Some (JNum (inject_Z z), s).
Proof.
  intros Hs. assert (Hd : no_digit s) by (destruct s; [done|apply Hs]). destruct (stops_fraction s Hs) as [Ef Ee].
  unfold read_number. destruct z as [|p|p].
  - change (pretty 0 +:+ s) with (String "0" s). simpl. rewrite Ef. simpl. by rewrite Ee.
  - change (pretty (Z.pos p)) with (pretty (N.pos p)). pose proof (read_integer_pretty (N.pos p) s Hd) as Hi.
    destruct (pretty_digits (N.pos p) EmptyString ltac:(lia)) as (d & k & t & E & v & E1 & _).
    assert (En : Ascii.eqb d "-" = false). { apply Ascii.eqb_neq. intros ->. discriminate. }
    assert (Ep : pretty (N.pos p) = String d t) by exact E. rewrite Ep, sapp_cons in *. rewrite En, Hi. simpl. rewrite Ef. simpl. by rewrite Ee.
  - change (pretty (Z.neg p)) with (String "-" (pretty (N.pos p))). rewrite sapp_cons. simpl Ascii.eqb. cbn iota. rewrite (read_integer_pretty (N.pos p) s Hd). simpl. rewrite Ef. simpl. by rewrite Ee.
Qed.

(** *** Values *)

Lemma json_induction (P : json → Prop) :
  P JNull → (∀ b, P (JBool b)) → (∀ q, P (JNum q)) → (∀ s, P (JStr s)) →
  (∀ l, Forall P l → P (JArr l)) → (∀ fs, Forall (λ e, P e.2) fs → P (JObj fs)) → ∀ j, P j.
Proof.
  intros H1 H2 H3 H4 H5 H6. fix F 1. intros [|b|q|s|l|fs].
  - exact H1.
  - apply H2.
  - apply H3.
  - apply H4.
  - apply H5. induction l; constructor; [apply F|assumption].
  - apply H6. induction fs as [|[k v] fs IH]; constructor; [apply F|exact IH].
Qed.

Definition all (l : list Prop) : Prop := fold_right and True l.

(** The values whose text is known: integers only, and objects without repeated keys. *)
Fixpoint plain_json (j : json) : Prop :=
  match j with
  | JNum q => Qden q = 1%positive
  | JArr l => all (map plain_json l)
  | JObj fs => NoDup (map fst fs) ∧ all (map (λ e, plain_json e.2) fs)
  | _ => True
  end.

Lemma all_Forall {A} (P : A → Prop) l : all (map P l) ↔ Forall P l.
Proof. induction l as [|x l IH]; simpl; [by split|]. rewrite Forall_cons. tauto. Qed.

Fixpoint size (j : json) : nat :=
  match j with
  | JArr l => S (sum_list (map (λ v, S (size v)) l))
  | JObj fs => S (sum_list (map (λ e, S (size e.2)) fs))
  | _ => 1
  end.

Section roundtrip.
Context (ft : Q → string).
#[local] Abbreviation stringify := (stringify ft).

(** The first character of a text decides how it is read. *)
Definition opens (c : ascii) : Prop := is_blank c = false ∧ c ≠ "]"%char ∧ c ≠ "}"%char.

Lemma number_first (z : Z) : ∃ c t, pretty z = String c t ∧ (c = "-"%char ∨ digit_of c ≠ None).
Proof.
  destruct z as [|p|p]; [by exists "0"%char, EmptyString; split; [|right]| |by eexists _, _; split; [reflexivity|left]].
  destruct (pretty_digits (N.pos p) EmptyString ltac:(lia)) as (d & k & t & E & v & E1 & _). exists d, t. split; [exact E|]. right. by rewrite E1.
Qed.

Lemma digit_opens c : c = "-"%char ∨ digit_of c ≠ None → opens c ∧ ∀ n r, value (S n) (String c r) = read_number (String c r).
Proof. destruct c as [[] [] [] [] [] [] [] []]; intros [H|H]; try done; by destruct H. Qed.

Lemma text_first j : plain_json j → ∃ c t, stringify j = String c t ∧ opens c.
Proof.
  destruct j as [|[]|q|s|l|fs]; simpl; intros Hj; try (by eexists _, _; split; [reflexivity|]).
  unfold number_json. rewrite Hj. simpl. destruct (number_first (Qnum q)) as (c & t & E & H). exists c, t. split; [done|]. by apply digit_opens.
Qed.

Definition text_ok (j : json) : Prop := ∀ n r, (size j ≤ n)%nat → number_ends r → value n (stringify j +:+ r) = Some (j, r).

Lemma elements_text l : Forall text_ok l → ∀ acc n r, l ≠ [] → (sum_list (map (λ v, S (size v)) l) ≤ n)%nat →
  elements n acc (join_with "," (map stringify l) +:+ String "]" r) = Some (JArr (acc ++ l), r).
Proof.
  induction 1 as [|v l Hv Hl IH]; intros acc n r Hne Hn; [done|]. simpl in Hn. destruct n as [|n]; [lia|]. cbn [elements].
  destruct l as [|v' l].
  - cbn [map join_with]. rewrite Hv by (simpl; try lia; done). reflexivity.
  - change (join_with "," (map stringify (v :: v' :: l))) with (stringify v +:+ "," +:+ join_with "," (map stringify (v' :: l))).
    rewrite <- !sapp_assoc, Hv by (simpl; try lia; done). change ("," +:+ ?a) with (String "," a) at 1. simpl. rewrite IH by (done || simpl in *; lia). by rewrite <- app_assoc.
Qed.

Lemma set_field_new k v fs : k ∉ map fst fs → set_field k v fs = (fs ++ [(k, v)])%list.
Proof.
  induction fs as [|[k' v'] fs IH]; simpl; [done|]. intros [Hk Hfs]%not_elem_of_cons. destruct (String.eqb_spec k' k); [by subst|]. by rewrite IH.
Qed.

Lemma members_text fs : Forall (λ e, text_ok e.2) fs → ∀ acc n r, fs ≠ [] → (sum_list (map (λ e, S (size e.2)) fs) ≤ n)%nat → NoDup (map fst (acc ++ fs)%list) →
  members n acc (join_with "," (map (λ e, quoted_text e.1 +:+ ":" +:+ stringify e.2) fs) +:+ String "}" r) = Some (JObj (acc ++ fs), r).
Proof.
  induction 1 as [|[k v] fs Hv Hl IH]; intros acc n r Hne Hn Hk; [done|]. simpl in Hn. destruct n as [|n]; [lia|]. cbn [members].
  assert (Hnew : k ∉ map fst acc).
  { rewrite map_app in Hk. apply NoDup_app in Hk as (_ & Hk & _). intros Hin. apply (Hk k Hin). left. }
  assert (Hq : ∀ t, quoted_text k +:+ t = String DQUOTE (escape k +:+ String DQUOTE t)).
  { intros t. unfold quoted_text. by rewrite sapp_cons, <- sapp_assoc. }
  destruct fs as [|e fs].
  - cbn [map join_with fst snd]. rewrite <- !sapp_assoc, Hq. simpl. rewrite read_quoted. simpl. change (EmptyString +:+ ?x) with x. cbn [snd] in Hv. rewrite (Hv n) by (simpl in *; try lia; done). simpl. by rewrite set_field_new.
  - match goal with |- context [join_with "," (map ?f ((k, v) :: e :: fs))] => change (join_with "," (map f ((k, v) :: e :: fs))) with ((quoted_text k +:+ ":" +:+ stringify v) +:+ "," +:+ join_with "," (map f (e :: fs))) end.
    rewrite <- !sapp_assoc, Hq. simpl. rewrite read_quoted. simpl. change (EmptyString +:+ ?x) with x. cbn [snd] in Hv. rewrite (Hv n) by (simpl in *; try lia; done). simpl. change (EmptyString +:+ ?x) with x. rewrite set_field_new by done. rewrite IH; [by rewrite <- app_assoc|done|simpl in *; lia|by rewrite <- app_assoc].
Qed.

Lemma text_reads j : plain_json j → text_ok j.
Proof.
  induction j as [|b|q|s|l IH|fs IH] using json_induction; intros Hj n r Hn Hr; (destruct n as [|n]; [simpl in Hn; lia|]).
  - reflexivity.
  - by destruct b.
  - simpl in Hj. assert (E0 : stringify (JNum q) = pretty (Qnum q)) by (simpl; unfold number_json; by rewrite Hj). rewrite E0. pose proof (number_first (Qnum q)) as (c & t & E & Hc).
    pose proof (read_number_pretty (Qnum q) r Hr) as Hq. rewrite E, sapp_cons in *. destruct (digit_opens c Hc) as [_ ->]. rewrite Hq. do 2 f_equal. destruct q as [a b]. simpl in *. by subst.
  - change (stringify (JStr s) +:+ r) with (String DQUOTE ((escape s +:+ String DQUOTE EmptyString) +:+ r)). rewrite <- sapp_assoc. simpl. change (String DQUOTE EmptyString +:+ r) with (String DQUOTE r). by rewrite read_quoted.
  - simpl in Hj. apply all_Forall in Hj. change (stringify (JArr l) +:+ r) with (String "[" ((join_with "," (map stringify l) +:+ String "]" EmptyString) +:+ r)). rewrite <- sapp_assoc.
    change (String "]" EmptyString +:+ r) with (String "]" r). destruct l as [|v l]; [reflexivity|].
    assert (Hall : Forall text_ok (v :: l)). { apply Forall_forall. intros x Hx. rewrite Forall_forall in IH, Hj. by apply IH; [|apply Hj]. }
    pose proof (elements_text (v :: l) Hall [] n r ltac:(done) ltac:(simpl in *; lia)) as He.
    apply Forall_cons in Hj as [Hv _]. destruct (text_first v Hv) as (c & t & E & Hb & H1 & _).
    assert (Es : ∃ u, join_with "," (map stringify (v :: l)) +:+ String "]" r = String c u). { destruct l; simpl; rewrite E; rewrite ?sapp_cons; by eexists. }
    destruct Es as [u Es]. rewrite Es in *. simpl. rewrite Hb. apply Ascii.eqb_neq in H1. by rewrite H1.
  - simpl in Hj. destruct Hj as [Hk Hj]. apply all_Forall in Hj. match goal with |- value _ (_ (JObj fs) +:+ r) = _ => change (stringify (JObj fs) +:+ r) with (String "{" ((join_with "," (map (λ e, quoted_text e.1 +:+ ":" +:+ stringify e.2) fs) +:+ String "}" EmptyString) +:+ r)) end. rewrite <- sapp_assoc.
    change (String "}" EmptyString +:+ r) with (String "}" r). destruct fs as [|[k v] fs]; [reflexivity|].
    assert (Hall : Forall (λ e, text_ok e.2) ((k, v) :: fs)). { apply Forall_forall. intros x Hx. rewrite Forall_forall in IH, Hj. by apply IH; [|apply Hj]. }
    pose proof (members_text ((k, v) :: fs) Hall [] n r ltac:(done) ltac:(simpl in *; lia) Hk) as He.
    match type of He with members _ _ ?t = _ => assert (Es : ∃ u, t = String DQUOTE u) end.
    { destruct fs; simpl; unfold quoted_text; rewrite ?sapp_cons; by eexists. }
    destruct Es as [u Es]. rewrite Es in *. simpl. by rewrite He.
Qed.

(** Enough fuel for a text: its length. *)
Lemma join_length l : (sum_list (map String.length l) ≤ String.length (join_with "," l))%nat.
Proof.
  induction l as [|x l IH]; [done|]. destruct l as [|y l]; simpl in *; [lia|]. rewrite !slength_app. simpl. lia.
Qed.

Lemma sum_le {A} (f g : A → nat) l : Forall (λ x, (f x ≤ g x)%nat) l → (sum_list (map f l) ≤ sum_list (map g l))%nat.
Proof. induction 1; simpl; lia. Qed.

Lemma sum_double {A} (f : A → nat) l : sum_list (map (λ x, (2 * f x)%nat) l) = (2 * sum_list (map f l))%nat.
Proof. induction l; simpl in *; lia. Qed.

Lemma size_text j : plain_json j → (S (size j) ≤ 2 * String.length (stringify j))%nat.
Proof.
  induction j as [|b|q|s|l IH|fs IH] using json_induction; intros Hj.
  - simpl. lia.
  - destruct b; simpl; lia.
  - destruct (text_first (JNum q) Hj) as (c & t & -> & _). simpl. lia.
  - simpl. unfold quoted_text. simpl. lia.
  - simpl in *. apply all_Forall in Hj. rewrite slength_app. simpl.
    pose proof (join_length (map stringify l)) as H. rewrite map_map in H.
    assert (Hs : (sum_list (map (λ v, S (size v)) l) ≤ 2 * sum_list (map (λ v, String.length (stringify v)) l))%nat).
    { rewrite <- sum_double. apply sum_le. apply Forall_forall. intros x Hx. rewrite Forall_forall in IH, Hj. by apply IH, Hj. }
    lia.
  - simpl in *. destruct Hj as [_ Hj]. apply all_Forall in Hj. rewrite slength_app. simpl.
    pose proof (join_length (map (λ e, quoted_text e.1 +:+ ":" +:+ stringify e.2) fs)) as H. rewrite map_map in H.
    assert (Hs : (sum_list (map (λ e, S (size e.2)) fs) ≤ 2 * sum_list (map (λ e, String.length (quoted_text e.1 +:+ ":" +:+ stringify e.2)) fs))%nat).
    { rewrite <- sum_double. apply sum_le. apply Forall_forall. intros x Hx. rewrite Forall_forall in IH, Hj. specialize (IH x Hx (Hj x Hx)). rewrite !slength_app. lia. }
    lia.
Qed.

Lemma JSON_roundtrip j : plain_json j → JSON_parse (stringify j) = Some j.
Proof.
  intros Hj. unfold JSON_parse. pose proof (text_reads j Hj (2 * String.length (stringify j) + 2)%nat EmptyString) as H. pose proof (size_text j Hj).
  assert (E : stringify j +:+ EmptyString = stringify j). { clear. induction (stringify j) as [|c s IH]; [done|]. by rewrite sapp_cons, IH. }
  rewrite E in H. rewrite H by (done || lia). reflexivity.
Qed.
End roundtrip.

(** The fuel of [JSON_parse] is enough for every text: with more, the outcome is the same. *)
Lemma skip_blank_length s : (String.length (skip_blank s) ≤ String.length s)%nat.
Proof. induction s as [|c s IH]; simpl; [done|]. destruct (is_blank c); simpl; lia. Qed.

Lemma after_length p s r : after p s = Some r → String.length s = (String.length p + String.length r)%nat.
Proof. revert s. induction p as [|a p IH]; intros s; simpl; [congruence|]. destruct s as [|b s]; [done|]. destruct (Ascii.eqb a b); [|done]. intros H%IH. simpl. lia. Qed.

Lemma push_unit_Some u o l r : push_unit u o = Some (l, r) → ∃ l', o = Some (l', r).
Proof. destruct o as [[l' r']|]; [|done]. intros [= <- <-]. by eexists. Qed.

Lemma read_chars_length s l r : read_chars s = Some (l, r) → (String.length r < String.length s)%nat.
Proof.
  remember (String.length s) as n eqn:En. revert s En l r. induction n as [n IH] using lt_wf_ind. intros [|c s] -> l r; simpl; [done|].
  assert (Hstep : ∀ u q, (String.length q ≤ String.length s)%nat → push_unit u (read_chars q) = Some (l, r) → (String.length r < S (String.length s))%nat).
  { intros u q Hq (l' & E)%push_unit_Some. pose proof (IH (String.length q) ltac:(simpl; lia) q eq_refl l' r E). lia. }
  destruct (Ascii.eqb c DQUOTE); [intros [= <- <-]; lia|]. destruct (Ascii.eqb c BACKSLASH).
  - destruct s as [|e s]; [done|]. destruct (Ascii.eqb e "u").
    + destruct s as [|x1 [|x2 [|x3 [|x4 s]]]]; try done. destruct (hex4 x1 x2 x3 x4); [|done]. apply Hstep. simpl. lia.
    + destruct (long_escape e); [|done]. apply Hstep. simpl. lia.
  - destruct (code c <? 32)%N; [done|]. by apply Hstep.
Qed.

Lemma read_digits_length a k s x : read_digits a k s = x → (String.length x.2 ≤ String.length s)%nat.
Proof. intros <-. revert a k. induction s as [|c s IH]; intros a k; simpl; [done|]. destruct (digit_of c) as [d|]; [|done]. etrans; [apply IH|lia]. Qed.

Lemma digits1_length s x : digits1 s = Some x → (String.length x.2 ≤ String.length s)%nat.
Proof. unfold digits1. destruct (read_digits 0 0 s) as [[v [|k]] r] eqn:E; intros [= <-]. by apply read_digits_length in E. Qed.

Lemma read_number_length s v r : read_number s = Some (v, r) → (String.length r < String.length s)%nat.
Proof.
  unfold read_number. set (p := match s with EmptyString => _ | String _ _ => _ end).
  assert (Hp : (String.length p.2 ≤ String.length s)%nat). { subst p. destruct s as [|c s]; [done|]. destruct (Ascii.eqb c "-"); simpl; lia. }
  destruct p as [neg s0]. simpl in Hp. destruct (read_integer s0) as [[i s1]|] eqn:Ei; simpl; [|done].
  assert (H1 : (String.length s1 < String.length s0)%nat).
  { revert Ei. destruct s0 as [|c s0]; simpl; [done|]. destruct (digit_of c) as [[|d|d]|]; simpl; try done; [intros [= _ <-]; lia| |];
      destruct (read_digits _ 1 s0) as [[a k] q] eqn:E; intros [= _ <-]; apply read_digits_length in E; simpl in E; lia. }
  destruct (read_fraction s1) as [[f s2]|] eqn:Ef; simpl; [|done].
  assert (H2 : (String.length s2 ≤ String.length s1)%nat).
  { revert Ef. destruct s1 as [|c s1]; simpl; [intros [= _ <-]; simpl; lia|]. destruct (Ascii.eqb c "."); [|intros [= _ <-]; simpl; lia].
    destruct (digits1 s1) as [x|] eqn:E; simpl; [|done]. intros [= _ <-]. apply digits1_length in E. lia. }
  destruct (read_exponent s2) as [[e s3]|] eqn:Ee; simpl; [|done]. intros [= _ <-].
  assert (H3 : (String.length s3 ≤ String.length s2)%nat).
  { revert Ee. destruct s2 as [|c s2]; simpl; [intros [= _ <-]; simpl; lia|]. destruct (Ascii.eqb c "e" || Ascii.eqb c "E"); [|intros [= _ <-]; simpl; lia].
    destruct s2 as [|d s2]; [done|]. destruct (Ascii.eqb d "-"); [|destruct (Ascii.eqb d "+")];
      match goal with |- context [digits1 ?t] => destruct (digits1 t) as [x|] eqn:E end; simpl; try done; intros [= _ <-]; apply digits1_length in E; simpl in *; lia. }
  lia.
Qed.

Lemma read_string_length s t r : read_string s = Some (t, r) → (String.length r < String.length s)%nat.
Proof. unfold read_string. destruct (read_chars s) as [[l q]|] eqn:E; [|done]. intros [= _ <-]. by eapply read_chars_length. Qed.

(** What is left is shorter than what was read. *)
Lemma value_length n :
  (∀ s v r, value n s = Some (v, r) → (String.length r < String.length s)%nat) ∧
  (∀ acc s v r, elements n acc s = Some (v, r) → (String.length r < String.length s)%nat) ∧
  (∀ acc s v r, members n acc s = Some (v, r) → (String.length r < String.length s)%nat).
Proof.
  induction n as [|n (IHv & IHe & IHm)]; [done|]. split_and!.
  - intros s v r. cbn [value]. pose proof (skip_blank_length s) as Hb. destruct (skip_blank s) as [|c q]; [done|]. simpl in Hb.
    assert (Hlit : ∀ p j, (λ r', (j, r')) <$> after p q = Some (v, r) → (String.length r < String.length s)%nat).
    { intros p j H. destruct (after p q) as [x|] eqn:E; simplify_eq/=. apply after_length in E. lia. }
    pose proof (skip_blank_length q) as Hq.
    destruct (Ascii.eqb c "["); [|destruct (Ascii.eqb c "{")].
    + destruct (skip_blank q) as [|d q']; [done|]. simpl in Hq. destruct (Ascii.eqb d "]"); [intros [= _ <-]; lia|]. intros H%IHe. lia.
    + destruct (skip_blank q) as [|d q']; [done|]. simpl in Hq. destruct (Ascii.eqb d "}"); [intros [= _ <-]; lia|]. intros H%IHm. lia.
    + destruct (Ascii.eqb c DQUOTE).
      { destruct (read_string q) as [[t r']|] eqn:E; simpl; [|done]. intros [= _ <-]. apply read_string_length in E. lia. }
      do 3 (match goal with |- context [if ?b then _ else _] => destruct b end; [apply Hlit|]). intros H%read_number_length. simpl in H. lia.
  - intros acc s v r. cbn [elements]. destruct (value n s) as [[w q]|] eqn:E; [|done]. apply IHv in E. pose proof (skip_blank_length q) as Hq.
    destruct (skip_blank q) as [|c q']; [done|]. simpl in Hq. destruct (Ascii.eqb c ","); [intros H%IHe; lia|]. destruct (Ascii.eqb c "]"); [|done]. intros [= _ <-]. lia.
  - intros acc s v r. cbn [members]. pose proof (skip_blank_length s) as Hb. destruct (after _ (skip_blank s)) as [s1|] eqn:E1; [|done]. apply after_length in E1.
    destruct (read_string s1) as [[k s2]|] eqn:E2; [|done]. apply read_string_length in E2. pose proof (skip_blank_length s2) as Hb2.
    destruct (after ":" (skip_blank s2)) as [s3|] eqn:E3; [|done]. apply after_length in E3. destruct (value n s3) as [[w q]|] eqn:E; [|done]. apply IHv in E. pose proof (skip_blank_length q) as Hq.
    destruct (skip_blank q) as [|c q']; [done|]. simpl in *. destruct (Ascii.eqb c ","); [intros H%IHm; lia|]. destruct (Ascii.eqb c "}"); [|done]. intros [= _ <-]. lia.
Qed.

Lemma value_fuel n :
  (∀ m s, (2 * String.length s + 1 ≤ n)%nat → (n ≤ m)%nat → value m s = value n s) ∧
  (∀ m acc s, (2 * String.length s + 2 ≤ n)%nat → (n ≤ m)%nat → elements m acc s = elements n acc s) ∧
  (∀ m acc s, (2 * String.length s + 2 ≤ n)%nat → (n ≤ m)%nat → members m acc s = members n acc s).
Proof.
  induction n as [|n (IHv & IHe & IHm)]; [split_and!; intros; lia|]. split_and!; intros [|m]; intros; try lia.
  - cbn [value]. pose proof (skip_blank_length s) as Hb. destruct (skip_blank s) as [|c q]; [done|]. simpl in Hb.
    destruct (Ascii.eqb c "["); [|destruct (Ascii.eqb c "{"); [|done]]; (destruct (skip_blank q) as [|d q']; [done|]).
    + destruct (Ascii.eqb d "]"); [done|]. apply IHe; lia.
    + destruct (Ascii.eqb d "}"); [done|]. apply IHm; lia.
  - cbn [elements]. rewrite (IHv m s) by lia. destruct (value n s) as [[w q]|] eqn:E; [|done]. apply value_length in E. pose proof (skip_blank_length q) as Hq.
    destruct (skip_blank q) as [|c q']; [done|]. simpl in Hq. destruct (Ascii.eqb c ","); [|done]. apply IHe; lia.
  - cbn [members]. pose proof (skip_blank_length s) as Hb. destruct (after _ (skip_blank s)) as [s1|] eqn:E1; [|done]. apply after_length in E1.
    destruct (read_string s1) as [[k s2]|] eqn:E2; [|done]. apply read_string_length in E2. pose proof (skip_blank_length s2) as Hb2.
    destruct (after ":" (skip_blank s2)) as [s3|] eqn:E3; [|done]. apply after_length in E3. simpl in *. rewrite (IHv m s3) by lia. destruct (value n s3) as [[w q]|] eqn:E; [|done].
    apply value_length in E. pose proof (skip_blank_length q) as Hq. destruct (skip_blank q) as [|c q']; [done|]. simpl in *. destruct (Ascii.eqb c ","); [|done]. apply IHm; lia.
Qed.
