(* ===== verification/SiteServer.v ===== *)
(** * The server's sites

    A row of the sites table and the server functions that the portal's site page and the
    administrator's site dialogs reach: [HandleGetSite], [HandleUpdateSite],
    [HandleDeleteSiteP], [HandleUpdateSiteRecording] and [HandleUpdateSiteMonitoringSchedule]
    of [internal/api/platform.go] with their queries in [internal/database/platform_db.go], and
    the recorder's reading of the schedule, [isWithinSchedule] of [internal/recording/engine.go].
    Request bodies are read for keys spelt as in the tags. *)

From S2P Require Import Prelude Types Http JsonText.
From Stdlib Require Import Ascii QArith.
#[local] Open Scope string_scope.
#[local] Open Scope Z_scope.

(** A nullable column is an option. *)
Record StoredSite := mkStoredSite {
  db_id : string;
  db_name : string;
  db_address : string;
  db_organization_id : string;
  db_latitude : option Q;
  db_longitude : option Q;
  db_status : string;
  db_monitoring_start : string;
  db_monitoring_end : string;
  db_site_notes : option (list string);
  db_feature_mode : option string;
  db_retention_days : option Z;
  db_recording_mode : option string;
  db_pre_buffer_sec : option Z;
  db_post_buffer_sec : option Z;
  db_recording_triggers : option string;
  db_recording_schedule : option string;
  db_monitoring_schedule : option json;
  db_snooze : option json;
  db_created_at : string;
  db_deleted : bool
}.

(** *** Reading *)

(** [GetSite] selects from the view of live sites; columns it does not select, like the
    monitoring schedule, keep their zero value, and [omitempty] drops them. *)
Definition site_json (r : StoredSite) : json :=
  JObj ([("id", JStr (db_id r)); ("name", JStr (db_name r)); ("address", JStr (db_address r)); ("company_id", JStr (db_organization_id r))]
    ++ opt_prop "latitude" (JNum <$> db_latitude r) ++ opt_prop "longitude" (JNum <$> db_longitude r)
    ++ [("status", JStr (db_status r)); ("monitoring_start", JStr (db_monitoring_start r)); ("monitoring_end", JStr (db_monitoring_end r));
        ("site_notes", match db_site_notes r with Some l => JArr (JStr <$> l) | None => JNull end);
        ("feature_mode", JStr (default "security_and_safety" (db_feature_mode r)));
        ("retention_days", jnum (default 30 (db_retention_days r))); ("recording_mode", JStr (default "continuous" (db_recording_mode r)));
        ("pre_buffer_sec", jnum (default 10 (db_pre_buffer_sec r))); ("post_buffer_sec", jnum (default 30 (db_post_buffer_sec r)));
        ("recording_triggers", JStr (default "motion,object" (db_recording_triggers r))); ("recording_schedule", JStr (default EmptyString (db_recording_schedule r)));
        ("created_at", JStr (db_created_at r)); ("cameras_online", jnum 0); ("cameras_total", jnum 0);
        ("compliance_score", jnum 0); ("open_incidents", jnum 0); ("workers_on_site", jnum 0); ("last_activity", JStr EmptyString); ("trend", JStr EmptyString)])%list.

Definition find_site (id : string) (rows : list StoredSite) : option StoredSite :=
  find_where (λ r, String.eqb (db_id r) id && negb (db_deleted r)) rows.

(** The caller's scope: everything, or an organization and a list of sites. *)
Inductive CallerScope := Unscoped | Scoped (organization : string) (site_ids : list string).

Definition can_view (s : CallerScope) (r : StoredSite) : bool :=
  match s with
  | Unscoped => true
  | Scoped org ids => (truthy_str org && String.eqb (db_organization_id r) org) || includes (db_id r) ids
  end.

(** The status and the body when it is JSON. *)
Definition HandleGetSite (s : CallerScope) (id : string) (rows : list StoredSite) : Z * option json :=
  match find_site id rows with
  | Some r => if can_view s r then (200, Some (site_json r)) else (404, None)
  | None => (404, None)
  end.

(** *** Updating *)

Record SiteCreate := mkSiteCreate {
  sq_name : string;
  sq_address : string;
  sq_company_id : string;
  sq_latitude : option Q;
  sq_longitude : option Q;
  sq_feature_mode : string
}.

(** Decoding into a string, a [*float64] and an [int]: an absent or null field keeps the zero value. *)
Definition go_string (o : option json) : option string := match o with None | Some JNull => Some EmptyString | Some (JStr s) => Some s | _ => None end.
Definition go_float (o : option json) : option (option Q) := match o with None | Some JNull => Some None | Some (JNum q) => Some (Some q) | _ => None end.
Definition go_int (o : option json) : option Z :=
  match o with
  | None | Some JNull => Some 0
  | Some (JNum q) => if (Qden (Qred q) =? 1)%positive && (- 2 ^ 63 <=? Qnum (Qred q)) && (Qnum (Qred q) <? 2 ^ 63) then Some (Qnum (Qred q)) else None
  | _ => None
  end.

Definition decode_site (body : json) : option SiteCreate :=
  match body with
  | JObj _ =>
      n ← go_string (jget "name" body); a ← go_string (jget "address" body); c ← go_string (jget "company_id" body);
      la ← go_float (jget "latitude" body); lo ← go_float (jget "longitude" body); f ← go_string (jget "feature_mode" body);
      Some (mkSiteCreate n a c la lo f)
  | JNull => Some (mkSiteCreate EmptyString EmptyString EmptyString None None EmptyString)
  | _ => None
  end.

Definition set_details (c : SiteCreate) (mode : string) (r : StoredSite) : StoredSite :=
  mkStoredSite (db_id r) (sq_name c) (sq_address c) (sq_company_id c) (sq_latitude c) (sq_longitude c) (db_status r) (db_monitoring_start r)
    (db_monitoring_end r) (db_site_notes r) (Some mode) (db_retention_days r) (db_recording_mode r) (db_pre_buffer_sec r) (db_post_buffer_sec r)
    (db_recording_triggers r) (db_recording_schedule r) (db_monitoring_schedule r) (db_snooze r) (db_created_at r) (db_deleted r).

Definition is_row (id : string) (r : StoredSite) : bool := String.eqb (db_id r) id.

(** [UPDATE sites SET ... WHERE id=$1]; the organization is a foreign key. *)
Definition UpdateSite (orgs : list string) (id : string) (c : SiteCreate) (rows : list StoredSite) : option (list StoredSite) :=
  let mode := if truthy_str (sq_feature_mode c) then sq_feature_mode c else "security_and_safety" in
  if existsb (is_row id) rows && negb (existsb (String.eqb (sq_company_id c)) orgs) then None
  else Some (map_where (is_row id) (set_details c mode) rows).

Definition requireAdminOrSupervisor (role : string) : bool := String.eqb role "admin" || String.eqb role "soc_supervisor".

(** The status of the answer and the rows after it. *)
Definition HandleUpdateSite (orgs : list string) (role id : string) (body : json) (rows : list StoredSite) : Z * list StoredSite :=
  if negb (requireAdminOrSupervisor role) then (403, rows)
  else match decode_site body with
       | None => (400, rows)
       | Some c => match UpdateSite orgs id c rows with Some rows' => (200, rows') | None => (500, rows) end
       end.

(** The site's part of [SoftDeleteSite]. *)
Definition mark_deleted (r : StoredSite) : StoredSite :=
  mkStoredSite (db_id r) (db_name r) (db_address r) (db_organization_id r) (db_latitude r) (db_longitude r) (db_status r) (db_monitoring_start r)
    (db_monitoring_end r) (db_site_notes r) (db_feature_mode r) (db_retention_days r) (db_recording_mode r) (db_pre_buffer_sec r) (db_post_buffer_sec r)
    (db_recording_triggers r) (db_recording_schedule r) (db_monitoring_schedule r) (db_snooze r) (db_created_at r) true.

Definition HandleDeleteSite (role id : string) (rows : list StoredSite) : Z * list StoredSite :=
  if negb (requireAdminOrSupervisor role) then (403, rows) else (200, map_where (is_row id) mark_deleted rows).

(** *** The recording policy *)

Definition RetentionTiers : list Z := [3; 7; 14; 30; 60; 90].
Definition ValidateRetentionTier (days : Z) : bool := includes days RetentionTiers.

Record PolicyInput := mkPolicyInput {
  pi_retention_days : Z;
  pi_recording_mode : string;
  pi_pre_buffer_sec : Z;
  pi_post_buffer_sec : Z;
  pi_recording_triggers : string;
  pi_recording_schedule : string
}.

Definition decode_policy (body : json) : option PolicyInput :=
  match body with
  | JObj _ =>
      d ← go_int (jget "retention_days" body); m ← go_string (jget "recording_mode" body);
      a ← go_int (jget "pre_buffer_sec" body); b ← go_int (jget "post_buffer_sec" body);
      t ← go_string (jget "recording_triggers" body); s ← go_string (jget "recording_schedule" body);
      Some (mkPolicyInput d m a b t s)
  | JNull => Some (mkPolicyInput 0 EmptyString 0 0 EmptyString EmptyString)
  | _ => None
  end.

Definition set_policy (p : PolicyInput) (r : StoredSite) : StoredSite :=
  mkStoredSite (db_id r) (db_name r) (db_address r) (db_organization_id r) (db_latitude r) (db_longitude r) (db_status r) (db_monitoring_start r)
    (db_monitoring_end r) (db_site_notes r) (db_feature_mode r) (Some (pi_retention_days p)) (Some (pi_recording_mode p)) (Some (pi_pre_buffer_sec p))
    (Some (pi_post_buffer_sec p)) (Some (pi_recording_triggers p)) (Some (pi_recording_schedule p)) (db_monitoring_schedule r) (db_snooze r) (db_created_at r) (db_deleted r).

Definition UpdateSiteRecording (id : string) (p : PolicyInput) (rows : list StoredSite) : list StoredSite :=
  let mode := if truthy_str (pi_recording_mode p) then pi_recording_mode p else "continuous" in
  let triggers := if truthy_str (pi_recording_triggers p) then pi_recording_triggers p else "motion,object" in
  map_where (is_row id) (set_policy (mkPolicyInput (pi_retention_days p) mode (pi_pre_buffer_sec p) (pi_post_buffer_sec p) triggers (pi_recording_schedule p))) rows.

(** The status, the text of a refusal, and the rows. *)
Definition HandleUpdateSiteRecording (role : option string) (id : string) (body : json) (rows : list StoredSite) : Z * string * list StoredSite :=
  match role with
  | None => (401, "unauthorized", rows)
  | Some role =>
      if negb (requireAdminOrSupervisor role) then (403, "forbidden: admin only", rows)
      else match decode_policy body with
           | None => (400, "Invalid JSON", rows)
           | Some p =>
               if negb (ValidateRetentionTier (pi_retention_days p)) then (400, "retention_days must be one of the supported tiers (3, 7, 14, 30, 60, 90)", rows)
               else
                 let p' := mkPolicyInput (pi_retention_days p) (pi_recording_mode p) (Z.max 0 (pi_pre_buffer_sec p)) (Z.max 0 (pi_post_buffer_sec p))
                             (pi_recording_triggers p) (pi_recording_schedule p) in
                 if negb (String.eqb (pi_recording_mode p) "continuous") && negb (String.eqb (pi_recording_mode p) "event")
                 then (400, "recording_mode must be 'continuous' or 'event'", rows)
                 else (200, EmptyString, UpdateSiteRecording id p' rows)
           end
  end.

(** *** The monitoring schedule *)

Definition set_monitoring (v : json) (r : StoredSite) : StoredSite :=
  mkStoredSite (db_id r) (db_name r) (db_address r) (db_organization_id r) (db_latitude r) (db_longitude r) (db_status r) (db_monitoring_start r)
    (db_monitoring_end r) (db_site_notes r) (db_feature_mode r) (db_retention_days r) (db_recording_mode r) (db_pre_buffer_sec r) (db_post_buffer_sec r)
    (db_recording_triggers r) (db_recording_schedule r) (Some v) (db_snooze r) (db_created_at r) (db_deleted r).

(** A [[]map[string]interface{}] of the request body. *)
Definition go_objects (o : option json) : option (list json) :=
  match o with
  | None | Some JNull => Some []
  | Some (JArr l) => if forallb (λ j, match j with JObj _ | JNull => true | _ => false end) l then Some l else None
  | _ => None
  end.

Definition HandleUpdateSiteMonitoringSchedule (role id : string) (body : json) (rows : list StoredSite) : Z * list StoredSite :=
  if negb (requireAdminOrSupervisor role) then (403, rows)
  else match body with
       | JObj _ | JNull =>
           match go_objects (jget "monitoring_schedule" body) with
           | Some l => (200, map_where (is_row id) (set_monitoring (JArr l)) rows)
           | None => (400, rows)
           end
       | _ => (400, rows)
       end.

(** *** The recorder's reading of the schedule *)

(** [strings.TrimSpace]: Unicode's white space, which differs from the language's of the
    front end in two code points. *)
Definition go_white_space : list (list N) :=
  [[9]; [10]; [11]; [12]; [13]; [32]; [194; 133]; [194; 160]; [225; 154; 128];
   [226; 128; 128]; [226; 128; 129]; [226; 128; 130]; [226; 128; 131]; [226; 128; 132];
   [226; 128; 133]; [226; 128; 134]; [226; 128; 135]; [226; 128; 136]; [226; 128; 137];
   [226; 128; 138]; [226; 128; 168]; [226; 128; 169]; [226; 128; 175]; [226; 129; 159];
   [227; 128; 128]]%N.

(** Trimming the given sequences at both ends, with the length of the text as fuel. *)
Definition trim_with (ws : list (list N)) (s : string) : string :=
  let l := drop_space (String.length s) ws (bytes_of s) in
  of_bytes (reverse (drop_space (String.length s) (reverse <$> ws) (reverse l))).

Definition TrimSpace : string → string := trim_with go_white_space.

(** [fmt.Sscanf(s, "%d", &n)] with [n] zero before. *)
Fixpoint skip_spaces (s : string) : string :=
  match s with
  | String c s' => match code c with 9 | 11 | 12 | 32 => skip_spaces s' | _ => s end%N
  | EmptyString => EmptyString
  end.
Definition scan_digits (s : string) : Z :=
  match read_digits 0 0 s with (v, S _, _) => if v <? 2 ^ 63 then v else 0 | _ => 0 end.
Definition scan_int (s : string) : Z :=
  match skip_spaces s with
  | String c r => let t := String c r in if Ascii.eqb c "-"%char then - scan_digits r else if Ascii.eqb c "+"%char then scan_digits r else scan_digits t
  | EmptyString => 0
  end.

(** [strings.SplitN(s, sep, 2)] for a colon; [None] when there is none. *)
Fixpoint split_colon (s : string) : option (string * string) :=
  match s with
  | EmptyString => None
  | String c s' => if Ascii.eqb c ":"%char then Some (EmptyString, s') else (λ p, (String c p.1, p.2)) <$> split_colon s'
  end.

(** [nowInWindow] at a minute [now] of the weekday [today]. *)
Definition nowInWindow (today now : Z) (days : list Z) (from until : string) : bool :=
  if negb (includes today days) then false
  else match split_colon from, split_colon until with
       | Some (sh, sm), Some (eh, em) =>
           let s := scan_int sh * 60 + scan_int sm in
           let e := scan_int eh * 60 + scan_int em in
           if s <=? e then (s <=? now) && (now <? e) else (s <=? now) || (now <? e)
       | _, _ => true
       end.

Record scheduleWindow := mkScheduleWindow { sw_enabled : bool; sw_days : list Z; sw_start : string; sw_end : string }.

Definition go_bool (o : option json) : option bool := match o with None | Some JNull => Some false | Some (JBool b) => Some b | _ => None end.
Definition go_ints (o : option json) : option (list Z) :=
  match o with None | Some JNull => Some [] | Some (JArr l) => mapM (λ j, go_int (Some j)) l | _ => None end.

Definition decode_window (j : json) : option scheduleWindow :=
  match j with
  | JNull => Some (mkScheduleWindow false [] EmptyString EmptyString)
  | JObj _ =>
      b ← go_bool (jget "enabled" j); d ← go_ints (jget "days" j); s ← go_string (jget "start_time" j); e ← go_string (jget "end_time" j);
      Some (mkScheduleWindow b d s e)
  | _ => None
  end.

Definition window_open (today now : Z) (w : scheduleWindow) : bool := sw_enabled w && nowInWindow today now (sw_days w) (sw_start w) (sw_end w).

(** The older format, one object. *)
Definition decode_config (j : json) : option (list Z * string * string) :=
  match j with
  | JNull => Some ([], EmptyString, EmptyString)
  | JObj _ => d ← go_ints (jget "days" j); s ← go_string (jget "start" j); e ← go_string (jget "end" j); Some (d, s, e)
  | _ => None
  end.

Definition isWithinSchedule (scheduleJSON : string) (today now : Z) : bool :=
  match TrimSpace scheduleJSON with
  | EmptyString => true
  | String c t =>
      let s := String c t in
      if Ascii.eqb c "["%char
      then match (match JSON_parse s with Some (JArr l) => mapM decode_window l | _ => None end) with
           | Some [] => true
           | Some ws => existsb (window_open today now) ws
           | None => true
           end
      else match (match JSON_parse s with Some j => decode_config j | None => None end) with
           | Some (days, from, until) =>
               if Nat.eqb (length days) 0 || negb (truthy_str from) || negb (truthy_str until) then true
               else nowInWindow today now days from until
           | None => true
           end
  end.

(** A recorder checks the schedule when it has one. *)
Definition recorder_may_run (schedule : string) (today now : Z) : bool :=
  negb (truthy_str schedule && negb (isWithinSchedule schedule today now)).

(** ** The fields of an answer *)

Lemma site_json_fields r :
  jget "cameras" (site_json r) = None ∧ jget "ppe_breakdown" (site_json r) = None ∧ jget "snooze" (site_json r) = None ∧
  jget "monitoring_schedule" (site_json r) = None ∧ jget "compliance_score" (site_json r) = Some (jnum 0) ∧
  jget "open_incidents" (site_json r) = Some (jnum 0) ∧ jget "workers_on_site" (site_json r) = Some (jnum 0) ∧
  jget "name" (site_json r) = Some (JStr (db_name r)) ∧ jget "address" (site_json r) = Some (JStr (db_address r)) ∧
  jget "company_id" (site_json r) = Some (JStr (db_organization_id r)) ∧
  jget "latitude" (site_json r) = JNum <$> db_latitude r ∧ jget "longitude" (site_json r) = JNum <$> db_longitude r ∧
  jget "feature_mode" (site_json r) = Some (JStr (default "security_and_safety" (db_feature_mode r))).
Proof. unfold site_json. destruct (db_latitude r), (db_longitude r); repeat split. Qed.

Lemma site_json_policy r :
  jget "retention_days" (site_json r) = Some (jnum (default 30 (db_retention_days r))) ∧
  jget "recording_mode" (site_json r) = Some (JStr (default "continuous" (db_recording_mode r))) ∧
  jget "pre_buffer_sec" (site_json r) = Some (jnum (default 10 (db_pre_buffer_sec r))) ∧
  jget "post_buffer_sec" (site_json r) = Some (jnum (default 30 (db_post_buffer_sec r))) ∧
  jget "recording_triggers" (site_json r) = Some (JStr (default "motion,object" (db_recording_triggers r))) ∧
  jget "recording_schedule" (site_json r) = Some (JStr (default EmptyString (db_recording_schedule r))).
Proof. unfold site_json. destruct (db_latitude r), (db_longitude r); repeat split. Qed.

(** The dialogs' extra properties of a site are not in the answer. *)
Lemma site_json_no_profile r :
  Forall (λ k, jget k (site_json r) = None) ["risk_tier"; "industry"; "hazards"; "site_contact"; "escalation_policy"].
Proof. unfold site_json. destruct (db_latitude r), (db_longitude r); repeat constructor. Qed.

(** *** An update that names none of the site's fields *)

Definition no_details : SiteCreate := mkSiteCreate EmptyString EmptyString EmptyString None None EmptyString.
Definition blanked : StoredSite → StoredSite := set_details no_details "security_and_safety".

Lemma bare_update orgs role id body rows : decode_site body = Some no_details →
  let r := HandleUpdateSite orgs role id body rows in
  (r = (403, rows) ∧ requireAdminOrSupervisor role = false) ∨
  (r = (500, rows) ∧ (EmptyString ∉ orgs) ∧ existsb (is_row id) rows = true) ∨
  (r = (200, map_where (is_row id) blanked rows) ∧ requireAdminOrSupervisor role = true ∧ (EmptyString ∈ orgs ∨ existsb (is_row id) rows = false)).
Proof.
  intros Hd. cbv zeta. unfold HandleUpdateSite. rewrite Hd. unfold UpdateSite. cbn [no_details sq_company_id sq_feature_mode].
  assert (Horg : EmptyString ∈ orgs ↔ existsb (String.eqb EmptyString) orgs = true).
  { rewrite existsb_exists. split; [intros H; exists EmptyString; by rewrite <- list_elem_of_In|]. intros (x & Hx & E%String.eqb_eq). subst x. by apply list_elem_of_In. }
  destruct (requireAdminOrSupervisor role); [|by left]. right. destruct (existsb (is_row id) rows) eqn:E1; [|by right; split; [|split; [|right]]].
  destruct (existsb (String.eqb EmptyString) orgs) eqn:E2; simpl.
  - right. split; [done|]. split; [done|]. left. by apply Horg.
  - left. split; [done|]. split; [|done]. by rewrite Horg.
Qed.

Lemma map_where_keeps {A B} (f : A → B) p g l : (∀ x : A, f (g x) = f x) → (f <$> map_where p g l) = (f <$> l).
Proof. intros Hf. unfold map_where. rewrite <- list_fmap_compose. apply list_fmap_ext. intros k x _. simpl. by destruct (p x). Qed.
