(* ===== verification/SitePage.v ===== *)
(** * The portal's site page

    [app/portal/sites/[id]/page.tsx]: the selected event with its snapshot, an object URL that
    has to be revoked, the figures of the header, and the snooze requests; with what the
    server of [SiteServer] answers. *)

From S2P Require Import Prelude Types Http Portal SiteServer.
From stdpp Require Import pretty.
From Stdlib Require Import QArith Qround.
#[local] Open Scope string_scope.
#[local] Open Scope Z_scope.

Record SiteCamera := mkSiteCamera {
  sc_id : string;
  sc_name : string;
  sc_location : string;
  sc_status : string;
  sc_has_alert : bool;
  sc_stream_url : option string;
  sc_snapshot_url : option string
}.

Record PPEBreakdown := mkPPEBreakdown { pb_hard_hat : Q; pb_harness : Q; pb_hi_vis : Q; pb_boots : Q; pb_gloves : Q }.

(** The summary and the fields of the details that the page reads. *)
Record SiteDetail := mkSiteDetail {
  sd_summary : SiteSummary;
  sd_address : string;
  sd_cameras : list SiteCamera;
  sd_ppe_breakdown : option PPEBreakdown;
  sd_risk_notes : list string
}.

(** The fields of a [SecurityEventRecord] that the snapshot depends on. *)
Record SiteEvent := mkSiteEvent { se_id : string; se_alarm_id : string; se_camera_id : string; se_clip_url : string }.

Definition SNOOZE_DURATIONS : list (string * Z) :=
  [("30 min", 30 * 60000); ("1 hour", 60 * 60000); ("4 hours", 4 * 60 * 60000); ("8 hours", 8 * 60 * 60000); ("24 hours", 24 * 60 * 60000)].

(** The page's reading of the answer of GET /sites/{id}; fields of the interface's types. *)
Definition text_field (key : string) (j : json) : string := match jget key j with Some (JStr s) => s | _ => EmptyString end.
Definition text_opt (key : string) (j : json) : option string := match jget key j with Some (JStr s) => Some s | _ => None end.
Definition number_field (key : string) (j : json) : Q := match jget key j with Some (JNum q) => q | _ => 0%Q end.
Definition flag_field (key : string) (j : json) : bool := match jget key j with Some v => truthy_json v | None => false end.

Definition camera_of (j : json) : SiteCamera :=
  mkSiteCamera (text_field "id" j) (text_field "name" j) (text_field "location" j) (text_field "status" j) (flag_field "has_alert" j)
    (text_opt "stream_url" j) (text_opt "snapshot_url" j).

Definition portal_window (j : json) : MonitoringWindow :=
  mkWindow (text_field "id" j) (text_field "label" j)
    (match jget "days" j with Some (JArr l) => (λ d, match d with JNum q => Qfloor q | _ => 0 end) <$> l | _ => [] end)
    (text_field "start_time" j) (text_field "end_time" j) (flag_field "enabled" j).

Definition snooze_of (j : json) : SiteSnooze :=
  mkSnooze (flag_field "active" j) (text_field "reason" j) (text_field "snoozed_by" j) (text_field "snoozed_at" j) (text_field "expires_at" j).

Definition ppe_of (j : json) : PPEBreakdown :=
  mkPPEBreakdown (number_field "hard_hat" j) (number_field "harness" j) (number_field "hi_vis" j) (number_field "boots" j) (number_field "gloves" j).

Definition object_field {A} (f : json → A) (key : string) (j : json) : option A := match jget key j with Some (JObj fs) => Some (f (JObj fs)) | _ => None end.

Definition detail_of (j : json) : SiteDetail :=
  mkSiteDetail
    (mkSiteSummary (text_field "id" j) (text_field "name" j) (text_field "status" j) (number_field "compliance_score" j) (Qfloor (number_field "cameras_online" j))
       (Qfloor (number_field "cameras_total" j)) (Qfloor (number_field "open_incidents" j)) (Qfloor (number_field "workers_on_site" j)) (text_field "last_activity" j)
       (text_field "trend" j) (text_opt "company_id" j) (text_opt "feature_mode" j)
       (match jget "monitoring_schedule" j with Some (JArr l) => Some (portal_window <$> l) | _ => None end) (object_field snooze_of "snooze" j))
    (text_field "address" j) (match jget "cameras" j with Some (JArr l) => camera_of <$> l | _ => [] end) (object_field ppe_of "ppe_breakdown" j)
    (match jget "risk_notes" j with Some (JArr l) => (λ n, match n with JStr s => s | _ => EmptyString end) <$> l | _ => [] end).

(** ** The header's figures *)

Definition onlineCams (l : list SiteCamera) : nat := length (filter_where (λ c, String.eqb (sc_status c) "online") l).
Definition camOnlinePct (l : list SiteCamera) : Z :=
  if (0 <? length l)%nat then round_div (Z.of_nat (onlineCams l) * 100) (Z.of_nat (length l)) else 100.

(** Label and value; colours are left out. *)
Definition kpis (d : SiteDetail) : list (string * string) :=
  let cams := sd_cameras d in let s := sd_summary d in
  if bool_decide (ss_feature_mode s = Some "security_only")
  then [("Cameras", (pretty (onlineCams cams) +:+ "/" +:+ pretty (length cams))); ("Incidents", pretty (ss_open_incidents s));
        ("Alerts", pretty (length (filter_where sc_has_alert cams))); ("Online", pretty (camOnlinePct cams) +:+ "%")]
  else [("PPE Score", pretty (Qfloor (ss_compliance_score s + (1 # 2))) +:+ "%"); ("Incidents", pretty (ss_open_incidents s));
        ("Violations", "7"); ("Workers", pretty (ss_workers_on_site s))].

Definition ppeItems (d : SiteDetail) : list (string * Q) :=
  match sd_ppe_breakdown d with
  | Some p => [("Hard Hat", pb_hard_hat p); ("Harness", pb_harness p); ("Hi-Vis", pb_hi_vis p); ("Boots", pb_boots p); ("Gloves", pb_gloves p)]
  | None => []
  end.

(** ** The selected event and its snapshot *)

(** What the effect depends on: the event, its alarm and its camera. *)
Definition SnapKey : Type := option (string * string * string).

Inductive PictureStage := SnMint | SnFetch | SnBlob.

(** A running request of run [st_run] for an event's picture. *)
Record SnapTask := mkSnapTask { st_run : nat; st_key : string * string * string; st_stage : PictureStage }.

(** [sp_url] is the object URL on display with the picture it holds; [sp_created] counts the
    object URLs made, [sp_revoked] lists the revoked ones. *)
Record SitePageState := mkSitePage {
  sp_selected : option string;
  sp_events : list SiteEvent;
  sp_run : nat;
  sp_cleanup : bool;
  sp_url : option (nat * (string * string * string));
  sp_created : nat;
  sp_revoked : list nat;
  sp_tasks : list SnapTask
}.

Inductive PictureCall := MintSnapshot (camera_id path : string) | FetchUrl (key : string * string * string) | ReadBlob (key : string * string * string).

Definition selectedFullEvent (sel : option string) (l : list SiteEvent) : option SiteEvent :=
  match sel with Some id => if truthy_str id then List.find (λ e, String.eqb (se_id e) id) l else None | None => None end.

Definition snap_key (sel : option string) (l : list SiteEvent) : SnapKey :=
  (λ e, (se_id e, se_alarm_id e, se_camera_id e)) <$> selectedFullEvent sel l.

Definition upd_sp_url (u : option (nat * (string * string * string))) (c : nat) (r : list nat) (s : SitePageState) : SitePageState :=
  mkSitePage (sp_selected s) (sp_events s) (sp_run s) (sp_cleanup s) u c r (sp_tasks s).
Definition upd_sp_run (n : nat) (b : bool) (s : SitePageState) : SitePageState :=
  mkSitePage (sp_selected s) (sp_events s) n b (sp_url s) (sp_created s) (sp_revoked s) (sp_tasks s).
Definition upd_sp_tasks (t : list SnapTask) (s : SitePageState) : SitePageState :=
  mkSitePage (sp_selected s) (sp_events s) (sp_run s) (sp_cleanup s) (sp_url s) (sp_created s) (sp_revoked s) t.
Definition upd_sp_selection (sel : option string) (l : list SiteEvent) (s : SitePageState) : SitePageState :=
  mkSitePage sel l (sp_run s) (sp_cleanup s) (sp_url s) (sp_created s) (sp_revoked s) (sp_tasks s).

(** The cleanup of a run that started a request: the run is cancelled (its number is past)
    and the URL on display revoked. *)
Definition snap_cleanup (s : SitePageState) : SitePageState :=
  if sp_cleanup s
  then upd_sp_url None (sp_created s) (match sp_url s with Some u => u.1 :: sp_revoked s | None => sp_revoked s end) s
  else s.

(** The effect for a new key. *)
Definition snap_effect (k : SnapKey) (s : SitePageState) : SitePageState * list PictureCall :=
  let n := S (sp_run s) in
  match k with
  | Some (id, alarm, camera) =>
      if truthy_str alarm
      then (upd_sp_tasks (sp_tasks s ++ [mkSnapTask n (id, alarm, camera) SnMint])%list (upd_sp_run n true s), [MintSnapshot camera (alarm +:+ ".jpg")])
      else (upd_sp_run n false (upd_sp_url None (sp_created s) (sp_revoked s) s), [])
  | None => (upd_sp_run n false (upd_sp_url None (sp_created s) (sp_revoked s) s), [])
  end.

(** A render after the selection or the events changed. *)
Definition select_event (sel : option string) (l : list SiteEvent) (s : SitePageState) : SitePageState * list PictureCall :=
  let k := snap_key (sp_selected s) (sp_events s) in
  let k' := snap_key sel l in
  let s' := upd_sp_selection sel l s in
  if bool_decide (k = k') then (s', []) else snap_effect k' (snap_cleanup s').

Definition mount_site_page : SitePageState := mkSitePage None [] 0 false None 0 [] [].

(** The answer to a stage; a run that was cleaned up is no longer the current one: the minted URL, the response if it is ok, the blob if it is not
    empty; [false] is a failure, or an empty blob. *)
Definition snap_resume (t : SnapTask) (ok : bool) (empty : bool) (s : SitePageState) : SitePageState * list PictureCall :=
  let live := Nat.eqb (st_run t) (sp_run s) in
  if negb ok then (if live then upd_sp_url None (sp_created s) (sp_revoked s) s else s, [])
  else match st_stage t with
       | SnMint => (upd_sp_tasks (sp_tasks s ++ [mkSnapTask (st_run t) (st_key t) SnFetch])%list s, [FetchUrl (st_key t)])
       | SnFetch => (upd_sp_tasks (sp_tasks s ++ [mkSnapTask (st_run t) (st_key t) SnBlob])%list s, [ReadBlob (st_key t)])
       | SnBlob => (if live && negb empty then upd_sp_url (Some (sp_created s, st_key t)) (S (sp_created s)) (sp_revoked s) s else s, [])
       end.

Inductive SitePageEvent :=
| SpClick (id : string) | SpClose | SpEvents (l : list SiteEvent)
| SpSettles (i : nat) (ok empty : bool).

Definition site_page_step (e : SitePageEvent) (s : SitePageState) : SitePageState * list PictureCall :=
  match e with
  | SpClick id => select_event (if bool_decide (sp_selected s = Some id) then None else Some id) (sp_events s) s
  | SpClose => select_event None (sp_events s) s
  | SpEvents l => select_event (sp_selected s) l s
  | SpSettles i ok empty =>
      match sp_tasks s !! i with
      | Some t => snap_resume t ok empty (upd_sp_tasks (delete i (sp_tasks s)) s)
      | None => (s, [])
      end
  end.

Definition site_page_run (es : list SitePageEvent) (s : SitePageState) : SitePageState * list PictureCall :=
  foldl (λ p e, let r := site_page_step e p.1 in (r.1, (p.2 ++ r.2)%list)) (s, []) es.

(** Leaving the page. *)
Definition unmount_site_page (s : SitePageState) : SitePageState := upd_sp_run (S (sp_run s)) false (snap_cleanup s).

(** ** Snoozing *)

(** The menu, with the site the page was given; a request is a task. *)
Record SnoozePanel := mkSnoozePanel { sz_menu : bool; sz_reason : string; sz_tasks : list bool }.

Inductive SnoozeCall := UpdateSiteCall (id : string) (data : json).

Definition snooze_json (z : SiteSnooze) : json :=
  JObj [("active", JBool (sn_active z)); ("reason", JStr (sn_reason z)); ("snoozed_by", JStr (sn_snoozed_by z));
        ("snoozed_at", JStr (sn_snoozed_at z)); ("expires_at", JStr (sn_expires_at z))].

Definition text_or (s d : string) : string := if truthy_str s then s else d.

(** [handleSnooze]; the user's name and address, empty when absent. *)
Definition handleSnooze (id display_name email : string) (now durationMs : Z) (s : SnoozePanel) : SnoozePanel * list SnoozeCall :=
  let snooze := mkSnooze true (text_or (sz_reason s) "Customer-initiated snooze") (text_or display_name (text_or email "Customer"))
                  (toISOString now) (toISOString (now + durationMs)) in
  (mkSnoozePanel (sz_menu s) (sz_reason s) (sz_tasks s ++ [true])%list, [UpdateSiteCall id (JObj [("snooze", snooze_json snooze)])]).

Definition handleRearm (id : string) (s : SnoozePanel) : SnoozePanel * list SnoozeCall :=
  (mkSnoozePanel (sz_menu s) (sz_reason s) (sz_tasks s ++ [false])%list, [UpdateSiteCall id (JObj [("snooze", JNull)])]).

(** The answer to a request: an error changes nothing on the page. *)
Definition snooze_answered (snoozing ok : bool) (s : SnoozePanel) : SnoozePanel :=
  if ok then mkSnoozePanel false (if snoozing then EmptyString else sz_reason s) (sz_tasks s) else s.

(** ** Theorems *)

(** *** The snapshot *)

Definition current (s : SitePageState) : list SnapTask := filter_where (λ t, Nat.eqb (st_run t) (sp_run s)) (sp_tasks s).
Definition page_key (s : SitePageState) : SnapKey := snap_key (sp_selected s) (sp_events s).

Record snap_inv (s : SitePageState) : Prop := mkSnapInv {
  si_shown : ∀ n k, sp_url s = Some (n, k) → sp_cleanup s = true ∧ page_key s = Some k ∧ (n < sp_created s)%nat ∧ (n ∉ sp_revoked s) ∧ current s = [];
  si_all : ∀ n, (n < sp_created s)%nat → n ∈ sp_revoked s ∨ ∃ k, sp_url s = Some (n, k);
  si_revoked : NoDup (sp_revoked s) ∧ ∀ n, n ∈ sp_revoked s → (n < sp_created s)%nat;
  si_past : ∀ t, t ∈ sp_tasks s → (st_run t ≤ sp_run s)%nat;
  si_current : ∀ t, t ∈ current s → sp_cleanup s = true ∧ page_key s = Some (st_key t);
  si_one : (length (current s) ≤ 1)%nat
}.

(** Past requests are not current for the next run. *)
Lemma past_not_current s n : (∀ t, t ∈ sp_tasks s → (st_run t ≤ sp_run s)%nat) → (sp_run s < n)%nat →
  filter_where (λ t, Nat.eqb (st_run t) n) (sp_tasks s) = [].
Proof. intros H Hn. apply filter_where_nil. intros t Ht. apply Nat.eqb_neq. specialize (H t Ht). lia. Qed.

(** After the cleanup every URL made is revoked. *)
Lemma cleanup_revokes s : snap_inv s →
  let q := snap_cleanup s in
  sp_url q = None ∧ (∀ n, (n < sp_created q)%nat ↔ n ∈ sp_revoked q) ∧ NoDup (sp_revoked q) ∧
  sp_tasks q = sp_tasks s ∧ sp_run q = sp_run s ∧ sp_created q = sp_created s.
Proof.
  intros [H1 H2 [H3 H4] _ _ _] q. subst q. unfold snap_cleanup. destruct (sp_cleanup s) eqn:Ec; simpl.
  - split; [done|]. destruct (sp_url s) as [[n k]|] eqn:Eu; simpl.
    + destruct (H1 n k eq_refl) as (_ & _ & Hn & Hr & _). split; [|split; [by apply NoDup_cons|done]]. intros m. rewrite elem_of_cons. split.
      * intros Hm. destruct (H2 m Hm) as [?|[k' E]]; [by right|]. injection E as -> _. by left.
      * intros [->|Hm]; [done|by apply H4].
    + split; [|done]. intros m. split; [|apply H4]. intros Hm. by destruct (H2 m Hm) as [?|[k' ?]].
  - assert (Hu : sp_url s = None). { destruct (sp_url s) as [[n k]|] eqn:Eu; [|done]. by destruct (H1 n k eq_refl). }
    split; [done|]. split; [|done]. intros m. split; [|apply H4]. intros Hm. destruct (H2 m Hm) as [?|[k' E]]; [done|congruence].
Qed.

Lemma effect_inv k s :
  sp_url s = None → (∀ n, (n < sp_created s)%nat ↔ n ∈ sp_revoked s) → NoDup (sp_revoked s) →
  (∀ t, t ∈ sp_tasks s → (st_run t ≤ sp_run s)%nat) → page_key s = k → snap_inv (snap_effect k s).1.
Proof.
  intros Hu Hr Hn Ht Hk. pose proof (past_not_current s (S (sp_run s)) Ht ltac:(lia)) as Hp.
  assert (Hidle : ∀ q, sp_url q = None → sp_created q = sp_created s → sp_revoked q = sp_revoked s → sp_tasks q = sp_tasks s → sp_run q = S (sp_run s) → snap_inv q).
  { intros q E1 E2 E3 E4 E5. assert (Ec : current q = []) by (unfold current; by rewrite E4, E5). constructor; rewrite ?E1, ?E2, ?E3, ?E4, ?E5, ?Ec; try done.
    - intros n Hn'. left. by apply Hr.
    - split; [done|]. intros n. apply Hr.
    - intros t Hin. specialize (Ht t Hin). lia.
    - intros t Hin. by apply elem_of_nil in Hin.
    - simpl. lia. }
  destruct k as [[[id alarm] camera]|]; simpl; [|by apply Hidle]. destruct (truthy_str alarm); [|by apply Hidle].
  set (t0 := mkSnapTask (S (sp_run s)) (id, alarm, camera) SnMint).
  assert (Ec : current (upd_sp_tasks (sp_tasks s ++ [t0])%list (upd_sp_run (S (sp_run s)) true s)) = [t0]).
  { unfold current. cbn [sp_tasks sp_run upd_sp_tasks upd_sp_run]. unfold filter_where in *. rewrite filter_app, Hp. cbn [app]. rewrite filter_cons. simpl. by rewrite Nat.eqb_refl. }
  constructor; cbn [fst sp_url sp_created sp_revoked sp_tasks sp_run sp_cleanup upd_sp_tasks upd_sp_run].
  - intros n k E. congruence.
  - intros n Hn'. left. by apply Hr.
  - split; [done|]. intros n. apply Hr.
  - intros t [Hin|Hin]%elem_of_app; [specialize (Ht t Hin); lia|]. apply list_elem_of_singleton in Hin as ->. simpl. lia.
  - intros t Hin. rewrite Ec in Hin. apply list_elem_of_singleton in Hin as ->. split; [done|exact Hk].
  - rewrite Ec. simpl. lia.
Qed.

Lemma select_inv sel l s : snap_inv s → snap_inv (select_event sel l s).1.
Proof.
  intros H. unfold select_event. destruct (bool_decide _) eqn:E.
  - apply bool_decide_eq_true in E. destruct H as [H1 H2 H3 H4 H5 H6]. constructor; try done.
    + intros n k Hn. destruct (H1 n k Hn) as (A & B & C). split; [done|]. split; [|done]. unfold page_key in *. cbn [fst sp_selected sp_events upd_sp_selection]. by rewrite <- E.
    + intros t Ht. destruct (H5 t Ht) as [A B]. split; [done|]. unfold page_key in *. cbn [fst sp_selected sp_events upd_sp_selection]. by rewrite <- E.
  - destruct (cleanup_revokes s H) as (C1 & C2 & C3 & C4 & C5 & C6).
    assert (Eq : snap_cleanup (upd_sp_selection sel l s) = upd_sp_selection sel l (snap_cleanup s)) by (unfold snap_cleanup; simpl; by destruct (sp_cleanup s)).
    rewrite Eq. apply effect_inv; try done. simpl. rewrite C4, C5. apply H.
Qed.

(** Dropping a request that was answered. *)
Lemma drop_inv s i t : sp_tasks s !! i = Some t → snap_inv s →
  let q := upd_sp_tasks (delete i (sp_tasks s)) s in
  snap_inv q ∧ (st_run t = sp_run s → current q = [] ∧ sp_url q = None ∧ sp_cleanup q = true ∧ page_key q = Some (st_key t)).
Proof.
  intros Hi [H1 H2 H3 H4 H5 H6] q. assert (Hin : t ∈ sp_tasks s) by by eapply list_elem_of_lookup_2.
  assert (Hsub : ∀ x, x ∈ current q → x ∈ current s).
  { intros x. unfold current. rewrite !elem_of_filter_where. intros [Hx Hd]. split; [done|]. exact (elem_of_delete_1 _ _ _ Hd). }
  assert (Hc : length (current s) = (length (current q) + if Nat.eqb (st_run t) (sp_run s) then 1 else 0)%nat)
    by exact (length_filter_delete (λ t, Nat.eqb (st_run t) (sp_run s)) _ _ _ Hi).
  split.
  - constructor; try done.
    + intros n k E. destruct (H1 n k E) as (A & B & C & D & F). split_and!; try done. destruct (current q) as [|x l] eqn:Eq; [done|]. exfalso. specialize (Hsub x (list_elem_of_here _ _)). rewrite F in Hsub. by apply elem_of_nil in Hsub.
    + intros x Hx. apply H4. exact (elem_of_delete_1 _ _ _ Hx).
    + intros x Hx. apply H5. by apply Hsub.
    + lia.
  - intros Hr. assert (Ht : t ∈ current s) by (apply elem_of_filter_where; by rewrite Hr, Nat.eqb_refl). destruct (H5 t Ht) as [A B].
    rewrite Hr, Nat.eqb_refl in Hc. split; [destruct (current q); [done|simpl in Hc; lia]|]. split; [|done]. cbn [q sp_url upd_sp_tasks].
    destruct (sp_url s) as [[n k]|] eqn:Eu; [|done]. destruct (H1 n k eq_refl) as (_ & _ & _ & _ & F). rewrite F in Ht. by apply elem_of_nil in Ht.
Qed.

Lemma snap_resume_inv t ok empty s i : sp_tasks s !! i = Some t → snap_inv s → snap_inv (snap_resume t ok empty (upd_sp_tasks (delete i (sp_tasks s)) s)).1.
Proof.
  intros Hi H. destruct (drop_inv s i t Hi H) as [Hq Hr]. set (q := upd_sp_tasks (delete i (sp_tasks s)) s) in *.
  assert (Hle : (st_run t ≤ sp_run q)%nat) by (apply (si_past _ H); by eapply list_elem_of_lookup_2).
  change (sp_run s) with (sp_run q) in Hr. clearbody q.
  (* A request that goes on keeps its run and its key. *)
  assert (Hnext : ∀ st, snap_inv (upd_sp_tasks (sp_tasks q ++ [mkSnapTask (st_run t) (st_key t) st])%list q)).
  { intros st. set (t' := mkSnapTask (st_run t) (st_key t) st). set (q' := upd_sp_tasks (sp_tasks q ++ [t'])%list q). destruct Hq as [H1 H2 H3 H4 H5 H6].
    assert (Ec : current q' = (current q ++ if Nat.eqb (st_run t) (sp_run q) then [t'] else [])%list).
    { unfold current, q'. cbn [sp_tasks sp_run upd_sp_tasks]. unfold filter_where. rewrite filter_app, filter_cons. simpl. by destruct (Nat.eqb _ _). }
    destruct (Nat.eqb_spec (st_run t) (sp_run q)) as [E|E].
    - destruct (Hr E) as (R1 & R2 & R3 & R4). rewrite R1 in Ec. constructor; try done.
      + intros n k Hn. change (sp_url q') with (sp_url q) in Hn. congruence.
      + intros x [Hx|Hx]%elem_of_app; [by apply H4|]. apply list_elem_of_singleton in Hx as ->. exact Hle.
      + intros x Hx. rewrite Ec in Hx. apply list_elem_of_singleton in Hx as ->. by split.
      + rewrite Ec. simpl. lia.
    - rewrite app_nil_r in Ec. constructor; try done.
      + intros n k Hn. rewrite Ec. by apply H1.
      + intros x [Hx|Hx]%elem_of_app; [by apply H4|]. apply list_elem_of_singleton in Hx as ->. exact Hle.
      + intros x Hx. rewrite Ec in Hx. by apply H5.
      + by rewrite Ec. }
  unfold snap_resume. destruct ok; simpl negb; cbv iota.
  - destruct (st_stage t); [apply Hnext|apply Hnext|]. destruct (Nat.eqb_spec (st_run t) (sp_run q)) as [E|E]; [|exact Hq]. destruct empty; [exact Hq|]. cbn [andb negb fst].
    destruct (Hr E) as (R1 & R2 & R3 & R4). destruct Hq as [H1 H2 [H3 H4] H5 H6 H7]. constructor; cbn [sp_url sp_created sp_revoked sp_tasks sp_run sp_cleanup upd_sp_url]; try done.
    + intros n k [= <- <-]. refine (conj R3 (conj R4 (conj _ (conj _ R1)))); [lia|]. intros Hin. specialize (H4 _ Hin). lia.
    + intros n Hn. destruct (decide (n = sp_created q)) as [->|]; [right; by eexists|]. left. destruct (H2 n ltac:(lia)) as [?|[k E']]; [done|congruence].
    + split; [done|]. intros n Hin. specialize (H4 _ Hin). lia.
  - destruct (Nat.eqb_spec (st_run t) (sp_run q)) as [E|E]; [|exact Hq]. destruct (Hr E) as (R1 & R2 & R3 & R4).
    replace (upd_sp_url None (sp_created q) (sp_revoked q) q) with q; [exact Hq|]. rewrite <- R2. by destruct q.
Qed.

Lemma site_page_run_snoc es e s :
  site_page_run (es ++ [e])%list s = ((site_page_step e (site_page_run es s).1).1, ((site_page_run es s).2 ++ (site_page_step e (site_page_run es s).1).2)%list).
Proof. unfold site_page_run. by rewrite foldl_app. Qed.

Lemma snap_inv_run es : snap_inv (site_page_run es mount_site_page).1.
Proof.
  induction es as [|e es IH] using rev_ind.
  - constructor; simpl; try done; [lia|split; [constructor|]; by intros n ?%elem_of_nil|by intros t ?%elem_of_nil|by intros t ?%elem_of_nil|lia].
  - rewrite site_page_run_snoc. destruct e as [id| |l|i ok empty]; cbn [site_page_step fst]; try (by apply select_inv).
    destruct (sp_tasks _ !! i) as [t|] eqn:Et; [|exact IH]. by apply snap_resume_inv.
Qed.

(** Whatever is selected, loaded and answered in whatever order, the picture on display is
    that of the selected event, every other object URL made was revoked exactly once, and
    leaving the page revokes the last. *)
Theorem snapshot_urls_exact es :
  let s := (site_page_run es mount_site_page).1 in
  (∀ n k, sp_url s = Some (n, k) → snap_key (sp_selected s) (sp_events s) = Some k) ∧
  NoDup (sp_revoked s) ∧
  (∀ n, (n < sp_created s)%nat ↔ n ∈ sp_revoked s ∨ ∃ k, sp_url s = Some (n, k)) ∧
  (∀ n k, sp_url s = Some (n, k) → n ∉ sp_revoked s) ∧
  let q := unmount_site_page s in sp_url q = None ∧ NoDup (sp_revoked q) ∧ ∀ n, (n < sp_created q)%nat ↔ n ∈ sp_revoked q.
Proof.
  intros s. pose proof (snap_inv_run es) as H. fold s in H. destruct (cleanup_revokes s H) as (C1 & C2 & C3 & _). destruct H as [H1 H2 [H3 H4] _ _ _].
  split_and!; try done.
  - intros n k Hn. by apply (H1 n k).
  - intros n. split; [apply H2|]. intros [Hn|[k Hn]]; [by apply H4|by apply (H1 n k)].
  - intros n k Hn. by apply (H1 n k).
Qed.

Definition ev (id : string) : SiteEvent := mkSiteEvent id ("alarm-" +:+ id) "c1" EmptyString.

Lemma snapshot_urls_exact_witness :
  let s := (site_page_run [SpEvents [ev "a"; ev "b"]; SpClick "a"; SpSettles 0 true false; SpSettles 0 true false; SpClick "b"; SpSettles 0 true false; SpSettles 0 true false;
                           SpSettles 0 true false; SpSettles 0 true false] mount_site_page).1 in
  sp_url s = Some (0%nat, ("b", "alarm-b", "c1")) ∧ snap_key (sp_selected s) (sp_events s) = Some ("b", "alarm-b", "c1").
Proof.
  cbv zeta. assert (E : sp_url (site_page_run [SpEvents [ev "a"; ev "b"]; SpClick "a"; SpSettles 0 true false; SpSettles 0 true false; SpClick "b"; SpSettles 0 true false; SpSettles 0 true false;
                           SpSettles 0 true false; SpSettles 0 true false] mount_site_page).1 = Some (0%nat, ("b", "alarm-b", "c1"))) by (vm_compute; reflexivity).
  split; [exact E|]. exact (proj1 (snapshot_urls_exact _) _ _ E).
Defined.

(** *** The figures *)

(** Whatever the site, its cameras and its incidents, the page gets none of the figures it
    shows: the answer of GET /sites/{id} carries zeros and no cameras.  Every site of the
    security tier has 0/0 cameras, no incidents, no alerts and is 100% online; every other has
    a compliance of 0%, no incidents, seven violations and no workers.  No equipment is
    listed and no site is ever snoozed. *)
Theorem site_page_constant scope id rows st body :
  HandleGetSite scope id rows = (st, Some body) →
  let d := detail_of body in
  kpis d = (if bool_decide (ss_feature_mode (sd_summary d) = Some "security_only")
            then [("Cameras", "0/0"); ("Incidents", "0"); ("Alerts", "0"); ("Online", "100%")]
            else [("PPE Score", "0%"); ("Incidents", "0"); ("Violations", "7"); ("Workers", "0")]) ∧
  ppeItems d = [] ∧ ss_snooze (sd_summary d) = None ∧ ss_monitoring_schedule (sd_summary d) = None.
Proof.
  unfold HandleGetSite. destruct (find_site id rows) as [r|]; [|done]. destruct (can_view scope r); [|done]. intros [= _ <-].
  destruct (site_json_fields r) as (H1 & H2 & H3 & H4 & H5 & H6 & H7 & _).
  unfold detail_of, kpis, ppeItems, object_field, number_field. rewrite H1, H2, H3, H4, H5, H6, H7. cbn [sd_summary ss_feature_mode].
  split; [|done]. destruct (bool_decide _); reflexivity.
Qed.

Lemma site_page_constant_witness :
  let r := mkStoredSite "S1" "Yard" "Dock 1" "o1" None None "active" "18:00" "06:00" None (Some "security_only") None None None None None None None None "t" false in
  kpis (detail_of (site_json r)) = [("Cameras", "0/0"); ("Incidents", "0"); ("Alerts", "0"); ("Online", "100%")].
Proof.
  intros r. destruct (site_page_constant Unscoped "S1" [r] 200 (site_json r)) as [H _]; [reflexivity|]. rewrite H. reflexivity.
Defined.

(** *** Snoozing *)

(** The requests of the two buttons. *)
Definition snooze_request (data : json) : Prop := ∃ v, data = JObj [("snooze", v)].

Lemma page_requests id name email now ms s c : c ∈ (handleSnooze id name email now ms s).2 ∨ c ∈ (handleRearm id s).2 → ∃ data, c = UpdateSiteCall id data ∧ snooze_request data.
Proof. intros [H|H]; apply list_elem_of_singleton in H as ->; eexists; (split; [reflexivity|by eexists]). Qed.

Lemma decode_snooze data : snooze_request data → decode_site data = Some no_details.
Proof. intros [v ->]. reflexivity. Qed.

(** No request of the snooze and re-arm buttons is ever stored.  The server takes only
    the fields of a site from it, so a customer is refused, and for an administrator the
    empty organization makes the update fail; the page shows neither.  Were there an
    organization with an empty id, the update would go through and blank the site's name,
    address and position, still without a snooze. *)
Theorem snooze_never_stored id name email now ms s c orgs role rows :
  c ∈ (handleSnooze id name email now ms s).2 ∨ c ∈ (handleRearm id s).2 →
  ∃ data, c = UpdateSiteCall id data ∧
    let r := HandleUpdateSite orgs role id data rows in
    (db_snooze <$> r.2) = (db_snooze <$> rows) ∧
    (existsb (is_row id) rows = true → EmptyString ∉ orgs → (r.1 = 403 ∨ r.1 = 500) ∧ r.2 = rows) ∧
    (EmptyString ∈ orgs → role = "admin" ∨ role = "soc_supervisor" → r.1 = 200 ∧
       ∀ x, x ∈ r.2 → db_id x = id → db_name x = EmptyString ∧ db_address x = EmptyString ∧ db_organization_id x = EmptyString ∧ db_latitude x = None ∧ db_longitude x = None).
Proof.
  intros (data & -> & Hd)%page_requests. exists data. split; [done|]. pose proof (bare_update orgs role id data rows (decode_snooze data Hd)) as H. cbv zeta in *.
  destruct H as [[-> Hr]|[[-> [Ho Hx]]|[-> [Hr Ho]]]]; cbn [fst snd].
  - split; [done|]. split; [by intros; split; [left|]|]. intros _ [->| ->]; discriminate Hr.
  - split; [done|]. split; [by intros; split; [right|]|]. done.
  - split; [by apply map_where_keeps|]. split; [intros Hx Hn; destruct Ho; [done|congruence]|]. intros _ _. split; [done|].
    intros x (y & -> & Hy)%list_elem_of_fmap Hx. unfold is_row in *. destruct (String.eqb_spec (db_id y) id); [done|]. by destruct n.
Qed.

Lemma snooze_never_stored_witness :
  let rows := [mkStoredSite "S1" "Yard" "Dock 1" "o1" None None "active" "18:00" "06:00" None (Some "security_only") None None None None None None None None "t" false] in
  let r := HandleUpdateSite ["o1"] "admin" "S1" (JObj [("snooze", JNull)]) rows in r.1 = 500 ∧ r.2 = rows.
Proof.
  cbv zeta. destruct (snooze_never_stored "S1" "Ann" "a@b" 0 1800000 (mkSnoozePanel true EmptyString []) (UpdateSiteCall "S1" (JObj [("snooze", JNull)])) ["o1"] "admin"
    [mkStoredSite "S1" "Yard" "Dock 1" "o1" None None "active" "18:00" "06:00" None (Some "security_only") None None None None None None None None "t" false]) as (data & E & _ & H & _); [right; left|].
  injection E as <-. split; [reflexivity|]. apply H; [reflexivity|]. by intros Hin%list_elem_of_singleton.
Defined.
