(* ===== verification/SiteConfig.v ===== *)
(** * The site dialogs

    The tabs of [components/admin/SiteConfigModal.tsx] that configure one site: the editor of
    schedule windows ([ScheduleWindowsEditor.tsx]), the recording policy
    ([SiteRecordingPanel.tsx]), the monitoring schedule ([SiteScheduleModal.tsx]), the details
    ([CreateSiteModal.tsx]) and archiving and deleting; with the server of [SiteServer].  A
    request is a task until its reply.  Random text ([Math.random().toString(36)]) is an
    argument. *)

From S2P Require Import Prelude Types Http JsonText SiteServer Portal.
From stdpp Require Import pretty.
From Stdlib Require Import Ascii QArith Qround.
#[local] Open Scope string_scope.
#[local] Open Scope Z_scope.

(** ** The editor of windows *)

(** A preset's window, without id. *)
Record PresetWindow := mkPresetWindow { pw_label : string; pw_days : list Z; pw_start_time : string; pw_end_time : string; pw_enabled : bool }.
Record SchedulePreset := mkPreset { ps_label : string; ps_windows : list PresetWindow }.

Definition genId (random : string) : string := "w-" +:+ random.

Definition addWindow (random : string) (l : list MonitoringWindow) : list MonitoringWindow :=
  (l ++ [mkWindow (genId random) EmptyString [1; 2; 3; 4; 5] "18:00" "06:00" true])%list.

Definition has_window_id (id : string) (w : MonitoringWindow) : bool := String.eqb (mw_id w) id.
Definition removeWindow (id : string) (l : list MonitoringWindow) : list MonitoringWindow := filter_where (λ w, negb (has_window_id id w)) l.
Definition updateWindow (id : string) (patch : MonitoringWindow → MonitoringWindow) (l : list MonitoringWindow) : list MonitoringWindow :=
  map_where (has_window_id id) patch l.

(** The comparison of [sort] without argument: by the texts of the numbers. *)
Definition text_le (a b : Z) : bool := String.leb (pretty a) (pretty b).
Definition set_days (d : list Z) (w : MonitoringWindow) : MonitoringWindow := mkWindow (mw_id w) (mw_label w) d (mw_start_time w) (mw_end_time w) (mw_enabled w).
Definition toggleDay (id : string) (day : Z) (l : list MonitoringWindow) : list MonitoringWindow :=
  updateWindow id (λ w, set_days (if includes day (mw_days w) then filter_where (λ d, negb (d =? day)) (mw_days w)
                                  else sort_by text_le (mw_days w ++ [day])%list) w) l.

(** A preset replaces all windows; one random text per window. *)
Definition applyPreset (p : SchedulePreset) (random : nat → string) : list MonitoringWindow :=
  imap (λ i w, mkWindow (genId (random i)) (pw_label w) (pw_days w) (pw_start_time w) (pw_end_time w) (pw_enabled w)) (ps_windows p).

Inductive WindowEdit :=
| EdAdd (random : string) | EdRemove (id : string) | EdLabel (id label : string) | EdEnable (id : string)
| EdDay (id : string) (day : Z) | EdFrom (id time : string) | EdUntil (id time : string) | EdPreset (i : nat) (random : nat → string).

Definition edit_windows (presets : list SchedulePreset) (e : WindowEdit) (l : list MonitoringWindow) : list MonitoringWindow :=
  match e with
  | EdAdd r => addWindow r l
  | EdRemove id => removeWindow id l
  | EdLabel id t => updateWindow id (λ w, mkWindow (mw_id w) t (mw_days w) (mw_start_time w) (mw_end_time w) (mw_enabled w)) l
  | EdEnable id => updateWindow id (λ w, mkWindow (mw_id w) (mw_label w) (mw_days w) (mw_start_time w) (mw_end_time w) (negb (mw_enabled w))) l
  | EdDay id d => if (0 <=? d) && (d <? 7) then toggleDay id d l else l
  | EdFrom id t => updateWindow id (λ w, mkWindow (mw_id w) (mw_label w) (mw_days w) t (mw_end_time w) (mw_enabled w)) l
  | EdUntil id t => updateWindow id (λ w, mkWindow (mw_id w) (mw_label w) (mw_days w) (mw_start_time w) t (mw_enabled w)) l
  | EdPreset i r => match presets !! i with Some p => applyPreset p r | None => l end
  end.

(** Presets of the monitoring schedule and of the recording schedule. *)
Definition PRESETS : list SchedulePreset :=
  [mkPreset "After-hours (Weeknights + Weekends)" [mkPresetWindow "Weeknights" [1; 2; 3; 4; 5] "18:00" "06:00" true; mkPresetWindow "Weekends 24hr" [0; 6] "00:00" "23:59" true];
   mkPreset "24/7 Monitoring" [mkPresetWindow "24/7" [0; 1; 2; 3; 4; 5; 6] "00:00" "23:59" true];
   mkPreset "Weeknights only" [mkPresetWindow "Weeknights" [1; 2; 3; 4; 5] "18:00" "06:00" true]].

Definition RECORDING_PRESETS : list SchedulePreset :=
  [mkPreset "Always (24/7)" [mkPresetWindow "24/7" [0; 1; 2; 3; 4; 5; 6] "00:00" "23:59" true];
   mkPreset "Business hours (weekdays 7am-7pm)" [mkPresetWindow "Weekdays business" [1; 2; 3; 4; 5] "07:00" "19:00" true];
   mkPreset "After-hours only (weeknights + weekends 24hr)"
     [mkPresetWindow "Weeknights" [1; 2; 3; 4; 5] "19:00" "07:00" true; mkPresetWindow "Weekends 24hr" [0; 6] "00:00" "23:59" true]].

(** ** The recording policy *)

(** Buffers are numbers: an emptied input gives 0. *)
Record RecordingPolicy := mkPolicy {
  rp_retention_days : Q;
  rp_recording_mode : string;
  rp_pre_buffer_sec : Q;
  rp_post_buffer_sec : Q;
  rp_recording_triggers : string;
  rp_recording_schedule : string
}.

Definition DEFAULT_POLICY : RecordingPolicy := mkPolicy 3 "continuous" 10 30 "motion,object" EmptyString.

(** A window of a stored schedule; [None] when a field has another type than the editor
    writes. *)
Definition text_or_default (o : option json) (d : string) : option string :=
  match o with None | Some JNull => Some d | Some (JStr s) => Some s | Some _ => None end.
Definition day_number (j : json) : option Z := match j with JNum q => if (Qden q =? 1)%positive then Some (Qnum q) else None | _ => None end.

Definition parse_window (random : nat → string) (i : nat) (w : json) : option MonitoringWindow :=
  id ← text_or_default (jget "id" w) EmptyString;
  label ← text_or_default (jget "label" w) EmptyString;
  days ← match jget "days" w with Some (JArr l) => mapM day_number l | _ => Some [] end;
  from ← text_or_default (jget "start_time" w) "00:00";
  until ← text_or_default (jget "end_time" w) "23:59";
  Some (mkWindow (if truthy_str id then id else "w-" +:+ pretty i +:+ "-" +:+ random i) label days from until
          (match jget "enabled" w with Some (JBool false) => false | _ => true end)).

(** [parseSchedule]; a null element of the array throws and is caught. *)
Definition parseSchedule (random : nat → string) (raw : string) : option (list MonitoringWindow) :=
  let s := trim raw in
  if negb (truthy_str s) then Some []
  else match JSON_parse s with
       | Some (JArr l) => if existsb (λ w, match w with JNull => true | _ => false end) l then Some [] else mapM (λ w, w) (imap (parse_window random) l)
       | Some (JObj fs) =>
           match jget "days" (JObj fs) with
           | Some (JArr d) =>
               days ← mapM day_number d; from ← text_or_default (jget "start" (JObj fs)) "00:00"; until ← text_or_default (jget "end" (JObj fs)) "23:59";
               Some [mkWindow ("legacy-" +:+ random 0%nat) "Imported" days from until true]
           | _ => Some []
           end
       | _ => Some []
       end.

(** The fields of the site's answer; absent and null ones take the defaults of [??].  [None]
    when a field has another type. *)
Definition number_or_default (o : option json) (d : Q) : option Q := match o with None | Some JNull => Some d | Some (JNum q) => Some q | Some _ => None end.

Definition policy_of (j : json) : option RecordingPolicy :=
  d ← number_or_default (jget "retention_days" j) 3; m ← text_or_default (jget "recording_mode" j) "continuous";
  a ← number_or_default (jget "pre_buffer_sec" j) 10; b ← number_or_default (jget "post_buffer_sec" j) 30;
  t ← text_or_default (jget "recording_triggers" j) "motion,object"; s ← text_or_default (jget "recording_schedule" j) EmptyString;
  Some (mkPolicy d m a b t s).

(** The running load and the running saves. *)
Inductive PolicyTask := PtLoad | PtSave.

Record RecordingPanel := mkRecordingPanel {
  rc_policy : RecordingPolicy;
  rc_windows : list MonitoringWindow;
  rc_loading : bool;
  rc_saving : bool;
  rc_status : option string;
  rc_tasks : list PolicyTask
}.

Inductive PolicyCall := GetSiteCall | PatchRecording (body : json).

(** How a request ends: it throws (no network, or a body that is not JSON), or it is answered
    with a status and a JSON body, or refused with a text. *)
Inductive PolicyReply := PrThrew (message : string) | PrSite (body : json) | PrSaved | PrRefused (text : string).

Definition mount_recording : RecordingPanel * list PolicyCall :=
  (mkRecordingPanel DEFAULT_POLICY [] true false None [PtLoad], [GetSiteCall]).

Definition upd_rc_policy (p : RecordingPolicy) (s : RecordingPanel) : RecordingPanel :=
  mkRecordingPanel p (rc_windows s) (rc_loading s) (rc_saving s) (rc_status s) (rc_tasks s).
Definition upd_rc_windows (w : list MonitoringWindow) (s : RecordingPanel) : RecordingPanel :=
  mkRecordingPanel (rc_policy s) w (rc_loading s) (rc_saving s) (rc_status s) (rc_tasks s).
Definition upd_rc_loading (b : bool) (s : RecordingPanel) : RecordingPanel :=
  mkRecordingPanel (rc_policy s) (rc_windows s) b (rc_saving s) (rc_status s) (rc_tasks s).
Definition upd_rc_saving (b : bool) (m : option string) (s : RecordingPanel) : RecordingPanel :=
  mkRecordingPanel (rc_policy s) (rc_windows s) (rc_loading s) b m (rc_tasks s).
Definition upd_rc_tasks (t : list PolicyTask) (s : RecordingPanel) : RecordingPanel :=
  mkRecordingPanel (rc_policy s) (rc_windows s) (rc_loading s) (rc_saving s) (rc_status s) t.

(** [JSON.stringify(scheduleWindows)]. *)
Definition window_json (w : MonitoringWindow) : json :=
  JObj [("id", JStr (mw_id w)); ("label", JStr (mw_label w)); ("days", JArr (jnum <$> mw_days w)); ("start_time", JStr (mw_start_time w));
        ("end_time", JStr (mw_end_time w)); ("enabled", JBool (mw_enabled w))].

Section saving.
Context (fraction_text : Q → string).

Definition schedule_text (l : list MonitoringWindow) : string :=
  match l with [] => EmptyString | _ => stringify fraction_text (JArr (window_json <$> l)) end.

Definition policy_body (p : RecordingPolicy) (l : list MonitoringWindow) : json :=
  JObj [("retention_days", JNum (rp_retention_days p)); ("recording_mode", JStr (rp_recording_mode p)); ("pre_buffer_sec", JNum (rp_pre_buffer_sec p));
        ("post_buffer_sec", JNum (rp_post_buffer_sec p)); ("recording_triggers", JStr (rp_recording_triggers p)); ("recording_schedule", JStr (schedule_text l))].

Definition recording_save (s : RecordingPanel) : RecordingPanel * list PolicyCall :=
  (upd_rc_tasks (rc_tasks s ++ [PtSave])%list (upd_rc_saving true None s), [PatchRecording (policy_body (rc_policy s) (rc_windows s))]).
End saving.

Definition SAVED_STATUS : string := "Saved — cameras pick up the new policy on their next recording restart.".

Definition recording_resume (random : nat → string) (t : PolicyTask) (r : PolicyReply) (s : RecordingPanel) : RecordingPanel :=
  match t, r with
  | PtLoad, PrSite body =>   (* fields of other types are outside of the model *)
      match policy_of body with
      | Some p => match parseSchedule random (rp_recording_schedule p) with
                  | Some ws => upd_rc_loading false (upd_rc_windows ws (upd_rc_policy p s))
                  | None => s
                  end
      | None => s
      end
  | PtLoad, _ => upd_rc_loading false (upd_rc_saving (rc_saving s) (Some "Failed to load current policy") s)
  | PtSave, PrRefused m => upd_rc_saving false (Some ("Error: " +:+ m)) s
  | PtSave, PrThrew m => upd_rc_saving false (Some ("Error: " +:+ m)) s
  | PtSave, _ => upd_rc_saving false (Some SAVED_STATUS) s
  end.

Definition RECORDING_TRIGGERS : list string := ["motion"; "object"; "line_cross"; "intrusion"; "loitering"; "audio"].
Definition triggerTokens (s : string) : list string := filter_where truthy_str (trim <$> js_split "," s).
Definition toggleTrigger (t : string) (s : string) : string :=
  let tokens := triggerTokens s in
  join_with "," (if includes t tokens then filter_where (λ x, negb (String.eqb x t)) tokens else (tokens ++ [t])%list).

Inductive RecordingEvent :=
| RcRetention (days : Z) | RcMode (mode : string) | RcPre (n : option Q) | RcPost (n : option Q) | RcTrigger (t : string)
| RcWindows (e : WindowEdit) | RcSave | RcSettles (i : nat) (r : PolicyReply).

Section recording.
Context (fraction_text : Q → string) (random : nat → string).

Definition recording_step (e : RecordingEvent) (s : RecordingPanel) : RecordingPanel * list PolicyCall :=
  let p := rc_policy s in
  match e with
  | RcSettles i r =>
      match rc_tasks s !! i with
      | Some t => (recording_resume random t r (upd_rc_tasks (delete i (rc_tasks s)) s), [])
      | None => (s, [])
      end
  | _ =>
      if rc_loading s then (s, [])
      else match e with
           | RcRetention d =>
               if includes d RetentionTiers
               then (upd_rc_policy (mkPolicy (inject_Z d) (rp_recording_mode p) (rp_pre_buffer_sec p) (rp_post_buffer_sec p) (rp_recording_triggers p) (rp_recording_schedule p)) s, [])
               else (s, [])
           | RcMode m =>
               if includes m ["continuous"; "event"]
               then (upd_rc_policy (mkPolicy (rp_retention_days p) m (rp_pre_buffer_sec p) (rp_post_buffer_sec p) (rp_recording_triggers p) (rp_recording_schedule p)) s, [])
               else (s, [])
           | RcPre n =>
               if String.eqb (rp_recording_mode p) "event"
               then (upd_rc_policy (mkPolicy (rp_retention_days p) (rp_recording_mode p) (default 0%Q n) (rp_post_buffer_sec p) (rp_recording_triggers p) (rp_recording_schedule p)) s, [])
               else (s, [])
           | RcPost n =>
               if String.eqb (rp_recording_mode p) "event"
               then (upd_rc_policy (mkPolicy (rp_retention_days p) (rp_recording_mode p) (rp_pre_buffer_sec p) (default 0%Q n) (rp_recording_triggers p) (rp_recording_schedule p)) s, [])
               else (s, [])
           | RcTrigger t =>
               if String.eqb (rp_recording_mode p) "event" && includes t RECORDING_TRIGGERS
               then (upd_rc_policy (mkPolicy (rp_retention_days p) (rp_recording_mode p) (rp_pre_buffer_sec p) (rp_post_buffer_sec p) (toggleTrigger t (rp_recording_triggers p)) (rp_recording_schedule p)) s, [])
               else (s, [])
           | RcWindows we => (upd_rc_windows (edit_windows RECORDING_PRESETS we (rc_windows s)) s, [])
           | RcSave => if rc_saving s then (s, []) else recording_save fraction_text s
           | RcSettles _ _ => (s, [])
           end
  end.

Definition recording_run (es : list RecordingEvent) (s : RecordingPanel) : RecordingPanel * list PolicyCall :=
  foldl (λ q e, let r := recording_step e q.1 in (r.1, (q.2 ++ r.2)%list)) (s, []) es.
End recording.

(** ** The monitoring schedule *)

(** [sm_pending] and [sm_error] are the mutation's; [sm_tasks] counts its requests. *)
Record ScheduleModal := mkScheduleModal {
  sm_windows : list MonitoringWindow;
  sm_dirty : bool;
  sm_pending : bool;
  sm_error : bool
}.

Inductive ScheduleCall := PutSchedule (body : json) | CloseModal.

Inductive ScheduleEvent :=
| SmSite (body : json)   (* the query delivers a site with new content *)
| SmEdit (e : WindowEdit) | SmSave | SmSettles (ok : bool).

Definition mount_schedule : ScheduleModal := mkScheduleModal [] false false false.

Definition schedule_step (random : nat → string) (e : ScheduleEvent) (s : ScheduleModal) : ScheduleModal * list ScheduleCall :=
  match e with
  | SmSite body =>
      match jget "monitoring_schedule" body with
      | Some v =>
          if truthy_json v
          then match v with
               | JArr l => match mapM (λ w, w) (imap (parse_window random) l) with
                           | Some ws => (mkScheduleModal ws (sm_dirty s) (sm_pending s) (sm_error s), [])
                           | None => (s, [])   (* outside of the model *)
                           end
               | _ => (s, [])
               end
          else (s, [])
      | None => (s, [])
      end
  | SmEdit e => (mkScheduleModal (edit_windows PRESETS e (sm_windows s)) true (sm_pending s) (sm_error s), [])
  | SmSave =>
      if sm_dirty s && negb (sm_pending s)
      then (mkScheduleModal (sm_windows s) (sm_dirty s) true false, [PutSchedule (JObj [("monitoring_schedule", JArr (window_json <$> sm_windows s))])])
      else (s, [])
  | SmSettles ok =>
      if sm_pending s
      then if ok then (mkScheduleModal (sm_windows s) (sm_dirty s) false false, [CloseModal]) else (mkScheduleModal (sm_windows s) (sm_dirty s) false true, [])
      else (s, [])
  end.

Definition schedule_run (random : nat → string) (es : list ScheduleEvent) (s : ScheduleModal) : ScheduleModal * list ScheduleCall :=
  foldl (λ q e, let r := schedule_step random e q.1 in (r.1, (q.2 ++ r.2)%list)) (s, []) es.

(** ** Archiving and deleting *)

Inductive DangerTask := DtArchive | DtDelete.

Record DangerZone := mkDangerZone {
  dz_archiving : bool;
  dz_archived : bool;
  dz_confirm : string;
  dz_deleting : bool;
  dz_error : string;
  dz_timers : nat;
  dz_tasks : list DangerTask
}.

(** The requests, and the two callbacks of the dialog. *)
Inductive DangerCall := PutSite (body : json) | DeleteSiteCall | OnArchived | OnDeleted.

(** [fetch] resolves with any answer and rejects only without one. *)
Inductive DangerReply := Answered (status : Z) | NoAnswer (message : string).

Inductive DangerEvent := DzArchive | DzType (text : string) | DzDelete | DzTimer | DzSettles (i : nat) (r : DangerReply).

Definition mount_danger : DangerZone := mkDangerZone false false EmptyString false EmptyString 0 [].

Definition danger_step (e : DangerEvent) (s : DangerZone) : DangerZone * list DangerCall :=
  match e with
  | DzArchive =>
      if dz_archiving s || dz_archived s then (s, [])
      else (mkDangerZone true (dz_archived s) (dz_confirm s) (dz_deleting s) EmptyString (dz_timers s) (dz_tasks s ++ [DtArchive])%list,
            [PutSite (JObj [("status", JStr "archived")])])
  | DzType t => (mkDangerZone (dz_archiving s) (dz_archived s) (toLowerCase t) (dz_deleting s) (dz_error s) (dz_timers s) (dz_tasks s), [])
  | DzDelete =>
      if negb (String.eqb (dz_confirm s) "delete") || dz_deleting s then (s, [])
      else (mkDangerZone (dz_archiving s) (dz_archived s) (dz_confirm s) true EmptyString (dz_timers s) (dz_tasks s ++ [DtDelete])%list, [DeleteSiteCall])
  | DzTimer => match dz_timers s with S n => (mkDangerZone (dz_archiving s) (dz_archived s) (dz_confirm s) (dz_deleting s) (dz_error s) n (dz_tasks s), [OnArchived]) | O => (s, []) end
  | DzSettles i r =>
      match dz_tasks s !! i with
      | None => (s, [])
      | Some t =>
          let ts := delete i (dz_tasks s) in
          match t, r with
          | DtArchive, Answered _ => (mkDangerZone false true (dz_confirm s) (dz_deleting s) (dz_error s) (S (dz_timers s)) ts, [])
          | DtArchive, NoAnswer m => (mkDangerZone false (dz_archived s) (dz_confirm s) (dz_deleting s) (if truthy_str m then m else "Failed to archive site") (dz_timers s) ts, [])
          | DtDelete, Answered _ => (mkDangerZone (dz_archiving s) (dz_archived s) (dz_confirm s) (dz_deleting s) (dz_error s) (dz_timers s) ts, [OnDeleted])
          | DtDelete, NoAnswer m => (mkDangerZone (dz_archiving s) (dz_archived s) (dz_confirm s) false (if truthy_str m then m else "Failed to delete site") (dz_timers s) ts, [])
          end
      end
  end.

Definition danger_run (es : list DangerEvent) (s : DangerZone) : DangerZone * list DangerCall :=
  foldl (λ q e, let r := danger_step e q.1 in (r.1, (q.2 ++ r.2)%list)) (s, []) es.

(** ** The details *)

(** Coordinates are number inputs: a number or nothing.  The minutes are kept as text. *)
Record SiteForm := mkSiteForm {
  fm_name : string;
  fm_street : string;
  fm_city : string;
  fm_state : string;
  fm_zip : string;
  fm_company : string;
  fm_latitude : option Q;
  fm_longitude : option Q;
  fm_feature_mode : string;
  fm_risk_tier : string;
  fm_industry : string;
  fm_hazards : string;
  fm_contact_name : string;
  fm_contact_phone : string;
  fm_contact_email : string;
  fm_sla_ack : string;
  fm_sla_resolve : string;
  fm_escalation_contact : string;
  fm_escalation_phone : string
}.

Definition blank_site_form : SiteForm :=
  mkSiteForm EmptyString EmptyString EmptyString EmptyString EmptyString EmptyString None None "security_and_safety" "medium" EmptyString EmptyString
    EmptyString EmptyString EmptyString "5" "30" EmptyString EmptyString.

(** A text property, or a default when it is absent, null or empty. *)
Definition text_or_else (o : option json) (d : string) : string := match o with Some (JStr s) => if truthy_str s then s else d | _ => d end.
Definition text_nullish (o : option json) (d : string) : string := match o with Some (JStr s) => s | _ => d end.
(** [if (x) setX(String(x))] for a number, and [String(x || d)]. *)
Definition number_or_else (o : option json) (d : option Q) : option Q := match o with Some (JNum q) => if Qeq_bool q 0 then d else Some q | _ => d end.
Definition minutes_text (o : option json) (d : string) : string := match o with Some (JNum q) => if Qeq_bool q 0 then d else pretty (Qfloor q) | _ => d end.

(** The effect that fills the form when the site arrives; texts and numbers of the types of
    the interface. *)
Definition fill_form (j : json) (f : SiteForm) : SiteForm :=
  let sc := jget "site_contact" j in
  let ep := jget "escalation_policy" j in
  let has (o : option json) := match o with Some v => truthy_json v | None => false end in
  mkSiteForm (text_nullish (jget "name" j) EmptyString) (text_nullish (jget "address" j) EmptyString) (fm_city f) (fm_state f) (fm_zip f)
    (text_nullish (jget "company_id" j) EmptyString) (number_or_else (jget "latitude" j) (fm_latitude f)) (number_or_else (jget "longitude" j) (fm_longitude f))
    (text_nullish (jget "feature_mode" j) "security_and_safety")
    (text_or_else (jget "risk_tier" j) (fm_risk_tier f)) (text_or_else (jget "industry" j) (fm_industry f)) (text_or_else (jget "hazards" j) (fm_hazards f))
    (if has sc then text_or_else (jget_opt "name" sc) EmptyString else fm_contact_name f)
    (if has sc then text_or_else (jget_opt "phone" sc) EmptyString else fm_contact_phone f)
    (if has sc then text_or_else (jget_opt "email" sc) EmptyString else fm_contact_email f)
    (if has ep then minutes_text (jget_opt "sla_ack_minutes" ep) "5" else fm_sla_ack f)
    (if has ep then minutes_text (jget_opt "sla_resolve_minutes" ep) "30" else fm_sla_resolve f)
    (if has ep then text_or_else (jget_opt "escalation_contact" ep) EmptyString else fm_escalation_contact f)
    (if has ep then text_or_else (jget_opt "escalation_phone" ep) EmptyString else fm_escalation_phone f).

Definition fullAddress (f : SiteForm) : string := join_with ", " (filter_where truthy_str [fm_street f; fm_city f; fm_state f; fm_zip f]).

(** [parseInt(s) || d]: an optional sign and the leading digits. *)
Definition parse_int_or (s : string) (d : Z) : Z :=
  let read (t : string) := match read_digits 0 0 t with (v, S _, _) => v | _ => 0 end in
  let v := match trim s with
           | String c r => if Ascii.eqb c "-"%char then - read r else if Ascii.eqb c "+"%char then read r else read (String c r)
           | EmptyString => 0
           end in
  if v =? 0 then d else v.

Definition opt_str (key v : string) : list (string * json) := if truthy_str v then [(key, JStr v)] else [].

Definition site_payload (f : SiteForm) : json :=
  JObj ([("name", JStr (trim (fm_name f))); ("address", JStr (fullAddress f)); ("company_id", JStr (fm_company f))]
    ++ opt_prop "latitude" (JNum <$> fm_latitude f) ++ opt_prop "longitude" (JNum <$> fm_longitude f)
    ++ [("feature_mode", JStr (fm_feature_mode f)); ("risk_tier", JStr (fm_risk_tier f))]
    ++ opt_str "industry" (fm_industry f) ++ opt_str "hazards" (trim (fm_hazards f))
    ++ (if truthy_str (fm_contact_name f) || truthy_str (fm_contact_phone f) || truthy_str (fm_contact_email f)
        then [("site_contact", JObj [("name", JStr (trim (fm_contact_name f))); ("phone", JStr (trim (fm_contact_phone f))); ("email", JStr (trim (fm_contact_email f)))])]
        else [])
    ++ [("escalation_policy", JObj ([("sla_ack_minutes", jnum (parse_int_or (fm_sla_ack f) 5)); ("sla_resolve_minutes", jnum (parse_int_or (fm_sla_resolve f) 30))]
         ++ opt_str "escalation_contact" (trim (fm_escalation_contact f)) ++ opt_str "escalation_phone" (trim (fm_escalation_phone f))))])%list.

(** The dialog on a site ([Some id]) or on a new one. *)
Record SiteFormModal := mkSiteFormModal { fd_form : SiteForm; fd_pending : bool; fd_error : option string }.

Inductive SiteFormCall := UpdateSiteRequest (id : string) (body : json) | CreateSiteRequest (body : json) | FormCloses.

Inductive SiteFormEvent := FdSite (body : json) | FdEdit (f : SiteForm → SiteForm) | FdSubmit | FdSettles (error : option string).

Definition site_form_step (edit : option string) (e : SiteFormEvent) (s : SiteFormModal) : SiteFormModal * list SiteFormCall :=
  match e with
  | FdSite body => if truthy_ostr edit then (mkSiteFormModal (fill_form body (fd_form s)) (fd_pending s) (fd_error s), []) else (s, [])
  | FdEdit f => (mkSiteFormModal (f (fd_form s)) (fd_pending s) (fd_error s), [])
  | FdSubmit =>
      let f := fd_form s in
      if negb (truthy_str (trim (fm_name f))) || negb (truthy_str (fm_company f)) || fd_pending s then (s, [])
      else (mkSiteFormModal f true None,
            [match edit with Some id => if truthy_str id then UpdateSiteRequest id (site_payload f) else CreateSiteRequest (site_payload f)
             | None => CreateSiteRequest (site_payload f) end])
  | FdSettles err =>
      if fd_pending s
      then match err with Some m => (mkSiteFormModal (fd_form s) false (Some m), []) | None => (mkSiteFormModal (fd_form s) false None, [FormCloses]) end
      else (s, [])
  end.

(** ** Theorems *)

(** *** The text of a schedule *)

(** A byte that no white space sequence starts with. *)
Definition solid (ws : list (list N)) (b : N) : bool := forallb (λ w, match w with a :: _ => negb (a =? b)%N | [] => false end) ws.

Lemma drop_space_solid ws b l n : solid ws b = true → drop_space n ws (b :: l) = b :: l.
Proof.
  intros H. destruct n as [|n]; [done|]. simpl.
  assert (E : foldr (λ w acc, match Prelude.strip_prefix w (b :: l) with Some r => Some r | None => acc end) None ws = None).
  { unfold solid in H. induction ws as [|w ws IH]; [done|]. simpl in *. apply andb_true_iff in H as [Hw Hs]. destruct w as [|a w]; [done|]. simpl. apply negb_true_iff in Hw. rewrite Hw. by apply IH. }
  by rewrite E.
Qed.

Lemma bytes_of_app a b : bytes_of (a +:+ b) = (bytes_of a ++ bytes_of b)%list.
Proof. induction a as [|c a IH]; [done|]. rewrite sapp_cons. change (bytes_of (String c ?x)) with (N_of_ascii c :: bytes_of x). rewrite IH. reflexivity. Qed.

(** A text between two solid characters is not trimmed. *)
Lemma trim_solid ws c d s :
  solid ws (code c) = true → solid (reverse <$> ws) (code d) = true → trim_with ws (String c (s +:+ String d EmptyString)) = String c (s +:+ String d EmptyString).
Proof.
  intros Hc Hd. unfold trim_with. set (t := String c (s +:+ String d EmptyString)).
  assert (Hb : bytes_of t = code c :: (bytes_of s ++ [code d])%list) by (unfold t; change (bytes_of (String c ?x)) with (code c :: bytes_of x); by rewrite bytes_of_app).
  rewrite Hb, drop_space_solid by done. rewrite app_comm_cons, reverse_app. change (reverse [code d]) with [code d]. simpl app.
  rewrite drop_space_solid by done. rewrite reverse_cons, reverse_involutive. rewrite <- (of_bytes_of t), Hb. reflexivity.
Qed.

Lemma schedule_text_shape ft l : l ≠ [] → ∃ s, schedule_text ft l = String "[" (s +:+ String "]" EmptyString).
Proof. destruct l as [|w l]; [done|]. intros _. eexists. reflexivity. Qed.

Lemma schedule_trims ft l : trim (schedule_text ft l) = schedule_text ft l ∧ TrimSpace (schedule_text ft l) = schedule_text ft l.
Proof.
  destruct (decide (l = [])) as [->|Hl]; [split; reflexivity|]. destruct (schedule_text_shape ft l Hl) as [s ->].
  split; [change trim with (trim_with white_space)|unfold TrimSpace]; apply trim_solid; reflexivity.
Qed.

Lemma schedule_parses ft l : l ≠ [] → JSON_parse (schedule_text ft l) = Some (JArr (window_json <$> l)).
Proof.
  intros Hl. destruct l as [|w l]; [done|]. apply JSON_roundtrip. change (all (map plain_json (window_json <$> (w :: l)))). apply all_Forall.
  apply Forall_forall. intros x (y & -> & _)%list_elem_of_fmap. simpl.
  assert (Hd : all (map plain_json (jnum <$> mw_days y))). { apply all_Forall, Forall_forall. intros z (d & -> & _)%list_elem_of_fmap. reflexivity. }
  split; [|by repeat split]. apply (bool_decide_unpack _). reflexivity.
Qed.

Lemma mapM_imap {A B} (f : nat → A → option B) (g : B → A) l : (∀ i x, x ∈ l → f i (g x) = Some x) → mapM (λ w, w) (imap f (g <$> l)) = Some l.
Proof.
  revert f. induction l as [|x l IH]; intros f H; [done|].
  change (mapM (λ w, w) (imap f (g <$> x :: l))) with (y ← f 0%nat (g x); k ← mapM (λ w, w) (imap (f ∘ S) (g <$> l)); Some (y :: k)).
  rewrite (H 0%nat x) by left. simpl. rewrite (IH (f ∘ S)); [done|]. intros i y Hy. apply H. by right.
Qed.

Lemma mapM_inverse {A B} (f : B → option A) (g : A → B) l : (∀ x, x ∈ l → f (g x) = Some x) → mapM f (g <$> l) = Some l.
Proof. induction l as [|x l IH]; intros H; [done|].
  change (mapM f (g <$> x :: l)) with (y ← f (g x); k ← mapM f (g <$> l); Some (y :: k)). rewrite H by left. simpl. rewrite IH; [done|]. intros y Hy. apply H. by right. Qed.

(** The editor reads its own windows back. *)
Lemma window_read_back random i w : truthy_str (mw_id w) = true → parse_window random i (window_json w) = Some w.
Proof.
  intros Hid. unfold parse_window, window_json. simpl. rewrite (mapM_inverse day_number jnum) by (intros; reflexivity). simpl. rewrite Hid. destruct w as [a b c d e []]; reflexivity.
Qed.

Lemma schedule_read_back ft random l : Forall (λ w, truthy_str (mw_id w) = true) l → parseSchedule random (schedule_text ft l) = Some l.
Proof.
  intros Hid. unfold parseSchedule. rewrite (proj1 (schedule_trims ft l)). destruct (decide (l = [])) as [->|Hl]; [done|].
  rewrite schedule_parses by done. destruct (schedule_text_shape ft l Hl) as [s ->]. simpl negb. cbn iota.
  assert (E : existsb (λ w, match w with JNull => true | _ => false end) (window_json <$> l) = false). { clear. induction l; [done|]. simpl. done. }
  rewrite E. apply mapM_imap. intros i x Hx. rewrite Forall_forall in Hid. by apply window_read_back, Hid.
Qed.

(** *** What the recorder makes of it *)

Lemma Qred_integer z : Qred (inject_Z z) = inject_Z z.
Proof. unfold inject_Z, Qred. pose proof (Z.ggcd_gcd z 1) as H1. pose proof (Z.ggcd_correct_divisors z 1) as H2. destruct (Z.ggcd z 1) as [g [a b]]. simpl in *. rewrite Z.gcd_1_r in H1. subst g. destruct H2 as [Ha Hb]. assert (b = 1) as -> by lia. assert (a = z) as -> by lia. reflexivity. Qed.

Definition int64 (z : Z) : Prop := - 2 ^ 63 ≤ z < 2 ^ 63.

Lemma go_int_jnum z : int64 z → go_int (Some (jnum z)) = Some z.
Proof.
  intros [H1 H2]. unfold go_int, jnum. rewrite Qred_integer. simpl Qden. simpl Qnum. simpl Pos.eqb.
  apply Z.leb_le in H1. apply Z.ltb_lt in H2. by rewrite H1, H2.
Qed.

(** The window as the recorder decodes it. *)
Definition recorded (w : MonitoringWindow) : scheduleWindow := mkScheduleWindow (mw_enabled w) (mw_days w) (mw_start_time w) (mw_end_time w).

Lemma decode_window_json w : Forall int64 (mw_days w) → decode_window (window_json w) = Some (recorded w).
Proof.
  intros Hd. unfold decode_window, window_json. simpl. rewrite (mapM_inverse _ jnum); [done|]. intros x Hx. rewrite Forall_forall in Hd. by apply go_int_jnum, Hd.
Qed.

Lemma mapM_compose {A B C} (f : B → option C) (g : A → B) (h : A → C) l : (∀ x, x ∈ l → f (g x) = Some (h x)) → mapM f (g <$> l) = Some (h <$> l).
Proof.
  induction l as [|x l IH]; intros H; [done|].
  change (mapM f (g <$> x :: l)) with (y ← f (g x); k ← mapM f (g <$> l); Some (y :: k)). rewrite H by left. simpl. rewrite IH; [done|]. intros y Hy. apply H. by right.
Qed.

Lemma recorder_reads ft l today now : Forall (λ w, Forall int64 (mw_days w)) l →
  recorder_may_run (schedule_text ft l) today now = match l with [] => true | _ => existsb (λ w, window_open today now (recorded w)) l end.
Proof.
  intros Hd. destruct (decide (l = [])) as [->|Hl]; [done|]. unfold recorder_may_run, isWithinSchedule.
  rewrite (proj2 (schedule_trims ft l)). pose proof (schedule_parses ft l Hl) as Hp. destruct (schedule_text_shape ft l Hl) as [s Es]. rewrite Es in *.
  change (truthy_str (String "[" ?x)) with true. change (Ascii.eqb "[" "[") with true. cbv zeta. rewrite Hp. cbn iota.
  rewrite (mapM_compose decode_window window_json recorded) by (intros x Hx; apply decode_window_json; rewrite Forall_forall in Hd; by apply Hd).
  assert (E : existsb (window_open today now) (recorded <$> l) = existsb (λ w, window_open today now (recorded w)) l). { clear. induction l as [|x l IH]; [done|]. change (recorded <$> x :: l) with (recorded x :: (recorded <$> l)). cbn [existsb]. by rewrite IH. }
  destruct l as [|w l]; [done|]. change (recorded <$> w :: l) with (recorded w :: (recorded <$> l)) in *. rewrite E. simpl negb. by rewrite negb_involutive.
Qed.

(** A time input gives nothing or hours and minutes. *)
Definition clock_text (h m : Z) : string :=
  String (pretty_N_char (Z.to_N (h / 10))) (String (pretty_N_char (Z.to_N (h mod 10))) (String ":" (String (pretty_N_char (Z.to_N (m / 10))) (String (pretty_N_char (Z.to_N (m mod 10))) EmptyString)))).

Definition clock (t : string) (minutes : option Z) : Prop :=
  match minutes with
  | None => t = EmptyString
  | Some n => ∃ h m, 0 ≤ h < 24 ∧ 0 ≤ m < 60 ∧ n = h * 60 + m ∧ t = clock_text h m
  end.

Lemma digits_not_special (x : N) : (x < 10)%N → let c := pretty_N_char x in
  Ascii.eqb c ":" = false ∧ Ascii.eqb c "-" = false ∧ Ascii.eqb c "+" = false ∧ (match code c with 9 | 11 | 12 | 32 => true | _ => false end)%N = false.
Proof.
  intros. assert (x = 0 ∨ x = 1 ∨ x = 2 ∨ x = 3 ∨ x = 4 ∨ x = 5 ∨ x = 6 ∨ x = 7 ∨ x = 8 ∨ x = 9)%N as Hx by lia.
  destruct Hx as [->|[->|[->|[->|[->|[->|[->|[->|[->| ->]]]]]]]]]; by vm_compute.
Qed.

Lemma scan_two a b : 0 ≤ a < 10 → 0 ≤ b < 10 →
  scan_int (String (pretty_N_char (Z.to_N a)) (String (pretty_N_char (Z.to_N b)) EmptyString)) = a * 10 + b.
Proof.
  intros Ha Hb. assert (Hs : ∀ x, 0 ≤ x < 10 → x = 0 ∨ x = 1 ∨ x = 2 ∨ x = 3 ∨ x = 4 ∨ x = 5 ∨ x = 6 ∨ x = 7 ∨ x = 8 ∨ x = 9) by lia.
  destruct (Hs a Ha) as [->|[->|[->|[->|[->|[->|[->|[->|[->| ->]]]]]]]]]; destruct (Hs b Hb) as [->|[->|[->|[->|[->|[->|[->|[->|[->| ->]]]]]]]]]; reflexivity.
Qed.

Lemma split_clock h m : 0 ≤ h < 24 → 0 ≤ m < 60 → ∃ a b, split_colon (clock_text h m) = Some (a, b) ∧ scan_int a = h ∧ scan_int b = m.
Proof.
  intros Hh Hm. unfold clock_text. simpl.
  assert (B : ∀ x, 0 ≤ x < 100 → (Z.to_N (x / 10) < 10)%N ∧ (Z.to_N (x mod 10) < 10)%N ∧ 0 ≤ x / 10 < 10 ∧ 0 ≤ x mod 10 < 10 ∧ x = x / 10 * 10 + x mod 10) by (intros; zdiv).
  destruct (B h ltac:(lia)) as (B1 & B2 & B3 & B4 & B5). destruct (B m ltac:(lia)) as (_ & _ & M3 & M4 & M5).
  rewrite (proj1 (digits_not_special _ B1)), (proj1 (digits_not_special _ B2)). simpl.
  eexists _, _. split; [reflexivity|]. rewrite !scan_two by done. by split.
Qed.

(** When a window is open, by its minutes; an emptied time opens it all day. *)
Definition open_at (today now : Z) (days : list Z) (from until : option Z) : bool :=
  includes today days &&
  match from, until with
  | Some s, Some e => if s <=? e then (s <=? now) && (now <? e) else (s <=? now) || (now <? e)
  | _, _ => true
  end.

Lemma window_open_clock w s e today now : clock (mw_start_time w) s → clock (mw_end_time w) e →
  window_open today now (recorded w) = mw_enabled w && open_at today now (mw_days w) s e.
Proof.
  intros Hs He. unfold window_open, recorded, nowInWindow, open_at. cbn [sw_enabled sw_days sw_start sw_end]. f_equal. destruct (includes today (mw_days w)); [|done]. simpl.
  destruct s as [s|]; simpl in Hs; [|by rewrite Hs].
  destruct Hs as (h & m & Hh & Hm & -> & Es). rewrite Es. destruct (split_clock h m Hh Hm) as (a & b & -> & Ea & Eb).
  destruct e as [e|]; simpl in He; [|by rewrite He]. destruct He as (h' & m' & Hh' & Hm' & -> & Ee). rewrite Ee. destruct (split_clock h' m' Hh' Hm') as (a' & b' & -> & Ea' & Eb').
  by rewrite Ea, Eb, Ea', Eb'.
Qed.

(** C27. A saved recording schedule is the one that was edited: it is read back window by
    window, and the recorder runs exactly while an enabled window is open on a chosen day,
    or always when there is no window.  A window whose time was emptied is open all day. *)
Theorem recording_schedule_exact ft random l times today now :
  Forall (λ w, truthy_str (mw_id w) = true ∧ Forall int64 (mw_days w)) l →
  Forall2 (λ w t, clock (mw_start_time w) t.1 ∧ clock (mw_end_time w) t.2) l times →
  parseSchedule random (schedule_text ft l) = Some l ∧
  recorder_may_run (schedule_text ft l) today now =
    (Nat.eqb (length l) 0 || existsb (λ x, mw_enabled x.1 && open_at today now (mw_days x.1) x.2.1 x.2.2) (zip l times)).
Proof.
  intros Hl Ht. split; [apply schedule_read_back; eapply Forall_impl; [exact Hl|by intros w [? _]]|].
  rewrite recorder_reads by (eapply Forall_impl; [exact Hl|by intros w [_ ?]]). destruct l as [|w l]; [done|]. cbn [length Nat.eqb orb]. clear Hl.
  induction Ht as [|v t l' ts [H1 H2] _ IH]; [done|]. cbn [existsb zip zip_with fst snd]. rewrite (window_open_clock v t.1 t.2) by done. by rewrite IH.
Qed.

Lemma recording_schedule_exact_witness :
  let w := mkWindow "w-1" "Nights" [5] "22:00" "06:00" true in
  recorder_may_run (schedule_text (λ _, EmptyString) [w]) 5 1380 = true ∧ recorder_may_run (schedule_text (λ _, EmptyString) [w]) 6 60 = false.
Proof.
  intros w.
  assert (Ht : Forall2 (λ w t, clock (mw_start_time w) t.1 ∧ clock (mw_end_time w) t.2) [w] [(Some 1320, Some 360)]).
  { constructor; [|constructor]. split; [exists 22, 0|exists 6, 0]; repeat split; try lia; reflexivity. }
  assert (Hl : Forall (λ w, truthy_str (mw_id w) = true ∧ Forall int64 (mw_days w)) [w]).
  { constructor; [|constructor]. split; [reflexivity|]. constructor; [|constructor]. unfold int64. simpl. lia. }
  split; [rewrite (proj2 (recording_schedule_exact _ (λ _, EmptyString) [w] _ 5 1380 Hl Ht))|rewrite (proj2 (recording_schedule_exact _ (λ _, EmptyString) [w] _ 6 60 Hl Ht))]; reflexivity.
Defined.

(** What the recording presets cover.  "Always (24/7)" misses the last minute of every day;
    "Business hours" is 07:00 to 19:00 on weekdays; "After-hours only" is every other time
    but for the last minute of Saturday and Sunday. *)
Theorem preset_coverage ft random today now :
  0 ≤ today < 7 → 0 ≤ now < 1440 →
  let runs i := recorder_may_run (schedule_text ft (edit_windows RECORDING_PRESETS (EdPreset i random) [])) today now in
  let weekday := (1 <=? today) && (today <=? 5) in
  runs 0%nat = negb (now =? 1439) ∧
  runs 1%nat = weekday && (420 <=? now) && (now <? 1140) ∧
  runs 2%nat = negb (weekday && (420 <=? now) && (now <? 1140)) && (weekday || negb (now =? 1439)).
Proof.
  intros Hd Hn runs weekday. assert (Hruns : ∀ i, runs i = match edit_windows RECORDING_PRESETS (EdPreset i random) [] with [] => true | l => existsb (λ w, window_open today now (recorded w)) l end).
  { intros i. unfold runs. rewrite recorder_reads; [by destruct (edit_windows _ _ _)|]. destruct i as [|[|[|i]]]; simpl; repeat constructor; unfold int64; lia. }
  rewrite !Hruns. simpl. unfold window_open, recorded, nowInWindow. cbn [sw_enabled sw_days sw_start sw_end mw_enabled mw_days mw_start_time mw_end_time].
  assert (Hin : ∀ l, includes today l = existsb (Z.eqb today) l).
  { intros l. unfold includes. apply eq_true_iff_eq. rewrite bool_decide_eq_true, existsb_exists. setoid_rewrite Z.eqb_eq. split; [intros H; exists today; by rewrite <- list_elem_of_In|]. intros (x & Hx & ->). by apply list_elem_of_In. }
  rewrite !Hin. assert (today = 0 ∨ today = 1 ∨ today = 2 ∨ today = 3 ∨ today = 4 ∨ today = 5 ∨ today = 6) as Ht by lia. subst weekday.
  destruct Ht as [->|[->|[->|[->|[->|[->| ->]]]]]]; simpl;
    change (scan_int "00") with 0; change (scan_int "07") with 7; change (scan_int "19") with 19; change (scan_int "23") with 23; change (scan_int "59") with 59;
    repeat split; lia.
Qed.

Lemma preset_coverage_witness : recorder_may_run (schedule_text (λ _, EmptyString) (edit_windows RECORDING_PRESETS (EdPreset 0 (λ _, "a")) [])) 3 1439 = false.
Proof. destruct (preset_coverage (λ _, EmptyString) (λ _, "a") 3 1439) as [H _]; [lia|lia|]. exact H. Defined.

(** *** The recording policy *)

Definition allowed (role : string) : Prop := role = "admin" ∨ role = "soc_supervisor".
Lemma allowed_role role : allowed role → requireAdminOrSupervisor role = true.
Proof. by intros [->| ->]. Qed.

Lemma decode_policy_body ft p l d a b :
  rp_retention_days p = inject_Z d → rp_pre_buffer_sec p = inject_Z a → rp_post_buffer_sec p = inject_Z b → int64 d → int64 a → int64 b →
  decode_policy (policy_body ft p l) = Some (mkPolicyInput d (rp_recording_mode p) a b (rp_recording_triggers p) (schedule_text ft l)).
Proof.
  intros Hd Ha Hb Id Ia Ib. set (t := schedule_text ft l).
  assert (E1 : jget "retention_days" (policy_body ft p l) = Some (jnum d)) by (unfold jnum; rewrite <- Hd; reflexivity).
  assert (E2 : jget "pre_buffer_sec" (policy_body ft p l) = Some (jnum a)) by (unfold jnum; rewrite <- Ha; reflexivity).
  assert (E3 : jget "post_buffer_sec" (policy_body ft p l) = Some (jnum b)) by (unfold jnum; rewrite <- Hb; reflexivity).
  unfold decode_policy. rewrite E1, E2, E3, !go_int_jnum by done. reflexivity.
Qed.

(** A policy the server takes: a tier, a mode, and buffers that are integers. *)
Definition policy_ok (p : RecordingPolicy) (d a b : Z) : Prop :=
  rp_retention_days p = inject_Z d ∧ d ∈ RetentionTiers ∧ rp_recording_mode p ∈ ["continuous"; "event"] ∧
  rp_pre_buffer_sec p = inject_Z a ∧ rp_post_buffer_sec p = inject_Z b ∧ int64 a ∧ int64 b.

Lemma tier_int64 d : d ∈ RetentionTiers → int64 d.
Proof. intros H. unfold int64. repeat (apply elem_of_cons in H as [->|H]; [lia|]). by apply elem_of_nil in H. Qed.

Definition stored_policy ft (p : RecordingPolicy) (l : list MonitoringWindow) (d a b : Z) : PolicyInput :=
  mkPolicyInput d (rp_recording_mode p) (Z.max 0 a) (Z.max 0 b) (if truthy_str (rp_recording_triggers p) then rp_recording_triggers p else "motion,object") (schedule_text ft l).

Lemma policy_accepted ft p l d a b role id rows : policy_ok p d a b → allowed role →
  HandleUpdateSiteRecording (Some role) id (policy_body ft p l) rows = (200, EmptyString, map_where (is_row id) (set_policy (stored_policy ft p l d a b)) rows).
Proof.
  intros (Hd & Ht & Hm & Ha & Hb & Ia & Ib) Hr. unfold HandleUpdateSiteRecording. rewrite (allowed_role role Hr). simpl negb. cbn iota.
  rewrite (decode_policy_body ft p l d a b) by (done || by apply tier_int64). cbn [pi_retention_days pi_recording_mode pi_pre_buffer_sec pi_post_buffer_sec pi_recording_triggers pi_recording_schedule].
  unfold ValidateRetentionTier, includes. rewrite bool_decide_eq_true_2 by done. simpl negb. cbn iota.
  unfold UpdateSiteRecording, stored_policy. cbn [pi_retention_days pi_recording_mode pi_pre_buffer_sec pi_post_buffer_sec pi_recording_triggers pi_recording_schedule].
  apply elem_of_cons in Hm as [->|Hm]; [reflexivity|]. apply list_elem_of_singleton in Hm as ->. reflexivity.
Qed.

(** A policy with a retention tier and whole buffers is stored by an administrator's or a
    supervisor's save, and the panel that opens next shows it with its windows, except that
    negative buffers became 0 and, when no trigger was left, motion and object are back. *)
Theorem policy_saved_exact ft random p l d a b role id rows r s :
  policy_ok p d a b → allowed role → Forall (λ w, truthy_str (mw_id w) = true) l →
  let res := HandleUpdateSiteRecording (Some role) id (policy_body ft p l) rows in
  res.1.1 = 200 ∧
  (r ∈ res.2 → db_id r = id →
   recording_resume random PtLoad (PrSite (site_json r)) s =
     mkRecordingPanel
       (mkPolicy (rp_retention_days p) (rp_recording_mode p) (inject_Z (Z.max 0 a)) (inject_Z (Z.max 0 b))
          (if truthy_str (rp_recording_triggers p) then rp_recording_triggers p else "motion,object") (schedule_text ft l))
       l false (rc_saving s) (rc_status s) (rc_tasks s)).
Proof.
  intros Hp Hr Hl res. subst res. rewrite (policy_accepted ft p l d a b) by done. split; [done|]. cbn [snd]. intros Hin Hid.
  apply list_elem_of_fmap in Hin as (r0 & -> & _). unfold is_row in *. destruct (String.eqb_spec (db_id r0) id) as [E|E]; [|by destruct E].
  unfold recording_resume. pose proof (site_json_policy (set_policy (stored_policy ft p l d a b) r0)) as (P1 & P2 & P3 & P4 & P5 & P6).
  unfold policy_of. rewrite P1, P2, P3, P4, P5, P6. cbn [set_policy stored_policy db_retention_days db_recording_mode db_pre_buffer_sec db_post_buffer_sec db_recording_triggers db_recording_schedule
    default pi_retention_days pi_recording_mode pi_pre_buffer_sec pi_post_buffer_sec pi_recording_triggers pi_recording_schedule number_or_default text_or_default jnum mbind option_bind rp_recording_schedule Datatypes.id].
  rewrite schedule_read_back by done. destruct Hp as (-> & _). reflexivity.
Qed.

Definition nights : MonitoringWindow := mkWindow "w-1" "Nights" [5] "22:00" "06:00" true.
Definition site_row : StoredSite :=
  mkStoredSite "S1" "Yard" "Dock 1" "o1" None None "active" "18:00" "06:00" None (Some "security_only") (Some 30) (Some "event") None None None None None None "t" false.

Lemma policy_saved_exact_witness :
  let p := mkPolicy 7 "event" 5 (-2) EmptyString EmptyString in
  (HandleUpdateSiteRecording (Some "admin") "S1" (policy_body (λ _, EmptyString) p [nights]) [site_row]).1.1 = 200.
Proof.
  intros p. apply (policy_saved_exact (λ _, EmptyString) (λ _, "a") p [nights] 7 5 (-2) "admin" "S1" [site_row] site_row mount_recording.1).
  - repeat split; try reflexivity; try (unfold int64; lia); [right; left|right; left].
  - by left.
  - by constructor; [|constructor].
Defined.

(** When the site cannot be loaded the panel offers its defaults all the same, and saving
    them replaces the stored policy: three days of retention, continuous, no schedule. *)
Theorem failed_load_overwrites ft random role id rows reply :
  (∀ body, reply ≠ PrSite body) → allowed role →
  let s := (recording_step ft random (RcSettles 0 reply) mount_recording.1).1 in
  rc_loading s = false ∧ rc_status s = Some "Failed to load current policy" ∧
  ∃ body, (recording_step ft random RcSave s).2 = [PatchRecording body] ∧
    HandleUpdateSiteRecording (Some role) id body rows =
      (200, EmptyString, map_where (is_row id) (set_policy (mkPolicyInput 3 "continuous" 10 30 "motion,object" EmptyString)) rows).
Proof.
  intros Hr Ha s. assert (Es : s = mkRecordingPanel DEFAULT_POLICY [] false false (Some "Failed to load current policy") []).
  { subst s. destruct reply; try reflexivity. by destruct (Hr body). }
  rewrite Es. split; [done|]. split; [done|]. eexists. split; [reflexivity|].
  apply (policy_accepted ft DEFAULT_POLICY [] 3 10 30); [|done]. repeat split; try reflexivity; try (unfold int64; lia); left.
Qed.

Lemma failed_load_overwrites_witness :
  ∃ body rows, HandleUpdateSiteRecording (Some "admin") "S1" body [site_row] = (200, EmptyString, rows) ∧ (db_retention_days <$> rows) = [Some 3].
Proof.
  destruct (failed_load_overwrites (λ _, EmptyString) (λ _, "a") "admin" "S1" [site_row] (PrThrew "offline")) as (_ & _ & body & _ & H); [done|by left|].
  exists body. eexists. split; [exact H|]. reflexivity.
Defined.

(** *** The monitoring schedule *)

Definition edits_of (es : list ScheduleEvent) : list WindowEdit := omap (λ e, match e with SmEdit w => Some w | _ => None end) es.
Definition edited_windows (es : list ScheduleEvent) : list MonitoringWindow := foldl (λ l w, edit_windows PRESETS w l) [] (edits_of es).

Lemma schedule_run_snoc random es e s :
  schedule_run random (es ++ [e])%list s =
    ((schedule_step random e (schedule_run random es s).1).1, ((schedule_run random es s).2 ++ (schedule_step random e (schedule_run random es s).1).2)%list).
Proof. unfold schedule_run. by rewrite foldl_app. Qed.

Lemma edited_snoc es e : edited_windows (es ++ [e])%list = match e with SmEdit w => edit_windows PRESETS w (edited_windows es) | _ => edited_windows es end.
Proof. unfold edited_windows, edits_of. rewrite omap_app. destruct e; simpl; rewrite ?app_nil_r; [done| |done|done]. by rewrite foldl_app. Qed.

(** The schedule that is stored is never shown.  The dialog starts with no window whatever
    the site's schedule, because the server's answer does not carry it; what it shows are the
    edits made since it was opened, and that is what each save puts in place of the stored
    schedule. *)
Theorem stored_schedule_never_shown random es role id rows :
  (∀ body, SmSite body ∈ es → ∃ r, body = site_json r) → allowed role →
  let q := schedule_run random es mount_schedule in
  sm_windows q.1 = edited_windows es ∧
  ∀ body, PutSchedule body ∈ q.2 → ∃ es', es' `prefix_of` es ∧
    HandleUpdateSiteMonitoringSchedule role id body rows = (200, map_where (is_row id) (set_monitoring (JArr (window_json <$> edited_windows es'))) rows).
Proof.
  intros Hs Hr q. subst q.
  assert (Hput : ∀ l, HandleUpdateSiteMonitoringSchedule role id (JObj [("monitoring_schedule", JArr (window_json <$> l))]) rows = (200, map_where (is_row id) (set_monitoring (JArr (window_json <$> l))) rows)).
  { intros l. unfold HandleUpdateSiteMonitoringSchedule. rewrite (allowed_role role Hr). simpl. assert (E : forallb (λ j, match j with JObj _ | JNull => true | _ => false end) (window_json <$> l) = true).
    { clear. induction l; [done|]. simpl. done. } by rewrite E. }
  induction es as [|e es IH] using rev_ind; [split; [done|]; by intros body ?%elem_of_nil|].
  destruct IH as [IHw IHc]; [intros body Hb; apply Hs; apply elem_of_app; by left|].
  rewrite schedule_run_snoc. set (s := (schedule_run random es mount_schedule).1) in *. cbn [fst snd].
  assert (Hold : ∀ body, PutSchedule body ∈ (schedule_run random es mount_schedule).2 → ∃ es', es' `prefix_of` (es ++ [e])%list ∧
    HandleUpdateSiteMonitoringSchedule role id body rows = (200, map_where (is_row id) (set_monitoring (JArr (window_json <$> edited_windows es'))) rows)).
  { intros body Hb. destruct (IHc body Hb) as (es' & Hp & E). exists es'. split; [by apply prefix_app_r|done]. }
  rewrite edited_snoc. destruct e as [body|w| |ok].
  - destruct (Hs body) as [r ->]; [apply elem_of_app; right; left|]. destruct (site_json_fields r) as (_ & _ & _ & H & _).
    cbn [schedule_step]. rewrite H. split; [exact IHw|]. cbn [snd]. rewrite app_nil_r. exact Hold.
  - cbn [schedule_step fst snd sm_windows]. rewrite IHw, app_nil_r. by split.
  - cbn [schedule_step]. destruct (sm_dirty s && negb (sm_pending s)); cbn [fst snd sm_windows]; [|rewrite app_nil_r; by split]. split; [exact IHw|].
    intros body [Hb|Hb]%elem_of_app; [by apply Hold|]. apply list_elem_of_singleton in Hb. injection Hb as ->. exists es. split; [by apply prefix_app_r|]. rewrite IHw. apply Hput.
  - cbn [schedule_step]. destruct (sm_pending s); [destruct ok|]; cbn [fst snd sm_windows]; (split; [exact IHw|]); rewrite ?app_nil_r; try exact Hold.
    intros body [Hb|Hb]%elem_of_app; [by apply Hold|]. by apply list_elem_of_singleton in Hb.
Qed.

Lemma stored_schedule_never_shown_witness :
  let es := [SmSite (site_json (set_monitoring (JArr [window_json nights]) site_row)); SmEdit (EdPreset 1 (λ _, "a")); SmSave] in
  sm_windows (schedule_run (λ _, "b") es mount_schedule).1 = [mkWindow "w-a" "24/7" [0; 1; 2; 3; 4; 5; 6] "00:00" "23:59" true].
Proof.
  intros es. destruct (stored_schedule_never_shown (λ _, "b") es "admin" "S1" [site_row]) as [H _]; [|by left|].
  - intros body Hb. apply elem_of_cons in Hb as [[= ->]|Hb]; [by eexists|]. apply elem_of_cons in Hb as [|Hb]; [done|]. by apply list_elem_of_singleton in Hb.
  - exact H.
Defined.

(** *** Archiving and deleting *)

Definition ARCHIVE_BODY : json := JObj [("status", JStr "archived")].

(** The dialog reports an archived site after any answer, although the request archives
    none: the server reads no status from it.  Without an organization with an empty id it is
    refused, as it is for everyone but administrators and supervisors. *)
Theorem archive_reported_never_done s orgs role id rows :
  dz_archiving s = false → dz_archived s = false →
  let q := danger_step DzArchive s in
  q.2 = [PutSite ARCHIVE_BODY] ∧
  let r := HandleUpdateSite orgs role id ARCHIVE_BODY rows in
  (db_status <$> r.2) = (db_status <$> rows) ∧
  (EmptyString ∉ orgs → existsb (is_row id) rows = true → (r.1 = 403 ∨ r.1 = 500) ∧ r.2 = rows) ∧
  let s' := (danger_step (DzSettles (length (dz_tasks s)) (Answered r.1)) q.1).1 in
  dz_archived s' = true ∧ dz_error s' = EmptyString ∧ (danger_step DzTimer s').2 = [OnArchived].
Proof.
  intros H1 H2 q. assert (Eq : q = (mkDangerZone true (dz_archived s) (dz_confirm s) (dz_deleting s) EmptyString (dz_timers s) (dz_tasks s ++ [DtArchive])%list, [PutSite ARCHIVE_BODY])).
  { subst q. cbn [danger_step]. by rewrite H1, H2. }
  clearbody q. subst q. split; [done|]. cbv zeta. split; [|split].
  - destruct (bare_update orgs role id ARCHIVE_BODY rows eq_refl) as [[-> _]|[[-> _]|[-> _]]]; [done|done|]. by apply map_where_keeps.
  - intros Ho Hx. destruct (bare_update orgs role id ARCHIVE_BODY rows eq_refl) as [[-> _]|[[-> _]|[-> [_ [?|?]]]]]; [split; [by left|done]|split; [by right|done]|done|congruence].
  - cbn [danger_step fst dz_tasks]. rewrite lookup_app_r, Nat.sub_diag by done. repeat split.
Qed.

Lemma archive_reported_never_done_witness :
  dz_archived (danger_step (DzSettles 0 (Answered 403)) (danger_step DzArchive mount_danger).1).1 = true ∧ HandleUpdateSite ["o1"] "customer" "S1" ARCHIVE_BODY [site_row] = (403, [site_row]).
Proof. destruct (archive_reported_never_done mount_danger ["o1"] "customer" "S1" [site_row] eq_refl eq_refl) as (_ & _ & _ & H & _). split; [exact H|reflexivity]. Defined.

(** A site is deleted only after the word was typed; the dialog then reports the deletion
    after any answer, also when the server refused it.  What the server does is to mark the
    row, which keeps everything the dialog says is destroyed. *)
Theorem deletion_reported_anyway s role id rows :
  dz_deleting s = false →
  (dz_confirm s ≠ "delete" → danger_step DzDelete s = (s, [])) ∧
  (dz_confirm s = "delete" →
   let q := danger_step DzDelete s in let r := HandleDeleteSite role id rows in
   q.2 = [DeleteSiteCall] ∧ (danger_step (DzSettles (length (dz_tasks s)) (Answered r.1)) q.1).2 = [OnDeleted] ∧
   (requireAdminOrSupervisor role = false → r = (403, rows)) ∧
   (∀ f : StoredSite → StoredSite, (∀ x, f (mark_deleted x) = f x) → (f <$> r.2) = (f <$> rows)) ∧
   (requireAdminOrSupervisor role = true → find_site id r.2 = None)).
Proof.
  intros Hd. split.
  - intros Hc. cbn [danger_step]. apply String.eqb_neq in Hc. by rewrite Hc.
  - intros Hc q r. assert (Eq : q = (mkDangerZone (dz_archiving s) (dz_archived s) (dz_confirm s) true EmptyString (dz_timers s) (dz_tasks s ++ [DtDelete])%list, [DeleteSiteCall])).
    { subst q. cbn [danger_step]. by rewrite Hc, Hd. }
    clearbody q. subst q r. split; [done|]. split; [cbn [danger_step fst dz_tasks]; by rewrite lookup_app_r, Nat.sub_diag|].
    unfold HandleDeleteSite. split; [by intros ->|]. split; [intros f Hf; destruct (requireAdminOrSupervisor role); [by apply map_where_keeps|done]|].
    intros ->. simpl. unfold find_site. apply find_where_None. intros x (y & -> & _)%list_elem_of_fmap. unfold is_row. destruct (String.eqb_spec (db_id y) id) as [E|E]; simpl; [by rewrite andb_false_r|].
    apply String.eqb_neq in E. by rewrite E.
Qed.

Lemma deletion_reported_anyway_witness :
  let s := (danger_step (DzType "DELETE") mount_danger).1 in (danger_step (DzSettles 0 (Answered 403)) (danger_step DzDelete s).1).2 = [OnDeleted].
Proof.
  intros s. destruct (deletion_reported_anyway s "customer" "S1" [site_row] eq_refl) as [_ H]. destruct (H eq_refl) as (_ & H1 & _). exact H1.
Defined.

(** *** The details *)

Lemma jget_opt_str k key v : jget k (JObj (opt_str key v)) = if String.eqb key k then (if truthy_str v then Some (JStr v) else None) else None.
Proof. unfold opt_str. destruct (truthy_str v); simpl; [|by destruct (String.eqb key k)]. rewrite find_where_cons. simpl. by destruct (String.eqb key k). Qed.

Lemma jget_opt k key o : jget k (JObj (opt_prop key o)) = if String.eqb key k then o else None.
Proof. destruct o; simpl; [rewrite find_where_cons; simpl|]; by destruct (String.eqb key k). Qed.

Definition details_of (f : SiteForm) : SiteCreate :=
  mkSiteCreate (trim (fm_name f)) (fullAddress f) (fm_company f) (fm_latitude f) (fm_longitude f) (fm_feature_mode f).

Lemma decode_payload f : decode_site (site_payload f) = Some (details_of f).
Proof.
  unfold decode_site, site_payload. rewrite !jget_obj_app, !jget_opt, !jget_opt_str.
  destruct (truthy_str (fm_contact_name f) || truthy_str (fm_contact_phone f) || truthy_str (fm_contact_email f)), (fm_latitude f) eqn:E1, (fm_longitude f) eqn:E2;
    unfold details_of; rewrite E1, E2; reflexivity.
Qed.

Definition stored_mode (f : SiteForm) : string := if truthy_str (fm_feature_mode f) then fm_feature_mode f else "security_and_safety".
Definition nonzero (o : option Q) : option Q := match o with Some q => if Qeq_bool q 0 then None else Some q | None => None end.

Lemma reload_details f g r :
  fill_form (site_json (set_details (details_of f) (stored_mode f) r)) g =
    mkSiteForm (trim (fm_name f)) (fullAddress f) (fm_city g) (fm_state g) (fm_zip g) (fm_company f)
      (match nonzero (fm_latitude f) with Some q => Some q | None => fm_latitude g end) (match nonzero (fm_longitude f) with Some q => Some q | None => fm_longitude g end)
      (stored_mode f) (fm_risk_tier g) (fm_industry g) (fm_hazards g) (fm_contact_name g) (fm_contact_phone g) (fm_contact_email g)
      (fm_sla_ack g) (fm_sla_resolve g) (fm_escalation_contact g) (fm_escalation_phone g).
Proof.
  set (r' := set_details (details_of f) (stored_mode f) r).
  destruct (site_json_fields r') as (_ & _ & _ & _ & _ & _ & _ & N1 & N2 & N3 & N4 & N5 & N6). pose proof (site_json_no_profile r') as Hp. rewrite !Forall_cons in Hp. destruct Hp as (P1 & P2 & P3 & P4 & P5 & _).
  unfold fill_form. rewrite N1, N2, N3, N4, N5, N6, P1, P2, P3, P4, P5. unfold r'. cbn. unfold nonzero. destruct (fm_latitude f), (fm_longitude f); simpl; try reflexivity; repeat destruct (Qeq_bool _ _); reflexivity.
Qed.

(** Saving the details of a site stores its name, address, company, position and tier.  The
    risk profile, the site contact and the escalation policy are sent and dropped: the next
    form has the defaults for them, whatever was entered; a coordinate 0 is not shown either. *)
Theorem details_saved_exact f orgs role id rows r :
  fm_company f ∈ orgs → allowed role →
  let res := HandleUpdateSite orgs role id (site_payload f) rows in
  res.1 = 200 ∧
  (r ∈ res.2 → db_id r = id →
   fill_form (site_json r) blank_site_form =
     mkSiteForm (trim (fm_name f)) (fullAddress f) EmptyString EmptyString EmptyString (fm_company f) (nonzero (fm_latitude f)) (nonzero (fm_longitude f)) (stored_mode f)
       "medium" EmptyString EmptyString EmptyString EmptyString EmptyString "5" "30" EmptyString EmptyString).
Proof.
  intros Hc Hr res. assert (Eo : existsb (String.eqb (fm_company f)) orgs = true).
  { apply existsb_exists. exists (fm_company f). split; [by apply list_elem_of_In|apply String.eqb_refl]. }
  assert (Er : res = (200, map_where (is_row id) (set_details (details_of f) (stored_mode f)) rows)).
  { subst res. unfold HandleUpdateSite. rewrite (allowed_role role Hr), decode_payload. simpl negb. cbn iota. unfold UpdateSite. cbn [details_of sq_company_id sq_feature_mode]. rewrite Eo. simpl. by rewrite andb_false_r. }
  rewrite Er. split; [done|]. cbn [snd]. intros (r0 & -> & _)%list_elem_of_fmap Hid. unfold is_row in *.
  destruct (String.eqb_spec (db_id r0) id) as [E|E]; [|by destruct E]. rewrite reload_details. unfold blank_site_form. cbn [fm_city fm_state fm_zip fm_latitude fm_longitude].
  destruct (nonzero (fm_latitude f)), (nonzero (fm_longitude f)); reflexivity.
Qed.

Lemma details_saved_exact_witness :
  let f := mkSiteForm "Yard" "Dock 1" "Houston" "TX" EmptyString "o1" (Some 29%Q) None "security_only" "critical" "energy" "H2S" "Ann" "555" EmptyString "2" "10" EmptyString EmptyString in
  (HandleUpdateSite ["o1"] "admin" "S1" (site_payload f) [site_row]).1 = 200.
Proof. intros f. apply (details_saved_exact f ["o1"] "admin" "S1" [site_row] site_row); [left|by left]. Defined.

(** The parts of the address behind the street, as they are appended. *)
Definition address_tail (f : SiteForm) : string := foldr (λ x t, ", " +:+ x +:+ t) EmptyString (filter_where truthy_str [fm_city f; fm_state f; fm_zip f]).

Lemma join_tail x l : join_with ", " (x :: l) = x +:+ foldr (λ y t, ", " +:+ y +:+ t) EmptyString l.
Proof.
  revert x. induction l as [|y l IH]; intros x.
  - simpl. clear. induction x as [|c x IH]; [done|]. rewrite sapp_cons. by f_equal.
  - change (join_with ", " (x :: y :: l)) with (x +:+ ", " +:+ join_with ", " (y :: l)). by rewrite IH.
Qed.

Lemma fullAddress_tail f : truthy_str (fm_street f) = true → fullAddress f = fm_street f +:+ address_tail f.
Proof. intros H. unfold fullAddress. rewrite filter_where_cons, H. apply join_tail. Qed.

(** What the form shows after a save that the open dialog waits for: the site query is
    refetched and fills the form again. *)
Definition saved_and_refilled (r : StoredSite) (f : SiteForm) : SiteForm := fill_form (site_json (set_details (details_of f) (stored_mode f) r)) f.

(** While the dialog stays open, every save appends city, state and zip code to the
    address once more: they move into the street and stay in their own fields. *)
Theorem address_grows r f n :
  truthy_str (fm_street f) = true →
  let g := Nat.iter n (saved_and_refilled r) f in
  fm_street g = fm_street f +:+ Nat.iter n (λ t, address_tail f +:+ t) EmptyString ∧
  fm_city g = fm_city f ∧ fm_state g = fm_state f ∧ fm_zip g = fm_zip f ∧
  decode_site (site_payload g) ≫= (λ c, Some (sq_address c)) = Some (fm_street f +:+ Nat.iter (S n) (λ t, address_tail f +:+ t) EmptyString).
Proof.
  intros Hs g.
  assert (Hcomm : ∀ k t, Nat.iter k (λ t, address_tail f +:+ t) EmptyString +:+ t = Nat.iter k (λ t, address_tail f +:+ t) t).
  { intros k t. induction k as [|k IH]; [done|]. simpl. by rewrite <- sapp_assoc, IH. }
  assert (Hswap : ∀ k, Nat.iter k (λ t, address_tail f +:+ t) (address_tail f +:+ EmptyString) = address_tail f +:+ Nat.iter k (λ t, address_tail f +:+ t) EmptyString).
  { intros k. induction k as [|k IH]; [done|]. simpl. by rewrite IH. }
  assert (Hnil : ∀ t, t +:+ EmptyString = t). { intros t. induction t as [|c t IH]; [done|]. rewrite sapp_cons. by f_equal. }
  assert (Hs2 : ∀ k, Nat.iter k (λ t, address_tail f +:+ t) (address_tail f) = Nat.iter (S k) (λ t, address_tail f +:+ t) EmptyString).
  { intros k. simpl. by rewrite <- Hswap, Hnil. }
  assert (Hg : fm_street g = fm_street f +:+ Nat.iter n (λ t, address_tail f +:+ t) EmptyString ∧ fm_city g = fm_city f ∧ fm_state g = fm_state f ∧ fm_zip g = fm_zip f).
  { subst g. induction n as [|n (IH & C1 & C2 & C3)]; [by rewrite Hnil|]. change (Nat.iter (S n) (saved_and_refilled r) f) with (saved_and_refilled r (Nat.iter n (saved_and_refilled r) f)). set (h := Nat.iter n (saved_and_refilled r) f) in *.
    unfold saved_and_refilled. rewrite reload_details. cbn [fm_street fm_city fm_state fm_zip]. split; [|done].
    assert (Hh : truthy_str (fm_street h) = true). { rewrite IH. destruct (fm_street f); [done|reflexivity]. }
    rewrite (fullAddress_tail h Hh), IH. assert (Et : address_tail h = address_tail f) by (unfold address_tail; by rewrite C1, C2, C3). by rewrite Et, <- sapp_assoc, Hcomm, Hs2. }
  destruct Hg as (G1 & G2 & G3 & G4). split_and!; try done. rewrite decode_payload. simpl. f_equal.
  assert (Hh : truthy_str (fm_street g) = true). { rewrite G1. destruct (fm_street f); [done|reflexivity]. }
  rewrite (fullAddress_tail g Hh), G1. assert (Et : address_tail g = address_tail f) by (unfold address_tail; by rewrite G2, G3, G4). by rewrite Et, <- sapp_assoc, Hcomm, Hs2.
Qed.

Lemma address_grows_witness :
  let f := mkSiteForm "Yard" "Dock 1" "Houston" "TX" EmptyString "o1" None None "security_only" "medium" EmptyString EmptyString EmptyString EmptyString EmptyString "5" "30" EmptyString EmptyString in
  fm_street (Nat.iter 2 (saved_and_refilled site_row) f) = "Dock 1, Houston, TX, Houston, TX".
Proof. intros f. destruct (address_grows site_row f 2 eq_refl) as [H _]. rewrite H. reflexivity. Defined.
