(* ===== verification/SiteAccess.v ===== *)
(** * Devices and users of a site

    Who and what belongs to a site: the device lists of
    [components/admin/AssignCameraModal.tsx] with the assignments they store
    ([internal/api/platform.go], [internal/database/platform_db.go]), the users of
    [components/admin/CustomerAccessModal.tsx], and what the stored assignment of a user
    opens on the server ([callerScope], [HandleGetSite]). *)

From S2P Require Import Prelude Types Http AdminConsole SiteServer.
From stdpp Require Import gmap.
#[local] Open Scope string_scope.
#[local] Open Scope Z_scope.

(** ** Assignments on the server

    The tables of cameras and of speakers have the same columns and the same pair of
    functions; one model stands for both. *)

Record DeviceRow := mkDevice {
  dv_id : string;
  dv_name : string;
  dv_site : option string;
  dv_location : string
}.

(** A row of device_assignments; [da_open] is [removed_at IS NULL]. *)
Record DeviceAssignment := mkAssignment {
  da_device : string;
  da_site : string;
  da_label : string;
  da_open : bool
}.

Record Devices := mkDevices { ds_rows : list DeviceRow; ds_history : list DeviceAssignment }.

Definition device_is (id : string) (d : DeviceRow) : bool := String.eqb (dv_id d) id.
Definition open_of (id : string) (a : DeviceAssignment) : bool := String.eqb (da_device a) id && da_open a.
Definition close_assignment (a : DeviceAssignment) : DeviceAssignment := mkAssignment (da_device a) (da_site a) (da_label a) false.
Definition put_device (site : option string) (location : string) (d : DeviceRow) : DeviceRow := mkDevice (dv_id d) (dv_name d) site location.

(** [AssignCameraToSite], [AssignSpeakerToSite]: three statements outside of a transaction.  The
    second fails on the foreign key when the device exists and the site does not. *)
Definition AssignToSite (sites : list string) (id site label : string) (s : Devices) : bool * Devices :=
  let closed := map_where (open_of id) close_assignment (ds_history s) in
  if existsb (device_is id) (ds_rows s) && negb (includes site sites) then (false, mkDevices (ds_rows s) closed)
  else (true, mkDevices (map_where (device_is id) (put_device (Some site) label) (ds_rows s)) (closed ++ [mkAssignment id site label true])%list).

(** [UnassignCameraFromSite], [UnassignSpeakerFromSite]. *)
Definition UnassignFromSite (id : string) (s : Devices) : Devices :=
  mkDevices (map_where (device_is id) (put_device None EmptyString) (ds_rows s)) (map_where (open_of id) close_assignment (ds_history s)).

(** [HandleAssignCamera] with [camera_id], [HandleAssignSpeaker] with [speaker_id] as [key]; no role is asked for. *)
Definition HandleAssign (key : string) (sites : list string) (site : string) (body : json) (s : Devices) : Z * Devices :=
  match body with
  | JObj _ | JNull =>
      match go_string (jget key body), go_string (jget "location_label" body) with
      | Some id, Some label => let r := AssignToSite sites id site label s in (if r.1 then 200 else 500, r.2)
      | _, _ => (400, s)
      end
  | _ => (400, s)
  end.

(** [HandleUnassignCamera], [HandleUnassignSpeaker]: the site of the path is not read. *)
Definition HandleUnassign (site id : string) (s : Devices) : Z * Devices := (200, UnassignFromSite id s).

(** The requests that reach these handlers, and what they make of the tables. *)
Inductive AssignRequest := PostAssignment (site id label : string) | DeleteAssignment (site id : string).

Definition assignment_body (key id label : string) : json := JObj [(key, JStr id); ("location_label", JStr label)].

Definition serve_assignment (key : string) (sites : list string) (q : AssignRequest) (s : Devices) : Z * Devices :=
  match q with
  | PostAssignment site id label => HandleAssign key sites site (assignment_body key id label) s
  | DeleteAssignment site id => HandleUnassign site id s
  end.

(** ** The device lists *)

(** [c.site_id] as the client has it: null, absent and empty alike are no site. *)
Definition dv_site_text (d : DeviceRow) : string := default EmptyString (dv_site d).
Definition assignedHere (site : string) (l : list DeviceRow) : list DeviceRow := filter_where (λ d, bool_decide (dv_site d = Some site)) l.
Definition unassigned (l : list DeviceRow) : list DeviceRow := filter_where (λ d, negb (truthy_ostr (dv_site d))) l.
Definition elsewhere (site : string) (l : list DeviceRow) : list DeviceRow :=
  filter_where (λ d, truthy_ostr (dv_site d) && negb (bool_decide (dv_site d = Some site))) l.

(** The running handlers.  A move of a speaker continues with an assignment. *)
Inductive DeviceTask := DtAssign (verb : string) | DtUnassign | DtLeave (id label : string) | DtArrive.

Record DeviceSection := mkDeviceSection {
  dx_labels : gmap string string;
  dx_error : option string;
  dx_tasks : list DeviceTask
}.

Inductive DeviceEvent := DvLabel (id label : string) | DvAssign (id : string) | DvUnassign (id : string) | DvMove (d : DeviceRow)
| DvSettles (i : nat) (failure : option string).

Definition label_of (id : string) (s : DeviceSection) : string := default EmptyString (dx_labels s !! id).
Definition dx_start (t : DeviceTask) (e : option string) (s : DeviceSection) : DeviceSection := mkDeviceSection (dx_labels s) e (dx_tasks s ++ [t])%list.

(** [CameraSection]: every failure becomes the banner; a move is one assignment. *)
Definition camera_section_step (site : string) (e : DeviceEvent) (s : DeviceSection) : DeviceSection * list AssignRequest :=
  match e with
  | DvLabel id l => (mkDeviceSection (<[id := l]> (dx_labels s)) (dx_error s) (dx_tasks s), [])
  | DvAssign id => (dx_start (DtAssign "Assign") None s, [PostAssignment site id (label_of id s)])
  | DvUnassign id => (dx_start DtUnassign None s, [DeleteAssignment site id])
  | DvMove d => (dx_start (DtAssign "Move") None s, [PostAssignment site (dv_id d) (label_of (dv_id d) s)])
  | DvSettles i f =>
      match dx_tasks s !! i with
      | None => (s, [])
      | Some t =>
          let s' := mkDeviceSection (dx_labels s) (dx_error s) (delete i (dx_tasks s)) in
          match f with
          | None => (s', [])
          | Some m =>
              let verb := match t with DtAssign v => v | _ => "Unassign" end in
              (mkDeviceSection (dx_labels s') (Some (verb +:+ " failed: " +:+ (if truthy_str m then m else "unknown error"))) (dx_tasks s'), [])
          end
      end
  end.

(** [SpeakerSection]: failures are dropped; a move leaves the old site first and keeps the label of the click. *)
Definition speaker_section_step (site : string) (e : DeviceEvent) (s : DeviceSection) : DeviceSection * list AssignRequest :=
  match e with
  | DvLabel id l => (mkDeviceSection (<[id := l]> (dx_labels s)) (dx_error s) (dx_tasks s), [])
  | DvAssign id => (dx_start (DtAssign "Assign") (dx_error s) s, [PostAssignment site id (label_of id s)])
  | DvUnassign id => (dx_start DtUnassign (dx_error s) s, [DeleteAssignment site id])
  | DvMove d => (dx_start (DtLeave (dv_id d) (label_of (dv_id d) s)) (dx_error s) s, [DeleteAssignment (dv_site_text d) (dv_id d)])
  | DvSettles i f =>
      match dx_tasks s !! i with
      | None => (s, [])
      | Some t =>
          let s' := mkDeviceSection (dx_labels s) (dx_error s) (delete i (dx_tasks s)) in
          match t, f with
          | DtLeave id label, None => (dx_start DtArrive (dx_error s') s', [PostAssignment site id label])
          | _, _ => (s', [])
          end
      end
  end.

(** The lists after the loading message; a speaker of the empty list is told apart from no speaker of this site. *)
Definition camera_groups (site : string) (l : list DeviceRow) : list (list DeviceRow) := [assignedHere site l; unassigned l; elsewhere site l].

(** *** Testing a camera's stream *)

Inductive TestReply := TrAnswered (ok : bool) (status : Z) (text : string) | TrThrew (message : string).

Record StreamTests := mkStreamTests {
  stt_testing : option string;
  stt_results : gmap string (bool * string);
  stt_tasks : list string
}.

Definition test_result (status_text : Z → string) (r : TestReply) : bool * string :=
  match r with
  | TrAnswered true _ _ => (true, "Stream reachable")
  | TrAnswered false st text => (false, or_str (Some (String.substring 0 60 text)) ("HTTP " +:+ status_text st))
  | TrThrew m => (false, or_str (Some m) "Connection failed")
  end.

Inductive TestEvent := TestClick (id : string) | TestSettles (i : nat) (r : TestReply).

Definition handleTestCamera (status_text : Z → string) (e : TestEvent) (s : StreamTests) : StreamTests :=
  match e with
  | TestClick id =>
      if bool_decide (stt_testing s = Some id) then s   (* the button is disabled *)
      else mkStreamTests (Some id) (stt_results s) (stt_tasks s ++ [id])%list
  | TestSettles i r =>
      match stt_tasks s !! i with
      | Some id => mkStreamTests None (<[id := test_result status_text r]> (stt_results s)) (delete i (stt_tasks s))
      | None => s
      end
  end.

(** ** The section with its server

    What becomes of a request: it never arrives, or it is served and the answer arrives or is
    lost.  A served request changes the tables when it is answered, in any order among the
    requests that are under way. *)
Inductive Fate := Lost | Served (heard : bool).

Definition deliver_assignment (key : string) (sites : list string) (f : Fate) (q : AssignRequest) (s : Devices) : Devices * option string :=
  match f with
  | Lost => (s, Some "Failed to fetch")
  | Served heard =>
      let r := serve_assignment key sites q s in
      (r.2, if heard then if r.1 =? 200 then None else Some "API error" else Some "Failed to fetch")
  end.

Record SectionSystem := mkSectionSystem {
  ss_section : DeviceSection;
  ss_flight : list AssignRequest;   (* in the order of the section's tasks *)
  ss_devices : Devices
}.

Section system.
Context (step : DeviceEvent → DeviceSection → DeviceSection * list AssignRequest) (key : string) (sites : list string).

Inductive section_step : SectionSystem → SectionSystem → Prop :=
| section_clicks e s q d s' q' : (∀ i f, e ≠ DvSettles i f) → step e s = (s', q') →
    section_step (mkSectionSystem s q d) (mkSectionSystem s' (q ++ q')%list d)
| section_settles i f r s q d s' q' d' m : q !! i = Some r → deliver_assignment key sites f r d = (d', m) → step (DvSettles i m) s = (s', q') →
    section_step (mkSectionSystem s q d) (mkSectionSystem s' (delete i q ++ q')%list d').
End system.

(** ** The users of a site *)

Definition up_sites (u : UserPublic) : list string := up_assigned_site_ids u.
Definition relevantUsers (companyId : option string) (site : string) (l : list UserPublic) : list UserPublic :=
  filter_where (λ u, (truthy_ostr companyId && bool_decide (up_organization_id u = companyId)) || includes site (up_sites u)) l.
Definition assignedUsers (companyId : option string) (site : string) (l : list UserPublic) : list UserPublic :=
  filter_where (λ u, includes site (up_sites u)) (relevantUsers companyId site l).
Definition availableUsers (companyId : option string) (site : string) (l : list UserPublic) : list UserPublic :=
  filter_where (λ u, negb (includes site (up_sites u))) (relevantUsers companyId site l).

Definition toggled (site : string) (l : list string) : list string :=
  if includes site l then filter_where (λ x, negb (String.eqb x site)) l else (l ++ [site])%list.

Definition toggle_body (site : string) (u : UserPublic) : json :=
  JObj [("organization_id", JStr (default EmptyString (up_organization_id u))); ("assigned_site_ids", JArr (JStr <$> toggled site (up_sites u)))].

Inductive AccessTask := AtLoad | AtSave.
Inductive AccessCall := GetUsers | PatchProfile (id : string) (body : json).
Inductive AccessReply := ArUsers (l : list UserPublic) | ArUser (u : UserPublic) | ArFail (message : string).

Record AccessModal := mkAccessModal {
  am_users : list UserPublic;
  am_loading : bool;
  am_load_error : option string;
  am_save_error : option string;
  am_saving : option string;
  am_tasks : list AccessTask
}.

Definition mount_access : AccessModal * list AccessCall := (mkAccessModal [] true None None None [AtLoad], [GetUsers]).

Definition access_resume (t : AccessTask) (r : AccessReply) (s : AccessModal) : AccessModal :=
  match t, r with
  | AtLoad, ArUsers l => mkAccessModal l false (am_load_error s) (am_save_error s) (am_saving s) (am_tasks s)
  | AtLoad, ArFail m => mkAccessModal (am_users s) false (Some m) (am_save_error s) (am_saving s) (am_tasks s)
  | AtSave, ArUser u =>
      mkAccessModal (map_where (user_is (up_id u)) (λ _, u) (am_users s)) (am_loading s) (am_load_error s) (am_save_error s) None (am_tasks s)
  | AtSave, ArFail m => mkAccessModal (am_users s) (am_loading s) (am_load_error s) (Some m) None (am_tasks s)
  | _, _ => s   (* not an answer of this request *)
  end.

Definition toggleUser (site : string) (u : UserPublic) (s : AccessModal) : AccessModal * list AccessCall :=
  (mkAccessModal (am_users s) (am_loading s) (am_load_error s) None (Some (up_id u)) (am_tasks s ++ [AtSave])%list, [PatchProfile (up_id u) (toggle_body site u)]).

Inductive AccessEvent := AmToggle (id : string) | AmSettles (i : nat) (r : AccessReply).

(** A checkbox exists for the relevant users once they are loaded, and is disabled during a save. *)
Definition access_step (companyId : option string) (site : string) (e : AccessEvent) (s : AccessModal) : AccessModal * list AccessCall :=
  match e with
  | AmToggle id =>
      let shown := negb (am_loading s) && negb (truthy_ostr (am_load_error s)) && (truthy_ostr companyId || (0 <? length (assignedUsers companyId site (am_users s)))%nat) in
      match am_saving s, find_where (user_is id) (relevantUsers companyId site (am_users s)) with
      | None, Some u => if shown then toggleUser site u s else (s, [])
      | _, _ => (s, [])
      end
  | AmSettles i r =>
      match am_tasks s !! i with
      | Some t => (access_resume t r (mkAccessModal (am_users s) (am_loading s) (am_load_error s) (am_save_error s) (am_saving s) (delete i (am_tasks s))), [])
      | None => (s, [])
      end
  end.

(** ** What an assignment opens *)

(** [callerScope]: role and organization from the session, the assigned sites from the users table. *)
Definition callerScope (c : Claims) (org : string) (db : gmap string Account) : CallerScope :=
  if includes (cl_role c) ["admin"; "soc_supervisor"; "soc_operator"] then Unscoped
  else Scoped org (match db !! cl_UserID c with Some a => ac_assigned_site_ids a | None => [] end).

(** ** Theorems *)

(** *** Tables *)

Definition device_position (id : string) (s : Devices) : option (option string * string) :=
  (λ d, (dv_site d, dv_location d)) <$> find_where (device_is id) (ds_rows s).

Lemma position_put id id' site l s h :
  device_position id (mkDevices (map_where (device_is id') (put_device site l) (ds_rows s)) h) = if String.eqb id id' then (λ _, (site, l)) <$> device_position id s else device_position id s.
Proof.
  unfold device_position. cbn [ds_rows]. generalize (ds_rows s). intros rows. induction rows as [|d rows IH]; [by destruct (String.eqb id id')|].
  change (map_where ?p ?f (d :: rows)) with ((if p d then f d else d) :: map_where p f rows). rewrite !find_where_cons.
  assert (Hd : device_is id (if device_is id' d then put_device site l d else d) = device_is id d) by (by destruct (device_is id' d)).
  rewrite Hd. destruct (device_is id d) eqn:E; [|done]. apply String.eqb_eq in E as <-. unfold device_is. destruct (String.eqb (dv_id d) id'); done.
Qed.

Lemma open_close id id' l :
  filter_where (open_of id) (map_where (open_of id') close_assignment l) = if String.eqb id id' then [] else filter_where (open_of id) l.
Proof.
  induction l as [|a l IH]; [by destruct (String.eqb id id')|].
  change (map_where ?p ?f (a :: l)) with ((if p a then f a else a) :: map_where p f l). rewrite !filter_where_cons, IH.
  assert (Ha : open_of id (if open_of id' a then close_assignment a else a) = if String.eqb id id' then false else open_of id a).
  { unfold open_of. destruct (String.eqb_spec id id') as [<-|Hne].
    - destruct (String.eqb (da_device a) id) eqn:E, (da_open a) eqn:E'; simpl; by rewrite ?E, ?E', ?andb_false_r.
    - destruct (String.eqb_spec (da_device a) id') as [E|E], (da_open a) eqn:E'; simpl; rewrite ?E', ?andb_false_r, ?andb_true_r; try done.
      symmetry. apply String.eqb_neq. congruence. }
  rewrite Ha. destruct (String.eqb_spec id id') as [|Hne]; [done|]. destruct (open_of id a) eqn:E; [|done]. f_equal.
  destruct (open_of id' a) eqn:E'; [|done]. unfold open_of in E, E'. apply andb_true_iff in E as [E%String.eqb_eq _]. apply andb_true_iff in E' as [E'%String.eqb_eq _]. congruence.
Qed.

(** What the open records say about the rows. *)
Record history_ok (s : Devices) : Prop := mkHistoryOk {
  one_open : ∀ id, (length (filter_where (open_of id) (ds_history s)) ≤ 1)%nat;
  open_true : ∀ id a p, a ∈ filter_where (open_of id) (ds_history s) → device_position id s = Some p → p = (Some (da_site a), da_label a)
}.

(** Every device at a site has an open record. *)
Definition history_full (s : Devices) : Prop :=
  ∀ id x l, device_position id s = Some (Some x, l) → filter_where (open_of id) (ds_history s) ≠ [].

Definition names_site (sites : list string) (q : AssignRequest) : Prop := match q with PostAssignment site _ _ => site ∈ sites | _ => True end.

Lemma serve_assignment_spec key sites q s : key ≠ "location_label" →
  serve_assignment key sites q s =
  match q with
  | PostAssignment site id label => let r := AssignToSite sites id site label s in (if r.1 then 200 else 500, r.2)
  | DeleteAssignment _ id => (200, UnassignFromSite id s)
  end.
Proof.
  intros Hk. destruct q as [site id label|site id]; [|done]. unfold serve_assignment, HandleAssign, assignment_body.
  assert (E1 : jget key (JObj [(key, JStr id); ("location_label", JStr label)]) = Some (JStr id)).
  { unfold jget. rewrite find_where_cons. cbn [fst]. by rewrite String.eqb_refl. }
  assert (E2 : jget "location_label" (JObj [(key, JStr id); ("location_label", JStr label)]) = Some (JStr label)).
  { unfold jget. rewrite find_where_cons. cbn [fst]. apply String.eqb_neq in Hk. by rewrite Hk. }
  by rewrite E1, E2.
Qed.

Lemma open_after_assign id id' site label l :
  filter_where (open_of id) (map_where (open_of id') close_assignment l ++ [mkAssignment id' site label true])%list =
  if String.eqb id id' then [mkAssignment id' site label true] else filter_where (open_of id) l.
Proof.
  unfold filter_where at 1. rewrite filter_app. change (filter (λ x, Is_true (open_of id x)) ?l) with (filter_where (open_of id) l).
  rewrite open_close, filter_where_cons. unfold open_of at 2. simpl. rewrite andb_true_r, (String.eqb_sym id' id).
  destruct (String.eqb id id'); [done|]. apply app_nil_r.
Qed.

Lemma position_device id s p : device_position id s = Some p → existsb (device_is id) (ds_rows s) = true.
Proof.
  unfold device_position. intros H. apply fmap_Some in H as (d & Hd & _). apply find_where_Some in Hd as [H1 H2].
  apply existsb_exists. exists d. by rewrite <- list_elem_of_In.
Qed.

Section requests.
Context (key : string) (sites : list string) (Hkey : key ≠ "location_label").

Lemma serve_history_ok q s : history_ok s → history_ok (serve_assignment key sites q s).2.
Proof.
  intros [H1 H2]. rewrite serve_assignment_spec by done. destruct q as [site id label|site id]; cbn zeta; cbn [snd].
  - unfold AssignToSite. destruct (existsb _ _ && negb _) eqn:E; cbn [snd]; (split; [intros i|intros i a p Ha Hp]); cbn [ds_history] in *.
    + rewrite open_close. destruct (String.eqb i id); [simpl; lia|apply H1].
    + rewrite open_close in Ha. destruct (String.eqb i id); [by apply not_elem_of_nil in Ha|]. by apply (H2 i).
    + rewrite open_after_assign. destruct (String.eqb i id); [simpl; lia|apply H1].
    + rewrite open_after_assign in Ha. rewrite position_put in Hp. destruct (String.eqb_spec i id) as [->|Hne].
      * apply list_elem_of_singleton in Ha as ->. apply fmap_Some in Hp as (? & _ & ->). done.
      * apply (H2 i); [done|]. exact Hp.
  - unfold UnassignFromSite. split; [intros i|intros i a p Ha Hp]; cbn [ds_history] in *.
    + rewrite open_close. destruct (String.eqb i id); [simpl; lia|apply H1].
    + rewrite open_close in Ha. rewrite position_put in Hp.
      destruct (String.eqb_spec i id) as [->|Hne]; [by apply not_elem_of_nil in Ha|]. by apply (H2 i).
Qed.

Lemma serve_history_full q s : names_site sites q → history_full s → history_full (serve_assignment key sites q s).2.
Proof.
  intros Hq H. rewrite serve_assignment_spec by done. destruct q as [site id label|site id]; cbn zeta; cbn [snd]; intros i x l Hp.
  - simpl in Hq. unfold AssignToSite in *. assert (Hs : includes site sites = true) by (by apply bool_decide_eq_true).
    rewrite Hs, andb_false_r in *. cbn [snd ds_history] in *. rewrite open_after_assign. rewrite position_put in Hp.
    destruct (String.eqb i id); [done|]. by apply (H i x l).
  - cbn [UnassignFromSite ds_history] in *. rewrite open_close. unfold UnassignFromSite in Hp. rewrite position_put in Hp.
    destruct (String.eqb i id); [|by apply (H i x l)]. apply fmap_Some in Hp as (? & _ & [=]).
Qed.

Definition served_all (qs : list AssignRequest) (s : Devices) : Devices := foldl (λ s q, (serve_assignment key sites q s).2) s qs.
End requests.

(** The assignment history under any requests of anyone: a device has at most one open
    record, and an open record names the site and the label of the device's row.  As long
    as every assignment names an existing site, every device at a site has one.  An assignment
    to a site that does not exist is refused and leaves the device where it is, but
    its record is closed all the same: from then on the history has the device nowhere. *)
Theorem device_history_exact (key : string) (sites : list string) (qs : list AssignRequest) (s : Devices) :
  key ≠ "location_label" → history_ok s →
  history_ok (served_all key sites qs s) ∧
  (history_full s → Forall (names_site sites) qs → history_full (served_all key sites qs s)) ∧
  (∀ site id label p, site ∉ sites → device_position id (served_all key sites qs s) = Some p →
     let r := serve_assignment key sites (PostAssignment site id label) (served_all key sites qs s) in
     r.1 = 500 ∧ device_position id r.2 = Some p ∧ filter_where (open_of id) (ds_history r.2) = []).
Proof.
  intros Hk Hok. split; [|split].
  - unfold served_all. revert s Hok. induction qs as [|q qs IH]; intros s Hok; [done|]. simpl. by apply IH, serve_history_ok.
  - unfold served_all. clear Hok. revert s. induction qs as [|q qs IH]; intros s Hf Hq; [done|]. apply Forall_cons in Hq as [Hq Hqs]. simpl. apply IH; [|done]. by apply serve_history_full.
  - intros site id label p Hs Hp. cbv zeta. rewrite serve_assignment_spec by done. cbv zeta. unfold AssignToSite. rewrite (position_device _ _ _ Hp).
    assert (Hi : includes site sites = false) by (by apply bool_decide_eq_false). rewrite Hi. cbn [negb andb fst snd ds_history].
    split; [done|]. split; [exact Hp|]. rewrite open_close. by rewrite String.eqb_refl.
Qed.

Lemma device_history_exact_witness :
  let s := mkDevices [mkDevice "c1" "Gate" None EmptyString] [] in
  let s1 := served_all "camera_id" ["S1"] [PostAssignment "S1" "c1" "North gate"] s in
  device_position "c1" s1 = Some (Some "S1", "North gate") ∧ filter_where (open_of "c1") (ds_history s1) = [mkAssignment "c1" "S1" "North gate" true] ∧
  filter_where (open_of "c1") (ds_history (serve_assignment "camera_id" ["S1"] (PostAssignment "S9" "c1" "Yard") s1).2) = [].
Proof.
  intros s s1. split; [reflexivity|]. split; [reflexivity|].
  assert (Hok : history_ok s) by (split; [intros id; simpl; lia|intros id a p Ha; by apply not_elem_of_nil in Ha]).
  destruct (device_history_exact "camera_id" ["S1"] [PostAssignment "S1" "c1" "North gate"] s) as (_ & _ & H); [done|exact Hok|].
  apply (H "S9" "c1" "Yard" (Some "S1", "North gate")); [|reflexivity]. rewrite list_elem_of_singleton. discriminate.
Defined.

(** Every device is in exactly one of the three lists. *)
Lemma camera_groups_partition site l : truthy_str site = true → Permutation (mjoin (camera_groups site l)) l.
Proof.
  intros Hs. change (mjoin (camera_groups site l)) with (assignedHere site l ++ unassigned l ++ elsewhere site l ++ [])%list. rewrite app_nil_r.
  unfold assignedHere, unassigned, elsewhere. induction l as [|d l IH]; [done|]. rewrite !filter_where_cons.
  destruct (bool_decide_reflect (dv_site d = Some site)) as [E|E]; simpl.
  - rewrite E. simpl. rewrite Hs. simpl. by constructor.
  - rewrite andb_true_r. destruct (truthy_ostr (dv_site d)); simpl.
    + rewrite !app_assoc, <- Permutation_middle, <- app_assoc. by constructor.
    + rewrite <- Permutation_middle. by constructor.
Qed.

(** *** Moving a device *)

Section moves.
Context (key : string) (sites : list string) (Hkey : key ≠ "location_label").

Lemma deliver_keeps_place id f q s x l :
  (∀ site, q ≠ DeleteAssignment site id) → device_position id s = Some (Some x, l) → ∃ y l', device_position id (deliver_assignment key sites f q s).1 = Some (Some y, l').
Proof.
  intros Hq Hp. destruct f as [|heard]; [by exists x, l|]. unfold deliver_assignment. cbn [fst]. rewrite serve_assignment_spec by done.
  destruct q as [site i label|site i]; cbv zeta; cbn [snd].
  - unfold AssignToSite. destruct (_ && _); cbn [snd]; [by exists x, l|]. rewrite position_put.
    destruct (String.eqb id i); [|by exists x, l]. exists site, label. by rewrite Hp.
  - unfold UnassignFromSite. rewrite position_put. destruct (String.eqb_spec id i) as [->|]; [by destruct (Hq site)|by exists x, l].
Qed.

(** The step of an answer, up to equations. *)
Lemma settles_step step i f r s q d s' q' q'' d' m : q !! i = Some r → deliver_assignment key sites f r d = (d', m) → step (DvSettles i m) s = (s', q') →
  q'' = (delete i q ++ q')%list → section_step step key sites (mkSectionSystem s q d) (mkSectionSystem s' q'' d').
Proof. intros H1 H2 H3 ->. by eapply section_settles. Qed.

(** A step after which no request is under way that unassigns the device. *)
Definition quiet_step (step : DeviceEvent → DeviceSection → DeviceSection * list AssignRequest) (id : string) (a b : SectionSystem) : Prop :=
  section_step step key sites a b ∧ ∀ site, DeleteAssignment site id ∉ ss_flight b.

Lemma quiet_keeps_place step id a b x l :
  rtc (quiet_step step id) a b → (∀ site, DeleteAssignment site id ∉ ss_flight a) → device_position id (ss_devices a) = Some (Some x, l) →
  ∃ y l', device_position id (ss_devices b) = Some (Some y, l').
Proof.
  intros H. revert x l. induction H as [a|a b c [Hs Hb] _ IH]; intros x l Ha Hp; [by exists x, l|].
  inversion Hs as [e s q d s' q' _ _ E1 E2|i f r s q d s' q' d' m Hr Hd _ E1 E2]; subst; simpl in *.
  - by apply (IH x l).
  - destruct (deliver_keeps_place id f r d x l) as (y & l' & Hy); [|done|].
    + intros site ->. apply (Ha site). by eapply list_elem_of_lookup_2.
    + rewrite Hd in Hy. by apply (IH y l').
Qed.
End moves.

(** Moving a device between sites.  A camera that is at a site stays at some site whatever
    is clicked except its Unassign button, and whatever becomes of the requests and in
    whatever order.  A speaker is first taken from its site: when the second request does
    not take effect it is left at none, and the section, which has nothing left to do,
    reports nothing. *)
Theorem moves_compared (site key : string) (sites : list string) (id : string) :
  key ≠ "location_label" →
  (∀ a b x l, rtc (quiet_step key sites (camera_section_step site) id) a b → (∀ s, DeleteAssignment s id ∉ ss_flight a) →
     device_position id (ss_devices a) = Some (Some x, l) → ∃ y l', device_position id (ss_devices b) = Some (Some y, l')) ∧
  (∀ labels error devices d old l f, dv_id d = id → device_position id devices = Some (Some old, l) → f = Lost ∨ site ∉ sites →
     ∃ b, rtc (section_step (speaker_section_step site) key sites) (mkSectionSystem (mkDeviceSection labels error []) [] devices) b ∧
       ss_flight b = [PostAssignment site id (default EmptyString (labels !! id))] ∧
       ∃ c, section_step (speaker_section_step site) key sites b c ∧ device_position id (ss_devices c) = Some (None, EmptyString) ∧
         dx_tasks (ss_section c) = [] ∧ dx_error (ss_section c) = error ∧ ss_flight c = [] ∧
         ss_devices c = (deliver_assignment key sites f (PostAssignment site id (default EmptyString (labels !! id))) (ss_devices b)).1).
Proof.
  intros Hk. split; [intros a b x l; by apply quiet_keeps_place|].
  intros labels error devices d old l f <- Hp Hf. set (lab := default EmptyString (labels !! dv_id d)).
  set (d1 := UnassignFromSite (dv_id d) devices).
  assert (Hp1 : device_position (dv_id d) d1 = Some (None, EmptyString)).
  { unfold d1, UnassignFromSite. by rewrite position_put, String.eqb_refl, Hp. }
  exists (mkSectionSystem (mkDeviceSection labels error [DtArrive]) [PostAssignment site (dv_id d) lab] d1).
  split; [|split; [done|]].
  - eapply rtc_l; [|apply rtc_once].
    + by eapply (section_clicks _ _ _ (DvMove d)).
    + eapply (settles_step _ _ _ 0%nat (Served true)); reflexivity.
  - exists (mkSectionSystem (mkDeviceSection labels error []) [] (deliver_assignment key sites f (PostAssignment site (dv_id d) lab) d1).1).
    split; [|split; [|done]].
    + destruct (deliver_assignment key sites f (PostAssignment site (dv_id d) lab) d1) as [d2 m] eqn:E.
      eapply (settles_step _ _ _ 0%nat f); [reflexivity|exact E| |reflexivity]. by destruct m.
    + destruct Hf as [-> | Hs]; [exact Hp1|]. destruct f as [|heard]; [exact Hp1|].
      unfold deliver_assignment. cbn [fst]. rewrite serve_assignment_spec by done. cbv zeta. cbn [snd]. unfold AssignToSite.
      rewrite (position_device _ _ _ Hp1). assert (Hi : includes site sites = false) by (by apply bool_decide_eq_false). rewrite Hi. exact Hp1.
Qed.

Lemma moves_compared_witness :
  let devices := mkDevices [mkDevice "k1" "Horn" (Some "S1") "Yard"] [] in
  ∃ b c, rtc (section_step (speaker_section_step "S2") "speaker_id" ["S1"; "S2"]) (mkSectionSystem (mkDeviceSection ∅ None []) [] devices) b ∧
    section_step (speaker_section_step "S2") "speaker_id" ["S1"; "S2"] b c ∧ device_position "k1" (ss_devices c) = Some (None, EmptyString).
Proof.
  intros devices. destruct (moves_compared "S2" "speaker_id" ["S1"; "S2"] "k1") as [_ H]; [done|].
  destruct (H ∅ None devices (mkDevice "k1" "Horn" (Some "S1") "Yard") "S1" "Yard" Lost) as (b & Hb & _ & c & Hc & Hp & _); [done|reflexivity|by left|].
  exists b, c. split; [exact Hb|]. split; [exact Hc|exact Hp].
Defined.

(** *** Users *)

Lemma decode_toggle site u :
  decode_update (toggle_body site u) = Some (mkUserProfileUpdate None None None (Some (default EmptyString (up_organization_id u))) (Some (toggled site (up_sites u)))).
Proof. unfold toggle_body, decode_update. change (jget ?k (JObj ?l)) with (jget k (JObj l)). unfold jget, find_where. simpl. by rewrite mapM_str. Qed.

(** What the dialog makes of the stored account when it knew the account as [u]. *)
Definition toggled_account (site : string) (u : UserPublic) (a : Account) : Account :=
  mkAccount (ac_id a) (ac_username a) (ac_role a) (ac_display_name a) (ac_email a) (ac_phone a) (nullableStr (default EmptyString (up_organization_id u))) (toggled site (up_sites u)).

Lemma toggle_served valid c site u db a :
  db !! up_id u = Some a → valid (up_id u) = true → cl_role c = "admin" →
  HandleUpdateUserProfile valid (Some c) (up_id u) (toggle_body site u) db =
  (200, Some (public_of (toggled_account site u a)), <[up_id u := toggled_account site u a]> db).
Proof.
  intros Ha Hv Hc. unfold HandleUpdateUserProfile. rewrite Hv, Hc, decode_toggle. simpl negb. cbn iota. unfold UpdateUserProfile.
  cbn [andb pu_display_name pu_email pu_phone pu_organization_id pu_assigned_site_ids default]. rewrite lookup_alter_eq, Ha. cbn [fmap option_fmap option_map]. cbn zeta. f_equal.
  apply map_eq. intros k. destruct (decide (k = up_id u)) as [->|Hne]; [by rewrite lookup_alter_eq, lookup_insert_eq, Ha|by rewrite lookup_alter_ne, lookup_insert_ne].
Qed.

Definition is_access_save (t : AccessTask) : bool := match t with AtSave => true | AtLoad => false end.
Definition saves (s : AccessModal) : nat := length (filter_where is_access_save (am_tasks s)).

(** The answers of a run are answers of the requests they come to. *)
Definition access_answers (e : AccessEvent) (s : AccessModal) : Prop :=
  match e with AmSettles i r => match am_tasks s !! i, r with Some AtLoad, ArUser _ | Some AtSave, ArUsers _ => False | _, _ => True end | _ => True end.

Definition save_flag (s : AccessModal) : nat := match am_saving s with Some _ => 1 | None => 0 end.

Lemma access_step_saves companyId site e s : access_answers e s → saves s = save_flag s → saves (access_step companyId site e s).1 = save_flag (access_step companyId site e s).1.
Proof.
  unfold saves, save_flag. intros He H. destruct e as [id|i r]; simpl in *.
  - destruct (am_saving s) eqn:Es; simpl; [by rewrite Es|]. destruct (find_where _ _); simpl; [|by rewrite Es].
    destruct (_ && _ && _); simpl; [|by rewrite Es]. rewrite length_filter_snoc. simpl. lia.
  - destruct (am_tasks s !! i) as [t|] eqn:Et; [|done]. pose proof (length_filter_delete is_access_save _ _ _ Et) as Hd.
    destruct t, r; try done; simpl in *; destruct (am_saving s); lia.
Qed.

Definition access_run (companyId : option string) (site : string) (es : list AccessEvent) (s : AccessModal) : AccessModal :=
  foldl (λ s e, (access_step companyId site e s).1) s es.
Fixpoint run_answers (companyId : option string) (site : string) (es : list AccessEvent) (s : AccessModal) : Prop :=
  match es with [] => True | e :: es' => access_answers e s ∧ run_answers companyId site es' (access_step companyId site e s).1 end.

Lemma access_run_saves companyId site es s : run_answers companyId site es s → saves s = save_flag s →
  saves (access_run companyId site es s) = save_flag (access_run companyId site es s).
Proof.
  revert s. induction es as [|e es IH]; intros s Hes Hs; [done|]. destruct Hes as [He Hes]. simpl. apply IH; [done|]. by apply access_step_saves.
Qed.

Lemma elem_of_toggled site l x : x ∈ toggled site l ↔ (if decide (x = site) then site ∉ l else x ∈ l).
Proof.
  unfold toggled. destruct (includes site l) eqn:E; [apply bool_decide_eq_true in E|apply bool_decide_eq_false in E].
  - rewrite elem_of_filter_where, negb_true_iff, String.eqb_neq. destruct (decide (x = site)) as [->|]; tauto.
  - rewrite elem_of_app, list_elem_of_singleton. destruct (decide (x = site)) as [->|]; tauto.
Qed.

(** The user dialog writes one account at a time and no account but the one that was
    clicked.  On the server an administrator's click changes nothing but the organization
    and the sites: when the list was current, the site alone is put in or out;
    when somebody else had changed the account since the list was loaded, that change of
    organization or sites is undone. *)
Theorem access_toggle_exact (companyId : option string) (site : string) (es : list AccessEvent) (id p : string) (body : json) :
  let s := access_run companyId site es mount_access.1 in
  run_answers companyId site es mount_access.1 →
  (access_step companyId site (AmToggle id) s).2 = [PatchProfile p body] →
  p = id ∧ saves s = 0%nat ∧ saves (access_step companyId site (AmToggle id) s).1 = 1%nat ∧
  (∀ id', (access_step companyId site (AmToggle id') (access_step companyId site (AmToggle id) s).1).2 = []) ∧
  ∃ u, u ∈ relevantUsers companyId site (am_users s) ∧ up_id u = id ∧
    ∀ valid c db a, cl_role c = "admin" → valid id = true → db !! id = Some a →
      let a' := toggled_account site u a in
      HandleUpdateUserProfile valid (Some c) p body db = (200, Some (public_of a'), <[id := a']> db) ∧
      (u = public_of a → ac_organization_id a ≠ Some EmptyString →
         ac_organization_id a' = ac_organization_id a ∧ ∀ x, x ∈ ac_assigned_site_ids a' ↔ (if decide (x = site) then site ∉ ac_assigned_site_ids a else x ∈ ac_assigned_site_ids a)).
Proof.
  intros s Hes. assert (Hs : saves s = save_flag s) by (by apply access_run_saves). clearbody s. unfold access_step at 1.
  destruct (am_saving s) as [x|] eqn:Esav; [done|]. destruct (find_where (user_is id) _) as [u|] eqn:Eu; [|done].
  destruct (negb (am_loading s) && _ && _) eqn:Eshown; [|done]. intros [= <- <-].
  apply find_where_Some in Eu as Hu. destruct Hu as [Hid%String.eqb_eq Hin].
  assert (Hstep : (access_step companyId site (AmToggle id) s).1 = (toggleUser site u s).1) by (unfold access_step; by rewrite Esav, Eu, Eshown).
  rewrite Hstep. assert (H0 : saves s = 0%nat) by (rewrite Hs; unfold save_flag; by rewrite Esav).
  split; [done|]. split; [done|]. split.
  { unfold saves in *. simpl. rewrite length_filter_snoc, H0. done. }
  split; [by intros id'|]. exists u. split; [done|]. split; [done|]. intros valid c db a Hc Hv Ha. cbv zeta. split.
  - rewrite <- Hid in *. by apply toggle_served.
  - intros -> Horg. split; [|intros x; apply elem_of_toggled]. cbn [toggled_account ac_organization_id public_of up_organization_id].
    destruct (ac_organization_id a) as [o|]; [|done]. simpl. unfold nullableStr. by destruct o.
Qed.

Lemma access_toggle_exact_witness :
  let u := mkUserPublic "u7" "pat" "site_manager" "Pat" "p@a.test" EmptyString (Some "acme") ["S1"] in
  let s := access_run (Some "acme") "S2" [AmSettles 0 (ArUsers [u])] mount_access.1 in
  ∃ v, v ∈ relevantUsers (Some "acme") "S2" (am_users s) ∧ up_id v = "u7" ∧ (access_step (Some "acme") "S2" (AmToggle "u7") s).2 = [PatchProfile "u7" (toggle_body "S2" u)].
Proof.
  intros u s. destruct (access_toggle_exact (Some "acme") "S2" [AmSettles 0 (ArUsers [u])] "u7" "u7" (toggle_body "S2" u)) as (_ & _ & _ & _ & v & Hv & Hi & _).
  - by repeat split.
  - reflexivity.
  - exists v. split; [exact Hv|]. split; [exact Hi|reflexivity].
Defined.

(** *** What a user can give himself *)

(** The sites of the caller's own record as he writes it. *)
Definition own_sites_body (l : list string) : json := JObj [("assigned_site_ids", JArr (JStr <$> l))].

Lemma decode_own l : decode_update (own_sites_body l) = Some (mkUserProfileUpdate None None None None (Some l)).
Proof. unfold own_sites_body, decode_update, jget, find_where. simpl. by rewrite mapM_str. Qed.

(** C28. Any user of any role reads any site.  The server lets every user write his own
    profile, the assigned sites included, and those are what it then asks for when the site is
    requested.  Before the write a user outside of the control room is refused the sites of
    other organizations that are not assigned to him. *)
Theorem self_assignment_opens_site (valid : string → bool) (c : Claims) (org id : string) (db : gmap string Account) (a : Account) (rows : list StoredSite) (r : StoredSite) :
  valid (cl_UserID c) = true → db !! cl_UserID c = Some a → find_site id rows = Some r →
  (includes (cl_role c) ["admin"; "soc_supervisor"; "soc_operator"] = false → db_organization_id r ≠ org → id ∉ ac_assigned_site_ids a →
     HandleGetSite (callerScope c org db) id rows = (404, None)) ∧
  ∃ u db', HandleUpdateUserProfile valid (Some c) (cl_UserID c) (own_sites_body [id]) db = (200, Some u, db') ∧
    HandleGetSite (callerScope c org db') id rows = (200, Some (site_json r)).
Proof.
  intros Hv Ha Hr. assert (Hid : db_id r = id).
  { apply find_where_Some in Hr as [Hr _]. apply andb_true_iff in Hr as [Hr%String.eqb_eq _]. done. }
  split.
  - intros Hrole Horg Hsites. unfold HandleGetSite, callerScope. rewrite Hr, Hrole, Ha. cbn [can_view]. apply String.eqb_neq in Horg. rewrite Horg, andb_false_r, Hid.
    assert (Hi : includes id (ac_assigned_site_ids a) = false) by (by apply bool_decide_eq_false). by rewrite Hi.
  - unfold HandleUpdateUserProfile. rewrite Hv, decode_own, String.eqb_refl. simpl negb. rewrite andb_false_r. cbn iota.
    cbn [pu_display_name pu_email pu_phone pu_organization_id pu_assigned_site_ids default from_option Datatypes.id]. unfold UpdateUserProfile.
    rewrite lookup_alter_eq, Ha. cbn [fmap option_fmap option_map]. eexists _, _. split; [reflexivity|].
    unfold HandleGetSite, callerScope. rewrite Hr, lookup_alter_eq, Ha. cbn [fmap option_fmap option_map].
    destruct (includes (cl_role c) _); [done|]. cbn [can_view]. unfold updated. cbn [ac_assigned_site_ids pu_assigned_site_ids default from_option Datatypes.id]. rewrite Hid.
    assert (Hi : includes id [id] = true) by (apply bool_decide_eq_true; by left). by rewrite Hi, orb_true_r.
Qed.

Lemma self_assignment_opens_site_witness :
  let r := mkStoredSite "S9" "Refinery" "Dock 9" "rival" None None "active" "18:00" "06:00" None None None None None None None None None None "t" false in
  let a := mkAccount "u1" "eve" "customer" "Eve" "e@x.test" EmptyString (Some "acme") [] in
  HandleGetSite (callerScope (mkClaims "customer" "u1") "acme" {["u1" := a]}) "S9" [r] = (404, None) ∧
  ∃ u db', HandleUpdateUserProfile (λ _, true) (Some (mkClaims "customer" "u1")) "u1" (own_sites_body ["S9"]) {["u1" := a]} = (200, Some u, db') ∧
    HandleGetSite (callerScope (mkClaims "customer" "u1") "acme" db') "S9" [r] = (200, Some (site_json r)).
Proof.
  intros r a. destruct (self_assignment_opens_site (λ _, true) (mkClaims "customer" "u1") "acme" "S9" {["u1" := a]} a [r] r) as [H1 H2]; [reflexivity|reflexivity|reflexivity|].
  split; [apply H1; [reflexivity|discriminate|intros Hin; by apply not_elem_of_nil in Hin]|exact H2].
Defined.
