(* ===== verification/SiteProcedures.v ===== *)
(** * Procedures and alert rules of a site

    The standard procedures of a site ([components/admin/SiteSOPModal.tsx]) with their
    handlers ([internal/api/platform.go], [internal/database/platform_db.go]), and the alert
    rules ([components/admin/NotificationRulesModal.tsx]), whose requests have no
    handler. *)

From S2P Require Import Prelude Types Http AuthFetch IronsightApi AdminConsole Router JsonText SiteServer.
From Stdlib Require Import Ascii.
#[local] Open Scope string_scope.
#[local] Open Scope Z_scope.

(** ** Procedures on the server *)

(** A row of site_sops, and [SiteSOP] of both sides. *)
Record SopRow := mkSopRow {
  pr_id : string;
  pr_site_id : string;
  pr_title : string;
  pr_category : string;
  pr_priority : string;
  pr_steps : list string;
  pr_contacts : list json;
  pr_updated_at : string;
  pr_updated_by : string
}.

Record SOPCreate := mkSOPCreate {
  cq_title : string;
  cq_category : string;
  cq_priority : string;
  cq_steps : list string;      (* a nil slice reads back as the empty one *)
  cq_contacts : list json;
  cq_updated_by : string
}.

Definition decode_sop (body : json) : option SOPCreate :=
  match body with
  | JObj _ | JNull =>
      _ ← go_string (jget "site_id" body);
      t ← go_string (jget "title" body); c ← go_string (jget "category" body); p ← go_string (jget "priority" body);
      s ← decode_strs (jget "steps" body); k ← go_objects (jget "contacts" body); u ← go_string (jget "updated_by" body);
      Some (mkSOPCreate t c p (default [] s) k u)
  | _ => None
  end.

Definition sop_is (id : string) (r : SopRow) : bool := String.eqb (pr_id r) id.

(** [ListSiteSOPs], in the order of the table. *)
Definition ListSiteSOPs (site : string) (rows : list SopRow) : list SopRow := filter_where (λ r, String.eqb (pr_site_id r) site) rows.

(** [CreateSiteSOP] with a new [id]: the id is the primary key, the site a foreign key. *)
Definition CreateSiteSOP (sites : list string) (id now site : string) (c : SOPCreate) (rows : list SopRow) : option (SopRow * list SopRow) :=
  let r := mkSopRow id site (cq_title c) (cq_category c) (cq_priority c) (cq_steps c) (cq_contacts c) now (cq_updated_by c) in
  if existsb (sop_is id) rows || negb (includes site sites) then None else Some (r, (rows ++ [r])%list).

Definition set_sop (now : string) (c : SOPCreate) (r : SopRow) : SopRow :=
  mkSopRow (pr_id r) (pr_site_id r) (cq_title c) (cq_category c) (cq_priority c) (cq_steps c) (cq_contacts c) now (cq_updated_by c).
Definition UpdateSiteSOP (now id : string) (c : SOPCreate) (rows : list SopRow) : list SopRow := map_where (sop_is id) (set_sop now c) rows.
Definition DeleteSiteSOP (id : string) (rows : list SopRow) : list SopRow := filter_where (λ r, negb (sop_is id r)) rows.

(** The status, the row of an answer, and the rows.  None of the handlers asks for a role. *)
Definition HandleCreateSiteSOP (sites : list string) (id now site : string) (body : json) (rows : list SopRow) : Z * option SopRow * list SopRow :=
  match decode_sop body with
  | None => (400, None, rows)
  | Some c => match CreateSiteSOP sites id now site c rows with Some (r, rows') => (200, Some r, rows') | None => (500, None, rows) end
  end.
Definition HandleUpdateSiteSOP (now id : string) (body : json) (rows : list SopRow) : Z * list SopRow :=
  match decode_sop body with None => (400, rows) | Some c => (200, UpdateSiteSOP now id c rows) end.
Definition HandleDeleteSiteSOP (id : string) (rows : list SopRow) : Z * list SopRow := (200, DeleteSiteSOP id rows).

(** ** The dialog *)

Record SopForm := mkSopForm { sf_title : string; sf_category : string; sf_priority : string; sf_steps : string }.
Definition blank_sop : SopForm := mkSopForm EmptyString "safety" "normal" EmptyString.

Definition NEW_LINE : string := String "010"%char EmptyString.

(** The lines of a text that are not blank, as they are. *)
Definition step_lines (s : string) : list string := filter_where (λ l, truthy_str (trim l)) (js_split NEW_LINE s).
Definition join_lines : list string → string := join_with NEW_LINE.

Inductive SopTask := StLoad | StCreate | StDelete (id : string) | StSave (id : string) (f : SopForm) (steps : list string).
Inductive SopCall := CallList (site : string) | CallCreate (site : string) (body : json) | CallUpdate (id : string) (body : json) | CallDelete (id : string).
Inductive SopReply := SoList (l : list SopRow) | SoRow (r : SopRow) | SoDone | SoFails.

Record SopModal := mkSopModal {
  so_list : list SopRow;
  so_loading : bool;
  so_expanded : option string;
  so_adding : bool;
  so_editing : option string;
  so_new : SopForm;
  so_edit : SopForm;
  so_tasks : list SopTask
}.

Definition mount_sops (site : string) : SopModal * list SopCall := (mkSopModal [] true None false None blank_sop blank_sop [StLoad], [CallList site]).

Definition upd_sop_list (l : list SopRow) (loading : bool) (s : SopModal) : SopModal :=
  mkSopModal l loading (so_expanded s) (so_adding s) (so_editing s) (so_new s) (so_edit s) (so_tasks s).
Definition upd_so_add (adding : bool) (f : SopForm) (s : SopModal) : SopModal :=
  mkSopModal (so_list s) (so_loading s) (so_expanded s) adding (so_editing s) f (so_edit s) (so_tasks s).
Definition upd_so_edit (expanded editing : option string) (f : SopForm) (s : SopModal) : SopModal :=
  mkSopModal (so_list s) (so_loading s) expanded (so_adding s) editing (so_new s) f (so_tasks s).
Definition upd_sop_tasks (t : list SopTask) (s : SopModal) : SopModal :=
  mkSopModal (so_list s) (so_loading s) (so_expanded s) (so_adding s) (so_editing s) (so_new s) (so_edit s) t.

Definition sop_body (f : SopForm) (title : string) (contacts : list json) (extra : list (string * json)) : json :=
  JObj (extra ++ [("title", JStr title); ("category", JStr (sf_category f)); ("priority", JStr (sf_priority f));
                  ("steps", JArr (JStr <$> step_lines (sf_steps f))); ("contacts", JArr contacts); ("updated_by", JStr "Admin")])%list.

Definition handleAddSOP (site : string) (s : SopModal) : SopModal * list SopCall :=
  let t := trim (sf_title (so_new s)) in
  if truthy_str t
  then (upd_sop_tasks (so_tasks s ++ [StCreate])%list s, [CallCreate site (sop_body (so_new s) t [] [("site_id", JStr site)])])
  else (s, []).

Definition handleDeleteSOP (id : string) (s : SopModal) : SopModal * list SopCall := (upd_sop_tasks (so_tasks s ++ [StDelete id])%list s, [CallDelete id]).

Definition startEdit (r : SopRow) (s : SopModal) : SopModal :=
  upd_so_edit (Some (pr_id r)) (Some (pr_id r)) (mkSopForm (pr_title r) (pr_category r) (pr_priority r) (join_lines (pr_steps r))) s.

Definition handleSaveEdit (id : string) (s : SopModal) : SopModal * list SopCall :=
  let f := so_edit s in
  (upd_sop_tasks (so_tasks s ++ [StSave id f (step_lines (sf_steps f))])%list s,
   [CallUpdate id (sop_body f (sf_title f) (match find_where (sop_is id) (so_list s) with Some r => pr_contacts r | None => [] end) [])]).

(** The row after a save: the date is the browser's, the author stays. *)
Definition edited_sop (now : string) (f : SopForm) (steps : list string) (r : SopRow) : SopRow :=
  mkSopRow (pr_id r) (pr_site_id r) (sf_title f) (sf_category f) (sf_priority f) steps (pr_contacts r) now (pr_updated_by r).

(** What follows the answer; a rejection is caught nowhere. *)
Definition sop_resume (now : string) (t : SopTask) (r : SopReply) (s : SopModal) : SopModal :=
  match t, r with
  | StLoad, SoList l => upd_sop_list l false s
  | StCreate, SoRow x =>
      upd_so_add false (mkSopForm EmptyString (sf_category (so_new s)) (sf_priority (so_new s)) EmptyString) (upd_sop_list (so_list s ++ [x])%list (so_loading s) s)
  | StDelete id, SoDone => upd_sop_list (filter_where (λ r, negb (sop_is id r)) (so_list s)) (so_loading s) s
  | StSave id f steps, SoDone => upd_so_edit (so_expanded s) None (so_edit s) (upd_sop_list (map_where (sop_is id) (edited_sop now f steps) (so_list s)) (so_loading s) s)
  | _, _ => s
  end.

Inductive SopEvent := SoAddClick | SoCancelAdd | SoTypeNew (f : SopForm) | SoSubmit | SoRowClick (id : string) | SoEdit (id : string) | SoDelete (id : string)
| SoTypeEdit (f : SopForm) | SoCancelEdit | SoSave | SoSettles (i : nat) (now : string) (r : SopReply).

(** Rows are on the page when the list is loaded; the edit form is that of the expanded row. *)
Definition listed (id : string) (s : SopModal) : option SopRow := if so_loading s then None else find_where (sop_is id) (so_list s).
Definition edit_open (s : SopModal) : option SopRow :=
  match so_editing s with
  | Some id => if bool_decide (so_expanded s = Some id) then listed id s else None
  | None => None
  end.

Definition sop_step (site : string) (e : SopEvent) (s : SopModal) : SopModal * list SopCall :=
  match e with
  | SoAddClick => (upd_so_add true (so_new s) s, [])
  | SoCancelAdd => (if so_adding s then upd_so_add false (so_new s) s else s, [])
  | SoTypeNew f => (if so_adding s then upd_so_add true f s else s, [])
  | SoSubmit => if so_adding s then handleAddSOP site s else (s, [])
  | SoRowClick id =>
      match listed id s with
      | Some _ => (upd_so_edit (if bool_decide (so_expanded s = Some id) then None else Some id) (so_editing s) (so_edit s) s, [])
      | None => (s, [])
      end
  | SoEdit id => (match listed id s with Some r => startEdit r s | None => s end, [])
  | SoDelete id => match listed id s with Some _ => handleDeleteSOP id s | None => (s, []) end
  | SoTypeEdit f => (match edit_open s with Some _ => upd_so_edit (so_expanded s) (so_editing s) f s | None => s end, [])
  | SoCancelEdit => (match edit_open s with Some _ => upd_so_edit (so_expanded s) None (so_edit s) s | None => s end, [])
  | SoSave =>
      match edit_open s with
      | Some r => if truthy_str (trim (sf_title (so_edit s))) then handleSaveEdit (pr_id r) s else (s, [])
      | None => (s, [])
      end
  | SoSettles i now r =>
      match so_tasks s !! i with
      | Some t => (sop_resume now t r (upd_sop_tasks (delete i (so_tasks s)) s), [])
      | None => (s, [])
      end
  end.

(** The groups of the list, in the order in which their categories first appear. *)
Definition sop_groups (l : list SopRow) : list (string * list SopRow) :=
  foldl (λ m r, map_set (pr_category r) (default [] (map_get (pr_category r) m) ++ [r])%list m) [] l.

(** ** The dialog with its server

    A request is sent, served, and its answer heard, each at its own time and in any order
    among the requests under way; it may be lost before it is served, and its answer after. *)
Definition serve_sop (sites : list string) (id now : string) (q : SopCall) (rows : list SopRow) : SopReply * list SopRow :=
  match q with
  | CallList site => (SoList (ListSiteSOPs site rows), rows)
  | CallCreate site body =>
      match HandleCreateSiteSOP sites id now site body rows with (200, Some r, rows') => (SoRow r, rows') | (_, _, rows') => (SoFails, rows') end
  | CallUpdate i body => let r := HandleUpdateSiteSOP now i body rows in (if r.1 =? 200 then SoDone else SoFails, r.2)
  | CallDelete i => let r := HandleDeleteSiteSOP i rows in (if r.1 =? 200 then SoDone else SoFails, r.2)
  end.

(** [sm_sent] are the requests that wait for the server, [sm_answers] the answers that wait for
    the page, in the order in which they were given, each with its task; [sm_stray] are
    requests whose failure the page has heard and which the server may still serve.
    [sm_used] are the ids ever used, which no new id repeats. *)
Record SopSystem := mkSopSystem {
  sm_modal : SopModal;
  sm_sent : list (SopTask * SopCall);
  sm_stray : list (SopTask * SopCall);
  sm_answers : list (SopTask * SopReply);
  sm_rows : list SopRow;
  sm_used : list string
}.

(** Answers whose order makes no difference to the list: a failure changes nothing, and
    changes of two procedures are independent, but for the order of two creations. *)
Definition sop_commute (a b : SopTask * SopReply) : bool :=
  match a, b with
  | (_, SoFails), _ | _, (_, SoFails) => true
  | (StLoad, _), _ | _, (StLoad, _) | (StCreate, _), (StCreate, _) => false
  | (StCreate, SoRow x), (StDelete i, _) | (StCreate, SoRow x), (StSave i _ _, _)
  | (StDelete i, _), (StCreate, SoRow x) | (StSave i _ _, _), (StCreate, SoRow x) => negb (sop_is i x)
  | (StSave i _ _, _), (StSave j _ _, _) => negb (String.eqb i j)
  | _, _ => true
  end.

(** The steps.  The label says of a step that it is orderly: no answer is overtaken by a later
    one with which it does not commute, and a failure that the page hears is a request that
    the server never serves. *)
Inductive sop_system_step (sites : list string) (site : string) : bool → SopSystem → SopSystem → Prop :=
| sops_click e s s' q sent stray ans rows used : (∀ i now r, e ≠ SoSettles i now r) → sop_step site e s = (s', q) →
    sop_system_step sites site true (mkSopSystem s sent stray ans rows used)
      (mkSopSystem s' (sent ++ zip (drop (length (so_tasks s)) (so_tasks s')) q)%list stray ans rows used)
| sops_served k t c id now r s sent stray ans rows rows' used : sent !! k = Some (t, c) → id ∉ used → serve_sop sites id now c rows = (r, rows') →
    sop_system_step sites site true (mkSopSystem s sent stray ans rows used) (mkSopSystem s (delete k sent) stray (ans ++ [(t, r)])%list rows' (id :: used))
| sops_heard k i t r now s sent stray ans rows used : ans !! k = Some (t, r) → so_tasks s !! i = Some t →
    sop_system_step sites site (forallb (sop_commute (t, r)) (take k ans)) (mkSopSystem s sent stray ans rows used)
      (mkSopSystem (sop_step site (SoSettles i now r) s).1 sent stray (delete k ans) rows used)
| sops_refused k i t c now s sent stray ans rows used : sent !! k = Some (t, c) → so_tasks s !! i = Some t →
    sop_system_step sites site true (mkSopSystem s sent stray ans rows used)
      (mkSopSystem (sop_step site (SoSettles i now SoFails) s).1 (delete k sent) stray ans rows used)
| sops_given_up k i t c now s sent stray ans rows used : sent !! k = Some (t, c) → so_tasks s !! i = Some t →
    sop_system_step sites site false (mkSopSystem s sent stray ans rows used)
      (mkSopSystem (sop_step site (SoSettles i now SoFails) s).1 (delete k sent) (stray ++ [(t, c)])%list ans rows used)
| sops_stray k t c id now r s sent stray ans rows rows' used : stray !! k = Some (t, c) → id ∉ used → serve_sop sites id now c rows = (r, rows') →
    sop_system_step sites site false (mkSopSystem s sent stray ans rows used) (mkSopSystem s sent (delete k stray) ans rows' (id :: used))
| sops_answer_lost k i t r now s sent stray ans rows used : ans !! k = Some (t, r) → so_tasks s !! i = Some t →
    sop_system_step sites site false (mkSopSystem s sent stray ans rows used)
      (mkSopSystem (sop_step site (SoSettles i now SoFails) s).1 sent stray (delete k ans) rows used).

Definition sop_any_step (sites : list string) (site : string) (x y : SopSystem) : Prop := ∃ b, sop_system_step sites site b x y.


(** The page when the answers on their way have come, in the order of the server. *)
Definition hear_all (now : string) (ans : list (SopTask * SopReply)) (s : SopModal) : SopModal := foldl (λ s a, sop_resume now a.1 a.2 s) s ans.

(** ** The alert rules *)

Record AlertRecipient := mkRecipient { rx_name : string; rx_email : string; rx_phone : string }.
Definition blank_recipient : AlertRecipient := mkRecipient EmptyString EmptyString EmptyString.

Record RuleForm := mkRuleForm {
  rf_name : string;
  rf_severities : list string;
  rf_channels : list string;
  rf_schedule : string;
  rf_recipients : list AlertRecipient;
  rf_webhook : string
}.
Definition blank_rule : RuleForm := mkRuleForm EmptyString ["critical"; "high"] ["email"] "immediate" [blank_recipient] EmptyString.

Definition toggle_choice (x : string) (l : list string) : list string :=
  if includes x l then filter_where (λ y, negb (String.eqb y x)) l else (l ++ [x])%list.

(** A property whose value is [undefined] is not written. *)
Definition opt_field (key s : string) : list (string * json) := if truthy_str s then [(key, JStr s)] else [].

Definition recipient_json (f : RuleForm) (r : AlertRecipient) : json :=
  JObj ([("name", JStr (trim (rx_name r)))] ++ opt_field "email" (trim (rx_email r)) ++ opt_field "phone" (trim (rx_phone r)) ++
        (if includes "webhook" (rf_channels f) then opt_field "webhook_url" (trim (rf_webhook f)) else []))%list.

Definition rule_body (site : string) (f : RuleForm) : json :=
  JObj [("site_id", JStr site); ("name", JStr (trim (rf_name f))); ("severity_filter", JArr (JStr <$> rf_severities f)); ("channels", JArr (JStr <$> rf_channels f));
        ("recipients", JArr (recipient_json f <$> filter_where (λ r, truthy_str (trim (rx_name r))) (rf_recipients f))); ("schedule", JStr (rf_schedule f)); ("enabled", JBool true)].

(** A rule of the list is known by its id alone. *)
Inductive RuleTask := RlLoad | RlCreate | RlDelete (id : string).
Record RuleCall := mkRuleCall { rl_method : string; rl_url : string; rl_body : option json }.
Inductive RuleReply := RlRules (ids : list string) | RlRule (id : string) | RlGone | RlFails.

Record RulesModal := mkRulesModal {
  rm_rules : list string;
  rm_loading : bool;
  rm_creating : bool;    (* showCreate *)
  rm_form : RuleForm;
  rm_saving : bool;
  rm_tasks : list RuleTask
}.

Definition mount_alert_rules (site : string) : RulesModal * list RuleCall :=
  (mkRulesModal [] true false blank_rule false [RlLoad], [mkRuleCall "GET" (BASE +:+ "/sites/" +:+ site +:+ "/notifications") None]).

Definition upd_rm_rules (l : list string) (loading : bool) (s : RulesModal) : RulesModal :=
  mkRulesModal l loading (rm_creating s) (rm_form s) (rm_saving s) (rm_tasks s).
Definition upd_rm_form (creating : bool) (f : RuleForm) (s : RulesModal) : RulesModal :=
  mkRulesModal (rm_rules s) (rm_loading s) creating f (rm_saving s) (rm_tasks s).
Definition upd_rm_saving (b : bool) (t : list RuleTask) (s : RulesModal) : RulesModal :=
  mkRulesModal (rm_rules s) (rm_loading s) (rm_creating s) (rm_form s) b t.

Definition rule_resume (t : RuleTask) (r : RuleReply) (s : RulesModal) : RulesModal :=
  match t, r with
  | RlLoad, RlRules l => upd_rm_rules l false s
  | RlCreate, RlRule id => upd_rm_saving false (rm_tasks s) (upd_rm_form false blank_rule (upd_rm_rules (rm_rules s ++ [id])%list (rm_loading s) s))
  | RlCreate, _ => upd_rm_saving false (rm_tasks s) s
  | RlDelete id, RlGone => upd_rm_rules (filter_where (λ x, negb (String.eqb x id)) (rm_rules s)) (rm_loading s) s
  | _, _ => s
  end.

Inductive RuleEvent := RlNew | RlCancel | RlName (s : string) | RlSeverity (s : string) | RlChannel (c : string) | RlSchedule (s : string) | RlWebhook (s : string)
| RlAddRecipient | RlRemoveRecipient (i : nat) | RlRecipient (i : nat) (r : AlertRecipient) | RlCreateClick | RlDeleteClick (id : string)
| RlSettles (i : nat) (r : RuleReply).

(** The form's own events. *)
Definition rule_form_step (e : RuleEvent) (f : RuleForm) : RuleForm :=
  match e with
  | RlName n => mkRuleForm n (rf_severities f) (rf_channels f) (rf_schedule f) (rf_recipients f) (rf_webhook f)
  | RlSeverity x => mkRuleForm (rf_name f) (toggle_choice x (rf_severities f)) (rf_channels f) (rf_schedule f) (rf_recipients f) (rf_webhook f)
  | RlChannel x => mkRuleForm (rf_name f) (rf_severities f) (toggle_choice x (rf_channels f)) (rf_schedule f) (rf_recipients f) (rf_webhook f)
  | RlSchedule x => mkRuleForm (rf_name f) (rf_severities f) (rf_channels f) x (rf_recipients f) (rf_webhook f)
  | RlWebhook x => if includes "webhook" (rf_channels f) then mkRuleForm (rf_name f) (rf_severities f) (rf_channels f) (rf_schedule f) (rf_recipients f) x else f
  | RlAddRecipient => mkRuleForm (rf_name f) (rf_severities f) (rf_channels f) (rf_schedule f) (rf_recipients f ++ [blank_recipient])%list (rf_webhook f)
  | RlRemoveRecipient i =>
      if (1 <? length (rf_recipients f))%nat then mkRuleForm (rf_name f) (rf_severities f) (rf_channels f) (rf_schedule f) (delete i (rf_recipients f)) (rf_webhook f) else f
  | RlRecipient i r => mkRuleForm (rf_name f) (rf_severities f) (rf_channels f) (rf_schedule f) (<[i := r]> (rf_recipients f)) (rf_webhook f)
  | _ => f
  end.

Definition rule_complete (f : RuleForm) : bool :=
  truthy_str (trim (rf_name f)) && negb (length (rf_severities f) =? 0)%nat && negb (length (rf_channels f) =? 0)%nat.

Definition alert_rules_step (site : string) (e : RuleEvent) (s : RulesModal) : RulesModal * list RuleCall :=
  match e with
  | RlNew => (upd_rm_form true (rm_form s) s, [])
  | RlCancel => (if rm_creating s then upd_rm_form false blank_rule s else s, [])
  | RlCreateClick =>
      if rm_creating s && rule_complete (rm_form s) && negb (rm_saving s)
      then (upd_rm_saving true (rm_tasks s ++ [RlCreate])%list s, [mkRuleCall "POST" (BASE +:+ "/sites/" +:+ site +:+ "/notifications") (Some (rule_body site (rm_form s)))])
      else (s, [])
  | RlDeleteClick id =>
      if includes id (rm_rules s)
      then (upd_rm_saving (rm_saving s) (rm_tasks s ++ [RlDelete id])%list s, [mkRuleCall "DELETE" (BASE +:+ "/notifications/" +:+ id) None])
      else (s, [])
  | RlSettles i r =>
      match rm_tasks s !! i with
      | Some t => (rule_resume t r (upd_rm_saving (rm_saving s) (delete i (rm_tasks s)) s), [])
      | None => (s, [])
      end
  | _ => (if rm_creating s then upd_rm_form true (rule_form_step e (rm_form s)) s else s, [])
  end.

(** The dialog with its requests in the order of its tasks; a request without a route is refused. *)
Definition rules_system_step (site : string) (x : RulesModal * list RuleCall) (e : RuleEvent) : RulesModal * list RuleCall :=
  let r := alert_rules_step site e x.1 in
  (r.1, (match e with RlSettles i _ => delete i x.2 | _ => x.2 end ++ r.2)%list).

Definition refused_when_unserved (x : RulesModal * list RuleCall) (e : RuleEvent) : Prop :=
  match e with
  | RlSettles i r => match x.2 !! i with Some c => served (rl_method c) (rl_url c) = false → r = RlFails | None => True end
  | _ => True
  end.

Fixpoint rules_run_ok (site : string) (es : list RuleEvent) (x : RulesModal * list RuleCall) : Prop :=
  match es with [] => True | e :: es' => refused_when_unserved x e ∧ rules_run_ok site es' (rules_system_step site x e) end.

(** ** Theorems *)

(** What the page shows of a row, without date and author. *)
Definition shown_row : Type := string * string * string * string * string * list string * list json.
Definition sop_shown (r : SopRow) : shown_row :=
  (pr_id r, pr_site_id r, pr_title r, pr_category r, pr_priority r, pr_steps r, pr_contacts r).

Definition objects (l : list json) : Prop := go_objects (Some (JArr l)) = Some l.

Lemma objects_spec l : objects l ↔ forallb (λ j, match j with JObj _ | JNull => true | _ => false end) l = true.
Proof. unfold objects. simpl. by destruct (forallb _ l). Qed.

Lemma decode_sop_body f title contacts extra : objects contacts → extra = [] ∨ (∃ site, extra = [("site_id", JStr site)]) →
  decode_sop (sop_body f title contacts extra) =
  Some (mkSOPCreate title (sf_category f) (sf_priority f) (step_lines (sf_steps f)) contacts "Admin").
Proof.
  intros Hc He. apply objects_spec in Hc.
  unfold decode_sop, sop_body, jget, find_where. destruct He as [-> |[site ->]]; simpl; rewrite Hc, mapM_str; done.
Qed.

(** What is known of a request under way about the table. *)
Definition sop_pending (site : string) (rows : list SopRow) (used : list string) (t : SopTask) (c : SopCall) : Prop :=
  match t, c with
  | StLoad, CallList s => s = site
  | StCreate, CallCreate s body => s = site ∧ ∃ k, decode_sop body = Some k ∧ objects (cq_contacts k)
  | StDelete i, CallDelete i' => i = i' ∧ i ∈ used ∧ ∀ r, r ∈ rows → pr_id r = i → pr_site_id r = site
  | StSave i f steps, CallUpdate i' body =>
      i = i' ∧ i ∈ used ∧ (∀ r, r ∈ rows → pr_id r = i → pr_site_id r = site) ∧
      ∃ k, decode_sop body = Some k ∧ objects (cq_contacts k) ∧ cq_title k = sf_title f ∧ cq_category k = sf_category f ∧ cq_priority k = sf_priority f ∧ cq_steps k = steps ∧
           ∀ r, r ∈ rows → pr_id r = i → pr_contacts r = cq_contacts k
  | _, _ => False
  end.

Lemma row_unique (rows : list SopRow) r r' : NoDup (pr_id <$> rows) → r ∈ rows → r' ∈ rows → pr_id r = pr_id r' → r = r'.
Proof. intros. by eapply NoDup_fmap_elem. Qed.

(** The rows that were in use keep id, site and contacts. *)
Definition rows_follow (used : list string) (rows rows' : list SopRow) : Prop :=
  ∀ r', r' ∈ rows' → pr_id r' ∈ used → ∃ r, r ∈ rows ∧ pr_id r = pr_id r' ∧ pr_site_id r = pr_site_id r' ∧ pr_contacts r = pr_contacts r'.

Lemma pending_follows site rows rows' used used' t c : rows_follow used rows rows' → used ⊆ used' → sop_pending site rows used t c → sop_pending site rows' used' t c.
Proof.
  intros Hf Hu. assert (Hsite : ∀ i, i ∈ used → (∀ r, r ∈ rows → pr_id r = i → pr_site_id r = site) → ∀ r, r ∈ rows' → pr_id r = i → pr_site_id r = site).
  { intros i Hi H r Hr E. destruct (Hf r Hr) as (r0 & H0 & E0 & <- & _); [by rewrite E|]. apply H; [done|congruence]. }
  destruct t, c; try done; simpl.
  - intros (<- & Hi & H). split; [done|]. split; [by apply Hu|]. by apply Hsite.
  - intros (<- & Hi & H & k & H1 & H2 & H3 & H4 & H5 & H6 & H7). split; [done|]. split; [by apply Hu|]. split; [by apply Hsite|].
    exists k. split_and!; try done. intros r Hr E. destruct (Hf r Hr) as (r0 & H0 & E0 & _ & <-); [by rewrite E|]. apply H7; [done|congruence].
Qed.

Lemma rows_follow_refl used rows : rows_follow used rows rows.
Proof. intros r Hr _. by exists r. Qed.

Lemma other_append site rows r : pr_site_id r = site →
  filter_where (λ r, negb (String.eqb (pr_site_id r) site)) (rows ++ [r])%list = filter_where (λ r, negb (String.eqb (pr_site_id r) site)) rows.
Proof. intros E. unfold filter_where. rewrite filter_app, filter_cons, E, String.eqb_refl. apply app_nil_r. Qed.

Lemma shown_update site id now now' k f steps rows l : cq_title k = sf_title f → cq_category k = sf_category f → cq_priority k = sf_priority f → cq_steps k = steps →
  (∀ r, r ∈ rows → pr_id r = id → pr_contacts r = cq_contacts k) → sop_shown <$> l = sop_shown <$> ListSiteSOPs site rows →
  sop_shown <$> map_where (sop_is id) (edited_sop now' f steps) l = sop_shown <$> ListSiteSOPs site (map_where (sop_is id) (set_sop now k) rows).
Proof.
  intros H1 H2 H3 H4 Hc. revert l. induction rows as [|r rows IH]; intros l.
  - unfold ListSiteSOPs. simpl. intros E%fmap_nil_inv. by subst.
  - unfold ListSiteSOPs in *. change (map_where ?p ?g (r :: rows)) with ((if p r then g r else r) :: map_where p g rows). rewrite !filter_where_cons.
    assert (Es : pr_site_id (if sop_is id r then set_sop now k r else r) = pr_site_id r) by (by destruct (sop_is id r)). rewrite Es.
    destruct (String.eqb (pr_site_id r) site); [|apply IH; intros r' Hr'; apply Hc; by right].
    destruct l as [|x l]; [done|]. rewrite !fmap_cons. intros HE. injection (f_equal head HE) as E1 E2 E3 E4 E5 E6 E7. assert (El := f_equal tail HE : sop_shown <$> l = _). change (map_where ?p ?g (x :: l)) with ((if p x then g x else x) :: map_where p g l). rewrite fmap_cons.
    rewrite IH; [|intros r' Hr'; apply Hc; by right|done]. f_equal. unfold sop_is. rewrite E1.
    destruct (String.eqb_spec (pr_id r) id) as [Ei|]; unfold sop_shown; simpl; [|congruence]. rewrite E1, E2, E7, H1, H2, H3, H4, Hc by (done || by left). done.
Qed.

Lemma shown_delete site id rows l : sop_shown <$> l = sop_shown <$> ListSiteSOPs site rows →
  sop_shown <$> filter_where (λ r, negb (sop_is id r)) l = sop_shown <$> ListSiteSOPs site (filter_where (λ r, negb (sop_is id r)) rows).
Proof.
  revert l. unfold ListSiteSOPs. induction rows as [|r rows IH]; intros l.
  - intros E%fmap_nil_inv. by subst.
  - rewrite !filter_where_cons. destruct (String.eqb (pr_site_id r) site) eqn:Es.
    + destruct l as [|x l]; [done|]. rewrite !fmap_cons. intros HE. injection (f_equal head HE) as E1 E2 E3 E4 E5 E6 E7. assert (El := f_equal tail HE : sop_shown <$> l = _). rewrite filter_where_cons.
      assert (Ex : sop_is id x = sop_is id r) by (unfold sop_is; by rewrite E1). rewrite Ex. destruct (sop_is id r); simpl; [by apply IH|]. rewrite filter_where_cons, Es, !fmap_cons. f_equal; [unfold sop_shown; congruence|by apply IH].
    + intros E. destruct (sop_is id r); simpl; [by apply IH|]. rewrite filter_where_cons, Es. by apply IH.
Qed.

Lemma NoDup_fmap_filter {A B} (f : A → B) p l : NoDup (f <$> l) → NoDup (f <$> filter_where p l).
Proof.
  induction l as [|x l IH]; [done|]. rewrite filter_where_cons, fmap_cons. intros [Hx Hl]%NoDup_cons. destruct (p x); [|by apply IH].
  rewrite fmap_cons. apply NoDup_cons. split; [|by apply IH]. intros (y & E & [_ Hy]%elem_of_filter_where)%list_elem_of_fmap. apply Hx. rewrite E. by apply list_elem_of_fmap_2.
Qed.

Lemma rows_follow_sub used rows p : rows_follow used rows (filter_where p rows).
Proof. intros r Hr _. apply elem_of_filter_where in Hr as [_ Hr]. by exists r. Qed.

Lemma rows_follow_append used rows r : pr_id r ∉ used → rows_follow used rows (rows ++ [r])%list.
Proof. intros Hn r' Hr Hu. apply elem_of_app in Hr as [Hr|Hr%list_elem_of_singleton]; [by exists r'|by subst]. Qed.

Lemma elem_of_update id now k r' rows : r' ∈ UpdateSiteSOP now id k rows → ∃ r, r ∈ rows ∧ r' = if sop_is id r then set_sop now k r else r.
Proof. unfold UpdateSiteSOP, map_where. intros Hr. apply list_elem_of_fmap in Hr as (r & -> & Hr). by exists r. Qed.

Lemma rows_follow_update used rows id now k : (∀ r, r ∈ rows → pr_id r = id → pr_contacts r = cq_contacts k) → rows_follow used rows (UpdateSiteSOP now id k rows).
Proof.
  intros Hc r' Hr _. apply elem_of_update in Hr as (r & Hr & ->). exists r. split; [done|]. destruct (sop_is id r) eqn:E; [|done]. apply String.eqb_eq in E. split_and!; try done. by apply Hc.
Qed.

(** The table while the dialog is open: distinct ids, all of them used, and [other] for the
    other sites. *)
Record sop_table_ok (site : string) (other rows : list SopRow) (used : list string) : Prop := mkTableOk {
  to_ids : NoDup (pr_id <$> rows);
  to_used : ∀ r, r ∈ rows → pr_id r ∈ used;
  to_objects : ∀ r, r ∈ rows → objects (pr_contacts r);
  to_other : filter_where (λ r, negb (String.eqb (pr_site_id r) site)) rows = other
}.

(** What is known of a row that the page holds or will hold: the table has no other site and no
    other contacts under its id. *)
Definition sop_known (site : string) (rows : list SopRow) (used : list string) (r : SopRow) : Prop :=
  pr_id r ∈ used ∧ objects (pr_contacts r) ∧ ∀ r', r' ∈ rows → pr_id r' = pr_id r → pr_site_id r' = site ∧ pr_contacts r' = pr_contacts r.
Definition known_reply (site : string) (rows : list SopRow) (used : list string) (a : SopReply) : Prop :=
  match a with SoList l => Forall (sop_known site rows used) l | SoRow r => sop_known site rows used r | _ => True end.

Lemma known_follows site rows rows' used used' r : rows_follow used rows rows' → used ⊆ used' → sop_known site rows used r → sop_known site rows' used' r.
Proof.
  intros Hf Hu (H1 & H2 & H3). split_and!; [by apply Hu|done|]. intros r' Hr E. destruct (Hf r' Hr) as (r0 & H0 & E0 & <- & <-); [by rewrite E|]. apply H3; [done|congruence].
Qed.

Lemma known_reply_follows site rows rows' used used' a : rows_follow used rows rows' → used ⊆ used' → known_reply site rows used a → known_reply site rows' used' a.
Proof. intros Hf Hu. destruct a; simpl; [intros H; eapply Forall_impl; [exact H|]; intros r|..]; by eauto using known_follows. Qed.

Lemma known_row site other rows used r : sop_table_ok site other rows used → r ∈ rows → pr_site_id r = site → sop_known site rows used r.
Proof.
  intros [H1 H2 H3 _] Hr Hs. split_and!; [by apply H2|by apply H3|]. intros r' Hr' E. by rewrite (row_unique rows r' r).
Qed.

(** *** The list as it is shown *)

Definition shown_is (id : string) (v : shown_row) : bool := String.eqb v.1.1.1.1.1.1 id.
Definition shown_edit (f : SopForm) (steps : list string) (v : shown_row) : shown_row :=
  let '(i, s, _, _, _, _, k) := v in (i, s, sf_title f, sf_category f, sf_priority f, steps, k).

(** Whether the page is loading, and its list. *)
Definition sop_view (s : SopModal) : bool * list shown_row := (so_loading s, sop_shown <$> so_list s).

Definition view_resume (a : SopTask * SopReply) (v : bool * list shown_row) : bool * list shown_row :=
  match a with
  | (StLoad, SoList l) => (false, sop_shown <$> l)
  | (StCreate, SoRow x) => (v.1, v.2 ++ [sop_shown x])%list
  | (StDelete id, SoDone) => (v.1, filter_where (λ r, negb (shown_is id r)) v.2)
  | (StSave id f steps, SoDone) => (v.1, map_where (shown_is id) (shown_edit f steps) v.2)
  | _ => v
  end.

Lemma shown_deleted id l : sop_shown <$> filter_where (λ r, negb (sop_is id r)) l = filter_where (λ r, negb (shown_is id r)) (sop_shown <$> l).
Proof. induction l as [|r l IH]; [done|]. rewrite fmap_cons, !filter_where_cons. change (shown_is id (sop_shown r)) with (sop_is id r). destruct (sop_is id r); cbn [negb]; by rewrite ?fmap_cons, IH. Qed.

Lemma shown_edited id now f steps l : sop_shown <$> map_where (sop_is id) (edited_sop now f steps) l = map_where (shown_is id) (shown_edit f steps) (sop_shown <$> l).
Proof.
  unfold map_where. rewrite <- !list_fmap_compose. apply list_fmap_ext. intros i r _. simpl. change (shown_is id (sop_shown r)) with (sop_is id r). by destruct (sop_is id r).
Qed.

Lemma view_resumes now t r s : sop_view (sop_resume now t r s) = view_resume (t, r) (sop_view s).
Proof.
  unfold sop_view. destruct t, r; try done; simpl; f_equal; [by rewrite fmap_app|apply shown_deleted|apply shown_edited].
Qed.

Lemma view_hear_all now ans s : sop_view (hear_all now ans s) = foldl (λ v a, view_resume a v) (sop_view s) ans.
Proof. unfold hear_all. revert s. induction ans as [|[t r] ans IH]; intros s; [done|]. simpl. by rewrite IH, view_resumes. Qed.










(** *** One request *)

(** Serving a request keeps the table in order, and the answer makes of the list that the page
    would show the list that the server then holds. *)
Lemma serve_pending sites site other rows used t c id now r rows' :
  sop_table_ok site other rows used → sop_pending site rows used t c → id ∉ used → serve_sop sites id now c rows = (r, rows') →
  sop_table_ok site other rows' (id :: used) ∧ rows_follow used rows rows' ∧ known_reply site rows' (id :: used) r ∧
  (∀ v, (v.1 = false → v.2 = sop_shown <$> ListSiteSOPs site rows) → (view_resume (t, r) v).1 = false → (view_resume (t, r) v).2 = sop_shown <$> ListSiteSOPs site rows').
Proof.
  intros Hok Hp Hid Hs. assert (Hok' := Hok). destruct Hok' as [H1 H2 H3 H4]. assert (Hsub : used ⊆ id :: used) by (intros x Hx; by right).
  assert (Hkeep : sop_table_ok site other rows (id :: used)) by (split; try done; intros x Hx; right; by apply H2).
  assert (Hfail : r = SoFails → rows' = rows → sop_table_ok site other rows' (id :: used) ∧ rows_follow used rows rows' ∧ known_reply site rows' (id :: used) r ∧
    (∀ v, (v.1 = false → v.2 = sop_shown <$> ListSiteSOPs site rows) → (view_resume (t, r) v).1 = false → (view_resume (t, r) v).2 = sop_shown <$> ListSiteSOPs site rows')).
  { intros -> ->. split_and!; [done|apply rows_follow_refl|done|]. by destruct t. }
  destruct t as [| |i0|i0 f steps], c as [st|st body|i'|i']; try done; cbn [sop_pending] in Hp; simpl in Hs.
  - subst st. injection Hs as <- <-. split_and!; [done|apply rows_follow_refl| |done]. apply Forall_forall. intros x [E%String.eqb_eq Hx]%elem_of_filter_where. by eapply known_row.
  - destruct Hp as (-> & k & Hd & Ho). unfold HandleCreateSiteSOP in Hs. rewrite Hd in Hs. unfold CreateSiteSOP in Hs. destruct (existsb _ _ || negb _) eqn:Ex.
    { injection Hs as <- <-. by apply Hfail. }
    injection Hs as <- <-. set (r := mkSopRow id site _ _ _ _ _ _ _). clear Hfail.
    assert (Hok' : sop_table_ok site other (rows ++ [r])%list (id :: used)).
    { split.
      - rewrite fmap_app. apply NoDup_app. split; [done|]. split; [|apply NoDup_singleton]. intros x Hx Hx'%list_elem_of_singleton. subst x. apply list_elem_of_fmap in Hx as (y & Ey & Hy). apply Hid. simpl in Ey. rewrite Ey. by apply H2.
      - intros x [Hx|Hx%list_elem_of_singleton]%elem_of_app; [right; by apply H2|subst; by left].
      - intros x [Hx|Hx%list_elem_of_singleton]%elem_of_app; [by apply H3|by subst].
      - by rewrite other_append. }
    split_and!; [done|by apply rows_follow_append|eapply known_row; [done|set_solver|done]|]. intros v Hv Hl. simpl in *. rewrite Hv by done.
    unfold ListSiteSOPs, filter_where. rewrite filter_app, fmap_app. f_equal. rewrite filter_cons. simpl. by rewrite String.eqb_refl.
  - destruct Hp as (<- & _ & Hsite). injection Hs as <- <-. clear Hfail. split_and!; [|by apply rows_follow_sub|done|intros v Hv Hl; simpl in *; rewrite Hv, <- shown_deleted by done; by apply shown_delete].
    split; [by apply NoDup_fmap_filter|intros x [_ Hx]%elem_of_filter_where; right; by apply H2|intros x [_ Hx]%elem_of_filter_where; by apply H3|].
    rewrite <- H4. clear -Hsite. unfold DeleteSiteSOP. induction rows as [|x rows IH]; [done|]. rewrite !filter_where_cons.
    assert (Hrest : ∀ r, r ∈ rows → pr_id r = i0 → pr_site_id r = site) by (intros r Hr E; apply Hsite; [by right|done]). specialize (IH Hrest). rename IH into IH'.
    destruct (sop_is i0 x) eqn:Ex; cbn [negb].
    + apply String.eqb_eq in Ex. rewrite (Hsite x) by (done || by left). by rewrite String.eqb_refl.
    + rewrite filter_where_cons. by rewrite IH'.
  - destruct Hp as (<- & _ & Hsite & k & Hd & Ho & K1 & K2 & K3 & K4 & Hc). unfold HandleUpdateSiteSOP in Hs. rewrite Hd in Hs. injection Hs as <- <-. clear Hfail.
    split_and!; [|by apply rows_follow_update|done|intros v Hv Hl; simpl in *; rewrite Hv, <- (shown_edited _ EmptyString) by done; by eapply shown_update].
    split.
    + unfold UpdateSiteSOP. rewrite fmap_map_where by done. done.
    + intros x (y & Hy & ->)%elem_of_update. right. pose proof (H2 y Hy). by destruct (sop_is i0 y).
    + intros x (y & Hy & ->)%elem_of_update. destruct (sop_is i0 y); [done|by apply H3].
    + rewrite <- H4. clear -Hsite. unfold UpdateSiteSOP. induction rows as [|x rows IH]; [done|].
      change (map_where ?p ?g (x :: rows)) with ((if p x then g x else x) :: map_where p g rows). rewrite !filter_where_cons, IH by (intros r Hr E; apply Hsite; [by right|done]).
      destruct (sop_is i0 x) eqn:Ex; [|done]. apply String.eqb_eq in Ex. simpl. rewrite (Hsite x) by (done || by left). by rewrite String.eqb_refl.
Qed.

(** A click leaves the list as it is and starts one request at most, for what the page lists. *)
Lemma click_pending site rows used e s s' q : (∀ i now r, e ≠ SoSettles i now r) → sop_step site e s = (s', q) → Forall (sop_known site rows used) (so_list s) →
  so_list s' = so_list s ∧ so_loading s' = so_loading s ∧
  (q = [] ∧ so_tasks s' = so_tasks s ∨ ∃ t c, q = [c] ∧ so_tasks s' = (so_tasks s ++ [t])%list ∧ sop_pending site rows used t c).
Proof.
  intros He E Hk. rewrite Forall_forall in Hk.
  assert (Hsame : ∀ s0, (s0, []) = (s', q) → so_tasks s0 = so_tasks s → so_list s0 = so_list s → so_loading s0 = so_loading s →
    so_list s' = so_list s ∧ so_loading s' = so_loading s ∧
    (q = [] ∧ so_tasks s' = so_tasks s ∨ ∃ t c, q = [c] ∧ so_tasks s' = (so_tasks s ++ [t])%list ∧ sop_pending site rows used t c)).
  { intros s0 [= -> <-] Ht Hl Hb. split_and!; [done..|by left]. }
  assert (Hlisted : ∀ id r, listed id s = Some r → find_where (sop_is id) (so_list s) = Some r ∧ pr_id r = id ∧ r ∈ so_list s).
  { intros id r. unfold listed. destruct (so_loading s); [done|]. intros Hr. assert (H := Hr). apply find_where_Some in H as [Ei%String.eqb_eq Hin]. done. }
  destruct e as [| |f| |id|id|id|f| | |i now r]; simpl in E; [| | | | | | | | | |by destruct (He i now r)].
  - by eapply Hsame.
  - destruct (so_adding s); by eapply Hsame.
  - destruct (so_adding s); by eapply Hsame.
  - destruct (so_adding s); [|by eapply Hsame]. unfold handleAddSOP in E. destruct (truthy_str _); [|by eapply Hsame].
    injection E as <- <-. split_and!; [done..|]. right. do 2 eexists. split_and!; [done..|]. cbn [sop_pending]. split; [done|]. eexists. split; [apply decode_sop_body; [done|right; by exists site]|done].
  - destruct (listed id s); by eapply Hsame.
  - destruct (listed id s); by eapply Hsame.
  - destruct (listed id s) as [r|] eqn:El; [|by eapply Hsame]. destruct (Hlisted _ _ El) as (_ & <- & Hin). destruct (Hk r Hin) as (Hu & _ & Hr).
    unfold handleDeleteSOP in E. injection E as <- <-. split_and!; [done..|]. right. do 2 eexists. split_and!; [done..|]. simpl. split_and!; [done..|]. intros r' Hr' Ei. by apply Hr.
  - destruct (edit_open s); by eapply Hsame.
  - destruct (edit_open s); by eapply Hsame.
  - destruct (edit_open s) as [r|] eqn:Eo; [|by eapply Hsame]. destruct (truthy_str _); [|by eapply Hsame].
    assert (El : ∃ id, listed id s = Some r) by (unfold edit_open in Eo; destruct (so_editing s); [|done]; destruct (bool_decide _); [by eexists|done]).
    destruct El as (id & El). destruct (Hlisted _ _ El) as (Ef & <- & Hin). destruct (Hk r Hin) as (Hu & Ho & Hr). unfold handleSaveEdit in E. rewrite Ef in E. injection E as <- <-.
    split_and!; [done..|]. right. do 2 eexists. split_and!; [done..|]. cbn [sop_pending]. split_and!; [done|done|intros r' H1 H2; by apply Hr|].
    eexists. split; [apply decode_sop_body; [done|by left]|]. simpl. split_and!; try done. intros r' H1 H2. by apply Hr.
Qed.

(** What follows an answer leaves the page with known rows. *)
Lemma resume_known site rows used now t r s : known_reply site rows used r → Forall (sop_known site rows used) (so_list s) → Forall (sop_known site rows used) (so_list (sop_resume now t r s)).
Proof.
  intros Hr Hs. destruct t, r; try done; simpl in *.
  - apply Forall_app. split; [done|by constructor].
  - rewrite Forall_forall in Hs. apply Forall_forall. intros x [_ Hx]%elem_of_filter_where. by apply Hs.
  - rewrite Forall_forall in Hs. apply Forall_forall. intros x Hx. unfold map_where in Hx. apply list_elem_of_fmap in Hx as (y & -> & Hy). destruct (sop_is id y); exact (Hs y Hy).
Qed.

Lemma settles site i now r t s : so_tasks s !! i = Some t → (sop_step site (SoSettles i now r) s).1 = sop_resume now t r (upd_sop_tasks (delete i (so_tasks s)) s).
Proof. simpl. by intros ->. Qed.

Lemma resume_tasks now t r s : so_tasks (sop_resume now t r s) = so_tasks s.
Proof. by destruct t, r. Qed.

(** *** The dialog with its server *)

(** What holds in every run. *)
Record sops_inv (site : string) (other : list SopRow) (x : SopSystem) : Prop := mkSopsInv {
  si_table : sop_table_ok site other (sm_rows x) (sm_used x);
  si_sent : Forall (λ p, sop_pending site (sm_rows x) (sm_used x) p.1 p.2) (sm_sent x);
  si_stray : Forall (λ p, sop_pending site (sm_rows x) (sm_used x) p.1 p.2) (sm_stray x);
  si_list : Forall (sop_known site (sm_rows x) (sm_used x)) (so_list (sm_modal x));
  si_answers : Forall (λ a, known_reply site (sm_rows x) (sm_used x) a.2) (sm_answers x);
  si_tasks : so_tasks (sm_modal x) ≡ₚ ((sm_sent x).*1 ++ (sm_answers x).*1)%list
}.


Lemma take_away {A B} (k i : nat) (x : A * B) (l : list (A * B)) (ts rest : list A) : l !! k = Some x → ts !! i = Some x.1 →
  ts ≡ₚ (l.*1 ++ rest)%list → delete i ts ≡ₚ ((delete k l).*1 ++ rest)%list.
Proof.
  intros Hk Hi Hp. apply (Permutation_cons_inv (a := x.1)). rewrite <- (delete_Permutation ts i) by done. rewrite Hp. by rewrite (delete_Permutation l k x) at 1 by done.
Qed.

Lemma served_inv sites site other t c id now r rows' used' x y :
  sop_pending site (sm_rows x) (sm_used x) t c → id ∉ sm_used x → serve_sop sites id now c (sm_rows x) = (r, rows') → used' = id :: sm_used x →
  sm_rows y = rows' → sm_used y = used' → sm_modal y = sm_modal x → sm_sent y ⊆ sm_sent x → sm_stray y ⊆ sm_stray x →
  sm_answers y ⊆ (sm_answers x ++ [(t, r)])%list → so_tasks (sm_modal y) ≡ₚ ((sm_sent y).*1 ++ (sm_answers y).*1)%list → sops_inv site other x → sops_inv site other y.
Proof.
  intros Hp Hid Hs -> Er Eu Em Hsent Hstray Hans Ht [H1 H2 H3 H4 H5 _]. destruct (serve_pending _ _ _ _ _ _ _ _ _ _ _ H1 Hp Hid Hs) as (Hok & Hf & Hr & _).
  assert (Hu : sm_used x ⊆ id :: sm_used x) by (intros z Hz; by right). rewrite Forall_forall in H2; rewrite Forall_forall in H3; rewrite Forall_forall in H4; rewrite Forall_forall in H5.
  split; rewrite ?Er, ?Eu, ?Em; try done; rewrite ?Forall_forall.
  - intros p Hin. eapply pending_follows; [done|done|by apply H2, Hsent].
  - intros p Hin. eapply pending_follows; [done|done|by apply H3, Hstray].
  - intros p Hin. eapply known_follows; [done|done|by apply H4].
  - intros a Hin%Hans. apply elem_of_app in Hin as [Hin| ->%list_elem_of_singleton]; [|done]. eapply known_reply_follows; [done|done|by apply H5].
  - by rewrite <- Em.
Qed.

(** A request or an answer leaves the page with an answer that is known, or a failure. *)
Lemma settled_inv site other i t now r x y : so_tasks (sm_modal x) !! i = Some t → known_reply site (sm_rows x) (sm_used x) r →
  sm_modal y = (sop_step site (SoSettles i now r) (sm_modal x)).1 → sm_rows y = sm_rows x → sm_used y = sm_used x →
  sm_sent y ⊆ sm_sent x → sm_stray y ⊆ (sm_stray x ++ sm_sent x)%list → sm_answers y ⊆ sm_answers x →
  delete i (so_tasks (sm_modal x)) ≡ₚ ((sm_sent y).*1 ++ (sm_answers y).*1)%list → sops_inv site other x → sops_inv site other y.
Proof.
  intros Hi Hr Em Er Eu Hsent Hstray Hans Ht [H1 H2 H3 H4 H5 _]. rewrite (settles _ _ _ _ _ _ Hi) in Em. rewrite Forall_forall in H2; rewrite Forall_forall in H3; rewrite Forall_forall in H5.
  split; rewrite ?Er, ?Eu, ?Em; try done; rewrite ?Forall_forall.
  - intros p Hin. by apply H2, Hsent.
  - intros p [Hin|Hin]%Hstray%elem_of_app; [by apply H3|by apply H2].
  - apply Forall_forall. by apply resume_known.
  - intros a Hin. by apply H5, Hans.
  - by rewrite resume_tasks.
Qed.

Lemma delete_subseteq {A} k (l : list A) : delete k l ⊆ l.
Proof. intros x Hx. by apply elem_of_delete_1 in Hx. Qed.

Lemma sops_step_inv sites site other b x y : sop_system_step sites site b x y → sops_inv site other x → sops_inv site other y.
Proof.
  intros Hs Hx. assert (Hx' := Hx). destruct Hx' as [H1 H2 H3 H4 H5 H6].
  destruct Hs as [e s s' q sent stray ans rows used He E|k t c id now r s sent stray ans rows rows' used Hk Hid Hs|k i t r now s sent stray ans rows used Hk Hi
    |k i t c now s sent stray ans rows used Hk Hi|k i t c now s sent stray ans rows used Hk Hi|k t c id now r s sent stray ans rows rows' used Hk Hid Hs|k i t r now s sent stray ans rows used Hk Hi]; simpl in *.
  - destruct (click_pending _ _ _ _ _ _ _ He E H4) as (El & _ & [[-> Et]|(t & c & -> & Et & Hp)]).
    + rewrite zip_with_nil_r, app_nil_r. split; simpl; rewrite ?El, ?Et; done.
    + rewrite Et, drop_app_length. split; simpl; rewrite ?El, ?Et; try done.
      * apply Forall_app. split; [done|by repeat constructor].
      * rewrite fmap_app, H6. simpl. rewrite <- !app_assoc. apply Permutation_app_head, Permutation_app_comm.
  - rewrite Forall_forall in H2. eapply (served_inv sites site other t c id now r rows' (id :: used) (mkSopSystem s sent stray ans rows used)); simpl; try done;
      [exact (H2 _ (list_elem_of_lookup_2 _ _ _ Hk))|apply delete_subseteq|].
    rewrite H6, fmap_app. rewrite (delete_Permutation sent k) at 1 by done. simpl. rewrite app_assoc. apply Permutation_cons_append.
  - rewrite Forall_forall in H5. eapply (settled_inv site other i t now r (mkSopSystem s sent stray ans rows used)); simpl; try done; [exact (H5 _ (list_elem_of_lookup_2 _ _ _ Hk))|set_solver|apply delete_subseteq|].
    rewrite (Permutation_app_comm sent.*1). eapply take_away; [exact Hk|exact Hi|]. by rewrite H6, Permutation_app_comm.
  - eapply (settled_inv site other i t now SoFails (mkSopSystem s sent stray ans rows used)); simpl; try done; [apply delete_subseteq|set_solver|]. by eapply take_away.
  - eapply (settled_inv site other i t now SoFails (mkSopSystem s sent stray ans rows used)); simpl; try done; [apply delete_subseteq| |by eapply take_away].
    intros p [Hp|Hp%list_elem_of_singleton]%elem_of_app; apply elem_of_app; [by left|right]. subst. by eapply list_elem_of_lookup_2.
  - rewrite Forall_forall in H3. eapply (served_inv sites site other t c id now r rows' (id :: used) (mkSopSystem s sent stray ans rows used)); simpl; try done;
      [exact (H3 _ (list_elem_of_lookup_2 _ _ _ Hk))|apply delete_subseteq|set_solver].
  - eapply (settled_inv site other i t now SoFails (mkSopSystem s sent stray ans rows used)); simpl; try done; [set_solver|apply delete_subseteq|].
    rewrite (Permutation_app_comm sent.*1). eapply take_away; [exact Hk|exact Hi|]. by rewrite H6, Permutation_app_comm.
Qed.


Lemma settled_view site i t now r s : so_tasks s !! i = Some t → sop_view (sop_step site (SoSettles i now r) s).1 = view_resume (t, r) (sop_view s).
Proof. intros Hi. rewrite (settles _ _ _ _ _ _ Hi). by rewrite view_resumes. Qed.







(** From every state of a run the page can hear all the answers on their way, in the order of
    the server; the table is untouched by it. *)
Lemma sops_settle_down sites site other x : sops_inv site other x → ∀ now, ∃ s,
  rtc (sop_system_step sites site true) x (mkSopSystem s (sm_sent x) (sm_stray x) [] (sm_rows x) (sm_used x)) ∧ sop_view s = sop_view (hear_all now (sm_answers x) (sm_modal x)).
Proof.
  remember (sm_answers x) as ans eqn:E. revert x E. induction ans as [|[t r] ans IH]; intros x E Hx now.
  - exists (sm_modal x). split; [|done]. destruct x; simpl in *. subst. apply rtc_refl.
  - assert (Hi : ∃ i, so_tasks (sm_modal x) !! i = Some t).
    { apply list_elem_of_lookup. rewrite (si_tasks _ _ _ Hx), <- E. set_solver. }
    destruct Hi as [i Hi]. destruct x as [s sent stray ans' rows used]; simpl in *. subst ans'.
    assert (Hstep : sop_system_step sites site true (mkSopSystem s sent stray ((t, r) :: ans) rows used) (mkSopSystem (sop_step site (SoSettles i now r) s).1 sent stray ans rows used)).
    { by apply (sops_heard _ _ 0 i t r now s sent stray ((t, r) :: ans)). }
    destruct (IH (mkSopSystem (sop_step site (SoSettles i now r) s).1 sent stray ans rows used) eq_refl (sops_step_inv _ _ _ _ _ _ Hstep Hx) now) as (s' & Hs & Hv). exists s'. split; [by eapply rtc_l|].
    rewrite Hv, !view_hear_all. cbn [sm_modal]. rewrite (settled_view _ _ _ _ _ _ Hi). by rewrite view_resumes.
Qed.

(** *** Answers out of order *)

Definition titled (id title : string) (l : list SopRow) : Prop := ∀ r, r ∈ l → pr_id r = id → pr_title r = title.

Lemma titled_update id now k l : titled id (cq_title k) (UpdateSiteSOP now id k l).
Proof. intros r (r0 & H0 & ->)%elem_of_update. destruct (sop_is id r0) eqn:E; [done|]. intros Ei. by apply String.eqb_neq in E. Qed.

Lemma titled_edited id now f steps l : titled id (sf_title f) (map_where (sop_is id) (edited_sop now f steps) l).
Proof.
  intros r Hr. unfold map_where in Hr. apply list_elem_of_fmap in Hr as (r0 & -> & H0). destruct (sop_is id r0) eqn:E; [done|]. intros Ei. by apply String.eqb_neq in E.
Qed.

(** The condition on the order is needed.  Of two saves of one procedure whose answers come in
    the other order, the page keeps the title of the first and the server that of the second;
    and of a save that is served and whose answer is lost, the page keeps what it had.  Nothing
    on the page then tells that it is not what the server holds. *)
Theorem sops_overtaken (sites : list string) (site id : string) (f1 f2 : SopForm) (st1 st2 : list string) (b1 b2 : json) (k1 k2 : SOPCreate) (s : SopModal) (rows : list SopRow) (used : list string) :
  decode_sop b1 = Some k1 → decode_sop b2 = Some k2 → cq_title k1 = sf_title f1 → cq_title k2 = sf_title f2 →
  so_tasks s = [StSave id f1 st1; StSave id f2 st2] →
  (∃ s' rows' used', rtc (sop_any_step sites site) (mkSopSystem s [(StSave id f1 st1, CallUpdate id b1); (StSave id f2 st2, CallUpdate id b2)] [] [] rows used) (mkSopSystem s' [] [] [] rows' used') ∧
     titled id (sf_title f1) (so_list s') ∧ titled id (sf_title f2) rows' ∧ pr_id <$> rows' = pr_id <$> rows) ∧
  (∃ s' rows' used', rtc (sop_any_step sites site) (mkSopSystem s [(StSave id f1 st1, CallUpdate id b1); (StSave id f2 st2, CallUpdate id b2)] [] [] rows used)
       (mkSopSystem s' [(StSave id f2 st2, CallUpdate id b2)] [] [] rows' used') ∧
     so_list s' = so_list s ∧ titled id (sf_title f1) rows' ∧ pr_id <$> rows' = pr_id <$> rows).
Proof.
  intros D1 D2 T1 T2 Ht. assert (Hany : ∀ b x y, sop_system_step sites site b x y → sop_any_step sites site x y) by (intros b x y H; by exists b).
  assert (F1 := infinite_is_fresh used). set (n1 := infinite_fresh used) in *. assert (F2 := infinite_is_fresh (n1 :: used)). set (n2 := infinite_fresh (n1 :: used)) in *.
  assert (Hids : ∀ k l, pr_id <$> UpdateSiteSOP EmptyString id k l = pr_id <$> l) by (intros k l; unfold UpdateSiteSOP; by rewrite fmap_map_where).
  assert (S1 : ∀ n b k l, decode_sop b = Some k → serve_sop sites n EmptyString (CallUpdate id b) l = (SoDone, UpdateSiteSOP EmptyString id k l)).
  { intros n b k l Hd. simpl. unfold HandleUpdateSiteSOP. by rewrite Hd. }
  set (s2 := (sop_step site (SoSettles 1 EmptyString SoDone) s).1).
  assert (H0 : so_tasks s2 !! 0%nat = Some (StSave id f1 st1)).
  { unfold s2. rewrite (settles _ 1 _ _ (StSave id f2 st2)) by (by rewrite Ht). rewrite resume_tasks. simpl. by rewrite Ht. }
  split; do 3 eexists.
  - split.
    + eapply rtc_l; [eapply Hany, (sops_served _ _ 0); [reflexivity|exact F1|by apply S1]|].
      eapply rtc_l; [eapply Hany, (sops_served _ _ 0); [reflexivity|exact F2|by apply S1]|].
      eapply rtc_l; [eapply Hany, (sops_heard _ _ 1 1 _ _ EmptyString); [reflexivity|by rewrite Ht]|].
      eapply rtc_l; [eapply Hany, (sops_heard _ _ 0 0 _ _ EmptyString); [reflexivity|exact H0]|apply rtc_refl].
    + split_and!; [|rewrite <- T2; apply titled_update|by rewrite !Hids].
      change (titled id (sf_title f1) (so_list (sop_step site (SoSettles 0 EmptyString SoDone) s2).1)). rewrite (settles _ _ _ _ _ _ H0). apply titled_edited.
  - split.
    + eapply rtc_l; [eapply Hany, (sops_served _ _ 0); [reflexivity|exact F1|by apply S1]|].
      eapply rtc_l; [eapply Hany, (sops_answer_lost _ _ 0 0 _ _ EmptyString); [reflexivity|by rewrite Ht]|apply rtc_refl].
    + split_and!; [|rewrite <- T1; apply titled_update|by rewrite Hids]. by rewrite (settles _ 0 _ _ (StSave id f1 st1)) by (by rewrite Ht).
Qed.

(** *** The alert rules *)

(** A request under way has no route and is the load or a creation. *)
Definition rule_pending (t : RuleTask) (c : RuleCall) : Prop :=
  served (rl_method c) (rl_url c) = false ∧ (t = RlLoad ∧ rl_method c = "GET" ∨ t = RlCreate ∧ rl_method c = "POST").
Definition rules_inv (x : RulesModal * list RuleCall) : Prop :=
  rm_rules x.1 = [] ∧ rm_loading x.1 = true ∧ Forall2 rule_pending (rm_tasks x.1) x.2.

Lemma rules_inv_same s s' q : rm_rules s' = rm_rules s → rm_loading s' = rm_loading s → rm_tasks s' = rm_tasks s → rules_inv (s, q) → rules_inv (s', q ++ [])%list.
Proof. unfold rules_inv; simpl. intros -> -> ->. by rewrite app_nil_r. Qed.

Lemma rules_step_inv site x e : plain_segment site → refused_when_unserved x e → rules_inv x → rules_inv (rules_system_step site x e).
Proof.
  intros Hsite He Hx. destruct (rules_unserved site Hsite) as [Hget Hpost]. destruct x as [s q]. unfold rules_system_step.
  destruct e as [| |n|n|n|n|n| |i|i r| |id|i r]; cbn [alert_rules_step fst snd]; try (destruct (rm_creating s); by eapply rules_inv_same).
  - destruct (_ && _ && _); [|by eapply rules_inv_same]. destruct Hx as (H1 & H2 & H3). split; [done|]. split; [done|]. apply Forall2_app; [done|]. constructor; [split; [done|by right]|constructor].
  - destruct (includes id (rm_rules s)) eqn:E; [|by eapply rules_inv_same]. destruct Hx as (H1 & _). simpl in H1. by rewrite H1 in E.
  - destruct Hx as (H1 & H2 & H3). simpl in *. destruct (rm_tasks s !! i) as [t|] eqn:Et; simpl; rewrite app_nil_r.
    + destruct (Forall2_lookup_l _ _ _ _ _ H3 Et) as (c & Hc & Hs & Ht). rewrite Hc in He. rewrite (He Hs).
      assert (Hd : Forall2 rule_pending (delete i (rm_tasks s)) (delete i q)).
      { rewrite !delete_take_drop. apply Forall2_app; [by apply Forall2_take|by apply Forall2_drop]. }
      by destruct Ht as [[-> _]|[-> _]].
    + assert (Hq : (length q ≤ i)%nat) by (rewrite <- (Forall2_length _ _ _ H3); by apply lookup_ge_None). rewrite delete_take_drop, take_ge, drop_ge, app_nil_r by lia. done.
Qed.

(** No alert rule is ever stored or shown.  The dialog's requests have no route on the
    server: whatever is entered and in whatever order the requests are answered, the
    dialog says it is loading, lists nothing and asks for no deletion; a rule that is
    submitted is refused without a word and stays in the form. *)
Theorem rules_never_stored (site : string) (es : list RuleEvent) :
  plain_segment site → rules_run_ok site es (mount_alert_rules site) →
  let x := foldl (rules_system_step site) (mount_alert_rules site) es in
  rm_rules x.1 = [] ∧ rm_loading x.1 = true ∧
  Forall (λ c, served (rl_method c) (rl_url c) = false) x.2 ∧
  (∀ i c, x.2 !! i = Some c → rl_method c = "POST" →
     let y := (alert_rules_step site (RlSettles i RlFails) x.1).1 in rm_form y = rm_form x.1 ∧ rm_creating y = rm_creating x.1 ∧ rm_saving y = false).
Proof.
  intros Hsite Hes. assert (Hinv : rules_inv (foldl (rules_system_step site) (mount_alert_rules site) es)).
  { assert (H0 : rules_inv (mount_alert_rules site)).
    { split; [done|]. split; [done|]. constructor; [split; [exact (proj1 (rules_unserved site Hsite))|left; by split]|constructor]. }
    revert Hes H0. generalize (mount_alert_rules site). induction es as [|e es IH]; intros x Hes Hx; [done|]. destruct Hes as [He Hes]. simpl. apply IH; [done|]. by apply rules_step_inv. }
  cbv zeta. destruct Hinv as (H1 & H2 & H3). split; [done|]. split; [done|]. split.
  - clear -H3. induction H3 as [|t c ts cs [H _] _ IH]; by constructor.
  - intros i c Hc Hm. destruct (Forall2_lookup_r _ _ _ _ _ H3 Hc) as (t & Ht & _ & Hk). cbn [alert_rules_step]. rewrite Ht. by destruct Hk as [[-> E]|[-> _]]; [rewrite Hm in E|].
Qed.

Lemma rules_never_stored_witness :
  let es := [RlNew; RlName "Night"; RlCreateClick; RlSettles 0 RlFails; RlSettles 0 RlFails] in
  let x := foldl (rules_system_step "S1") (mount_alert_rules "S1") es in
  plain_segment "S1" ∧ rm_rules x.1 = [] ∧ rm_loading x.1 = true ∧ rf_name (rm_form x.1) = "Night".
Proof.
  intros es x. assert (Hs : plain_segment "S1").
  { split; [done|]. intros c Hc. vm_compute in Hc. repeat (apply elem_of_cons in Hc as [-> |Hc]; [done|]). by apply not_elem_of_nil in Hc. }
  split; [exact Hs|]. destruct (rules_never_stored "S1" es Hs) as (H1 & H2 & _).
  - vm_compute. repeat split.
  - split; [exact H1|]. split; [exact H2|reflexivity].
Defined.

(** *** Editing and grouping *)

Lemma join_lines_cons x l : l ≠ [] → join_lines (x :: l) = x +:+ String "010"%char (join_lines l).
Proof. unfold join_lines. destruct l as [|y l]; [done|]. intros _. reflexivity. Qed.

Lemma split_join_lines l : l ≠ [] → Forall (λ s, ¬ has_char "010"%char s) l → js_split NEW_LINE (join_lines l) = l.
Proof.
  induction l as [|x l IH]; [done|]. intros _ [Hx Hl]%Forall_cons. destruct l as [|y l]; [by apply split_no_sep|].
  rewrite join_lines_cons by done. unfold NEW_LINE. rewrite split_cons by done. f_equal. by apply IH.
Qed.

Definition solid_steps (l : list string) : list string := filter_where (λ s, truthy_str (trim s)) l.

Lemma steps_roundtrip l : Forall (λ s, ¬ has_char "010"%char s) l → step_lines (join_lines l) = solid_steps l.
Proof. intros H. unfold step_lines. destruct l as [|x l]; [reflexivity|]. by rewrite split_join_lines. Qed.

(** Opening a procedure for editing and saving it as it is sends the server its title,
    category, priority and contacts unchanged, and its steps without the blank ones; the
    author becomes "Admin". *)
Theorem unchanged_edit_exact (site id : string) (s : SopModal) (r : SopRow) :
  listed id s = Some r → Forall (λ x, ¬ has_char "010"%char x) (pr_steps r) → truthy_str (trim (pr_title r)) = true → objects (pr_contacts r) →
  ∃ body, (sop_step site SoSave (sop_step site (SoEdit id) s).1).2 = [CallUpdate (pr_id r) body] ∧
    decode_sop body = Some (mkSOPCreate (pr_title r) (pr_category r) (pr_priority r) (solid_steps (pr_steps r)) (pr_contacts r) "Admin").
Proof.
  intros Hl Hs Ht Ho. cbn [sop_step]. rewrite Hl. unfold startEdit, edit_open, upd_so_edit. cbn [so_editing so_expanded so_edit fst]. rewrite bool_decide_eq_true_2 by done.
  assert (Hid : pr_id r = id) by (unfold listed in Hl; destruct (so_loading s); [done|]; apply find_where_Some in Hl as [E%String.eqb_eq _]; done).
  unfold listed at 1. cbn [so_loading so_list]. unfold listed in Hl. destruct (so_loading s); [done|]. rewrite Hid, Hl. cbn [sf_title]. rewrite Ht.
  unfold handleSaveEdit. cbn [so_edit so_list fst snd sf_title]. rewrite Hid, Hl. eexists. split; [reflexivity|]. rewrite decode_sop_body by (done || by left). cbn [sf_category sf_priority sf_steps].
  by rewrite steps_roundtrip.
Qed.

Lemma unchanged_edit_exact_witness :
  let r := mkSopRow "sop-1" "S1" "Fire" "emergency" "high" ["Call"; "Leave"] [] "t0" "Ann" in
  let s := (sop_step "S1" (SoSettles 0 "t1" (SoList [r])) (mount_sops "S1").1).1 in
  ∃ body, (sop_step "S1" SoSave (sop_step "S1" (SoEdit "sop-1") s).1).2 = [CallUpdate "sop-1" body] ∧
    decode_sop body = Some (mkSOPCreate "Fire" "emergency" "high" ["Call"; "Leave"] [] "Admin").
Proof.
  intros r s. apply (unchanged_edit_exact "S1" "sop-1" s r); [reflexivity| |vm_compute; reflexivity|reflexivity].
  repeat (apply Forall_cons; split; [intros Hc; vm_compute in Hc; repeat (apply elem_of_cons in Hc as [E|Hc]; [discriminate E|]); by apply not_elem_of_nil in Hc|]). constructor.
Defined.

Lemma map_get_set {K V} `{EqDecision K} (k k' : K) (v : V) m : map_get k (map_set k' v m) = if decide (k = k') then Some v else map_get k m.
Proof.
  unfold map_get. induction m as [|[a b] m IH]; simpl.
  - rewrite find_where_cons. simpl. destruct (decide (k = k')) as [->|Hne]; [by rewrite bool_decide_eq_true_2|by rewrite bool_decide_eq_false_2].
  - destruct (decide (k' = a)) as [->|Ha]; rewrite !find_where_cons; simpl.
    + destruct (decide (k = a)) as [->|Hne]; [by rewrite bool_decide_eq_true_2|by rewrite bool_decide_eq_false_2].
    + destruct (bool_decide_reflect (a = k)) as [<-|Hk]; [by rewrite decide_False|exact IH].
Qed.

(** The group of a category is its procedures in the order of the list. *)
Lemma sop_groups_exact l c : default [] (map_get c (sop_groups l)) = filter_where (λ r, bool_decide (pr_category r = c)) l.
Proof.
  induction l as [|r l IH] using rev_ind; [done|]. unfold sop_groups in *. rewrite foldl_app. simpl. rewrite map_get_set.
  unfold filter_where in *. rewrite filter_app, filter_cons. destruct (decide (c = pr_category r)) as [->|Hne].
  - rewrite bool_decide_eq_true_2 by done. simpl. by rewrite IH.
  - rewrite bool_decide_eq_false_2 by done. simpl. by rewrite app_nil_r.
Qed.
