(* ===== verification/SearchServer.v ===== *)
(** * The frame search of the server

    [HandleSearchFrames] of [internal/api/search_frames.go] with its helpers: the request,
    the two queries, the rows they keep, the confidence gate and the order of the answer.
    Text search, text match, ranking and the signing of links are arguments; so is the
    parsing of full time stamps, which no page sends. *)

From S2P Require Import Prelude Types Http IronsightApi AdminConsole EventsPanel JsonText SiteServer Hooks.
From stdpp Require Import pretty.
From Stdlib Require Import Ascii QArith Lqa.
Import Stores.
#[local] Open Scope string_scope.
#[local] Open Scope Z_scope.

(** ** The request *)

Record SearchRequest := mkSearchRequest {
  fq_query : string;
  fq_types : list string;
  fq_sites : list string;
  fq_range : option Range;
  fq_min : Q;
  fq_hours : option Range;
  fq_model : string
}.

(** A pointer to a struct of two strings. *)
Definition go_range (o : option json) : option (option Range) :=
  match o with
  | None | Some JNull => Some None
  | Some (JObj fs) => a ← go_string (jget "start" (JObj fs)); b ← go_string (jget "end" (JObj fs)); Some (Some (mkRange a b))
  | _ => None
  end.

(** A [[]string]; a nil slice is the empty one. *)
Definition go_strings (o : option json) : option (list string) :=
  match o with None | Some JNull => Some [] | Some (JArr l) => mapM (λ j, go_string (Some j)) l | _ => None end.

Definition decode_search (body : json) : option SearchRequest :=
  match body with
  | JObj _ | JNull =>
      q ← go_string (jget "query" body); t ← go_strings (jget "violation_types" body); s ← go_strings (jget "site_ids" body);
      d ← go_range (jget "date_range" body); c ← go_float (jget "confidence_min" body); h ← go_range (jget "time_of_day" body);
      m ← go_string (jget "model" body);
      Some (mkSearchRequest q t s d (default 0%Q c) h m)
  | _ => None
  end.

(** ** Hours and days *)

(** The inner function of [parseTimeOfDay]: a text of at least two bytes that starts with
    a number from 0 to 23. *)
Definition scan_hour (s : string) : option Z :=
  if (String.length s <? 2)%nat then None
  else
    let t := skip_spaces s in
    let signed := match t with String c r => if Ascii.eqb c "-"%char then (-1, r) else if Ascii.eqb c "+"%char then (1, r) else (1, t) | EmptyString => (1, t) end in
    match read_digits 0 0 signed.2 with
    | (v, S _, _) => let h := signed.1 * v in if (h <? 0) || (23 <? h) then None else Some h
    | _ => None
    end.

Definition parseTimeOfDay (t : option Range) : option (Z * Z) :=
  match t with
  | None => None
  | Some r => match scan_hour (rg_start r), scan_hour (rg_end r) with
              | None, None => None
              | s, e => Some (default 0 s, default 23 e)
              end
  end.

(** The clause of both queries; it is left out when there are no hours. *)
Definition in_hours (h : option (Z * Z)) (hour : Z) : bool :=
  match h with
  | None => true
  | Some (s, e) => if s <=? e then (s <=? hour) && (hour <=? e) else (s <=? hour) || (hour <=? e)
  end.

Definition leap (y : Z) : bool := (y mod 4 =? 0) && (negb (y mod 100 =? 0) || (y mod 400 =? 0)).
Definition month_days (y m : Z) : Z := if m =? 2 then (if leap y then 29 else 28) else if includes m [4; 6; 9; 11] then 30 else 31.

(** Days from 1970-01-01 to a date of the Gregorian calendar. *)
Definition days_before_year (y : Z) : Z := 365 * (y - 1970) + ((y - 1) / 4 - (y - 1) / 100 + (y - 1) / 400) - (1969 / 4 - 1969 / 100 + 1969 / 400).
Definition gregorian_day (y m d : Z) : Z :=
  days_before_year y + foldr Z.add 0 (month_days y <$> take (Z.to_nat (m - 1)) [1; 2; 3; 4; 5; 6; 7; 8; 9; 10; 11; 12]) + (d - 1).

Definition digits_value (s : string) : option Z := match read_digits 0 0 s with (v, S _, EmptyString) => Some v | _ => None end.

Definition DAY_US : Z := 86400000000.

(** [time.Parse("2006-01-02", s)], in microseconds. *)
Definition parse_day (s : string) : option Z :=
  if (String.length s =? 10)%nat && String.eqb (String.substring 4 1 s) "-" && String.eqb (String.substring 7 1 s) "-" then
    y ← digits_value (String.substring 0 4 s); m ← digits_value (String.substring 5 2 s); d ← digits_value (String.substring 8 2 s);
    if (1 <=? m) && (m <=? 12) && (1 <=? d) && (d <=? month_days y m) then Some (gregorian_day y m d * DAY_US) else None
  else None.

Section range.
Context (rfc3339 : string → option Z).   (* [time.Parse(time.RFC3339, s)] *)

Definition range_start (s : string) : option Z := if truthy_str s then match parse_day s with Some t => Some t | None => rfc3339 s end else None.
Definition range_end (s : string) : option Z := if truthy_str s then match parse_day s with Some t => Some (t + DAY_US) | None => rfc3339 s end else None.

(** A bound that is [None] is the zero time, which filters nothing. *)
Definition parseDateRange (dr : option Range) : option Z * option Z :=
  match dr with None => (None, None) | Some r => (range_start (rg_start r), range_end (rg_end r)) end.
End range.

Definition opt_bound (o : option Z) (p : Z → bool) : bool := match o with Some t => p t | None => true end.

(** ** Violation flags

    The keys of a map whose values are all true, in the order of their insertion. *)

Definition ppeViolationLabelMap : list (string * string) :=
  [("nohat", "no_hard_hat"); ("no-hat", "no_hard_hat"); ("no_hat", "no_hard_hat");
   ("no-hardhat", "no_hard_hat"); ("no_hardhat", "no_hard_hat"); ("no-hard-hat", "no_hard_hat");
   ("novest", "no_hi_vis"); ("no-vest", "no_hi_vis"); ("no_vest", "no_hi_vis");
   ("no-hivis", "no_hi_vis"); ("no_hivis", "no_hi_vis"); ("no-hi-vis", "no_hi_vis");
   ("noharness", "no_harness"); ("no-harness", "no_harness"); ("no_harness", "no_harness")].

Definition ppe_key (label : string) : option string := map_get (toLowerCase label) ppeViolationLabelMap.

(** A [[]map[string]interface{}] of a column: [None] for SQL's null and what does not decode. *)
Definition column_objects (raw : option json) : option (list json) := raw ≫= λ j, go_objects (Some j).

Definition text_of (o : option json) : string := match o with Some (JStr s) => s | _ => EmptyString end.
Definition number_of (o : option json) : Q := match o with Some (JNum q) => q | _ => 0%Q end.

Definition ppeFromJSON (raw : option json) : list string :=
  set_of (omap (λ v, ppe_key (text_of (jget "class" v))) (default [] (column_objects raw))).

Definition mentions (text : string) (phrases : list string) : bool := existsb (contains text) phrases.

Definition tagsToViolationFlags (tags : list string) : list string :=
  let lc := toLowerCase (String.concat " " tags) in
  ((if mentions lc ["no hard hat"; "no hardhat"; "missing hard hat"] then ["no_hard_hat"] else []) ++
   (if mentions lc ["no vest"; "no hi-vis"; "no high-vis"; "missing vest"] then ["no_hi_vis"] else []) ++
   (if mentions lc ["no harness"; "missing harness"] then ["no_harness"] else []))%list.

Definition matchesViolationFilter (flags required : list string) : bool := forallb (λ r, includes r flags) required.

(** ** Detections and tokens *)

Record FrameDetection := mkFrameDetection { fd_label : string; fd_bbox : Z * Z * Z * Z; fd_violation : bool; fd_conf : Q }.
Record TokenMatch := mkTokenMatch { tm_token : string; tm_score : Q; tm_source : string }.

(** [int(x)] of a float. *)
Definition go_trunc (q : Q) : Z := Z.quot (Qnum q) (Zpos (Qden q)).
Definition toInt (o : option json) : Z := go_trunc (number_of o).

Definition frame_box (d : json) : Z * Z * Z * Z :=
  match jget "bbox_normalized" d, jget "bbox" d with
  | Some (JObj b), _ =>
      let at_ k w := go_trunc (number_of (jget k (JObj b)) * w)%Q in (at_ "x1" 1920%Q, at_ "y1" 1080%Q, at_ "x2" 1920%Q, at_ "y2" 1080%Q)
  | _, Some (JObj b) => (toInt (jget "x1" (JObj b)), toInt (jget "y1" (JObj b)), toInt (jget "x2" (JObj b)), toInt (jget "y2" (JObj b)))
  | _, Some (JArr [a; b; c; e]) => (toInt (Some a), toInt (Some b), toInt (Some c), toInt (Some e))
  | _, _ => (0, 0, 0, 0)
  end.

Definition frame_detection (d : json) : option FrameDetection :=
  let c := text_of (jget "class" d) in
  let label := if truthy_str c then c else text_of (jget "label" d) in
  if truthy_str label
  then Some (mkFrameDetection label (frame_box d) (match ppe_key label with Some _ => true | None => false end) (number_of (jget "confidence" d)))
  else None.

(** A nil slice, written as null, when the column is null or does not decode. *)
Definition parseYOLODetections (raw : option json) : option (list FrameDetection) :=
  match column_objects raw with Some l => Some (omap frame_detection l) | None => None end.

Definition tokensMatchingQuery (q : string) (tags : list string) : list TokenMatch :=
  (λ t, mkTokenMatch t (85 # 100) "caption")
    <$> filter_where (λ t, contains (toLowerCase q) (toLowerCase t) || contains (toLowerCase t) (toLowerCase q)) tags.

Definition alarmTokenMatches (q alarmType : string) (flags : list string) : list TokenMatch :=
  ((if truthy_str q && truthy_str alarmType && contains (toLowerCase q) (toLowerCase alarmType) then [mkTokenMatch alarmType (95 # 100) "caption"] else [])
   ++ ((λ f, mkTokenMatch f (9 # 10) "visual") <$> flags))%list.

(** ** Rows and hits *)

(** segment_descriptions joined with segments and cameras; times in microseconds. *)
Record SegRow := mkSegRow {
  sg_id : Z;
  sg_camera : string;
  sg_camera_name : string;
  sg_site : string;
  sg_start : Z;
  sg_end : Z;
  sg_description : string;
  sg_tags : list string;
  sg_detections : option json;
  sg_path : string
}.

(** active_alarms, with the columns that COALESCE reads; [al_ts] in milliseconds. *)
Record AlarmRow := mkAlarmRow {
  al_id : string;
  al_camera : string;
  al_camera_name : string;
  al_site : string;
  al_site_name : string;
  al_ts : Z;
  al_type : string;
  al_description : string;
  al_ai_description : option string;
  al_ppe : option json;
  al_detections : option json;
  al_snapshot : option string;
  al_clip : option string;
  al_fp : option Q
}.

Inductive HitSource := vlm_segment | security_alarm | safety_alarm.

Record FrameHit := mkFrameHit {
  fh_frame_id : string;
  fh_site_id : string;
  fh_site_name : string;
  fh_camera_id : string;
  fh_camera_name : string;
  fh_ts : Z;
  fh_relevance : Q;
  fh_caption : string;
  fh_thumbnail : string;
  fh_clip : string;
  fh_detections : option (list FrameDetection);
  fh_flags : list string;
  fh_tokens : list TokenMatch;
  fh_source : HitSource
}.

(** The caller: [None] is a role without restriction. *)
Definition allows (allowed : option (list string)) (camera : string) : bool := match allowed with None => true | Some l => includes camera l end.

Definition Qlt_bool (a b : Q) : bool := negb (Qle_bool b a).

Section search.
Context (rfc3339 : string → option Z).
Context (fts : string → string → bool).          (* to_tsvector @@ websearch_to_tsquery *)
Context (ts_rank : string → string → Q).
Context (ilike : string → string → bool).        (* text ILIKE pattern *)
Context (session_hour : Z → Z).                  (* the hour in the time zone of the database session, of seconds *)
Context (mint : string → string → Z → Z → string). (* MintSegmentPlaybackURL for the caller: camera, path, start, event *)

(** *** Recorded segments *)

(** [d.tags && string_to_array(lower($1), ' ')] *)
Definition tag_overlap (q : string) (tags : list string) : bool := existsb (λ t, includes t tags) (js_split " " (toLowerCase q)).

Definition matchClause (model q : string) (r : SegRow) : bool :=
  if String.eqb model "caption" then fts (sg_description r) q
  else if String.eqb model "visual" then tag_overlap q (sg_tags r)
  else fts (sg_description r) q || tag_overlap q (sg_tags r).

Definition in_sites (sites : list string) (site : string) : bool := match sites with [] => true | _ => includes site sites end.

Definition utc_hour (us : Z) : Z := (us / 3600000000) mod 24.

Definition seg_where (q : string) (req : SearchRequest) (allowed : option (list string)) (r : SegRow) : bool :=
  let '(start, until) := parseDateRange rfc3339 (fq_range req) in
  matchClause (fq_model req) q r && opt_bound start (λ t, t <=? sg_start r) && opt_bound until (λ t, sg_end r <=? t) &&
  in_hours (parseTimeOfDay (fq_hours req)) (utc_hour (sg_start r)) && in_sites (fq_sites req) (sg_site r) && allows allowed (sg_camera r).

(** [ORDER BY rank DESC, s.start_time DESC] *)
Definition seg_before (q : string) (a b : SegRow) : bool :=
  let ra := ts_rank (sg_description a) q in let rb := ts_rank (sg_description b) q in
  Qlt_bool rb ra || (Qle_bool rb ra && (sg_start b <=? sg_start a)).

Definition rankN (rank : Q) : Q := let x := (rank / (rank + (1 # 2)))%Q in if Qlt_bool x (15 # 100) then (15 # 100)%Q else x.

(** Half of the segment, from its start, as a time in milliseconds. *)
Definition mid_us (r : SegRow) : Z := Z.max 0 (sg_end r - sg_start r).
Definition mid_ms (r : SegRow) : Z := (2 * sg_start r + mid_us r) / 2000.

Definition seg_hit (q : string) (r : SegRow) : FrameHit :=
  mkFrameHit ("seg-" +:+ pretty (sg_id r)) (sg_site r) (sg_site r) (sg_camera r) (sg_camera_name r) (mid_ms r)
    (rankN (ts_rank (sg_description r) q)) (sg_description r) EmptyString (mint (sg_camera r) (sg_path r) (sg_start r) (sg_start r + mid_us r / 2))
    (parseYOLODetections (sg_detections r)) (tagsToViolationFlags (sg_tags r)) (tokensMatchingQuery q (sg_tags r)) vlm_segment.

(** The types ticked filter after the limit of 50. *)
Definition searchVLMSegments (q : string) (req : SearchRequest) (allowed : option (list string)) (table : list SegRow) : list FrameHit :=
  if truthy_str q
  then filter_where (λ h, matchesViolationFilter (fh_flags h) (fq_types req))
         (seg_hit q <$> take 50 (sort_by (seg_before q) (filter_where (seg_where q req allowed) table)))
  else [].

(** *** Alarms *)

Definition alarm_where (q : string) (req : SearchRequest) (allowed : option (list string)) (r : AlarmRow) : bool :=
  let '(start, until) := parseDateRange rfc3339 (fq_range req) in
  let pattern := "%" +:+ q +:+ "%" in let second := Z.quot (al_ts r) 1000 * 1000000 in
  (negb (truthy_str q) || match al_ai_description r with Some d => ilike d pattern | None => false end ||
     ilike (al_description r) pattern || ilike (al_type r) pattern) &&
  opt_bound start (λ t, t <=? second) && opt_bound until (λ t, second <=? t) &&
  in_hours (parseTimeOfDay (fq_hours req)) (session_hour (Z.quot (al_ts r) 1000)) && in_sites (fq_sites req) (al_site r) && allows allowed (al_camera r).

Definition alarm_relevance (q : string) (fp : Q) : Q :=
  let x := (1 - fp)%Q in let y := if Qlt_bool x (3 # 10) then (3 # 10)%Q else x in
  if truthy_str q then (y * (6 # 10) + (4 # 10))%Q else y.

Definition alarm_hit (q : string) (r : AlarmRow) : FrameHit :=
  let flags := ppeFromJSON (Some (default (JArr []) (al_ppe r))) in
  let ai := default EmptyString (al_ai_description r) in
  mkFrameHit ("alarm-" +:+ al_id r) (al_site r) (al_site_name r) (al_camera r) (al_camera_name r) (al_ts r)
    (alarm_relevance q (default 0%Q (al_fp r))) (if truthy_str ai then ai else al_description r) (default EmptyString (al_snapshot r)) (default EmptyString (al_clip r))
    (parseYOLODetections (Some (default (JArr []) (al_detections r)))) flags (alarmTokenMatches q (al_type r) flags)
    (match flags with [] => security_alarm | _ => safety_alarm end).

Definition searchAlarms (q : string) (req : SearchRequest) (allowed : option (list string)) (table : list AlarmRow) : list FrameHit :=
  filter_where (λ h, matchesViolationFilter (fh_flags h) (fq_types req))
    (alarm_hit q <$> take 50 (sort_by (λ a b, al_ts b <=? al_ts a) (filter_where (alarm_where q req allowed) table))).

(** *** Gate, order and answer *)

Definition confident (m : Q) (h : FrameHit) : bool :=
  Qle_bool m (fh_relevance h) || existsb (λ d, Qle_bool m (fd_conf d)) (default [] (fh_detections h)).
Definition gate (m : Q) (l : list FrameHit) : list FrameHit := if Qlt_bool 0 m then filter_where (confident m) l else l.

(** The inner loop at position [i] with [x] there: each later hit that is more relevant
    changes places with it. *)
Fixpoint swap_pass (x : FrameHit) (l : list FrameHit) : FrameHit * list FrameHit :=
  match l with
  | [] => (x, [])
  | y :: l' => if Qlt_bool (fh_relevance x) (fh_relevance y)
               then let '(m, t) := swap_pass y l' in (m, x :: t)
               else let '(m, t) := swap_pass x l' in (m, y :: t)
  end.

(** The outer loop, over as many positions as there are hits. *)
Fixpoint swap_sort (n : nat) (l : list FrameHit) : list FrameHit :=
  match n, l with
  | S n', x :: l' => let '(m, t) := swap_pass x l' in m :: swap_sort n' t
  | _, _ => l
  end.
Definition by_relevance (l : list FrameHit) : list FrameHit := swap_sort (length l) l.

(** The status, with the hits of a 200. *)
Definition HandleSearchFrames (body : json) (allowed : option (list string)) (segs : list SegRow) (alarms : list AlarmRow) : Z * list FrameHit :=
  match decode_search body with
  | None => (400, [])
  | Some req =>
      let q := TrimSpace (fq_query req) in
      if negb (truthy_str q) && bool_decide (fq_types req = []) then (200, [])
      else if bool_decide (allowed = Some []) then (200, [])
      else (200, take 100 (by_relevance (gate (fq_min req) (searchVLMSegments q req allowed segs ++ searchAlarms q req allowed alarms)%list)))
  end.
End search.

(** ** The order of the answer *)

Definition more_relevant (a b : FrameHit) : Prop := (fh_relevance b <= fh_relevance a)%Q.

#[export] Instance more_relevant_trans : Transitive more_relevant.
Proof. intros x y z H1 H2. by eapply Qle_trans. Qed.

Lemma Qlt_bool_true a b : Qlt_bool a b = true ↔ (a < b)%Q.
Proof.
  unfold Qlt_bool. rewrite negb_true_iff, <- not_true_iff_false, Qle_bool_iff.
  split; [apply Qnot_le_lt|apply Qlt_not_le].
Qed.

Lemma Qlt_bool_false a b : Qlt_bool a b = false ↔ (b <= a)%Q.
Proof. unfold Qlt_bool. by rewrite negb_false_iff, Qle_bool_iff. Qed.

(** A pass moves a most relevant hit to the front. *)
Lemma swap_pass_spec l x : (swap_pass x l).1 :: (swap_pass x l).2 ≡ₚ x :: l ∧ Forall (more_relevant (swap_pass x l).1) (swap_pass x l).2 ∧ more_relevant (swap_pass x l).1 x.
Proof.
  revert x. induction l as [|y l IH]; intros x; simpl; [by split_and!; [|constructor|apply Qle_refl]|].
  destruct (Qlt_bool (fh_relevance x) (fh_relevance y)) eqn:E.
  - apply Qlt_bool_true in E. specialize (IH y) as (Hp & Hf & Hy). destruct (swap_pass y l) as [m t]; simpl in *.
    assert (more_relevant m x) by (etrans; [exact Hy|by apply Qlt_le_weak]).
    split_and!; [by rewrite Permutation_swap, Hp|by constructor|done].
  - apply Qlt_bool_false in E. specialize (IH x) as (Hp & Hf & Hx). destruct (swap_pass x l) as [m t]; simpl in *.
    split_and!; [by rewrite Permutation_swap, Hp, Permutation_swap| |done]. constructor; [by etrans; [exact Hx|]|done].
Qed.

Lemma swap_sort_spec n l : (length l ≤ n)%nat → swap_sort n l ≡ₚ l ∧ StronglySorted more_relevant (swap_sort n l).
Proof.
  revert l. induction n as [|n IH]; intros [|x l] Hn; simpl in *; [by split; [|constructor]|lia|by split; [|constructor]|].
  destruct (swap_pass_spec l x) as (Hp & Hf & _). destruct (swap_pass x l) as [m t]; simpl in *.
  assert (length t = length l) by (apply Permutation_length in Hp; simpl in Hp; lia).
  destruct (IH t) as [Hq Hs]; [lia|]. split; [by rewrite Hq|]. constructor; [done|]. by rewrite Hq.
Qed.

Lemma by_relevance_Permutation l : by_relevance l ≡ₚ l.
Proof. by apply swap_sort_spec. Qed.

Lemma by_relevance_sorted l : StronglySorted more_relevant (by_relevance l).
Proof. by apply swap_sort_spec. Qed.

(** ** The hits *)

Lemma elem_of_gate m l h : h ∈ gate m l ↔ h ∈ l ∧ ((0 < m)%Q → confident m h = true).
Proof.
  unfold gate. destruct (Qlt_bool 0 m) eqn:E.
  - apply Qlt_bool_true in E. rewrite elem_of_filter_where. naive_solver.
  - apply Qlt_bool_false in E. split; [|naive_solver]. intros H. split; [done|]. intros Hm. by apply Qlt_not_le in Hm.
Qed.

Lemma length_gate m l : (length (gate m l) ≤ length l)%nat.
Proof. unfold gate. case_match; [apply length_filter_where|done]. Qed.

(** The flags that a hit can have. *)
Definition FLAGS : list string := ["no_hard_hat"; "no_hi_vis"; "no_harness"].

Lemma ppe_key_flags l k : ppe_key l = Some k → k ∈ FLAGS.
Proof.
  unfold ppe_key. intros H. assert (Hin : k ∈ ppeViolationLabelMap.*2).
  { apply map_get_elem in H; [|by apply (bool_decide_unpack _); vm_compute]. apply list_elem_of_fmap. by exists (toLowerCase l, k). }
  revert Hin. generalize k. apply Forall_forall. apply (bool_decide_unpack _). by vm_compute.
Qed.

Lemma ppe_flags raw k : k ∈ ppeFromJSON raw → k ∈ FLAGS.
Proof. unfold ppeFromJSON. rewrite (proj2 (set_of_spec _)), list_elem_of_omap. intros (v & _ & H). by eapply ppe_key_flags. Qed.

Lemma tag_flags tags k : k ∈ tagsToViolationFlags tags → k ∈ FLAGS.
Proof.
  unfold tagsToViolationFlags, FLAGS. rewrite !elem_of_app.
  intros [H|[H|H]]; case_match; set_solver.
Qed.

Lemma matches_types flags required : matchesViolationFilter flags required = true ↔ ∀ t, t ∈ required → t ∈ flags.
Proof.
  unfold matchesViolationFilter. rewrite forallb_forall. split; intros H t Ht.
  - apply (bool_decide_unpack _), Is_true_true. apply H. by apply list_elem_of_In.
  - apply bool_decide_true. apply H. by apply list_elem_of_In.
Qed.

Section answers.
Context (rfc3339 : string → option Z) (fts : string → string → bool) (ts_rank : string → string → Q) (ilike : string → string → bool).
Context (session_hour : Z → Z) (mint : string → string → Z → Z → string).
#[local] Abbreviation segments := (searchVLMSegments rfc3339 fts ts_rank mint).
#[local] Abbreviation alarms_of := (searchAlarms rfc3339 ilike session_hour).
#[local] Abbreviation answer := (HandleSearchFrames rfc3339 fts ts_rank ilike session_hour mint).
#[local] Abbreviation seg_asked := (seg_where rfc3339 fts).
#[local] Abbreviation alarm_asked := (alarm_where rfc3339 ilike session_hour).

Lemma length_segments q req allowed t : (length (segments q req allowed t) ≤ 50)%nat.
Proof.
  unfold searchVLMSegments. case_match; [|simpl; lia].
  etrans; [apply length_filter_where|]. rewrite length_fmap, length_take. lia.
Qed.

Lemma length_alarms q req allowed t : (length (alarms_of q req allowed t) ≤ 50)%nat.
Proof. etrans; [apply length_filter_where|]. rewrite length_fmap, length_take. lia. Qed.

(** The cut at 100 never removes anything. *)
Lemma answer_uncut q req allowed t1 t2 :
  take 100 (by_relevance (gate (fq_min req) (segments q req allowed t1 ++ alarms_of q req allowed t2)%list)) =
  by_relevance (gate (fq_min req) (segments q req allowed t1 ++ alarms_of q req allowed t2)%list).
Proof.
  apply take_ge. rewrite by_relevance_Permutation. etrans; [apply length_gate|].
  rewrite length_app. pose proof (length_segments q req allowed t1). pose proof (length_alarms q req allowed t2). lia.
Qed.

Lemma elem_of_segments q req allowed t h :
  h ∈ segments q req allowed t →
  truthy_str q = true ∧ (∃ r, r ∈ t ∧ seg_asked q req allowed r = true ∧ h = seg_hit ts_rank mint q r) ∧ matchesViolationFilter (fh_flags h) (fq_types req) = true.
Proof.
  unfold searchVLMSegments. destruct (truthy_str q); [|by intros ?%elem_of_nil].
  intros [Hm (r & -> & Hr%elem_of_take)%list_elem_of_fmap]%elem_of_filter_where. destruct Hr as (i & Hr & _).
  apply list_elem_of_lookup_2, elem_of_sort_by, elem_of_filter_where in Hr as [Hw Ht]. by split_and!; [|exists r|].
Qed.

Lemma elem_of_alarms q req allowed t h :
  h ∈ alarms_of q req allowed t →
  (∃ r, r ∈ t ∧ alarm_asked q req allowed r = true ∧ h = alarm_hit q r) ∧ matchesViolationFilter (fh_flags h) (fq_types req) = true.
Proof.
  intros [Hm (r & -> & Hr%elem_of_take)%list_elem_of_fmap]%elem_of_filter_where. destruct Hr as (i & Hr & _).
  apply list_elem_of_lookup_2, elem_of_sort_by, elem_of_filter_where in Hr as [Hw Ht]. by split; [exists r|].
Qed.

(** A row is found when no more rows match than the limit of its query. *)
Lemma segment_found q req allowed t r :
  truthy_str q = true → r ∈ t → seg_asked q req allowed r = true → (length (filter_where (seg_asked q req allowed) t) ≤ 50)%nat →
  matchesViolationFilter (fh_flags (seg_hit ts_rank mint q r)) (fq_types req) = true → seg_hit ts_rank mint q r ∈ segments q req allowed t.
Proof.
  intros Hq Ht Hw Hn Hm. unfold searchVLMSegments. rewrite Hq. apply elem_of_filter_where. split; [done|].
  rewrite take_ge by (rewrite length_sort_by; exact Hn). apply list_elem_of_fmap. exists r. split; [done|]. by rewrite elem_of_sort_by, elem_of_filter_where.
Qed.

Lemma alarm_found q req allowed t r :
  r ∈ t → alarm_asked q req allowed r = true → (length (filter_where (alarm_asked q req allowed) t) ≤ 50)%nat →
  matchesViolationFilter (fh_flags (alarm_hit q r)) (fq_types req) = true → alarm_hit q r ∈ alarms_of q req allowed t.
Proof.
  intros Ht Hw Hn Hm. apply elem_of_filter_where. split; [done|].
  rewrite take_ge by (rewrite length_sort_by; exact Hn). apply list_elem_of_fmap. exists r. split; [done|]. by rewrite elem_of_sort_by, elem_of_filter_where.
Qed.

(** The answer of an admitted request. *)
Lemma answer_searched body req allowed t1 t2 :
  decode_search body = Some req → truthy_str (TrimSpace (fq_query req)) = true ∨ fq_types req ≠ [] → allowed ≠ Some [] →
  answer body allowed t1 t2 = (200, by_relevance (gate (fq_min req) (segments (TrimSpace (fq_query req)) req allowed t1 ++ alarms_of (TrimSpace (fq_query req)) req allowed t2)%list)).
Proof.
  intros Hd Hq Ha. unfold HandleSearchFrames. rewrite Hd, (bool_decide_eq_false_2 _ Ha).
  assert (negb (truthy_str (TrimSpace (fq_query req))) && bool_decide (fq_types req = []) = false) as ->.
  { destruct Hq as [->|H]; [done|]. rewrite (bool_decide_eq_false_2 _ H). by destruct (truthy_str _). }
  f_equal. apply answer_uncut.
Qed.

Lemma answer_status body req allowed t1 t2 : decode_search body = Some req → (answer body allowed t1 t2).1 = 200.
Proof. intros Hd. unfold HandleSearchFrames. rewrite Hd. case_match; [done|]. by case_match. Qed.

(** No flag of a hit is outside the three keys. *)
Lemma hit_flags q req allowed t1 t2 h :
  h ∈ (segments q req allowed t1 ++ alarms_of q req allowed t2)%list → ∀ k, k ∈ fh_flags h → k ∈ FLAGS.
Proof.
  intros [H|H]%elem_of_app k.
  - apply elem_of_segments in H as (_ & (r & _ & _ & ->) & _). apply tag_flags.
  - apply elem_of_alarms in H as ((r & _ & _ & ->) & _). apply ppe_flags.
Qed.

(** A type that no hit can have empties the answer. *)
Lemma unknown_type_empty body req allowed t1 t2 k :
  decode_search body = Some req → k ∈ fq_types req → k ∉ FLAGS → (answer body allowed t1 t2).2 = [].
Proof.
  intros Hd Hk Hn. destruct (decide (allowed = Some [])) as [->|Ha].
  { unfold HandleSearchFrames. rewrite Hd. by case_match. }
  rewrite (answer_searched _ req) by (done || (right; intros E; by rewrite E in Hk; apply elem_of_nil in Hk)).
  simpl. apply elem_of_nil_inv. intros h. rewrite by_relevance_Permutation. intros [H _]%elem_of_gate. apply Hn.
  apply (hit_flags _ _ _ _ _ _ H). apply elem_of_app in H as [H|H].
  - apply elem_of_segments in H as (_ & _ & H). by apply (proj1 (matches_types _ _) H).
  - apply elem_of_alarms in H as (_ & H). by apply (proj1 (matches_types _ _) H).
Qed.

(** C30.  An admitted search answers with the matching rows and no others: every hit comes
    from a row that the query, the dates, the hours, the sites and the caller's cameras
    admit, has every type ticked and passes the confidence gate; conversely such a row is
    in the answer unless its own query matched more than 50 rows.  The hits are in falling
    order of relevance, at most 100. *)
Theorem search_answer_exact body req allowed t1 t2 :
  decode_search body = Some req → truthy_str (TrimSpace (fq_query req)) = true ∨ fq_types req ≠ [] → allowed ≠ Some [] →
  let q := TrimSpace (fq_query req) in let r := answer body allowed t1 t2 in
  let passes h := (∀ t, t ∈ fq_types req → t ∈ fh_flags h) ∧ ((0 < fq_min req)%Q → confident (fq_min req) h = true) in
  r.1 = 200 ∧ StronglySorted more_relevant r.2 ∧ (length r.2 ≤ 100)%nat ∧
  (∀ h, h ∈ r.2 → passes h ∧
     ((truthy_str q = true ∧ ∃ s, s ∈ t1 ∧ seg_asked q req allowed s = true ∧ h = seg_hit ts_rank mint q s) ∨
      ∃ a, a ∈ t2 ∧ alarm_asked q req allowed a = true ∧ h = alarm_hit q a)) ∧
  (∀ s, s ∈ t1 → truthy_str q = true → seg_asked q req allowed s = true → (length (filter_where (seg_asked q req allowed) t1) ≤ 50)%nat →
     passes (seg_hit ts_rank mint q s) → seg_hit ts_rank mint q s ∈ r.2) ∧
  (∀ a, a ∈ t2 → alarm_asked q req allowed a = true → (length (filter_where (alarm_asked q req allowed) t2) ≤ 50)%nat →
     passes (alarm_hit q a) → alarm_hit q a ∈ r.2).
Proof.
  intros Hd Hq Ha q r passes. unfold r. rewrite (answer_searched _ req) by done. cbn [fst snd]. fold q.
  split_and!; [done|apply by_relevance_sorted| | | |].
  - rewrite <- answer_uncut, length_take. lia.
  - intros h. rewrite by_relevance_Permutation. intros [[H|H]%elem_of_app Hc]%elem_of_gate.
    + apply elem_of_segments in H as (Hq' & H & Hm). split; [split; [by apply matches_types|done]|by left].
    + apply elem_of_alarms in H as (H & Hm). split; [split; [by apply matches_types|done]|by right].
  - intros s Hs Hq' Hw Hn [Hm Hc]. rewrite by_relevance_Permutation, elem_of_gate, elem_of_app. split; [|done].
    left. apply segment_found; [done..|by apply matches_types].
  - intros a Hs Hw Hn [Hm Hc]. rewrite by_relevance_Permutation, elem_of_gate, elem_of_app. split; [|done].
    right. apply alarm_found; [done..|by apply matches_types].
Qed.
End answers.

(** Two segments and an alarm, searched for "van" at half confidence. *)
Definition sample_search : json := JObj [("query", JStr " van "); ("confidence_min", JNum (1 # 2)); ("time_of_day", JObj [("start", JStr "08:00"); ("end", JStr "17:00")])].
Definition sample_segs : list SegRow :=
  [mkSegRow 1 "c" "Gate" "S" 36000000000 36060000000 "a white van" ["van"] None "p";
   mkSegRow 2 "c" "Gate" "S" 72000000000 72060000000 "a van at night" ["van"] None "p"].
Definition sample_alarms : list AlarmRow := [mkAlarmRow "a" "c" "Gate" "S" "Site" 36000000 "intrusion" "van" None None None None None (Some (1 # 10))].

Lemma search_answer_exact_witness :
  length (HandleSearchFrames (λ _, None) contains (λ _ _, 1%Q) (λ _ _, true) (λ s, (s / 3600) mod 24) (λ _ _ _ _, EmptyString) sample_search None sample_segs sample_alarms).2 = 2%nat ∧
  StronglySorted more_relevant (HandleSearchFrames (λ _, None) contains (λ _ _, 1%Q) (λ _ _, true) (λ s, (s / 3600) mod 24) (λ _ _ _ _, EmptyString) sample_search None sample_segs sample_alarms).2.
Proof.
  split; [by vm_compute|].
  pose proof (search_answer_exact (λ _, None) contains (λ _ _, 1%Q) (λ _ _, true) (λ s, (s / 3600) mod 24) (λ _ _ _ _, EmptyString) sample_search
    (mkSearchRequest " van " [] [] None (1 # 2) (Some (mkRange "08:00" "17:00")) EmptyString) None sample_segs sample_alarms) as H.
  apply H; [by vm_compute|left; by vm_compute|done].
Defined.
