(* ===== verification/SearchPage.v ===== *)
(** * The search page

    [app/search/page.tsx] over the store of [stores/search-store.ts] and the mutation of
    [hooks/useSearch.ts]: the query and its filters, the request, the results and the
    preview, and the searches saved in the browser.  A search is a task that its answer
    resumes; tasks settle in any order. *)

From S2P Require Import Prelude Types Http IronsightApi AdminConsole EventsPanel Investigation JsonText SiteServer SiteConfig Hooks SearchServer.
From stdpp Require Import pretty.
From Stdlib Require Import Ascii QArith.
Import Stores.
#[local] Open Scope string_scope.
#[local] Open Scope Z_scope.

(** ** Filters and the request *)

(** The keys of [violationTypes], in their order. *)
Definition VIOLATION_TYPES : list string := ["no_hard_hat"; "no_harness"; "zone_breach"; "no_hi_vis"; "vehicle_hazard"].

Definition violationTypes (f : Filters) : list (string * bool) := (λ k, (k, includes k (fl_violation_types f))) <$> VIOLATION_TYPES.
Definition activeViolations (f : Filters) : list string := fst <$> filter_where snd (violationTypes f).

Definition only_types (l : list string) : PartialFilters := mkPartial (Some l) None None None None None.
Definition only_sites (l : list string) : PartialFilters := mkPartial None (Some l) None None None None.
Definition only_range (r : option Range) : PartialFilters := mkPartial None None (Some r) None None None.
Definition only_min (c : option Q) : PartialFilters := mkPartial None None None (Some c) None None.
Definition only_hours (r : option Range) : PartialFilters := mkPartial None None None None (Some r) None.
Definition only_model (m : string) : PartialFilters := mkPartial None None None None None (Some m).

Definition toggleViolation (type : string) (f : Filters) : PartialFilters :=
  only_types (if includes type (fl_violation_types f)
              then filter_where (λ t, negb (String.eqb t type)) (fl_violation_types f) else (fl_violation_types f ++ [type])%list).

Definition range_json (r : Range) : json := JObj [("start", JStr (rg_start r)); ("end", JStr (rg_end r))].
Definition strs_json (l : list string) : json := JArr (JStr <$> l).

(** [r?.start || r?.end ? r : undefined] *)
Definition used_range (r : option Range) : option Range :=
  match r with Some x => if truthy_str (rg_start x) || truthy_str (rg_end x) then Some x else None | None => None end.

(** The body of the request; [JSON.stringify] drops what is undefined. *)
Definition search_body (query : string) (f : Filters) : json :=
  let types := activeViolations f in
  JObj ([("query", JStr (trim query))] ++
        (if bool_decide (types = []) then [] else [("violation_types", strs_json types)]) ++
        (if bool_decide (fl_site_ids f = []) then [] else [("site_ids", strs_json (fl_site_ids f))]) ++
        opt_prop "date_range" (range_json <$> used_range (fl_date_range f)) ++
        opt_prop "confidence_min" (JNum <$> fl_confidence_min f) ++
        opt_prop "time_of_day" (range_json <$> used_range (fl_time_of_day f)) ++
        [("model", JStr (or_str (Some (fl_model f)) "hybrid"))])%list.

(** [handleSearch]: the request, or none. *)
Definition handleSearch (s : SearchState) : option json :=
  if negb (truthy_str (trim (se_query s))) && bool_decide (activeViolations (se_filters s) = []) then None
  else Some (search_body (se_query s) (se_filters s)).

(** ** Saved searches *)

(** The fields of an object of filters; undefined ones are dropped by [JSON.stringify]. *)
Definition filters_json (f : Filters) : json :=
  JObj ([("violation_types", strs_json (fl_violation_types f)); ("site_ids", strs_json (fl_site_ids f))] ++
        opt_prop "date_range" (range_json <$> fl_date_range f) ++ opt_prop "confidence_min" (JNum <$> fl_confidence_min f) ++
        opt_prop "time_of_day" (range_json <$> fl_time_of_day f) ++ [("model", JStr (fl_model f))])%list.

Definition as_range (j : json) : Range := mkRange (text_of (jget "start" j)) (text_of (jget "end" j)).
Definition as_strs (j : json) : list string := match j with JArr l => omap str_of l | _ => [] end.

(** The keys that an object of filters read from the storage has. *)
Definition stored_filters (j : json) : PartialFilters :=
  mkPartial (as_strs <$> jget "violation_types" j) (as_strs <$> jget "site_ids" j) ((λ r, Some (as_range r)) <$> jget "date_range" j)
    ((λ c, Some (number_of (Some c))) <$> jget "confidence_min" j) ((λ r, Some (as_range r)) <$> jget "time_of_day" j)
    ((λ m, text_of (Some m)) <$> jget "model" j).

(** An entry of the list: the saved search and its filters as the page holds them, with all
    keys when it was saved on this page and with those stored when it was read. *)
Record SavedEntry := mkSavedEntry { sv_id : string; sv_name : string; sv_query : string; sv_filters : PartialFilters; sv_created_at : string }.

Definition all_keys (f : Filters) : PartialFilters :=
  mkPartial (Some (fl_violation_types f)) (Some (fl_site_ids f)) (Some (fl_date_range f)) (Some (fl_confidence_min f)) (Some (fl_time_of_day f)) (Some (fl_model f)).

(** [query.trim().slice(0, 50)], in UTF-16 units. *)
Definition saved_name (query : string) : string := of_bytes (unit_prefix 50 (bytes_of (trim query))).

Definition saved_data (query : string) (f : Filters) : json :=
  JObj [("name", JStr (saved_name query)); ("query", JStr (trim query)); ("filters", filters_json f); ("created_by", JStr "Operator"); ("shared", JBool false)].

Definition read_entry (s : SavedSearch) : SavedEntry :=
  mkSavedEntry (ss_id s) (text_of (jget "name" (ss_data s))) (text_of (jget "query" (ss_data s)))
    (stored_filters (default JNull (jget "filters" (ss_data s)))) (ss_created_at s).
Definition new_entry (s : SavedSearch) (query : string) (f : Filters) : SavedEntry :=
  mkSavedEntry (ss_id s) (saved_name query) (trim query) (all_keys f) (ss_created_at s).

(** ** The page *)

Definition Storage := option (option (list SavedSearch)).

Record SearchPage := mkSearchPage {
  sp_store : SearchState;
  sp_saved : list SavedEntry;
  sp_show : bool;
  sp_sent : nat;                       (* searches sent *)
  sp_tasks : list (nat * json);        (* those without an answer, with their number *)
  sp_storage : Storage
}.

(** The store outlives the page; the effect reads the saved searches. *)
Definition mount_search (store : SearchState) (storage : Storage) : SearchPage :=
  mkSearchPage store (read_entry <$> readSavedSearches storage) false 0 [] storage.

Definition upd_search_store (s : SearchState) (p : SearchPage) : SearchPage := mkSearchPage s (sp_saved p) (sp_show p) (sp_sent p) (sp_tasks p) (sp_storage p).
Definition upd_saved (l : list SavedEntry) (st : Storage) (p : SearchPage) : SearchPage := mkSearchPage (sp_store p) l (sp_show p) (sp_sent p) (sp_tasks p) st.
Definition upd_show (v : bool) (p : SearchPage) : SearchPage := mkSearchPage (sp_store p) (sp_saved p) v (sp_sent p) (sp_tasks p) (sp_storage p).
Definition upd_search_tasks (n : nat) (t : list (nat * json)) (p : SearchPage) : SearchPage := mkSearchPage (sp_store p) (sp_saved p) (sp_show p) n t (sp_storage p).
Definition filter_by (f : Filters → PartialFilters) (p : SearchPage) : SearchPage := upd_search_store (updateFilters (f (se_filters (sp_store p))) (sp_store p)) p.

(** [searchMutation.isPending] is that of the search sent last. *)
Definition sp_loading (p : SearchPage) : bool := existsb (λ t, (S t.1 =? sp_sent p)%nat) (sp_tasks p).

Definition submit_search (p : SearchPage) : SearchPage :=
  match handleSearch (sp_store p) with
  | Some body => upd_search_tasks (S (sp_sent p)) (sp_tasks p ++ [(sp_sent p, body)])%list p
  | None => p
  end.

(** [onSuccess] runs for every search, also one that is not the last. *)
Definition settle_search (i : nat) (reply : option (list json)) (p : SearchPage) : SearchPage :=
  match sp_tasks p !! i with
  | None => p
  | Some _ =>
      let p' := upd_search_tasks (sp_sent p) (delete i (sp_tasks p)) p in
      match reply with
      | Some l => upd_search_store (setHasSearched true (setResults l (sp_store p))) p'
      | None => p'
      end
  end.

Definition handleSaveSearch (now : Z) (random : string) (p : SearchPage) : SearchPage :=
  let s := sp_store p in
  if truthy_str (trim (se_query s))
  then let '(e, st) := createSavedSearch (saved_data (se_query s) (se_filters s)) now random (sp_storage p) in
       upd_saved (new_entry e (se_query s) (se_filters s) :: sp_saved p) st p
  else p.

Definition handleLoadSaved (e : SavedEntry) (p : SearchPage) : SearchPage :=
  upd_show false (upd_search_store (updateFilters (sv_filters e) (setQuery (sv_query e) (sp_store p))) p).

Definition handleDeleteSaved (id : string) (p : SearchPage) : SearchPage :=
  upd_saved (filter_where (λ e, negb (String.eqb (sv_id e) id)) (sp_saved p)) (deleteSavedSearch id (sp_storage p)) p.

Definition frame_id (r : json) : string := text_of (jget "frame_id" r).

Inductive SearchEvent :=
| TypeQuery (q : string) | PressEnter | ClickSearch | TickType (t : string) | PickSite (v : string)
| DateFrom (v : string) | DateTo (v : string) | SlideConfidence (percent : Z) | HourFrom (v : string) | HourTo (v : string)
| PickModel (m : string) | ClickReset | ClickSave (now : Z) (random : string) | ClickSavedMenu | ClickSaved (i : nat) | ClickDeleteSaved (i : nat)
| ClickResult (i : nat) | SearchSettles (i : nat) (reply : option (list json)).

Definition start_of (r : option Range) (d : string) : string := or_str (rg_start <$> r) d.
Definition end_of (r : option Range) (d : string) : string := or_str (rg_end <$> r) d.

Definition search_step (p : SearchPage) (e : SearchEvent) : SearchPage :=
  match e with
  | TypeQuery q => upd_search_store (setQuery q (sp_store p)) p
  | PressEnter => submit_search p
  | ClickSearch => if sp_loading p then p else submit_search p
  | TickType t => if includes t VIOLATION_TYPES then filter_by (toggleViolation t) p else p
  | PickSite v => filter_by (λ _, only_sites (if truthy_str v then [v] else [])) p
  | DateFrom v => filter_by (λ f, only_range (Some (mkRange v (end_of (fl_date_range f) EmptyString)))) p
  | DateTo v => filter_by (λ f, only_range (Some (mkRange (start_of (fl_date_range f) EmptyString) v))) p
  | SlideConfidence n => filter_by (λ _, only_min (if n =? 0 then None else Some (inject_Z n / 100)%Q)) p
  | HourFrom v => filter_by (λ f, only_hours (Some (mkRange v (end_of (fl_time_of_day f) "23:59")))) p
  | HourTo v => filter_by (λ f, only_hours (Some (mkRange (start_of (fl_time_of_day f) "00:00") v))) p
  | PickModel m => if includes m ["hybrid"; "visual"; "caption"] then filter_by (λ _, only_model m) p else p
  | ClickReset => upd_search_store (resetFilters (sp_store p)) p
  | ClickSave now random => handleSaveSearch now random p
  | ClickSavedMenu => upd_show (negb (sp_show p)) p
  | ClickSaved i => match sp_saved p !! i with Some x => if sp_show p then handleLoadSaved x p else p | None => p end
  | ClickDeleteSaved i => match sp_saved p !! i with Some x => if sp_show p then handleDeleteSaved (sv_id x) p else p | None => p end
  | ClickResult i => match se_results (sp_store p) !! i with Some r => upd_search_store (selectResult (Some (frame_id r)) (sp_store p)) p | None => p end
  | SearchSettles i reply => settle_search i reply p
  end.

(** ** What the page shows *)

Definition selectedIdx (s : SearchState) : option nat := find_index (λ r, bool_decide (Some (frame_id r) = se_selectedResultId s)) (se_results s).
Definition selected (s : SearchState) : option json := selectedIdx s ≫= λ i, se_results s !! i.

(** The texts of the middle column, each with the query it names. *)
Inductive SearchNotice := AskQuery | NoneFound (query : string) | CountFound (n : nat) (query : string).
Definition notices (s : SearchState) : list SearchNotice :=
  ((if se_hasSearched s then [] else [AskQuery]) ++
   (if se_hasSearched s && (length (se_results s) =? 0)%nat then [NoneFound (se_query s)] else []) ++
   (if (0 <? length (se_results s))%nat then [CountFound (length (se_results s)) (se_query s)] else []))%list.

(** The counters of the bar; the argument is [cameras_total] of each site. *)
Definition camera_count (totals : list (option Z)) : Z := foldr Z.add 0 (default 0 <$> totals).

Definition portal_href (r : json) : string :=
  let s := text_of (jget "site_id" r) in if truthy_str s then "/portal/sites/" +:+ s else "/portal".

(** *** Boxes *)

Inductive BoxColor := BoxRed | BoxAccent | BoxGreen.

(** [s.split(/\s+/)] without the empty words: every white space is made a blank first. *)
Fixpoint blank_spaces (fuel : nat) (l : list N) : list N :=
  match fuel, l with
  | S fuel', c :: l' =>
      match foldr (λ w acc, match Prelude.strip_prefix w l with Some r => Some r | None => acc end) None white_space with
      | Some r => 32%N :: blank_spaces fuel' r
      | None => c :: blank_spaces fuel' l'
      end
  | _, _ => l
  end.
Definition words (s : string) : list string := filter_where truthy_str (js_split " " (of_bytes (blank_spaces (String.length s) (bytes_of s)))).

(** [query.toLowerCase().split(/\s+/).some(w => w && class.includes(w))] *)
Definition query_match (query class : string) : bool :=
  truthy_str class && existsb (contains (toLowerCase class)) (words (toLowerCase query)).

Definition box_color (query : string) (d : FrameDetection) : BoxColor :=
  if fd_violation d then BoxRed else if query_match query (fd_label d) then BoxAccent else BoxGreen.
Definition preview_color (d : FrameDetection) : BoxColor := if fd_violation d then BoxRed else BoxGreen.

(** Left, top, width and height in percent. *)
Definition box_percent (b : Z * Z * Z * Z) : Q * Q * Q * Q :=
  let '(x1, y1, x2, y2) := b in
  let pc v w := (inject_Z v / inject_Z w * 100)%Q in (pc x1 1920, pc y1 1080, pc (x2 - x1) 1920, pc (y2 - y1) 1080).

Inductive Badge := BadgeGreen | BadgeAccent | BadgeAmber.
Definition relevance_badge (score : Q) : Badge := if Qle_bool (9 # 10) score then BadgeGreen else if Qle_bool (7 # 10) score then BadgeAccent else BadgeAmber.
Definition relevance_text (score : Q) : string := Format.formatConfidence score.

(** *** Captions *)

Definition LINE_BREAKS : list string := [String "010"%char EmptyString; String "013"%char EmptyString; of_bytes [226; 128; 168]%N; of_bytes [226; 128; 169]%N].

(** The rest of the pattern from its group on: characters other than quote and backslash, or
    a backslash with any character, up to a quote. *)
Fixpoint quoted_run (s : string) : option string :=
  match s with
  | EmptyString => None
  | String c r =>
      if Ascii.eqb c DQUOTE then Some EmptyString
      else if Ascii.eqb c BACKSLASH
      then match r with
           | String d r' => if existsb (λ b, String.prefix b r) LINE_BREAKS then None else (λ t, String c (String d t)) <$> quoted_run r'
           | EmptyString => None
           end
      else String c <$> quoted_run r
  end.

Fixpoint after_prefix (p s : string) : option string :=
  match p, s with
  | EmptyString, _ => Some s
  | String a p', String b s' => if Ascii.eqb a b then after_prefix p' s' else None
  | _, EmptyString => None
  end.
Definition after_space (s : string) : string := of_bytes (drop_space (String.length s) white_space (bytes_of s)).

Definition DESCRIPTION_KEY : string := String DQUOTE ("description" +:+ String DQUOTE EmptyString).
Definition match_here (s : string) : option string :=
  r ← after_prefix DESCRIPTION_KEY s; r ← after_prefix ":" (after_space r); r ← after_prefix (String DQUOTE EmptyString) (after_space r); quoted_run r.
Fixpoint first_match (s : string) : option string :=
  match match_here s with
  | Some m => Some m
  | None => match s with String _ r => first_match r | EmptyString => None end
  end.

(** Each backslash before a quote is removed. *)
Fixpoint unescape_quotes (s : string) : string :=
  match s with
  | EmptyString => EmptyString
  | String c r =>
      let u := unescape_quotes r in
      if Ascii.eqb c BACKSLASH then match r with String d _ => if Ascii.eqb d DQUOTE then u else String c u | EmptyString => String c u end else String c u
  end.

Definition cleanCaption (s : string) : string :=
  let t := trim s in
  if negb (truthy_str s) || negb (String.prefix "{" t) then s
  else match first_match t with Some m => if truthy_str m then unescape_quotes m else s | None => s end.

(** ** The request *)

Lemma go_strings_json l : go_strings (Some (strs_json l)) = Some l.
Proof.
  unfold go_strings, strs_json. induction l as [|x l IH]; [done|].
  change (mapM (λ j, go_string (Some j)) (JStr <$> x :: l)) with (k ← mapM (λ j, go_string (Some j)) (JStr <$> l); Some (x :: k)). by rewrite IH.
Qed.

Lemma jget_cons k e fs : jget k (JObj (e :: fs)) = if String.eqb e.1 k then Some e.2 else jget k (JObj fs).
Proof. unfold jget. rewrite find_where_cons. by case_match. Qed.

(** What the server decodes from the page's request. *)
Lemma search_body_decoded q f :
  decode_search (search_body q f) =
  Some (mkSearchRequest (trim q) (activeViolations f) (fl_site_ids f) (used_range (fl_date_range f)) (default 0%Q (fl_confidence_min f))
          (used_range (fl_time_of_day f)) (or_str (Some (fl_model f)) "hybrid")).
Proof.
  unfold search_body. set (m := or_str _ _).
  destruct (activeViolations f) as [|t ts]; destruct (fl_site_ids f) as [|x xs]; destruct (used_range (fl_date_range f)) as [[]|];
    destruct (fl_confidence_min f); destruct (used_range (fl_time_of_day f)) as [[]|]; unfold decode_search, range_json; cbn -[strs_json go_strings jget]; rewrite !jget_cons; cbn -[strs_json go_strings]; rewrite ?go_strings_json; reflexivity.
Qed.

Lemma elem_of_active f k : k ∈ activeViolations f ↔ k ∈ VIOLATION_TYPES ∧ k ∈ fl_violation_types f.
Proof.
  unfold activeViolations, violationTypes. rewrite list_elem_of_fmap. setoid_rewrite elem_of_filter_where. setoid_rewrite list_elem_of_fmap. split.
  - intros (x & -> & Hx & k' & -> & Hk). split; [done|]. by apply bool_decide_eq_true in Hx.
  - intros [Hk Hf]. exists (k, includes k (fl_violation_types f)). split_and!; [done|by apply bool_decide_true|by exists k].
Qed.

Lemma dead_types k : k ∈ ["zone_breach"; "vehicle_hazard"] → k ∈ VIOLATION_TYPES ∧ k ∉ FLAGS.
Proof. revert k. apply Forall_forall. apply (bool_decide_unpack _). by vm_compute. Qed.

Lemma live_types k : k ∈ VIOLATION_TYPES → k ∉ ["zone_breach"; "vehicle_hazard"] → k ∈ FLAGS.
Proof. revert k. apply (Forall_forall (λ k, k ∉ ["zone_breach"; "vehicle_hazard"] → k ∈ FLAGS)). apply (bool_decide_unpack _). by vm_compute. Qed.

(**  Two of the five boxes of the page, zone breach and vehicle hazard, match nothing:
    with one of them ticked the page sends a search whatever else is set, and the server's
    answer to it is empty, whatever it has recorded.  Each of the other three is a flag that
    alarms can have. *)
Theorem dead_checkboxes rfc3339 fts ts_rank ilike session_hour mint (s : SearchState) k allowed t1 t2 :
  k ∈ ["zone_breach"; "vehicle_hazard"] → k ∈ fl_violation_types (se_filters s) →
  (∃ body, handleSearch s = Some body ∧ HandleSearchFrames rfc3339 fts ts_rank ilike session_hour mint body allowed t1 t2 = (200, [])) ∧
  (∀ k', k' ∈ VIOLATION_TYPES → k' ∉ ["zone_breach"; "vehicle_hazard"] →
     ∀ a q, al_ppe a = Some (JArr [JObj [("class", JStr (default EmptyString (find_where (λ l, bool_decide (ppe_key l = Some k')) (ppeViolationLabelMap.*1))))]]) →
     fh_flags (alarm_hit q a) = [k']).
Proof.
  intros Hk Hs. split.
  - assert (Ha : k ∈ activeViolations (se_filters s)) by (apply elem_of_active; split; [by apply dead_types|done]).
    assert (Hne : activeViolations (se_filters s) ≠ []) by (intros E; rewrite E in Ha; by apply elem_of_nil in Ha).
    exists (search_body (se_query s) (se_filters s)). split.
    + unfold handleSearch. rewrite (bool_decide_eq_false_2 _ Hne). by rewrite andb_false_r.
    + pose proof (search_body_decoded (se_query s) (se_filters s)) as Hd.
      pose proof (unknown_type_empty rfc3339 fts ts_rank ilike session_hour mint _ _ allowed t1 t2 k Hd Ha) as He.
      specialize (He (proj2 (dead_types k Hk))).
      pose proof (answer_status rfc3339 fts ts_rank ilike session_hour mint _ _ allowed t1 t2 Hd) as Hst.
      destruct (HandleSearchFrames _ _ _ _ _ _ _ _ _ _). simpl in *. by subst.
  - intros k' Hk' Hn a q Hp. pose proof (live_types k' Hk' Hn) as Hin.
    unfold alarm_hit. rewrite Hp. cbn [fh_flags default]. unfold FLAGS in Hin. clear -Hin.
    apply elem_of_cons in Hin as [->|Hin]; [by vm_compute|]. apply elem_of_cons in Hin as [->|Hin]; [by vm_compute|].
    apply list_elem_of_singleton in Hin as ->. by vm_compute.
Qed.

Lemma dead_checkboxes_witness :
  ∃ body, handleSearch (updateFilters (toggleViolation "zone_breach" DEFAULT_FILTERS) (setQuery "crane" initial_search)) = Some body ∧
    HandleSearchFrames (λ _, None) contains (λ _ _, 1%Q) (λ _ _, true) (λ _, 0) (λ _ _ _ _, EmptyString) body None sample_segs sample_alarms = (200, []).
Proof.
  apply (dead_checkboxes (λ _, None) contains (λ _ _, 1%Q) (λ _ _, true) (λ _, 0) (λ _ _ _ _, EmptyString)
    (updateFilters (toggleViolation "zone_breach" DEFAULT_FILTERS) (setQuery "crane" initial_search)) "zone_breach"); by apply (bool_decide_unpack _); vm_compute.
Defined.

(** ** Saved searches *)

Lemma as_strs_json l : as_strs (strs_json l) = l.
Proof.
  unfold as_strs, strs_json. induction l as [|x l IH]; [done|].
  change (omap str_of (JStr <$> x :: l)) with (x :: omap str_of (JStr <$> l)). by rewrite IH.
Qed.

Lemma as_range_json r : as_range (range_json r) = r.
Proof. by destruct r. Qed.

(** Undefined filters have no key in the storage. *)
Lemma stored_filters_json f :
  stored_filters (filters_json f) =
  mkPartial (Some (fl_violation_types f)) (Some (fl_site_ids f)) (Some <$> fl_date_range f) (Some <$> fl_confidence_min f) (Some <$> fl_time_of_day f) (Some (fl_model f)).
Proof. destruct f as [ty si [[]|] [|] [[]|] mo]; unfold stored_filters, filters_json; cbn -[jget as_strs strs_json]; rewrite !jget_cons; cbn -[as_strs strs_json]; rewrite !as_strs_json; reflexivity. Qed.

(** The list of the page is what the storage has. *)
Definition mirrors (p : SearchPage) : Prop := sv_id <$> sp_saved p = ss_id <$> readSavedSearches (sp_storage p).

Lemma filter_ids id (l : list SavedEntry) (l' : list SavedSearch) :
  sv_id <$> l = ss_id <$> l' →
  sv_id <$> filter_where (λ e, negb (String.eqb (sv_id e) id)) l = ss_id <$> filter_where (λ e, negb (String.eqb (ss_id e) id)) l'.
Proof.
  revert l'. induction l as [|x l IH]; intros [|y l'] H; try done. injection H as Hx Hl.
  rewrite !filter_where_cons, Hx. case_match; [|by apply IH]. rewrite !fmap_cons, Hx. by rewrite (IH l' Hl).
Qed.

Lemma mirrors_step p e : mirrors p → mirrors (search_step p e).
Proof.
  unfold mirrors. intros H. destruct e; simpl; try done; try (repeat case_match; done).
  - unfold submit_search. by case_match.
  - unfold submit_search. repeat case_match; done.
  - unfold handleSaveSearch. case_match; [|done]. simpl. by f_equal.
  - case_match; [|done]. case_match; [|done]. simpl. revert H. generalize (readSavedSearches (sp_storage p)). generalize (sp_saved p).
    apply filter_ids.
  - unfold settle_search. repeat case_match; done.
Qed.

(**  A search is saved with its query and all its filters.  Loaded on the page that
    saved it, it restores them all; loaded after the page was opened again, it restores the
    query, the types, the sites and the model, but of dates, confidence and hours only those
    that were set: the others keep the value they have when it is loaded. *)
Theorem saved_search_exact (p : SearchPage) now random (p' : SearchPage) store :
  truthy_str (trim (se_query (sp_store p))) = true →
  let f := se_filters (sp_store p) in let saved := handleSaveSearch now random p in
  let reopened := mount_search store (sp_storage saved) in
  (∃ e r, sp_saved saved = e :: r ∧
     se_query (sp_store (handleLoadSaved e p')) = trim (se_query (sp_store p)) ∧ se_filters (sp_store (handleLoadSaved e p')) = f) ∧
  (∃ e r, sp_saved reopened = e :: r ∧
     se_query (sp_store (handleLoadSaved e p')) = trim (se_query (sp_store p)) ∧
     let cur := se_filters (sp_store p') in
     se_filters (sp_store (handleLoadSaved e p')) =
       mkFilters (fl_violation_types f) (fl_site_ids f)
         (match fl_date_range f with Some r => Some r | None => fl_date_range cur end)
         (match fl_confidence_min f with Some c => Some c | None => fl_confidence_min cur end)
         (match fl_time_of_day f with Some r => Some r | None => fl_time_of_day cur end) (fl_model f)) ∧
  (mirrors p → mirrors saved ∧ mirrors reopened).
Proof.
  intros Hq f saved reopened. unfold reopened, saved, handleSaveSearch. rewrite Hq. cbn [createSavedSearch].
  split_and!.
  - eexists _, _. split_and!; [reflexivity|reflexivity|]. unfold f. by destruct (se_filters (sp_store p)).
  - eexists _, _. split_and!; [reflexivity|reflexivity|]. simpl. fold f.
    rewrite stored_filters_json. unfold merge_filters. simpl. by destruct f as [ty si [|] [|] [|] mo].
  - intros H. split; unfold mirrors in *; simpl; [by f_equal|]. f_equal. by rewrite <- list_fmap_compose.
Qed.

Definition sample_page : SearchPage := mount_search (setQuery " van " initial_search) None.

Lemma saved_search_exact_witness :
  truthy_str (trim " van ") = true ∧ mirrors (handleSaveSearch 0 "x" sample_page).
Proof. split; [by vm_compute|]. apply (saved_search_exact sample_page 0 "x" sample_page initial_search); by vm_compute. Defined.

(** ** Results *)

Section runs.
Context (answer : json → option (list json)).   (* the server's answer to a body; [None] is a failure *)

(** Runs from a fresh store, with the body of the search answered last. *)
Inductive search_run (storage : Storage) : SearchPage → option json → Prop :=
| search_opened : search_run storage (mount_search initial_search storage) None
| search_acts p b e : search_run storage p b → (∀ i r, e ≠ SearchSettles i r) → search_run storage (search_step p e) b
| search_answers p b i n body : search_run storage p b → sp_tasks p !! i = Some (n, body) →
    search_run storage (search_step p (SearchSettles i (answer body))) (match answer body with Some _ => Some body | None => b end).

Definition results_of (b : option json) : list json := match b with Some x => default [] (answer x) | None => [] end.

Record search_ok (p : SearchPage) (b : option json) : Prop := {
  ok_results : se_results (sp_store p) = results_of b;
  ok_searched : se_hasSearched (sp_store p) = true ↔ b ≠ None;
  ok_selected : ∀ id, se_selectedResultId (sp_store p) = Some id → ∃ r, r ∈ se_results (sp_store p) ∧ frame_id r = id;
  ok_sent : ∀ t, t ∈ sp_tasks p → (t.1 < sp_sent p)%nat ∧ ∃ s, handleSearch s = Some t.2
}.

(** Steps that leave results, selection and tasks alone. *)
Lemma search_ok_same p q b :
  se_results (sp_store q) = se_results (sp_store p) → se_hasSearched (sp_store q) = se_hasSearched (sp_store p) →
  se_selectedResultId (sp_store q) = se_selectedResultId (sp_store p) → sp_tasks q = sp_tasks p → sp_sent q = sp_sent p → search_ok p b → search_ok q b.
Proof. intros H1 H2 H3 H4 H5 [? ? ? ?]. split; rewrite ?H1, ?H2, ?H3, ?H4, ?H5; done. Qed.

Lemma search_submit_ok p b : search_ok p b → search_ok (submit_search p) b.
Proof.
  intros [? ? ? Ht]. unfold submit_search. destruct (handleSearch (sp_store p)) as [body|] eqn:E; [|by split].
  split; simpl; try done. intros t [Hin| ->%list_elem_of_singleton]%elem_of_app; simpl.
  - apply Ht in Hin as [? ?]. split; [lia|done].
  - split; [lia|]. by exists (sp_store p).
Qed.

Lemma search_run_ok storage p b : search_run storage p b → search_ok p b.
Proof.
  induction 1 as [|p b e Hr IH He|p b i n body Hr IH Ht].
  - split; simpl; [done|naive_solver|done|by intros t ?%elem_of_nil].
  - destruct e; simpl; try (by apply search_submit_ok); try (by eapply (search_ok_same p)); try (repeat case_match; by (try apply search_submit_ok; try eapply (search_ok_same p))).
    + unfold handleSaveSearch. case_match; [by eapply (search_ok_same p)|done].
    + destruct (se_results (sp_store p) !! i) as [r|] eqn:E; [|done]. destruct IH as [? ? ? ?]. split; simpl; try done.
      intros id [= <-]. exists r. split; [by eapply list_elem_of_lookup_2|done].
    + by destruct (He i reply).
  - simpl. unfold settle_search. rewrite Ht. destruct IH as [? ? ? Hs].
    assert (Hd : ∀ t, t ∈ delete i (sp_tasks p) → t ∈ sp_tasks p) by (intros t; apply elem_of_delete_1).
    destruct (answer body) as [l|] eqn:E; split; simpl; try done; try (by intros t Hin%Hd; apply Hs).
    by rewrite E.
Qed.

(**  In every run the results are the whole answer to the search that was answered last,
    which need not be the one sent last nor the one that the query box and the page's texts
    name: with two searches under way the earlier one replaces the later when its answer
    comes second.  A failed search changes nothing on the page.  The selected result is
    always one of those shown. *)
Theorem search_results_exact storage p b :
  search_run storage p b →
  se_results (sp_store p) = results_of b ∧
  (notices (sp_store p) = match b with
     | None => [AskQuery]
     | Some _ => if (length (results_of b) =? 0)%nat then [NoneFound (se_query (sp_store p))] else [CountFound (length (results_of b)) (se_query (sp_store p))]
     end) ∧
  (∀ id, se_selectedResultId (sp_store p) = Some id → ∃ r, selected (sp_store p) = Some r ∧ frame_id r = id) ∧
  (∀ i j n m x y, sp_tasks p !! i = Some (n, x) → sp_tasks p !! j = Some (m, y) → (i < j)%nat →
     ∀ lx ly, answer x = Some lx → answer y = Some ly →
     se_results (sp_store (search_step (search_step p (SearchSettles j (answer y))) (SearchSettles i (answer x)))) = lx) ∧
  (∀ i, se_results (sp_store (search_step p (SearchSettles i None))) = se_results (sp_store p)).
Proof.
  intros H%search_run_ok. destruct H as [Hr Hh Hs Ht]. split_and!; [done| | | |].
  - unfold notices. rewrite Hr. destruct b as [x|].
    + rewrite (proj2 Hh) by done. simpl. by destruct (length (default [] (answer x))).
    + destruct (se_hasSearched (sp_store p)); [by destruct (proj1 Hh)|done].
  - intros id Hid. destruct (Hs id Hid) as (r & Hin & Hf). unfold selected, selectedIdx.
    destruct (find_index _ _) as [k|] eqn:E.
    + apply find_index_Some in E as (r' & Hk & Hp & _). simpl. rewrite Hk. exists r'. split; [done|].
      apply bool_decide_eq_true in Hp. congruence.
    + exfalso. eapply find_index_None in E; [|exact Hin]. apply bool_decide_eq_false in E. apply E. by rewrite Hid, Hf.
  - intros i j n m x y Hi Hj Hlt lx ly Hx Hy. simpl. unfold settle_search at 2. rewrite Hj, Hy. simpl.
    unfold settle_search. simpl. rewrite list_lookup_delete_lt by done. rewrite Hi. by rewrite Hx.
  - intros i. simpl. unfold settle_search. by destruct (sp_tasks p !! i).
Qed.
End runs.

Definition sample_answer (body : json) : option (list json) := Some [JObj [("frame_id", JStr "seg-1")]].
Definition sample_run : SearchPage :=
  search_step (search_step (search_step (search_step (mount_search initial_search None) (TypeQuery "van")) PressEnter)
    (SearchSettles 0 (sample_answer JNull))) (ClickResult 0).

Lemma sample_run_reached : search_run sample_answer None sample_run (Some (search_body "van" DEFAULT_FILTERS)).
Proof.
  unfold sample_run. apply (search_acts _ _ _ _ (ClickResult 0)); [|done].
  change (sample_answer JNull) with (sample_answer (search_body "van" DEFAULT_FILTERS)).
  eapply (search_answers sample_answer None _ None 0 0 (search_body "van" DEFAULT_FILTERS)); [|by vm_compute].
  apply (search_acts _ _ _ _ PressEnter); [|done]. apply (search_acts _ _ _ _ (TypeQuery "van")); [|done]. constructor.
Qed.

Lemma search_results_exact_witness :
  (∃ r, selected (sp_store sample_run) = Some r ∧ frame_id r = "seg-1") ∧ notices (sp_store sample_run) = [CountFound 1 "van"].
Proof.
  destruct (search_results_exact sample_answer None sample_run _ sample_run_reached) as (_ & Hn & Hs & _).
  split; [apply Hs; by vm_compute|]. rewrite Hn. by vm_compute.
Defined.

(** ** Captions *)

(** Text that the serialiser leaves as it is, but for quotes. *)
Definition caption_char (c : ascii) : bool := negb (Ascii.eqb c BACKSLASH) && (32 <=? code c)%N.
Definition caption_text (s : string) : Prop := forallb caption_char (String.list_ascii_of_string s) = true.

(** The escape of a given character. *)
Ltac escaped :=
  repeat match goal with |- context [escape_char ?c] => let e := eval vm_compute in (escape_char c) in change (escape_char c) with e end;
  rewrite ?sapp_cons, ?sapp_empty.

Lemma quoted_run_plain c t v : Ascii.eqb c DQUOTE = false → Ascii.eqb c BACKSLASH = false → quoted_run t = Some v → quoted_run (String c t) = Some (String c v).
Proof. intros H1 H2 H. simpl. by rewrite H1, H2, H. Qed.

Lemma quoted_run_escaped e t v :
  forallb (λ b, match b with String a _ => negb (Ascii.eqb a e) | EmptyString => false end) LINE_BREAKS = true →
  quoted_run t = Some v → quoted_run (String BACKSLASH (String e t)) = Some (String BACKSLASH (String e v)).
Proof.
  intros He H. assert (existsb (λ b, String.prefix b (String e t)) LINE_BREAKS = false) as Hb.
  { apply not_true_iff_false. intros (b & Hb & Hp)%existsb_exists. rewrite forallb_forall in He. specialize (He b Hb).
    destruct b as [|a b]; [done|]. simpl in Hp. destruct (ascii_dec a e) as [->|]; [by rewrite Ascii.eqb_refl in He|done]. }
  change (quoted_run (String BACKSLASH (String e t))) with
    (if existsb (λ b, String.prefix b (String e t)) LINE_BREAKS then None else (λ t, String BACKSLASH (String e t)) <$> quoted_run t).
  by rewrite Hb, H.
Qed.

(** The group of the pattern is the serialised text, up to its closing quote. *)
Lemma quoted_run_escape s r : quoted_run (escape s +:+ String DQUOTE r) = Some (escape s).
Proof.
  induction s as [|c s IH]; [done|].
  assert (H : ∀ t, quoted_run t = Some (escape s) → quoted_run (escape_char c +:+ t) = Some (escape_char c +:+ escape s)).
  { intros t Ht. destruct c as [[] [] [] [] [] [] [] []]; escaped;
      repeat first [exact Ht|apply quoted_run_escaped; [reflexivity|]|apply quoted_run_plain; [reflexivity..|]]. }
  simpl escape. rewrite <- sapp_assoc. by apply H.
Qed.

Lemma unescape_escape s : caption_text s → unescape_quotes (escape s) = s.
Proof.
  induction s as [|c s IH]; [done|]. unfold caption_text. simpl. intros [Hc Hs]%andb_prop. specialize (IH Hs).
  destruct c as [[] [] [] [] [] [] [] []]; try discriminate Hc; escaped; cbn; by rewrite IH.
Qed.

Lemma after_space_solid c s : solid white_space (code c) = true → after_space (String c s) = String c s.
Proof.
  intros H. unfold after_space. change (bytes_of (String c s)) with (code c :: bytes_of s). rewrite drop_space_solid by done.
  change (code c :: bytes_of s) with (bytes_of (String c s)). apply of_bytes_of.
Qed.

Lemma match_here_text d r : match_here (DESCRIPTION_KEY +:+ ":" +:+ String DQUOTE (escape d +:+ String DQUOTE r)) = Some (escape d).
Proof.
  unfold match_here. set (t := String DQUOTE (escape d +:+ _)).
  assert (after_prefix DESCRIPTION_KEY (DESCRIPTION_KEY +:+ ":" +:+ t) = Some (String ":" t)) as -> by (unfold DESCRIPTION_KEY; rewrite ?sapp_cons; reflexivity).
  change (after_prefix ":" (after_space (String ":" t)) ≫= (λ r1, after_prefix (String DQUOTE EmptyString) (after_space r1) ≫= (λ r2, quoted_run r2)) = Some (escape d)).
  rewrite after_space_solid by reflexivity. change (after_prefix ":" (String ":" t)) with (Some t).
  change (after_prefix (String DQUOTE EmptyString) (after_space t) ≫= (λ r2, quoted_run r2) = Some (escape d)).
  unfold t. rewrite after_space_solid by reflexivity. apply quoted_run_escape.
Qed.

Lemma first_match_here s m : match_here s = Some m → first_match s = Some m.
Proof.
  destruct s as [|a s]; intros H; [discriminate H|].
  change (first_match (String a s)) with (match match_here (String a s) with Some m => Some m | None => first_match s end). by rewrite H.
Qed.

(** The text of an object that begins with its description. *)
Lemma description_text ft d fs :
  ∃ r, stringify ft (JObj (("description", JStr d) :: fs)) = String "{" (DESCRIPTION_KEY +:+ ":" +:+ String DQUOTE (escape d +:+ String DQUOTE (r +:+ "}"))).
Proof.
  assert (Hj : ∀ x l, ∃ z, join_with "," (x :: l) = x +:+ z).
  { intros x [|y l]; [exists EmptyString; symmetry; apply sapp_nil|]. by eexists. }
  change (∃ r, String "{" (join_with "," ((DESCRIPTION_KEY +:+ ":" +:+ quoted_text d) :: map (λ e, quoted_text e.1 +:+ ":" +:+ stringify ft e.2) fs) +:+ "}") =
    String "{" (DESCRIPTION_KEY +:+ ":" +:+ String DQUOTE (escape d +:+ String DQUOTE (r +:+ "}")))).
  destruct (Hj (DESCRIPTION_KEY +:+ ":" +:+ quoted_text d) (map (λ e, quoted_text e.1 +:+ ":" +:+ stringify ft e.2) fs)) as [z ->].
  exists z. unfold quoted_text. by rewrite <- !sapp_assoc, !sapp_cons, <- !sapp_assoc, !sapp_cons, !sapp_empty.
Qed.

(**  A caption stored as the model's JSON object is shown as its description, whatever
    the fields after it, when that has no control character or backslash; quotes are
    restored.  A caption that is no object is shown as it is. *)
Theorem caption_cleaned ft d fs :
  caption_text d → d ≠ EmptyString →
  cleanCaption (stringify ft (JObj (("description", JStr d) :: fs))) = d ∧ (String.prefix "{" (trim d) = false → cleanCaption d = d).
Proof.
  intros Hd Hne. split.
  - destruct (description_text ft d fs) as [r ->]. unfold cleanCaption.
    set (k := DESCRIPTION_KEY +:+ _).
    assert (trim (String "{" k) = String "{" k) as ->.
    { assert (∃ z, k = z +:+ String "}" EmptyString) as [z ->].
      { exists (DESCRIPTION_KEY +:+ ":" +:+ String DQUOTE (escape d +:+ String DQUOTE r)). unfold k.
        rewrite <- !sapp_assoc, !sapp_cons, <- !sapp_assoc, !sapp_cons. reflexivity. }
      change trim with (trim_with white_space). by apply trim_solid. }
    cbn [truthy_str]. assert (first_match (String "{" k) = Some (escape d)) as ->.
    { assert (first_match (String "{" k) = first_match k) as -> by reflexivity.
      apply first_match_here, match_here_text. }
    simpl. rewrite (unescape_escape _ Hd).
    destruct d as [|c d]; [done|]. simpl escape. unfold escape_char. by repeat case_match; rewrite ?sapp_cons.
  - intros Hp. unfold cleanCaption. by rewrite Hp, orb_true_r.
Qed.

Lemma caption_cleaned_witness :
  cleanCaption (stringify (λ _, EmptyString) (JObj [("description", JStr "A white van"); ("tags", JArr [])])) = "A white van" ∧ cleanCaption "A white van" = "A white van".
Proof.
  destruct (caption_cleaned (λ _, EmptyString) "A white van" [("tags", JArr [])]) as [H1 H2]; [by vm_compute|done|].
  split; [exact H1|]. apply H2. by vm_compute.
Defined.

(** ** Hours *)

(** The value of a time input. *)
Definition hhmm (h : Z) (minutes : string) : string := pad_start 2 h +:+ ":" +:+ minutes.

Lemma scan_hhmm h m : 0 ≤ h ≤ 23 → scan_hour (hhmm h m) = Some h.
Proof.
  intros H. assert (Hin : h ∈ seqZ 0 24) by (apply elem_of_seqZ; lia). clear H. revert h Hin. apply Forall_forall.
  repeat (constructor; [unfold hhmm; cbn -[String.append]; rewrite ?sapp_cons; reflexivity|]). constructor.
Qed.

(**  Two times picked on the page select whole hours, from the hour of the first round
    the clock to the hour of the second and through the end of it: the minutes are ignored,
    so until 17:00 includes 17:59, and from 08:30 begins at 08:00. *)
Theorem picked_hours (p : SearchPage) h1 h2 m1 m2 hour :
  0 ≤ h1 ≤ 23 → 0 ≤ h2 ≤ 23 → 0 ≤ hour ≤ 23 →
  let f := se_filters (sp_store (search_step (search_step p (HourFrom (hhmm h1 m1))) (HourTo (hhmm h2 m2)))) in
  ∃ req, decode_search (search_body (se_query (sp_store p)) f) = Some req ∧
    in_hours (parseTimeOfDay (fq_hours req)) hour = ((hour - h1) mod 24 <=? (h2 - h1) mod 24).
Proof.
  intros H1 H2 Hh f. eexists. split; [apply search_body_decoded|]. cbn [fq_hours].
  assert (Hne : ∀ h m, truthy_str (hhmm h m) = true ∨ hhmm h m = EmptyString) by (intros h m; by destruct (hhmm h m); [right|left]).
  assert (Ht : truthy_str (hhmm h1 m1) = true).
  { destruct (Hne h1 m1) as [H|H]; [done|]. pose proof (scan_hhmm h1 m1 H1) as E. by rewrite H in E. }
  assert (E : fl_time_of_day f = Some (mkRange (or_str (Some (hhmm h1 m1)) "00:00") (hhmm h2 m2))) by reflexivity.
  unfold or_str in E. rewrite Ht in E. rewrite E. unfold used_range. cbn [rg_start rg_end]. rewrite Ht.
  cbn [orb parseTimeOfDay rg_start rg_end]. rewrite !scan_hhmm by done. cbn [default in_hours]. unfold id.
  apply Bool.eq_true_iff_eq. rewrite Z.leb_le. destruct (Z.leb_spec h1 h2); rewrite ?andb_true_iff, ?orb_true_iff, !Z.leb_le; Z.div_mod_to_equations; lia.
Qed.

Lemma picked_hours_witness :
  ∃ req, decode_search (search_body " van " (se_filters (sp_store (search_step (search_step sample_page (HourFrom (hhmm 20 "30"))) (HourTo (hhmm 6 "00")))))) = Some req ∧
    in_hours (parseTimeOfDay (fq_hours req)) 6 = true.
Proof. apply (picked_hours sample_page 20 6 "30" "00" 6); lia. Defined.
