(* ===== verification/Labeling.v ===== *)
(** * The labeling queue

    The annotation page of [app/admin/labeling/page.tsx] with its server:
    [internal/api/labeling.go] and [internal/database/vlm_labels.go].  Several annotators
    work at one queue; each page sends requests whose processing and answers interleave in
    any order, and pages are opened and closed at any time. *)

From S2P Require Import Prelude Types Http AdminConsole JsonText SiteServer SearchServer SearchPage.
From Stdlib Require Import Ascii QArith.
From stdpp Require Import relations.
#[local] Open Scope string_scope.
#[local] Open Scope Z_scope.

(** ** The tables *)

Inductive JobStatus := JsPending | JsClaimed | JsLabeled | JsSkipped.
#[export] Instance JobStatus_eq : EqDecision JobStatus.
Proof. solve_decision. Defined.

Definition status_text (s : JobStatus) : string :=
  match s with JsPending => "pending" | JsClaimed => "claimed" | JsLabeled => "labeled" | JsSkipped => "skipped" end.

Record LabelJob := mkLabelJob {
  lj_id : Z;
  lj_alarm : string;
  lj_camera : option string;
  lj_site : string;
  lj_snapshot : string;
  lj_description : string;
  lj_threat : string;
  lj_model : string;
  lj_yolo : json;
  lj_status : JobStatus;
  lj_claimed_by : option string;
  lj_claimed_at : option Z;
  lj_created : Z
}.

Record LabelRow := mkLabelRow {
  lb_job : Z;
  lb_annotator : string;
  lb_verdict : string;
  lb_description : string;
  lb_threat : string;
  lb_tags : list string;
  lb_notes : string;
  lb_at : Z
}.

Record LabelDB := mkLabelDB { ld_jobs : list LabelJob; ld_labels : list LabelRow }.

Definition job_is (id : Z) (j : LabelJob) : bool := lj_id j =? id.
Definition in_status (s : JobStatus) (j : LabelJob) : bool := bool_decide (lj_status j = s).

(** [EnqueueLabelJob]; the alarm is unique, the id comes from the table's sequence. *)
Definition EnqueueLabelJob (id now : Z) (alarm : string) (camera : option string) (site snapshot description threat model : string) (yolo : json) (db : LabelDB) : LabelDB :=
  if existsb (λ j, String.eqb (lj_alarm j) alarm) (ld_jobs db) then db
  else mkLabelDB (ld_jobs db ++ [mkLabelJob id alarm camera site snapshot description threat model yolo JsPending None None now])%list (ld_labels db).

Definition claim_for (a : string) (now : Z) (j : LabelJob) : LabelJob :=
  mkLabelJob (lj_id j) (lj_alarm j) (lj_camera j) (lj_site j) (lj_snapshot j) (lj_description j) (lj_threat j) (lj_model j) (lj_yolo j) JsClaimed (Some a) (Some now) (lj_created j).
Definition put_status (s : JobStatus) (j : LabelJob) : LabelJob :=
  mkLabelJob (lj_id j) (lj_alarm j) (lj_camera j) (lj_site j) (lj_snapshot j) (lj_description j) (lj_threat j) (lj_model j) (lj_yolo j) s (lj_claimed_by j) (lj_claimed_at j) (lj_created j).

(** The claim of a pending job: the job as it is afterwards, or no row. *)
Definition ClaimLabelJob (id : Z) (a : string) (now : Z) (db : LabelDB) : option LabelJob * LabelDB :=
  let hit j := job_is id j && in_status JsPending j in
  (claim_for a now <$> find_where hit (ld_jobs db), mkLabelDB (map_where hit (claim_for a now) (ld_jobs db)) (ld_labels db)).

(** The oldest pending job; of several of one time, the first of the table. *)
Definition oldest_pending (db : LabelDB) : option LabelJob :=
  head (sort_by (λ a b, lj_created a <=? lj_created b) (filter_where (in_status JsPending) (ld_jobs db))).
Definition NextPendingLabelJob (a : string) (now : Z) (db : LabelDB) : option LabelJob * LabelDB :=
  match oldest_pending db with Some j => ClaimLabelJob (lj_id j) a now db | None => (None, db) end.

(** [WHERE id=$1 AND claimed_by=$2] *)
Definition claimed_job (id : Z) (a : string) (j : LabelJob) : bool := job_is id j && bool_decide (lj_claimed_by j = Some a).

Definition VERDICTS : list string := ["correct"; "incorrect"; "needs_correction"].

Record LabelBody := mkLabelBody { bd_verdict : string; bd_description : string; bd_threat : string; bd_tags : option (list string); bd_notes : string }.

(** [None] is an error, which rolls the transaction back: a verdict that is not allowed, a
    job that does not exist (a foreign key), or no tags at all (the column is not null). *)
Definition SubmitLabel (id : Z) (a : string) (now : Z) (b : LabelBody) (db : LabelDB) : option LabelDB :=
  if String.eqb (bd_verdict b) "skipped"
  then Some (mkLabelDB (map_where (claimed_job id a) (put_status JsSkipped) (ld_jobs db)) (ld_labels db))
  else if negb (includes (bd_verdict b) VERDICTS) then None
  else match bd_tags b with
       | Some tags =>
           if existsb (job_is id) (ld_jobs db)
           then Some (mkLabelDB (map_where (claimed_job id a) (put_status JsLabeled) (ld_jobs db))
                        (ld_labels db ++ [mkLabelRow id a (bd_verdict b) (bd_description b) (bd_threat b) tags (bd_notes b) now])%list)
           else None
       | None => None
       end.

(** [ListLabelJobs]: newest first; a limit that is not from 1 to 200 is 50. *)
Definition ListLabelJobs (status : string) (limit : Z) (db : LabelDB) : list LabelJob :=
  let n := if (limit <=? 0) || (200 <? limit) then 50 else limit in
  take (Z.to_nat n) (sort_by (λ a b, lj_created b <=? lj_created a)
    (filter_where (λ j, negb (truthy_str status) || String.eqb (status_text (lj_status j)) status) (ld_jobs db))).

Record LabelingStats := mkLabelingStats {
  st_pending : nat; st_claimed : nat; st_labeled : nat; st_skipped : nat; st_total : nat;
  st_correct : nat; st_incorrect : nat; st_needs_correction : nat
}.
Definition GetLabelingStats (db : LabelDB) : LabelingStats :=
  let n s := length (filter_where (in_status s) (ld_jobs db)) in
  let v t := length (filter_where (λ l, String.eqb (lb_verdict l) t) (ld_labels db)) in
  mkLabelingStats (n JsPending) (n JsClaimed) (n JsLabeled) (n JsSkipped) (length (ld_jobs db)) (v "correct") (v "incorrect") (v "needs_correction").

(** *** Export *)

(** The label rows of the export, newest first, each with its job. *)
Definition export_rows (verdict : string) (db : LabelDB) : list (LabelRow * LabelJob) :=
  sort_by (λ x y, lb_at y.1 <=? lb_at x.1)
    (filter_where (λ x, negb (truthy_str verdict) || String.eqb verdict "all" || String.eqb (lb_verdict x.1) verdict)
      (l ← ld_labels db; j ← filter_where (λ j, job_is (lb_job l) j && in_status JsLabeled j) (ld_jobs db); [(l, j)])).

(** [strings.ReplaceAll(s, quote, backslash quote)] *)
Fixpoint escape_quotes (s : string) : string :=
  match s with
  | EmptyString => EmptyString
  | String c r => if Ascii.eqb c DQUOTE then String BACKSLASH (String DQUOTE (escape_quotes r)) else String c (escape_quotes r)
  end.

Definition in_quotes (s : string) : string := String DQUOTE (s +:+ String DQUOTE EmptyString).

Definition final_description (l : LabelRow) (j : LabelJob) : string := if truthy_str (lb_description l) then lb_description l else lj_description j.
Definition final_threat (l : LabelRow) (j : LabelJob) : string := if truthy_str (lb_threat l) then lb_threat l else lj_threat j.

(** The answer that the model is trained on, meant to be JSON. *)
Definition assistantContent (description threat : string) : string :=
  String "{" (in_quotes "description" +:+ ":" +:+ in_quotes (escape_quotes description) +:+ "," +:+ in_quotes "threat_level" +:+ ":" +:+ in_quotes threat +:+ "," +:+
    in_quotes "recommended_action" +:+ ":" +:+ in_quotes "Monitor and document." +:+ "}").

Definition system_prompt : string := "You are a security camera analyst. Describe what you observe in the image, assess the threat level, and recommend an action.".
Definition user_content (tags : list string) : string :=
  "<image>" +:+ String "010"%char ("Analyze this security camera frame. Site context: surveillance footage." +:+
    match tags with [] => EmptyString | _ => " Tags: " +:+ String.concat ", " tags +:+ "." end).

(** A line of the export; the keys of a Go map are written in order. *)
Definition export_line (x : LabelRow * LabelJob) : json :=
  let '(l, j) := x in
  let message role content := JObj [("content", JStr content); ("role", JStr role)] in
  JObj [("messages", JArr [message "system" system_prompt; message "user" (user_content (lb_tags l));
                           message "assistant" (assistantContent (final_description l j) (final_threat l j))]);
        ("metadata", JObj [("snapshot_url", JStr (lj_snapshot j)); ("verdict", JStr (lb_verdict l)); ("yolo", lj_yolo j)])].

Definition ExportLabeledDataset (verdict : string) (db : LabelDB) : list json := export_line <$> export_rows verdict db.

(** ** Handlers *)

Inductive LabelRequest := RqStats | RqNext | RqLabel (id : Z) (body : json) | RqJobs (status : string).
Inductive LabelReply := RpStats (s : LabelingStats) | RpNext (j : option LabelJob) | RpSaved | RpJobs (l : list LabelJob) | RpError (text : string) | RpLost (text : string).

(** The body of a label: [None] does not decode. *)
Definition decode_label (body : json) : option LabelBody :=
  match body with
  | JObj _ | JNull =>
      v ← go_string (jget "verdict" body); d ← go_string (jget "corrected_description" body); t ← go_string (jget "corrected_threat" body);
      g ← match jget "tags" body with None | Some JNull => Some None | o => Some <$> go_strings o end; n ← go_string (jget "notes" body);
      Some (mkLabelBody v d t g n)
  | _ => None
  end.

(** The answer to a request of the annotator [a], whose id is a UUID, and the tables. *)
Definition serve_label (role a : string) (now : Z) (rq : LabelRequest) (db : LabelDB) : LabelReply * LabelDB :=
  if negb (requireAdminOrSupervisor role) then (RpError "forbidden", db)
  else match rq with
       | RqStats => (RpStats (GetLabelingStats db), db)
       | RqNext => let '(j, db') := NextPendingLabelJob a now db in (RpNext j, db')
       | RqLabel id body =>
           match decode_label body with
           | None => (RpError "invalid JSON", db)
           | Some b => if truthy_str (bd_verdict b)
                       then match SubmitLabel id a now b db with Some db' => (RpSaved, db') | None => (RpError "insert label", db) end
                       else (RpError "verdict required", db)
           end
       | RqJobs status => (RpJobs (ListLabelJobs status 100 db), db)
       end.

(** ** The page *)

Inductive LabelTask :=
| TkStats                        (* fetchStats on its own *)
| TkNext (submitting : bool)     (* the claim of claimNext, inside submitLabel or not *)
| TkNextStats (submitting : bool) (* the fetchStats at its end *)
| TkLabel                        (* the label of submitLabel *)
| TkJobs.                        (* loadQueue *)

Record LabelPage := mkLabelPage {
  lp_stats : option LabelingStats;
  lp_job : option LabelJob;
  lp_empty : bool;
  lp_loading : bool;
  lp_saving : bool;
  lp_msg : option (bool * string);
  lp_verdict : string;
  lp_desc : string;
  lp_threat : string;
  lp_tags : list string;
  lp_notes : string;
  lp_custom : string;
  lp_show : bool;
  lp_queue : list LabelJob;
  lp_status : string;
  lp_tasks : list (LabelTask * LabelRequest * option LabelReply)   (* with the answer once the server has made it *)
}.

Definition QUEUE_TABS : list string := ["pending"; "labeled"; "skipped"].

Definition upd_lp_job (j : option LabelJob) (empty : bool) (p : LabelPage) : LabelPage :=
  mkLabelPage (lp_stats p) j empty (lp_loading p) (lp_saving p) (lp_msg p) (lp_verdict p) (lp_desc p) (lp_threat p) (lp_tags p) (lp_notes p) (lp_custom p) (lp_show p) (lp_queue p) (lp_status p) (lp_tasks p).
Definition upd_lp_stats (s : LabelingStats) (p : LabelPage) : LabelPage :=
  mkLabelPage (Some s) (lp_job p) (lp_empty p) (lp_loading p) (lp_saving p) (lp_msg p) (lp_verdict p) (lp_desc p) (lp_threat p) (lp_tags p) (lp_notes p) (lp_custom p) (lp_show p) (lp_queue p) (lp_status p) (lp_tasks p).
Definition upd_lp_flags (loading saving : bool) (msg : option (bool * string)) (p : LabelPage) : LabelPage :=
  mkLabelPage (lp_stats p) (lp_job p) (lp_empty p) loading saving msg (lp_verdict p) (lp_desc p) (lp_threat p) (lp_tags p) (lp_notes p) (lp_custom p) (lp_show p) (lp_queue p) (lp_status p) (lp_tasks p).
Definition upd_lp_form (verdict desc threat : string) (tags : list string) (notes custom : string) (p : LabelPage) : LabelPage :=
  mkLabelPage (lp_stats p) (lp_job p) (lp_empty p) (lp_loading p) (lp_saving p) (lp_msg p) verdict desc threat tags notes custom (lp_show p) (lp_queue p) (lp_status p) (lp_tasks p).
Definition upd_lp_queue (show : bool) (l : list LabelJob) (status : string) (p : LabelPage) : LabelPage :=
  mkLabelPage (lp_stats p) (lp_job p) (lp_empty p) (lp_loading p) (lp_saving p) (lp_msg p) (lp_verdict p) (lp_desc p) (lp_threat p) (lp_tags p) (lp_notes p) (lp_custom p) show l status (lp_tasks p).
Definition upd_lp_tasks (t : list (LabelTask * LabelRequest * option LabelReply)) (p : LabelPage) : LabelPage :=
  mkLabelPage (lp_stats p) (lp_job p) (lp_empty p) (lp_loading p) (lp_saving p) (lp_msg p) (lp_verdict p) (lp_desc p) (lp_threat p) (lp_tags p) (lp_notes p) (lp_custom p) (lp_show p) (lp_queue p) (lp_status p) t.

Definition ask (t : LabelTask) (rq : LabelRequest) (p : LabelPage) : LabelPage := upd_lp_tasks (lp_tasks p ++ [(t, rq, None)])%list p.

Definition fetchStats (p : LabelPage) : LabelPage := ask TkStats RqStats p.
Definition resetForm (p : LabelPage) : LabelPage := upd_lp_flags (lp_loading p) (lp_saving p) None (upd_lp_form EmptyString EmptyString EmptyString [] EmptyString EmptyString p).
Definition claimNext (submitting : bool) (p : LabelPage) : LabelPage := ask (TkNext submitting) RqNext (resetForm (upd_lp_flags true (lp_saving p) (lp_msg p) p)).

Definition mount_labeling : LabelPage :=
  claimNext false (fetchStats (mkLabelPage None None false false false None EmptyString EmptyString EmptyString [] EmptyString EmptyString false [] "pending" [])).

Definition label_body (skipIt : bool) (p : LabelPage) : json :=
  if skipIt then JObj [("verdict", JStr "skipped")]
  else JObj [("verdict", JStr (lp_verdict p)); ("corrected_description", JStr (lp_desc p)); ("corrected_threat", JStr (lp_threat p));
             ("tags", strs_json (lp_tags p)); ("notes", JStr (lp_notes p))].

Definition submitLabel (skipIt : bool) (p : LabelPage) : LabelPage :=
  match lp_job p with
  | None => p
  | Some j =>
      if negb skipIt && negb (truthy_str (lp_verdict p)) then upd_lp_flags (lp_loading p) (lp_saving p) (Some (false, "Select a verdict before saving.")) p
      else ask TkLabel (RqLabel (lj_id j) (label_body skipIt p)) (upd_lp_flags (lp_loading p) true (lp_msg p) p)
  end.

Definition loadJobQueue (status : string) (p : LabelPage) : LabelPage := ask TkJobs (RqJobs status) p.

(** What follows an answer.  A lost request of the last [fetchStats] rejects [claimNext];
    inside [submitLabel] that is caught with the label's own failures. *)
Definition resume_label (t : LabelTask) (r : LabelReply) (p : LabelPage) : LabelPage :=
  match t, r with
  | TkStats, RpStats s => upd_lp_stats s p
  | TkNext b, RpNext o =>
      ask (TkNextStats b) RqStats
        (let q := match o with Some j => upd_lp_job (Some j) false p | None => upd_lp_job None true p end in upd_lp_flags false (lp_saving q) (lp_msg q) q)
  | TkNext b, _ => ask (TkNextStats b) RqStats (upd_lp_flags false (lp_saving p) (Some (false, "Failed to fetch next job.")) p)
  | TkNextStats b, RpStats s => let q := upd_lp_stats s p in if b then upd_lp_flags (lp_loading q) false (lp_msg q) q else q
  | TkNextStats true, RpLost e => upd_lp_flags (lp_loading p) false (Some (false, e)) p
  | TkNextStats true, _ => upd_lp_flags (lp_loading p) false (lp_msg p) p
  | TkLabel, RpSaved => claimNext true p
  | TkLabel, RpError e | TkLabel, RpLost e => upd_lp_flags (lp_loading p) false (Some (false, e)) p
  | TkJobs, RpJobs l => upd_lp_queue (lp_show p) l (lp_status p) p
  | _, _ => p
  end.

Definition toggleTag (t : string) (l : list string) : list string := if includes t l then filter_where (λ x, negb (String.eqb x t)) l else (l ++ [t])%list.

(** [s.trim().toLowerCase().replace(/\s+/g, '_')]: the words, joined. *)
Definition tag_of (s : string) : string := String.concat "_" (words (toLowerCase (trim s))).
Definition addCustomTag (p : LabelPage) : LabelPage :=
  let t := tag_of (lp_custom p) in
  upd_lp_form (lp_verdict p) (lp_desc p) (lp_threat p) (if truthy_str t && negb (includes t (lp_tags p)) then (lp_tags p ++ [t])%list else lp_tags p) (lp_notes p) EmptyString p.

Definition set_verdict (v : string) (p : LabelPage) : LabelPage := upd_lp_form v (lp_desc p) (lp_threat p) (lp_tags p) (lp_notes p) (lp_custom p) p.

Definition THREAT_OPTS : list string := ["none"; "low"; "medium"; "high"; "critical"].

Inductive LabelEvent :=
| PressKey (key : string) (in_field : bool) | PickVerdict (v : string) | TypeCorrection (t : string) | PickThreat (t : string) | ClickTag (t : string)
| TypeTag (t : string) | AddTag | TypeLabelNotes (t : string) | ClickSkip | ClickSaveNext | ClickStart | ClickRefresh | ClickQueue | ClickTab (s : string) | ClickJobRow (i : nat).

Definition label_form_shown (p : LabelPage) : bool := match lp_job p with Some _ => negb (lp_loading p) | None => false end.
Definition corrections_shown (p : LabelPage) : bool := label_form_shown p && truthy_str (lp_verdict p) && negb (String.eqb (lp_verdict p) "correct").

Definition labeling_step (p : LabelPage) (e : LabelEvent) : LabelPage :=
  match e with
  | PressKey key in_field =>
      if in_field then p
      else if String.eqb key "1" then set_verdict "correct" p
      else if String.eqb key "2" then set_verdict "incorrect" p
      else if String.eqb key "3" then set_verdict "needs_correction" p
      else if String.eqb key "Enter" then (if lp_saving p then p else submitLabel false p)
      else if String.eqb key "s" || String.eqb key "S" then submitLabel true p else p
  | PickVerdict v => if label_form_shown p && includes v VERDICTS then set_verdict v p else p
  | TypeCorrection t => if corrections_shown p then upd_lp_form (lp_verdict p) t (lp_threat p) (lp_tags p) (lp_notes p) (lp_custom p) p else p
  | PickThreat t =>
      if corrections_shown p && includes t THREAT_OPTS
      then upd_lp_form (lp_verdict p) (lp_desc p) (if String.eqb (lp_threat p) t then EmptyString else t) (lp_tags p) (lp_notes p) (lp_custom p) p else p
  | ClickTag t => if label_form_shown p then upd_lp_form (lp_verdict p) (lp_desc p) (lp_threat p) (toggleTag t (lp_tags p)) (lp_notes p) (lp_custom p) p else p
  | TypeTag t => if label_form_shown p then upd_lp_form (lp_verdict p) (lp_desc p) (lp_threat p) (lp_tags p) (lp_notes p) t p else p
  | AddTag => if label_form_shown p then addCustomTag p else p
  | TypeLabelNotes t => if label_form_shown p then upd_lp_form (lp_verdict p) (lp_desc p) (lp_threat p) (lp_tags p) t (lp_custom p) p else p
  | ClickSkip => if label_form_shown p && negb (lp_saving p) then submitLabel true p else p
  | ClickSaveNext => if label_form_shown p && negb (lp_saving p) && truthy_str (lp_verdict p) then submitLabel false p else p
  | ClickStart => match lp_job p with None => if negb (lp_loading p) && negb (lp_empty p) then claimNext false p else p | Some _ => p end
  | ClickRefresh => if negb (lp_loading p) && lp_empty p then fetchStats p else p
  | ClickQueue => let q := upd_lp_queue (negb (lp_show p)) (lp_queue p) (lp_status p) p in if lp_show p then q else loadJobQueue (lp_status p) q
  | ClickTab s => if lp_show p && includes s QUEUE_TABS then loadJobQueue s (upd_lp_queue true (lp_queue p) s p) else p
  | ClickJobRow i =>
      match lp_queue p !! i with
      | Some j => if lp_show p then let q := resetForm (upd_lp_job (Some j) (lp_empty p) p) in upd_lp_queue false (lp_queue q) (lp_status q) q else p
      | None => p
      end
  end.

(** The line under the picture; [None] when building it throws, on a job without camera. *)
Definition job_line (j : LabelJob) : option string :=
  c ← lj_camera j;
  Some ("cam: " +:+ String.substring 0 8 c +:+ " · site: " +:+ String.substring 0 8 (lj_site j) +:+ " · alarm: " +:+
        String.substring (String.length (lj_alarm j) - 12) 12 (lj_alarm j)).

Definition progress (s : LabelingStats) : Z := if (0 <? st_total s)%nat then round_div (Z.of_nat (st_labeled s) * 100) (Z.of_nat (st_total s)) else 0.

(** ** Pages and server together *)

Record LabelDesk := mkLabelDesk { dk_user : string; dk_page : LabelPage }.

(** The pages open, and the requests of closed pages that the server may still process. *)
Record LabelSystem := mkLabelSystem { sy_desks : list LabelDesk; sy_wire : list (string * LabelRequest); sy_db : LabelDB }.

Definition set_desk (i : nat) (d : LabelDesk) (p : LabelPage) (s : LabelSystem) : LabelSystem := mkLabelSystem (<[i := mkLabelDesk (dk_user d) p]> (sy_desks s)) (sy_wire s) (sy_db s).
Definition with_answer (k : nat) (r : LabelReply) (p : LabelPage) : LabelPage :=
  upd_lp_tasks (alter (λ t, (t.1, Some r)) k (lp_tasks p)) p.
Definition unsent (l : list (LabelTask * LabelRequest * option LabelReply)) : list LabelRequest := omap (λ t, match t.2 with None => Some t.1.2 | Some _ => None end) l.
Definition drop_task (k : nat) (p : LabelPage) : LabelPage := upd_lp_tasks (delete k (lp_tasks p)) p.

Section system.
Context (role : string → string).   (* of a user *)

Inductive label_step : LabelSystem → LabelSystem → Prop :=
| step_acts s i d e : sy_desks s !! i = Some d → label_step s (set_desk i d (labeling_step (dk_page d) e) s)
| step_opens s a : label_step s (mkLabelSystem (sy_desks s ++ [mkLabelDesk a mount_labeling])%list (sy_wire s) (sy_db s))
| step_closes s i d : sy_desks s !! i = Some d →
    label_step s (mkLabelSystem (delete i (sy_desks s)) (sy_wire s ++ ((λ r, (dk_user d, r)) <$> unsent (lp_tasks (dk_page d))))%list (sy_db s))
| step_processes s i d k t rq now r db : sy_desks s !! i = Some d → lp_tasks (dk_page d) !! k = Some (t, rq, None) →
    serve_label (role (dk_user d)) (dk_user d) now rq (sy_db s) = (r, db) →
    label_step s (mkLabelSystem (<[i := mkLabelDesk (dk_user d) (with_answer k r (dk_page d))]> (sy_desks s)) (sy_wire s) db)
| step_delivers s i d k t rq r : sy_desks s !! i = Some d → lp_tasks (dk_page d) !! k = Some (t, rq, Some r) →
    label_step s (set_desk i d (resume_label t r (drop_task k (dk_page d))) s)
| step_fails s i d k t rq o e : sy_desks s !! i = Some d → lp_tasks (dk_page d) !! k = Some (t, rq, o) →
    label_step s (mkLabelSystem (<[i := mkLabelDesk (dk_user d) (resume_label t (RpLost e) (drop_task k (dk_page d)))]> (sy_desks s))
                    (match o with None => sy_wire s ++ [(dk_user d, rq)] | Some _ => sy_wire s end)%list (sy_db s))
| step_wire s k a rq now r db : sy_wire s !! k = Some (a, rq) → serve_label (role a) a now rq (sy_db s) = (r, db) →
    label_step s (mkLabelSystem (sy_desks s) (delete k (sy_wire s)) db)
| step_alarm s id now alarm camera site snapshot description threat model yolo : (∀ j, j ∈ ld_jobs (sy_db s) → lj_id j ≠ id) →
    label_step s (mkLabelSystem (sy_desks s) (sy_wire s) (EnqueueLabelJob id now alarm camera site snapshot description threat model yolo (sy_db s))).
End system.

(** ** The tables under the operations *)

Definition claimed_in (db : LabelDB) (id : Z) : Prop :=
  (∃ j, j ∈ ld_jobs db ∧ lj_id j = id) ∧ ∀ j, j ∈ ld_jobs db → lj_id j = id → lj_status j = JsClaimed.

(** Updates that touch other rows, and keep ids, keep a claimed job. *)
Lemma claimed_map_where db id p f labels :
  (∀ j, lj_id (f j) = lj_id j) → (∀ j, j ∈ ld_jobs db → lj_id j = id → p j = true → lj_status (f j) = JsClaimed) →
  claimed_in db id → claimed_in (mkLabelDB (map_where p f (ld_jobs db)) labels) id.
Proof.
  intros Hf Hp [(j & Hj & He) Hc]. split; simpl.
  - exists (if p j then f j else j). split; [apply elem_of_map_where; by exists j|]. case_match; [by rewrite Hf|done].
  - intros y (x & Hx & ->)%elem_of_map_where Hid. destruct (p x) eqn:E; [|by apply Hc]. rewrite Hf in Hid. by apply Hp.
Qed.

Lemma oldest_is_pending db j : oldest_pending db = Some j → j ∈ ld_jobs db ∧ lj_status j = JsPending.
Proof.
  unfold oldest_pending. intros H%head_Some_elem_of. apply elem_of_sort_by, elem_of_filter_where in H as [Hp Hj].
  split; [done|]. by apply bool_decide_eq_true in Hp.
Qed.

Lemma claim_keeps db a now id k : claimed_in db id → claimed_in (ClaimLabelJob k a now db).2 id.
Proof.
  intros H. apply claimed_map_where; [done| |done]. intros j Hj Hid [_ Hp]%andb_prop. apply bool_decide_eq_true in Hp.
  by rewrite (proj2 H j Hj Hid) in Hp.
Qed.

(** The job that a claim answers was pending. *)
Lemma claim_answers db a now k j : (ClaimLabelJob k a now db).1 = Some j → lj_id j = k ∧ ∃ x, x ∈ ld_jobs db ∧ lj_id x = k ∧ lj_status x = JsPending.
Proof.
  unfold ClaimLabelJob. simpl. intros (x & Hx & ->)%fmap_Some. apply find_where_Some in Hx as [[Hi Hs]%andb_prop Hin].
  unfold job_is in Hi. apply Z.eqb_eq in Hi. apply bool_decide_eq_true in Hs. split; [done|]. by exists x.
Qed.

(** *** What a page knows of a job *)

Definition reply_free (id : Z) (r : LabelReply) : Prop :=
  match r with RpNext (Some j) => lj_id j ≠ id | RpJobs l => Forall (λ j, lj_id j ≠ id) l | _ => True end.
Definition request_free (id : Z) (rq : LabelRequest) : Prop :=
  match rq with RqLabel k _ => k ≠ id | RqJobs s => s ∈ QUEUE_TABS | _ => True end.
Definition task_free (id : Z) (t : LabelTask * LabelRequest * option LabelReply) : Prop :=
  request_free id t.1.2 ∧ match t.2 with Some r => reply_free id r | None => True end.
Record page_free (id : Z) (p : LabelPage) : Prop := {
  free_job : ∀ j, lp_job p = Some j → lj_id j ≠ id;
  free_queue : Forall (λ j, lj_id j ≠ id) (lp_queue p);
  free_status : lp_status p ∈ QUEUE_TABS;
  free_tasks : Forall (task_free id) (lp_tasks p)
}.

(** Claimed, and on no page, in no answer under way and in no request. *)
Record job_lost (id : Z) (s : LabelSystem) : Prop := {
  lost_claimed : claimed_in (sy_db s) id;
  lost_desks : Forall (λ d, page_free id (dk_page d)) (sy_desks s);
  lost_wire : Forall (λ x, request_free id x.2) (sy_wire s)
}.

Lemma serve_free role a now rq db r db' id :
  claimed_in db id → request_free id rq → serve_label role a now rq db = (r, db') → claimed_in db' id ∧ reply_free id r.
Proof.
  intros Hc Hr. unfold serve_label. destruct (negb (requireAdminOrSupervisor role)); [by intros [= <- <-]|].
  destruct rq as [| |k body|status]; [by intros [= <- <-]| | |].
  - unfold NextPendingLabelJob. destruct (oldest_pending db) as [x|] eqn:E; [|by intros [= <- <-]].
    destruct (ClaimLabelJob (lj_id x) a now db) as [o db1] eqn:Ec. intros [= <- <-].
    pose proof (claim_keeps db a now id (lj_id x) Hc) as Hk. rewrite Ec in Hk. split; [exact Hk|].
    destruct o as [j|]; [|done]. pose proof (claim_answers db a now (lj_id x) j) as H. rewrite Ec in H.
    destruct (H eq_refl) as [Hjx (y & Hy & Hid & Hp)]. simpl. intros He. rewrite Hjx in He. rewrite He in Hid. by rewrite (proj2 Hc y Hy Hid) in Hp.
  - destruct (decode_label body) as [b|]; [|by intros [= <- <-]]. destruct (truthy_str (bd_verdict b)); [|by intros [= <- <-]].
    simpl in Hr. assert (Hm : ∀ st labels, claimed_in (mkLabelDB (map_where (claimed_job k a) (put_status st) (ld_jobs db)) labels) id).
    { intros st labels. apply claimed_map_where; [done| |done]. intros j _ Hid [Hk _]%andb_prop. apply Z.eqb_eq in Hk. by rewrite Hid in Hk. }
    unfold SubmitLabel. repeat case_match; intros; simplify_eq; split; try done; apply Hm.
  - intros [= <- <-]. split; [done|]. apply Forall_forall. intros j Hj Hid. unfold ListLabelJobs in Hj.
    apply elem_of_take in Hj as (i & Hi & _). apply list_elem_of_lookup_2, elem_of_sort_by, elem_of_filter_where in Hi as [Hs Hin].
    rewrite (proj2 Hc j Hin Hid) in Hs. simpl in Hr. revert Hs. clear -Hr. revert status Hr.
    apply (Forall_forall (λ status, negb (truthy_str status) || String.eqb (status_text JsClaimed) status = true → False)). by repeat constructor.
Qed.

(** Steps that leave job, queue and tab, and add free tasks, keep a page free. *)
Lemma page_free_same id p q : lp_job q = lp_job p → lp_queue q = lp_queue p → lp_status q = lp_status p → lp_tasks q = lp_tasks p → page_free id p → page_free id q.
Proof. intros H1 H2 H3 H4 [? ? ? ?]. split; rewrite ?H1, ?H2, ?H3, ?H4; done. Qed.

Lemma ask_free id t rq p : request_free id rq → page_free id p → page_free id (ask t rq p).
Proof. intros H [? ? ? ?]. split; simpl; try done. apply Forall_app. split; [done|]. by repeat constructor. Qed.

Lemma claimNext_free id b p : page_free id p → page_free id (claimNext b p).
Proof. intros H. apply ask_free; [done|]. by apply (page_free_same id p). Qed.

Lemma submitLabel_free id b p : page_free id p → page_free id (submitLabel b p).
Proof.
  intros H. unfold submitLabel. destruct (lp_job p) as [j|] eqn:E; [|done]. case_match; [by apply (page_free_same id p)|].
  apply ask_free; [simpl; by eapply free_job|by apply (page_free_same id p)].
Qed.

Lemma mount_free id : page_free id mount_labeling.
Proof. unfold mount_labeling, fetchStats. apply claimNext_free, ask_free; [done|]. split; simpl; try done. apply list_elem_of_here. Qed.

Lemma labeling_step_free id p e : page_free id p → page_free id (labeling_step p e).
Proof.
  intros H. destruct e; simpl; repeat (case_match; try done); try (by apply submitLabel_free); try (by apply claimNext_free); try (by apply (page_free_same id p));
    try (by apply ask_free).
  - unfold loadJobQueue. apply ask_free; [by apply (free_status id p)|by apply (page_free_same id p)].
  - match goal with E : _ && _ = true |- _ => apply andb_prop in E as [_ Hs] end. apply bool_decide_eq_true in Hs. unfold loadJobQueue. apply ask_free; [done|]. destruct H. by split.
  - destruct H as [? Hq ? ?]. split; simpl; try done. intros j' [= <-]. rewrite Forall_forall in Hq. apply Hq. by eapply list_elem_of_lookup_2.
Qed.

Lemma resume_free id t r p : reply_free id r → page_free id p → page_free id (resume_label t r p).
Proof.
  intros Hr H. destruct t as [|b|b| |], r as [s|[j|]| |l|e|e]; simpl; try done; try (by apply (page_free_same id p)); try (by apply ask_free; [|by apply (page_free_same id p)]);
    try (destruct b; by apply (page_free_same id p)); try (by apply claimNext_free).
  - apply ask_free; [done|]. destruct H. split; simpl; try done. by intros j' [= <-].
  - apply ask_free; [done|]. destruct H. by split.
  - destruct H. by split.
Qed.

Section lost.
Context (role : string → string).

Lemma tasks_answer_free id k t rq r p : lp_tasks p !! k = Some (t, rq, None) → reply_free id r → page_free id p → page_free id (with_answer k r p).
Proof.
  intros Hk Hr [? ? ? Ht]. split; simpl; try done. apply Forall_forall. intros x [m Hm]%list_elem_of_lookup.
  destruct (decide (k = m)) as [<-|Hne].
  - rewrite list_lookup_alter_eq, Hk in Hm. injection Hm as <-. split; [|done]. by apply (Forall_lookup_1 _ _ _ _ Ht Hk).
  - rewrite list_lookup_alter_ne in Hm by done. by apply (Forall_lookup_1 _ _ _ _ Ht Hm).
Qed.

Lemma drop_task_free id k p : page_free id p → page_free id (drop_task k p).
Proof. intros [? ? ? Ht]. split; simpl; try done. apply Forall_forall. intros x Hx%elem_of_delete_1. by apply (proj1 (Forall_forall _ _) Ht). Qed.

Lemma unsent_free id l : Forall (task_free id) l → Forall (request_free id) (unsent l).
Proof.
  intros Ht. apply Forall_forall. intros rq ([[t rq'] o] & Hin & Ho)%list_elem_of_omap. simpl in Ho. destruct o; [done|]. injection Ho as <-.
  apply (proj1 (proj1 (Forall_forall _ _) Ht _ Hin)).
Qed.

Lemma lost_step id s s' : job_lost id s → label_step role s s' → job_lost id s'.
Proof.
  intros [Hc Hd Hw] Hs.
  assert (Hp : ∀ i d, sy_desks s !! i = Some d → page_free id (dk_page d)) by (intros i d Hi; apply (Forall_lookup_1 _ _ _ _ Hd Hi)).
  assert (Hset : ∀ i d p, page_free id p → Forall (λ d, page_free id (dk_page d)) (<[i := mkLabelDesk (dk_user d) p]> (sy_desks s))) by (intros; by apply Forall_insert).
  destruct Hs as [s i d e Hi|s a|s i d Hi|s i d k t rq now r db Hi Hk Hsv|s i d k t rq r Hi Hk|s i d k t rq o e Hi Hk|s k a rq now r db Hk Hsv|s j now al ca si sn de th mo yo Hid].
  - split; simpl; [done| |done]. apply Hset, labeling_step_free. by apply (Hp i).
  - split; simpl; [done| |done]. apply Forall_app. split; [done|]. constructor; [apply mount_free|constructor].
  - split; simpl; [done| |].
    + apply Forall_forall. intros x Hx%elem_of_delete_1. by apply (proj1 (Forall_forall _ _) Hd).
    + apply Forall_app. split; [done|]. apply Forall_fmap, unsent_free, (free_tasks id), (Hp i d Hi).
  - pose proof (Forall_lookup_1 _ _ _ _ (free_tasks id _ (Hp i d Hi)) Hk) as [Hr _].
    destruct (serve_free _ _ _ _ _ _ _ id Hc Hr Hsv) as [Hc' Hr']. split; simpl; [done| |done].
    apply Hset. apply (tasks_answer_free id k t rq); [done..|]. by apply (Hp i).
  - pose proof (Forall_lookup_1 _ _ _ _ (free_tasks id _ (Hp i d Hi)) Hk) as [_ Hr]. split; simpl; [done| |done].
    apply Hset, resume_free; [done|]. by apply drop_task_free, (Hp i).
  - pose proof (Forall_lookup_1 _ _ _ _ (free_tasks id _ (Hp i d Hi)) Hk) as [Hr _]. split; simpl; [done| |].
    + apply Hset, resume_free; [done|]. by apply drop_task_free, (Hp i).
    + destruct o; [done|]. apply Forall_app. split; [done|]. by repeat constructor.
  - pose proof (Forall_lookup_1 _ _ _ _ Hw Hk) as Hr. simpl in Hr.
    destruct (serve_free _ _ _ _ _ _ _ id Hc Hr Hsv) as [Hc' _]. split; simpl; [done|done|].
    apply Forall_forall. intros x Hx%elem_of_delete_1. by apply (proj1 (Forall_forall _ _) Hw).
  - split; simpl; [|done|done]. unfold EnqueueLabelJob. case_match; [done|]. destruct Hc as [(x & Hx & He) Hc]. split; simpl.
    + exists x. split; [apply elem_of_app; by left|done].
    + intros y [Hy| ->%list_elem_of_singleton]%elem_of_app Hyid; [by apply Hc|]. simpl in Hyid. exfalso. apply (Hid x Hx). congruence.
Qed.

(** C31.  A job that was claimed and that no page holds is gone: in every further run, with
    any annotators, pages and alarms, it stays claimed, and no page ever shows it or lists
    it.  To open the page and close it again, without a click, does that to the oldest
    pending job. *)
Theorem claimed_job_lost :
  (∀ id s s', job_lost id s → rtc (label_step role) s s' →
     claimed_in (sy_db s') id ∧
     ∀ d j, d ∈ sy_desks s' → lp_job (dk_page d) = Some j ∨ j ∈ lp_queue (dk_page d) → lj_id j ≠ id) ∧
  (∀ db a j, requireAdminOrSupervisor (role a) = true → oldest_pending db = Some j → NoDup (lj_id <$> ld_jobs db) →
     ∃ s', rtc (label_step role) (mkLabelSystem [] [] db) s' ∧ sy_desks s' = [] ∧ job_lost (lj_id j) s').
Proof.
  split.
  - intros id s s' Hl Hs. assert (job_lost id s') as [Hc Hd _] by (induction Hs; eauto using lost_step).
    split; [done|]. intros d j Hin Hj. pose proof (proj1 (Forall_forall _ _) Hd d Hin) as [H1 H2 _ _].
    destruct Hj as [Hj|Hj]; [by apply H1|by apply (proj1 (Forall_forall _ _) H2)].
  - intros db a j Ha Hj Hnd. destruct (NextPendingLabelJob a 0 db) as [o db1] eqn:En.
    eexists. split; [|split].
    + eapply rtc_l; [by apply (step_opens _ _ a)|]. eapply rtc_l.
      { eapply (step_processes _ _ 0 _ 1 (TkNext false) RqNext 0 (RpNext o) db1); [reflexivity|reflexivity|].
        unfold serve_label. simpl. rewrite Ha. simpl. by rewrite En. }
      eapply rtc_l; [eapply (step_closes _ _ 0); reflexivity|]. apply rtc_refl.
    + reflexivity.
    + split; simpl; [|done|by repeat constructor].
      unfold NextPendingLabelJob in En. rewrite Hj in En. unfold ClaimLabelJob in En. injection En as _ <-.
      apply oldest_is_pending in Hj as [Hin Hp]. split; simpl.
      * eexists. split; [apply elem_of_map_where; by exists j|]. by case_match.
      * intros y (x & Hx & ->)%elem_of_map_where Hid.
        assert (x = j) as ->. { apply (NoDup_fmap_elem lj_id (ld_jobs db)); [done..|]. by revert Hid; case_match. }
        unfold job_is. rewrite Z.eqb_refl. unfold in_status. by rewrite (bool_decide_eq_true_2 _ Hp).
Qed.
End lost.

Definition sample_job (id : Z) (s : JobStatus) (by_ : option string) : LabelJob :=
  mkLabelJob id ("alarm" +:+ status_text s) (Some "c") "s" "/snap.jpg" "a person" "low" "qwen" (JArr []) s by_ None id.
Definition sample_labeling : LabelDB := mkLabelDB [sample_job 1 JsPending None; sample_job 2 JsPending None] [].

Lemma claimed_job_lost_witness :
  ∃ s', rtc (label_step (λ _, "admin")) (mkLabelSystem [] [] sample_labeling) s' ∧ sy_desks s' = [] ∧ job_lost 1 s'.
Proof.
  apply (proj2 (claimed_job_lost (λ _, "admin")) sample_labeling "a" (sample_job 1 JsPending None)); [by vm_compute..|].
  apply (bool_decide_unpack _). by vm_compute.
Defined.

(** ** Labels *)

Lemma map_where_unclaimed id a f (l : list LabelJob) :
  (∀ j, j ∈ l → lj_id j = id → lj_claimed_by j ≠ Some a) → map_where (claimed_job id a) f l = l.
Proof.
  intros H. apply map_where_none. intros j Hj. unfold claimed_job, job_is. destruct (Z.eqb_spec (lj_id j) id) as [E|]; [|done].
  simpl. by apply bool_decide_eq_false_2, H.
Qed.

Lemma decode_label_body p :
  decode_label (label_body false p) = Some (mkLabelBody (lp_verdict p) (lp_desc p) (lp_threat p) (Some (lp_tags p)) (lp_notes p)).
Proof. unfold label_body, decode_label. rewrite !jget_cons. pose proof (go_strings_json (lp_tags p)) as H. unfold strs_json in *. cbn -[go_strings fmap]. by rewrite H. Qed.

Lemma decode_label_skip p : decode_label (label_body true p) = Some (mkLabelBody "skipped" EmptyString EmptyString None EmptyString).
Proof. reflexivity. Qed.

(**  A job chosen from the queue panel is not claimed.  Its label is stored, and the
    answer reports success, but the job keeps its status, so that a pending job is handed
    out again and its label is in no export until then; skipping it changes nothing and is
    reported as success as well. *)
Theorem picked_job_kept role (p : LabelPage) (db : LabelDB) a now i j v :
  requireAdminOrSupervisor role = true → v ∈ VERDICTS →
  lp_show p = true → lp_loading p = false → lp_saving p = false → lp_queue p !! i = Some j → j ∈ ld_jobs db →
  (∀ x, x ∈ ld_jobs db → lj_id x = lj_id j → lj_claimed_by x ≠ Some a) →
  let picked := labeling_step p (ClickJobRow i) in
  let saved := labeling_step (labeling_step picked (PickVerdict v)) ClickSaveNext in
  let skipped := labeling_step picked ClickSkip in
  lp_job picked = Some j ∧ lp_tasks picked = lp_tasks p ∧
  (∃ body, lp_tasks saved = (lp_tasks p ++ [(TkLabel, RqLabel (lj_id j) body, None)])%list ∧
     serve_label role a now (RqLabel (lj_id j) body) db =
       (RpSaved, mkLabelDB (ld_jobs db) (ld_labels db ++ [mkLabelRow (lj_id j) a v EmptyString EmptyString [] EmptyString now])%list)) ∧
  (∃ body, lp_tasks skipped = (lp_tasks p ++ [(TkLabel, RqLabel (lj_id j) body, None)])%list ∧ serve_label role a now (RqLabel (lj_id j) body) db = (RpSaved, db)).
Proof.
  intros Hr Hv Hs Hl Hsv Hq Hj Hc. cbn zeta.
  assert (Hvt : truthy_str v = true ∧ String.eqb v "skipped" = false).
  { revert v Hv. apply (Forall_forall (λ v, truthy_str v = true ∧ String.eqb v "skipped" = false)). by repeat constructor. }
  destruct Hvt as [Hvt Hvs].
  assert (Hp : labeling_step p (ClickJobRow i) = (let q := resetForm (upd_lp_job (Some j) (lp_empty p) p) in upd_lp_queue false (lp_queue q) (lp_status q) q)) by (simpl; by rewrite Hq, Hs).
  rewrite Hp. set (picked := upd_lp_queue _ _ _ _).
  assert (Hf : label_form_shown picked = true) by (unfold label_form_shown; simpl; by rewrite Hl).
  split_and!; [done|done| |].
  - exists (label_body false (set_verdict v picked)).
    assert (labeling_step picked (PickVerdict v) = set_verdict v picked) as ->.
    { simpl. rewrite Hf. unfold includes. by rewrite (bool_decide_eq_true_2 _ Hv). }
    split.
    + assert (Hf' : label_form_shown (set_verdict v picked) = true) by (unfold label_form_shown; simpl; by rewrite Hl).
      unfold labeling_step. rewrite Hf'. change (lp_saving (set_verdict v picked)) with (lp_saving p). rewrite Hsv.
      change (lp_verdict (set_verdict v picked)) with v. rewrite Hvt. unfold submitLabel. change (lp_verdict (set_verdict v picked)) with v. by rewrite Hvt.
    + unfold serve_label. rewrite Hr, decode_label_body. cbn [negb bd_verdict lp_verdict set_verdict upd_lp_form]. rewrite Hvt.
      unfold SubmitLabel. cbn [bd_verdict bd_tags]. rewrite Hvs. unfold includes. rewrite (bool_decide_eq_true_2 _ Hv). cbn [negb].
      assert (existsb (job_is (lj_id j)) (ld_jobs db) = true) as ->. { apply existsb_exists. exists j. split; [by apply list_elem_of_In|apply Z.eqb_refl]. }
      by rewrite map_where_unclaimed.
  - exists (label_body true picked). split.
    + unfold labeling_step. rewrite Hf. change (lp_saving picked) with (lp_saving p). by rewrite Hsv.
    + unfold serve_label. rewrite Hr. unfold picked. rewrite decode_label_skip. cbn. rewrite map_where_unclaimed by done. by destruct db.
Qed.

Definition sample_queue_page : LabelPage :=
  mkLabelPage None None false false false None EmptyString EmptyString EmptyString [] EmptyString EmptyString true (ld_jobs sample_labeling) "pending" [].

Lemma picked_job_kept_witness :
  ∃ body, lp_tasks (labeling_step (labeling_step sample_queue_page (ClickJobRow 1)) ClickSkip) = [(TkLabel, RqLabel 2 body, None)] ∧
    serve_label "admin" "a" 5 (RqLabel 2 body) sample_labeling = (RpSaved, sample_labeling).
Proof.
  apply (picked_job_kept "admin" sample_queue_page sample_labeling "a" 5 1 (sample_job 2 JsPending None) "correct"); try done.
  - by apply list_elem_of_here.
  - by apply list_elem_of_further, list_elem_of_here.
  - intros x [->|[->|H%elem_of_nil]%elem_of_cons]%elem_of_cons; done.
Defined.

(** *** Claims *)

(** Requests served one after the other, each of a user at a time; their answers. *)
Fixpoint serve_all (role : string → string) (l : list (string * Z * LabelRequest)) (db : LabelDB) : list LabelReply * LabelDB :=
  match l with
  | [] => ([], db)
  | (a, now, rq) :: l' => let '(r, db1) := serve_label (role a) a now rq db in let '(rs, db2) := serve_all role l' db1 in (r :: rs, db2)
  end.

Definition claimed_id (r : LabelReply) : option Z := match r with RpNext (Some j) => Some (lj_id j) | _ => None end.

(** A job that is not pending never is again. *)
Definition job_settled (db : LabelDB) (id : Z) : Prop := ∀ j, j ∈ ld_jobs db → lj_id j = id → lj_status j ≠ JsPending.

Lemma job_settled_map_where db id p f labels :
  (∀ j, lj_id (f j) = lj_id j) → (∀ j, lj_status (f j) ≠ JsPending) → job_settled db id → job_settled (mkLabelDB (map_where p f (ld_jobs db)) labels) id.
Proof.
  intros Hf Hp H y (x & Hx & ->)%elem_of_map_where Hid. destruct (p x); [apply Hp|by apply H].
Qed.

Lemma serve_settled role a now rq db id : job_settled db id → job_settled (serve_label role a now rq db).2 id.
Proof.
  intros H. unfold serve_label. case_match; [done|]. destruct rq as [| |k body|status]; try done.
  - unfold NextPendingLabelJob. destruct (oldest_pending db); [|done]. by apply job_settled_map_where.
  - case_match; [|done]. case_match; [|done]. unfold SubmitLabel. repeat case_match; simplify_eq; try done; by apply job_settled_map_where.
Qed.

(** An answered claim settles its job, which was pending. *)
Lemma serve_claims role a now rq db j :
  (serve_label role a now rq db).1 = RpNext (Some j) → job_settled (serve_label role a now rq db).2 (lj_id j) ∧ ¬ job_settled db (lj_id j).
Proof.
  unfold serve_label. case_match; [done|]. destruct rq as [| |k body|status]; try done; [|by repeat case_match].
  unfold NextPendingLabelJob. destruct (oldest_pending db) as [x|]; [|done].
  destruct (ClaimLabelJob (lj_id x) a now db) as [o db1] eqn:E. simpl. intros [= ->].
  pose proof (claim_answers db a now (lj_id x) j) as H1. rewrite E in H1. destruct (H1 eq_refl) as [Hid (y & Hy & Hyid & Hp)].
  split; [|intros Hs; apply (Hs y Hy); [congruence|done]].
  unfold ClaimLabelJob in E. injection E as _ <-. intros z (w & Hw & ->)%elem_of_map_where Hz.
  destruct (job_is (lj_id x) w && in_status JsPending w) eqn:Eq; [done|]. intros Hws.
  unfold in_status in Eq. rewrite (bool_decide_eq_true_2 _ Hws), andb_true_r in Eq. unfold job_is in Eq. apply Z.eqb_neq in Eq. congruence.
Qed.

Lemma serve_all_settled role l db id : job_settled db id → id ∉ omap claimed_id (serve_all role l db).1.
Proof.
  revert db. induction l as [|[[a now] rq] l IH]; intros db H; simpl; [apply not_elem_of_nil|].
  pose proof (serve_settled (role a) a now rq db id H) as Hs. pose proof (serve_claims (role a) a now rq db) as Hc.
  destruct (serve_label (role a) a now rq db) as [r db1]. specialize (IH db1 Hs). destruct (serve_all role l db1) as [rs db2]. simpl in *.
  destruct (claimed_id r) as [k|] eqn:E; simpl; [|done]. rewrite not_elem_of_cons. split; [|done].
  destruct r as [|[j|]| | | |]; try done. injection E as <-. intros ->. by apply (proj2 (Hc j eq_refl)).
Qed.

(**  However the requests of any number of annotators interleave, no job is handed out
    twice by the claim of the next one. *)
Theorem claims_exclusive role l db : NoDup (omap claimed_id (serve_all role l db).1).
Proof.
  revert db. induction l as [|[[a now] rq] l IH]; intros db; simpl; [constructor|].
  pose proof (serve_claims (role a) a now rq db) as Hc. destruct (serve_label (role a) a now rq db) as [r db1].
  pose proof (serve_all_settled role l db1) as Hs. specialize (IH db1). destruct (serve_all role l db1) as [rs db2]. simpl in *.
  destruct (claimed_id r) as [k|] eqn:E; simpl; [|done]. constructor; [|done].
  destruct r as [|[j|]| | | |]; try done. injection E as <-. apply Hs, (Hc j eq_refl).
Qed.

(** *** What is exported *)

Definition exported (db : LabelDB) (id : Z) : Prop := ∃ x, x ∈ export_rows "all" db ∧ lb_job x.1 = id.

Lemma elem_of_export db x : x ∈ export_rows "all" db ↔ x.1 ∈ ld_labels db ∧ x.2 ∈ ld_jobs db ∧ lj_id x.2 = lb_job x.1 ∧ lj_status x.2 = JsLabeled.
Proof.
  unfold export_rows. rewrite elem_of_sort_by, elem_of_filter_where, orb_true_r. simpl. rewrite list_elem_of_bind. setoid_rewrite list_elem_of_bind.
  setoid_rewrite elem_of_filter_where. setoid_rewrite list_elem_of_singleton. unfold job_is, in_status. destruct x as [l j]. simpl. split.
  - intros (_ & l' & (j' & [= -> ->] & [[Hi Hs]%andb_prop Hj]) & Hl). apply Z.eqb_eq in Hi. by apply bool_decide_eq_true in Hs.
  - intros (Hl & Hj & Hi & Hs). split; [done|]. exists l. split; [|done]. exists j. split; [done|]. split; [|done].
    by rewrite Hi, Z.eqb_refl, (bool_decide_eq_true_2 _ Hs).
Qed.

(**  The key S is not held back while a label is being saved: it sends a skip for the
    same job, and of an annotator who has claimed the job the server takes it after the
    label.  The label, exported before, is then in no export, though its row stays. *)
Theorem late_skip_drops_label role (p : LabelPage) (db : LabelDB) a t1 t2 j :
  requireAdminOrSupervisor role = true → lp_job p = Some j → lp_verdict p ∈ VERDICTS →
  j ∈ ld_jobs db → NoDup (lj_id <$> ld_jobs db) → lj_claimed_by j = Some a →
  let q := submitLabel false p in
  let '(r1, db1) := serve_label role a t1 (RqLabel (lj_id j) (label_body false p)) db in
  let '(r2, db2) := serve_label role a t2 (RqLabel (lj_id j) (label_body true q)) db1 in
  lp_saving q = true ∧
  lp_tasks (labeling_step q (PressKey "s" false)) =
    (lp_tasks p ++ [(TkLabel, RqLabel (lj_id j) (label_body false p), None); (TkLabel, RqLabel (lj_id j) (label_body true q), None)])%list ∧
  r1 = RpSaved ∧ exported db1 (lj_id j) ∧ r2 = RpSaved ∧ ¬ exported db2 (lj_id j) ∧ ld_labels db2 = ld_labels db1.
Proof.
  intros Hr Hj Hv Hin Hnd Hc q.
  assert (Hvt : truthy_str (lp_verdict p) = true ∧ String.eqb (lp_verdict p) "skipped" = false).
  { revert Hv. generalize (lp_verdict p). apply (Forall_forall (λ v, truthy_str v = true ∧ String.eqb v "skipped" = false)). by repeat constructor. }
  destruct Hvt as [Hvt Hvs].
  assert (Hq : q = ask TkLabel (RqLabel (lj_id j) (label_body false p)) (upd_lp_flags (lp_loading p) true (lp_msg p) p)) by (unfold q, submitLabel; by rewrite Hj, Hvt).
  unfold serve_label. rewrite Hr, decode_label_body, decode_label_skip. cbn [negb bd_verdict]. rewrite Hvt. unfold SubmitLabel. cbn [bd_verdict bd_tags].
  rewrite Hvs. unfold includes. rewrite (bool_decide_eq_true_2 _ Hv). cbn [negb].
  assert (existsb (job_is (lj_id j)) (ld_jobs db) = true) as -> by (apply existsb_exists; exists j; split; [by apply list_elem_of_In|apply Z.eqb_refl]).
  cbn. split_and!; [by rewrite Hq| |done| |done| |done].
  - rewrite Hq. unfold submitLabel. cbn. rewrite Hj. cbn. by rewrite <- app_assoc.
  - exists (mkLabelRow (lj_id j) a (lp_verdict p) (lp_desc p) (lp_threat p) (lp_tags p) (lp_notes p) t1, put_status JsLabeled j). rewrite elem_of_export. cbn. split; [|done]. split_and!; [apply elem_of_app; right; by apply list_elem_of_singleton| |done|done].
    apply elem_of_map_where. exists j. split; [done|]. unfold claimed_job, job_is. by rewrite Z.eqb_refl, (bool_decide_eq_true_2 _ Hc).
  - intros (x & Hx & Hid). apply elem_of_export in Hx as (_ & Hx & Hi & Hs). cbn in Hx.
    apply elem_of_map_where in Hx as (y & Hy & Hxy). apply elem_of_map_where in Hy as (z & Hz & ->).
    assert (lj_id z = lj_id j) as Hzj. { rewrite <- Hid, <- Hi, Hxy. by repeat case_match. }
    assert (z = j) as -> by (apply (NoDup_fmap_elem lj_id (ld_jobs db)); done).
    revert Hxy. unfold claimed_job, job_is. rewrite Z.eqb_refl, (bool_decide_eq_true_2 _ Hc). simpl.
    rewrite Z.eqb_refl, (bool_decide_eq_true_2 _ Hc). intros Hxy. by rewrite Hxy in Hs.
Qed.

Lemma late_skip_drops_label_witness :
  exported (serve_label "admin" "a" 5 (RqLabel 1 (label_body false (set_verdict "correct" (upd_lp_job (Some (sample_job 1 JsClaimed (Some "a"))) false mount_labeling))))
    (mkLabelDB [sample_job 1 JsClaimed (Some "a")] [])).2 1.
Proof.
  apply (late_skip_drops_label "admin" (set_verdict "correct" (upd_lp_job (Some (sample_job 1 JsClaimed (Some "a"))) false mount_labeling))
    (mkLabelDB [sample_job 1 JsClaimed (Some "a")] []) "a" 5 6 (sample_job 1 JsClaimed (Some "a"))); try done; [by apply list_elem_of_here..|].
  apply NoDup_singleton.
Defined.

(**  A correction typed under another verdict stays when the verdict is changed to
    correct, where the page shows no correction: it is sent, stored and exported as what
    the model should have said. *)
Theorem hidden_correction_exported (p : LabelPage) t j l :
  corrections_shown p = true → t ≠ EmptyString →
  let q := labeling_step (labeling_step p (TypeCorrection t)) (PickVerdict "correct") in
  corrections_shown q = false ∧
  ∃ b, decode_label (label_body false q) = Some b ∧ bd_verdict b = "correct" ∧ bd_description b = t ∧
    (lb_description l = bd_description b → final_description l j = t).
Proof.
  intros Hc Ht. cbn zeta. assert (Hf : label_form_shown p = true) by (unfold corrections_shown in Hc; by destruct (label_form_shown p)).
  assert (labeling_step (labeling_step p (TypeCorrection t)) (PickVerdict "correct") =
          set_verdict "correct" (upd_lp_form (lp_verdict p) t (lp_threat p) (lp_tags p) (lp_notes p) (lp_custom p) p)) as ->.
  { simpl. rewrite Hc. change (label_form_shown (upd_lp_form (lp_verdict p) t (lp_threat p) (lp_tags p) (lp_notes p) (lp_custom p) p)) with (label_form_shown p). by rewrite Hf. }
  split; [unfold corrections_shown; simpl; by rewrite andb_false_r|].
  eexists. split; [apply decode_label_body|]. split_and!; [done|done|]. unfold final_description. simpl. intros ->. by destruct t.
Qed.

Lemma hidden_correction_exported_witness :
  corrections_shown (labeling_step (labeling_step (set_verdict "incorrect" (upd_lp_flags false false None (upd_lp_job (Some (sample_job 1 JsClaimed (Some "a"))) false mount_labeling)))
    (TypeCorrection "a cat")) (PickVerdict "correct")) = false.
Proof.
  apply (hidden_correction_exported (set_verdict "incorrect" (upd_lp_flags false false None (upd_lp_job (Some (sample_job 1 JsClaimed (Some "a"))) false mount_labeling)))
    "a cat" (sample_job 1 JsClaimed None) (mkLabelRow 1 "a" "correct" "a cat" EmptyString [] EmptyString 0)); [by vm_compute|done].
Defined.

(** *** The text of the training answer *)

Definition no_quote (s : string) : Prop := forallb (λ c, caption_char c && negb (Ascii.eqb c DQUOTE)) (String.list_ascii_of_string s) = true.

Lemma escape_quotes_escape s : caption_text s → escape_quotes s = escape s.
Proof.
  induction s as [|c s IH]; [done|]. unfold caption_text. simpl. intros [Hc Hs]%andb_prop. specialize (IH Hs).
  destruct c as [[] [] [] [] [] [] [] []]; try discriminate Hc; escaped; cbn; by rewrite IH.
Qed.

Lemma escape_no_quote s : no_quote s → escape s = s.
Proof.
  induction s as [|c s IH]; [done|]. unfold no_quote. simpl. intros [Hc Hs]%andb_prop. specialize (IH Hs).
  destruct c as [[] [] [] [] [] [] [] []]; try discriminate Hc; escaped; by rewrite IH.
Qed.

Lemma escape_quotes_app a b : escape_quotes (a +:+ b) = escape_quotes a +:+ escape_quotes b.
Proof. induction a as [|c a IH]; [done|]. rewrite sapp_cons. simpl. rewrite IH. by case_match; rewrite ?sapp_cons. Qed.

(** A control character ends the reading of a string without result. *)
Lemma read_chars_control s r : read_chars (escape s +:+ String "010"%char r) = None.
Proof. induction s as [|c s IH]; [done|]. simpl escape. by rewrite <- sapp_assoc, read_escape_char, IH. Qed.

Lemma value_string_fails n s : read_chars s = None → value n (String DQUOTE s) = None.
Proof. intros H. destruct n; [done|]. simpl. unfold read_string. by rewrite H. Qed.

Lemma first_member_fails n k s :
  read_chars s = None → value n (String "{" (String DQUOTE (escape k +:+ String DQUOTE (String ":" (String DQUOTE s))))) = None.
Proof.
  intros H. destruct n as [|n]; [done|]. simpl. destruct n as [|n]; [done|]. simpl. rewrite read_quoted. simpl. by rewrite value_string_fails.
Qed.

(**  The answer in a line of the export is the JSON object that it means to be when the
    description has no backslash or control character and the threat no quote either; the
    description is read back as it was, quotes included.  A description with a line break,
    which the correction's text area allows, makes it no JSON. *)
Theorem training_answer_parses (d t : string) :
  caption_text d → no_quote t →
  JSON_parse (assistantContent d t) =
    Some (JObj [("description", JStr d); ("threat_level", JStr t); ("recommended_action", JStr "Monitor and document.")]) ∧
  JSON_parse (assistantContent (d +:+ String "010"%char EmptyString) t) = None.
Proof.
  intros Hd Ht. split.
  - assert (assistantContent d t =
            stringify (λ _, EmptyString) (JObj [("description", JStr d); ("threat_level", JStr t); ("recommended_action", JStr "Monitor and document.")])) as ->.
    { unfold assistantContent, in_quotes. rewrite (escape_quotes_escape d Hd). simpl. unfold quoted_text. rewrite (escape_no_quote t Ht).
      change (escape "description") with "description". change (escape "threat_level") with "threat_level".
      change (escape "recommended_action") with "recommended_action". change (escape "Monitor and document.") with "Monitor and document.".
      by rewrite <- !sapp_assoc. }
    apply JSON_roundtrip. split; [|by repeat split]. apply (bool_decide_unpack _). by vm_compute.
  - unfold JSON_parse. set (n := (2 * _ + 2)%nat). clearbody n.
    assert (∃ r, assistantContent (d +:+ String "010"%char EmptyString) t =
              String "{" (String DQUOTE (escape "description" +:+ String DQUOTE (String ":" (String DQUOTE (escape d +:+ String "010"%char r)))))) as [r ->].
    { eexists. unfold assistantContent, in_quotes. rewrite escape_quotes_app, (escape_quotes_escape d Hd).
      rewrite ?sapp_cons, <- ?sapp_assoc, ?sapp_cons, ?sapp_empty. reflexivity. }
    by rewrite first_member_fails by apply read_chars_control.
Qed.

Lemma training_answer_parses_witness :
  JSON_parse (assistantContent ("a person" +:+ String "010"%char EmptyString) "low") = None.
Proof. apply (training_answer_parses "a person" "low"); by vm_compute. Defined.
