(* ===== verification/EvidenceShares.v ===== *)
(** * Shared evidence

    The links that open the evidence of an incident to outsiders: their life on the server
    ([internal/api/evidence_share.go], [internal/database/soc_ids.go]), the supervisor's card
    ([components/reports/EvidenceSharesCard.tsx]) and the export button
    ([components/shared/EvidenceExportButton.tsx]).  Instants and durations are in
    nanoseconds; a timestamp column keeps microseconds. *)

From S2P Require Import Prelude Types Http IronsightApi AdminConsole JsonText SiteServer.
From Stdlib Require Import Ascii QArith.
#[local] Open Scope string_scope.
#[local] Open Scope Z_scope.

(** ** The server *)

Record ShareRow := mkShareRow {
  es_token : string;
  es_incident : string;
  es_created_by : string;
  es_expires : option Z;
  es_revoked : bool;
  es_created : Z
}.

(** evidence_shares, the tokens of evidence_share_opens, and the ids of incidents, which no
    handler deletes. *)
Record ShareDB := mkShareDB { sh_rows : list ShareRow; sh_opens : list string; sh_incidents : list string }.

Definition token_is (token : string) (r : ShareRow) : bool := String.eqb (es_token r) token.
Definition column (ns : Z) : Z := ns / 1000 * 1000.

Definition HOUR_NS : Z := 3600000000000.
Definition shareDefaultTTL : Z := 7 * 24 * HOUR_NS.
Definition shareMaxTTL : Z := 90 * 24 * HOUR_NS.

(** The product of two [time.Duration]s wraps around at 64 bits. *)
Definition wrap64 (z : Z) : Z := (z + 2 ^ 63) mod 2 ^ 64 - 2 ^ 63.

Definition share_ttl (hours : Z) : option Z :=
  if 0 <? hours then let ttl := wrap64 (hours * HOUR_NS) in if shareMaxTTL <? ttl then None else Some ttl else Some shareDefaultTTL.

Definition decode_share (body : json) : option (string * Z) :=
  match body with
  | JObj _ | JNull => i ← go_string (jget "incident_id" body); h ← go_int (jget "expires_in_hours" body); Some (i, h)
  | _ => None
  end.

(** [CreateEvidenceShare] with a random [token], the primary key; the incident is a foreign
    key (migration 0019).  The row answered has the
    instants of the handler, the row stored those of the columns. *)
Definition CreateEvidenceShare (token incident by_ : string) (expires now : Z) (db : ShareDB) : option (ShareRow * ShareDB) :=
  if negb (truthy_str incident) || existsb (token_is token) (sh_rows db) || negb (existsb (String.eqb incident) (sh_incidents db)) then None
  else Some (mkShareRow token incident by_ (Some expires) false now,
             mkShareDB (sh_rows db ++ [mkShareRow token incident by_ (Some (column expires)) false (column now)])%list (sh_opens db) (sh_incidents db)).

Definition HandleCreateEvidenceShare (role user token : string) (now : Z) (body : json) (db : ShareDB) : Z * option ShareRow * ShareDB :=
  if negb (requireAdminOrSupervisor role) then (403, None, db)
  else match decode_share body with
       | None => (400, None, db)
       | Some (incident, hours) =>
           if negb (truthy_str incident) then (400, None, db)
           else match share_ttl hours with
                | None => (400, None, db)
                | Some ttl => match CreateEvidenceShare token incident user (now + ttl) now db with
                              | Some (r, db') => (201, Some r, db')
                              | None => (500, None, db)
                              end
                end
       end.

Definition set_revoked (r : ShareRow) : ShareRow := mkShareRow (es_token r) (es_incident r) (es_created_by r) (es_expires r) true (es_created r).
Definition RevokeEvidenceShare (token : string) (db : ShareDB) : ShareDB := mkShareDB (map_where (token_is token) set_revoked (sh_rows db)) (sh_opens db) (sh_incidents db).

Definition HandleRevokeEvidenceShare (role token : string) (db : ShareDB) : Z * ShareDB :=
  if negb (requireAdminOrSupervisor role) then (403, db) else if truthy_str token then (204, RevokeEvidenceShare token db) else (400, db).

(** A row of the list with its number of opens and whether it is active. *)
Record ShareStat := mkShareStat { ss_row : ShareRow; ss_opens : nat; ss_active : bool }.

Definition CountShareOpens (token : string) (db : ShareDB) : nat := length (filter_where (String.eqb token) (sh_opens db)).
Definition share_active (now : Z) (r : ShareRow) : bool := negb (es_revoked r) && match es_expires r with Some t => now <? t | None => true end.

(** [HandleListEvidenceShares] asks for no role. *)
Definition HandleListEvidenceShares (incident : string) (now : Z) (db : ShareDB) : list ShareStat :=
  (λ r, mkShareStat r (CountShareOpens (es_token r) db) (share_active now r))
    <$> sort_by (λ a b, es_created b <=? es_created a) (filter_where (λ r, String.eqb (es_incident r) incident) (sh_rows db)).

Definition GetEvidenceShare (token : string) (db : ShareDB) : option ShareRow := find_where (token_is token) (sh_rows db).

(** The public page: the row, or 404; the open is logged on its own, which may fail. *)
Definition HandlePublicEvidenceShare (token : string) (now : Z) (logged : bool) (db : ShareDB) : option ShareRow * ShareDB :=
  if negb (truthy_str token) then (None, db)
  else (match GetEvidenceShare token db with
        | Some r => if es_revoked r then None else match es_expires r with Some t => if t <? now then None else Some r | None => Some r end
        | None => None
        end,
        if logged then mkShareDB (sh_rows db) (sh_opens db ++ [token])%list (sh_incidents db) else db).

(** ** The clients *)

(** The body of [createEvidenceShareLink]. *)
Definition share_body (incident : string) (t : ShareTTL) : json := JObj [("incident_id", JStr incident); ("expires_in_hours", jnum (SHARE_TTL_HOURS t))].
Definition share_url (token : string) : string := "/share/" +:+ token.

(** The paths that [next.config.js] sends on to the server. *)
Definition rewrites : list string := ["/api/"; "/auth/"; "/ws"; "/hls/"; "/exports/"; "/recordings/"; "/snapshots/"; "/webrtc/"].
Definition forwarded (path : string) : bool := existsb (λ p, String.prefix p path) rewrites.

Inductive ShareRequest := SqList (incident : string) | SqCreate (incident : string) (t : ShareTTL) | SqRevoke (token : string).
Inductive ShareReply := SyList (l : list ShareStat) | SyCreated (token : string) (expires : option Z) | SyDone | SyFails (message : string).

Definition serve_share (role user token : string) (now : Z) (rq : ShareRequest) (db : ShareDB) : ShareReply * ShareDB :=
  match rq with
  | SqList i => (SyList (HandleListEvidenceShares i now db), db)
  | SqCreate i t => match HandleCreateEvidenceShare role user token now (share_body i t) db with
                    | (201, Some r, db') => (SyCreated (es_token r) (es_expires r), db')
                    | (_, _, db') => (SyFails "refused", db')
                    end
  | SqRevoke k => let '(st, db') := HandleRevokeEvidenceShare role k db in (if st =? 204 then SyDone else SyFails "refused", db')
  end.

(** *** The card *)

Inductive CardTask := CtList | CtCreate | CtCreateList | CtRevoke | CtRevokeList.

Record ShareCard := mkShareCard {
  cd_input : string;
  cd_submitted : string;
  cd_shares : option (list ShareStat);
  cd_loading : bool;
  cd_err : string;
  cd_expiry : ShareTTL;
  cd_creating : bool;
  cd_new : option (string * option Z);
  cd_tasks : list (CardTask * string * ShareRequest)   (* with the incident of the handler *)
}.

Definition mount_card : ShareCard := mkShareCard EmptyString EmptyString None false EmptyString T1w false None [].

Definition upd_cd_list (l : option (list ShareStat)) (loading : bool) (err : string) (c : ShareCard) : ShareCard :=
  mkShareCard (cd_input c) (cd_submitted c) l loading err (cd_expiry c) (cd_creating c) (cd_new c) (cd_tasks c).
Definition upd_cd_form (input submitted : string) (e : ShareTTL) (c : ShareCard) : ShareCard :=
  mkShareCard input submitted (cd_shares c) (cd_loading c) (cd_err c) e (cd_creating c) (cd_new c) (cd_tasks c).
Definition upd_cd_new (creating : bool) (n : option (string * option Z)) (c : ShareCard) : ShareCard :=
  mkShareCard (cd_input c) (cd_submitted c) (cd_shares c) (cd_loading c) (cd_err c) (cd_expiry c) creating n (cd_tasks c).
Definition upd_cd_tasks (t : list (CardTask * string * ShareRequest)) (c : ShareCard) : ShareCard :=
  mkShareCard (cd_input c) (cd_submitted c) (cd_shares c) (cd_loading c) (cd_err c) (cd_expiry c) (cd_creating c) (cd_new c) t.
Definition cd_send (t : CardTask) (incident : string) (rq : ShareRequest) (c : ShareCard) : ShareCard := upd_cd_tasks (cd_tasks c ++ [(t, incident, rq)])%list c.

(** [refresh(id)]; without an id it returns at once. *)
Definition refresh_shares (t : CardTask) (id : string) (c : ShareCard) : ShareCard :=
  if truthy_str id then cd_send t id (SqList id) (upd_cd_list (cd_shares c) true EmptyString c) else c.

(** What follows an answer to a request of the card; a handler goes on with the incident it
    was called for. *)
Definition resume_card (t : CardTask) (incident : string) (r : ShareReply) (c : ShareCard) : ShareCard :=
  match t, r with
  | CtCreate, SyCreated k e => refresh_shares CtCreateList incident (upd_cd_new (cd_creating c) (Some (share_url k, e)) c)
  | CtCreate, SyFails m => upd_cd_new false (cd_new c) (upd_cd_list (cd_shares c) (cd_loading c) m c)
  | CtRevoke, SyDone => refresh_shares CtRevokeList incident c
  | CtRevoke, SyFails m => upd_cd_list (cd_shares c) (cd_loading c) m c
  | CtList, SyList l | CtRevokeList, SyList l => upd_cd_list (Some l) false (cd_err c) c
  | CtList, SyFails m | CtRevokeList, SyFails m => upd_cd_list (Some []) false m c
  | CtCreateList, SyList l => upd_cd_new false (cd_new c) (upd_cd_list (Some l) false (cd_err c) c)
  | CtCreateList, SyFails m => upd_cd_new false (cd_new c) (upd_cd_list (Some []) false m c)
  | _, _ => c
  end.

Inductive BadgeLabel := REVOKED | EXPIRED | ACTIVE.
Definition statusBadge (s : ShareStat) : BadgeLabel := if es_revoked (ss_row s) then REVOKED else if negb (ss_active s) then EXPIRED else ACTIVE.

Inductive CardEvent :=
| CeType (v : string) | CeLookup | CePickExpiry (t : ShareTTL) | CeCreate | CeRevoke (token : string) (confirmed : bool)
| CeSettles (i : nat) (r : ShareReply).

Definition card_step (c : ShareCard) (e : CardEvent) : ShareCard :=
  match e with
  | CeType v => upd_cd_form v (cd_submitted c) (cd_expiry c) c
  | CeLookup =>
      let id := trim (cd_input c) in
      if truthy_str id
      then let c' := upd_cd_form (cd_input c) id (cd_expiry c) c in if String.eqb id (cd_submitted c) then c' else refresh_shares CtList id c'
      else c
  | CePickExpiry t => if truthy_str (cd_submitted c) then upd_cd_form (cd_input c) (cd_submitted c) t c else c
  | CeCreate =>
      if truthy_str (cd_submitted c) && negb (cd_creating c)
      then cd_send CtCreate (cd_submitted c) (SqCreate (cd_submitted c) (cd_expiry c)) (upd_cd_new true None (upd_cd_list (cd_shares c) (cd_loading c) EmptyString c)) else c
  | CeRevoke k confirmed =>
      if existsb (λ s, String.eqb (es_token (ss_row s)) k && ss_active s && negb (es_revoked (ss_row s))) (default [] (cd_shares c)) && confirmed
      then cd_send CtRevoke (cd_submitted c) (SqRevoke k) c else c
  | CeSettles i r =>
      match cd_tasks c !! i with
      | Some (t, incident, rq) => resume_card t incident r (upd_cd_tasks (delete i (cd_tasks c)) c)
      | None => c
      end
  end.

(** *** The export button *)

Record ExportButton := mkExportButton {
  bt_exporting : bool;
  bt_error : option string;
  bt_menu : bool;
  bt_modal : bool;
  bt_expiry : ShareTTL;
  bt_link : option string;
  bt_expires : option Z;
  bt_share_error : option string;
  bt_generating : bool;
  bt_exports : list string;            (* downloads under way: the path resolved *)
  bt_shares : list ShareRequest        (* links under way *)
}.

Definition mount_export_button : ExportButton := mkExportButton false None false false T1w None None None false [] [].

(** [clipUrl.split('#')[0]] *)
Definition before_hash (s : string) : string := default EmptyString (head (js_split "#" s)).
Definition export_name (incident : string) : string := "incident-" +:+ incident +:+ ".mp4".

Definition EXPIRY_OPTIONS : list ShareTTL := [T1h; T1d; T1w; T1m].

Inductive ButtonEvent :=
| BeExport | BeMenu | BeOpenShare | BeCloseShare | BePick (t : ShareTTL) | BeGenerate
| BeExported (i : nat) (failure : option string) | BeShared (i : nat) (r : ShareReply).

Section button.
Context (origin incident : string) (clipUrl : option string) (sharing : bool).

Definition set_export (exporting : bool) (e : option string) (menu : bool) (l : list string) (b : ExportButton) : ExportButton :=
  mkExportButton exporting e menu (bt_modal b) (bt_expiry b) (bt_link b) (bt_expires b) (bt_share_error b) (bt_generating b) l (bt_shares b).
Definition set_share (modal : bool) (t : ShareTTL) (link : option string) (x : option Z) (e : option string) (generating : bool) (l : list ShareRequest) (b : ExportButton) : ExportButton :=
  mkExportButton (bt_exporting b) (bt_error b) (bt_menu b) modal t link x e generating (bt_exports b) l.

Definition button_step (b : ExportButton) (e : ButtonEvent) : ExportButton :=
  match e with
  | BeExport =>
      match clipUrl with
      | Some u => if truthy_str u && negb (bt_exporting b) && negb (bt_modal b) then set_export true None false (bt_exports b ++ [before_hash u])%list b else b
      | None => b
      end
  | BeMenu => if sharing && negb (bt_modal b) then set_export (bt_exporting b) (bt_error b) (negb (bt_menu b)) (bt_exports b) b else b
  | BeOpenShare =>
      if sharing && bt_menu b && negb (bt_modal b)
      then set_share true (bt_expiry b) None None None (bt_generating b) (bt_shares b) (set_export (bt_exporting b) (bt_error b) false (bt_exports b) b) else b
  | BeCloseShare => set_share false (bt_expiry b) (bt_link b) (bt_expires b) (bt_share_error b) (bt_generating b) (bt_shares b) b
  | BePick t => if bt_modal b && bool_decide (bt_link b = None) then set_share true t None (bt_expires b) (bt_share_error b) (bt_generating b) (bt_shares b) b else b
  | BeGenerate =>
      if bt_modal b && bool_decide (bt_link b = None) && negb (bt_generating b)
      then set_share true (bt_expiry b) None (bt_expires b) None true (bt_shares b ++ [SqCreate incident (bt_expiry b)])%list b else b
  | BeExported i f =>
      match bt_exports b !! i with
      | Some _ => set_export false (match f with Some m => Some m | None => bt_error b end) (bt_menu b) (delete i (bt_exports b)) b
      | None => b
      end
  | BeShared i r =>
      match bt_shares b !! i with
      | Some _ =>
          let l := delete i (bt_shares b) in
          match r with
          | SyCreated k x => set_share (bt_modal b) (bt_expiry b) (Some (origin +:+ share_url k)) x (bt_share_error b) false l b
          | SyFails m => set_share (bt_modal b) (bt_expiry b) (bt_link b) (bt_expires b) (Some m) false l b
          | _ => b
          end
      | None => b
      end
  end.
End button.

(** ** The life of a link *)

Inductive ShareOp :=
| OpCreate (role user token : string) (body : json) | OpRevoke (role token : string) | OpList (incident : string) | OpOpen (token : string) (logged : bool).

Definition share_op (now : Z) (o : ShareOp) (db : ShareDB) : ShareDB :=
  match o with
  | OpCreate role user token body => (HandleCreateEvidenceShare role user token now body db).2
  | OpRevoke role token => (HandleRevokeEvidenceShare role token db).2
  | OpList _ => db
  | OpOpen token logged => (HandlePublicEvidenceShare token now logged db).2
  end.
Definition share_run (l : list (Z * ShareOp)) (db : ShareDB) : ShareDB := foldl (λ d x, share_op x.1 x.2 d) db l.

(** The operations that revoke a token, and those that log an open of it. *)
Definition revokes (token : string) (o : ShareOp) : bool := match o with OpRevoke role t => requireAdminOrSupervisor role && truthy_str t && String.eqb t token | _ => false end.
Definition opens_token (token : string) (o : ShareOp) : bool := match o with OpOpen t logged => truthy_str t && logged && String.eqb token t | _ => false end.

Definition revoke_if (b : bool) (r : ShareRow) : ShareRow := if b then set_revoked r else r.

Lemma find_token_revoke k k' l :
  find_where (token_is k) (map_where (token_is k') set_revoked l) = revoke_if (String.eqb k' k) <$> find_where (token_is k) l.
Proof.
  induction l as [|r l IH]; [done|]. change (map_where (token_is k') set_revoked (r :: l)) with ((if token_is k' r then set_revoked r else r) :: map_where (token_is k') set_revoked l).
  rewrite !find_where_cons, IH. unfold token_is, revoke_if.
  destruct (String.eqb_spec (es_token r) k') as [E1|E1]; cbn [es_token set_revoked]; destruct (String.eqb_spec (es_token r) k) as [E2|E2]; try done.
  - simpl. by rewrite <- E1, <- E2, String.eqb_refl.
  - simpl. destruct (String.eqb_spec k' k) as [E|]; [|done]. by subst.
Qed.

Lemma find_token_snoc k l r x : find_where (token_is k) l = Some r → find_where (token_is k) (l ++ [x]) = Some r.
Proof. induction l as [|y l IH]; [done|]. simpl. rewrite !find_where_cons. case_match; [done|]. apply IH. Qed.

Lemma find_where_last {A} (p : A → bool) l x : find_where p l = None → p x = true → find_where p (l ++ [x]) = Some x.
Proof.
  intros Hn Hp. induction l as [|y l IH]; [change (([] ++ [x])%list) with [x]; by rewrite find_where_cons, Hp|].
  change (((y :: l) ++ [x])%list) with (y :: (l ++ [x])%list). rewrite find_where_cons in *. destruct (p y); [done|]. by apply IH.
Qed.

Lemma revoke_if_revoke_if a b r : revoke_if a (revoke_if b r) = revoke_if (a || b) r.
Proof. by destruct a, b. Qed.

(** One operation: the row of a token changes by its revocation only. *)
Lemma share_op_row now o db k r : GetEvidenceShare k db = Some r → GetEvidenceShare k (share_op now o db) = Some (revoke_if (revokes k o) r).
Proof.
  unfold GetEvidenceShare. intros H. destruct o as [role user token body|role token|incident|token logged]; simpl.
  - unfold HandleCreateEvidenceShare. repeat (case_match; try done); simplify_eq. unfold CreateEvidenceShare in *. repeat (case_match; try done); simplify_eq.
    by apply find_token_snoc.
  - unfold HandleRevokeEvidenceShare. destruct (requireAdminOrSupervisor role); [|done]. simpl. destruct (truthy_str token) eqn:Et.
    + simpl. by rewrite find_token_revoke, H.
    + simpl. by rewrite H.
  - done.
  - unfold HandlePublicEvidenceShare. by repeat case_match.
Qed.

Lemma share_run_row l db k r : GetEvidenceShare k db = Some r → GetEvidenceShare k (share_run l db) = Some (revoke_if (existsb (λ x, revokes k x.2) l) r).
Proof.
  revert db r. induction l as [|[now o] l IH]; intros db r H; simpl; [by rewrite H|].
  rewrite (IH _ _ (share_op_row now o db k r H)), revoke_if_revoke_if. by rewrite orb_comm.
Qed.

(** Opens are only ever added. *)
Lemma share_op_opens now o db k : CountShareOpens k (share_op now o db) = (CountShareOpens k db + if opens_token k o then 1 else 0)%nat.
Proof.
  destruct o as [role user token body|role token|incident|token logged]; simpl; rewrite ?Nat.add_0_r.
  - unfold HandleCreateEvidenceShare, CreateEvidenceShare. by repeat (case_match; simplify_eq/=).
  - unfold HandleRevokeEvidenceShare. by repeat case_match.
  - done.
  - unfold HandlePublicEvidenceShare, CountShareOpens. destruct (truthy_str token); simpl; [|lia]. destruct logged; simpl; [|lia].
    by rewrite length_filter_snoc.
Qed.

Lemma share_run_opens l db k : CountShareOpens k (share_run l db) = (CountShareOpens k db + length (filter_where (λ x, opens_token k x.2) l))%nat.
Proof.
  revert db. induction l as [|[now o] l IH]; intros db; simpl; [by rewrite Nat.add_0_r|].
  rewrite IH, share_op_opens, filter_where_cons. simpl. case_match; simpl; lia.
Qed.

(** The expiry of an accepted request. *)
Lemma share_ttl_bounded h t : share_ttl h = Some t → - 2 ^ 63 ≤ t ≤ shareMaxTTL.
Proof.
  unfold share_ttl. case_match; [|intros [= <-]; vm_compute; split; congruence].
  destruct (Z.ltb_spec shareMaxTTL (wrap64 (h * HOUR_NS))); [done|]. intros [= <-]. split; [|done].
  unfold wrap64. pose proof (Z.mod_pos_bound (h * HOUR_NS + 2 ^ 63) (2 ^ 64)). lia.
Qed.

Lemma created_share role user token now body db r db' :
  HandleCreateEvidenceShare role user token now body db = (201, Some r, db') →
  ∃ incident h ttl, decode_share body = Some (incident, h) ∧ truthy_str incident = true ∧ share_ttl h = Some ttl ∧ requireAdminOrSupervisor role = true ∧
    es_token r = token ∧ es_incident r = incident ∧ es_expires r = Some (now + ttl) ∧
    existsb (String.eqb incident) (sh_incidents db) = true ∧ GetEvidenceShare token db = None ∧ GetEvidenceShare token db' = Some (mkShareRow token incident user (Some (column (now + ttl))) false (column now)) ∧
    sh_opens db' = sh_opens db.
Proof.
  unfold HandleCreateEvidenceShare. destruct (requireAdminOrSupervisor role) eqn:Er; [|done]. simpl.
  destruct (decode_share body) as [[incident h]|] eqn:Ed; [|done]. destruct (truthy_str incident) eqn:Ei; [|done]. simpl.
  destruct (share_ttl h) as [ttl|] eqn:Et; [|done]. unfold CreateEvidenceShare. rewrite Ei. simpl.
  destruct (existsb (token_is token) (sh_rows db)) eqn:Ex; [done|]. simpl. destruct (existsb (String.eqb incident) _) eqn:Ek; [|done]. simpl. intros [= <- <-]. exists incident, h, ttl. cbn.
  assert (Hn : find_where (token_is token) (sh_rows db) = None).
  { apply find_where_None. intros x Hx. apply not_true_iff_false. intros Hp. apply not_true_iff_false in Ex. apply Ex, existsb_exists. exists x. by rewrite <- list_elem_of_In. }
  split_and!; try done. unfold GetEvidenceShare. cbn [sh_rows]. apply find_where_last; [done|]. unfold token_is. apply String.eqb_refl.
Qed.

(** C32.  The life of a link.  After an accepted creation, whatever is created, revoked,
    listed and opened afterwards, at any times, the token opens the evidence at an instant
    exactly when no supervisor or administrator has revoked it and its expiry, kept in
    microseconds, has not passed.  So revocation and expiry are final.  The link lives for
    90 days at most, though the product of hours and duration wraps around.  Each open
    that was logged is counted, also those refused. *)
Theorem share_life role user token now body db r db' ops t logged :
  HandleCreateEvidenceShare role user token now body db = (201, Some r, db') → truthy_str token = true →
  ∃ ttl, es_expires r = Some (now + ttl) ∧ ttl ≤ shareMaxTTL ∧
    ((∃ row, (HandlePublicEvidenceShare token t logged (share_run ops db')).1 = Some row ∧ es_incident row = es_incident r) ↔
       existsb (λ x, revokes token x.2) ops = false ∧ t ≤ column (now + ttl)) ∧
    CountShareOpens token (share_run ops db') = (CountShareOpens token db + length (filter_where (λ x, opens_token token x.2) ops))%nat.
Proof.
  intros (incident & h & ttl & _ & _ & Ht & _ & Htk & Hi & He & _ & _ & Hg & Ho)%created_share Hk. exists ttl.
  split_and!; [done|exact (proj2 (share_ttl_bounded h ttl Ht))| |].
  - unfold HandlePublicEvidenceShare. rewrite Hk. cbn [negb fst]. rewrite (share_run_row ops db' token _ Hg).
    destruct (existsb _ ops) eqn:E; simpl; [naive_solver|]. destruct (Z.ltb_spec (column (now + ttl)) t); [|rewrite Hi].
    + split; [naive_solver|]. intros [_ ?]. lia.
    + split; [done|]. intros _. by eexists.
  - rewrite share_run_opens. unfold CountShareOpens. by rewrite Ho.
Qed.

Lemma share_life_witness :
  ∃ r db', HandleCreateEvidenceShare "admin" "u" "tok" 5000 (share_body "INC-1" T1h) (mkShareDB [] [] ["INC-1"]) = (201, Some r, db') ∧
    (HandlePublicEvidenceShare "tok" 6000 true (share_run [(5500, OpOpen "tok" true)] db')).1 ≠ None ∧
    (HandlePublicEvidenceShare "tok" 6000 true (share_run [(5500, OpRevoke "soc_supervisor" "tok")] db')).1 = None.
Proof.
  eexists _, _. split; [reflexivity|]. split.
  - destruct (share_life "admin" "u" "tok" 5000 (share_body "INC-1" T1h) (mkShareDB [] [] ["INC-1"]) _ _ [(5500, OpOpen "tok" true)] 6000 true eq_refl eq_refl) as (ttl & He & _ & H & _).
    assert (ttl = 3600000000000) as -> by (assert (Some (5000 + 3600000000000) = Some (5000 + ttl)) as E by exact He; assert (5000 + 3600000000000 = 5000 + ttl) by congruence; lia). destruct H as [_ H]. destruct H as (row & -> & _); [|done]. split; [reflexivity|]. by vm_compute.
  - by vm_compute.
Defined.

(** Each choice of the page is accepted with its own time, also the longest. *)
Lemma choices_accepted t incident : truthy_str incident = true → decode_share (share_body incident t) = Some (incident, SHARE_TTL_HOURS t) ∧ share_ttl (SHARE_TTL_HOURS t) = Some (SHARE_TTL_HOURS t * HOUR_NS).
Proof. intros _. split; [by destruct t|]. by destruct t. Qed.

(** ** The card and the button *)

Lemma get_share_elem db r : NoDup (es_token <$> sh_rows db) → r ∈ sh_rows db → GetEvidenceShare (es_token r) db = Some r.
Proof.
  intros Hnd Hr. unfold GetEvidenceShare. destruct (find_where _ _) as [x|] eqn:E.
  - apply find_where_Some in E as [Hx Hin]. apply String.eqb_eq in Hx. f_equal. by apply (NoDup_fmap_elem es_token (sh_rows db)).
  - pose proof (proj1 (find_where_None _ _) E r Hr) as H. unfold token_is in H. by rewrite String.eqb_refl in H.
Qed.

(**  The badge that the card shows for a link says, at the instant of the list, whether
    the public page opens it: active links open and the others do not, but for the instant
    of the expiry itself, when a link that the card calls expired still opens. *)
Theorem badge_exact db incident now s logged :
  NoDup (es_token <$> sh_rows db) → s ∈ HandleListEvidenceShares incident now db → truthy_str (es_token (ss_row s)) = true →
  ((∃ row, (HandlePublicEvidenceShare (es_token (ss_row s)) now logged db).1 = Some row) ↔
     statusBadge s = ACTIVE ∨ statusBadge s = EXPIRED ∧ es_expires (ss_row s) = Some now) ∧
  es_incident (ss_row s) = incident ∧ ss_opens s = CountShareOpens (es_token (ss_row s)) db.
Proof.
  intros Hnd Hs Ht. apply list_elem_of_fmap in Hs as (r & -> & Hr). apply elem_of_sort_by, elem_of_filter_where in Hr as [Hi Hr]. apply String.eqb_eq in Hi.
  split; [|by split]. cbn [ss_row] in *. unfold HandlePublicEvidenceShare. rewrite Ht. cbn [negb fst]. rewrite (get_share_elem db r Hnd Hr).
  unfold statusBadge, share_active. cbn [ss_row ss_active]. destruct (es_revoked r); simpl; [naive_solver|].
  destruct (es_expires r) as [x|]; [|naive_solver]. destruct (Z.ltb_spec x now), (Z.ltb_spec now x); simpl; try lia.
  - split; [naive_solver|]. intros [?|[_ [= ->]]]; [done|lia].
  - naive_solver.
  - split; [|by eexists]. intros _. right. split; [done|]. f_equal. lia.
Qed.

Lemma badge_exact_witness :
  ∃ row, (HandlePublicEvidenceShare "t" 9000 false (mkShareDB [mkShareRow "t" "I" "u" (Some 9000) false 0] [] [])).1 = Some row.
Proof.
  apply (badge_exact (mkShareDB [mkShareRow "t" "I" "u" (Some 9000) false 0] [] []) "I" 9000 (mkShareStat (mkShareRow "t" "I" "u" (Some 9000) false 0) 0 false) false);
    [apply NoDup_singleton|by apply list_elem_of_singleton|done|by right].
Defined.

(**  From the choice on the page to the link.  A supervisor's link lives exactly as long
    as was chosen, 90 days for the longest; a role that may not share and an incident that
    does not exist are refused and the tables stay as they are; and the address that the page offers is not among those that
    the front end's server forwards. *)
Theorem choice_exact role user token now incident t db :
  truthy_str incident = true → GetEvidenceShare token db = None →
  (if requireAdminOrSupervisor role && existsb (String.eqb incident) (sh_incidents db)
   then (serve_share role user token now (SqCreate incident t) db).1 = SyCreated token (Some (now + SHARE_TTL_HOURS t * HOUR_NS)) ∧
        GetEvidenceShare token (serve_share role user token now (SqCreate incident t) db).2 =
          Some (mkShareRow token incident user (Some (column (now + SHARE_TTL_HOURS t * HOUR_NS))) false (column now))
   else ∃ m, serve_share role user token now (SqCreate incident t) db = (SyFails m, db)) ∧
  forwarded (share_url token) = false.
Proof.
  intros Hi Hn. split; [|reflexivity].
  destruct (choices_accepted t incident Hi) as [Hd Ht]. unfold serve_share, HandleCreateEvidenceShare.
  destruct (requireAdminOrSupervisor role); cbn [negb]; [|by eexists]. rewrite Hd, Hi. cbn [negb andb]. rewrite Ht. unfold CreateEvidenceShare. rewrite Hi. cbn [negb orb].
  assert (existsb (token_is token) (sh_rows db) = false) as ->.
  { apply not_true_iff_false. intros (x & Hx & Hp)%existsb_exists. unfold GetEvidenceShare in Hn.
    rewrite (proj1 (find_where_None _ _) Hn x) in Hp; [done|]. by apply list_elem_of_In. }
  cbn [orb]. destruct (existsb (String.eqb incident) (sh_incidents db)); cbn [negb]; [|by eexists].
  simpl. split; [done|]. unfold GetEvidenceShare. apply find_where_last; [done|]. unfold token_is. apply String.eqb_refl.
Qed.

Lemma choice_exact_witness :
  (serve_share "admin" "u" "tok" 0 (SqCreate "INC-1" TNever) (mkShareDB [] [] ["INC-1"])).1 = SyCreated "tok" (Some (0 + SHARE_TTL_HOURS TNever * HOUR_NS)).
Proof. apply (choice_exact "admin" "u" "tok" 0 "INC-1" TNever (mkShareDB [] [] ["INC-1"])); reflexivity. Defined.

(**  The card does not tell incidents apart.  The link that was created stays on the
    page when another incident is looked up, and a list that was asked for an earlier
    incident is shown under the present one when its answer comes last. *)
Theorem card_mixes_incidents (c : ShareCard) v i j a b l m :
  truthy_str (trim v) = true → trim v ≠ cd_submitted c → cd_tasks c !! i = Some (CtList, a, SqList a) → a ≠ trim v →
  let c' := card_step (card_step c (CeType v)) CeLookup in
  cd_new c' = cd_new c ∧ cd_submitted c' = trim v ∧ cd_tasks c' !! length (cd_tasks c) = Some (CtList, trim v, SqList (trim v)) ∧
  (j = length (cd_tasks c) → b = card_step (card_step c' (CeSettles j (SyList m))) (CeSettles i (SyList l)) →
   cd_submitted b = trim v ∧ cd_shares b = Some l).
Proof.
  intros Hv Hne Hi Ha c'.
  assert (Hc : c' = refresh_shares CtList (trim v) (upd_cd_form v (trim v) (cd_expiry c) (upd_cd_form v (cd_submitted c) (cd_expiry c) c))).
  { unfold c', card_step. cbn [cd_input upd_cd_form cd_submitted]. rewrite Hv. destruct (String.eqb_spec (trim v) (cd_submitted c)); [done|reflexivity]. }
  rewrite Hc. unfold refresh_shares. rewrite Hv. simpl. split_and!; [done|done|by rewrite list_lookup_middle|].
  intros -> ->. simpl. rewrite list_lookup_middle by done. simpl.
  rewrite list_lookup_delete_lt by (by apply lookup_lt_Some in Hi). rewrite lookup_app_l by (by apply lookup_lt_Some in Hi). by rewrite Hi.
Qed.

Lemma card_mixes_incidents_witness :
  truthy_str (trim "B") = true ∧ cd_submitted (card_step (card_step (card_step (card_step mount_card (CeType "A")) CeLookup) (CeType "B")) CeLookup) = "B".
Proof.
  split; [reflexivity|].
  apply (card_mixes_incidents (card_step (card_step mount_card (CeType "A")) CeLookup) "B" 0 1 "A" mount_card [] []); by vm_compute.
Defined.

Lemma delete_only {A} (l : list A) i x : l !! i = Some x → length l = 1%nat → delete i l = [].
Proof. destruct l as [|y [|]]; try done. by destruct i. Qed.

(** Busy exactly while one request is under way. *)
Definition settled_by {A} (b : bool) (l : list A) : Prop := length l = (if b then 1 else 0)%nat.

Lemma busy_send {A} b (l : list A) x : settled_by b l → negb b = true → settled_by true (l ++ [x]).
Proof. unfold settled_by. destruct b; [done|]. rewrite length_app. simpl. lia. Qed.

Lemma busy_settle {A} b (l : list A) i x : settled_by b l → l !! i = Some x → settled_by false (delete i l).
Proof. unfold settled_by. intros Hb Hi. destruct b; [by rewrite (delete_only _ _ _ Hi Hb)|]. by destruct l. Qed.

(**  The export button is never stuck: it is busy exactly while its one download is under
    way, and the sharing dialog exactly while its one link is. *)
Theorem button_settles origin incident clip sharing (es : list ButtonEvent) :
  let b := foldl (button_step origin incident clip sharing) mount_export_button es in
  settled_by (bt_exporting b) (bt_exports b) ∧ settled_by (bt_generating b) (bt_shares b).
Proof.
  cbn zeta. induction es as [|e es IH] using rev_ind; [done|]. rewrite foldl_app. simpl. revert IH.
  generalize (foldl (button_step origin incident clip sharing) mount_export_button es). intros b [Hx Hs].
  unfold button_step, set_share, set_export. destruct e; cbn -[delete]; repeat case_match; cbn -[delete]; split; try done;
    first [eapply busy_settle; eassumption | eapply busy_send; [eassumption|]];
    match goal with E : _ && _ = true |- _ => by rewrite !andb_true_iff in E; destruct E as [[]] end.
Qed.
