(* ===== verification/SupportServer.v ===== *)
(** * Support tickets: the server

    The conversations of customers with the operations centre: the handlers of
    [internal/api/support.go], the tables behind them ([internal/database/support.go]) and the
    purge of the retention worker.  Messages are kept under their ticket, since the foreign
    key deletes them with it.  An id is the next value of the table's sequence; an instant is
    the time of the transaction. *)

From S2P Require Import Prelude Types Http Support SiteServer.
From Stdlib Require Import Ascii.
#[local] Open Scope string_scope.
#[local] Open Scope Z_scope.

(** ** Text columns *)

Definition byte_in (lo hi : N) (c : ascii) : bool := (lo <=? N_of_ascii c)%N && (N_of_ascii c <=? hi)%N.
Definition is_cont (c : ascii) : bool := byte_in 128 191 c.

(** The bytes that may follow the first byte of a character of three or four bytes. *)
Definition second3 (c d : ascii) : bool :=
  if byte_in 224 224 c then byte_in 160 191 d else if byte_in 237 237 c then byte_in 128 159 d else byte_in 225 239 c && is_cont d.
Definition second4 (c d : ascii) : bool :=
  if byte_in 240 240 c then byte_in 144 191 d else if byte_in 244 244 c then byte_in 128 143 d else byte_in 241 243 c && is_cont d.

(** What a text column of the database takes: well-formed UTF-8 without the byte 0. *)
Fixpoint storable (s : string) : bool :=
  match s with
  | EmptyString => true
  | String c r =>
      if byte_in 1 127 c then storable r
      else if byte_in 194 223 c then match r with String d r' => is_cont d && storable r' | _ => false end
      else if byte_in 224 239 c then match r with String d (String e r') => second3 c d && is_cont e && storable r' | _ => false end
      else match r with String d (String e (String f r')) => second4 c d && is_cont e && is_cont f && storable r' | _ => false end
  end.

(** [s[:n]] when [len(s) > n]: a slice of bytes. *)
Definition go_cut (n : Z) (s : string) : string := if n <? Z.of_nat (String.length s) then String.substring 0 (Z.to_nat n) s else s.

(** ** The tables *)

Record MsgRow := mkMsgRow { mr_id : Z; mr_author : string; mr_role : string; mr_body : string; mr_created : Z }.

Record TicketRow := mkTicketRow {
  tr_id : Z;
  tr_org : string;
  tr_site : option string;
  tr_by : string;
  tr_subject : string;
  tr_status : string;
  tr_created : Z;
  tr_last_at : Z;
  tr_last_by : string;
  tr_msgs : list MsgRow
}.

(** The tickets, and the keys of the tables they refer to. *)
Record SupportTables := mkSupportTables { sd_tickets : list TicketRow; sd_orgs : list string; sd_sites : list string; sd_users : list string }.

Definition put_tickets (l : list TicketRow) (db : SupportTables) : SupportTables := mkSupportTables l (sd_orgs db) (sd_sites db) (sd_users db).

Definition classifyRole (role : string) : string := if String.eqb role "soc_supervisor" || String.eqb role "admin" then "soc" else "customer".

Definition ticket_is (id : Z) (t : TicketRow) : bool := tr_id t =? id.

(** [CreateSupportTicket]: the ticket with its first message, or an error. *)
Definition CreateSupportTicket (org site subject body author role : string) (id mid now : Z) (db : SupportTables) : option (TicketRow * SupportTables) :=
  if negb (truthy_str subject) || negb (truthy_str body) then None
  else if includes org (sd_orgs db) && (negb (truthy_str site) || includes site (sd_sites db)) && includes author (sd_users db)
          && storable subject && storable body
  then let t := mkTicketRow id org (if truthy_str site then Some site else None) author subject "open" now now (classifyRole role) [mkMsgRow mid author role body now] in
       Some (t, put_tickets (sd_tickets db ++ [t])%list db)
  else None.

Definition replied_row (role : string) (now : Z) (m : MsgRow) (t : TicketRow) : TicketRow :=
  mkTicketRow (tr_id t) (tr_org t) (tr_site t) (tr_by t) (tr_subject t)
    (if String.eqb (tr_status t) "closed" then "closed" else if String.eqb (classifyRole role) "soc" then "answered" else "open")
    (tr_created t) now (classifyRole role) (tr_msgs t ++ [m])%list.

Definition AddSupportMessage (id : Z) (author role body : string) (mid now : Z) (db : SupportTables) : option (MsgRow * SupportTables) :=
  if truthy_str body && includes author (sd_users db) && storable body
  then let m := mkMsgRow mid author role body now in Some (m, put_tickets (map_where (ticket_is id) (replied_row role now m) (sd_tickets db)) db)
  else None.

Definition STATUSES : list string := ["open"; "answered"; "closed"].

Definition with_status (st : string) (t : TicketRow) : TicketRow :=
  mkTicketRow (tr_id t) (tr_org t) (tr_site t) (tr_by t) (tr_subject t) st (tr_created t) (tr_last_at t) (tr_last_by t) (tr_msgs t).

Definition SetSupportTicketStatus (id : Z) (st : string) (db : SupportTables) : option SupportTables :=
  if includes st STATUSES then Some (put_tickets (map_where (ticket_is id) (with_status st) (sd_tickets db)) db) else None.

Definition PruneClosedSupportTickets (cutoff : Z) (db : SupportTables) : SupportTables :=
  put_tickets (filter_where (λ t, negb (String.eqb (tr_status t) "closed" && (tr_last_at t <? cutoff))) (sd_tickets db)) db.

(** ** The handlers *)

(** What a handler takes of the token; [sc_user] is the parsed id. *)
Record SupportClaims := mkSupportClaims { sc_role : string; sc_org : string; sc_user : option string }.

Definition canAccessTicket (c : SupportClaims) (t : TicketRow) : bool :=
  if String.eqb (sc_role c) "admin" || String.eqb (sc_role c) "soc_supervisor" then true
  else if String.eqb (sc_role c) "customer" || String.eqb (sc_role c) "site_manager" then truthy_str (sc_org c) && String.eqb (tr_org t) (sc_org c)
  else false.

Inductive SupportRq :=
| TrList (status : string) | TrCreate (body : json) | TrGet (id : Z) | TrReply (id : Z) (body : json) | TrUpdate (id : Z) (body : json).

Inductive SupportAnswer :=
| TaError (code : Z) | TaList (l : list Ticket) | TaCreated (t : Ticket) | TaThread (d : ThreadResponse) | TaReplied (m : TicketMessage) | TaDone.

Definition decode_body (k : string) (body : json) : option string := match body with JObj _ | JNull => go_string (jget k body) | _ => None end.
Definition decode_ticket (body : json) : option (string * string * string) :=
  match body with
  | JObj _ | JNull => s ← go_string (jget "subject" body); b ← go_string (jget "body" body); i ← go_string (jget "site_id" body); Some (s, b, i)
  | _ => None
  end.

Section server.
Context (name_of : string → string).      (* the name of a user: display_name, or username *)
Context (time_text : Z → string).         (* an instant in JSON *)

Definition ticket_out (name : string) (t : TicketRow) : Ticket :=
  mkTicket (tr_id t) (tr_org t) (default EmptyString (tr_site t)) name (tr_subject t) (tr_status t) (time_text (tr_created t)) (time_text (tr_last_at t)) (tr_last_by t)
    (Z.of_nat (length (tr_msgs t))).
Definition message_out (name : string) (tid : Z) (m : MsgRow) : TicketMessage := mkTicketMessage (mr_id m) tid (mr_author m) name (mr_role m) (mr_body m) (time_text (mr_created m)).

(** The lists: newest message first, 200 at most. *)
Definition list_tickets (p : TicketRow → bool) (status : string) (db : SupportTables) : list Ticket :=
  (λ t, ticket_out (name_of (tr_by t)) t) <$>
    take 200 (sort_by (λ a b, tr_last_at b <=? tr_last_at a)
      (filter_where (λ t, p t && (negb (truthy_str status) || String.eqb status "all" || String.eqb (tr_status t) status)) (sd_tickets db))).

Definition HandleListSupportTickets (c : SupportClaims) (status : string) (db : SupportTables) : SupportAnswer :=
  if String.eqb (sc_role c) "admin" || String.eqb (sc_role c) "soc_supervisor" then TaList (list_tickets (λ _, true) status db)
  else if String.eqb (sc_role c) "soc_operator" || String.eqb (sc_role c) "viewer" then TaError 403
  else if truthy_str (sc_org c) then TaList (list_tickets (λ t, String.eqb (tr_org t) (sc_org c)) status db)
  else TaList [].

Definition HandleCreateSupportTicket (c : SupportClaims) (body : json) (id mid now : Z) (db : SupportTables) : SupportAnswer * SupportTables :=
  if negb (truthy_str (sc_org c)) && String.eqb (classifyRole (sc_role c)) "customer" then (TaError 403, db)
  else match sc_user c, decode_ticket body with
       | Some u, Some (s, b, i) =>
           match CreateSupportTicket (sc_org c) i (go_cut 200 s) (go_cut 8000 b) u (sc_role c) id mid now db with
           | Some (t, db') => (TaCreated (ticket_out EmptyString t), db')
           | None => (TaError 400, db)
           end
       | _, _ => (TaError 400, db)
       end.

(** The ticket of a request, when the caller may have it. *)
Definition accessible (c : SupportClaims) (id : Z) (db : SupportTables) : option TicketRow :=
  t ← find_where (ticket_is id) (sd_tickets db); if canAccessTicket c t then Some t else None.

Definition HandleGetSupportTicket (c : SupportClaims) (id : Z) (db : SupportTables) : SupportAnswer :=
  match accessible c id db with
  | Some t => TaThread (mkThread (ticket_out (name_of (tr_by t)) t)
                          ((λ m, message_out (name_of (mr_author m)) id m) <$> sort_by (λ a b, mr_created a <=? mr_created b) (tr_msgs t)))
  | None => TaError 404
  end.

Definition HandleSupportTicketReply (c : SupportClaims) (id : Z) (body : json) (mid now : Z) (db : SupportTables) : SupportAnswer * SupportTables :=
  match accessible c id db with
  | None => (TaError 404, db)
  | Some _ =>
      match sc_user c, decode_body "body" body with
      | Some u, Some b =>
          match AddSupportMessage id u (sc_role c) (go_cut 8000 b) mid now db with
          | Some (m, db') => (TaReplied (message_out EmptyString id m), db')
          | None => (TaError 400, db)
          end
      | _, _ => (TaError 400, db)
      end
  end.

Definition HandleUpdateSupportTicket (c : SupportClaims) (id : Z) (body : json) (db : SupportTables) : SupportAnswer * SupportTables :=
  match accessible c id db with
  | None => (TaError 404, db)
  | Some _ => match decode_body "status" body with
              | Some st => match SetSupportTicketStatus id st db with Some db' => (TaDone, db') | None => (TaError 400, db) end
              | None => (TaError 400, db)
              end
  end.

(** One request, with the next ids of the sequences and the time. *)
Definition serve_ticket (c : SupportClaims) (id mid now : Z) (rq : SupportRq) (db : SupportTables) : SupportAnswer * SupportTables :=
  match rq with
  | TrList st => (HandleListSupportTickets c st db, db)
  | TrCreate b => HandleCreateSupportTicket c b id mid now db
  | TrGet i => (HandleGetSupportTicket c i db, db)
  | TrReply i b => HandleSupportTicketReply c i b mid now db
  | TrUpdate i b => HandleUpdateSupportTicket c i b db
  end.

(** A run of the server: requests of any callers, and the retention worker. *)
Inductive TicketOp := ToRequest (c : SupportClaims) (id mid now : Z) (rq : SupportRq) | ToPrune (cutoff : Z).

Definition ticket_op (db : SupportTables) (o : TicketOp) : SupportTables :=
  match o with ToRequest c id mid now rq => (serve_ticket c id mid now rq db).2 | ToPrune k => PruneClosedSupportTickets k db end.
End server.

(** ** Texts that are cut *)

(** The forms of a text that begins with a character. *)
Lemma storable_first c r : storable (String c r) = true →
  (byte_in 1 127 c = true ∧ storable r = true) ∨
  (byte_in 1 127 c = false ∧ byte_in 194 223 c = true ∧ ∃ d r', r = String d r' ∧ is_cont d = true ∧ storable r' = true) ∨
  (byte_in 1 127 c = false ∧ byte_in 194 223 c = false ∧ byte_in 224 239 c = true ∧
     ∃ d e r', r = String d (String e r') ∧ second3 c d = true ∧ is_cont e = true ∧ storable r' = true) ∨
  (byte_in 1 127 c = false ∧ byte_in 194 223 c = false ∧ byte_in 224 239 c = false ∧
     ∃ d e f r', r = String d (String e (String f r')) ∧ second4 c d = true ∧ is_cont e = true ∧ is_cont f = true ∧ storable r' = true).
Proof.
  simpl. destruct (byte_in 1 127 c); [naive_solver|]. destruct (byte_in 194 223 c).
  - destruct r as [|d r]; [done|]. rewrite andb_true_iff. naive_solver.
  - destruct (byte_in 224 239 c).
    + destruct r as [|d [|e r]]; [done|done|]. rewrite !andb_true_iff. naive_solver.
    + destruct r as [|d [|e [|f r]]]; [done..|]. rewrite !andb_true_iff. naive_solver.
Qed.

Lemma byte_in_range lo hi c : byte_in lo hi c = true ↔ (lo <= N_of_ascii c <= hi)%N.
Proof. unfold byte_in. by rewrite andb_true_iff, !N.leb_le. Qed.

Lemma byte_in_outside lo hi c : byte_in lo hi c = false ↔ (N_of_ascii c < lo ∨ hi < N_of_ascii c)%N.
Proof. unfold byte_in. rewrite andb_false_iff, !N.leb_gt. done. Qed.

(** Arithmetic on the tests of bytes. *)
Ltac bytes := rewrite ?byte_in_range, ?byte_in_outside in *; unfold is_cont in *; rewrite ?byte_in_range, ?byte_in_outside in *; lia.

Lemma second3_cont c d : second3 c d = true → is_cont d = true ∧ is_cont c = false.
Proof. unfold second3. repeat case_match; rewrite ?andb_true_iff; intros; destruct_and?; split; bytes. Qed.

Lemma second4_cont c d : second4 c d = true → is_cont d = true ∧ is_cont c = false.
Proof. unfold second4. repeat case_match; rewrite ?andb_true_iff; intros; destruct_and?; split; bytes. Qed.

(** A well-formed text cut at a byte is well formed exactly when that byte begins a
    character. *)
Lemma storable_cut k s n : (String.length s ≤ k)%nat → storable s = true → (n < String.length s)%nat →
  storable (String.substring 0 n s) = match String.get n s with Some c => negb (is_cont c) | None => true end.
Proof.
  revert s n. induction k as [|k IH]; intros [|c r] n Hk Hs Hn; simpl in Hk, Hn; try lia.
  destruct (storable_first c r Hs) as [[H1 Hr]|[(H1 & H2 & d & r' & -> & Hd & Hr)|[(H1 & H2 & H3 & d & e & r' & -> & Hd & He & Hr)|(H1 & H2 & H3 & d & e & f & r' & -> & Hd & He & Hf & Hr)]]];
    simpl in Hk, Hn.
  - destruct n as [|n]; [simpl; symmetry; apply negb_true_iff; bytes|]. cbn [String.substring String.get storable]. rewrite H1. apply IH; [lia|done|lia].
  - destruct n as [|[|n]]; [simpl; symmetry; apply negb_true_iff; bytes| |]; cbn [String.substring String.get storable].
    + by rewrite H1, H2, Hd.
    + rewrite H1, H2, Hd. apply IH; [lia|done|lia].
  - destruct (second3_cont _ _ Hd) as [Hd' Hc].
    destruct n as [|[|[|n]]]; cbn [String.substring String.get storable]; rewrite ?H1, ?H2, ?H3, ?Hc, ?Hd', ?He, ?Hd; try done.
    apply IH; [lia|done|lia].
  - destruct (second4_cont _ _ Hd) as [Hd' Hc].
    destruct n as [|[|[|[|n]]]]; cbn [String.substring String.get storable]; rewrite ?H1, ?H2, ?H3, ?Hc, ?Hd', ?He, ?Hf, ?Hd; try done.
    apply IH; [lia|done|lia].
Qed.

(** What the handlers keep of a message. *)
Lemma storable_go_cut n b : 0 <= n → storable b = true →
  storable (go_cut n b) = match String.get (Z.to_nat n) b with Some c => negb (is_cont c) | None => true end.
Proof.
  intros Hn Hb. unfold go_cut. destruct (Z.ltb_spec n (Z.of_nat (String.length b))).
  - apply (storable_cut (String.length b)); [done|done|lia].
  - rewrite Hb. destruct (String.get _ b) eqn:E; [|done]. exfalso.
    assert (Hg : ∀ s k, (String.length s ≤ k)%nat → String.get k s = None) by (induction s as [|x s IH]; intros [|k] ?; simpl in *; try done; try lia; apply IH; lia).
    rewrite Hg in E; [done|lia].
Qed.

(**  A reply that fits is stored whole.  One of more than 8000 bytes is cut to 8000 if
    byte 8000 begins a character, and refused if it does not: the page counts characters,
    and a text without characters of one byte that is longer than the cut is lost or not by
    the accident of its lengths. *)
Theorem long_reply_exact (time_text : Z → string) c id body b u mid now db t :
  accessible c id db = Some t → sc_user c = Some u → includes u (sd_users db) = true →
  decode_body "body" body = Some b → storable b = true → truthy_str b = true →
  (HandleSupportTicketReply time_text c id body mid now db).1 =
    match String.get (Z.to_nat 8000) b with
    | Some x => if is_cont x then TaError 400 else TaReplied (message_out time_text EmptyString id (mkMsgRow mid u (sc_role c) (go_cut 8000 b) now))
    | None => TaReplied (message_out time_text EmptyString id (mkMsgRow mid u (sc_role c) b now))
    end.
Proof.
  intros Ha Hu Hi Hd Hs Ht. unfold HandleSupportTicketReply. rewrite Ha, Hu, Hd. unfold AddSupportMessage. rewrite Hi.
  assert (Hc : truthy_str (go_cut 8000 b) = true).
  { unfold go_cut. destruct (8000 <? Z.of_nat (String.length b)); [|done]. replace (Z.to_nat 8000) with (S (Z.to_nat 7999)) by lia. by destruct b. }
  rewrite Hc, (storable_go_cut 8000 b) by (lia || done). cbn [andb].
  destruct (String.get (Z.to_nat 8000) b) as [x|] eqn:E; cbn [andb]; [by destruct (is_cont x)|].
  replace (go_cut 8000 b) with b; [done|]. unfold go_cut. destruct (Z.ltb_spec 8000 (Z.of_nat (String.length b))); [|done].
  assert (Hg : ∀ s k, (k < String.length s)%nat → String.get k s ≠ None) by (induction s as [|y s IH]; intros [|k] ?; simpl in *; try done; try lia; apply IH; lia).
  exfalso. apply (Hg b (Z.to_nat 8000)); [lia|done].
Qed.

(** ** The tables *)

Definition ticket_wf (t : TicketRow) : Prop :=
  tr_status t ∈ STATUSES ∧
  (∃ m, last (tr_msgs t) = Some m ∧ tr_last_at t = mr_created m ∧ tr_last_by t = classifyRole (mr_role m)) ∧
  Forall (λ m, truthy_str (mr_body m) = true ∧ storable (mr_body m) = true) (tr_msgs t).

Record tables_wf (db : SupportTables) : Prop := mkTablesWf {
  tw_ids : NoDup (tr_id <$> sd_tickets db);
  tw_rows : Forall ticket_wf (sd_tickets db);
  tw_keys : Forall (λ t, tr_org t ∈ sd_orgs db ∧ (∀ s, tr_site t = Some s → s ∈ sd_sites db)) (sd_tickets db)
}.

(** The id that a sequence gives is new. *)
Definition fresh_op (db : SupportTables) (o : TicketOp) : Prop :=
  match o with ToRequest _ id _ _ (TrCreate _) => id ∉ tr_id <$> sd_tickets db | _ => True end.


(** A handler changes the tables in one of four ways. *)
Inductive table_step (c : SupportClaims) (id : Z) (db : SupportTables) : SupportTables → Prop :=
| TsSame : table_step c id db db
| TsNew mid now u role site subject body :
    sc_org c ∈ sd_orgs db → (∀ s, site = Some s → s ∈ sd_sites db) → truthy_str body = true → storable body = true →
    table_step c id db (put_tickets (sd_tickets db ++ [mkTicketRow id (sc_org c) site u subject "open" now now (classifyRole role) [mkMsgRow mid u role body now]])%list db)
| TsReply i t u role body mid now : accessible c i db = Some t → truthy_str body = true → storable body = true →
    table_step c id db (put_tickets (map_where (ticket_is i) (replied_row role now (mkMsgRow mid u role body now)) (sd_tickets db)) db)
| TsStatus i t st : accessible c i db = Some t → st ∈ STATUSES →
    table_step c id db (put_tickets (map_where (ticket_is i) (with_status st) (sd_tickets db)) db).

Lemma includes_elem {A} `{EqDecision A} (x : A) l : includes x l = true ↔ x ∈ l.
Proof. apply bool_decide_eq_true. Qed.

Lemma serve_ticket_step nm tx c id mid now rq db :
  table_step c (match rq with TrCreate _ => id | _ => 0 end) db (serve_ticket nm tx c id mid now rq db).2.
Proof.
  destruct rq as [st|body|i|i body|i body]; try apply TsSame; cbn [serve_ticket].
  - unfold HandleCreateSupportTicket, CreateSupportTicket. case_match; [apply TsSame|]. destruct (sc_user c) as [u|]; [|apply TsSame].
    destruct (decode_ticket body) as [[[s b] j]|]; [|apply TsSame]. destruct (negb (truthy_str (go_cut 200 s)) || negb (truthy_str (go_cut 8000 b))) eqn:E1; [apply TsSame|].
    match goal with |- context [if ?b then Some _ else None] => destruct b eqn:E2 end; [|apply TsSame]. rewrite !andb_true_iff, orb_true_iff in E2. apply orb_false_iff in E1 as [_ Hb]. apply negb_false_iff in Hb.
    destruct E2 as [[[[Ho Hs] _] _] Hst]. rewrite includes_elem in Ho. apply TsNew; try done.
    intros x. destruct (truthy_str j); [|done]. intros [= <-]. destruct Hs as [?|Hs]; [done|]. by apply includes_elem.
  - unfold HandleSupportTicketReply, AddSupportMessage. destruct (accessible c i db) as [t|] eqn:Ea; [|apply TsSame]. destruct (sc_user c) as [u|]; [|apply TsSame].
    destruct (decode_body "body" body) as [b|]; [|apply TsSame].
    match goal with |- context [if ?b then Some _ else None] => destruct b eqn:E end; [|apply TsSame]. simpl. rewrite !andb_true_iff in E. destruct E as [[? _] ?]. by eapply TsReply.
  - unfold HandleUpdateSupportTicket, SetSupportTicketStatus. destruct (accessible c i db) as [t|] eqn:Ea; [|apply TsSame].
    destruct (decode_body "status" body) as [st|]; [|apply TsSame]. destruct (includes st STATUSES) eqn:E; [|apply TsSame]. apply includes_elem in E. by eapply TsStatus.
Qed.

(** *** Well-formed tables *)

Lemma map_ids f (p : TicketRow → bool) l : (∀ t, tr_id (f t) = tr_id t) → tr_id <$> map_where p f l = tr_id <$> l.
Proof. intros Hf. unfold map_where. rewrite <- list_fmap_compose. apply list_fmap_ext. intros i x _. simpl. by destruct (p x). Qed.

Lemma Forall_map_where {A} (P : A → Prop) p f l : (∀ x, P x → P (f x)) → Forall P l → Forall P (map_where p f l).
Proof. intros Hf Hl. apply Forall_fmap. eapply Forall_impl; [exact Hl|]. intros x Hx. simpl. destruct (p x); auto. Qed.

Lemma ticket_wf_reply role now m t : ticket_wf t → mr_role m = role → mr_created m = now → truthy_str (mr_body m) = true → storable (mr_body m) = true →
  ticket_wf (replied_row role now m t).
Proof.
  intros (Hs & _ & Hb) <- <- H1 H2. split_and!; simpl.
  - repeat case_match; set_solver.
  - exists m. by rewrite last_snoc.
  - apply Forall_app. split; [done|]. by apply Forall_singleton.
Qed.

Lemma tables_wf_step c id db db' : table_step c id db db' → (id ∉ tr_id <$> sd_tickets db ∨ length (sd_tickets db') = length (sd_tickets db)) → tables_wf db → tables_wf db'.
Proof.
  intros H Hf [Hn Hr Hk]. inversion H; subst; clear H; [done| | |].
  - destruct Hf as [Hf|Hf]; [|simpl in Hf; rewrite length_app in Hf; simpl in Hf; lia]. split; simpl.
    + rewrite fmap_app. simpl. apply NoDup_app. split_and!; [done|set_solver|apply NoDup_singleton].
    + apply Forall_app. split; [done|]. apply Forall_singleton. split_and!; simpl; [set_solver|by eexists|by apply Forall_singleton].
    + apply Forall_app. split; [done|]. by apply Forall_singleton.
  - split; simpl; [by rewrite map_ids|apply Forall_map_where; [|done]|by apply Forall_map_where].
    intros x Hx. by apply ticket_wf_reply.
  - split; simpl; [by rewrite map_ids|apply Forall_map_where; [|done]|by apply Forall_map_where].
    intros x (Hx & Hm & Hb). by split_and!.
Qed.

(**  Whatever is asked of the server and whenever the retention worker runs, the tables
    stay well formed: every ticket has messages, its last-message columns are those of its
    newest one, its status is one of the three, its organization and site exist, no message
    is blank or ill-formed, and ids are unique. *)
Theorem tables_stay_wf nm tx db o : tables_wf db → fresh_op db o → tables_wf (ticket_op nm tx db o).
Proof.
  intros Hw Hf. destruct o as [c id mid now rq|k]; simpl.
  - apply (tables_wf_step _ _ _ _ (serve_ticket_step nm tx c id mid now rq db)); [|done].
    destruct rq as [st|body|i|i body|i body]; try (by left); right; try done; simpl.
    + unfold HandleSupportTicketReply, AddSupportMessage. repeat case_match; simplify_eq/=; try done. apply length_map_where.
    + unfold HandleUpdateSupportTicket, SetSupportTicketStatus. repeat case_match; simplify_eq/=; try done. apply length_map_where.
  - destruct Hw as [Hn Hr Hk]. split; simpl.
    + eapply sublist_NoDup; [exact Hn|]. apply fmap_sublist, sublist_filter.
    + apply Forall_forall. intros x Hx%elem_of_filter_where. rewrite Forall_forall in Hr. naive_solver.
    + apply Forall_forall. intros x Hx%elem_of_filter_where. rewrite Forall_forall in Hk. naive_solver.
Qed.

Definition gate_desk : SupportTables := mkSupportTables [mkTicketRow 1 "acme" None "ann" "Gate" "closed" 0 0 "soc" [mkMsgRow 1 "sue" "admin" "Fixed." 0]] ["acme"; "apex"] [] ["ann"; "sue"].
Definition ann : SupportClaims := mkSupportClaims "customer" "acme" (Some "ann").
Definition sue : SupportClaims := mkSupportClaims "soc_supervisor" "" (Some "sue").
Definition name_ (u : string) : string := u.
Definition when_ (t : Z) : string := EmptyString.
Definition say (k v : string) : json := JObj [(k, JStr v)].

(** 2667 euro signs, 8001 bytes in UTF-8: byte 8000 is the last of the last sign. *)
Definition euros (n : nat) : string := Nat.iter n (λ s, String "226"%char (String "130"%char (String "172"%char s))) EmptyString.

Lemma long_reply_exact_witness :
  (HandleSupportTicketReply when_ ann 1 (say "body" (euros (Z.to_nat 2667))) 2 5 gate_desk).1 = TaError 400.
Proof.
  assert (Hs : storable (euros (Z.to_nat 2667)) = true) by (vm_compute; reflexivity).
  assert (Ht : truthy_str (euros (Z.to_nat 2667)) = true) by (vm_compute; reflexivity).
  rewrite (long_reply_exact when_ ann 1 (say "body" (euros (Z.to_nat 2667))) (euros (Z.to_nat 2667)) "ann" 2 5 gate_desk _ eq_refl eq_refl eq_refl eq_refl Hs Ht).
  assert (Hg : String.get (Z.to_nat 8000) (euros (Z.to_nat 2667)) = Some "172"%char) by (vm_compute; reflexivity).
  rewrite Hg. reflexivity.
Defined.

Lemma gate_desk_wf : tables_wf gate_desk.
Proof.
  split.
  - apply NoDup_singleton.
  - apply Forall_singleton. split_and!; [apply list_elem_of_In; simpl; tauto|by eexists|by apply Forall_singleton].
  - apply Forall_singleton. split; [apply list_elem_of_In; simpl; tauto|done].
Qed.

Lemma tables_stay_wf_witness : tables_wf (ticket_op name_ when_ gate_desk (ToRequest ann 2 2 5 (TrCreate (JObj [("subject", JStr "Lamp"); ("body", JStr "Out.")])))).
Proof. apply (tables_stay_wf name_ when_ gate_desk); [exact gate_desk_wf|]. simpl. intros H. apply list_elem_of_singleton in H. discriminate. Defined.

(** ** The life of a ticket *)

(** What a conversation is: its owner, its status, and its last message. *)
Record TicketSpec := mkTicketSpec { ts_org : string; ts_status : string; ts_last_at : Z; ts_last_by : string; ts_count : nat }.

Definition spec_of (t : TicketRow) : TicketSpec := mkTicketSpec (tr_org t) (tr_status t) (tr_last_at t) (tr_last_by t) (length (tr_msgs t)).

Definition may_access (c : SupportClaims) (org : string) : bool :=
  includes (sc_role c) ["admin"; "soc_supervisor"] || includes (sc_role c) ["customer"; "site_manager"] && truthy_str (sc_org c) && String.eqb org (sc_org c).

(** The text of a reply that is taken. *)
Definition taken (users : list string) (c : SupportClaims) (body : json) : bool :=
  match sc_user c, decode_body "body" body with
  | Some u, Some b => truthy_str (go_cut 8000 b) && includes u users && storable (go_cut 8000 b)
  | _, _ => false
  end.

(** The state machine of a ticket.  A reply answers or re-opens it by the side it comes from,
    but a closed ticket only counts it; a status that is set is kept; the retention worker
    takes closed tickets that rest long enough. *)
Definition spec_step (users : list string) (id : Z) (s : TicketSpec) (o : TicketOp) : option TicketSpec :=
  match o with
  | ToRequest c _ _ now (TrReply i b) =>
      if (i =? id) && may_access c (ts_org s) && taken users c b
      then let side := classifyRole (sc_role c) in
           Some (mkTicketSpec (ts_org s) (if String.eqb (ts_status s) "closed" then "closed" else if String.eqb side "soc" then "answered" else "open") now side (S (ts_count s)))
      else Some s
  | ToRequest c _ _ _ (TrUpdate i b) =>
      match decode_body "status" b with
      | Some st => if (i =? id) && may_access c (ts_org s) && includes st STATUSES then Some (mkTicketSpec (ts_org s) st (ts_last_at s) (ts_last_by s) (ts_count s)) else Some s
      | None => Some s
      end
  | ToPrune k => if String.eqb (ts_status s) "closed" && (ts_last_at s <? k) then None else Some s
  | _ => Some s
  end.

Definition spec_run (users : list string) (id : Z) (ops : list TicketOp) (s : option TicketSpec) : option TicketSpec :=
  foldl (λ s o, x ← s; spec_step users id x o) s ops.

Definition ticket_run (nm : string → string) (tx : Z → string) (ops : list TicketOp) (db : SupportTables) : SupportTables := foldl (ticket_op nm tx) db ops.

(** The sequence does not give an id twice. *)
Definition not_again (id : Z) (o : TicketOp) : Prop := match o with ToRequest _ i _ _ (TrCreate _) => i ≠ id | _ => True end.

Lemma can_access_spec c t : canAccessTicket c t = may_access c (tr_org t).
Proof.
  unfold canAccessTicket, may_access, includes. destruct (String.eqb_spec (sc_role c) "admin") as [E|E]; [by rewrite E|].
  destruct (String.eqb_spec (sc_role c) "soc_supervisor") as [E2|E2]; [by rewrite E2|]. rewrite (bool_decide_eq_false_2 (sc_role c ∈ ["admin"; _])) by set_solver. simpl.
  destruct (String.eqb_spec (sc_role c) "customer") as [E3|E3]; [by rewrite E3|]. destruct (String.eqb_spec (sc_role c) "site_manager") as [E4|E4]; [by rewrite E4|].
  by rewrite bool_decide_eq_false_2 by set_solver.
Qed.

(** A ticket and its abstract state. *)
Definition sim (id : Z) (db : SupportTables) (s : option TicketSpec) : Prop := spec_of <$> filter_where (ticket_is id) (sd_tickets db) = option_list s.

Lemma find_where_head {A} (p : A → bool) l : find_where p l = head (filter_where p l).
Proof. induction l as [|x l IH]; [done|]. rewrite find_where_cons, filter_where_cons. by destruct (p x). Qed.

Lemma filter_map_where id i f l : (∀ t, tr_id (f t) = tr_id t) →
  filter_where (ticket_is id) (map_where (ticket_is i) f l) = (λ t, if i =? id then f t else t) <$> filter_where (ticket_is id) l.
Proof.
  intros Hf. induction l as [|t l IH]; [done|].
  change (map_where (ticket_is i) f (t :: l)) with ((if ticket_is i t then f t else t) :: map_where (ticket_is i) f l). rewrite !filter_where_cons, IH.
  unfold ticket_is. destruct (Z.eqb_spec (tr_id t) i) as [E|E]; rewrite ?Hf; destruct (Z.eqb_spec (tr_id t) id) as [E'|E']; try done; simpl; f_equal.
  - destruct (Z.eqb_spec i id); [done|lia].
  - destruct (Z.eqb_spec i id); [lia|done].
Qed.

Lemma filter_where_comm {A} (p q : A → bool) l : filter_where p (filter_where q l) = filter_where q (filter_where p l).
Proof. unfold filter_where. rewrite !list_filter_filter. apply list_filter_iff. intros x. naive_solver. Qed.

(** The two cases of the simulation. *)
Lemma sim_None id db : sim id db None ↔ filter_where (ticket_is id) (sd_tickets db) = [].
Proof. unfold sim. simpl. split; [by intros ?%fmap_nil_inv|by intros ->]. Qed.

Lemma sim_Some id db s : sim id db (Some s) ↔ ∃ t, filter_where (ticket_is id) (sd_tickets db) = [t] ∧ spec_of t = s.
Proof.
  unfold sim. simpl. split; [|by intros (t & -> & <-)]. destruct (filter_where _ _) as [|t [|]]; [done| |done]. simpl. intros [= <-]. by eexists.
Qed.

Lemma sim_accessible c id db s : sim id db s → (∃ t, accessible c id db = Some t) ↔ match s with Some x => may_access c (ts_org x) = true | None => False end.
Proof.
  intros H. unfold accessible. rewrite find_where_head. destruct s as [s|].
  - apply sim_Some in H as (t & -> & <-). simpl. rewrite can_access_spec. simpl. destruct (may_access c (tr_org t)); naive_solver.
  - apply sim_None in H as ->. simpl. naive_solver.
Qed.

(** A row changed under another key, or in its own way. *)
Lemma sim_map id i f g db s : (∀ t, tr_id (f t) = tr_id t) → (∀ t, spec_of (f t) = g (spec_of t)) → sim id db s →
  sim id (put_tickets (map_where (ticket_is i) f (sd_tickets db)) db) ((λ x, if i =? id then g x else x) <$> s).
Proof.
  intros Hf Hg H. unfold sim in *. simpl. rewrite filter_map_where by done. rewrite <- list_fmap_compose. destruct s as [s|]; simpl in *.
  - destruct (filter_where _ _) as [|t [|]]; try done. simpl in *. injection H as <-. destruct (i =? id); [by rewrite Hg|done].
  - by destruct (filter_where _ _).
Qed.

Lemma sim_new id db s t : tr_id t ≠ id → sim id db s → sim id (put_tickets (sd_tickets db ++ [t])%list db) s.
Proof.
  intros Ht H. unfold sim in *. simpl. unfold filter_where in *. rewrite filter_app, filter_cons_False, filter_nil, app_nil_r; [done|].
  unfold ticket_is. destruct (Z.eqb_spec (tr_id t) id); [done|]. by intros [].
Qed.

Lemma sim_prune id k db s : sim id db s →
  sim id (PruneClosedSupportTickets k db) (x ← s; if String.eqb (ts_status x) "closed" && (ts_last_at x <? k) then None else Some x).
Proof.
  intros H. unfold PruneClosedSupportTickets. destruct s as [s|].
  - apply sim_Some in H as (t & H & <-). unfold sim. simpl. rewrite filter_where_comm, H, filter_where_cons. change (filter_where _ []) with (@nil TicketRow).
    by destruct (String.eqb (tr_status t) "closed" && (tr_last_at t <? k)).
  - apply sim_None in H. apply sim_None. simpl. by rewrite filter_where_comm, H.
Qed.

Lemma sim_reply tx id c i body mid now db s : sim id db s →
  sim id (HandleSupportTicketReply tx c i body mid now db).2 (x ← s; spec_step (sd_users db) id x (ToRequest c 0 mid now (TrReply i body))).
Proof.
  intros H. simpl. unfold HandleSupportTicketReply, taken, AddSupportMessage.
  pose proof (sim_accessible c id db s H) as Ha.
  destruct (sc_user c) as [u|], (decode_body "body" body) as [b|].
  2-4: destruct (accessible c i db), s; simpl; rewrite ?andb_false_r; done.
  match goal with |- context [if ?b then Some _ else None] => destruct b eqn:E end.
  - destruct (accessible c i db) as [t|] eqn:Et; simpl.
    + eapply (sim_map id i _ (λ x, mkTicketSpec (ts_org x) (if String.eqb (ts_status x) "closed" then "closed" else if String.eqb (classifyRole (sc_role c)) "soc" then "answered" else "open") now (classifyRole (sc_role c)) (S (ts_count x)))) in H.
      * destruct s as [s|]; [|exact H]. simpl in *. destruct (Z.eqb_spec i id) as [->|]; [|exact H]. simpl in *. rewrite (proj1 Ha (ex_intro _ t Et)). exact H.
      * done.
      * intros x. unfold spec_of. simpl. rewrite length_app. simpl. f_equal. lia.
    + destruct s as [s|]; [|exact H]. simpl. destruct (Z.eqb_spec i id) as [->|]; [|exact H]. simpl. destruct (may_access c (ts_org s)) eqn:Em; [|exact H].
      destruct (proj2 Ha eq_refl) as [t Ht]. congruence.
  - destruct (accessible c i db), s; simpl; rewrite ?andb_false_r; done.
Qed.

Lemma sim_update id c i body db s : sim id db s →
  sim id (HandleUpdateSupportTicket c i body db).2 (x ← s; spec_step (sd_users db) id x (ToRequest c 0 0 0 (TrUpdate i body))).
Proof.
  intros H. simpl. unfold HandleUpdateSupportTicket, SetSupportTicketStatus. pose proof (sim_accessible c id db s H) as Ha.
  destruct (decode_body "status" body) as [st|]; [|by destruct (accessible c i db), s].
  destruct (includes st STATUSES); [|destruct (accessible c i db), s; simpl; rewrite ?andb_false_r; done].
  destruct (accessible c i db) as [t|] eqn:Et; simpl.
  - apply (sim_map id i (with_status st) (λ x, mkTicketSpec (ts_org x) st (ts_last_at x) (ts_last_by x) (ts_count x))) in H; [|done|done].
    destruct s as [s|]; [|exact H]. simpl in *. destruct (Z.eqb_spec i id) as [->|]; [|exact H]. simpl in *. rewrite (proj1 Ha (ex_intro _ t Et)). exact H.
  - destruct s as [s|]; [|exact H]. simpl. destruct (Z.eqb_spec i id) as [->|]; [|exact H]. simpl. destruct (may_access c (ts_org s)) eqn:Em; [|exact H].
    destruct (proj2 Ha eq_refl) as [t Ht]. congruence.
Qed.

Lemma create_rows tx c body id mid now db :
  let db' := (HandleCreateSupportTicket tx c body id mid now db).2 in
  db' = db ∨ ∃ t, tr_id t = id ∧ tr_org t = sc_org c ∧ db' = put_tickets (sd_tickets db ++ [t])%list db.
Proof.
  simpl. unfold HandleCreateSupportTicket, CreateSupportTicket.
  repeat match goal with |- context [if ?b then _ else _] => destruct b | |- context [match sc_user c with _ => _ end] => destruct (sc_user c)
    | |- context [match decode_ticket body with _ => _ end] => destruct (decode_ticket body) as [[[? ?] ?]|] end;
    try (by left); right; eexists; (split_and!; [| |reflexivity]; done).
Qed.

Lemma sim_op nm tx id db o s : not_again id o → sim id db s → sim id (ticket_op nm tx db o) (x ← s; spec_step (sd_users db) id x o).
Proof.
  intros Hn H. destruct o as [c i mid now rq|k]; [|by apply sim_prune].
  destruct rq as [st|body|j|j body|j body]; cbn [ticket_op serve_ticket snd].
  - by destruct s.
  - replace (x ← s; spec_step (sd_users db) id x (ToRequest c i mid now (TrCreate body))) with s by (by destruct s).
    destruct (create_rows tx c body i mid now db) as [->|(t & Ht & _ & ->)]; [done|]. simpl in Hn. apply sim_new; [lia|done].
  - by destruct s.
  - exact (sim_reply tx id c j body mid now db s H).
  - exact (sim_update id c j body db s H).
Qed.

Lemma op_users nm tx db o : sd_users (ticket_op nm tx db o) = sd_users db.
Proof.
  destruct o as [c i mid now rq|k]; [|done]. simpl. by destruct (serve_ticket_step nm tx c i mid now rq db).
Qed.

Lemma sim_run nm tx id ops db s : Forall (not_again id) ops → sim id db s → sim id (ticket_run nm tx ops db) (spec_run (sd_users db) id ops s).
Proof.
  revert s db. induction ops as [|o ops IH]; intros s db Hops H; [done|].
  apply Forall_cons in Hops as [Ho Hops]. simpl. rewrite <- (op_users nm tx db o). apply IH; [done|]. rewrite op_users. by apply sim_op.
Qed.

(** C33.  The life of a ticket.  Whatever requests the server gets from whomever, and
    whenever the retention worker runs, a ticket goes through the states of [spec_step] and
    no others: only its organization and the operations centre move it, each reply counts
    and moves an unclosed ticket to the side that is to answer, a closed ticket is opened by
    an explicit change only, and is deleted when its last message is old enough. *)
Theorem ticket_life nm tx id ops db t :
  filter_where (ticket_is id) (sd_tickets db) = [t] → Forall (not_again id) ops →
  sim id (ticket_run nm tx ops db) (spec_run (sd_users db) id ops (Some (spec_of t))).
Proof.
  intros Ht Hops. apply sim_run; [done|]. apply sim_Some. by exists t.
Qed.

Lemma ticket_life_witness :
  sim 1 (ticket_run name_ when_ [ToRequest ann 0 2 5 (TrReply 1 (say "body" "It broke again."))] gate_desk)
    (Some (mkTicketSpec "acme" "closed" 5 "customer" 2)).
Proof.
  apply (ticket_life name_ when_ 1 [ToRequest ann 0 2 5 (TrReply 1 (say "body" "It broke again."))] gate_desk _ eq_refl). by apply Forall_singleton.
Defined.

(** No status is set for the ticket. *)
Definition no_status_set (id : Z) (o : TicketOp) : Prop := match o with ToRequest _ _ _ _ (TrUpdate i _) => i ≠ id | _ => True end.

Definition closed_or_gone (s : option TicketSpec) : Prop := match s with Some x => ts_status x = "closed" | None => True end.

Lemma spec_run_closed users id ops s : Forall (no_status_set id) ops → closed_or_gone s → closed_or_gone (spec_run users id ops s).
Proof.
  revert s. induction ops as [|o ops IH]; intros s Hu Hs; [done|]. apply Forall_cons in Hu as [Ho Hu]. simpl. apply IH; [done|].
  destruct s as [s|]; [|done]. destruct o as [c i mid now [|?|?|j b|j b]|k]; simpl in *; try done.
  - destruct (_ && _); [|done]. simpl. by rewrite Hs.
  - destruct (decode_body "status" b); [|done]. by destruct (Z.eqb_spec j id).
  - by destruct (_ && _).
Qed.

(** C35.  A closed ticket is not opened by replies, though the page of the operations centre
    says that it is.  Until someone changes its status it is in neither of the lists of open
    and of answered tickets, to whomever they are shown, however often the customer
    writes. *)
Theorem closed_stays_closed nm tx id ops db t c now rq l st :
  filter_where (ticket_is id) (sd_tickets db) = [t] → tr_status t = "closed" → Forall (not_again id) ops →
  Forall (no_status_set id) ops →
  rq = TrList st → st = "open" ∨ st = "answered" →
  (serve_ticket nm tx c 0 0 now rq (ticket_run nm tx ops db)).1 = TaList l → Forall (λ x, tk_id x ≠ id) l.
Proof.
  intros Ht Hc Hn Hu -> Hst Hl.
  pose proof (spec_run_closed (sd_users db) id ops (Some (spec_of t)) Hu Hc) as Hs.
  pose proof (sim_run nm tx id ops db (Some (spec_of t)) Hn (proj2 (sim_Some id db _) (ex_intro _ t (conj Ht eq_refl)))) as H. unfold sim in H. revert Hs H. generalize (spec_run (sd_users db) id ops (Some (spec_of t))) as s.
  generalize dependent (ticket_run nm tx ops db). intros db' Hl s Hs H.
  assert (Hrow : ∀ x, x ∈ sd_tickets db' → tr_id x = id → tr_status x = "closed").
  { intros x Hx Hi. assert (x ∈ filter_where (ticket_is id) (sd_tickets db')) as Hx' by (apply elem_of_filter_where; split; [unfold ticket_is; lia|done]).
    apply (list_elem_of_fmap_2 spec_of) in Hx'. rewrite H in Hx'. destruct s as [s|]; simpl in Hx'; [|by apply elem_of_nil in Hx'].
    apply list_elem_of_singleton in Hx'. rewrite <- Hx' in Hs. done. }
  assert (Hlist : ∀ p, Forall (λ x, tk_id x ≠ id) (list_tickets nm tx p st db')).
  { intros p. apply Forall_fmap, Forall_take, Forall_forall. intros x Hx. apply elem_of_sort_by, elem_of_filter_where in Hx as [Hp Hx]. simpl. intros Hi.
    specialize (Hrow x Hx Hi). rewrite Hrow in Hp. destruct Hst as [-> | ->]; by rewrite andb_false_r in Hp. }
  simpl in Hl. unfold HandleListSupportTickets in Hl. repeat case_match; simplify_eq; done || apply Hlist.
Qed.

Lemma closed_stays_closed_witness :
  Forall (λ x, tk_id x ≠ 1)
    (list_tickets name_ when_ (λ _, true) "open" (ticket_run name_ when_ [ToRequest ann 0 2 5 (TrReply 1 (say "body" "It broke again."))] gate_desk)).
Proof.
  eapply (closed_stays_closed name_ when_ 1 [ToRequest ann 0 2 5 (TrReply 1 (say "body" "It broke again."))] gate_desk _ sue 6 (TrList "open") _ "open");
    [reflexivity|reflexivity|by apply Forall_singleton|by apply Forall_singleton|reflexivity|by left|reflexivity].
Defined.

(** ** Tenants *)

(** Two states that an organization cannot tell apart. *)
Record same_org (o : string) (a b : SupportTables) : Prop := mkSameOrg {
  so_tickets : filter_where (λ t, String.eqb (tr_org t) o) (sd_tickets a) = filter_where (λ t, String.eqb (tr_org t) o) (sd_tickets b);
  so_keys : sd_orgs a = sd_orgs b ∧ sd_sites a = sd_sites b ∧ sd_users a = sd_users b
}.

#[export] Instance same_org_equiv o : Equivalence (same_org o).
Proof. split; [by split|intros a b [H (?&?&?)]; by split|intros a b d [H (?&?&?)] [H' (?&?&?)]; split; [congruence|]; split_and!; congruence]. Qed.













