(* ===== verification/SupportDesk.v ===== *)
(** * Support tickets: the desk of the operations centre

    [components/reports/SupportTicketsCard.tsx]: the list of tickets of all customers under a
    filter, the open thread, which is polled, and the reply.  A request is a task until its
    answer, in any order; a handler goes on with what it was called with.  The server is
    [SupportServer]. *)

From S2P Require Import Prelude Types Http Support SupportServer.
#[local] Open Scope string_scope.
#[local] Open Scope Z_scope.

Inductive DeskFilter := DfOpen | DfAnswered | DfAll.
#[export] Instance DeskFilter_eq_dec : EqDecision DeskFilter.
Proof. solve_decision. Defined.

(** [filter === 'all' ? '' : filter] *)
Definition status_query (f : DeskFilter) : string := match f with DfOpen => "open" | DfAnswered => "answered" | DfAll => EmptyString end.

Inductive DeskCall := DcList (status : string) | DcThread (id : Z) | DcReply (id : Z) (body : string) | DcClose (id : Z).

(** Where a continuation waits.  [DkPoll gen]: of the run [gen] of the thread effect; the
    steps of a reply and of a closing keep the filter of their click. *)
Inductive DeskTask :=
| DkList | DkOpen | DkPoll (gen : nat)
| DkSend (id : Z) (f : DeskFilter) | DkSendLoad (f : DeskFilter) | DkSendList
| DkClose (f : DeskFilter).

Inductive DeskReply := DyTickets (l : option (list Ticket)) | DyThread (d : ThreadResponse) | DyDone | DyFails (message : string).

Record DeskState := mkDesk {
  dk_tickets : list Ticket;
  dk_thread : option ThreadResponse;
  dk_filter : DeskFilter;
  dk_draft : string;
  dk_busy : bool;
  dk_err : string;
  dk_gen : nat;
  dk_tasks : list DeskTask
}.

Definition upd_dk_list (l : list Ticket) (f : DeskFilter) (s : DeskState) : DeskState :=
  mkDesk l (dk_thread s) f (dk_draft s) (dk_busy s) (dk_err s) (dk_gen s) (dk_tasks s).
Definition upd_dk_form (draft : string) (busy : bool) (err : string) (s : DeskState) : DeskState :=
  mkDesk (dk_tickets s) (dk_thread s) (dk_filter s) draft busy err (dk_gen s) (dk_tasks s).
Definition upd_dk_tasks (t : list DeskTask) (s : DeskState) : DeskState :=
  mkDesk (dk_tickets s) (dk_thread s) (dk_filter s) (dk_draft s) (dk_busy s) (dk_err s) (dk_gen s) t.

Definition thread_id (d : option ThreadResponse) : option Z := (λ x, tk_id (tr_ticket x)) <$> d.

(** [setThread]: the polling effect runs anew when the id of the thread changes. *)
Definition set_thread (d : option ThreadResponse) (s : DeskState) : DeskState :=
  mkDesk (dk_tickets s) d (dk_filter s) (dk_draft s) (dk_busy s) (dk_err s)
    (if bool_decide (thread_id d = thread_id (dk_thread s)) then dk_gen s else S (dk_gen s)) (dk_tasks s).

Definition desk_await (t : DeskTask) (c : DeskCall) (s : DeskState) : DeskState * list DeskCall := (upd_dk_tasks (dk_tasks s ++ [t])%list s, [c]).

Definition mount_desk : DeskState * list DeskCall := (mkDesk [] None DfOpen EmptyString false EmptyString 0 [DkList], [DcList "open"]).

(** What [reload] makes of its answer; it never rejects. *)
Definition desk_reloaded (r : DeskReply) (s : DeskState) : DeskState :=
  match r with
  | DyTickets l => upd_dk_list (default [] l) (dk_filter s) s
  | DyFails m => upd_dk_form (dk_draft s) (dk_busy s) m s
  | _ => s
  end.

Definition desk_resume (t : DeskTask) (r : DeskReply) (s : DeskState) : DeskState * list DeskCall :=
  match t, r with
  | DkList, _ => (desk_reloaded r s, [])
  | DkOpen, DyThread d => (set_thread (Some d) s, [])
  | DkOpen, DyFails m | DkClose _, DyFails m => (upd_dk_form (dk_draft s) (dk_busy s) m s, [])
  | DkPoll g, DyThread d => (if Nat.eqb g (dk_gen s) then set_thread (Some d) s else s, [])
  | DkSend id f, DyDone => desk_await (DkSendLoad f) (DcThread id) (upd_dk_form EmptyString (dk_busy s) (dk_err s) s)
  | DkSendLoad f, DyThread d => desk_await DkSendList (DcList (status_query f)) (set_thread (Some d) s)
  | DkSend _ _, DyFails m | DkSendLoad _, DyFails m => (upd_dk_form (dk_draft s) false m s, [])
  | DkSendList, _ => let s' := desk_reloaded r s in (upd_dk_form (dk_draft s') false (dk_err s') s', [])
  | DkClose f, DyDone => desk_await DkList (DcList (status_query f)) (set_thread None s)
  | _, _ => (s, [])
  end.

(** Whether a reply answers the request of its task. *)
Definition desk_fits (t : DeskTask) (r : DeskReply) : bool :=
  match t, r with
  | _, DyFails _ => true
  | (DkList | DkSendList), DyTickets _ => true
  | (DkOpen | DkPoll _ | DkSendLoad _), DyThread _ => true
  | (DkSend _ _ | DkClose _), DyDone => true
  | _, _ => false
  end.

Inductive TicketDeskEvent :=
| DeFilter (f : DeskFilter) | DeRefresh | DeListTick | DePick (id : Z) | DeThreadTick
| DeDraft (v : string) | DeSend | DeClose (confirmed : bool) | DeSettles (i : nat) (r : DeskReply).

(** The reply box and the button that closes are there for a thread that is not closed. *)
Definition open_thread (s : DeskState) : option ThreadResponse :=
  d ← dk_thread s; if String.eqb (tk_status (tr_ticket d)) "closed" then None else Some d.

Definition ticket_desk_step (e : TicketDeskEvent) (s : DeskState) : DeskState * list DeskCall :=
  match e with
  | DeFilter f => if bool_decide (f = dk_filter s) then (s, []) else desk_await DkList (DcList (status_query f)) (upd_dk_list (dk_tickets s) f s)
  | DeRefresh | DeListTick => desk_await DkList (DcList (status_query (dk_filter s))) s
  | DePick id => if existsb (λ t, tk_id t =? id) (dk_tickets s) then desk_await DkOpen (DcThread id) (upd_dk_form (dk_draft s) (dk_busy s) EmptyString s) else (s, [])
  | DeThreadTick => match dk_thread s with Some d => desk_await (DkPoll (dk_gen s)) (DcThread (tk_id (tr_ticket d))) s | None => (s, []) end
  | DeDraft v => match open_thread s with Some _ => (upd_dk_form v (dk_busy s) (dk_err s) s, []) | None => (s, []) end
  | DeSend =>
      match open_thread s with
      | Some d =>
          if dk_busy s || negb (truthy_str (trim (dk_draft s))) then (s, [])
          else let id := tk_id (tr_ticket d) in desk_await (DkSend id (dk_filter s)) (DcReply id (trim (dk_draft s))) (upd_dk_form (dk_draft s) true EmptyString s)
      | None => (s, [])
      end
  | DeClose confirmed =>
      match open_thread s with
      | Some d => if confirmed then desk_await (DkClose (dk_filter s)) (DcClose (tk_id (tr_ticket d))) s else (s, [])
      | None => (s, [])
      end
  | DeSettles i r =>
      match dk_tasks s !! i with
      | Some t => if desk_fits t r then desk_resume t r (upd_dk_tasks (delete i (dk_tasks s)) s) else (s, [])
      | None => (s, [])
      end
  end.

Definition ticket_desk_run (es : list TicketDeskEvent) (s : DeskState) : DeskState := foldl (λ s e, (ticket_desk_step e s).1) s es.

(** The pill in the title: [tickets.filter(t => t.status === 'open').length]. *)
Definition awaiting_reply (s : DeskState) : nat := length (filter_where (λ t, String.eqb (tk_status t) "open") (dk_tickets s)).

Section with_server.
Context (nm : string → string) (tx : Z → string) (error_text : Z → string) (c : SupportClaims).

Definition desk_rq (q : DeskCall) : SupportRq :=
  match q with
  | DcList st => TrList st
  | DcThread id => TrGet id
  | DcReply id b => TrReply id (JObj [("body", JStr b)])
  | DcClose id => TrUpdate id (JObj [("status", JStr "closed")])
  end.

Definition desk_reply (a : SupportAnswer) : DeskReply :=
  match a with
  | TaError code => DyFails (error_text code)
  | TaList l => DyTickets (Some l)
  | TaThread d => DyThread d
  | _ => DyDone
  end.

(** The server's answer to a call of the desk. *)
Definition desk_serve (mid now : Z) (q : DeskCall) (db : SupportTables) : DeskReply * SupportTables :=
  let a := serve_ticket nm tx c 0 mid now (desk_rq q) db in (desk_reply a.1, a.2).
End with_server.

(** ** Theorems *)

(** *** One reply at a time *)

Definition is_sending (t : DeskTask) : bool := match t with DkSend _ _ | DkSendLoad _ | DkSendList => true | _ => false end.
Definition sending (l : list DeskTask) : nat := length (filter_where is_sending l).
Definition desk_ok (s : DeskState) : Prop := sending (dk_tasks s) = if dk_busy s then 1%nat else 0%nat.

Lemma sending_snoc l t : sending (l ++ [t])%list = (sending l + if is_sending t then 1 else 0)%nat.
Proof. apply length_filter_snoc. Qed.

Lemma sending_delete l i t : l !! i = Some t → sending l = (sending (delete i l) + if is_sending t then 1 else 0)%nat.
Proof. apply length_filter_delete. Qed.

Lemma set_thread_ok d s : desk_ok (set_thread d s) ↔ desk_ok s.
Proof. done. Qed.

Lemma ticket_desk_step_ok e s : desk_ok s → desk_ok (ticket_desk_step e s).1.
Proof.
  unfold desk_ok. intros H.
  destruct e as [f| | |id| |v| |confirmed|i r]; simpl.
  - case_bool_decide; [exact H|]. simpl. by rewrite sending_snoc, Nat.add_0_r.
  - by rewrite sending_snoc, Nat.add_0_r.
  - by rewrite sending_snoc, Nat.add_0_r.
  - destruct (existsb _ _); [|exact H]. simpl. by rewrite sending_snoc, Nat.add_0_r.
  - destruct (dk_thread s); [|exact H]. simpl. by rewrite sending_snoc, Nat.add_0_r.
  - destruct (open_thread s); exact H.
  - destruct (open_thread s); [|exact H]. destruct (dk_busy s) eqn:B; simpl; [by rewrite B|]. destruct (truthy_str _); simpl; [|by rewrite B]. by rewrite sending_snoc, H.
  - destruct (open_thread s); [|exact H]. destruct confirmed; [|exact H]. simpl. by rewrite sending_snoc, Nat.add_0_r.
  - destruct (dk_tasks s !! i) as [t|] eqn:E; [|exact H]. destruct (desk_fits t r) eqn:F; [|exact H]. apply sending_delete in E. rewrite H in E.
    destruct t, r; try discriminate F; simpl in *; try (destruct (Nat.eqb _ _); simpl); rewrite ?sending_snoc; simpl; destruct (dk_busy s) eqn:B; simpl in *; rewrite ?B; lia.
Qed.

(**  The desk sends one reply at a time: it is busy exactly while the steps of one reply
    are under way, whatever arrives in whatever order, and is free again however they
    end. *)
Theorem one_reply_at_a_time (es : list TicketDeskEvent) : desk_ok (ticket_desk_run es mount_desk.1).
Proof.
  induction es as [|e es IH] using rev_ind; [done|]. unfold ticket_desk_run in *. rewrite foldl_app. by apply ticket_desk_step_ok.
Qed.

(** *** One draft, one thread *)

(**  The desk has one draft for all threads and acts on whichever is open.  A draft
    written in one thread is posted to the one opened next; of two tickets picked, the one
    answered last stays, though it was picked first; and closing a ticket closes, on its
    answer, the thread that is open by then. *)
Theorem draft_goes_elsewhere (s : DeskState) i j d d' :
  dk_tasks s !! i = Some DkOpen →
  (let s1 := (ticket_desk_step (DeSettles i (DyThread d)) s).1 in
   dk_thread s1 = Some d ∧ dk_draft s1 = dk_draft s ∧
   (dk_busy s = false → tk_status (tr_ticket d) ≠ "closed" → truthy_str (trim (dk_draft s)) = true →
    (ticket_desk_step DeSend s1).2 = [DcReply (tk_id (tr_ticket d)) (trim (dk_draft s))])) ∧
  (dk_tasks s !! j = Some DkOpen → (i < j)%nat →
   dk_thread (ticket_desk_run [DeSettles j (DyThread d'); DeSettles i (DyThread d)] s) = Some d) ∧
  (∀ f, dk_tasks s !! j = Some (DkClose f) → (i < j)%nat →
   dk_thread (ticket_desk_run [DeSettles i (DyThread d); DeSettles (pred j) DyDone] s) = None).
Proof.
  intros Hi. split; [|split].
  - simpl. rewrite Hi. simpl. split_and!; [done|done|]. intros Hb Hc Ht. unfold open_thread. simpl. destruct (String.eqb_spec (tk_status (tr_ticket d)) "closed"); [done|].
    simpl. by rewrite Hb, Ht.
  - intros Hj Hlt. simpl. rewrite Hj. simpl. rewrite list_lookup_delete_lt by done. by rewrite Hi.
  - intros f Hj Hlt. simpl. rewrite Hi. simpl. rewrite list_lookup_delete_ge by lia. replace (S (pred j)) with j by lia. by rewrite Hj.
Qed.

Definition desk_two : DeskState := mkDesk [] (Some (thread_of 1)) DfOpen "For Ann only." false EmptyString 1 [DkOpen].

Lemma draft_goes_elsewhere_witness :
  (ticket_desk_step DeSend (ticket_desk_step (DeSettles 0 (DyThread (thread_of 2))) desk_two).1).2 = [DcReply 2 "For Ann only."].
Proof.
  apply (draft_goes_elsewhere desk_two 0 0 (thread_of 2) (thread_of 2) eq_refl); [reflexivity|discriminate|reflexivity].
Defined.

(**  A poll that answers late takes the thread back.  After a reply was sent and the
    thread loaded again, an older answer of the poll shows the thread without the reply, and
    with its box empty; and a list asked for before the filter was changed is shown under the
    new filter when it answers last. *)
Theorem late_poll_hides_reply (s : DeskState) i old new l :
  dk_tasks s !! i = Some (DkPoll (dk_gen s)) → thread_id (Some new) = thread_id (dk_thread s) →
  dk_thread (ticket_desk_run [DeSettles i (DyThread old)] (set_thread (Some new) s)) = Some old ∧
  (∀ f j, dk_tasks s !! j = Some DkList → f ≠ dk_filter s →
   let s' := ticket_desk_run [DeFilter f; DeSettles j (DyTickets (Some l))] s in dk_filter s' = f ∧ dk_tickets s' = l).
Proof.
  intros Hi Hid. split.
  - simpl. rewrite Hi. unfold desk_resume, desk_fits. cbn [dk_gen set_thread upd_dk_tasks]. rewrite bool_decide_eq_true_2 by done. by rewrite Nat.eqb_refl.
  - intros f j Hj Hf. simpl. rewrite bool_decide_eq_false_2 by done. simpl. rewrite lookup_app_l by (by apply lookup_lt_Some in Hj). by rewrite Hj.
Qed.

Lemma late_poll_hides_reply_witness :
  dk_thread (ticket_desk_run [DeSettles 0 (DyThread (thread_of 1))] (set_thread (Some (mkThread (ticket 1 "soc" "t1") [])) (mkDesk [] (Some (thread_of 1)) DfOpen EmptyString false EmptyString 1 [DkPoll 1]))) = Some (thread_of 1).
Proof.
  apply (late_poll_hides_reply (mkDesk [] (Some (thread_of 1)) DfOpen EmptyString false EmptyString 1 [DkPoll 1]) 0 (thread_of 1) (mkThread (ticket 1 "soc" "t1") []) []); reflexivity.
Defined.

(** *** The desk and the server *)

Lemma filter_of_fmap {A B} (g : A → B) q l : filter_where q (g <$> l) = g <$> filter_where (λ x, q (g x)) l.
Proof. induction l as [|x l IH]; [done|]. rewrite fmap_cons, !filter_where_cons, IH. by destruct (q (g x)). Qed.

Lemma length_filter_sort {A} (p : A → bool) le l : length (filter_where p (sort_by le l)) = length (filter_where p l).
Proof. apply Permutation_length. unfold filter_where. by rewrite sort_by_Permutation. Qed.

(** The rows that a list is of. *)
Lemma list_tickets_open nm tx p db :
  length (filter_where (λ t, String.eqb (tk_status t) "open") (list_tickets nm tx p "open" db)) =
  Nat.min 200 (length (filter_where (λ t, p t && String.eqb (tr_status t) "open") (sd_tickets db))).
Proof.
  rewrite filter_where_id.
  - unfold list_tickets. rewrite length_fmap, length_take, length_sort_by. done.
  - intros t Ht. unfold list_tickets in Ht. apply list_elem_of_fmap in Ht as (x & -> & Hx). apply elem_of_take in Hx as (k & Hx & _).
    apply list_elem_of_lookup_2, elem_of_sort_by, elem_of_filter_where in Hx as [Hx _]. simpl in *. by destruct (p x).
Qed.

(**  The number that is awaiting reply.  Under the filter of open tickets the pill shows
    how many there are, up to the 200 of a list; under the filter of answered tickets it
    shows none, however many customers wait; and with all tickets it is right while there
    are no more than 200. *)
Theorem awaiting_exact nm tx (error_text : Z → string) c mid now db s i f :
  sc_role c = "soc_supervisor" ∨ sc_role c = "admin" → dk_tasks s !! i = Some DkList → f = dk_filter s →
  let s' := (ticket_desk_step (DeSettles i (desk_serve nm tx error_text c mid now (DcList (status_query f)) db).1) s).1 in
  match f with
  | DfOpen => awaiting_reply s' = Nat.min 200 (length (filter_where (λ t, String.eqb (tr_status t) "open") (sd_tickets db)))
  | DfAnswered => awaiting_reply s' = 0%nat ∧ (∀ t, t ∈ dk_tickets s' → tk_status t = "answered")
  | DfAll => (length (sd_tickets db) ≤ 200)%nat → awaiting_reply s' = length (filter_where (λ t, String.eqb (tr_status t) "open") (sd_tickets db))
  end.
Proof.
  intros Hc Hi ->. simpl. rewrite Hi.
  assert (Hl : ∀ st, HandleListSupportTickets nm tx c st db = TaList (list_tickets nm tx (λ _, true) st db)).
  { intros st. unfold HandleListSupportTickets. destruct Hc as [-> | ->]; reflexivity. }
  unfold desk_serve. cbn [desk_rq serve_ticket fst snd]. rewrite Hl. cbn [desk_reply desk_fits desk_resume desk_reloaded default fst].
  unfold awaiting_reply. cbn [dk_tickets upd_dk_list upd_dk_tasks]. destruct (dk_filter s).
  - apply (list_tickets_open nm tx (λ _, true)).
  - assert (Ha : ∀ t, t ∈ list_tickets nm tx (λ _, true) (status_query DfAnswered) db → tk_status t = "answered").
    { intros t Ht. unfold list_tickets in Ht. apply list_elem_of_fmap in Ht as (x & -> & Hx). apply elem_of_take in Hx as (k & Hx & _).
      apply list_elem_of_lookup_2, elem_of_sort_by, elem_of_filter_where in Hx as [Hx _]. simpl in *. by apply String.eqb_eq. }
    split; [|exact Ha]. rewrite filter_where_nil; [done|]. intros t Ht. by rewrite (Ha t Ht).
  - intros Hn. change (length (filter_where (λ t, String.eqb (tk_status t) "open") (list_tickets nm tx (λ _, true) (status_query DfAll) db)) =
                       length (filter_where (λ t, String.eqb (tr_status t) "open") (sd_tickets db))).
    unfold list_tickets. rewrite filter_of_fmap, length_fmap. rewrite take_ge.
    + rewrite length_filter_sort. by rewrite (filter_where_id _ (sd_tickets db)).
    + rewrite length_sort_by. by rewrite (filter_where_id _ (sd_tickets db)).
Qed.

Lemma awaiting_exact_witness :
  awaiting_reply (ticket_desk_step (DeSettles 0 (desk_serve name_ when_ (λ _, EmptyString) sue 0 0 (DcList "open") gate_desk).1) mount_desk.1).1 = 0%nat.
Proof. apply (awaiting_exact name_ when_ (λ _, EmptyString) sue 0 0 gate_desk mount_desk.1 0 DfOpen); [by left|reflexivity|reflexivity]. Defined.
