(* ===== verification/Notifications.v ===== *)
(** * Notifications

    Who is told of an alarm: the subscriptions of the users
    ([internal/database/notifications.go], [internal/api/notification_prefs.go]), the alarm that
    was disposed of ([internal/api/platform.go]), the monthly summary
    ([cmd/worker/main.go]) and the page of preferences
    ([app/portal/notifications/page.tsx]). *)

From S2P Require Import Prelude Types Http OperatorStore Investigation SiteServer.
From Stdlib Require Import OrdersEx.
#[local] Open Scope string_scope.
#[local] Open Scope Z_scope.

(** ** The tables *)

Record SubRow := mkSubRow {
  sr_user : string;
  sr_channel : string;
  sr_event : string;
  sr_severity_min : string;
  sr_sites : option (list string);     (* [None]: the JSON null of a nil slice, or NULL *)
  sr_quiet_start : string;
  sr_quiet_end : string;
  sr_enabled : bool
}.

Record NotifyUser := mkNotifyUser { nu_id : string; nu_org : string; nu_email : string; nu_phone : string }.

(** notification_subscriptions and users. *)
Record NotifyDB := mkNotifyDB { nd_subs : list SubRow; nd_users : list NotifyUser }.

Definition CHANNELS : list string := ["email"; "sms"].
Definition SUB_EVENTS : list string := ["alarm_disposition"; "monthly_summary"].
Definition SEVERITIES : list string := ["low"; "medium"; "high"; "critical"].

Definition sub_key (r : SubRow) : string * string * string := (sr_user r, sr_channel r, sr_event r).
Definition same_key (k : string * string * string) (r : SubRow) : bool := bool_decide (sub_key r = k).

(** A [[]string] that tells nil from empty. *)
Definition go_slice (o : option json) : option (option (list string)) :=
  match o with
  | None | Some JNull => Some None
  | Some (JArr l) => Some <$> mapM (λ j, go_string (Some j)) l
  | _ => None
  end.

Definition decode_sub (user : string) (body : json) : option SubRow :=
  match body with
  | JObj _ | JNull =>
      c ← go_string (jget "channel" body); e ← go_string (jget "event_type" body); s ← go_string (jget "severity_min" body); l ← go_slice (jget "site_ids" body);
      a ← go_string (jget "quiet_start" body); b ← go_string (jget "quiet_end" body); x ← go_bool (jget "enabled" body);
      Some (mkSubRow user c e s l a b x)
  | _ => None
  end.

(** INSERT … ON CONFLICT (user_id, channel, event_type) DO UPDATE; the user is a foreign key. *)
Definition UpsertNotificationSubscription (r : SubRow) (db : NotifyDB) : option NotifyDB :=
  if existsb (λ u, String.eqb (nu_id u) (sr_user r)) (nd_users db)
  then Some (mkNotifyDB (if existsb (same_key (sub_key r)) (nd_subs db) then map_where (same_key (sub_key r)) (λ _, r) (nd_subs db) else nd_subs db ++ [r])%list (nd_users db))
  else None.

Definition with_severity (s : string) (r : SubRow) : SubRow :=
  mkSubRow (sr_user r) (sr_channel r) (sr_event r) s (sr_sites r) (sr_quiet_start r) (sr_quiet_end r) (sr_enabled r).

(** [HandleUpsertMyNotificationSub] for the parsed user of the token. *)
Definition HandleUpsertMyNotificationSub (user : option string) (body : json) (db : NotifyDB) : Z * NotifyDB :=
  match user with
  | None => (400, db)
  | Some u =>
      match decode_sub u body with
      | None => (400, db)
      | Some r =>
          if includes (sr_channel r) CHANNELS && includes (sr_event r) SUB_EVENTS && includes (sr_severity_min r) (EmptyString :: SEVERITIES)
          then match UpsertNotificationSubscription (if truthy_str (sr_severity_min r) then r else with_severity "low" r) db with
               | Some db' => (204, db')
               | None => (500, db)
               end
          else (400, db)
      end
  end.

(** The order of byte strings. *)
Definition go_less (a b : string) : bool := match String_as_OT.compare a b with Lt => true | _ => false end.

Definition row_le (a b : SubRow) : bool :=
  if String.eqb (sr_event a) (sr_event b) then negb (go_less (sr_channel b) (sr_channel a)) else go_less (sr_event a) (sr_event b).

Definition ListNotificationSubscriptions (user : string) (db : NotifyDB) : list SubRow := sort_by row_le (filter_where (λ r, String.eqb (sr_user r) user) (nd_subs db)).

(** ** An alarm *)

Definition severityRank (s : string) : Z :=
  if String.eqb s "low" then 1 else if String.eqb s "medium" then 2 else if String.eqb s "high" then 3 else if String.eqb s "critical" then 4 else 0.

(** [now.UTC().Format("15:04")] at a minute of the day. *)
Definition two_digits (n : Z) : string := String (Ascii.ascii_of_N (Z.to_N (48 + n / 10))) (String (Ascii.ascii_of_N (Z.to_N (48 + n mod 10))) EmptyString).
Definition format_1504 (minute : Z) : string := two_digits (minute / 60) +:+ ":" +:+ two_digits (minute mod 60).

Definition withinQuietHours (minute : Z) (start end_ : string) : bool :=
  if negb (truthy_str start) || negb (truthy_str end_) then false
  else let hhmm := format_1504 minute in
       if negb (go_less end_ start) then negb (go_less hhmm start) && go_less hhmm end_ else negb (go_less hhmm start) || go_less hhmm end_.

Record AlarmRecipient := mkRecipient { rc_user : string; rc_email : string; rc_sms : string }.

(** The filters of one row of the join. *)
Definition row_matches (site : string) (want minute : Z) (r : SubRow) : bool :=
  (match sr_sites r with Some (x :: l) => includes site (x :: l) | _ => true end) &&
  (severityRank (sr_severity_min r) <=? want) && negb (withinQuietHours minute (sr_quiet_start r) (sr_quiet_end r)).

Definition add_channel (channel : string) (u : NotifyUser) (r : AlarmRecipient) : AlarmRecipient :=
  if String.eqb channel "email" then (if truthy_str (nu_email u) then mkRecipient (rc_user r) (nu_email u) (rc_sms r) else r)
  else if String.eqb channel "sms" then (if truthy_str (nu_phone u) then mkRecipient (rc_user r) (rc_email r) (nu_phone u) else r)
  else r.

(** [merged], a map from users to recipients. *)
Definition merge_row (site : string) (want minute : Z) (users : list NotifyUser) (m : gmap string AlarmRecipient) (r : SubRow) : gmap string AlarmRecipient :=
  match find_where (λ u, String.eqb (nu_id u) (sr_user r)) users with
  | Some u => if row_matches site want minute r then <[sr_user r := add_channel (sr_channel r) u (default (mkRecipient (sr_user r) EmptyString EmptyString) (m !! sr_user r))]> m else m
  | None => m
  end.

Definition alarm_rows (db : NotifyDB) : list SubRow := filter_where (λ r, sr_enabled r && String.eqb (sr_event r) "alarm_disposition") (nd_subs db).

Definition MatchAlarmRecipients (site severity : string) (minute : Z) (db : NotifyDB) : gmap string AlarmRecipient :=
  let want := if severityRank severity =? 0 then 1 else severityRank severity in
  filter (λ kv, truthy_str (rc_email kv.2) || truthy_str (rc_sms kv.2))
    (foldl (merge_row site want minute (nd_users db)) ∅ (alarm_rows db)).

Definition isInformationalDisposition (code : string) : bool :=
  let c := toLowerCase code in
  truthy_str code &&
  (String.prefix "false" c || String.prefix "no-action" c || String.prefix "no_action" c || String.eqb c "activity-logs" || String.eqb c "activity_logs" ||
   String.prefix "test" c || String.eqb c "system-test" || String.eqb c "system_test").

(** [dispatchAlarmNotifications], to the recipients. *)
Definition dispatchAlarmNotifications (code site severity : string) (minute : Z) (db : NotifyDB) : gmap string AlarmRecipient :=
  if isInformationalDisposition code then ∅ else MatchAlarmRecipients site severity minute db.

(** ** The monthly summary *)

(** The users of [MatchMonthlySummaryRecipients]: SELECT DISTINCT of user and address. *)
Definition MatchMonthlySummaryRecipients (sites : list string) (db : NotifyDB) : list (string * string) :=
  match sites with
  | [] => []
  | _ => u ← nd_users db;
         if truthy_str (nu_email u) &&
            existsb (λ r, String.eqb (sr_user r) (nu_id u) && sr_enabled r && String.eqb (sr_event r) "monthly_summary" && String.eqb (sr_channel r) "email" &&
                          match sr_sites r with None => true | Some l => existsb (λ s, includes s sites) l end) (nd_subs db)
         then [(nu_id u, nu_email u)] else []
  end.

(** [ListSitesScoped] without assigned sites: the roles of the operations centre see all. *)
Definition ListSitesScoped (role org : string) (rows : list StoredSite) : list StoredSite :=
  filter_where (λ r, negb (db_deleted r) && can_view (if includes role ["admin"; "soc_supervisor"; "soc_operator"] then Unscoped else Scoped org []) r) rows.

(** [runMonthlyForOrg], up to the recipients. *)
Definition monthly_recipients (org : string) (rows : list StoredSite) (db : NotifyDB) : list (string * string) :=
  MatchMonthlySummaryRecipients (db_id <$> ListSitesScoped "admin" org rows) db.

(** ** The page *)

(** A subscription as the page sees it. *)
Record Subscription := mkSubscription {
  su_channel : string;
  su_event : string;
  su_severity : string;
  su_enabled : bool;
  su_quiet_start : option string;
  su_quiet_end : option string
}.

Definition sub_out (r : SubRow) : Subscription :=
  let opt s := if truthy_str s then Some s else None in
  mkSubscription (sr_channel r) (sr_event r) (sr_severity_min r) (sr_enabled r) (opt (sr_quiet_start r)) (opt (sr_quiet_end r)).

(** Channel, event and whether a severity can be chosen. *)
Definition ROWS : list (string * string * bool) := [("email", "alarm_disposition", true); ("sms", "alarm_disposition", true); ("email", "monthly_summary", false)].

Definition sub_is (channel event : string) (s : Subscription) : bool := String.eqb (su_channel s) channel && String.eqb (su_event s) event.

Definition findSub (subs : list Subscription) (channel event : string) : Subscription :=
  default (mkSubscription channel event "low" false None None) (find_where (sub_is channel event) subs).

(** The body of [saveSub]: no sites are ever sent. *)
Definition sub_body (s : Subscription) : json :=
  JObj [("channel", JStr (su_channel s)); ("event_type", JStr (su_event s)); ("severity_min", JStr (su_severity s)); ("enabled", JBool (su_enabled s));
        ("site_ids", JNull); ("quiet_start", JStr (default EmptyString (su_quiet_start s))); ("quiet_end", JStr (default EmptyString (su_quiet_end s)))].

Definition row_key (channel event : string) : string := channel +:+ "-" +:+ event.

Inductive PrefsCall := PcLoad | PcSave (s : Subscription).
Inductive PrefsTask := PtLoad | PtSave | PtSaveLoad.
Inductive PrefsReply := PyList (l : list Subscription) | PyDone | PyFails (message : string).

Record PrefsPage := mkPrefsPage {
  np_subs : option (list Subscription);
  np_saving : string;
  np_err : string;
  np_saved_at : Z;
  np_tasks : list PrefsTask
}.

Definition upd_np (subs : option (list Subscription)) (saving err : string) (saved : Z) (p : PrefsPage) : PrefsPage := mkPrefsPage subs saving err saved (np_tasks p).
Definition prefs_send (t : PrefsTask) (p : PrefsPage) : PrefsPage := mkPrefsPage (np_subs p) (np_saving p) (np_err p) (np_saved_at p) (np_tasks p ++ [t])%list.

Definition mount_prefs : PrefsPage * list PrefsCall := (mkPrefsPage None EmptyString EmptyString 0 [PtLoad], [PcLoad]).

(** [load] never rejects. *)
Definition prefs_loaded (r : PrefsReply) (p : PrefsPage) : PrefsPage :=
  match r with
  | PyList l => upd_np (Some l) (np_saving p) (np_err p) (np_saved_at p) p
  | PyFails m => upd_np (np_subs p) (np_saving p) m (np_saved_at p) p
  | PyDone => p
  end.

Definition saveSub (next : Subscription) (p : PrefsPage) : PrefsPage * list PrefsCall :=
  (prefs_send PtSave (upd_np (np_subs p) (row_key (su_channel next) (su_event next)) EmptyString (np_saved_at p) p), [PcSave next]).

Definition prefs_resume (t : PrefsTask) (now : Z) (r : PrefsReply) (p : PrefsPage) : PrefsPage * list PrefsCall :=
  match t, r with
  | PtLoad, _ => (prefs_loaded r p, [])
  | PtSave, PyDone => (prefs_send PtSaveLoad (upd_np (np_subs p) (np_saving p) (np_err p) now p), [PcLoad])
  | PtSave, PyFails m => (upd_np (np_subs p) EmptyString m (np_saved_at p) p, [])
  | PtSaveLoad, _ => let p' := prefs_loaded r p in (upd_np (np_subs p') EmptyString (np_err p') (np_saved_at p') p', [])
  | _, _ => (p, [])
  end.

Definition prefs_fits (t : PrefsTask) (r : PrefsReply) : bool :=
  match t, r with _, PyFails _ => true | (PtLoad | PtSaveLoad), PyList _ => true | PtSave, PyDone => true | _, _ => false end.

Definition put_enabled (b : bool) (s : Subscription) : Subscription := mkSubscription (su_channel s) (su_event s) (su_severity s) b (su_quiet_start s) (su_quiet_end s).
Definition set_minimum (v : string) (s : Subscription) : Subscription := mkSubscription (su_channel s) (su_event s) v (su_enabled s) (su_quiet_start s) (su_quiet_end s).

Inductive PrefsEvent := PeToggle (row : nat) | PeSeverity (row : nat) (v : string) | PeSettles (i : nat) (now : Z) (r : PrefsReply).

(** The row and its subscription, while it is not being saved. *)
Definition free_row (row : nat) (p : PrefsPage) : option (Subscription * bool) :=
  l ← np_subs p; '(c, e, sev) ← ROWS !! row; if String.eqb (np_saving p) (row_key c e) then None else Some (findSub l c e, sev).

Definition prefs_step (e : PrefsEvent) (p : PrefsPage) : PrefsPage * list PrefsCall :=
  match e with
  | PeToggle row => match free_row row p with Some (s, _) => saveSub (put_enabled (negb (su_enabled s)) s) p | None => (p, []) end
  | PeSeverity row v =>
      match free_row row p with
      | Some (s, sev) => if sev && su_enabled s && includes v SEVERITIES then saveSub (set_minimum v s) p else (p, [])
      | None => (p, [])
      end
  | PeSettles i now r =>
      match np_tasks p !! i with
      | Some t => if prefs_fits t r then prefs_resume t now r (mkPrefsPage (np_subs p) (np_saving p) (np_err p) (np_saved_at p) (delete i (np_tasks p))) else (p, [])
      | None => (p, [])
      end
  end.

(** The banner, when the page is rendered at [now]. *)
Definition saved_banner (now : Z) (p : PrefsPage) : bool := (0 <? np_saved_at p) && (now - np_saved_at p <? 3000).

Definition prefs_serve (error_text : Z → string) (user : string) (c : PrefsCall) (db : NotifyDB) : PrefsReply * NotifyDB :=
  match c with
  | PcLoad => (PyList (sub_out <$> ListNotificationSubscriptions user db), db)
  | PcSave s => let '(st, db') := HandleUpsertMyNotificationSub (Some user) (sub_body s) db in (if st =? 204 then PyDone else PyFails (error_text st), db')
  end.

(** ** Theorems *)

(** *** Quiet hours *)

Lemma go_less_lt a b : go_less a b = true ↔ String_as_OT.lt a b.
Proof. unfold go_less, String_as_OT.lt. destruct (String_as_OT.compare a b); naive_solver. Qed.

Lemma minutes_ascend : forallb (λ n, go_less (format_1504 (Z.of_nat n)) (format_1504 (Z.of_nat n + 1))) (seq 0 (Z.to_nat 1439)) = true.
Proof. vm_compute. reflexivity. Qed.

Lemma format_less a k : 0 <= a → a + Z.of_nat (S k) < 1440 → String_as_OT.lt (format_1504 a) (format_1504 (a + Z.of_nat (S k))).
Proof.
  intros Ha. assert (Hs : ∀ n, 0 <= n < 1439 → String_as_OT.lt (format_1504 n) (format_1504 (n + 1))).
  { intros n Hn. apply go_less_lt. pose proof (proj1 (forallb_forall _ _) minutes_ascend (Z.to_nat n)) as H. cbv beta in H. rewrite Z2Nat.id in H by lia. apply H, in_seq. lia. }
  induction k as [|k IH]; intros Hk; [apply Hs; lia|]. etransitivity; [apply IH; lia|]. replace (a + Z.of_nat (S (S k))) with (a + Z.of_nat (S k) + 1) by lia. apply Hs. lia.
Qed.

(** The order of the texts is that of the minutes. *)
Lemma format_order a b : 0 <= a < 1440 → 0 <= b < 1440 → go_less (format_1504 a) (format_1504 b) = (a <? b).
Proof.
  intros Ha Hb. destruct (Z.ltb_spec a b).
  - apply go_less_lt. replace b with (a + Z.of_nat (S (Z.to_nat (b - a - 1)))) by lia. apply format_less; lia.
  - apply not_true_iff_false. intros H'%go_less_lt. destruct (Z.eq_dec a b) as [->|]; [by apply (StrictOrder_Irreflexive _ H')|].
    assert (String_as_OT.lt (format_1504 b) (format_1504 a)) as H2 by (replace a with (b + Z.of_nat (S (Z.to_nat (a - b - 1)))) by lia; apply format_less; lia).
    apply (StrictOrder_Irreflexive (format_1504 a)). by transitivity (format_1504 b).
Qed.

Lemma format_truthy a : truthy_str (format_1504 a) = true.
Proof. reflexivity. Qed.

(**  Quiet hours are compared as texts, and for hours and minutes of two digits that is
    the clock: from the start up to the end, around midnight when the end comes first, and
    never when they are equal. *)
Theorem quiet_exact minute s e : 0 <= minute < 1440 → 0 <= s < 1440 → 0 <= e < 1440 →
  withinQuietHours minute (format_1504 s) (format_1504 e) = if s <=? e then (s <=? minute) && (minute <? e) else (s <=? minute) || (minute <? e).
Proof.
  intros Hm Hs He. unfold withinQuietHours. rewrite !format_truthy, !format_order by done. cbn [negb orb].
  rewrite <- !Z.leb_antisym. done.
Qed.

Lemma quiet_exact_witness : withinQuietHours 30 (format_1504 1320) (format_1504 360) = true ∧ format_1504 1320 = "22:00".
Proof. split; [apply (quiet_exact 30 1320 360); lia|reflexivity]. Defined.

(** *** Recipients *)

(** Whether a row tells the user of an alarm by a channel. *)
Definition told (channel user site : string) (want minute : Z) (r : SubRow) : bool :=
  String.eqb (sr_user r) user && row_matches site want minute r && String.eqb (sr_channel r) channel.

Definition rank_of (severity : string) : Z := if severityRank severity =? 0 then 1 else severityRank severity.

(** What a user is told: by each channel that a row asks for. *)
Definition recipient_of (u : NotifyUser) (site : string) (want minute : Z) (l : list SubRow) : AlarmRecipient :=
  mkRecipient (nu_id u) (if existsb (told "email" (nu_id u) site want minute) l then nu_email u else EmptyString)
    (if existsb (told "sms" (nu_id u) site want minute) l then nu_phone u else EmptyString).

Definition blank (k : string) : AlarmRecipient := mkRecipient k EmptyString EmptyString.

Lemma merge_other site want minute users m r k : sr_user r ≠ k → merge_row site want minute users m r !! k = m !! k.
Proof. intros Hk. unfold merge_row. repeat case_match; try done. by rewrite lookup_insert_ne. Qed.

Lemma merge_blank site want minute users k l m : find_where (λ u, String.eqb (nu_id u) k) users = None →
  foldl (merge_row site want minute users) m l !! k = m !! k.
Proof.
  intros Hu. revert m. induction l as [|r l IH]; intros m; [done|]. simpl. rewrite IH. destruct (String.eqb_spec (sr_user r) k) as [<-|Hk]; [|by apply merge_other].
  unfold merge_row. by rewrite Hu.
Qed.

Lemma keep_text (b : bool) s : (if b && truthy_str s then s else EmptyString) = if b then s else EmptyString.
Proof. destruct b; [|done]. by destruct s. Qed.

Lemma told_here c k site want minute r : sr_user r = k → told c k site want minute r = row_matches site want minute r && String.eqb (sr_channel r) c.
Proof. intros <-. unfold told. by rewrite String.eqb_refl. Qed.

Lemma told_other c k site want minute r : sr_user r ≠ k → told c k site want minute r = false.
Proof. intros H. unfold told. by rewrite (proj2 (String.eqb_neq _ _) H). Qed.

Lemma merge_rows site want minute users u l m : find_where (λ x, String.eqb (nu_id x) (nu_id u)) users = Some u →
  let x := default (blank (nu_id u)) (m !! nu_id u) in
  rc_user x = nu_id u →
  default (blank (nu_id u)) (foldl (merge_row site want minute users) m l !! nu_id u) =
    mkRecipient (nu_id u) (if existsb (told "email" (nu_id u) site want minute) l && truthy_str (nu_email u) then nu_email u else rc_email x)
      (if existsb (told "sms" (nu_id u) site want minute) l && truthy_str (nu_phone u) then nu_phone u else rc_sms x).
Proof.
  intros Hu. revert m. induction l as [|r l IH]; intros m x Hx; [subst x; simpl; revert Hx; destruct (default _ _) as [a b c]; simpl; by intros ->|].
  simpl. destruct (String.eqb_spec (sr_user r) (nu_id u)) as [E|E].
  - assert (Hm : default (blank (nu_id u)) (merge_row site want minute users m r !! nu_id u) = if row_matches site want minute r then add_channel (sr_channel r) u x else x).
    { unfold merge_row. rewrite E, Hu. destruct (row_matches site want minute r); [|done]. by rewrite lookup_insert_eq. }
    rewrite IH by (rewrite Hm; unfold add_channel; repeat case_match; done). rewrite Hm, !told_here by done.
    unfold add_channel. destruct (row_matches site want minute r); cbn [andb orb]; [|done].
    destruct (String.eqb_spec (sr_channel r) "email") as [E1|E1].
    + rewrite E1. cbn [String.eqb]. destruct (truthy_str (nu_email u)) eqn:T; simpl; rewrite ?T, ?andb_false_r, ?andb_true_r; [|done]. f_equal. by repeat case_match.
    + destruct (String.eqb_spec (sr_channel r) "sms") as [E2|E2]; cbn [orb]; [|done].
      destruct (truthy_str (nu_phone u)) eqn:T; simpl; rewrite ?T, ?andb_false_r, ?andb_true_r; [|done]. f_equal. by repeat case_match.
  - rewrite IH by (by rewrite merge_other). rewrite merge_other by done. by rewrite !told_other.
Qed.

(** C37.  Who is told of an alarm.  A user is told once, by e-mail when some enabled row of
    his for alarms asks for it and he has an address, by SMS likewise, and not at all when
    neither; a row counts when it lists the site or no site at all, its least severity is
    not above the alarm's, and the minute is not in its quiet hours.  The organization of
    the user does not come into it. *)
Theorem recipients_exact site severity minute db u :
  find_where (λ x, String.eqb (nu_id x) (nu_id u)) (nd_users db) = Some u →
  let x := recipient_of u site (rank_of severity) minute (alarm_rows db) in
  MatchAlarmRecipients site severity minute db !! nu_id u = if truthy_str (rc_email x) || truthy_str (rc_sms x) then Some x else None.
Proof.
  intros Hu x. unfold MatchAlarmRecipients. fold (rank_of severity).
  pose proof (merge_rows site (rank_of severity) minute (nd_users db) u (alarm_rows db) ∅ Hu) as H. rewrite lookup_empty in H. specialize (H eq_refl). cbn [default blank rc_email rc_sms] in H.
  assert (Hx : default (blank (nu_id u)) (foldl (merge_row site (rank_of severity) minute (nd_users db)) ∅ (alarm_rows db) !! nu_id u) = x).
  { by rewrite H, !keep_text. }
  clearbody x. clear H. rewrite map_lookup_filter. revert Hx. generalize (foldl (merge_row site (rank_of severity) minute (nd_users db)) ∅ (alarm_rows db) !! nu_id u).
  intros [y|] Hx; simpl in Hx; subst; [|done]. simpl. destruct (truthy_str (rc_email x) || truthy_str (rc_sms x)) eqn:E; case_guard as D; try done; simpl in D; rewrite E in D; by destruct D.
Qed.

(** *** A preference that is stored *)

(** What the page may send: the values of its rows, and hours that are not blank. *)
Definition sendable (s : Subscription) : Prop :=
  su_channel s ∈ CHANNELS ∧ su_event s ∈ SUB_EVENTS ∧ su_severity s ∈ SEVERITIES ∧ su_quiet_start s ≠ Some EmptyString ∧ su_quiet_end s ≠ Some EmptyString.

Definition row_of (user : string) (s : Subscription) : SubRow :=
  mkSubRow user (su_channel s) (su_event s) (su_severity s) None (default EmptyString (su_quiet_start s)) (default EmptyString (su_quiet_end s)) (su_enabled s).

Definition put_row (r : SubRow) (l : list SubRow) : list SubRow :=
  (if existsb (same_key (sub_key r)) l then map_where (same_key (sub_key r)) (λ _, r) l else l ++ [r])%list.

Lemma sub_out_row user s : sendable s → sub_out (row_of user s) = s.
Proof. destruct s as [c e v b [[|]|] [[|]|]]; intros (?&?&?&?&?); done. Qed.

Lemma existsb_user db u : u ∈ nd_users db → existsb (λ x, String.eqb (nu_id x) (nu_id u)) (nd_users db) = true.
Proof. intros H. apply existsb_exists. exists u. split; [by apply list_elem_of_In|apply String.eqb_refl]. Qed.

Lemma prefs_stored et user s db : sendable s → existsb (λ x, String.eqb (nu_id x) user) (nd_users db) = true →
  prefs_serve et user (PcSave s) db = (PyDone, mkNotifyDB (put_row (row_of user s) (nd_subs db)) (nd_users db)).
Proof.
  intros (Hc & He & Hs & _ & _) Hu. unfold prefs_serve, HandleUpsertMyNotificationSub.
  assert (decode_sub user (sub_body s) = Some (row_of user s)) as -> by done.
  assert (includes (sr_channel (row_of user s)) CHANNELS = true) as -> by (by apply bool_decide_eq_true).
  assert (includes (sr_event (row_of user s)) SUB_EVENTS = true) as -> by (by apply bool_decide_eq_true).
  assert (includes (sr_severity_min (row_of user s)) (EmptyString :: SEVERITIES) = true) as -> by (apply bool_decide_eq_true; simpl; by apply elem_of_cons; right).
  assert (truthy_str (sr_severity_min (row_of user s)) = true) as ->.
  { simpl. destruct (su_severity s); [|done]. exfalso. revert Hs. unfold SEVERITIES. rewrite !elem_of_cons, elem_of_nil. naive_solver. }
  cbn [andb]. unfold UpsertNotificationSubscription. cbn [sr_user row_of]. by rewrite Hu.
Qed.

(** Rows of one key. *)
Lemma find_put_row k r l : find_where (same_key k) (put_row r l) = if bool_decide (sub_key r = k) then Some r else find_where (same_key k) l.
Proof.
  unfold put_row. assert (Hm : find_where (same_key k) (map_where (same_key (sub_key r)) (λ _, r) l) =
    if bool_decide (sub_key r = k) then (if existsb (same_key k) l then Some r else None) else find_where (same_key k) l).
  { induction l as [|x l IH]; [by case_bool_decide|].
    change (map_where (same_key (sub_key r)) (λ _, r) (x :: l)) with ((if same_key (sub_key r) x then r else x) :: map_where (same_key (sub_key r)) (λ _, r) l).
    rewrite !find_where_cons, IH. unfold same_key. simpl. repeat (case_bool_decide; simpl); congruence. }
  destruct (existsb (same_key (sub_key r)) l) eqn:E.
  - rewrite Hm. case_bool_decide as D; [|done]. by rewrite <- D, E.
  - assert (Hs : ∀ l', find_where (same_key k) (l' ++ [r])%list = match find_where (same_key k) l' with Some x => Some x | None => if same_key k r then Some r else None end).
    { clear. induction l' as [|x l' IH]; [by rewrite app_nil_l, find_where_cons|]. rewrite <- app_comm_cons, !find_where_cons. by destruct (same_key k x). }
    rewrite Hs. change (same_key k r) with (bool_decide (sub_key r = k)). case_bool_decide as D; [|by destruct (find_where _ l)].
    replace (find_where (same_key k) l) with (@None SubRow); [done|]. symmetry. apply find_where_None. intros x Hx. rewrite <- D.
    apply not_true_iff_false. intros Hk. apply not_true_iff_false in E. apply E, existsb_exists. exists x. by rewrite <- list_elem_of_In.
Qed.

Lemma find_unique {A} (p : A → bool) l x : x ∈ l → p x = true → (∀ y, y ∈ l → p y = true → y = x) → find_where p l = Some x.
Proof.
  intros Hx Hp Hu. destruct (find_where p l) as [y|] eqn:E.
  - apply find_where_Some in E as [Hy Hin]. f_equal. by apply Hu.
  - by rewrite (proj1 (find_where_None _ _) E x Hx) in Hp.
Qed.

(** The page finds in the list what the table has under the key. *)
Lemma findSub_list user c e db : NoDup (sub_key <$> nd_subs db) →
  findSub (sub_out <$> ListNotificationSubscriptions user db) c e =
    default (mkSubscription c e "low" false None None) (sub_out <$> find_where (same_key (user, c, e)) (nd_subs db)).
Proof.
  intros Hn. unfold findSub. f_equal.
  assert (Hin : ∀ r, r ∈ ListNotificationSubscriptions user db ↔ sr_user r = user ∧ r ∈ nd_subs db).
  { intros r. unfold ListNotificationSubscriptions. rewrite elem_of_sort_by, elem_of_filter_where. by rewrite String.eqb_eq. }
  assert (Hk : ∀ r, sr_user r = user → sub_is c e (sub_out r) = same_key (user, c, e) r).
  { intros r <-. unfold sub_is, same_key, sub_key. simpl. destruct (String.eqb_spec (sr_channel r) c), (String.eqb_spec (sr_event r) e); simpl; symmetry;
      (apply bool_decide_eq_true_2 || apply bool_decide_eq_false_2); congruence. }
  destruct (find_where (same_key (user, c, e)) (nd_subs db)) as [r|] eqn:E; simpl.
  - apply find_where_Some in E as [Hr Hrin]. pose proof Hr as Hkey. unfold same_key in Hkey. apply bool_decide_eq_true in Hkey.
    assert (sr_user r = user) as Hu by (unfold sub_key in Hkey; congruence).
    apply find_unique; [apply list_elem_of_fmap; exists r; split; [done|by apply Hin]|by rewrite Hk|].
    intros y (z & -> & [Hzu Hz]%Hin)%list_elem_of_fmap Hy. rewrite Hk in Hy by done. f_equal. apply (NoDup_fmap_elem sub_key (nd_subs db)); try done.
    unfold same_key in Hy. apply bool_decide_eq_true in Hy. congruence.
  - apply find_where_None. intros y (z & -> & [Hzu Hz]%Hin)%list_elem_of_fmap. rewrite Hk by done. by apply (proj1 (find_where_None _ _) E).
Qed.

Lemma put_row_keys r l : NoDup (sub_key <$> l) → NoDup (sub_key <$> put_row r l).
Proof.
  intros Hn. unfold put_row. destruct (existsb (same_key (sub_key r)) l) eqn:E.
  - replace (sub_key <$> map_where (same_key (sub_key r)) (λ _, r) l) with (sub_key <$> l); [done|].
    unfold map_where. rewrite <- list_fmap_compose. apply list_fmap_ext. intros i x _. simpl. unfold same_key. by case_bool_decide.
  - rewrite fmap_app. apply NoDup_app. split_and!; [done| |apply NoDup_singleton]. intros k Hk Hr%list_elem_of_singleton. subst.
    apply list_elem_of_fmap in Hk as (x & Hk & Hx). apply not_true_iff_false in E. apply E, existsb_exists. exists x. split; [by apply list_elem_of_In|].
    unfold same_key. by apply bool_decide_eq_true_2.
Qed.

(**  What is saved is shown.  After a preference of the page was stored and the list
    loaded again, its row has what was sent, the other rows have what they had, and other
    users have theirs; the sites that the row listed before are gone. *)
Theorem preference_stored et user s db :
  sendable s → existsb (λ x, String.eqb (nu_id x) user) (nd_users db) = true → NoDup (sub_key <$> nd_subs db) →
  ∃ db' l, prefs_serve et user (PcSave s) db = (PyDone, db') ∧ prefs_serve et user PcLoad db' = (PyList l, db') ∧ NoDup (sub_key <$> nd_subs db') ∧
    (∀ c e, findSub l c e = if bool_decide ((c, e) = (su_channel s, su_event s)) then s
                            else findSub (sub_out <$> ListNotificationSubscriptions user db) c e) ∧
    (∀ v c e, v ≠ user → find_where (same_key (v, c, e)) (nd_subs db') = find_where (same_key (v, c, e)) (nd_subs db)) ∧
    (∀ r, find_where (same_key (user, su_channel s, su_event s)) (nd_subs db') = Some r → sr_sites r = None).
Proof.
  intros Hs Hu Hn. eexists _, _. split; [by apply prefs_stored|]. split; [reflexivity|]. pose proof (put_row_keys (row_of user s) (nd_subs db) Hn) as Hn'. cbn [nd_subs].
  split_and!; [done| | |].
  - intros c e. rewrite !findSub_list by done. cbn [nd_subs]. rewrite find_put_row. unfold sub_key. cbn [row_of sr_user sr_channel sr_event].
    repeat case_bool_decide; try congruence. simpl. by rewrite sub_out_row.
  - intros v c e Hv. rewrite find_put_row, bool_decide_eq_false_2; [done|]. unfold sub_key. simpl. congruence.
  - intros r. rewrite find_put_row, bool_decide_eq_true_2 by done. by intros [= <-].
Qed.

Definition mail_on : Subscription := mkSubscription "email" "alarm_disposition" "high" true None None.
Definition two_tenants : NotifyDB := mkNotifyDB [mkSubRow "bob" "email" "alarm_disposition" "low" (Some ["S2"]) EmptyString EmptyString true] [mkNotifyUser "bob" "apex" "bob@apex" EmptyString].

Lemma preference_stored_witness :
  ∃ db' l, prefs_serve (λ _, EmptyString) "bob" (PcSave mail_on) two_tenants = (PyDone, db') ∧ prefs_serve (λ _, EmptyString) "bob" PcLoad db' = (PyList l, db').
Proof.
  destruct (preference_stored (λ _, EmptyString) "bob" mail_on two_tenants) as (db' & l & H1 & H2 & _); [|reflexivity|apply NoDup_singleton|by exists db', l].
  unfold sendable, CHANNELS, SUB_EVENTS, SEVERITIES. simpl. rewrite !elem_of_cons. naive_solver.
Defined.

(** *** Tenants *)

(** C36.  Notifications do not know tenants.  When a user has turned on e-mail for alarms on
    the page, every alarm of every site of every organization that is severe enough, outside
    his quiet hours and not dismissed as false reaches his address; and when he has turned on
    the monthly summary, he gets the summary of every organization, as soon as there is a
    site at all. *)
Theorem alarms_cross_tenants et u s db db' :
  find_where (λ x, String.eqb (nu_id x) (nu_id u)) (nd_users db) = Some u → truthy_str (nu_email u) = true →
  sendable s → su_channel s = "email" → su_enabled s = true → prefs_serve et (nu_id u) (PcSave s) db = (PyDone, db') →
  (su_event s = "alarm_disposition" →
   ∀ code site severity minute, isInformationalDisposition code = false → severityRank (su_severity s) <= rank_of severity →
     withinQuietHours minute (default EmptyString (su_quiet_start s)) (default EmptyString (su_quiet_end s)) = false →
     ∃ x, dispatchAlarmNotifications code site severity minute db' !! nu_id u = Some x ∧ rc_email x = nu_email u) ∧
  (su_event s = "monthly_summary" →
   ∀ org rows, ListSitesScoped "admin" org rows ≠ [] → (nu_id u, nu_email u) ∈ monthly_recipients org rows db').
Proof.
  intros Hu Ht Hs Hc Hen Hdb. pose proof (find_where_Some _ _ _ Hu) as [_ Hin].
  rewrite (prefs_stored et (nu_id u) s db Hs (existsb_user db u Hin)) in Hdb. injection Hdb as <-.
  assert (Hrow : row_of (nu_id u) s ∈ put_row (row_of (nu_id u) s) (nd_subs db)).
  { pose proof (find_put_row (sub_key (row_of (nu_id u) s)) (row_of (nu_id u) s) (nd_subs db)) as H. rewrite bool_decide_eq_true_2 in H by done.
    by apply find_where_Some in H as [_ H]. }
  split.
  - intros He code site severity minute Hcode Hsev Hq. unfold dispatchAlarmNotifications. rewrite Hcode.
    eexists. split; [rewrite (recipients_exact site severity minute (mkNotifyDB (put_row (row_of (nu_id u) s) (nd_subs db)) (nd_users db)) u Hu)|].
    + assert (existsb (told "email" (nu_id u) site (rank_of severity) minute) (alarm_rows (mkNotifyDB (put_row (row_of (nu_id u) s) (nd_subs db)) (nd_users db))) = true) as E.
      { apply existsb_exists. exists (row_of (nu_id u) s). split.
        - apply list_elem_of_In. unfold alarm_rows. apply elem_of_filter_where. simpl. by rewrite Hen, He.
        - rewrite told_here by done. simpl. rewrite Hc. unfold row_matches. simpl. rewrite Hq. apply Z.leb_le in Hsev. by rewrite Hsev. }
      unfold recipient_of. rewrite E. cbn [rc_email]. rewrite Ht. reflexivity.
    + reflexivity.
  - intros He org rows Hrows. unfold monthly_recipients, MatchMonthlySummaryRecipients.
    destruct (db_id <$> ListSitesScoped "admin" org rows) as [|x l] eqn:El; [by apply fmap_nil_inv in El|].
    apply list_elem_of_bind. exists u. split; [|done]. cbn [nd_subs nd_users]. rewrite Ht. cbn [andb].
    assert (existsb (λ r, String.eqb (sr_user r) (nu_id u) && sr_enabled r && String.eqb (sr_event r) "monthly_summary" && String.eqb (sr_channel r) "email" &&
       match sr_sites r with None => true | Some l0 => existsb (λ s0, includes s0 (x :: l)) l0 end) (put_row (row_of (nu_id u) s) (nd_subs db)) = true) as ->; [|set_solver].
    apply existsb_exists. exists (row_of (nu_id u) s). split; [by apply list_elem_of_In|]. simpl. by rewrite String.eqb_refl, Hen, He, Hc.
Qed.

Lemma alarms_cross_tenants_witness :
  ∃ x, dispatchAlarmNotifications "verified_police_dispatched" "S1" "critical" 600 (prefs_serve (λ _, EmptyString) "bob" (PcSave mail_on) two_tenants).2 !! "bob" = Some x ∧ rc_email x = "bob@apex".
Proof.
  apply (alarms_cross_tenants (λ _, EmptyString) (mkNotifyUser "bob" "apex" "bob@apex" EmptyString) mail_on two_tenants);
    [reflexivity|reflexivity| |reflexivity|reflexivity|reflexivity|reflexivity|reflexivity|by vm_compute|reflexivity].
  unfold sendable, CHANNELS, SUB_EVENTS, SEVERITIES. simpl. rewrite !elem_of_cons. naive_solver.
Defined.

(**  Which of the console's dispositions are told to customers: those that verify the
    alarm, the one without a threat among them, and none of those that call it false. *)
Theorem dispositions_told code : isInformationalDisposition (code_string code) = includes code (do_code <$> options_of cat_false).
Proof. destruct code; vm_compute; reflexivity. Qed.

(** *** The page *)

Lemma findSub_key l c e : su_channel (findSub l c e) = c ∧ su_event (findSub l c e) = e.
Proof.
  unfold findSub. destruct (find_where _ l) as [x|] eqn:E; [|done]. apply find_where_Some in E as [E _]. unfold sub_is in E.
  apply andb_true_iff in E as [Hc%String.eqb_eq He%String.eqb_eq]. by split.
Qed.

(** The opposite of a row. *)
Definition flipped (l : list Subscription) (c e : string) : Subscription := put_enabled (negb (su_enabled (findSub l c e))) (findSub l c e).

Lemma toggle_free p l i c e v : np_subs p = Some l → ROWS !! i = Some (c, e, v) → np_saving p ≠ row_key c e →
  prefs_step (PeToggle i) p = (prefs_send PtSave (upd_np (Some l) (row_key c e) EmptyString (np_saved_at p) p), [PcSave (flipped l c e)]).
Proof.
  intros Hl Hi Hs. simpl. unfold free_row. rewrite Hl. simpl. rewrite Hi. simpl. rewrite (proj2 (String.eqb_neq _ _) Hs).
  unfold saveSub. simpl. destruct (findSub_key l c e) as [-> ->]. by rewrite Hl.
Qed.

Lemma row_keys_differ i j c e v c' e' v' : ROWS !! i = Some (c, e, v) → ROWS !! j = Some (c', e', v') → i ≠ j → row_key c e ≠ row_key c' e'.
Proof.
  intros Hi Hj Hij. destruct i as [|[|[|]]], j as [|[|[|]]]; simplify_eq/=; try done; unfold row_key; rewrite ?sapp_cons, ?sapp_empty; discriminate.
Qed.

(**  The page marks one row as being saved.  While the first save is under way a second
    one in another row sets the first free again, and a click that is to undo it sends the
    same once more, since the list is not loaded yet. *)
Theorem undo_repeats (p : PrefsPage) l i j c e v c' e' v' :
  np_subs p = Some l → np_saving p = EmptyString → ROWS !! i = Some (c, e, v) → ROWS !! j = Some (c', e', v') → i ≠ j →
  let p1 := prefs_step (PeToggle i) p in let p2 := prefs_step (PeToggle j) p1.1 in let p3 := prefs_step (PeToggle i) p2.1 in
  (prefs_step (PeToggle i) p1.1).2 = [] ∧ p1.2 = [PcSave (flipped l c e)] ∧ p3.2 = p1.2.
Proof.
  intros Hl Hs Hi Hj Hij p1 p2 p3.
  assert (H0 : row_key c e ≠ EmptyString) by (destruct i as [|[|[|]]]; simplify_eq/=; discriminate).
  assert (H1 : p1 = (prefs_send PtSave (upd_np (Some l) (row_key c e) EmptyString (np_saved_at p) p), [PcSave (flipped l c e)])) by (apply (toggle_free _ _ _ _ _ v); congruence).
  assert (H2 : p2 = (prefs_send PtSave (upd_np (Some l) (row_key c' e') EmptyString (np_saved_at p1.1) p1.1), [PcSave (flipped l c' e')])).
  { apply (toggle_free _ _ _ _ _ v'); [by rewrite H1|done|]. rewrite H1. simpl. exact (row_keys_differ _ _ _ _ _ _ _ _ Hi Hj Hij). }
  assert (H3 : p3 = (prefs_send PtSave (upd_np (Some l) (row_key c e) EmptyString (np_saved_at p2.1) p2.1), [PcSave (flipped l c e)])).
  { apply (toggle_free _ _ _ _ _ v); [by rewrite H2|done|]. rewrite H2. simpl. intros E. by apply (row_keys_differ _ _ _ _ _ _ _ _ Hi Hj Hij). }
  split_and!; [|by rewrite H1|by rewrite H3, H1]. rewrite H1. simpl. unfold free_row. simpl. rewrite Hi. simpl. by rewrite String.eqb_refl.
Qed.

Lemma undo_repeats_witness :
  (prefs_step (PeToggle 0) (prefs_step (PeToggle 1) (prefs_step (PeToggle 0) (mkPrefsPage (Some []) EmptyString EmptyString 0 [])).1).1).2 =
  [PcSave (flipped [] "email" "alarm_disposition")].
Proof.
  destruct (undo_repeats (mkPrefsPage (Some []) EmptyString EmptyString 0 []) [] 0 1 "email" "alarm_disposition" true "sms" "alarm_disposition" true) as (_ & H & ->);
    [reflexivity|reflexivity|reflexivity|reflexivity|discriminate|exact H].
Defined.

Lemma recipients_exact_witness :
  MatchAlarmRecipients "S2" "high" 600 two_tenants !! "bob" = Some (mkRecipient "bob" "bob@apex" EmptyString) ∧
  MatchAlarmRecipients "S1" "high" 600 two_tenants !! "bob" = None.
Proof.
  split; [exact (recipients_exact "S2" "high" 600 two_tenants (mkNotifyUser "bob" "apex" "bob@apex" EmptyString) eq_refl)
         |exact (recipients_exact "S1" "high" 600 two_tenants (mkNotifyUser "bob" "apex" "bob@apex" EmptyString) eq_refl)].
Defined.
