(* ===== verification/FourEyes.v ===== *)
(** * Four eyes

    A security event is recorded by the operator who disposed of the alarm and signed by a
    second one: the handlers of [internal/api/platform.go], their tables
    ([internal/database/platform_db.go]), and the queue of the supervisors
    ([components/reports/VerificationQueueCard.tsx]). *)

From S2P Require Import Prelude Types Http SiteServer.
#[local] Open Scope string_scope.
#[local] Open Scope Z_scope.

(** ** The server *)

(** A row of security_events; [se_verified] is user, callsign and time of the signature. *)
Record SecEvent := mkSecEvent {
  se_id : string;
  se_alarm : string;
  se_site : string;
  se_severity : string;
  se_code : string;
  se_callsign : string;
  se_disposed_by : option string;
  se_verified : option (string * string * Z);
  se_resolved : Z
}.

(** A row of active_alarms, in what the disposition changes. *)
Record ActiveAlarmRow := mkActiveAlarmRow { aw_id : string; aw_acked : bool; aw_acked_at : option Z; aw_acked_by : option string; aw_acked_callsign : string }.

Record EventTables := mkEventTables { et_events : list SecEvent; et_alarms : list ActiveAlarmRow }.

(** What the handler decodes; [ec_disposed_by] is no JSON field ([json:"-"]), [None] is the
    zero id. *)
Record EventCreate := mkEventCreate { ec_alarm : string; ec_site : string; ec_severity : string; ec_code : string; ec_callsign : string; ec_disposed_by : option string }.

(** The type of each field of [SecurityEventCreate] that the handlers here do not use, and of
    the factors; a field of another type makes the body invalid. *)
Definition event_texts : list string := ["camera_id"; "type"; "description"; "disposition_label"; "operator_notes"; "clip_url"].
Definition factor_flags : list string :=
  ["video_verified"; "person_detected"; "suspicious_behavior"; "weapon_observed"; "active_crime"; "multi_camera_evidence"; "multi_sensor_evidence";
   "audio_verified"; "talkdown_ignored"; "auth_failure"; "ai_corroborated"].
Definition present {A} (o : option A) : bool := match o with Some _ => true | None => false end.
Definition factors_ok (o : option json) : bool :=
  match o with
  | None | Some JNull => true
  | Some (JObj l) => forallb (λ k, present (go_bool (jget k (JObj l)))) factor_flags
  | _ => false
  end.
Definition event_rest_ok (body : json) : bool :=
  forallb (λ k, present (go_string (jget k body))) event_texts && present (go_objects (jget "action_log" body)) &&
  present (go_int (jget "escalation_depth" body)) && factors_ok (jget "avs_factors" body).

Definition decode_event (body : json) : option EventCreate :=
  match body with
  | JObj _ | JNull =>
      a ← go_string (jget "alarm_id" body); s ← go_string (jget "site_id" body); v ← go_string (jget "severity" body);
      c ← go_string (jget "disposition_code" body); o ← go_string (jget "operator_callsign" body);
      if event_rest_ok body then Some (mkEventCreate a s v c o None) else None
  | _ => None
  end.

Definition alarm_is_row (id : string) (a : ActiveAlarmRow) : bool := String.eqb (aw_id a) id.

(** The UPDATE of an alarm by [CreateSecurityEvent] ([user = None]) and by [AcknowledgeAlarm]. *)
Definition acknowledged_row (user : option string) (callsign : string) (now : Z) (a : ActiveAlarmRow) : ActiveAlarmRow :=
  mkActiveAlarmRow (aw_id a) true (Some (default now (aw_acked_at a))) (match aw_acked_by a with Some u => Some u | None => user end)
    (if truthy_str (aw_acked_callsign a) then aw_acked_callsign a else callsign).

Definition AcknowledgeAlarm (alarm : string) (user : option string) (callsign : string) (now : Z) (db : EventTables) : EventTables :=
  mkEventTables (et_events db) (map_where (alarm_is_row alarm) (acknowledged_row user callsign now) (et_alarms db)).

(** [CreateSecurityEvent] with the [id] it draws; an id that is taken is refused. *)
Definition CreateSecurityEvent (c : EventCreate) (id : string) (now : Z) (db : EventTables) : option EventTables :=
  if existsb (λ e, String.eqb (se_id e) id) (et_events db) then None
  else Some (AcknowledgeAlarm (ec_alarm c) None (ec_callsign c) now
               (mkEventTables (et_events db ++ [mkSecEvent id (ec_alarm c) (ec_site c) (if truthy_str (ec_severity c) then ec_severity c else "medium") (ec_code c) (ec_callsign c) (ec_disposed_by c) None now])%list (et_alarms db))).

(** What the handlers take of the token; [ct_user] is the parsed id. *)
Record EventClaims := mkEventClaims { ct_role : string; ct_user : option string; ct_username : string }.

Definition with_callsign (o : string) (c : EventCreate) : EventCreate := mkEventCreate (ec_alarm c) (ec_site c) (ec_severity c) (ec_code c) o (ec_disposed_by c).

(** The handler: the row is written first, the identity of the operator is looked up after. *)
Definition HandleCreateSecurityEvent (c : EventClaims) (body : json) (id : string) (now : Z) (db : EventTables) : Z * EventTables :=
  match decode_event body with
  | None => (400, db)
  | Some i =>
      let input := if truthy_str (ec_callsign i) then i else with_callsign (toUpperCase (ct_username c)) i in
      match CreateSecurityEvent input id now db with
      | None => (500, db)
      | Some db' => (200, if truthy_str (ec_alarm input) then AcknowledgeAlarm (ec_alarm input) (ct_user c) (ec_callsign input) now db' else db')
      end
  end.

Inductive VerifyResult := VerifyOk | ErrSelfVerification | ErrAlreadyVerified | ErrVerifyOther.

Definition event_is (id : string) (e : SecEvent) : bool := String.eqb (se_id e) id.
Definition verifiable (user : string) (e : SecEvent) : bool :=
  match se_verified e with Some _ => false | None => match se_disposed_by e with Some d => negb (String.eqb d user) | None => true end end.
Definition signed_row (user callsign : string) (now : Z) (e : SecEvent) : SecEvent :=
  mkSecEvent (se_id e) (se_alarm e) (se_site e) (se_severity e) (se_code e) (se_callsign e) (se_disposed_by e) (Some (user, callsign, now)) (se_resolved e).

(** [VerifySecurityEvent]: the conditional UPDATE, then the reason when no row was touched. *)
Definition VerifySecurityEvent (id user callsign : string) (now : Z) (db : EventTables) : VerifyResult * EventTables :=
  if existsb (λ e, event_is id e && verifiable user e) (et_events db)
  then (VerifyOk, mkEventTables (map_where (λ e, event_is id e && verifiable user e) (signed_row user callsign now) (et_events db)) (et_alarms db))
  else (match find_where (event_is id) (et_events db) with
        | None => ErrVerifyOther
        | Some e => match se_verified e with
                    | Some _ => ErrAlreadyVerified
                    | None => match se_disposed_by e with Some d => if String.eqb d user then ErrSelfVerification else ErrVerifyOther | None => ErrVerifyOther end
                    end
        end, db).

Definition HandleVerifySecurityEvent (c : EventClaims) (id : string) (now : Z) (db : EventTables) : Z * EventTables :=
  if negb (requireAdminOrSupervisor (ct_role c)) then (403, db)
  else if negb (truthy_str id) then (400, db)
  else match ct_user c with
       | None => (400, db)
       | Some u => let '(r, db') := VerifySecurityEvent id u (toUpperCase (ct_username c)) now db in
                   (match r with VerifyOk => 204 | ErrSelfVerification | ErrAlreadyVerified => 409 | ErrVerifyOther => 500 end, db')
       end.

(** [HandleListSecurityEvents]: of a site, or of all; the caller does not matter. *)
Definition HandleListSecurityEvents (site : string) (db : EventTables) : list SecEvent :=
  sort_by (λ a b, se_resolved b <=? se_resolved a) (filter_where (λ e, negb (truthy_str site) || String.eqb (se_site e) site) (et_events db)).

Inductive EventOp :=
| EoCreate (c : EventClaims) (body : json) (id : string) (now : Z)
| EoVerify (c : EventClaims) (id : string) (now : Z).

Definition event_op (db : EventTables) (o : EventOp) : EventTables :=
  match o with
  | EoCreate c body id now => (HandleCreateSecurityEvent c body id now db).2
  | EoVerify c id now => (HandleVerifySecurityEvent c id now db).2
  end.
Definition event_run (ops : list EventOp) (db : EventTables) : EventTables := foldl event_op db ops.

(** ** The queue *)

(** [listUnverifiedSecurityEvents] *)
Definition unverified (l : list SecEvent) : list SecEvent :=
  filter_where (λ e, (String.eqb (se_severity e) "critical" || String.eqb (se_severity e) "high") && negb (bool_decide (is_Some (se_verified e)))) l.

Inductive SignTask := QtRefresh | QtVerify (id : string) | QtVerifyRefresh (id : string).
Inductive SignReply := QyList (l : list SecEvent) | QyDone | QyFails (message : string).

Record VerifyQueue := mkVerifyQueue {
  vq_events : option (list SecEvent);
  vq_pending : list string;            (* the keys of the pending record *)
  vq_err : string;
  vq_tasks : list SignTask
}.

Definition upd_vq (ev : option (list SecEvent)) (pending : list string) (err : string) (q : VerifyQueue) : VerifyQueue := mkVerifyQueue ev pending err (vq_tasks q).
Definition vq_send (t : SignTask) (q : VerifyQueue) : VerifyQueue := mkVerifyQueue (vq_events q) (vq_pending q) (vq_err q) (vq_tasks q ++ [t])%list.

Definition mount_sign_queue : VerifyQueue := mkVerifyQueue None [] EmptyString [QtRefresh].

(** [refresh] takes its own failure. *)
Definition sign_refreshed (r : SignReply) (q : VerifyQueue) : VerifyQueue :=
  match r with QyList l => upd_vq (Some l) (vq_pending q) EmptyString q | QyFails m => upd_vq (vq_events q) (vq_pending q) m q | QyDone => q end.

Definition drop_pending (id : string) (l : list string) : list string := filter_where (λ x, negb (String.eqb x id)) l.

Definition sign_resume (t : SignTask) (r : SignReply) (q : VerifyQueue) : VerifyQueue :=
  match t, r with
  | QtRefresh, _ => sign_refreshed r q
  | QtVerify id, QyDone => vq_send (QtVerifyRefresh id) q
  | QtVerify id, QyFails m => upd_vq (vq_events q) (drop_pending id (vq_pending q)) m q
  | QtVerifyRefresh id, _ => let q' := sign_refreshed r q in upd_vq (vq_events q') (drop_pending id (vq_pending q')) (vq_err q') q'
  | _, _ => q
  end.

Definition sign_fits (t : SignTask) (r : SignReply) : bool :=
  match t, r with _, QyFails _ => true | (QtRefresh | QtVerifyRefresh _), QyList _ => true | QtVerify _, QyDone => true | _, _ => false end.

(** [isSelf] *)
Definition is_own (user : option string) (e : SecEvent) : bool :=
  match se_disposed_by e with Some d => truthy_str d && bool_decide (user = Some d) | None => false end.

Inductive SignEvent := QeRefresh | QeVerify (id : string) | QeSettles (i : nat) (r : SignReply).

Definition sign_step (user : option string) (e : SignEvent) (q : VerifyQueue) : VerifyQueue :=
  match e with
  | QeRefresh => vq_send QtRefresh q
  | QeVerify id =>
      match find_where (event_is id) (default [] (vq_events q)) with
      | Some ev => if is_own user ev || includes id (vq_pending q) then q
                   else vq_send (QtVerify id) (upd_vq (vq_events q) (id :: vq_pending q) (vq_err q) q)
      | None => q
      end
  | QeSettles i r =>
      match vq_tasks q !! i with
      | Some t => if sign_fits t r then sign_resume t r (mkVerifyQueue (vq_events q) (vq_pending q) (vq_err q) (delete i (vq_tasks q))) else q
      | None => q
      end
  end.

(** ** Theorems *)

(** *** The server *)

Definition undisposed (db : EventTables) : Prop := Forall (λ e, se_disposed_by e = None) (et_events db).

Lemma decode_undisposed body i : decode_event body = Some i → ec_disposed_by i = None.
Proof.
  unfold decode_event. destruct (event_rest_ok body), body; try done;
    repeat match goal with |- context [go_string ?x] => destruct (go_string x); [|done]; simpl end; first [by intros [= <-]|done].
Qed.

Lemma ack_events alarm user callsign now db : et_events (AcknowledgeAlarm alarm user callsign now db) = et_events db.
Proof. done. Qed.

(** The rows that a creation leaves. *)
Lemma create_events c body id now db : let '(st, db') := HandleCreateSecurityEvent c body id now db in
  (st ≠ 200 ∧ db' = db) ∨
  (st = 200 ∧ existsb (λ e, String.eqb (se_id e) id) (et_events db) = false ∧
   ∃ e, et_events db' = (et_events db ++ [e])%list ∧ se_id e = id ∧ se_disposed_by e = None ∧ se_verified e = None).
Proof.
  unfold HandleCreateSecurityEvent. destruct (decode_event body) as [i|] eqn:E; [|by left]. apply decode_undisposed in E.
  unfold CreateSecurityEvent. destruct (existsb _ _); [by left|]. right. split_and!; [done..|].
  eexists. split; [by case_match|]. split_and!; [done| |done]. simpl. by case_match.
Qed.

Lemma verify_events c id now db : let '(st, db') := HandleVerifySecurityEvent c id now db in
  db' = db ∨ ∃ u, ct_user c = Some u ∧ et_events db' = map_where (λ e, event_is id e && verifiable u e) (signed_row u (toUpperCase (ct_username c)) now) (et_events db).
Proof.
  unfold HandleVerifySecurityEvent, VerifySecurityEvent. destruct (negb _); [by left|]. destruct (negb _); [by left|]. destruct (ct_user c) as [u|]; [|by left].
  destruct (existsb _ _); [right; by exists u|by left].
Qed.

Lemma undisposed_op db o : undisposed db → undisposed (event_op db o).
Proof.
  unfold undisposed. intros H. destruct o as [c body id now|c id now]; simpl.
  - pose proof (create_events c body id now db) as He. destruct (HandleCreateSecurityEvent c body id now db) as [st db']. simpl.
    destruct He as [[_ ->]|(_ & _ & e & -> & _ & Hd & _)]; [done|]. apply Forall_app. split; [done|]. by apply Forall_singleton.
  - pose proof (verify_events c id now db) as He. destruct (HandleVerifySecurityEvent c id now db) as [st db']. simpl.
    destruct He as [->|(u & _ & ->)]; [done|]. apply Forall_fmap. eapply Forall_impl; [exact H|]. intros e He. simpl. by case_match.
Qed.

Lemma undisposed_run ops db : undisposed db → undisposed (event_run ops db).
Proof. revert db. induction ops as [|o ops IH]; intros db H; [done|]. apply IH. by apply undisposed_op. Qed.

Lemma verify_unsigned c u id now db : requireAdminOrSupervisor (ct_role c) = true → ct_user c = Some u → truthy_str id = true →
  (∃ e, e ∈ et_events db ∧ event_is id e = true ∧ verifiable u e = true) → (HandleVerifySecurityEvent c id now db).1 = 204.
Proof.
  intros Hr Hu Hi (e & He & Hk & Hv). unfold HandleVerifySecurityEvent. rewrite Hr, Hi, Hu. cbn [negb]. unfold VerifySecurityEvent.
  replace (existsb _ (et_events db)) with true; [done|]. symmetry. apply existsb_exists. exists e. split; [by apply list_elem_of_In|by rewrite Hk, Hv].
Qed.

(** C38.  The rule of four eyes does not hold.  Since the operator is looked up after the row
    is written, no event that the server records has the one who disposed of it: the queue
    marks none as one's own, and a supervisor or administrator signs his own disposition as
    any other. *)
Theorem four_eyes_void ops alarms c u e now :
  let db := event_run ops (mkEventTables [] alarms) in
  e ∈ et_events db → se_disposed_by e = None ∧ is_own (Some u) e = false ∧
  (requireAdminOrSupervisor (ct_role c) = true → ct_user c = Some u → truthy_str (se_id e) = true → se_verified e = None →
   (HandleVerifySecurityEvent c (se_id e) now db).1 = 204).
Proof.
  intros db He. assert (Hd : se_disposed_by e = None) by (exact (proj1 (Forall_forall _ _) (undisposed_run ops (mkEventTables [] alarms) (Forall_nil_2 _)) e He)).
  split; [done|]. split; [unfold is_own; by rewrite Hd|]. intros Hr Hu Hi Hv. apply (verify_unsigned c u); try done.
  exists e. split_and!; [done|unfold event_is; apply String.eqb_refl|unfold verifiable; by rewrite Hv, Hd].
Qed.

Definition boss : EventClaims := mkEventClaims "soc_supervisor" (Some "u1") "pat".
Definition intrusion : json := JObj [("alarm_id", JStr "A1"); ("severity", JStr "critical"); ("disposition_code", JStr "verified_police_dispatched")].

Lemma four_eyes_void_witness :
  (HandleVerifySecurityEvent boss "EVT-2026-0001" 9 (event_run [EoCreate boss intrusion "EVT-2026-0001" 5] (mkEventTables [] []))).1 = 204.
Proof.
  apply (four_eyes_void [EoCreate boss intrusion "EVT-2026-0001" 5] [] boss "u1"
    (mkSecEvent "EVT-2026-0001" "A1" EmptyString "critical" "verified_police_dispatched" "PAT" None None 5) 9); [by apply list_elem_of_singleton|reflexivity..].
Defined.

(** C39.  The signature itself is right.  Where a row has the one who disposed of it, he is
    refused with 409, as is everyone once it is signed; any other supervisor or administrator
    signs it, once, with his own name and the time, and nothing else changes.  Other roles
    get 403 and unknown events 500, and the tables stay as they are. *)
Theorem verify_exact c u id now db : truthy_str id = true → ct_user c = Some u → NoDup (se_id <$> et_events db) →
  let '(st, db') := HandleVerifySecurityEvent c id now db in
  if negb (requireAdminOrSupervisor (ct_role c)) then st = 403 ∧ db' = db
  else match find_where (event_is id) (et_events db) with
       | None => st = 500 ∧ db' = db
       | Some e =>
           if bool_decide (se_verified e ≠ None ∨ se_disposed_by e = Some u) then st = 409 ∧ db' = db
           else st = 204 ∧ et_alarms db' = et_alarms db ∧
                (∀ x, x ∈ et_events db' ↔ (x ∈ et_events db ∧ se_id x ≠ id) ∨ x = signed_row u (toUpperCase (ct_username c)) now e)
       end.
Proof.
  intros Hi Hu Hn. unfold HandleVerifySecurityEvent. destruct (requireAdminOrSupervisor (ct_role c)); cbn [negb]; [|done]. rewrite Hi, Hu. cbn [negb]. unfold VerifySecurityEvent.
  destruct (find_where (event_is id) (et_events db)) as [e|] eqn:E.
  - apply find_where_Some in E as [Hk He]. assert (Hk' := Hk). apply String.eqb_eq in Hk'.
    assert (Hone : ∀ x, x ∈ et_events db → event_is id x = true → x = e).
    { intros x Hx Hxk. apply String.eqb_eq in Hxk. apply (NoDup_fmap_elem se_id (et_events db)); try done. congruence. }
    assert (Hv : verifiable u e = negb (bool_decide (se_verified e ≠ None ∨ se_disposed_by e = Some u))).
    { unfold verifiable. destruct (se_verified e); [by rewrite bool_decide_eq_true_2 by naive_solver|]. destruct (se_disposed_by e) as [d|].
      - destruct (String.eqb_spec d u); [by rewrite bool_decide_eq_true_2 by naive_solver|]. rewrite bool_decide_eq_false_2; [done|]. naive_solver.
      - rewrite bool_decide_eq_false_2; [done|]. naive_solver. }
    assert (Hex : existsb (λ x, event_is id x && verifiable u x) (et_events db) = verifiable u e).
    { apply eq_true_iff_eq. rewrite existsb_exists. split.
      - intros (x & Hx%list_elem_of_In & [Hxk Hxv]%andb_true_iff). by rewrite <- (Hone x Hx Hxk).
      - intros Hve. exists e. rewrite <- list_elem_of_In. by rewrite Hk, Hve. }
    rewrite Hex. case_bool_decide as D; simpl in Hv; rewrite Hv.
    + destruct (se_verified e); [done|]. destruct D as [D|D]; [done|]. by rewrite D, String.eqb_refl.
    + split; [done|]. split; [done|]. intros x. cbn [et_events]. rewrite elem_of_map_where. split.
      * intros (y & Hy & ->). destruct (event_is id y) eqn:Ey; cbn [andb].
        -- rewrite (Hone y Hy Ey), Hv. by right.
        -- left. split; [done|]. intros Hid. unfold event_is in Ey. by rewrite Hid, String.eqb_refl in Ey.
      * intros [[Hx Hid]| ->].
        -- exists x. split; [done|]. unfold event_is. by rewrite (proj2 (String.eqb_neq _ _) Hid).
        -- exists e. by rewrite Hk, Hv.
  - assert (existsb (λ x, event_is id x && verifiable u x) (et_events db) = false) as ->; [|done]. apply not_true_iff_false. intros (x & Hx%list_elem_of_In & [Hk _]%andb_true_iff)%existsb_exists.
    by rewrite (proj1 (find_where_None _ _) E x Hx) in Hk.
Qed.

Definition pat_event : SecEvent := mkSecEvent "E1" "A1" "S1" "critical" "verified_other" "PAT" (Some "u1") None 5.

Lemma verify_exact_witness :
  (HandleVerifySecurityEvent boss "E1" 9 (mkEventTables [pat_event] [])).1 = 409 ∧ (HandleVerifySecurityEvent boss "E1" 9 (mkEventTables [pat_event] [])).2 = mkEventTables [pat_event] [].
Proof. apply (verify_exact boss "u1" "E1" 9 (mkEventTables [pat_event] []) eq_refl eq_refl). apply NoDup_singleton. Defined.

(**  The first signature stands.  Once an event is signed, whatever is created and
    whoever tries to sign afterwards, the event stays with the same signature, and it is not
    in the queue. *)
Theorem first_signature_stands ops db e v :
  e ∈ et_events db → se_verified e = Some v →
  (e ∈ et_events (event_run ops db)) ∧ e ∉ unverified (HandleListSecurityEvents EmptyString (event_run ops db)).
Proof.
  intros He Hv. split; [|intros [Hu _]%elem_of_filter_where; rewrite Hv in Hu; by rewrite andb_false_r in Hu].
  revert db He. induction ops as [|o ops IH]; intros db He; [done|]. apply IH. destruct o as [c body id now|c id now]; simpl.
  - pose proof (create_events c body id now db) as H. destruct (HandleCreateSecurityEvent c body id now db) as [st db']. simpl.
    destruct H as [[_ ->]|(_ & _ & x & -> & _)]; [done|]. apply elem_of_app. by left.
  - pose proof (verify_events c id now db) as H. destruct (HandleVerifySecurityEvent c id now db) as [st db']. simpl.
    destruct H as [->|(u & _ & ->)]; [done|]. apply elem_of_map_where. exists e. split; [done|]. unfold verifiable. by rewrite Hv, andb_false_r.
Qed.

Lemma first_signature_stands_witness :
  signed_row "u2" "KIM" 7 pat_event ∈ et_events (event_run [EoVerify boss "E1" 9] (mkEventTables [signed_row "u2" "KIM" 7 pat_event] [])).
Proof.
  apply (first_signature_stands [EoVerify boss "E1" 9] (mkEventTables [signed_row "u2" "KIM" 7 pat_event] []) (signed_row "u2" "KIM" 7 pat_event) ("u2", "KIM", 7));
    [by apply list_elem_of_singleton|reflexivity].
Defined.

(** *** The queue *)

Definition verifying (t : SignTask) : option string := match t with QtVerify id | QtVerifyRefresh id => Some id | QtRefresh => None end.

Record sign_queue_ok (q : VerifyQueue) : Prop := mkQueueOk {
  qk_one : NoDup (omap verifying (vq_tasks q));
  qk_pending : ∀ id, id ∈ vq_pending q ↔ id ∈ omap verifying (vq_tasks q)
}.

Lemma omap_snoc {A B} (f : A → option B) l x : omap f (l ++ [x])%list = (omap f l ++ option_list (f x))%list.
Proof. by rewrite omap_app. Qed.

Lemma omap_delete {A B} (f : A → option B) l i x : l !! i = Some x → omap f l ≡ₚ (option_list (f x) ++ omap f (delete i l))%list.
Proof. intros H. rewrite (delete_Permutation l i x H) at 1. simpl. by destruct (f x). Qed.

Lemma elem_of_drop id id' l : id' ∈ drop_pending id l ↔ id' ∈ l ∧ id' ≠ id.
Proof. unfold drop_pending. rewrite elem_of_filter_where, negb_true_iff, String.eqb_neq. tauto. Qed.

Lemma queue_ok_same q q' : vq_pending q' = vq_pending q → vq_tasks q' = vq_tasks q → sign_queue_ok q → sign_queue_ok q'.
Proof. intros Hp Ht [H1 H2]. split; rewrite ?Hp, ?Ht; done. Qed.

Lemma queue_ok_refresh q : sign_queue_ok q → sign_queue_ok (vq_send QtRefresh q).
Proof. intros [H1 H2]. split; simpl; rewrite omap_snoc; simpl; by rewrite app_nil_r. Qed.

(** The verification of an event goes on, or ends. *)
Lemma queue_ok_again id i q ev err ev' err' : sign_queue_ok q → vq_tasks q !! i = Some (QtVerify id) →
  sign_queue_ok (vq_send (QtVerifyRefresh id) (mkVerifyQueue ev (vq_pending q) err (delete i (vq_tasks q)))) ∧
  sign_queue_ok (mkVerifyQueue ev' (drop_pending id (vq_pending q)) err' (delete i (vq_tasks q))).
Proof.
  intros [H1 H2] Hi. pose proof (omap_delete verifying _ _ _ Hi) as Hd. simpl in Hd. assert (Hn := H1). rewrite Hd in Hn. apply NoDup_cons in Hn as [Hid Hn]. split; split; simpl.
  - rewrite omap_snoc. simpl. rewrite Permutation_app_comm. by apply NoDup_cons.
  - intros x. rewrite H2, Hd, omap_snoc. simpl. set_solver.
  - done.
  - intros x. rewrite elem_of_drop, H2, Hd, elem_of_cons. split; [naive_solver|]. intros Hx. split; [by right|]. by intros ->.
Qed.

Lemma queue_ok_end id i q ev err : sign_queue_ok q → vq_tasks q !! i = Some (QtVerifyRefresh id) →
  sign_queue_ok (mkVerifyQueue ev (drop_pending id (vq_pending q)) err (delete i (vq_tasks q))).
Proof.
  intros [H1 H2] Hi. pose proof (omap_delete verifying _ _ _ Hi) as Hd. simpl in Hd. assert (Hn := H1). rewrite Hd in Hn. apply NoDup_cons in Hn as [Hid Hn]. split; simpl; [done|].
  intros x. rewrite elem_of_drop, H2, Hd, elem_of_cons. split; [naive_solver|]. intros Hx. split; [by right|]. by intros ->.
Qed.

(**  A row of the queue is pending exactly while its own verification is under way, and
    no event is verified twice at a time, whatever is clicked and however the answers come. *)
Theorem pending_exact user (es : list SignEvent) : sign_queue_ok (foldl (λ q e, sign_step user e q) mount_sign_queue es).
Proof.
  induction es as [|e es IH] using rev_ind; [split; simpl; [apply NoDup_nil_2|set_solver]|]. rewrite foldl_app. simpl. revert IH.
  generalize (foldl (λ q e, sign_step user e q) mount_sign_queue es). intros q Hq. destruct e as [|id|i r]; simpl.
  - by apply queue_ok_refresh.
  - destruct (find_where _ _) as [ev|]; [|done]. destruct (is_own user ev); [done|]. destruct (includes id (vq_pending q)) eqn:Ei; [done|]. simpl.
    destruct Hq as [H1 H2]. apply bool_decide_eq_false in Ei. rewrite H2 in Ei. split; simpl; rewrite omap_snoc; simpl.
    + rewrite Permutation_app_comm. by apply NoDup_cons.
    + intros x. rewrite elem_of_cons, H2. set_solver.
  - destruct (vq_tasks q !! i) as [t|] eqn:E; [|done]. destruct (sign_fits t r) eqn:F; [|done].
    destruct t as [|id|id], r as [l| |m]; try discriminate F; simpl.
    + destruct Hq as [H1 H2]. pose proof (omap_delete verifying _ _ _ E) as Hd. simpl in Hd. split; simpl; [by rewrite <- Hd|]. intros x. by rewrite H2, Hd.
    + destruct Hq as [H1 H2]. pose proof (omap_delete verifying _ _ _ E) as Hd. simpl in Hd. split; simpl; [by rewrite <- Hd|]. intros x. by rewrite H2, Hd.
    + by apply (queue_ok_again id i q (vq_events q) (vq_err q) None EmptyString).
    + by apply (queue_ok_again id i q None EmptyString (vq_events q) m).
    + by apply queue_ok_end.
    + by apply queue_ok_end.
Qed.
