(* ===== verification/Contacts.v ===== *)
(** * The contacts of a site

    The page on which a customer keeps the people of a site
    ([app/portal/sites/[id]/contacts/page.tsx]) and its handlers
    ([internal/api/site_contacts.go], [internal/database/platform_db.go]). *)

From S2P Require Import Prelude Types Http SiteServer.
From Stdlib Require Import Ascii.
#[local] Open Scope string_scope.
#[local] Open Scope Z_scope.

(** ** The server *)

Record CustomerContact := mkCustomerContact {
  cc_name : string;
  cc_role : string;
  cc_phone : string;
  cc_email : string;
  cc_notify : bool;
  cc_notes : string
}.

(** A row of sites: its key, its organization and [customer_contacts]. *)
Record ContactSite := mkContactSite { cs_id : string; cs_org : string; cs_contacts : list CustomerContact }.

(** The scope of a caller. *)
Record FullScope := mkFullScope { fs_role : string; fs_org : string; fs_assigned : list string }.

Definition IsUnscoped (s : FullScope) : bool := includes (fs_role s) ["admin"; "soc_supervisor"; "soc_operator"].

Definition contact_site (id : string) (db : list ContactSite) : option ContactSite := find_where (λ r, String.eqb (cs_id r) id) db.

Definition canAccessSite (s : FullScope) (id : string) (db : list ContactSite) : bool :=
  if includes id (fs_assigned s) then true
  else if negb (truthy_str (fs_org s)) then false
  else match contact_site id db with Some r => String.eqb (cs_org r) (fs_org s) | None => false end.

(** [HandleListSiteContacts]: the status and the list. *)
Definition HandleListSiteContacts (s : FullScope) (id : string) (db : list ContactSite) : Z * list CustomerContact :=
  if negb (truthy_str id) then (400, [])
  else if negb (IsUnscoped s) && negb (canAccessSite s id db) then (404, [])
  else match contact_site id db with Some r => (200, cs_contacts r) | None => (500, []) end.

Definition decode_contact (j : json) : option CustomerContact :=
  match j with
  | JObj _ | JNull =>
      n ← go_string (jget "name" j); r ← go_string (jget "role" j); p ← go_string (jget "phone" j); e ← go_string (jget "email" j);
      b ← go_bool (jget "notify_on_alarm" j); t ← go_string (jget "notes" j); Some (mkCustomerContact n r p e b t)
  | _ => None
  end.
Definition decode_contacts (body : json) : option (list CustomerContact) :=
  match body with JNull => Some [] | JArr l => mapM decode_contact l | _ => None end.

(** The database takes no text with the byte 0 into a JSON column. *)
Definition no_nul (s : string) : bool := negb (existsb (λ c, Ascii.eqb c "000"%char) (String.list_ascii_of_string s)).
Definition json_column (l : list CustomerContact) : bool :=
  forallb (λ c, no_nul (cc_name c) && no_nul (cc_role c) && no_nul (cc_phone c) && no_nul (cc_email c) && no_nul (cc_notes c)) l.

Definition put_contacts (l : list CustomerContact) (r : ContactSite) : ContactSite := mkContactSite (cs_id r) (cs_org r) l.

(** [SetCustomerContacts]; a site that does not exist is no error. *)
Definition SetCustomerContacts (id : string) (l : list CustomerContact) (db : list ContactSite) : option (list ContactSite) :=
  if json_column l then Some (map_where (λ r, String.eqb (cs_id r) id) (put_contacts l) db) else None.

Definition HandleUpdateSiteContacts (s : FullScope) (id : string) (body : json) (db : list ContactSite) : Z * list ContactSite :=
  if negb (truthy_str id) then (400, db)
  else if negb (includes (fs_role s) ["admin"; "soc_supervisor"; "site_manager"]) then (403, db)
  else if negb (IsUnscoped s) && negb (canAccessSite s id db) then (404, db)
  else match decode_contacts body with
       | None => (400, db)
       | Some l => match SetCustomerContacts id l db with Some db' => (204, db') | None => (500, db) end
       end.

(** ** The page *)

(** [notes] may be absent. *)
Record Contact := mkContact { co_name : string; co_role : string; co_phone : string; co_email : string; co_notify : bool; co_notes : option string }.

Definition EMPTY_CONTACT : Contact := mkContact EmptyString EmptyString EmptyString EmptyString true (Some EmptyString).

(** What [JSON.stringify] makes of a contact, and the page of the server's; blank notes are
    omitted by the server. *)
Definition contact_json (c : Contact) : json :=
  JObj ([("name", JStr (co_name c)); ("role", JStr (co_role c)); ("phone", JStr (co_phone c)); ("email", JStr (co_email c)); ("notify_on_alarm", JBool (co_notify c))]
        ++ match co_notes c with Some t => [("notes", JStr t)] | None => [] end)%list.
Definition contact_out (c : CustomerContact) : Contact :=
  mkContact (cc_name c) (cc_role c) (cc_phone c) (cc_email c) (cc_notify c) (if truthy_str (cc_notes c) then Some (cc_notes c) else None).

Inductive ContactPatch := PName (v : string) | PRole (v : string) | PPhone (v : string) | PEmail (v : string) | PNotify (b : bool) | PNotes (v : string).

Definition patch_contact (p : ContactPatch) (c : Contact) : Contact :=
  match p with
  | PName v => mkContact v (co_role c) (co_phone c) (co_email c) (co_notify c) (co_notes c)
  | PRole v => mkContact (co_name c) v (co_phone c) (co_email c) (co_notify c) (co_notes c)
  | PPhone v => mkContact (co_name c) (co_role c) v (co_email c) (co_notify c) (co_notes c)
  | PEmail v => mkContact (co_name c) (co_role c) (co_phone c) v (co_notify c) (co_notes c)
  | PNotify b => mkContact (co_name c) (co_role c) (co_phone c) (co_email c) b (co_notes c)
  | PNotes v => mkContact (co_name c) (co_role c) (co_phone c) (co_email c) (co_notify c) (Some v)
  end.

Inductive ContactsTask := CkLoad | CkSave (next : list Contact).
Inductive ContactsReply := KyList (l : list Contact) | KySaved | KyFails (message : string).

Record ContactsPage := mkContactsPage {
  kp_contacts : option (list Contact);
  kp_saving : bool;
  kp_saved_at : Z;
  kp_err : string;
  kp_tasks : list ContactsTask
}.

Definition mount_contacts (siteId : string) : ContactsPage := mkContactsPage None false 0 EmptyString (if truthy_str siteId then [CkLoad] else []).

Definition show_contacts (l : option (list Contact)) (p : ContactsPage) : ContactsPage := mkContactsPage l (kp_saving p) (kp_saved_at p) (kp_err p) (kp_tasks p).

(** [save(next)] *)
Definition save_contacts (next : list Contact) (p : ContactsPage) : ContactsPage :=
  mkContactsPage (kp_contacts p) true (kp_saved_at p) EmptyString (kp_tasks p ++ [CkSave next])%list.

Definition contacts_resume (t : ContactsTask) (now : Z) (r : ContactsReply) (p : ContactsPage) : ContactsPage :=
  match t, r with
  | CkLoad, KyList l => show_contacts (Some l) p
  | CkLoad, KyFails m => mkContactsPage (kp_contacts p) (kp_saving p) (kp_saved_at p) m (kp_tasks p)
  | CkSave next, KySaved => mkContactsPage (Some next) false now (kp_err p) (kp_tasks p)
  | CkSave _, KyFails m => mkContactsPage (kp_contacts p) false (kp_saved_at p) m (kp_tasks p)
  | _, _ => p
  end.

Inductive ContactsEvent := KeChange (i : nat) (x : ContactPatch) | KeRemove (i : nat) | KeAdd | KeSave | KeSettles (i : nat) (now : Z) (r : ContactsReply).

Definition contacts_step (e : ContactsEvent) (p : ContactsPage) : ContactsPage :=
  match e with
  | KeSettles i now r =>
      match kp_tasks p !! i with
      | Some t => contacts_resume t now r (mkContactsPage (kp_contacts p) (kp_saving p) (kp_saved_at p) (kp_err p) (delete i (kp_tasks p)))
      | None => p
      end
  | _ =>
      match kp_contacts p with
      | None => p
      | Some l =>
          match e with
          | KeChange i x => show_contacts (Some (alter (patch_contact x) i l)) p
          | KeRemove i => if bool_decide (i < length l)%nat then save_contacts (delete i l) p else p
          | KeAdd => show_contacts (Some (l ++ [EMPTY_CONTACT])%list) p
          | _ => if kp_saving p then p else save_contacts l p
          end
      end
  end.

Definition contacts_run (es : list ContactsEvent) (p : ContactsPage) : ContactsPage := foldl (λ p e, contacts_step e p) p es.

(** The answers of the server to the requests of the page. *)
Definition contacts_serve (error_text : Z → string) (s : FullScope) (id : string) (t : ContactsTask) (db : list ContactSite) : ContactsReply * list ContactSite :=
  match t with
  | CkLoad => let '(st, l) := HandleListSiteContacts s id db in (if st =? 200 then KyList (contact_out <$> l) else KyFails (error_text st), db)
  | CkSave next => let '(st, db') := HandleUpdateSiteContacts s id (JArr (contact_json <$> next)) db in (if st =? 204 then KySaved else KyFails (error_text st), db')
  end.

(** ** Theorems *)

(** *** A list that is saved *)

(** A contact as it comes back: blank notes are absent. *)
Definition tidy (c : Contact) : Contact :=
  mkContact (co_name c) (co_role c) (co_phone c) (co_email c) (co_notify c) (match co_notes c with Some t => if truthy_str t then Some t else None | None => None end).

Definition stored_contact (c : Contact) : CustomerContact := mkCustomerContact (co_name c) (co_role c) (co_phone c) (co_email c) (co_notify c) (default EmptyString (co_notes c)).

Lemma decode_contact_json c : decode_contact (contact_json c) = Some (stored_contact c).
Proof. by destruct c as [n r p e b [t|]]. Qed.

Lemma contact_out_stored c : contact_out (stored_contact c) = tidy c.
Proof. by destruct c as [n r p e b [t|]]. Qed.

Lemma decode_contacts_json l : decode_contacts (JArr (contact_json <$> l)) = Some (stored_contact <$> l).
Proof.
  unfold decode_contacts. apply mapM_Some, Forall2_fmap, Forall_Forall2_diag, Forall_true. apply decode_contact_json.
Qed.

Lemma contact_site_map id id' f db : (∀ r, cs_id (f r) = cs_id r) →
  contact_site id (map_where (λ r, String.eqb (cs_id r) id') f db) = (λ r, if String.eqb id id' then f r else r) <$> contact_site id db.
Proof.
  intros Hf. unfold contact_site. induction db as [|r db IH]; [done|].
  change (map_where ?p f (r :: db)) with ((if p r then f r else r) :: map_where p f db). rewrite !find_where_cons, IH.
  destruct (String.eqb_spec (cs_id r) id') as [E|E]; rewrite ?Hf; destruct (String.eqb_spec (cs_id r) id) as [E'|E']; try done; simpl; f_equal.
  - by rewrite <- E, <- E', String.eqb_refl.
  - destruct (String.eqb_spec id id'); [congruence|done].
Qed.

(** Who may read and who may write. *)
Definition may_read (s : FullScope) (id : string) (db : list ContactSite) : bool := IsUnscoped s || canAccessSite s id db.
Definition may_write (s : FullScope) (id : string) (db : list ContactSite) : bool := includes (fs_role s) ["admin"; "soc_supervisor"; "site_manager"] && may_read s id db.

Lemma update_writes s id body db l : truthy_str id = true → may_write s id db = true → decode_contacts body = Some l → json_column l = true →
  HandleUpdateSiteContacts s id body db = (204, map_where (λ r, String.eqb (cs_id r) id) (put_contacts l) db).
Proof.
  unfold may_write, may_read. intros Hi [Hr Ha]%andb_true_iff Hd Hj. unfold HandleUpdateSiteContacts, SetCustomerContacts. rewrite Hi, Hr, Hd, Hj. cbn [negb].
  by rewrite <- negb_orb, Ha.
Qed.

Lemma may_read_same s id db db' : cs_org <$> contact_site id db' = cs_org <$> contact_site id db → may_read s id db' = may_read s id db.
Proof.
  intros H. unfold may_read, canAccessSite. f_equal. destruct (includes id (fs_assigned s)); [done|]. destruct (negb _); [done|].
  destruct (contact_site id db'), (contact_site id db); simplify_eq/=; congruence.
Qed.

(** What is saved comes back.  When a list is saved by someone who may write it, for a
    site that exists, the answer is a success and the next load gives the list, but for blank
    notes, which are left out; the contacts of the other sites are as before. *)
Theorem contacts_saved et s id l db :
  truthy_str id = true → may_write s id db = true → is_Some (contact_site id db) → json_column (stored_contact <$> l) = true →
  ∃ db', contacts_serve et s id (CkSave l) db = (KySaved, db') ∧ contacts_serve et s id CkLoad db' = (KyList (tidy <$> l), db') ∧
    (∀ id', id' ≠ id → contact_site id' db' = contact_site id' db).
Proof.
  intros Hi Hw [r Hr] Hj. eexists. unfold contacts_serve. rewrite (update_writes s id _ db _ Hi Hw (decode_contacts_json l) Hj). split; [reflexivity|].
  assert (Hrow : contact_site id (map_where (λ r, String.eqb (cs_id r) id) (put_contacts (stored_contact <$> l)) db) = Some (put_contacts (stored_contact <$> l) r)).
  { rewrite contact_site_map by done. rewrite Hr, String.eqb_refl. done. }
  split.
  - unfold HandleListSiteContacts. rewrite Hi. cbn [negb]. rewrite <- negb_orb. change (IsUnscoped s || canAccessSite s id ?d) with (may_read s id d).
    rewrite (may_read_same s id db) by (by rewrite Hrow, Hr). apply andb_true_iff in Hw as [_ Hw]. rewrite Hw. cbn [negb]. rewrite Hrow. simpl.
    do 2 f_equal. rewrite <- list_fmap_compose. apply list_fmap_ext. intros i c _. apply contact_out_stored.
  - intros id' Hne. rewrite contact_site_map by done. rewrite (proj2 (String.eqb_neq _ _) Hne). by destruct (contact_site id' db).
Qed.

Definition yard : list ContactSite := [mkContactSite "S1" "acme" []; mkContactSite "S2" "apex" []].
Definition manager : FullScope := mkFullScope "site_manager" "acme" [].

Lemma contacts_saved_witness :
  ∃ db', contacts_serve (λ _, EmptyString) manager "S1" (CkSave [EMPTY_CONTACT]) yard = (KySaved, db') ∧
         contacts_serve (λ _, EmptyString) manager "S1" CkLoad db' = (KyList [tidy EMPTY_CONTACT], db').
Proof.
  destruct (contacts_saved (λ _, EmptyString) manager "S1" [EMPTY_CONTACT] yard) as (db' & H1 & H2 & _); [reflexivity|reflexivity|by eexists|reflexivity|by exists db'].
Defined.

(** Whose contacts they are.  Reading gives 404 to everyone outside the operations
    centre who has neither the site assigned nor its organization; writing is further kept to
    administrators, supervisors and site managers; a request that is refused changes nothing,
    and one that is not changes the contacts of the one site only.  So a site of another
    organization is out of reach unless it is assigned. *)
Theorem contacts_guarded s id body db : truthy_str id = true →
  ((HandleListSiteContacts s id db).1 = 404 ↔ may_read s id db = false) ∧
  (may_write s id db = false → (HandleUpdateSiteContacts s id body db).2 = db ∧ (HandleUpdateSiteContacts s id body db).1 ∈ [403; 404]) ∧
  (∀ id', id' ≠ id → contact_site id' (HandleUpdateSiteContacts s id body db).2 = contact_site id' db) ∧
  (∀ r, contact_site id db = Some r → IsUnscoped s = false → cs_org r ≠ fs_org s → id ∉ fs_assigned s → may_read s id db = false).
Proof.
  intros Hi. split_and!.
  - unfold HandleListSiteContacts. rewrite Hi. cbn [negb]. rewrite <- negb_orb. change (IsUnscoped s || canAccessSite s id db) with (may_read s id db).
    destruct (may_read s id db); simpl; [|done]. by destruct (contact_site id db).
  - unfold may_write, HandleUpdateSiteContacts. rewrite Hi. cbn [negb]. rewrite <- negb_orb. change (IsUnscoped s || canAccessSite s id db) with (may_read s id db).
    destruct (includes (fs_role s) _); cbn [negb andb]; [intros ->; simpl|intros _; simpl]; split; set_solver.
  - intros id' Hne. unfold HandleUpdateSiteContacts, SetCustomerContacts. repeat (case_match; simplify_eq/=; try done).
    rewrite contact_site_map by done. rewrite (proj2 (String.eqb_neq _ _) Hne). by destruct (contact_site id' db).
  - intros r Hr Hu Ho Ha. unfold may_read, canAccessSite. rewrite Hu, Hr. unfold includes. rewrite bool_decide_eq_false_2 by done. simpl.
    destruct (truthy_str (fs_org s)); [|done]. simpl. by apply String.eqb_neq.
Qed.

Lemma contacts_guarded_witness : may_read manager "S2" yard = false ∧ (HandleListSiteContacts manager "S2" yard).1 = 404.
Proof.
  destruct (contacts_guarded manager "S2" JNull yard eq_refl) as (H1 & _ & _ & H4).
  assert (H : may_read manager "S2" yard = false) by (eapply H4; [reflexivity|reflexivity|discriminate|intros Hx; by apply elem_of_nil in Hx]). split; [exact H|by apply H1].
Defined.

(** *** Saves that overlap *)

(** C40.  A save takes the list as it was when it was asked for.  Of two contacts removed
    before the first answer, the first comes back with the answer to the second, on the page
    and on the server; and what is typed while a save is under way is gone with its answer. *)
Theorem removed_comes_back et s id p l i j x now now' db :
  kp_contacts p = Some l → kp_tasks p = [] → i ≠ j → l !! i = Some x → (j < length l)%nat →
  truthy_str id = true → may_write s id db = true → is_Some (contact_site id db) → json_column (stored_contact <$> l) = true →
  let p2 := contacts_run [KeRemove i; KeRemove j] p in
  kp_tasks p2 = [CkSave (delete i l); CkSave (delete j l)] ∧
  (∃ db1 db2, contacts_serve et s id (CkSave (delete i l)) db = (KySaved, db1) ∧ contacts_serve et s id (CkSave (delete j l)) db1 = (KySaved, db2) ∧
     contacts_serve et s id CkLoad db2 = (KyList (tidy <$> delete j l), db2)) ∧
  (let p4 := contacts_run [KeSettles 0 now KySaved; KeSettles 0 now' KySaved] p2 in kp_contacts p4 = Some (delete j l) ∧ x ∈ delete j l) ∧
  (∀ k y, kp_contacts (contacts_run [KeSave; KeChange k y; KeSettles 0 now KySaved] (mkContactsPage (Some l) false 0 EmptyString [])) = Some l).
Proof.
  intros Hl Ht Hij Hx Hj Hi Hw Hr Hc p2. assert (Hil := lookup_lt_Some _ _ _ Hx).
  assert (H2 : p2 = mkContactsPage (Some l) true (kp_saved_at p) EmptyString [CkSave (delete i l); CkSave (delete j l)]).
  { unfold p2, contacts_run. cbn [foldl]. unfold contacts_step at 2. rewrite Hl, bool_decide_eq_true_2 by done. unfold contacts_step. cbn [kp_contacts save_contacts].
    rewrite Hl, bool_decide_eq_true_2 by done. unfold save_contacts. simpl. by rewrite Hl, Ht. }
  assert (Hdel : ∀ k, json_column (stored_contact <$> delete k l) = true).
  { intros k. apply forallb_forall. intros c Hin%list_elem_of_In. apply (proj1 (forallb_forall _ _) Hc), list_elem_of_In.
    apply list_elem_of_fmap in Hin as (y & -> & Hy). apply list_elem_of_fmap_2. by apply elem_of_delete_1 in Hy. }
  split_and!; [by rewrite H2| | |].
  - destruct (contacts_saved et s id (delete i l) db Hi Hw Hr (Hdel i)) as (db1 & E1 & _ & _).
    assert (Hsame : cs_org <$> contact_site id db1 = cs_org <$> contact_site id db ∧ is_Some (contact_site id db1)).
    { unfold contacts_serve in E1. rewrite (update_writes s id _ db _ Hi Hw (decode_contacts_json _) (Hdel i)) in E1. injection E1 as <-.
      rewrite contact_site_map by done. destruct Hr as [r ->]. rewrite String.eqb_refl. split; [done|by eexists]. }
    destruct Hsame as [Hs1 Hs2]. assert (Hw1 : may_write s id db1 = true) by (unfold may_write in *; by rewrite (may_read_same s id db db1 Hs1)).
    destruct (contacts_saved et s id (delete j l) db1 Hi Hw1 Hs2 (Hdel j)) as (db2 & E2 & E3 & _). by exists db1, db2.
  - rewrite H2. split; [done|]. destruct (decide (i < j)%nat).
    + apply (list_elem_of_lookup_2 _ i). by rewrite list_lookup_delete_lt.
    + apply (list_elem_of_lookup_2 _ (pred i)). rewrite list_lookup_delete_ge by lia. by replace (S (pred i)) with i by lia.
  - done.
Qed.

Lemma removed_comes_back_witness :
  let l := [EMPTY_CONTACT; mkContact "Ann" EmptyString EmptyString EmptyString true None] in
  ∃ db1 db2, contacts_serve (λ _, EmptyString) manager "S1" (CkSave (delete 0%nat l)) yard = (KySaved, db1) ∧
    contacts_serve (λ _, EmptyString) manager "S1" (CkSave (delete 1%nat l)) db1 = (KySaved, db2) ∧
    contacts_serve (λ _, EmptyString) manager "S1" CkLoad db2 = (KyList [tidy EMPTY_CONTACT], db2).
Proof.
  apply (removed_comes_back (λ _, EmptyString) manager "S1" (mkContactsPage (Some [EMPTY_CONTACT; mkContact "Ann" EmptyString EmptyString EmptyString true None]) false 0 EmptyString [])
    [EMPTY_CONTACT; mkContact "Ann" EmptyString EmptyString EmptyString true None] 0 1 EMPTY_CONTACT 5 6 yard);
    [reflexivity|reflexivity|discriminate|reflexivity|simpl; lia|reflexivity|reflexivity|by eexists|reflexivity].
Defined.
